(* ===== verification/_CoqProject ===== *)
-Q . S2P
Prelude.v
Buffer.v
Bencode.v
Codec.v
CryptoApi.v
Sodium.v
Frame.v
QueueManager.v
Queue.v
QueueConcurrent.v
IwpMessage.v
IwpSession.v
IwpInvariants.v
IwpTransfer.v
IwpHandshake.v
IwpFaults.v
Str.v
NetInt.v
IpRange.v
DnsName.v
DnsMessage.v
IpPacket.v
Contact.v
Kademlia.v
TrafficPolicy.v
Service.v
Protocol.v
DhtMessage.v
Routing.v
Typed.v
RoutingTypes.v
Auth.v
Conversation.v
Outbound.v
ConversationSpec.v
LinkMessage.v
DhtTx.v
Profiling.v
DhtContext.v
Dht.v
DhtSpec.v
TransitHop.v
Path.v
PathContext.v
PathSpec.v
PathReply.v
PathBuild.v
PathLife.v
PathSafety.v
PathRef.v
