(* ===== verification/Prelude.v ===== *)
(** * A verification development for llarp (lokinet)

    llarp is an onion router. Routers talk over sessions of the IWP protocol; they build paths
    through each other, keep a distributed hash table (DHT) of router contacts and of the
    introductions of hidden services, and carry the conversations, IP packets and DNS names of those
    services. The development models the parts below as executable functions and proves what makes
    each of them correct. All paths are under src/llarp.

    ** Parts and files

    Foundations
    - Prelude (this file): outcomes of code that may leave its memory region ([res]), machine
      integers by their width ([wrap], [in_width]), record update, big endian numbers, and
      lemmas on lists shared by the other files.
    - Buffer: util/buffer.hpp and buffer.cpp. [llarp_buffer_t] is a list of bytes and a cursor;
      an access outside the list is the outcome [Oob].
    - Bencode: util/bencode.hpp and bencode.cpp over such buffers. The callbacks of the
      dictionary and list readers are functions on a caller's state; codecs of elements are a
      class with laws.
    - Codec: the shape that the BEncode and DecodeKey members of all messages share, with the lemmas
      by which a message is read back as it was written.
    - CryptoApi, Sodium: crypto/crypto.hpp as classes of operations and of their laws, and
      crypto/crypto_libsodium.cpp as an implementation of them over the functions of libsodium.
    - Frame: crypto/encrypted.hpp and encrypted_frame.cpp, the frames of path builds.
    - Str: util/str.hpp and str.cpp; strings are lists of bytes.
    - QueueManager, Queue, QueueConcurrent: util/thread/queue_manager and queue.hpp. Each
      lock-free loop is a step function with one atomic access per step; reading a state word or a
      slot outside its array is [Oob]. [Queue] runs the steps of one thread; [QueueConcurrent]
      interleaves the steps of any number of threads.

    Links
    - IwpMessage, IwpSession, IwpInvariants, IwpTransfer, IwpHandshake, IwpFaults:
      iwp/message_buffer.cpp, iwp/session.cpp, worker.cpp and hasher.cpp. A
      session is a record; every handler is a function in a state monad over it. What a
      session hands to the outside (packets, deliveries, work for the crypto threads) is a
      log in the state.
    - LinkMessage: the files of messages, with link_message_parser.cpp, the messages between neighbours
      and the parser that hands them to their handlers.

    Addresses, names and packets
    - NetInt: net/uint128.hpp, net_int.hpp, net_bits.hpp, ip.hpp, util/bits.hpp.
    - IpRange, TrafficPolicy: net/ip_range.hpp, ip_range.cpp, ip_range_map.hpp, bogon_ranges.hpp, the
      predicates of net/net.hpp, and net/traffic_policy.cpp.
    - DnsName, DnsMessage: dns/name.cpp, serialize.cpp, question.cpp, rr.cpp, message.cpp and
      srv_data.cpp.
    - IpPacket: net/ip_packet.hpp and ip_packet.cpp.

    Contacts and the DHT
    - Contact: router_contact.cpp, router_version.cpp, net/address_info.cpp, service/intro.cpp and the
      encrypted set of service/intro_set.cpp.
    - Kademlia: dht/key.hpp, kademlia.hpp, bucket.hpp, node.hpp and nodedb.cpp.
    - DhtMessage, DhtTx: dht/message.cpp with dht/messages (texts and decoders), and dht/txholder.hpp.
    - Profiling: profiling.cpp, the decaying tables of util, router/rc_gossiper.cpp.
    - DhtContext, Dht, DhtSpec: dht/context.cpp with its jobs, router/rc_lookup_handler.cpp, the
      handlers of dht/messages, and the theorems. The state is one record; what leaves it (messages,
      callbacks) is a list of events, and what those set off comes back as a later input.

    Paths
    - Routing, Typed, RoutingTypes: the files of routing, exit/exit_messages.cpp and policy.cpp: the messages
      on paths and their parser; the sizes and widths of everything that is decoded.
    - TransitHop, Path, PathContext: path/transit_hop.cpp, path.cpp, path_context.cpp, pathset.cpp,
      pathbuilder.cpp, messages/relay.cpp, relay_commit.cpp and relay_status.cpp. Objects held by pointers are numbers in a table. The
      worker threads are functions on the queues they read.
    - PathSpec, PathReply, PathBuild, PathLife, PathSafety, PathRef: the theorems on a chain of
      routers, and the small network they are applied to.

    Hidden services
    - Service, Protocol, Auth: service/identity.cpp, info.cpp, intro_set.cpp, address.cpp, protocol.cpp,
      auth.cpp.
    - Conversation, Outbound, ConversationSpec: service/endpoint.cpp, session.cpp,
      async_key_exchange.cpp, sendcontext.cpp and outbound_context.cpp. What is put on worker
      threads is a value, run by a function of its own.

    ** What the theorems show

    - Links: after its XMIT a message whose fragments all arrive, in any order and with repetitions,
      is delivered with the sender's bytes; no message is delivered twice within the replay window;
      the handshake leaves both sides with the same key and bound to each other's identity; the two
      forms of acknowledgement make the sender forget or retransmit exactly what they should.
      [IwpFaults] shows inputs for which the code does something else.
    - Queue: run by one thread it is a bounded first-in first-out list; run by many, no step
      touches memory it should not, no two threads hold a cell, no value is lost or doubled.
    - Codecs: whatever is written is read back as it was, by bencode and by every message above it;
      bencode skips exactly one value and never runs on; writers stay inside the buffer; what the
      parser of routing messages hands over has the sizes and widths of its C++ types.
    - Addresses: the 128-bit integers agree with arithmetic modulo 2^128, ranges with intervals
      of integers, conversions are inverse, a private range that is found is free, and rewriting
      the addresses of a packet keeps its checksums valid.
    - DNS: names, queries and SRV lines are read back as written; replies hold what they
      should; what the decoders and encoders do outside the expected inputs.
    - Contacts and DHT: a contact that is published is read and verifies; buckets are finite maps and
      find the nearest nodes; no lookup is lost or answered twice; the tables of the context stay
      consistent whatever comes in; a set of introductions that was stored is served until it expires.
    - Paths: a path whose routers are ready is built and established, and what one end sends the other
      handles, once and unchanged; the hops between only pass it on.
    - Hidden services: a descriptor is found, verified and decrypted by who knows the address; a
      conversation that is opened has one key at both sides and carries its messages in order.
    - libsodium: the implementation keeps the laws that the theorems above assume of cryptography.
    - Several theorems show where the code fails: frames shorter than their hash, hops that expire
      with traffic waiting, a first frame that names two senders, lookups that find nothing.

    ** Conventions and bounds

    The host is little endian, as the code's own conditional compilation has it for the
    supported platforms. Integers are [Z] with their width as an invariant; wrap-around is
    written out where the code can reach it. Loops that are not structural take fuel; the
    fuel is the number of bytes left plus one for parsers (each turn of the loop consumes a
    byte), the length of the text plus one for splitters, and one round per message for the loop that
    sends, and the theorems show the outcome [NoFuel] does not occur. Logging is left out. Code of
    other projects (oxenc, libsodium, NTRU Prime, the system's inet_pton) is a class argument, its
    documented behaviour a second class of laws; each theorem that uses such a law has an instance it
    is applied to. A handler runs to its end before what it sent or called has an effect on it: calls
    back into an object while one of its members is running are not modelled.

    ** Not modelled

    Event loops, sockets, tunnel devices, the DNS server around libunbound, the entry points
    and the test tooling are input and output without logic that could be stated here. The tables of
    sessions of the link layer, the queues of outbound messages, start-up and timers of the router,
    the exit sessions and the handlers of local traffic are not modelled; where a modelled part calls
    them, the call is recorded. JSON and text forms for logs are left out. *)

From stdpp Require Export base list numbers tactics gmap.
From Stdlib Require Export ZArith Lia.
From Stdlib Require Strings.String Strings.Ascii.
Export String.StringSyntax.

#[export] Set Default Goal Selector "!".
#[export] Set Warnings "-clear-no-such-hyp".

Open Scope Z_scope.

(** ** Outcomes of code that can read or write outside its buffers

    [Ok] is a normal return; [Oob] is an access outside the memory region the
    code was given (undefined behaviour in C++); [Throw] is a C++ exception of the
    standard library that leaves the function; [NoFuel] is the artificial
    outcome of a loop that was cut before it finished, which the termination
    theorems exclude. *)
Inductive res (A : Type) : Type :=
| Ok (a : A)
| Oob
| Throw
| NoFuel.
Arguments Ok {A} a.
Arguments Oob {A}.
Arguments Throw {A}.
Arguments NoFuel {A}.

Definition rbind {A B} (m : res A) (f : A -> res B) : res B :=
  match m with
  | Ok a => f a
  | Oob => Oob
  | Throw => Throw
  | NoFuel => NoFuel
  end.

Declare Scope llarp_scope.
Delimit Scope llarp_scope with llarp.
Open Scope llarp_scope.

Notation "'let*' x := m 'in' k" := (rbind m (fun x => k))
  (at level 10, x pattern, m at level 100, k at level 200) : llarp_scope.

Lemma rbind_ok {A B} (a : A) (f : A -> res B) : (let* x := Ok a in f x) = f a.
Proof. reflexivity. Qed.

Lemma rbind_inv {A B} (m : res A) (f : A -> res B) b :
  (let* x := m in f x) = Ok b -> exists a, m = Ok a /\ f a = Ok b.
Proof. destruct m; [by eauto | done..]. Qed.

Lemma rbind_fuel {A B} (m : res A) (f : A -> res B) :
  m <> NoFuel -> (forall a, m = Ok a -> f a <> NoFuel) -> (let* x := m in f x) <> NoFuel.
Proof. destruct m; naive_solver. Qed.

(** ** Lists *)
Lemma snoc_app {A} (l : list A) x k : (l ++ [x]) ++ k = l ++ x :: k.
Proof. by rewrite <- app_assoc. Qed.

(** ** Record update

    [r <| f := v |>] and [r <| f ::= g |>] change one field. A record type declares its
    eta expansion as an instance of [Eta]; the update of a field is found by abstracting
    that field in it. *)
Class Eta (R : Type) := eta : R -> R.
Class Update {R T : Type} (field : R -> T) := update : (T -> T) -> R -> R.

Ltac solve_update :=
  lazymatch goal with
  | |- @Update ?R ?T ?field =>
      let e := constr:(_ : Eta R) in
      let e := eval hnf in e in
      let p := eval pattern field in e in
      lazymatch p with
      | (fun _ => ?b) _ => fail "not a field"
      | ?F _ => exact (fun (g : T -> T) (r : R) => F (fun r' => g (field r')) r)
      end
  end.
#[export] Hint Extern 0 (Update _) => solve_update : typeclass_instances.

Notation "r <| f := v |>" := (update (field:=f) (fun _ => v) r)
  (at level 1, left associativity) : llarp_scope.
Notation "r <| f ::= g |>" := (update (field:=f) g r)
  (at level 1, left associativity) : llarp_scope.

(** ** Machine integers

    An unsigned integer of [w] bits is a [Z]; [wrap w] is the reduction the
    machine performs. [to_signed w] is the two's-complement reading. *)
Definition wrap (w x : Z) : Z := x mod 2 ^ w.
Definition to_signed (w x : Z) : Z :=
  let y := wrap w x in if y <? 2 ^ (w - 1) then y else y - 2 ^ w.

Abbreviation u8 := (wrap 8).
Abbreviation u16 := (wrap 16).
Abbreviation u32 := (wrap 32).
Abbreviation u64 := (wrap 64).
Abbreviation i32 := (to_signed 32).

Definition in_width (w x : Z) : Prop := 0 <= x < 2 ^ w.

Lemma wrap_bound w x : 0 <= w -> in_width w (wrap w x).
Proof. intros. apply Z.mod_pos_bound, Z.pow_pos_nonneg; lia. Qed.

Lemma wrap_id w x : in_width w x -> wrap w x = x.
Proof. apply Z.mod_small. Qed.

Lemma to_signed_id w x :
  0 < w -> - 2 ^ (w - 1) <= x < 2 ^ (w - 1) -> to_signed w x = x.
Proof.
  intros Hw Hx. unfold to_signed, wrap.
  assert (2 ^ w = 2 * 2 ^ (w - 1)) as Hp
    by (rewrite <- Z.pow_succ_r by lia; f_equal; lia).
  destruct (decide (0 <= x)).
  - rewrite Z.mod_small by lia. case_match; lia.
  - rewrite <- (Z.mod_add _ 1), Z.mod_small by lia. case_match; lia.
Qed.

(** ** Bytes and big-endian integers *)
Definition is_byte (b : Z) : Prop := 0 <= b < 256.
Definition bytes (l : list Z) : Prop := Forall is_byte l.

#[export] Instance is_byte_dec b : Decision (is_byte b).
Proof. unfold is_byte. apply _. Defined.

(** The [n]-byte big-endian image of [v], and the value of a byte string. *)
Fixpoint be_encode (n : nat) (v : Z) : list Z :=
  match n with
  | O => []
  | S n' => (v / 256 ^ Z.of_nat n') mod 256 :: be_encode n' v
  end.

Fixpoint be_decode (l : list Z) : Z :=
  match l with
  | [] => 0
  | b :: r => b * 256 ^ Z.of_nat (length r) + be_decode r
  end.

Lemma length_be_encode n v : length (be_encode n v) = n.
Proof. induction n; simpl; auto. Qed.

Lemma be_encode_bytes n v : bytes (be_encode n v).
Proof.
  induction n; simpl; constructor; [|done]. apply Z.mod_pos_bound. lia.
Qed.

Lemma be_decode_bound l : bytes l -> 0 <= be_decode l < 256 ^ Z.of_nat (length l).
Proof.
  induction 1 as [|b r Hb _ IH]; cbn [be_decode length]; [lia|].
  rewrite Nat2Z.inj_succ, Z.pow_succ_r by lia. unfold is_byte in Hb. nia.
Qed.

Fixpoint le_decode (l : list Z) : Z := match l with [] => 0 | b :: r => b + 256 * le_decode r end.
Lemma le_decode_bound l : bytes l -> 0 <= le_decode l < 256 ^ Z.of_nat (length l).
Proof.
  induction 1 as [|b r Hb _ IH]; cbn [le_decode length]; [lia|]. rewrite Nat2Z.inj_succ, Z.pow_succ_r by lia. unfold is_byte in Hb. lia.
Qed.
Lemma be_decode_encode_mod n v : be_decode (be_encode n v) = v mod 256 ^ Z.of_nat n.
Proof.
  induction n as [|n IH]; cbn [be_encode be_decode]; [by rewrite Z.mod_1_r|].
  rewrite length_be_encode, IH, Nat2Z.inj_succ, Z.pow_succ_r, (Z.mul_comm 256) by lia.
  assert (0 < 256 ^ Z.of_nat n) by (apply Z.pow_pos_nonneg; lia).
  rewrite Z.rem_mul_r by lia. lia.
Qed.

Lemma be_decode_encode n v :
  0 <= v < 256 ^ Z.of_nat n -> be_decode (be_encode n v) = v.
Proof. intros. rewrite be_decode_encode_mod. by apply Z.mod_small. Qed.

Lemma be_encode_mod n m v :
  (n <= m)%nat -> be_encode n (v mod 256 ^ Z.of_nat m) = be_encode n v.
Proof.
  induction n as [|n IH]; intros Hn; cbn [be_encode]; [done|].
  rewrite IH by lia. f_equal.
  assert (256 ^ Z.of_nat m = 256 ^ Z.of_nat n * (256 * 256 ^ Z.of_nat (m - S n))) as ->.
  { rewrite <- Z.pow_succ_r, <- Z.pow_add_r by lia. f_equal. lia. }
  assert (0 < 256 ^ Z.of_nat n /\ 0 < 256 ^ Z.of_nat (m - S n)) as [??]
    by (split; apply Z.pow_pos_nonneg; lia).
  rewrite Z.rem_mul_r, (Z.mul_comm (256 ^ Z.of_nat n)), Z.div_add by nia.
  rewrite (Z.div_small (_ mod _)) by (apply Z.mod_pos_bound; lia).
  rewrite Z.add_0_l, Z.rem_mul_r, (Z.mul_comm 256), Z.mod_add, Z.mod_mod by lia. done.
Qed.

Lemma be_encode_decode l : bytes l -> be_encode (length l) (be_decode l) = l.
Proof.
  induction 1 as [|b r Hb Hr IH]; cbn [be_encode be_decode length]; [done|].
  pose proof (be_decode_bound r Hr). unfold is_byte in Hb. f_equal.
  - rewrite Z.add_comm, Z.div_add, Z.div_small by lia. apply Z.mod_small. lia.
  - etransitivity; [|exact IH].
    rewrite <- (be_encode_mod _ (length r)) by done.
    rewrite Z.add_comm, Z.mod_add by lia. rewrite be_encode_mod; done.
Qed.

(** ** The endian helpers of oxenc

    [oxenc] is a third-party library (a submodule). The development takes its
    two functions as parameters: [write_host_as_big n v] is the image the
    library stores for an [n]-byte unsigned integer, [load_big_to_host n l] the
    integer it loads from [n] bytes. [OxencSpec] is their documented behaviour. *)
Class Oxenc := {
  write_host_as_big : nat -> Z -> list Z;
  load_big_to_host : nat -> list Z -> Z;
}.

Class OxencSpec (O : Oxenc) : Prop := {
  write_host_as_big_spec n v :
    0 <= v < 256 ^ Z.of_nat n -> write_host_as_big n v = be_encode n v;
  load_big_to_host_spec n l :
    length l = n -> bytes l -> load_big_to_host n l = be_decode l;
}.

(** The reference instance, used by the concrete examples. *)
Definition oxenc_ref : Oxenc :=
  {| write_host_as_big := be_encode; load_big_to_host := fun _ => be_decode |}.

#[export] Instance oxenc_ref_spec : OxencSpec oxenc_ref.
Proof. by split. Qed.

Section oxenc_lemmas.
Context {O : Oxenc} {OS : OxencSpec O}.

Lemma length_write_big n v :
  0 <= v < 256 ^ Z.of_nat n -> length (write_host_as_big n v) = n.
Proof. intros. rewrite write_host_as_big_spec by done. apply length_be_encode. Qed.

Lemma write_big_bytes n v :
  0 <= v < 256 ^ Z.of_nat n -> bytes (write_host_as_big n v).
Proof. intros. rewrite write_host_as_big_spec by done. apply be_encode_bytes. Qed.

Lemma load_write_big n v :
  0 <= v < 256 ^ Z.of_nat n -> load_big_to_host n (write_host_as_big n v) = v.
Proof.
  intros. rewrite write_host_as_big_spec by done.
  rewrite load_big_to_host_spec; [by apply be_decode_encode | apply length_be_encode
    | apply be_encode_bytes].
Qed.

Lemma load_big_bound n l :
  length l = n -> bytes l -> 0 <= load_big_to_host n l < 256 ^ Z.of_nat n.
Proof.
  intros <- Hb. rewrite load_big_to_host_spec by done. by apply be_decode_bound.
Qed.
End oxenc_lemmas.

(** ** Byte vectors accessed through raw pointers

    [peek off n l] reads the [n] bytes at offset [off], [poke off src l] copies [src]
    there; both are [Oob] when they leave the vector. *)
Definition peek (off n : nat) (l : list Z) : res (list Z) :=
  if (off + n <=? length l)%nat then Ok (take n (drop off l)) else Oob.
Definition poke (off : nat) (src l : list Z) : res (list Z) :=
  if (off + length src <=? length l)%nat
  then Ok (take off l ++ src ++ drop (off + length src) l) else Oob.
Definition byte_at (i : nat) (l : list Z) : res Z :=
  match l !! i with Some b => Ok b | None => Oob end.
Definition load_big {O : Oxenc} (off n : nat) (l : list Z) : res Z :=
  let* bs := peek off n l in Ok (load_big_to_host n bs).

Lemma peek_app a b c off n : off = length a -> n = length b -> peek off n (a ++ b ++ c) = Ok b.
Proof.
  intros -> ->. unfold peek. rewrite !length_app.
  rewrite (proj2 (Nat.leb_le _ _)) by lia. by rewrite drop_app_length, take_app_length.
Qed.

Lemma poke_app a b c src off :
  off = length a -> length src = length b -> poke off src (a ++ b ++ c) = Ok (a ++ src ++ c).
Proof.
  intros -> Hs. unfold poke. rewrite !length_app, Hs, (proj2 (Nat.leb_le _ _)) by lia.
  rewrite take_app_length. do 2 f_equal. rewrite drop_app_add, drop_app_length. done.
Qed.

Lemma byte_at_app a b c i : i = length a -> byte_at i (a ++ b :: c) = Ok b.
Proof. intros ->. unfold byte_at. by rewrite list_lookup_middle. Qed.

Lemma load_big_app {O : Oxenc} {OS : OxencSpec O} a v c off n :
  off = length a -> 0 <= v < 256 ^ Z.of_nat n ->
  load_big off n (a ++ write_host_as_big n v ++ c) = Ok v.
Proof.
  intros Ho Hv. unfold load_big. rewrite peek_app by (rewrite ?length_write_big; done).
  cbn [rbind]. by rewrite load_write_big.
Qed.

(** ** String literals *)
Fixpoint chars (s : String.string) : list Z :=
  match s with
  | String.EmptyString => []
  | String.String c s => Z.of_N (Ascii.N_of_ascii c) :: chars s
  end.
Arguments chars s%_string_scope.

(** ** Decimal text: what printf's unsigned conversions write *)
Definition is_digit (c : Z) : bool := (48 <=? c) && (c <=? 57).

Fixpoint dec_digits (fuel : nat) (n : Z) : list Z :=
  match fuel with
  | O => [48 + n mod 10]
  | S f => if n <? 10 then [48 + n] else dec_digits f (n / 10) ++ [48 + n mod 10]
  end.

Definition print_dec (n : Z) : list Z := dec_digits (Z.to_nat (Z.log2 n)) n.

(** The value of a maximal run of digits, continuing from [acc]. *)
Fixpoint parse_digits (acc : Z) (l : list Z) : Z :=
  match l with
  | c :: r => if is_digit c then parse_digits (10 * acc + (c - 48)) r else acc
  | [] => acc
  end.

Lemma parse_digits_app acc l c :
  Forall (fun c => is_digit c = true) l ->
  is_digit c = true ->
  parse_digits acc (l ++ [c]) = 10 * parse_digits acc l + (c - 48).
Proof.
  intros Hl Hc. revert acc. induction Hl as [|d r Hd _ IH]; intros acc; simpl.
  - by rewrite Hc.
  - by rewrite Hd, IH.
Qed.

Lemma is_digit_of n : 0 <= n < 10 -> is_digit (48 + n) = true.
Proof. unfold is_digit. lia. Qed.

Lemma dec_digits_spec fuel n :
  0 <= n < 10 * 2 ^ Z.of_nat fuel ->
  Forall (fun c => is_digit c = true) (dec_digits fuel n) /\
  parse_digits 0 (dec_digits fuel n) = n /\
  (0 < length (dec_digits fuel n))%nat /\
  forall k, 0 < k -> n < 10 ^ k -> Z.of_nat (length (dec_digits fuel n)) <= k.
Proof.
  revert n. induction fuel as [|f IH]; intros n Hn; cbn [dec_digits].
  { rewrite Z.mod_small by lia. cbn [length].
    split_and!; [repeat constructor; by apply is_digit_of| |lia|lia].
    cbn [parse_digits]. rewrite is_digit_of by lia. lia. }
  rewrite Nat2Z.inj_succ, Z.pow_succ_r in Hn by lia.
  destruct (Z.ltb_spec n 10).
  { pose proof (is_digit_of n). cbn [length]. split_and!; [repeat constructor; auto with lia| |lia|lia].
    cbn [parse_digits]. rewrite is_digit_of by lia. lia. }
  pose proof (Z.div_lt n 10). pose proof (Z.div_pos n 10).
  pose proof (Z.mod_pos_bound n 10). pose proof (Z.div_mod n 10).
  destruct (IH (n / 10)) as (Hd & Hp & Hl & Hk); [lia..|].
  rewrite length_app. cbn [length]. split_and!.
  - apply Forall_app. split; [done|]. repeat constructor. by apply is_digit_of; lia.
  - rewrite parse_digits_app, Hp by (auto; apply is_digit_of; lia). lia.
  - lia.
  - intros k Hk0 Hnk. assert (1 < k).
    { destruct (decide (k = 1)) as [->|]; lia. }
    specialize (Hk (k - 1)). rewrite Nat2Z.inj_add.
    enough (n / 10 < 10 ^ (k - 1)) by lia.
    apply Z.div_lt_upper_bound; [lia|]. rewrite <- Z.pow_succ_r by lia.
    by replace (Z.succ (k - 1)) with k by lia.
Qed.

Lemma print_dec_fuel n : 0 <= n -> 0 <= n < 10 * 2 ^ Z.of_nat (Z.to_nat (Z.log2 n)).
Proof.
  intros. rewrite Z2Nat.id by apply Z.log2_nonneg.
  destruct (decide (n = 0)) as [->|]; [simpl; lia|].
  pose proof (Z.log2_spec n). rewrite Z.pow_succ_r in * by apply Z.log2_nonneg. lia.
Qed.

Lemma print_dec_digits n : 0 <= n -> Forall (fun c => is_digit c = true) (print_dec n).
Proof. intros. by apply dec_digits_spec, print_dec_fuel. Qed.

Lemma parse_print_dec n : 0 <= n -> parse_digits 0 (print_dec n) = n.
Proof. intros. by apply dec_digits_spec, print_dec_fuel. Qed.

Lemma print_dec_nonempty n : 0 <= n -> (0 < length (print_dec n))%nat.
Proof. intros. by apply dec_digits_spec, print_dec_fuel. Qed.

Lemma length_print_dec n k :
  0 <= n -> 0 < k -> n < 10 ^ k -> Z.of_nat (length (print_dec n)) <= k.
Proof. intros. by apply (dec_digits_spec (Z.to_nat (Z.log2 n))); [apply print_dec_fuel|..]. Qed.

(** ** Lexicographic order

    The order of [std::array] and [std::vector], a strict total order. *)
Fixpoint lex_lt (a b : list Z) : bool :=
  match a, b with
  | x :: a, y :: b => (x <? y) || ((x =? y) && lex_lt a b)
  | [], _ :: _ => true
  | _, [] => false
  end.
Lemma lex_lt_irrefl a : lex_lt a a = false.
Proof. induction a as [|x a IH]; cbn [lex_lt]; [done|]. rewrite IH. lia. Qed.
Lemma lex_lt_trans a b c : lex_lt a b = true -> lex_lt b c = true -> lex_lt a c = true.
Proof.
  revert b c. induction a as [|x a IH]; intros [|y b] [|z c]; cbn [lex_lt]; try done. intros H1 H2.
  apply orb_true_iff in H1, H2. apply orb_true_iff.
  destruct H1 as [H1|[H1 H1']%andb_true_iff], H2 as [H2|[H2 H2']%andb_true_iff]; [left; lia..|].
  right. apply andb_true_iff. split; [lia|eauto].
Qed.
Lemma lex_lt_total a b : lex_lt a b = false -> lex_lt b a = false -> a = b.
Proof.
  revert b. induction a as [|x a IH]; intros [|y b]; cbn [lex_lt]; try done. intros H1 H2.
  apply orb_false_iff in H1 as [H1 H1'], H2 as [H2 H2']. assert (x = y) as -> by lia. f_equal.
  rewrite Z.eqb_refl in *. cbn in *. auto.
Qed.
Lemma lex_lt_asym a b : lex_lt a b = true -> lex_lt b a = false.
Proof.
  intros H. destruct (lex_lt b a) eqn:E; [|done]. pose proof (lex_lt_trans _ _ _ H E) as H'. by rewrite lex_lt_irrefl in H'.
Qed.
Lemma lex_lt_le_trans a b c : lex_lt a b = false -> lex_lt b c = false -> lex_lt a c = false.
Proof.
  intros H1 H2. destruct (lex_lt a c) eqn:E; [|done]. destruct (lex_lt c b) eqn:E2.
  - by rewrite (lex_lt_trans _ _ _ E E2) in H1.
  - rewrite (lex_lt_total b c H2 E2) in H1. congruence.
Qed.
