(* ===== verification/Buffer.v ===== *)
(** * llarp_buffer_t (llarp/util/buffer.hpp, llarp/util/buffer.cpp)

    A buffer is the region [base, base + sz) with a stream position [cur]. The
    model keeps the bytes of the region ([mem], so [sz] is its length) and the
    offset of [cur] from [base]. Reading or writing a byte outside the region is
    [Oob]. The member functions that return a bool and move the position return
    the pair of both. *)

From S2P Require Import Prelude.

Record llarp_buffer_t := Buffer { mem : list Z; cur : nat }.

Definition sz (b : llarp_buffer_t) : nat := length (mem b).

(** A buffer whose position lies between [pre] and [rest]. *)
Notation "pre ‖ rest" := (Buffer (pre ++ rest) (@length Z pre)) (at level 61) : llarp_scope.

(** The type invariant: the position never passes the end of the region. *)
Definition buf_wf (b : llarp_buffer_t) : Prop := (cur b <= sz b)%nat.

Definition advance (n : nat) (b : llarp_buffer_t) : llarp_buffer_t :=
  Buffer (mem b) (cur b + n)%nat.

(** The [*cur] of the source. *)
Definition deref (b : llarp_buffer_t) : res Z :=
  match mem b !! cur b with Some c => Ok c | None => Oob end.

(** Stores [l] from offset [cur] on, as [std::copy] and [memcpy] to [cur] do. *)
Definition store (l : list Z) (b : llarp_buffer_t) : res llarp_buffer_t :=
  if (cur b + length l <=? sz b)%nat
  then Ok (Buffer (take (cur b) (mem b) ++ l ++ drop (cur b + length l) (mem b)) (cur b))
  else Oob.

Definition size_left (b : llarp_buffer_t) : nat :=
  if (sz b <? cur b)%nat then 0%nat else (sz b - cur b)%nat.

Definition view_all (b : llarp_buffer_t) : list Z := mem b.

Definition view_remaining (b : llarp_buffer_t) : list Z := take (size_left b) (drop (cur b) (mem b)).

Definition startswith (prefix : list Z) (b : llarp_buffer_t) : bool :=
  bool_decide (take (length prefix) (view_remaining b) = prefix).

Definition read_into (dist : nat) (b : llarp_buffer_t) : option (list Z) * llarp_buffer_t :=
  if (dist <=? size_left b)%nat
  then (Some (take dist (drop (cur b) (mem b))), advance dist b)
  else (None, b).

Definition write (l : list Z) (b : llarp_buffer_t) : res (bool * llarp_buffer_t) :=
  if (length l <=? size_left b)%nat
  then let* b := store l b in Ok (true, advance (length l) b)
  else Ok (false, b).

(** [txt] is the complete expansion of the format. [vsnprintf] stores at most
    [toWrite - 1] characters of it and a terminating NUL, and returns its length. *)
Definition writef (txt : list Z) (b : llarp_buffer_t) : res (bool * llarp_buffer_t) :=
  let toWrite := size_left b in
  let written := length txt in
  let* b := (if (toWrite =? 0)%nat then Ok b
             else store (take (toWrite - 1) txt ++ [0]) b) in
  if (written =? 0)%nat then Ok (false, b)
  else if (toWrite <? written)%nat then Ok (false, b)
  else Ok (true, advance written b).

Section endian.
Context {O : Oxenc}.

Definition put (sizeof : nat) (i : Z) (b : llarp_buffer_t) : res (bool * llarp_buffer_t) :=
  if (size_left b <? sizeof)%nat then Ok (false, b)
  else let* b := store (write_host_as_big sizeof i) b in Ok (true, advance sizeof b).

Definition read (sizeof : nat) (b : llarp_buffer_t) : res (option Z * llarp_buffer_t) :=
  if (size_left b <? sizeof)%nat then Ok (None, b)
  else Ok (Some (load_big_to_host sizeof (take sizeof (drop (cur b) (mem b)))), advance sizeof b).

Definition put_uint16 := put 2.
Definition put_uint32 := put 4.
Definition put_uint64 := put 8.
Definition read_uint16 := read 2.
Definition read_uint32 := read 4.
Definition read_uint64 := read 8.
End endian.

(** The loop of [read_until]: the bytes copied to [result], at most [resultsize]. *)
Fixpoint read_until_loop (delim : Z) (resultsize : nat) (b : llarp_buffer_t)
  : res (list Z * llarp_buffer_t) :=
  if (cur b =? sz b)%nat then Ok ([], b)
  else
    let* c := deref b in
    if c =? delim then Ok ([], b)
    else match resultsize with
         | O => Ok ([], b)
         | S n =>
             let* (l, b) := read_until_loop delim n (advance 1 b) in
             Ok (c :: l, b)
         end.

(** The returned count, the content of [result] and the new position. *)
Definition read_until (delim : Z) (resultsize : nat) (b : llarp_buffer_t)
  : res (nat * list Z * llarp_buffer_t) :=
  let* (l, b) := read_until_loop delim resultsize b in
  Ok (if (size_left b =? 0)%nat then 0%nat else length l, l, b).

Definition copy (b : llarp_buffer_t) : list Z := take (sz b) (mem b).

(** [OwnedBuffer] owns a copy of the bytes; its [copy_from] and [copy_used]. *)
Definition copy_from (b : llarp_buffer_t) : list Z := take (sz b) (mem b).
Definition copy_used (b : llarp_buffer_t) : list Z := take (cur b) (mem b).

(** ** Lemmas *)

Lemma deref_cons pre c rest : deref (pre ‖ c :: rest) = Ok c.
Proof. unfold deref; cbn [mem cur]. by rewrite lookup_app_r, Nat.sub_diag by done. Qed.

Lemma deref_nil pre : deref (pre ‖ []) = Oob.
Proof. unfold deref; cbn [mem cur]. rewrite app_nil_r. by rewrite lookup_ge_None_2. Qed.

Lemma size_left_at pre rest : size_left (pre ‖ rest) = length rest.
Proof.
  unfold size_left, sz; cbn [mem cur]. rewrite length_app.
  destruct (Nat.ltb_spec (length pre + length rest) (length pre)); lia.
Qed.

Lemma advance_app pre l rest : advance (length l) (pre ‖ l ++ rest) = (pre ++ l) ‖ rest.
Proof. unfold advance; cbn [mem cur]. by rewrite app_assoc, length_app. Qed.

Lemma advance_cons pre c rest : advance 1 (pre ‖ c :: rest) = (pre ++ [c]) ‖ rest.
Proof. apply (advance_app pre [c] rest). Qed.

Lemma advance_take n pre rest :
  (n <= length rest)%nat -> advance n (pre ‖ rest) = (pre ++ take n rest) ‖ drop n rest.
Proof.
  intros Hn. unfold advance; cbn [mem cur].
  rewrite <- app_assoc, take_drop, length_app, length_take. f_equal. lia.
Qed.

Lemma cur_ne_sz pre c rest : (cur (pre ‖ c :: rest) =? sz (pre ‖ c :: rest))%nat = false.
Proof. apply Nat.eqb_neq. unfold sz; cbn [mem cur]. rewrite length_app. cbn. lia. Qed.

Lemma cur_eq_sz pre : (cur (pre ‖ []) =? sz (pre ‖ []))%nat = true.
Proof. apply Nat.eqb_eq. unfold sz; cbn [mem cur]. by rewrite app_nil_r. Qed.

Lemma buf_wf_at pre rest : buf_wf (pre ‖ rest).
Proof. unfold buf_wf, sz; cbn [mem cur]. rewrite length_app. lia. Qed.

Lemma buf_split b : buf_wf b -> b = take (cur b) (mem b) ‖ drop (cur b) (mem b).
Proof.
  intros Hb. destruct b as [m c]. unfold buf_wf, sz in Hb. cbn in *.
  rewrite take_drop, length_take. f_equal. lia.
Qed.

Lemma buf_wf_inv b : buf_wf b -> exists pre rest, b = (pre ‖ rest).
Proof. intros Hb. eauto using buf_split. Qed.

Lemma store_at pre l old rest :
  length old = length l -> store l (pre ‖ old ++ rest) = Ok (pre ‖ l ++ rest).
Proof.
  intros Hl. unfold store, sz; cbn [mem cur]. rewrite !length_app.
  destruct (Nat.leb_spec (length pre + length l) (length pre + (length old + length rest))); [|lia].
  rewrite take_app_length, drop_app_add'; [|done].
  rewrite <- Hl, drop_app_length. done.
Qed.

Lemma store_oob pre l rest :
  (length rest < length l)%nat -> store l (pre ‖ rest) = Oob.
Proof.
  intros Hl. unfold store, sz; cbn [mem cur]. rewrite !length_app.
  destruct (Nat.leb_spec (length pre + length l) (length pre + length rest)); [lia|done].
Qed.

Lemma view_remaining_at pre rest : view_remaining (pre ‖ rest) = rest.
Proof.
  unfold view_remaining. rewrite size_left_at; cbn [mem cur].
  by rewrite drop_app_length, firstn_all.
Qed.

(** A write either fits and replaces the next bytes, or changes nothing. *)
Lemma write_fits pre l old rest :
  length old = length l ->
  write l (pre ‖ old ++ rest) = Ok (true, (pre ++ l) ‖ rest).
Proof.
  intros Hl. unfold write. rewrite size_left_at, length_app.
  destruct (Nat.leb_spec (length l) (length old + length rest)); [|lia].
  rewrite store_at by done. cbn. by rewrite advance_app.
Qed.

Lemma write_full pre l rest :
  (length rest < length l)%nat -> write l (pre ‖ rest) = Ok (false, pre ‖ rest).
Proof.
  intros Hl. unfold write. rewrite size_left_at.
  destruct (Nat.leb_spec (length l) (length rest)); [lia|done].
Qed.

(** With room for the terminating NUL the text is written in full; the byte
    after it becomes NUL. *)
Lemma writef_fits pre txt old c rest :
  txt <> [] -> length old = length txt ->
  writef txt (pre ‖ old ++ c :: rest) = Ok (true, (pre ++ txt) ‖ 0 :: rest).
Proof.
  intros Hne Hl. unfold writef. rewrite size_left_at, length_app; cbn [length].
  assert (length txt <> 0)%nat by (by destruct txt).
  destruct (Nat.eqb_spec (length old + S (length rest)) 0); [lia|].
  rewrite take_ge by lia.
  replace (old ++ c :: rest) with ((old ++ [c]) ++ rest) by (by rewrite <- app_assoc).
  rewrite store_at by (rewrite !length_app; simpl; lia).
  cbn [rbind].
  destruct (Nat.eqb_spec (length txt) 0); [lia|].
  destruct (Nat.ltb_spec (length old + S (length rest)) (length txt)); [lia|].
  by rewrite <- app_assoc, advance_app.
Qed.

(** Without it the text is cut, but when it would fill the region exactly the
    call still reports success: the last character is lost to the NUL. *)
Lemma writef_exact pre txt c old o :
  length old = length txt ->
  writef (txt ++ [c]) (pre ‖ old ++ [o]) = Ok (true, (pre ++ txt ++ [0]) ‖ []).
Proof.
  intros Hl. unfold writef. rewrite size_left_at, !length_app; cbn [length].
  destruct (Nat.eqb_spec (length old + 1) 0); [lia|].
  replace (length old + 1 - 1)%nat with (length txt) by lia.
  rewrite take_app_length, <- (app_nil_r (old ++ [o])), store_at
    by (rewrite !length_app; simpl; lia).
  cbn [rbind].
  destruct (Nat.eqb_spec (length txt + 1) 0); [lia|].
  destruct (Nat.ltb_spec (length old + 1) (length txt + 1)); [lia|].
  replace (length txt + 1)%nat with (length (txt ++ [0])) by (rewrite length_app; simpl; lia).
  rewrite advance_app. by rewrite !length_app.
Qed.

Lemma writef_short pre txt rest :
  (length rest < length txt)%nat ->
  exists rest', length rest' = length rest /\ writef txt (pre ‖ rest) = Ok (false, pre ‖ rest').
Proof.
  intros Hl. unfold writef. rewrite size_left_at.
  assert ((length txt =? 0)%nat = false) as -> by (apply Nat.eqb_neq; lia).
  assert ((length rest <? length txt)%nat = true) as -> by (apply Nat.ltb_lt; lia).
  destruct (Nat.eqb_spec (length rest) 0) as [H0|H0].
  - exists rest. done.
  - exists (take (length rest - 1) txt ++ [0]).
    assert (length (take (length rest - 1) txt ++ [0]) = length rest) as Hr.
    { rewrite length_app, length_take. simpl. lia. }
    split; [done|].
    rewrite <- (app_nil_r rest) at 2. rewrite store_at by done. cbn [rbind].
    by rewrite app_nil_r.
Qed.

(** ** read_until *)

Lemma read_until_loop_stop delim n pre l d rest :
  (length l <= n)%nat -> Forall (fun c => c <> delim) l -> d = delim ->
  read_until_loop delim n (pre ‖ l ++ d :: rest) = Ok (l, (pre ++ l) ‖ d :: rest).
Proof.
  intros Hn Hl ->. revert n pre Hn.
  induction Hl as [|c l Hc _ IH]; intros n pre Hn.
  - destruct n; cbn [read_until_loop app]; rewrite cur_ne_sz, deref_cons, rbind_ok, Z.eqb_refl;
      by rewrite app_nil_r.
  - cbn [length] in Hn. destruct n as [|n]; [lia|]. cbn [read_until_loop app].
    rewrite cur_ne_sz, deref_cons, rbind_ok.
    destruct (Z.eqb_spec c delim); [done|].
    rewrite advance_cons, IH by lia. cbn [rbind]. by rewrite snoc_app.
Qed.

Lemma read_until_stop delim n pre l rest :
  (length l <= n)%nat -> Forall (fun c => c <> delim) l ->
  read_until delim n (pre ‖ l ++ delim :: rest)
  = Ok (length l, l, (pre ++ l) ‖ delim :: rest).
Proof.
  intros. unfold read_until. rewrite read_until_loop_stop by done. cbn [rbind].
  by rewrite size_left_at.
Qed.

(** Without the delimiter the scan runs to the end and reports 0. *)
Lemma read_until_end delim n pre l :
  (length l <= n)%nat -> Forall (fun c => c <> delim) l ->
  read_until delim n (pre ‖ l) = Ok (0%nat, l, (pre ++ l) ‖ []).
Proof.
  intros Hn Hl. unfold read_until.
  enough (read_until_loop delim n (pre ‖ l) = Ok (l, (pre ++ l) ‖ [])) as ->
    by (cbn [rbind]; by rewrite size_left_at).
  revert n pre Hn. induction Hl as [|c l Hc _ IH]; intros n pre Hn.
  - destruct n; cbn [read_until_loop]; rewrite cur_eq_sz; by rewrite !app_nil_r.
  - cbn [length] in Hn. destruct n as [|n]; [lia|]. cbn [read_until_loop].
    rewrite cur_ne_sz, deref_cons, rbind_ok. destruct (Z.eqb_spec c delim); [done|].
    rewrite advance_cons, IH by lia. cbn [rbind]. by rewrite snoc_app.
Qed.

(** In general the loop moves the position over the bytes it copies. *)
Lemma read_until_loop_spec delim n pre rest :
  exists l rest', rest = l ++ rest' /\ (length l <= n)%nat /\
    read_until_loop delim n (pre ‖ rest) = Ok (l, (pre ++ l) ‖ rest').
Proof.
  revert n pre. induction rest as [|c rest IH]; intros n pre.
  - exists [], []. split_and!; [done|simpl; lia|].
    destruct n; cbn [read_until_loop]; rewrite cur_eq_sz; by rewrite !app_nil_r.
  - assert (exists l rest', c :: rest = l ++ rest' /\ (length l <= n)%nat /\
              Ok ([] : list Z, pre ‖ c :: rest) = Ok (l, (pre ++ l) ‖ rest')) as Hstop.
    { exists [], (c :: rest). rewrite app_nil_r. split_and!; [done|simpl; lia|done]. }
    destruct n as [|n]; cbn [read_until_loop]; rewrite cur_ne_sz, deref_cons, rbind_ok;
      destruct (c =? delim); try exact Hstop.
    rewrite advance_cons. destruct (IH n (pre ++ [c])) as (l & rest' & -> & Hl & ->).
    exists (c :: l), rest'. split_and!; [done|simpl; lia|]. cbn [rbind].
    by rewrite snoc_app.
Qed.

Section endian_lemmas.
Context {O : Oxenc} {OS : OxencSpec O}.

Lemma put_fits n v pre old rest :
  0 <= v < 256 ^ Z.of_nat n -> length old = n ->
  put n v (pre ‖ old ++ rest) = Ok (true, (pre ++ be_encode n v) ‖ rest).
Proof.
  intros Hv Hl. unfold put. rewrite size_left_at, length_app.
  destruct (Nat.ltb_spec (length old + length rest) n); [lia|].
  pose proof (length_be_encode n v) as He.
  rewrite write_host_as_big_spec, store_at by (done || congruence). cbn [rbind].
  by rewrite <- He at 1; rewrite advance_app.
Qed.

Lemma put_full n v pre rest :
  (length rest < n)%nat -> put n v (pre ‖ rest) = Ok (false, pre ‖ rest).
Proof.
  intros Hl. unfold put. rewrite size_left_at.
  destruct (Nat.ltb_spec (length rest) n); [done|lia].
Qed.

Lemma read_fits n pre l rest :
  length l = n -> bytes l ->
  read n (pre ‖ l ++ rest) = Ok (Some (be_decode l), (pre ++ l) ‖ rest).
Proof.
  intros <- Hb. unfold read. rewrite size_left_at, length_app.
  destruct (Nat.ltb_spec (length l + length rest) (length l)); [lia|].
  cbn [mem cur]. rewrite drop_app_length, take_app_length.
  rewrite load_big_to_host_spec by done. by rewrite advance_app.
Qed.

Lemma read_short n pre rest :
  (length rest < n)%nat -> read n (pre ‖ rest) = Ok (None, pre ‖ rest).
Proof.
  intros Hl. unfold read. rewrite size_left_at.
  destruct (Nat.ltb_spec (length rest) n); [done|lia].
Qed.
End endian_lemmas.
