(* ===== verification/Bencode.v ===== *)
(** * Bencode (llarp/util/bencode.cpp, llarp/util/bencode.hpp)

    The readers and writers over [llarp_buffer_t]. A reader that fills an
    out-parameter and returns a bool returns an option; every function also
    returns the buffer, whose position moves on failures too. The callbacks of
    [bencode_read_list] and [bencode_read_dict] are functions over a state [St],
    the variables the C++ lambda captures by reference. The section [Spec]
    holds the format itself and the theorems relate the code to it. *)

From S2P Require Import Prelude Buffer.

(** ** Characters and the C library conversions the code calls *)
Definition chr_i := 105.
Definition chr_l := 108.
Definition chr_d := 100.
Definition chr_e := 101.
Definition chr_colon := 58.

Definition is_space (c : Z) : bool := (c =? 32) || ((9 <=? c) && (c <=? 13)).

Fixpoint skip_space (l : list Z) : list Z :=
  match l with
  | c :: r => if is_space c then skip_space r else l
  | [] => []
  end.

(** An optional sign, then the digits. *)
Definition scan_number (l : list Z) : bool * Z :=
  match skip_space l with
  | c :: r => if c =? 45 then (true, parse_digits 0 r)
              else if c =? 43 then (false, parse_digits 0 r)
              else (false, parse_digits 0 (c :: r))
  | [] => (false, 0)
  end.

(** [strtoull(s, nullptr, 10)]: saturates, and negates modulo 2^64. *)
Definition strtoull (l : list Z) : Z :=
  let (neg, n) := scan_number l in
  if 2 ^ 64 <=? n then 2 ^ 64 - 1 else if neg then u64 (- n) else n.

(** [atoi(s)], for texts whose value fits an int. *)
Definition atoi (l : list Z) : Z :=
  let (neg, n) := scan_number l in if neg then - n else n.

(** ** Readers *)
Definition bencode_read_integer (b : llarp_buffer_t) : res (option Z * llarp_buffer_t) :=
  let* c := deref b in
  if negb (c =? chr_i) then Ok (None, b)
  else
    let* (len, numbuf, b) := read_until chr_e 31 (advance 1 b) in
    if (len =? 0)%nat then Ok (None, b)
    else Ok (Some (strtoull numbuf), advance 1 b).

Definition bencode_read_string (b : llarp_buffer_t)
  : res (option llarp_buffer_t * llarp_buffer_t) :=
  let* (len, numbuf, b) := read_until chr_colon 9 b in
  if (len =? 0)%nat then Ok (None, b)
  else
    let num := atoi numbuf in
    if num <? 0 then Ok (None, b)
    else
      let b := advance 1 b in
      if Z.of_nat (size_left b) <? num then Ok (None, b)
      else
        let slen := Z.to_nat num in
        Ok (Some (Buffer (take slen (drop (cur b) (mem b))) 0), advance slen b).

(** ** Writers *)

(** [f(buf) && g(buf)] *)
Definition andthen (f g : llarp_buffer_t -> res (bool * llarp_buffer_t))
  (b : llarp_buffer_t) : res (bool * llarp_buffer_t) :=
  let* (ok, b) := f b in if ok then g b else Ok (false, b).

Notation "f ⩓ g" := (andthen f g) (at level 60, right associativity) : llarp_scope.

Definition bencode_write_bytestring (data : list Z) : llarp_buffer_t -> res (bool * llarp_buffer_t) :=
  writef (print_dec (Z.of_nat (length data)) ++ [chr_colon]) ⩓ write data.

Definition bencode_write_uint64 (i : Z) : llarp_buffer_t -> res (bool * llarp_buffer_t) :=
  writef (chr_i :: print_dec i) ⩓ write [chr_e].

Definition bencode_write_uint64_entry (name : list Z) (i : Z)
  : llarp_buffer_t -> res (bool * llarp_buffer_t) :=
  bencode_write_bytestring name ⩓ bencode_write_uint64 i.

Definition bencode_start_list := write [chr_l].
Definition bencode_start_dict := write [chr_d].
Definition bencode_end := write [chr_e].

(** ** Lists and dictionaries *)
Section read_containers.
Context {St : Type}.

Fixpoint read_list_loop (fuel : nat)
  (sink : St -> bool -> llarp_buffer_t -> res (bool * St * llarp_buffer_t))
  (st : St) (b : llarp_buffer_t) : res (bool * St * llarp_buffer_t) :=
  if (size_left b =? 0)%nat then Ok (true, st, b)
  else
    let* c := deref b in
    if c =? chr_e then Ok (true, st, b)
    else match fuel with
         | O => NoFuel
         | S f =>
             let* (ok, st, b) := sink st true b in
             if ok then read_list_loop f sink st b else Ok (false, st, b)
         end.

Definition bencode_read_list (fuel : nat)
  (sink : St -> bool -> llarp_buffer_t -> res (bool * St * llarp_buffer_t))
  (st : St) (b : llarp_buffer_t) : res (bool * St * llarp_buffer_t) :=
  if (size_left b <? 2)%nat then Ok (false, st, b)
  else
    let* c := deref b in
    if negb (c =? chr_l) then Ok (false, st, b)
    else
      let* (ok, st, b) := read_list_loop fuel sink st (advance 1 b) in
      if negb ok then Ok (false, st, b)
      else
        let* c := deref b in
        if negb (c =? chr_e) then Ok (false, st, b)
        else sink st false (advance 1 b).

Fixpoint read_dict_loop (fuel : nat)
  (sink : St -> option llarp_buffer_t -> llarp_buffer_t -> res (bool * St * llarp_buffer_t))
  (st : St) (b : llarp_buffer_t) : res (bool * St * llarp_buffer_t) :=
  if (size_left b =? 0)%nat then Ok (true, st, b)
  else
    let* c := deref b in
    if c =? chr_e then Ok (true, st, b)
    else match fuel with
         | O => NoFuel
         | S f =>
             let* (strbuf, b) := bencode_read_string b in
             match strbuf with
             | None => Ok (false, st, b)
             | Some key =>
                 let* (ok, st, b) := sink st (Some key) b in
                 if ok then read_dict_loop f sink st b else Ok (false, st, b)
             end
         end.

Definition bencode_read_dict (fuel : nat)
  (sink : St -> option llarp_buffer_t -> llarp_buffer_t -> res (bool * St * llarp_buffer_t))
  (st : St) (b : llarp_buffer_t) : res (bool * St * llarp_buffer_t) :=
  if (size_left b <? 2)%nat then Ok (false, st, b)
  else
    let* c := deref b in
    if negb (c =? chr_d) then Ok (false, st, b)
    else
      let* (ok, st, b) := read_dict_loop fuel sink st (advance 1 b) in
      if negb ok then Ok (false, st, b)
      else
        let* c := deref b in
        if negb (c =? chr_e) then Ok (false, st, b)
        else sink st None (advance 1 b).

(** [decode_key] is the [DecodeKey] member of the sink object. *)
Definition bencode_decode_dict (fuel : nat)
  (decode_key : St -> llarp_buffer_t -> llarp_buffer_t -> res (bool * St * llarp_buffer_t)) :=
  bencode_read_dict fuel (fun st key b =>
    match key with
    | None => Ok (true, st, b)
    | Some k => decode_key st k b
    end).
End read_containers.

Definition drop_result {A} (r : res (option A * llarp_buffer_t))
  : res (bool * unit * llarp_buffer_t) :=
  let* (o, b) := r in
  Ok (match o with Some _ => true | None => false end, tt, b).

Fixpoint bencode_discard (fuel : nat) (b : llarp_buffer_t) : res (bool * unit * llarp_buffer_t) :=
  if (size_left b =? 0)%nat then Ok (true, tt, b)
  else
    let* c := deref b in
    match fuel with
    | O => NoFuel
    | S f =>
        if c =? chr_l then
          bencode_read_list f (fun _ more b => if more : bool then bencode_discard f b
                                               else Ok (true, tt, b)) tt b
        else if c =? chr_i then drop_result (bencode_read_integer b)
        else if c =? chr_d then
          bencode_read_dict f (fun _ key b => match key with
                                              | Some _ => bencode_discard f b
                                              | None => Ok (true, tt, b)
                                              end) tt b
        else if is_digit c then drop_result (bencode_read_string b)
        else Ok (false, tt, b)
    end.

(** ** The helper templates of bencode.hpp

    An object type with [BEncode] and [BDecode] members; [BDecode] takes the fuel
    of the loops it may contain. [None] stands for a [false] return. *)
Class BEncodable (A : Type) := {
  BEncode : A -> llarp_buffer_t -> res (bool * llarp_buffer_t);
  BDecode : nat -> llarp_buffer_t -> res (option A * llarp_buffer_t);
}.

(** Byte arrays of a fixed size are written as byte strings and read back with
    a size check (the [is_std_array] branches). *)
Definition array_decode (n : nat) (b : llarp_buffer_t) : res (option (list Z) * llarp_buffer_t) :=
  let* (str, b) := bencode_read_string b in
  match str with
  | None => Ok (None, b)
  | Some str => if (sz str =? n)%nat then Ok (Some (mem str), b) else Ok (None, b)
  end.

Definition BEncodeWriteDictMsgType (k t : list Z) :=
  bencode_write_bytestring (take 1 k) ⩓ bencode_write_bytestring (take 1 t).

Definition BEncodeWriteDictString (k str : list Z) :=
  bencode_write_bytestring (take 1 k) ⩓ bencode_write_bytestring str.

Definition BEncodeWriteDictInt (k : list Z) (i : Z) :=
  bencode_write_bytestring (take 1 k) ⩓ bencode_write_uint64 i.

Section helpers.
Context {A : Type} {EA : BEncodable A}.

Definition BEncodeWriteDictEntry (k : list Z) (o : A) :=
  bencode_write_bytestring (take 1 k) ⩓ BEncode o.

Fixpoint write_items (l : list A) : llarp_buffer_t -> res (bool * llarp_buffer_t) :=
  match l with
  | [] => fun b => Ok (true, b)
  | x :: r => BEncode x ⩓ write_items r
  end.

Definition BEncodeWriteList (l : list A) :=
  bencode_start_list ⩓ write_items l ⩓ bencode_end.

Definition BEncodeWriteDictBEncodeList (k : list Z) (l : list A) :=
  bencode_write_bytestring (take 1 k) ⩓ bencode_start_list ⩓ write_items l ⩓ bencode_end.

Definition BEncodeWriteDictArray (k : list Z) (l : list A) :=
  bencode_write_bytestring (take 1 k) ⩓ bencode_start_list ⩓ write_items l ⩓ bencode_end.

Definition BEncodeWriteDictList (k : list Z) (l : list A) :=
  bencode_write_bytestring (take 1 k) ⩓ BEncodeWriteList l.

(** A failed [BDecode] leaves the default entry [dflt] in the container. *)
Definition BEncodeReadList (fuel : nat) (dflt : A) (result : list A) (b : llarp_buffer_t)
  : res (bool * list A * llarp_buffer_t) :=
  bencode_read_list fuel (fun result has b =>
    if has : bool then
      let* (ent, b) := BDecode fuel b in
      match ent with
      | None => Ok (false, result ++ [dflt], b)
      | Some ent => Ok (true, result ++ [ent], b)
      end
    else Ok (true, result, b)) result b.

Definition BEncodeReadArray (fuel : nat) (array : list A) (b : llarp_buffer_t)
  : res (bool * (list A * nat) * llarp_buffer_t) :=
  bencode_read_list fuel (fun st has b =>
    let '(array, idx) := st in
    if has : bool then
      if (length array <=? idx)%nat then Ok (false, (array, idx), b)
      else
        let* (ent, b) := BDecode fuel b in
        match ent with
        | None => Ok (false, (array, S idx), b)
        | Some ent => Ok (true, (<[idx:=ent]> array, S idx), b)
        end
    else Ok (true, (array, idx), b)) (array, 0%nat) b.

Definition BEncodeMaybeReadDictEntry (fuel : nat) (k : list Z) (item : A) (rd : bool)
  (key b : llarp_buffer_t) : res (bool * (A * bool) * llarp_buffer_t) :=
  if startswith k key then
    let* (ent, b) := BDecode fuel b in
    match ent with
    | None => Ok (false, (item, rd), b)
    | Some ent => Ok (true, (ent, true), b)
    end
  else Ok (true, (item, rd), b).

Definition BEncodeMaybeReadDictList (fuel : nat) (k : list Z) (dflt : A) (item : list A)
  (rd : bool) (key b : llarp_buffer_t) : res (bool * (list A * bool) * llarp_buffer_t) :=
  if startswith k key then
    let* (ok, item, b) := BEncodeReadList fuel dflt item b in
    if ok then Ok (true, (item, true), b) else Ok (false, (item, rd), b)
  else Ok (true, (item, rd), b).

Context `{Countable A}.

(** A [std::set] of entities, visited in the set's own order. *)
Definition BEncodeWriteSet (set : list A) :=
  bencode_start_list ⩓ write_items set ⩓ bencode_end.

Definition BEncodeReadSet (fuel : nat) (set : gset A) (b : llarp_buffer_t)
  : res (bool * gset A * llarp_buffer_t) :=
  bencode_read_list fuel (fun set more b =>
    if more : bool then
      let* (item, b) := BDecode fuel b in
      match item with
      | None => Ok (false, set, b)
      | Some item => Ok (bool_decide (item ∉ set), {[item]} ∪ set, b)
      end
    else Ok (true, set, b)) set b.
End helpers.

(** [w] is the width of the integer type read into. *)
Definition BEncodeMaybeReadDictInt (w : Z) (k : list Z) (i : Z) (rd : bool)
  (key b : llarp_buffer_t) : res (bool * (Z * bool) * llarp_buffer_t) :=
  if startswith k key then
    let* (read_i, b) := bencode_read_integer b in
    match read_i with
    | None => Ok (false, (i, rd), b)
    | Some read_i => Ok (true, (wrap w read_i, true), b)
    end
  else Ok (true, (i, rd), b).

Definition BEncodeMaybeVerifyVersion (k : list Z) (item expect : Z) (rd : bool)
  (key b : llarp_buffer_t) : res (bool * (Z * bool) * llarp_buffer_t) :=
  if startswith k key then
    let* (v, b) := bencode_read_integer b in
    match v with
    | None => Ok (false, (item, rd), b)
    | Some v => Ok (true, (v, v =? expect), b)
    end
  else Ok (true, (item, rd), b).

(** Searches a dictionary for the one-byte key [k]; the position is rewound to
    the start of the region whatever the result. *)
Definition BEncodeSeekDictVersion (fuel : nat) (v : Z) (k : Z) (b : llarp_buffer_t)
  : res (bool * Z * llarp_buffer_t) :=
  let* (ok, v, b) := bencode_read_dict fuel (fun v key b =>
      match key with
      | None => Ok (true, v, b)
      | Some key =>
          let* c := (if (sz key =? 1)%nat then let* c := deref key in Ok (c =? k) else Ok false) in
          if c : bool then
            let* (r, b) := bencode_read_integer b in
            match r with Some v => Ok (true, v, b) | None => Ok (false, v, b) end
          else
            let* (ok, _, b) := bencode_discard fuel b in Ok (ok, v, b)
      end) v b in
  Ok (ok, v, Buffer (mem b) 0).

(** ** The format *)
Definition enc_int (i : Z) : list Z := chr_i :: print_dec i ++ [chr_e].
Definition enc_str (s : list Z) : list Z := print_dec (Z.of_nat (length s)) ++ chr_colon :: s.
Definition enc_list (items : list (list Z)) : list Z := chr_l :: concat items ++ [chr_e].

(** The texts the reader accepts in full: integers of 64 bits, strings whose
    length has at most nine digits, lists and dictionaries of these. *)
Definition str_ok (s : list Z) : Prop := Z.of_nat (length s) < 10 ^ 9.

Inductive bencoded : list Z -> Prop :=
| bencoded_int i : in_width 64 i -> bencoded (enc_int i)
| bencoded_str s : str_ok s -> bencoded (enc_str s)
| bencoded_list l : bencoded_items l -> bencoded (chr_l :: l ++ [chr_e])
| bencoded_dict l : bencoded_pairs l -> bencoded (chr_d :: l ++ [chr_e])
with bencoded_items : list Z -> Prop :=
| items_nil : bencoded_items []
| items_cons x r : bencoded x -> bencoded_items r -> bencoded_items (x ++ r)
with bencoded_pairs : list Z -> Prop :=
| pairs_nil : bencoded_pairs []
| pairs_cons k x r :
    str_ok k -> bencoded x -> bencoded_pairs r -> bencoded_pairs (enc_str k ++ x ++ r).

Scheme bencoded_mut := Induction for bencoded Sort Prop
  with bencoded_items_mut := Induction for bencoded_items Sort Prop
  with bencoded_pairs_mut := Induction for bencoded_pairs Sort Prop.
Combined Scheme bencoded_mutind from bencoded_mut, bencoded_items_mut, bencoded_pairs_mut.

(** [f] writes exactly [out] when one more byte than it needs is left; that byte
    may be overwritten (by the NUL of [vsnprintf]). *)
Definition writes (f : llarp_buffer_t -> res (bool * llarp_buffer_t)) (out : list Z) : Prop :=
  forall pre old c rest, length old = length out ->
    exists c', f (pre ‖ old ++ c :: rest) = Ok (true, (pre ++ out) ‖ c' :: rest).

(** [f] stays inside the region whatever room is left. *)
Definition safe_writer (f : llarp_buffer_t -> res (bool * llarp_buffer_t)) : Prop :=
  forall b, buf_wf b -> exists ok b', f b = Ok (ok, b') /\ buf_wf b' /\ sz b' = sz b.

(** [g] reads [out] off the front of the rest and yields [a]. *)
Definition reads {A} (g : llarp_buffer_t -> res (option A * llarp_buffer_t))
  (out : list Z) (a : A) : Prop :=
  forall pre rest, g (pre ‖ out ++ rest) = Ok (Some a, (pre ++ out) ‖ rest).

Create HintDb bencode.

(** ** Decimal numbers *)
Lemma print_dec_cons n :
  0 <= n -> exists c r, print_dec n = c :: r /\ is_digit c = true.
Proof.
  intros Hn. pose proof (print_dec_nonempty n Hn). pose proof (print_dec_digits n Hn) as Hd.
  destruct (print_dec n) as [|c r]; [simpl in *; lia|].
  apply Forall_cons in Hd as [? _]. eauto.
Qed.

Lemma scan_number_print n : 0 <= n -> scan_number (print_dec n) = (false, n).
Proof.
  intros Hn. destruct (print_dec_cons n Hn) as (c & r & Hp & Hc).
  pose proof (parse_print_dec n Hn) as Hn'. rewrite Hp in *.
  unfold scan_number. cbn [skip_space]. unfold is_digit in Hc.
  assert (is_space c = false) as -> by (unfold is_space; lia).
  assert ((c =? 45) = false) as -> by lia. assert ((c =? 43) = false) as -> by lia. by rewrite Hn'.
Qed.

Lemma strtoull_print n : in_width 64 n -> strtoull (print_dec n) = n.
Proof.
  intros [? ?]. unfold strtoull. rewrite scan_number_print by done.
  destruct (Z.leb_spec (2 ^ 64) n); lia.
Qed.

Lemma atoi_print n : 0 <= n -> atoi (print_dec n) = n.
Proof. intros. unfold atoi. by rewrite scan_number_print. Qed.

Lemma print_dec_no_delim n d :
  0 <= n -> is_digit d = false -> Forall (fun c => c <> d) (print_dec n).
Proof.
  intros Hn Hd. eapply Forall_impl; [by apply print_dec_digits|].
  intros c Hc ->. simpl in Hc. congruence.
Qed.

Lemma length_print_u64 n : in_width 64 n -> (length (print_dec n) <= 20)%nat.
Proof. intros [? ?]. pose proof (length_print_dec n 20). lia. Qed.

Lemma length_print_len s : str_ok s -> (length (print_dec (Z.of_nat (length s))) <= 9)%nat.
Proof. intros Hs. unfold str_ok in Hs. pose proof (length_print_dec (Z.of_nat (length s)) 9). lia. Qed.

(** ** Single values: what the readers do on the format *)
Lemma read_integer_reads i : in_width 64 i -> reads bencode_read_integer (enc_int i) i.
Proof.
  intros Hi pre rest. unfold bencode_read_integer, enc_int. cbn [app]. rewrite (snoc_app _ _ rest).
  rewrite deref_cons, rbind_ok. cbn [negb Z.eqb chr_i Pos.eqb].
  rewrite advance_cons.
  pose proof (length_print_u64 i Hi). destruct Hi.
  rewrite read_until_stop; [| lia | by apply print_dec_no_delim].
  cbn [rbind]. pose proof (print_dec_nonempty i).
  destruct (Nat.eqb_spec (length (print_dec i)) 0); [lia|].
  rewrite strtoull_print, advance_cons by (split; lia).
  by rewrite <- !(app_assoc pre).
Qed.

Lemma read_string_reads s :
  str_ok s -> reads bencode_read_string (enc_str s) (Buffer s 0).
Proof.
  intros Hs pre rest. unfold bencode_read_string, enc_str.
  rewrite <- app_assoc. cbn [app].
  rewrite read_until_stop; [|by apply length_print_len|apply print_dec_no_delim; [lia|done]].
  cbn [rbind]. pose proof (print_dec_nonempty (Z.of_nat (length s))).
  destruct (Nat.eqb_spec (length (print_dec (Z.of_nat (length s)))) 0); [lia|].
  rewrite atoi_print by lia. destruct (Z.ltb_spec (Z.of_nat (length s)) 0); [lia|].
  rewrite advance_cons, size_left_at, length_app.
  destruct (Z.ltb_spec (Z.of_nat (length s + length rest)) (Z.of_nat (length s))); [lia|].
  rewrite Nat2Z.id, advance_app. cbn [mem cur].
  rewrite drop_app_length, take_app_length.
  by rewrite <- !(app_assoc pre), !snoc_app.
Qed.

#[export] Hint Resolve read_integer_reads read_string_reads : bencode.

(** ** Writers *)
Lemma writes_andthen f g o1 o2 : writes f o1 -> writes g o2 -> writes (f ⩓ g) (o1 ++ o2).
Proof.
  intros Hf Hg pre old c rest Hl. rewrite length_app in Hl.
  rewrite <- (take_drop (length o1) old).
  assert (length (take (length o1) old) = length o1) as Hl1 by (rewrite length_take; lia).
  assert (length (drop (length o1) old) = length o2) as Hl2 by (rewrite length_drop; lia).
  revert Hl1 Hl2. generalize (take (length o1) old) as a, (drop (length o1) old) as d.
  intros a d Ha Hd. rewrite <- app_assoc. unfold andthen.
  destruct d as [|x d]; cbn [app].
  - destruct (Hf pre a c rest Ha) as [c1 ->]. cbn [rbind].
    destruct (Hg (pre ++ o1) [] c1 rest Hd) as [c2 Hc]. cbn [app] in Hc. rewrite Hc.
    exists c2. by rewrite <- (app_assoc pre).
  - destruct (Hf pre a x (d ++ c :: rest) Ha) as [c1 ->]. cbn [rbind].
    destruct (Hg (pre ++ o1) (c1 :: d) c rest Hd) as [c2 Hc]. cbn [app] in Hc. rewrite Hc.
    exists c2. by rewrite <- (app_assoc pre).
Qed.

Lemma writes_write l : writes (write l) l.
Proof. intros pre old c rest Hl. exists c. by apply write_fits. Qed.

Lemma writes_writef txt : txt <> [] -> writes (writef txt) txt.
Proof. intros Ht pre old c rest Hl. exists 0. by apply writef_fits. Qed.

Lemma writes_nop : writes (fun b => Ok (true, b)) [].
Proof.
  intros pre old c rest Hl. apply nil_length_inv in Hl as ->. exists c. cbn [app].
  by rewrite app_nil_r.
Qed.

Lemma writes_bytestring s : writes (bencode_write_bytestring s) (enc_str s).
Proof.
  unfold enc_str. rewrite <- snoc_app.
  apply writes_andthen; [apply writes_writef | apply writes_write].
  by destruct (print_dec _).
Qed.

Lemma writes_uint64 i : writes (bencode_write_uint64 i) (enc_int i).
Proof.
  apply (writes_andthen _ _ (chr_i :: print_dec i)); [by apply writes_writef | apply writes_write].
Qed.

#[export] Hint Resolve writes_andthen writes_write writes_bytestring writes_uint64 writes_nop : bencode.

Lemma safe_andthen f g : safe_writer f -> safe_writer g -> safe_writer (f ⩓ g).
Proof.
  intros Hf Hg b Hb. unfold andthen. destruct (Hf b Hb) as (ok & b1 & -> & Hb1 & Hs1). cbn [rbind].
  destruct ok; [|by eauto]. destruct (Hg b1 Hb1) as (ok & b2 & -> & Hb2 & Hs2).
  exists ok, b2. split_and!; [done|done|congruence].
Qed.

Lemma sz_at pre rest : sz (pre ‖ rest) = (length pre + length rest)%nat.
Proof. unfold sz; cbn [mem]. apply length_app. Qed.

Lemma safe_write l : safe_writer (write l).
Proof.
  intros b Hb. rewrite (buf_split b Hb).
  generalize (take (cur b) (mem b)) as pre, (drop (cur b) (mem b)) as rest. intros pre rest.
  destruct (decide (length l <= length rest)%nat) as [Hl|Hl].
  - rewrite <- (take_drop (length l) rest), write_fits by (rewrite length_take; lia).
    do 2 eexists. split_and!; [done|apply buf_wf_at|].
    rewrite !sz_at, !length_app, length_take, length_drop. lia.
  - rewrite write_full by lia. do 2 eexists. split_and!; [done|apply buf_wf_at|done].
Qed.

Lemma safe_writef txt : txt <> [] -> safe_writer (writef txt).
Proof.
  intros Ht b Hb. rewrite (buf_split b Hb).
  generalize (take (cur b) (mem b)) as pre, (drop (cur b) (mem b)) as rest. intros pre rest.
  destruct (decide (length rest < length txt)%nat) as [Hl|Hl].
  { destruct (writef_short pre txt rest Hl) as (rest' & Hr & ->). do 2 eexists.
    split_and!; [done|apply buf_wf_at|]. rewrite !sz_at. lia. }
  rewrite <- (take_drop (length txt) rest).
  assert (length (take (length txt) rest) = length txt) as Ho by (rewrite length_take; lia).
  revert Ho. generalize (take (length txt) rest) as old, (drop (length txt) rest) as k.
  intros old [|c k] Ho.
  - destruct txt as [|t txt' _] using rev_ind; [done|].
    destruct old as [|o old' _] using rev_ind; [rewrite length_app in Ho; simpl in Ho; lia|].
    rewrite !length_app in Ho. cbn [length] in Ho. rewrite app_nil_r, writef_exact by lia.
    do 2 eexists. split_and!; [done|apply buf_wf_at|].
    rewrite !sz_at, !length_app. cbn [length]. lia.
  - rewrite writef_fits by done. do 2 eexists. split_and!; [done|apply buf_wf_at|].
    rewrite !sz_at, !length_app. cbn [length]. lia.
Qed.

Lemma safe_bytestring s : safe_writer (bencode_write_bytestring s).
Proof. apply safe_andthen; [apply safe_writef; by destruct (print_dec _) | apply safe_write]. Qed.

Lemma safe_uint64 i : safe_writer (bencode_write_uint64 i).
Proof. apply safe_andthen; [by apply safe_writef | apply safe_write]. Qed.

Lemma safe_nop : safe_writer (fun b => Ok (true, b)).
Proof. intros b Hb. eauto. Qed.

#[export] Hint Unfold bencode_write_uint64_entry BEncodeWriteDictInt BEncodeWriteDictString
  BEncodeWriteDictMsgType bencode_start_list bencode_end : bencode.
#[export] Hint Resolve safe_andthen safe_write safe_bytestring safe_uint64 safe_nop : bencode.

(** ** Progress of the readers

    [forward pre rest strict b'] says that a reader started at [pre ‖ rest] has
    moved to [b'] by consuming a prefix of [rest], a nonempty one if [strict]. *)
Definition forward (pre rest : list Z) (strict : Prop) (b' : llarp_buffer_t) : Prop :=
  exists l rest', rest = l ++ rest' /\ b' = ((pre ++ l) ‖ rest') /\ (strict -> l <> []).

Lemma forward_refl pre rest (P : Prop) : ~ P -> forward pre rest P (pre ‖ rest).
Proof. intros. exists [], rest. by rewrite app_nil_r. Qed.

Lemma forward_weaken pre rest (P Q : Prop) b' :
  (Q -> P) -> forward pre rest P b' -> forward pre rest Q b'.
Proof. intros HQ (l & r & ? & ? & ?). exists l, r. auto. Qed.

Lemma forward_app pre l rest (P Q : Prop) b' :
  forward (pre ++ l) rest P b' -> (Q -> P \/ l <> []) -> forward pre (l ++ rest) Q b'.
Proof.
  intros (k & rest' & -> & -> & Hk) HQ. exists (l ++ k), rest'.
  rewrite !app_assoc. split_and!; [done|done|].
  intros q [-> ->]%app_eq_nil. destruct (HQ q) as [p|]; [by apply (Hk p)|done].
Qed.

Lemma read_until_forward delim n pre rest :
  exists len l rest', rest = l ++ rest' /\
    read_until delim n (pre ‖ rest) = Ok (len, l, (pre ++ l) ‖ rest') /\
    (len <> 0%nat -> rest' <> [] /\ l <> []).
Proof.
  destruct (read_until_loop_spec delim n pre rest) as (l & rest' & -> & Hl & Hr).
  exists (if (length rest' =? 0)%nat then 0%nat else length l), l, rest'.
  split_and!; [done| |].
  - unfold read_until. rewrite Hr. cbn [rbind]. by rewrite size_left_at.
  - destruct (Nat.eqb_spec (length rest') 0); [done|]. intros ?.
    split; intros ->; simpl in *; lia.
Qed.

Lemma read_string_forward pre rest :
  exists o b', bencode_read_string (pre ‖ rest) = Ok (o, b') /\
    forward pre rest (is_Some o) b'.
Proof.
  unfold bencode_read_string.
  destruct (read_until_forward chr_colon 9 pre rest) as (len & l & rest' & -> & -> & Hl).
  cbn [rbind].
  assert (forall (P : Prop), ~ P -> forward pre (l ++ rest') P ((pre ++ l) ‖ rest')) as Hstop.
  { intros P HP. by apply (forward_app pre l rest' P); [apply forward_refl|tauto]. }
  destruct (Nat.eqb_spec len 0) as [|Hlen].
  { do 2 eexists. split; [done|]. apply Hstop. by intros [? [=]]. }
  destruct (Hl Hlen) as [Hne Hl']. destruct rest' as [|c rest']; [done|].
  destruct (atoi l <? 0).
  { do 2 eexists. split; [done|]. apply Hstop. by intros [? [=]]. }
  rewrite advance_cons, size_left_at.
  destruct (Z.ltb_spec (Z.of_nat (length rest')) (atoi l)).
  - do 2 eexists. split; [done|]. exists (l ++ [c]), rest'.
    rewrite snoc_app, app_assoc. split_and!; [done|done|]. by intros [? [=]].
  - do 2 eexists. split; [done|].
    exists ((l ++ [c]) ++ take (Z.to_nat (atoi l)) rest'), (drop (Z.to_nat (atoi l)) rest').
    rewrite <- app_assoc, take_drop, snoc_app. split_and!; [done| |].
    + rewrite advance_take by lia. by rewrite !(app_assoc pre).
    + by destruct l.
Qed.

Lemma read_integer_forward pre c rest :
  exists o b', bencode_read_integer (pre ‖ c :: rest) = Ok (o, b') /\
    forward pre (c :: rest) (is_Some o) b'.
Proof.
  unfold bencode_read_integer. rewrite deref_cons, rbind_ok.
  destruct (negb _).
  { do 2 eexists. split; [done|]. apply forward_refl. by intros [? [=]]. }
  rewrite advance_cons.
  destruct (read_until_forward chr_e 31 (pre ++ [c]) rest) as (len & l & rest' & -> & -> & Hl).
  cbn [rbind]. destruct (Nat.eqb_spec len 0) as [|Hlen].
  - do 2 eexists. split; [done|]. exists (c :: l), rest'. rewrite !snoc_app.
    split_and!; [done|done|]. by intros [? [=]].
  - destruct (Hl Hlen) as [Hne _]. destruct rest' as [|d rest']; [done|].
    do 2 eexists. split; [done|]. exists (c :: l ++ [d]), rest'. rewrite advance_cons.
    split_and!; [cbn [app]; by rewrite snoc_app | by rewrite <- !(app_assoc pre) | done].
Qed.

(** The loops: with a sink that neither runs out of fuel nor stops advancing,
    one unit of fuel per remaining byte is enough. *)
(** A run that ends: it returns, or it has read out of bounds. *)
Definition stops {A} (r : res A) : bool := match r with Ok _ | Oob => true | _ => false end.

Section loop_progress.
Context {St : Type}.

Definition sink_ok (n : nat) (P : Prop)
  (f : St -> llarp_buffer_t -> res (bool * St * llarp_buffer_t)) : Prop :=
  forall st pre rest, (length rest <= n)%nat ->
    stops (f st (pre ‖ rest)) = true /\
    forall ok st' b', f st (pre ‖ rest) = Ok (ok, st', b') ->
      forward pre rest (ok = true /\ P /\ rest <> []) b'.

Lemma read_list_loop_progress fuel n sink :
  sink_ok n True (fun st => sink st true) ->
  (fuel <= n)%nat -> sink_ok fuel False (read_list_loop fuel sink).
Proof.
  intros Hs. induction fuel as [|f IH]; intros Hn st pre rest Hf.
  { destruct rest; [|simpl in Hf; lia]. cbn [read_list_loop]. rewrite size_left_at. cbn.
    split; [done|]. intros ok st' b' [= <- <- <-]. apply forward_refl. tauto. }
  cbn [read_list_loop]. rewrite size_left_at.
  destruct rest as [|c rest]; cbn [length Nat.eqb].
  { split; [done|]. intros ok st' b' [= <- <- <-]. apply forward_refl. tauto. }
  rewrite deref_cons, rbind_ok. destruct (c =? chr_e).
  { split; [done|]. intros ok st' b' [= <- <- <-]. apply forward_refl. tauto. }
  destruct (Hs st pre (c :: rest)) as [Hfuel Hfwd]; [lia|].
  destruct (sink st true (pre ‖ c :: rest)) as [[[ok1 st1] b1]| | |]; [|done..]. cbn [rbind].
  destruct (Hfwd ok1 st1 b1 eq_refl) as (l & rest' & Hl & -> & Hne).
  destruct ok1.
  - assert (l <> []) as Hl0 by (apply Hne; done).
    assert (length rest' <= f)%nat.
    { apply (f_equal length) in Hl. rewrite length_app in Hl. simpl in *.
      destruct l; simpl in *; [done|lia]. }
    destruct (IH ltac:(lia) st1 (pre ++ l) rest') as [Hfuel' Hfwd']; [done|].
    split; [done|]. intros ok st' b' Hok. rewrite Hl.
    eapply forward_app; [by eapply Hfwd'|tauto].
  - split; [done|]. intros ok st' b' [= <- <- <-].
    exists l, rest'. split_and!; [done|done|]. by intros [[=] _].
Qed.

Lemma read_dict_loop_progress fuel n sink :
  (forall key, sink_ok n False (fun st => sink st (Some key))) ->
  (fuel <= n)%nat -> sink_ok fuel False (read_dict_loop fuel sink).
Proof.
  intros Hs. induction fuel as [|f IH]; intros Hn st pre rest Hf.
  { destruct rest; [|simpl in Hf; lia]. cbn [read_dict_loop]. rewrite size_left_at. cbn.
    split; [done|]. intros ok st' b' [= <- <- <-]. apply forward_refl. tauto. }
  cbn [read_dict_loop]. rewrite size_left_at.
  destruct rest as [|c rest]; cbn [length Nat.eqb].
  { split; [done|]. intros ok st' b' [= <- <- <-]. apply forward_refl. tauto. }
  rewrite deref_cons, rbind_ok. destruct (c =? chr_e).
  { split; [done|]. intros ok st' b' [= <- <- <-]. apply forward_refl. tauto. }
  destruct (read_string_forward pre (c :: rest)) as (o & b1 & -> & (l & rest' & Hl & -> & Hne)).
  cbn [rbind]. destruct o as [key|].
  2:{ split; [done|]. intros ok st' b' [= <- <- <-]. exists l, rest'. split_and!; [done|done|tauto]. }
  assert (l <> []) as Hl0 by (apply Hne; by eexists).
  assert (length rest' <= f)%nat as Hr.
  { apply (f_equal length) in Hl. rewrite length_app in Hl. simpl in *.
    destruct l; simpl in *; [done|lia]. }
  destruct (Hs key st (pre ++ l) rest') as [Hfuel1 Hfwd1]; [lia|].
  destruct (sink st (Some key) _) as [[[ok1 st1] b1]| | |]; [|done..]. cbn [rbind].
  destruct (Hfwd1 ok1 st1 b1 eq_refl) as (l1 & rest1 & -> & -> & _).
  rewrite Hl. destruct ok1.
  - rewrite length_app in Hr.
    destruct (IH ltac:(lia) st1 ((pre ++ l) ++ l1) rest1) as [Hfuel' Hfwd']; [lia|].
    split; [done|]. intros ok st' b' Hok.
    eapply (forward_app _ _ _ False); [eapply forward_app; [by eapply Hfwd'|]|]; tauto.
  - split; [done|]. intros ok st' b' [= <- <- <-].
    eapply (forward_app _ _ _ False); [eapply forward_app; [apply (forward_refl _ _ False)|]|]; tauto.
Qed.
End loop_progress.

Lemma drop_result_forward {A} pre rest (r : res (option A * llarp_buffer_t)) o b' :
  r = Ok (o, b') -> forward pre rest (is_Some o) b' ->
  stops (drop_result r) = true /\
  forall ok st' b'', drop_result r = Ok (ok, st', b'') ->
    forward pre rest (ok = true /\ True /\ rest <> []) b''.
Proof.
  intros -> Hf. cbn. split; [done|]. intros ok st' b'' [= <- <- <-].
  eapply forward_weaken; [|done]. destruct o; [by eexists|by intros [[=] _]].
Qed.


(** What remains after the opening letter of a list or dictionary. *)
Lemma read_close_progress {St} (n : nat) (st : St) pre c rest
  (loop : St -> llarp_buffer_t -> res (bool * St * llarp_buffer_t))
  (fin : St -> llarp_buffer_t -> res (bool * St * llarp_buffer_t)) :
  sink_ok n False loop -> (length rest <= n)%nat ->
  (forall st b, exists st', fin st b = Ok (true, st', b)) ->
  let r := (let* (ok, st, b) := loop st (advance 1 (pre ‖ c :: rest)) in
            if negb ok then Ok (false, st, b)
            else let* c := deref b in
                 if negb (c =? chr_e) then Ok (false, st, b) else fin st (advance 1 b)) in
  stops r = true /\
  forall ok st' b', r = Ok (ok, st', b') ->
    forward pre (c :: rest) (ok = true /\ True /\ c :: rest <> []) b'.
Proof.
  intros Hloop Hn Hfin. cbn zeta. rewrite advance_cons.
  destruct (Hloop st (pre ++ [c]) rest Hn) as [Hfuel Hfwd].
  destruct (loop st _) as [[[ok1 st1] b1]| | |]; [|done..].
  destruct (Hfwd _ _ _ eq_refl) as (l & rest' & -> & -> & _). cbn [rbind].
  destruct ok1; cbn [negb].
  2:{ split; [done|]. intros ok st' b' [= <- <- <-]. exists (c :: l), rest'.
      by rewrite !snoc_app. }
  destruct rest' as [|d rest']; [by rewrite deref_nil|].
  rewrite deref_cons, rbind_ok. destruct (negb _).
  { split; [done|]. intros ok st' b' [= <- <- <-]. exists (c :: l), (d :: rest').
    by rewrite !snoc_app. }
  destruct (Hfin st1 (advance 1 (((pre ++ [c]) ++ l) ‖ d :: rest'))) as [st2 ->].
  split; [done|]. intros ok st' b' [= <- <- <-]. rewrite advance_cons.
  exists (c :: l ++ [d]), rest'. cbn [app]. rewrite snoc_app.
  split_and!; [done|by rewrite <- !(app_assoc pre)|done].
Qed.

Lemma discard_progress fuel : sink_ok fuel True (fun _ : unit => bencode_discard fuel).
Proof.
  induction fuel as [|f IH]; intros [] pre rest Hf.
  { destruct rest; [|simpl in Hf; lia]. cbn [bencode_discard]. rewrite size_left_at. cbn.
    split; [done|]. intros ok st' b' [= <- <- <-]. apply forward_refl. tauto. }
  cbn [bencode_discard]. rewrite size_left_at.
  destruct rest as [|c rest]; cbn [length Nat.eqb].
  { split; [done|]. intros ok st' b' [= <- <- <-]. apply forward_refl. tauto. }
  rewrite deref_cons, rbind_ok. cbn [length] in Hf.
  assert (stops (Ok (false, tt, pre ‖ c :: rest)) = true /\
    forall ok st' b', Ok (false, tt, pre ‖ c :: rest) = Ok (ok, st', b') ->
           forward pre (c :: rest) (ok = true /\ True /\ c :: rest <> []) b') as Hstop.
  { split; [done|]. intros ok st' b' [= <- <- <-]. apply forward_refl. by intros [[=] _]. }
  destruct (c =? chr_l).
  { unfold bencode_read_list. destruct (_ <? 2)%nat; [done|]. rewrite deref_cons, rbind_ok.
    destruct (negb _); [done|].
    apply (read_close_progress f tt pre c rest (read_list_loop f _) (fun _ b => Ok (true, tt, b)));
      [|lia|by eauto].
    by apply (read_list_loop_progress f f). }
  destruct (c =? chr_i).
  { destruct (read_integer_forward pre c rest) as (o & b' & Ho & Hfwd).
    by eapply drop_result_forward. }
  destruct (c =? chr_d).
  { unfold bencode_read_dict. destruct (_ <? 2)%nat; [done|]. rewrite deref_cons, rbind_ok.
    destruct (negb _); [done|].
    apply (read_close_progress f tt pre c rest (read_dict_loop f _) (fun _ b => Ok (true, tt, b)));
      [|lia|by eauto].
    apply (read_dict_loop_progress f f); [|done]. intros _ st' pre' rest' Hr.
    destruct (IH st' pre' rest' Hr) as [? Hw]. split; [done|].
    intros. eapply forward_weaken; [|by eapply Hw]. tauto. }
  destruct (is_digit c); [|done].
  destruct (read_string_forward pre (c :: rest)) as (o & b' & Ho & Hfwd).
  by eapply drop_result_forward.
Qed.

(** ** Discarding a well-formed value *)
Lemma enc_str_head k : exists c r, enc_str k = c :: r /\ is_digit c = true.
Proof.
  unfold enc_str. destruct (print_dec_cons (Z.of_nat (length k))) as (c & r & -> & Hc); [lia|].
  by eexists _, _.
Qed.

Lemma digit_not c d : is_digit c = true -> is_digit d = false -> (c =? d) = false.
Proof. intros Hc Hd. apply Z.eqb_neq. intros ->. congruence. Qed.

Lemma bencoded_head v : bencoded v -> exists c r, v = c :: r /\ (c =? chr_e) = false.
Proof.
  destruct 1 as [i|s| |]; [by eexists _, _| |by eexists _, _..].
  destruct (enc_str_head s) as (c & r & -> & Hc). eexists _, _. split; [done|].
  by apply digit_not.
Qed.

Lemma discard_skips_mut :
  (forall v, bencoded v -> forall pre rest fuel, (length v <= fuel)%nat ->
     bencode_discard fuel (pre ‖ v ++ rest) = Ok (true, tt, (pre ++ v) ‖ rest)) /\
  (forall l, bencoded_items l -> forall pre rest f g, (length l <= f)%nat -> (length l <= g)%nat ->
     read_list_loop f (fun _ more b => if more : bool then bencode_discard g b
                                       else Ok (true, tt, b)) tt (pre ‖ l ++ chr_e :: rest)
     = Ok (true, tt, (pre ++ l) ‖ chr_e :: rest)) /\
  (forall l, bencoded_pairs l -> forall pre rest f g, (length l <= f)%nat -> (length l <= g)%nat ->
     read_dict_loop f (fun _ key b => match key with
                                      | Some _ => bencode_discard g b
                                      | None => Ok (true, tt, b)
                                      end) tt (pre ‖ l ++ chr_e :: rest)
     = Ok (true, tt, (pre ++ l) ‖ chr_e :: rest)).
Proof.
  apply bencoded_mutind.
  - intros i Hi pre rest [|f] Hf; [unfold enc_int in Hf; simpl in Hf; lia|].
    pose proof (read_integer_reads i Hi pre rest) as Hr. unfold enc_int in *. cbn [app] in *.
    cbn [bencode_discard]. rewrite size_left_at, deref_cons, rbind_ok. cbn [length Nat.eqb].
    cbn [Z.eqb chr_i chr_l Pos.eqb]. fold chr_i. by rewrite Hr.
  - intros s Hs pre rest [|f] Hf.
    { unfold enc_str in Hf. rewrite length_app in Hf. simpl in Hf. lia. }
    pose proof (read_string_reads s Hs pre rest) as Hr.
    destruct (enc_str_head s) as (c & r & Hc & Hd). rewrite Hc in *. cbn [app] in *.
    cbn [bencode_discard]. rewrite size_left_at, deref_cons, rbind_ok. cbn [length Nat.eqb].
    rewrite !(digit_not c) by done. by rewrite Hd, Hr.
  - intros l _ IH pre rest [|f] Hf; [simpl in Hf; lia|]. cbn [app].
    rewrite snoc_app. cbn [bencode_discard]. rewrite size_left_at, deref_cons, rbind_ok.
    cbn [length Nat.eqb]. rewrite Z.eqb_refl. cbn [length] in Hf. rewrite length_app in Hf.
    unfold bencode_read_list. rewrite size_left_at, deref_cons, rbind_ok, Z.eqb_refl. cbn [negb length].
    destruct (Nat.ltb_spec (S (length (l ++ chr_e :: rest))) 2) as [Hlt|_].
    { rewrite length_app in Hlt. simpl in Hlt. lia. }
    rewrite advance_cons, IH by lia. cbn [rbind negb].
    rewrite deref_cons, rbind_ok, Z.eqb_refl. cbn [negb]. rewrite advance_cons.
    by rewrite <- !(app_assoc pre).
  - intros l _ IH pre rest [|f] Hf; [simpl in Hf; lia|]. cbn [app].
    rewrite snoc_app. cbn [bencode_discard]. rewrite size_left_at, deref_cons, rbind_ok.
    cbn [length Nat.eqb Z.eqb chr_d chr_i chr_l Pos.eqb]. fold chr_d.
    cbn [length] in Hf. rewrite length_app in Hf.
    unfold bencode_read_dict. rewrite size_left_at, deref_cons, rbind_ok, Z.eqb_refl. cbn [negb length].
    destruct (Nat.ltb_spec (S (length (l ++ chr_e :: rest))) 2) as [Hlt|_].
    { rewrite length_app in Hlt. simpl in Hlt. lia. }
    rewrite advance_cons, IH by lia. cbn [rbind negb].
    rewrite deref_cons, rbind_ok, Z.eqb_refl. cbn [negb]. rewrite advance_cons.
    by rewrite <- !(app_assoc pre).
  - intros pre rest f g _ _. destruct f; cbn [read_list_loop app]; rewrite size_left_at, deref_cons;
      cbn [length Nat.eqb rbind]; by rewrite Z.eqb_refl, app_nil_r.
  - intros x r Hx IHx _ IHr pre rest f g Hf Hg. rewrite length_app in Hf, Hg.
    destruct (bencoded_head x Hx) as (c & x' & Hc & Hne).
    destruct f as [|f]; [subst x; simpl in Hf; lia|].
    cbn [read_list_loop]. rewrite <- (app_assoc x), size_left_at, Hc. cbn [app length Nat.eqb].
    rewrite deref_cons, rbind_ok, Hne. change (c :: x' ++ ?k) with ((c :: x') ++ k). rewrite <- Hc.
    rewrite IHx by lia. cbn [rbind].
    rewrite IHr by (subst x; simpl in *; lia). by rewrite <- !(app_assoc pre).
  - intros pre rest f g _ _. destruct f; cbn [read_dict_loop app]; rewrite size_left_at, deref_cons;
      cbn [length Nat.eqb rbind]; by rewrite Z.eqb_refl, app_nil_r.
  - intros k x r Hk Hx IHx _ IHr pre rest f g Hf Hg. rewrite !length_app in Hf, Hg.
    destruct (enc_str_head k) as (c & k' & Hc & Hd).
    destruct f as [|f]; [rewrite Hc in Hf; simpl in Hf; lia|].
    cbn [read_dict_loop]. rewrite <- (app_assoc (enc_str k)), size_left_at, Hc. cbn [app length Nat.eqb].
    rewrite deref_cons, rbind_ok, (digit_not c chr_e) by done.
    change (c :: k' ++ ?l) with ((c :: k') ++ l). rewrite <- Hc.
    rewrite (read_string_reads k Hk). cbn [rbind].
    rewrite <- (app_assoc x), IHx by lia. cbn [rbind].
    rewrite IHr by (rewrite Hc in *; simpl in *; lia). by rewrite <- !app_assoc.
Qed.

(** Items of a container, through the interface of the item type: [benc] is the
    text of an item and [ok] the values the format can hold. *)
Class BEncodableSpec (A : Type) {EA : BEncodable A} (benc : A -> list Z) (ok : A -> Prop) : Prop := {
  benc_head a : ok a -> exists c r, benc a = c :: r /\ (c =? chr_e) = false;
  BEncode_writes a : ok a -> writes (BEncode a) (benc a);
  BDecode_reads fuel a : ok a -> (length (benc a) <= fuel)%nat -> reads (BDecode fuel) (benc a) a;
}.

Definition uint64_bencodable : BEncodable Z :=
  {| BEncode := bencode_write_uint64; BDecode := fun _ => bencode_read_integer |}.

#[export] Instance uint64_bencodable_spec :
  @BEncodableSpec Z uint64_bencodable enc_int (in_width 64).
Proof.
  split; intros.
  - by eexists _, _.
  - apply writes_uint64.
  - by apply read_integer_reads.
Qed.

Definition array_bencodable (n : nat) : BEncodable (list Z) :=
  {| BEncode := bencode_write_bytestring; BDecode := fun _ => array_decode n |}.

#[export] Instance array_bencodable_spec n :
  @BEncodableSpec (list Z) (array_bencodable n) enc_str (fun s => length s = n /\ str_ok s).
Proof.
  split.
  - intros s _. destruct (enc_str_head s) as (c & r & -> & Hc). eexists _, _.
    split; [done|]. by apply digit_not.
  - intros s _. apply writes_bytestring.
  - intros fuel s [Hn Hs] _ pre rest. cbn. unfold array_decode.
    rewrite read_string_reads by done. cbn [rbind]. unfold sz; cbn [mem].
    by rewrite Hn, Nat.eqb_refl.
Qed.

Section items.
Context {A : Type} {EA : BEncodable A} {benc : A -> list Z} {ok : A -> Prop}.
Context {ES : BEncodableSpec A benc ok}.

Lemma writes_items l : Forall ok l -> writes (write_items l) (concat (benc <$> l)).
Proof.
  induction 1 as [|a l Ha _ IH]; cbn; [apply writes_nop|].
  apply writes_andthen; [by apply BEncode_writes | done].
Qed.

Lemma writes_list l : Forall ok l -> writes (BEncodeWriteList l) (enc_list (benc <$> l)).
Proof.
  intros Hl. apply (writes_andthen _ _ [chr_l]); [apply writes_write|].
  apply writes_andthen; [by apply writes_items | apply writes_write].
Qed.

(** Reading a list whose sink folds the items into a state by [step], as long
    as [good] allows it. *)
Section fold.
Context {St : Type} (step : St -> A -> St) (good : St -> A -> Prop).

Fixpoint fold_good (st : St) (l : list A) : Prop :=
  match l with
  | [] => True
  | a :: r => good st a /\ fold_good (step st a) r
  end.

Context (n : nat) (sink : St -> bool -> llarp_buffer_t -> res (bool * St * llarp_buffer_t)).
Context (Hsink : forall st a pre rest, ok a -> (length (benc a) <= n)%nat -> good st a ->
           sink st true (pre ‖ benc a ++ rest) = Ok (true, step st a, (pre ++ benc a) ‖ rest)).
Context (Hdone : forall st b, sink st false b = Ok (true, st, b)).

Lemma read_list_loop_items l pre tail st f :
  Forall ok l -> fold_good st l -> (length (concat (benc <$> l)) <= n)%nat ->
  read_list_loop (length l + f) sink st (pre ‖ concat (benc <$> l) ++ tail)
  = read_list_loop f sink (fold_left step l st) ((pre ++ concat (benc <$> l)) ‖ tail).
Proof using ES Hsink.
  intros Hl. revert pre st. induction Hl as [|a l Ha _ IH]; intros pre st Hg Hn.
  - cbn [length Nat.add fmap list_fmap concat app fold_left]. by rewrite app_nil_r.
  - destruct Hg as [Hga Hg]. change (concat (benc <$> a :: l)) with (benc a ++ concat (benc <$> l)) in *.
    rewrite length_app in Hn. destruct (benc_head a Ha) as (c & r & Hc & Hne).
    cbn [length Nat.add read_list_loop]. rewrite <- (app_assoc (benc a)), size_left_at, Hc.
    cbn [app length Nat.eqb]. rewrite deref_cons, rbind_ok, Hne.
    change (c :: r ++ ?k) with ((c :: r) ++ k). rewrite <- Hc.
    rewrite Hsink by (done || lia). cbn [rbind].
    rewrite IH; [|done|lia]. by rewrite <- !(app_assoc pre).
Qed.

Lemma length_items l : Forall ok l -> (length l <= length (concat (benc <$> l)))%nat.
Proof using ES.
  induction 1 as [|a l Ha _ IH]; [done|].
  change (concat (benc <$> a :: l)) with (benc a ++ concat (benc <$> l)).
  destruct (benc_head a Ha) as (c & r & -> & _). rewrite length_app. simpl. lia.
Qed.

Lemma read_list_loop_end pre rest st f :
  read_list_loop f sink st (pre ‖ chr_e :: rest) = Ok (true, st, pre ‖ chr_e :: rest).
Proof.
  destruct f; cbn [read_list_loop]; rewrite size_left_at, deref_cons; cbn [length Nat.eqb rbind];
    by rewrite Z.eqb_refl.
Qed.

Lemma read_list_items l pre rest st f :
  Forall ok l -> fold_good st l ->
  (length (enc_list (benc <$> l)) <= f)%nat -> (length (enc_list (benc <$> l)) <= n)%nat ->
  bencode_read_list f sink st (pre ‖ enc_list (benc <$> l) ++ rest)
  = Ok (true, fold_left step l st, (pre ++ enc_list (benc <$> l)) ‖ rest).
Proof using ES Hsink Hdone.
  intros Hl Hg Hf Hn. unfold enc_list in *. cbn [app length] in *. rewrite length_app in Hf, Hn.
  rewrite snoc_app. unfold bencode_read_list.
  rewrite size_left_at, deref_cons, rbind_ok, Z.eqb_refl. cbn [length negb].
  destruct (Nat.ltb_spec (S (length (concat (benc <$> l) ++ chr_e :: rest))) 2) as [Hlt|_].
  { rewrite length_app in Hlt. simpl in Hlt. lia. }
  pose proof (length_items l Hl). replace f with (length l + (f - length l))%nat by lia.
  rewrite advance_cons, read_list_loop_items, read_list_loop_end by (done || lia). cbn [rbind negb].
  rewrite deref_cons, rbind_ok, Z.eqb_refl. cbn [negb]. rewrite advance_cons, Hdone.
  by rewrite <- !(app_assoc pre).
Qed.
End fold.

Lemma read_list_roundtrip l dflt acc pre rest fuel :
  Forall ok l -> (length (enc_list (benc <$> l)) <= fuel)%nat ->
  BEncodeReadList fuel dflt acc (pre ‖ enc_list (benc <$> l) ++ rest)
  = Ok (true, acc ++ l, (pre ++ enc_list (benc <$> l)) ‖ rest).
Proof.
  intros Hl Hf. unfold BEncodeReadList.
  rewrite (read_list_items (fun st a => st ++ [a]) (fun _ _ => True) fuel).
  - f_equal. f_equal. f_equal. clear. revert acc.
    induction l as [|a l IH]; intros acc; cbn; [by rewrite app_nil_r|]. by rewrite IH, snoc_app.
  - intros st a pre' rest' Ha Hn _. by rewrite (BDecode_reads fuel a Ha Hn).
  - done.
  - done.
  - generalize acc. clear. induction l; intros; cbn; auto.
  - done.
  - done.
Qed.

(** Into an array: the first entries are replaced. *)
Lemma read_array_roundtrip l array pre rest fuel :
  Forall ok l -> (length l <= length array)%nat -> (length (enc_list (benc <$> l)) <= fuel)%nat ->
  BEncodeReadArray fuel array (pre ‖ enc_list (benc <$> l) ++ rest)
  = Ok (true, (l ++ drop (length l) array, length l), (pre ++ enc_list (benc <$> l)) ‖ rest).
Proof.
  intros Hl Hn Hf. unfold BEncodeReadArray.
  rewrite (read_list_items (fun st a => (<[st.2:=a]> st.1, S st.2)) (fun st _ => st.2 < length st.1)%nat fuel); [| |by intros []|done| |done..].
  - do 3 f_equal. enough (forall acc, fold_left (fun st a => (<[st.2:=a]> st.1, S st.2)) l (acc ++ array, length acc)
      = (acc ++ l ++ drop (length l) array, length acc + length l)%nat) as H by apply (H []).
    clear -Hn. revert array Hn. induction l as [|a l IH]; intros array Hn acc; cbn [fold_left length drop app].
    { by rewrite Nat.add_0_r. }
    destruct array as [|b array]; [cbn in Hn; lia|]. cbn [fst snd].
    rewrite insert_app_r_alt, Nat.sub_diag by lia. cbn [insert list_insert drop].
    change (b :: array) with ([b] ++ array). replace (acc ++ a :: array) with ((acc ++ [a]) ++ array) by (by rewrite <- app_assoc).
    replace (S (length acc)) with (length (acc ++ [a])) by (rewrite length_app; cbn; lia). rewrite IH by (cbn in Hn; lia).
    rewrite length_app, <- !app_assoc. cbn. f_equal. lia.
  - intros [arr i] a pre' rest' Ha Hna Hg. cbn [fst snd] in *. rewrite (proj2 (Nat.leb_gt _ _)) by done. by rewrite (BDecode_reads fuel a Ha Hna).
  - assert (length l + 0 <= length array)%nat as Hn' by lia. clear -Hn'. revert array Hn'. generalize 0%nat.
    induction l as [|a l IH]; intros i array Hn; cbn [fold_good fst snd]; [done|]. cbn in Hn. split; [lia|]. apply IH. rewrite length_insert. lia.
Qed.

Context `{Countable A}.

Lemma set_fold_left (l : list A) : fold_left (fun (st : gset A) a => {[a]} ∪ st) l ∅ = list_to_set l.
Proof.
  enough (forall acc : gset A, fold_left (fun st a => {[a]} ∪ st) l acc = list_to_set l ∪ acc) as ->
    by set_solver.
  induction l as [|a l IH]; intros acc; cbn; [set_solver|]. rewrite IH. set_solver.
Qed.

Lemma set_fold_good (l : list A) :
  NoDup l -> fold_good (fun (st : gset A) a => {[a]} ∪ st) (fun st a => a ∉ st) ∅ l.
Proof.
  intros Hnd. enough (forall acc : gset A, (forall x, x ∈ l -> x ∉ acc) ->
    fold_good (fun (st : gset A) a => {[a]} ∪ st) (fun st a => a ∉ st) acc l) as Hx
    by (apply Hx; set_solver).
  induction Hnd as [|a l Ha Hnd IH]; intros acc Hacc; cbn; [done|]. split; [set_solver|].
  apply IH. set_solver.
Qed.

Lemma set_sink_reads fuel (st : gset A) a pre rest :
  ok a -> (length (benc a) <= fuel)%nat ->
  (let* (item, b) := BDecode fuel (pre ‖ benc a ++ rest) in
   match item with
   | None => Ok (false, st, b)
   | Some item => Ok (bool_decide (item ∉ st), {[item]} ∪ st, b)
   end) = Ok (bool_decide (a ∉ st), {[a]} ∪ st, (pre ++ benc a) ‖ rest).
Proof using ES. intros Ha Hn. by rewrite (BDecode_reads fuel a Ha Hn). Qed.

(** A repeated item stops the reader with [false]. *)
Lemma read_set_duplicate l a pre rest fuel :
  Forall ok l -> NoDup l -> a ∈ l -> (length (enc_list (benc <$> l ++ [a])) <= fuel)%nat ->
  exists b, BEncodeReadSet fuel (∅ : gset A) (pre ‖ enc_list (benc <$> l ++ [a]) ++ rest)
          = Ok (false, list_to_set l, b).
Proof.
  intros Hl Hnd Ha Hf. unfold BEncodeReadSet, enc_list in *.
  assert (ok a) as Hok by (by eapply Forall_forall in Hl).
  rewrite fmap_app, concat_app in *. cbn [fmap list_fmap concat] in *. rewrite app_nil_r in *.
  cbn [app length] in *. rewrite !length_app in Hf.
  pose proof (length_items l Hl).
  unfold bencode_read_list. rewrite size_left_at, deref_cons, rbind_ok, Z.eqb_refl. cbn [length negb].
  destruct (Nat.ltb_spec (S (length (((concat (benc <$> l) ++ benc a) ++ [chr_e]) ++ rest))) 2) as [Hlt|_].
  { rewrite !length_app in Hlt. simpl in Hlt. lia. }
  rewrite advance_cons, <- !(app_assoc (concat (benc <$> l))).
  match goal with |- context [read_list_loop _ ?s _ _] => set (sink := s) end.
  replace (read_list_loop fuel sink) with (read_list_loop (length l + S (fuel - length l - 1))%nat sink)
    by (f_equal; simpl in Hf; lia).
  rewrite (read_list_loop_items (fun (st : gset A) a => {[a]} ∪ st) (fun st a => a ∉ st) fuel);
    [|clear Hl Hf; intros st x pre' rest' Hx Hn Hin|done|by apply set_fold_good|lia].
  2:{ subst sink; cbn beta iota. rewrite set_sink_reads by done. by rewrite bool_decide_true. }
  destruct (benc_head a Hok) as (c & r & Hc & Hne).
  rewrite <- (app_assoc (benc a)).
  cbn [read_list_loop]. rewrite size_left_at, Hc. cbn [app length Nat.eqb].
  rewrite deref_cons, rbind_ok, Hne. change (c :: r ++ ?k) with ((c :: r) ++ k). rewrite <- Hc.
  subst sink; cbn beta iota. rewrite set_sink_reads, set_fold_left by (done || lia).
  rewrite bool_decide_false by set_solver. cbn [rbind negb].
  eexists. f_equal. f_equal. f_equal. set_solver.
Qed.

Lemma read_set_roundtrip l pre rest fuel :
  Forall ok l -> NoDup l -> (length (enc_list (benc <$> l)) <= fuel)%nat ->
  BEncodeReadSet fuel (∅ : gset A) (pre ‖ enc_list (benc <$> l) ++ rest)
  = Ok (true, list_to_set l, (pre ++ enc_list (benc <$> l)) ‖ rest).
Proof.
  intros Hl Hnd Hf. unfold BEncodeReadSet.
  rewrite (read_list_items (fun (st : gset A) a => {[a]} ∪ st) (fun st a => a ∉ st) fuel).
  - by rewrite set_fold_left.
  - intros st a pre' rest' Ha Hn Hin. rewrite (BDecode_reads fuel a Ha Hn). cbn [rbind].
    by rewrite bool_decide_true.
  - done.
  - done.
  - by apply set_fold_good.
  - done.
  - done.
Qed.
End items.

(** ** Properties *)

(** C22. List round trip: for every item type that meets the interface, a list
    written where one byte more than its text is left can be read back from the
    place it was written to, item by item, and the reader stops right after it. *)
Theorem bencode_list_roundtrip {A} {EA : BEncodable A} (benc : A -> list Z) (ok : A -> Prop)
  (ES : BEncodableSpec A benc ok) (l : list A) (dflt : A) (pre old : list Z) (c : Z) (rest : list Z) :
  Forall ok l -> length old = length (enc_list (benc <$> l)) ->
  exists c' b,
    BEncodeWriteList l (pre ‖ old ++ c :: rest) = Ok (true, b) /\
    b = ((pre ++ enc_list (benc <$> l)) ‖ c' :: rest) /\
    BEncodeReadList (sz b) dflt [] (Buffer (mem b) (length pre)) = Ok (true, l, b).
Proof.
  intros Hl Ho. destruct (writes_list l Hl pre old c rest Ho) as [c' Hw].
  exists c', ((pre ++ enc_list (benc <$> l)) ‖ c' :: rest). split_and!; [done|done|].
  cbn [mem]. rewrite <- (app_assoc pre) at 1 2.
  rewrite read_list_roundtrip; [done|done|].
  unfold sz; cbn [mem]. rewrite !length_app. lia.
Qed.

Lemma bencode_list_roundtrip_witness :
  exists c' b,
    @BEncodeWriteList Z uint64_bencodable [7; 2 ^ 64 - 1] (Buffer (repeat 9 40) 0) = Ok (true, b) /\
    b = (enc_list [enc_int 7; enc_int (2 ^ 64 - 1)] ‖ c' :: repeat 9 12) /\
    @BEncodeReadList Z uint64_bencodable (sz b) 0 [] (Buffer (mem b) 0) = Ok (true, [7; 2 ^ 64 - 1], b).
Proof.
  apply (bencode_list_roundtrip enc_int (in_width 64) _ [7; 2 ^ 64 - 1] 0 [] (repeat 9 27) 9 (repeat 9 12)).
  - repeat constructor; lia.
  - vm_compute. reflexivity.
Defined.

(** Set round trip with duplicate denial: a list of distinct items is read back as
    the set of them, and a repeated item makes [BEncodeReadSet] fail. *)
Theorem bencode_set_roundtrip {A} {EA : BEncodable A} (benc : A -> list Z) (ok : A -> Prop)
  (ES : BEncodableSpec A benc ok) `{Countable A} (l : list A) (a : A) (pre rest : list Z) (fuel : nat) :
  Forall ok l -> NoDup l -> a ∈ l -> (length (enc_list (benc <$> l ++ [a])) <= fuel)%nat ->
  BEncodeReadSet fuel (∅ : gset A) (pre ‖ enc_list (benc <$> l) ++ rest)
  = Ok (true, list_to_set l, (pre ++ enc_list (benc <$> l)) ‖ rest) /\
  exists b, BEncodeReadSet fuel (∅ : gset A) (pre ‖ enc_list (benc <$> l ++ [a]) ++ rest)
            = Ok (false, list_to_set l, b).
Proof.
  intros Hl Hnd Ha Hf. split; [|by apply read_set_duplicate].
  apply read_set_roundtrip; [done..|]. revert Hf.
  unfold enc_list. rewrite fmap_app, concat_app. cbn [length]. rewrite !length_app. lia.
Qed.

Lemma bencode_set_roundtrip_witness :
  @BEncodeReadSet Z uint64_bencodable _ _ 20 ∅ ([] ‖ enc_list [enc_int 3; enc_int 5] ++ [])
  = Ok (true, list_to_set [3; 5], enc_list [enc_int 3; enc_int 5] ‖ []) /\
  exists b, @BEncodeReadSet Z uint64_bencodable _ _ 20 ∅ ([] ‖ enc_list [enc_int 3; enc_int 5; enc_int 3] ++ [])
  = Ok (false, list_to_set [3; 5], b).
Proof.
  apply (bencode_set_roundtrip enc_int (in_width 64) _ [3; 5] 3 [] [] 20).
  - repeat constructor; lia.
  - apply (bool_decide_unpack _). vm_compute. done.
  - apply (bool_decide_unpack _). vm_compute. done.
  - vm_compute. lia.
Defined.

(** Skipping: on every well-formed value, nested to any depth, [bencode_discard]
    succeeds and moves the position exactly past it, for any fuel of at least its length. *)
Theorem bencode_discard_skips (v pre rest : list Z) (fuel : nat) :
  bencoded v -> (length v <= fuel)%nat ->
  bencode_discard fuel (pre ‖ v ++ rest) = Ok (true, tt, (pre ++ v) ‖ rest).
Proof. intros. by apply discard_skips_mut. Qed.

Lemma bencode_discard_skips_witness :
  bencode_discard 40 ([] ‖ (chr_d :: (enc_str [97] ++ enc_int 1 ++ enc_str [98] ++ (chr_l :: (enc_str [] ++ []) ++ [chr_e]) ++ []) ++ [chr_e]) ++ [7])
  = Ok (true, tt, (chr_d :: (enc_str [97] ++ enc_int 1 ++ enc_str [98] ++ (chr_l :: (enc_str [] ++ []) ++ [chr_e]) ++ []) ++ [chr_e]) ‖ [7]).
Proof.
  apply (bencode_discard_skips _ [] [7] 40).
  - apply bencoded_dict, pairs_cons; [done|apply bencoded_int; split; lia|].
    apply pairs_cons; [done|apply bencoded_list, items_cons; [by apply bencoded_str|constructor]|constructor].
  - vm_compute. lia.
Defined.

(** C30. Termination on arbitrary input: with one unit of fuel per remaining byte,
    [bencode_discard] always stops. It returns with its position moved forward inside the
    region, or it has read past the region, as it does for a list or dictionary that is cut
    off; on a well-formed value, whatever follows, it returns true exactly past the value. *)
Theorem bencode_discard_terminates (b : llarp_buffer_t) :
  buf_wf b ->
  (bencode_discard (size_left b) b = Oob \/
   exists ok b', bencode_discard (size_left b) b = Ok (ok, tt, b') /\ mem b' = mem b /\ (cur b <= cur b' <= sz b)%nat) /\
  (forall v rest, bencoded v -> drop (cur b) (mem b) = v ++ rest ->
   bencode_discard (size_left b) b = Ok (true, tt, Buffer (mem b) (cur b + length v))).
Proof.
  intros Hb. destruct (buf_wf_inv b Hb) as (pre & rest & ->). rewrite size_left_at. split.
  - destruct (discard_progress _ tt pre rest (le_n _)) as [Hf Hw].
    destruct (bencode_discard (length rest) (pre ‖ rest)) as [[[ok []] b']| | |]; [right|by left|done..].
    exists ok, b'. split; [done|]. destruct (Hw _ _ _ eq_refl) as (l & r & -> & -> & _).
    unfold sz; cbn [mem cur]. rewrite <- app_assoc, !length_app. split; [done|lia].
  - intros v r Hv E. cbn [mem cur] in *. rewrite drop_app_length in E. subst rest.
    rewrite (proj1 discard_skips_mut v Hv) by (rewrite length_app; lia).
    by rewrite <- app_assoc, length_app.
Qed.

Lemma bencode_discard_terminates_witness :
  (bencode_discard 3 (Buffer [chr_l; chr_l; 1] 0) = Oob \/
   exists ok b', bencode_discard 3 (Buffer [chr_l; chr_l; 1] 0) = Ok (ok, tt, b') /\
     mem b' = [chr_l; chr_l; 1] /\ (0 <= cur b' <= 3)%nat) /\
  bencode_discard 5 (Buffer (enc_int 7 ++ [1; 2]) 0) = Ok (true, tt, Buffer (enc_int 7 ++ [1; 2]) 3).
Proof.
  split.
  - apply (bencode_discard_terminates (Buffer [chr_l; chr_l; 1] 0)). unfold buf_wf. vm_compute. lia.
  - apply (proj2 (bencode_discard_terminates (Buffer (enc_int 7 ++ [1; 2]) 0) ltac:(unfold buf_wf; vm_compute; lia)) (enc_int 7) [1; 2]); [|done].
    apply bencoded_int. split; lia.
Defined.

(** Writers stay in bounds: every writer built from the byte-string, integer and
    delimiter writers leaves the region's size and the rest of memory alone and never
    writes outside it, whatever room is left; without room it returns [false]. *)
Theorem bencode_writers_in_bounds (k s : list Z) (i : Z) (l : list Z) (b : llarp_buffer_t) :
  buf_wf b ->
  Forall (fun f : llarp_buffer_t -> res (bool * llarp_buffer_t) =>
            exists ok b', f b = Ok (ok, b') /\ buf_wf b' /\ sz b' = sz b)
    [bencode_write_bytestring s; bencode_write_uint64 i; bencode_write_uint64_entry k i;
     BEncodeWriteDictInt k i; BEncodeWriteDictString k s; BEncodeWriteDictMsgType k s;
     @BEncodeWriteDictList Z uint64_bencodable k l].
Proof.
  intros Hb. apply (Forall_impl safe_writer); [|by intros f Hf; apply Hf].
  repeat apply Forall_cons_2; [by eauto 10 with bencode..| |by apply Forall_nil_2].
  apply safe_andthen; [by eauto with bencode|]. apply safe_andthen; [by eauto with bencode|].
  apply safe_andthen; [|by eauto with bencode].
  induction l; cbn [write_items BEncode uint64_bencodable]; eauto with bencode.
Qed.

Lemma bencode_writers_in_bounds_witness :
  Forall (fun f : llarp_buffer_t -> res (bool * llarp_buffer_t) =>
            exists ok b', f (Buffer [0; 0; 0] 1) = Ok (ok, b') /\ buf_wf b' /\ sz b' = 3%nat)
    [bencode_write_bytestring [1]; bencode_write_uint64 10; bencode_write_uint64_entry [118] 10;
     BEncodeWriteDictInt [118] 10; BEncodeWriteDictString [118] [1]; BEncodeWriteDictMsgType [118] [1];
     @BEncodeWriteDictList Z uint64_bencodable [118] [1; 2]].
Proof.
  apply (bencode_writers_in_bounds [118] [1] 10 [1; 2] (Buffer [0; 0; 0] 1)).
  unfold buf_wf. vm_compute. lia.
Defined.

(** Dictionary entries round trip: the entry [k -> i] written by [bencode_write_uint64_entry]
    where a byte more than its text is left is read back as the key and the integer. *)
Theorem bencode_entry_roundtrip (k : list Z) (i : Z) (pre old : list Z) (c : Z) (rest : list Z) :
  str_ok k -> in_width 64 i -> length old = length (enc_str k ++ enc_int i) ->
  exists c',
    bencode_write_uint64_entry k i (pre ‖ old ++ c :: rest)
    = Ok (true, (pre ++ enc_str k ++ enc_int i) ‖ c' :: rest) /\
    (let* (key, b) := bencode_read_string (pre ‖ (enc_str k ++ enc_int i) ++ c' :: rest) in
     let* (v, b) := bencode_read_integer b in Ok (key, v, b))
    = Ok (Some (Buffer k 0), Some i, (pre ++ enc_str k ++ enc_int i) ‖ c' :: rest).
Proof.
  intros Hk Hi Ho.
  destruct (writes_andthen _ _ _ _ (writes_bytestring k) (writes_uint64 i) pre old c rest Ho) as [c' Hw].
  exists c'. split; [done|]. rewrite <- (app_assoc (enc_str k)), read_string_reads by done. cbn [rbind].
  rewrite read_integer_reads by done. cbn [rbind]. by rewrite <- !(app_assoc pre).
Qed.

Lemma bencode_entry_roundtrip_witness :
  exists c',
    bencode_write_uint64_entry [118] 4096 (Buffer (repeat 0 12) 0)
    = Ok (true, (enc_str [118] ++ enc_int 4096) ‖ c' :: repeat 0 2) /\
    (let* (key, b) := bencode_read_string ([] ‖ (enc_str [118] ++ enc_int 4096) ++ c' :: repeat 0 2) in
     let* (v, b) := bencode_read_integer b in Ok (key, v, b))
    = Ok (Some (Buffer [118] 0), Some 4096, (enc_str [118] ++ enc_int 4096) ‖ c' :: repeat 0 2).
Proof.
  apply (bencode_entry_roundtrip [118] 4096 [] (repeat 0 9) 0 (repeat 0 2)).
  - done.
  - split; lia.
  - vm_compute. reflexivity.
Defined.

(** A string that exactly fills the region: [bencode_write_bytestring] of the empty
    string into two free bytes reports success, but the delimiter is lost to the NUL that
    [vsnprintf] stores (llarp/util/buffer.cpp, the test [toWrite < written]), so the text
    it leaves cannot be read back. *)
Theorem bencode_exact_fit_loses_delimiter (pre : list Z) (x y : Z) :
  bencode_write_bytestring [] (pre ‖ [x; y]) = Ok (true, (pre ++ [48; 0]) ‖ []) /\
  exists b, bencode_read_string (pre ‖ [48; 0]) = Ok (None, b).
Proof.
  split.
  - unfold bencode_write_bytestring, andthen. cbn [length].
    pose proof (writef_exact pre [48] chr_colon [x] y eq_refl) as Hw. cbn [app] in Hw.
    change (print_dec (Z.of_nat 0) ++ [chr_colon]) with [48; chr_colon].
    rewrite Hw. cbn [rbind].
    pose proof (write_fits (pre ++ [48; 0]) [] [] [] eq_refl) as Hw'. cbn [app] in Hw'.
    rewrite Hw'. by rewrite !app_nil_r.
  - unfold bencode_read_string.
    rewrite read_until_end; [|simpl; lia|by repeat constructor]. cbn [rbind Nat.eqb].
    by eexists.
Qed.

(** Out-of-bounds read: a dictionary whose input ends inside it makes
    [bencode_read_dict] dereference the position at the end of the region
    (llarp/util/bencode.hpp, the test after the loop), for every callback that accepts the
    entries it is given. *)
Theorem bencode_read_dict_unterminated_oob {St} (fuel : nat) (st st' : St)
  (sink : St -> option llarp_buffer_t -> llarp_buffer_t -> res (bool * St * llarp_buffer_t))
  (pre k v : list Z) :
  str_ok k ->
  sink st (Some (Buffer k 0)) (((pre ++ [chr_d]) ++ enc_str k) ‖ v)
  = Ok (true, st', (((pre ++ [chr_d]) ++ enc_str k) ++ v) ‖ []) ->
  bencode_read_dict (S fuel) sink st (pre ‖ chr_d :: enc_str k ++ v) = Oob.
Proof.
  intros Hk Hs. unfold bencode_read_dict. rewrite size_left_at. cbn [length].
  destruct (enc_str_head k) as (c & r & Hc & Hd).
  rewrite Hc at 1. cbn [app length Nat.ltb Nat.leb]. rewrite deref_cons, rbind_ok, Z.eqb_refl. cbn [negb].
  rewrite advance_cons. cbn [read_dict_loop]. rewrite size_left_at, Hc. cbn [app length Nat.eqb].
  rewrite deref_cons, rbind_ok, (digit_not c chr_e) by done.
  change (c :: r ++ v) with ((c :: r) ++ v). rewrite <- Hc.
  rewrite read_string_reads by done. cbn [rbind]. rewrite Hs. cbn [rbind].
  destruct fuel; cbn [read_dict_loop]; rewrite size_left_at; cbn [length Nat.eqb rbind negb];
    by rewrite deref_nil.
Qed.

Lemma bencode_read_dict_unterminated_oob_witness :
  bencode_read_dict 3 (fun (_ : unit) key b => match key with
     | Some _ => bencode_discard 9 b
     | None => Ok (true, tt, b) end) tt ([] ‖ chr_d :: enc_str [97] ++ enc_int 5) = Oob.
Proof.
  apply (bencode_read_dict_unterminated_oob 2 tt tt _ [] [97] (enc_int 5)).
  - done.
  - vm_compute. reflexivity.
Defined.

(** The length delimiter is not checked: nine digits are taken as the length of a
    string whatever character follows them, since [read_until] also stops when its
    result buffer is full and [bencode_read_string] skips the next byte unseen. *)
Theorem bencode_read_string_any_delimiter (pre digits s rest : list Z) (c : Z) :
  length digits = 9%nat -> Forall (fun d => is_digit d = true) digits ->
  Z.of_nat (length s) = parse_digits 0 digits ->
  bencode_read_string (pre ‖ digits ++ c :: s ++ rest)
  = Ok (Some (Buffer s 0), (pre ++ digits ++ c :: s) ‖ rest).
Proof.
  intros Hl Hd Hs. unfold bencode_read_string, read_until.
  assert (read_until_loop chr_colon 9 (pre ‖ digits ++ c :: s ++ rest)
          = Ok (digits, (pre ++ digits) ‖ c :: s ++ rest)) as ->.
  { rewrite <- Hl. clear Hl Hs. revert pre. induction Hd as [|d r Hd _ IH]; intros pre.
    - cbn [length read_until_loop app]. rewrite cur_ne_sz, deref_cons, rbind_ok, app_nil_r.
      by destruct (c =? chr_colon).
    - cbn [length read_until_loop app]. rewrite cur_ne_sz, deref_cons, rbind_ok, (digit_not d chr_colon) by done.
      rewrite advance_cons, IH. cbn [rbind]. by rewrite snoc_app. }
  cbn [rbind]. rewrite size_left_at. cbn [length Nat.eqb]. rewrite Hl. cbn [Nat.eqb].
  assert (atoi digits = parse_digits 0 digits) as ->.
  { unfold atoi, scan_number. destruct Hd as [|d r Hd Hr]; [done|]. cbn [skip_space].
    unfold is_digit in Hd.
    assert (is_space d = false) as -> by (unfold is_space; lia).
    assert ((d =? 45) = false) as -> by lia. assert ((d =? 43) = false) as -> by lia. done. }
  rewrite <- Hs. destruct (Z.ltb_spec (Z.of_nat (length s)) 0); [lia|].
  rewrite advance_cons, size_left_at, length_app.
  destruct (Z.ltb_spec (Z.of_nat (length s + length rest)) (Z.of_nat (length s))); [lia|].
  rewrite Nat2Z.id, advance_app. cbn [mem cur]. rewrite drop_app_length, take_app_length.
  by rewrite <- !(app_assoc pre), snoc_app.
Qed.

Lemma bencode_read_string_any_delimiter_witness :
  bencode_read_string ([] ‖ [48;48;48;48;48;48;48;48;50] ++ 120 :: [7; 8] ++ [9])
  = Ok (Some (Buffer [7; 8] 0), ([48;48;48;48;48;48;48;48;50] ++ 120 :: [7; 8]) ‖ [9]).
Proof.
  apply (bencode_read_string_any_delimiter [] [48;48;48;48;48;48;48;48;50] [7; 8] [9] 120).
  - done.
  - repeat constructor.
  - reflexivity.
Defined.
