(* ===== verification/Codec.v ===== *)
(** * Dictionaries with one-letter keys

    Every message of the program is a bencoded dictionary: a [BEncode] member writes the
    entries one after the other and a [DecodeKey] member is called with each key of the
    dictionary. This file has the combinators in which those members are transcribed, over
    the templates of llarp/util/bencode.hpp, and the lemmas that reduce the round trip of a
    message to one step per entry. *)

From S2P Require Import Prelude Buffer Bencode.

Abbreviation writer := (llarp_buffer_t -> res (bool * llarp_buffer_t)) (only parsing).
(** A [DecodeKey] member over an object of type [M]: the key, then the buffer at the value. *)
Abbreviation decode_key M := (M -> llarp_buffer_t -> llarp_buffer_t -> res (bool * M * llarp_buffer_t)) (only parsing).

(** Letters. *)
Abbreviation c_a := 97 (only parsing).
Abbreviation c_c := 99 (only parsing).
Abbreviation c_d := 100 (only parsing).
Abbreviation c_e := 101 (only parsing).
Abbreviation c_f := 102 (only parsing).
Abbreviation c_g := 103 (only parsing).
Abbreviation c_h := 104 (only parsing).
Abbreviation c_i := 105 (only parsing).
Abbreviation c_k := 107 (only parsing).
Abbreviation c_l := 108 (only parsing).
Abbreviation c_m := 109 (only parsing).
Abbreviation c_n := 110 (only parsing).
Abbreviation c_o := 111 (only parsing).
Abbreviation c_p := 112 (only parsing).
Abbreviation c_r := 114 (only parsing).
Abbreviation c_s := 115 (only parsing).
Abbreviation c_t := 116 (only parsing).
Abbreviation c_u := 117 (only parsing).
Abbreviation c_v := 118 (only parsing).
Abbreviation c_w := 119 (only parsing).
Abbreviation c_x := 120 (only parsing).
Abbreviation c_y := 121 (only parsing).
Abbreviation c_z := 122 (only parsing).
Abbreviation c_A := 65 (only parsing).
Abbreviation c_B := 66 (only parsing).
Abbreviation c_C := 67 (only parsing).
Abbreviation c_D := 68 (only parsing).
Abbreviation c_E := 69 (only parsing).
Abbreviation c_F := 70 (only parsing).
Abbreviation c_G := 71 (only parsing).
Abbreviation c_H := 72 (only parsing).
Abbreviation c_I := 73 (only parsing).
Abbreviation c_J := 74 (only parsing).
Abbreviation c_K := 75 (only parsing).
Abbreviation c_L := 76 (only parsing).
Abbreviation c_M := 77 (only parsing).
Abbreviation c_N := 78 (only parsing).
Abbreviation c_O := 79 (only parsing).
Abbreviation c_P := 80 (only parsing).
Abbreviation c_R := 82 (only parsing).
Abbreviation c_S := 83 (only parsing).
Abbreviation c_T := 84 (only parsing).
Abbreviation c_U := 85 (only parsing).
Abbreviation c_V := 86 (only parsing).
Abbreviation c_W := 87 (only parsing).
Abbreviation c_X := 88 (only parsing).
Abbreviation c_Y := 89 (only parsing).
Abbreviation c_Z := 90 (only parsing).

(** [if (cond) { if (!f) return false; }] *)
Definition write_if (c : bool) (f : writer) : writer := if c then f else fun b => Ok (true, b).

(** Fixed arrays of bytes: keys, signatures, path ids. *)
Abbreviation key32 := (array_bencodable 32).
Abbreviation key16 := (array_bencodable 16).
Abbreviation sig64 := (array_bencodable 64).
Definition zeros (n : nat) : list Z := replicate n 0.
Definition is_zero (l : list Z) : bool := forallb (Z.eqb 0) l.
Lemma is_zero_zeros l : is_zero l = true -> l = zeros (length l).
Proof.
  unfold is_zero. induction l as [|x l IH]; cbn [forallb length]; [done|]. rewrite andb_true_iff, Z.eqb_eq. intros [<- H]. unfold zeros. cbn [replicate]. by rewrite IH at 1.
Qed.

(** The bytes written into a buffer of [n] bytes, if they fit. *)
Definition encode_into (n : nat) (w : writer) : res (option (list Z)) :=
  let* (ok, b) := w (Buffer (replicate n 0) 0) in Ok (if ok : bool then Some (take (cur b) (mem b)) else None).

Definition key_ok (n : nat) (k : list Z) : Prop := length k = n /\ str_ok k.
Lemma key_ok_intro n k : (n < 1000)%nat -> length k = n -> key_ok n k.
Proof. intros Hn Hk. split; [done|]. unfold str_ok. lia. Qed.

Lemma array_reads n s : key_ok n s -> reads (array_decode n) (enc_str s) s.
Proof. intros [Hn Hs]. by apply (BDecode_reads (EA := array_bencodable n) (length (enc_str s)) s). Qed.
(** A value that starts with a letter is no array. *)
Lemma array_refuses n c pre rest : (0 < n)%nat -> is_digit c = false -> is_space c = false -> c <> 43 -> c <> 45 ->
  exists b, array_decode n (pre ‖ c :: rest) = Ok (None, b).
Proof.
  intros Hn Hd Hsp H43 H45. unfold array_decode, bencode_read_string.
  destruct (read_until_forward chr_colon 9 pre (c :: rest)) as (len & l & rest' & El & -> & Hl). cbn [rbind].
  destruct (Nat.eqb_spec len 0); [by eexists|]. destruct (Hl ltac:(done)) as [_ Hne]. destruct l as [|c' l]; [done|].
  injection El as <- _. assert (atoi (c :: l) = 0) as ->.
  { unfold atoi, scan_number. cbn [skip_space]. rewrite Hsp, (proj2 (Z.eqb_neq c 45)), (proj2 (Z.eqb_neq c 43)) by done. cbn [parse_digits]. by rewrite Hd. }
  cbn [Z.ltb Z.compare]. case_match; [by eexists|]. cbn [rbind Z.to_nat]. unfold sz. cbn [mem take length].
  destruct n; [lia|]. by eexists.
Qed.
(** A writer into a buffer that has a byte to spare. *)
Lemma encode_into_writes n w out : writes w out -> (length out < n)%nat -> encode_into n w = Ok (Some out).
Proof.
  intros Hw Hn. unfold encode_into. replace (replicate n 0) with (replicate (length out) 0 ++ 0 :: replicate (n - length out - 1) 0).
  2:{ change (0 :: replicate ?k 0) with (replicate (S k) 0). rewrite <- replicate_add. f_equal. lia. }
  destruct (Hw [] (replicate (length out) 0) 0 (replicate (n - length out - 1) 0)) as [c' E]; [apply length_replicate|].
  cbn [app length] in E. rewrite E. cbn [rbind app length mem cur]. by rewrite take_app_length.
Qed.

(** ** Objects that do not fit

    [f] moves the cursor by at least [n] bytes whenever it succeeds. *)
Definition grows (f : writer) (n : nat) : Prop := forall b b', f b = Ok (true, b') -> (cur b + n <= cur b')%nat.

Lemma grows_write l : grows (write l) (length l).
Proof.
  intros b b'. unfold write. case_match; [|done]. unfold store, rbind. repeat case_match; try done.
  intros [= <-]. cbn [advance cur]. simplify_eq. cbn [cur]. lia.
Qed.
Lemma grows_writef l : grows (writef l) (length l).
Proof.
  intros b b'. unfold writef, store, rbind. repeat case_match; try done; intros [= <-]; simplify_eq; cbn [advance cur]; lia.
Qed.
Lemma grows_andthen f g n m : grows f n -> grows g m -> grows (f ⩓ g) (n + m).
Proof.
  intros Hf Hg b b'. unfold andthen. destruct (f b) as [[ok b1]| | |] eqn:E; cbn [rbind]; try done. destruct ok; [|done].
  intros E2. apply Hf in E. apply Hg in E2. lia.
Qed.
Lemma grows_bytestring s : grows (bencode_write_bytestring s) (length (enc_str s)).
Proof.
  unfold enc_str. rewrite <- snoc_app, length_app.
  apply grows_andthen; [apply grows_writef|apply grows_write].
Qed.
Lemma grows_uint64 i : grows (bencode_write_uint64 i) (length (enc_int i)).
Proof.
  unfold enc_int. cbn [length]. rewrite length_app. apply (grows_andthen _ _ (S (length (print_dec i))) 1);
    [apply (grows_writef (chr_i :: print_dec i))|apply grows_write].
Qed.
Lemma no_room f n b : safe_writer f -> grows f n -> buf_wf b -> (sz b < cur b + n)%nat -> exists b', f b = Ok (false, b').
Proof.
  intros Hs Hg Hb Hn. destruct (Hs b Hb) as (ok & b' & E & Hb' & Es). destruct ok; [|by exists b'].
  apply Hg in E. unfold buf_wf in Hb'. lia.
Qed.

Lemma encode_into_no_room n w k : safe_writer w -> grows w k -> (n < k)%nat -> encode_into n w = Ok None.
Proof.
  intros Hs Hg Hn. destruct (no_room w k (Buffer (replicate n 0) 0) Hs Hg) as [b' E].
  - unfold buf_wf. cbn. lia.
  - unfold sz. cbn [mem cur]. rewrite length_replicate. lia.
  - unfold encode_into. by rewrite E.
Qed.

(** ** Steps of a [DecodeKey] member

    A step sees the object and the local [read]; [false] is an early [return false]. *)
Section steps.
Context {M : Type}.
Abbreviation step := (M * bool -> llarp_buffer_t -> llarp_buffer_t -> res (bool * (M * bool) * llarp_buffer_t)) (only parsing).

(** [if (!f(..)) return false; g] *)
Definition both (f g : step) : step := fun st key b =>
  let* (ok, st, b) := f st key b in if ok : bool then g st key b else Ok (false, st, b).

(** [if (key.startswith(k)) return f; g], for a step and for a member. *)
Definition on_key (k : list Z) (f g : decode_key M) : decode_key M := fun m key b =>
  if startswith k key then f m key b else g m key b.

(** [bool read = false; f; return read;] and [return read or bencode_discard(buf);] *)
Definition return_read (f : step) : decode_key M := fun m key b =>
  let* (ok, (m, rd), b) := f (m, false) key b in Ok (ok && rd, m, b).
Definition read_or_discard (fuel : nat) (f : step) : decode_key M := fun m key b =>
  let* (ok, (m, rd), b) := f (m, false) key b in
  if negb ok then Ok (false, m, b)
  else if rd : bool then Ok (true, m, b)
  else let* (ok, _, b) := bencode_discard fuel b in Ok (ok, m, b).
Definition return_false : decode_key M := fun m _ b => Ok (false, m, b).

(** The readers of bencode.hpp applied to a member of the object. *)
Definition maybe_entry {A} {EA : BEncodable A} (fuel : nat) (k : list Z) (get : M -> A) (set : A -> M -> M) : step :=
  fun '(m, rd) key b =>
  let* (ok, (x, rd), b) := BEncodeMaybeReadDictEntry fuel k (get m) rd key b in Ok (ok, (set x m, rd), b).
Definition maybe_int (w : Z) (k : list Z) (get : M -> Z) (set : Z -> M -> M) : step := fun '(m, rd) key b =>
  let* (ok, (x, rd), b) := BEncodeMaybeReadDictInt w k (get m) rd key b in Ok (ok, (set x m, rd), b).
Definition maybe_version (k : list Z) (expect : Z) (get : M -> Z) (set : Z -> M -> M) : step := fun '(m, rd) key b =>
  let* (ok, (x, rd), b) := BEncodeMaybeVerifyVersion k (get m) expect rd key b in Ok (ok, (set x m, rd), b).
Definition maybe_list {A} {EA : BEncodable A} (fuel : nat) (k : list Z) (dflt : A) (get : M -> list A)
  (set : list A -> M -> M) : step := fun '(m, rd) key b =>
  let* (ok, (x, rd), b) := BEncodeMaybeReadDictList fuel k dflt (get m) rd key b in Ok (ok, (set x m, rd), b).
(** A member that is a dictionary itself: the entries go into the object that is there. *)
Definition maybe_dict {A} (fuel : nat) (k : list Z) (dk : decode_key A) (get : M -> A) (set : A -> M -> M) : step := fun '(m, rd) key b =>
  if startswith k key then
    let* (ok, x, b) := bencode_decode_dict fuel dk (get m) b in
    Ok (ok, (set x m, if ok : bool then true else rd), b)
  else Ok (true, (m, rd), b).

(** Members that read a value and return. *)
Definition read_integer_into (set : Z -> M -> M) : decode_key M := fun m _ b =>
  let* (i, b) := bencode_read_integer b in
  match i with Some i => Ok (true, set i m, b) | None => Ok (false, m, b) end.
Definition read_entry_into {A} {EA : BEncodable A} (fuel : nat) (set : A -> M -> M) : decode_key M := fun m _ b =>
  let* (x, b) := BDecode fuel b in
  match x with Some x => Ok (true, set x m, b) | None => Ok (false, m, b) end.
Definition read_list_into {A} {EA : BEncodable A} (fuel : nat) (dflt : A) (get : M -> list A)
  (set : list A -> M -> M) : decode_key M := fun m _ b =>
  let* (ok, l, b) := BEncodeReadList fuel dflt (get m) b in Ok (ok, set l m, b).
End steps.

Notation "f ⨾ g" := (both f g) (at level 60, right associativity) : llarp_scope.

(** ** The text of a dictionary *)
Definition entries (l : list (list Z * list Z)) : list Z := concat ((fun e => enc_str e.1 ++ e.2) <$> l).
Definition dict (l : list (list Z * list Z)) : list Z := chr_d :: entries l ++ [chr_e].

(** [f] writes the entries [l] and the end of the dictionary. *)
Definition writes_dict_end (f : writer) (l : list (list Z * list Z)) : Prop := writes f (entries l ++ [chr_e]).

Lemma writes_dict f l : writes_dict_end f l -> writes (bencode_start_dict ⩓ f) (dict l).
Proof. intros Hf. apply (writes_andthen _ _ [chr_d]); [apply writes_write|done]. Qed.

Lemma writes_dict_nil : writes_dict_end bencode_end [].
Proof. apply writes_write. Qed.

Lemma writes_dict_cons f g k v l :
  writes f (enc_str k ++ v) -> writes_dict_end g l -> writes_dict_end (f ⩓ g) ((k, v) :: l).
Proof.
  intros Hf Hg. unfold writes_dict_end, entries. cbn [fmap list_fmap concat fst snd]. rewrite <- (app_assoc (_ ++ v)).
  by apply writes_andthen.
Qed.

Lemma writes_dict_if (c : bool) f g k v l :
  (c = true -> writes f (enc_str k ++ v)) -> writes_dict_end g l ->
  writes_dict_end (write_if c f ⩓ g) ((if c then [(k, v)] else []) ++ l).
Proof.
  intros Hf Hg. destruct c; [by apply writes_dict_cons; auto|]. apply (writes_andthen _ _ []); [apply writes_nop|done].
Qed.

Lemma writes_dict_nop g l : writes_dict_end g l -> writes_dict_end ((fun b => Ok (true, b)) ⩓ g) l.
Proof. intros Hg. apply (writes_andthen _ _ []); [apply writes_nop|done]. Qed.
Lemma writes_dict_assoc f g h l : writes_dict_end (f ⩓ g ⩓ h) l -> writes_dict_end ((f ⩓ g) ⩓ h) l.
Proof.
  intros Hw pre old c rest Hl. destruct (Hw pre old c rest Hl) as [c' E]. exists c'. rewrite <- E. unfold andthen.
  by destruct (f _) as [[[] b]| | |].
Qed.
(** [if (x) { .. *x .. }] for an optional member. *)
Definition write_opt {A} (o : option A) (f : A -> writer) : writer := match o with Some x => f x | None => fun b => Ok (true, b) end.
Lemma writes_dict_opt {A} (o : option A) (f : A -> writer) g k (v : A -> list Z) l :
  (forall x, o = Some x -> writes (f x) (enc_str k ++ v x)) -> writes_dict_end g l ->
  writes_dict_end (write_opt o f ⩓ g) (match o with Some x => [(k, v x)] | None => [] end ++ l).
Proof. intros Hf Hg. destruct o as [x|]; cbn [write_opt app]; [apply writes_dict_cons; auto|by apply writes_dict_nop]. Qed.

(** ** Reading a dictionary entry by entry *)
Section decode.
Context {M : Type}.
Implicit Types (dk : decode_key M) (m : M) (l : list (list Z * list Z)).

Definition decodes dk (k v : list Z) m m' : Prop :=
  str_ok k /\ forall pre rest, dk m (Buffer k 0) (pre ‖ v ++ rest) = Ok (true, m', (pre ++ v) ‖ rest).

Fixpoint decodes_all dk l m m' : Prop :=
  match l with
  | [] => m' = m
  | (k, v) :: l => exists m1, decodes dk k v m m1 /\ decodes_all dk l m1 m'
  end.

Lemma decodes_all_app dk l1 l2 m m' :
  decodes_all dk (l1 ++ l2) m m' <-> exists m1, decodes_all dk l1 m m1 /\ decodes_all dk l2 m1 m'.
Proof.
  revert m. induction l1 as [|[k v] l1 IH]; intros m; cbn [app decodes_all]; [naive_solver|].
  setoid_rewrite IH. naive_solver.
Qed.

Lemma decodes_all_if dk (c : bool) k v l m m1 m' :
  (c = true -> decodes dk k v m m1) -> (c = false -> m1 = m) -> decodes_all dk l m1 m' -> decodes_all dk ((if c then [(k, v)] else []) ++ l) m m'.
Proof. intros Ht Hf Hl. destruct c; cbn [app]; [exists m1; auto|]. by rewrite <- Hf. Qed.
Lemma decodes_all_opt {A} dk (o : option A) k (v : A -> list Z) l m m1 m' :
  (forall x, o = Some x -> decodes dk k (v x) m m1) -> (o = None -> m1 = m) -> decodes_all dk l m1 m' ->
  decodes_all dk (match o with Some x => [(k, v x)] | None => [] end ++ l) m m'.
Proof. intros Ht Hf Hl. destruct o; cbn [app]; [exists m1; auto|]. by rewrite <- Hf. Qed.
Lemma read_dict_loop_end fuel sink m pre rest :
  read_dict_loop (St := M) fuel sink m (pre ‖ chr_e :: rest) = Ok (true, m, pre ‖ chr_e :: rest).
Proof.
  destruct fuel; cbn [read_dict_loop]; rewrite size_left_at, deref_cons; cbn [length Nat.eqb rbind]; by rewrite Z.eqb_refl.
Qed.

(** The entries of a dictionary, one call of the sink each. *)
Lemma read_dict_loop_entries sink l fuel m m' pre rest :
  decodes_all (fun st k b => sink st (Some k) b) l m m' -> (length (entries l) <= fuel)%nat ->
  read_dict_loop fuel sink m (pre ‖ entries l ++ chr_e :: rest)
  = Ok (true, m', (pre ++ entries l) ‖ chr_e :: rest).
Proof.
  revert fuel m pre. induction l as [|[k v] l IH]; intros fuel m pre; cbn [decodes_all].
  - intros -> _. cbn [entries concat fmap list_fmap app]. rewrite app_nil_r. apply read_dict_loop_end.
  - intros (m1 & [Hk Hd] & Hl) Hf. unfold entries in *. cbn [fmap list_fmap concat fst snd] in *. rewrite <- !(app_assoc (enc_str k)) in Hf. rewrite <- !app_assoc.
    destruct (enc_str_head k) as (c & k' & Hc & Hdig). destruct fuel as [|fuel]; [rewrite Hc in Hf; cbn in Hf; lia|].
    cbn [read_dict_loop]. rewrite size_left_at, Hc. cbn [app length Nat.eqb]. rewrite deref_cons, rbind_ok, (digit_not c chr_e) by done.
    change (c :: k' ++ ?r) with ((c :: k') ++ r). rewrite <- Hc, (read_string_reads k Hk). cbn [rbind].
    rewrite Hd. cbn [rbind]. rewrite IH; [|done|rewrite Hc, !length_app in Hf; cbn in Hf; lia].
    by rewrite <- !app_assoc.
Qed.

(** A whole dictionary: one call per entry, and the call at the end. *)
Lemma read_dict_reads sink l fuel m m' pre rest :
  decodes_all (fun st k b => sink st (Some k) b) l m m' -> (length (dict l) <= fuel)%nat ->
  bencode_read_dict fuel sink m (pre ‖ dict l ++ rest) = sink m' None ((pre ++ dict l) ‖ rest).
Proof.
  intros Hd Hf. unfold bencode_read_dict, dict in *. cbn [app length] in *. rewrite length_app in Hf.
  rewrite snoc_app, size_left_at, deref_cons, rbind_ok, Z.eqb_refl. cbn [length negb].
  destruct (Nat.ltb_spec (S (length (entries l ++ chr_e :: rest))) 2) as [Hlt|_].
  { rewrite length_app in Hlt. cbn in Hlt. lia. }
  rewrite advance_cons, (read_dict_loop_entries _ _ _ _ m') by (done || lia). cbn [rbind negb].
  rewrite deref_cons, rbind_ok, Z.eqb_refl. cbn [negb]. rewrite advance_cons. by rewrite <- !(app_assoc pre).
Qed.
(** The entries before the one that the sink refuses. *)
Lemma read_dict_loop_run sink l fuel m m' pre rest :
  decodes_all (fun st k b => sink st (Some k) b) l m m' ->
  read_dict_loop (length l + fuel) sink m (pre ‖ entries l ++ rest) = read_dict_loop fuel sink m' ((pre ++ entries l) ‖ rest).
Proof.
  revert m pre. induction l as [|[k v] l IH]; intros m pre; cbn [decodes_all].
  - intros ->. cbn [entries concat fmap list_fmap app length Nat.add]. by rewrite app_nil_r.
  - intros (m1 & [Hk Hd] & Hl). unfold entries in *. cbn [fmap list_fmap concat fst snd length Nat.add]. rewrite <- !app_assoc.
    destruct (enc_str_head k) as (c & k' & Hc & Hdig). cbn [read_dict_loop]. rewrite size_left_at, Hc. cbn [app length Nat.eqb].
    rewrite deref_cons, rbind_ok, (digit_not c chr_e) by done.
    change (c :: k' ++ ?r) with ((c :: k') ++ r). rewrite <- Hc, (read_string_reads k Hk). cbn [rbind].
    rewrite Hd. cbn [rbind]. rewrite IH by done. by rewrite <- !app_assoc.
Qed.
Lemma length_entries l : (length l <= length (entries l))%nat.
Proof.
  induction l as [|[k v] l IH]; [done|]. unfold entries in *. cbn [fmap list_fmap concat length fst snd]. rewrite !length_app.
  destruct (enc_str_head k) as (c & k' & -> & _). cbn. lia.
Qed.
Lemma read_dict_stops sink l k fuel m m1 m2 pre rest :
  decodes_all (fun st k b => sink st (Some k) b) l m m1 -> str_ok k -> (length (entries l) < fuel)%nat ->
  (forall pre, exists b, sink m1 (Some (Buffer k 0)) (pre ‖ rest) = Ok (false, m2, b)) ->
  exists b', bencode_read_dict fuel sink m (pre ‖ chr_d :: entries l ++ enc_str k ++ rest) = Ok (false, m2, b').
Proof.
  intros Hd Hk Hf Hs. unfold bencode_read_dict. destruct (enc_str_head k) as (c & k' & Hc & Hdig).
  rewrite size_left_at, deref_cons, rbind_ok, Z.eqb_refl. cbn [negb].
  destruct (Nat.ltb_spec (length (chr_d :: entries l ++ enc_str k ++ rest)) 2) as [Hlt|_].
  { rewrite Hc in Hlt. cbn [length] in Hlt. rewrite !length_app in Hlt. cbn in Hlt. lia. }
  pose proof (length_entries l). replace fuel with (length l + S (fuel - length l - 1))%nat by lia.
  rewrite advance_cons, (read_dict_loop_run _ _ _ _ m1) by done. cbn [read_dict_loop].
  rewrite size_left_at, Hc. cbn [app length Nat.eqb]. rewrite deref_cons, rbind_ok, (digit_not c chr_e) by done.
  change (c :: k' ++ ?r) with ((c :: k') ++ r). rewrite <- Hc, (read_string_reads k Hk). cbn [rbind].
  destruct (Hs (((pre ++ [chr_d]) ++ entries l) ++ enc_str k)) as [b ->]. cbn [rbind negb]. by eexists.
Qed.
(** The round trip of a whole dictionary follows from one step per entry. *)
Lemma decode_dict_reads dk l fuel m m' pre rest :
  decodes_all dk l m m' -> (length (dict l) <= fuel)%nat ->
  bencode_decode_dict fuel dk m (pre ‖ dict l ++ rest) = Ok (true, m', (pre ++ dict l) ‖ rest).
Proof. intros Hd Hf. unfold bencode_decode_dict. by rewrite (read_dict_reads _ l fuel m m'). Qed.
End decode.

(** ** One step *)

(** Matching of one-letter keys. *)
Lemma startswith_letter k c : startswith [k] (Buffer [c] 0) = (c =? k).
Proof.
  unfold startswith, view_remaining, size_left, sz. cbn.
  destruct (Z.eqb_spec c k) as [->|Hn]; [by apply bool_decide_eq_true_2|].
  apply bool_decide_eq_false_2. congruence.
Qed.

Lemma str_ok_letter c : str_ok [c].
Proof. done. Qed.

Section step_lemmas.
Context {M : Type}.
Abbreviation step := (M * bool -> llarp_buffer_t -> llarp_buffer_t -> res (bool * (M * bool) * llarp_buffer_t)) (only parsing).
Implicit Types (m : M) (c k : Z).

(** A step that sees another key, and the step of the key. *)
Definition skips (f : step) (c : Z) : Prop := forall st b, f st (Buffer [c] 0) b = Ok (true, st, b).
Definition takes (f : step) (c : Z) (v : list Z) (m m' : M) : Prop :=
  forall rd pre rest, f (m, rd) (Buffer [c] 0) (pre ‖ v ++ rest) = Ok (true, (m', true), (pre ++ v) ‖ rest).

Lemma both_skips f g c : skips f c -> skips g c -> skips (f ⨾ g) c.
Proof. intros Hf Hg st b. unfold both. rewrite Hf. cbn [rbind]. apply Hg. Qed.
Lemma both_takes_l f g c v m m' : takes f c v m m' -> skips g c -> takes (f ⨾ g) c v m m'.
Proof. intros Hf Hg rd pre rest. unfold both. rewrite Hf. cbn [rbind]. apply Hg. Qed.
Lemma both_takes_r f g c v m m' : skips f c -> takes g c v m m' -> takes (f ⨾ g) c v m m'.
Proof. intros Hf Hg rd pre rest. unfold both. rewrite Hf. cbn [rbind]. apply Hg. Qed.

Lemma maybe_entry_skips {A} {EA : BEncodable A} fuel k (get : M -> A) set c :
  (forall m, set (get m) m = m) -> (c =? k) = false -> skips (maybe_entry fuel [k] get set) c.
Proof. intros Hs Hc [m rd] b. unfold maybe_entry, BEncodeMaybeReadDictEntry. rewrite startswith_letter, Hc. cbn [rbind]. by rewrite Hs. Qed.
Lemma maybe_int_skips w k (get : M -> Z) set c :
  (forall m, set (get m) m = m) -> (c =? k) = false -> skips (maybe_int w [k] get set) c.
Proof. intros Hs Hc [m rd] b. unfold maybe_int, BEncodeMaybeReadDictInt. rewrite startswith_letter, Hc. cbn [rbind]. by rewrite Hs. Qed.
Lemma maybe_version_skips k e (get : M -> Z) set c :
  (forall m, set (get m) m = m) -> (c =? k) = false -> skips (maybe_version [k] e get set) c.
Proof. intros Hs Hc [m rd] b. unfold maybe_version, BEncodeMaybeVerifyVersion. rewrite startswith_letter, Hc. cbn [rbind]. by rewrite Hs. Qed.
Lemma maybe_list_skips {A} {EA : BEncodable A} fuel k (d : A) (get : M -> list A) set c :
  (forall m, set (get m) m = m) -> (c =? k) = false -> skips (maybe_list fuel [k] d get set) c.
Proof. intros Hs Hc [m rd] b. unfold maybe_list, BEncodeMaybeReadDictList. rewrite startswith_letter, Hc. cbn [rbind]. by rewrite Hs. Qed.
Lemma maybe_dict_skips {A} fuel k (dk : decode_key A) (get : M -> A) set c : (c =? k) = false -> skips (maybe_dict fuel [k] dk get set) c.
Proof. intros Hc [m rd] b. unfold maybe_dict. by rewrite startswith_letter, Hc. Qed.
Lemma maybe_dict_takes {A} fuel k (dk : decode_key A) (get : M -> A) set l x m :
  decodes_all dk l (get m) x -> (length (dict l) <= fuel)%nat -> takes (maybe_dict fuel [k] dk get set) k (dict l) m (set x m).
Proof. intros Hd Hf rd pre rest. unfold maybe_dict. rewrite startswith_letter, Z.eqb_refl. by rewrite (decode_dict_reads dk l fuel _ x). Qed.

Lemma maybe_entry_takes {A} {EA : BEncodable A} {benc ok} {ES : BEncodableSpec A benc ok} fuel k (get : M -> A) set x m :
  ok x -> (length (benc x) <= fuel)%nat -> takes (maybe_entry fuel [k] get set) k (benc x) m (set x m).
Proof.
  intros Hx Hf rd pre rest. unfold maybe_entry, BEncodeMaybeReadDictEntry. rewrite startswith_letter, Z.eqb_refl.
  by rewrite (BDecode_reads fuel x Hx Hf).
Qed.
Lemma maybe_int_takes w k (get : M -> Z) set i m :
  in_width 64 i -> takes (maybe_int w [k] get set) k (enc_int i) m (set (wrap w i) m).
Proof.
  intros Hi rd pre rest. unfold maybe_int, BEncodeMaybeReadDictInt. rewrite startswith_letter, Z.eqb_refl.
  by rewrite (read_integer_reads i Hi).
Qed.
Lemma maybe_version_takes k e (get : M -> Z) set m :
  in_width 64 e -> takes (maybe_version [k] e get set) k (enc_int e) m (set e m).
Proof.
  intros Hi rd pre rest. unfold maybe_version, BEncodeMaybeVerifyVersion. rewrite startswith_letter, Z.eqb_refl.
  rewrite (read_integer_reads e Hi). cbn [rbind]. by rewrite Z.eqb_refl.
Qed.
Lemma maybe_list_takes {A} {EA : BEncodable A} {benc ok} {ES : BEncodableSpec A benc ok} fuel k d (get : M -> list A) set l m :
  Forall ok l -> (length (enc_list (benc <$> l)) <= fuel)%nat ->
  takes (maybe_list fuel [k] d get set) k (enc_list (benc <$> l)) m (set (get m ++ l) m).
Proof.
  intros Hx Hf rd pre rest. unfold maybe_list, BEncodeMaybeReadDictList. rewrite startswith_letter, Z.eqb_refl.
  by rewrite read_list_roundtrip.
Qed.

Lemma return_read_decodes f c v m m' : takes f c v m m' -> decodes (return_read f) [c] v m m'.
Proof. intros Hf. split; [done|]. intros pre rest. unfold return_read. by rewrite Hf. Qed.
Lemma read_or_discard_decodes fuel f c v m m' : takes f c v m m' -> decodes (read_or_discard fuel f) [c] v m m'.
Proof. intros Hf. split; [done|]. intros pre rest. unfold read_or_discard. by rewrite Hf. Qed.
Lemma on_key_decodes_l k c (f g : decode_key M) v m m' : (c =? k) = true -> decodes f [c] v m m' -> decodes (on_key [k] f g) [c] v m m'.
Proof. intros Hc [? Hf]. split; [done|]. intros pre rest. unfold on_key. by rewrite startswith_letter, Hc. Qed.
Lemma on_key_decodes_r k c (f g : decode_key M) v m m' : (c =? k) = false -> decodes g [c] v m m' -> decodes (on_key [k] f g) [c] v m m'.
Proof. intros Hc [? Hf]. split; [done|]. intros pre rest. unfold on_key. by rewrite startswith_letter, Hc. Qed.

Lemma read_integer_into_decodes set c i m : in_width 64 i -> decodes (read_integer_into set) [c] (enc_int i) m (set i m).
Proof. intros Hi. split; [done|]. intros pre rest. unfold read_integer_into. by rewrite (read_integer_reads i Hi). Qed.
Lemma read_entry_into_decodes {A} {EA : BEncodable A} {benc ok} {ES : BEncodableSpec A benc ok} fuel set c x m :
  ok x -> (length (benc x) <= fuel)%nat -> decodes (read_entry_into fuel set) [c] (benc x) m (set x m).
Proof. intros Hx Hf. split; [done|]. intros pre rest. unfold read_entry_into. by rewrite (BDecode_reads fuel x Hx Hf). Qed.
Lemma read_list_into_decodes {A} {EA : BEncodable A} {benc ok} {ES : BEncodableSpec A benc ok} fuel d get set c l m :
  Forall ok l -> (length (enc_list (benc <$> l)) <= fuel)%nat ->
  decodes (read_list_into fuel d get set) [c] (enc_list (benc <$> l)) m (set (get m ++ l) m).
Proof. intros Hx Hf. split; [done|]. intros pre rest. unfold read_list_into. by rewrite read_list_roundtrip. Qed.
End step_lemmas.

(** ** Times

    [llarp_time_t] counts milliseconds in a signed 64-bit integer; it is written and read
    through an unsigned one. *)
Definition time_ok (t : Z) : Prop := 0 <= t < 2 ^ 63.
Definition BEncodeWriteDictTime (k : list Z) (t : Z) : writer := BEncodeWriteDictInt k (wrap 64 t).
Definition maybe_time {M} (k : list Z) (set : Z -> M -> M) :
  M * bool -> llarp_buffer_t -> llarp_buffer_t -> res (bool * (M * bool) * llarp_buffer_t) :=
  fun '(m, rd) key b =>
  if startswith k key then
    let* (i, b) := bencode_read_integer b in
    match i with Some i => Ok (true, (set (to_signed 64 i) m, true), b) | None => Ok (false, (m, rd), b) end
  else Ok (true, (m, rd), b).

Lemma time_width t : time_ok t -> in_width 64 t.
Proof. unfold time_ok, in_width. lia. Qed.
Lemma to_signed_time t : time_ok t -> to_signed 64 t = t.
Proof. intros Ht. pose proof (time_width t Ht). unfold to_signed. rewrite wrap_id by done. unfold time_ok in Ht. case_match; lia. Qed.

Lemma maybe_time_skips {M} k (set : Z -> M -> M) c : (c =? k) = false -> skips (maybe_time [k] set) c.
Proof. intros Hc [m rd] b. unfold maybe_time. by rewrite startswith_letter, Hc. Qed.
Lemma maybe_time_takes {M} k (set : Z -> M -> M) t m : time_ok t -> takes (maybe_time [k] set) k (enc_int t) m (set t m).
Proof.
  intros Ht rd pre rest. unfold maybe_time. rewrite startswith_letter, Z.eqb_refl, (read_integer_reads t (time_width t Ht)).
  cbn [rbind]. by rewrite to_signed_time.
Qed.
Lemma maybe_int_takes_id {M} w k (get : M -> Z) set i m :
  in_width 64 i -> in_width w i -> takes (maybe_int w [k] get set) k (enc_int i) m (set i m).
Proof. intros H1 H2. rewrite <- (wrap_id w i H2) at 2. by apply maybe_int_takes. Qed.

(** ** Writing an entry *)
Lemma writes_entry_int k i : writes (BEncodeWriteDictInt [k] i) (enc_str [k] ++ enc_int i).
Proof. apply writes_andthen; [apply writes_bytestring|apply writes_uint64]. Qed.
Lemma writes_entry_time k t : time_ok t -> writes (BEncodeWriteDictTime [k] t) (enc_str [k] ++ enc_int t).
Proof. intros Ht. unfold BEncodeWriteDictTime. rewrite wrap_id by (by apply time_width). apply writes_entry_int. Qed.
Lemma writes_entry_u64 k i : writes (bencode_write_uint64_entry [k] i) (enc_str [k] ++ enc_int i).
Proof. apply writes_andthen; [apply writes_bytestring|apply writes_uint64]. Qed.
Lemma writes_entry_type k t : writes (BEncodeWriteDictMsgType [k] [t]) (enc_str [k] ++ enc_str [t]).
Proof. apply writes_andthen; apply writes_bytestring. Qed.
Lemma writes_entry_raw k s : writes (bencode_write_bytestring [k] ⩓ bencode_write_bytestring s) (enc_str [k] ++ enc_str s).
Proof. apply writes_andthen; apply writes_bytestring. Qed.
Section writes_objects.
Context {A : Type} {EA : BEncodable A} {benc : A -> list Z} {ok : A -> Prop} {ES : BEncodableSpec A benc ok}.
Lemma writes_entry k x : ok x -> writes (BEncodeWriteDictEntry [k] x) (enc_str [k] ++ benc x).
Proof. intros Hx. apply writes_andthen; [apply writes_bytestring|by apply BEncode_writes]. Qed.
Lemma writes_entry_list k l : Forall ok l -> writes (BEncodeWriteDictList [k] l) (enc_str [k] ++ enc_list (benc <$> l)).
Proof. intros Hx. apply writes_andthen; [apply writes_bytestring|by apply writes_list]. Qed.
Lemma writes_entry_array k l : Forall ok l -> writes (BEncodeWriteDictArray [k] l) (enc_str [k] ++ enc_list (benc <$> l)).
Proof. intros Hx. apply writes_andthen; [apply writes_bytestring|by apply writes_list]. Qed.
Lemma writes_entry_blist k l : Forall ok l -> writes (BEncodeWriteDictBEncodeList [k] l) (enc_str [k] ++ enc_list (benc <$> l)).
Proof. intros Hx. apply writes_andthen; [apply writes_bytestring|by apply writes_list]. Qed.
End writes_objects.

(** ** Objects that are dictionaries *)
Section dict_objects.
Context {M : Type} (enc : M -> writer) (dk : nat -> decode_key M) (empty : M).

Definition dict_decode (fuel : nat) (b : llarp_buffer_t) : res (option M * llarp_buffer_t) :=
  let* (ok, m, b) := bencode_decode_dict fuel (dk fuel) empty b in Ok (if ok : bool then Some m else None, b).
Definition dict_bencodable : BEncodable M := {| BEncode := enc; BDecode := dict_decode |}.

Context (text : M -> list (list Z * list Z)) (ok : M -> Prop).
Context (Hw : forall m, ok m -> writes (enc m) (dict (text m))).
Context (Hr : forall fuel m, ok m -> (length (dict (text m)) <= fuel)%nat -> decodes_all (dk fuel) (text m) empty m).

Lemma dict_bencodable_spec : @BEncodableSpec M dict_bencodable (fun m => dict (text m)) ok.
Proof using Hw Hr.
  split.
  - intros m _. by eexists _, _.
  - done.
  - intros fuel m Hm Hf pre rest. change (BDecode fuel) with (dict_decode fuel). unfold dict_decode. by rewrite (decode_dict_reads _ _ _ _ m) by auto.
Qed.
End dict_objects.

(** The texts of the entries are shorter than the dictionary. *)
Lemma entry_length k v l fuel : (length (dict l) <= fuel)%nat -> (k, v) ∈ l -> (length v <= fuel)%nat.
Proof.
  intros Hf He. transitivity (length (entries l)); [|unfold dict in Hf; cbn [length] in Hf; rewrite length_app in Hf; lia].
  clear Hf. unfold entries. induction l as [|e l IH]; [by apply elem_of_nil in He|]. cbn [fmap list_fmap concat].
  rewrite !length_app. apply elem_of_cons in He as [<- | He]; [cbn [fst snd]; lia|]. specialize (IH He). lia.
Qed.

(** ** Automation *)
(** Membership of an entry in the entries of a dictionary. *)
Ltac in_entries :=
  first [ apply elem_of_cons; left; reflexivity | apply elem_of_cons; right; in_entries
        | apply elem_of_app; left; in_entries | apply elem_of_app; right; in_entries ].
(** Writing back what was read changes nothing. *)
Ltac solve_set_get :=
  intros []; first [ done | repeat match goal with f : bool |- _ => destruct f end; done ].
Ltac solve_skips :=
  repeat first [ apply both_skips ];
  first [ apply maybe_time_skips; reflexivity
        | apply maybe_int_skips; [solve_set_get|reflexivity]
        | apply maybe_version_skips; [solve_set_get|reflexivity]
        | apply maybe_entry_skips; [solve_set_get|reflexivity]
        | apply maybe_dict_skips; reflexivity
        | apply maybe_list_skips; [solve_set_get|reflexivity] ].
Ltac solve_takes :=
  first [ apply both_takes_l; [solve_takes|solve_skips] | apply both_takes_r; [solve_skips|solve_takes]
        | apply maybe_time_takes | apply maybe_int_takes_id | apply maybe_version_takes
        | apply maybe_entry_takes | apply maybe_list_takes | apply maybe_dict_takes ].
Ltac solve_decodes :=
  repeat first [ apply on_key_decodes_l; [reflexivity|] | apply on_key_decodes_r; [reflexivity|] ];
  first [ apply return_read_decodes; solve_takes | apply read_or_discard_decodes; solve_takes
        | apply read_integer_into_decodes | apply read_entry_into_decodes | apply read_list_into_decodes ].
(** One entry of a writer of dictionaries; the conditions of the values are left. *)
Ltac writes_step :=
  lazymatch goal with
  | |- writes_dict_end bencode_end _ => apply writes_dict_nil
  | |- writes_dict_end (andthen (write_opt _ _) _) _ => apply writes_dict_opt; [intros ? ?; writes_value|]
  | |- writes_dict_end (andthen (write_if _ _) _) _ => apply writes_dict_if; [intros ?; writes_value|]
  | |- writes_dict_end (andthen (andthen (bencode_write_bytestring _) _) _) _ => apply writes_dict_cons; [writes_value|]
  | |- writes_dict_end (andthen (andthen _ _) _) _ => apply writes_dict_assoc
  | |- writes_dict_end (andthen _ _) _ => apply writes_dict_cons; [writes_value|]
  end
with writes_value :=
  lazymatch goal with
  | |- writes (BEncodeWriteDictInt _ _) _ => apply writes_entry_int
  | |- writes (BEncodeWriteDictTime _ _) _ => apply writes_entry_time
  | |- writes (BEncodeWriteDictMsgType _ _) _ => apply writes_entry_type
  | |- writes (BEncodeWriteDictEntry _ _) _ => apply writes_entry
  | |- writes (BEncodeWriteDictList _ _) _ => apply writes_entry_list
  | |- writes (BEncodeWriteDictArray _ _) _ => apply writes_entry_array
  | |- writes (BEncodeWriteDictBEncodeList _ _) _ => apply writes_entry_blist
  | |- writes (bencode_write_uint64_entry _ _) _ => apply writes_entry_u64
  | |- writes (andthen (bencode_write_bytestring _) (bencode_write_uint64 _)) _ => apply writes_entry_u64
  | |- writes (andthen (bencode_write_bytestring _) (bencode_write_bytestring _)) _ => apply writes_entry_raw
  end.
Ltac writes_entries := apply writes_dict; repeat writes_step.

Lemma in_width_flag (f : bool) : in_width 64 (if f then 1 else 0).
Proof. by destruct f. Qed.
(** Entry by entry, with the side conditions of the members; [Hlen] bounds the values. *)
Ltac codec_side Hlen :=
  first [ done | eassumption | apply in_width_flag | by apply time_width | eapply Hlen; in_entries | apply key_ok_intro; [lia|eassumption] | lia ].
Ltac decode_entry Hlen := eexists; split; [solve_decodes; codec_side Hlen|].

(** ** Writers that stay in their buffers *)
Lemma safe_if c f : (c = true -> safe_writer f) -> safe_writer (write_if c f).
Proof. destruct c; cbn; [auto|]. intros _. apply safe_nop. Qed.
Lemma safe_opt {A} (o : option A) (f : A -> writer) : (forall x, o = Some x -> safe_writer (f x)) -> safe_writer (write_opt o f).
Proof. destruct o; cbn; [auto|]. intros _. apply safe_nop. Qed.
Lemma safe_items {A} {EA : BEncodable A} (l : list A) : (forall x, x ∈ l -> safe_writer (BEncode x)) -> safe_writer (write_items l).
Proof.
  induction l as [|x l IH]; intros Hl; cbn [write_items]; [apply safe_nop|].
  apply safe_andthen; [apply Hl, list_elem_of_here|]. apply IH. intros y Hy. by apply Hl, list_elem_of_further.
Qed.
Lemma safe_false : safe_writer (fun b => Ok (false, b)).
Proof. intros b Hb. by eauto. Qed.
Lemma encode_into_total n w : safe_writer w -> exists r, encode_into n w = Ok r.
Proof. intros Hw. unfold encode_into. destruct (Hw (Buffer (replicate n 0) 0)) as (ok & b & -> & _); [unfold buf_wf; cbn; lia|]. by eexists. Qed.

Ltac safe_step :=
  lazymatch goal with
  | |- safe_writer (andthen _ _) => apply safe_andthen
  | |- safe_writer (bencode_write_bytestring _) => apply safe_bytestring
  | |- safe_writer (bencode_write_uint64 _) => apply safe_uint64
  | |- safe_writer (bencode_write_uint64_entry _ _) => unfold bencode_write_uint64_entry
  | |- safe_writer bencode_start_dict => apply safe_write
  | |- safe_writer bencode_start_list => apply safe_write
  | |- safe_writer bencode_end => apply safe_write
  | |- safe_writer (write _) => apply safe_write
  | |- safe_writer (write_if _ _) => apply safe_if; intros _
  | |- safe_writer (write_opt _ _) => apply safe_opt; intros ? _
  | |- safe_writer (write_items _) => apply safe_items; intros ? _
  | |- safe_writer (BEncodeWriteList _) => unfold BEncodeWriteList
  | |- safe_writer (BEncodeWriteDictList _ _) => unfold BEncodeWriteDictList
  | |- safe_writer (BEncodeWriteDictBEncodeList _ _) => unfold BEncodeWriteDictBEncodeList
  | |- safe_writer (BEncodeWriteDictArray _ _) => unfold BEncodeWriteDictArray
  | |- safe_writer (BEncodeWriteDictEntry _ _) => unfold BEncodeWriteDictEntry
  | |- safe_writer (BEncodeWriteDictInt _ _) => unfold BEncodeWriteDictInt
  | |- safe_writer (BEncodeWriteDictTime _ _) => unfold BEncodeWriteDictTime
  | |- safe_writer (BEncodeWriteDictString _ _) => unfold BEncodeWriteDictString
  | |- safe_writer (BEncodeWriteDictMsgType _ _) => unfold BEncodeWriteDictMsgType
  | |- safe_writer (fun b => Ok (true, b)) => apply safe_nop
  | |- safe_writer (fun b => Ok (false, b)) => apply safe_false
  | |- safe_writer (@Bencode.BEncode _ (array_bencodable _) _) => apply safe_bytestring
  | |- safe_writer (@Bencode.BEncode _ key32 _) => apply safe_bytestring
  | |- safe_writer (@Bencode.BEncode _ key16 _) => apply safe_bytestring
  | |- safe_writer (@Bencode.BEncode _ sig64 _) => apply safe_bytestring
  | |- safe_writer (@Bencode.BEncode _ uint64_bencodable _) => apply safe_uint64
  end.
(** Leaves the entries whose writers are not of the library. *)
Ltac solve_safe := repeat safe_step.

(** ** Sizes of texts *)
Lemma length_enc_str_le s : str_ok s -> (length (enc_str s) <= length s + 10)%nat.
Proof. intros Hs. pose proof (length_print_len s Hs). unfold enc_str. rewrite length_app. cbn [length]. lia. Qed.
Lemma length_enc_int_le i : in_width 64 i -> (length (enc_int i) <= 22)%nat.
Proof. intros Hi. pose proof (length_print_u64 i Hi). unfold enc_int. cbn [length]. rewrite length_app. cbn [length]. lia. Qed.
Lemma length_dict l : length (dict l) = (2 + length (entries l))%nat.
Proof. unfold dict. cbn [length]. rewrite length_app. cbn [length]. lia. Qed.
Lemma entries_cons_le k v l a n : (length v <= a)%nat -> (length (entries l) <= n)%nat -> (length (entries (([k], v) :: l)) <= 3 + a + n)%nat.
Proof. intros Hv Hl. unfold entries in *. cbn [fmap list_fmap concat fst snd]. rewrite !length_app. change (length (enc_str [k])) with 3%nat. lia. Qed.
Lemma entries_if_le (c : bool) k v l a n : (length v <= a)%nat -> (length (entries l) <= n)%nat -> (length (entries ((if c then [([k], v)] else []) ++ l)) <= 3 + a + n)%nat.
Proof. intros Hv Hl. destruct c; cbn [app]; [by apply entries_cons_le|lia]. Qed.
Lemma entries_nil_le : (length (entries []) <= 0)%nat.
Proof. done. Qed.
(** Bounds entry by entry, from the bounds of the values. *)
Ltac entries_le := repeat first [ eapply entries_if_le | eapply entries_cons_le | apply entries_nil_le ].

(** ** Looking for the version

    The dictionary is read twice: once for its version alone. *)
Lemma bencoded_items_concat l : Forall bencoded l -> bencoded (enc_list l).
Proof. intros Hl. apply bencoded_list. induction Hl; cbn [concat]; [constructor|by constructor]. Qed.
Lemma bencoded_entries l : Forall (fun e => str_ok e.1 /\ bencoded e.2) l -> bencoded (dict l).
Proof.
  intros Hl. apply bencoded_dict. induction Hl as [|[k v] l [Hk Hv] Hl IH]; [constructor|]. unfold entries. cbn [fmap list_fmap concat fst snd]. rewrite <- app_assoc. by constructor.
Qed.
Definition seekable (k v : Z) (l : list (list Z * list Z)) : Prop :=
  Forall (fun e => exists c, e.1 = [c] /\ bencoded e.2 /\ (c = k -> e.2 = enc_int v)) l.
Lemma seek_reads fuel k v l rest : in_width 64 v -> seekable k v l -> (length (dict l) <= fuel)%nat ->
  BEncodeSeekDictVersion fuel v k (Buffer (dict l ++ rest) 0) = Ok (true, v, Buffer (dict l ++ rest) 0).
Proof.
  intros Hv Hl Hf. unfold BEncodeSeekDictVersion. change (Buffer (dict l ++ rest) 0) with ([] ‖ dict l ++ rest). rewrite (read_dict_reads _ l fuel v v); [done| |done].
  pose proof (fun k v => entry_length k v l fuel Hf) as Hlen. clear Hf.
  induction Hl as [|[key w] l (c & Ec & Hb & Hc) Hl IH]; [done|]. cbn [fst snd] in *. subst key. exists v. split.
  2:{ apply IH. intros k' v' He. apply (Hlen k'). by apply elem_of_cons; right. }
  split; [done|]. intros pre rest'. unfold sz. cbn [mem length Nat.eqb]. change (deref (Buffer [c] 0)) with (Ok c). cbn [rbind].
  destruct (Z.eqb_spec c k) as [E|_].
  - rewrite (Hc E), read_integer_reads by done. done.
  - rewrite (proj1 discard_skips_mut w Hb); [done|]. apply (Hlen [c]). by apply elem_of_cons; left.
Qed.

(** ** What a writer leaves in the buffer

    The bytes before the cursor stay. A text of the format functions that ends at the end of the buffer
    loses its last character, so what a writer that succeeds has written is known when there is a byte
    behind it, or when its last byte comes from [write]. *)
Definition leaves (f : writer) (out : list Z) : Prop := forall pre rest, exists ok mid rest',
  f (pre ‖ rest) = Ok (ok, (pre ++ mid) ‖ rest') /\ (length mid + length rest' = length rest)%nat /\ (ok = true -> rest' <> [] -> mid = out).
Definition leaves_all (f : writer) (out : list Z) : Prop := forall pre rest, exists ok mid rest',
  f (pre ‖ rest) = Ok (ok, (pre ++ mid) ‖ rest') /\ (length mid + length rest' = length rest)%nat /\ (ok = true -> mid = out).
Definition loose (f : writer) : Prop := exists out, leaves f out.
Definition tight (f : writer) : Prop := exists out, out <> [] /\ leaves_all f out.

Lemma leaves_write l : leaves_all (write l) l.
Proof.
  intros pre rest. destruct (decide (length l <= length rest)%nat) as [Hl|Hl].
  - rewrite <- (take_drop (length l) rest), write_fits by (rewrite length_take; lia). eexists _, _, _. split; [done|]. rewrite length_app, length_take. split; [lia|done].
  - rewrite write_full by lia. exists false, [], rest. by rewrite app_nil_r.
Qed.
Lemma leaves_writef txt : txt <> [] -> leaves (writef txt) txt.
Proof.
  intros Ht pre rest. destruct (decide (length rest < length txt)%nat) as [Hl|Hl].
  { destruct (writef_short pre txt rest Hl) as (rest' & Hr & ->). exists false, [], rest'. by rewrite app_nil_r. }
  rewrite <- (take_drop (length txt) rest). set (old := take (length txt) rest).
  assert (length old = length txt) as Ho by (unfold old; rewrite length_take; lia).
  destruct (drop (length txt) rest) as [|c r].
  - destruct old as [|o old _] using rev_ind; [by destruct txt|]. rewrite length_app in Ho. cbn [length] in Ho.
    destruct txt as [|x txt _] using rev_ind; [done|]. rewrite length_app in Ho. cbn [length] in Ho.
    rewrite app_nil_r, writef_exact by lia. exists true, (txt ++ [0]), []. rewrite !length_app. cbn. split_and!; [done|lia|done].
  - rewrite writef_fits by done. eexists _, _, _. split; [done|]. rewrite length_app. cbn. split; [lia|done].
Qed.
Lemma tight_loose f : tight f -> loose f.
Proof. intros (o & _ & H). exists o. intros pre rest. destruct (H pre rest) as (ok & mid & rest' & ? & ? & Ho). exists ok, mid, rest'. auto. Qed.
Lemma tight_write c : tight (write [c]).
Proof. exists [c]. split; [done|apply leaves_write]. Qed.
Lemma tight_andthen f g : loose f -> tight g -> tight (f ⩓ g).
Proof.
  intros [o1 Hf] (o2 & Hne & Hg). exists (o1 ++ o2). split; [by destruct o1, o2|]. intros pre rest. unfold andthen.
  destruct (Hf pre rest) as ([] & m1 & r1 & -> & L1 & H1); cbn [rbind]; [|by exists false, m1, r1].
  destruct (Hg (pre ++ m1) r1) as (ok & m2 & r2 & -> & L2 & H2). exists ok, (m1 ++ m2), r2. rewrite <- (app_assoc pre), (length_app m1). split_and!; [done|lia|].
  intros Hok. rewrite H2 in * by done. rewrite H1; [done..|]. intros ->. destruct o2; [done|cbn in L2; lia].
Qed.
Lemma loose_andthen f g : loose f -> loose g -> loose (f ⩓ g).
Proof.
  intros [o1 Hf] [o2 Hg]. exists (o1 ++ o2). intros pre rest. unfold andthen.
  destruct (Hf pre rest) as ([] & m1 & r1 & -> & L1 & H1); cbn [rbind]; [|by exists false, m1, r1].
  destruct (Hg (pre ++ m1) r1) as (ok & m2 & r2 & -> & L2 & H2). exists ok, (m1 ++ m2), r2. rewrite <- (app_assoc pre), (length_app m1). split_and!; [done|lia|].
  intros Hok Hr. rewrite H2 in * by done. rewrite H1; [done..|]. intros ->. destruct r2; [done|cbn in L2; lia].
Qed.
Lemma loose_write l : loose (write l).
Proof. exists l. intros pre rest. destruct (leaves_write l pre rest) as (ok & mid & rest' & ? & ? & Ho). exists ok, mid, rest'. auto. Qed.
Lemma loose_nop : loose (fun b => Ok (true, b)).
Proof. exists []. intros pre rest. exists true, [], rest. by rewrite app_nil_r. Qed.
Lemma loose_if c f : loose f -> loose (write_if c f).
Proof. destruct c; [done|]. intros _. apply loose_nop. Qed.
Lemma loose_bytestring s : loose (bencode_write_bytestring s).
Proof. apply loose_andthen; [eexists; apply leaves_writef; by destruct (print_dec _)|apply loose_write]. Qed.
Lemma loose_uint64 i : loose (bencode_write_uint64 i).
Proof. apply loose_andthen; [eexists; by apply leaves_writef|apply loose_write]. Qed.
Lemma loose_int k i : loose (BEncodeWriteDictInt k i).
Proof. apply loose_andthen; [apply loose_bytestring|apply loose_uint64]. Qed.
Lemma loose_time k i : loose (BEncodeWriteDictTime k i).
Proof. apply loose_int. Qed.
Lemma loose_entry {A} {EA : BEncodable A} k (x : A) : loose (BEncode x) -> loose (BEncodeWriteDictEntry k x).
Proof. intros Hx. apply loose_andthen; [apply loose_bytestring|done]. Qed.
(** It is the text that is written where there is room, and there is room when a byte is left. *)
Lemma tight_writes f out : tight f -> writes f out -> leaves_all f out /\ forall pre rest, (length out < length rest)%nat -> exists rest', f (pre ‖ rest) = Ok (true, (pre ++ out) ‖ rest').
Proof.
  intros (o & _ & Hf) Hw.
  assert (forall pre rest, (length out < length rest)%nat -> exists rest', f (pre ‖ rest) = Ok (true, (pre ++ out) ‖ rest')) as Hroom.
  { intros pre rest Hr. rewrite <- (take_drop (length out) rest). destruct (drop (length out) rest) as [|c r] eqn:E.
    { apply (f_equal length) in E. rewrite length_drop in E. cbn in E. lia. }
    destruct (Hw pre (take (length out) rest) c r) as [c' ->]; [rewrite length_take; lia|]. by eexists. }
  split; [|done]. destruct (Hroom [] (replicate (S (length out)) 0)) as [r E]; [rewrite length_replicate; lia|].
  destruct (Hf [] (replicate (S (length out)) 0)) as (ok & mid & r' & E' & _ & Ho). rewrite E in E'. injection E' as <- Hm Hc.
  apply app_inj_1 in Hm as [-> _]; [|done]. by rewrite Ho.
Qed.
Ltac solve_tight := repeat first [ apply tight_write | apply tight_andthen | apply loose_if | apply loose_bytestring | apply loose_uint64
  | apply loose_int | apply loose_time | apply loose_entry | apply loose_andthen | apply loose_write ].
