(* ===== verification/CryptoApi.v ===== *)
(** * What the program uses of libsodium (llarp/crypto/crypto.hpp, constants.hpp)

    The primitives are parameters of the models that call them: classes of operations, and
    classes of the laws their documentation states. A concrete instance of each class, in
    which the witnesses evaluate, follows. *)

From S2P Require Import Prelude.

(** ** Sizes (llarp/crypto/constants.hpp, llarp/constants/link_layer.hpp, proto.hpp) *)
Definition MAX_LINK_MSG_SIZE : nat := 8 * 1024.
Definition HMACSIZE : nat := 32.
Definition TUNNONCESIZE : nat := 32.
Definition SHORTHASHSIZE : nat := 32.
Definition PUBKEYSIZE : nat := 32.
Definition SIGSIZE : nat := 64.
Definition PATHIDSIZE : nat := 16.
Definition proto_version : Z := 0.
Definition EncryptedFrameOverheadSize : nat := PUBKEYSIZE + TUNNONCESIZE + SHORTHASHSIZE.

(** The random numbers the code draws: the [k]-th draw. *)
Class Random := {
  randint : nat -> Z;
  randbytes : nat -> nat -> list Z;
}.
Class RandomSpec (R : Random) : Prop := {
  randint_nonneg k : 0 <= randint k;
  length_randbytes k n : length (randbytes k n) = n;
}.

(** Blake2b. *)
Class ShortHasher := { shorthash : list Z -> list Z }.
Class ShortHasherSpec (H : ShortHasher) : Prop := {
  length_shorthash l : length (shorthash l) = SHORTHASHSIZE;
}.

(** The keyed hash, the stream cipher and the check of a signature: message, key, nonce;
    public key, message, signature. *)
Class Crypto := {
  hmac : list Z -> list Z -> option (list Z);
  xchacha20 : list Z -> list Z -> list Z -> option (list Z);
  verify : list Z -> list Z -> list Z -> bool;
}.
(** A 32-byte authenticator, and a stream cipher that is its own inverse. *)
Class CryptoSpec (CR : Crypto) : Prop := {
  hmac_spec m k : exists h, hmac m k = Some h /\ length h = HMACSIZE;
  xchacha20_spec m k n :
    exists c, xchacha20 m k n = Some c /\ length c = length m /\ xchacha20 c k n = Some m;
}.

(** The stream cipher combines each byte with a byte of a stream of the key and the nonce. *)
Definition xor_with (ks : nat -> Z) (m : list Z) : list Z := imap (fun i b => Z.lxor (ks i) b) m.
Class StreamCipherSpec (CR : Crypto) : Prop := {
  keystream k n : exists ks : nat -> Z, forall m, xchacha20 m k n = Some (xor_with ks m);
}.
Lemma length_xor_with ks m : length (xor_with ks m) = length m.
Proof. apply length_imap. Qed.
Lemma xor_with_twice ks m : xor_with ks (xor_with ks m) = m.
Proof.
  apply list_eq. intros i. unfold xor_with. rewrite !list_lookup_imap. destruct (m !! i) as [b|]; cbn; [|done].
  by rewrite <- Z.lxor_assoc, Z.lxor_nilpotent, Z.lxor_0_l.
Qed.
Lemma xor_with_comm ks ks' m : xor_with ks (xor_with ks' m) = xor_with ks' (xor_with ks m).
Proof.
  apply list_eq. intros i. unfold xor_with. rewrite !list_lookup_imap. destruct (m !! i) as [b|]; cbn; [|done].
  by rewrite <- !Z.lxor_assoc, (Z.lxor_comm (ks i)).
Qed.

(** [SecretKey]: 32 secret bytes and the public key ([seckey_topublic], [SecretKey::toPublic]). *)
Definition SECKEYSIZE : nat := 64.
Definition SHAREDKEYSIZE : nat := 32.
Definition seckey_topublic (sk : list Z) : list Z := drop 32 sk.

(** Key pairs: the pair of a seed, for signatures and for encryption; signatures with a secret
    key and with a derived private key; the two sides of the key exchange of paths. *)
Class KeyPairs := {
  identity_keygen : list Z -> list Z;
  encryption_keygen : list Z -> list Z;
  crypto_sign : list Z -> list Z -> option (list Z);  (** secret key, message *)
  private_key : list Z -> Prop;  (** the private keys: scalars of the curve *)
  signable : list Z -> list Z -> Prop;  (** the messages that a private key signs with a nonce that is not 0 *)
  privkey_topublic : list Z -> option (list Z);
  privkey_sign : list Z -> list Z -> option (list Z);
  dh_client : list Z -> list Z -> list Z -> option (list Z);  (** public key, secret key, nonce *)
  dh_server : list Z -> list Z -> list Z -> option (list Z);
}.
(** Signatures verify, and the two sides of a key exchange agree. *)
Class KeyPairsSpec (CR : Crypto) (KP : KeyPairs) : Prop := {
  length_identity_keygen s : length s = 32%nat -> length (identity_keygen s) = SECKEYSIZE;
  length_encryption_keygen s : length s = 32%nat -> length (encryption_keygen s) = SECKEYSIZE;
  crypto_sign_spec s m : length s = 32%nat ->
    exists z, crypto_sign (identity_keygen s) m = Some z /\ length z = SIGSIZE /\ verify (seckey_topublic (identity_keygen s)) m z = true;
  length_privkey_topublic p pk : privkey_topublic p = Some pk -> length pk = PUBKEYSIZE;
  privkey_sign_spec p pk m : private_key p -> signable p m -> privkey_topublic p = Some pk ->
    exists z, privkey_sign p m = Some z /\ length z = SIGSIZE /\ verify pk m z = true;
  dh_agrees s t n : length s = 32%nat -> length t = 32%nat ->
    exists k, dh_client (seckey_topublic (encryption_keygen t)) (encryption_keygen s) n = Some k
      /\ dh_server (seckey_topublic (encryption_keygen s)) (encryption_keygen t) n = Some k /\ length k = SHAREDKEYSIZE;
}.
Lemma length_topublic sk : length sk = SECKEYSIZE -> length (seckey_topublic sk) = PUBKEYSIZE.
Proof. intros H. unfold seckey_topublic. rewrite length_drop, H. done. Qed.

(** Keys derived from a root key by a number, for who has the public and for who has the secret half. *)
Class Subkeys := {
  derive_subkey : list Z -> Z -> option (list Z);
  derive_subkey_private : list Z -> Z -> option (list Z);
}.
Class SubkeysSpec (KP : KeyPairs) (SK : Subkeys) : Prop := {
  subkeys_agree s n : length s = 32%nat ->
    (p ← derive_subkey_private (identity_keygen s) n; privkey_topublic p) = derive_subkey (seckey_topublic (identity_keygen s)) n;
  derived_private s n p : length s = 32%nat -> derive_subkey_private (identity_keygen s) n = Some p -> private_key p;
}.

(** The key encapsulation of libntrup: a key pair is the secret and the public key. *)
Definition PQ_CIPHERTEXTSIZE : nat := 1047.
Definition PQ_PUBKEYSIZE : nat := 1218.
Definition PQ_SECRETKEYSIZE : nat := 1600.
Definition pq_keypair_to_public (k : list Z) : list Z := drop PQ_SECRETKEYSIZE k.
Definition pq_keypair_to_secret (k : list Z) : list Z := take PQ_SECRETKEYSIZE k.
Class Pqe := {
  pqe_keygen : list Z -> list Z;  (** of the random bytes it draws *)
  pqe_encrypt : list Z -> list Z -> option (list Z * list Z);  (** random bytes, public key; ciphertext, shared key *)
  pqe_decrypt : list Z -> list Z -> option (list Z);  (** ciphertext block, secret key *)
}.
Class PqeSpec (P : Pqe) : Prop := {
  length_pqe_keygen r : length (pqe_keygen r) = (PQ_SECRETKEYSIZE + PQ_PUBKEYSIZE)%nat;
  pqe_agrees r r' : exists c k, pqe_encrypt r (pq_keypair_to_public (pqe_keygen r')) = Some (c, k)
    /\ length c = PQ_CIPHERTEXTSIZE /\ length k = SHAREDKEYSIZE
    /\ forall pad, pqe_decrypt (c ++ pad) (pq_keypair_to_secret (pqe_keygen r')) = Some k;
}.

(** ** Instances in which the witnesses evaluate *)
#[export] Instance random_ref : Random := {| randint := fun k => Z.of_nat k; randbytes := fun _ n => replicate n 7 |}.
#[export] Instance random_ref_spec : RandomSpec random_ref.
Proof. split; intros; cbn; [lia|apply length_replicate]. Qed.
#[export] Instance hasher_ref : ShortHasher := {| shorthash := fun l => be_encode 32 (foldr Z.add 1 l) |}.
#[export] Instance hasher_ref_spec : ShortHasherSpec hasher_ref.
Proof. split. intros. apply length_be_encode. Qed.

Definition crypto_ref : Crypto := {|
  hmac := fun _ _ => Some (replicate HMACSIZE 0);
  xchacha20 := fun m _ _ => Some m;
  verify := fun _ _ _ => true;
|}.
#[export] Instance crypto_ref_spec : CryptoSpec crypto_ref.
Proof. split; intros; eexists; (split; [reflexivity|]); done. Qed.

#[export] Instance crypto_ref_stream : StreamCipherSpec crypto_ref.
Proof. split. intros k n. exists (fun _ => 0). intros m. cbn. f_equal. symmetry. etransitivity; [apply (imap_const id)|apply list_fmap_id]. Qed.

(** A cipher that depends on the key and the nonce, and an authenticator that depends on the
    message and the key. *)
Definition xor_stream (k n : list Z) : Z := u8 (foldr Z.add 0 k + 3 * foldr Z.add 0 n).
Definition crypto_xor : Crypto := {|
  hmac := fun m k => Some (be_encode HMACSIZE (foldr Z.add 1 (m ++ k)));
  xchacha20 := fun m k n => Some (Z.lxor (xor_stream k n) <$> m);
  verify := fun pk m z => bool_decide (z = be_encode SIGSIZE (foldr Z.add 1 (pk ++ m)));
|}.
#[export] Instance crypto_xor_spec : CryptoSpec crypto_xor.
Proof.
  split; intros; eexists; (split; [reflexivity|]); [apply length_be_encode|]. rewrite length_fmap. split; [done|].
  cbn [xchacha20 crypto_xor]. f_equal. rewrite <- list_fmap_compose. rewrite <- (list_fmap_id m) at 2.
  apply list_fmap_ext. intros _ x _. cbn. by rewrite <- Z.lxor_assoc, Z.lxor_nilpotent, Z.lxor_0_l.
Qed.

#[export] Instance crypto_xor_stream : StreamCipherSpec crypto_xor.
Proof. split. intros k n. exists (fun _ => xor_stream k n). intros m. cbn. f_equal. symmetry. apply (imap_const (Z.lxor (xor_stream k n))). Qed.

Definition byte_sum (l : list Z) : Z := foldr Z.add 1 l.
Definition keypairs_xor : KeyPairs := {|
  identity_keygen := fun s => s ++ s;
  encryption_keygen := fun s => s ++ s;
  crypto_sign := fun sk m => Some (be_encode SIGSIZE (byte_sum (seckey_topublic sk ++ m)));
  private_key := fun p => length p = 64%nat;
  signable := fun _ _ => True;
  privkey_topublic := fun p => if (length p =? 64)%nat then Some (take 32 p) else None;
  privkey_sign := fun p m => Some (be_encode SIGSIZE (byte_sum (take 32 p ++ m)));
  dh_client := fun pk sk n => Some (be_encode 32 (byte_sum pk + byte_sum (seckey_topublic sk) + byte_sum n));
  dh_server := fun pk sk n => Some (be_encode 32 (byte_sum (seckey_topublic sk) + byte_sum pk + byte_sum n));
|}.
#[export] Instance keypairs_xor_spec : KeyPairsSpec crypto_xor keypairs_xor.
Proof.
  split; cbn [identity_keygen encryption_keygen crypto_sign privkey_topublic privkey_sign private_key signable dh_client dh_server verify keypairs_xor crypto_xor].
  1-2: intros s Hs; rewrite length_app; unfold SECKEYSIZE; lia.
  - intros s m Hs. eexists. split; [done|]. split; [apply length_be_encode|]. by apply bool_decide_eq_true_2.
  - intros p pk. destruct (Nat.eqb_spec (length p) 64); [|done]. intros [= <-]. rewrite length_take. unfold PUBKEYSIZE. lia.
  - intros p pk m _ _. case_match; [|done]. intros [= <-]. eexists. split; [done|]. split; [apply length_be_encode|]. by apply bool_decide_eq_true_2.
  - intros s t n Hs Ht. eexists. split; [done|]. split; [done|apply length_be_encode].
Qed.

Definition subkeys_xor : Subkeys := {|
  derive_subkey := fun pk n => if (length pk =? 32)%nat then Some pk else None;
  derive_subkey_private := fun sk n => if (length sk =? 64)%nat then Some (drop 32 sk ++ drop 32 sk) else None;
|}.
#[export] Instance subkeys_xor_spec : SubkeysSpec keypairs_xor subkeys_xor.
Proof.
  split; intros s n.
  2:{ intros p Hs. cbn. rewrite length_app, Hs. cbn. intros [= <-]. rewrite length_app, length_drop, length_app. lia. }
  intros Hs. cbn. rewrite length_app, Hs. cbn. unfold seckey_topublic. rewrite length_app, !length_drop, length_app, Hs. cbn.
  rewrite take_app_le by (rewrite length_drop, length_app; lia). by rewrite take_ge by (rewrite length_drop, length_app; lia).
Qed.
Definition pqe_ref : Pqe := {|
  pqe_keygen := fun _ => replicate (PQ_SECRETKEYSIZE + PQ_PUBKEYSIZE) 5;
  pqe_encrypt := fun _ pk => Some (replicate PQ_CIPHERTEXTSIZE 1, replicate SHAREDKEYSIZE (Z.of_nat (length pk)));
  pqe_decrypt := fun _ _ => Some (replicate SHAREDKEYSIZE 1218);
|}.
#[export] Instance pqe_ref_spec : PqeSpec pqe_ref.
Proof.
  split; intros; cbn [pqe_keygen pqe_encrypt pqe_decrypt pqe_ref]; [apply length_replicate|]. eexists _, _. split; [reflexivity|].
  rewrite !length_replicate. split_and!; [done..|]. intros pad. unfold pq_keypair_to_public. rewrite length_drop, length_replicate.
  unfold PQ_SECRETKEYSIZE, PQ_PUBKEYSIZE. by replace (1600 + 1218 - 1600)%nat with 1218%nat by lia.
Qed.
