(* ===== verification/Sodium.v ===== *)
(** * The cryptography over libsodium (llarp/crypto/crypto_libsodium.cpp, types.cpp)

    [CryptoLibSodium] implements the interface [llarp::Crypto] of [CryptoApi]. The functions of
    libsodium are the parameters [Sodium]; [SodiumSpec] is what its documentation (and RFC 7748
    and RFC 8032, which it implements) states of them. The instances at the end discharge the
    laws the rest of the development assumes of the interface. *)

From S2P Require Import Prelude Codec CryptoApi.

(** ** What the program uses of libsodium *)
Class Sodium := {
  generichash_blake2b : nat -> list Z -> list Z -> option (list Z);  (** size of the hash, message, key *)
  scalarmult_curve25519 : list Z -> list Z -> option (list Z);
  scalarmult_curve25519_base : list Z -> list Z;
  stream_xchacha20_xor : list Z -> list Z -> list Z -> list Z;  (** message, nonce, key *)
  sign_seed_keypair : list Z -> list Z * list Z;  (** the public key and the secret key of a seed *)
  sign_detached : list Z -> list Z -> list Z;  (** message, secret key *)
  sign_verify_detached : list Z -> list Z -> list Z -> bool;  (** signature, message, public key *)
  hash_sha512 : list Z -> list Z;
  scalar_reduce : list Z -> list Z;
  scalar_mul : list Z -> list Z -> list Z;
  scalar_add : list Z -> list Z -> list Z;
  scalarmult_ed25519_base_noclamp : list Z -> bool * list Z;  (** the point is stored whether or not the call succeeds *)
  scalarmult_ed25519 : list Z -> list Z -> option (list Z);  (** scalar, point *)
  ed25519_from_uniform : list Z -> option (list Z);
  aead_xchacha20poly1305_ietf_decrypt : list Z -> list Z -> list Z -> option (list Z);  (** ciphertext, nonce, key *)
}.

(** ** Little-endian integers *)
Fixpoint le_encode (n : nat) (v : Z) : list Z := match n with O => [] | S n => v mod 256 :: le_encode n (v / 256) end.

(** The order of the base point of Ed25519. *)
Definition ed25519_L : Z := 2 ^ 252 + 27742317777372353535851937790883648493.

Definition HASHSIZE : nat := 64.
Definition AEAD_ABYTES : Z := 16.

(** ** The operations *)
Module CryptoLibSodium.
Section ops.
Context {O : Oxenc} {SO : Sodium}.

Definition dh (client_pk server_pk themPub usSec : list Z) : option (list Z) :=
  shared ← scalarmult_curve25519 (take 32 usSec) themPub;
  generichash_blake2b 32 (client_pk ++ server_pk ++ shared) [].
Definition dh_client_priv (pk sk n : list Z) : option (list Z) :=
  dh_result ← dh (seckey_topublic sk) pk pk sk; generichash_blake2b SHAREDKEYSIZE n dh_result.
Definition dh_server_priv (pk sk n : list Z) : option (list Z) :=
  dh_result ← dh pk (seckey_topublic sk) pk sk; generichash_blake2b SHAREDKEYSIZE n dh_result.
Definition dh_client := dh_client_priv.
Definition dh_server := dh_server_priv.
Definition transport_dh_client := dh_client_priv.
Definition transport_dh_server := dh_server_priv.

(** The nonces of the program have 32 bytes, of which the cipher uses 24. *)
Definition xchacha20 (buff k n : list Z) : option (list Z) := Some (stream_xchacha20_xor buff (take 24 n) k).
(** Into another buffer, of [room] bytes. *)
Definition xchacha20_alt (room : nat) (input k n : list Z) : option (list Z) :=
  if (room <? length input)%nat then None else Some (stream_xchacha20_xor input (take 24 n) k).

Definition shorthash (buff : list Z) : option (list Z) := generichash_blake2b SHORTHASHSIZE buff [].
Definition hmac (buff secret : list Z) : option (list Z) := generichash_blake2b HMACSIZE buff (take 32 secret).
Definition hash (buff : list Z) : option (list Z) := generichash_blake2b HASHSIZE buff [].

Definition maybe_decrypt_name (ciphertext nounce name : list Z) : option (list Z) :=
  if negb (u64 (Z.of_nat (length ciphertext) - AEAD_ABYTES) =? 32) then None
  else
    namehash ← shorthash name;
    derivedKey ← hmac name namehash;
    aead_xchacha20poly1305_ietf_decrypt ciphertext nounce derivedKey.

(** [PrivateKey]: a scalar and 32 bytes for the nonces of signatures. *)
Definition signingHash (privkey : list Z) : list Z := drop 32 privkey.
Definition PrivateKey_toPublic (privkey : list Z) : option (list Z) :=
  let (ok, pk) := scalarmult_ed25519_base_noclamp (take 32 privkey) in if ok then Some pk else None.
(** [h[0] &= 248; h[31] &= 63; h[31] |= 64;] *)
Definition clamp_private (h : list Z) : list Z :=
  alter (fun b => Z.lor (Z.land b 63) 64) 31%nat (alter (fun b => Z.land b 248) 0%nat h).
Definition toPrivate (secret : list Z) : list Z := clamp_private (hash_sha512 (take 32 secret)).
Definition Recalculate (secret : list Z) : bool * list Z :=
  match PrivateKey_toPublic (toPrivate secret) with
  | Some pubkey => (true, take 32 secret ++ pubkey)
  | None => (false, secret)
  end.
(** [SecretKey(seed)] *)
Definition SecretKey_of_seed (seed : list Z) : list Z := (Recalculate (seed ++ zeros 32)).2.

Definition sign (secret buf : list Z) : option (list Z) := Some (sign_detached buf secret).
(** With a derived key: the steps of RFC 8032 after the expansion of the seed. *)
Definition sign_private (privkey buf : list Z) : option (list Z) :=
  let pubkey := (scalarmult_ed25519_base_noclamp (take 32 privkey)).2 in
  let nonce := scalar_reduce (hash_sha512 (signingHash privkey ++ buf)) in
  let R := (scalarmult_ed25519_base_noclamp nonce).2 in
  let hram := scalar_reduce (hash_sha512 (R ++ pubkey ++ buf)) in
  let mulres := scalar_mul hram (take 32 privkey) in
  Some (R ++ scalar_add mulres nonce).
Definition verify (pub buf sig : list Z) : bool := sign_verify_detached sig buf pub.

Definition clamp_ed25519 (h : list Z) : list Z :=
  alter (fun b => Z.lor (Z.land b 127) 64) 31%nat (alter (fun b => Z.land b 248) 0%nat h).
Definition is_clamped (key : list Z) : bool := bool_decide (clamp_ed25519 key = key).

Definition derived_key_hash_str : list Z := chars
  "just imagine what would happen if we all decided to understand. you can't in the and by be or then before so just face it this text hurts to read? lokinet yolo!".
(** [write_host_as_little] writes the big-endian image backwards. *)
Definition make_scalar (k : list Z) (i : Z) : option (list Z) :=
  n ← generichash_blake2b SHORTHASHSIZE (take 160 derived_key_hash_str ++ k ++ reverse (write_host_as_big 8 i)) [];
  ed25519_from_uniform n.
(** The scalar given, or the one of the root key. *)
Definition scalar_for (root_pubkey : list Z) (key_n : Z) (hash : option (list Z)) : option (list Z) :=
  match hash with Some h => Some h | None => make_scalar root_pubkey key_n end.
Definition derive_subkey (root_pubkey : list Z) (key_n : Z) (hash : option (list Z)) : option (list Z) :=
  h ← scalar_for root_pubkey key_n hash; scalarmult_ed25519 h root_pubkey.
Definition derive_subkey_private (root_key : list Z) (key_n : Z) (hash : option (list Z)) : option (list Z) :=
  h ← scalar_for (seckey_topublic root_key) key_n hash;
  let h := clamp_private h in
  let a := toPrivate root_key in
  s ← generichash_blake2b 32 (h ++ signingHash a) [];
  Some (scalar_mul h (take 32 a) ++ s).

Definition seed_to_secretkey (seed : list Z) : list Z := (sign_seed_keypair seed).2.
(** [crypto_sign_keypair] draws the seed. *)
Definition identity_keygen (seed : list Z) : list Z := (sign_seed_keypair seed).2.
Definition check_identity_privkey (keys : list Z) : bool :=
  let (pk, sk) := sign_seed_keypair (take 32 keys) in bool_decide (seckey_topublic keys = pk) && bool_decide (sk = keys).
Definition encryption_keygen (random : list Z) : list Z := random ++ scalarmult_curve25519_base random.
End ops.
End CryptoLibSodium.
Import CryptoLibSodium.

(** ** What the documentation states *)
Class SodiumSpec (SO : Sodium) (point : Z -> list Z) : Prop := {
  (** BLAKE2b gives hashes of 16 to 64 bytes, with keys of at most 64. *)
  generichash_spec n m k : (16 <= n <= 64)%nat -> (length k <= 64)%nat -> exists h, generichash_blake2b n m k = Some h /\ length h = n;
  (** X25519: the two sides of an exchange agree. *)
  scalarmult_agrees a b : length a = 32%nat -> length b = 32%nat ->
    exists q, scalarmult_curve25519 a (scalarmult_curve25519_base b) = Some q /\ scalarmult_curve25519 b (scalarmult_curve25519_base a) = Some q;
  length_scalarmult_base a : length (scalarmult_curve25519_base a) = 32%nat;
  (** The cipher combines the message with a stream of the nonce and the key. *)
  stream_spec n k : exists ks : nat -> Z, forall m, stream_xchacha20_xor m n k = xor_with ks m;
  (** Ed25519: [point n] is the image of [n] times the base point. *)
  length_point n : length (point n) = 32%nat;
  point_mod n : point (n mod ed25519_L) = point n;
  length_sha512 m : length (hash_sha512 m) = 64%nat;
  sha512_bytes m : bytes (hash_sha512 m);
  seed_keypair_spec s : length s = 32%nat ->
    sign_seed_keypair s = ((scalarmult_ed25519_base_noclamp (take 32 (clamp_ed25519 (hash_sha512 s)))).2,
                           s ++ (scalarmult_ed25519_base_noclamp (take 32 (clamp_ed25519 (hash_sha512 s)))).2);
  sign_spec s m : length s = 32%nat -> let (pk, sk) := sign_seed_keypair s in
    length (sign_detached m sk) = SIGSIZE /\ sign_verify_detached (sign_detached m sk) m pk = true;
  scalar_reduce_spec x : bytes x -> length (scalar_reduce x) = 32%nat /\ bytes (scalar_reduce x) /\ le_decode (scalar_reduce x) = le_decode x mod ed25519_L;
  scalar_mul_spec x y : length (scalar_mul x y) = 32%nat /\ bytes (scalar_mul x y) /\ le_decode (scalar_mul x y) = (le_decode x * le_decode y) mod ed25519_L;
  scalar_add_spec x y : length (scalar_add x y) = 32%nat /\ bytes (scalar_add x y) /\ le_decode (scalar_add x y) = (le_decode x + le_decode y) mod ed25519_L;
  length_base_noclamp n : length (scalarmult_ed25519_base_noclamp n).2 = 32%nat;
  base_noclamp_spec n : length n = 32%nat -> bytes n -> le_decode n < 2 ^ 255 ->
    scalarmult_ed25519_base_noclamp n = (negb (le_decode n mod ed25519_L =? 0), point (le_decode n));
  scalarmult_spec h a : length h = 32%nat -> a mod ed25519_L <> 0 ->
    scalarmult_ed25519 h (point a) =
      if (le_decode (clamp_ed25519 h) * a) mod ed25519_L =? 0 then None else Some (point (le_decode (clamp_ed25519 h) * a));
  (** The equation of RFC 8032. *)
  verify_spec r a s m : length s = 32%nat -> r mod ed25519_L <> 0 -> a mod ed25519_L <> 0 ->
    le_decode s = (r + le_decode (hash_sha512 (point r ++ point a ++ m)) * a) mod ed25519_L ->
    sign_verify_detached (point r ++ s) m (point a) = true;
  from_uniform_spec n h : ed25519_from_uniform n = Some h -> length h = 32%nat /\ bytes h;
}.

(** ** Lemmas *)
Lemma clamp_same h : clamp_private h = clamp_ed25519 h.
Proof.
  unfold clamp_private, clamp_ed25519. apply list_alter_ext; [|done]. intros b _. change 127 with (Z.lor 63 64).
  apply Z.bits_inj'. intros n _. rewrite !Z.lor_spec, !Z.land_spec, Z.lor_spec.
  by destruct (Z.testbit b n), (Z.testbit 63 n), (Z.testbit 64 n).
Qed.
Lemma le_decode_app a b : le_decode (a ++ b) = le_decode a + 256 ^ Z.of_nat (length a) * le_decode b.
Proof.
  induction a as [|x a IH]; cbn [app le_decode length]; [lia|]. rewrite IH, Nat2Z.inj_succ, Z.pow_succ_r by lia. ring.
Qed.
Lemma land_248_byte b : is_byte (Z.land b 248).
Proof. change 248 with (Z.land 248 (Z.ones 8)). rewrite Z.land_assoc, Z.land_ones by lia. apply Z.mod_pos_bound. lia. Qed.
Lemma clamp_top b : 64 <= Z.lor (Z.land b 127) 64 < 128.
Proof.
  assert (Z.lor (Z.land b 127) 64 = Z.land b 63 + 64) as ->.
  2:{ change 63 with (Z.ones 6). rewrite Z.land_ones by lia. pose proof (Z.mod_pos_bound b (2 ^ 6)). lia. }
  rewrite Z.add_nocarry_lor by (rewrite <- Z.land_assoc; apply Z.land_0_r). change 127 with (Z.lor 63 64).
  apply Z.bits_inj'. intros n _. rewrite !Z.lor_spec, !Z.land_spec, Z.lor_spec. by destruct (Z.testbit b n), (Z.testbit 63 n), (Z.testbit 64 n).
Qed.

(** A clamped scalar has 32 bytes and is below [2 ^ 255]. *)
Definition scalar_ok (l : list Z) : Prop := length l = 32%nat /\ bytes l /\ le_decode l < 2 ^ 255.
Lemma clamp_scalar h : (32 <= length h)%nat -> bytes h -> scalar_ok (take 32 (clamp_ed25519 h)).
Proof.
  intros Hl Hb. assert (bytes (clamp_ed25519 h)) as Hc.
  { unfold clamp_ed25519. apply Forall_alter; [apply Forall_alter; [done|intros; apply land_248_byte]|].
    intros b _ _. pose proof (clamp_top b). unfold is_byte. lia. }
  assert (length (clamp_ed25519 h) = length h) as El by (unfold clamp_ed25519; by rewrite !length_alter).
  split_and!; [rewrite length_take; lia|by apply Forall_take|].
  destruct (lookup_lt_is_Some_2 (alter (fun b => Z.land b 248) 0%nat h) 31) as [b Hb31]; [rewrite length_alter; lia|].
  assert (clamp_ed25519 h !! 31%nat = Some (Z.lor (Z.land b 127) 64)) as E by (unfold clamp_ed25519; by rewrite list_lookup_alter, Hb31).
  rewrite (take_S_r _ 31 _ E), le_decode_app, length_take, El. cbn [le_decode]. pose proof (clamp_top b).
  pose proof (le_decode_bound (take 31 (clamp_ed25519 h)) ltac:(by apply Forall_take)) as Hle. rewrite length_take, El in Hle.
  replace (31 `min` length h)%nat with 31%nat in * by lia. change (256 ^ Z.of_nat 31) with (2 ^ 248) in *. change (2 ^ 255) with (2 ^ 248 * 128). lia.
Qed.

(** A clamped scalar is no multiple of the order: it is a positive multiple of 8 below [8 L]. *)
Lemma clamp_nonzero h : (32 <= length h)%nat -> bytes h -> le_decode (take 32 (clamp_ed25519 h)) mod ed25519_L <> 0.
Proof.
  intros Hl Hb. destruct (clamp_scalar h Hl Hb) as (Hl' & Hb' & Hlt).
  assert (exists m, le_decode (take 32 (clamp_ed25519 h)) = 8 * m) as [m Hm].
  { destruct h as [|b h]; [cbn in Hl; lia|]. unfold clamp_ed25519. cbn [alter list_alter take le_decode].
    exists (Z.land b 248 / 8 + 32 * le_decode (take 31 (alter (fun b => Z.lor (Z.land b 127) 64) 30%nat h))).
    assert (Z.land b 248 = 8 * (Z.land b 248 / 8)) as E; [|lia].
    assert (Z.land b 248 mod 8 = 0); [|pose proof (Z.div_mod (Z.land b 248) 8); lia].
    change 8 with (2 ^ 3) at 1. rewrite <- Z.land_ones, <- Z.land_assoc by lia. apply Z.land_0_r. }
  assert (0 < le_decode (take 32 (clamp_ed25519 h))) as Hpos.
  { destruct (lookup_lt_is_Some_2 (alter (fun b => Z.land b 248) 0%nat h) 31) as [b Hb31]; [rewrite length_alter; lia|].
    assert (clamp_ed25519 h !! 31%nat = Some (Z.lor (Z.land b 127) 64)) as E by (unfold clamp_ed25519; by rewrite list_lookup_alter, Hb31).
    rewrite (take_S_r _ 31 _ E), le_decode_app. cbn [le_decode]. pose proof (clamp_top b).
    pose proof (le_decode_bound (take 31 (clamp_ed25519 h))) as Hle. rewrite length_take in Hle |- *.
    destruct Hle as [Hle _]; [apply (Forall_take _ 31) in Hb'; by rewrite take_take in Hb'|].
    pose proof (Z.pow_pos_nonneg 256 (Z.of_nat (31 `min` length (clamp_ed25519 h)))). nia. }
  intros Hz. apply Z.mod_divide in Hz as [k Hk]; [|done]. unfold ed25519_L in Hk. rewrite Hm in *. lia.
Qed.

Lemma topublic_app s p : length s = 32%nat -> seckey_topublic (s ++ p) = p.
Proof. intros Hs. unfold seckey_topublic. by rewrite <- Hs, drop_app_length. Qed.

Section spec.
Context {O : Oxenc} {SO : Sodium} {point : Z -> list Z} {SS : SodiumSpec SO point}.

Lemma toPrivate_scalar sk : scalar_ok (take 32 (toPrivate sk)).
Proof using SS. unfold toPrivate. rewrite clamp_same. apply clamp_scalar; [rewrite length_sha512; lia|apply sha512_bytes]. Qed.
Lemma base_noclamp_ok n : scalar_ok n ->
  scalarmult_ed25519_base_noclamp n = (negb (le_decode n mod ed25519_L =? 0), point (le_decode n)).
Proof using SS. intros (? & ? & ?). by apply base_noclamp_spec. Qed.
Lemma toPublic_run p : scalar_ok (take 32 p) ->
  PrivateKey_toPublic p = if le_decode (take 32 p) mod ed25519_L =? 0 then None else Some (point (le_decode (take 32 p))).
Proof using SS. intros Hp. unfold PrivateKey_toPublic. rewrite (base_noclamp_ok _ Hp). by destruct (_ =? _). Qed.

(** The public key of a seed is that of its private key. *)
Lemma seed_public seed : length seed = 32%nat ->
  sign_seed_keypair seed = (point (le_decode (take 32 (toPrivate seed))), seed ++ point (le_decode (take 32 (toPrivate seed)))).
Proof using SS.
  intros Hs. rewrite (seed_keypair_spec seed Hs). pose proof (toPrivate_scalar seed) as Hp. unfold toPrivate in *.
  rewrite clamp_same in *. rewrite (take_ge seed) in * by lia. by rewrite (base_noclamp_ok _ Hp).
Qed.

(** The private key derived from a root key is that of the public key derived from its public
    half: who knows the address of a service can check what the service signs with its blinded
    key, whatever the number of the key or the scalar given. *)
Lemma subkeys_of_seed seed key_n hash :
  length seed = 32%nat -> (forall h, hash = Some h -> length h = 32%nat /\ bytes h) ->
  (p ← derive_subkey_private (identity_keygen seed) key_n hash; PrivateKey_toPublic p)
  = derive_subkey (seckey_topublic (identity_keygen seed)) key_n hash.
Proof using SS.
  intros Hs Hh. unfold derive_subkey_private, derive_subkey, identity_keygen. rewrite (seed_public seed Hs). cbn [snd].
  set (a := le_decode (take 32 (toPrivate seed))). 
  assert (seckey_topublic (seed ++ point a) = point a) as -> by (by apply topublic_app).
  assert (a mod ed25519_L <> 0) as Ha.
  { subst a. unfold toPrivate. rewrite clamp_same. apply clamp_nonzero; [rewrite length_sha512; lia|apply sha512_bytes]. }
  destruct (scalar_for (point a) key_n hash) as [h|] eqn:Eh; [|done]. cbn [mbind option_bind].
  assert (length h = 32%nat /\ bytes h) as [Hl Hb].
  { unfold scalar_for in Eh. destruct hash as [h'|]; [injection Eh as <-; by apply Hh|]. unfold make_scalar in Eh.
    apply bind_Some in Eh as (n & _ & En). by apply from_uniform_spec in En. }
  destruct (generichash_spec 32 (clamp_private h ++ signingHash (toPrivate (seed ++ point a))) []) as (s & -> & _); [lia|cbn; lia|].
  cbn [mbind option_bind]. rewrite clamp_same, (scalarmult_spec h a Hl Ha).
  assert (take 32 (toPrivate (seed ++ point a)) = take 32 (toPrivate seed)) as ->.
  { unfold toPrivate. by rewrite take_app_le, (take_ge seed 32) by lia. }
  destruct (scalar_mul_spec (clamp_ed25519 h) (take 32 (toPrivate seed))) as (Lm & Bm & Em). fold a in Em.
  set (x := scalar_mul (clamp_ed25519 h) (take 32 (toPrivate seed))) in *.
  assert (take 32 (x ++ s) = x) as Ex by (by rewrite take_app_le, take_ge by lia).
  pose proof (Z.mod_pos_bound (le_decode (clamp_ed25519 h) * a) ed25519_L eq_refl) as Hb3.
  rewrite toPublic_run; rewrite Ex; [|split_and!; [done..|rewrite Em; unfold ed25519_L in *; lia]].
  rewrite Em, Z.mod_mod, point_mod by done. done.
Qed.

(** A derived key is a scalar below the order. *)
Lemma derived_scalar sk key_n hash p : derive_subkey_private sk key_n hash = Some p -> scalar_ok (take 32 p).
Proof using SS.
  unfold derive_subkey_private. intros (h & _ & E)%bind_Some. apply bind_Some in E as (s & _ & [= <-]).
  destruct (scalar_mul_spec (clamp_private h) (take 32 (toPrivate sk))) as (Lm & Bm & Em). rewrite take_app_le, take_ge by lia.
  split_and!; [done..|]. rewrite Em. pose proof (Z.mod_pos_bound (le_decode (clamp_private h) * le_decode (take 32 (toPrivate sk))) ed25519_L eq_refl). unfold ed25519_L in *. lia.
Qed.
(** A private key is a scalar; a message can be signed when the nonce it hashes to is not 0. *)
Definition PrivateKey_ok (p : list Z) : Prop := scalar_ok (take 32 p).
Definition nonce_ok (p m : list Z) : Prop := le_decode (hash_sha512 (signingHash p ++ m)) mod ed25519_L <> 0.
Lemma sign_private_verifies p pk m : PrivateKey_ok p -> nonce_ok p m -> PrivateKey_toPublic p = Some pk ->
  exists z, sign_private p m = Some z /\ length z = SIGSIZE /\ verify pk m z = true.
Proof using SS.
  intros Hp Hn Hpk. rewrite (toPublic_run p Hp) in Hpk. destruct (Z.eqb_spec (le_decode (take 32 p) mod ed25519_L) 0) as [|Ha]; [done|].
  injection Hpk as <-. eexists. split; [reflexivity|]. rewrite (base_noclamp_ok _ Hp). cbn [snd].
  set (a := le_decode (take 32 p)) in *. set (H := hash_sha512 (signingHash p ++ m)) in *.
  destruct (scalar_reduce_spec H (sha512_bytes _)) as (Lr & Br & Er).
  pose proof (Z.mod_pos_bound (le_decode H) ed25519_L eq_refl) as Hr.
  assert (scalar_ok (scalar_reduce H)) as Hok by (split_and!; [done..|rewrite Er; unfold ed25519_L in *; lia]).
  rewrite (base_noclamp_ok _ Hok), Er, point_mod. cbn [snd].
  set (M := hash_sha512 (point (le_decode H) ++ point a ++ m)).
  destruct (scalar_reduce_spec M (sha512_bytes _)) as (_ & _ & Eh).
  destruct (scalar_mul_spec (scalar_reduce M) (take 32 p)) as (_ & _ & Em). fold a in Em.
  destruct (scalar_add_spec (scalar_mul (scalar_reduce M) (take 32 p)) (scalar_reduce H)) as (Ls & _ & Es).
  split; [rewrite length_app, length_point, Ls; done|]. unfold verify. apply verify_spec; [done..|]. fold M.
  rewrite Es, Em, Eh, Er, Z.mul_mod_idemp_l, <- Z.add_mod, Z.add_comm by done. done.
Qed.

(** A secret key made from a seed is the key pair of libsodium, and the check of an identity
    accepts exactly such keys. *)
Theorem secret_key_of_seed seed keys :
  length seed = 32%nat -> length keys = SECKEYSIZE ->
  SecretKey_of_seed seed = identity_keygen seed /\ seed_to_secretkey seed = identity_keygen seed
  /\ (check_identity_privkey keys = true <-> keys = identity_keygen (take 32 keys)).
Proof using SS.
  intros Hs Hk. split_and!.
  - unfold SecretKey_of_seed, Recalculate, identity_keygen. rewrite (seed_public seed Hs), (toPublic_run _ (toPrivate_scalar _)).
    assert (toPrivate (seed ++ zeros 32) = toPrivate seed) as -> by (unfold toPrivate; by rewrite take_app_le, (take_ge seed 32) by lia).
    assert ((le_decode (take 32 (toPrivate seed)) mod ed25519_L =? 0) = false) as ->.
    { apply Z.eqb_neq. unfold toPrivate. rewrite clamp_same. apply clamp_nonzero; [rewrite length_sha512; lia|apply sha512_bytes]. }
    cbn [snd]. by rewrite take_app_le, take_ge by lia.
  - done.
  - unfold check_identity_privkey, identity_keygen. assert (length (take 32 keys) = 32%nat) as Ht by (rewrite length_take, Hk; done).
    rewrite (seed_public _ Ht). cbn [snd]. set (pk := point _). rewrite andb_true_iff, !bool_decide_eq_true. split; [intros [_ E]; by symmetry|].
    intros E. split; [|by symmetry]. rewrite E at 1. by apply topublic_app.
Qed.

(** ** The interface of the other components *)
Definition libsodium_crypto : Crypto :=
  {| CryptoApi.hmac := hmac; CryptoApi.xchacha20 := xchacha20; CryptoApi.verify := verify |}.
Definition libsodium_hasher : ShortHasher := {| CryptoApi.shorthash l := default [] (shorthash l) |}.
Definition libsodium_keypairs : KeyPairs := {|
  CryptoApi.identity_keygen := identity_keygen; CryptoApi.encryption_keygen := encryption_keygen;
  CryptoApi.crypto_sign := sign; CryptoApi.private_key := PrivateKey_ok; CryptoApi.signable := nonce_ok; CryptoApi.privkey_topublic := PrivateKey_toPublic;
  CryptoApi.privkey_sign := sign_private; CryptoApi.dh_client := dh_client; CryptoApi.dh_server := dh_server;
|}.
Definition libsodium_subkeys : Subkeys := {|
  CryptoApi.derive_subkey pk n := derive_subkey pk n None; CryptoApi.derive_subkey_private sk n := derive_subkey_private sk n None;
|}.
Lemma dh_run client_pk server_pk a b : length a = 32%nat -> length b = 32%nat ->
  exists k, dh client_pk server_pk (scalarmult_curve25519_base b) (encryption_keygen a) = Some k
    /\ dh client_pk server_pk (scalarmult_curve25519_base a) (encryption_keygen b) = Some k /\ length k = 32%nat.
Proof using SS.
  intros Ha Hb. destruct (scalarmult_agrees a b Ha Hb) as (q & E1 & E2).
  destruct (generichash_spec 32 (client_pk ++ server_pk ++ q) []) as (k & Ek & Lk); [lia|cbn; lia|]. exists k.
  unfold dh, encryption_keygen. rewrite !take_app_le, !take_ge, E1, E2 by lia. done.
Qed.
Lemma public_of_keygen s : length s = 32%nat -> seckey_topublic (encryption_keygen s) = scalarmult_curve25519_base s.
Proof. apply topublic_app. Qed.

End spec.

(** ** An instance in which the witnesses evaluate: the multiples of the base point are the numbers
    modulo the order *)
Lemma length_le_encode n v : length (le_encode n v) = n.
Proof. revert v. induction n as [|n IH]; intros v; cbn; [done|]. by rewrite IH. Qed.
Lemma le_encode_bytes n v : bytes (le_encode n v).
Proof. revert v. induction n as [|n IH]; intros v; cbn; constructor; [apply Z.mod_pos_bound; lia|apply IH]. Qed.
Lemma le_decode_encode n v : 0 <= v < 256 ^ Z.of_nat n -> le_decode (le_encode n v) = v.
Proof.
  revert v. induction n as [|n IH]; intros v Hv; cbn [le_encode le_decode]; [lia|]. rewrite Nat2Z.inj_succ, Z.pow_succ_r in Hv by lia.
  rewrite IH; [pose proof (Z.div_mod v 256); lia|]. split; [apply Z.div_pos; lia|apply Z.div_lt_upper_bound; lia].
Qed.

Definition point_ref (n : Z) : list Z := le_encode 32 (n mod ed25519_L).
Definition sha_ref (m : list Z) : list Z := le_encode 64 (1 + byte_sum m mod 2 ^ 200).
Definition sodium_ref : Sodium := {|
  generichash_blake2b n m k := Some (le_encode n (byte_sum (m ++ k)));
  scalarmult_curve25519 a q := Some (le_encode 32 (byte_sum a * byte_sum q));
  scalarmult_curve25519_base a := take 32 (a ++ zeros 32);
  stream_xchacha20_xor m n k := xor_with (fun _ => xor_stream k n) m;
  sign_seed_keypair s := (point_ref (le_decode (take 32 (clamp_ed25519 (sha_ref s)))), s ++ point_ref (le_decode (take 32 (clamp_ed25519 (sha_ref s)))));
  sign_detached m sk := point_ref 1 ++ le_encode 32 ((1 + le_decode (sha_ref (point_ref 1 ++ drop 32 sk ++ m)) * le_decode (drop 32 sk)) mod ed25519_L);
  sign_verify_detached z m pk :=
    le_decode (drop 32 z) =? (le_decode (take 32 z) + le_decode (sha_ref (take 32 z ++ pk ++ m)) * le_decode pk) mod ed25519_L;
  hash_sha512 := sha_ref;
  scalar_reduce x := point_ref (le_decode x);
  scalar_mul x y := point_ref (le_decode x * le_decode y);
  scalar_add x y := point_ref (le_decode x + le_decode y);
  scalarmult_ed25519_base_noclamp n := (negb (le_decode n mod ed25519_L =? 0), point_ref (le_decode n));
  scalarmult_ed25519 h q := let v := (le_decode (clamp_ed25519 h) * le_decode q) mod ed25519_L in if v =? 0 then None else Some (point_ref v);
  ed25519_from_uniform n := Some (le_encode 32 (byte_sum n));
  aead_xchacha20poly1305_ietf_decrypt c _ _ := Some (take 32 c);
|}.
Lemma le_point n : le_decode (point_ref n) = n mod ed25519_L.
Proof. apply le_decode_encode. pose proof (Z.mod_pos_bound n ed25519_L eq_refl). change (256 ^ Z.of_nat 32) with (2 ^ 256). unfold ed25519_L in *. lia. Qed.
Lemma length_point_ref n : length (point_ref n) = 32%nat.
Proof. apply length_le_encode. Qed.
Lemma point_ref_mod n : point_ref (n mod ed25519_L) = point_ref n.
Proof. unfold point_ref. by rewrite Z.mod_mod. Qed.
Lemma point_ref_scalar n : length (point_ref n) = 32%nat /\ bytes (point_ref n) /\ le_decode (point_ref n) = n mod ed25519_L.
Proof. split_and!; [apply length_point_ref|apply le_encode_bytes|apply le_point]. Qed.
Lemma add_mul_mod r h a : (r + h * (a mod ed25519_L)) mod ed25519_L = (r + h * a) mod ed25519_L.
Proof. rewrite <- (Zplus_mod_idemp_r (h * (a mod _))), Zmult_mod_idemp_r. apply Zplus_mod_idemp_r. Qed.
Lemma verify_ref r a s m : length s = 32%nat ->
  le_decode s = (r + le_decode (sha_ref (point_ref r ++ point_ref a ++ m)) * a) mod ed25519_L ->
  sign_verify_detached (Sodium := sodium_ref) (point_ref r ++ s) m (point_ref a) = true.
Proof.
  intros Hs E. cbn [sign_verify_detached sodium_ref]. apply Z.eqb_eq.
  rewrite <- (length_point_ref r) at 1 2 3. rewrite drop_app_length, !take_app_length, E, !le_point.
  by rewrite Z.add_mod_idemp_l, add_mul_mod by done.
Qed.
#[export] Instance sodium_ref_spec : SodiumSpec sodium_ref point_ref.
Proof.
  constructor.
  - intros n m k _ _. eexists. split; [done|apply length_le_encode].
  - intros a b Ha Hb. exists (le_encode 32 (byte_sum a * byte_sum b)). cbn [scalarmult_curve25519 scalarmult_curve25519_base sodium_ref].
    rewrite !take_app_le, !take_ge by lia. by rewrite (Z.mul_comm (byte_sum b)).
  - intros a. cbn [scalarmult_curve25519_base sodium_ref]. rewrite length_take, length_app. unfold zeros. rewrite length_replicate. lia.
  - intros n k. by eexists.
  - apply length_point_ref.
  - apply point_ref_mod.
  - intros m. apply length_le_encode.
  - intros m. apply le_encode_bytes.
  - done.
  - intros s m Hs. cbn [sign_seed_keypair sodium_ref]. set (pk := point_ref _). split.
    + cbn [sign_detached sodium_ref]. by rewrite length_app, length_point_ref, length_le_encode.
    + cbn [sign_detached sodium_ref]. change (drop 32 (s ++ pk)) with (seckey_topublic (s ++ pk)).
      rewrite topublic_app by done. subst pk. apply verify_ref; [apply length_le_encode|].
      set (a := le_decode (take _ _)). rewrite le_decode_encode.
      2:{ pose proof (Z.mod_pos_bound (1 + le_decode (sha_ref (point_ref 1 ++ point_ref a ++ m)) * le_decode (point_ref a)) ed25519_L eq_refl).
          change (256 ^ Z.of_nat 32) with (2 ^ 256). unfold ed25519_L in *. lia. }
      by rewrite le_point, add_mul_mod.
  - intros x _. apply point_ref_scalar.
  - intros x y. apply point_ref_scalar.
  - intros x y. apply point_ref_scalar.
  - intros n. apply length_point_ref.
  - done.
  - intros h a Hh _. cbn [scalarmult_ed25519 sodium_ref]. rewrite le_point, Z.mul_mod_idemp_r by done. by rewrite point_ref_mod.
  - intros r a s m Hs _ _. apply verify_ref, Hs.
  - intros n h E. apply (inj Some) in E. subst h. split; [apply length_le_encode|apply le_encode_bytes].
Qed.
Lemma secret_key_of_seed_witness :
  SecretKey_of_seed (SO := sodium_ref) (replicate 32 7) = identity_keygen (SO := sodium_ref) (replicate 32 7).
Proof. apply (secret_key_of_seed (SO := sodium_ref) (replicate 32 7) (replicate 64 7)); done. Defined.
