(* ===== verification/Frame.v ===== *)
(** * Encrypted buffers and frames (llarp/crypto/encrypted.hpp, encrypted_frame.hpp, encrypted_frame.cpp)

    The bytes of fixed capacity in which link messages carry payloads, and the frames that hold
    one record each of the setup of a path: a keyed hash, a nonce, a public key and the
    encrypted record. *)

From S2P Require Import Prelude Buffer Bencode Codec CryptoApi.

(** The byte at each place of an array that has no initialiser. *)
Class Uninit := uninit : nat -> Z.

(** ** [Encrypted<bufsz>]

    An object is the list of its [_sz] bytes. *)
Module Encrypted.
Definition Clear : list Z := [].
(** [Encrypted(const byte_t*, size_t)] and [Encrypted(size_t)] *)
Definition of_bytes (bufsz : nat) (l : list Z) : list Z := if (length l <=? bufsz)%nat then l else [].
Definition of_size (bufsz n : nat) : list Z := if (n <=? bufsz)%nat then zeros n else [].
(** [operator=(const llarp_buffer_t&)] keeps the old bytes when the new ones do not fit. *)
Definition assign (bufsz : nat) (old buf : list Z) : list Z := if (length buf <=? bufsz)%nat then buf else old.
Definition Fill (fill : Z) (e : list Z) : list Z := replicate (length e) fill.
Definition BEncode (e : list Z) : writer := bencode_write_bytestring e.
Definition BDecode (bufsz : nat) (b : llarp_buffer_t) : res (option (list Z) * llarp_buffer_t) :=
  let* (strbuf, b) := bencode_read_string b in
  match strbuf with
  | None => Ok (None, b)
  | Some str => if (bufsz <? sz str)%nat then Ok (None, b) else Ok (Some (mem str), b)
  end.
Definition bencodable (bufsz : nat) : BEncodable (list Z) := {| Bencode.BEncode := BEncode; Bencode.BDecode _ := BDecode bufsz |}.

Definition ok (bufsz : nat) (e : list Z) : Prop := (length e <= bufsz)%nat /\ str_ok e.
#[export] Instance encrypted_spec bufsz : @BEncodableSpec (list Z) (bencodable bufsz) enc_str (ok bufsz).
Proof.
  split.
  - intros s _. destruct (enc_str_head s) as (c & r & -> & Hc). eexists _, _. split; [done|]. by apply digit_not.
  - intros s _. apply writes_bytestring.
  - intros fuel s [Hn Hs] _ pre rest. cbn. unfold BDecode. rewrite read_string_reads by done. cbn [rbind]. unfold sz. cbn [mem].
    by rewrite (proj2 (Nat.ltb_ge _ _)).
Qed.
End Encrypted.
#[export] Existing Instance Encrypted.encrypted_spec.

(** ** [EncryptedFrame] *)
Module EncryptedFrame.
Definition EncryptedFrameBodySize : nat := 128 * 6.
Definition EncryptedFrameSize : nat := EncryptedFrameOverheadSize + EncryptedFrameBodySize.
(** [EncryptedFrame(size_t)] and the default constructor *)
Definition make (n : nat) : list Z := Encrypted.of_size EncryptedFrameSize (n `min` EncryptedFrameBodySize + EncryptedFrameOverheadSize).
Definition empty : list Z := make EncryptedFrameBodySize.
Definition frame_bencodable : BEncodable (list Z) := Encrypted.bencodable EncryptedFrameSize.

#[export] Instance frame_spec : @BEncodableSpec (list Z) frame_bencodable enc_str (Encrypted.ok EncryptedFrameSize) := Encrypted.encrypted_spec _.

(** The whole array of a frame. The constructors from a size above 0 fill the [_sz] bytes, and what
    is behind them is what the memory held before. *)
Definition _buf {UN : Uninit} (f : list Z) : list Z := f ++ map uninit (seq (length f) (EncryptedFrameSize - length f)).
(** The [n] bytes at [off], where [n] is a 64-bit size. *)
Definition region (off : nat) (n : Z) (l : list Z) : res (list Z) :=
  if Z.of_nat off + n <=? Z.of_nat (length l) then Ok (take (Z.to_nat n) (drop off l)) else Oob.
(** [size() - n] *)
Definition size_minus (n : nat) (f : list Z) : Z := u64 (Z.of_nat (length f) - Z.of_nat n).

Section crypto.
Context {UN : Uninit} {CR : Crypto} {KP : KeyPairs}.

(** [noise] is drawn when there was no key exchange: the nonce and the bytes in place of a key. *)
Definition DoEncrypt (noise : option (list Z * list Z)) (shared f : list Z) : res (bool * list Z) :=
  let m := _buf f in
  let* m := match noise with
            | Some (n, p) => let* m := poke SHORTHASHSIZE n m in poke (SHORTHASHSIZE + TUNNONCESIZE) p m
            | None => Ok m
            end in
  let* nonce := peek SHORTHASHSIZE TUNNONCESIZE m in
  let* body := region EncryptedFrameOverheadSize (size_minus EncryptedFrameOverheadSize f) m in
  match xchacha20 body shared nonce with
  | None => Ok (false, take (length f) m)
  | Some body =>
      let* m := poke EncryptedFrameOverheadSize body m in
      let* rest := region SHORTHASHSIZE (size_minus SHORTHASHSIZE f) m in
      match hmac rest shared with
      | None => Ok (false, take (length f) m)
      | Some hash => let* m := poke 0 hash m in Ok (true, take (length f) m)
      end
  end.
(** [nonce] is drawn. *)
Definition EncryptInPlace (ourSecretKey otherPubkey nonce f : list Z) : res (bool * list Z) :=
  let* m := poke (SHORTHASHSIZE + TUNNONCESIZE) (seckey_topublic ourSecretKey) (_buf f) in
  let* m := poke SHORTHASHSIZE nonce m in
  match dh_client otherPubkey ourSecretKey nonce with
  | None => Ok (false, take (length f) m)
  | Some shared => DoEncrypt None shared (take (length f) m)
  end.
Definition DoDecrypt (shared f : list Z) : res (bool * list Z) :=
  let m := _buf f in
  let* hash := peek 0 SHORTHASHSIZE m in
  let* nonce := peek SHORTHASHSIZE TUNNONCESIZE m in
  let* rest := region SHORTHASHSIZE (size_minus SHORTHASHSIZE f) m in
  match hmac rest shared with
  | None => Ok (false, f)
  | Some digest =>
      if negb (bool_decide (digest = hash)) then Ok (false, f)
      else
        let* body := region EncryptedFrameOverheadSize (size_minus EncryptedFrameOverheadSize f) m in
        match xchacha20 body shared nonce with
        | None => Ok (false, f)
        | Some body => let* m := poke EncryptedFrameOverheadSize body m in Ok (true, take (length f) m)
        end
  end.
Definition DecryptInPlace (ourSecretKey f : list Z) : res (bool * list Z) :=
  let* nonce := peek SHORTHASHSIZE TUNNONCESIZE (_buf f) in
  let* otherPubkey := peek (SHORTHASHSIZE + TUNNONCESIZE) PUBKEYSIZE (_buf f) in
  match dh_server otherPubkey ourSecretKey nonce with
  | None => Ok (false, f)
  | Some shared => DoDecrypt shared f
  end.
End crypto.
End EncryptedFrame.
Import EncryptedFrame.

(** * Frames large enough for the overhead *)
Module EncryptedFrameSpec.
Definition frame_ok (f : list Z) : Prop := (EncryptedFrameOverheadSize <= length f <= EncryptedFrameSize)%nat.
(** The four parts. *)
Lemma frame_parts f : frame_ok f -> exists h n p body, f = h ++ n ++ p ++ body /\ length h = 32%nat /\ length n = 32%nat /\ length p = 32%nat.
Proof.
  intros [Hf _]. exists (take 32 f), (take 32 (drop 32 f)), (take 32 (drop 64 f)), (drop 96 f).
  change EncryptedFrameOverheadSize with 96%nat in Hf. rewrite !length_take, !length_drop. split_and!; [|lia..].
  rewrite <- (take_drop 32 f) at 1. f_equal. rewrite <- (take_drop 32 (drop 32 f)) at 1. f_equal. rewrite drop_drop.
  rewrite <- (take_drop 32 (drop (32 + 32) f)) at 1. f_equal. by rewrite drop_drop.
Qed.
Lemma size_minus_ok n f : (n <= length f <= EncryptedFrameSize)%nat -> size_minus n f = Z.of_nat (length f - n).
Proof. intros Hn. unfold size_minus. rewrite wrap_id; [lia|]. unfold in_width. change EncryptedFrameSize with 864%nat in Hn. lia. Qed.
Lemma region_app off n a b c : off = length a -> n = Z.of_nat (length b) -> region off n (a ++ b ++ c) = Ok b.
Proof.
  intros -> ->. unfold region. rewrite (proj2 (Z.leb_le _ _)) by (rewrite !length_app; lia).
  by rewrite drop_app_length, Nat2Z.id, take_app_length.
Qed.

Lemma poke_head a c src : length src = length a -> poke 0 src (a ++ c) = Ok (src ++ c).
Proof. by apply (poke_app [] a c). Qed.
Lemma peek_head a c n : n = length a -> peek 0 n (a ++ c) = Ok a.
Proof. by apply (peek_app [] a c). Qed.
Ltac sizes := unfold EncryptedFrameOverheadSize, SHORTHASHSIZE, TUNNONCESIZE, PUBKEYSIZE in *; rewrite ?length_app; cbn [length]; lia.

Section runs.
Context {UN : Uninit} {CR : Crypto}.
Context (k : nat) (Hl : (96 + k <= EncryptedFrameSize)%nat).
Implicit Types (x y z b : list Z).
Abbreviation frame x y z b := (x ++ y ++ z ++ b).
Abbreviation tail := (map uninit (seq (96 + k) (EncryptedFrameSize - (96 + k)))).

Lemma frame_length x y z b : length x = 32%nat -> length y = 32%nat -> length z = 32%nat -> length (frame x y z b) = (96 + length b)%nat.
Proof using. clear k Hl. intros. rewrite !length_app. lia. Qed.
Lemma frame_buf x y z b : length x = 32%nat -> length y = 32%nat -> length z = 32%nat -> length b = k ->
  _buf (frame x y z b) = x ++ y ++ z ++ b ++ tail.
Proof. intros Hx Hy Hz Hb. unfold _buf. by rewrite (frame_length x y z b) by done; rewrite Hb, <- !app_assoc. Qed.
Lemma region_body x y z b : length x = 32%nat -> length y = 32%nat -> length z = 32%nat -> length b = k ->
  region EncryptedFrameOverheadSize (size_minus EncryptedFrameOverheadSize (frame x y z b)) (x ++ y ++ z ++ b ++ tail) = Ok b.
Proof using Hl.
  intros Hx Hy Hz Hb. pose proof (frame_length x y z b Hx Hy Hz) as El. change EncryptedFrameOverheadSize with 96%nat.
  rewrite size_minus_ok, El by lia. rewrite (app_assoc x), (app_assoc (x ++ y)). apply region_app; rewrite ?length_app; lia.
Qed.
Lemma region_rest x y z b : length x = 32%nat -> length y = 32%nat -> length z = 32%nat -> length b = k ->
  region SHORTHASHSIZE (size_minus SHORTHASHSIZE (frame x y z b)) (x ++ y ++ z ++ b ++ tail) = Ok (y ++ z ++ b).
Proof using Hl.
  intros Hx Hy Hz Hb. pose proof (frame_length x y z b Hx Hy Hz) as El. change SHORTHASHSIZE with 32%nat.
  rewrite size_minus_ok, El by lia. replace (y ++ z ++ b ++ tail) with ((y ++ z ++ b) ++ tail) by (by rewrite <- !app_assoc).
  apply region_app; rewrite ?length_app; lia.
Qed.
Lemma take_frame x y z b m : length x = 32%nat -> length y = 32%nat -> length z = 32%nat -> m = (96 + length b)%nat ->
  take m (x ++ y ++ z ++ b ++ tail) = frame x y z b.
Proof.
  intros Hx Hy Hz ->. rewrite <- (frame_length x y z b) by done. rewrite <- (take_app_length (frame x y z b) tail) at 2. by rewrite <- !app_assoc.
Qed.

(** The hash covers the rest, and the body is encrypted under the nonce of the frame. *)
Lemma DoEncrypt_run noise shared h n p body n' p' c hash :
  length h = 32%nat -> length n = 32%nat -> length p = 32%nat -> length body = k ->
  (match noise with Some (a, b) => n' = a /\ p' = b /\ length a = 32%nat /\ length b = 32%nat | None => n' = n /\ p' = p end) ->
  xchacha20 body shared n' = Some c -> length c = k -> hmac (n' ++ p' ++ c) shared = Some hash -> length hash = 32%nat ->
  DoEncrypt noise shared (frame h n p body) = Ok (true, frame hash n' p' c).
Proof using Hl.
  intros Hh Hn Hp Hb Hno Ec Hc Eh Hhash. unfold DoEncrypt. rewrite (frame_buf h n p body) by done.
  assert (match noise with
          | Some (a, b) => let* m := poke SHORTHASHSIZE a (h ++ n ++ p ++ body ++ tail) in poke (SHORTHASHSIZE + TUNNONCESIZE) b m
          | None => Ok (h ++ n ++ p ++ body ++ tail) end = Ok (h ++ n' ++ p' ++ body ++ tail) /\ length n' = 32%nat /\ length p' = 32%nat) as (-> & Hn' & Hp').
  { destruct noise as [[a b]|]; [|by destruct Hno as [-> ->]]. destruct Hno as (-> & -> & Ha & Hb').
    rewrite poke_app by sizes. cbn [rbind]. rewrite (app_assoc h), poke_app by sizes. by rewrite <- app_assoc. }
  cbn [rbind]. rewrite (peek_app h n') by sizes. cbn [rbind].
  assert (forall m, size_minus m (frame h n p body) = size_minus m (frame h n' p' body)) as Em.
  { intros m. unfold size_minus. by rewrite !frame_length. }
  rewrite !Em, region_body by done. cbn [rbind]. rewrite Ec.
  rewrite (app_assoc h), (app_assoc (h ++ n')), poke_app by sizes. cbn [rbind]. rewrite <- !app_assoc.
  assert (size_minus SHORTHASHSIZE (frame h n' p' body) = size_minus SHORTHASHSIZE (frame h n' p' c)) as -> by (unfold size_minus; rewrite !frame_length by done; congruence).
  rewrite region_rest by done. cbn [rbind]. rewrite Eh. rewrite poke_head by sizes. cbn [rbind]. do 2 f_equal.
  apply take_frame; [done..|]. rewrite frame_length by done. congruence.
Qed.
Lemma DoDecrypt_run shared hash n p c body :
  length hash = 32%nat -> length n = 32%nat -> length p = 32%nat -> length c = k ->
  hmac (n ++ p ++ c) shared = Some hash -> xchacha20 c shared n = Some body -> length body = k ->
  DoDecrypt shared (frame hash n p c) = Ok (true, frame hash n p body).
Proof using Hl.
  intros Hh Hn Hp Hc Eh Ec Hb. unfold DoDecrypt. rewrite (frame_buf hash n p c) by done.
  rewrite peek_head by sizes. cbn [rbind]. rewrite (peek_app hash n) by sizes. cbn [rbind].
  rewrite region_rest by done. cbn [rbind]. rewrite Eh, bool_decide_true by done. cbn [negb]. rewrite region_body by done. cbn [rbind]. rewrite Ec.
  rewrite (app_assoc hash), (app_assoc (hash ++ n)), poke_app by sizes. cbn [rbind]. rewrite <- !app_assoc. do 2 f_equal.
  apply take_frame; [done..|]. rewrite frame_length by done. congruence.
Qed.
End runs.

Section crypto.
Context {UN : Uninit} {CR : Crypto} {CS : CryptoSpec CR}.
Definition noise_ok (noise : option (list Z * list Z)) : Prop :=
  match noise with Some (n, p) => length n = 32%nat /\ length p = 32%nat | None => True end.
(** The nonce and the key that the encrypted frame shows. *)
Definition shown (noise : option (list Z * list Z)) (f : list Z) : list Z :=
  match noise with Some (n, p) => n ++ p | None => take 64 (drop 32 f) end.
Definition body (f : list Z) : list Z := drop EncryptedFrameOverheadSize f.

Lemma body_parts (h n p b : list Z) : length h = 32%nat -> length n = 32%nat -> length p = 32%nat -> body (h ++ n ++ p ++ b) = b.
Proof. intros Hh Hn Hp. unfold body. rewrite !app_assoc. by rewrite drop_app_length' by sizes. Qed.
Lemma shown_parts (h n p b : list Z) : length h = 32%nat -> length n = 32%nat -> length p = 32%nat -> take 64 (drop 32 (h ++ n ++ p ++ b)) = n ++ p.
Proof. intros Hh Hn Hp. by rewrite (drop_app_length' h), (app_assoc n), take_app_length' by sizes. Qed.

Lemma encrypt_decrypt noise shared f : frame_ok f -> noise_ok noise ->
  exists f' f'', DoEncrypt noise shared f = Ok (true, f') /\ length f' = length f /\ take 64 (drop 32 f') = shown noise f
    /\ DoDecrypt shared f' = Ok (true, f'') /\ length f'' = length f /\ body f'' = body f.
Proof using CS.
  intros Hf Hno. destruct (frame_parts f Hf) as (h & n & p & b & -> & Hh & Hn & Hp). destruct Hf as [_ Hf]. rewrite frame_length in Hf by done.
  set (n' := match noise with Some (a, _) => a | None => n end). set (p' := match noise with Some (_, c) => c | None => p end).
  assert (length n' = 32%nat /\ length p' = 32%nat) as [Hn' Hp'] by (destruct noise as [[]|]; done).
  destruct (xchacha20_spec b shared n') as (c & Ec & Lc & Ed). destruct (hmac_spec (n' ++ p' ++ c) shared) as (hash & Eh & Lh).
  exists (hash ++ n' ++ p' ++ c), (hash ++ n' ++ p' ++ b). split_and!.
  - apply (DoEncrypt_run (length b) Hf); [done..| |done|done|done|done]. by destruct noise as [[]|].
  - by rewrite !frame_length by done; rewrite Lc.
  - rewrite shown_parts by done. destruct noise as [[]|]; [done|]. cbn [shown]. by rewrite shown_parts.
  - by apply (DoDecrypt_run (length b) Hf).
  - by rewrite !frame_length.
  - by rewrite !body_parts.
Qed.

(** A record that a relay encrypts into a status frame with the secret of its hop is what the
    owner of the path, who has the same secret, decrypts. *)
Theorem status_frame_roundtrip n p shared f : length n = 32%nat -> length p = 32%nat -> frame_ok f ->
  exists f' f'', DoEncrypt (Some (n, p)) shared f = Ok (true, f') /\ length f' = length f
    /\ DoDecrypt shared f' = Ok (true, f'') /\ body f'' = body f.
Proof using CS. intros Hn Hp Hf. destruct (encrypt_decrypt (Some (n, p)) shared f Hf (conj Hn Hp)) as (f' & f'' & ? & ? & _ & ? & _ & ?). by exists f', f''. Qed.

Context {KP : KeyPairs} {KS : KeyPairsSpec CR KP}.
Lemma build_frame_run s t nonce f : length s = 32%nat -> length t = 32%nat -> length nonce = 32%nat -> frame_ok f ->
  exists f' f'', EncryptInPlace (encryption_keygen s) (seckey_topublic (encryption_keygen t)) nonce f = Ok (true, f') /\ length f' = length f
    /\ DecryptInPlace (encryption_keygen t) f' = Ok (true, f'') /\ length f'' = length f /\ body f'' = body f.
Proof using CS KS.
  intros Hs Ht Hno Hf. destruct (frame_parts f Hf) as (h & n & p & b & -> & Hh & Hn & Hp). pose proof Hf as [_ Hf']. rewrite frame_length in Hf' by done.
  pose proof (length_topublic _ (length_encryption_keygen s Hs)) as Hpk. set (pk := seckey_topublic (encryption_keygen s)) in *. change PUBKEYSIZE with 32%nat in Hpk.
  destruct (dh_agrees s t nonce Hs Ht) as (k & E1 & E2 & _). fold pk in E2.
  destruct (encrypt_decrypt None k (h ++ nonce ++ pk ++ b)) as (f' & f'' & H1 & H2 & H3 & H4 & H5 & H6); [|done|].
  { unfold frame_ok in *. rewrite frame_length in * by done. done. }
  cbn [shown] in H3. rewrite shown_parts in H3 by done. rewrite frame_length in H2, H5 by done. exists f', f''. rewrite frame_length by done.
  rewrite body_parts in * by done. split_and!; [|done| |done..].
  - unfold EncryptInPlace. rewrite (frame_buf (length b) h n p b) by done. fold pk.
    rewrite (app_assoc h), poke_app by sizes. cbn [rbind]. rewrite <- app_assoc, poke_app by sizes. cbn [rbind]. rewrite E1.
    by rewrite (take_frame (length b)) by (rewrite ?frame_length; done).
  - assert (frame_ok f') as Hf2 by (unfold frame_ok in *; rewrite H2; rewrite frame_length in * by done; done).
    destruct (frame_parts f' Hf2) as (h2 & n2 & p2 & b2 & -> & Hh2 & Hn2 & Hp2). rewrite shown_parts in H3 by done.
    apply app_inj_1 in H3 as [-> ->]; [|congruence]. unfold DecryptInPlace, _buf. set (z := map uninit _).
    rewrite <- (app_assoc h2), <- (app_assoc nonce), <- (app_assoc pk), (peek_app h2 nonce) by sizes. cbn [rbind].
    rewrite (app_assoc h2 nonce), (peek_app (h2 ++ nonce) pk) by sizes. cbn [rbind]. rewrite E2. exact H4.
Qed.
End crypto.

(** * Frames too short *)
Lemma size_minus_under n f : (length f < n)%nat -> Z.of_nat n < 2 ^ 32 -> size_minus n f = 2 ^ 64 + Z.of_nat (length f) - Z.of_nat n.
Proof.
  intros Hn Hb. unfold size_minus, wrap. rewrite <- (Z.mod_add _ 1), Z.mod_small; lia.
Qed.
Lemma region_under off n f l : (length f < n)%nat -> Z.of_nat n < 2 ^ 32 -> Z.of_nat (length l) < 2 ^ 32 -> region off (size_minus n f) l = Oob.
Proof. intros Hn Hb Hl. unfold region. rewrite size_minus_under by done. rewrite (proj2 (Z.leb_gt _ _)); [done|]. lia. Qed.
Lemma length_buf {UN : Uninit} f : (length f <= EncryptedFrameSize)%nat -> length (_buf f) = EncryptedFrameSize.
Proof. intros Hf. unfold _buf. rewrite length_app, length_map, length_seq. lia. Qed.

Lemma peek_buf {UN : Uninit} off n f : (length f <= EncryptedFrameSize)%nat -> (off + n <= EncryptedFrameOverheadSize)%nat -> peek off n (_buf f) = Ok (take n (drop off (_buf f))).
Proof.
  intros Hf Hn. unfold peek. rewrite length_buf by done. unfold EncryptedFrameSize. by rewrite (proj2 (Nat.leb_le _ _)) by lia.
Qed.
Lemma poke_total off src l : (off + length src <= length l)%nat -> exists l', poke off src l = Ok l' /\ length l' = length l.
Proof. intros H. unfold poke. rewrite (proj2 (Nat.leb_le _ _)) by done. eexists. split; [done|]. rewrite !length_app, length_take, length_drop. lia. Qed.

(** C32. A frame from the network may be shorter than the parts a frame has. A status frame of less
    than 32 bytes makes its reader hash memory far outside the frame; so does the decryption of a
    frame of 32 to 95 bytes whose hash is right, which a sender can compute. *)
Theorem short_frame_out_of_bounds {UN : Uninit} {CR : Crypto} {CS : CryptoSpec CR} shared f :
  (length f < EncryptedFrameOverheadSize)%nat ->
  ((length f < SHORTHASHSIZE)%nat -> DoDecrypt shared f = Oob)
  /\ ((SHORTHASHSIZE <= length f)%nat -> hmac (drop SHORTHASHSIZE f) shared = Some (take SHORTHASHSIZE f) -> DoDecrypt shared f = Oob)
  /\ forall noise, noise_ok noise -> DoEncrypt noise shared f = Oob.
Proof.
  intros Hf. change EncryptedFrameOverheadSize with 96%nat in Hf. assert (length f <= EncryptedFrameSize)%nat as Hf2 by (change EncryptedFrameSize with 864%nat; lia).
  pose proof (length_buf f Hf2) as Lb. split_and!.
  - intros Hs. unfold DoDecrypt. rewrite !peek_buf by (sizes || done). cbn [rbind].
    by rewrite region_under by (rewrite ?Lb; unfold SHORTHASHSIZE in *; done || lia).
  - intros Hs Eh. unfold DoDecrypt. rewrite !peek_buf by (sizes || done). cbn [rbind].
    assert (region SHORTHASHSIZE (size_minus SHORTHASHSIZE f) (_buf f) = Ok (drop SHORTHASHSIZE f)) as ->.
    { rewrite size_minus_ok by done. unfold _buf. rewrite <- (take_drop SHORTHASHSIZE f) at 2. rewrite <- app_assoc.
      apply region_app; [rewrite length_take|rewrite length_drop]; lia. }
    cbn [rbind]. rewrite Eh, (bool_decide_true (take _ _ = _)).
    2:{ unfold _buf. by rewrite drop_0, take_app_le by done. }
    cbn [negb]. by rewrite region_under by (rewrite ?Lb; done).
  - intros noise Hno. unfold DoEncrypt.
    assert (exists m, match noise with
      | Some (a, b) => let* m := poke SHORTHASHSIZE a (_buf f) in poke (SHORTHASHSIZE + TUNNONCESIZE) b m
      | None => Ok (_buf f) end = Ok m /\ length m = EncryptedFrameSize) as (m & -> & Lm).
    { destruct noise as [[a b]|]; [|by eexists]. destruct Hno as [Ha Hb]. change EncryptedFrameSize with 864%nat in *.
      destruct (poke_total SHORTHASHSIZE a (_buf f)) as (m1 & -> & L1); [unfold SHORTHASHSIZE; lia|]. cbn [rbind].
      destruct (poke_total (SHORTHASHSIZE + TUNNONCESIZE) b m1) as (m2 & -> & L2); [unfold SHORTHASHSIZE, TUNNONCESIZE; lia|]. exists m2. split; [done|lia]. }
    cbn [rbind]. unfold peek. rewrite Lm, (proj2 (Nat.leb_le _ _)) by (unfold EncryptedFrameSize, EncryptedFrameOverheadSize; sizes). cbn [rbind].
    by rewrite region_under by (rewrite ?Lm; done).
Qed.
End EncryptedFrameSpec.
Definition uninit_ref : Uninit := fun i => Z.of_nat i `mod` 256.
Lemma status_frame_roundtrip_witness :
  exists f', DoEncrypt (UN := uninit_ref) (CR := crypto_xor) (Some (replicate 32 1, replicate 32 2)) (replicate 32 3) EncryptedFrame.empty = Ok (true, f').
Proof.
  destruct (EncryptedFrameSpec.status_frame_roundtrip (UN := uninit_ref) (CR := crypto_xor) (replicate 32 1) (replicate 32 2) (replicate 32 3) EncryptedFrame.empty)
    as (f' & _ & H & _); [done|done|split; apply Nat.leb_le; vm_compute; reflexivity|]. by exists f'.
Defined.
Lemma short_frame_out_of_bounds_witness : DoDecrypt (UN := uninit_ref) (CR := crypto_xor) (replicate 32 3) (replicate 20 7) = Oob.
Proof.
  destruct (EncryptedFrameSpec.short_frame_out_of_bounds (UN := uninit_ref) (CR := crypto_xor) (replicate 32 3) (replicate 20 7)) as [H _]; [apply Nat.ltb_lt; reflexivity|].
  apply H. apply Nat.ltb_lt. reflexivity.
Defined.
