(* ===== verification/QueueManager.v ===== *)
(** * The lock-free queue (llarp/util/thread/queue_manager.cpp, queue.hpp)

    [QueueManager] keeps a push index, a pop index and one state word per cell of a
    circular buffer. Every member function that loops over atomics is a state machine
    whose transitions perform one atomic access each ([push_step], [pop_step],
    [clear_step]): run alone they give the sequential meaning of the function, and
    interleaved (file QueueConcurrent) the concurrent one. The atomics are taken to be
    sequentially consistent, and an access to [m_states] outside its bounds is [Oob]. *)

From S2P Require Import Prelude.

Inductive ElementState := Empty | Writing | Full | Reading.

Inductive QueueReturn := Success | QueueDisabled | QueueEmpty | QueueFull.

#[export] Instance ElementState_eq_dec : EqDecision ElementState.
Proof. solve_decision. Defined.
#[export] Instance QueueReturn_eq_dec : EqDecision QueueReturn.
Proof. solve_decision. Defined.

Definition to_underlying (e : ElementState) : Z :=
  match e with Empty => 0 | Writing => 1 | Full => 2 | Reading => 3 end.

Definition GENERATION_COUNT_SHIFT := 2.
Definition NUM_ELEMENT_GENERATIONS := Z.shiftl 1 (4 * 8 - 2).
Definition ELEMENT_STATE_MASK := 3.
Definition DISABLED_STATE_MASK := Z.shiftl 1 (4 * 8 - 1).
Definition NUM_COMBINED_INDEXES := DISABLED_STATE_MASK.
Definition MAX_CAPACITY := Z.shiftl 1 (4 * 8 - 2).

Definition isDisabledFlagSet (encodedIndex : Z) : bool :=
  negb (Z.land encodedIndex DISABLED_STATE_MASK =? 0).

Definition discardDisabledFlag (encodedIndex : Z) : Z :=
  Z.land encodedIndex (u32 (Z.lnot DISABLED_STATE_MASK)).

Definition encodeElement (generation : Z) (state : ElementState) : Z :=
  Z.lor (u32 (Z.shiftl generation GENERATION_COUNT_SHIFT)) (to_underlying state).

Definition decodeGenerationFromElementState (state : Z) : Z :=
  Z.shiftr state GENERATION_COUNT_SHIFT.

Definition decodeStateFromElementState (state : Z) : ElementState :=
  match Z.land state ELEMENT_STATE_MASK with
  | 0 => Empty | 1 => Writing | 2 => Full | _ => Reading
  end.

Record QueueManager := {
  m_pushIndex : Z;
  m_popIndex : Z;
  m_capacity : Z;
  m_maxGeneration : Z;
  m_maxCombinedIndex : Z;
  m_states : list Z;
}.

Definition set_push (v : Z) (m : QueueManager) : QueueManager :=
  {| m_pushIndex := v; m_popIndex := m_popIndex m; m_capacity := m_capacity m;
     m_maxGeneration := m_maxGeneration m; m_maxCombinedIndex := m_maxCombinedIndex m;
     m_states := m_states m |}.
Definition set_pop (v : Z) (m : QueueManager) : QueueManager :=
  {| m_pushIndex := m_pushIndex m; m_popIndex := v; m_capacity := m_capacity m;
     m_maxGeneration := m_maxGeneration m; m_maxCombinedIndex := m_maxCombinedIndex m;
     m_states := m_states m |}.
Definition set_state (i v : Z) (m : QueueManager) : QueueManager :=
  {| m_pushIndex := m_pushIndex m; m_popIndex := m_popIndex m; m_capacity := m_capacity m;
     m_maxGeneration := m_maxGeneration m; m_maxCombinedIndex := m_maxCombinedIndex m;
     m_states := <[Z.to_nat i := v]> (m_states m) |}.

(** The value of [m_states[i]], for an index within bounds. *)
Definition cell (m : QueueManager) (i : Z) : Z := m_states m !!! Z.to_nat i.
Definition in_states (m : QueueManager) (i : Z) : bool := (0 <=? i) && (i <? Z.of_nat (length (m_states m))).

(** [m_states[i] = v] *)
Definition store_state (i v : Z) (m : QueueManager) : res QueueManager :=
  if in_states m i then Ok (set_state i v m) else Oob.

(** [compare_exchange_strong]: whether it succeeded and the value left in [expected]. *)
Definition cas_state (i expected desired : Z) (m : QueueManager) : res (bool * Z * QueueManager) :=
  if in_states m i then
    Ok (if cell m i =? expected then (true, expected, set_state i desired m) else (false, cell m i, m))
  else Oob.
Definition cas_push (expected desired : Z) (m : QueueManager) : bool * Z * QueueManager :=
  if m_pushIndex m =? expected then (true, expected, set_push desired m)
  else (false, m_pushIndex m, m).
Definition cas_pop (expected desired : Z) (m : QueueManager) : bool * Z * QueueManager :=
  if m_popIndex m =? expected then (true, expected, set_pop desired m)
  else (false, m_popIndex m, m).

Definition nextCombinedIndex (m : QueueManager) (index : Z) : Z :=
  if m_maxCombinedIndex m =? index then 0 else u32 (index + 1).

Definition nextGeneration (m : QueueManager) (generation : Z) : Z :=
  if m_maxGeneration m =? generation then 0 else u32 (generation + 1).

Definition capacity (m : QueueManager) : Z := m_capacity m.

(** [int32_t] arithmetic; [difference - modulo] is unsigned and converted back. *)
Definition circularDifference (startingValue subtractValue modulo : Z) : Z :=
  let difference := i32 (startingValue - subtractValue) in
  if i32 (modulo / 2) <? difference then i32 (difference - modulo)
  else if difference <? - i32 (modulo / 2) then i32 (difference + modulo)
  else difference.

Definition numGenerations (capacity : Z) : Z :=
  u32 (Z.min (NUM_COMBINED_INDEXES / capacity) NUM_ELEMENT_GENERATIONS).

(** The constructor. *)
Definition newQueueManager (capacity : Z) : QueueManager :=
  {| m_pushIndex := 0; m_popIndex := 0; m_capacity := capacity;
     m_maxGeneration := u32 (numGenerations capacity - 1);
     m_maxCombinedIndex := u32 (numGenerations capacity * u32 capacity - 1);
     m_states := replicate (Z.to_nat capacity) 0 |}.

(** ** reservePushIndex *)
Inductive push_pc :=
| PushStart
| PushTop (loadedPushIndex savedPushIndex : Z)
| PushReload (savedPushIndex : Z)
| PushBump (combinedIndex savedPushIndex : Z)
| PushGot (combinedIndex generation index : Z)
| PushRet (r : QueueReturn) (generation index : Z).

(** [difference == 1 || difference == -m_maxGeneration] *)
Definition prev_generation (m : QueueManager) (currGen elemGen : Z) : bool :=
  let difference := i32 (currGen - elemGen) in
  (difference =? 1) || (difference =? - i32 (m_maxGeneration m)).

Definition push_step (m : QueueManager) (pc : push_pc) : res (QueueManager * push_pc) :=
  match pc with
  | PushStart => Ok (m, PushTop (m_pushIndex m) (u32 (-1)))
  | PushTop loadedPushIndex savedPushIndex =>
      if isDisabledFlagSet loadedPushIndex then Ok (m, PushRet QueueDisabled 0 0)
      else
        let combinedIndex := discardDisabledFlag loadedPushIndex in
        let currGen := u32 (combinedIndex / m_capacity m) in
        let currIdx := u32 (combinedIndex mod m_capacity m) in
        let* (swapped, compare, m) :=
          cas_state currIdx (encodeElement currGen Empty) (encodeElement currGen Writing) m in
        if swapped : bool then Ok (m, PushGot combinedIndex currGen currIdx)
        else
          let elemGen := decodeGenerationFromElementState compare in
          if prev_generation m currGen elemGen then
            if decide (decodeStateFromElementState compare = Reading) then
              Ok (m, PushReload savedPushIndex)
            else if negb (savedPushIndex =? loadedPushIndex) then
              Ok (m, PushReload loadedPushIndex)
            else Ok (m, PushRet QueueFull 0 0)
          else Ok (m, PushBump combinedIndex savedPushIndex)
  | PushReload savedPushIndex => Ok (m, PushTop (m_pushIndex m) savedPushIndex)
  | PushBump combinedIndex savedPushIndex =>
      let '(_, combinedIndex, m) :=
        cas_push combinedIndex (nextCombinedIndex m combinedIndex) m in
      Ok (m, PushTop combinedIndex savedPushIndex)
  | PushGot combinedIndex generation index =>
      let '(_, _, m) := cas_push combinedIndex (nextCombinedIndex m combinedIndex) m in
      Ok (m, PushRet Success generation index)
  | PushRet _ _ _ => Ok (m, pc)
  end.

Definition commitPushIndex (m : QueueManager) (generation index : Z) : res QueueManager :=
  store_state index (encodeElement generation Full) m.

(** ** reservePopIndex *)
Inductive pop_pc :=
| PopStart
| PopTop (loadedPopIndex savedPopIndex : Z)
| PopReload (savedPopIndex : Z)
| PopBump (loadedPopIndex savedPopIndex : Z)
| PopGot (loadedPopIndex generation index : Z)
| PopRet (r : QueueReturn) (generation index : Z).

Definition pop_step (m : QueueManager) (pc : pop_pc) : res (QueueManager * pop_pc) :=
  match pc with
  | PopStart => Ok (m, PopTop (m_popIndex m) (u32 (-1)))
  | PopTop loadedPopIndex savedPopIndex =>
      let currGen := u32 (loadedPopIndex / m_capacity m) in
      let currIdx := u32 (loadedPopIndex mod m_capacity m) in
      let* (swapped, compare, m) :=
        cas_state currIdx (encodeElement currGen Full) (encodeElement currGen Reading) m in
      if swapped : bool then Ok (m, PopGot loadedPopIndex currGen currIdx)
      else
        let elemGen := decodeGenerationFromElementState compare in
        let state := decodeStateFromElementState compare in
        let difference := i32 (currGen - elemGen) in
        if prev_generation m currGen elemGen then Ok (m, PopRet QueueEmpty 0 0)
        else if (difference =? 0) && bool_decide (state = Empty) then
          if negb (savedPopIndex =? loadedPopIndex) then Ok (m, PopReload loadedPopIndex)
          else Ok (m, PopRet QueueEmpty 0 0)
        else if negb (difference =? 0) || bool_decide (state = Writing) then
          Ok (m, PopReload savedPopIndex)
        else Ok (m, PopBump loadedPopIndex savedPopIndex)
  | PopReload savedPopIndex => Ok (m, PopTop (m_popIndex m) savedPopIndex)
  | PopBump loadedPopIndex savedPopIndex =>
      let '(_, loadedPopIndex, m) :=
        cas_pop loadedPopIndex (nextCombinedIndex m loadedPopIndex) m in
      Ok (m, PopTop loadedPopIndex savedPopIndex)
  | PopGot loadedPopIndex generation index =>
      let '(_, _, m) := cas_pop loadedPopIndex (nextCombinedIndex m loadedPopIndex) m in
      Ok (m, PopRet Success generation index)
  | PopRet _ _ _ => Ok (m, pc)
  end.

Definition commitPopIndex (m : QueueManager) (generation index : Z) : res QueueManager :=
  store_state index (encodeElement (nextGeneration m generation) Empty) m.

(** ** reservePopForClear and abortPushIndexReservation *)
Inductive clear_pc :=
| ClearStart
| ClearTop (loadedCombinedIndex : Z)
| ClearReload
| ClearBump (loadedCombinedIndex : Z)
| ClearGot (loadedCombinedIndex generation index : Z)
| ClearRet (reserved : bool) (generation index : Z).

Definition clear_step (endGeneration endIndex : Z) (m : QueueManager) (pc : clear_pc)
  : res (QueueManager * clear_pc) :=
  match pc with
  | ClearStart => Ok (m, ClearTop (m_popIndex m))
  | ClearTop loadedCombinedIndex =>
      let endCombinedIndex := u32 (endGeneration * u32 (m_capacity m) + endIndex) in
      if circularDifference endCombinedIndex loadedCombinedIndex (u32 (m_maxCombinedIndex m + 1)) =? 0
      then Ok (m, ClearRet false 0 0)
      else
        let currIdx := u32 (loadedCombinedIndex mod m_capacity m) in
        let currGen := u32 (loadedCombinedIndex / m_capacity m) in
        let* (swapped, compare, m) :=
          cas_state currIdx (encodeElement currGen Full) (encodeElement currGen Reading) m in
        if swapped : bool then Ok (m, ClearGot loadedCombinedIndex currGen currIdx)
        else
          let state := decodeStateFromElementState compare in
          if bool_decide (state = Writing) || bool_decide (state = Full) then Ok (m, ClearReload)
          else Ok (m, ClearBump loadedCombinedIndex)
  | ClearReload => Ok (m, ClearTop (m_popIndex m))
  | ClearBump loadedCombinedIndex =>
      let '(_, loadedCombinedIndex, m) :=
        cas_pop loadedCombinedIndex (nextCombinedIndex m loadedCombinedIndex) m in
      Ok (m, ClearTop loadedCombinedIndex)
  | ClearGot loadedCombinedIndex generation index =>
      let '(_, _, m) := cas_pop loadedCombinedIndex (nextCombinedIndex m loadedCombinedIndex) m in
      Ok (m, ClearRet true generation index)
  | ClearRet _ _ _ => Ok (m, pc)
  end.

Definition abortPushIndexReservation (m : QueueManager) (generation index : Z) : res QueueManager :=
  let loadedPopIndex := m_popIndex m in
  let* m := store_state index (encodeElement generation Reading) m in
  let '(_, _, m) := cas_pop loadedPopIndex (nextCombinedIndex m loadedPopIndex) m in
  store_state index (encodeElement (nextGeneration m generation) Empty) m.

(** ** disable, enable and the accessors

    Run alone, the first compare-exchange of [disable] and [enable] succeeds. *)
Definition disable (m : QueueManager) : QueueManager :=
  let index := m_pushIndex m in
  if isDisabledFlagSet index then m
  else snd (cas_push index (Z.lor index DISABLED_STATE_MASK) m).

Definition enable (m : QueueManager) : QueueManager :=
  let index := m_pushIndex m in
  if negb (isDisabledFlagSet index) then m
  else snd (cas_push index (Z.land index (u32 (Z.lnot DISABLED_STATE_MASK))) m).

Definition size (m : QueueManager) : Z :=
  let combinedPushIndex := discardDisabledFlag (m_pushIndex m) in
  let combinedPopIndex := m_popIndex m in
  let difference := i32 (combinedPushIndex - combinedPopIndex) in
  if 0 <=? difference then
    if i32 (m_capacity m) <? difference then 0 else difference
  else if difference <? - i32 (m_maxCombinedIndex m / 2) then
    Z.min (i32 (difference + (m_maxCombinedIndex m + 1))) (m_capacity m)
  else 0.

Definition enabled (m : QueueManager) : bool := negb (isDisabledFlagSet (m_pushIndex m)).

(** ** Sequential runs: a state machine stepped until it returns *)
Section run.
Context {pc : Type} (step : QueueManager -> pc -> res (QueueManager * pc)).
Context {R : Type} (returned : pc -> option R).

Fixpoint run (fuel : nat) (m : QueueManager) (p : pc) : res (R * QueueManager) :=
  match returned p with
  | Some r => Ok (r, m)
  | None => match fuel with
            | O => NoFuel
            | S f => let* (m, p) := step m p in run f m p
            end
  end.
End run.

Definition push_returned (p : push_pc) : option (QueueReturn * Z * Z) :=
  match p with PushRet r g i => Some (r, g, i) | _ => None end.
Definition pop_returned (p : pop_pc) : option (QueueReturn * Z * Z) :=
  match p with PopRet r g i => Some (r, g, i) | _ => None end.
Definition clear_returned (p : clear_pc) : option (bool * Z * Z) :=
  match p with ClearRet r g i => Some (r, g, i) | _ => None end.

Definition reservePushIndex (fuel : nat) (m : QueueManager) :=
  run push_step push_returned fuel m PushStart.
Definition reservePopIndex (fuel : nat) (m : QueueManager) :=
  run pop_step pop_returned fuel m PopStart.
Definition reservePopForClear (fuel : nat) (endGeneration endIndex : Z) (m : QueueManager) :=
  run (clear_step endGeneration endIndex) clear_returned fuel m ClearStart.

(** ** Encodings *)
Lemma encodeElement_eq g s :
  0 <= g < 2 ^ 30 -> encodeElement g s = 4 * g + to_underlying s.
Proof.
  intros Hg. unfold encodeElement, GENERATION_COUNT_SHIFT.
  rewrite Z.shiftl_mul_pow2 by lia. change (2 ^ 2) with 4.
  rewrite wrap_id by (unfold in_width; lia).
  pose proof (Z.add_lor_land (g * 4) (to_underlying s)) as H.
  assert (Z.land (g * 4) (to_underlying s) = 0) as H0; [|lia].
  assert (to_underlying s = Z.land (Z.ones 2) (to_underlying s)) as -> by (by destruct s).
  rewrite Z.land_assoc, Z.land_ones by lia. change (2 ^ 2) with 4.
  by rewrite Z.mod_mul, Z.land_0_l by lia.
Qed.

Lemma to_underlying_bound s : 0 <= to_underlying s < 4.
Proof. destruct s; simpl; lia. Qed.

Lemma decode_encode_generation g s :
  0 <= g < 2 ^ 30 -> decodeGenerationFromElementState (encodeElement g s) = g.
Proof.
  intros Hg. rewrite encodeElement_eq by done. pose proof (to_underlying_bound s).
  unfold decodeGenerationFromElementState, GENERATION_COUNT_SHIFT.
  rewrite Z.shiftr_div_pow2 by lia. change (2 ^ 2) with 4.
  rewrite Z.mul_comm, Z.div_add_l, Z.div_small by lia. lia.
Qed.

Lemma decode_encode_state g s :
  0 <= g < 2 ^ 30 -> decodeStateFromElementState (encodeElement g s) = s.
Proof.
  intros Hg. rewrite encodeElement_eq by done. pose proof (to_underlying_bound s).
  unfold decodeStateFromElementState, ELEMENT_STATE_MASK. change 3 with (Z.ones 2).
  rewrite Z.land_ones by lia. change (2 ^ 2) with 4.
  rewrite Z.add_comm, Z.mul_comm, Z.mod_add, Z.mod_small by lia. by destruct s.
Qed.

Lemma encodeElement_inj g s g' s' :
  0 <= g < 2 ^ 30 -> 0 <= g' < 2 ^ 30 -> encodeElement g s = encodeElement g' s' -> g = g' /\ s = s'.
Proof.
  intros Hg Hg' H. split.
  - by rewrite <- (decode_encode_generation g s), H, decode_encode_generation.
  - by rewrite <- (decode_encode_state g s), H, decode_encode_state.
Qed.

Lemma encodeElement_eqb g s g' s' :
  0 <= g < 2 ^ 30 -> 0 <= g' < 2 ^ 30 ->
  (encodeElement g s =? encodeElement g' s') = bool_decide (g = g' /\ s = s').
Proof.
  intros Hg Hg'. case_bool_decide as H.
  - destruct H as [-> ->]. apply Z.eqb_refl.
  - apply Z.eqb_neq. intros ?%encodeElement_inj; done.
Qed.

Lemma discard_eq x : discardDisabledFlag x = x mod 2 ^ 31.
Proof. unfold discardDisabledFlag. change (u32 _) with (Z.ones 31). apply Z.land_ones. lia. Qed.

Lemma flag_eq x : 0 <= x -> Z.land x DISABLED_STATE_MASK = 2 ^ 31 * ((x / 2 ^ 31) mod 2).
Proof.
  intros Hx. change DISABLED_STATE_MASK with (2 ^ 31). apply Z.bits_inj'. intros n Hn.
  rewrite Z.land_spec, Z.pow2_bits_eqb, Z.mul_comm, Z.mul_pow2_bits by lia.
  destruct (Z.eqb_spec 31 n) as [<-|Hne].
  - rewrite andb_true_r. change (31 - 31) with 0. rewrite Z.bit0_odd, <- Z.testbit_spec' by lia.
    by destruct (Z.testbit x 31).
  - rewrite andb_false_r. destruct (decide (n < 31)); [by rewrite Z.testbit_neg_r by lia|].
    change 2 with (2 ^ 1). by rewrite Z.mod_pow2_bits_high by lia.
Qed.

Lemma isDisabledFlagSet_low x : 0 <= x < 2 ^ 31 -> isDisabledFlagSet x = false.
Proof. intros Hx. unfold isDisabledFlagSet. rewrite flag_eq, Z.div_small by lia. done. Qed.

Lemma isDisabledFlagSet_high x : 0 <= x < 2 ^ 31 -> isDisabledFlagSet (x + 2 ^ 31) = true.
Proof.
  intros Hx. unfold isDisabledFlagSet. rewrite flag_eq by lia.
  replace (x + 2 ^ 31) with (x + 1 * 2 ^ 31) by lia. by rewrite Z.div_add, Z.div_small by lia.
Qed.

Lemma lor_flag x : 0 <= x < 2 ^ 31 -> Z.lor x DISABLED_STATE_MASK = x + 2 ^ 31.
Proof.
  intros Hx. pose proof (Z.add_lor_land x DISABLED_STATE_MASK) as H.
  rewrite flag_eq, (Z.div_small x) in H by lia. change DISABLED_STATE_MASK with (2 ^ 31) in *.
  rewrite Z.mod_0_l in H by lia. lia.
Qed.

(** ** The representation invariant of the idle queue

    Two counters that never wrap, [h] elements popped and [t] elements pushed, determine
    the whole state: the indexes are their residues modulo the number of combined
    indexes, cell [n mod capacity] is full with the generation of [n] for the elements
    between them, and empty with the generation of the next lap for the others. *)
Definition numCombined (cap : Z) : Z := numGenerations cap * cap.
Definition generation (cap n : Z) : Z := (n / cap) mod numGenerations cap.

Definition flag (disabled : bool) : Z := if disabled then 2 ^ 31 else 0.

Record rep (m : QueueManager) (h t : Z) (disabled : bool) : Prop := {
  rep_cap : 0 < m_capacity m <= MAX_CAPACITY;
  rep_gen : m_maxGeneration m = numGenerations (m_capacity m) - 1;
  rep_comb : m_maxCombinedIndex m = numCombined (m_capacity m) - 1;
  rep_len : Z.of_nat (length (m_states m)) = m_capacity m;
  rep_range : 0 <= h <= t /\ t <= h + m_capacity m;
  rep_push : m_pushIndex m = t mod numCombined (m_capacity m) + flag disabled;
  rep_pop : m_popIndex m = h mod numCombined (m_capacity m);
  rep_full n : h <= n < t ->
    cell m (n mod m_capacity m) = encodeElement (generation (m_capacity m) n) Full;
  rep_empty n : t <= n < h + m_capacity m ->
    cell m (n mod m_capacity m) = encodeElement (generation (m_capacity m) n) Empty;
}.

Lemma numGenerations_spec cap :
  0 < cap <= MAX_CAPACITY -> 2 <= numGenerations cap <= 2 ^ 30 /\ numCombined cap <= 2 ^ 31.
Proof.
  unfold numCombined, numGenerations, MAX_CAPACITY, NUM_COMBINED_INDEXES, NUM_ELEMENT_GENERATIONS,
    DISABLED_STATE_MASK.
  change (Z.shiftl 1 (4 * 8 - 2)) with (2 ^ 30). change (Z.shiftl 1 (4 * 8 - 1)) with (2 ^ 31).
  intros Hc. assert (2 <= 2 ^ 31 / cap) by (apply Z.div_le_lower_bound; lia).
  rewrite wrap_id by (unfold in_width; lia).
  pose proof (Z.mul_div_le (2 ^ 31) cap). split; [lia|]. nia.
Qed.

Section arithmetic.
Context (cap : Z) (Hcap : 0 < cap <= MAX_CAPACITY).

Let HN := numGenerations_spec cap Hcap.

Lemma combined_pos : 0 < numCombined cap <= 2 ^ 31.
Proof using Hcap. pose proof HN. unfold numCombined in *. nia. Qed.

Lemma combined_bound n : 0 <= n mod numCombined cap < numCombined cap.
Proof using Hcap. apply Z.mod_pos_bound. pose proof combined_pos. lia. Qed.

Lemma generation_bound n : 0 <= generation cap n < numGenerations cap.
Proof using Hcap. apply Z.mod_pos_bound. pose proof HN. lia. Qed.

Lemma generation_bound30 n : 0 <= generation cap n < 2 ^ 30.
Proof using Hcap. pose proof (generation_bound n). pose proof HN. lia. Qed.

Lemma combined_div n : (n mod numCombined cap) / cap = generation cap n.
Proof using Hcap.
  pose proof HN. unfold numCombined, generation. rewrite Z.mul_comm, Z.rem_mul_r by lia.
  rewrite Z.mul_comm, Z.div_add, Z.div_small by (try apply Z.mod_pos_bound; lia). lia.
Qed.

Lemma combined_mod n : (n mod numCombined cap) mod cap = n mod cap.
Proof using Hcap.
  pose proof HN. unfold numCombined. rewrite Z.mul_comm, Z.rem_mul_r by lia.
  rewrite Z.mul_comm, Z.mod_add, Z.mod_mod by lia. done.
Qed.

Lemma generation_lap n : generation cap (n + cap) = (generation cap n + 1) mod numGenerations cap.
Proof using Hcap.
  pose proof HN. unfold generation. replace (n + cap) with (n + 1 * cap) by lia.
  rewrite Z.div_add, Z.add_mod_idemp_l by lia. done.
Qed.

Lemma generation_lap_cases n :
  (generation cap n + 1 < numGenerations cap /\ generation cap (n + cap) = generation cap n + 1) \/
  (generation cap n = numGenerations cap - 1 /\ generation cap (n + cap) = 0).
Proof using Hcap.
  pose proof (generation_bound n). rewrite generation_lap.
  destruct (decide (generation cap n + 1 < numGenerations cap)).
  - left. split; [done|]. apply Z.mod_small. lia.
  - right. split; [lia|].
    replace (generation cap n + 1) with (numGenerations cap) by lia. apply Z.mod_same. lia.
Qed.

Lemma slot_inj n k : n <> k -> Z.abs (n - k) < cap -> n mod cap <> k mod cap.
Proof using Hcap.
  intros Hne Hlt Heq. pose proof (Z.div_mod n cap). pose proof (Z.div_mod k cap).
  assert (exists q, n - k = cap * q) as [q Hq] by (exists (n / cap - k / cap); lia).
  assert (q <= -1 \/ q = 0 \/ 1 <= q) as [|[->|]] by lia; nia.
Qed.

Lemma slot_bound n : 0 <= n mod cap < cap.
Proof using Hcap. apply Z.mod_pos_bound. lia. Qed.

Lemma slot_lap n : (n + cap) mod cap = n mod cap.
Proof using Hcap. replace (n + cap) with (n + 1 * cap) by lia. apply Z.mod_add. lia. Qed.

Lemma combined_succ n :
  (if numCombined cap - 1 =? n mod numCombined cap then 0 else u32 (n mod numCombined cap + 1))
  = (n + 1) mod numCombined cap.
Proof using Hcap.
  pose proof (combined_bound n). pose proof combined_pos.
  rewrite <- Z.add_mod_idemp_l by lia.
  destruct (Z.eqb_spec (numCombined cap - 1) (n mod numCombined cap)) as [He|He].
  - replace (n mod numCombined cap + 1) with (numCombined cap) by lia. by rewrite Z.mod_same by lia.
  - rewrite (Z.mod_small (n mod numCombined cap + 1)), wrap_id by (unfold in_width; lia). done.
Qed.
End arithmetic.

Lemma in_states_ok m i : 0 <= i < Z.of_nat (length (m_states m)) -> in_states m i = true.
Proof. intros [??]. unfold in_states. by rewrite (proj2 (Z.leb_le _ _)), (proj2 (Z.ltb_lt _ _)). Qed.
Lemma store_state_ok m i v : 0 <= i < Z.of_nat (length (m_states m)) -> store_state i v m = Ok (set_state i v m).
Proof. intros Hi. unfold store_state. by rewrite in_states_ok. Qed.
Lemma cas_state_ok m i e d :
  0 <= i < Z.of_nat (length (m_states m)) ->
  cas_state i e d m = Ok (if cell m i =? e then (true, e, set_state i d m) else (false, cell m i, m)).
Proof. intros Hi. unfold cas_state. by rewrite in_states_ok. Qed.

Lemma cell_set_eq m i v :
  0 <= i < Z.of_nat (length (m_states m)) -> cell (set_state i v m) i = v.
Proof. intros Hi. unfold cell; cbn. apply list_lookup_total_insert_eq. lia. Qed.

Lemma cell_set_ne m i j v : 0 <= i -> 0 <= j -> i <> j -> cell (set_state i v m) j = cell m j.
Proof. intros. unfold cell; cbn. apply list_lookup_total_insert_ne. lia. Qed.

(** The constructor establishes the invariant. *)
Lemma newQueueManager_rep cap : 0 < cap <= MAX_CAPACITY -> rep (newQueueManager cap) 0 0 false.
Proof.
  intros Hc. destruct (numGenerations_spec cap Hc) as [[??]?]. pose proof (combined_pos cap Hc).
  change MAX_CAPACITY with (2 ^ 30) in *. unfold numCombined in *.
  assert (cap < 2 ^ 32 /\ 0 <= cap) by lia.
  split; cbn.
  - done.
  - apply wrap_id. unfold in_width. lia.
  - rewrite (wrap_id 32 cap) by (unfold in_width; lia). apply wrap_id. unfold in_width, numCombined. lia.
  - rewrite length_replicate. lia.
  - lia.
  - done.
  - done.
  - lia.
  - intros n Hn. unfold cell; cbn. rewrite lookup_total_replicate_2 by (pose proof (slot_bound cap Hc n); lia).
    unfold generation. rewrite (Z.div_small n cap), Z.mod_0_l by lia. done.
Qed.

(** ** The geometry every state of a queue shares *)
Record geom (m : QueueManager) : Prop := {
  g_cap : 0 < m_capacity m <= MAX_CAPACITY;
  g_gen : m_maxGeneration m = numGenerations (m_capacity m) - 1;
  g_comb : m_maxCombinedIndex m = numCombined (m_capacity m) - 1;
  g_len : Z.of_nat (length (m_states m)) = m_capacity m;
}.

Lemma rep_geom m h t dis : rep m h t dis -> geom m.
Proof. intros R. split; apply R. Qed.

Section geometry.
Context (m : QueueManager) (G : geom m).

#[local] Abbreviation cap := (m_capacity m).
Let Hcap : 0 < cap <= MAX_CAPACITY := g_cap _ G.

Lemma cap30 : 0 < cap <= 2 ^ 30.
Proof using G. exact Hcap. Qed.

Lemma index_gen n : u32 (n mod numCombined cap / cap) = generation cap n.
Proof using G.
  rewrite combined_div by apply Hcap. pose proof (generation_bound30 cap Hcap n).
  apply wrap_id. unfold in_width. lia.
Qed.

Lemma index_slot n : u32 ((n mod numCombined cap) mod cap) = n mod cap.
Proof using G.
  rewrite combined_mod by apply Hcap. pose proof (slot_bound cap Hcap n). pose proof cap30.
  apply wrap_id. unfold in_width. lia.
Qed.

Lemma slot_len n : 0 <= n mod cap < Z.of_nat (length (m_states m)).
Proof using G. rewrite (g_len _ G). apply (slot_bound cap Hcap). Qed.

Lemma next_combined n : nextCombinedIndex m (n mod numCombined cap) = (n + 1) mod numCombined cap.
Proof using G.
  unfold nextCombinedIndex. rewrite (g_comb _ G). apply (combined_succ cap Hcap).
Qed.

Lemma next_generation n : nextGeneration m (generation cap n) = generation cap (n + cap).
Proof using G.
  unfold nextGeneration. rewrite (g_gen _ G).
  pose proof (generation_bound30 cap Hcap n). pose proof (generation_bound cap Hcap n).
  pose proof (numGenerations_spec cap Hcap).
  destruct (generation_lap_cases cap Hcap n) as [[Hn ->]|[Hn ->]].
  - destruct (Z.eqb_spec (numGenerations cap - 1) (generation cap n)); [lia|].
    apply wrap_id. unfold in_width. lia.
  - rewrite Hn. by rewrite Z.eqb_refl.
Qed.

Lemma prev_generation_lap n :
  prev_generation m (generation cap (n + cap)) (generation cap n) = true.
Proof using G.
  unfold prev_generation. rewrite (g_gen _ G).
  pose proof (generation_bound cap Hcap n). pose proof (numGenerations_spec cap Hcap).
  rewrite !to_signed_id by (destruct (generation_lap_cases cap Hcap n); lia).
  destruct (generation_lap_cases cap Hcap n) as [[Hn ->]|[Hn ->]]; lia.
Qed.

Lemma prev_generation_same g : 0 <= g < numGenerations cap -> prev_generation m g g = false.
Proof using G.
  intros Hg. unfold prev_generation. rewrite (g_gen _ G).
  pose proof (numGenerations_spec cap Hcap).
  rewrite !to_signed_id by lia. lia.
Qed.

End geometry.

(** ** The operations on an idle queue *)
Section operations.
Context (m : QueueManager) (h t : Z) (dis : bool) (R : rep m h t dis).

#[local] Abbreviation cap := (m_capacity m).
Let Hcap : 0 < cap <= MAX_CAPACITY := rep_cap _ _ _ _ R.
Let G : geom m := rep_geom _ _ _ _ R.

Lemma push_index_low : 0 <= t mod numCombined cap < 2 ^ 31.
Proof using R. pose proof (combined_bound cap Hcap t). pose proof (combined_pos cap Hcap). lia. Qed.

(** Space is left: the cell of the tail is taken and the tail index moves on. *)
Definition pushed : QueueManager :=
  set_push ((t + 1) mod numCombined cap)
    (set_state (t mod cap) (encodeElement (generation cap t) Writing) m).

Lemma reserve_push_success fuel :
  dis = false -> t < h + cap ->
  reservePushIndex (3 + fuel) m = Ok (Success, generation cap t, t mod cap, pushed).
Proof using R.
  intros Hd Ht. pose proof push_index_low as Hlow.
  pose proof (rep_push _ _ _ _ R) as Hpush. rewrite Hd in Hpush. cbn [flag] in Hpush.
  rewrite Z.add_0_r in Hpush.
  unfold reservePushIndex. cbn [Nat.add run push_returned push_step rbind].
  rewrite Hpush, isDisabledFlagSet_low, discard_eq, (Z.mod_small (t mod _)) by done.
  rewrite (index_gen m G), (index_slot m G), cas_state_ok by apply (slot_len m G).
  rewrite (rep_empty _ _ _ _ R t) by (pose proof (rep_range _ _ _ _ R); lia).
  rewrite Z.eqb_refl. cbn [rbind run push_returned push_step].
  unfold cas_push. cbn [m_pushIndex set_state]. rewrite Hpush, Z.eqb_refl.
  change (nextCombinedIndex (set_state _ _ m)) with (nextCombinedIndex m).
  rewrite (next_combined m G). by destruct fuel.
Qed.

(** The manager after [commitPushIndex] and [commitPopIndex]. *)
Definition push_committed : QueueManager := set_state (t mod cap) (encodeElement (generation cap t) Full) pushed.
Lemma commit_push_run : commitPushIndex pushed (generation cap t) (t mod cap) = Ok push_committed.
Proof using R. apply store_state_ok. cbn. rewrite length_insert. apply (slot_len m G). Qed.
Lemma commit_push_rep : dis = false -> t < h + cap -> rep push_committed h (t + 1) false.
Proof using R.
  intros Hd Ht. pose proof (rep_range _ _ _ _ R). unfold push_committed, pushed.
  pose proof (slot_len m G t) as Hs.
  split; cbn; [apply R|apply R|apply R|rewrite !length_insert; apply R|lia|lia|apply R| |].
  - intros n Hn. destruct (decide (n = t)) as [->|Hne].
    + rewrite cell_set_eq; [done|]. cbn. rewrite length_insert. done.
    + pose proof (slot_len m G n). pose proof (slot_inj cap Hcap n t).
      rewrite !cell_set_ne by lia. change (cell (set_push _ ?x)) with (cell x).
      rewrite !cell_set_ne by lia. apply (rep_full _ _ _ _ R). lia.
  - intros n Hn. pose proof (slot_len m G n). pose proof (slot_inj cap Hcap n t).
    rewrite !cell_set_ne by lia. change (cell (set_push _ ?x)) with (cell x).
    rewrite !cell_set_ne by lia. apply (rep_empty _ _ _ _ R). lia.
Qed.

(** No space: two looks at the tail cell, then [QueueFull]. *)
Lemma reserve_push_full fuel :
  dis = false -> t = h + cap -> reservePushIndex (4 + fuel) m = Ok (QueueFull, 0, 0, m).
Proof using R.
  intros Hd Ht. pose proof push_index_low as Hlow.
  pose proof (rep_push _ _ _ _ R) as Hpush. rewrite Hd in Hpush. cbn [flag] in Hpush.
  rewrite Z.add_0_r in Hpush. pose proof (cap30 m G).
  assert (forall saved, push_step m (PushTop (t mod numCombined cap) saved)
    = Ok (m, if negb (saved =? t mod numCombined cap) then PushReload (t mod numCombined cap)
             else PushRet QueueFull 0 0)) as Htop.
  { intros saved. cbn [push_step].
    rewrite isDisabledFlagSet_low, discard_eq, (Z.mod_small (t mod _)) by done.
    rewrite (index_gen m G), (index_slot m G), cas_state_ok by apply (slot_len m G).
    assert (cell m (t mod cap) = encodeElement (generation cap h) Full) as Hc.
    { rewrite Ht, (slot_lap cap Hcap). apply (rep_full _ _ _ _ R). lia. }
    pose proof (generation_bound30 cap Hcap h). pose proof (generation_bound30 cap Hcap t).
    rewrite Hc, encodeElement_eqb, bool_decide_false by naive_solver.
    cbn [rbind]. rewrite decode_encode_generation, decode_encode_state by done.
    rewrite Ht at 1. rewrite (prev_generation_lap m G). cbn [decide_rel decide].
    destruct (decide (Full = Reading)); [done|]. by destruct (negb _). }
  unfold reservePushIndex. cbn [Nat.add run push_returned rbind].
  change (push_step m PushStart) with (Ok (m, PushTop (m_pushIndex m) (u32 (-1)))). rewrite Hpush.
  cbn [rbind run push_returned]. rewrite Htop.
  destruct (Z.eqb_spec (u32 (-1)) (t mod numCombined cap)) as [He|_].
  { change (u32 (-1)) with (2 ^ 32 - 1) in He. lia. }
  cbn [negb rbind run push_returned].
  change (push_step m (PushReload ?s)) with (Ok (m, PushTop (m_pushIndex m) s)). rewrite Hpush.
  cbn [rbind run push_returned]. rewrite Htop, Z.eqb_refl. cbn [negb]. by destruct fuel.
Qed.

Lemma reserve_push_disabled fuel :
  dis = true -> reservePushIndex (2 + fuel) m = Ok (QueueDisabled, 0, 0, m).
Proof using R.
  intros Hd. pose proof push_index_low as Hlow.
  pose proof (rep_push _ _ _ _ R) as Hpush. rewrite Hd in Hpush. cbn [flag] in Hpush.
  unfold reservePushIndex. cbn [Nat.add run push_returned push_step rbind].
  rewrite Hpush, isDisabledFlagSet_high by done. by destruct fuel.
Qed.

(** Pop: the same for the head cell. *)
Definition popped : QueueManager :=
  set_pop ((h + 1) mod numCombined cap)
    (set_state (h mod cap) (encodeElement (generation cap h) Reading) m).

Lemma reserve_pop_success fuel :
  h < t -> reservePopIndex (3 + fuel) m = Ok (Success, generation cap h, h mod cap, popped).
Proof using R.
  intros Ht. pose proof (rep_pop _ _ _ _ R) as Hpop.
  unfold reservePopIndex. cbn [Nat.add run pop_returned pop_step rbind].
  rewrite Hpop, (index_gen m G), (index_slot m G), cas_state_ok by apply (slot_len m G).
  rewrite (rep_full _ _ _ _ R h), Z.eqb_refl by lia. cbn [rbind run pop_returned pop_step].
  unfold cas_pop. cbn [m_popIndex set_state]. rewrite Hpop, Z.eqb_refl.
  change (nextCombinedIndex (set_state _ _ m)) with (nextCombinedIndex m).
  rewrite (next_combined m G). by destruct fuel.
Qed.

Definition pop_committed : QueueManager :=
  set_state (h mod cap) (encodeElement (nextGeneration m (generation cap h)) Empty) popped.
Lemma commit_pop_run : commitPopIndex popped (generation cap h) (h mod cap) = Ok pop_committed.
Proof using R. apply store_state_ok. cbn. rewrite length_insert. apply (slot_len m G). Qed.
Lemma commit_pop_rep : h < t -> rep pop_committed (h + 1) t dis.
Proof using R.
  intros Ht. pose proof (rep_range _ _ _ _ R). unfold pop_committed, popped.
  pose proof (slot_len m G h) as Hs.
  split; cbn; [apply R|apply R|apply R|rewrite !length_insert; apply R|lia|apply R|done| |].
  - intros n Hn. pose proof (slot_len m G n). pose proof (slot_inj cap Hcap n h).
    rewrite !cell_set_ne by lia. change (cell (set_pop _ ?x)) with (cell x).
    rewrite !cell_set_ne by lia. apply (rep_full _ _ _ _ R). lia.
  - intros n Hn. destruct (decide (n = h + cap)) as [->|Hne].
    + rewrite (slot_lap cap Hcap), cell_set_eq by (cbn; rewrite length_insert; done).
      change (nextGeneration (set_pop _ _)) with (nextGeneration m). by rewrite (next_generation m G).
    + pose proof (slot_len m G n). pose proof (slot_inj cap Hcap n h).
      rewrite !cell_set_ne by lia. change (cell (set_pop _ ?x)) with (cell x).
      rewrite !cell_set_ne by lia. apply (rep_empty _ _ _ _ R). lia.
Qed.

Lemma reserve_pop_empty fuel :
  h = t -> reservePopIndex (4 + fuel) m = Ok (QueueEmpty, 0, 0, m).
Proof using R.
  intros Ht. pose proof (rep_pop _ _ _ _ R) as Hpop. pose proof (cap30 m G).
  pose proof (combined_bound cap Hcap h). pose proof (combined_pos cap Hcap).
  assert (forall saved, pop_step m (PopTop (h mod numCombined cap) saved)
    = Ok (m, if negb (saved =? h mod numCombined cap) then PopReload (h mod numCombined cap)
             else PopRet QueueEmpty 0 0)) as Htop.
  { intros saved. cbn [pop_step]. rewrite (index_gen m G), (index_slot m G), cas_state_ok by apply (slot_len m G).
    pose proof (generation_bound30 cap Hcap h).
    rewrite (rep_empty _ _ _ _ R h), encodeElement_eqb, bool_decide_false by (lia || naive_solver).
    cbn [rbind]. rewrite decode_encode_generation, decode_encode_state by done.
    rewrite (prev_generation_same m G) by apply (generation_bound cap Hcap).
    rewrite Z.sub_diag, bool_decide_true by done. cbn [andb Z.eqb].
    by destruct (negb _). }
  unfold reservePopIndex. cbn [Nat.add run pop_returned rbind].
  change (pop_step m PopStart) with (Ok (m, PopTop (m_popIndex m) (u32 (-1)))). rewrite Hpop.
  cbn [rbind run pop_returned]. rewrite Htop.
  destruct (Z.eqb_spec (u32 (-1)) (h mod numCombined cap)) as [He|_].
  { change (u32 (-1)) with (2 ^ 32 - 1) in He. lia. }
  cbn [negb rbind run pop_returned].
  change (pop_step m (PopReload ?s)) with (Ok (m, PopTop (m_popIndex m) s)). rewrite Hpop.
  cbn [rbind run pop_returned]. rewrite Htop, Z.eqb_refl. cbn [negb]. by destruct fuel.
Qed.

Lemma size_rep : size m = t - h.
Proof using R.
  pose proof (rep_range _ _ _ _ R) as [??]. pose proof (cap30 m G). pose proof push_index_low.
  destruct (numGenerations_spec cap Hcap) as [[??]?].
  unfold size. rewrite (rep_push _ _ _ _ R), (rep_pop _ _ _ _ R), (rep_comb _ _ _ _ R), discard_eq.
  replace ((t mod numCombined cap + flag dis) mod 2 ^ 31) with (t mod numCombined cap).
  2:{ destruct dis; cbn [flag]; [|by rewrite Z.add_0_r, (Z.mod_small (t mod _))].
      replace (t mod numCombined cap + 2 ^ 31) with (t mod numCombined cap + 1 * 2 ^ 31) by lia.
      by rewrite Z.mod_add, (Z.mod_small (t mod _)) by lia. }
  assert (2 * cap <= numCombined cap) by (unfold numCombined; nia).
  pose proof (combined_bound cap Hcap t). pose proof (combined_bound cap Hcap h).
  assert (exists k, t mod numCombined cap - h mod numCombined cap = t - h - k * numCombined cap
            /\ (k = 0 \/ k = 1)) as (k & Hk & Hk01).
  { pose proof (Z.div_mod t (numCombined cap)). pose proof (Z.div_mod h (numCombined cap)).
    exists (t / numCombined cap - h / numCombined cap). split; [lia|].
    assert (0 <= t / numCombined cap - h / numCombined cap <= 1); [|lia].
    split; nia. }
  pose proof (Z.div_mod (numCombined cap - 1) 2). pose proof (Z.mod_pos_bound (numCombined cap - 1) 2).
  rewrite Hk, (to_signed_id 32 cap), (to_signed_id 32 ((numCombined cap - 1) / 2)),
    (to_signed_id 32 (t - h - k * numCombined cap)) by lia.
  destruct Hk01 as [-> | ->].
  - destruct (Z.leb_spec 0 (t - h - 0 * numCombined cap)); [|lia].
    destruct (Z.ltb_spec cap (t - h - 0 * numCombined cap)); lia.
  - destruct (Z.leb_spec 0 (t - h - 1 * numCombined cap)); [lia|].
    destruct (Z.ltb_spec (t - h - 1 * numCombined cap) (- ((numCombined cap - 1) / 2))); [|lia].
    rewrite to_signed_id by lia. lia.
Qed.

Lemma enabled_rep : enabled m = negb dis.
Proof using R.
  pose proof push_index_low. unfold enabled. rewrite (rep_push _ _ _ _ R).
  destruct dis; cbn [flag]; [by rewrite isDisabledFlagSet_high|].
  by rewrite Z.add_0_r, isDisabledFlagSet_low.
Qed.

Lemma disable_rep : rep (disable m) h t true.
Proof using R.
  pose proof push_index_low. unfold disable. rewrite (rep_push _ _ _ _ R).
  destruct dis eqn:E; cbn [flag].
  - rewrite isDisabledFlagSet_high by done. exact R.
  - rewrite Z.add_0_r, isDisabledFlagSet_low by done. unfold cas_push.
    rewrite (rep_push _ _ _ _ R). cbn [flag]. rewrite Z.add_0_r, Z.eqb_refl.
    rewrite lor_flag by done. cbn [snd]. split; apply R || done.
Qed.

Lemma enable_rep : rep (enable m) h t false.
Proof using R.
  pose proof push_index_low. unfold enable. rewrite (rep_push _ _ _ _ R).
  destruct dis eqn:E; cbn [flag].
  - rewrite isDisabledFlagSet_high by done. cbn [negb]. unfold cas_push.
    rewrite (rep_push _ _ _ _ R), Z.eqb_refl. cbn [snd].
    change (Z.land ?x (u32 (Z.lnot DISABLED_STATE_MASK))) with (discardDisabledFlag x).
    rewrite discard_eq. cbn [flag].
    replace (t mod numCombined cap + 2 ^ 31) with (t mod numCombined cap + 1 * 2 ^ 31) by lia.
    rewrite Z.mod_add, (Z.mod_small (t mod _)) by lia.
    split; try apply R. cbn [m_pushIndex set_push flag m_capacity]. lia.
  - rewrite Z.add_0_r, isDisabledFlagSet_low by done. exact R.
Qed.
End operations.

(** ** A queue with one reserved push, for the exception path

    Between [reservePushIndex] and [commitPushIndex] the tail cell is [Writing]. *)
Record rep_writing (m : QueueManager) (h t : Z) : Prop := {
  rw_cap : 0 < m_capacity m <= MAX_CAPACITY;
  rw_gen : m_maxGeneration m = numGenerations (m_capacity m) - 1;
  rw_comb : m_maxCombinedIndex m = numCombined (m_capacity m) - 1;
  rw_len : Z.of_nat (length (m_states m)) = m_capacity m;
  rw_range : 0 <= h <= t /\ t < h + m_capacity m;
  rw_push : m_pushIndex m = (t + 1) mod numCombined (m_capacity m);
  rw_pop : m_popIndex m = h mod numCombined (m_capacity m);
  rw_full n : h <= n < t ->
    cell m (n mod m_capacity m) = encodeElement (generation (m_capacity m) n) Full;
  rw_writing : cell m (t mod m_capacity m) = encodeElement (generation (m_capacity m) t) Writing;
  rw_empty n : t < n < h + m_capacity m ->
    cell m (n mod m_capacity m) = encodeElement (generation (m_capacity m) n) Empty;
}.

Lemma pushed_writing m h t :
  rep m h t false -> t < h + m_capacity m -> rep_writing (pushed m t) h t.
Proof.
  intros R Ht. pose proof (rep_cap _ _ _ _ R) as Hcap. pose proof (rep_range _ _ _ _ R).
  pose proof (slot_len m (rep_geom _ _ _ _ R) t). unfold pushed.
  split; cbn; [apply R|apply R|apply R|rewrite length_insert; apply R|lia|done|apply R| | |].
  - intros n Hn. pose proof (slot_len m (rep_geom _ _ _ _ R) n). pose proof (slot_inj _ Hcap n t).
    change (cell (set_push _ ?x)) with (cell x). rewrite cell_set_ne by lia.
    by apply (rep_full _ _ _ _ R).
  - change (cell (set_push _ ?x)) with (cell x). by rewrite cell_set_eq.
  - intros n Hn. pose proof (slot_len m (rep_geom _ _ _ _ R) n). pose proof (slot_inj _ Hcap n t).
    change (cell (set_push _ ?x)) with (cell x). rewrite cell_set_ne by lia.
    apply (rep_empty _ _ _ _ R). lia.
Qed.

(** The circular difference is congruent to the difference and at most half the
    modulus in absolute value. *)
Lemma circularDifference_spec a b modulo :
  0 < modulo <= 2 ^ 31 -> 0 <= a < modulo -> 0 <= b < modulo ->
  (circularDifference a b modulo - (a - b)) mod modulo = 0 /\
  Z.abs (circularDifference a b modulo) <= modulo / 2.
Proof.
  intros Hm Ha Hb. unfold circularDifference.
  pose proof (Z.div_mod modulo 2). pose proof (Z.mod_pos_bound modulo 2).
  rewrite (to_signed_id 32 (a - b)), (to_signed_id 32 (modulo / 2)) by lia.
  destruct (Z.ltb_spec (modulo / 2) (a - b)).
  - rewrite to_signed_id by lia. split; [|lia].
    replace (a - b - modulo - (a - b)) with ((-1) * modulo) by lia. by rewrite Z.mod_mul by lia.
  - destruct (Z.ltb_spec (a - b) (- (modulo / 2))).
    + rewrite to_signed_id by lia. split; [|lia].
      replace (a - b + modulo - (a - b)) with (1 * modulo) by lia. by rewrite Z.mod_mul by lia.
    + rewrite Z.sub_diag. split; [by rewrite Z.mod_0_l by lia|lia].
Qed.

Section clearing.
Context (m : QueueManager) (h t : Z) (R : rep_writing m h t).

#[local] Abbreviation cap := (m_capacity m).
Let Hcap : 0 < cap <= MAX_CAPACITY := rw_cap _ _ _ R.

Lemma end_index : u32 (generation cap t * u32 cap + t mod cap) = t mod numCombined cap.
Proof using R.
  change MAX_CAPACITY with (2 ^ 30) in Hcap.
  pose proof (combined_bound cap Hcap t). pose proof (combined_pos cap Hcap).
  rewrite (wrap_id 32 cap) by (unfold in_width; lia).
  rewrite <- (combined_div cap Hcap t), <- (combined_mod cap Hcap t).
  pose proof (Z.div_mod (t mod numCombined cap) cap).
  replace (_ / cap * cap + _) with (t mod numCombined cap) by lia.
  apply wrap_id. unfold in_width. lia.
Qed.

Lemma circular_zero :
  (circularDifference (t mod numCombined cap) (h mod numCombined cap)
     (u32 (m_maxCombinedIndex m + 1)) =? 0) = bool_decide (h = t).
Proof using R.
  pose proof (combined_bound cap Hcap t) as Ht. pose proof (combined_bound cap Hcap h) as Hh.
  pose proof (combined_pos cap Hcap) as HM. pose proof (rw_range _ _ _ R).
  destruct (numGenerations_spec cap Hcap) as [HN _].
  rewrite (rw_comb _ _ _ R), wrap_id by (unfold in_width; lia).
  replace (numCombined cap - 1 + 1) with (numCombined cap) by lia.
  destruct (circularDifference_spec _ _ _ HM Ht Hh) as [Hc _].
  case_bool_decide as He.
  - rewrite He. unfold circularDifference. rewrite Z.sub_diag, (to_signed_id 32 0) by lia.
    pose proof (Z.div_mod (numCombined cap) 2). pose proof (Z.mod_pos_bound (numCombined cap) 2).
    rewrite to_signed_id by lia.
    destruct (Z.ltb_spec (numCombined cap / 2) 0); [lia|].
    destruct (Z.ltb_spec 0 (- (numCombined cap / 2))); [lia|done].
  - apply Z.eqb_neq. intros Hz. rewrite Hz in Hc.
    assert (t mod numCombined cap = h mod numCombined cap) as Heq.
    { rewrite Z.mod_divide in Hc by lia. destruct Hc as [q Hq]. assert (q = 0) by nia. nia. }
    assert (cap <= numCombined cap) by (unfold numCombined; nia).
    assert (0 < numCombined cap <= 2 ^ 31) by lia.
    pose proof (Z.div_mod t (numCombined cap)). pose proof (Z.div_mod h (numCombined cap)).
    assert (exists q, t - h = numCombined cap * q) as [q Hq]
      by (exists (t / numCombined cap - h / numCombined cap); lia).
    assert (q <= 0 \/ 1 <= q) as [|] by lia; nia.
Qed.

Let G : geom m.
Proof. split; apply R. Qed.

(** The manager after the oldest cell was reserved by the guard, and after it was freed. *)
Definition clearing : QueueManager :=
  set_pop ((h + 1) mod numCombined cap) (set_state (h mod cap) (encodeElement (generation cap h) Reading) m).
Definition cleared : QueueManager :=
  set_state (h mod cap) (encodeElement (nextGeneration m (generation cap h)) Empty) clearing.
Lemma commit_clear_run : commitPopIndex clearing (generation cap h) (h mod cap) = Ok cleared.
Proof using R. apply store_state_ok. cbn. rewrite length_insert. apply (slot_len m G). Qed.

Lemma clear_step_pop fuel :
  h < t ->
  reservePopForClear (3 + fuel) (generation cap t) (t mod cap) m
  = Ok (true, generation cap h, h mod cap, clearing).
Proof using R.
  intros Ht. pose proof (rw_pop _ _ _ R) as Hpop.
  unfold reservePopForClear. cbn [Nat.add run clear_returned clear_step rbind].
  rewrite Hpop, end_index, circular_zero, bool_decide_false by lia.
  rewrite (index_gen m G), (index_slot m G), cas_state_ok by apply (slot_len m G).
  rewrite (rw_full _ _ _ R h), Z.eqb_refl by lia. cbn [rbind run clear_returned clear_step].
  unfold cas_pop. cbn [m_popIndex set_state]. rewrite Hpop, Z.eqb_refl.
  change (nextCombinedIndex (set_state _ _ m)) with (nextCombinedIndex m).
  rewrite (next_combined m G). by destruct fuel.
Qed.

Lemma cleared_rep : h < t -> rep_writing cleared (h + 1) t.
Proof using R.
  intros Ht. pose proof (rw_range _ _ _ R). unfold cleared, clearing.
  pose proof (slot_len m G h) as Hs.
  split; cbn; [apply R|apply R|apply R|rewrite !length_insert; apply R|lia|apply R|done| | |].
  - intros n Hn. pose proof (slot_len m G n). pose proof (slot_inj cap Hcap n h).
    rewrite !cell_set_ne by lia. change (cell (set_pop _ ?x)) with (cell x).
    rewrite !cell_set_ne by lia. apply (rw_full _ _ _ R). lia.
  - pose proof (slot_len m G t). pose proof (slot_inj cap Hcap t h).
    rewrite !cell_set_ne by lia. change (cell (set_pop _ ?x)) with (cell x).
    rewrite !cell_set_ne by lia. apply (rw_writing _ _ _ R).
  - intros n Hn. destruct (decide (n = h + cap)) as [->|Hne].
    + rewrite (slot_lap cap Hcap), cell_set_eq by (cbn; rewrite length_insert; done).
      change (nextGeneration (set_pop _ _)) with (nextGeneration m). by rewrite (next_generation m G).
    + pose proof (slot_len m G n). pose proof (slot_inj cap Hcap n h).
      rewrite !cell_set_ne by lia. change (cell (set_pop _ ?x)) with (cell x).
      rewrite !cell_set_ne by lia. apply (rw_empty _ _ _ R). lia.
Qed.

Lemma clear_step_end fuel :
  h = t -> reservePopForClear (2 + fuel) (generation cap t) (t mod cap) m = Ok (false, 0, 0, m).
Proof using R.
  intros Ht. unfold reservePopForClear. cbn [Nat.add run clear_returned clear_step rbind].
  rewrite (rw_pop _ _ _ R), end_index, circular_zero, bool_decide_true by lia. by destruct fuel.
Qed.

(** The manager after an aborted push. *)
Definition aborted : QueueManager :=
  set_state (t mod cap) (encodeElement (nextGeneration m (generation cap t)) Empty)
    (set_pop ((t + 1) mod numCombined cap) (set_state (t mod cap) (encodeElement (generation cap t) Reading) m)).
Lemma abort_run : h = t -> abortPushIndexReservation m (generation cap t) (t mod cap) = Ok aborted.
Proof using R.
  intros Ht. pose proof (slot_len m G t) as Hs. unfold abortPushIndexReservation. rewrite store_state_ok by done. cbn [rbind].
  unfold cas_pop. cbn [m_popIndex set_state]. rewrite Z.eqb_refl.
  change (nextCombinedIndex (set_state _ _ m)) with (nextCombinedIndex m).
  rewrite (rw_pop _ _ _ R), (next_combined m G), Ht. apply store_state_ok. cbn. by rewrite length_insert.
Qed.
Lemma abort_rep : h = t -> rep aborted (t + 1) (t + 1) false.
Proof using R.
  intros Ht. pose proof (rw_range _ _ _ R). unfold aborted. pose proof (slot_len m G t) as Hs.
  split; cbn; [apply R|apply R|apply R|rewrite !length_insert; apply R|lia| |done|lia|].
  - rewrite (rw_push _ _ _ R). lia.
  - intros n Hn. destruct (decide (n = t + cap)) as [->|Hne].
    + rewrite (slot_lap cap Hcap), cell_set_eq by (cbn; rewrite length_insert; done).
      change (nextGeneration (set_pop _ _)) with (nextGeneration m). by rewrite (next_generation m G).
    + pose proof (slot_len m G n). pose proof (slot_inj cap Hcap n t).
      rewrite !cell_set_ne by lia. change (cell (set_pop _ ?x)) with (cell x).
      rewrite !cell_set_ne by lia. apply (rw_empty _ _ _ R). lia.
Qed.
End clearing.
