(* ===== verification/Queue.v ===== *)
(** * The fixed-size queue over the manager (llarp/util/thread/queue.hpp)

    [m_data] holds one slot per cell: [Some v] is a constructed object, [None] raw
    memory, so reading or destroying [None] is an access to an object that does not
    exist ([Oob]). Semaphores are their counts. [Module Spec] is the contract, a bounded
    FIFO list with a disabled flag; [queue_rep] relates the two. *)

From S2P Require Import Prelude QueueManager.

Record Queue (A : Type) := MkQueue {
  m_data : list (option A);
  m_manager : QueueManager;
  m_waitingPoppers : Z;
  m_popSemaphore : Z;
  m_waitingPushers : Z;
  m_pushSemaphore : Z;
}.
Arguments MkQueue {A}.
Arguments m_data {A}. Arguments m_manager {A}. Arguments m_waitingPoppers {A}.
Arguments m_popSemaphore {A}. Arguments m_waitingPushers {A}. Arguments m_pushSemaphore {A}.

Section ops.
Context {A : Type}.
Implicit Types q : Queue A.

Definition newQueue (capacity : Z) : Queue A :=
  MkQueue (replicate (Z.to_nat capacity) None) (newQueueManager capacity) 0 0 0 0.

Definition set_manager (m : QueueManager) q : Queue A :=
  MkQueue (m_data q) m (m_waitingPoppers q) (m_popSemaphore q) (m_waitingPushers q) (m_pushSemaphore q).
Definition set_slot (i : Z) (o : option A) q : Queue A :=
  MkQueue (<[Z.to_nat i := o]> (m_data q)) (m_manager q) (m_waitingPoppers q) (m_popSemaphore q)
    (m_waitingPushers q) (m_pushSemaphore q).
Definition notify_pop q : Queue A :=
  MkQueue (m_data q) (m_manager q) (m_waitingPoppers q) (m_popSemaphore q + 1)
    (m_waitingPushers q) (m_pushSemaphore q).
Definition notify_push (n : Z) q : Queue A :=
  MkQueue (m_data q) (m_manager q) (m_waitingPoppers q) (m_popSemaphore q)
    (m_waitingPushers q) (m_pushSemaphore q + n).

(** The object at a slot, and its destruction. *)
Definition object (i : Z) q : res A :=
  match m_data q !! Z.to_nat i with Some (Some v) => Ok v | _ => Oob end.
Definition destroy (i : Z) q : res (Queue A) :=
  let* _ := object i q in Ok (set_slot i None q).
(** [new (&m_data[index]) Type(value)]: the slot must be raw memory. *)
Definition construct (i : Z) (v : A) q : res (Queue A) :=
  match m_data q !! Z.to_nat i with Some None => Ok (set_slot i (Some v) q) | _ => Oob end.

(** Both reservations return within four atomic steps when run alone. *)
Definition reserve_push q : res (QueueReturn * Z * Z * Queue A) :=
  let* (r, g, i, m) := reservePushIndex 4 (m_manager q) in Ok (r, g, i, set_manager m q).
Definition reserve_pop q : res (QueueReturn * Z * Z * Queue A) :=
  let* (r, g, i, m) := reservePopIndex 4 (m_manager q) in Ok (r, g, i, set_manager m q).

Definition capacity q : Z := QueueManager.capacity (m_manager q).
Definition size q : Z := QueueManager.size (m_manager q).
Definition enabled q : bool := QueueManager.enabled (m_manager q).
Definition full q : bool := capacity q <=? size q.
Definition empty q : bool := size q <=? 0.

(** [~QueuePopGuard] *)
Definition pop_guard_dtor (generation index : Z) q : res (Queue A) :=
  let* q := destroy index q in
  let* m := commitPopIndex (m_manager q) generation index in
  let q := set_manager m q in
  Ok (if 0 <? m_waitingPushers q then notify_push 1 q else q).

(** [~QueuePushGuard] when the push was not released: the loop pops everything before
    the reserved cell, then the reservation is aborted. *)
Fixpoint clear_loop (fuel : nat) (generation index poppedItems : Z) q : res (Z * Queue A) :=
  match fuel with
  | O => NoFuel
  | S f =>
      let* (reserved, g, i, m) := reservePopForClear 3 generation index (m_manager q) in
      if reserved : bool then
        let* q := destroy i (set_manager m q) in
        let* m := commitPopIndex (m_manager q) g i in
        clear_loop f generation index (poppedItems + 1) (set_manager m q)
      else Ok (poppedItems, set_manager m q)
  end.

Definition push_guard_dtor (generation index : Z) q : res (Queue A) :=
  let* (poppedItems, q) := clear_loop (S (length (m_data q))) generation index 1 q in
  let* m := abortPushIndexReservation (m_manager q) generation index in
  Ok (notify_push poppedItems (set_manager m q)).

(** [ctor_throws] says whether the copy or move constructor of the value throws; the
    guard then empties the queue and the exception propagates ([None]). *)
Definition tryPushBack (ctor_throws : bool) (value : A) q : res (option QueueReturn * Queue A) :=
  let* (retVal, generation, index, q) := reserve_push q in
  if decide (retVal = Success) then
    if ctor_throws then
      let* q := push_guard_dtor generation index q in Ok (None, q)
    else
      let* q := construct index value q in
      let* m := commitPushIndex (m_manager q) generation index in
      let q := set_manager m q in
      Ok (Some Success, if 0 <? m_waitingPoppers q then notify_pop q else q)
  else Ok (Some retVal, q).

Definition tryPopFront q : res (option A * Queue A) :=
  let* (retVal, generation, index, q) := reserve_pop q in
  if decide (retVal = Success) then
    let* v := object index q in
    let* q := pop_guard_dtor generation index q in
    Ok (Some v, q)
  else Ok (None, q).

(** [waitFor] on the pop semaphore with nobody to signal it meanwhile. *)
Definition pop_wait_for q : Queue A :=
  if 0 <? m_popSemaphore q
  then MkQueue (m_data q) (m_manager q) (m_waitingPoppers q) (m_popSemaphore q - 1)
         (m_waitingPushers q) (m_pushSemaphore q)
  else q.
Definition add_poppers (n : Z) q : Queue A :=
  MkQueue (m_data q) (m_manager q) (u32 (m_waitingPoppers q + n)) (m_popSemaphore q)
    (m_waitingPushers q) (m_pushSemaphore q).

Fixpoint pop_timeout_loop (fuel : nat) (secondTry : bool) q
  : res (bool * Z * Z * Queue A) :=
  match fuel with
  | O => NoFuel
  | S f =>
      let* (r, generation, index, q) := reserve_pop q in
      let success := bool_decide (r = Success) in
      if secondTry || success then Ok (success, generation, index, q)
      else
        let q := add_poppers 1 q in
        let '(secondTry, q) := if empty q then (true, pop_wait_for q) else (secondTry, q) in
        pop_timeout_loop f secondTry (add_poppers (-1) q)
  end.

Definition popFrontWithTimeout q : res (option A * Queue A) :=
  let* (success, generation, index, q) := pop_timeout_loop 2 false q in
  if success : bool then
    let* v := object index q in
    let* q := pop_guard_dtor generation index q in
    Ok (Some v, q)
  else Ok (None, q).

(** [poppedItems++ < elemCount]: the counter ends one past the items removed. *)
Fixpoint remove_loop (elemCount : nat) (poppedItems : Z) q : res (Z * Queue A) :=
  match elemCount with
  | O => Ok (poppedItems + 1, q)
  | S n =>
      let* (r, generation, index, q) := reserve_pop q in
      if decide (r = Success) then
        let* q := destroy index q in
        let* m := commitPopIndex (m_manager q) generation index in
        remove_loop n (poppedItems + 1) (set_manager m q)
      else Ok (poppedItems + 1, q)
  end.

Definition removeAll q : res (Queue A) :=
  let* (poppedItems, q) := remove_loop (Z.to_nat (size q)) 0 q in
  let wakeups := Z.min poppedItems (m_waitingPushers q) in
  Ok (notify_push wakeups q).

Definition disable q : Queue A :=
  notify_push (m_waitingPushers q) (set_manager (QueueManager.disable (m_manager q)) q).
Definition enable q : Queue A := set_manager (QueueManager.enable (m_manager q)) q.

(** The blocking operations; [None] is a wait that nobody ends: the semaphore's count
    is 0 and the calling thread is the only one. *)
Definition push_wait q : option (Queue A) :=
  if 0 <? m_pushSemaphore q
  then Some (MkQueue (m_data q) (m_manager q) (m_waitingPoppers q) (m_popSemaphore q)
               (m_waitingPushers q) (m_pushSemaphore q - 1))
  else None.
Definition add_pushers (n : Z) q : Queue A :=
  MkQueue (m_data q) (m_manager q) (m_waitingPoppers q) (m_popSemaphore q)
    (u32 (m_waitingPushers q + n)) (m_pushSemaphore q).

Fixpoint pushBack (fuel : nat) (value : A) q : res (option QueueReturn * Queue A) :=
  match fuel with
  | O => NoFuel
  | S f =>
      let* (retVal, q) := tryPushBack false value q in
      match retVal with
      | Some QueueDisabled | Some Success => Ok (retVal, q)
      | _ =>
          let q := add_pushers 1 q in
          if full q && enabled q then
            match push_wait q with
            | None => Ok (None, q)
            | Some q => pushBack f value (add_pushers (-1) q)
            end
          else pushBack f value (add_pushers (-1) q)
      end
  end.

Fixpoint popFront (fuel : nat) q : res (option A * Queue A) :=
  match fuel with
  | O => NoFuel
  | S f =>
      let* (r, generation, index, q) := reserve_pop q in
      if decide (r = Success) then
        let* v := object index q in
        let* q := pop_guard_dtor generation index q in
        Ok (Some v, q)
      else
        let q := add_poppers 1 q in
        if empty q then
          if 0 <? m_popSemaphore q then popFront f (add_poppers (-1) (pop_wait_for q))
          else Ok (None, q)
        else popFront f (add_poppers (-1) q)
  end.
End ops.

(** ** The contract *)
Module Spec.
Section spec.
Context {A : Type}.

Definition push (cap : Z) (dis : bool) (v : A) (items : list A) : QueueReturn * list A :=
  if dis then (QueueDisabled, items)
  else if Z.of_nat (length items) <? cap then (Success, items ++ [v])
  else (QueueFull, items).

Definition pop (items : list A) : option A * list A :=
  match items with [] => (None, []) | v :: r => (Some v, r) end.
End spec.
End Spec.

(** A queue represents [items] when the manager's counters are [h] and
    [h + length items] and the slots between them hold the items in order; every other
    slot is raw memory. *)
Record queue_rep {A} (q : Queue A) (items : list A) (dis : bool) (h : Z) : Prop := {
  qr_manager : rep (m_manager q) h (h + Z.of_nat (length items)) dis;
  qr_len : Z.of_nat (length (m_data q)) = capacity q;
  qr_item k v : items !! k = Some v ->
    m_data q !! Z.to_nat ((h + Z.of_nat k) mod capacity q) = Some (Some v);
  qr_raw n : h + Z.of_nat (length items) <= n < h + capacity q ->
    m_data q !! Z.to_nat (n mod capacity q) = Some None;
}.

Section refinement.
Context {A : Type}.
Implicit Types (q : Queue A) (items : list A).

Lemma newQueue_rep cap :
  0 < cap <= MAX_CAPACITY -> queue_rep (newQueue cap : Queue A) [] false 0.
Proof.
  intros Hc. split; cbn.
  - by apply newQueueManager_rep.
  - rewrite length_replicate. unfold capacity, QueueManager.capacity. cbn. lia.
  - done.
  - intros n Hn. apply lookup_replicate_2. unfold capacity, QueueManager.capacity. cbn.
    pose proof (slot_bound cap Hc n). lia.
Qed.

(** Only the manager and the slots matter. *)
Lemma queue_rep_ext q q' items dis h :
  m_data q = m_data q' -> m_manager q = m_manager q' ->
  queue_rep q items dis h -> queue_rep q' items dis h.
Proof.
  intros Hd Hm [H1 H2 H3 H4]. unfold capacity in *. rewrite Hd, Hm in *. by split.
Qed.

Lemma qr_range q items dis h :
  queue_rep q items dis h ->
  0 <= h /\ Z.of_nat (length items) <= capacity q /\ 0 < capacity q <= MAX_CAPACITY.
Proof.
  intros Q. pose proof (rep_range _ _ _ _ (qr_manager _ _ _ _ Q)).
  pose proof (rep_cap _ _ _ _ (qr_manager _ _ _ _ Q)). unfold capacity, QueueManager.capacity. lia.
Qed.

(** The commits of the manager, with the capacity of the queue. *)
Lemma push_commits q items dis h :
  queue_rep q items dis h ->
  let t := h + Z.of_nat (length items) in
  commitPushIndex (pushed (m_manager q) t) (generation (capacity q) t) (t mod capacity q) = Ok (push_committed (m_manager q) t).
Proof. intros Q t. exact (commit_push_run _ _ _ _ (qr_manager _ _ _ _ Q)). Qed.
Lemma pop_commits q items dis h :
  queue_rep q items dis h ->
  commitPopIndex (popped (m_manager q) h) (generation (capacity q) h) (h mod capacity q) = Ok (pop_committed (m_manager q) h).
Proof. intros Q. exact (commit_pop_run _ _ _ _ (qr_manager _ _ _ _ Q)). Qed.

Lemma push_success_rep q items h v :
  queue_rep q items false h -> Z.of_nat (length items) < capacity q ->
  let t := h + Z.of_nat (length items) in
  let m := push_committed (m_manager q) t in
  queue_rep (set_manager m (set_slot (t mod capacity q) (Some v) q)) (items ++ [v]) false h.
Proof.
  intros Q Hl t m. destruct (qr_range _ _ _ _ Q) as (? & ? & Hc).
  pose proof (slot_bound _ Hc t). pose proof (qr_len _ _ _ _ Q).
  assert (length (items ++ [v]) = S (length items)) as Hlen by (rewrite length_app; simpl; lia).
  split.
  - cbn [m_manager set_manager]. rewrite Hlen, Nat2Z.inj_succ.
    replace (h + Z.succ _) with (t + 1) by (unfold t; lia).
    apply commit_push_rep with (dis := false); [apply Q|done|].
    unfold t. unfold capacity, QueueManager.capacity in *. lia.
  - cbn. rewrite length_insert. done.
  - intros k w Hk. cbn [m_data set_manager set_slot capacity].
    change (capacity (set_manager m _)) with (capacity q).
    apply lookup_app_Some in Hk as [Hk|[Hk1 Hk2]].
    + pose proof (lookup_lt_Some _ _ _ Hk).
      pose proof (slot_bound _ Hc (h + Z.of_nat k)). pose proof (slot_inj _ Hc (h + Z.of_nat k) t).
      rewrite list_lookup_insert_ne by (unfold t in *; lia). by apply (qr_item _ _ _ _ Q).
    + assert (k = length items /\ w = v) as [-> ->].
      { destruct (k - length items)%nat eqn:E; [|by rewrite lookup_cons_ne_0 in Hk2].
        simpl in Hk2. split; [lia|congruence]. }
      fold t. apply list_lookup_insert_eq. lia.
  - intros n Hn. change (capacity (set_manager m _)) with (capacity q) in *.
    cbn [m_data set_manager set_slot]. rewrite Hlen in Hn.
    pose proof (slot_bound _ Hc n). pose proof (slot_inj _ Hc n t).
    rewrite list_lookup_insert_ne by (unfold t in *; lia). apply (qr_raw _ _ _ _ Q). lia.
Qed.

Lemma pop_success_rep q items dis h v :
  queue_rep q (v :: items) dis h ->
  let m := pop_committed (m_manager q) h in
  queue_rep (set_manager m (set_slot (h mod capacity q) None q)) items dis (h + 1).
Proof.
  intros Q m. destruct (qr_range _ _ _ _ Q) as (? & Hle & Hc). cbn [length] in Hle.
  pose proof (slot_bound _ Hc h). pose proof (qr_len _ _ _ _ Q).
  split.
  - cbn [m_manager set_manager].
    replace (h + 1 + Z.of_nat (length items)) with (h + Z.of_nat (length (v :: items))) by (cbn [length]; lia).
    eapply commit_pop_rep; [apply Q|]. cbn [length]. lia.
  - cbn. rewrite length_insert. done.
  - intros k w Hk. change (capacity (set_manager m _)) with (capacity q).
    cbn [m_data set_manager set_slot]. pose proof (lookup_lt_Some _ _ _ Hk).
    replace (h + 1 + Z.of_nat k) with (h + Z.of_nat (S k)) by lia.
    pose proof (slot_bound _ Hc (h + Z.of_nat (S k))). pose proof (slot_inj _ Hc (h + Z.of_nat (S k)) h).
    rewrite list_lookup_insert_ne by lia. by apply (qr_item _ _ _ _ Q).
  - intros n Hn. change (capacity (set_manager m _)) with (capacity q) in *.
    cbn [m_data set_manager set_slot]. pose proof (slot_bound _ Hc n).
    destruct (decide (n = h + capacity q)) as [->|Hne].
    + rewrite (slot_lap _ Hc). apply list_lookup_insert_eq. lia.
    + pose proof (slot_inj _ Hc n h). rewrite list_lookup_insert_ne by lia.
      apply (qr_raw _ _ _ _ Q). cbn [length]. lia.
Qed.

Lemma head_object q items dis h v :
  queue_rep q (v :: items) dis h -> m_data q !! Z.to_nat (h mod capacity q) = Some (Some v).
Proof.
  intros Q. pose proof (qr_item _ _ _ _ Q 0%nat v eq_refl) as Hq. by rewrite Z.add_0_r in Hq.
Qed.

Lemma reserve_push_rep q items h :
  queue_rep q items false h -> Z.of_nat (length items) < capacity q ->
  let t := h + Z.of_nat (length items) in
  reserve_push q = Ok (Success, generation (capacity q) t, t mod capacity q,
                       set_manager (pushed (m_manager q) t) q).
Proof.
  intros Q Hl t. unfold reserve_push.
  change 4%nat with (3 + 1)%nat.
  rewrite (reserve_push_success _ h t false (qr_manager _ _ _ _ Q) 1); [done|done|].
  unfold t, capacity, QueueManager.capacity in *. lia.
Qed.

Lemma reserve_pop_rep q items dis h v :
  queue_rep q (v :: items) dis h ->
  reserve_pop q = Ok (Success, generation (capacity q) h, h mod capacity q,
                      set_manager (popped (m_manager q) h) q).
Proof.
  intros Q. unfold reserve_pop.
  change 4%nat with (3 + 1)%nat. rewrite (reserve_pop_success _ h _ dis (qr_manager _ _ _ _ Q) 1); [done|]. cbn [length]. lia.
Qed.

Lemma reserve_pop_none q dis h :
  queue_rep q [] dis h -> reserve_pop q = Ok (QueueEmpty, 0, 0, q).
Proof.
  intros Q. unfold reserve_pop.
  change 4%nat with (4 + 0)%nat. rewrite (reserve_pop_empty _ h _ dis (qr_manager _ _ _ _ Q) 0); [by destruct q|]. cbn [length]. lia.
Qed.

Lemma tryPushBack_refines q items dis h v :
  queue_rep q items dis h ->
  exists q', tryPushBack false v q = Ok (Some (fst (Spec.push (capacity q) dis v items)), q') /\
    capacity q' = capacity q /\ queue_rep q' (snd (Spec.push (capacity q) dis v items)) dis h.
Proof.
  intros Q. destruct (qr_range _ _ _ _ Q) as (? & Hle & Hc). unfold Spec.push, tryPushBack.
  destruct dis.
  { unfold reserve_push. change 4%nat with (2 + 2)%nat.
    rewrite (reserve_push_disabled _ h _ true (qr_manager _ _ _ _ Q) 2) by done.
    cbn [rbind]. destruct (decide (QueueDisabled = Success)); [done|]. eexists. split; [done|].
    split; [done|]. by eapply queue_rep_ext; [..|exact Q]. }
  destruct (Z.ltb_spec (Z.of_nat (length items)) (capacity q)) as [Hlt|Hge].
  - rewrite (reserve_push_rep q items h Q Hlt). cbn [rbind].
    destruct (decide (Success = Success)); [|done]. unfold construct. cbn [m_data set_manager].
    rewrite (qr_raw _ _ _ _ Q) by lia. cbn [rbind m_manager set_slot set_manager].
    rewrite (push_commits _ _ _ _ Q). cbn [rbind].
    eexists. split; [done|].
    split; [by destruct (0 <? _)|].
    eapply queue_rep_ext; [..|apply (push_success_rep q items h v Q Hlt)]; by destruct (0 <? _).
  - unfold reserve_push. change 4%nat with (4 + 0)%nat.
    rewrite (reserve_push_full _ h (h + Z.of_nat (length items)) false (qr_manager _ _ _ _ Q) 0);
      [|done|unfold capacity, QueueManager.capacity in *; lia].
    cbn [rbind]. destruct (decide (QueueFull = Success)); [done|]. eexists. split; [done|].
    split; [done|]. by eapply queue_rep_ext; [..|exact Q].
Qed.

(** The removal of the head, shared by the pop operations. *)
Lemma pop_guard_refines q items dis h v :
  queue_rep q (v :: items) dis h ->
  let q1 := set_manager (popped (m_manager q) h) q in
  object (h mod capacity q) q1 = Ok v /\
  exists q', pop_guard_dtor (generation (capacity q) h) (h mod capacity q) q1 = Ok q' /\
    capacity q' = capacity q /\ queue_rep q' items dis (h + 1).
Proof.
  intros Q q1. assert (object (h mod capacity q) q1 = Ok v) as Ho.
  { unfold object. cbn. by rewrite (head_object _ _ _ _ _ Q). }
  split; [done|]. unfold pop_guard_dtor, destroy. rewrite Ho. cbn [rbind m_manager set_slot set_manager q1].
  rewrite (pop_commits _ _ _ _ Q). cbn [rbind].
  eexists. split; [done|]. split; [by destruct (0 <? _)|].
  eapply queue_rep_ext; [..|apply (pop_success_rep q items dis h v Q)]; by destruct (0 <? _).
Qed.

Lemma tryPopFront_refines q items dis h :
  queue_rep q items dis h ->
  exists q' h', tryPopFront q = Ok (fst (Spec.pop items), q') /\
    capacity q' = capacity q /\ queue_rep q' (snd (Spec.pop items)) dis h'.
Proof.
  intros Q. unfold tryPopFront. destruct items as [|v items]; cbn [Spec.pop fst snd].
  - rewrite (reserve_pop_none q dis h Q). cbn [rbind].
    destruct (decide (QueueEmpty = Success)); [done|]. by eexists q, h.
  - rewrite (reserve_pop_rep q items dis h v Q). cbn [rbind].
    destruct (decide (Success = Success)); [|done].
    destruct (pop_guard_refines q items dis h v Q) as (-> & q' & Hq' & ? & ?). cbn [rbind].
    rewrite Hq'. cbn [rbind]. by eexists q', (h + 1).
Qed.

Lemma remove_loop_refines n q items dis h k :
  queue_rep q items dis h -> n = length items ->
  exists q' h', remove_loop n k q = Ok (k + Z.of_nat n + 1, q') /\
    capacity q' = capacity q /\ queue_rep q' [] dis h'.
Proof.
  revert q items h k. induction n as [|n IH]; intros q items h k Q Hn; cbn [remove_loop].
  - destruct items; [|done]. eexists q, h. split; [f_equal; f_equal; lia|done].
  - destruct items as [|v items]; [done|]. injection Hn as Hn.
    rewrite (reserve_pop_rep q items dis h v Q). cbn [rbind].
    destruct (decide (Success = Success)); [|done]. unfold destroy.
    destruct (pop_guard_refines q items dis h v Q) as (-> & _). cbn [rbind m_manager set_slot set_manager].
    rewrite (pop_commits _ _ _ _ Q). cbn [rbind].
    destruct (IH _ items (h + 1) (k + 1) (pop_success_rep q items dis h v Q) Hn) as (q' & h' & E & Hc & ?).
    cbn [m_manager set_manager set_slot] in *. unfold set_manager, set_slot in *.
    cbn [m_data m_manager m_waitingPoppers m_popSemaphore m_waitingPushers m_pushSemaphore] in *.
    rewrite E. eexists q', h'. split; [f_equal; f_equal; lia|]. split; [|done]. by rewrite Hc.
Qed.

Lemma queue_size q items dis h : queue_rep q items dis h -> size q = Z.of_nat (length items).
Proof. intros Q. unfold size. rewrite (size_rep _ _ _ _ (qr_manager _ _ _ _ Q)). lia. Qed.

Lemma removeAll_refines q items dis h :
  queue_rep q items dis h ->
  exists q' h', removeAll q = Ok q' /\ capacity q' = capacity q /\ queue_rep q' [] dis h'.
Proof.
  intros Q. unfold removeAll. rewrite (queue_size _ _ _ _ Q), Nat2Z.id.
  destruct (remove_loop_refines _ q items dis h 0 Q eq_refl) as (q' & h' & -> & Hc & Q').
  cbn [rbind]. eexists _, h'. split; [done|]. split; [done|]. by eapply queue_rep_ext; [..|exact Q'].
Qed.

(** The queue while the constructor of the pushed value runs: the reserved cell is
    [Writing], its slot is still raw memory. *)
Record queue_writing q items (h : Z) : Prop := {
  qw_manager : rep_writing (m_manager q) h (h + Z.of_nat (length items));
  qw_len : Z.of_nat (length (m_data q)) = capacity q;
  qw_item k v : items !! k = Some v ->
    m_data q !! Z.to_nat ((h + Z.of_nat k) mod capacity q) = Some (Some v);
  qw_raw n : h + Z.of_nat (length items) <= n < h + capacity q ->
    m_data q !! Z.to_nat (n mod capacity q) = Some None;
}.

Lemma reserve_push_writing q items h :
  queue_rep q items false h -> Z.of_nat (length items) < capacity q ->
  queue_writing (set_manager (pushed (m_manager q) (h + Z.of_nat (length items))) q) items h.
Proof.
  intros Q Hl. destruct (qr_range _ _ _ _ Q) as (? & ? & Hc). split; [|by apply Q..].
  apply pushed_writing; [apply Q|]. unfold capacity, QueueManager.capacity in Hl. lia.
Qed.

Lemma destroy_head_writing q v items h :
  queue_writing q (v :: items) h ->
  exists q', destroy (h mod capacity q) (set_manager (clearing (m_manager q) h) q) = Ok q' /\
    m_manager q' = clearing (m_manager q) h /\ queue_writing (set_manager (cleared (m_manager q) h) q') items (h + 1).
Proof.
  intros Q. pose proof (qw_manager _ _ _ Q) as R. pose proof (rw_cap _ _ _ R) as Hc.
  pose proof (rw_range _ _ _ R) as Hr. cbn [length] in Hr.
  pose proof (slot_bound _ Hc h). pose proof (qw_len _ _ _ Q) as Hl.
  unfold destroy, object. cbn [m_data set_manager].
  pose proof (qw_item _ _ _ Q 0%nat v eq_refl) as Hv. rewrite Z.add_0_r in Hv. rewrite Hv. cbn [rbind].
  eexists. split; [done|]. split; [done|]. split.
  - replace (h + 1 + Z.of_nat (length items)) with (h + Z.of_nat (length (v :: items))) by (cbn [length]; lia).
    apply (cleared_rep _ _ _ R). cbn [length]. lia.
  - cbn. by rewrite length_insert.
  - intros k w Hk. cbn [m_data set_manager set_slot]. pose proof (lookup_lt_Some _ _ _ Hk).
    change (capacity (set_manager _ _)) with (capacity q).
    replace (h + 1 + Z.of_nat k) with (h + Z.of_nat (S k)) by lia.
    pose proof (slot_bound _ Hc (h + Z.of_nat (S k))). pose proof (slot_inj _ Hc (h + Z.of_nat (S k)) h).
    unfold capacity, QueueManager.capacity in *.
    rewrite list_lookup_insert_ne by lia. by apply (qw_item _ _ _ Q).
  - intros n Hn. change (capacity (set_manager _ _)) with (capacity q) in *.
    cbn [m_data set_manager set_slot]. unfold capacity, QueueManager.capacity in *.
    pose proof (slot_bound _ Hc n).
    destruct (decide (n = h + m_capacity (m_manager q))) as [->|Hne].
    + rewrite (slot_lap _ Hc). apply list_lookup_insert_eq. lia.
    + pose proof (slot_inj _ Hc n h). rewrite list_lookup_insert_ne by lia.
      apply (qw_raw _ _ _ Q). unfold capacity, QueueManager.capacity. cbn [length]. lia.
Qed.

Lemma clear_loop_refines items q h t k fuel :
  queue_writing q items h -> t = h + Z.of_nat (length items) -> (length items < fuel)%nat ->
  exists q', clear_loop fuel (generation (capacity q) t) (t mod capacity q) k q
             = Ok (k + Z.of_nat (length items), q') /\
    capacity q' = capacity q /\ queue_writing q' [] t.
Proof.
  revert q h k fuel. induction items as [|v items IH]; intros q h k fuel Q Ht Hf;
    (destruct fuel as [|fuel]; [lia|]); cbn [clear_loop].
  - change 3%nat with (2 + 1)%nat. cbn [length] in *.
    pose proof (clear_step_end _ _ _ (qw_manager _ _ _ Q) 1) as E. cbn [length] in E.
    rewrite Z.add_0_r in *. unfold capacity, QueueManager.capacity in *. rewrite Ht, E by done. cbn [rbind].
    eexists. split; [done|]. split; [done|]. by destruct q.
  - change 3%nat with (3 + 0)%nat. cbn [length] in *.
    pose proof (clear_step_pop _ _ _ (qw_manager _ _ _ Q) 0) as E. cbn [length] in E.
    rewrite <- Ht in E. unfold capacity, QueueManager.capacity. rewrite E by lia. cbn [rbind].
    destruct (destroy_head_writing q v items h Q) as (q1 & E1 & Em & Q1).
    unfold capacity, QueueManager.capacity in E1. rewrite E1. cbn [rbind].
    rewrite Em, (commit_clear_run _ _ _ (qw_manager _ _ _ Q)). cbn [rbind].
    assert (capacity (set_manager (cleared (m_manager q) h) q1) = capacity q) as Hc1 by done.
    destruct (IH _ (h + 1) (k + 1) fuel Q1) as (q' & E' & Hc' & Q'); [lia|lia|].
    rewrite Hc1 in E', Hc'. exists q'. unfold capacity, QueueManager.capacity in *. rewrite E'.
    split; [f_equal; f_equal; lia|done].
Qed.

(** A throwing constructor empties the queue. *)
Lemma tryPushBack_throws q items h v :
  queue_rep q items false h -> Z.of_nat (length items) < capacity q ->
  exists q' h', tryPushBack true v q = Ok (None, q') /\
    capacity q' = capacity q /\ queue_rep q' [] false h'.
Proof.
  intros Q Hl. unfold tryPushBack. rewrite (reserve_push_rep q items h Q Hl). cbn [rbind].
  destruct (decide (Success = Success)); [|done]. unfold push_guard_dtor.
  pose proof (reserve_push_writing q items h Q Hl) as W. set (q1 := set_manager _ q) in *.
  pose proof (qr_len _ _ _ _ Q) as Hd.
  destruct (clear_loop_refines items q1 h (h + Z.of_nat (length items)) 1 (S (length (m_data q1))) W)
    as (q' & E & Hc & W'); [done|cbn; lia|].
  change (capacity q1) with (capacity q) in E, Hc. rewrite E. cbn [rbind].
  pose proof (abort_run _ _ _ (qw_manager _ _ _ W')) as Ha. cbn [length] in Ha. rewrite Z.add_0_r in Ha.
  change (m_capacity (m_manager q')) with (capacity q') in Ha. rewrite <- Hc, (Ha eq_refl). cbn [rbind].
  eexists _, (h + Z.of_nat (length items) + 1). split; [done|].
  set (q2 := notify_push _ _). assert (capacity q2 = capacity q') as Hc' by done.
  split; [done|].
  pose proof (rw_cap _ _ _ (qw_manager _ _ _ W')) as Hcap.
  split; cbn [m_manager m_data notify_push set_manager length].
  - pose proof (abort_rep _ _ _ (qw_manager _ _ _ W')) as A'. cbn [length] in A'.
    rewrite !Z.add_0_r in *. by apply A'.
  - rewrite Hc'. apply W'.
  - done.
  - intros n Hn. rewrite Hc' in *.
    destruct (decide (n = h + Z.of_nat (length items) + capacity q')) as [->|Hne].
    + unfold capacity, QueueManager.capacity in *. rewrite (slot_lap _ Hcap).
      apply (qw_raw _ _ _ W'). cbn [length]. unfold capacity, QueueManager.capacity. lia.
    + apply (qw_raw _ _ _ W'). cbn [length]. lia.
Qed.

Lemma full_refines q items dis h :
  queue_rep q items dis h -> full q = (capacity q <=? Z.of_nat (length items)).
Proof. intros Q. unfold full. by rewrite (queue_size _ _ _ _ Q). Qed.

Lemma empty_refines q items dis h :
  queue_rep q items dis h -> empty q = bool_decide (items = []).
Proof.
  intros Q. unfold empty. rewrite (queue_size _ _ _ _ Q).
  destruct items; [done|]. rewrite bool_decide_false by done. apply Z.leb_gt. cbn [length]. lia.
Qed.

Lemma enabled_refines q items dis h : queue_rep q items dis h -> enabled q = negb dis.
Proof. intros Q. apply (enabled_rep _ _ _ _ (qr_manager _ _ _ _ Q)). Qed.

Lemma popFrontWithTimeout_refines q items dis h :
  queue_rep q items dis h ->
  exists q' h', popFrontWithTimeout q = Ok (fst (Spec.pop items), q') /\
    capacity q' = capacity q /\ queue_rep q' (snd (Spec.pop items)) dis h'.
Proof.
  intros Q. unfold popFrontWithTimeout. destruct items as [|v items]; cbn [Spec.pop fst snd].
  - cbn [pop_timeout_loop]. rewrite (reserve_pop_none q dis h Q). cbn [rbind bool_decide orb].
    assert (queue_rep (add_poppers 1 q) [] dis h) as Q1 by (by eapply queue_rep_ext; [..|exact Q]).
    rewrite bool_decide_false by done. cbn [orb]. rewrite (empty_refines _ _ _ _ Q1). cbn [bool_decide].
    rewrite bool_decide_true by done.
    set (q2 := add_poppers (-1) (pop_wait_for (add_poppers 1 q))).
    assert (m_data q2 = m_data q /\ m_manager q2 = m_manager q) as [Hd Hm]
      by (unfold q2, pop_wait_for; by destruct (0 <? _)).
    assert (queue_rep q2 [] dis h) as Q2 by (by eapply queue_rep_ext; [symmetry..|exact Q]).
    rewrite (reserve_pop_none q2 dis h Q2). cbn [rbind]. rewrite bool_decide_false by done. cbn [orb rbind].
    exists q2, h. split; [done|]. split; [|done]. unfold capacity. by rewrite Hm.
  - cbn [pop_timeout_loop]. rewrite (reserve_pop_rep q items dis h v Q). cbn [rbind].
    rewrite bool_decide_true by done. cbn [orb rbind].
    destruct (pop_guard_refines q items dis h v Q) as (-> & q' & Hq' & ? & ?). cbn [rbind].
    rewrite Hq'. cbn [rbind]. by eexists q', (h + 1).
Qed.

(** A change of the flag alone. *)
Lemma toggle_refines q q' items dis dis' h :
  queue_rep q items dis h -> m_data q' = m_data q -> capacity q' = capacity q ->
  rep (m_manager q') h (h + Z.of_nat (length items)) dis' -> queue_rep q' items dis' h.
Proof. intros [_ ? ? ?] Hd Hc ?. split; rewrite ?Hd, ?Hc; try done. Qed.

Lemma disable_capacity q : capacity (disable q) = capacity q.
Proof.
  unfold capacity. cbn [m_manager disable notify_push set_manager].
  unfold QueueManager.disable, cas_push. by repeat case_match.
Qed.

Lemma enable_capacity q : capacity (enable q) = capacity q.
Proof.
  unfold capacity. cbn [m_manager enable set_manager].
  unfold QueueManager.enable, cas_push. by repeat case_match.
Qed.

Lemma tryPushBack_throws_refused q items dis h v :
  queue_rep q items dis h -> fst (Spec.push (capacity q) dis v items) <> Success ->
  tryPushBack true v q = tryPushBack false v q.
Proof.
  intros Q Hr. destruct (tryPushBack_refines q items dis h v Q) as (q' & E & _).
  unfold tryPushBack in *. destruct (reserve_push q) as [[[[r g] i] q1]| | |]; [|done..].
  cbn [rbind] in *. destruct (decide (r = Success)) as [->|]; [|done].
  apply rbind_inv in E as (q2 & _ & E). apply rbind_inv in E as (m & _ & E). congruence.
Qed.
End refinement.

(** ** Sequences of calls *)
Inductive op (A : Type) :=
  | PushBack (v : A) | PushBackThrowing (v : A) | PopFront | PopFrontTimeout
  | RemoveAll | Disable | Enable | Size | IsFull | IsEmpty | IsEnabled.
Arguments PushBack {A}. Arguments PushBackThrowing {A}. Arguments PopFront {A}.
Arguments PopFrontTimeout {A}. Arguments RemoveAll {A}. Arguments Disable {A}. Arguments Enable {A}.
Arguments Size {A}. Arguments IsFull {A}. Arguments IsEmpty {A}. Arguments IsEnabled {A}.

Inductive result (A : Type) :=
  | Pushed (r : option QueueReturn) | Popped (v : option A) | Returned | Num (n : Z) | Flag (b : bool).
Arguments Pushed {A}. Arguments Popped {A}. Arguments Returned {A}. Arguments Num {A}. Arguments Flag {A}.

Section traces.
Context {A : Type}.
Implicit Types (q : Queue A) (items : list A).

Definition run_op (o : op A) q : res (result A * Queue A) :=
  match o with
  | PushBack v => let* (r, q) := tryPushBack false v q in Ok (Pushed r, q)
  | PushBackThrowing v => let* (r, q) := tryPushBack true v q in Ok (Pushed r, q)
  | PopFront => let* (v, q) := tryPopFront q in Ok (Popped v, q)
  | PopFrontTimeout => let* (v, q) := popFrontWithTimeout q in Ok (Popped v, q)
  | RemoveAll => let* q := removeAll q in Ok (Returned, q)
  | Disable => Ok (Returned, disable q)
  | Enable => Ok (Returned, enable q)
  | Size => Ok (Num (size q), q)
  | IsFull => Ok (Flag (full q), q)
  | IsEmpty => Ok (Flag (empty q), q)
  | IsEnabled => Ok (Flag (enabled q), q)
  end.

Fixpoint run_ops (os : list (op A)) q : res (list (result A)) :=
  match os with
  | [] => Ok []
  | o :: os =>
      let* (r, q) := run_op o q in
      let* rs := run_ops os q in
      Ok (r :: rs)
  end.

(** The contract: a list of at most [cap] items and the disabled flag. *)
Definition spec_op (cap : Z) (o : op A) (s : list A * bool) : result A * (list A * bool) :=
  let '(items, dis) := s in
  match o with
  | PushBack v => let '(r, items) := Spec.push cap dis v items in (Pushed (Some r), (items, dis))
  | PushBackThrowing v =>
      match Spec.push cap dis v items with
      | (Success, _) => (Pushed None, ([], dis))
      | (r, _) => (Pushed (Some r), (items, dis))
      end
  | PopFront | PopFrontTimeout => let '(v, items) := Spec.pop items in (Popped v, (items, dis))
  | RemoveAll => (Returned, ([], dis))
  | Disable => (Returned, (items, true))
  | Enable => (Returned, (items, false))
  | Size => (Num (Z.of_nat (length items)), s)
  | IsFull => (Flag (cap <=? Z.of_nat (length items)), s)
  | IsEmpty => (Flag (bool_decide (items = [])), s)
  | IsEnabled => (Flag (negb dis), s)
  end.

Fixpoint spec_ops (cap : Z) (os : list (op A)) (s : list A * bool) : list (result A) :=
  match os with
  | [] => []
  | o :: os => let '(r, s) := spec_op cap o s in r :: spec_ops cap os s
  end.

Lemma run_op_refines o q items dis h :
  queue_rep q items dis h ->
  exists q' h', run_op o q = Ok (fst (spec_op (capacity q) o (items, dis)), q') /\
    capacity q' = capacity q /\
    let s := snd (spec_op (capacity q) o (items, dis)) in queue_rep q' (fst s) (snd s) h'.
Proof.
  intros Q. destruct o as [v|v| | | | | | | | |]; cbn [run_op spec_op].
  - destruct (tryPushBack_refines q items dis h v Q) as (q' & -> & ? & ?).
    destruct (Spec.push _ _ _ _). by exists q', h.
  - destruct (Spec.push (capacity q) dis v items) as [r items'] eqn:E.
    destruct (decide (r = Success)) as [->|Hr].
    + unfold Spec.push in E. destruct dis; [done|].
      destruct (Z.ltb_spec (Z.of_nat (length items)) (capacity q)); [|done].
      destruct (tryPushBack_throws q items h v) as (q' & h' & -> & ? & ?); [done|done|].
      by exists q', h'.
    + rewrite (tryPushBack_throws_refused q items dis h v Q) by (by rewrite E).
      destruct (tryPushBack_refines q items dis h v Q) as (q' & -> & ? & Q').
      rewrite E in *. cbn [fst snd] in Q'. exists q', h.
      unfold Spec.push in E. repeat case_match; simplify_eq; done.
  - destruct (tryPopFront_refines q items dis h Q) as (q' & h' & -> & ? & ?).
    destruct (Spec.pop items). by exists q', h'.
  - destruct (popFrontWithTimeout_refines q items dis h Q) as (q' & h' & -> & ? & ?).
    destruct (Spec.pop items). by exists q', h'.
  - destruct (removeAll_refines q items dis h Q) as (q' & h' & -> & ? & ?). by exists q', h'.
  - exists (disable q), h. split; [done|]. split; [apply disable_capacity|].
    apply (toggle_refines q _ items dis); [done|done|apply disable_capacity|].
    apply (disable_rep _ _ _ _ (qr_manager _ _ _ _ Q)).
  - exists (enable q), h. split; [done|]. split; [apply enable_capacity|].
    apply (toggle_refines q _ items dis); [done|done|apply enable_capacity|].
    apply (enable_rep _ _ _ _ (qr_manager _ _ _ _ Q)).
  - exists q, h. by rewrite (queue_size _ _ _ _ Q).
  - exists q, h. by rewrite (full_refines _ _ _ _ Q).
  - exists q, h. by rewrite (empty_refines _ _ _ _ Q).
  - exists q, h. by rewrite (enabled_refines _ _ _ _ Q).
Qed.

Lemma run_ops_refines os q items dis h :
  queue_rep q items dis h -> run_ops os q = Ok (spec_ops (capacity q) os (items, dis)).
Proof.
  revert q items dis h. induction os as [|o os IH]; intros q items dis h Q; [done|].
  cbn [run_ops spec_ops]. destruct (run_op_refines o q items dis h Q) as (q' & h' & -> & Hc & Q').
  destruct (spec_op (capacity q) o (items, dis)) as [r [items' dis']]. cbn [rbind fst snd] in *.
  by rewrite (IH q' items' dis' h' Q'), Hc.
Qed.
End traces.

(** C21. Every sequence of calls on a queue of any legal capacity gives, call by call,
    the results of a bounded FIFO list with a disabled flag: pushes are refused exactly
    when it is full or disabled, pops return the oldest item, a push whose constructor
    throws leaves the queue empty, and no call reads raw memory or runs out of its steps. *)
Theorem queue_refines_fifo {A} (cap : Z) (os : list (op A)) :
  0 < cap <= MAX_CAPACITY -> run_ops os (newQueue cap) = Ok (spec_ops cap os ([], false)).
Proof. intros Hc. by apply run_ops_refines with (h := 0), newQueue_rep. Qed.

Lemma queue_refines_fifo_witness :
  let os := [PushBack 7; PushBack 8; PushBack 9; PopFront; Disable; PushBack 1; Enable;
             Size; PushBackThrowing 4; IsEmpty; PopFrontTimeout] in
  0 < 2 <= MAX_CAPACITY /\
  run_ops os (newQueue 2) = Ok (spec_ops 2 os ([], false)) /\
  spec_ops 2 os ([], false)
  = [Pushed (Some Success); Pushed (Some Success); Pushed (Some QueueFull); Popped (Some 7);
     Returned; Pushed (Some QueueDisabled); Returned; Num 1; Pushed None; Flag true; Popped None].
Proof.
  intros os. assert (0 < 2 <= MAX_CAPACITY) as H by (split; vm_compute; congruence).
  split; [exact H|]. split; [exact (queue_refines_fifo 2 os H)|vm_compute; reflexivity].
Defined.
