(* ===== verification/QueueConcurrent.v ===== *)
(** * The queue under any interleaving of threads

    Any number of threads call [tryPushBack], [tryPopFront], [disable] and [enable]
    on one queue; a thread's step is one atomic access of the manager, or the construction,
    move or destruction of an object in [m_data], in the order of queue.hpp and
    queue_manager.cpp. A step of any thread may follow a step of any other. A constructor
    may throw, which runs [~QueuePushGuard] among the other threads.

    [claims] lists the cells the threads hold. [inv] says that no cell is held twice, that
    a held cell is in the state its holder put it in, and that objects exist exactly in the
    full cells and in the cells whose holder has one there. *)

From S2P Require Import Prelude QueueManager Queue.

(** A thread between two steps, with what its locals hold. *)
Inductive thread (A : Type) :=
| Idle
| PushRes (v : A) (pc : push_pc)
| PushHold (v : A) (generation index : Z)
| PushBuilt (generation index : Z)
| PopRes (pc : pop_pc)
| PopHold (generation index : Z)
| PopMoved (v : A) (generation index : Z)
| PopFreed (v : A) (generation index : Z)
| Clearing (generation index : Z) (pc : clear_pc)
| ClearHold (generation index g i : Z)
| ClearFreed (generation index g i : Z)
| AbortLoad (generation index : Z)
| AbortStore (generation index loadedPopIndex : Z)
| AbortCas (generation index loadedPopIndex : Z)
| AbortFree (generation index : Z)
| DisableLoad
| DisableCas (index : Z)
| EnableLoad
| EnableCas (index : Z).
Arguments Idle {A}. Arguments PushRes {A}. Arguments PushHold {A}. Arguments PushBuilt {A}.
Arguments PopRes {A}. Arguments PopHold {A}. Arguments PopMoved {A}. Arguments PopFreed {A}.
Arguments Clearing {A}. Arguments ClearHold {A}. Arguments ClearFreed {A}. Arguments AbortLoad {A}.
Arguments AbortStore {A}. Arguments AbortCas {A}. Arguments AbortFree {A}.
Arguments DisableLoad {A}. Arguments DisableCas {A}. Arguments EnableLoad {A}. Arguments EnableCas {A}.

(** What a thread does next where the code leaves a choice: the call an idle thread makes,
    and whether a constructor throws. *)
Inductive choice (A : Type) :=
| CallPush (v : A) | CallPop | CallDisable | CallEnable | CtorThrows | Go.
Arguments CallPush {A}. Arguments CallPop {A}. Arguments CallDisable {A}. Arguments CallEnable {A}.
Arguments CtorThrows {A}. Arguments Go {A}.

(** The shared queue and three histories: the values constructed in the queue, the values
    returned by pops, and the values destroyed by an emptying guard. *)
Record shared (A : Type) := MkShared {
  queue : Queue A;
  built : list A;
  returned : list A;
  dropped : list A;
}.
Arguments MkShared {A}. Arguments queue {A}. Arguments built {A}. Arguments returned {A}. Arguments dropped {A}.

Section steps.
Context {A : Type}.
Implicit Types (s : shared A) (t : thread A).

Definition upd_manager (m : QueueManager) s : shared A :=
  MkShared (set_manager m (queue s)) (built s) (returned s) (dropped s).
Definition manager s : QueueManager := m_manager (queue s).

Definition tstep (c : choice A) s t : res (shared A * thread A) :=
  match t with
  | Idle =>
      Ok match c with
         | CallPush v => (s, PushRes v PushStart)
         | CallPop => (s, PopRes PopStart)
         | CallDisable => (s, DisableLoad)
         | CallEnable => (s, EnableLoad)
         | _ => (s, Idle)
         end
  | PushRes v pc =>
      let* (m, pc) := push_step (manager s) pc in
      Ok (upd_manager m s,
          match pc with
          | PushRet Success g i => PushHold v g i
          | PushRet _ _ _ => Idle
          | _ => PushRes v pc
          end)
  | PushHold v g i =>
      match c with
      | CtorThrows => Ok (s, Clearing g i ClearStart)
      | _ =>
          let* q := construct i v (queue s) in
          Ok (MkShared q (v :: built s) (returned s) (dropped s), PushBuilt g i)
      end
  | PushBuilt g i => let* m := commitPushIndex (manager s) g i in Ok (upd_manager m s, Idle)
  | PopRes pc =>
      let* (m, pc) := pop_step (manager s) pc in
      Ok (upd_manager m s,
          match pc with
          | PopRet Success g i => PopHold g i
          | PopRet _ _ _ => Idle
          | _ => PopRes pc
          end)
  | PopHold g i => let* v := object i (queue s) in Ok (s, PopMoved v g i)
  | PopMoved v g i =>
      let* q := destroy i (queue s) in
      Ok (MkShared q (built s) (v :: returned s) (dropped s), PopFreed v g i)
  | PopFreed v g i => let* m := commitPopIndex (manager s) g i in Ok (upd_manager m s, Idle)
  | Clearing g i pc =>
      let* (m, pc) := clear_step g i (manager s) pc in
      Ok (upd_manager m s,
          match pc with
          | ClearRet true g' i' => ClearHold g i g' i'
          | ClearRet false _ _ => AbortLoad g i
          | _ => Clearing g i pc
          end)
  | ClearHold g i g' i' =>
      let* v := object i' (queue s) in
      let* q := destroy i' (queue s) in
      Ok (MkShared q (built s) (returned s) (v :: dropped s), ClearFreed g i g' i')
  | ClearFreed g i g' i' =>
      let* m := commitPopIndex (manager s) g' i' in Ok (upd_manager m s, Clearing g i ClearStart)
  | AbortLoad g i => Ok (s, AbortStore g i (m_popIndex (manager s)))
  | AbortStore g i loaded =>
      let* m := store_state i (encodeElement g Reading) (manager s) in Ok (upd_manager m s, AbortCas g i loaded)
  | AbortCas g i loaded =>
      let '(_, _, m) := cas_pop loaded (nextCombinedIndex (manager s) loaded) (manager s) in
      Ok (upd_manager m s, AbortFree g i)
  | AbortFree g i =>
      let* m := store_state i (encodeElement (nextGeneration (manager s) g) Empty) (manager s) in Ok (upd_manager m s, Idle)
  | DisableLoad =>
      let index := m_pushIndex (manager s) in
      Ok (s, if isDisabledFlagSet index then Idle else DisableCas index)
  | DisableCas index =>
      let '(ok, _, m) := cas_push index (Z.lor index DISABLED_STATE_MASK) (manager s) in
      Ok (upd_manager m s, if ok : bool then Idle else DisableLoad)
  | EnableLoad =>
      let index := m_pushIndex (manager s) in
      Ok (s, if negb (isDisabledFlagSet index) then Idle else EnableCas index)
  | EnableCas index =>
      let '(ok, _, m) := cas_push index (Z.land index (u32 (Z.lnot DISABLED_STATE_MASK))) (manager s) in
      Ok (upd_manager m s, if ok : bool then Idle else EnableLoad)
  end.

(** One step of one thread. *)
Inductive step : shared A * list (thread A) -> shared A * list (thread A) -> Prop :=
| step_thread s ts1 t ts2 c s' t' :
    tstep c s t = Ok (s', t') -> step (s, ts1 ++ t :: ts2) (s', ts1 ++ t' :: ts2).

Definition initial (cap : Z) (n : nat) : shared A * list (thread A) :=
  (MkShared (newQueue cap) [] [] [], replicate n Idle).
Definition reachable (cap : Z) (n : nat) (c : shared A * list (thread A)) : Prop :=
  rtc step (initial cap n) c.

(** ** Held cells *)
Inductive object_spec := NoObject | AnyObject | TheObject (v : A).
Record claim := Claim { c_index : Z; c_state : ElementState; c_object : object_spec }.

Definition claims_of t : list claim :=
  match t with
  | PushRes _ (PushGot _ _ i) => [Claim i Writing NoObject]
  | PushHold _ _ i => [Claim i Writing NoObject]
  | PushBuilt _ i => [Claim i Writing AnyObject]
  | PopRes (PopGot _ _ i) => [Claim i Reading AnyObject]
  | PopHold _ i => [Claim i Reading AnyObject]
  | PopMoved v _ i => [Claim i Reading (TheObject v)]
  | PopFreed _ _ i => [Claim i Reading NoObject]
  | Clearing _ i (ClearGot _ _ i') => [Claim i Writing NoObject; Claim i' Reading AnyObject]
  | Clearing _ i _ => [Claim i Writing NoObject]
  | ClearHold _ i _ i' => [Claim i Writing NoObject; Claim i' Reading AnyObject]
  | ClearFreed _ i _ i' => [Claim i Writing NoObject; Claim i' Reading NoObject]
  | AbortLoad _ i | AbortStore _ i _ => [Claim i Writing NoObject]
  | AbortCas _ i _ | AbortFree _ i => [Claim i Reading NoObject]
  | _ => []
  end.
Definition claims (ts : list (thread A)) : list claim := flat_map claims_of ts.

Definition state_at (q : Queue A) (i : Z) : ElementState :=
  decodeStateFromElementState (cell (m_manager q) i).
Definition slot_at (q : Queue A) (i : Z) : option (option A) := m_data q !! Z.to_nat i.

Definition object_ok (o : object_spec) (slot : option (option A)) : Prop :=
  match o with
  | NoObject => slot = Some None
  | AnyObject => exists v, slot = Some (Some v)
  | TheObject v => slot = Some (Some v)
  end.

(** The claims on one cell: none on an empty or full one, one on any other. *)
Definition at_index (i : Z) (cl : list claim) : list claim := filter (fun c => c_index c = i) cl.
Definition cell_ok (q : Queue A) (i : Z) (cl : list claim) : Prop :=
  match cl with
  | [] => (state_at q i = Empty /\ object_ok NoObject (slot_at q i)) \/
          (state_at q i = Full /\ object_ok AnyObject (slot_at q i))
  | [c] => state_at q i = c_state c /\ object_ok (c_object c) (slot_at q i) /\
           (c_state c = Writing \/ c_state c = Reading)
  | _ => False
  end.

Record cells_ok (q : Queue A) (cl : list claim) : Prop := {
  co_cap : 0 < capacity q;
  co_data : Z.of_nat (length (m_data q)) = capacity q;
  co_states : Z.of_nat (length (m_states (m_manager q))) = capacity q;
  co_range : Forall (fun c => 0 <= c_index c < capacity q) cl;
  co_cell i : 0 <= i < capacity q -> cell_ok q i (at_index i cl);
}.

(** No value is lost or duplicated. *)
Definition conserved (s : shared A) : Prop :=
  built s ≡ₚ returned s ++ dropped s ++ omap id (m_data (queue s)).

(** A reservation that returned is not stored: the thread has moved on. *)
Definition thread_wf t : Prop :=
  match t with
  | PushRes _ (PushRet _ _ _) | PopRes (PopRet _ _ _) | Clearing _ _ (ClearRet _ _ _) => False
  | _ => True
  end.

Definition inv (c : shared A * list (thread A)) : Prop :=
  cells_ok (queue (fst c)) (claims (snd c)) /\ conserved (fst c) /\ Forall thread_wf (snd c).
End steps.

Section invariant.
Context {A : Type}.
Implicit Types (q : Queue A) (s : shared A) (t : thread A) (cl own ctx : list (@claim A)).

Lemma decode_encode g st : decodeStateFromElementState (encodeElement g st) = st.
Proof.
  unfold decodeStateFromElementState, encodeElement, ELEMENT_STATE_MASK, GENERATION_COUNT_SHIFT.
  assert (Z.land (Z.lor (u32 (Z.shiftl g 2)) (to_underlying st)) 3 = to_underlying st) as ->; [|by destruct st].
  rewrite Z.land_lor_distr_l. replace (Z.land (u32 (Z.shiftl g 2)) 3) with 0; [by destruct st|].
  change 3 with (Z.ones 2). rewrite Z.land_ones, Z.shiftl_mul_pow2 by lia. unfold u32, wrap.
  change (2 ^ 32) with (2 ^ 2 * 2 ^ 30). rewrite Z.mul_comm, Z.mul_mod_distr_l by lia.
  by rewrite Z.mul_comm, Z.mod_mul by lia.
Qed.

Lemma at_index_app i cl cl' : at_index i (cl ++ cl') = at_index i cl ++ at_index i cl'.
Proof. apply filter_app. Qed.

Lemma cell_ok_perm q i cl cl' : cl ≡ₚ cl' -> cell_ok q i cl -> cell_ok q i cl'.
Proof.
  intros Hp. destruct cl as [|c [|]]; intros H; [|apply Permutation_singleton_l in Hp; by subst|done].
  apply Permutation_nil_l in Hp. by subst.
Qed.

#[global] Instance cells_ok_proper : Proper (eq ==> (≡ₚ) ==> iff) (@cells_ok A).
Proof.
  intros q ? <- cl cl' Hp. split; intros [? ? ? ? Hc]; split; try done.
  - by rewrite <- Hp.
  - intros i Hi. eapply cell_ok_perm; [|by apply Hc]. unfold at_index. by rewrite Hp.
  - by rewrite Hp.
  - intros i Hi. eapply cell_ok_perm; [|by apply Hc]. unfold at_index. by rewrite Hp.
Qed.

(** [q'] differs from [q] at most in the cell and the slot [i]. *)
Record touches (i : Z) (q q' : Queue A) : Prop := {
  to_cap : capacity q' = capacity q;
  to_data : length (m_data q') = length (m_data q);
  to_states : length (m_states (m_manager q')) = length (m_states (m_manager q));
  to_other j : 0 <= j -> j <> i -> state_at q' j = state_at q j /\ slot_at q' j = slot_at q j;
}.

Lemma touches_state i x q q' :
  0 <= i -> m_data q' = m_data q -> capacity q' = capacity q ->
  m_states (m_manager q') = <[Z.to_nat i := x]> (m_states (m_manager q)) -> touches i q q'.
Proof.
  intros Hi Hd Hc Hs. split; [done|by rewrite Hd|by rewrite Hs, length_insert|].
  intros j Hj Hne. unfold state_at, slot_at, cell. rewrite Hd, Hs. split; [|done].
  by rewrite !list_lookup_total_alt, list_lookup_insert_ne by lia.
Qed.

Lemma touches_slot i x q : 0 <= i -> touches i q (set_slot i x q).
Proof.
  intros Hi. split; [done|apply length_insert|done|]. intros j Hj Hne. split; [done|].
  unfold slot_at. cbn. by rewrite list_lookup_insert_ne by lia.
Qed.

Lemma touches_none i q q' :
  m_data q' = m_data q -> capacity q' = capacity q ->
  m_states (m_manager q') = m_states (m_manager q) -> touches i q q'.
Proof.
  intros Hd Hc Hs. split; [done|by rewrite Hd|by rewrite Hs|].
  intros j Hj Hne. unfold state_at, slot_at, cell. by rewrite Hd, Hs.
Qed.

Lemma state_set q q' i x :
  0 <= i < Z.of_nat (length (m_states (m_manager q))) ->
  m_states (m_manager q') = <[Z.to_nat i := x]> (m_states (m_manager q)) ->
  state_at q' i = decodeStateFromElementState x.
Proof.
  intros Hi Hs. unfold state_at, cell. rewrite Hs, list_lookup_total_alt, list_lookup_insert_eq by lia. done.
Qed.

Lemma at_index_same i (h : list (@claim A)) : Forall (fun c => c_index c = i) h -> at_index i h = h.
Proof. induction 1; [done|]. unfold at_index in *. by rewrite filter_cons_True by done; f_equal. Qed.

Lemma at_index_other i j (h : list (@claim A)) :
  Forall (fun c => c_index c = i) h -> j <> i -> at_index j h = [].
Proof. intros H Hne. induction H; [done|]. unfold at_index in *. by rewrite filter_cons_False by congruence. Qed.

(** A change of one cell by its holder, or by a thread that becomes or ceases to be its
    holder: [h] and [h'] are its claims on the cell before and after. *)
Lemma cells_ok_hold q q' own h h' ctx i :
  cells_ok q ((own ++ h) ++ ctx) -> 0 <= i < capacity q -> touches i q q' ->
  Forall (fun c => c_index c = i) h -> Forall (fun c => c_index c = i) h' ->
  (h = [] -> state_at q i = Empty \/ state_at q i = Full) ->
  cell_ok q' i h' -> cells_ok q' ((own ++ h') ++ ctx).
Proof.
  intros [? Hd Hs Hr Hc] Hi [Tc Td Ts To] Hh Hh' Hempty Hok.
  apply Forall_app in Hr as [[Hro _]%Forall_app Hrc].
  assert (at_index i own = [] /\ at_index i ctx = []) as [Eo Ec].
  { specialize (Hc i Hi). rewrite !at_index_app, (at_index_same _ _ Hh) in Hc.
    destruct h as [|c h].
    - rewrite app_nil_r in Hc. specialize (Hempty eq_refl).
      destruct (at_index i own ++ at_index i ctx) as [|c [|]] eqn:E.
      + by apply app_eq_nil in E.
      + destruct Hc as (Hst & _ & Hw). rewrite Hst in Hempty. destruct Hempty, Hw; congruence.
      + done.
    - destruct (at_index i own) as [|c1 o1]; cbn in Hc; [|by destruct o1].
      destruct h as [|]; [|done]. cbn in Hc. by destruct (at_index i ctx). }
  split; [lia|lia|lia|..].
  - rewrite Tc. repeat (apply Forall_app; split); [done| |done]. eapply Forall_impl; [exact Hh'|]. simpl. lia.
  - intros j Hj. rewrite Tc in Hj. rewrite !at_index_app. destruct (decide (j = i)) as [->|Hne].
    + by rewrite Eo, Ec, (at_index_same _ _ Hh'), app_nil_r.
    + specialize (Hc j Hj). rewrite !at_index_app, (at_index_other i j h) in Hc by done.
      rewrite (at_index_other i j h') by done. destruct (To j ltac:(lia) Hne) as [H1 H2].
      unfold cell_ok in *. by rewrite H1, H2.
Qed.

(** Nothing changes but the indexes. *)
Lemma cells_ok_frame q q' cl :
  m_data q' = m_data q -> capacity q' = capacity q ->
  m_states (m_manager q') = m_states (m_manager q) -> cells_ok q cl -> cells_ok q' cl.
Proof.
  intros Hd Hc Hs [? ? ? ? Hok]. split; rewrite ?Hd, ?Hs, ?Hc; try done.
  intros i Hi. specialize (Hok i Hi). unfold cell_ok, state_at, slot_at, cell in *. by rewrite Hd, Hs.
Qed.

(** What a holder knows of its cell. *)
Lemma cells_ok_own q own c ctx :
  cells_ok q ((own ++ [c]) ++ ctx) ->
  0 <= c_index c < capacity q /\ state_at q (c_index c) = c_state c /\
  object_ok (c_object c) (slot_at q (c_index c)) /\ (c_state c = Writing \/ c_state c = Reading).
Proof.
  intros [? _ _ Hr Hc]. apply Forall_app in Hr as [[_ Hr]%Forall_app _]. apply Forall_inv in Hr.
  split; [exact Hr|]. specialize (Hc _ Hr). rewrite !at_index_app in Hc.
  rewrite (at_index_same (c_index c) [c]) in Hc by (by constructor).
  destruct (at_index _ own) as [|c1 o1]; cbn in Hc; [|by destruct o1].
  by destruct (at_index _ ctx).
Qed.

Lemma free_object q cl i :
  cells_ok q cl -> 0 <= i < capacity q ->
  (state_at q i = Empty -> object_ok NoObject (slot_at q i)) /\
  (state_at q i = Full -> object_ok AnyObject (slot_at q i)).
Proof.
  intros [_ _ _ _ Hc] Hi. specialize (Hc i Hi). unfold cell_ok in Hc.
  destruct (at_index i cl) as [|c [|]].
  - split; intros E; rewrite E in Hc; naive_solver.
  - destruct Hc as (E & _ & Hw). rewrite E. split; intros E'; rewrite E' in Hw; by destruct Hw.
  - destruct Hc.
Qed.

Lemma u32_slot_bound x q : 0 < capacity q -> 0 <= u32 (x mod capacity q) < capacity q.
Proof.
  intros Hc. pose proof (Z.mod_pos_bound x (capacity q) Hc). unfold u32, wrap.
  pose proof (Z.mod_pos_bound (x mod capacity q) (2 ^ 32)).
  pose proof (Z.mod_le (x mod capacity q) (2 ^ 32)). lia.
Qed.

(** The compare-exchange that takes a cell. *)
Lemma acquire q own ctx i g st st' o m' :
  cells_ok q (own ++ ctx) -> 0 <= i < capacity q -> cell (m_manager q) i = encodeElement g st ->
  (st = Empty /\ st' = Writing /\ o = NoObject) \/ (st = Full /\ st' = Reading /\ o = AnyObject) ->
  QueueManager.capacity m' = capacity q ->
  m_states m' = <[Z.to_nat i := encodeElement g st']> (m_states (m_manager q)) ->
  cells_ok (set_manager m' q) ((own ++ [Claim i st' o]) ++ ctx).
Proof.
  intros H Hi Hcell Hst Hc Hs. assert (state_at q i = st) as Hat by (unfold state_at; by rewrite Hcell, decode_encode).
  destruct (free_object _ _ _ H Hi) as [He Hf].
  apply (cells_ok_hold q _ own [] _ ctx i).
  - by rewrite app_nil_r.
  - done.
  - apply touches_state with (x := encodeElement g st'); [lia|done..].
  - done.
  - by constructor.
  - rewrite Hat. naive_solver.
  - assert (state_at (set_manager m' q) i = st') as Hst'.
    { erewrite state_set; [apply decode_encode| |exact Hs]. rewrite (co_states _ _ H). lia. }
    cbn [cell_ok c_state c_object]. change (slot_at (set_manager m' q)) with (slot_at q).
    rewrite Hst'. naive_solver.
Qed.

(** The store that gives a cell up, or moves a held one to another held state. *)
Lemma release q own ctx i g st st' o m' :
  cells_ok q ((own ++ [Claim i st o]) ++ ctx) ->
  (st' = Empty /\ o = NoObject) \/ (st' = Full /\ o = AnyObject) ->
  QueueManager.capacity m' = capacity q ->
  m_states m' = <[Z.to_nat i := encodeElement g st']> (m_states (m_manager q)) ->
  cells_ok (set_manager m' q) (own ++ ctx).
Proof.
  intros H Hst Hc Hs. destruct (cells_ok_own _ _ _ _ H) as (Hi & _ & Ho & _). cbn in Hi, Ho.
  rewrite <- (app_nil_r own). apply (cells_ok_hold q _ own [Claim i st o] [] ctx i); try done.
  - apply touches_state with (x := encodeElement g st'); [lia|done..].
  - by constructor.
  - assert (state_at (set_manager m' q) i = st') as Hst'.
    { erewrite state_set; [apply decode_encode| |exact Hs]. rewrite (co_states _ _ H). lia. }
    cbn [cell_ok]. change (slot_at (set_manager m' q)) with (slot_at q). rewrite Hst'. naive_solver.
Qed.

Lemma rehold q own ctx i g st st' o m' :
  cells_ok q ((own ++ [Claim i st o]) ++ ctx) -> st' = Writing \/ st' = Reading ->
  QueueManager.capacity m' = capacity q ->
  m_states m' = <[Z.to_nat i := encodeElement g st']> (m_states (m_manager q)) ->
  cells_ok (set_manager m' q) ((own ++ [Claim i st' o]) ++ ctx).
Proof.
  intros H Hst Hc Hs. destruct (cells_ok_own _ _ _ _ H) as (Hi & _ & Ho & _). cbn in Hi, Ho.
  apply (cells_ok_hold q _ own [Claim i st o] _ ctx i); try done; [|by constructor..|].
  - apply touches_state with (x := encodeElement g st'); [lia|done..].
  - assert (state_at (set_manager m' q) i = st') as Hst'.
    { erewrite state_set; [apply decode_encode| |exact Hs]. rewrite (co_states _ _ H). lia. }
    cbn [cell_ok c_state c_object]. change (slot_at (set_manager m' q)) with (slot_at q). by rewrite Hst'.
Qed.

(** Construction and destruction by the holder. *)
Lemma change_slot q own ctx i st o x o' :
  cells_ok q ((own ++ [Claim i st o]) ++ ctx) -> object_ok o' (Some x) ->
  cells_ok (set_slot i x q) ((own ++ [Claim i st o']) ++ ctx).
Proof.
  intros H Ho'. destruct (cells_ok_own _ _ _ _ H) as (Hi & Hst & _ & Hw). cbn in Hi, Hst, Hw.
  apply (cells_ok_hold q _ own [Claim i st o] _ ctx i); try done; [|by constructor..|].
  - apply touches_slot. lia.
  - cbn [cell_ok c_state c_object]. split; [done|]. split; [|done].
    unfold slot_at. cbn. rewrite list_lookup_insert_eq; [done|]. pose proof (co_data _ _ H). lia.
Qed.

Lemma know_object q own ctx i st o o' :
  cells_ok q ((own ++ [Claim i st o]) ++ ctx) -> object_ok o' (slot_at q i) ->
  cells_ok q ((own ++ [Claim i st o']) ++ ctx).
Proof.
  intros H Ho'. destruct (cells_ok_own _ _ _ _ H) as (Hi & Hst & _ & Hw). cbn in Hi, Hst, Hw.
  apply (cells_ok_hold q _ own [Claim i st o] _ ctx i); try done; by constructor.
Qed.

(** ** The reservation loops *)
Definition push_claims (pc : push_pc) : list (@claim A) :=
  match pc with
  | PushGot _ _ i | PushRet Success _ i => [Claim i Writing NoObject]
  | _ => []
  end.
Definition pop_claims (pc : pop_pc) : list (@claim A) :=
  match pc with
  | PopGot _ _ i | PopRet Success _ i => [Claim i Reading AnyObject]
  | _ => []
  end.
Definition clear_claims (pc : clear_pc) : list (@claim A) :=
  match pc with
  | ClearGot _ _ i | ClearRet true _ i => [Claim i Reading AnyObject]
  | _ => []
  end.

(** [m] differs from the manager of [q] in the indexes only. *)
Definition indexes_only (m : QueueManager) q : Prop :=
  QueueManager.capacity m = capacity q /\ m_states m = m_states (m_manager q).

Lemma indexes_frame m q cl : indexes_only m q -> cells_ok q cl -> cells_ok (set_manager m q) cl.
Proof. intros [? ?]. by apply cells_ok_frame. Qed.

Lemma cas_push_indexes a b q : indexes_only (snd (cas_push a b (m_manager q))) q.
Proof. unfold cas_push. by destruct (_ =? _). Qed.
Lemma cas_pop_indexes a b q : indexes_only (snd (cas_pop a b (m_manager q))) q.
Proof. unfold cas_pop. by destruct (_ =? _). Qed.
Lemma same_indexes q : indexes_only (m_manager q) q.
Proof. done. Qed.

Lemma push_step_cells q own pc ctx :
  (forall r g i, pc <> PushRet r g i) ->
  cells_ok q ((own ++ push_claims pc) ++ ctx) ->
  exists m pc', push_step (m_manager q) pc = Ok (m, pc') /\
    cells_ok (set_manager m q) ((own ++ push_claims pc') ++ ctx).
Proof.
  intros Hpc H. pose proof (co_cap _ _ H) as Hc.
  destruct pc as [|l sv|sv|ci sv|ci g i|r g i]; cbn [push_step push_claims] in *.
  - eexists _, _. split; [done|]. apply indexes_frame; [apply same_indexes|done].
  - destruct (isDisabledFlagSet l); [eexists _, _; split; [done|by apply indexes_frame]|].
    rewrite cas_state_ok by (rewrite (co_states _ _ H); by apply u32_slot_bound). cbn [rbind].
    destruct (Z.eqb_spec (cell (m_manager q) (u32 (discardDisabledFlag l mod m_capacity (m_manager q))))
      (encodeElement (u32 (discardDisabledFlag l / m_capacity (m_manager q))) Empty)) as [E|_].
    + eexists _, _. split; [done|]. rewrite app_nil_r in H. eapply acquire; [exact H| |exact E|by left|done|done].
      by apply u32_slot_bound.
    + repeat case_match; (eexists _, _; split; [done|by apply indexes_frame]).
  - eexists _, _. split; [done|]. apply indexes_frame; [apply same_indexes|done].
  - pose proof (cas_push_indexes ci (nextCombinedIndex (m_manager q) ci) q) as Hi.
    destruct (cas_push _ _ _) as [[? ?] m]. eexists _, _. split; [done|by apply indexes_frame].
  - pose proof (cas_push_indexes ci (nextCombinedIndex (m_manager q) ci) q) as Hi.
    destruct (cas_push _ _ _) as [[? ?] m]. eexists _, _. split; [done|by apply indexes_frame].
  - by destruct (Hpc r g i).
Qed.

Lemma pop_step_cells q own pc ctx :
  (forall r g i, pc <> PopRet r g i) ->
  cells_ok q ((own ++ pop_claims pc) ++ ctx) ->
  exists m pc', pop_step (m_manager q) pc = Ok (m, pc') /\
    cells_ok (set_manager m q) ((own ++ pop_claims pc') ++ ctx).
Proof.
  intros Hpc H. pose proof (co_cap _ _ H) as Hc.
  destruct pc as [|l sv|sv|ci sv|ci g i|r g i]; cbn [pop_step pop_claims] in *.
  - eexists _, _. split; [done|]. apply indexes_frame; [apply same_indexes|done].
  - rewrite cas_state_ok by (rewrite (co_states _ _ H); by apply u32_slot_bound). cbn [rbind].
    destruct (Z.eqb_spec (cell (m_manager q) (u32 (l mod m_capacity (m_manager q))))
      (encodeElement (u32 (l / m_capacity (m_manager q))) Full)) as [E|_].
    + eexists _, _. split; [done|]. rewrite app_nil_r in H. eapply acquire; [exact H| |exact E|by right|done|done].
      by apply u32_slot_bound.
    + repeat case_match; (eexists _, _; split; [done|by apply indexes_frame]).
  - eexists _, _. split; [done|]. apply indexes_frame; [apply same_indexes|done].
  - pose proof (cas_pop_indexes ci (nextCombinedIndex (m_manager q) ci) q) as Hi.
    destruct (cas_pop _ _ _) as [[? ?] m]. eexists _, _. split; [done|by apply indexes_frame].
  - pose proof (cas_pop_indexes ci (nextCombinedIndex (m_manager q) ci) q) as Hi.
    destruct (cas_pop _ _ _) as [[? ?] m]. eexists _, _. split; [done|by apply indexes_frame].
  - by destruct (Hpc r g i).
Qed.

Lemma clear_step_cells eg ei q own pc ctx :
  (forall r g i, pc <> ClearRet r g i) ->
  cells_ok q ((own ++ clear_claims pc) ++ ctx) ->
  exists m pc', clear_step eg ei (m_manager q) pc = Ok (m, pc') /\
    cells_ok (set_manager m q) ((own ++ clear_claims pc') ++ ctx).
Proof.
  intros Hpc H. pose proof (co_cap _ _ H) as Hc.
  destruct pc as [|l| |ci|ci g i|r g i]; cbn [clear_step clear_claims] in *.
  - eexists _, _. split; [done|]. apply indexes_frame; [apply same_indexes|done].
  - destruct (circularDifference _ _ _ =? 0); [eexists _, _; split; [done|by apply indexes_frame]|].
    rewrite cas_state_ok by (rewrite (co_states _ _ H); by apply u32_slot_bound). cbn [rbind].
    destruct (Z.eqb_spec (cell (m_manager q) (u32 (l mod m_capacity (m_manager q))))
      (encodeElement (u32 (l / m_capacity (m_manager q))) Full)) as [E|_].
    + eexists _, _. split; [done|]. rewrite app_nil_r in H. eapply acquire; [exact H| |exact E|by right|done|done].
      by apply u32_slot_bound.
    + repeat case_match; (eexists _, _; split; [done|by apply indexes_frame]).
  - eexists _, _. split; [done|]. apply indexes_frame; [apply same_indexes|done].
  - pose proof (cas_pop_indexes ci (nextCombinedIndex (m_manager q) ci) q) as Hi.
    destruct (cas_pop _ _ _) as [[? ?] m]. eexists _, _. split; [done|by apply indexes_frame].
  - pose proof (cas_pop_indexes ci (nextCombinedIndex (m_manager q) ci) q) as Hi.
    destruct (cas_pop _ _ _) as [[? ?] m]. eexists _, _. split; [done|by apply indexes_frame].
  - by destruct (Hpc r g i).
Qed.

(** ** Objects *)
Lemma objects_add (d : list (option A)) i v :
  d !! i = Some None -> omap id (<[i := Some v]> d) ≡ₚ v :: omap id d.
Proof.
  intros Hi. pose proof (lookup_lt_Some _ _ _ Hi). rewrite insert_take_drop by done.
  rewrite <- (take_drop_middle d i None Hi) at 3. rewrite !omap_app. cbn. by rewrite <- Permutation_middle.
Qed.

Lemma objects_remove (d : list (option A)) i v :
  d !! i = Some (Some v) -> omap id d ≡ₚ v :: omap id (<[i := None]> d).
Proof.
  intros Hi. pose proof (lookup_lt_Some _ _ _ Hi). rewrite insert_take_drop by done.
  rewrite <- (take_drop_middle d i (Some v) Hi) at 1. rewrite !omap_app. cbn. by rewrite <- Permutation_middle.
Qed.

Lemma object_at i q v : slot_at q i = Some (Some v) -> object i q = Ok v.
Proof. intros E. unfold object. unfold slot_at in E. by rewrite E. Qed.

(** ** One step keeps the invariant and never fails *)
Definition step_ok (ctx : list (@claim A)) (r : res (shared A * thread A)) : Prop :=
  exists s' t', r = Ok (s', t') /\ cells_ok (queue s') (claims_of t' ++ ctx) /\ conserved s' /\ thread_wf t'.

Lemma step_ok_manager s t m ctx :
  cells_ok (set_manager m (queue s)) (claims_of t ++ ctx) -> conserved s -> thread_wf t ->
  step_ok ctx (Ok (upd_manager m s, t)).
Proof. intros ? ? ?. by exists (upd_manager m s), t. Qed.

Lemma step_ok_same s t ctx :
  cells_ok (queue s) (claims_of t ++ ctx) -> conserved s -> thread_wf t -> step_ok ctx (Ok (s, t)).
Proof. intros ? ? ?. by exists s, t. Qed.

Lemma tstep_push c s v pc ctx :
  thread_wf (PushRes v pc) -> cells_ok (queue s) (claims_of (PushRes v pc) ++ ctx) -> conserved s ->
  step_ok ctx (tstep c s (PushRes v pc)).
Proof.
  intros W H Hv. assert (claims_of (PushRes v pc) = [] ++ push_claims pc) as Hcl by (by destruct pc as [| | | | |[]]).
  rewrite Hcl in H. apply push_step_cells in H as (m & pc' & E & H); [|by intros ? ? ? ->]. cbn [tstep]. unfold manager.
  rewrite E. cbn [rbind app] in *.
  apply step_ok_manager; [|done|by destruct pc' as [| | | | |[]]]. by destruct pc' as [| | | | |[]].
Qed.

Lemma tstep_pop c s pc ctx :
  thread_wf (A:=A) (PopRes pc) -> cells_ok (queue s) (claims_of (PopRes pc) ++ ctx) -> conserved s ->
  step_ok ctx (tstep c s (PopRes pc)).
Proof.
  intros W H Hv. assert (claims_of (A:=A) (PopRes pc) = [] ++ pop_claims pc) as Hcl by (by destruct pc as [| | | | |[]]).
  rewrite Hcl in H. apply pop_step_cells in H as (m & pc' & E & H); [|by intros ? ? ? ->]. cbn [tstep]. unfold manager.
  rewrite E. cbn [rbind app] in *.
  apply step_ok_manager; [|done|by destruct pc' as [| | | | |[]]]. by destruct pc' as [| | | | |[]].
Qed.

Lemma tstep_clear c s g i pc ctx :
  thread_wf (A:=A) (Clearing g i pc) -> cells_ok (queue s) (claims_of (Clearing g i pc) ++ ctx) -> conserved s ->
  step_ok ctx (tstep c s (Clearing g i pc)).
Proof.
  intros W H Hv.
  assert (claims_of (A:=A) (Clearing g i pc) = [Claim i Writing NoObject] ++ clear_claims pc) as Hcl
    by (by destruct pc as [| | | | |[]]).
  rewrite Hcl in H. apply (clear_step_cells g i) in H as (m & pc' & E & H); [|by intros ? ? ? ->]. cbn [tstep]. unfold manager.
  rewrite E. cbn [rbind app] in *.
  apply step_ok_manager; [|done|by destruct pc' as [| | | | |[]]]. by destruct pc' as [| | | | |[]].
Qed.

(** A store to the cell a thread holds is within bounds. *)
Lemma own_store q own i st o ctx v :
  cells_ok q ((own ++ [Claim i st o]) ++ ctx) -> store_state i v (m_manager q) = Ok (set_state i v (m_manager q)).
Proof. intros H. destruct (cells_ok_own _ _ _ _ H) as [Hi _]. apply store_state_ok. by rewrite (co_states _ _ H). Qed.

Lemma tstep_ok c s t ctx :
  thread_wf t -> cells_ok (queue s) (claims_of t ++ ctx) -> conserved s -> step_ok ctx (tstep c s t).
Proof.
  intros W H Hv. destruct t as [|v pc|v g i|g i|pc|g i|v g i|v g i|g i pc|g i g' i'|g i g' i'|g i|g i l|g i l|g i| |x| |x].
  - destruct c; by apply step_ok_same.
  - by apply tstep_push.
  - destruct (cells_ok_own _ [] _ _ H) as (_ & _ & Ho & _). cbn in Ho.
    assert (step_ok ctx (let* q := construct i v (queue s) in
      Ok (MkShared q (v :: built s) (returned s) (dropped s), PushBuilt g i))) as Hb.
    { unfold construct, slot_at in *. rewrite Ho. cbn [rbind]. eexists _, _. split; [done|].
      split; [|split; [|done]]; cbn [queue].
      - eapply (change_slot _ []); [exact H|by eexists].
      - unfold conserved in *. cbn. rewrite (objects_add _ _ v Ho), Hv. rewrite !app_assoc.
        apply Permutation_middle. }
    destruct c; try exact Hb. by apply step_ok_same.
  - cbn [tstep]. unfold commitPushIndex, commitPopIndex, manager. rewrite (own_store _ [] _ _ _ _ _ H). cbn [rbind].
    apply step_ok_manager; [|done|done]. by eapply (release _ []); [exact H|by right|done|done].
  - by apply tstep_pop.
  - destruct (cells_ok_own _ [] _ _ H) as (_ & _ & [v Ho] & _). cbn in Ho. cbn [tstep]. rewrite (object_at _ _ _ Ho).
    cbn [rbind]. apply step_ok_same; [|done|done]. by eapply (know_object _ []).
  - destruct (cells_ok_own _ [] _ _ H) as (_ & _ & Ho & _). cbn in Ho. cbn [tstep]. unfold destroy.
    rewrite (object_at _ _ _ Ho). cbn [rbind]. eexists _, _. split; [done|].
    split; [|split; [|done]]; cbn [queue].
    + by eapply (change_slot _ []).
    + unfold conserved in *. cbn. rewrite Hv, (objects_remove _ _ v Ho), !app_assoc.
      by rewrite <- Permutation_middle.
  - cbn [tstep]. unfold commitPushIndex, commitPopIndex, manager. rewrite (own_store _ [] _ _ _ _ _ H). cbn [rbind].
    apply step_ok_manager; [|done|done]. by eapply (release _ []); [exact H|by left|done|done].
  - by apply tstep_clear.
  - destruct (cells_ok_own _ [_] _ _ H) as (_ & _ & [v Ho] & _). cbn in Ho. cbn [tstep]. unfold destroy.
    rewrite (object_at _ _ _ Ho). cbn [rbind]. eexists _, _. split; [done|].
    split; [|split; [|done]]; cbn [queue].
    + by apply (change_slot _ [Claim i Writing NoObject] _ _ _ AnyObject None NoObject H).
    + unfold conserved in *. cbn. rewrite Hv, (objects_remove _ _ v Ho).
      rewrite <- !Permutation_middle. done.
  - cbn [tstep]. unfold commitPopIndex, manager. rewrite (own_store _ [_] _ _ _ _ _ H). cbn [rbind].
    apply step_ok_manager; [|done|done]. by eapply (release _ [Claim i Writing NoObject]); [exact H|by left|done|done].
  - by apply step_ok_same.
  - cbn [tstep]. unfold manager. rewrite (own_store _ [] _ _ _ _ _ H). cbn [rbind].
    apply step_ok_manager; [|done|done]. by eapply (rehold _ []); [exact H|by right|done|done].
  - cbn [tstep]. unfold manager. pose proof (cas_pop_indexes l (nextCombinedIndex (m_manager (queue s)) l) (queue s)) as Hi.
    destruct (cas_pop _ _ _) as [[? ?] m]. apply step_ok_manager; [|done|done]. by apply indexes_frame.
  - cbn [tstep]. unfold commitPushIndex, commitPopIndex, manager. rewrite (own_store _ [] _ _ _ _ _ H). cbn [rbind].
    apply step_ok_manager; [|done|done]. by eapply (release _ []); [exact H|by left|done|done].
  - cbn [tstep]. destruct (isDisabledFlagSet _); by apply step_ok_same.
  - cbn [tstep]. unfold manager. pose proof (cas_push_indexes x (Z.lor x DISABLED_STATE_MASK) (queue s)) as Hi.
    destruct (cas_push _ _ _) as [[ok ?] m]. apply step_ok_manager; [|done|by destruct ok].
    apply indexes_frame; [done|]. by destruct ok.
  - cbn [tstep]. destruct (negb _); by apply step_ok_same.
  - cbn [tstep]. unfold manager.
    pose proof (cas_push_indexes x (Z.land x (u32 (Z.lnot DISABLED_STATE_MASK))) (queue s)) as Hi.
    destruct (cas_push _ _ _) as [[ok ?] m]. apply step_ok_manager; [|done|by destruct ok].
    apply indexes_frame; [done|]. by destruct ok.
Qed.

Lemma claims_split ts1 t ts2 : claims (ts1 ++ t :: ts2) ≡ₚ claims_of (A:=A) t ++ claims ts1 ++ claims ts2.
Proof. unfold claims. rewrite flat_map_app. cbn [flat_map]. by rewrite Permutation_app_swap_app. Qed.

Lemma thread_step_ok s ts1 t ts2 c :
  inv (s, ts1 ++ t :: ts2) ->
  exists s' t', tstep c s t = Ok (s', t') /\ inv (s', ts1 ++ t' :: ts2).
Proof.
  intros (H & Hv & [Hw1 [Hw Hw2]%Forall_cons]%Forall_app). cbn [fst snd] in *. rewrite claims_split in H.
  destruct (tstep_ok c s t _ Hw H Hv) as (s' & t' & E & H' & Hv' & Hw').
  exists s', t'. split; [done|]. split; [|split; [done|]]; cbn [fst snd].
  - by rewrite claims_split.
  - apply Forall_app. split; [done|]. by constructor.
Qed.

Lemma initial_inv cap n : 0 < cap <= MAX_CAPACITY -> inv (initial (A:=A) cap n).
Proof.
  intros Hc. unfold inv, initial. cbn [fst snd queue].
  assert (claims (replicate n (@Idle A)) = []) as -> by (by induction n).
  split; [|split].
  - split; unfold capacity, QueueManager.capacity; cbn.
    + lia.
    + rewrite length_replicate. lia.
    + rewrite length_replicate. lia.
    + done.
    + intros i Hi. left. unfold state_at, slot_at, cell. cbn.
      rewrite lookup_total_replicate_2, lookup_replicate_2 by lia. done.
  - unfold conserved. cbn. induction (Z.to_nat cap); [done|]. cbn. done.
  - by apply Forall_replicate.
Qed.

Lemma reachable_inv cap n c : 0 < cap <= MAX_CAPACITY -> reachable cap n c -> inv (A:=A) c.
Proof.
  intros Hc. apply (rtc_ind_r inv); [by apply initial_inv|]. intros c1 c2 _ Hs Hi.
  destruct Hs as [s ts1 t ts2 ch s' t' E].
  destruct (thread_step_ok s ts1 t ts2 ch Hi) as (s2 & t2 & E2 & Hi'). by rewrite E in E2; simplify_eq.
Qed.

Lemma cells_ok_nodup q cl : cells_ok q cl -> NoDup (c_index <$> cl).
Proof.
  intros [_ _ _ Hr Hc].
  assert (forall i, 0 <= i < capacity q -> (length (at_index i cl) <= 1)%nat) as Hl.
  { intros i Hi. specialize (Hc i Hi). destruct (at_index i cl) as [|? [|]]; cbn in *; [lia|lia|done]. }
  clear Hc. induction cl as [|c cl IH]; [constructor|].
  apply Forall_cons in Hr as [Hrc Hr]. cbn [fmap list_fmap]. constructor.
  - intros (c' & Ei & Hin)%list_elem_of_fmap. specialize (Hl _ Hrc). unfold at_index in Hl.
    rewrite filter_cons_True in Hl by done.
    assert (c' ∈ filter (fun c0 => c_index c0 = c_index c) cl) as Hf by (by apply list_elem_of_filter).
    destruct (filter _ cl) as [|c1 l]; [by apply not_elem_of_nil in Hf|cbn in Hl; lia].
  - apply IH; [done|]. intros i Hi. specialize (Hl i Hi). unfold at_index in *.
    destruct (decide (c_index c = i)).
    + rewrite filter_cons_True in Hl by done. cbn in Hl. lia.
    + by rewrite filter_cons_False in Hl by done.
Qed.
End invariant.

(** ** Schedules, to evaluate interleavings *)
Section schedules.
Context {A : Type}.

Fixpoint exec (sched : list (nat * choice A)) (c : shared A * list (thread A))
  : option (shared A * list (thread A)) :=
  match sched with
  | [] => Some c
  | (k, ch) :: sched =>
      match snd c !! k with
      | Some t => match tstep ch (fst c) t with
                  | Ok (s', t') => exec sched (s', <[k := t']> (snd c))
                  | _ => None
                  end
      | None => None
      end
  end.

Lemma exec_reachable sched c c' : exec sched c = Some c' -> rtc step c c'.
Proof.
  revert c. induction sched as [|[k ch] sched IH]; intros [s ts] E; cbn [exec fst snd] in E.
  - by simplify_eq.
  - destruct (ts !! k) as [t|] eqn:Ht; [|done]. destruct (tstep ch s t) as [[s' t']| | |] eqn:Es; [|done..].
    eapply rtc_l; [|by apply IH]. pose proof (lookup_lt_Some _ _ _ Ht).
    rewrite insert_take_drop by done. rewrite <- (take_drop_middle ts k t Ht) at 1. by eapply step_thread.
Qed.
End schedules.

(** C4. In every interleaving of any number of threads no step fails: a push never
    constructs over a live object, a pop or an emptying guard never moves from or
    destroys a slot without one, and no step reads or writes a state word or a slot outside
    the arrays. *)
Theorem concurrent_no_bad_access {A} cap n (s : shared A) ts t c :
  0 < cap <= MAX_CAPACITY -> reachable cap n (s, ts) -> t ∈ ts ->
  exists s' t', tstep c s t = Ok (s', t').
Proof.
  intros Hc Hr (ts1 & ts2 & ->)%list_elem_of_split. apply reachable_inv in Hr; [|done].
  destruct (thread_step_ok s ts1 t ts2 c Hr) as (s' & t' & E & _). by exists s', t'.
Qed.

(** Two threads race for a queue of one cell: thread 0 has taken it, thread 1 has
    failed its compare-exchange, thread 2 waits to pop. *)
Definition race : list (nat * choice Z) :=
  [(0, CallPush 5%Z); (1, CallPush 6%Z); (0, Go); (1, Go); (2, CallPop); (0, Go); (1, Go); (0, Go);
   (0, Go); (0, Go); (2, Go); (2, Go); (2, Go)]%nat.

Lemma concurrent_no_bad_access_witness :
  exists (s : shared Z) ts, exec race (initial 1 3) = Some (s, ts) /\
    ts !! 2%nat = Some (PopHold 0 0) /\ exists s' t', tstep Go s (PopHold 0 0) = Ok (s', t').
Proof.
  destruct (exec race (initial 1 3)) as [[s ts]|] eqn:E; [|by vm_compute in E].
  assert (ts !! 2%nat = Some (PopHold 0 0)) as Ht by (vm_compute in E; injection E as <- <-; reflexivity).
  exists s, ts. split; [reflexivity|]. split; [exact Ht|].
  apply (concurrent_no_bad_access 1 3 s ts).
  - split; vm_compute; congruence.
  - apply (exec_reachable race). exact E.
  - eapply list_elem_of_lookup_2. exact Ht.
Defined.

(** In every interleaving two threads never hold the same cell. *)
Theorem concurrent_exclusive {A} cap n (s : shared A) ts :
  0 < cap <= MAX_CAPACITY -> reachable cap n (s, ts) -> NoDup (c_index <$> claims ts).
Proof. intros Hc Hr. apply reachable_inv in Hr as [H _]; [|done]. by eapply cells_ok_nodup. Qed.

Lemma concurrent_exclusive_witness :
  exists (s : shared Z) ts, exec race (initial 1 3) = Some (s, ts) /\
    c_index <$> claims ts = [0] /\ NoDup (c_index <$> claims ts).
Proof.
  destruct (exec race (initial 1 3)) as [[s ts]|] eqn:E; [|by vm_compute in E].
  exists s, ts. split; [reflexivity|]. split; [vm_compute in E; injection E as <- <-; reflexivity|].
  apply (concurrent_exclusive 1 3 s ts).
  - split; vm_compute; congruence.
  - apply (exec_reachable race). exact E.
Defined.

(** C8. In every interleaving the values constructed in the queue are, with their
    multiplicity, the values returned by pops, the values destroyed by an emptying guard
    and the objects still in the slots: a value is neither lost nor popped twice. *)
Theorem concurrent_values_conserved {A} cap n (s : shared A) ts :
  0 < cap <= MAX_CAPACITY -> reachable cap n (s, ts) ->
  built s ≡ₚ returned s ++ dropped s ++ omap id (m_data (queue s)).
Proof. intros Hc Hr. apply reachable_inv in Hr as (_ & Hv & _); done. Qed.

Lemma concurrent_values_conserved_witness :
  exists (s : shared Z) ts, exec (race ++ [(2, Go); (2, Go); (2, Go)]%nat) (initial 1 3) = Some (s, ts) /\
    returned s = [5] /\ built s ≡ₚ returned s ++ dropped s ++ omap id (m_data (queue s)).
Proof.
  destruct (exec (race ++ [(2, Go); (2, Go); (2, Go)]%nat) (initial 1 3)) as [[s ts]|] eqn:E; [|by vm_compute in E].
  exists s, ts. split; [reflexivity|]. split; [vm_compute in E; injection E as <- <-; reflexivity|].
  apply (concurrent_values_conserved 1 3 s ts).
  - split; vm_compute; congruence.
  - apply (exec_reachable (race ++ [(2, Go); (2, Go); (2, Go)]%nat)). exact E.
Defined.
