(* ===== verification/IwpMessage.v ===== *)
(** * Messages of the IWP link layer (llarp/iwp/message_buffer.hpp, message_buffer.cpp,
    and CreatePacket of session.cpp)

    A message of up to [MAX_LINK_MSG_SIZE] bytes travels as an XMIT packet, which
    announces its size and digest and carries the first fragment, and DATA packets, one per
    further fragment of 1024 bytes. [Module OutboundMessage] is the sender's record,
    [Module InboundMessage] the receiver's. *)

From S2P Require Import Prelude CryptoApi.

Definition FragmentSize : nat := 1024.
Definition CommandOverhead : nat := 2.
Definition PacketOverhead : nat := HMACSIZE + TUNNONCESIZE.

(** Milliseconds. *)
Definition DeliveryTimeout : Z := 500.
Definition ReceivalTimeout : Z := (DeliveryTimeout * 8) / 5.
Definition ReplayWindow : Z := (ReceivalTimeout * 3) / 2.
Definition ACKResendInterval : Z := DeliveryTimeout / 2.
Definition TXFlushInterval : Z := (DeliveryTimeout / 5) * 4.
Definition PingInterval : Z := 5000.
Definition SessionAliveTimeout : Z := PingInterval * 5.

Inductive Command := ePING | eXMIT | eDATA | eACKS | eNACK | eMACK | eCLOS.

Definition command_byte (c : Command) : Z :=
  match c with
  | ePING => 0 | eXMIT => 1 | eDATA => 2 | eACKS => 3 | eNACK => 4 | eMACK => 5 | eCLOS => 255
  end.

(** [std::bitset<MAX_LINK_MSG_SIZE / FragmentSize>] as its [to_ulong] value: [set] and
    [test] throw [std::out_of_range], the operator [] does not check. *)
Module bitset.
Definition size : Z := 8.
Definition set (pos bits : Z) : res Z := if pos <? size then Ok (Z.setbit bits pos) else Throw.
Definition test (pos bits : Z) : res bool := if pos <? size then Ok (Z.testbit bits pos) else Throw.
Definition index (pos bits : Z) : res bool := if pos <? size then Ok (Z.testbit bits pos) else Oob.
End bitset.

(** What the caller of SendMessageBuffer asked to be told of; [LimHandler] is the lambda
    of GotOutboundLIM. *)
Inductive CompletionHandler := UserHandler (id : Z) | LimHandler.
Inductive DeliveryStatus := eDeliverySuccess | eDeliveryDropped.

Section messages.
Context {OX : Oxenc} {R : Random} {H : ShortHasher}.

Definition CreatePacket (k : nat) (cmd : Command) (plainsize minpad variance : nat) : res (list Z) :=
  let pad := if (0 <? minpad)%nat
             then (minpad + (if (0 <? variance)%nat then Z.to_nat (randint k) mod variance else 0))%nat
             else 0%nat in
  let pkt := replicate (PacketOverhead + plainsize + pad + CommandOverhead) 0 in
  let* pkt := if (pad =? 0)%nat then Ok pkt
              else poke (PacketOverhead + CommandOverhead + plainsize) (randbytes k pad) pkt in
  let* pkt := poke HMACSIZE (randbytes k TUNNONCESIZE) pkt in
  let* pkt := poke PacketOverhead [proto_version] pkt in
  poke (PacketOverhead + 1) [command_byte cmd] pkt.

Definition IsZero (l : list Z) : bool := forallb (Z.eqb 0) l.
End messages.

(** ** Sender *)
Module OutboundMessage.
Record t := Mk {
  m_Data : list Z;
  m_MsgID : Z;
  m_Acks : Z;
  m_Completed : option CompletionHandler;
  m_LastFlush : Z;
  m_Digest : list Z;
  m_StartedAt : Z;
  m_ResendPriority : Z;
}.

Definition set_digest (h : list Z) (m : t) : t :=
  Mk (m_Data m) (m_MsgID m) (m_Acks m) (m_Completed m) (m_LastFlush m) h (m_StartedAt m) (m_ResendPriority m).
Definition set_acks (a : Z) (m : t) : t :=
  Mk (m_Data m) (m_MsgID m) a (m_Completed m) (m_LastFlush m) (m_Digest m) (m_StartedAt m) (m_ResendPriority m).
Definition set_flush (now : Z) (m : t) : t :=
  Mk (m_Data m) (m_MsgID m) (m_Acks m) (m_Completed m) now (m_Digest m) (m_StartedAt m) (m_ResendPriority m).

(** The constructor, and the default-constructed record ([m_ResendPriority] is then
    indeterminate in C++; 0 here). *)
Definition new (msgid : Z) (msg : list Z) (now : Z) (handler : option CompletionHandler) (priority : Z) : t :=
  Mk msg msgid (Z.setbit 0 0) handler now (replicate SHORTHASHSIZE 0) now priority.
Definition dflt : t := Mk [] 0 0 None 0 (replicate SHORTHASHSIZE 0) 0 0.

(** [operator<]: lexicographic on the negated priority and the id. *)
Definition lt (a b : t) : bool :=
  let prioA := - m_ResendPriority a in
  let prioB := - m_ResendPriority b in
  (prioA <? prioB) || ((prioA =? prioB) && (m_MsgID a <? m_MsgID b)).

Section ops.
Context {OX : Oxenc} {R : Random}.

Definition XMIT (k : nat) (m : t) : res (list Z) :=
  let extra := Nat.min (length (m_Data m)) FragmentSize in
  let* xmit := CreatePacket k eXMIT (10 + 32 + extra) 0 0 in
  let* xmit := poke (CommandOverhead + PacketOverhead)
                 (write_host_as_big 2 (u16 (Z.of_nat (length (m_Data m))))) xmit in
  let* xmit := poke (2 + CommandOverhead + PacketOverhead) (write_host_as_big 8 (m_MsgID m)) xmit in
  let* xmit := poke (10 + CommandOverhead + PacketOverhead) (m_Digest m) xmit in
  poke (10 + CommandOverhead + PacketOverhead + 32) (take extra (m_Data m)) xmit.

Definition Completed (m : t) : option (CompletionHandler * DeliveryStatus) * t :=
  ((fun h => (h, eDeliverySuccess)) <$> m_Completed m,
   Mk (m_Data m) (m_MsgID m) (m_Acks m) None (m_LastFlush m) (m_Digest m) (m_StartedAt m) (m_ResendPriority m)).

Definition InformTimeout (m : t) : option (CompletionHandler * DeliveryStatus) * t :=
  ((fun h => (h, eDeliveryDropped)) <$> m_Completed m,
   Mk (m_Data m) (m_MsgID m) (m_Acks m) None (m_LastFlush m) (m_Digest m) (m_StartedAt m) (m_ResendPriority m)).

Definition ShouldFlush (now : Z) (m : t) : bool :=
  if IsZero (m_Digest m) then false else TXFlushInterval <=? now - m_LastFlush m.

Definition Ack (bitmask : Z) (m : t) : t := set_acks (u8 bitmask) m.

(** One DATA packet. *)
Definition data_packet (k : nat) (idx : Z) (m : t) : res (list Z) :=
  let datasz := length (m_Data m) in
  let i := Z.to_nat idx in
  let fragsz := (if i + FragmentSize <? datasz then FragmentSize else datasz - i)%nat in
  let* frag := CreatePacket k eDATA (fragsz + 10) 0 0 in
  let* frag := poke (2 + PacketOverhead) (write_host_as_big 2 idx) frag in
  let* frag := poke (4 + PacketOverhead) (write_host_as_big 8 (m_MsgID m)) frag in
  poke (PacketOverhead + 10 + 2) (take fragsz (drop i (m_Data m))) frag.

(** The loop over the 16-bit index; the [k]-th draw is used by the first packet sent, the
    next one by the second. The packets are handed to [sendpkt] in this order. *)
Fixpoint flush_loop (fuel : nat) (k : nat) (idx : Z) (m : t) : res (list (list Z)) :=
  if idx <? Z.of_nat (length (m_Data m)) then
    match fuel with
    | O => NoFuel
    | S f =>
        let next := u16 (idx + Z.of_nat FragmentSize) in
        let* acked := bitset.index (idx / Z.of_nat FragmentSize) (m_Acks m) in
        if acked : bool then flush_loop f k next m
        else
          let* pkt := data_packet k idx m in
          let* rest := flush_loop f (S k) next m in
          Ok (pkt :: rest)
    end
  else Ok [].

Definition FlushUnAcked (k : nat) (now : Z) (m : t) : res (list (list Z) * t) :=
  let* pkts := flush_loop 64 k 0 m in
  Ok (pkts, set_flush now m).

Fixpoint transmitted_loop (fuel : nat) (idx : Z) (m : t) : res bool :=
  if idx <? Z.of_nat (length (m_Data m)) then
    match fuel with
    | O => NoFuel
    | S f =>
        let* acked := bitset.test (idx / Z.of_nat FragmentSize) (m_Acks m) in
        if acked : bool then transmitted_loop f (u16 (idx + Z.of_nat FragmentSize)) m else Ok false
    end
  else Ok true.
Definition IsTransmitted (m : t) : res bool := transmitted_loop 64 0 m.

Definition IsTimedOut (now : Z) (m : t) : bool :=
  (m_StartedAt m <? now) && (DeliveryTimeout <? now - m_StartedAt m).
End ops.
End OutboundMessage.

(** ** Receiver *)
Module InboundMessage.
Record t := Mk {
  m_Data : list Z;
  m_Digset : list Z;
  m_MsgID : Z;
  m_LastACKSent : Z;
  m_LastActiveAt : Z;
  m_Acks : Z;
}.

Definition new (msgid sz : Z) (h : list Z) (now : Z) : t :=
  Mk (replicate (Z.to_nat sz) 0) h msgid 0 now 0.

Section ops.
Context {OX : Oxenc} {R : Random} {H : ShortHasher}.

Definition HandleData (idx : Z) (buf : list Z) (now : Z) (m : t) : res t :=
  if Z.of_nat (length (m_Data m)) <? idx + Z.of_nat (length buf) then Ok m
  else
    let* data := poke (Z.to_nat idx) buf (m_Data m) in
    let* acks := bitset.set (idx / Z.of_nat FragmentSize) (m_Acks m) in
    Ok (Mk data (m_Digset m) (m_MsgID m) (m_LastACKSent m) now acks).

Definition AcksBitmask (m : t) : Z := u8 (m_Acks m).

Definition ACKS (k : nat) (m : t) : res (list Z) :=
  let* acks := CreatePacket k eACKS 9 16 16 in
  let* acks := poke (CommandOverhead + PacketOverhead) (write_host_as_big 8 (m_MsgID m)) acks in
  poke (PacketOverhead + 10) [AcksBitmask m] acks.

Fixpoint completed_loop (fuel : nat) (idx : Z) (m : t) : res bool :=
  if idx <? Z.of_nat (length (m_Data m)) then
    match fuel with
    | O => NoFuel
    | S f =>
        let* acked := bitset.test (idx / Z.of_nat FragmentSize) (m_Acks m) in
        if acked : bool then completed_loop f (idx + Z.of_nat FragmentSize) m else Ok false
    end
  else Ok true.
Definition IsCompleted (m : t) : res bool := completed_loop 64 0 m.

Definition ShouldSendACKS (now : Z) (m : t) : bool := m_LastACKSent m + ACKResendInterval <? now.

Definition IsTimedOut (now : Z) (m : t) : bool :=
  (m_LastActiveAt m <? now) && (DeliveryTimeout <? now - m_LastActiveAt m).

Definition SendACKS (k : nat) (now : Z) (m : t) : res (list Z * t) :=
  let* pkt := ACKS k m in
  Ok (pkt, Mk (m_Data m) (m_Digset m) (m_MsgID m) now (m_LastActiveAt m) (m_Acks m)).

Definition Verify (m : t) : bool := bool_decide (shorthash (m_Data m) = m_Digset m).
End ops.
End InboundMessage.

(** ** The packets as byte strings *)
Definition packet_header {R : Random} (k : nat) (cmd : Command) : list Z :=
  replicate HMACSIZE 0 ++ randbytes k TUNNONCESIZE ++ [proto_version; command_byte cmd].

(** The fragment at byte offset [i]. *)
Definition fragment (data : list Z) (i : nat) : list Z := take FragmentSize (drop i data).

(** Number of fragments of a message. *)
Definition nfrags (data : list Z) : nat := ((length data + 1023) / 1024)%nat.

Section wire.
Context {OX : Oxenc} {OS : OxencSpec OX} {R : Random} {RS : RandomSpec R}.
Implicit Types m : OutboundMessage.t.

Lemma length_header k cmd : length (packet_header k cmd) = 66%nat.
Proof. unfold packet_header. by rewrite !length_app, length_replicate, length_randbytes. Qed.

Lemma create_packet k cmd n minpad variance :
  exists padding, CreatePacket k cmd n minpad variance
                  = Ok (packet_header k cmd ++ replicate n 0 ++ padding) /\
    (minpad = 0%nat -> padding = []).
Proof.
  unfold CreatePacket. set (pad := if (0 <? minpad)%nat then _ else _).
  assert (minpad = 0%nat -> pad = 0%nat) as Hpad by (by intros ->). clearbody pad.
  set (padding := if (pad =? 0)%nat then [] else randbytes k pad).
  exists padding. split; [|intros Hm; unfold padding; by rewrite (Hpad Hm)].
  assert (forall (K : list Z -> res (list Z)),
    (let* pkt := if (pad =? 0)%nat then Ok (replicate (PacketOverhead + n + pad + CommandOverhead) 0)
       else poke (PacketOverhead + CommandOverhead + n) (randbytes k pad)
              (replicate (PacketOverhead + n + pad + CommandOverhead) 0) in K pkt)
    = K (replicate 32 0 ++ replicate 32 0 ++ [0] ++ [0] ++ replicate n 0 ++ padding)) as ->.
  { intros K. assert (forall l, replicate 32 0 ++ replicate 32 0 ++ [0] ++ [0] ++ replicate n 0 ++ l
                                = replicate (66 + n) 0 ++ l) as E.
    { done. }
    rewrite E. unfold padding. destruct (Nat.eqb_spec pad 0) as [->|Hne].
    - cbn [rbind]. rewrite app_nil_r. do 2 f_equal. unfold PacketOverhead, CommandOverhead, HMACSIZE, TUNNONCESIZE. lia.
    - replace (PacketOverhead + n + pad + CommandOverhead)%nat with ((66 + n) + (pad + 0))%nat
        by (unfold PacketOverhead, CommandOverhead, HMACSIZE, TUNNONCESIZE; lia).
      rewrite !replicate_add. erewrite poke_app.
      + cbn [rbind]. by rewrite app_nil_r.
      + rewrite length_app, !length_replicate. done.
      + by rewrite length_randbytes, length_replicate. }
  rewrite (poke_app (replicate 32 0) (replicate 32 0));
    [|by rewrite length_replicate|by rewrite length_randbytes, length_replicate]. cbn [rbind].
  rewrite (app_assoc (replicate 32 0)), (poke_app _ [0] _ [proto_version]);
    [|by rewrite length_app, length_replicate, length_randbytes|done]. cbn [rbind].
  rewrite (app_assoc _ [proto_version]), (poke_app _ [0]);
    [|by rewrite !length_app, length_replicate, length_randbytes|done].
  unfold packet_header. by rewrite <- !app_assoc.
Qed.

(** Filling the zeroed payload from the left. *)
Lemma poke_zeros off a src n tl :
  off = length a -> (length src <= n)%nat ->
  poke off src (a ++ replicate n 0 ++ tl) = Ok ((a ++ src) ++ replicate (n - length src) 0 ++ tl).
Proof.
  intros -> Hn. replace n with (length src + (n - length src))%nat at 1 by lia.
  rewrite replicate_add, <- app_assoc, poke_app by (rewrite ?length_replicate; done).
  by rewrite <- app_assoc.
Qed.

Definition id_ok (id : Z) : Prop := 0 <= id < 256 ^ Z.of_nat 8.

(** The message records the theorems are about: what SendMessageBuffer and HandleXMIT
    build. *)
Record out_wf m : Prop := {
  ow_id : id_ok (OutboundMessage.m_MsgID m);
  ow_digest : length (OutboundMessage.m_Digest m) = SHORTHASHSIZE;
  ow_size : (length (OutboundMessage.m_Data m) <= MAX_LINK_MSG_SIZE)%nat;
}.

Definition xmit_bytes (k : nat) m : list Z :=
  packet_header k eXMIT ++ write_host_as_big 2 (Z.of_nat (length (OutboundMessage.m_Data m)))
    ++ write_host_as_big 8 (OutboundMessage.m_MsgID m) ++ OutboundMessage.m_Digest m
    ++ fragment (OutboundMessage.m_Data m) 0.

Definition data_bytes (k : nat) (id : Z) (data : list Z) (j : nat) : list Z :=
  packet_header k eDATA ++ write_host_as_big 2 (Z.of_nat (1024 * j)) ++ write_host_as_big 8 id
    ++ fragment data (1024 * j).

Definition acks_bytes (k : nat) (id bits : Z) (padding : list Z) : list Z :=
  packet_header k eACKS ++ write_host_as_big 8 id ++ [bits] ++ padding.

Ltac field_length :=
  rewrite ?length_app, ?length_header, ?length_write_big by (unfold id_ok in *; lia);
  cbn [length]; unfold CommandOverhead, PacketOverhead, HMACSIZE, TUNNONCESIZE, SHORTHASHSIZE in *.

Lemma XMIT_bytes k m : out_wf m -> OutboundMessage.XMIT k m = Ok (xmit_bytes k m).
Proof.
  intros [Hid Hd Hs]. unfold OutboundMessage.XMIT, xmit_bytes, fragment. rewrite drop_0.
  set (data := OutboundMessage.m_Data m) in *. set (extra := Nat.min (length data) FragmentSize).
  assert (take FragmentSize data = take extra data) as ->.
  { unfold extra. destruct (Nat.min_spec (length data) FragmentSize) as [[? ->]|[? ->]]; [|done].
    rewrite !take_ge by lia. done. }
  assert (length (take extra data) = extra) as Hx by (rewrite length_take; lia).
  assert (length data <= 8 * 1024)%nat as Hs' by exact Hs.
  rewrite wrap_id by (unfold in_width; lia).
  destruct (create_packet k eXMIT (10 + 32 + extra) 0 0) as (pad & -> & Hp). rewrite (Hp eq_refl). cbn [rbind].
  rewrite poke_zeros by (field_length; lia). cbn [rbind].
  rewrite poke_zeros by (field_length; lia). cbn [rbind].
  rewrite poke_zeros by (field_length; rewrite ?Hd; lia). cbn [rbind].
  rewrite poke_zeros by (field_length; rewrite ?Hd, ?Hx; lia).
  rewrite !length_write_big, Hd, Hx by (unfold id_ok in *; lia).
  replace (_ - extra)%nat with 0%nat by (unfold SHORTHASHSIZE; lia).
  by rewrite app_nil_r, <- !app_assoc.
Qed.

Lemma data_packet_bytes k j m :
  out_wf m -> (1024 * j < length (OutboundMessage.m_Data m))%nat ->
  OutboundMessage.data_packet k (Z.of_nat (1024 * j)) m
  = Ok (data_bytes k (OutboundMessage.m_MsgID m) (OutboundMessage.m_Data m) j).
Proof.
  intros [Hid Hd Hs] Hj. unfold OutboundMessage.data_packet, data_bytes, fragment.
  set (data := OutboundMessage.m_Data m) in *. rewrite Nat2Z.id.
  set (fragsz := if (_ <? _)%nat then _ else _).
  assert (length data <= 8 * 1024)%nat as Hs' by exact Hs.
  assert (take FragmentSize (drop (1024 * j) data) = take fragsz (drop (1024 * j) data)) as ->.
  { unfold fragsz. destruct (Nat.ltb_spec (1024 * j + FragmentSize) (length data)); [done|].
    rewrite !take_ge; [done|rewrite length_drop; lia..]. }
  assert (length (take fragsz (drop (1024 * j) data)) = fragsz) as Hx.
  { rewrite length_take, length_drop. unfold fragsz.
    destruct (Nat.ltb_spec (1024 * j + FragmentSize) (length data)); lia. }
  destruct (create_packet k eDATA (fragsz + 10) 0 0) as (pad & -> & Hp). rewrite (Hp eq_refl). cbn [rbind].
  rewrite poke_zeros by (field_length; lia). cbn [rbind].
  rewrite poke_zeros by (field_length; lia). cbn [rbind].
  rewrite poke_zeros by (field_length; rewrite ?Hx; lia).
  rewrite !length_write_big, Hx by (unfold id_ok in *; lia).
  replace (_ - fragsz)%nat with 0%nat by lia. by rewrite app_nil_r, <- !app_assoc.
Qed.

Lemma ACKS_bytes k (im : InboundMessage.t) :
  id_ok (InboundMessage.m_MsgID im) ->
  exists padding, InboundMessage.ACKS k im
    = Ok (acks_bytes k (InboundMessage.m_MsgID im) (InboundMessage.AcksBitmask im) padding).
Proof.
  intros Hid. unfold InboundMessage.ACKS, acks_bytes.
  destruct (create_packet k eACKS 9 16 16) as (pad & -> & _). exists pad. cbn [rbind].
  rewrite poke_zeros by (field_length; lia). cbn [rbind].
  rewrite poke_zeros by (field_length; lia). rewrite length_write_big by done.
  cbn [length Nat.sub replicate app]. by rewrite <- !app_assoc.
Qed.
End wire.

(** ** The loops over fragments *)
Definition unacked (acks : Z) (data : list Z) (j : nat) : list nat :=
  filter (fun j => Z.testbit acks (Z.of_nat j) = false) (seq j (nfrags data - j)).
Definition all_acked (acks : Z) (data : list Z) : bool :=
  forallb (fun j => Z.testbit acks (Z.of_nat j)) (seq 0 (nfrags data)).

Lemma nfrags_lt data j : (1024 * j < length data)%nat <-> (j < nfrags data)%nat.
Proof.
  unfold nfrags. pose proof (Nat.div_mod_eq (length data + 1023) 1024).
  pose proof (Nat.mod_upper_bound (length data + 1023) 1024). lia.
Qed.

Lemma nfrags_max data : (length data <= MAX_LINK_MSG_SIZE)%nat -> (nfrags data <= 8)%nat.
Proof.
  intros Hs. destruct (decide (8 < nfrags data)%nat) as [Hlt|]; [|lia].
  apply nfrags_lt in Hlt. unfold MAX_LINK_MSG_SIZE in Hs. lia.
Qed.

Lemma frag_index j : Z.of_nat (1024 * j) / Z.of_nat FragmentSize = Z.of_nat j.
Proof. rewrite Nat2Z.inj_mul, Z.mul_comm. apply Z.div_mul. unfold FragmentSize. lia. Qed.

Lemma frag_more data j :
  (Z.of_nat (1024 * j) <? Z.of_nat (length data)) = bool_decide (j < nfrags data)%nat.
Proof.
  case_bool_decide as Hj; [apply Z.ltb_lt|apply Z.ltb_ge]; rewrite <- nfrags_lt in Hj; lia.
Qed.

Lemma frag_next j : (j < 8)%nat -> u16 (Z.of_nat (1024 * j) + Z.of_nat FragmentSize) = Z.of_nat (1024 * S j).
Proof. intros Hj. unfold FragmentSize. rewrite wrap_id by (unfold in_width; lia). lia. Qed.

Lemma frag_bit j : (j < 8)%nat -> (Z.of_nat j <? bitset.size) = true.
Proof. intros. apply Z.ltb_lt. unfold bitset.size. lia. Qed.

Lemma seq_frags data j :
  (j < nfrags data)%nat -> seq j (nfrags data - j) = j :: seq (S j) (nfrags data - S j).
Proof. intros Hj. replace (nfrags data - j)%nat with (S (nfrags data - S j)) by lia. done. Qed.

Lemma all_acked_from acks data j (P := fun j => Z.testbit acks (Z.of_nat j)) :
  (j < nfrags data)%nat ->
  forallb P (seq j (nfrags data - j)) = P j && forallb P (seq (S j) (nfrags data - S j)).
Proof. intros Hj. by rewrite seq_frags. Qed.

Section loops.
Context {OX : Oxenc} {OS : OxencSpec OX} {R : Random} {RS : RandomSpec R}.

Lemma flush_loop_spec m j fuel k :
  out_wf m -> (j <= nfrags (OutboundMessage.m_Data m))%nat ->
  (nfrags (OutboundMessage.m_Data m) - j <= fuel)%nat ->
  OutboundMessage.flush_loop fuel k (Z.of_nat (1024 * j)) m
  = Ok (imap (fun n j => data_bytes (k + n) (OutboundMessage.m_MsgID m) (OutboundMessage.m_Data m) j)
          (unacked (OutboundMessage.m_Acks m) (OutboundMessage.m_Data m) j)).
Proof.
  intros W. pose proof (nfrags_max _ (ow_size _ W)) as Hmax. set (data := OutboundMessage.m_Data m) in *.
  revert k j. induction fuel as [|fuel IH]; intros k j Hj Hf.
  - cbn [OutboundMessage.flush_loop]. fold data. rewrite frag_more, bool_decide_false by lia.
    unfold unacked. by replace (nfrags data - j)%nat with 0%nat by lia.
  - cbn [OutboundMessage.flush_loop]. fold data. rewrite frag_more. case_bool_decide as Hlt.
    + rewrite frag_index, frag_next by lia. unfold bitset.index. rewrite frag_bit by lia. cbn [rbind].
      unfold unacked. rewrite seq_frags by done. rewrite filter_cons.
      destruct (Z.testbit _ (Z.of_nat j)) eqn:Eb; cbn [decide].
      * rewrite decide_False by done. apply IH; lia.
      * rewrite decide_True by done. rewrite (data_packet_bytes k j m W) by (by apply nfrags_lt).
        cbn [rbind]. rewrite IH by lia. cbn [rbind imap]. rewrite Nat.add_0_r. do 2 f_equal.
        unfold unacked. apply imap_ext. intros n x _. unfold compose. f_equal. lia.
    + unfold unacked. by replace (nfrags data - j)%nat with 0%nat by lia.
Qed.

Lemma FlushUnAcked_spec k now m :
  out_wf m ->
  OutboundMessage.FlushUnAcked k now m
  = Ok (imap (fun n j => data_bytes (k + n) (OutboundMessage.m_MsgID m) (OutboundMessage.m_Data m) j)
          (unacked (OutboundMessage.m_Acks m) (OutboundMessage.m_Data m) 0), OutboundMessage.set_flush now m).
Proof.
  intros W. unfold OutboundMessage.FlushUnAcked. pose proof (nfrags_max _ (ow_size _ W)).
  change 0 with (Z.of_nat (1024 * 0)) at 1. rewrite (flush_loop_spec m 0 64 k W) by lia. done.
Qed.

Lemma IsTransmitted_spec m :
  (length (OutboundMessage.m_Data m) <= MAX_LINK_MSG_SIZE)%nat ->
  OutboundMessage.IsTransmitted m = Ok (all_acked (OutboundMessage.m_Acks m) (OutboundMessage.m_Data m)).
Proof.
  intros Hs. pose proof (nfrags_max _ Hs) as Hmax. unfold OutboundMessage.IsTransmitted, all_acked.
  set (data := OutboundMessage.m_Data m) in *.
  assert (forall fuel j, (j <= nfrags data)%nat -> (nfrags data - j <= fuel)%nat ->
    OutboundMessage.transmitted_loop fuel (Z.of_nat (1024 * j)) m
    = Ok (forallb (fun j => Z.testbit (OutboundMessage.m_Acks m) (Z.of_nat j)) (seq j (nfrags data - j)))) as Hl.
  { induction fuel as [|fuel IH]; intros j Hj Hf; cbn [OutboundMessage.transmitted_loop]; fold data; rewrite frag_more.
    - rewrite bool_decide_false by lia. by replace (nfrags data - j)%nat with 0%nat by lia.
    - case_bool_decide as Hlt; [|by replace (nfrags data - j)%nat with 0%nat by lia].
      rewrite frag_index, frag_next by lia. unfold bitset.test. rewrite frag_bit by lia. cbn [rbind].
      rewrite all_acked_from by done. destruct (Z.testbit _ _); [apply IH; lia|done]. }
  rewrite <- (Nat.sub_0_r (nfrags data)) at 1. by apply (Hl 64%nat 0%nat); lia.
Qed.

Lemma IsCompleted_spec (im : InboundMessage.t) :
  (length (InboundMessage.m_Data im) <= MAX_LINK_MSG_SIZE)%nat ->
  InboundMessage.IsCompleted im = Ok (all_acked (InboundMessage.m_Acks im) (InboundMessage.m_Data im)).
Proof.
  intros Hs. pose proof (nfrags_max _ Hs) as Hmax. unfold InboundMessage.IsCompleted, all_acked.
  set (data := InboundMessage.m_Data im) in *.
  assert (forall fuel j, (j <= nfrags data)%nat -> (nfrags data - j <= fuel)%nat ->
    InboundMessage.completed_loop fuel (Z.of_nat (1024 * j)) im
    = Ok (forallb (fun j => Z.testbit (InboundMessage.m_Acks im) (Z.of_nat j)) (seq j (nfrags data - j)))) as Hl.
  { induction fuel as [|fuel IH]; intros j Hj Hf; cbn [InboundMessage.completed_loop]; fold data; rewrite frag_more.
    - rewrite bool_decide_false by lia. by replace (nfrags data - j)%nat with 0%nat by lia.
    - case_bool_decide as Hlt; [|by replace (nfrags data - j)%nat with 0%nat by lia].
      rewrite frag_index. unfold bitset.test. rewrite frag_bit by lia. cbn [rbind].
      rewrite all_acked_from by done. destruct (Z.testbit _ _); [|done].
      replace (Z.of_nat (1024 * j) + Z.of_nat FragmentSize) with (Z.of_nat (1024 * S j)) by (unfold FragmentSize; lia).
      apply IH; lia. }
  rewrite <- (Nat.sub_0_r (nfrags data)) at 1. by apply (Hl 64%nat 0%nat); lia.
Qed.
End loops.

(** ** Reassembly *)
Record in_progress (data : list Z) (im : InboundMessage.t) : Prop := {
  ip_len : length (InboundMessage.m_Data im) = length data;
  ip_same n : Z.testbit (InboundMessage.m_Acks im) (Z.of_nat (n / 1024)) = true ->
    InboundMessage.m_Data im !! n = data !! n;
}.

Lemma lookup_poke off src l l' n :
  poke off src l = Ok l' ->
  l' !! n = if decide (off <= n < off + length src)%nat then src !! (n - off)%nat else l !! n.
Proof.
  unfold poke. destruct (Nat.leb_spec (off + length src) (length l)) as [Hl|]; [|done].
  intros [= <-]. assert (length (take off l) = off) as Ht by (rewrite length_take; lia).
  case_decide as Hn.
  - rewrite lookup_app_r, Ht, lookup_app_l by lia. done.
  - destruct (decide (n < off)%nat).
    + rewrite lookup_app_l, lookup_take_lt by lia. done.
    + rewrite lookup_app_r, Ht, lookup_app_r, lookup_drop by lia. f_equal. lia.
Qed.

Lemma length_poke off src l l' : poke off src l = Ok l' -> length l' = length l.
Proof.
  unfold poke. destruct (Nat.leb_spec (off + length src) (length l)); [|done]. intros [= <-].
  rewrite !length_app, length_take, length_drop. lia.
Qed.

Lemma poke_ok off src l : (off + length src <= length l)%nat -> exists l', poke off src l = Ok l'.
Proof. intros Hl. unfold poke. rewrite (proj2 (Nat.leb_le _ _)) by lia. by eexists. Qed.

Lemma length_fragment data i : length (fragment data i) = Nat.min 1024 (length data - i).
Proof. unfold fragment, FragmentSize. by rewrite length_take, length_drop. Qed.

Lemma frag_div j n : (n / 1024 = j)%nat -> (1024 * j <= n < 1024 * j + 1024)%nat.
Proof. intros <-. pose proof (Nat.div_mod_eq n 1024). pose proof (Nat.mod_upper_bound n 1024). lia. Qed.

(** A fragment of the message, in any order and any number of times, is accepted. *)
Lemma HandleData_fragment data j now im :
  (length data <= MAX_LINK_MSG_SIZE)%nat -> (j < nfrags data)%nat -> in_progress data im ->
  exists im', InboundMessage.HandleData (Z.of_nat (1024 * j)) (fragment data (1024 * j)) now im = Ok im' /\
    in_progress data im' /\
    InboundMessage.m_Acks im' = Z.setbit (InboundMessage.m_Acks im) (Z.of_nat j) /\
    InboundMessage.m_Digset im' = InboundMessage.m_Digset im /\
    InboundMessage.m_MsgID im' = InboundMessage.m_MsgID im.
Proof.
  intros Hs Hj [Hl Hd]. pose proof (nfrags_max _ Hs). pose proof (proj2 (nfrags_lt data j) Hj) as Hlt.
  pose proof (length_fragment data (1024 * j)) as Hf. unfold InboundMessage.HandleData.
  rewrite (proj2 (Z.ltb_ge _ _)) by lia. rewrite Nat2Z.id.
  destruct (poke_ok (1024 * j) (fragment data (1024 * j)) (InboundMessage.m_Data im)) as [l' Hp]; [lia|].
  rewrite Hp. cbn [rbind]. rewrite frag_index. unfold bitset.set. rewrite frag_bit by lia. cbn [rbind].
  eexists. split; [done|]. split; [|done]. split; cbn [InboundMessage.m_Data InboundMessage.m_Acks].
  - by rewrite (length_poke _ _ _ _ Hp).
  - intros n Hb. rewrite (lookup_poke _ _ _ _ n Hp). case_decide as Hn.
    + unfold fragment, FragmentSize. rewrite lookup_take_lt, lookup_drop by lia. f_equal. lia.
    + destruct (decide (n / 1024 = j)%nat) as [E|E].
      * apply frag_div in E. rewrite !lookup_ge_None_2 by lia. done.
      * apply Hd. rewrite Z.setbit_neq in Hb by lia. done.
Qed.

Lemma all_acked_true acks data :
  all_acked acks data = true <-> forall j, (j < nfrags data)%nat -> Z.testbit acks (Z.of_nat j) = true.
Proof.
  unfold all_acked. rewrite forallb_forall. split.
  - intros Ha j Hj. apply Ha. apply in_seq. lia.
  - intros Ha j [_ Hj]%in_seq. apply Ha. lia.
Qed.

(** With every fragment in, the message is the one that was sent. *)
Lemma in_progress_complete data im :
  in_progress data im -> all_acked (InboundMessage.m_Acks im) data = true ->
  InboundMessage.m_Data im = data.
Proof.
  intros [Hl Hd] Ha. rewrite all_acked_true in Ha. apply list_eq. intros n.
  destruct (decide (n < length data)%nat) as [Hn|Hn].
  - apply Hd, Ha. apply nfrags_lt. pose proof (Nat.div_mod_eq n 1024). lia.
  - rewrite !lookup_ge_None_2 by lia. done.
Qed.

Lemma in_progress_new data id h now : in_progress data (InboundMessage.new id (Z.of_nat (length data)) h now).
Proof.
  split; cbn; [rewrite length_replicate; lia|]. intros n. by rewrite Z.testbit_0_l.
Qed.
