(* ===== verification/IwpSession.v ===== *)
(** * The IWP session (llarp/iwp/session.hpp, session.cpp, worker.cpp, hasher.cpp)

    [Session] has the fields of the class and, after them, what the code reads from and
    does to its environment: the clock of the event loop, the wall clock, the count of
    random draws, and the log [w_out] of the calls it makes on its parent, its workers and
    its completion handlers. Every handler is a computation in [M], which passes the
    session and may end in an out-of-bounds access or an exception.

    The crypto functions come from libsodium through CryptoManager and are parameters, as
    are the router contact and the encoding of the link introduction message. What the
    router does with a delivered message is not part of a handler: the calls it makes on
    the session appear as further operations. *)

From stdpp Require Import sorting.
From S2P Require Import Prelude QueueManager Queue CryptoApi IwpMessage.

(** ** The environment *)
(** The router's own keys and what it computes with them: signatures, the two sides of the
    key exchange, and the signed and encoded introduction message of the [k]-th draw. *)
Class Keys := {
  our_pubkey : list Z;
  our_encryption_pubkey : list Z;
  sign : list Z -> list Z;
  transport_dh_client : list Z -> list Z -> option (list Z);
  transport_dh_server : list Z -> list Z -> option (list Z);
  our_lim : nat -> option (list Z);
  (** what the parent answers to SessionEstablished and SessionRenegotiate *)
  parent_accepts : bool;
}.

(** Router contacts and link introduction messages, as far as a session looks at them. *)
Class Identity := {
  RouterContact : Type;
  pubkey : RouterContact -> list Z;
  IsPublicRouter : RouterContact -> bool;
  LinkIntroMessage : Type;
  lim_rc : LinkIntroMessage -> RouterContact;
  lim_Verify : LinkIntroMessage -> bool;
}.

Inductive State := Initial | Introduction | LinkIntro | Ready | Closed.
#[global] Instance State_eq_dec : EqDecision State.
Proof. solve_decision. Defined.

(** The three functions [GotLIM] points to in turn. *)
Inductive LIMHandler := GotInboundLIM' | GotOutboundLIM' | GotRenegLIM'.

Record SessionStats := {
  currentRateRX : Z;
  currentRateTX : Z;
  totalPacketsRX : Z;
  totalAckedTX : Z;
  totalDroppedTX : Z;
  totalInFlightTX : Z;
}.
#[global] Instance SessionStats_eta : Eta SessionStats := fun r =>
  Build_SessionStats (currentRateRX r) (currentRateTX r) (totalPacketsRX r) (totalAckedTX r)
    (totalDroppedTX r) (totalInFlightTX r).

(** Calls out of the session; [HandleMessage] also records the id the message had. *)
Inductive event :=
| SendTo_LL (pkt : list Z)
| EncryptJob (pkt : list Z)
| DecryptJob (pkt : list Z)
| HashJob (msgs : list OutboundMessage.t)
| VerifyJob (msg : InboundMessage.t)
| HandleMessage (rxid : Z) (msg : list Z)
| Notify (handler : Z) (status : DeliveryStatus)
| MapAddr (pk : list Z)
| UnmapAddr
| SessionEstablished (inbound : bool)
| SessionRenegotiate
| PumpTriggered
| HashingTriggered
| PlaintextWoken.

Section session.
Context {OX : Oxenc} {R : Random} {SH : ShortHasher} {CR : Crypto} {KE : Keys} {ID : Identity}.

Record Session := {
  m_State : State;
  m_Stats : SessionStats;
  m_Inbound : bool;
  m_CreatedAt : Z;
  m_ChosenAI : list Z;
  m_RemoteRC : option RouterContact;
  m_SessionKey : list Z;
  token : list Z;
  m_ExpectedIdent : list Z;
  m_RemoteOnionKey : list Z;
  m_LastTX : Z;
  m_LastRX : Z;
  m_TXRate : Z;
  m_RXRate : Z;
  m_ResetRatesAt : Z;
  m_TXID : Z;
  m_RXMsgs : gmap Z InboundMessage.t;
  m_TXMsgs : gmap Z OutboundMessage.t;
  m_ReplayFilter : gmap Z Z;
  m_SendMACKs : list Z;
  m_EncryptNext : list (list Z);
  m_DecryptNext : list (list Z);
  m_PlaintextEmpty : bool;
  m_PlaintextRecv : list (Z * list Z);
  m_ToHash : gset Z;
  m_PendingHash : gset Z;
  m_SentClosed : bool;
  GotLIM : LIMHandler;
  w_now : Z;
  w_wall : Z;
  w_draws : nat;
  w_out : list event;
}.

#[global] Instance Session_eta : Eta Session := fun r =>
  Build_Session (m_State r) (m_Stats r) (m_Inbound r) (m_CreatedAt r) (m_ChosenAI r) (m_RemoteRC r) (m_SessionKey r)
    (token r) (m_ExpectedIdent r) (m_RemoteOnionKey r) (m_LastTX r) (m_LastRX r) (m_TXRate r) (m_RXRate r)
    (m_ResetRatesAt r) (m_TXID r) (m_RXMsgs r) (m_TXMsgs r) (m_ReplayFilter r) (m_SendMACKs r)
    (m_EncryptNext r) (m_DecryptNext r) (m_PlaintextEmpty r) (m_PlaintextRecv r) (m_ToHash r)
    (m_PendingHash r) (m_SentClosed r) (GotLIM r) (w_now r) (w_wall r) (w_draws r) (w_out r).

(** ** The monad of handlers *)
Definition M (A : Type) : Type := Session -> res (A * Session).
#[global] Instance M_ret : MRet M := fun A a s => Ok (a, s).
#[global] Instance M_bind : MBind M := fun A B f m s => let* (a, s) := m s in f a s.

Definition gets {A} (f : Session -> A) : M A := fun s => Ok (f s, s).
Definition modify (f : Session -> Session) : M unit := fun s => Ok (tt, f s).
Definition lift {A} (r : res A) : M A := fun s => let* a := r in Ok (a, s).
Definition emit (e : event) : M unit := modify (fun s => s <| w_out ::= fun o => o ++ [e] |>).
Definition when (b : bool) (m : M unit) : M unit := if b then m else mret tt.
Definition draw : M nat :=
  k ← gets w_draws; modify (fun s => s <| w_draws := S k |>);; mret k.
(** [n] consecutive draws, the index of the first. *)
Definition draws (n : nat) : M nat :=
  k ← gets w_draws; modify (fun s => s <| w_draws := (k + n)%nat |>);; mret k.

Fixpoint forM {A} (l : list A) (f : A -> M unit) : M unit :=
  match l with
  | [] => mret tt
  | a :: l => f a;; forM l f
  end.

(** [std::map] is iterated in the order of its keys. *)
Definition key_le {A} (a b : Z * A) : Prop := a.1 <= b.1.
#[global] Instance key_le_dec {A} : RelDecision (@key_le A).
Proof. intros a b. unfold key_le. apply _. Defined.
Definition in_order {A} (m : gmap Z A) : list (Z * A) := merge_sort key_le (map_to_list m).

(** [util::descending_priority_queue<uint64_t>]: the smallest element is on top. *)
Fixpoint pq_emplace (x : Z) (l : list Z) : list Z :=
  match l with
  | [] => [x]
  | y :: r => if x <=? y then x :: l else y :: pq_emplace x r
  end.

(** ** Construction *)
Definition token_size : nat := 24.
Definition PubKey_SIZE : nat := 32.
Definition Signature_SIZE : nat := 64.
Definition INTROSIZE : nat := PubKey_SIZE + PubKey_SIZE + TUNNONCESIZE + Signature_SIZE.
Definition PlaintextQueueSize : Z := 512.
Definition MaxSendQueueSize : nat := 16 * 1024.
Definition LinkLayerConnectTimeout : Z := 5000.
Definition DefaultLinkSessionLifetime : Z := 5 * 60 * 1000.
Definition MaxACKSInMACK : nat := 1024 / 8.

Definition newSession (inbound : bool) (ai : list Z) (rc : option RouterContact) (tok key : list Z)
    (h : LIMHandler) (now : Z) : Session :=
  {| m_State := Initial; m_Stats := Build_SessionStats 0 0 0 0 0 0; m_Inbound := inbound;
     m_CreatedAt := now; m_ChosenAI := ai; m_RemoteRC := rc; m_SessionKey := key; token := tok;
     m_ExpectedIdent := replicate PubKey_SIZE 0; m_RemoteOnionKey := replicate PubKey_SIZE 0;
     m_LastTX := 0; m_LastRX := 0; m_TXRate := 0; m_RXRate := 0; m_ResetRatesAt := 0; m_TXID := 0;
     m_RXMsgs := ∅; m_TXMsgs := ∅; m_ReplayFilter := ∅; m_SendMACKs := []; m_EncryptNext := [];
     m_DecryptNext := []; m_PlaintextEmpty := true; m_PlaintextRecv := []; m_ToHash := ∅;
     m_PendingHash := ∅; m_SentClosed := false; GotLIM := h; w_now := now; w_wall := now;
     w_draws := 0; w_out := [] |}.

Definition outboundSession (rc : RouterContact) (ai : list Z) (now : Z) : Session :=
  newSession false ai (Some rc) (replicate token_size 0) (shorthash (pubkey rc)) GotOutboundLIM' now.
Definition inboundSession (now : Z) : Session :=
  (newSession true [] None (randbytes 0 token_size) (shorthash our_pubkey) GotInboundLIM' now)
    <| w_draws := 1%nat |>.

(** ** Sending *)
Definition Send_LL (buf : list Z) : M unit :=
  emit (SendTo_LL buf);;
  modify (fun s => s <| m_LastTX := w_wall s |> <| m_TXRate ::= fun r => u64 (r + Z.of_nat (length buf)) |>).

(** [EncryptWorker::EncryptPacket]: the results of xchacha20 and hmac are not looked at. *)
Definition EncryptPacket (pkt : list Z) : M unit :=
  key ← gets m_SessionKey;
  nonce ← lift (peek HMACSIZE TUNNONCESIZE pkt);
  plain ← lift (peek PacketOverhead (length pkt - PacketOverhead) pkt);
  pkt ← lift (match xchacha20 plain key nonce with
              | Some c => poke PacketOverhead c pkt
              | None => Ok pkt
              end);
  body ← lift (peek HMACSIZE (length pkt - HMACSIZE) pkt);
  pkt ← lift (match hmac body key with
              | Some h => poke 0 h pkt
              | None => Ok pkt
              end);
  Send_LL pkt.

Definition IsEstablished (s : Session) : bool :=
  bool_decide (m_State s = Ready) || bool_decide (m_State s = LinkIntro).

Definition TriggerPump : M unit := emit PumpTriggered.

Definition EncryptAndSend (data : list Z) : M unit :=
  st ← gets m_State;
  when (bool_decide (st = LinkIntro) || bool_decide (st = Ready))
    (_ ← lift (byte_at (PacketOverhead + 1) data); mret tt);;
  modify (fun s => s <| m_EncryptNext ::= fun l => l ++ [data] |>);;
  est ← gets IsEstablished;
  when (negb est)
    (pkts ← gets m_EncryptNext;
     forM pkts EncryptPacket;;
     modify (fun s => s <| m_EncryptNext := [] |>));;
  TriggerPump.

Definition Close : M unit :=
  st ← gets m_State;
  if decide (st = Closed) then mret tt
  else
    k ← draw;
    close_msg ← lift (CreatePacket k eCLOS 0 16 16);
    emit UnmapAddr;;
    modify (fun s => s <| m_State := Closed |>);;
    sent ← gets m_SentClosed;
    modify (fun s => s <| m_SentClosed := true |>);;
    if sent : bool then mret tt else EncryptAndSend close_msg.

Definition SendMessageBuffer (buf : list Z) (completed : option CompletionHandler) (priority : Z) : M bool :=
  full ← gets (fun s => (MaxSendQueueSize <=? base.size (m_TXMsgs s))%nat);
  if full : bool then
    match completed with
    | Some (UserHandler h) => emit (Notify h eDeliveryDropped)
    | Some LimHandler => Close
    | None => mret tt
    end;;
    mret false
  else
    now ← gets w_now;
    msgid ← gets m_TXID;
    modify (fun s => s <| m_TXID ::= fun i => u64 (i + 1) |>
      <| m_TXMsgs ::= fun m => match m !! msgid with
                               | Some _ => m
                               | None => <[msgid := OutboundMessage.new msgid buf now completed priority]> m
                               end |>
      <| m_ToHash ::= fun h => {[msgid]} ∪ h |>);;
    emit HashingTriggered;;
    mret true.

(** [m_TXMsgs[msgid]] inserts a default message under an absent id. *)
Definition tx_at (msgid : Z) : M OutboundMessage.t :=
  m ← gets (fun s => m_TXMsgs s !! msgid);
  match m with
  | Some m => mret m
  | None => modify (fun s => s <| m_TXMsgs ::= <[msgid := OutboundMessage.dflt]> |>);;
            mret OutboundMessage.dflt
  end.

(** The order of an [unordered_set] is unspecified; [elements] picks one. *)
Fixpoint collect (ids : list Z) : M (list OutboundMessage.t) :=
  match ids with
  | [] => mret []
  | i :: ids => m ← tx_at i; ms ← collect ids; mret (m :: ms)
  end.

Definition TriggerHashGen : M unit :=
  ids ← gets (fun s => elements (m_ToHash s));
  msgs ← collect ids;
  match msgs with
  | [] => mret tt
  | _ => emit (HashJob msgs);; modify (fun s => s <| m_ToHash := ∅ |>)
  end.

(** [FlushUnAcked] on a stored message: its packets go to EncryptAndSend one by one. *)
Definition flush_tx (msgid : Z) : M unit :=
  now ← gets w_now;
  m ← tx_at msgid;
  k ← gets w_draws;
  r ← lift (OutboundMessage.FlushUnAcked k now m);
  draws (length r.1);;
  forM r.1 EncryptAndSend;;
  modify (fun s => s <| m_TXMsgs ::= <[msgid := r.2]> |>).

Definition HandleGeneratedHash (m : OutboundMessage.t) : M unit :=
  let msgid := OutboundMessage.m_MsgID m in
  msg ← tx_at msgid;
  let msg := OutboundMessage.set_digest (OutboundMessage.m_Digest m) msg in
  modify (fun s => s <| m_TXMsgs ::= <[msgid := msg]> |>);;
  k ← draw;
  xmit ← lift (OutboundMessage.XMIT k msg);
  EncryptAndSend xmit;;
  when (FragmentSize <? length (OutboundMessage.m_Data msg))%nat (flush_tx msgid);;
  modify (fun s => s <| m_Stats ::= fun st => st <| totalInFlightTX ::= fun n => u64 (n + 1) |> |>).

(** ** Acknowledging *)
Fixpoint put_macks (acks : list Z) (off : nat) (pkt : list Z) : res (list Z) :=
  match acks with
  | [] => Ok pkt
  | a :: acks => let* pkt := poke off (write_host_as_big 8 a) pkt in put_macks acks (off + 8) pkt
  end.

(** One pass of the outer loop packs the smallest ids first. *)
Fixpoint send_macks (fuel : nat) : M unit :=
  acks ← gets m_SendMACKs;
  match acks, fuel with
  | [], _ => mret tt
  | _, O => lift NoFuel
  | _, S f =>
      let numAcks := Nat.min (length acks) MaxACKSInMACK in
      k ← draw;
      mack ← lift (CreatePacket k eMACK (1 + numAcks * 8) 16 16);
      mack ← lift (poke (PacketOverhead + CommandOverhead) [u8 (Z.of_nat numAcks)] mack);
      mack ← lift (put_macks (take numAcks acks) (3 + PacketOverhead) mack);
      modify (fun s => s <| m_SendMACKs := drop numAcks acks |>);;
      EncryptAndSend mack;;
      send_macks f
  end.
Definition SendMACK : M unit :=
  n ← gets (fun s => length (m_SendMACKs s));
  send_macks n.

Definition HandleRecvMsgCompleted (msg : InboundMessage.t) : M unit :=
  let rxid := InboundMessage.m_MsgID msg in
  now ← gets w_now;
  known ← gets (fun s => m_ReplayFilter s !! rxid);
  match known with
  | None =>
      modify (fun s => s <| m_ReplayFilter ::= <[rxid := now]> |>);;
      emit (HandleMessage rxid (InboundMessage.m_Data msg));;
      modify (fun s => s <| m_SendMACKs ::= pq_emplace rxid |>)
  | Some _ => mret tt
  end;;
  modify (fun s => s <| m_RXMsgs ::= delete rxid |>).

Definition VerifiedMessage (msgid : Z) : M unit :=
  m ← gets (fun s => m_RXMsgs s !! msgid);
  match m with Some m => HandleRecvMsgCompleted m | None => mret tt end;;
  modify (fun s => s <| m_PendingHash ::= fun h => h ∖ {[msgid]} |>).

Definition DropMessage (msgid : Z) : M unit :=
  modify (fun s => s <| m_RXMsgs ::= delete msgid |> <| m_PendingHash ::= fun h => h ∖ {[msgid]} |>).

(** ** Completion handlers *)
Definition run_handler (h : option (CompletionHandler * DeliveryStatus)) : M unit :=
  match h with
  | None => mret tt
  | Some (UserHandler i, st) => emit (Notify i st)
  | Some (LimHandler, eDeliverySuccess) =>
      modify (fun s => s <| m_State := Ready |>);;
      rc ← gets m_RemoteRC;
      emit (MapAddr (from_option pubkey [] rc));;
      emit (SessionEstablished false)
  | Some (LimHandler, eDeliveryDropped) => Close
  end.

(** ** Link introduction messages *)
Definition SendOurLIM (h : option CompletionHandler) : M unit :=
  k ← draw;
  match our_lim k with
  | None => mret tt
  | Some data => _ ← SendMessageBuffer data h 0; mret tt
  end.

Definition GotInboundLIM (msg : LinkIntroMessage) : M bool :=
  ident ← gets m_ExpectedIdent;
  if negb (lim_Verify msg) then mret false
  else if decide (pubkey (lim_rc msg) = ident) then
    modify (fun s => s <| m_State := Ready |> <| GotLIM := GotRenegLIM' |> <| m_RemoteRC := Some (lim_rc msg) |>);;
    emit (MapAddr (pubkey (lim_rc msg)));;
    emit (SessionEstablished true);;
    mret parent_accepts
  else mret false.

Definition GotOutboundLIM (msg : LinkIntroMessage) : M bool :=
  rc ← gets m_RemoteRC;
  if negb (lim_Verify msg) then mret false
  else if decide (Some (pubkey (lim_rc msg)) = pubkey <$> rc) then
    modify (fun s => s <| m_RemoteRC := Some (lim_rc msg) |> <| GotLIM := GotRenegLIM' |>);;
    SendOurLIM (Some LimHandler);;
    mret true
  else mret false.

Definition GotRenegLIM (msg : LinkIntroMessage) : M bool :=
  if negb (lim_Verify msg) then mret false
  else emit SessionRenegotiate;; mret parent_accepts.

(** [LinkIntroMessage::HandleMessage] *)
Definition HandleLIM (msg : LinkIntroMessage) : M bool :=
  if negb (lim_Verify msg) then mret false
  else
    h ← gets GotLIM;
    match h with
    | GotInboundLIM' => GotInboundLIM msg
    | GotOutboundLIM' => GotOutboundLIM msg
    | GotRenegLIM' => GotRenegLIM msg
    end.

Definition RenegotiateSession : M bool := SendOurLIM None;; mret true.

(** ** Keepalive and timeouts *)
Definition ShouldPing (s : Session) : bool :=
  if decide (m_State s = Ready) then PingInterval <? w_now s - m_LastTX s else false.

Definition SendKeepAlive : M bool :=
  st ← gets m_State;
  if decide (st = Ready) then
    k ← draw;
    pkt ← lift (CreatePacket k ePING 0 16 16);
    EncryptAndSend pkt;; mret true
  else mret false.

Definition TimedOut (now : Z) (s : Session) : bool :=
  if decide (m_State s = Ready) then
    (m_LastRX s <? now) &&
    ((if m_Inbound s && negb (from_option IsPublicRouter false (m_RemoteRC s))
      then DefaultLinkSessionLifetime else SessionAliveTimeout) <? now - m_LastRX s)
  else LinkLayerConnectTimeout <=? now - m_CreatedAt s.

Definition ShouldResetRates (now : Z) (s : Session) : bool := m_ResetRatesAt s <=? now.

Definition ResetRates : M unit :=
  modify (fun s => s <| m_Stats ::= fun st => st <| currentRateTX := m_TXRate s |> <| currentRateRX := m_RXRate s |> |>
                     <| m_RXRate := 0 |> <| m_TXRate := 0 |>).

(** ** Pump *)
Definition send_acks (id : Z) : M unit :=
  now ← gets w_now;
  m ← gets (fun s => m_RXMsgs s !! id);
  match m with
  | None => mret tt
  | Some m =>
      when (InboundMessage.ShouldSendACKS now m)
        (k ← draw;
         r ← lift (InboundMessage.SendACKS k now m);
         EncryptAndSend r.1;;
         modify (fun s => s <| m_RXMsgs ::= <[id := r.2]> |>))
  end.

(** The [std::priority_queue] of messages due, ordered by [operator<] through [ComparePtr]:
    the greatest comes out first. *)
Definition resend_le (a b : Z * OutboundMessage.t) : Prop := OutboundMessage.lt a.2 b.2 = false.
#[global] Instance resend_le_dec : RelDecision resend_le.
Proof. intros a b. unfold resend_le. apply _. Defined.
Definition to_resend (now : Z) (m : gmap Z OutboundMessage.t) : list (Z * OutboundMessage.t) :=
  merge_sort resend_le (filter (fun p => OutboundMessage.ShouldFlush now p.2 = true) (in_order m)).

Definition Pump : M unit :=
  now ← gets w_now;
  est ← gets IsEstablished;
  when est
    (ping ← gets ShouldPing;
     when ping (_ ← SendKeepAlive; mret tt);;
     ids ← gets (fun s => (in_order (m_RXMsgs s)).*1);
     forM ids send_acks);;
  due ← gets (fun s => (to_resend now (m_TXMsgs s)).*1);
  forM due flush_tx;;
  enc ← gets m_EncryptNext;
  forM enc (fun p => emit (EncryptJob p));;
  modify (fun s => s <| m_EncryptNext := [] |>);;
  dec ← gets m_DecryptNext;
  forM dec (fun p => emit (DecryptJob p));;
  modify (fun s => s <| m_DecryptNext := [] |>).

Definition RecvHashed (msgs : list OutboundMessage.t) : M unit :=
  forM msgs HandleGeneratedHash;;
  Pump.

(** ** Tick *)
Definition tick_tx (now : Z) (id : Z) : M unit :=
  m ← gets (fun s => m_TXMsgs s !! id);
  match m with
  | None => mret tt
  | Some m =>
      when (OutboundMessage.IsTimedOut now m)
        (modify (fun s => s <| m_Stats ::= fun st =>
           st <| totalDroppedTX ::= fun n => u64 (n + 1) |> <| totalInFlightTX ::= fun n => u64 (n - 1) |> |>);;
         run_handler (OutboundMessage.InformTimeout m).1;;
         modify (fun s => s <| m_TXMsgs ::= delete id |>))
  end.

Definition emplace_if_absent (k v : Z) (m : gmap Z Z) : gmap Z Z :=
  match m !! k with Some _ => m | None => <[k := v]> m end.

Definition tick_rx (now : Z) (s : Session) : Session :=
  let expired := filter (fun p => InboundMessage.IsTimedOut now p.2 = true) (map_to_list (m_RXMsgs s)) in
  s <| m_ReplayFilter ::= fun f => foldr (fun p => emplace_if_absent p.1 now) f expired |>
    <| m_RXMsgs ::= filter (fun p => InboundMessage.IsTimedOut now p.2 = false) |>.

Definition tick_replay (now : Z) (s : Session) : Session :=
  s <| m_ReplayFilter ::= filter (fun p => ¬ (p.2 + ReplayWindow <= now)) |>.

Definition Tick (now : Z) : M unit :=
  reset ← gets (ShouldResetRates now);
  when reset (ResetRates;; modify (fun s => s <| m_ResetRatesAt := now + 1000 |>));;
  ids ← gets (fun s => (in_order (m_TXMsgs s)).*1);
  forM ids (tick_tx now);;
  modify (tick_rx now);;
  modify (tick_replay now).

(** ** Handshake *)
Definition DecryptMessageInPlace (pkt : list Z) : M (option (list Z)) :=
  if (length pkt <=? PacketOverhead)%nat then mret None
  else
    key ← gets m_SessionKey;
    body ← lift (peek SHORTHASHSIZE (length pkt - SHORTHASHSIZE) pkt);
    match hmac body key with
    | None => mret None
    | Some H =>
        expected ← lift (peek 0 SHORTHASHSIZE pkt);
        if decide (H = expected) then
          N ← lift (peek SHORTHASHSIZE TUNNONCESIZE pkt);
          payload ← lift (peek (SHORTHASHSIZE + 32) (length pkt - SHORTHASHSIZE - 32) pkt);
          match xchacha20 payload key N with
          | None => mret None
          | Some plain => pkt ← lift (poke (SHORTHASHSIZE + 32) plain pkt); mret (Some pkt)
          end
        else mret None
    end.

Definition GenerateAndSendIntro : M unit :=
  k ← draw;
  let N := randbytes k TUNNONCESIZE in
  let req := replicate (INTROSIZE + PacketOverhead) 0 in
  req ← lift (poke PacketOverhead our_pubkey req);
  req ← lift (poke (PacketOverhead + PubKey_SIZE) our_encryption_pubkey req);
  req ← lift (poke (PacketOverhead + PubKey_SIZE + PubKey_SIZE) N req);
  signbuf ← lift (peek PacketOverhead (INTROSIZE - Signature_SIZE) req);
  req ← lift (poke (PacketOverhead + (INTROSIZE - Signature_SIZE)) (sign signbuf) req);
  k ← draw;
  req ← lift (poke HMACSIZE (randbytes k TUNNONCESIZE) req);
  EncryptAndSend req;;
  modify (fun s => s <| m_State := Introduction |>);;
  ai ← gets m_ChosenAI;
  match transport_dh_client ai N with
  | None => mret tt
  | Some key => modify (fun s => s <| m_SessionKey := key |>)
  end.

Definition HandleCreateSessionRequest (pkt : list Z) : M unit :=
  r ← DecryptMessageInPlace pkt;
  match r with
  | None => mret tt
  | Some pkt =>
      if (length pkt <? token_size + PacketOverhead)%nat then mret tt
      else
        begin ← lift (peek PacketOverhead token_size pkt);
        tok ← gets token;
        if decide (begin = tok) then
          modify (fun s => s <| m_LastRX := w_now s |> <| m_State := LinkIntro |>);;
          SendOurLIM None
        else mret tt
  end.

Definition HandleGotIntro (pkt : list Z) : M unit :=
  if (length pkt <? INTROSIZE + PacketOverhead)%nat then mret tt
  else
    ident ← lift (peek PacketOverhead PubKey_SIZE pkt);
    onion ← lift (peek (PacketOverhead + PubKey_SIZE) PubKey_SIZE pkt);
    modify (fun s => s <| m_ExpectedIdent := ident |> <| m_RemoteOnionKey := onion |>);;
    N ← lift (peek (PacketOverhead + PubKey_SIZE + PubKey_SIZE) TUNNONCESIZE pkt);
    Z ← lift (peek (PacketOverhead + PubKey_SIZE + PubKey_SIZE + TUNNONCESIZE) Signature_SIZE pkt);
    verifybuf ← lift (peek PacketOverhead (INTROSIZE - Signature_SIZE) pkt);
    if negb (verify ident verifybuf Z) then mret tt
    else match transport_dh_server onion N with
         | None => mret tt
         | Some key =>
             modify (fun s => s <| m_SessionKey := key |>);;
             let reply := replicate (token_size + PacketOverhead) 0 in
             k ← draw;
             reply ← lift (poke HMACSIZE (randbytes k TUNNONCESIZE) reply);
             tok ← gets token;
             reply ← lift (poke PacketOverhead tok reply);
             modify (fun s => s <| m_LastRX := w_now s |>);;
             EncryptAndSend reply;;
             modify (fun s => s <| m_State := Introduction |>)
         end.

Definition HandleGotIntroAck (pkt : list Z) : M unit :=
  if (length pkt <? token_size + PacketOverhead)%nat then mret tt
  else
    let reply := replicate (token_size + PacketOverhead) 0 in
    r ← DecryptMessageInPlace pkt;
    match r with
    | None => mret tt
    | Some pkt =>
        modify (fun s => s <| m_LastRX := w_now s |>);;
        tok ← lift (peek PacketOverhead token_size pkt);
        modify (fun s => s <| token := tok |>);;
        reply ← lift (poke PacketOverhead tok reply);
        k ← draw;
        reply ← lift (poke HMACSIZE (randbytes k TUNNONCESIZE) reply);
        EncryptAndSend reply;;
        modify (fun s => s <| m_State := LinkIntro |>)
    end.

Definition Start : M unit :=
  inbound ← gets m_Inbound;
  if inbound : bool then mret tt else GenerateAndSendIntro.

Definition HandleSessionData (pkt : list Z) : M unit :=
  modify (fun s => s <| m_DecryptNext ::= fun l => l ++ [pkt] |>);;
  TriggerPump.

Definition Recv_LL (data : list Z) : M bool :=
  modify (fun s => s <| m_RXRate ::= fun r => u64 (r + Z.of_nat (length data)) |>
                     <| m_Stats ::= fun st => st <| totalPacketsRX ::= fun n => u64 (n + 1) |> |>);;
  st ← gets m_State;
  inbound ← gets m_Inbound;
  match st with
  | Initial =>
      if inbound : bool then
        r ← DecryptMessageInPlace data;
        match r with
        | Some data => HandleGotIntro data;; mret true
        | None => mret false
        end
      else mret true
  | Introduction =>
      (if inbound : bool then HandleCreateSessionRequest data else HandleGotIntroAck data);;
      mret true
  | _ => HandleSessionData data;; mret true
  end.

(** ** Plaintext packets *)
Definition maybe_queue_verify (id : Z) (msg : InboundMessage.t) : M unit :=
  done ← lift (InboundMessage.IsCompleted msg);
  when done
    (modify (fun s => s <| m_PendingHash ::= fun h => {[id]} ∪ h |>);;
     emit (VerifyJob msg)).

Definition XMITOverhead : nat := CommandOverhead + PacketOverhead + 2 + 8 + SHORTHASHSIZE.

Definition HandleXMIT (data : list Z) : M unit :=
  if (length data <? XMITOverhead)%nat then mret tt
  else
    let pos := (CommandOverhead + PacketOverhead)%nat in
    sz ← lift (load_big pos 2 data);
    rxid ← lift (load_big (pos + 2) 8 data);
    let pos := (pos + 10)%nat in
    replayed ← gets (fun s => m_ReplayFilter s !! rxid);
    match replayed with
    | Some _ => modify (fun s => s <| m_SendMACKs ::= pq_emplace rxid |>)
    | None =>
        now ← gets w_now;
        known ← gets (fun s => m_RXMsgs s !! rxid);
        match known with
        | Some _ => mret tt
        | None =>
            h ← lift (peek pos SHORTHASHSIZE data);
            let msg := InboundMessage.new rxid sz h now in
            modify (fun s => s <| m_RXMsgs ::= <[rxid := msg]> |>);;
            TriggerPump;;
            let sz := Z.min sz (Z.of_nat FragmentSize) in
            when (Z.of_nat (length data - XMITOverhead) =? sz)
              (buf ← lift (peek (length data - Z.to_nat sz) (Z.to_nat sz) data);
               msg ← lift (InboundMessage.HandleData 0 buf now msg);
               modify (fun s => s <| m_RXMsgs ::= <[rxid := msg]> |>);;
               maybe_queue_verify rxid msg)
        end
    end.

Definition HandleDATA (data : list Z) : M unit :=
  if (length data <? CommandOverhead + 2 + 8 + PacketOverhead)%nat then mret tt
  else
    sz ← lift (load_big (CommandOverhead + PacketOverhead) 2 data);
    rxid ← lift (load_big (CommandOverhead + 2 + PacketOverhead) 8 data);
    m ← gets (fun s => m_RXMsgs s !! rxid);
    match m with
    | None =>
        replayed ← gets (fun s => m_ReplayFilter s !! rxid);
        match replayed with
        | None =>
            k ← draw;
            nack ← lift (CreatePacket k eNACK 8 16 16);
            nack ← lift (poke (PacketOverhead + CommandOverhead) (write_host_as_big 8 rxid) nack);
            EncryptAndSend nack
        | Some _ => modify (fun s => s <| m_SendMACKs ::= pq_emplace rxid |>)
        end
    | Some msg =>
        now ← gets w_now;
        buf ← lift (peek (PacketOverhead + 12) (length data - (PacketOverhead + 12)) data);
        msg ← lift (InboundMessage.HandleData sz buf now msg);
        modify (fun s => s <| m_RXMsgs ::= <[rxid := msg]> |>);;
        maybe_queue_verify rxid msg
    end.

Definition HandleACKS (data : list Z) : M unit :=
  if (length data <? 11 + PacketOverhead)%nat then mret tt
  else
    txid ← lift (load_big (2 + PacketOverhead) 8 data);
    m ← gets (fun s => m_TXMsgs s !! txid);
    match m with
    | None => mret tt
    | Some msg =>
        b ← lift (byte_at (10 + PacketOverhead) data);
        let msg := OutboundMessage.Ack b msg in
        modify (fun s => s <| m_TXMsgs ::= <[txid := msg]> |>);;
        sent ← lift (OutboundMessage.IsTransmitted msg);
        if sent : bool then
          run_handler (OutboundMessage.Completed msg).1;;
          modify (fun s => s <| m_TXMsgs ::= delete txid |>)
        else flush_tx txid
    end.

Definition HandleNACK (data : list Z) : M unit :=
  if (length data <? CommandOverhead + 8 + PacketOverhead)%nat then mret tt
  else
    txid ← lift (load_big (CommandOverhead + PacketOverhead) 8 data);
    m ← gets (fun s => m_TXMsgs s !! txid);
    match m with
    | None => mret tt
    | Some msg =>
        k ← draw;
        xmit ← lift (OutboundMessage.XMIT k msg);
        EncryptAndSend xmit
    end.

Definition acked_by_mack (acked : Z) : M unit :=
  m ← gets (fun s => m_TXMsgs s !! acked);
  match m with
  | None => mret tt
  | Some msg =>
      modify (fun s => s <| m_Stats ::= fun st =>
        st <| totalAckedTX ::= fun n => u64 (n + 1) |> <| totalInFlightTX ::= fun n => u64 (n - 1) |> |>);;
      run_handler (OutboundMessage.Completed msg).1;;
      modify (fun s => s <| m_TXMsgs ::= delete acked |>)
  end.

Fixpoint mack_loop (numAcks : nat) (ptr : nat) (data : list Z) : M unit :=
  match numAcks with
  | O => mret tt
  | S n =>
      acked ← lift (load_big ptr 8 data);
      acked_by_mack acked;;
      mack_loop n (ptr + 8) data
  end.

Definition HandleMACK (data : list Z) : M unit :=
  if (length data <? 3 + PacketOverhead)%nat then mret tt
  else
    numAcks ← lift (byte_at (CommandOverhead + PacketOverhead) data);
    if (length data <? 1 + CommandOverhead + PacketOverhead + Z.to_nat numAcks * 8)%nat then mret tt
    else mack_loop (Z.to_nat numAcks) (CommandOverhead + PacketOverhead + 1) data.

Definition HandleCLOS (data : list Z) : M unit := Close.
Definition HandlePING (data : list Z) : M unit := mret tt.

(** The switch on the command byte. *)
Definition HandlePacket (result : list Z) : M unit :=
  cmd ← lift (byte_at (PacketOverhead + 1) result);
  let touch := modify (fun s => s <| m_LastRX := w_now s |>) in
  if cmd =? 1 then HandleXMIT result;; touch
  else if cmd =? 2 then HandleDATA result;; touch
  else if cmd =? 3 then HandleACKS result;; touch
  else if cmd =? 0 then HandlePING result;; touch
  else if cmd =? 4 then HandleNACK result;; touch
  else if cmd =? 255 then HandleCLOS result;; touch
  else if cmd =? 5 then HandleMACK result;; touch
  else mret tt.

Definition HandlePlaintext : M unit :=
  was_empty ← gets m_PlaintextEmpty;
  modify (fun s => s <| m_PlaintextEmpty := true |>);;
  if was_empty : bool then mret tt
  else
    queue ← gets (fun s => merge_sort key_le (m_PlaintextRecv s));
    modify (fun s => s <| m_PlaintextRecv := [] |>);;
    forM queue.*2 HandlePacket;;
    SendMACK;;
    emit PlaintextWoken.

(** ** The workers *)

(** [DecryptWorker::Work] on one packet, with the number Submit gave it. *)
Definition DecryptWork (seq : Z) (pkt : list Z) : M unit :=
  r ← DecryptMessageInPlace pkt;
  match r with
  | None => mret tt
  | Some pkt =>
      version ← lift (byte_at PacketOverhead pkt);
      if version =? proto_version then
        modify (fun s =>
          s <| m_PlaintextRecv ::= fun l => (Spec.push PlaintextQueueSize false (seq, pkt) l).2 |>
            <| m_PlaintextEmpty := false |>);;
        emit PlaintextWoken
      else mret tt
  end.

(** A hasher thread computes [Verify] on the copy it was given. *)
Record VerifyResult := { vr_msgid : Z; vr_result : bool }.
Definition verify_request (msg : InboundMessage.t) : VerifyResult :=
  {| vr_msgid := InboundMessage.m_MsgID msg; vr_result := InboundMessage.Verify msg |}.

(** The other hasher fills in the digests. *)
Definition HashWork (msgs : list OutboundMessage.t) : list OutboundMessage.t :=
  map (fun m => OutboundMessage.set_digest (shorthash (OutboundMessage.m_Data m)) m) msgs.

(** [HandleWorkerCompletion], restricted to the results that belong to one session: what
    the two polls returned, in the order they returned it. *)
Definition HandleWorkerCompletion (results : list VerifyResult) (hashed : list OutboundMessage.t) : M unit :=
  let verified := vr_msgid <$> filter (fun r => vr_result r = true) results in
  let drop := vr_msgid <$> filter (fun r => vr_result r = false) results in
  let has_hashed := negb (Nat.eqb (length hashed) 0) in
  let has_verified := negb (Nat.eqb (length verified) 0) in
  when has_hashed (RecvHashed hashed);;
  forM verified VerifiedMessage;;
  when has_verified SendMACK;;
  forM drop DropMessage;;
  when (has_hashed || has_verified) Pump.

(** ** The calls the environment makes on a session *)
Inductive call :=
| CallStart
| CallRecv (pkt : list Z)
| CallDecrypt (seq : Z) (pkt : list Z)
| CallPlaintext
| CallSend (buf : list Z) (handler : option Z) (priority : Z)
| CallHashGen
| CallCompletion (requests : list InboundMessage.t) (hashed : list OutboundMessage.t)
| CallLIM (msg : LinkIntroMessage)
| CallRenegotiate
| CallKeepAlive
| CallPump
| CallTick
| CallClose
| CallClock (now wall : Z).

(** [ILinkLayer::Tick] passes the time of the event loop. *)
Definition run_call (c : call) : M unit :=
  match c with
  | CallStart => Start
  | CallRecv pkt => _ ← Recv_LL pkt; mret tt
  | CallDecrypt seq pkt => DecryptWork seq pkt
  | CallPlaintext => HandlePlaintext
  | CallSend buf h prio => _ ← SendMessageBuffer buf (UserHandler <$> h) prio; mret tt
  | CallHashGen => TriggerHashGen
  | CallCompletion requests hashed => HandleWorkerCompletion (map verify_request requests) hashed
  | CallLIM msg => _ ← HandleLIM msg; mret tt
  | CallRenegotiate => _ ← RenegotiateSession; mret tt
  | CallKeepAlive => _ ← SendKeepAlive; mret tt
  | CallPump => Pump
  | CallTick => now ← gets w_now; Tick now
  | CallClose => Close
  | CallClock now wall => modify (fun s => s <| w_now := now |> <| w_wall := wall |>)
  end.
Definition run_calls (cs : list call) : M unit := forM cs run_call.
End session.

(** ** One router, for examples *)
Definition keys_ref : Keys := {|
  our_pubkey := replicate 32 1;
  our_encryption_pubkey := replicate 32 2;
  sign := fun _ => replicate 64 0;
  transport_dh_client := fun _ N => Some N;
  transport_dh_server := fun _ N => Some N;
  our_lim := fun _ => Some [1; 2; 3];
  parent_accepts := true;
|}.
Definition identity_ref : Identity := {|
  RouterContact := list Z;
  pubkey := fun rc => rc;
  IsPublicRouter := fun _ => true;
  LinkIntroMessage := list Z;
  lim_rc := fun m => m;
  lim_Verify := fun _ => true;
|}.
