(* ===== verification/IwpInvariants.v ===== *)
(** * Invariants of the IWP session

    [keeps Rl m] says that every run of [m] that returns relates the states before and
    after it by the preorder [Rl]. Most handlers do not touch the receive side at all
    ([rx_frame]); the few that do are treated one by one. The theorems bound how often a
    message is delivered. *)

From stdpp Require Import sorting.
From S2P Require Import Prelude QueueManager Queue CryptoApi IwpMessage IwpSession.

Section keeps.
Context {OX : Oxenc} {R : Random} {SH : ShortHasher} {CR : Crypto} {KE : Keys} {ID : Identity}.

Definition keeps {A} (Rl : Session -> Session -> Prop) (m : M A) : Prop :=
  forall s a s', m s = Ok (a, s') -> Rl s s'.

Section rules.
Context (Rl : Session -> Session -> Prop) `{!PreOrder Rl}.

Lemma keeps_ret {A} (a : A) : keeps Rl (mret a).
Proof. intros s ? ? [= <- <-]. reflexivity. Qed.
Lemma keeps_gets {A} (f : Session -> A) : keeps Rl (gets f).
Proof. intros s ? ? [= <- <-]. reflexivity. Qed.
Lemma keeps_lift {A} (r : res A) : keeps Rl (lift r).
Proof. intros s ? ? H. unfold lift in H. destruct r; simplify_eq/=. reflexivity. Qed.
Lemma keeps_modify f : (forall s, Rl s (f s)) -> keeps Rl (modify f).
Proof. intros Hf s ? ? [= <- <-]. apply Hf. Qed.
Lemma keeps_bind {A B} (m : M A) (f : A -> M B) :
  keeps Rl m -> (forall a, keeps Rl (f a)) -> keeps Rl (mbind f m).
Proof.
  intros Hm Hf s b s' H. unfold mbind, M_bind in H. apply rbind_inv in H as ([a s1] & E1 & E2).
  etransitivity; [by eapply Hm|by eapply Hf].
Qed.
Lemma keeps_when b m : keeps Rl m -> keeps Rl (when b m).
Proof. destruct b; [done|]. intros _. apply keeps_ret. Qed.
Lemma keeps_forM {A} (l : list A) (f : A -> M unit) : (forall a, keeps Rl (f a)) -> keeps Rl (forM l f).
Proof. intros Hf. induction l; [apply keeps_ret|]. cbn. apply keeps_bind; [done|by intros]. Qed.
End rules.
End keeps.

(** Decompose a handler; what is left are its assignments and its calls. *)
Create HintDb keeps.
Ltac keeps_step :=
  lazymatch goal with
  | |- keeps _ (mret _) => apply keeps_ret; apply _
  | |- keeps _ (gets _) => apply keeps_gets; apply _
  | |- keeps _ (lift _) => apply keeps_lift; apply _
  | |- keeps _ (modify _) => apply keeps_modify; intros ?
  | |- keeps _ (mbind _ _) => apply keeps_bind; [apply _| |intros ?]
  | |- keeps _ (when _ _) => apply keeps_when; [apply _|]
  | |- keeps _ (forM _ _) => apply keeps_forM; [apply _|intros ?]
  | |- keeps _ draw => unfold draw
  | |- keeps _ (draws _) => unfold draws
  | |- keeps _ TriggerPump => unfold TriggerPump
  | |- keeps _ _ => first [solve [eauto 2 with keeps] | case_match]
  end.

(** The messages handed to the router, with their ids. *)
Definition deliveries (o : list event) : list (Z * list Z) :=
  omap (fun e => match e with HandleMessage i d => Some (i, d) | _ => None end) o.
Definition deliveries_of (id : Z) (o : list event) : list (Z * list Z) :=
  filter (fun p => p.1 = id) (deliveries o).

Section receive.
Context {OX : Oxenc} {R : Random} {SH : ShortHasher} {CR : Crypto} {KE : Keys} {ID : Identity}.

(** A message being received is stored under its id and is not in the replay filter. *)
Definition rx_ok (s : Session) : Prop :=
  forall i im, m_RXMsgs s !! i = Some im -> InboundMessage.m_MsgID im = i /\ m_ReplayFilter s !! i = None.

(** ** Handlers that leave the receive side alone *)
Record rx_frame (s s' : Session) : Prop := {
  rf_msgs : m_RXMsgs s' = m_RXMsgs s;
  rf_filter : m_ReplayFilter s' = m_ReplayFilter s;
  rf_now : w_now s' = w_now s;
  rf_out : deliveries (w_out s') = deliveries (w_out s);
}.

#[global] Instance rx_frame_pre : PreOrder rx_frame.
Proof. split; [by intros s|]. intros s1 s2 s3 [] []. split; congruence. Qed.

Lemma rx_frame_emit (e : event) :
  (forall i d, e <> HandleMessage i d) -> keeps rx_frame (emit e).
Proof.
  intros He. apply keeps_modify. intros s. split; [done..|]. cbn. unfold deliveries. rewrite omap_app. cbn.
  destruct e; rewrite ?app_nil_r; try done. by destruct (He rxid msg).
Qed.
End receive.

Ltac rx :=
  repeat lazymatch goal with
    | |- keeps _ (emit _) => apply rx_frame_emit; done
    | |- rx_frame _ _ => by split
    | |- _ => keeps_step
    end.

Section frames.
Context {OX : Oxenc} {R : Random} {SH : ShortHasher} {CR : Crypto} {KE : Keys} {ID : Identity}.

Lemma rx_EncryptPacket p : keeps rx_frame (EncryptPacket p).
Proof. unfold EncryptPacket, Send_LL. rx. Qed.
#[local] Hint Resolve rx_EncryptPacket : keeps.
Lemma rx_EncryptAndSend p : keeps rx_frame (EncryptAndSend p).
Proof. unfold EncryptAndSend. rx. Qed.
#[local] Hint Resolve rx_EncryptAndSend : keeps.
Lemma rx_Close : keeps rx_frame Close.
Proof. unfold Close. rx. Qed.
#[local] Hint Resolve rx_Close : keeps.
Lemma rx_SendMessageBuffer b h p : keeps rx_frame (SendMessageBuffer b h p).
Proof. unfold SendMessageBuffer. rx. Qed.
#[local] Hint Resolve rx_SendMessageBuffer : keeps.
Lemma rx_tx_at i : keeps rx_frame (tx_at i).
Proof. unfold tx_at. rx. Qed.
#[local] Hint Resolve rx_tx_at : keeps.
Lemma rx_collect l : keeps rx_frame (collect l).
Proof. induction l; cbn [collect]; rx. Qed.
#[local] Hint Resolve rx_collect : keeps.
Lemma rx_TriggerHashGen : keeps rx_frame TriggerHashGen.
Proof. unfold TriggerHashGen. rx. Qed.
Lemma rx_flush_tx i : keeps rx_frame (flush_tx i).
Proof. unfold flush_tx. rx. Qed.
#[local] Hint Resolve rx_flush_tx : keeps.
Lemma rx_HandleGeneratedHash m : keeps rx_frame (HandleGeneratedHash m).
Proof. unfold HandleGeneratedHash. rx. Qed.
Lemma rx_SendMACK : keeps rx_frame SendMACK.
Proof.
  unfold SendMACK. apply keeps_bind; [apply _|apply keeps_gets; apply _|]. intros n.
  induction n; cbn [send_macks]; rx.
Qed.
Lemma rx_run_handler h : keeps rx_frame (run_handler h).
Proof. unfold run_handler. rx. Qed.
#[local] Hint Resolve rx_run_handler : keeps.
Lemma rx_SendOurLIM h : keeps rx_frame (SendOurLIM h).
Proof. unfold SendOurLIM. rx. Qed.
#[local] Hint Resolve rx_SendOurLIM : keeps.
Lemma rx_HandleLIM m : keeps rx_frame (HandleLIM m).
Proof. unfold HandleLIM, GotInboundLIM, GotOutboundLIM, GotRenegLIM. rx. Qed.
Lemma rx_SendKeepAlive : keeps rx_frame SendKeepAlive.
Proof. unfold SendKeepAlive. rx. Qed.
#[local] Hint Resolve rx_SendKeepAlive : keeps.
Lemma rx_tick_tx n i : keeps rx_frame (tick_tx n i).
Proof. unfold tick_tx. rx. Qed.
Lemma rx_DecryptMessageInPlace p : keeps rx_frame (DecryptMessageInPlace p).
Proof. unfold DecryptMessageInPlace. rx. Qed.
#[local] Hint Resolve rx_DecryptMessageInPlace : keeps.
Lemma rx_Start : keeps rx_frame Start.
Proof. unfold Start, GenerateAndSendIntro. rx. Qed.
Lemma rx_Recv_LL p : keeps rx_frame (Recv_LL p).
Proof.
  unfold Recv_LL, HandleGotIntro, HandleCreateSessionRequest, HandleGotIntroAck, HandleSessionData. rx.
Qed.
Lemma rx_DecryptWork n p : keeps rx_frame (DecryptWork n p).
Proof. unfold DecryptWork. rx. Qed.
Lemma rx_HandleACKS d : keeps rx_frame (HandleACKS d).
Proof. unfold HandleACKS. rx. Qed.
Lemma rx_HandleNACK d : keeps rx_frame (HandleNACK d).
Proof. unfold HandleNACK. rx. Qed.
Lemma rx_HandleMACK d : keeps rx_frame (HandleMACK d).
Proof.
  unfold HandleMACK, acked_by_mack. rx.
  assert (forall n p, keeps rx_frame (mack_loop n p d)) as Hl; [|apply Hl].
  induction n; intros p; cbn [mack_loop]; unfold acked_by_mack; rx.
Qed.
Lemma rx_maybe_queue_verify i m : keeps rx_frame (maybe_queue_verify i m).
Proof. unfold maybe_queue_verify. rx. Qed.
Lemma rx_ResetRates : keeps rx_frame ResetRates.
Proof. unfold ResetRates. rx. Qed.
End frames.
#[export] Hint Resolve rx_EncryptPacket rx_EncryptAndSend rx_Close rx_SendMessageBuffer rx_tx_at rx_collect
  rx_TriggerHashGen rx_flush_tx rx_HandleGeneratedHash rx_SendMACK rx_run_handler rx_SendOurLIM rx_HandleLIM
  rx_SendKeepAlive rx_tick_tx rx_DecryptMessageInPlace rx_Start rx_Recv_LL rx_DecryptWork rx_HandleACKS
  rx_HandleNACK rx_HandleMACK rx_maybe_queue_verify rx_ResetRates : keeps.

(** ** Delivery at most once *)
Section once.
Context {OX : Oxenc} {R : Random} {SH : ShortHasher} {CR : Crypto} {KE : Keys} {ID : Identity}.

(** With a guard [Some (id, t)]: [id] was delivered or given up at time [t], and the clock
    is inside the window. The id [fr], if any, is known not to be in the filter. *)
Record guarded (g : option (Z * Z)) (fr : option Z) (s : Session) : Prop := {
  gd_rx : rx_ok s;
  gd_filter id t : g = Some (id, t) -> m_ReplayFilter s !! id = Some t /\ w_now s < t + ReplayWindow;
  gd_free i : fr = Some i -> m_ReplayFilter s !! i = None;
}.

Definition quiet (g : option (Z * Z)) (fr : option Z) (s s' : Session) : Prop :=
  guarded g fr s -> guarded g fr s' /\
  forall id t, g = Some (id, t) -> deliveries_of id (w_out s') = deliveries_of id (w_out s).

#[global] Instance quiet_pre g fr : PreOrder (quiet g fr).
Proof.
  split; [by intros s|]. intros s1 s2 s3 H12 H23 G. destruct (H12 G) as [G2 E2].
  destruct (H23 G2) as [G3 E3]. split; [done|]. intros id t E. by rewrite (E3 id t E), (E2 id t E).
Qed.

Lemma keeps_weaken {A} (R1 R2 : Session -> Session -> Prop) (m : M A) :
  (forall s s', R1 s s' -> R2 s s') -> keeps R1 m -> keeps R2 m.
Proof. intros Hw Hk s a s' E. by eapply Hw, Hk. Qed.

Lemma frame_quiet g fr s s' : rx_frame s s' -> quiet g fr s s'.
Proof.
  intros [Hm Hf Hn Ho] [G1 G2 G3]. split; [|intros; unfold deliveries_of; by rewrite Ho].
  split; [unfold rx_ok; by rewrite Hm, Hf|rewrite Hf, Hn; done|by rewrite Hf].
Qed.

Lemma quiet_frame {A} g fr (m : M A) : keeps rx_frame m -> keeps (quiet g fr) m.
Proof. apply keeps_weaken. intros s s'. apply frame_quiet. Qed.

(** Looking an id up in the filter: when it is absent it stays known to be. *)
Lemma quiet_filter {B} g i (k : option Z -> M B) :
  (forall v, keeps (quiet g None) (k (Some v))) -> keeps (quiet g (Some i)) (k None) ->
  keeps (quiet g None) (mbind k (gets (fun s => m_ReplayFilter s !! i))).
Proof.
  intros Hs Hn s b s' E G. change (k (m_ReplayFilter s !! i) s = Ok (b, s')) in E.
  destruct (m_ReplayFilter s !! i) as [v|] eqn:Ei; [by apply (Hs v s b s' E G)|].
  destruct G as [G1 G2 G3]. destruct (Hn s b s' E) as [[] ?]; [|by split].
  split; try done. by intros ? [= <-].
Qed.

(** Looking up a message being received: its id is not in the filter. *)
Lemma quiet_message {B} g i (k : option InboundMessage.t -> M B) :
  keeps (quiet g None) (k None) ->
  (forall im, InboundMessage.m_MsgID im = i -> keeps (quiet g (Some i)) (k (Some im))) ->
  keeps (quiet g None) (mbind k (gets (fun s => m_RXMsgs s !! i))).
Proof.
  intros Hn Hs s b s' E G. change (k (m_RXMsgs s !! i) s = Ok (b, s')) in E.
  destruct (m_RXMsgs s !! i) as [im|] eqn:Ei; [|by apply (Hn s b s' E G)].
  destruct G as [G1 G2 G3]. destruct (G1 _ _ Ei) as [Hid Hf].
  destruct (Hs im Hid s b s' E) as [[] ?]; [|by split].
  split; try done. by intros ? [= <-].
Qed.

(** Storing a message under an id that is not in the filter. *)
Lemma quiet_store g i im :
  InboundMessage.m_MsgID im = i ->
  keeps (quiet g (Some i)) (modify (fun s => s <| m_RXMsgs ::= <[i := im]> |>)).
Proof.
  intros Hid. apply keeps_modify. intros s [G1 G2 G3]. split; [|done]. split; try done.
  intros j jm. cbn. rewrite lookup_insert. case_decide as E; [|apply G1]. intros [= <-]. subst.
  split; [done|]. by apply G3.
Qed.

Lemma HandleData_id i b n im im' :
  InboundMessage.HandleData i b n im = Ok im' -> InboundMessage.m_MsgID im' = InboundMessage.m_MsgID im.
Proof.
  unfold InboundMessage.HandleData. case_match; [by intros [= <-]|].
  intros (d & _ & (a & _ & [= <-])%rbind_inv)%rbind_inv. done.
Qed.

(** The value of a pure computation. *)
Lemma keeps_lift_bind {A B} Rl (r : res A) (k : A -> M B) :
  (forall a, r = Ok a -> keeps Rl (k a)) -> keeps Rl (mbind k (lift r)).
Proof.
  intros Hk s b s' E. unfold mbind, M_bind, lift in E. destruct r as [a| | |]; cbn in E; [|done..].
  by apply (Hk a eq_refl s b s').
Qed.

#[local] Hint Resolve quiet_frame quiet_store : keeps.

Lemma quiet_HandleXMIT g d : keeps (quiet g None) (HandleXMIT d).
Proof.
  unfold HandleXMIT. case_match; [by keeps_step|].
  do 2 (apply keeps_bind; [apply _|by keeps_step|intros ?]).
  apply quiet_filter; [intros; apply quiet_frame; rx|].
  do 2 (apply keeps_bind; [apply _|by keeps_step|intros ?]). case_match; [by keeps_step|].
  apply keeps_bind; [apply _|by keeps_step|intros ?].
  apply keeps_bind; [apply _|by apply quiet_store|intros _].
  apply keeps_bind; [apply _|apply quiet_frame; rx|intros _].
  apply keeps_when; [apply _|].
  apply keeps_bind; [apply _|by keeps_step|intros ?].
  apply keeps_lift_bind. intros im Him%HandleData_id.
  apply keeps_bind; [apply _|by apply quiet_store|intros _]. apply quiet_frame. eauto with keeps.
Qed.

Lemma quiet_HandleDATA g d : keeps (quiet g None) (HandleDATA d).
Proof.
  unfold HandleDATA. case_match; [by keeps_step|].
  do 2 (apply keeps_bind; [apply _|by keeps_step|intros ?]).
  apply quiet_message; [apply quiet_frame; rx|]. intros im Hid.
  do 2 (apply keeps_bind; [apply _|by keeps_step|intros ?]).
  apply keeps_lift_bind. intros im' Him%HandleData_id.
  apply keeps_bind; [apply _|apply quiet_store; by rewrite Him|intros _].
  apply quiet_frame. eauto with keeps.
Qed.
#[local] Hint Resolve quiet_HandleXMIT quiet_HandleDATA : keeps.

Lemma quiet_HandlePacket g d : keeps (quiet g None) (HandlePacket d).
Proof.
  unfold HandlePacket, HandleCLOS, HandlePING. apply keeps_bind; [apply _|by keeps_step|intros c].
  repeat case_match; repeat first [by apply quiet_frame; rx | by eauto with keeps | keeps_step].
Qed.

(** Deleting a message, or completing one. *)
Lemma quiet_delete g fr i :
  keeps (quiet g fr) (modify (fun s => s <| m_RXMsgs ::= delete i |>)).
Proof.
  apply keeps_modify. intros s [G1 G2 G3]. split; [|done]. split; try done.
  intros j jm. cbn. rewrite lookup_delete_Some. intros [_ Hj]. by apply G1.
Qed.

Lemma quiet_HandleRecvMsgCompleted g im :
  keeps (fun s s' => m_RXMsgs s !! InboundMessage.m_MsgID im = Some im -> quiet g None s s')
    (HandleRecvMsgCompleted im).
Proof.
  intros s [] s' E Him [G1 G2 G3]. unfold HandleRecvMsgCompleted in E. set (i := InboundMessage.m_MsgID im) in *.
  destruct (G1 _ _ Him) as [_ Hf].
  unfold mbind, M_bind, gets, modify, emit in E. cbn [rbind] in E. rewrite Hf in E.
  cbn [rbind modify] in E. injection E as <-.
  assert (forall id t, g = Some (id, t) -> i <> id) as Hne by (intros id t [? ?]%G2; congruence).
  split.
  - split; cbn.
    + intros j jm. cbn. rewrite lookup_delete_Some. intros [Hj Hjm]. rewrite lookup_insert_ne by done. by apply G1.
    + intros id t E. rewrite lookup_insert_ne by eauto. by apply G2.
    + done.
  - intros id t E. unfold deliveries_of, deliveries. cbn. rewrite omap_app, filter_app. cbn.
    rewrite decide_False by eauto. by rewrite app_nil_r.
Qed.

Lemma quiet_VerifiedMessage g i : keeps (quiet g None) (VerifiedMessage i).
Proof.
  unfold VerifiedMessage. intros s a s' E G.
  apply rbind_inv in E as ([m s1] & [= <- <-] & E). apply rbind_inv in E as ([[] s1] & E1 & E2).
  injection E2 as _ <-.
  assert (quiet g None s s1) as Hq.
  { destruct (m_RXMsgs s !! i) as [im|] eqn:Ei; [|by injection E1 as <-].
    destruct (gd_rx _ _ _ G _ _ Ei) as [Hid _]. eapply quiet_HandleRecvMsgCompleted; [exact E1|].
    by rewrite Hid. }
  destruct (Hq G) as [G' Ho]. split; [|done]. by destruct G'.
Qed.

Lemma quiet_send_acks g i : keeps (quiet g None) (send_acks i).
Proof.
  unfold send_acks. apply keeps_bind; [apply _|by keeps_step|intros now].
  apply quiet_message; [by keeps_step|]. intros im Hid. apply keeps_when; [apply _|].
  apply keeps_bind; [apply _|apply quiet_frame; rx|intros k].
  apply keeps_lift_bind. intros [pkt im'] Hr. cbn [fst snd].
  apply keeps_bind; [apply _|apply quiet_frame; rx|intros _]. apply quiet_store.
  unfold InboundMessage.SendACKS in Hr. by apply rbind_inv in Hr as (p & _ & [= _ <-]).
Qed.
#[local] Hint Resolve quiet_HandlePacket quiet_VerifiedMessage quiet_send_acks quiet_delete : keeps.

Lemma quiet_Pump g : keeps (quiet g None) Pump.
Proof. unfold Pump. repeat first [by apply quiet_frame; rx | by eauto with keeps | keeps_step]. Qed.
#[local] Hint Resolve quiet_Pump : keeps.

Lemma emplace_lookup k v f i t : f !! i = Some t -> emplace_if_absent k v f !! i = Some t.
Proof.
  intros Hf. unfold emplace_if_absent. destruct (f !! k) eqn:E; [done|].
  rewrite lookup_insert_ne; [done|congruence].
Qed.

Lemma emplace_None k v f i : k <> i -> f !! i = None -> emplace_if_absent k v f !! i = None.
Proof.
  intros Hne Hf. unfold emplace_if_absent. destruct (f !! k); [done|]. by rewrite lookup_insert_ne.
Qed.

Lemma quiet_tick_rx g now : keeps (quiet g None) (modify (tick_rx now)).
Proof.
  apply keeps_modify. intros s [G1 G2 G3]. split; [|done].
  set (expired := filter (fun p => InboundMessage.IsTimedOut now p.2 = true) (map_to_list (m_RXMsgs s))).
  assert (m_ReplayFilter (tick_rx now s)
          = foldr (fun p => emplace_if_absent p.1 now) (m_ReplayFilter s) expired) as Hfil by done.
  split; [| |done].
  - intros i im. change (m_RXMsgs (tick_rx now s)) with
      (filter (fun p => InboundMessage.IsTimedOut now p.2 = false) (m_RXMsgs s)).
    rewrite map_lookup_filter_Some, Hfil. cbn. intros [Hi Ht]. destruct (G1 _ _ Hi) as [Hid Hf]. split; [done|].
    assert (Forall (fun p => p.1 <> i) expired) as He.
    { apply Forall_forall. intros [j jm] [Hto Hj%elem_of_map_to_list]%list_elem_of_filter. cbn in *.
      intros ->. rewrite Hi in Hj. injection Hj as <-. congruence. }
    clear Hfil. clearbody expired. induction He; [done|]. cbn. by apply emplace_None.
  - intros id t E. destruct (G2 id t E) as [Hf Hn]. split; [|done]. rewrite Hfil.
    clear Hfil. clearbody expired. induction expired; [done|]. cbn. by apply emplace_lookup.
Qed.

Lemma quiet_tick_replay g now :
  (forall id t, g = Some (id, t) -> now < t + ReplayWindow) -> keeps (quiet g None) (modify (tick_replay now)).
Proof.
  intros Hnow. apply keeps_modify. intros s [G1 G2 G3]. split; [|done].
  assert (m_ReplayFilter (tick_replay now s)
          = filter (fun p : Z * Z => ¬ (p.2 + ReplayWindow <= now)) (m_ReplayFilter s)) as Hfil by done.
  split; [| |done].
  - intros i im Hi. destruct (G1 _ _ Hi) as [Hid Hf]. split; [done|]. rewrite Hfil.
    apply map_lookup_filter_None. by left.
  - intros id t E. destruct (G2 id t E) as [Hf Hn]. split; [|done]. rewrite Hfil.
    rewrite map_lookup_filter_Some. split; [done|]. cbn. specialize (Hnow id t E). lia.
Qed.

Lemma quiet_Tick g now :
  (forall id t, g = Some (id, t) -> now < t + ReplayWindow) -> keeps (quiet g None) (Tick now).
Proof.
  intros Hnow. unfold Tick.
  repeat first [by apply quiet_tick_rx | by apply quiet_tick_replay | by apply quiet_frame; rx | keeps_step].
Qed.

Lemma quiet_HandlePlaintext g : keeps (quiet g None) HandlePlaintext.
Proof.
  unfold HandlePlaintext. repeat first [by apply quiet_frame; rx | by eauto with keeps | keeps_step].
Qed.

Lemma quiet_DropMessage g i : keeps (quiet g None) (DropMessage i).
Proof.
  apply keeps_modify. intros s G. destruct (quiet_delete g None i s tt _ eq_refl G) as [G' Ho].
  split; [|done]. by destruct G'.
Qed.
#[local] Hint Resolve quiet_DropMessage : keeps.
Lemma quiet_RecvHashed g l : keeps (quiet g None) (RecvHashed l).
Proof. unfold RecvHashed. repeat first [by apply quiet_frame; rx | by eauto with keeps | keeps_step]. Qed.
#[local] Hint Resolve quiet_RecvHashed : keeps.

Lemma quiet_HandleWorkerCompletion g rs l : keeps (quiet g None) (HandleWorkerCompletion rs l).
Proof.
  unfold HandleWorkerCompletion. repeat first [by apply quiet_frame; rx | by eauto with keeps | keeps_step].
Qed.
#[local] Hint Resolve quiet_HandleWorkerCompletion : keeps.

(** Every call keeps a guard whose window is still open. *)
Definition in_window (g : option (Z * Z)) (c : call) : Prop :=
  match c with
  | CallClock now _ => forall id t, g = Some (id, t) -> now < t + ReplayWindow
  | _ => True
  end.

Lemma quiet_run_call g c : in_window g c -> keeps (quiet g None) (run_call c).
Proof.
  intros Hc. destruct c; cbn [run_call]; unfold RenegotiateSession;
    try (by repeat first [by apply quiet_frame; rx | by apply quiet_HandlePlaintext
                         | by eauto with keeps | keeps_step]).
  - intros s a s' E G. change (Tick (w_now s) s = Ok (a, s')) in E.
    eapply quiet_Tick; [|exact E|exact G]. intros id t Hg. by apply (gd_filter _ _ _ G id t).
  - apply keeps_modify. intros s [G1 G2 G3]. split; [|done]. split; [done| |done].
    intros id t Hg. cbn. split; [by apply (G2 id t)|by apply (Hc id t)].
Qed.

Lemma quiet_run_calls g cs : Forall (in_window g) cs -> keeps (quiet g None) (run_calls cs).
Proof.
  unfold run_calls. induction 1; cbn [forM]; [by keeps_step|].
  apply keeps_bind; [apply _|by apply quiet_run_call|by intros].
Qed.
End once.

(** ** What a delivery means *)
Section delivery.
Context {OX : Oxenc} {R : Random} {SH : ShortHasher} {CR : Crypto} {KE : Keys} {ID : Identity}.

Definition same_deliveries (s s' : Session) : Prop := deliveries (w_out s') = deliveries (w_out s).
#[global] Instance same_deliveries_pre : PreOrder same_deliveries.
Proof. split; [by intros s|]. unfold same_deliveries. intros s1 s2 s3 ? ?. congruence. Qed.

Lemma same_frame {A} (m : M A) : keeps rx_frame m -> keeps same_deliveries m.
Proof. apply keeps_weaken. by intros s s' []. Qed.

Ltac same :=
  repeat first [by apply same_frame; rx | keeps_step | by unfold same_deliveries].

Lemma same_HandlePacket d : keeps same_deliveries (HandlePacket d).
Proof. unfold HandlePacket, HandleXMIT, HandleDATA, HandleCLOS, HandlePING. same. Qed.
#[local] Hint Resolve same_HandlePacket : keeps.
Lemma same_Pump : keeps same_deliveries Pump.
Proof. unfold Pump, send_acks. same. Qed.
#[local] Hint Resolve same_Pump : keeps.

Lemma same_RecvHashed l : keeps same_deliveries (RecvHashed l).
Proof. unfold RecvHashed. same. Qed.
#[local] Hint Resolve same_RecvHashed : keeps.
Lemma same_DropMessage i : keeps same_deliveries (DropMessage i).
Proof. unfold DropMessage. same. Qed.

Lemma same_run_call c : (forall rs l, c <> CallCompletion rs l) -> keeps same_deliveries (run_call c).
Proof.
  intros Hc. destruct c; cbn [run_call]; unfold RenegotiateSession, HandlePlaintext, Tick;
    try (by same). by destruct (Hc requests hashed).
Qed.

(** What is received, up to the times of the last acknowledgements. *)
Definition same_data (s s' : Session) : Prop :=
  w_now s' = w_now s /\
  forall i, InboundMessage.m_Data <$> m_RXMsgs s' !! i = InboundMessage.m_Data <$> m_RXMsgs s !! i.
#[global] Instance same_data_pre : PreOrder same_data.
Proof. split; [by intros s|]. intros s1 s2 s3 [N1 D1] [N2 D2]. split; [congruence|]. intros i. by rewrite D2. Qed.
Lemma same_data_frame {A} (m : M A) : keeps rx_frame m -> keeps same_data m.
Proof. apply keeps_weaken. intros s s' [E _ ? _]. split; [done|]. by rewrite E. Qed.

Lemma same_data_send_acks i : keeps same_data (send_acks i).
Proof.
  unfold send_acks. intros s a s' E. apply rbind_inv in E as ([now s1] & [= <- <-] & E).
  apply rbind_inv in E as ([m s1] & [= <- <-] & E). destruct (m_RXMsgs s !! i) as [im|] eqn:Him; [|by injection E as _ <-].
  destruct (InboundMessage.ShouldSendACKS _ _); [|by injection E as _ <-]. cbn [when] in E.
  apply rbind_inv in E as ([k s1] & E1 & E). apply rbind_inv in E as ([[p im'] s1'] & E2 & E). cbn [fst snd] in E.
  unfold lift in E2. apply rbind_inv in E2 as ([p' im''] & Hs & [= -> -> ->]).
  apply rbind_inv in E as ([[] s2] & E3 & [= _ <-]).
  assert (InboundMessage.m_Data im' = InboundMessage.m_Data im) as Hd.
  { unfold InboundMessage.SendACKS in Hs. by apply rbind_inv in Hs as (q & _ & [= _ <-]). }
  assert (rx_frame s s2) as [F1 _ F2 _].
  { etrans; [eapply (ltac:(rx) : keeps rx_frame draw); exact E1|]. eapply rx_EncryptAndSend. exact E3. }
  split; [done|]. intros j. cbn. rewrite F1. destruct (decide (i = j)) as [<-|]; [|by rewrite lookup_insert_ne].
  rewrite lookup_insert_eq, Him. cbn. by rewrite Hd.
Qed.

Lemma same_data_RecvHashed l : keeps same_data (RecvHashed l).
Proof.
  unfold RecvHashed, Pump.
  repeat first [by apply same_data_frame; rx | by apply same_data_send_acks | keeps_step].
Qed.

(** The step in which a verified message is completed. *)
Lemma VerifiedMessage_cases i s s' :
  rx_ok s -> VerifiedMessage i s = Ok (tt, s') ->
  w_now s' = w_now s /\ m_RXMsgs s' = delete i (m_RXMsgs s) /\
  match m_RXMsgs s !! i with
  | None => deliveries (w_out s') = deliveries (w_out s)
  | Some im => m_ReplayFilter s' = <[i := w_now s]> (m_ReplayFilter s) /\
      deliveries (w_out s') = deliveries (w_out s) ++ [(i, InboundMessage.m_Data im)]
  end.
Proof.
  intros Hrx E. unfold VerifiedMessage in E. apply rbind_inv in E as ([m s1] & [= <- <-] & E).
  apply rbind_inv in E as ([[] s1] & E1 & E2). injection E2 as <-.
  destruct (m_RXMsgs s !! i) as [im|] eqn:Ei.
  2:{ injection E1 as <-. by rewrite delete_id. }
  destruct (Hrx _ _ Ei) as [Hid Hf].
  unfold HandleRecvMsgCompleted in E1. rewrite Hid in E1.
  unfold mbind, M_bind, gets, modify, emit in E1. cbn [rbind] in E1. rewrite Hf in E1.
  cbn [rbind modify] in E1. injection E1 as <-. cbn. do 3 (split; [done|]).
  unfold deliveries. rewrite omap_app. done.
Qed.

Lemma filter_one (id i : Z) (d : list Z) :
  filter (fun p : Z * list Z => p.1 = id) [(i, d)] = if decide (i = id) then [(i, d)] else [].
Proof. cbn. by destruct (decide (i = id)). Qed.

(** A batch of completions delivers an id at most once, and if it does, the id is of the batch. *)
Lemma VerifiedMessages_deliver ids id s s' :
  rx_ok s -> forM ids VerifiedMessage s = Ok (tt, s') ->
  deliveries_of id (w_out s') = deliveries_of id (w_out s) \/
  id ∈ ids /\ guarded (Some (id, w_now s)) None s' /\
  exists stored, m_RXMsgs s !! id = Some stored /\
    deliveries_of id (w_out s') = deliveries_of id (w_out s) ++ [(id, InboundMessage.m_Data stored)].
Proof.
  revert s. induction ids as [|i ids IH]; intros s Hrx E; cbn [forM] in E.
  { injection E as <-. by left. }
  apply rbind_inv in E as ([[] s1] & E1 & E2). pose proof (VerifiedMessage_cases _ _ _ Hrx E1) as (Hn & Hm & Hc).
  assert (guarded None None s1) as [Hrx1 _ _] by (apply (quiet_VerifiedMessage None) in E1; by apply E1).
  destruct (decide (i = id)) as [->|Hne].
  - destruct (m_RXMsgs s !! id) as [im|] eqn:Him.
    + destruct Hc as [Hf Ho]. right. split; [by left|].
      assert (guarded (Some (id, w_now s)) None s1) as G1.
      { split; [done| |done]. intros ? ? [= <- <-]. rewrite Hf, Hn, lookup_insert_eq.
        split; [done|]. change ReplayWindow with 1200. lia. }
      assert (keeps (quiet (Some (id, w_now s)) None) (forM ids VerifiedMessage)) as Hk.
      { apply keeps_forM; [apply _|]. intros. apply quiet_VerifiedMessage. }
      destruct (Hk _ _ _ E2 G1) as [G2 Hq]. split; [done|]. exists im. split; [done|].
      rewrite (Hq _ _ eq_refl). unfold deliveries_of. by rewrite Ho, filter_app, filter_one, decide_True.
    + destruct (IH s1 Hrx1 E2) as [Ho|(_ & _ & st & Hst & _)].
      * left. rewrite Ho. unfold deliveries_of. by rewrite Hc.
      * by rewrite Hm, lookup_delete_eq in Hst.
  - assert (deliveries_of id (w_out s1) = deliveries_of id (w_out s)) as Hd.
    { unfold deliveries_of. destruct (m_RXMsgs s !! i); [|by rewrite Hc].
      destruct Hc as [_ ->]. by rewrite filter_app, filter_one, decide_False, app_nil_r. }
    destruct (IH s1 Hrx1 E2) as [Ho|(Hin & G & st & Hst & Ho)]; [left; by rewrite Ho|].
    right. rewrite Hn in G. split; [by right|]. split; [done|]. exists st. rewrite Hm, lookup_delete_ne in Hst by done.
    by rewrite Ho, Hd.
Qed.

Lemma CallCompletion_delivers rs l s s' id :
  rx_ok s -> run_call (CallCompletion rs l) s = Ok (tt, s') ->
  deliveries_of id (w_out s') <> deliveries_of id (w_out s) ->
  (exists im, im ∈ rs /\ InboundMessage.m_MsgID im = id /\ InboundMessage.Verify im = true) /\
  guarded (Some (id, w_now s)) None s' /\
  exists stored, m_RXMsgs s !! id = Some stored /\
    deliveries_of id (w_out s') = deliveries_of id (w_out s) ++ [(id, InboundMessage.m_Data stored)].
Proof.
  intros Hrx E Hd. cbn [run_call] in E. unfold HandleWorkerCompletion in E.
  apply rbind_inv in E as ([[] s1] & E1 & E). apply rbind_inv in E as ([[] s2] & E2 & E).
  assert (keeps same_deliveries (when (negb (length l =? 0)%nat) (RecvHashed l))) as K1 by same.
  assert (keeps same_data (when (negb (length l =? 0)%nat) (RecvHashed l))) as K2
    by (apply keeps_when; [apply _|apply same_data_RecvHashed]).
  assert (keeps (quiet None None) (when (negb (length l =? 0)%nat) (RecvHashed l))) as K3
    by (apply keeps_when; [apply _|apply quiet_RecvHashed]).
  assert (rx_ok s1) as Hrx1 by (by destruct (K3 _ _ _ E1 ltac:(by split)) as [[] _]).
  pose proof (K1 _ _ _ E1) as Hs1. destruct (K2 _ _ _ E1) as [Hn Hdat].
  set (ids := vr_msgid <$> _) in E2. set (rest := (_;; _) : M unit) in E.
  assert (keeps same_deliveries rest) as K4.
  { unfold rest. repeat first [by apply same_DropMessage | by eauto with keeps | by apply same_frame; rx | keeps_step]. }
  assert (keeps (quiet (Some (id, w_now s)) None) rest) as K5.
  { unfold rest. repeat first [by apply quiet_DropMessage | by apply quiet_Pump | by apply quiet_frame; rx | keeps_step]. }
  pose proof (K4 _ _ _ E) as Hs4. unfold same_deliveries, deliveries_of in *. rewrite Hs4, <- Hs1 in *.
  destruct (VerifiedMessages_deliver ids id s1 s2 Hrx1 E2) as [Heq|(Hin & G & st & Hst & Ho)]; [done|].
  rewrite Hn in G. split; [|split].
  - unfold ids in Hin. apply list_elem_of_fmap in Hin as (r & -> & [Hr Hin]%list_elem_of_filter).
    apply list_elem_of_In, in_map_iff in Hin as (im & <- & Hin). exists im. by rewrite list_elem_of_In.
  - by apply (K5 _ _ _ E G).
  - specialize (Hdat id). rewrite Hst in Hdat. destruct (m_RXMsgs s !! id) as [st0|]; [|done].
    injection Hdat as Hdat. exists st0. rewrite <- Hdat. done.
Qed.

Lemma newSession_rx_ok inbound ai rc tok key h now : rx_ok (newSession inbound ai rc tok key h now).
Proof. intros i im Hi. cbn in Hi. by rewrite lookup_empty in Hi. Qed.

Lemma rx_ok_run cs s s' : rx_ok s -> run_calls cs s = Ok (tt, s') -> rx_ok s'.
Proof.
  intros Hrx E. apply (quiet_run_calls None) in E.
  - by destruct E as [[] _].
  - apply Forall_forall. intros c _. by destruct c.
Qed.
End delivery.

(** C2. Whatever calls a session gets, a message is delivered to the router only by the
    completion of a hash check that succeeded for its id, the delivery hands over the data
    stored under that id, once, and until the event loop's clock is a replay window past
    the delivery no further call delivers that id again. *)
Theorem delivery_at_most_once {OX : Oxenc} {R : Random} {SH : ShortHasher} {CR : Crypto} {KE : Keys} {ID : Identity}
    inbound ai rc tok key h now cs1 c cs2 (s1 s2 s3 : Session) id :
  run_calls cs1 (newSession inbound ai rc tok key h now) = Ok (tt, s1) ->
  run_call c s1 = Ok (tt, s2) ->
  deliveries_of id (w_out s2) <> deliveries_of id (w_out s1) ->
  run_calls cs2 s2 = Ok (tt, s3) ->
  Forall (in_window (Some (id, w_now s1))) cs2 ->
  (exists requests hashed im stored, c = CallCompletion requests hashed /\ im ∈ requests /\
     InboundMessage.m_MsgID im = id /\ InboundMessage.Verify im = true /\ m_RXMsgs s1 !! id = Some stored /\
     deliveries_of id (w_out s2) = deliveries_of id (w_out s1) ++ [(id, InboundMessage.m_Data stored)]) /\
  deliveries_of id (w_out s3) = deliveries_of id (w_out s2).
Proof.
  intros E1 E2 Hd E3 Hw. pose proof (rx_ok_run _ _ _ (newSession_rx_ok _ _ _ _ _ _ _) E1) as Hrx.
  assert (exists rs l, c = CallCompletion rs l) as (rs & l & ->).
  { destruct c; try by eexists _, _. all: exfalso; apply Hd; unfold deliveries_of; f_equal;
      apply same_run_call in E2; done. }
  destruct (CallCompletion_delivers rs l s1 s2 id Hrx E2 Hd) as ((im & Him & Hid & Hv) & G & st & Hst & Ho).
  split; [by exists rs, l, im, st|]. apply (quiet_run_calls _ _ Hw) in E3.
  destruct (E3 G) as [_ Hq]. by eapply Hq.
Qed.

(** A two-byte message with id 5 is received, verified, delivered, and then announced and
    verified again 100 ms later. *)
Definition xmit_example : list Z :=
  replicate 64 0 ++ [0; 1] ++ be_encode 2 2 ++ be_encode 8 5 ++ be_encode 32 31 ++ [10; 20].
Definition im_example : InboundMessage.t :=
  InboundMessage.Mk [10; 20] (be_encode 32 31) 5 0 1000 1.

Lemma delivery_at_most_once_witness :
  let cr := crypto_ref in let ke := keys_ref in let idn := identity_ref in let ox := oxenc_ref in
  let s0 := newSession true [] None [] [] GotInboundLIM' 1000 in
  let cs1 := [CallDecrypt 0 xmit_example; CallPlaintext] in
  let cs2 := [CallClock 1100 1100; CallTick; CallDecrypt 1 xmit_example; CallPlaintext; CallCompletion [im_example] []] in
  exists s1 s2 s3, run_calls cs1 s0 = Ok (tt, s1) /\ run_call (CallCompletion [im_example] []) s1 = Ok (tt, s2) /\
    run_calls cs2 s2 = Ok (tt, s3) /\ deliveries_of 5 (w_out s2) = [(5, [10; 20])] /\
    deliveries_of 5 (w_out s3) = deliveries_of 5 (w_out s2).
Proof.
  intros cr ke idn ox s0 cs1 cs2.
  destruct (run_calls cs1 s0) as [[[] s1]| | |] eqn:E1; [|by vm_compute in E1..].
  destruct (run_call (CallCompletion [im_example] []) s1) as [[[] s2]| | |] eqn:E2;
    [|vm_compute in E1; injection E1 as <-; by vm_compute in E2..].
  assert (deliveries_of 5 (w_out s1) = [] /\ deliveries_of 5 (w_out s2) = [(5, [10; 20])] /\ w_now s1 = 1000)
    as (D1 & D2 & N1).
  { vm_compute in E1. injection E1 as <-. vm_compute in E2. injection E2 as <-. vm_compute. done. }
  destruct (run_calls cs2 s2) as [[[] s3]| | |] eqn:E3;
    [|vm_compute in E1; injection E1 as <-; vm_compute in E2; injection E2 as <-; by vm_compute in E3..].
  exists s1, s2, s3. split; [reflexivity|]. split; [exact E2|]. split; [exact E3|]. split; [exact D2|].
  eapply (delivery_at_most_once true [] None [] [] GotInboundLIM' 1000 cs1 (CallCompletion [im_example] []) cs2 s1 s2 s3 5).
  - exact E1.
  - exact E2.
  - rewrite D1, D2. discriminate.
  - exact E3.
  - rewrite N1. repeat constructor. intros ? ? [= <- <-]. reflexivity.
Defined.
