(* ===== verification/IwpTransfer.v ===== *)
(** * Transfer of a message over an IWP session, end to end

    The packets are those the sender's [XMIT] and [FlushUnAcked] produce
    ([xmit_bytes], [data_bytes]) and the receiver's [ACKS] and [SendMACK] answer with.
    They may be lost, repeated and reordered; the theorems say what the receiver has once
    every fragment has come in at least once, and what the sender retransmits or
    completes on an answer. *)

From stdpp Require Import sorting.
From S2P Require Import Prelude QueueManager Queue CryptoApi IwpMessage IwpSession IwpInvariants.

Section transfer.
Context {OX : Oxenc} {OS : OxencSpec OX} {R : Random} {RS : RandomSpec R} {SH : ShortHasher}
  {CR : Crypto} {KE : Keys} {ID : Identity}.
Implicit Types s : Session.

(** Run a handler whose next step is known. *)
Lemma run_bind {A B} (m : M A) (f : A -> M B) s a s1 :
  m s = Ok (a, s1) -> (mbind f m) s = f a s1.
Proof. intros E. unfold mbind, M_bind. by rewrite E. Qed.
Lemma run_lift {A} (r : res A) a s : r = Ok a -> lift r s = Ok (a, s).
Proof. by intros ->. Qed.

Lemma header_cmd k cmd rest : byte_at (PacketOverhead + 1) (packet_header k cmd ++ rest) = Ok (command_byte cmd).
Proof.
  unfold packet_header. rewrite !app_assoc. change [proto_version; command_byte cmd] with ([proto_version] ++ [command_byte cmd]).
  rewrite app_assoc, <- (app_assoc _ [command_byte cmd]). apply byte_at_app.
  by rewrite !length_app, length_replicate, length_randbytes.
Qed.

(** Receiver's record of message [m] with the fragments [acks] in. *)
Definition receiving (m : OutboundMessage.t) (acks : Z) s : Prop :=
  exists im, m_RXMsgs s !! OutboundMessage.m_MsgID m = Some im /\
    in_progress (OutboundMessage.m_Data m) im /\
    InboundMessage.m_MsgID im = OutboundMessage.m_MsgID m /\
    InboundMessage.m_Digset im = OutboundMessage.m_Digest m /\
    InboundMessage.m_Acks im = acks /\
    (all_acked acks (OutboundMessage.m_Data m) = true -> VerifyJob im ∈ w_out s).

Lemma maybe_queue_verify_run id im s :
  (length (InboundMessage.m_Data im) <= MAX_LINK_MSG_SIZE)%nat ->
  exists s', maybe_queue_verify id im s = Ok (tt, s') /\ m_RXMsgs s' = m_RXMsgs s /\
    (all_acked (InboundMessage.m_Acks im) (InboundMessage.m_Data im) = true -> VerifyJob im ∈ w_out s').
Proof.
  intros Hl. unfold maybe_queue_verify.
  rewrite (run_bind _ _ s _ s (run_lift _ _ s (IsCompleted_spec im Hl))).
  destruct (all_acked _ _); [|by exists s]. eexists. split; [done|]. split; [done|]. intros _.
  cbn. apply elem_of_app. right. by constructor.
Qed.

Lemma length_data_bytes k id data j :
  id_ok id -> Z.of_nat (1024 * j) < 65536 ->
  length (data_bytes k id data j) = (76 + length (fragment data (1024 * j)))%nat.
Proof.
  intros Hid Hj. unfold data_bytes. rewrite !length_app, length_header, !length_write_big; [lia|exact Hid|].
  change (256 ^ Z.of_nat 2) with 65536. lia.
Qed.

(** A DATA packet for a message being received stores the fragment it carries. *)
Lemma HandleDATA_run k id data j im im' s :
  id_ok id -> (j < 8)%nat -> m_RXMsgs s !! id = Some im ->
  InboundMessage.HandleData (Z.of_nat (1024 * j)) (fragment data (1024 * j)) (w_now s) im = Ok im' ->
  (length (InboundMessage.m_Data im') <= MAX_LINK_MSG_SIZE)%nat ->
  exists s', HandleDATA (data_bytes k id data j) s = Ok (tt, s') /\ m_RXMsgs s' = <[id := im']> (m_RXMsgs s) /\
    (all_acked (InboundMessage.m_Acks im') (InboundMessage.m_Data im') = true -> VerifyJob im' ∈ w_out s').
Proof.
  intros Hi Hj Him E Hs.
  assert (0 <= Z.of_nat (1024 * j) < 256 ^ Z.of_nat 2) as Hj16 by (change (256 ^ Z.of_nat 2) with 65536; lia).
  pose proof (length_data_bytes k id data j Hi ltac:(lia)) as Hlen.
  set (p := data_bytes k id data j) in *.
  assert (load_big (CommandOverhead + PacketOverhead) 2 p = Ok (Z.of_nat (1024 * j))) as L1.
  { apply load_big_app; [by rewrite length_header|done]. }
  assert (load_big (CommandOverhead + 2 + PacketOverhead) 8 p = Ok id) as L2.
  { unfold p, data_bytes. rewrite app_assoc. apply load_big_app; [|exact Hi].
    by rewrite length_app, length_header, length_write_big. }
  assert (peek (PacketOverhead + 12) (length p - (PacketOverhead + 12)) p = Ok (fragment data (1024 * j))) as L3.
  { unfold p, data_bytes. rewrite !app_assoc. rewrite <- (app_nil_r (_ ++ fragment _ _)), <- app_assoc.
    apply peek_app; [by rewrite !length_app, length_header, !length_write_big by done|].
    rewrite !length_app, length_header, !length_write_big by done. cbn [length]. unfold PacketOverhead, HMACSIZE, TUNNONCESIZE. lia. }
  unfold HandleDATA. rewrite (proj2 (Nat.ltb_ge _ _)) by (rewrite Hlen; unfold CommandOverhead, PacketOverhead, HMACSIZE, TUNNONCESIZE; lia).
  rewrite (run_bind _ _ s _ s (run_lift _ _ s L1)), (run_bind _ _ s _ s (run_lift _ _ s L2)).
  rewrite (run_bind (gets _) _ s (Some im) s) by (unfold gets; by rewrite Him).
  rewrite (run_bind (gets _) _ s (w_now s) s) by done. rewrite (run_bind _ _ s _ s (run_lift _ _ s L3)).
  rewrite (run_bind _ _ s _ s (run_lift _ _ s E)).
  rewrite (run_bind (modify _) _ s tt (s <| m_RXMsgs ::= <[id := im']> |>)) by done.
  destruct (maybe_queue_verify_run id im' (s <| m_RXMsgs ::= <[id := im']> |>)) as (s' & -> & Hrx & Hjob); [done|].
  by exists s'.
Qed.

Lemma HandleDATA_fragment k m j acks s :
  out_wf m -> (j < nfrags (OutboundMessage.m_Data m))%nat -> receiving m acks s ->
  exists s', HandleDATA (data_bytes k (OutboundMessage.m_MsgID m) (OutboundMessage.m_Data m) j) s = Ok (tt, s') /\
    receiving m (Z.setbit acks (Z.of_nat j)) s'.
Proof.
  intros W Hj (im & Him & Hp & Hid & Hdig & Ha & Hv). pose proof (nfrags_max _ (ow_size _ W)) as Hmax.
  destruct (HandleData_fragment _ j (w_now s) im (ow_size _ W) Hj Hp) as (im' & E & Hp' & Ha' & Hd' & Hid').
  destruct (HandleDATA_run k _ _ j im im' s (ow_id _ W) ltac:(lia) Him E) as (s' & E' & Hrx & Hjob).
  { rewrite (ip_len _ _ Hp'). apply W. }
  exists s'. split; [done|]. exists im'. rewrite Hrx, lookup_insert_eq. split_and!; try done; try congruence.
  intros Hall. apply Hjob. rewrite Ha', Ha. unfold all_acked, nfrags in *. by rewrite (ip_len _ _ Hp').
Qed.

Lemma xmit_parts k m :
  out_wf m ->
  let p := xmit_bytes k m in let data := OutboundMessage.m_Data m in
  length p = (108 + Nat.min 1024 (length data))%nat /\
  load_big (CommandOverhead + PacketOverhead) 2 p = Ok (Z.of_nat (length data)) /\
  load_big (CommandOverhead + PacketOverhead + 2) 8 p = Ok (OutboundMessage.m_MsgID m) /\
  peek (CommandOverhead + PacketOverhead + 10) SHORTHASHSIZE p = Ok (OutboundMessage.m_Digest m) /\
  peek 108 (Nat.min 1024 (length data)) p = Ok (fragment data 0).
Proof.
  intros [Hi Hd Hs] p data. assert (length data <= 8 * 1024)%nat as Hs' by exact Hs.
  assert (0 <= Z.of_nat (length data) < 256 ^ Z.of_nat 2) as H16 by (change (256 ^ Z.of_nat 2) with 65536; lia).
  pose proof (length_fragment data 0) as Hf. rewrite Nat.sub_0_r in Hf.
  unfold p, xmit_bytes. fold data. split_and!.
  - rewrite !length_app, length_header, !length_write_big, Hd, Hf by done. unfold SHORTHASHSIZE. lia.
  - apply load_big_app; [by rewrite length_header|done].
  - rewrite app_assoc. apply load_big_app; [|exact Hi]. by rewrite length_app, length_header, length_write_big.
  - rewrite !app_assoc. rewrite <- (app_assoc _ (OutboundMessage.m_Digest m)).
    apply peek_app; [|by rewrite Hd]. by rewrite !length_app, length_header, !length_write_big.
  - rewrite !app_assoc. rewrite <- (app_nil_r (_ ++ fragment _ _)), <- app_assoc.
    apply peek_app; [|by rewrite Hf]. by rewrite !length_app, length_header, !length_write_big, Hd.
Qed.

Lemma HandleXMIT_fresh k m s :
  out_wf m -> m_ReplayFilter s !! OutboundMessage.m_MsgID m = None ->
  m_RXMsgs s !! OutboundMessage.m_MsgID m = None ->
  exists s', HandleXMIT (xmit_bytes k m) s = Ok (tt, s') /\ receiving m 1 s'.
Proof.
  intros W Hf Hr. destruct (xmit_parts k m W) as (Hlen & L1 & L2 & L3 & L4).
  set (p := xmit_bytes k m) in *. set (id := OutboundMessage.m_MsgID m) in *.
  set (data := OutboundMessage.m_Data m) in *. pose proof (ow_size _ W) as Hs. fold data in Hs.
  unfold HandleXMIT. rewrite (proj2 (Nat.ltb_ge _ _)) by (rewrite Hlen; unfold XMITOverhead, CommandOverhead, PacketOverhead, HMACSIZE, TUNNONCESIZE, SHORTHASHSIZE; lia).
  rewrite (run_bind _ _ s _ s (run_lift _ _ s L1)), (run_bind _ _ s _ s (run_lift _ _ s L2)).
  rewrite (run_bind (gets _) _ s None s) by (unfold gets; by rewrite Hf).
  rewrite (run_bind (gets _) _ s (w_now s) s) by done.
  rewrite (run_bind (gets _) _ s None s) by (unfold gets; by rewrite Hr).
  rewrite (run_bind _ _ s _ s (run_lift _ _ s L3)).
  set (im0 := InboundMessage.new id (Z.of_nat (length data)) (OutboundMessage.m_Digest m) (w_now s)).
  set (s1 := s <| m_RXMsgs ::= <[id := im0]> |>). rewrite (run_bind (modify _) _ s tt s1) by done.
  set (s2 := s1 <| w_out ::= fun o => o ++ [PumpTriggered] |>). rewrite (run_bind TriggerPump _ s1 tt s2) by done.
  assert ((Z.of_nat (length p - XMITOverhead) =? Z.min (Z.of_nat (length data)) (Z.of_nat FragmentSize)) = true) as ->.
  { apply Z.eqb_eq. rewrite Hlen. unfold XMITOverhead, CommandOverhead, PacketOverhead, HMACSIZE, TUNNONCESIZE, SHORTHASHSIZE, FragmentSize. lia. }
  cbn [when].
  replace (length p - Z.to_nat (Z.min (Z.of_nat (length data)) (Z.of_nat FragmentSize)))%nat with 108%nat
    by (rewrite Hlen; unfold FragmentSize; lia).
  replace (Z.to_nat (Z.min (Z.of_nat (length data)) (Z.of_nat FragmentSize))) with (Nat.min 1024 (length data))
    by (unfold FragmentSize; lia).
  rewrite (run_bind _ _ s2 _ s2 (run_lift _ _ s2 L4)).
  assert (exists im, InboundMessage.HandleData 0 (fragment data 0) (w_now s) im0 = Ok im /\ in_progress data im /\
    InboundMessage.m_Acks im = 1 /\ InboundMessage.m_Digset im = OutboundMessage.m_Digest m /\
    InboundMessage.m_MsgID im = id) as (im & E & Hp & Ha & Hd & Hid).
  { pose proof (in_progress_new data id (OutboundMessage.m_Digest m) (w_now s)) as Hp0.
    destruct (decide (0 < nfrags data)%nat) as [Hn|Hn].
    - destruct (HandleData_fragment data 0 (w_now s) im0 Hs Hn Hp0) as (im & E & ? & Ha & ? & ?).
      exists im. split; [exact E|]. split; [done|]. split; [by rewrite Ha|done].
    - assert (data = []) as Hnil. { apply nil_length_inv. pose proof (nfrags_lt data 0). lia. }
      subst im0. rewrite Hnil. eexists. split; [reflexivity|]. split; [|done]. split; [done|].
      intros n. done. }
  rewrite (run_bind _ _ s2 _ s2 (run_lift _ _ s2 E)).
  set (s3 := s2 <| m_RXMsgs ::= <[id := im]> |>). rewrite (run_bind (modify _) _ s2 tt s3) by done.
  destruct (maybe_queue_verify_run id im s3) as (s' & -> & Hrx & Hjob); [by rewrite (ip_len _ _ Hp)|].
  exists s'. split; [done|]. exists im. rewrite Hrx. cbn. fold id. rewrite lookup_insert_eq.
  split_and!; try done. intros Hall. apply Hjob. rewrite Ha. fold data in Hall.
  unfold all_acked, nfrags in *. by rewrite (ip_len _ _ Hp).
Qed.

(** Through the dispatcher. *)
Lemma receiving_touch m acks s : receiving m acks s -> receiving m acks (s <| m_LastRX := w_now s |>).
Proof. intros (im & H). by exists im. Qed.

Lemma HandlePacket_xmit k m s :
  out_wf m -> m_ReplayFilter s !! OutboundMessage.m_MsgID m = None ->
  m_RXMsgs s !! OutboundMessage.m_MsgID m = None ->
  exists s', HandlePacket (xmit_bytes k m) s = Ok (tt, s') /\ receiving m 1 s'.
Proof.
  intros W Hf Hr. destruct (HandleXMIT_fresh k m s W Hf Hr) as (s' & E & Hs').
  unfold HandlePacket. rewrite (run_bind _ _ s (command_byte eXMIT) s) by apply run_lift, header_cmd.
  cbn [command_byte]. cbn [Z.eqb Pos.eqb]. rewrite (run_bind _ _ s tt s' E).
  eexists. split; [done|]. by apply receiving_touch.
Qed.

Lemma HandlePacket_data k m j acks s :
  out_wf m -> (j < nfrags (OutboundMessage.m_Data m))%nat -> receiving m acks s ->
  exists s', HandlePacket (data_bytes k (OutboundMessage.m_MsgID m) (OutboundMessage.m_Data m) j) s = Ok (tt, s') /\
    receiving m (Z.setbit acks (Z.of_nat j)) s'.
Proof.
  intros W Hj Hr. destruct (HandleDATA_fragment k m j acks s W Hj Hr) as (s' & E & Hs').
  unfold HandlePacket. rewrite (run_bind _ _ s (command_byte eDATA) s) by apply run_lift, header_cmd.
  cbn [command_byte]. cbn [Z.eqb Pos.eqb]. rewrite (run_bind _ _ s tt s' E).
  eexists. split; [done|]. by apply receiving_touch.
Qed.

Lemma HandlePackets_data m (l : list (nat * nat)) acks s :
  out_wf m -> Forall (fun p => p.2 < nfrags (OutboundMessage.m_Data m))%nat l -> receiving m acks s ->
  exists s' acks', forM ((fun p => data_bytes p.1 (OutboundMessage.m_MsgID m) (OutboundMessage.m_Data m) p.2) <$> l)
                 HandlePacket s = Ok (tt, s') /\
    receiving m acks' s' /\
    forall j, Z.testbit acks (Z.of_nat j) = true \/ j ∈ l.*2 -> Z.testbit acks' (Z.of_nat j) = true.
Proof.
  intros W Hl. revert acks s. induction Hl as [|[k j] l Hj _ IH]; intros acks s Hr; cbn [fmap list_fmap forM fst snd].
  - exists s, acks. split; [done|]. split; [done|]. intros j [|Hj]; [done|]. by apply not_elem_of_nil in Hj.
  - destruct (HandlePacket_data k m j acks s W Hj Hr) as (s1 & E1 & Hr1).
    destruct (IH _ _ Hr1) as (s' & acks' & E & Hr' & Hb). exists s', acks'.
    rewrite (run_bind _ _ s tt s1 E1). split; [done|]. split; [done|].
    intros j' Hj'. apply Hb. rewrite elem_of_cons in Hj'.
    destruct (decide (j' = j)) as [->|Hne]; [left; by rewrite Z.setbit_eq by lia|].
    rewrite Z.setbit_neq by lia. naive_solver.
Qed.
End transfer.

Section completion.
Context {OX : Oxenc} {OS : OxencSpec OX} {R : Random} {RS : RandomSpec R} {SH : ShortHasher}
  {CR : Crypto} {KE : Keys} {ID : Identity}.
Implicit Types s : Session.

Lemma rx_ok_HandlePackets pkts s s' : rx_ok s -> forM pkts HandlePacket s = Ok (tt, s') -> rx_ok s'.
Proof.
  intros Hrx E. assert (keeps (quiet None None) (forM pkts HandlePacket)) as Hk.
  { apply keeps_forM; [apply _|]. intros. apply quiet_HandlePacket. }
  by destruct (Hk _ _ _ E) as [[] _].
Qed.

Lemma VerifiedMessage_run id im s :
  rx_ok s -> m_RXMsgs s !! id = Some im ->
  exists s', VerifiedMessage id s = Ok (tt, s') /\
    deliveries (w_out s') = deliveries (w_out s) ++ [(id, InboundMessage.m_Data im)] /\
    m_SendMACKs s' = pq_emplace id (m_SendMACKs s) /\ m_RXMsgs s' = delete id (m_RXMsgs s).
Proof.
  intros Hrx Him. destruct (Hrx _ _ Him) as [Hid Hf]. unfold VerifiedMessage.
  rewrite (run_bind (gets _) _ s (Some im) s) by (unfold gets; by rewrite Him).
  unfold HandleRecvMsgCompleted. rewrite Hid. unfold mbind, M_bind, gets, modify, emit. cbn [rbind].
  rewrite Hf. cbn [rbind modify]. eexists. split; [done|]. cbn. split; [|done].
  unfold deliveries. by rewrite omap_app.
Qed.

Lemma data_packet_inv k j m p :
  out_wf m -> (j < nfrags (OutboundMessage.m_Data m))%nat ->
  OutboundMessage.data_packet k (Z.of_nat (1024 * j)) m = Ok p ->
  p = data_bytes k (OutboundMessage.m_MsgID m) (OutboundMessage.m_Data m) j.
Proof. intros W Hj E. rewrite (data_packet_bytes k j m W) in E by (by apply nfrags_lt). congruence. Qed.
End completion.

(** C1. A message of at most 8192 bytes goes through: after its XMIT, whatever order the DATA
    packets come in and however often they are repeated, once every fragment has arrived
    the receiver has asked for a hash check of the bytes that were sent, which succeeds, and
    the completion of that check delivers exactly those bytes, queues their acknowledgement
    and forgets the message. *)
Theorem message_transfer {OX : Oxenc} {OS : OxencSpec OX} {R : Random} {RS : RandomSpec R}
    {SH : ShortHasher} {CR : Crypto} {KE : Keys} {ID : Identity}
    (m : OutboundMessage.t) (k : nat) (px : list Z) (l : list (nat * nat)) (pkts : list (list Z)) (s : Session) :
  let id := OutboundMessage.m_MsgID m in let data := OutboundMessage.m_Data m in
  out_wf m -> OutboundMessage.m_Digest m = shorthash data ->
  rx_ok s -> m_ReplayFilter s !! id = None -> m_RXMsgs s !! id = None ->
  OutboundMessage.XMIT k m = Ok px ->
  Forall2 (fun p q => (q.2 < nfrags data)%nat /\
                      OutboundMessage.data_packet q.1 (Z.of_nat (1024 * q.2)) m = Ok p) pkts l ->
  (forall j, (1 <= j < nfrags data)%nat -> j ∈ l.*2) ->
  exists s1 im, forM (px :: pkts) HandlePacket s = Ok (tt, s1) /\
    VerifyJob im ∈ w_out s1 /\ InboundMessage.m_MsgID im = id /\ InboundMessage.m_Data im = data /\ InboundMessage.Verify im = true /\
    exists s2, VerifiedMessage id s1 = Ok (tt, s2) /\
      deliveries (w_out s2) = deliveries (w_out s1) ++ [(id, data)] /\
      m_SendMACKs s2 = pq_emplace id (m_SendMACKs s1) /\ m_RXMsgs s2 !! id = None.
Proof.
  intros id data W Hdig Hrx Hf Hr Hx Hl Hcov. rewrite (XMIT_bytes k m W) in Hx. injection Hx as <-.
  destruct (HandlePacket_xmit k m s W Hf Hr) as (s0 & E0 & Hr0).
  assert (pkts = (fun p => data_bytes p.1 id data p.2) <$> l) as ->.
  { clear -Hl W OS RS. induction Hl as [|p [k j] pkts l [Hj Hp] _ IH]; [done|].
    cbn [fst snd fmap list_fmap] in *. f_equal; [|done].
    by apply data_packet_inv. }
  destruct (HandlePackets_data m l 1 s0 W) as (s1 & acks & E1 & (im & Him & Hp & Hid & Hd & Ha & Hj) & Hb);
    [|done|].
  { apply Forall_forall. intros q Hq.
    destruct (list_elem_of_lookup_1 _ _ Hq) as [n Hn]. destruct (Forall2_lookup_r _ _ _ _ _ Hl Hn) as (? & _ & [? _]).
    done. }
  assert (all_acked acks data = true) as Hall.
  { apply all_acked_true. intros j Hjn. apply Hb. destruct j; [by left|right; apply Hcov; lia]. }
  assert (InboundMessage.m_Data im = data) as Hdata
    by (apply in_progress_complete; [done|by rewrite Ha]).
  assert (forM (xmit_bytes k m :: ((fun p => data_bytes p.1 id data p.2) <$> l)) HandlePacket s = Ok (tt, s1)) as E.
  { cbn [forM]. by rewrite (run_bind _ _ s tt s0 E0). }
  exists s1, im. split; [exact E|]. split; [by apply Hj|]. split; [done|]. split; [done|]. split.
  { unfold InboundMessage.Verify. rewrite Hdata, Hd, Hdig. by apply bool_decide_eq_true. }
  destruct (VerifiedMessage_run id im s1 (rx_ok_HandlePackets _ _ _ Hrx E) Him) as (s2 & E2 & Ho & Hm & Hg).
  exists s2. rewrite Hdata in Ho. by rewrite Hg, lookup_delete_eq.
Qed.

(** A message of three fragments; fragment 2 arrives before fragment 1, and twice. *)
Definition message_example : OutboundMessage.t :=
  let data := replicate 2500 9 in
  OutboundMessage.set_digest (shorthash data) (OutboundMessage.new 5 data 1000 (Some (UserHandler 1)) 0).

Lemma message_example_wf : out_wf message_example.
Proof.
  split.
  - split; [discriminate|reflexivity].
  - reflexivity.
  - apply Nat.leb_le. vm_compute. reflexivity.
Qed.

Definition packet_example (r : res (list Z)) : list Z := match r with Ok p => p | _ => [] end.

Lemma message_transfer_witness :
  let cr := crypto_ref in let ke := keys_ref in let idn := identity_ref in let ox := oxenc_ref in
  let m := message_example in
  let s := newSession true [] None [] [] GotInboundLIM' 1000 in
  let l := [(1, 2); (2, 2); (3, 1)]%nat in
  let px := packet_example (OutboundMessage.XMIT 0 m) in
  let pkts := (fun q => packet_example (OutboundMessage.data_packet q.1 (Z.of_nat (1024 * q.2)) m)) <$> l in
  exists s1 im s2, forM (px :: pkts) HandlePacket s = Ok (tt, s1) /\ VerifyJob im ∈ w_out s1 /\
    VerifiedMessage 5 s1 = Ok (tt, s2) /\
    deliveries (w_out s2) = deliveries (w_out s1) ++ [(5, replicate 2500 9)].
Proof.
  intros cr ke idn ox m s l px pkts.
  edestruct (message_transfer m 0 px l pkts s) as (s1 & im & E1 & Hj & _ & _ & _ & s2 & E2 & Ho & _).
  - exact message_example_wf.
  - reflexivity.
  - apply newSession_rx_ok.
  - reflexivity.
  - reflexivity.
  - vm_compute. reflexivity.
  - repeat constructor; try (apply Nat.ltb_lt; vm_compute; reflexivity); vm_compute; reflexivity.
  - intros j Hj. assert (nfrags (OutboundMessage.m_Data m) = 3%nat) as H3 by (vm_compute; reflexivity).
    rewrite H3 in Hj. assert (j = 1 \/ j = 2)%nat as [-> | ->] by lia; repeat constructor.
  - exists s1, im, s2. exact (conj E1 (conj Hj (conj E2 Ho))).
Defined.

(** ** Answers *)
Section answers.
Context {OX : Oxenc} {OS : OxencSpec OX} {R : Random} {RS : RandomSpec R} {SH : ShortHasher}
  {CR : Crypto} {KE : Keys} {ID : Identity}.
Implicit Types s : Session.

(** Sending on an established session queues the packet for the encryption worker. *)
Definition queued (pkts : list (list Z)) (s s' : Session) : Prop :=
  m_EncryptNext s' = m_EncryptNext s ++ pkts /\ IsEstablished s' = IsEstablished s /\
  m_TXMsgs s' = m_TXMsgs s /\ m_RXMsgs s' = m_RXMsgs s /\ m_SendMACKs s' = m_SendMACKs s /\
  w_now s' = w_now s.

Lemma EncryptAndSend_established p s :
  IsEstablished s = true -> (66 <= length p)%nat ->
  exists s', EncryptAndSend p s = Ok (tt, s') /\ queued [p] s s'.
Proof.
  intros He Hp. unfold EncryptAndSend. rewrite (run_bind (gets _) _ s (m_State s) s) by done.
  set (chk := when _ _). assert (chk s = Ok (tt, s)) as Hchk.
  { unfold chk. destruct (_ || _); [|done]. cbn [when].
    destruct (lookup_lt_is_Some_2 p (PacketOverhead + 1)) as [b Hb]; [unfold PacketOverhead, HMACSIZE, TUNNONCESIZE; lia|].
    rewrite (run_bind _ _ s b s); [done|]. apply run_lift. unfold byte_at. by rewrite Hb. }
  rewrite (run_bind chk _ s tt s Hchk).
  set (s1 := s <| m_EncryptNext ::= fun l => l ++ [p] |>). rewrite (run_bind (modify _) _ s tt s1) by done.
  rewrite (run_bind (gets _) _ s1 true s1) by (unfold gets; by change (IsEstablished s1) with (IsEstablished s); rewrite He).
  cbn [negb when]. rewrite (run_bind (mret tt) _ s1 tt s1) by done. eexists. split; [done|]. done.
Qed.

Lemma queued_trans p1 p2 s1 s2 s3 : queued p1 s1 s2 -> queued p2 s2 s3 -> queued (p1 ++ p2) s1 s3.
Proof.
  intros (A1 & A2 & A3 & A4 & A5 & A6) (B1 & B2 & B3 & B4 & B5 & B6).
  unfold queued. rewrite B1, A1, app_assoc. repeat split; congruence.
Qed.

Lemma forM_EncryptAndSend pkts s :
  IsEstablished s = true -> Forall (fun p => 66 <= length p)%nat pkts ->
  exists s', forM pkts EncryptAndSend s = Ok (tt, s') /\ queued pkts s s'.
Proof.
  intros He Hp. revert s He. induction Hp as [|p pkts Hp _ IH]; intros s He; cbn [forM].
  - exists s. split; [done|]. repeat split; by rewrite ?app_nil_r.
  - destruct (EncryptAndSend_established p s He Hp) as (s1 & E1 & Q1). rewrite (run_bind _ _ s tt s1 E1).
    destruct (IH s1) as (s' & E & Q). { destruct Q1 as (_ & Q1 & _). by rewrite Q1. }
    exists s'. split; [done|]. by apply (queued_trans [p] pkts s s1 s').
Qed.

Lemma length_data_bytes_min k id data j : id_ok id -> Z.of_nat (1024 * j) < 65536 -> (66 <= length (data_bytes k id data j))%nat.
Proof. intros. rewrite length_data_bytes by done. lia. Qed.

Lemma elem_of_unacked acks data j :
  j ∈ unacked acks data 0 <-> Z.testbit acks (Z.of_nat j) = false /\ (j < nfrags data)%nat.
Proof. unfold unacked. rewrite list_elem_of_filter, elem_of_seq. split; intros [? ?]; split; auto; lia. Qed.

Lemma flush_tx_run id m s :
  IsEstablished s = true -> m_TXMsgs s !! id = Some m -> OutboundMessage.m_MsgID m = id -> out_wf m ->
  exists s' k, flush_tx id s = Ok (tt, s') /\
    m_EncryptNext s' = m_EncryptNext s ++
      imap (fun n j => data_bytes (k + n) id (OutboundMessage.m_Data m) j)
        (unacked (OutboundMessage.m_Acks m) (OutboundMessage.m_Data m) 0) /\
    m_TXMsgs s' = <[id := OutboundMessage.set_flush (w_now s) m]> (m_TXMsgs s).
Proof.
  intros He Hm Hid W. unfold flush_tx. rewrite (run_bind (gets _) _ s (w_now s) s) by done.
  rewrite (run_bind (tx_at id) _ s m s).
  2:{ unfold tx_at. rewrite (run_bind (gets _) _ s (Some m) s); [done|]. unfold gets. by rewrite Hm. }
  rewrite (run_bind (gets _) _ s (w_draws s) s) by done.
  rewrite (run_bind _ _ s _ s (run_lift _ _ s (FlushUnAcked_spec (w_draws s) (w_now s) m W))). cbn [fst snd].
  set (pkts := imap _ _). set (s1 := s <| w_draws := (w_draws s + length pkts)%nat |>).
  rewrite (run_bind (draws _) _ s (w_draws s) s1) by done.
  destruct (forM_EncryptAndSend pkts s1) as (s2 & E & Q1 & Q2 & Q3 & _); [done| |].
  { apply Forall_forall. intros p (n & j & -> & Hj)%elem_of_lookup_imap_1.
    apply list_elem_of_lookup_2, elem_of_unacked in Hj. pose proof (nfrags_max _ (ow_size _ W)).
    apply length_data_bytes_min; [apply W|lia]. }
  rewrite (run_bind _ _ s1 tt s2 E). eexists _, (w_draws s). split; [done|]. cbn. rewrite Q1, Q3, <- Hid. done.
Qed.

Lemma HandleACKS_parts k im p :
  id_ok (InboundMessage.m_MsgID im) -> InboundMessage.ACKS k im = Ok p ->
  (11 + PacketOverhead <= length p)%nat /\
  load_big (2 + PacketOverhead) 8 p = Ok (InboundMessage.m_MsgID im) /\
  byte_at (10 + PacketOverhead) p = Ok (InboundMessage.AcksBitmask im).
Proof.
  intros Hid E. destruct (ACKS_bytes k im Hid) as (pad & E'). rewrite E' in E. injection E as <-.
  unfold acks_bytes. split_and!.
  - rewrite !length_app, length_header, length_write_big by done. cbn [length]. unfold PacketOverhead, HMACSIZE, TUNNONCESIZE. lia.
  - apply load_big_app; [by rewrite length_header|done].
  - rewrite app_assoc. apply byte_at_app. by rewrite length_app, length_header, length_write_big.
Qed.

Lemma HandleACKS_start k im p m s :
  id_ok (InboundMessage.m_MsgID im) -> InboundMessage.ACKS k im = Ok p ->
  m_TXMsgs s !! InboundMessage.m_MsgID im = Some m ->
  (length (OutboundMessage.m_Data m) <= MAX_LINK_MSG_SIZE)%nat ->
  let id := InboundMessage.m_MsgID im in
  let m' := OutboundMessage.set_acks (u8 (InboundMessage.AcksBitmask im)) m in
  let s1 := s <| m_TXMsgs ::= <[id := m']> |> in
  HandleACKS p s =
    (if all_acked (u8 (InboundMessage.AcksBitmask im)) (OutboundMessage.m_Data m)
     then (run_handler (OutboundMessage.Completed m').1;; modify (fun s => s <| m_TXMsgs ::= delete id |>)) s1
     else flush_tx id s1).
Proof.
  intros Hid Hp Hm Hl id m' s1. destruct (HandleACKS_parts k im p Hid Hp) as (Hlen & L1 & L2).
  unfold HandleACKS. rewrite (proj2 (Nat.ltb_ge _ _)) by lia.
  rewrite (run_bind _ _ s _ s (run_lift _ _ s L1)).
  rewrite (run_bind (gets _) _ s (Some m) s) by (unfold gets; by rewrite Hm).
  rewrite (run_bind _ _ s _ s (run_lift _ _ s L2)).
  rewrite (run_bind (modify _) _ s tt s1) by done.
  rewrite (run_bind _ _ s1 _ s1 (run_lift _ _ s1 (IsTransmitted_spec m' Hl))).
  change (OutboundMessage.m_Acks m') with (u8 (InboundMessage.AcksBitmask im)).
  change (OutboundMessage.m_Data m') with (OutboundMessage.m_Data m). by destruct (all_acked _ _).
Qed.

Lemma bitmask_id im : 0 <= InboundMessage.m_Acks im < 256 -> u8 (InboundMessage.AcksBitmask im) = InboundMessage.m_Acks im.
Proof. intros Ha. unfold InboundMessage.AcksBitmask. rewrite !wrap_id; unfold in_width; rewrite ?wrap_id; unfold in_width; lia. Qed.
End answers.

(** C13. An ACKS packet from the receiver makes the sender retransmit exactly the fragments
    the receiver does not have, in ascending order; when it has them all, the sender
    forgets the message and reports it delivered. *)
Theorem acks_selective_retransmit {OX : Oxenc} {OS : OxencSpec OX} {R : Random} {RS : RandomSpec R}
    {SH : ShortHasher} {CR : Crypto} {KE : Keys} {ID : Identity}
    (im : InboundMessage.t) (m : OutboundMessage.t) (k : nat) (p : list Z) (s : Session) :
  let id := OutboundMessage.m_MsgID m in let data := OutboundMessage.m_Data m in
  out_wf m -> InboundMessage.m_MsgID im = id -> 0 <= InboundMessage.m_Acks im < 256 ->
  IsEstablished s = true -> m_TXMsgs s !! id = Some m -> InboundMessage.ACKS k im = Ok p ->
  exists s', HandleACKS p s = Ok (tt, s') /\
    if all_acked (InboundMessage.m_Acks im) data
    then m_TXMsgs s' = delete id (m_TXMsgs s) /\
         (forall h, OutboundMessage.m_Completed m = Some (UserHandler h) ->
            w_out s' = w_out s ++ [Notify h eDeliverySuccess])
    else exists js pkts, m_EncryptNext s' = m_EncryptNext s ++ pkts /\
         Forall2 (fun j pkt => exists k', OutboundMessage.data_packet k' (Z.of_nat (1024 * j)) m = Ok pkt) js pkts /\
         js = filter (fun j => Z.testbit (InboundMessage.m_Acks im) (Z.of_nat j) = false) (seq 0 (nfrags data)).
Proof.
  intros id data W Hid Ha He Hm Hp.
  assert (id_ok (InboundMessage.m_MsgID im)) as Hok by (rewrite Hid; apply W).
  rewrite (HandleACKS_start k im p m s Hok Hp) by (try apply W; by rewrite ?Hid).
  rewrite (bitmask_id im Ha), Hid. fold data. destruct (all_acked _ _).
  - destruct (OutboundMessage.m_Completed m) as [[h|]|] eqn:Eh;
      cbn [OutboundMessage.Completed fst OutboundMessage.m_Completed OutboundMessage.set_acks]; rewrite Eh;
      (eexists; split; [reflexivity|]); cbn; (split; [by rewrite delete_insert_eq|]); by intros ? [= <-].
  - set (m' := OutboundMessage.set_acks _ m). set (s1 := s <| m_TXMsgs ::= <[id := m']> |>).
    assert (out_wf m') as W' by (destruct W; by split).
    destruct (flush_tx_run id m' s1) as (s' & k' & E & Hq & Ht); [done|apply lookup_insert_eq|done|done|].
    change (OutboundMessage.m_Acks m') with (InboundMessage.m_Acks im) in Hq.
    change (OutboundMessage.m_Data m') with data in Hq.
    exists s'. split; [exact E|].
    exists (unacked (InboundMessage.m_Acks im) data 0). eexists. split; [exact Hq|]. split; [|by unfold unacked; rewrite Nat.sub_0_r].
    apply Forall2_same_length_lookup_2; [by rewrite length_imap|].
    intros n j pkt Hj Hpk. rewrite list_lookup_imap, Hj in Hpk. injection Hpk as <-.
    apply list_elem_of_lookup_2, elem_of_unacked in Hj as [_ Hj].
    exists (k' + n)%nat. apply (data_packet_bytes _ j m W). by apply nfrags_lt.
Qed.

Lemma acks_selective_retransmit_witness :
  let cr := crypto_ref in let ke := keys_ref in let idn := identity_ref in let ox := oxenc_ref in
  let m := message_example in
  let im := InboundMessage.Mk (replicate 2500 0) (replicate 32 0) 5 0 1000 5 in
  let s := (newSession false [] None [] [] GotOutboundLIM' 1000) <| m_State := Ready |> <| m_TXMsgs := {[5 := m]} |> in
  let p := packet_example (InboundMessage.ACKS 3 im) in
  exists s' pkt k', HandleACKS p s = Ok (tt, s') /\ m_EncryptNext s' = [pkt] /\
    OutboundMessage.data_packet k' 1024 m = Ok pkt.
Proof.
  intros cr ke idn ox m im s p.
  edestruct (acks_selective_retransmit im m 3 p s) as (s' & E & H).
  - exact message_example_wf.
  - reflexivity.
  - split; [discriminate|reflexivity].
  - reflexivity.
  - reflexivity.
  - vm_compute. reflexivity.
  - assert (all_acked (InboundMessage.m_Acks im) (OutboundMessage.m_Data m) = false) as Ha by (vm_compute; reflexivity).
    rewrite Ha in H. destruct H as (js & pkts & He & Hf & Hjs).
    assert (js = [1%nat]) as -> by (rewrite Hjs; vm_compute; reflexivity).
    apply Forall2_cons_inv_l in Hf as (pkt & ? & [k' Hk] & ->%Forall2_nil_inv_l & ->).
    exists s', pkt, k'. exact (conj E (conj He Hk)).
Defined.

(** ** Multi-acknowledgements *)
Section macks.
Context {OX : Oxenc} {OS : OxencSpec OX} {R : Random} {RS : RandomSpec R} {SH : ShortHasher}
  {CR : Crypto} {KE : Keys} {ID : Identity}.
Implicit Types s : Session.

Definition mack_body (acks : list Z) : list Z := concat (write_host_as_big 8 <$> acks).
Definition mack_bytes (k : nat) (acks padding : list Z) : list Z :=
  packet_header k eMACK ++ [Z.of_nat (length acks)] ++ mack_body acks ++ padding.

Lemma length_mack_body acks : Forall id_ok acks -> length (mack_body acks) = (8 * length acks)%nat.
Proof.
  unfold mack_body. induction 1 as [|a acks Ha _ IH]; [done|]. cbn [fmap list_fmap concat length].
  rewrite length_app, length_write_big, IH by done. lia.
Qed.

Lemma put_macks_spec acks off a tl :
  Forall id_ok acks -> off = length a ->
  put_macks acks off (a ++ replicate (length acks * 8) 0 ++ tl) = Ok (a ++ mack_body acks ++ tl).
Proof.
  intros Ha. revert off a. induction Ha as [|x acks Hx _ IH]; intros off a ->; cbn [put_macks length Nat.mul].
  - done.
  - rewrite poke_zeros by (rewrite ?length_write_big by done; lia). cbn [rbind].
    rewrite length_write_big by done. replace (8 + length acks * 8 - 8)%nat with (length acks * 8)%nat by lia.
    rewrite IH by (by rewrite length_app, length_write_big).
    unfold mack_body. cbn [fmap list_fmap concat]. by rewrite <- !app_assoc.
Qed.

Lemma acked_by_mack_run a s :
  exists s', acked_by_mack a s = Ok (tt, s') /\ m_TXMsgs s' = delete a (m_TXMsgs s).
Proof.
  unfold acked_by_mack. rewrite (run_bind (gets _) _ s (m_TXMsgs s !! a) s) by done.
  destruct (m_TXMsgs s !! a) as [m|] eqn:Ea.
  - destruct m as [? ? ? [[h|]|] ? ? ? ?]; eexists; (split; [reflexivity|]); done.
  - exists s. split; [done|]. by rewrite delete_id.
Qed.

Lemma mack_loop_run acks a tl s :
  Forall id_ok acks ->
  exists s', mack_loop (length acks) (length a) (a ++ mack_body acks ++ tl) s = Ok (tt, s') /\
    m_TXMsgs s' = foldl (fun m i => delete i m) (m_TXMsgs s) acks.
Proof.
  intros Ha. revert a s. induction Ha as [|x acks Hx Hxs IH]; intros a s; cbn [length mack_loop foldl]; [by exists s|].
  assert (a ++ mack_body (x :: acks) ++ tl = a ++ write_host_as_big 8 x ++ mack_body acks ++ tl) as E
    by (unfold mack_body; cbn; by rewrite <- app_assoc).
  rewrite E. rewrite (run_bind _ _ s x s) by (apply run_lift, load_big_app; done).
  destruct (acked_by_mack_run x s) as (s1 & E1 & H1). rewrite (run_bind _ _ s tt s1 E1).
  destruct (IH (a ++ write_host_as_big 8 x) s1) as (s' & E2 & H2).
  exists s'. rewrite length_app, length_write_big, <- app_assoc in E2 by done. by rewrite E2, H2, H1.
Qed.

Lemma HandlePacket_mack k acks padding s :
  Forall id_ok acks -> (length acks <= MaxACKSInMACK)%nat ->
  exists s', HandlePacket (mack_bytes k acks padding) s = Ok (tt, s') /\
    m_TXMsgs s' = foldl (fun m i => delete i m) (m_TXMsgs s) acks.
Proof.
  intros Ha Hn. assert (MaxACKSInMACK = 128%nat) as HM by done. set (p := mack_bytes k acks padding).
  assert (length p = 67 + 8 * length acks + length padding)%nat as Hlen.
  { unfold p, mack_bytes. rewrite !length_app, length_header, length_mack_body by done. cbn [length]. lia. }
  unfold HandlePacket. rewrite (run_bind _ _ s (command_byte eMACK) s) by apply run_lift, header_cmd.
  cbn [command_byte Z.eqb Pos.eqb]. unfold HandleMACK.
  rewrite (proj2 (Nat.ltb_ge _ _)) by (rewrite Hlen; unfold PacketOverhead, HMACSIZE, TUNNONCESIZE; lia).
  destruct (mack_loop_run acks (packet_header k eMACK ++ [Z.of_nat (length acks)]) padding s Ha) as (s1 & E1 & H1).
  rewrite length_app, length_header, <- app_assoc in E1. cbn [length] in E1.
  erewrite run_bind; [eexists; split; [reflexivity|exact H1]|].
  rewrite (run_bind _ _ s (Z.of_nat (length acks)) s).
  2:{ apply run_lift. unfold p, mack_bytes. apply byte_at_app. by rewrite length_header. }
  rewrite Nat2Z.id, (proj2 (Nat.ltb_ge _ _)) by (rewrite Hlen; unfold CommandOverhead, PacketOverhead, HMACSIZE, TUNNONCESIZE; lia).
  exact E1.
Qed.

Lemma HandlePackets_mack pkts acks s :
  Forall2 (fun p l => exists k padding, p = mack_bytes k l padding /\ (length l <= MaxACKSInMACK)%nat) pkts acks ->
  Forall (Forall id_ok) acks ->
  exists s', forM pkts HandlePacket s = Ok (tt, s') /\
    m_TXMsgs s' = foldl (fun m i => delete i m) (m_TXMsgs s) (concat acks).
Proof.
  intros Hp. revert s. induction Hp as [|p l pkts acks (k & pad & -> & Hl) _ IH]; intros s Ha; cbn [forM concat].
  - by exists s.
  - apply Forall_cons in Ha as [Ha Has]. destruct (HandlePacket_mack k l pad s Ha Hl) as (s1 & E1 & H1).
    rewrite (run_bind _ _ s tt s1 E1). destruct (IH s1 Has) as (s' & E & H). exists s'.
    split; [done|]. by rewrite foldl_app, H, H1.
Qed.

Lemma send_macks_run fuel s :
  IsEstablished s = true -> Forall id_ok (m_SendMACKs s) -> (length (m_SendMACKs s) <= fuel)%nat ->
  exists s' pkts acks, send_macks fuel s = Ok (tt, s') /\ m_SendMACKs s' = [] /\
    m_EncryptNext s' = m_EncryptNext s ++ pkts /\ concat acks = m_SendMACKs s /\
    Forall2 (fun p l => exists k padding, p = mack_bytes k l padding /\ (length l <= MaxACKSInMACK)%nat) pkts acks.
Proof.
  assert (MaxACKSInMACK = 128%nat) as HM by done. revert s. induction fuel as [|fuel IH]; intros s He Ha Hf.
  - exists s, [], []. destruct (m_SendMACKs s) eqn:E; [|cbn in Hf; lia]. cbn [send_macks].
    rewrite (run_bind (gets _) _ s [] s) by (unfold gets; by rewrite E). rewrite app_nil_r. by repeat split.
  - cbn [send_macks]. rewrite (run_bind (gets _) _ s (m_SendMACKs s) s) by done.
    destruct (m_SendMACKs s) as [|a l] eqn:E.
    { exists s, [], []. rewrite app_nil_r. by repeat split. }
    rewrite <- E in *. set (acks := m_SendMACKs s) in *. set (n := Nat.min (length acks) MaxACKSInMACK).
    assert (0 < n <= length acks)%nat as Hn by (unfold n; rewrite HM, E; cbn [length]; lia).
    set (s1 := s <| w_draws := S (w_draws s) |>). rewrite (run_bind draw _ s (w_draws s) s1) by done.
    destruct (create_packet (w_draws s) eMACK (1 + n * 8) 16 16) as (pad & Ec & _).
    rewrite (run_bind _ _ s1 _ s1 (run_lift _ _ s1 Ec)).
    assert (length (take n acks) = n) as Ht by (rewrite length_take; lia).
    erewrite (run_bind (lift (poke _ _ _)));
      [|apply run_lift, poke_zeros; [by rewrite length_header|cbn [length]; lia]].
    cbn [length]. replace (1 + n * 8 - 1)%nat with (length (take n acks) * 8)%nat by lia.
    erewrite (run_bind (lift (put_macks _ _ _)));
      [|apply run_lift, put_macks_spec; [by apply Forall_take|by rewrite length_app, length_header]].
    set (s2 := s1 <| m_SendMACKs := drop n acks |>). rewrite (run_bind (modify _) _ s1 tt s2) by done.
    set (p := (_ ++ _) ++ mack_body (take n acks) ++ pad).
    assert (p = mack_bytes (w_draws s) (take n acks) pad) as Hp.
    { unfold p, mack_bytes. rewrite <- app_assoc, Ht, wrap_id; [done|]. unfold in_width, n. rewrite HM. lia. }
    destruct (EncryptAndSend_established p s2) as (s3 & E3 & Q1 & Q2 & Q3 & Q4 & Q5 & Q6);
      [done|rewrite Hp; unfold mack_bytes; rewrite length_app, length_header; lia|].
    rewrite (run_bind _ _ s2 tt s3 E3).
    destruct (IH s3) as (s' & pkts & rest & Es & Hm & Hq & Hc & Hf2).
    + by rewrite Q2.
    + rewrite Q5. by apply Forall_drop.
    + rewrite Q5. cbn. rewrite length_drop. lia.
    + exists s', (p :: pkts), (take n acks :: rest). split; [exact Es|]. split; [done|].
      split; [rewrite Hq, Q1; cbn; by rewrite <- app_assoc|].
      split; [cbn; rewrite Hc, Q5; apply take_drop|]. constructor; [|done].
      exists (w_draws s), pad. split; [done|]. rewrite Ht. unfold n. lia.
Qed.

Lemma lookup_foldl_delete (m : gmap Z OutboundMessage.t) acks i :
  foldl (fun m i => delete i m) m acks !! i = if decide (i ∈ acks) then None else m !! i.
Proof.
  revert m. induction acks as [|a acks IH]; intros m; cbn [foldl]; [done|]. rewrite IH, lookup_delete.
  repeat case_decide; set_solver.
Qed.
End macks.

(** C16. The multi-acknowledgement packets a receiver sends for the ids in its queue, as
    many as it takes at 128 to a packet, make the sender drop exactly those messages. *)
Theorem mack_roundtrip {OX : Oxenc} {OS : OxencSpec OX} {R : Random} {RS : RandomSpec R}
    {SH : ShortHasher} {CR : Crypto} {KE : Keys} {ID : Identity} (receiver sender : Session) :
  IsEstablished receiver = true -> Forall id_ok (m_SendMACKs receiver) ->
  exists receiver' pkts, SendMACK receiver = Ok (tt, receiver') /\ m_SendMACKs receiver' = [] /\
    m_EncryptNext receiver' = m_EncryptNext receiver ++ pkts /\
    exists sender', forM pkts HandlePacket sender = Ok (tt, sender') /\
      forall i, m_TXMsgs sender' !! i =
        if decide (i ∈ m_SendMACKs receiver) then None else m_TXMsgs sender !! i.
Proof.
  intros He Ha. destruct (send_macks_run (length (m_SendMACKs receiver)) receiver He Ha ltac:(lia))
    as (r' & pkts & acks & E & Hm & Hq & Hc & Hf).
  exists r', pkts. split; [exact E|]. split; [done|]. split; [done|].
  destruct (HandlePackets_mack pkts acks sender Hf) as (s' & E' & Ht).
  { apply Forall_concat. by rewrite Hc. }
  exists s'. split; [done|]. intros i. by rewrite Ht, Hc, lookup_foldl_delete.
Qed.

Lemma mack_roundtrip_witness :
  let cr := crypto_ref in let ke := keys_ref in let idn := identity_ref in let ox := oxenc_ref in
  let r := (newSession true [] None [] [] GotInboundLIM' 0) <| m_State := Ready |> <| m_SendMACKs := [5; 9] |> in
  let s := (newSession false [] None [] [] GotOutboundLIM' 0) <| m_TXMsgs := {[5 := message_example; 6 := message_example]} |> in
  exists r' pkts s', SendMACK r = Ok (tt, r') /\ forM pkts HandlePacket s = Ok (tt, s') /\
    m_EncryptNext r' = pkts /\ m_TXMsgs s' !! 5 = None /\ m_TXMsgs s' !! 6 = Some message_example.
Proof.
  intros cr ke idn ox r s. edestruct (mack_roundtrip r s) as (r' & pkts & E1 & _ & Hq & s' & E2 & Hl).
  - reflexivity.
  - repeat constructor; discriminate.
  - exists r', pkts, s'. split; [exact E1|]. split; [exact E2|]. split; [exact Hq|].
    rewrite !Hl. split; reflexivity.
Defined.
