(* ===== verification/IwpHandshake.v ===== *)
(** * The IWP handshake, between two sessions

    Packets are sealed by EncryptPacket (cipher, then authenticator over nonce and
    ciphertext) and opened by DecryptMessageInPlace. The theorems are about an outbound
    session of one router and an inbound session of another: intro, intro ack, session
    request, after which both are in LinkIntro with the same key and token. *)

From stdpp Require Import sorting.
From S2P Require Import Prelude QueueManager Queue CryptoApi IwpMessage IwpSession IwpInvariants IwpTransfer.

Definition sent (o : list event) : list (list Z) :=
  omap (fun e => match e with SendTo_LL p => Some p | _ => None end) o.

Section sealing.
Context {OX : Oxenc} {R : Random} {RS : RandomSpec R} {SH : ShortHasher} {CR : Crypto} {CS : CryptoSpec CR}
  {KE : Keys} {ID : Identity}.
Implicit Types s : Session.

(** The sealed form of a packet with a given nonce and payload. *)
Definition is_sealed (key nonce payload p : list Z) : Prop :=
  exists c h, xchacha20 payload key nonce = Some c /\ length c = length payload /\
    xchacha20 c key nonce = Some payload /\
    hmac (nonce ++ c) key = Some h /\ length h = HMACSIZE /\ p = h ++ nonce ++ c.

Lemma peek_tail a b off n : off = length a -> n = length b -> peek off n (a ++ b) = Ok b.
Proof. intros -> ->. rewrite <- (app_nil_r b). rewrite peek_app; [by rewrite app_nil_r|done|by rewrite app_nil_r]. Qed.

Lemma poke_tail a b src off : off = length a -> length src = length b -> poke off src (a ++ b) = Ok (a ++ src).
Proof. intros -> Hs. rewrite <- (app_nil_r b), poke_app by done. by rewrite app_nil_r. Qed.

Lemma EncryptPacket_run h0 nonce payload s :
  length h0 = HMACSIZE -> length nonce = TUNNONCESIZE ->
  exists p, is_sealed (m_SessionKey s) nonce payload p /\
    EncryptPacket (h0 ++ nonce ++ payload) s
    = Ok (tt, s <| w_out ::= fun o => o ++ [SendTo_LL p] |> <| m_LastTX := w_wall s |>
                <| m_TXRate ::= fun r => u64 (r + Z.of_nat (length p)) |>).
Proof.
  intros Hh Hn. destruct (xchacha20_spec payload (m_SessionKey s) nonce) as (c & Ec & Hc & Hinv).
  destruct (hmac_spec (nonce ++ c) (m_SessionKey s)) as (h & Eh & Hl).
  exists (h ++ nonce ++ c). split; [by exists c, h|].
  unfold EncryptPacket. rewrite (run_bind (gets _) _ s (m_SessionKey s) s) by done.
  rewrite (run_bind _ _ s nonce s) by (apply run_lift, peek_app; done).
  rewrite (run_bind _ _ s payload s).
  2:{ apply run_lift. rewrite app_assoc. apply peek_tail; rewrite !length_app, ?Hh, ?Hn; [done|].
      unfold PacketOverhead. lia. }
  rewrite Ec. rewrite (run_bind _ _ s (h0 ++ nonce ++ c) s).
  2:{ apply run_lift. rewrite app_assoc, poke_tail; [by rewrite <- app_assoc| |done].
      rewrite length_app, Hh, Hn. done. }
  rewrite (run_bind _ _ s (nonce ++ c) s).
  2:{ apply run_lift, peek_tail; [done|]. rewrite !length_app, Hh. lia. }
  rewrite Eh. rewrite (run_bind _ _ s (h ++ nonce ++ c) s); [done|].
  apply run_lift. apply (poke_app [] h0 (nonce ++ c) h 0); [done|congruence].
Qed.

Lemma Decrypt_run key nonce payload p s :
  is_sealed key nonce payload p -> m_SessionKey s = key -> length nonce = TUNNONCESIZE -> payload <> [] ->
  exists h, length h = HMACSIZE /\ DecryptMessageInPlace p s = Ok (Some (h ++ nonce ++ payload), s).
Proof.
  intros (c & h & Ec & Hc & Hinv & Eh & Hl & ->) Hk Hn Hne. exists h. split; [done|].
  assert (0 < length payload)%nat by (destruct payload; [done|cbn; lia]).
  unfold DecryptMessageInPlace. rewrite (proj2 (Nat.leb_gt _ _)) by (rewrite !length_app, Hl, Hn, Hc; unfold PacketOverhead; lia).
  rewrite (run_bind (gets _) _ s key s) by (unfold gets; by rewrite Hk).
  rewrite (run_bind _ _ s (nonce ++ c) s).
  2:{ apply run_lift, peek_tail; [done|]. rewrite !length_app, Hl. unfold SHORTHASHSIZE, HMACSIZE. lia. }
  rewrite Eh. rewrite (run_bind _ _ s h s) by (apply run_lift, (peek_app [] h (nonce ++ c)); done).
  rewrite decide_True by done. rewrite (run_bind _ _ s nonce s) by (apply run_lift, peek_app; done).
  rewrite (run_bind _ _ s c s).
  2:{ apply run_lift. rewrite app_assoc. apply peek_tail; rewrite !length_app, Hl, Hn; [done|].
      unfold SHORTHASHSIZE, HMACSIZE, TUNNONCESIZE. lia. }
  rewrite Hinv. rewrite (run_bind _ _ s (h ++ nonce ++ payload) s); [done|].
  apply run_lift. rewrite app_assoc, poke_tail; [by rewrite <- app_assoc|by rewrite length_app, Hl, Hn|done].
Qed.

(** Sending before the session is established goes straight to the wire. *)
Lemma EncryptAndSend_direct h0 nonce payload s :
  IsEstablished s = false -> m_EncryptNext s = [] -> length h0 = HMACSIZE -> length nonce = TUNNONCESIZE ->
  exists p s', is_sealed (m_SessionKey s) nonce payload p /\
    EncryptAndSend (h0 ++ nonce ++ payload) s = Ok (tt, s') /\
    sent (w_out s') = sent (w_out s) ++ [p] /\ m_EncryptNext s' = [] /\ m_State s' = m_State s /\
    m_SessionKey s' = m_SessionKey s /\ token s' = token s /\ m_Inbound s' = m_Inbound s /\
    m_ChosenAI s' = m_ChosenAI s /\ m_ExpectedIdent s' = m_ExpectedIdent s /\ m_TXMsgs s' = m_TXMsgs s.
Proof.
  intros He Hq Hh Hn. unfold IsEstablished in He. apply orb_false_iff in He as [H1 H2].
  unfold EncryptAndSend. rewrite (run_bind (gets _) _ s (m_State s) s) by done.
  rewrite H2, H1. cbn [orb when]. rewrite (run_bind (mret tt) _ s tt s) by done.
  set (s1 := s <| m_EncryptNext ::= fun l => l ++ [h0 ++ nonce ++ payload] |>).
  rewrite (run_bind (modify _) _ s tt s1) by done.
  rewrite (run_bind (gets _) _ s1 false s1) by (unfold gets, IsEstablished; change (m_State s1) with (m_State s); by rewrite H1, H2).
  cbn [negb when]. destruct (EncryptPacket_run h0 nonce payload s1 Hh Hn) as (p & Hs & E).
  set (s2 := update _ _) in E.
  erewrite run_bind.
  2:{ rewrite (run_bind (gets _) _ s1 [h0 ++ nonce ++ payload] s1) by (unfold gets, s1; cbn; by rewrite Hq).
      cbn [forM]. rewrite (run_bind _ _ s1 tt s2); [reflexivity|].
      rewrite (run_bind _ _ s1 tt s2 E). done. }
  exists p. eexists. split; [done|]. split; [done|]. cbn. split_and!; try done.
  unfold sent. by rewrite !omap_app, app_nil_r.
Qed.
End sealing.

(** ** The three packets *)
Section intro.
Context {OX : Oxenc} {R : Random} {RS : RandomSpec R} {SH : ShortHasher} {CR : Crypto} {CS : CryptoSpec CR}
  {KE : Keys} {ID : Identity}.
Implicit Types s : Session.

(** Keys of the right sizes. *)
Record keys_wf : Prop := {
  kw_pubkey : length our_pubkey = PubKey_SIZE;
  kw_encryption : length our_encryption_pubkey = PubKey_SIZE;
  kw_sign m : length (sign m) = Signature_SIZE;
}.

Definition intro_payload (N : list Z) : list Z :=
  (our_pubkey ++ our_encryption_pubkey ++ N) ++ sign (our_pubkey ++ our_encryption_pubkey ++ N).

(** A session before any traffic was queued. *)
Definition idle (st : State) s : Prop := m_State s = st /\ m_EncryptNext s = [].

Ltac sizes := unfold INTROSIZE, PacketOverhead, HMACSIZE, TUNNONCESIZE, PubKey_SIZE, Signature_SIZE, token_size, SHORTHASHSIZE in *.

Lemma GenerateAndSendIntro_run key' s :
  keys_wf -> idle Initial s ->
  (forall N, length N = TUNNONCESIZE -> transport_dh_client (m_ChosenAI s) N = Some (key' N)) ->
  exists N nonce p s', GenerateAndSendIntro s = Ok (tt, s') /\ length N = TUNNONCESIZE /\
    length nonce = TUNNONCESIZE /\ is_sealed (m_SessionKey s) nonce (intro_payload N) p /\
    sent (w_out s') = sent (w_out s) ++ [p] /\ idle Introduction s' /\ m_SessionKey s' = key' N /\
    m_Inbound s' = m_Inbound s.
Proof.
  intros [Hpk Hek Hsg] [Hst Hq] Hdh. unfold GenerateAndSendIntro.
  set (s1 := s <| w_draws := S (w_draws s) |>). rewrite (run_bind draw _ s (w_draws s) s1) by done.
  set (N := randbytes (w_draws s) TUNNONCESIZE). assert (length N = TUNNONCESIZE) as HN by apply length_randbytes.
  change (replicate (INTROSIZE + PacketOverhead) 0) with (replicate 64 0 ++ replicate 160 0 ++ []).
  erewrite (run_bind (lift (poke _ _ _)) _ s1); [|apply run_lift, poke_zeros; [by rewrite length_replicate|rewrite Hpk; sizes; lia]].
  erewrite (run_bind (lift (poke _ _ _)) _ s1);
    [|apply run_lift, poke_zeros; [by rewrite length_app, length_replicate, Hpk|rewrite Hpk, Hek; sizes; lia]].
  erewrite (run_bind (lift (poke _ _ _)) _ s1);
    [|apply run_lift, poke_zeros; [by rewrite !length_app, length_replicate, Hpk, Hek|rewrite Hpk, Hek, HN; sizes; lia]].
  rewrite Hpk, Hek, HN.
  set (body := our_pubkey ++ our_encryption_pubkey ++ N).
  assert (((replicate 64 0 ++ our_pubkey) ++ our_encryption_pubkey) ++ N = replicate 64 0 ++ body) as ->
    by (unfold body; by rewrite <- !app_assoc).
  assert (length body = 96)%nat as Hb by (unfold body; rewrite !length_app, Hpk, Hek, HN; done).
  rewrite app_nil_r. rewrite (run_bind _ _ s1 body s1).
  2:{ apply run_lift. rewrite <- app_assoc. apply peek_app; [by rewrite length_replicate|by rewrite Hb]. }
  rewrite (run_bind _ _ s1 ((replicate 64 0 ++ body) ++ sign body) s1).
  2:{ apply run_lift, poke_tail; [by rewrite length_app, length_replicate, Hb|by rewrite Hsg, length_replicate]. }
  set (s2 := s1 <| w_draws := S (w_draws s1) |>). rewrite (run_bind draw _ s1 (w_draws s1) s2) by done.
  set (nonce := randbytes (w_draws s1) TUNNONCESIZE).
  assert (length nonce = TUNNONCESIZE) as Hnc by apply length_randbytes.
  rewrite (run_bind _ _ s2 (replicate 32 0 ++ nonce ++ intro_payload N) s2).
  2:{ apply run_lift. change (replicate 64 0) with (replicate 32 0 ++ replicate 32 0). rewrite <- !app_assoc.
      rewrite (poke_app (replicate 32 0) (replicate 32 0));
        [|by rewrite length_replicate|by rewrite Hnc, length_replicate].
      unfold intro_payload. by fold body. }
  destruct (EncryptAndSend_direct (replicate 32 0) nonce (intro_payload N) s2)
    as (p & s3 & Hp & E & Ho & Hq3 & Hst3 & Hk3 & Ht3 & Hi3 & Ha3 & _);
    [unfold IsEstablished; change (m_State s2) with (m_State s); by rewrite Hst|done|by rewrite length_replicate|done|].
  rewrite (run_bind _ _ s2 tt s3 E).
  set (s4 := s3 <| m_State := Introduction |>). rewrite (run_bind (modify _) _ s3 tt s4) by done.
  rewrite (run_bind (gets _) _ s4 (m_ChosenAI s) s4) by (unfold gets; change (m_ChosenAI s4) with (m_ChosenAI s3); by rewrite Ha3).
  rewrite (Hdh N HN). exists N, nonce, p. eexists. split; [done|]. split; [done|]. split; [done|].
  split; [done|]. split; [done|]. split; [done|]. done.
Qed.

Lemma Recv_LL_start data s :
  exists s1, (forall st, idle st s -> idle st s1) /\ m_SessionKey s1 = m_SessionKey s /\ token s1 = token s /\
    m_Inbound s1 = m_Inbound s /\ w_out s1 = w_out s /\ m_TXMsgs s1 = m_TXMsgs s /\
    m_ExpectedIdent s1 = m_ExpectedIdent s /\ m_State s1 = m_State s /\
    Recv_LL data s = (match m_State s with
      | Initial => if m_Inbound s then
          r ← DecryptMessageInPlace data;
          match r with Some data => HandleGotIntro data;; mret true | None => mret false end
          else mret true
      | Introduction => (if m_Inbound s then HandleCreateSessionRequest data else HandleGotIntroAck data);; mret true
      | _ => HandleSessionData data;; mret true
      end) s1.
Proof.
  exists (s <| m_RXRate ::= fun r => u64 (r + Z.of_nat (length data)) |>
            <| m_Stats ::= fun st => st <| totalPacketsRX ::= fun n => u64 (n + 1) |> |>).
  by destruct (m_State s) eqn:E; split_and!; try done; unfold Recv_LL, mbind, M_bind, gets, modify; cbn [rbind];
    cbn; rewrite E.
Qed.

Lemma Recv_intro pk ek N sig nonce p key' s :
  length pk = PubKey_SIZE -> length ek = PubKey_SIZE -> length N = TUNNONCESIZE -> length sig = Signature_SIZE ->
  length nonce = TUNNONCESIZE -> idle Initial s -> m_Inbound s = true -> length (token s) = token_size ->
  is_sealed (m_SessionKey s) nonce ((pk ++ ek ++ N) ++ sig) p ->
  verify pk (pk ++ ek ++ N) sig = true -> transport_dh_server ek N = Some key' ->
  exists nonce2 p2 s', Recv_LL p s = Ok (true, s') /\ length nonce2 = TUNNONCESIZE /\
    is_sealed key' nonce2 (token s) p2 /\ sent (w_out s') = sent (w_out s) ++ [p2] /\
    idle Introduction s' /\ m_SessionKey s' = key' /\ token s' = token s /\ m_Inbound s' = true /\
    m_ExpectedIdent s' = pk /\ m_TXMsgs s' = m_TXMsgs s.
Proof.
  intros Hpk Hek HN Hsig Hnc Hidle Hin Htok Hseal Hver Hdh.
  destruct (Recv_LL_start p s) as (s1 & Hi1 & Hk1 & Ht1 & Hin1 & Ho1 & Hx1 & _ & _ & E).
  destruct Hidle as [Hst Hq]. rewrite Hst, Hin in E. rewrite E. clear E.
  set (body := pk ++ ek ++ N) in *. assert (length body = 96)%nat as Hb by (unfold body; rewrite !length_app, Hpk, Hek, HN; done).
  destruct (Decrypt_run (m_SessionKey s) nonce (body ++ sig) p s1) as (h & Hh & Ed);
    [done|done|done|intros E%(f_equal length); rewrite length_app, Hb in E; cbn in E; lia|].
  rewrite (run_bind _ _ s1 _ s1 Ed). set (pkt := h ++ nonce ++ body ++ sig).
  assert (length pkt = 224)%nat as Hl by (unfold pkt; rewrite !length_app, Hh, Hnc, Hb, Hsig; done).
  assert (pkt = (h ++ nonce) ++ pk ++ ek ++ N ++ sig) as Hpkt by (unfold pkt, body; by rewrite <- !app_assoc).
  assert (length (h ++ nonce) = 64)%nat as Hhn by (rewrite length_app, Hh, Hnc; done).
  unfold HandleGotIntro. rewrite (proj2 (Nat.ltb_ge _ _)) by (rewrite Hl; sizes; lia).
  rewrite Hpkt. unfold mbind at 1, M_bind at 1.
  rewrite (run_bind _ _ s1 pk s1) by (apply run_lift, peek_app; [by rewrite Hhn|done]).
  rewrite (run_bind _ _ s1 ek s1)
    by (apply run_lift; rewrite app_assoc; apply peek_app; [by rewrite length_app, Hhn, Hpk|done]).
  set (s2 := s1 <| m_ExpectedIdent := pk |> <| m_RemoteOnionKey := ek |>). rewrite (run_bind (modify _) _ s1 tt s2) by done.
  rewrite (run_bind _ _ s2 N s2)
    by (apply run_lift; rewrite !app_assoc; rewrite <- (app_assoc _ N); apply peek_app; [by rewrite !length_app, Hh, Hnc, Hpk, Hek|done]).
  rewrite (run_bind _ _ s2 sig s2)
    by (apply run_lift; rewrite !app_assoc; apply peek_tail; [by rewrite !length_app, Hh, Hnc, Hpk, Hek, HN|done]).
  rewrite (run_bind _ _ s2 body s2).
  2:{ apply run_lift. assert (pk ++ ek ++ N ++ sig = body ++ sig) as -> by (unfold body; by rewrite <- !app_assoc).
      apply peek_app; [by rewrite Hhn|by rewrite Hb]. }
  rewrite Hver, Hdh. cbn [negb].
  set (s3 := s2 <| m_SessionKey := key' |>). rewrite (run_bind (modify _) _ s2 tt s3) by done.
  set (s4 := s3 <| w_draws := S (w_draws s3) |>). rewrite (run_bind draw _ s3 (w_draws s3) s4) by done.
  set (nonce2 := randbytes (w_draws s3) TUNNONCESIZE). assert (length nonce2 = TUNNONCESIZE) as Hn2 by apply length_randbytes.
  change (replicate (token_size + PacketOverhead) 0) with (replicate 32 0 ++ replicate 32 0 ++ replicate 24 0).
  rewrite (run_bind _ _ s4 (replicate 32 0 ++ nonce2 ++ replicate 24 0) s4)
    by (apply run_lift, poke_app; [by rewrite length_replicate|by rewrite Hn2, length_replicate]).
  rewrite (run_bind (gets _) _ s4 (token s) s4) by (unfold gets; change (token s4) with (token s1); by rewrite Ht1).
  rewrite (run_bind _ _ s4 (replicate 32 0 ++ nonce2 ++ token s) s4)
    by (apply run_lift; rewrite app_assoc, poke_tail; [by rewrite <- app_assoc|by rewrite length_app, length_replicate, Hn2|by rewrite Htok, length_replicate]).
  set (s5 := s4 <| m_LastRX := w_now s4 |>). rewrite (run_bind (modify _) _ s4 tt s5) by done.
  destruct (Hi1 Initial) as [Hst1 Hq1]; [done|].
  destruct (EncryptAndSend_direct (replicate 32 0) nonce2 (token s) s5)
    as (p2 & s6 & Hp2 & E6 & Ho6 & Hq6 & Hst6 & Hk6 & Ht6 & Hi6 & Ha6 & He6 & Hx6);
    [unfold IsEstablished; change (m_State s5) with (m_State s1); by rewrite Hst1|done|by rewrite length_replicate|done|].
  rewrite (run_bind _ _ s5 tt s6 E6). cbn [rbind modify].
  exists nonce2, p2. eexists. split; [done|]. split_and!; try done.
  - transitivity (sent (w_out s6)); [done|]. rewrite Ho6. change (w_out s5) with (w_out s1). by rewrite Ho1.
  - transitivity (token s6); [done|]. rewrite Ht6. change (token s5) with (token s1). by rewrite Ht1.
  - transitivity (m_Inbound s6); [done|]. rewrite Hi6. change (m_Inbound s5) with (m_Inbound s1). by rewrite Hin1.
  - transitivity (m_TXMsgs s6); [done|]. rewrite Hx6. change (m_TXMsgs s5) with (m_TXMsgs s1). by rewrite Hx1.
Qed.

Lemma Recv_intro_ack tok nonce p s :
  length tok = token_size -> length nonce = TUNNONCESIZE -> idle Introduction s -> m_Inbound s = false ->
  is_sealed (m_SessionKey s) nonce tok p ->
  exists nonce3 p3 s', Recv_LL p s = Ok (true, s') /\ length nonce3 = TUNNONCESIZE /\
    is_sealed (m_SessionKey s) nonce3 tok p3 /\ sent (w_out s') = sent (w_out s) ++ [p3] /\
    m_State s' = LinkIntro /\ m_SessionKey s' = m_SessionKey s /\ token s' = tok.
Proof.
  intros Htok Hnc Hidle Hin Hseal.
  destruct (Recv_LL_start p s) as (s1 & Hi1 & Hk1 & Ht1 & Hin1 & Ho1 & Hx1 & _ & _ & E).
  destruct (Hi1 _ Hidle) as [Hst1 Hq1]. destruct Hidle as [Hst Hq]. rewrite Hst, Hin in E. rewrite E. clear E.
  destruct (Decrypt_run (m_SessionKey s) nonce tok p s1) as (h & Hh & Ed); [done|done|done|by destruct tok|].
  assert (length p = 88)%nat as Hl.
  { destruct Hseal as (c & h' & _ & Hc & _ & _ & Hh' & ->). rewrite !length_app, Hh', Hnc, Hc, Htok. done. }
  unfold HandleGotIntroAck. rewrite (proj2 (Nat.ltb_ge _ _)) by (rewrite Hl; sizes; lia).
  unfold mbind at 1, M_bind at 1. rewrite (run_bind _ _ s1 _ s1 Ed).
  set (s2 := s1 <| m_LastRX := w_now s1 |>). rewrite (run_bind (modify _) _ s1 tt s2) by done.
  rewrite (run_bind _ _ s2 tok s2)
    by (apply run_lift; rewrite app_assoc; apply peek_tail; [by rewrite length_app, Hh, Hnc|done]).
  set (s3 := s2 <| token := tok |>). rewrite (run_bind (modify _) _ s2 tt s3) by done.
  change (replicate (token_size + PacketOverhead) 0) with (replicate 64 0 ++ replicate 24 0).
  rewrite (run_bind _ _ s3 (replicate 64 0 ++ tok) s3)
    by (apply run_lift, poke_tail; [by rewrite length_replicate|by rewrite Htok, length_replicate]).
  set (s4 := s3 <| w_draws := S (w_draws s3) |>). rewrite (run_bind draw _ s3 (w_draws s3) s4) by done.
  set (nonce3 := randbytes (w_draws s3) TUNNONCESIZE). assert (length nonce3 = TUNNONCESIZE) as Hn3 by apply length_randbytes.
  change (replicate 64 0 ++ tok) with (replicate 32 0 ++ replicate 32 0 ++ tok).
  rewrite (run_bind _ _ s4 (replicate 32 0 ++ nonce3 ++ tok) s4)
    by (apply run_lift, poke_app; [by rewrite length_replicate|by rewrite Hn3, length_replicate]).
  destruct (EncryptAndSend_direct (replicate 32 0) nonce3 tok s4)
    as (p3 & s5 & Hp3 & E5 & Ho5 & Hq5 & Hst5 & Hk5 & Ht5 & _);
    [unfold IsEstablished; change (m_State s4) with (m_State s1); by rewrite Hst1|done|by rewrite length_replicate|done|].
  rewrite (run_bind _ _ s4 tt s5 E5). cbn [rbind modify].
  change (m_SessionKey s4) with (m_SessionKey s1) in *. rewrite Hk1 in *.
  exists nonce3, p3. eexists. split; [done|]. split_and!; try done.
  transitivity (sent (w_out s5)); [done|]. rewrite Ho5. change (w_out s4) with (w_out s1). by rewrite Ho1.
Qed.

Lemma SendOurLIM_run s :
  m_TXMsgs s = ∅ ->
  exists s', SendOurLIM None s = Ok (tt, s') /\ m_State s' = m_State s /\ m_SessionKey s' = m_SessionKey s /\
    token s' = token s /\ m_ExpectedIdent s' = m_ExpectedIdent s /\
    (forall data, our_lim (w_draws s) = Some data ->
       m_TXMsgs s' !! m_TXID s = Some (OutboundMessage.new (m_TXID s) data (w_now s) None 0)).
Proof.
  intros Hx. unfold SendOurLIM. set (s1 := s <| w_draws := S (w_draws s) |>).
  rewrite (run_bind draw _ s (w_draws s) s1) by done. destruct (our_lim (w_draws s)) as [data|]; [|by exists s1].
  unfold SendMessageBuffer, mbind, M_bind, gets, modify. cbn [rbind]. cbn [w_draws m_TXMsgs]. 
  change (m_TXMsgs s1) with (m_TXMsgs s). rewrite Hx, map_size_empty. cbn [rbind].
  eexists. split; [done|]. split_and!; try done.
  intros d [= <-]. cbn. rewrite Hx, lookup_empty. apply lookup_insert_eq.
Qed.

Lemma Recv_request nonce p s :
  length (token s) = token_size -> length nonce = TUNNONCESIZE -> idle Introduction s -> m_Inbound s = true ->
  m_TXMsgs s = ∅ -> is_sealed (m_SessionKey s) nonce (token s) p ->
  exists s' k, Recv_LL p s = Ok (true, s') /\ m_State s' = LinkIntro /\ m_SessionKey s' = m_SessionKey s /\
    token s' = token s /\ m_ExpectedIdent s' = m_ExpectedIdent s /\
    (forall data, our_lim k = Some data -> exists i m, m_TXMsgs s' !! i = Some m /\ OutboundMessage.m_Data m = data).
Proof.
  intros Htok Hnc Hidle Hin Hx Hseal.
  destruct (Recv_LL_start p s) as (s1 & Hi1 & Hk1 & Ht1 & Hin1 & Ho1 & Hx1 & He1 & _ & E).
  destruct Hidle as [Hst Hq]. rewrite Hst, Hin in E. rewrite E. clear E.
  destruct (Decrypt_run (m_SessionKey s) nonce (token s) p s1) as (h & Hh & Ed); [done|done|done|by destruct (token s)|].
  unfold HandleCreateSessionRequest. unfold mbind at 1, M_bind at 1. rewrite (run_bind _ _ s1 _ s1 Ed).
  rewrite (proj2 (Nat.ltb_ge _ _)) by (rewrite !length_app, Hh, Hnc, Htok; sizes; lia).
  rewrite (run_bind _ _ s1 (token s) s1)
    by (apply run_lift; rewrite app_assoc; apply peek_tail; [by rewrite length_app, Hh, Hnc|done]).
  rewrite (run_bind (gets _) _ s1 (token s) s1) by (unfold gets; by rewrite Ht1). rewrite decide_True by done.
  set (s2 := s1 <| m_LastRX := w_now s1 |> <| m_State := LinkIntro |>). rewrite (run_bind (modify _) _ s1 tt s2) by done.
  destruct (SendOurLIM_run s2) as (s3 & E3 & Hs3 & Hk3 & Ht3 & He3 & Hm3).
  { change (m_TXMsgs s2) with (m_TXMsgs s1). by rewrite Hx1. }
  rewrite E3. cbn [rbind]. exists s3, (w_draws s2). split; [done|]. split; [done|].
  split; [by rewrite Hk3|]. split; [by rewrite Ht3|]. split; [by rewrite He3|].
  intros data Hd. eexists _, _. split; [by apply Hm3|done].
Qed.
End intro.

(** ** Whom a session expects *)
Section peer.
Context {OX : Oxenc} {R : Random} {SH : ShortHasher} {CR : Crypto} {KE : Keys} {ID : Identity}.
Implicit Types s : Session.

(** The handshake leaves the contact of the other side, and what is made of its link
    introduction, alone. *)
Record peer_frame (s s' : Session) : Prop := {
  pf_contact : m_RemoteRC s' = m_RemoteRC s;
  pf_handler : GotLIM s' = GotLIM s;
}.
#[local] Instance peer_frame_pre : PreOrder peer_frame.
Proof. split; [by intros s|]. intros s1 s2 s3 [] []. split; congruence. Qed.
Ltac peer := repeat lazymatch goal with |- peer_frame _ _ => by split | |- keeps _ (emit _) => unfold emit | |- _ => keeps_step end.

Lemma peer_EncryptAndSend p : keeps peer_frame (EncryptAndSend p).
Proof. unfold EncryptAndSend, EncryptPacket, Send_LL. peer. Qed.
#[local] Hint Resolve peer_EncryptAndSend : keeps.
Lemma peer_SendOurLIM h : keeps peer_frame (SendOurLIM h).
Proof. unfold SendOurLIM, SendMessageBuffer, Close. peer. Qed.
#[local] Hint Resolve peer_SendOurLIM : keeps.
Lemma peer_Decrypt p : keeps peer_frame (DecryptMessageInPlace p).
Proof. unfold DecryptMessageInPlace. peer. Qed.
#[local] Hint Resolve peer_Decrypt : keeps.
Lemma peer_Start : keeps peer_frame Start.
Proof. unfold Start, GenerateAndSendIntro. peer. Qed.
Lemma peer_Recv_LL p : keeps peer_frame (Recv_LL p).
Proof. unfold Recv_LL, HandleGotIntro, HandleCreateSessionRequest, HandleGotIntroAck, HandleSessionData. peer. Qed.

(** A link introduction that is accepted is that of the router expected. *)
Lemma outbound_lim_accepted msg rc s s' :
  GotLIM s = GotOutboundLIM' -> m_RemoteRC s = Some rc -> HandleLIM msg s = Ok (true, s') -> pubkey (lim_rc msg) = pubkey rc.
Proof.
  intros Hh Hrc. unfold HandleLIM. destruct (lim_Verify msg) eqn:Hv; cbn [negb]; [|done].
  rewrite (run_bind (gets _) _ s GotOutboundLIM' s) by (unfold gets; by rewrite Hh). unfold GotOutboundLIM.
  rewrite (run_bind (gets _) _ s (Some rc) s) by (unfold gets; by rewrite Hrc). rewrite Hv. cbn [negb fmap option_fmap option_map].
  case_decide as E; [by injection E|done].
Qed.
Lemma inbound_lim_accepted msg s s' :
  GotLIM s = GotInboundLIM' -> HandleLIM msg s = Ok (true, s') -> pubkey (lim_rc msg) = m_ExpectedIdent s.
Proof.
  intros Hh. unfold HandleLIM. destruct (lim_Verify msg) eqn:Hv; cbn [negb]; [|done].
  rewrite (run_bind (gets _) _ s GotInboundLIM' s) by (unfold gets; by rewrite Hh). unfold GotInboundLIM.
  rewrite (run_bind (gets _) _ s (m_ExpectedIdent s) s) by done. rewrite Hv. cbn [negb]. by case_decide.
Qed.
End peer.

(** C5. A handshake without loss: the outbound session's intro, the inbound session's
    intro ack and the outbound session's session request are each accepted by the other
    side, after which both sessions are in the link introduction phase with the same key
    and token and each knows the other: the inbound session has the identity that signed the
    intro, the outbound one that of the contact it was made for, and each accepts a link
    introduction from that router only. *)
Theorem handshake_agrees {OX : Oxenc} {R : Random} {RS : RandomSpec R} {SH : ShortHasher} {CR : Crypto}
    {CS : CryptoSpec CR} {ID : Identity} (KA KB : Keys) (rc : RouterContact) (ai : list Z) (now : Z)
    (key : list Z -> list Z) :
  keys_wf (KE := KA) ->
  (forall m, verify (our_pubkey (Keys := KA)) m (sign (Keys := KA) m) = true) ->
  pubkey rc = our_pubkey (Keys := KB) ->
  (forall N, transport_dh_client (Keys := KA) ai N = Some (key N)) ->
  (forall N, transport_dh_server (Keys := KB) (our_encryption_pubkey (Keys := KA)) N = Some (key N)) ->
  exists p1 p2 p3 a1 a2 b1 b2,
    Start (KE := KA) (outboundSession rc ai now) = Ok (tt, a1) /\ sent (w_out a1) = [p1] /\
    Recv_LL (KE := KB) p1 (inboundSession (KE := KB) now) = Ok (true, b1) /\ sent (w_out b1) = [p2] /\
    Recv_LL (KE := KA) p2 a1 = Ok (true, a2) /\ sent (w_out a2) = [p1; p3] /\
    Recv_LL (KE := KB) p3 b1 = Ok (true, b2) /\
    m_State a2 = LinkIntro /\ m_State b2 = LinkIntro /\
    m_SessionKey a2 = m_SessionKey b2 /\ token a2 = token b2 /\
    m_ExpectedIdent b2 = our_pubkey (Keys := KA) /\ pubkey <$> m_RemoteRC a2 = Some (our_pubkey (Keys := KB)) /\
    (forall msg a3, HandleLIM (KE := KA) msg a2 = Ok (true, a3) -> pubkey (lim_rc msg) = our_pubkey (Keys := KB)) /\
    (forall msg b3, HandleLIM (KE := KB) msg b2 = Ok (true, b3) -> pubkey (lim_rc msg) = our_pubkey (Keys := KA)).
Proof.
  intros Wk Hv Hrc Hc Hs. set (a0 := outboundSession rc ai now). set (b0 := inboundSession (KE := KB) now).
  destruct (GenerateAndSendIntro_run (KE := KA) key a0) as (N & n1 & p1 & a1 & Ea1 & HN & Hn1 & Hs1 & Ho1 & Hi1 & Hk1 & Hin1);
    [done|done|done|].
  assert (length (token b0) = token_size) as Htok by apply length_randbytes.
  assert (m_SessionKey a0 = m_SessionKey b0) as Hk0 by (cbn; by rewrite Hrc).
  destruct (Recv_intro (KE := KB) (our_pubkey (Keys := KA)) (our_encryption_pubkey (Keys := KA)) N
    (sign (Keys := KA) (our_pubkey (Keys := KA) ++ our_encryption_pubkey (Keys := KA) ++ N)) n1 p1 (key N) b0)
    as (n2 & p2 & b1 & Eb1 & Hn2 & Hs2 & Ho2 & Hi2 & Hk2 & Ht2 & Hin2 & He2 & Hx2);
    [apply Wk|apply Wk|done|apply Wk|done|done|done|done|by rewrite <- Hk0|done|done|].
  destruct (Recv_intro_ack (KE := KA) (token b0) n2 p2 a1) as (n3 & p3 & a2 & Ea2 & Hn3 & Hs3 & Ho3 & Hst3 & Hk3 & Ht3);
    [done|done|done|done|by rewrite Hk1|].
  destruct (Recv_request (KE := KB) n3 p3 b1) as (b2 & k & Eb2 & Hst4 & Hk4 & Ht4 & He4 & _);
    [by rewrite Ht2|done|done|done|by rewrite Hx2|by rewrite Hk2, Ht2, <- Hk1|].
  destruct (peer_Start (KE := KA) a0 tt a1 Ea1) as [Ra1 La1], (peer_Recv_LL (KE := KA) _ _ _ _ Ea2) as [Ra2 La2].
  destruct (peer_Recv_LL (KE := KB) _ _ _ _ Eb1) as [_ Lb1], (peer_Recv_LL (KE := KB) _ _ _ _ Eb2) as [_ Lb2].
  exists p1, p2, p3, a1, a2, b1, b2. split_and!; try done.
  - by rewrite Ho3, Ho1.
  - by rewrite Hk3, Hk4, Hk1, Hk2.
  - by rewrite Ht3, Ht4, Ht2.
  - by rewrite He4, He2.
  - rewrite Ra2, Ra1. cbn. by rewrite Hrc.
  - intros msg a3 E. rewrite <- Hrc. apply (outbound_lim_accepted (KE := KA) msg rc a2 a3); [by rewrite La2, La1|by rewrite Ra2, Ra1|done].
  - intros msg b3 E. rewrite (inbound_lim_accepted (KE := KB) msg b2 b3); [by rewrite He4, He2|by rewrite Lb2, Lb1|done].
Qed.

Lemma handshake_agrees_witness :
  let cr := crypto_ref in let ke := keys_ref in let idn := identity_ref in let ox := oxenc_ref in
  exists p1 p2 p3 a1 a2 b1 b2,
    Start (outboundSession (ID := identity_ref) (replicate 32 1) [] 0) = Ok (tt, a1) /\
    Recv_LL p1 (inboundSession 0) = Ok (true, b1) /\ Recv_LL p2 a1 = Ok (true, a2) /\
    Recv_LL p3 b1 = Ok (true, b2) /\ m_State a2 = LinkIntro /\ m_State b2 = LinkIntro /\
    m_SessionKey a2 = m_SessionKey b2.
Proof.
  intros cr ke idn ox.
  edestruct (handshake_agrees (ID := identity_ref) keys_ref keys_ref (replicate 32 1) [] 0 (fun N => N))
    as (p1 & p2 & p3 & a1 & a2 & b1 & b2 & E1 & _ & E2 & _ & E3 & _ & E4 & Ha & Hb & Hk & _).
  - split; reflexivity.
  - reflexivity.
  - reflexivity.
  - reflexivity.
  - reflexivity.
  - exists p1, p2, p3, a1, a2, b1, b2. exact (conj E1 (conj E2 (conj E3 (conj E4 (conj Ha (conj Hb Hk)))))).
Defined.
