(* ===== verification/IwpFaults.v ===== *)
(** * Behaviour of an IWP session on inputs it does not expect

    Each theorem exhibits, for every session in the stated situation, packets of the
    authenticated peer (or timings of the hashing worker) on which the code does something
    its callers do not handle: throws out of a handler, reads outside a packet, delivers
    bytes that were not the verified ones, or acts on a session it had closed. *)

From stdpp Require Import sorting.
From S2P Require Import Prelude QueueManager Queue CryptoApi IwpMessage IwpSession IwpInvariants IwpTransfer IwpHandshake.

Section packets.
Context {OX : Oxenc} {OS : OxencSpec OX} {R : Random} {RS : RandomSpec R} {SH : ShortHasher}
  {CR : Crypto} {CS : CryptoSpec CR} {KE : Keys} {ID : Identity}.
Implicit Types s : Session.

(** An XMIT that announces a size without carrying the first fragment. *)
Definition bare_xmit (k : nat) (sz id : Z) (digest : list Z) : list Z :=
  packet_header k eXMIT ++ write_host_as_big 2 sz ++ write_host_as_big 8 id ++ digest.

Lemma HandleXMIT_bare k sz id digest s :
  0 < sz < 65536 -> id_ok id -> length digest = SHORTHASHSIZE ->
  m_ReplayFilter s !! id = None -> m_RXMsgs s !! id = None ->
  exists s', HandlePacket (bare_xmit k sz id digest) s = Ok (tt, s') /\
    m_RXMsgs s' = <[id := InboundMessage.new id sz digest (w_now s)]> (m_RXMsgs s).
Proof.
  intros Hsz Hid Hd Hf Hr. set (p := bare_xmit k sz id digest).
  assert (0 <= sz < 256 ^ Z.of_nat 2) as H16 by (change (256 ^ Z.of_nat 2) with 65536; lia).
  assert (length p = 108)%nat as Hlen.
  { unfold p, bare_xmit. rewrite !length_app, length_header, !length_write_big, Hd by done. done. }
  unfold HandlePacket. rewrite (run_bind _ _ s (command_byte eXMIT) s) by apply run_lift, header_cmd.
  cbn [command_byte Z.eqb Pos.eqb].
  set (s1 := s <| m_RXMsgs ::= <[id := InboundMessage.new id sz digest (w_now s)]> |>
               <| w_out ::= fun o => o ++ [PumpTriggered] |>).
  rewrite (run_bind _ _ s tt s1); [by eexists|].
  unfold HandleXMIT. rewrite (proj2 (Nat.ltb_ge _ _)) by (rewrite Hlen; reflexivity).
  rewrite (run_bind _ _ s sz s) by (apply run_lift, load_big_app; [by rewrite length_header|done]).
  rewrite (run_bind _ _ s id s).
  2:{ apply run_lift. unfold p, bare_xmit. rewrite app_assoc. apply load_big_app; [|done].
      by rewrite length_app, length_header, length_write_big. }
  rewrite (run_bind (gets _) _ s None s) by (unfold gets; by rewrite Hf).
  rewrite (run_bind (gets _) _ s (w_now s) s) by done.
  rewrite (run_bind (gets _) _ s None s) by (unfold gets; by rewrite Hr).
  rewrite (run_bind _ _ s digest s).
  2:{ apply run_lift. unfold p, bare_xmit. rewrite !app_assoc. apply peek_tail; [|done].
      by rewrite !length_app, length_header, !length_write_big. }
  rewrite (proj2 (Z.eqb_neq _ _)) by (rewrite Hlen; unfold XMITOverhead, CommandOverhead, PacketOverhead, HMACSIZE, TUNNONCESIZE, SHORTHASHSIZE, FragmentSize; lia).
  reflexivity.
Qed.

Lemma HandleDATA_throws k id b im s :
  id_ok id -> m_RXMsgs s !! id = Some im -> (8192 < Z.of_nat (length (InboundMessage.m_Data im))) ->
  HandlePacket (packet_header k eDATA ++ write_host_as_big 2 8192 ++ write_host_as_big 8 id ++ [b]) s = Throw.
Proof.
  intros Hid Him Hl. set (p := _ ++ _). assert (length p = 77)%nat as Hlen.
  { unfold p. rewrite !length_app, length_header, !length_write_big by (done || (split; [discriminate|reflexivity])). done. }
  unfold HandlePacket. rewrite (run_bind _ _ s (command_byte eDATA) s) by apply run_lift, header_cmd.
  cbn [command_byte Z.eqb Pos.eqb]. unfold mbind at 1, M_bind at 1.
  unfold HandleDATA. rewrite (proj2 (Nat.ltb_ge _ _)) by (rewrite Hlen; apply Nat.leb_le; reflexivity).
  rewrite (run_bind _ _ s 8192 s)
    by (apply run_lift, load_big_app; [by rewrite length_header|split; [discriminate|reflexivity]]).
  rewrite (run_bind _ _ s id s).
  2:{ apply run_lift. unfold p. rewrite app_assoc. apply load_big_app; [|done].
      rewrite length_app, length_header, length_write_big by (split; [discriminate|reflexivity]). done. }
  rewrite (run_bind (gets _) _ s (Some im) s) by (unfold gets; by rewrite Him).
  rewrite (run_bind (gets _) _ s (w_now s) s) by done.
  rewrite (run_bind _ _ s [b] s).
  2:{ apply run_lift. unfold p. rewrite !app_assoc. apply peek_tail; rewrite !length_app, length_header, !length_write_big by (done || (split; [discriminate|reflexivity])); done. }
  unfold InboundMessage.HandleData. cbn [length]. rewrite (proj2 (Z.ltb_ge _ _)) by lia.
  destruct (poke_ok (Z.to_nat 8192) [b] (InboundMessage.m_Data im)) as [l' Hp]; [cbn [length]; lia|].
  rewrite Hp. cbn [rbind]. reflexivity.
Qed.

Lemma poke_fits off src l l' : poke off src l = Ok l' -> (off + length src <= length l)%nat.
Proof. unfold poke. by destruct (Nat.leb_spec (off + length src) (length l)). Qed.
End packets.

(** [m_Acks] has eight bits, but the size a peer announces in an XMIT is not checked
    against MAX_LINK_MSG_SIZE: after an XMIT that announces more than 8192 bytes, a DATA
    packet for offset 8192 makes [bitset::set] throw out of the packet handler. *)
Theorem oversized_message_throws {OX : Oxenc} {OS : OxencSpec OX} {R : Random} {RS : RandomSpec R}
    {SH : ShortHasher} {CR : Crypto} {KE : Keys} {ID : Identity} (k : nat) (sz id b : Z) (digest : list Z) (s : Session) :
  8192 < sz < 65536 -> id_ok id -> length digest = SHORTHASHSIZE ->
  m_ReplayFilter s !! id = None -> m_RXMsgs s !! id = None ->
  exists s', HandlePacket (bare_xmit k sz id digest) s = Ok (tt, s') /\
    HandlePacket (packet_header k eDATA ++ write_host_as_big 2 8192 ++ write_host_as_big 8 id ++ [b]) s' = Throw.
Proof.
  intros Hsz Hid Hd Hf Hr. destruct (HandleXMIT_bare k sz id digest s) as (s' & E & Hrx); [lia|done..|].
  exists s'. split; [done|].
  apply HandleDATA_throws with (im := InboundMessage.new id sz digest (w_now s)); [done|rewrite Hrx; apply lookup_insert_eq|].
  cbn. rewrite length_replicate. lia.
Qed.

Lemma oversized_message_throws_witness :
  let cr := crypto_ref in let ke := keys_ref in let idn := identity_ref in let ox := oxenc_ref in
  let s := newSession true [] None [] [] GotInboundLIM' 0 in
  exists s', HandlePacket (bare_xmit 0 9000 5 (replicate 32 0)) s = Ok (tt, s') /\
    HandlePacket (packet_header 0 eDATA ++ write_host_as_big 2 8192 ++ write_host_as_big 8 5 ++ [1]) s' = Throw.
Proof.
  intros cr ke idn ox s. apply (oversized_message_throws 0 9000 5 1 (replicate 32 0) s).
  - split; reflexivity.
  - split; [discriminate|reflexivity].
  - reflexivity.
  - reflexivity.
  - reflexivity.
Defined.

(** A sealed packet with a single payload byte passes the decryption worker's checks,
    and handling it then reads the command byte one past the end of the packet. *)
Theorem short_packet_oob {OX : Oxenc} {OS : OxencSpec OX} {R : Random} {RS : RandomSpec R} {SH : ShortHasher}
    {CR : Crypto} {CS : CryptoSpec CR} {KE : Keys} {ID : Identity} (seq : Z) (nonce p : list Z) (s : Session) :
  length nonce = TUNNONCESIZE -> m_PlaintextRecv s = [] ->
  is_sealed (m_SessionKey s) nonce [proto_version] p ->
  exists s', DecryptWork seq p s = Ok (tt, s') /\ HandlePlaintext s' = Oob.
Proof.
  intros Hn Hq Hs. destruct (Decrypt_run _ nonce [proto_version] p s Hs) as (h & Hh & E); [done..|].
  unfold DecryptWork. rewrite (run_bind _ _ s _ s E).
  rewrite (run_bind _ _ s proto_version s)
    by (apply run_lift; rewrite app_assoc; apply byte_at_app; by rewrite length_app, Hh, Hn).
  rewrite Z.eqb_refl. set (pkt := h ++ nonce ++ [proto_version]).
  set (s1 := s <| m_PlaintextRecv ::= fun l => (Spec.push PlaintextQueueSize false (seq, pkt) l).2 |>
               <| m_PlaintextEmpty := false |>). rewrite (run_bind (modify _) _ s tt s1) by done.
  set (s2 := s1 <| w_out ::= fun o => o ++ [PlaintextWoken] |>). exists s2. split; [done|].
  unfold HandlePlaintext. rewrite (run_bind (gets _) _ s2 false s2) by done.
  set (s3 := s2 <| m_PlaintextEmpty := true |>). rewrite (run_bind (modify _) _ s2 tt s3) by done.
  rewrite (run_bind (gets _) _ s3 [(seq, pkt)] s3).
  2:{ unfold gets. change (m_PlaintextRecv s3) with (Spec.push PlaintextQueueSize false (seq, pkt) (m_PlaintextRecv s)).2.
      by rewrite Hq. }
  set (s4 := s3 <| m_PlaintextRecv := [] |>). rewrite (run_bind (modify _) _ s3 tt s4) by done.
  assert (byte_at (PacketOverhead + 1) pkt = Oob) as Hb.
  { unfold byte_at. rewrite lookup_ge_None_2; [done|]. unfold pkt. rewrite !length_app, Hh, Hn. reflexivity. }
  cbn [fmap list_fmap snd forM]. unfold HandlePacket at 1, mbind, M_bind, lift. by rewrite Hb.
Qed.

Lemma short_packet_oob_witness :
  let cr := crypto_ref in let ke := keys_ref in let idn := identity_ref in let ox := oxenc_ref in
  let s := newSession true [] None [] [] GotInboundLIM' 0 in
  exists s', DecryptWork 0 (replicate 64 0 ++ [0]) s = Ok (tt, s') /\ HandlePlaintext s' = Oob.
Proof.
  intros cr ke idn ox s. apply (short_packet_oob 0 (replicate 32 0) _ s).
  - reflexivity.
  - reflexivity.
  - exists [0], (replicate 32 0). repeat split; reflexivity.
Defined.

(** The hash is checked on a copy of the message, and what is then delivered is the
    entry of [m_RXMsgs]: a DATA packet handled between the two replaces bytes of a message
    whose digest was verified, and the replaced bytes are delivered. *)
Theorem verified_data_replaced {OX : Oxenc} {OS : OxencSpec OX} {R : Random} {RS : RandomSpec R}
    {SH : ShortHasher} {CR : Crypto} {KE : Keys} {ID : Identity}
    (k j : nat) (id : Z) (im : InboundMessage.t) (other data' : list Z) (s : Session) :
  rx_ok s -> id_ok id -> m_RXMsgs s !! id = Some im -> InboundMessage.Verify im = true ->
  (length (InboundMessage.m_Data im) <= MAX_LINK_MSG_SIZE)%nat -> (j < 8)%nat ->
  poke (1024 * j) (fragment other (1024 * j)) (InboundMessage.m_Data im) = Ok data' ->
  exists s1 s2,
    HandleDATA (data_bytes k id other j) s = Ok (tt, s1) /\
    verify_request im = {| vr_msgid := id; vr_result := true |} /\
    VerifiedMessage id s1 = Ok (tt, s2) /\
    deliveries (w_out s2) = deliveries (w_out s1) ++ [(id, data')].
Proof.
  intros Hrx Hid Him Hv Hl Hj Hp. destruct (Hrx _ _ Him) as [Hmid _].
  pose proof (length_poke _ _ _ _ Hp) as Hlen. pose proof (poke_fits _ _ _ _ Hp) as Hb.
  set (a := Z.setbit (InboundMessage.m_Acks im) (Z.of_nat j)).
  set (im' := InboundMessage.Mk data' (InboundMessage.m_Digset im) (InboundMessage.m_MsgID im)
                (InboundMessage.m_LastACKSent im) (w_now s) a).
  assert (InboundMessage.HandleData (Z.of_nat (1024 * j)) (fragment other (1024 * j)) (w_now s) im = Ok im') as E.
  { unfold InboundMessage.HandleData. rewrite (proj2 (Z.ltb_ge _ _)) by lia. rewrite Nat2Z.id, Hp. cbn [rbind].
    change (Z.of_nat FragmentSize) with 1024.
    replace (Z.of_nat (1024 * j) / 1024) with (Z.of_nat j) by (apply Z.div_unique with 0; lia).
    unfold bitset.set, bitset.size. by destruct (Z.ltb_spec (Z.of_nat j) 8); [|lia]. }
  destruct (HandleDATA_run k id other j im im' s Hid Hj Him E) as (s1 & E1 & Hrx1 & _);
    [change (length data' <= MAX_LINK_MSG_SIZE)%nat; by rewrite Hlen|].
  assert (rx_ok s1) as Hok1 by (by destruct (quiet_HandleDATA None _ _ _ _ E1 ltac:(by split)) as [[] _]).
  destruct (VerifiedMessage_run id im' s1) as (s2 & E2 & Hd & _); [done|by rewrite Hrx1, lookup_insert_eq|].
  exists s1, s2. repeat split; [done| |done|done]. unfold verify_request. by rewrite Hv, Hmid.
Qed.

Lemma verified_data_replaced_witness :
  let cr := crypto_ref in let ke := keys_ref in let idn := identity_ref in let ox := oxenc_ref in
  let im := InboundMessage.Mk [1; 2; 3] (shorthash [1; 2; 3]) 5 0 0 1 in
  let s := (newSession true [] None [] [] GotInboundLIM' 0) <| m_RXMsgs := {[5 := im]} |> in
  exists s1 s2, HandleDATA (data_bytes 0 5 [9; 9] 0) s = Ok (tt, s1) /\
    VerifiedMessage 5 s1 = Ok (tt, s2) /\ deliveries (w_out s2) = deliveries (w_out s1) ++ [(5, [9; 9; 3])].
Proof.
  intros cr ke idn ox im s.
  destruct (verified_data_replaced 0 0 5 im [9; 9] [9; 9; 3] s) as (s1 & s2 & H1 & _ & H2 & H3).
  - intros i im0 H. change (({[5 := im]} : gmap Z InboundMessage.t) !! i = Some im0) in H. apply lookup_singleton_Some in H as [<- <-]. done.
  - split; [discriminate|reflexivity].
  - reflexivity.
  - reflexivity.
  - apply Nat.leb_le. reflexivity.
  - lia.
  - reflexivity.
  - by exists s1, s2.
Defined.

Lemma StronglySorted_mono {A} (R S : A -> A -> Prop) (l : list A) :
  (forall a b, R a b -> S a b) -> StronglySorted R l -> StronglySorted S l.
Proof. intros H. induction 1 as [|x l Hl IH Hx]; constructor; [done|]. eapply Forall_impl; [done|]. auto. Qed.

(** Pump pops the messages due for retransmission from a queue that yields the greatest
    element, so they go out from the lowest priority to the highest, and within a priority
    from the newest id to the oldest, although [operator<] is written so that higher
    priorities come first. *)
Theorem resend_lowest_priority_first (now : Z) (m : gmap Z OutboundMessage.t) :
  StronglySorted (fun a b =>
      OutboundMessage.m_ResendPriority a.2 < OutboundMessage.m_ResendPriority b.2 \/
      OutboundMessage.m_ResendPriority a.2 = OutboundMessage.m_ResendPriority b.2 /\
      OutboundMessage.m_MsgID b.2 <= OutboundMessage.m_MsgID a.2) (to_resend now m) /\
  forall id msg, (id, msg) ∈ to_resend now m <-> m !! id = Some msg /\ OutboundMessage.ShouldFlush now msg = true.
Proof.
  split.
  - unfold to_resend. eapply StronglySorted_mono; [|apply StronglySorted_merge_sort].
    + intros a b. unfold resend_le, OutboundMessage.lt. rewrite orb_false_iff, andb_false_iff. lia.
    + intros a b c. unfold resend_le, OutboundMessage.lt. rewrite !orb_false_iff, !andb_false_iff. lia.
    + intros a b. unfold resend_le, OutboundMessage.lt. rewrite !orb_false_iff, !andb_false_iff. lia.
  - intros id msg. unfold to_resend, in_order. rewrite merge_sort_Permutation, list_elem_of_filter. cbn.
    rewrite merge_sort_Permutation, elem_of_map_to_list. tauto.
Qed.

(** The handler of the delivered link introduction does not look at the session's
    state: the acknowledgement of that message makes a closed session established again. *)
Theorem closed_session_reopens {OX : Oxenc} {R : Random} {SH : ShortHasher} {CR : Crypto} {KE : Keys} {ID : Identity}
    (id : Z) (msg : OutboundMessage.t) (s : Session) :
  m_State s = Closed -> m_TXMsgs s !! id = Some msg -> OutboundMessage.m_Completed msg = Some LimHandler ->
  exists s', acked_by_mack id s = Ok (tt, s') /\ IsEstablished s = false /\ IsEstablished s' = true /\
    SessionEstablished false ∈ w_out s'.
Proof.
  intros Hc Hm Hh. unfold acked_by_mack. rewrite (run_bind (gets _) _ s (Some msg) s) by (unfold gets; by rewrite Hm).
  set (s1 := s <| m_Stats ::= fun st =>
    st <| totalAckedTX ::= fun n => u64 (n + 1) |> <| totalInFlightTX ::= fun n => u64 (n - 1) |> |>).
  rewrite (run_bind (modify _) _ s tt s1) by done.
  set (s2 := s1 <| m_State := Ready |> <| w_out ::= fun o => o ++ [MapAddr (from_option pubkey [] (m_RemoteRC s))] |>
               <| w_out ::= fun o => o ++ [SessionEstablished false] |>).
  rewrite (run_bind _ _ s1 tt s2).
  2:{ unfold OutboundMessage.Completed. rewrite Hh. reflexivity. }
  exists (s2 <| m_TXMsgs ::= delete id |>). split; [done|]. unfold IsEstablished. rewrite Hc. repeat split.
  cbn. rewrite elem_of_app. right. by left.
Qed.

(** A session that was told of a message to introduce itself with, and then closed. *)
Definition closed_example {OX : Oxenc} {R : Random} {SH : ShortHasher} {CR : Crypto} {KE : Keys} {ID : Identity} : Session :=
  let s := (newSession false [] None [] [] GotOutboundLIM' 1000) <| m_State := Ready |>
    <| m_TXMsgs := {[5 := OutboundMessage.new 5 [1; 2; 3] 1000 (Some LimHandler) 0]} |> in
  match Close s with Ok (_, s') => s' | _ => s end.

Lemma closed_session_reopens_witness :
  let cr := crypto_ref in let ke := keys_ref in let idn := identity_ref in let ox := oxenc_ref in
  exists s', acked_by_mack 5 closed_example = Ok (tt, s') /\ IsEstablished closed_example = false /\
    IsEstablished s' = true /\ SessionEstablished false ∈ w_out s'.
Proof.
  intros cr ke idn ox.
  apply (closed_session_reopens 5 (OutboundMessage.new 5 [1; 2; 3] 1000 (Some LimHandler) 0) closed_example).
  - vm_compute. reflexivity.
  - vm_compute. reflexivity.
  - reflexivity.
Defined.

(** The digest of a message that was dropped while it was being hashed recreates an
    entry for it: the session transmits an XMIT of zero bytes with id zero, and keeps the
    empty message under the old id. *)
Theorem late_hash_recreates_message {OX : Oxenc} {OS : OxencSpec OX} {R : Random} {RS : RandomSpec R}
    {SH : ShortHasher} {CR : Crypto} {KE : Keys} {ID : Identity} (m : OutboundMessage.t) (s : Session) :
  let id := OutboundMessage.m_MsgID m in
  let ghost := OutboundMessage.set_digest (OutboundMessage.m_Digest m) OutboundMessage.dflt in
  IsEstablished s = true -> m_TXMsgs s !! id = None -> length (OutboundMessage.m_Digest m) = SHORTHASHSIZE ->
  exists s' k, HandleGeneratedHash m s = Ok (tt, s') /\
    m_TXMsgs s' = <[id := ghost]> (m_TXMsgs s) /\
    m_EncryptNext s' = m_EncryptNext s ++ [xmit_bytes k ghost] /\
    OutboundMessage.m_MsgID ghost = 0 /\ OutboundMessage.m_Data ghost = [].
Proof.
  intros id ghost He Hn Hd. assert (out_wf ghost) as W.
  { split; [split; [discriminate|reflexivity]|exact Hd|apply Nat.leb_le; reflexivity]. }
  unfold HandleGeneratedHash. set (s1 := s <| m_TXMsgs ::= <[id := OutboundMessage.dflt]> |>).
  rewrite (run_bind (tx_at _) _ s OutboundMessage.dflt s1).
  2:{ unfold tx_at. rewrite (run_bind (gets _) _ s None s); [done|]. unfold gets. fold id. by rewrite Hn. }
  set (s2 := s1 <| m_TXMsgs ::= <[id := ghost]> |>). rewrite (run_bind (modify _) _ s1 tt s2) by done.
  set (s3 := s2 <| w_draws ::= S |>). rewrite (run_bind draw _ s2 (w_draws s2) s3) by done.
  rewrite (run_bind _ _ s3 _ s3 (run_lift _ _ s3 (XMIT_bytes _ _ W))).
  destruct (EncryptAndSend_established (xmit_bytes (w_draws s2) ghost) s3) as (s4 & E & Q).
  { exact He. }
  { rewrite (proj1 (xmit_parts _ _ W)). lia. }
  rewrite (run_bind _ _ s3 tt s4 E). cbn [when]. eexists _, (w_draws s2). split; [reflexivity|].
  destruct Q as (Q1 & _ & Q3 & _). cbn. rewrite Q1, Q3. repeat split. cbn. by rewrite insert_insert_eq.
Qed.

Lemma late_hash_recreates_message_witness :
  let cr := crypto_ref in let ke := keys_ref in let idn := identity_ref in let ox := oxenc_ref in
  let s := (newSession false [] None [] [] GotOutboundLIM' 1000) <| m_State := Ready |> in
  let m := message_example in
  exists s', HandleGeneratedHash m s = Ok (tt, s') /\ base.size (m_TXMsgs s') = 1%nat.
Proof.
  intros cr ke idn ox s m. destruct (late_hash_recreates_message m s) as (s' & k & H & Ht & _).
  - reflexivity.
  - reflexivity.
  - reflexivity.
  - exists s'. split; [exact H|]. rewrite Ht. reflexivity.
Defined.
