(* ===== verification/Str.v ===== *)
(** * Text helpers (llarp/util/str.hpp, llarp/util/str.cpp)

    A [std::string] or [std::string_view] is the list of its characters, as byte values.
    The search members of the standard library are the first definitions; an index they
    return is an option, and [to_size] is the [size_t] the code compares, with [npos] for
    a failed search. *)

From S2P Require Import Prelude.

Definition npos : Z := 2 ^ 64 - 1.
Definition to_size (o : option nat) : Z := match o with Some n => Z.of_nat n | None => npos end.

(** ** Searching *)
Definition starts_with (str prefix : list Z) : bool :=
  bool_decide (take (length prefix) str = prefix).

Definition ends_with (str suffix : list Z) : bool :=
  (length suffix <=? length str)%nat &&
  bool_decide (drop (length str - length suffix) str = suffix).

Definition strip_prefix (str prefix : list Z) : list Z :=
  if starts_with str prefix then drop (length prefix) str else str.

(** [str.find(d)] *)
Fixpoint find (d str : list Z) : option nat :=
  if starts_with str d then Some 0%nat
  else match str with [] => None | _ :: str => S <$> find d str end.

(** [str.find(d, pos)] *)
Definition find_from (d str : list Z) (pos : nat) : option nat :=
  if (length str <? pos)%nat then None else (fun i => (pos + i)%nat) <$> find d (drop pos str).

(** [str.rfind(d, pos)] *)
Fixpoint rfind_le (d str : list Z) (i : nat) : option nat :=
  if starts_with (drop i str) d then Some i
  else match i with O => None | S j => rfind_le d str j end.
Definition rfind (d str : list Z) (pos : nat) : option nat :=
  if (length str <? length d)%nat then None
  else rfind_le d str (Nat.min pos (length str - length d)).

(** [str.find_first_not_of(set)] and [str.find_last_not_of(set)], by a predicate. *)
Fixpoint find_first_not (p : Z -> bool) (str : list Z) : option nat :=
  match str with
  | [] => None
  | c :: str => if p c then S <$> find_first_not p str else Some 0%nat
  end.
Definition find_last_not (p : Z -> bool) (str : list Z) : option nat :=
  (fun i => (length str - 1 - i)%nat) <$> find_first_not p (rev str).

(** ** Splitting *)
Fixpoint drop_empty_back (rev_results : list (list Z)) : list (list Z) :=
  match rev_results with [] :: r => drop_empty_back r | _ => rev_results end.

(** The loop of [split]: the results so far and what is left of [str]. *)
Fixpoint split_loop (fuel : nat) (str delim : list Z) (trim : bool) (results : list (list Z))
  : list (list Z) * list Z :=
  match fuel with
  | O => (results, str)
  | S fuel =>
      match find delim str with
      | None => (results, str)
      | Some pos =>
          let results :=
            if negb trim || negb (length results =? 0)%nat || (0 <? pos)%nat
            then results ++ [take pos str] else results in
          split_loop fuel (drop (pos + length delim) str) delim trim results
      end
  end.

Definition split (str delim : list Z) (trim : bool) : list (list Z) :=
  match delim with
  | [] => map (fun c => [c]) str
  | _ =>
      let (results, str) := split_loop (S (length str)) str delim trim [] in
      if negb trim || (0 <? length str)%nat then results ++ [str]
      else rev (drop_empty_back (rev results))
  end.

(** [split_any]: on runs of any of the delimiters. *)
Definition one_of (delims : list Z) (c : Z) : bool := bool_decide (c ∈ delims).

Fixpoint split_any_loop (fuel : nat) (str delims : list Z) (trim : bool) (results : list (list Z))
  : list (list Z) * list Z :=
  match fuel with
  | O => (results, str)
  | S fuel =>
      match find_first_not (fun c => negb (one_of delims c)) str with
      | None => (results, str)
      | Some pos =>
          let results :=
            if negb trim || negb (length results =? 0)%nat || (0 <? pos)%nat
            then results ++ [take pos str] else results in
          let rest := drop (pos + 1) str in
          let str := match find_first_not (one_of delims) rest with
                     | None => []
                     | Some until => drop until rest
                     end in
          split_any_loop fuel str delims trim results
      end
  end.

Definition split_any (str delims : list Z) (trim : bool) : list (list Z) :=
  match delims with
  | [] => split str delims trim
  | _ =>
      let (results, str) := split_any_loop (S (length str)) str delims trim [] in
      if negb trim || (0 <? length str)%nat then results ++ [str]
      else rev (drop_empty_back (rev results))
  end.

Fixpoint join (delimiter : list Z) (l : list (list Z)) : list Z :=
  match l with
  | [] => []
  | [x] => x
  | x :: l => x ++ delimiter ++ join delimiter l
  end.

(** ** Trimming *)
Definition whitespace : list Z := [32; 9; 10; 13; 12; 11].
Definition simple_whitespace : list Z := [32; 9; 13; 10].

Definition TrimWhitespace (str : list Z) : list Z :=
  match find_first_not (one_of whitespace) str with
  | None => []
  | Some begin =>
      let str := drop begin str in
      match find_last_not (one_of whitespace) str with
      | Some last => take (length str - (length str - last - 1)) str
      | None => str
      end
  end.

Definition trim (s : list Z) : list Z :=
  match find_first_not (one_of simple_whitespace) s with
  | None => []
  | Some pos =>
      let s := drop pos s in
      match find_last_not (one_of simple_whitespace) s with
      | Some last => take (length s - (length s - (last + 1))) s
      | None => s
      end
  end.

(** ** Case *)

(** [std::tolower] in the C locale, on a [char] that is signed. *)
Definition tolower (c : Z) : Z := if (65 <=? c) && (c <=? 90) then c + 32 else c.
Definition as_char (b : Z) : Z := to_signed 8 b.

Fixpoint caseless_less (lhs rhs : list Z) : bool :=
  match lhs, rhs with
  | a :: lhs, b :: rhs =>
      let l := tolower (as_char a) in
      let r := tolower (as_char b) in
      if l <? r then true else if r <? l then false else caseless_less lhs rhs
  | [], _ :: _ => true
  | _, [] => false
  end.
Definition CaselessLessThan := caseless_less.

(** Membership in a [std::set] ordered by it. *)
Definition in_caseless_set (vals : list (list Z)) (str : list Z) : bool :=
  existsb (fun v => negb (CaselessLessThan v str) && negb (CaselessLessThan str v)) vals.

Definition str_no : list Z := [110; 111].
Definition str_false : list Z := [102; 97; 108; 115; 101].
Definition str_0 : list Z := [48].
Definition str_off : list Z := [111; 102; 102].
Definition str_yes : list Z := [121; 101; 115].
Definition str_true : list Z := [116; 114; 117; 101].
Definition str_1 : list Z := [49].
Definition str_on : list Z := [111; 110].

Definition IsFalseValue : list Z -> bool := in_caseless_set [str_no; str_false; str_0; str_off].
Definition IsTrueValue : list Z -> bool := in_caseless_set [str_yes; str_true; str_1; str_on].

Definition string_iequal (s1 s2 : list Z) : bool := bool_decide (map tolower s1 = map tolower s2).

Definition lowercase_ascii_string (src : list Z) : list Z :=
  map (fun ch => if (65 <=? ch) && (ch <=? 90) then ch + (97 - 65) else ch) src.

(** ** Numbers: [parse_int] for an unsigned type with the given maximum, base 10.
    [std::from_chars] takes the longest run of digits; none, or a value past the maximum,
    is an error, and so is anything after them. *)
Definition parse_int (max : Z) (str : list Z) : option Z :=
  if (0 <? length str)%nat && forallb is_digit str && (parse_digits 0 str <=? max)
  then Some (parse_digits 0 str) else None.

(** * Facts *)

(** ** Searching *)
Lemma starts_with_spec str p : starts_with str p = true <-> exists r, str = p ++ r.
Proof.
  unfold starts_with. rewrite bool_decide_eq_true. split.
  - intros E. exists (drop (length p) str). by rewrite <- E at 1; rewrite take_drop.
  - intros [r ->]. by rewrite take_app_length.
Qed.

Lemma ends_with_spec str p : ends_with str p = true <-> exists r, str = r ++ p.
Proof.
  unfold ends_with. rewrite andb_true_iff, bool_decide_eq_true, Nat.leb_le. split.
  - intros [_ E]. exists (take (length str - length p) str). by rewrite <- E at 2; rewrite take_drop.
  - intros [r ->]. rewrite length_app. split; [lia|].
    replace (length r + length p - length p)%nat with (length r) by lia. by rewrite drop_app_length.
Qed.

Lemma find_Some d str i : find d str = Some i -> exists r, str = take i str ++ d ++ r /\ (i <= length str)%nat.
Proof.
  revert i. induction str as [|c str IH]; intros i; cbn [find].
  - destruct (starts_with [] d) eqn:E; [|done]. intros [= <-]. apply starts_with_spec in E as [r Hr].
    exists r. by rewrite <- Hr.
  - destruct (starts_with (c :: str) d) eqn:E.
    + intros [= <-]. apply starts_with_spec in E as [r Hr]. exists r. split; [done|lia].
    + destruct (find d str) as [j|]; [|done]. cbn. intros [= <-]. destruct (IH j eq_refl) as (r & Hr & Hl).
      exists r. cbn. rewrite <- Hr. split; [done|lia].
Qed.

(** A search fails exactly when there is no occurrence. *)
Lemma find_None d str : find d str = None <-> forall a r, str <> a ++ d ++ r.
Proof.
  split.
  - intros E a r ->. revert E. induction a as [|c a IH]; cbn [app find].
    + destruct (d ++ r) eqn:Hd; cbn [find]; rewrite <- ?Hd;
        assert (starts_with (d ++ r) d = true) as Hs by (apply starts_with_spec; by exists r);
        rewrite ?Hd in *; by rewrite Hs.
    + destruct (starts_with _ d); [done|]. destruct (find d (a ++ d ++ r)); [done|]. by destruct IH.
  - intros H. destruct (find d str) as [i|] eqn:E; [|done]. destruct (find_Some _ _ _ E) as (r & Hr & _).
    by destruct (H _ _ Hr).
Qed.

(** ... and it finds the first one. *)
Lemma find_first d str i : find d str = Some i -> d <> [] -> find d (take i str) = None.
Proof.
  intros E Hd. apply find_None. intros a r Ha.
  assert (length a < i)%nat as Hlt.
  { assert (length (take i str) = length a + length d + length r)%nat as Hl by (rewrite Ha, !length_app; lia).
    rewrite length_take in Hl. destruct d; [done|]. cbn in Hl. lia. }
  assert (exists r', str = a ++ d ++ r') as [r' ->].
  { exists (r ++ drop i str). rewrite <- (take_drop i str) at 1. rewrite Ha, <- !app_assoc. done. }
  clear Ha r. revert i E Hlt. induction a as [|c a IH]; intros i.
  - cbn [app]. intros E Hlt. destruct d as [|x d]; [done|]. cbn [app find] in E.
    assert (starts_with (x :: d ++ r') (x :: d) = true) as Hs by (apply starts_with_spec; by exists r').
    rewrite Hs in E. injection E as <-. cbn in Hlt. lia.
  - cbn [app find]. destruct (starts_with _ d); [intros [= <-]; cbn; lia|].
    destruct (find d (a ++ d ++ r')) as [j|] eqn:Ej; [|done]. cbn. intros [= <-] Hlt. apply (IH j eq_refl). lia.
Qed.

(** A one-character delimiter. *)
Lemma find_char_None c str : c ∉ str -> find [c] str = None.
Proof. intros H. apply find_None. intros a r ->. apply H. set_solver. Qed.

Lemma find_char c a r : c ∉ a -> find [c] (a ++ c :: r) = Some (length a).
Proof.
  intros H. induction a as [|x a IH]; cbn [app find length].
  - assert (starts_with (c :: r) [c] = true) as -> by (apply starts_with_spec; by exists r). done.
  - assert (starts_with (x :: a ++ c :: r) [c] = false) as ->.
    { apply not_true_is_false. intros [r' [= -> _]]%starts_with_spec. set_solver. }
    by rewrite IH by set_solver.
Qed.

(** ** Splitting *)
Lemma split_loop_acc fuel str d acc :
  split_loop fuel str d false acc
  = (acc ++ (split_loop fuel str d false []).1, (split_loop fuel str d false []).2).
Proof.
  revert str acc. induction fuel as [|f IH]; intros str acc; cbn [split_loop]; [by rewrite app_nil_r|].
  destruct (find d str); [|by rewrite app_nil_r]. cbn [negb orb].
  rewrite IH, (IH _ ([] ++ _)). cbn. by rewrite <- app_assoc.
Qed.

Lemma split_loop_fuel f1 f2 str d acc :
  d <> [] -> (length str < f1)%nat -> (length str < f2)%nat ->
  split_loop f1 str d false acc = split_loop f2 str d false acc.
Proof.
  intros Hd. revert f2 str acc. induction f1 as [|f1 IH]; intros f2 str acc H1 H2; [lia|].
  destruct f2 as [|f2]; [lia|]. cbn [split_loop]. destruct (find d str) as [pos|] eqn:E; [|done].
  destruct (find_Some _ _ _ E) as (r & Hr & Hp). apply (f_equal length) in Hr.
  rewrite !length_app, length_take in Hr. destruct d; [done|]. cbn [length] in *.
  apply IH; rewrite length_drop; cbn [length]; lia.
Qed.

(** [split] unfolds at the first delimiter. *)
Lemma split_eq str d :
  d <> [] ->
  split str d false =
    match find d str with
    | None => [str]
    | Some pos => take pos str :: split (drop (pos + length d) str) d false
    end.
Proof.
  intros Hd. unfold split at 1. destruct d as [|x d]; [done|]. set (dl := x :: d) in *.
  cbn [split_loop]. destruct (find dl str) as [pos|] eqn:E; [|done]. cbn [negb orb].
  rewrite split_loop_acc. cbn [negb orb fst snd app].
  destruct (find_Some _ _ _ E) as (r & Hr & Hp). apply (f_equal length) in Hr.
  rewrite !length_app, length_take in Hr. change (x :: d) with dl. set (rest := drop _ _).
  assert (split rest dl false = let (results, str) := split_loop (S (length rest)) rest dl false [] in results ++ [str])
    as -> by done.
  rewrite (split_loop_fuel (length str) (S (length rest))).
  - by destruct (split_loop _ _ _ _ _).
  - done.
  - unfold rest. rewrite length_drop. unfold dl in *. cbn [length] in *. lia.
  - lia.
Qed.

Lemma split_nonempty str d : d <> [] -> split str d false <> [].
Proof. intros Hd. rewrite split_eq by done. by destruct (find d str). Qed.

Lemma split_ind (P : list Z -> Prop) d :
  d <> [] ->
  (forall str, find d str = None -> P str) ->
  (forall str pos, find d str = Some pos -> P (drop (pos + length d) str) -> P str) ->
  forall str, P str.
Proof.
  intros Hd H0 H1 str. remember (length str) as n eqn:Hn. revert str Hn.
  induction (lt_wf n) as [n _ IH]. intros str ->. destruct (find d str) as [pos|] eqn:E; [|by apply H0].
  apply (H1 _ _ E). eapply IH; [|done]. destruct (find_Some _ _ _ E) as (r & Hr & Hp).
  apply (f_equal length) in Hr. rewrite !length_app, length_take in Hr. rewrite length_drop.
  destruct d; [done|]. cbn [length] in *. lia.
Qed.

Lemma split_pieces str d : d <> [] -> Forall (fun p => find d p = None) (split str d false).
Proof.
  intros Hd. apply (split_ind (fun str => Forall _ (split str d false)) d Hd); clear str.
  - intros str E. rewrite split_eq, E by done. by repeat constructor.
  - intros str pos E IH. rewrite split_eq, E by done. constructor; [|done]. by eapply find_first.
Qed.

Lemma join_split str d : d <> [] -> join d (split str d false) = str.
Proof.
  intros Hd. apply (split_ind (fun str => join d (split str d false) = str) d Hd); clear str.
  - intros str E. by rewrite split_eq, E by done.
  - intros str pos E IH. rewrite split_eq, E by done. cbn [join].
    pose proof (split_nonempty (drop (pos + length d) str) d Hd) as Hne.
    destruct (split _ d false) as [|p l] eqn:El; [done|]. rewrite IH.
    destruct (find_Some _ _ _ E) as (r & Hr & Hp). rewrite Hr at 3. f_equal. f_equal.
    rewrite Hr, drop_app_add', drop_app_length; [done|]. rewrite length_take. lia.
Qed.

Lemma split_cons c a r : c ∉ a -> split (a ++ c :: r) [c] false = a :: split r [c] false.
Proof.
  intros H. rewrite split_eq, find_char by done. cbn [length].
  rewrite take_app_length, drop_app_add'; done.
Qed.

Lemma split_one c a : c ∉ a -> split a [c] false = [a].
Proof. intros H. by rewrite split_eq, find_char_None. Qed.

Lemma split_join_char c l :
  l <> [] -> Forall (fun p => c ∉ p) l -> split (join [c] l) [c] false = l.
Proof.
  intros Hne Hl. induction Hl as [|p l Hp Hl IH]; [done|]. destruct l as [|q l].
  - by apply split_one.
  - change (join [c] (p :: q :: l)) with (p ++ c :: join [c] (q :: l)). rewrite split_cons by done. by rewrite IH.
Qed.

(** What [trim] removes: the empty pieces at both ends. *)
Definition strip_empty (l : list (list Z)) : list (list Z) := rev (drop_empty_back (rev (drop_empty_back l))).

Lemma drop_empty_app_ne l x : x <> [] -> drop_empty_back (l ++ [x]) = drop_empty_back l ++ [x].
Proof. intros Hx. induction l as [|[|? ?] l IH]; cbn; [by destruct x|done|done]. Qed.

Lemma drop_empty_app_nil l :
  drop_empty_back (l ++ [[]]) = match drop_empty_back l with [] => [] | r => r ++ [[]] end.
Proof. induction l as [|[|? ?] l IH]; cbn; done. Qed.

Lemma split_loop_trim fuel str d acc :
  split_loop fuel str d true acc
  = (match acc with
     | [] => drop_empty_back (split_loop fuel str d false []).1
     | _ => acc ++ (split_loop fuel str d false []).1
     end, (split_loop fuel str d false []).2).
Proof.
  revert str acc. induction fuel as [|f IH]; intros str acc; cbn [split_loop].
  { destruct acc; [done|]. by rewrite app_nil_r. }
  destruct (find d str) as [pos|] eqn:Ef; [|destruct acc; [done|]; by rewrite app_nil_r].
  destruct (find_Some _ _ _ Ef) as (? & _ & Hp). cbn [negb orb]. rewrite IH, (split_loop_acc f _ _ ([] ++ _)). cbn [fst snd app].
  destruct acc as [|a acc]; cbn [length Nat.eqb negb orb].
  - destruct (Nat.ltb_spec 0 pos).
    + cbn [app]. destruct (take pos str) eqn:Et; [|done]. cbn. apply (f_equal length) in Et.
      rewrite length_take in Et. cbn in Et. lia.
    + replace pos with 0%nat by lia. done.
  - cbn [app]. by rewrite <- app_assoc.
Qed.

Lemma split_trim str d : d <> [] -> split str d true = strip_empty (split str d false).
Proof.
  intros Hd. unfold split. destruct d as [|x d]; [done|].
  rewrite split_loop_trim. destruct (split_loop _ _ _ false []) as [res rest]. cbn [fst snd negb orb].
  unfold strip_empty. destruct (Nat.ltb_spec 0 (length rest)) as [Hr|Hr].
  - assert (rest <> []) by (intros ->; cbn in Hr; lia). rewrite drop_empty_app_ne, rev_app_distr by done. cbn [rev app].
    destruct rest; [done|]. cbn [drop_empty_back]. cbn [rev]. by rewrite rev_involutive.
  - destruct rest; [|cbn in Hr; lia]. rewrite drop_empty_app_nil.
    destruct (drop_empty_back res) eqn:E; [done|]. rewrite rev_app_distr. done.
Qed.

(** For a non-empty delimiter, [split] cuts the text at every occurrence scanning from the
    left: joining the pieces with the delimiter gives the text back, no piece contains the
    delimiter, and with [trim] exactly the empty pieces at the two ends are missing. *)
Theorem split_correct (str d : list Z) :
  d <> [] ->
  join d (split str d false) = str /\
  Forall (fun p => find d p = None) (split str d false) /\
  split str d true = strip_empty (split str d false).
Proof. intros Hd. split_and!; [by apply join_split|by apply split_pieces|by apply split_trim]. Qed.

Lemma split_correct_witness :
  let str := [45; 97; 45; 45; 98; 45; 45] in
  [45] <> [] /\ split str [45] true = [[97]; []; [98]] /\ join [45] (split str [45] false) = str.
Proof.
  intros str. split; [discriminate|]. destruct (split_correct str [45]) as (H1 & _ & H3); [discriminate|].
  split; [|exact H1]. rewrite H3. reflexivity.
Defined.

(** ** Case-insensitive order *)
Definition folded (s : list Z) : list Z := map (fun c => tolower (as_char c)) s.

Lemma caseless_less_lt a b : caseless_less a b = true -> caseless_less b a = false.
Proof.
  revert b. induction a as [|x a IH]; intros [|y b]; cbn [caseless_less]; try done.
  repeat case_match; try done; try lia. apply IH.
Qed.

Lemma caseless_equiv a b :
  caseless_less a b = false /\ caseless_less b a = false <-> folded a = folded b.
Proof.
  revert b. induction a as [|x a IH]; intros [|y b]; cbn [caseless_less folded map]; try (by split; [intros []|]).
  split.
  - repeat case_match; intros [H1 H2]; try done; try lia. f_equal; [lia|]. by apply IH.
  - intros [= -> Hab]. rewrite Z.ltb_irrefl. by apply IH.
Qed.

Lemma caseless_trans a b c :
  caseless_less a b = true -> caseless_less b c = true -> caseless_less a c = true.
Proof.
  revert b c. induction a as [|x a IH]; intros [|y b] [|z c]; cbn [caseless_less]; try done.
  repeat case_match; try done; try lia. apply IH.
Qed.

Lemma folded_congr a b c :
  folded a = folded b -> caseless_less a c = caseless_less b c /\ caseless_less c a = caseless_less c b.
Proof.
  revert b c. induction a as [|x a IH]; intros [|y b] [|z c]; cbn [caseless_less folded map]; try done.
  intros [= Hxy Hab]. rewrite Hxy. destruct (IH b c Hab) as [-> ->]. done.
Qed.

(** [CaselessLessThan] is the strict weak order [std::set] requires, two texts are equivalent in it
    exactly when they are equal up to the case of ASCII letters, and so [IsTrueValue] and
    [IsFalseValue] accept exactly the case variants of their four words. *)
Theorem caseless_order (a b c s : list Z) :
  CaselessLessThan a a = false /\
  (CaselessLessThan a b = true -> CaselessLessThan b c = true -> CaselessLessThan a c = true) /\
  (CaselessLessThan a b = true \/ CaselessLessThan b a = true \/ folded a = folded b) /\
  (folded a = folded b -> CaselessLessThan a c = CaselessLessThan b c /\ CaselessLessThan c a = CaselessLessThan c b) /\
  (IsTrueValue s = true <-> folded s ∈ [str_yes; str_true; str_1; str_on]) /\
  (IsFalseValue s = true <-> folded s ∈ [str_no; str_false; str_0; str_off]).
Proof.
  assert (forall v, (negb (CaselessLessThan v s) && negb (CaselessLessThan s v)) = true <-> folded s = folded v) as Hv.
  { intros v. rewrite andb_true_iff, !negb_true_iff. rewrite <- caseless_equiv. unfold CaselessLessThan. tauto. }
  assert (forall l, in_caseless_set l s = true <-> folded s ∈ map folded l) as Hs.
  { intros l. unfold in_caseless_set. rewrite existsb_exists, list_elem_of_In, in_map_iff.
    split; intros (v & H1 & H2); exists v; [apply Hv in H2|split; [done|]; apply Hv]; done. }
  split_and!.
  - by apply (caseless_equiv a a).
  - apply caseless_trans.
  - unfold CaselessLessThan. destruct (caseless_less a b) eqn:E1; [by left|].
    destruct (caseless_less b a) eqn:E2; [by right; left|]. right; right. by apply caseless_equiv.
  - apply folded_congr.
  - apply Hs.
  - apply Hs.
Qed.

(** ** Numbers *)
Lemma parse_int_print max n : 0 <= n <= max -> parse_int max (print_dec n) = Some n.
Proof.
  intros Hn. unfold parse_int. rewrite parse_print_dec by lia.
  rewrite (proj2 (Nat.ltb_lt _ _)) by (apply print_dec_nonempty; lia).
  rewrite (proj2 (forallb_forall _ _)).
  - by rewrite (proj2 (Z.leb_le _ _)) by lia.
  - intros c Hc. assert (Forall (fun c => is_digit c = true) (print_dec n)) as H by (apply print_dec_digits; lia).
    rewrite Forall_forall in H. by apply H, list_elem_of_In.
Qed.

Lemma parse_digits_nonneg acc l : 0 <= acc -> 0 <= parse_digits acc l.
Proof.
  revert acc. induction l as [|c l IH]; intros acc Ha; cbn [parse_digits]; [done|].
  destruct (is_digit c) eqn:E; [|done]. apply IH. unfold is_digit in E. lia.
Qed.

Lemma parse_int_bound max str n : parse_int max str = Some n -> 0 <= n <= max.
Proof.
  unfold parse_int. case_match eqn:E; [|done]. intros [= <-]. apply andb_true_iff in E as [_ E%Z.leb_le].
  split; [by apply parse_digits_nonneg|done].
Qed.

(** ** Trimming *)
Lemma find_first_not_Some p s i :
  find_first_not p s = Some i ->
  exists a c r, s = a ++ c :: r /\ length a = i /\ Forall (fun x => p x = true) a /\ p c = false.
Proof.
  revert i. induction s as [|x s IH]; intros i; cbn [find_first_not]; [done|].
  destruct (p x) eqn:E.
  - destruct (find_first_not p s) as [j|]; [|done]. cbn. intros [= <-].
    destruct (IH j eq_refl) as (a & c & r & -> & <- & Ha & Hc). exists (x :: a), c, r. auto.
  - intros [= <-]. by exists [], x, s.
Qed.

Lemma find_first_not_None p s : find_first_not p s = None -> Forall (fun x => p x = true) s.
Proof.
  induction s as [|x s IH]; cbn [find_first_not]; [done|]. destruct (p x) eqn:E; [|done].
  destruct (find_first_not p s); [done|]. auto.
Qed.

Lemma find_last_not_Some p s i :
  find_last_not p s = Some i ->
  exists a c r, s = a ++ c :: r /\ length a = i /\ Forall (fun x => p x = true) r /\ p c = false.
Proof.
  unfold find_last_not. destruct (find_first_not p (rev s)) as [j|] eqn:E; [|done]. cbn. intros [= <-].
  apply find_first_not_Some in E as (a & c & r & Hs & <- & Ha & Hc).
  apply (f_equal (@rev Z)) in Hs. rewrite rev_involutive, rev_app_distr in Hs. cbn in Hs.
  rewrite <- app_assoc in Hs. cbn in Hs.
  exists (rev r), c, (rev a). split_and!; [done| |by apply Forall_rev|done].
  rewrite Hs, length_app. cbn. rewrite !length_rev. lia.
Qed.

Lemma find_last_not_app p a c r :
  p c = false -> Forall (fun x => p x = true) r -> find_last_not p (a ++ c :: r) = Some (length a).
Proof.
  intros Hc Hr. unfold find_last_not. rewrite rev_app_distr. cbn [rev]. rewrite <- app_assoc. cbn [app].
  assert (forall l, Forall (fun x => p x = true) l -> find_first_not p (l ++ c :: rev a) = Some (length l)) as H.
  { induction 1 as [|x l Hx _ IH]; cbn [app find_first_not length]; [by rewrite Hc|]. by rewrite Hx, IH. }
  rewrite H by (by apply Forall_rev). cbn. rewrite length_rev, length_app. cbn. f_equal. lia.
Qed.

(** Both trimming functions cut the longest blank prefix and suffix. *)
Definition trim_by (p : Z -> bool) (s : list Z) : list Z :=
  match find_first_not p s with
  | None => []
  | Some i => match find_last_not p s with None => [] | Some j => take (S j - i) (drop i s) end
  end.

Lemma trim_by_cases p s :
  Forall (fun x => p x = true) s /\ trim_by p s = [] \/
  exists a m b, s = a ++ m ++ b /\ trim_by p s = m /\ m <> [] /\
    Forall (fun x => p x = true) a /\ Forall (fun x => p x = true) b /\
    (forall c, head m = Some c \/ last m = Some c -> p c = false).
Proof.
  unfold trim_by. destruct (find_first_not p s) as [i|] eqn:E; [|by left; split; [apply find_first_not_None|]].
  right. apply find_first_not_Some in E as (a & c & r & -> & <- & Ha & Hc).
  destruct (find_first_not p (rev (c :: r))) as [j|] eqn:Ej.
  2:{ apply find_first_not_None in Ej. cbn in Ej. apply Forall_app in Ej as [_ Ej]. inversion Ej. congruence. }
  destruct (find_last_not p (c :: r)) as [k|] eqn:Ek; [|unfold find_last_not in Ek; by rewrite Ej in Ek].
  clear j Ej. apply find_last_not_Some in Ek as (m & d & b & Hm & Hk & Hb & Hd). rewrite Hm.
  replace (a ++ m ++ d :: b) with ((a ++ m) ++ d :: b) by (by rewrite <- app_assoc).
  rewrite find_last_not_app by done. rewrite <- app_assoc, drop_app_length.
  exists a, (m ++ [d]), b. split_and!; [by rewrite <- app_assoc| |by destruct m|done|done|].
  - rewrite length_app. replace (S (length a + length m) - length a)%nat with (length (m ++ [d])) by (rewrite length_app; cbn; lia).
    change (d :: b) with ([d] ++ b). rewrite app_assoc. by rewrite take_app_length.
  - intros x [Hx|Hx]; [|rewrite last_snoc in Hx; congruence].
    destruct m as [|y m]; cbn in *; congruence.
Qed.

Lemma trim_unfold p s :
  match find_first_not p s with
  | None => []
  | Some i => let s := drop i s in
      match find_last_not p s with Some j => take (length s - (length s - (j + 1))) s | None => s end
  end = trim_by p s.
Proof.
  unfold trim_by. destruct (find_first_not p s) as [i|] eqn:E; [|done].
  apply find_first_not_Some in E as (a & c & r & -> & <- & Ha & Hc). rewrite drop_app_length. cbn zeta.
  destruct (find_first_not p (rev (c :: r))) as [j|] eqn:Ej.
  2:{ apply find_first_not_None in Ej. cbn in Ej. apply Forall_app in Ej as [_ Ej]. inversion Ej. congruence. }
  destruct (find_last_not p (c :: r)) as [k|] eqn:Ek; [|unfold find_last_not in Ek; by rewrite Ej in Ek].
  apply find_last_not_Some in Ek as (m & d & b & Hm & <- & Hb & Hd). rewrite Hm.
  replace (a ++ m ++ d :: b) with ((a ++ m) ++ d :: b) by (by rewrite <- app_assoc).
  rewrite find_last_not_app by done. f_equal. rewrite !length_app. cbn. lia.
Qed.

Lemma trim_eq s : trim s = trim_by (one_of simple_whitespace) s.
Proof. apply trim_unfold. Qed.

Lemma TrimWhitespace_eq s : TrimWhitespace s = trim_by (one_of whitespace) s.
Proof.
  rewrite <- trim_unfold. unfold TrimWhitespace. destruct (find_first_not _ s); [|done]. cbn zeta.
  destruct (find_last_not _ _); [|done]. f_equal. lia.
Qed.
