(* ===== verification/NetInt.v ===== *)
(** * Addresses as integers (llarp/net/uint128.hpp, net_int.hpp, net_int.cpp, net_bits.hpp,
    ip.hpp, ip.cpp, llarp/util/bits.hpp)

    [uint128_t] is the pair of 64-bit halves of the source. What [huint_t] and [nuint_t]
    need of their template argument is the class [UInt]; [UIntSpec] says the operations are
    those of the integers modulo 2^width, and is proved for [uint128_t] and for the built-in
    16 and 32 bit types. Host byte order is little endian, as in the code path compiled
    without [__BIG_ENDIAN__]. *)

From S2P Require Import Prelude.

(** ** uint128_t *)
Record uint128_t := U128 { upper : Z; lower : Z }.

#[export] Instance uint128_eq_dec : EqDecision uint128_t.
Proof. solve_decision. Defined.

Module uint128.
Definition of_u64 (lower : Z) : uint128_t := U128 0 lower.

Definition band (a b : uint128_t) : uint128_t := U128 (Z.land (upper a) (upper b)) (Z.land (lower a) (lower b)).
Definition bor (a b : uint128_t) : uint128_t := U128 (Z.lor (upper a) (upper b)) (Z.lor (lower a) (lower b)).
Definition bxor (a b : uint128_t) : uint128_t := U128 (Z.lxor (upper a) (upper b)) (Z.lxor (lower a) (lower b)).
Definition bnot (a : uint128_t) : uint128_t := U128 (u64 (Z.lnot (upper a))) (u64 (Z.lnot (lower a))).
Definition to_bool (a : uint128_t) : bool := negb (lower a =? 0) || negb (upper a =? 0).

Definition to_u8 (a : uint128_t) : Z := u8 (lower a).
Definition to_u16 (a : uint128_t) : Z := u16 (lower a).
Definition to_u32 (a : uint128_t) : Z := u32 (lower a).
Definition to_u64 (a : uint128_t) : Z := lower a.

Definition eqb (a b : uint128_t) : bool := (lower a =? lower b) && (upper a =? upper b).
Definition neqb (a b : uint128_t) : bool := negb (lower a =? lower b) || negb (upper a =? upper b).
(** [std::tie(upper, lower)] compared lexicographically. *)
Definition ltb (a b : uint128_t) : bool :=
  (upper a <? upper b) || (negb (upper b <? upper a) && (lower a <? lower b)).
Definition leb (a b : uint128_t) : bool := negb (ltb b a).
Definition gtb (a b : uint128_t) : bool := ltb b a.
Definition geb (a b : uint128_t) : bool := negb (ltb a b).

Definition incr (a : uint128_t) : uint128_t :=
  let lower' := u64 (lower a + 1) in
  U128 (if lower' =? 0 then u64 (upper a + 1) else upper a) lower'.

Definition add (a b : uint128_t) : uint128_t :=
  let lower' := u64 (lower a + lower b) in
  let upper' := if lower' <? lower b then u64 (upper a + 1) else upper a in
  U128 (u64 (upper' + upper b)) lower'.

Definition sub (a b : uint128_t) : uint128_t :=
  let upper' := if lower a <? lower b then u64 (upper a - 1) else upper a in
  U128 (u64 (upper' - upper b)) (u64 (lower a - lower b)).

Definition shl (a : uint128_t) (shift : Z) : uint128_t :=
  if shift =? 0 then a
  else if shift <? 64 then
    U128 (Z.lor (u64 (Z.shiftl (upper a) shift)) (Z.shiftr (lower a) (64 - shift))) (u64 (Z.shiftl (lower a) shift))
  else if shift =? 64 then U128 (lower a) 0
  else if shift <? 128 then U128 (u64 (Z.shiftl (lower a) (shift - 64))) 0
  else U128 0 0.

Definition shr (a : uint128_t) (shift : Z) : uint128_t :=
  if shift =? 0 then a
  else if shift <? 64 then
    U128 (Z.shiftr (upper a) shift) (Z.lor (Z.shiftr (lower a) shift) (u64 (Z.shiftl (upper a) (64 - shift))))
  else if shift =? 64 then U128 0 (upper a)
  else if shift <? 128 then U128 0 (Z.shiftr (upper a) (shift - 64))
  else U128 0 0.
End uint128.

(** ** The value of a uint128_t *)
Definition u128_wf (x : uint128_t) : Prop := in_width 64 (upper x) /\ in_width 64 (lower x).
Definition u128_val (x : uint128_t) : Z := upper x * 2 ^ 64 + lower x.

Lemma testbit_high w x i : in_width w x -> w <= i -> Z.testbit x i = false.
Proof.
  intros Hx Hi. destruct (decide (w < 0)) as [Hw|Hw].
  { unfold in_width in Hx. rewrite Z.pow_neg_r in Hx by lia. lia. }
  rewrite <- (Z.mod_small x (2 ^ w)) by exact Hx. apply Z.mod_pow2_bits_high. lia.
Qed.

(** The bits of a number put together from two parts. *)
Lemma testbit_join k a r i :
  0 <= k -> in_width k r -> 0 <= i ->
  Z.testbit (a * 2 ^ k + r) i = if i <? k then Z.testbit r i else Z.testbit a (i - k).
Proof.
  intros Hk Hr Hi. destruct (Z.ltb_spec i k).
  - rewrite <- (Z.mod_pow2_bits_low (a * 2 ^ k + r) k i), Z.add_comm, Z.mod_add by lia.
    by rewrite Z.mod_small by exact Hr.
  - replace i with ((i - k) + k) at 1 by lia. rewrite <- Z.div_pow2_bits by lia. rewrite Z.add_comm, Z.div_add by lia.
    by rewrite (Z.div_small r) by exact Hr.
Qed.

Lemma in_width_bits k x : 0 <= k -> 0 <= x -> (forall i, k <= i -> Z.testbit x i = false) -> in_width k x.
Proof.
  intros Hk Hx H. split; [done|].
  destruct (decide (x = 0)) as [->|]; [lia|]. apply Z.log2_lt_pow2; [lia|].
  destruct (decide (Z.log2 x < k)); [done|]. specialize (H (Z.log2 x)). rewrite Z.bit_log2 in H by lia.
  discriminate H. lia.
Qed.

Section bitwise.
Context (op : Z -> Z -> Z) (f : bool -> bool -> bool).
Hypothesis op_spec : forall a b i, Z.testbit (op a b) i = f (Z.testbit a i) (Z.testbit b i).
Hypothesis op_nonneg : forall a b, 0 <= a -> 0 <= b -> 0 <= op a b.
Hypothesis f_false : f false false = false.

Lemma op_width k a b : 0 <= k -> in_width k a -> in_width k b -> in_width k (op a b).
Proof.
  intros Hk Ha Hb. apply in_width_bits; [done|apply op_nonneg; [apply Ha|apply Hb]|].
  intros i Hi. by rewrite op_spec, !(testbit_high k).
Qed.

Lemma op_join k a r b s :
  0 <= k -> in_width k r -> in_width k s -> op (a * 2 ^ k + r) (b * 2 ^ k + s) = op a b * 2 ^ k + op r s.
Proof.
  intros Hk Hr Hs. apply Z.bits_inj'. intros i Hi.
  rewrite op_spec, !testbit_join by (try done; by apply op_width). destruct (i <? k); by rewrite op_spec.
Qed.
End bitwise.

Lemma land_join k a r b s :
  0 <= k -> in_width k r -> in_width k s -> Z.land (a * 2 ^ k + r) (b * 2 ^ k + s) = Z.land a b * 2 ^ k + Z.land r s.
Proof. apply (op_join Z.land andb Z.land_spec); [|done]. intros. apply Z.land_nonneg. lia. Qed.
Lemma lor_join k a r b s :
  0 <= k -> in_width k r -> in_width k s -> Z.lor (a * 2 ^ k + r) (b * 2 ^ k + s) = Z.lor a b * 2 ^ k + Z.lor r s.
Proof. apply (op_join Z.lor orb Z.lor_spec); [|done]. intros. apply Z.lor_nonneg. lia. Qed.
Lemma lxor_join k a r b s :
  0 <= k -> in_width k r -> in_width k s -> Z.lxor (a * 2 ^ k + r) (b * 2 ^ k + s) = Z.lxor a b * 2 ^ k + Z.lxor r s.
Proof. apply (op_join Z.lxor xorb Z.lxor_spec); [|done]. intros. apply Z.lxor_nonneg. lia. Qed.

Lemma land_width k a b : 0 <= k -> in_width k a -> in_width k b -> in_width k (Z.land a b).
Proof. apply (op_width Z.land andb Z.land_spec); [|done]. intros. apply Z.land_nonneg. lia. Qed.
Lemma lor_width k a b : 0 <= k -> in_width k a -> in_width k b -> in_width k (Z.lor a b).
Proof. apply (op_width Z.lor orb Z.lor_spec); [|done]. intros. apply Z.lor_nonneg. lia. Qed.
Lemma lxor_width k a b : 0 <= k -> in_width k a -> in_width k b -> in_width k (Z.lxor a b).
Proof. apply (op_width Z.lxor xorb Z.lxor_spec); [|done]. intros. apply Z.lxor_nonneg. lia. Qed.

Lemma u128_bound x : u128_wf x -> in_width 128 (u128_val x).
Proof. unfold u128_wf, u128_val, in_width. destruct x. cbn. lia. Qed.

Lemma u128_inj x y : u128_wf x -> u128_wf y -> u128_val x = u128_val y -> x = y.
Proof. unfold u128_wf, u128_val, in_width. destruct x, y. cbn. intros. f_equal; lia. Qed.

Lemma lor_disjoint k a r : 0 <= k -> in_width k r -> Z.lor (a * 2 ^ k) r = a * 2 ^ k + r.
Proof.
  intros Hk Hr. pose proof (lor_join k a 0 0 r) as H. rewrite Z.lor_0_r, Z.lor_0_l, Z.add_0_r, Z.mul_0_l, Z.add_0_l in H.
  apply H; [done|split; [lia|apply Z.pow_pos_nonneg; lia]|done].
Qed.

(** A 128-bit sum, spelled over the halves. *)
Ltac halves := unfold u128_wf, u128_val, in_width, u64, wrap in *; cbn [upper lower] in *;
  change (2 ^ 128) with (2 ^ 64 * 2 ^ 64) in *; change (2 ^ 64) with 18446744073709551616 in *;
  Z.div_mod_to_equations; lia.

Lemma u128_add x y :
  u128_wf x -> u128_wf y -> u128_wf (uint128.add x y) /\ u128_val (uint128.add x y) = (u128_val x + u128_val y) mod 2 ^ 128.
Proof.
  intros Hx Hy. unfold uint128.add. destruct x as [a b], y as [c d].
  assert (u64 (b + d) = if 2 ^ 64 <=? b + d then b + d - 2 ^ 64 else b + d) as E.
  { destruct (Z.leb_spec (2 ^ 64) (b + d)); cbn in *; halves. }
  unfold u128_wf, u128_val in *. cbn [upper lower] in *. rewrite E.
  destruct (Z.leb_spec (2 ^ 64) (b + d)).
  - rewrite (proj2 (Z.ltb_lt _ _)) by (unfold in_width in *; lia). split; halves.
  - rewrite (proj2 (Z.ltb_ge _ _)) by (unfold in_width in *; lia). split; halves.
Qed.

Lemma u128_sub x y :
  u128_wf x -> u128_wf y -> u128_wf (uint128.sub x y) /\ u128_val (uint128.sub x y) = (u128_val x - u128_val y) mod 2 ^ 128.
Proof.
  intros Hx Hy. unfold uint128.sub. destruct x as [a b], y as [c d]. cbn [upper lower] in *.
  destruct (Z.ltb_spec b d); unfold u128_wf, u128_val in *; cbn [upper lower] in *; split; halves.
Qed.

Lemma u128_incr x : u128_wf x -> u128_wf (uint128.incr x) /\ u128_val (uint128.incr x) = (u128_val x + 1) mod 2 ^ 128.
Proof.
  intros Hx. unfold uint128.incr. destruct x as [a b]. cbn [upper lower] in *.
  destruct (Z.eqb_spec (u64 (b + 1)) 0); unfold u128_wf, u128_val in *; cbn [upper lower] in *; split; halves.
Qed.

Lemma u128_not x : u128_wf x -> u128_wf (uint128.bnot x) /\ u128_val (uint128.bnot x) = 2 ^ 128 - 1 - u128_val x.
Proof.
  intros Hx. destruct x as [a b]. unfold uint128.bnot, u128_wf, u128_val in *. cbn [upper lower] in *.
  unfold Z.lnot. split; halves.
Qed.

Lemma pow2_split s k : 0 <= s <= k -> 2 ^ k = 2 ^ s * 2 ^ (k - s).
Proof. intros. rewrite <- Z.pow_add_r by lia. f_equal. lia. Qed.

(** Shifting a 64-bit word left: what stays and what is carried out. *)
Lemma shiftl_parts b s :
  0 <= s <= 64 -> in_width 64 b ->
  b * 2 ^ s = (b / 2 ^ (64 - s)) * 2 ^ 64 + u64 (b * 2 ^ s) /\
  in_width s (b / 2 ^ (64 - s)) /\ exists q, u64 (b * 2 ^ s) = q * 2 ^ s /\ 0 <= q < 2 ^ (64 - s).
Proof.
  intros Hs Hb. pose proof (pow2_split s 64 Hs) as Hp. unfold u64, wrap, in_width in *. rewrite Hp in *.
  assert (0 < 2 ^ s /\ 0 < 2 ^ (64 - s)) as [H1 H2] by (split; apply Z.pow_pos_nonneg; lia).
  set (p := 2 ^ s) in *. set (q := 2 ^ (64 - s)) in *.
  rewrite (Z.mul_comm b p), Z.mul_mod_distr_l by lia.
  pose proof (Z.div_mod b q). pose proof (Z.mod_pos_bound b q). split; [nia|]. split.
  - split; [apply Z.div_pos; lia|]. apply Z.div_lt_upper_bound; lia.
  - exists (b mod q). split; [lia|lia].
Qed.

Lemma u128_shl x s :
  u128_wf x -> 0 <= s -> u128_wf (uint128.shl x s) /\ u128_val (uint128.shl x s) = (u128_val x * 2 ^ s) mod 2 ^ 128.
Proof.
  intros Hx Hs. pose proof (u128_bound x Hx) as Hv. destruct Hx as [Hu Hl]. destruct x as [a b]. cbn [upper lower] in *.
  unfold uint128.shl. cbn [upper lower].
  destruct (Z.eqb_spec s 0) as [->|]; [by rewrite Z.mul_1_r, Z.mod_small|].
  assert (2 ^ 128 = 2 ^ 64 * 2 ^ 64) as H128 by done.
  destruct (Z.ltb_spec s 64).
  - rewrite !Z.shiftl_mul_pow2, Z.shiftr_div_pow2 by lia.
    destruct (shiftl_parts a s) as (Ea & Ha & qa & Eqa & Hqa); [lia|done|].
    destruct (shiftl_parts b s) as (Eb & Hb & qb & Eqb & Hqb); [lia|done|].
    rewrite Eqa, (lor_disjoint s qa) by (done || lia). pose proof (pow2_split s 64) as Hp.
    assert (in_width 64 (u64 (b * 2 ^ s))) as Hw by (apply wrap_bound; lia).
    assert (in_width 64 (qa * 2 ^ s + b / 2 ^ (64 - s))) as Hw2.
    { unfold in_width in *. rewrite Hp by lia. nia. }
    split; [by split|]. unfold u128_val. cbn [upper lower].
    apply Z.mod_unique with (a / 2 ^ (64 - s)); [left; unfold in_width in *; lia|]. rewrite H128. lia.
  - destruct (Z.eqb_spec s 64) as [->|].
    { unfold u128_wf, u128_val. cbn [upper lower]. split; [unfold in_width in *; lia|].
      apply Z.mod_unique with a; [left; unfold in_width in *; lia|]. lia. }
    destruct (Z.ltb_spec s 128).
    + rewrite Z.shiftl_mul_pow2 by lia. unfold u128_wf, u128_val. cbn [upper lower].
      assert (in_width 64 (u64 (b * 2 ^ (s - 64)))) as Hw by (apply wrap_bound; lia).
      split; [unfold in_width in *; lia|].
      destruct (shiftl_parts b (s - 64)) as (Eb & _); [lia|done|].
      assert (2 ^ s = 2 ^ (s - 64) * 2 ^ 64) as -> by (rewrite <- Z.pow_add_r by lia; f_equal; lia).
      apply Z.mod_unique with (a * 2 ^ (s - 64) + b / 2 ^ (64 - (s - 64))); [left; unfold in_width in *; lia|].
      rewrite H128. nia.
    + unfold u128_wf, u128_val. cbn [upper lower]. split; [unfold in_width; lia|].
      assert (2 ^ s = 2 ^ (s - 128) * 2 ^ 128) as -> by (rewrite <- Z.pow_add_r by lia; f_equal; lia).
      by rewrite Z.mul_assoc, Z.mod_mul by lia.
Qed.

Lemma u128_shr x s :
  u128_wf x -> 0 <= s -> u128_wf (uint128.shr x s) /\ u128_val (uint128.shr x s) = u128_val x / 2 ^ s.
Proof.
  intros Hx Hs. pose proof (u128_bound x Hx) as Hv. destruct Hx as [Hu Hl]. destruct x as [a b]. cbn [upper lower] in *.
  unfold uint128.shr. cbn [upper lower].
  destruct (Z.eqb_spec s 0) as [->|]; [by rewrite Z.div_1_r|].
  assert (forall m c, in_width 64 c -> 0 <= m -> in_width 64 (c / 2 ^ m)) as Hdiv.
  { intros m c Hc Hm. assert (0 < 2 ^ m) by (apply Z.pow_pos_nonneg; lia). unfold in_width in *.
    split; [apply Z.div_pos; lia|]. apply Z.div_lt_upper_bound; nia. }
  destruct (Z.ltb_spec s 64).
  - rewrite Z.shiftl_mul_pow2, !Z.shiftr_div_pow2 by lia.
    destruct (shiftl_parts a (64 - s)) as (Ea & Ha & qa & Eqa & Hqa); [lia|done|].
    replace (64 - (64 - s)) with s in * by lia. pose proof (pow2_split s 64) as Hp.
    assert (0 < 2 ^ s) by (apply Z.pow_pos_nonneg; lia).
    assert (in_width (64 - s) (b / 2 ^ s)) as Hb.
    { unfold in_width in *. split; [apply Z.div_pos; lia|]. apply Z.div_lt_upper_bound; lia. }
    rewrite Eqa, Z.lor_comm, lor_disjoint by (done || lia).
    unfold u128_wf, u128_val. cbn [upper lower]. split.
    { split; [by apply Hdiv|]. unfold in_width in *. rewrite Hp by lia. nia. }
    replace (a * 2 ^ 64 + b) with (b + (a * 2 ^ (64 - s)) * 2 ^ s) by (rewrite Hp by lia; lia).
    rewrite Z.div_add by lia. lia.
  - destruct (Z.eqb_spec s 64) as [->|].
    { unfold u128_wf, u128_val. cbn [upper lower]. split; [unfold in_width in *; lia|].
      apply Z.div_unique with b; [left; unfold in_width in *; lia|]. lia. }
    unfold u128_val in Hv. cbn [upper lower] in Hv.
    assert (forall k, 0 <= k -> (a * 2 ^ 64 + b) / 2 ^ (64 + k) = a / 2 ^ k) as Hd.
    { intros k Hk. rewrite Z.pow_add_r, <- Z.div_div by lia. f_equal. symmetry.
      apply Z.div_unique with b; [left; exact Hl|lia]. }
    unfold u128_val. cbn [upper lower]. replace s with (64 + (s - 64)) by lia. rewrite Hd by lia.
    destruct (Z.ltb_spec (64 + (s - 64)) 128).
    + replace (64 + (s - 64) - 64) with (s - 64) by lia. rewrite Z.shiftr_div_pow2 by lia.
      split; [|cbn [upper lower]; lia]. split; cbn [upper lower]; [unfold in_width; lia|apply Hdiv; [done|lia]].
    + split; [split; unfold in_width; cbn; lia|]. cbn [upper lower]. symmetry. apply Z.div_small.
      unfold in_width in Hu. split; [lia|]. eapply Z.lt_le_trans; [apply Hu|]. apply Z.pow_le_mono_r; lia.
Qed.

Lemma u128_bitwise x y :
  u128_wf x -> u128_wf y ->
  (u128_wf (uint128.band x y) /\ u128_val (uint128.band x y) = Z.land (u128_val x) (u128_val y)) /\
  (u128_wf (uint128.bor x y) /\ u128_val (uint128.bor x y) = Z.lor (u128_val x) (u128_val y)) /\
  (u128_wf (uint128.bxor x y) /\ u128_val (uint128.bxor x y) = Z.lxor (u128_val x) (u128_val y)).
Proof.
  intros [Hu Hl] [Hu' Hl']. unfold u128_wf, u128_val. cbn [uint128.band uint128.bor uint128.bxor upper lower].
  rewrite land_join, lor_join, lxor_join by (done || lia).
  split; [|split]; (split; [split|done]); first [apply land_width|apply lor_width|apply lxor_width]; done || lia.
Qed.

Lemma u128_compare x y :
  u128_wf x -> u128_wf y ->
  uint128.ltb x y = (u128_val x <? u128_val y) /\ uint128.leb x y = (u128_val x <=? u128_val y) /\
  uint128.eqb x y = (u128_val x =? u128_val y) /\ uint128.neqb x y = negb (u128_val x =? u128_val y) /\
  uint128.to_bool x = negb (u128_val x =? 0) /\
  uint128.gtb x y = (u128_val y <? u128_val x) /\ uint128.geb x y = (u128_val y <=? u128_val x).
Proof.
  intros Hx Hy. unfold uint128.gtb, uint128.geb, uint128.leb, uint128.ltb, uint128.eqb, uint128.neqb, uint128.to_bool.
  destruct x as [a b], y as [c d]. unfold u128_wf, u128_val, in_width in *. cbn [upper lower] in *. lia.
Qed.

(** Conversions to narrower integers keep the low bits. *)
Lemma low_bits x k : 0 <= k <= 64 -> u128_val x mod 2 ^ k = lower x mod 2 ^ k.
Proof.
  intros Hk. unfold u128_val. replace (2 ^ 64) with (2 ^ (64 - k) * 2 ^ k) by (rewrite <- Z.pow_add_r by lia; f_equal; lia).
  rewrite Z.mul_assoc, Z.add_comm. apply Z.mod_add. apply Z.pow_nonzero; lia.
Qed.
Lemma u128_casts x :
  u128_wf x ->
  uint128.to_u8 x = u128_val x mod 2 ^ 8 /\ uint128.to_u16 x = u128_val x mod 2 ^ 16 /\
  uint128.to_u32 x = u128_val x mod 2 ^ 32 /\ uint128.to_u64 x = u128_val x mod 2 ^ 64.
Proof. intros [_ Hl]. rewrite !low_bits by lia. split_and!; try done. symmetry. by apply Z.mod_small. Qed.

(** ** What huint_t and nuint_t use of their argument *)
Class UInt (T : Type) := {
  u_lit : Z -> T;
  u_and : T -> T -> T;
  u_or : T -> T -> T;
  u_xor : T -> T -> T;
  u_not : T -> T;
  u_add : T -> T -> T;
  u_sub : T -> T -> T;
  u_shl : T -> Z -> T;
  u_inc : T -> T;
  u_lt : T -> T -> bool;
  u_eq : T -> T -> bool;
}.

(** They compute modulo [2 ^ u_width]. *)
Class UIntSpec (T : Type) {U : UInt T} := {
  u_width : Z;
  u_val : T -> Z;
  u_wf : T -> Prop;
  u_width_pos : 0 < u_width;
  u_bound x : u_wf x -> in_width u_width (u_val x);
  u_inj x y : u_wf x -> u_wf y -> u_val x = u_val y -> x = y;
  u_lit_spec v : in_width 16 v -> u_wf (u_lit v) /\ u_val (u_lit v) = v;
  u_and_spec x y : u_wf x -> u_wf y -> u_wf (u_and x y) /\ u_val (u_and x y) = Z.land (u_val x) (u_val y);
  u_or_spec x y : u_wf x -> u_wf y -> u_wf (u_or x y) /\ u_val (u_or x y) = Z.lor (u_val x) (u_val y);
  u_xor_spec x y : u_wf x -> u_wf y -> u_wf (u_xor x y) /\ u_val (u_xor x y) = Z.lxor (u_val x) (u_val y);
  u_not_spec x : u_wf x -> u_wf (u_not x) /\ u_val (u_not x) = 2 ^ u_width - 1 - u_val x;
  u_add_spec x y : u_wf x -> u_wf y -> u_wf (u_add x y) /\ u_val (u_add x y) = (u_val x + u_val y) mod 2 ^ u_width;
  u_sub_spec x y : u_wf x -> u_wf y -> u_wf (u_sub x y) /\ u_val (u_sub x y) = (u_val x - u_val y) mod 2 ^ u_width;
  u_shl_spec x s : u_wf x -> 0 <= s < u_width ->
    u_wf (u_shl x s) /\ u_val (u_shl x s) = (u_val x * 2 ^ s) mod 2 ^ u_width;
  u_inc_spec x : u_wf x -> u_wf (u_inc x) /\ u_val (u_inc x) = (u_val x + 1) mod 2 ^ u_width;
  u_lt_spec x y : u_wf x -> u_wf y -> u_lt x y = (u_val x <? u_val y);
  u_eq_spec x y : u_wf x -> u_wf y -> u_eq x y = (u_val x =? u_val y);
}.

#[export] Instance UInt_uint128 : UInt uint128_t := {|
  u_lit := uint128.of_u64; u_and := uint128.band; u_or := uint128.bor; u_xor := uint128.bxor; u_not := uint128.bnot;
  u_add := uint128.add; u_sub := uint128.sub; u_shl := uint128.shl; u_inc := uint128.incr;
  u_lt := uint128.ltb; u_eq := uint128.eqb |}.

#[export] Instance UIntSpec_uint128 : UIntSpec uint128_t.
Proof.
  refine {| u_width := 128; u_val := u128_val; u_wf := u128_wf |}; cbn.
  - done.
  - apply u128_bound.
  - apply u128_inj.
  - intros v Hv. unfold uint128.of_u64, u128_wf, u128_val, in_width in *. cbn. lia.
  - intros. by apply u128_bitwise.
  - intros. by apply u128_bitwise.
  - intros. by apply u128_bitwise.
  - apply u128_not.
  - apply u128_add.
  - apply u128_sub.
  - intros x s Hx [Hs _]. by apply u128_shl.
  - apply u128_incr.
  - intros. by apply u128_compare.
  - intros. by apply u128_compare.
Defined.

(** The built-in types of 16 and 32 bits. *)
Record uint16_t := U16 { v16 : Z }.
Record uint32_t := U32 { v32 : Z }.
#[export] Instance uint16_eq_dec : EqDecision uint16_t. Proof. solve_decision. Defined.
#[export] Instance uint32_eq_dec : EqDecision uint32_t. Proof. solve_decision. Defined.

#[export] Instance UInt_uint16 : UInt uint16_t := {|
  u_lit v := U16 v;
  u_and a b := U16 (Z.land (v16 a) (v16 b)); u_or a b := U16 (Z.lor (v16 a) (v16 b));
  u_xor a b := U16 (Z.lxor (v16 a) (v16 b)); u_not a := U16 (u16 (Z.lnot (v16 a)));
  u_add a b := U16 (u16 (v16 a + v16 b)); u_sub a b := U16 (u16 (v16 a - v16 b));
  u_shl a s := U16 (u16 (Z.shiftl (v16 a) s)); u_inc a := U16 (u16 (v16 a + 1));
  u_lt a b := v16 a <? v16 b; u_eq a b := v16 a =? v16 b |}.
#[export] Instance UInt_uint32 : UInt uint32_t := {|
  u_lit v := U32 v;
  u_and a b := U32 (Z.land (v32 a) (v32 b)); u_or a b := U32 (Z.lor (v32 a) (v32 b));
  u_xor a b := U32 (Z.lxor (v32 a) (v32 b)); u_not a := U32 (u32 (Z.lnot (v32 a)));
  u_add a b := U32 (u32 (v32 a + v32 b)); u_sub a b := U32 (u32 (v32 a - v32 b));
  u_shl a s := U32 (u32 (Z.shiftl (v32 a) s)); u_inc a := U32 (u32 (v32 a + 1));
  u_lt a b := v32 a <? v32 b; u_eq a b := v32 a =? v32 b |}.

Lemma wrap_lnot w x : 0 <= w -> in_width w x -> wrap w (Z.lnot x) = 2 ^ w - 1 - x.
Proof.
  intros Hw Hx. unfold wrap, Z.lnot, in_width in *. symmetry. apply Z.mod_unique with (-1); lia.
Qed.

Lemma wrap_shl w x k : 0 <= k -> wrap w (Z.shiftl x k) = (x * 2 ^ k) mod 2 ^ w.
Proof. intros Hk. unfold wrap. by rewrite Z.shiftl_mul_pow2. Qed.

Ltac builtin_uint :=
  intros;
  first [ done
        | by split; [first [apply land_width|apply lor_width|apply lxor_width]|]
        | by split; [apply wrap_bound|apply wrap_lnot]
        | by split; [apply wrap_bound|apply wrap_shl; lia]
        | by split; [apply wrap_bound|] ].

#[export] Instance UIntSpec_uint32 : UIntSpec uint32_t.
Proof.
  refine {| u_width := 32; u_val := v32; u_wf x := in_width 32 (v32 x) |}; try (by builtin_uint).
  - intros [x] [y] _ _. cbn. congruence.
  - intros v Hv. cbn. unfold in_width in *. lia.
Defined.
#[export] Instance UIntSpec_uint16 : UIntSpec uint16_t.
Proof.
  refine {| u_width := 16; u_val := v16; u_wf x := in_width 16 (v16 x) |}; try (by builtin_uint).
  intros [x] [y] _ _. cbn. congruence.
Defined.

(** ** Integers in host order and in network order *)
Record huint_t (T : Type) := HUInt { hval : T }.
Record nuint_t (T : Type) := NUInt { nval : T }.
Arguments HUInt {T}. Arguments hval {T}. Arguments NUInt {T}. Arguments nval {T}.
#[export] Instance huint_eq_dec {T} `{EqDecision T} : EqDecision (huint_t T). Proof. solve_decision. Defined.
#[export] Instance nuint_eq_dec {T} `{EqDecision T} : EqDecision (nuint_t T). Proof. solve_decision. Defined.

Abbreviation huint16_t := (huint_t uint16_t).
Abbreviation huint32_t := (huint_t uint32_t).
Abbreviation huint128_t := (huint_t uint128_t).
Abbreviation port_t := (nuint_t uint16_t).
Abbreviation ipv4addr_t := (nuint_t uint32_t).
Abbreviation ipv6addr_t := (nuint_t uint128_t).

Module huint.
Section ops.
Context {T : Type} {U : UInt T}.
Definition band (a x : huint_t T) : huint_t T := HUInt (u_and (hval a) (hval x)).
Definition bor (a x : huint_t T) : huint_t T := HUInt (u_or (hval a) (hval x)).
Definition sub (a x : huint_t T) : huint_t T := HUInt (u_sub (hval a) (hval x)).
Definition add (a x : huint_t T) : huint_t T := HUInt (u_add (hval a) (hval x)).
Definition bxor (a x : huint_t T) : huint_t T := HUInt (u_xor (hval a) (hval x)).
Definition bnot (a : huint_t T) : huint_t T := HUInt (u_not (hval a)).
Definition shl (a : huint_t T) (s : Z) : huint_t T := HUInt (u_shl (hval a) s).
Definition incr (a : huint_t T) : huint_t T := HUInt (u_inc (hval a)).
Definition ltb (a x : huint_t T) : bool := u_lt (hval a) (hval x).
Definition neqb (a x : huint_t T) : bool := negb (u_eq (hval a) (hval x)).
Definition eqb (a x : huint_t T) : bool := u_eq (hval a) (hval x).
End ops.
End huint.

Module nuint.
Section ops.
Context {T : Type} {U : UInt T}.
Definition band (a x : nuint_t T) : nuint_t T := NUInt (u_and (nval a) (nval x)).
Definition bor (a x : nuint_t T) : nuint_t T := NUInt (u_or (nval a) (nval x)).
Definition bxor (a x : nuint_t T) : nuint_t T := NUInt (u_xor (nval a) (nval x)).
Definition bnot (a : nuint_t T) : nuint_t T := NUInt (u_not (nval a)).
Definition neqb (a x : nuint_t T) : bool := negb (u_eq (nval a) (nval x)).
Definition eqb (a x : nuint_t T) : bool := u_eq (nval a) (nval x).
End ops.
End nuint.

(** [oxenc::big_to_host] and [host_to_big] of an [n]-byte integer, which reverse its bytes
    on a little endian host. *)
Class OxencSwap := { big_to_host : nat -> Z -> Z; host_to_big : nat -> Z -> Z }.

Definition bswap (n : nat) (v : Z) : Z := le_decode (be_encode n v).

Class OxencSwapSpec (O : OxencSwap) : Prop := {
  big_to_host_spec n v : 0 <= v < 256 ^ Z.of_nat n -> big_to_host n v = bswap n v;
  host_to_big_spec n v : 0 <= v < 256 ^ Z.of_nat n -> host_to_big n v = bswap n v;
}.
Definition oxenc_swap_ref : OxencSwap := {| big_to_host := bswap; host_to_big := bswap |}.
#[export] Instance oxenc_swap_ref_spec : OxencSwapSpec oxenc_swap_ref. Proof. by split. Qed.

(** The byte-order functions, one per type. *)
Class NetOrder (T : Type) := { to_host : T -> T; to_net : T -> T }.
Section byteorder.
Context {OS : OxencSwap}.

Definition ntoh128 (i : uint128_t) : uint128_t :=
  let loSwapped := big_to_host 8 (lower i) in
  let hiSwapped := big_to_host 8 (upper i) in
  U128 loSwapped hiSwapped.
Definition hton128 (i : uint128_t) : uint128_t := ntoh128 i.

#[export] Instance NetOrder_uint128 : NetOrder uint128_t := {| to_host := ntoh128; to_net := hton128 |}.
#[export] Instance NetOrder_uint32 : NetOrder uint32_t :=
  {| to_host x := U32 (big_to_host 4 (v32 x)); to_net x := U32 (host_to_big 4 (v32 x)) |}.
#[export] Instance NetOrder_uint16 : NetOrder uint16_t :=
  {| to_host x := U16 (big_to_host 2 (v16 x)); to_net x := U16 (host_to_big 2 (v16 x)) |}.
End byteorder.

Definition ToHost {T} {N : NetOrder T} (x : nuint_t T) : huint_t T := HUInt (to_host (nval x)).
Definition ToNet {T} {N : NetOrder T} (x : huint_t T) : nuint_t T := NUInt (to_net (hval x)).

(** ** Counting bits *)
Fixpoint popcount (w : nat) (x : Z) : Z :=
  match w with O => 0 | S w => x mod 2 + popcount w (x / 2) end.
Definition count_bits_64 (i : Z) : Z := popcount 64 i.
Definition count_bits_32 (i : Z) : Z := popcount 32 i.
Definition count_bits_128 (i : uint128_t) : Z := count_bits_64 (upper i) + count_bits_64 (lower i).

(** ** Masks and mapped addresses *)
Fixpoint netmask_ipv6_loop (left : nat) : huint128_t :=
  match left with
  | O => HUInt (u_lit 0)
  | S left' => huint.bor (huint.shl (HUInt (u_lit 1)) (u32 (128 - Z.of_nat left))) (netmask_ipv6_loop left')
  end.
Definition _netmask_ipv6_bits (numset : Z) : huint128_t := netmask_ipv6_loop (Z.to_nat (u32 (128 - numset))).
Definition detail_netmask_ipv6_bits (numset : Z) : huint128_t := _netmask_ipv6_bits (u32 (128 - numset)).

Fixpoint netmask_ipv4_loop (left : nat) : Z :=
  match left with
  | O => 0
  | S left' => Z.lor (u32 (Z.shiftl 1 (u32 (32 - Z.of_nat left)))) (netmask_ipv4_loop left')
  end.
Definition _netmask_ipv4_bits (numset : Z) : Z := netmask_ipv4_loop (Z.to_nat (u32 (32 - numset))).
Definition detail_netmask_ipv4_bits (num : Z) : huint32_t := HUInt (U32 (_netmask_ipv4_bits (u32 (32 - num)))).

Definition detail_ipaddr_ipv4_bits (a b c d : Z) : huint32_t :=
  HUInt (U32 (Z.lor (Z.lor (Z.lor d (u32 (Z.shiftl c 8))) (u32 (Z.shiftl b 16))) (u32 (Z.shiftl a 24)))).

Definition detail_ExpandV4 (x : huint32_t) : huint128_t :=
  huint.bor (HUInt (uint128.of_u64 281470681743360)) (HUInt (uint128.of_u64 (v32 (hval x)))).
Definition detail_ExpandV4Lan (x : huint32_t) : huint128_t :=
  huint.bor (HUInt (U128 18230571291595767808 0)) (HUInt (uint128.of_u64 (v32 (hval x)))).
Definition detail_TruncateV6 (x : huint128_t) : huint32_t :=
  HUInt (U32 (uint128.to_u32 (uint128.band (hval x) (uint128.of_u64 4294967295)))).

Section addresses.
Context {OS : OxencSwap}.
Definition ExpandV4 (x : ipv4addr_t) : ipv6addr_t := ToNet (detail_ExpandV4 (ToHost x)).
Definition ExpandV4Lan (x : ipv4addr_t) : ipv6addr_t := ToNet (detail_ExpandV4Lan (ToHost x)).
Definition TruncateV6 (x : ipv6addr_t) : ipv4addr_t := ToNet (detail_TruncateV6 (ToHost x)).

Definition AF_INET6 : bool := true.
Definition AF_INET : bool := false.
Definition ipaddr_netmask_bits (bits : Z) (af : bool) : ipv6addr_t :=
  if af then ToNet (detail_netmask_ipv6_bits bits) else ExpandV4 (ToNet (detail_netmask_ipv4_bits bits)).
Definition netmask_ipv6_bits (bits : Z) : ipv6addr_t := ipaddr_netmask_bits bits AF_INET6.
Definition ipaddr_ipv4_bits (a b c d : Z) : ipv4addr_t := ToNet (detail_ipaddr_ipv4_bits a b c d).

(** [In6ToHUInt] and [HUIntToIn6]: an [in6_addr] is its 16 bytes. *)
Definition In6ToHUInt (addr : list Z) : huint128_t :=
  HUInt (fold_left (fun x b => uint128.bor (uint128.shl x 8) (uint128.of_u64 b)) addr (uint128.of_u64 0)).
(** The bytes of an object of type [uint128_t] in memory. *)
Definition le_bytes (n : nat) (v : Z) : list Z := rev (be_encode n v).
Definition HUIntToIn6 (x : huint128_t) : list Z :=
  let i := ntoh128 (hval x) in le_bytes 8 (lower i) ++ le_bytes 8 (upper i).

(** [huint32_t::ToV6] and [huint128_t::ToV6] *)
Context {OX : Oxenc}.
Definition ToV6_32 (x : huint32_t) : list Z :=
  replicate 10 0 ++ [255; 255] ++ write_host_as_big 4 (v32 (hval x)).
Definition ToV6_128 (x : huint128_t) : list Z := HUIntToIn6 x.
End addresses.

(** * Byte order *)
Lemma pow256 n : 256 ^ Z.of_nat n = 2 ^ (8 * Z.of_nat n).
Proof. rewrite Z.pow_mul_r by lia. done. Qed.

Lemma be_decode_snoc l b : be_decode (l ++ [b]) = 256 * be_decode l + b.
Proof.
  induction l as [|c l IH]; cbn [app be_decode length]; [cbn; lia|].
  rewrite IH, length_app. cbn [length]. rewrite Nat.add_1_r, Nat2Z.inj_succ, Z.pow_succ_r by lia. lia.
Qed.

Lemma le_decode_rev l : le_decode (rev l) = be_decode l.
Proof.
  induction l as [|b l IH] using rev_ind; [done|]. rewrite rev_app_distr, be_decode_snoc. cbn. lia.
Qed.

Lemma be_decode_rev l : be_decode (rev l) = le_decode l.
Proof. by rewrite <- le_decode_rev, rev_involutive. Qed.

Lemma bytes_rev l : bytes l -> bytes (rev l).
Proof. apply Forall_rev. Qed.

Lemma bswap_bound n v : 0 <= bswap n v < 256 ^ Z.of_nat n.
Proof.
  unfold bswap. rewrite <- be_decode_rev. rewrite <- (length_be_encode n v) at 3. rewrite <- length_rev.
  apply be_decode_bound, bytes_rev, be_encode_bytes.
Qed.

Lemma bswap_encode n v : be_encode n (bswap n v) = rev (be_encode n v).
Proof.
  unfold bswap. rewrite <- be_decode_rev. rewrite <- (length_be_encode n v) at 1.
  rewrite <- length_rev at 1. apply be_encode_decode, bytes_rev, be_encode_bytes.
Qed.

Lemma bswap_involutive n v : 0 <= v < 256 ^ Z.of_nat n -> bswap n (bswap n v) = v.
Proof. intros Hv. unfold bswap at 1. rewrite bswap_encode, le_decode_rev. by apply be_decode_encode. Qed.

(** Reversing the bytes commutes with bitwise operations. *)
Section swap_op.
Context (op : Z -> Z -> Z) (f : bool -> bool -> bool).
Hypothesis op_spec : forall a b i, Z.testbit (op a b) i = f (Z.testbit a i) (Z.testbit b i).
Hypothesis op_nonneg : forall a b, 0 <= a -> 0 <= b -> 0 <= op a b.
Hypothesis f_false : f false false = false.

Lemma op_byte k a b :
  0 <= k -> (op a b / 2 ^ k) mod 256 = op ((a / 2 ^ k) mod 256) ((b / 2 ^ k) mod 256).
Proof.
  intros Hk. change 256 with (2 ^ 8). apply Z.bits_inj'. intros i Hi. rewrite op_spec.
  destruct (decide (i < 8)).
  - rewrite !Z.mod_pow2_bits_low, !Z.div_pow2_bits by lia. apply op_spec.
  - by rewrite !Z.mod_pow2_bits_high by lia.
Qed.

Lemma be_encode_op n a b : be_encode n (op a b) = zip_with op (be_encode n a) (be_encode n b).
Proof.
  induction n as [|n IH]; cbn [be_encode zip_with]; [done|]. rewrite IH. f_equal. rewrite !pow256.
  apply op_byte. lia.
Qed.

Lemma le_decode_op l1 l2 :
  bytes l1 -> bytes l2 -> length l1 = length l2 ->
  le_decode (zip_with op l1 l2) = op (le_decode l1) (le_decode l2).
Proof.
  intros H1. revert l2. induction H1 as [|a l1 Ha H1 IH]; intros l2 H2 Hl; destruct H2 as [|b l2 Hb H2]; try done.
  - cbn. symmetry. apply Z.bits_inj'. intros i Hi. by rewrite op_spec, !Z.bits_0.
  - cbn [zip_with le_decode]. rewrite IH by (done || by injection Hl).
    rewrite (Z.add_comm a), (Z.add_comm b), (Z.add_comm (op a b)), !(Z.mul_comm 256).
    symmetry. apply (op_join op f op_spec op_nonneg f_false 8); [lia|exact Ha|exact Hb].
Qed.

Lemma bswap_op n a b : bswap n (op a b) = op (bswap n a) (bswap n b).
Proof.
  unfold bswap. rewrite be_encode_op, le_decode_op; [done|apply be_encode_bytes..|].
  by rewrite !length_be_encode.
Qed.
End swap_op.

Lemma bswap_land n a b : bswap n (Z.land a b) = Z.land (bswap n a) (bswap n b).
Proof. apply (bswap_op _ andb Z.land_spec); [|done]. intros. apply Z.land_nonneg. lia. Qed.

Section orders.
Context {OS : OxencSwap} {OSS : OxencSwapSpec OS}.

Lemma ntoh128_wf x : u128_wf x -> u128_wf (ntoh128 x).
Proof.
  intros [Hu Hl]. unfold ntoh128, u128_wf. cbn [upper lower].
  rewrite !big_to_host_spec by (unfold in_width in *; cbn; lia).
  split; apply (bswap_bound 8).
Qed.

Lemma ntoh128_involutive x : u128_wf x -> ntoh128 (ntoh128 x) = x.
Proof.
  intros [Hu Hl]. unfold ntoh128. cbn [upper lower]. destruct x as [a b]. cbn [upper lower] in *.
  assert (forall v, in_width 64 v -> big_to_host 8 (big_to_host 8 v) = v) as H.
  { intros v Hv. rewrite (big_to_host_spec 8 v) by exact Hv. rewrite big_to_host_spec by apply (bswap_bound 8).
    by apply bswap_involutive. }
  by rewrite !H.
Qed.

Lemma ntoh128_band x y : u128_wf x -> u128_wf y -> ntoh128 (uint128.band x y) = uint128.band (ntoh128 x) (ntoh128 y).
Proof.
  intros [Hu Hl] [Hu' Hl']. unfold ntoh128, uint128.band. cbn [upper lower].
  rewrite !big_to_host_spec by (first [done | by apply (land_width 64)]). by rewrite !bswap_land.
Qed.

(** An address is in network order when its host order image is a valid 128-bit integer. *)
Definition n_wf (a : ipv6addr_t) : Prop := u128_wf (nval a).
Definition haddr (a : ipv6addr_t) : Z := u128_val (hval (ToHost a)).
Definition h_wf (x : huint128_t) : Prop := u128_wf (hval x).

Lemma haddr_bound a : n_wf a -> in_width 128 (haddr a).
Proof. intros Ha. by apply u128_bound, ntoh128_wf. Qed.
Lemma haddr_inj a b : n_wf a -> n_wf b -> haddr a = haddr b -> a = b.
Proof.
  destruct a as [a], b as [b]. unfold n_wf, haddr. cbn [nval hval ToHost to_host NetOrder_uint128]. intros Ha Hb E.
  apply u128_inj in E; [|by apply ntoh128_wf..]. f_equal.
  by rewrite <- (ntoh128_involutive a), <- (ntoh128_involutive b), E by done.
Qed.
Lemma haddr_ToNet x : h_wf x -> n_wf (ToNet x) /\ haddr (ToNet x) = u128_val (hval x).
Proof.
  intros Hx. split; [by apply ntoh128_wf|]. unfold haddr, ToHost, ToNet. cbn [nval hval to_host to_net NetOrder_uint128].
  unfold hton128. by rewrite ntoh128_involutive.
Qed.
Lemma haddr_band a b :
  n_wf a -> n_wf b -> n_wf (nuint.band a b) /\ haddr (nuint.band a b) = Z.land (haddr a) (haddr b).
Proof.
  intros Ha Hb. split; [by apply (u128_bitwise (nval a) (nval b))|].
  unfold haddr, nuint.band, ToHost. cbn [nval hval to_host NetOrder_uint128 u_and UInt_uint128].
  rewrite ntoh128_band by done. by apply u128_bitwise; apply ntoh128_wf.
Qed.
Lemma nuint_eqb_spec (a b : ipv6addr_t) : n_wf a -> n_wf b -> nuint.eqb a b = (haddr a =? haddr b).
Proof.
  intros Ha Hb. unfold nuint.eqb. change (u_eq (nval a) (nval b)) with (uint128.eqb (nval a) (nval b)).
  destruct (u128_compare _ _ Ha Hb) as (_ & _ & -> & _).
  apply Bool.eq_iff_eq_true. rewrite !Z.eqb_eq. split.
  - intros E. apply u128_inj in E; [|done..]. unfold haddr, ToHost. by rewrite E.
  - intros E%haddr_inj; [|done..]. by rewrite E.
Qed.
End orders.

(** * Counting bits *)
Lemma popcount_join k m a r :
  0 <= a -> in_width (Z.of_nat k) r -> popcount (k + m) (a * 2 ^ Z.of_nat k + r) = popcount k r + popcount m a.
Proof.
  intros Ha. revert r. induction k as [|k IH]; intros r Hr.
  - unfold in_width in Hr. cbn in Hr. assert (r = 0) as -> by lia. cbn [popcount Nat.add Z.of_nat]. by rewrite Z.mul_1_r, !Z.add_0_r.
  - cbn [Nat.add popcount]. unfold in_width in Hr. rewrite Nat2Z.inj_succ, Z.pow_succ_r in * by lia.
    assert ((a * (2 * 2 ^ Z.of_nat k) + r) mod 2 = r mod 2) as ->.
    { rewrite Z.add_comm. replace (a * (2 * 2 ^ Z.of_nat k)) with ((a * 2 ^ Z.of_nat k) * 2) by lia. apply Z.mod_add. lia. }
    assert ((a * (2 * 2 ^ Z.of_nat k) + r) / 2 = a * 2 ^ Z.of_nat k + r / 2) as ->.
    { rewrite Z.add_comm. replace (a * (2 * 2 ^ Z.of_nat k)) with ((a * 2 ^ Z.of_nat k) * 2) by lia. rewrite Z.div_add by lia. lia. }
    rewrite IH; [lia|]. unfold in_width. split; [apply Z.div_pos; lia|]. apply Z.div_lt_upper_bound; lia.
Qed.

Lemma popcount_0 w : popcount w 0 = 0.
Proof. induction w as [|w IH]; [done|]. cbn [popcount]. change (0 / 2) with 0. by rewrite IH. Qed.

Lemma popcount_ones w : popcount w (2 ^ Z.of_nat w - 1) = Z.of_nat w.
Proof.
  induction w as [|w IH]; [done|]. cbn [popcount]. rewrite Nat2Z.inj_succ, Z.pow_succ_r by lia.
  assert (0 < 2 ^ Z.of_nat w) by (apply Z.pow_pos_nonneg; lia).
  replace (2 * 2 ^ Z.of_nat w - 1) with (1 + (2 ^ Z.of_nat w - 1) * 2) by lia.
  rewrite Z.mod_add, Z.div_add by lia. change (1 / 2) with 0. rewrite Z.add_0_l, IH. change (1 mod 2) with 1. lia.
Qed.

(** ... does not see the order of bytes. *)
Definition byte_sum (l : list Z) : Z := foldr (fun b s => popcount 8 b + s) 0 l.
Lemma popcount_le l : bytes l -> popcount (8 * length l) (le_decode l) = byte_sum l.
Proof.
  induction 1 as [|b l Hb Hl IH]; [done|]. cbn [length le_decode byte_sum foldr].
  replace (8 * S (length l))%nat with (8 + 8 * length l)%nat by lia.
  replace (b + 256 * le_decode l) with (le_decode l * 2 ^ Z.of_nat 8 + b) by (change (2 ^ Z.of_nat 8) with 256; lia).
  rewrite popcount_join; [by rewrite IH| |exact Hb].
  rewrite <- be_decode_rev. by apply be_decode_bound, bytes_rev.
Qed.
Lemma byte_sum_cons b l : byte_sum (b :: l) = popcount 8 b + byte_sum l.
Proof. done. Qed.
Lemma byte_sum_app a b : byte_sum (a ++ b) = byte_sum a + byte_sum b.
Proof. induction a as [|x a IH]; [done|]. cbn [app]. rewrite !byte_sum_cons, IH. lia. Qed.
Lemma byte_sum_rev l : byte_sum (rev l) = byte_sum l.
Proof. induction l as [|b l IH]; [done|]. cbn [rev]. rewrite byte_sum_app, IH, !byte_sum_cons. change (byte_sum []) with 0. lia. Qed.

Lemma popcount_bswap n v : 0 <= v < 256 ^ Z.of_nat n -> popcount (8 * n) (bswap n v) = popcount (8 * n) v.
Proof.
  intros Hv. pose proof (be_encode_bytes n v) as Hb. pose proof (length_be_encode n v) as Hl.
  unfold bswap. rewrite <- Hl at 1. rewrite popcount_le by done.
  transitivity (popcount (8 * length (rev (be_encode n v))) (le_decode (rev (be_encode n v)))).
  - rewrite popcount_le by (by apply bytes_rev). by rewrite byte_sum_rev.
  - by rewrite length_rev, Hl, le_decode_rev, be_decode_encode.
Qed.

Lemma count_bits_val x : u128_wf x -> count_bits_128 x = popcount 128 (u128_val x).
Proof.
  intros [Hu Hl]. unfold count_bits_128, count_bits_64, u128_val. change 128%nat with (64 + 64)%nat.
  change (2 ^ 64) with (2 ^ Z.of_nat 64). rewrite popcount_join; [lia|apply Hu|exact Hl].
Qed.

Lemma count_bits_ntoh {OS : OxencSwap} {OSS : OxencSwapSpec OS} x :
  u128_wf x -> count_bits_128 (ntoh128 x) = count_bits_128 x.
Proof.
  intros [Hu Hl]. unfold count_bits_128, ntoh128, count_bits_64. cbn [upper lower].
  rewrite !big_to_host_spec by done. change 64%nat with (8 * 8)%nat. rewrite !popcount_bswap by done. lia.
Qed.

(** * Masks *)
Lemma netmask_loop_spec left :
  (left <= 128)%nat ->
  h_wf (netmask_ipv6_loop left) /\ u128_val (hval (netmask_ipv6_loop left)) = 2 ^ 128 - 2 ^ (128 - Z.of_nat left).
Proof.
  induction left as [|l IH]; intros Hl.
  { split; [by repeat split|]. done. }
  destruct IH as [Hw Hv]; [lia|]. cbn [netmask_ipv6_loop].
  set (k := 128 - Z.of_nat (S l)). assert (0 <= k < 128) as Hk by lia.
  replace (u32 k) with k by (symmetry; apply wrap_id; unfold in_width; lia).
  destruct (u128_shl (uint128.of_u64 1) k) as [Sw Sv]; [by repeat split|lia|].
  change (u128_val (uint128.of_u64 1)) with 1 in Sv. rewrite Z.mul_1_l in Sv.
  assert (in_width 128 (2 ^ k)) as Hpw.
  { split; [apply Z.pow_nonneg; lia|]. apply Z.pow_lt_mono_r; lia. }
  rewrite Z.mod_small in Sv by exact Hpw.
  change (hval (huint.bor ?a ?b)) with (uint128.bor (hval a) (hval b)).
  change (hval (huint.shl _ k)) with (uint128.shl (uint128.of_u64 1) k).
  destruct (u128_bitwise (uint128.shl (uint128.of_u64 1) k) (hval (netmask_ipv6_loop l)) Sw Hw) as (_ & [Bw Bv] & _).
  split; [exact Bw|]. rewrite Bv, Sv, Hv. replace (128 - Z.of_nat l) with (k + 1) by lia.
  replace (2 ^ 128 - 2 ^ (k + 1)) with ((2 ^ (127 - k) - 1) * 2 ^ (k + 1)).
  2:{ rewrite Z.mul_sub_distr_r, <- Z.pow_add_r by lia. rewrite Z.mul_1_l. do 2 f_equal. lia. }
  rewrite Z.lor_comm, lor_disjoint; [|lia|].
  - rewrite Z.mul_sub_distr_r, <- Z.pow_add_r, Z.mul_1_l by lia.
    replace (127 - k + (k + 1)) with 128 by lia. rewrite (Z.pow_add_r 2 k 1) by lia. lia.
  - split; [apply Hpw|]. apply Z.pow_lt_mono_r; lia.
Qed.

Lemma detail_netmask_spec b :
  0 <= b <= 128 ->
  h_wf (detail_netmask_ipv6_bits b) /\ u128_val (hval (detail_netmask_ipv6_bits b)) = 2 ^ 128 - 2 ^ (128 - b).
Proof.
  intros Hb. unfold detail_netmask_ipv6_bits, _netmask_ipv6_bits.
  assert (u32 (128 - u32 (128 - b)) = b) as ->.
  { rewrite (wrap_id 32 (128 - b)), wrap_id by (unfold in_width; lia). lia. }
  destruct (netmask_loop_spec (Z.to_nat b)) as [Hw Hv]; [lia|]. rewrite Z2Nat.id in Hv by lia. done.
Qed.

Lemma popcount_mask b : 0 <= b <= 128 -> popcount 128 (2 ^ 128 - 2 ^ (128 - b)) = b.
Proof.
  intros Hb. replace (2 ^ 128 - 2 ^ (128 - b)) with ((2 ^ b - 1) * 2 ^ (128 - b) + 0).
  2:{ rewrite Z.mul_sub_distr_r, <- Z.pow_add_r, Z.mul_1_l by lia. replace (b + (128 - b)) with 128 by lia. lia. }
  replace 128%nat with (Z.to_nat (128 - b) + Z.to_nat b)%nat by lia.
  pose proof (popcount_join (Z.to_nat (128 - b)) (Z.to_nat b) (2 ^ b - 1) 0) as H.
  rewrite Z2Nat.id in H by lia. rewrite H.
  - rewrite popcount_0. rewrite <- (Z2Nat.id b) at 2 by lia. rewrite popcount_ones. lia.
  - assert (0 < 2 ^ b) by (apply Z.pow_pos_nonneg; lia). lia.
  - split; [lia|]. apply Z.pow_pos_nonneg; lia.
Qed.

Section masks.
Context {OS : OxencSwap} {OSS : OxencSwapSpec OS}.

Lemma netmask_spec b :
  0 <= b <= 128 ->
  n_wf (netmask_ipv6_bits b) /\ haddr (netmask_ipv6_bits b) = 2 ^ 128 - 2 ^ (128 - b) /\
  count_bits_128 (nval (netmask_ipv6_bits b)) = b.
Proof.
  intros Hb. destruct (detail_netmask_spec b Hb) as [Hw Hv]. destruct (haddr_ToNet _ Hw) as [Nw Nv].
  unfold netmask_ipv6_bits, ipaddr_netmask_bits, AF_INET6. split; [done|]. rewrite Nv, Hv. split; [done|].
  cbn [ToNet nval to_net NetOrder_uint128]. unfold hton128. rewrite count_bits_ntoh, count_bits_val, Hv by done.
  by apply popcount_mask.
Qed.

(** ** Mapped addresses *)
Definition n4_wf (a : ipv4addr_t) : Prop := in_width 32 (v32 (nval a)).
Definition haddr4 (a : ipv4addr_t) : Z := v32 (hval (ToHost a)).

Lemma haddr4_bound a : n4_wf a -> in_width 32 (haddr4 a).
Proof.
  intros Ha. unfold haddr4, ToHost. cbn [hval to_host NetOrder_uint32 v32]. rewrite big_to_host_spec by exact Ha.
  apply (bswap_bound 4).
Qed.
Lemma haddr4_ToNet x : in_width 32 (v32 (hval x)) -> n4_wf (ToNet x) /\ haddr4 (ToNet x) = v32 (hval x).
Proof.
  intros Hx. unfold n4_wf, haddr4, ToHost, ToNet. cbn [nval hval to_host to_net NetOrder_uint32 v32].
  rewrite host_to_big_spec by exact Hx. pose proof (bswap_bound 4 (v32 (hval x))) as Hb.
  rewrite big_to_host_spec by exact Hb. split; [exact Hb|]. by apply bswap_involutive.
Qed.
Lemma haddr4_inj a b : n4_wf a -> n4_wf b -> haddr4 a = haddr4 b -> a = b.
Proof.
  destruct a as [[a]], b as [[b]]. unfold n4_wf, haddr4, ToHost. cbn [nval hval to_host NetOrder_uint32 v32].
  intros Ha Hb. rewrite !big_to_host_spec by done. intros E.
  by rewrite <- (bswap_involutive 4 a), <- (bswap_involutive 4 b), E by done.
Qed.

(** [::ffff:a.b.c.d] *)
Lemma ExpandV4_spec a : n4_wf a -> n_wf (ExpandV4 a) /\ haddr (ExpandV4 a) = 65535 * 2 ^ 32 + haddr4 a.
Proof.
  intros Ha. pose proof (haddr4_bound a Ha) as Hb. unfold ExpandV4.
  set (x := detail_ExpandV4 (ToHost a)).
  assert (h_wf x /\ u128_val (hval x) = 65535 * 2 ^ 32 + haddr4 a) as [Hw Hv].
  { unfold x, detail_ExpandV4. change (v32 (hval (ToHost a))) with (haddr4 a).
    change (hval (huint.bor ?p ?q)) with (uint128.bor (hval p) (hval q)). cbn [hval].
    destruct (u128_bitwise (uint128.of_u64 281470681743360) (uint128.of_u64 (haddr4 a))) as (_ & [Bw Bv] & _);
      [unfold u128_wf, in_width in *; cbn [upper lower uint128.of_u64]; lia..|].
    split; [exact Bw|]. rewrite Bv. change (u128_val (uint128.of_u64 281470681743360)) with (65535 * 2 ^ 32).
    change (u128_val (uint128.of_u64 (haddr4 a))) with (haddr4 a). apply lor_disjoint; [lia|done]. }
  destruct (haddr_ToNet x Hw) as [Nw Nv]. by rewrite Nv.
Qed.

Lemma TruncateV6_spec a : n_wf a -> n4_wf (TruncateV6 a) /\ haddr4 (TruncateV6 a) = haddr a mod 2 ^ 32.
Proof.
  intros Ha. unfold TruncateV6. pose proof (ntoh128_wf _ Ha) as Hw.
  assert (v32 (hval (detail_TruncateV6 (ToHost a))) = haddr a mod 2 ^ 32) as Hv.
  { unfold detail_TruncateV6. cbn [hval v32 ToHost to_host NetOrder_uint128]. unfold uint128.to_u32.
    destruct (u128_bitwise (ntoh128 (nval a)) (uint128.of_u64 4294967295)) as ([Bw Bv] & _); [done|by repeat split|].
    unfold haddr. cbn [hval ToHost to_host NetOrder_uint128].
    change (u128_val (uint128.of_u64 4294967295)) with (Z.ones 32) in Bv. rewrite Z.land_ones in Bv by lia.
    set (y := uint128.band _ _) in *. assert (upper y = 0) as Hy by apply Z.land_0_r.
    unfold u128_val at 1 in Bv. rewrite Hy, Z.mul_0_l, Z.add_0_l in Bv. rewrite Bv. apply wrap_id.
    apply Z.mod_pos_bound. lia. }
  rewrite <- Hv. apply haddr4_ToNet. rewrite Hv. apply Z.mod_pos_bound. lia.
Qed.

Lemma Truncate_Expand a : n4_wf a -> TruncateV6 (ExpandV4 a) = a.
Proof.
  intros Ha. destruct (ExpandV4_spec a Ha) as [Ew Ev]. destruct (TruncateV6_spec _ Ew) as [Tw Tv].
  apply haddr4_inj; [done..|]. rewrite Tv, Ev, Z.add_comm, Z.mod_add by lia.
  by apply Z.mod_small, haddr4_bound.
Qed.
End masks.



(** ** in6_addr *)
Section in6.
Context {OS : OxencSwap} {OSS : OxencSwapSpec OS}.

Lemma be_encode_app n m a b :
  0 <= b < 256 ^ Z.of_nat m -> be_encode (n + m) (a * 256 ^ Z.of_nat m + b) = be_encode n a ++ be_encode m b.
Proof.
  intros Hb. assert (0 < 256 ^ Z.of_nat m) by (apply Z.pow_pos_nonneg; lia).
  induction n as [|n IH]; cbn [Nat.add be_encode app].
  - rewrite <- (be_encode_mod m m) by done. rewrite Z.add_comm, Z.mod_add by lia. by rewrite Z.mod_small.
  - rewrite IH. f_equal. rewrite Nat2Z.inj_add, Z.add_comm, Z.pow_add_r, (Z.mul_comm (256 ^ Z.of_nat n)), <- Z.div_div by lia.
    by rewrite Z.add_comm, Z.div_add_l, (Z.div_small b), Z.add_0_r by lia.
Qed.

Lemma HUIntToIn6_bytes x : h_wf x -> HUIntToIn6 x = be_encode 16 (u128_val (hval x)).
Proof.
  intros [Hu Hl]. unfold HUIntToIn6, le_bytes, ntoh128. cbn [upper lower].
  rewrite !big_to_host_spec by done. rewrite !bswap_encode, !rev_involutive.
  unfold u128_val. change (2 ^ 64) with (256 ^ Z.of_nat 8). symmetry. apply (be_encode_app 8 8). exact Hl.
Qed.

Lemma In6ToHUInt_loop l x :
  bytes l -> u128_wf x -> (u128_val x + 1) * 256 ^ Z.of_nat (length l) <= 2 ^ 128 ->
  let r := fold_left (fun x b => uint128.bor (uint128.shl x 8) (uint128.of_u64 b)) l x in
  u128_wf r /\ u128_val r = u128_val x * 256 ^ Z.of_nat (length l) + be_decode l.
Proof.
  intros Hl. revert x. induction Hl as [|b l Hb Hl IH]; intros x Hx Hv; cbn [fold_left be_decode length] in *.
  { split; [done|]. cbn. lia. }
  pose proof (u128_bound x Hx) as [H0 _]. rewrite Nat2Z.inj_succ, Z.pow_succ_r in * by lia.
  assert (0 < 256 ^ Z.of_nat (length l)) by (apply Z.pow_pos_nonneg; lia).
  destruct (u128_shl x 8 Hx) as [Sw Sv]; [lia|]. rewrite Z.mod_small in Sv by (change (2 ^ 8) with 256; split; nia).
  assert (u128_wf (uint128.of_u64 b)) as Bw.
  { unfold is_byte in Hb. unfold u128_wf, in_width, uint128.of_u64. cbn. lia. }
  destruct (u128_bitwise _ _ Sw Bw) as (_ & [Ow Ov] & _). rewrite Sv in Ov.
  change (u128_val (uint128.of_u64 b)) with b in Ov. rewrite lor_disjoint in Ov; [|lia|exact Hb].
  change (2 ^ 8) with 256 in *. unfold is_byte in Hb.
  destruct (IH _ Ow) as [Rw Rv]; [rewrite Ov; nia|]. split; [done|]. rewrite Rv, Ov. lia.
Qed.
End in6.

(** Byte order and address conversions lose nothing: [ToNet] and [ToHost] are inverse, the
    bytes of an [in6_addr] are the big endian image of the integer and convert back to it,
    and the IPv4 address inside a mapped address is recovered. *)
Theorem address_conversions {OS : OxencSwap} {OSS : OxencSwapSpec OS} (x : huint128_t) (a : ipv6addr_t) (v4 : ipv4addr_t) :
  h_wf x -> n_wf a -> n4_wf v4 ->
  ToHost (ToNet x) = x /\ ToNet (ToHost a) = a /\
  HUIntToIn6 x = be_encode 16 (u128_val (hval x)) /\ In6ToHUInt (HUIntToIn6 x) = x /\
  TruncateV6 (ExpandV4 v4) = v4 /\ haddr (ExpandV4 v4) = 65535 * 2 ^ 32 + haddr4 v4.
Proof.
  intros Hx Ha Hv. split_and!.
  - destruct x. unfold ToHost, ToNet. cbn. f_equal. by apply ntoh128_involutive.
  - destruct a. unfold ToHost, ToNet. cbn. f_equal. by apply ntoh128_involutive.
  - by apply HUIntToIn6_bytes.
  - rewrite HUIntToIn6_bytes by done. destruct x as [x]. unfold In6ToHUInt. f_equal. cbn [hval].
    pose proof (u128_bound x Hx) as Hb. pose proof (length_be_encode 16 (u128_val x)) as Hl.
    destruct (In6ToHUInt_loop (be_encode 16 (u128_val x)) (uint128.of_u64 0)) as [Rw Rv];
      [apply be_encode_bytes|by repeat split|by rewrite Hl|].
    apply u128_inj; [done..|]. rewrite Rv. change (u128_val (uint128.of_u64 0)) with 0.
    rewrite Z.mul_0_l, Z.add_0_l. by apply be_decode_encode.
  - by apply Truncate_Expand.
  - by apply ExpandV4_spec.
Qed.

Lemma address_conversions_witness :
  let os := oxenc_swap_ref in
  let v4 := ipaddr_ipv4_bits 10 1 2 3 in
  let x := HUInt (U128 (253 * 2 ^ 56) 1) in
  In6ToHUInt (HUIntToIn6 x) = x /\ TruncateV6 (ExpandV4 v4) = v4 /\ haddr4 v4 = 167838211.
Proof.
  intros os v4 x. destruct (address_conversions x (ToNet x) v4) as (_ & _ & _ & H1 & H2 & _).
  - by repeat split.
  - vm_compute. repeat split; discriminate.
  - vm_compute. split; [discriminate|reflexivity].
  - split; [exact H1|]. split; [exact H2|]. reflexivity.
Defined.
