(* ===== verification/IpRange.v ===== *)
(** * Address ranges (llarp/net/ip_range.hpp, ip_range.cpp, ip_range_map.hpp, bogon_ranges.hpp
    and the address predicates of net.hpp)

    A range is an address and a mask, both 128-bit integers in network order; IPv4 lives
    at ::ffff:0:0/96. [inet_pton], a function of the system library, is a parameter. *)

From S2P Require Import Prelude Bencode Str NetInt.

(** ** The system library *)
Class InetPton := {
  inet_pton4 : list Z -> option Z;  (** the [uint32_t] stored, in network order *)
  inet_pton6 : list Z -> option uint128_t;  (** the 16 bytes stored, seen as a [uint128_t] *)
}.
Class InetPtonSpec (P : InetPton) : Prop := {
  inet_pton4_spec s v : inet_pton4 s = Some v -> in_width 32 v;
  inet_pton6_spec s v : inet_pton6 s = Some v -> u128_wf v;
}.

(** [std::stoi(str)] *)
Definition stoi (str : list Z) : res Z :=
  let s := skip_space str in
  let (neg, ds) := match s with
                   | c :: r => if c =? 45 then (true, r) else if c =? 43 then (false, r) else (false, s)
                   | [] => (false, [])
                   end in
  match ds with
  | c :: _ =>
      if is_digit c then
        let v := if neg then - parse_digits 0 ds else parse_digits 0 ds in
        if (- 2 ^ 31 <=? v) && (v <? 2 ^ 31) then Ok v else Throw
      else Throw
  | [] => Throw
  end.

(** [str.c_str()], as a C string *)
Fixpoint c_str (s : list Z) : list Z :=
  match s with [] => [] | c :: r => if c =? 0 then [] else c :: c_str r end.

Record IPRange := MkRange { addr : ipv6addr_t; netmask_bits : ipv6addr_t }.
#[export] Instance IPRange_eq_dec : EqDecision IPRange. Proof. solve_decision. Defined.

(** [net::ipaddr_t] *)
Inductive ipaddr_t := V4 (a : ipv4addr_t) | V6 (a : ipv6addr_t).

Section ranges.
Context {OS : OxencSwap}.
Implicit Types r other : IPRange.

Definition Contains r (ip : ipv6addr_t) : bool :=
  nuint.eqb (nuint.band (addr r) (netmask_bits r)) (nuint.band ip (netmask_bits r)).

Definition V4MappedRange : IPRange :=
  MkRange (ToNet (HUInt (uint128.of_u64 281470681743360))) (netmask_ipv6_bits 96).

Definition FromIPv4 (a b c d mask : Z) : IPRange :=
  MkRange (ExpandV4 (ipaddr_ipv4_bits a b c d)) (netmask_ipv6_bits (mask + 96)).
Definition FromIPv4_mask (a netmask : ipv4addr_t) : IPRange :=
  MkRange (ExpandV4 a) (netmask_ipv6_bits (count_bits_32 (v32 (nval netmask)) + 96)).

Definition IsV4 r : bool := Contains V4MappedRange (addr r).
Definition Family r : bool := if IsV4 r then AF_INET else AF_INET6.

Definition HostmaskBits r : Z :=
  if IsV4 r then count_bits_32 (v32 (nval (TruncateV6 (netmask_bits r))))
  else count_bits_128 (nval (netmask_bits r)).

Definition HighestAddr r : ipv6addr_t :=
  ToNet (huint.sub
    (huint.add (ToHost (nuint.band (addr r) (netmask_bits r)))
       (huint.shl (HUInt (u_lit 1)) (128 - count_bits_128 (nval (netmask_bits r)))))
    (HUInt (u_lit 1))).

Definition Contains_range r other : bool := Contains r (addr other) && Contains r (HighestAddr other).

(** [operator*] *)
Definition intersects r other : bool := Contains_range r other || Contains_range other r.

Definition Contains_v4 r (ip : ipv4addr_t) : bool :=
  if negb (IsV4 r) then false else Contains r (ExpandV4 ip).
Definition Contains_ip r (ip : ipaddr_t) : bool :=
  match ip with V4 ip => Contains_v4 r ip | V6 ip => Contains r ip end.

Definition BaseAddr r : ipaddr_t :=
  if IsV4 r then V4 (ToNet (huint.add (ToHost (TruncateV6 (addr r))) (HUInt (u_lit 1))))
  else V6 (ToNet (huint.add (ToHost (addr r)) (HUInt (u_lit 1)))).

(** [operator<] *)
Definition range_lt r other : bool :=
  let maskedA := ToHost (nuint.band (addr r) (netmask_bits r)) in
  let maskedB := ToHost (nuint.band (addr other) (netmask_bits other)) in
  let h_net_bits := ToHost (netmask_bits r) in
  let h_other_bits := ToHost (netmask_bits other) in
  huint.ltb maskedA maskedB || (negb (huint.ltb maskedB maskedA) && huint.ltb h_net_bits h_other_bits).

Definition range_eqb r other : bool :=
  nuint.eqb (addr r) (addr other) && nuint.eqb (netmask_bits r) (netmask_bits other).

(** ** Parsing *)
Context {IP : InetPton}.

(** [ntohl] on a little endian host *)
Definition ntohl (v : Z) : Z := bswap 4 v.
Definition huint32_FromString (str : list Z) : option huint32_t :=
  (fun v => HUInt (U32 (ntohl v))) <$> inet_pton4 (c_str str).
Definition huint128_FromString (str : list Z) : option huint128_t :=
  (fun i => HUInt (ntoh128 i)) <$> inet_pton6 (c_str str).
Definition nuint_FromString {T} {N : NetOrder T} (from : list Z -> option (huint_t T)) (data : list Z)
  : option (nuint_t T) := ToNet <$> from data.

Definition chr_slash : Z := 47.
Definition FromString (str : list Z) : res (option IPRange) :=
  let colinpos := find [chr_colon] str in
  let slashpos := find [chr_slash] str in
  let (bitsstr, str) := match slashpos with
                        | Some p => (drop (p + 1) str, take p str)
                        | None => ([], str)
                        end in
  match colinpos with
  | None =>
      match nuint_FromString huint32_FromString str with
      | None => Ok None
      | Some ip =>
          if (0 <? length bitsstr)%nat then
            let* bits := stoi bitsstr in
            if (bits <? 0) || (32 <? bits) then Ok None
            else Ok (Some (MkRange (ExpandV4 ip) (netmask_ipv6_bits (96 + bits))))
          else Ok (Some (MkRange (ExpandV4 ip) (netmask_ipv6_bits 128)))
      end
  | Some _ =>
      match nuint_FromString huint128_FromString str with
      | None => Ok None
      | Some ip =>
          if (0 <? length bitsstr)%nat then
            let bits := atoi (c_str bitsstr) in
            if (bits <? 0) || (128 <? bits) then Ok None
            else Ok (Some (MkRange ip (netmask_ipv6_bits bits)))
          else Ok (Some (MkRange ip (netmask_ipv6_bits 128)))
      end
  end.

(** ** Choosing a private range *)
Definition octets (from to : Z) : list Z := seqZ from (to - from + 1).
Definition candidates : list IPRange :=
  map (fun oct => FromIPv4 172 oct 0 1 16) (octets 16 31) ++
  map (fun oct => FromIPv4 10 oct 0 1 16) (octets 0 255) ++
  map (fun oct => FromIPv4 192 168 oct 1 24) (octets 0 255).
Definition good (excluding : list IPRange) (range : IPRange) : bool :=
  forallb (fun ex => negb (intersects ex range)) excluding.
Definition FindPrivateRange (excluding : list IPRange) : option IPRange :=
  List.find (good excluding) candidates.

(** ** Special addresses *)
Definition bogonRanges_v6 : list IPRange := [
  MkRange (ToNet (HUInt (uint128.of_u64 0))) (netmask_ipv6_bits 128);
  MkRange (ToNet (HUInt (uint128.of_u64 1))) (netmask_ipv6_bits 128);
  MkRange (ToNet (HUInt (U128 (2 * 2 ^ 56) 0))) (netmask_ipv6_bits 7);
  MkRange (ToNet (HUInt (U128 (255 * 2 ^ 56) 0))) (netmask_ipv6_bits 8);
  MkRange (ToNet (HUInt (U128 (252 * 2 ^ 56) 0))) (netmask_ipv6_bits 8);
  MkRange (ToNet (HUInt (U128 (248 * 2 ^ 56) 0))) (netmask_ipv6_bits 8) ].
Definition bogonRanges_v4 : list IPRange := [
  FromIPv4 0 0 0 0 8; FromIPv4 10 0 0 0 8; FromIPv4 100 64 0 0 10; FromIPv4 127 0 0 0 8;
  FromIPv4 169 254 0 0 16; FromIPv4 172 16 0 0 12; FromIPv4 192 0 0 0 24; FromIPv4 192 0 2 0 24;
  FromIPv4 192 88 99 0 24; FromIPv4 192 168 0 0 16; FromIPv4 198 18 0 0 15; FromIPv4 198 51 100 0 24;
  FromIPv4 203 0 113 0 24; FromIPv4 224 0 0 0 4; FromIPv4 240 0 0 0 4 ].

Definition IsBogonIP_v6 (a : ipv6addr_t) : bool :=
  if negb (Contains V4MappedRange a) then existsb (fun r => Contains r a) bogonRanges_v6
  else
    let v4_addr := TruncateV6 a in
    existsb (fun r => Contains_v4 r v4_addr) bogonRanges_v4.
Definition IsBogonIP (a : ipaddr_t) : bool :=
  IsBogonIP_v6 match a with V4 ip => ExpandV4 ip | V6 ip => ip end.

Definition IsWildcardAddress (ip : ipaddr_t) : bool :=
  match ip with
  | V4 ip => v32 (nval ip) =? 0
  | V6 ip => negb (uint128.to_bool (nval ip))
  end.

Definition IsBogonRange (range : IPRange) : bool :=
  if IsV4 range && nuint.eqb (netmask_bits range) (netmask_ipv6_bits 96) then false
  else if IsWildcardAddress (V6 (netmask_bits range)) then false
  else IsBogonIP_v6 (addr range) || IsBogonIP_v6 (HighestAddr range).

Definition IsLoopbackAddress (ip : ipaddr_t) : bool :=
  let loopback4 := FromIPv4 127 0 0 0 8 in
  let loopback6 := MkRange (ToNet (HUInt (U128 0 1))) (netmask_ipv6_bits 128) in
  Contains_ip loopback4 ip || Contains_ip loopback6 ip.
End ranges.

(** ** IPRangeMap *)
Module IPRangeMap.
Section map.
Context {OS : OxencSwap} {V : Type} `{EqDecision V}.
(** [m_Entries], a vector of pairs. *)
Definition t : Type := list (IPRange * V).
Definition Empty (m : t) : bool := match m with [] => true | _ => false end.
Definition ContainsValue (val : V) (m : t) : bool := existsb (fun e => bool_decide (e.2 = val)) m.
Definition GetExact (range : IPRange) (m : t) : option V :=
  snd <$> List.find (fun e => range_eqb e.1 range) m.
(** [std::set::insert], the set as the list of its elements in ascending order. *)
Fixpoint set_insert {A} (lt : A -> A -> bool) (x : A) (l : list A) : list A :=
  match l with
  | [] => [x]
  | y :: l' => if lt x y then x :: l else if lt y x then y :: set_insert lt x l' else l
  end.
(** The order of the values, and of the pairs. *)
Context (value_lt : V -> V -> bool).
Definition entry_lt (a b : IPRange * V) : bool :=
  range_lt a.1 b.1 || (negb (range_lt b.1 a.1) && value_lt a.2 b.2).
Definition Values (m : t) : list V := foldl (fun all e => set_insert value_lt e.2 all) [] m.
Definition TransformValues {T} (lt : T -> T -> bool) (transform : V -> T) (m : t) : list T :=
  foldl (fun transformed e => set_insert lt (transform e.2) transformed) [] m.
Definition FindAllEntries (a : ipv6addr_t) (m : t) : list (IPRange * V) :=
  foldl (fun found e => if Contains e.1 a then set_insert entry_lt e found else found) [] m.
Definition Insert (range : IPRange) (val : V) (m : t) : t := m ++ [(range, val)].
Fixpoint RemoveIf (visit : IPRange * V -> bool) (m : t) : t :=
  match m with [] => [] | e :: m => if visit e then RemoveIf visit m else e :: RemoveIf visit m end.
End map.
End IPRangeMap.

(** * Ranges as intervals of integers *)

Lemma land_mask a k :
  in_width 128 a -> 0 <= k <= 128 -> Z.land a (2 ^ 128 - 2 ^ k) = (a / 2 ^ k) * 2 ^ k.
Proof.
  intros Ha Hk. assert (0 < 2 ^ k) by (apply Z.pow_pos_nonneg; lia).
  replace (2 ^ 128 - 2 ^ k) with ((2 ^ (128 - k) - 1) * 2 ^ k + 0).
  2:{ rewrite Z.mul_sub_distr_r, <- Z.pow_add_r, Z.mul_1_l by lia. replace (128 - k + k) with 128 by lia. lia. }
  rewrite (Z.div_mod a (2 ^ k)) at 1 by lia. rewrite (Z.mul_comm (2 ^ k)).
  rewrite land_join; [|lia|apply Z.mod_pos_bound; lia|unfold in_width; lia].
  rewrite Z.land_0_r, Z.add_0_r, Z.sub_1_r, <- Z.ones_equiv, Z.land_ones by lia. f_equal.
  apply Z.mod_small. unfold in_width in Ha. split; [apply Z.div_pos; lia|].
  apply Z.div_lt_upper_bound; [lia|]. rewrite <- Z.pow_add_r by lia.
  replace (k + (128 - k)) with 128 by lia. lia.
Qed.

Section intervals.
Context {OS : OxencSwap} {OSS : OxencSwapSpec OS}.
Implicit Types r other : IPRange.

(** A range whose mask is a /[b] prefix. *)
Record prefix_range (b : Z) r : Prop := {
  pr_addr : n_wf (addr r);
  pr_bits : 0 <= b <= 128;
  pr_mask : netmask_bits r = netmask_ipv6_bits b;
}.
(** Its first address, and how many there are. *)
Definition base b r : Z := (haddr (addr r) / 2 ^ (128 - b)) * 2 ^ (128 - b).
Definition size_of b : Z := 2 ^ (128 - b).
Definition within b r (ip : ipv6addr_t) : Prop := base b r <= haddr ip < base b r + size_of b.

Lemma size_of_pos b : b <= 128 -> 0 < size_of b.
Proof. intros. apply Z.pow_pos_nonneg; lia. Qed.

Lemma masked_spec b r :
  prefix_range b r ->
  n_wf (nuint.band (addr r) (netmask_bits r)) /\ haddr (nuint.band (addr r) (netmask_bits r)) = base b r.
Proof.
  intros [Ha Hb Hm]. destruct (netmask_spec b Hb) as (Mw & Mv & _). rewrite Hm.
  destruct (haddr_band _ _ Ha Mw) as [Bw Bv]. split; [done|]. rewrite Bv, Mv.
  apply land_mask; [by apply haddr_bound|lia].
Qed.

Lemma interval_iff x y k : 0 < k -> (x / k) * k <= y < (x / k) * k + k <-> y / k = x / k.
Proof.
  intros Hk. pose proof (Z.div_mod y k). pose proof (Z.mod_pos_bound y k). split.
  - intros Hy. symmetry. apply Z.div_unique with (y - k * (x / k)); [left; lia|lia].
  - intros <-. nia.
Qed.

Lemma Contains_spec b r ip : prefix_range b r -> n_wf ip -> Contains r ip = true <-> within b r ip.
Proof.
  intros Hr Hip. destruct (masked_spec b r Hr) as [Aw Av]. destruct Hr as [Ha Hb Hm].
  destruct (masked_spec b (MkRange ip (netmask_bits r))) as [Iw Iv]; [by split|]. cbn [addr netmask_bits] in *.
  unfold Contains. rewrite nuint_eqb_spec, Z.eqb_eq, Av, Iv by done. unfold within, base, size_of. cbn [addr].
  rewrite interval_iff by (apply Z.pow_pos_nonneg; lia).
  assert (0 < 2 ^ (128 - b)) by (apply Z.pow_pos_nonneg; lia). split; [intros E; nia|by intros ->].
Qed.

Lemma base_bound b r : prefix_range b r -> 0 <= base b r /\ base b r + size_of b <= 2 ^ 128.
Proof.
  intros [Ha Hb _]. pose proof (haddr_bound _ Ha) as [H0 H1]. unfold base, size_of.
  assert (2 ^ 128 = 2 ^ b * 2 ^ (128 - b)) as Hp by (rewrite <- Z.pow_add_r by lia; f_equal; lia).
  assert (0 < 2 ^ (128 - b)) by (apply Z.pow_pos_nonneg; lia).
  pose proof (Z.div_pos (haddr (addr r)) (2 ^ (128 - b))).
  assert (haddr (addr r) / 2 ^ (128 - b) < 2 ^ b) by (apply Z.div_lt_upper_bound; lia). nia.
Qed.

Lemma HighestAddr_spec b r :
  prefix_range b r -> n_wf (HighestAddr r) /\ haddr (HighestAddr r) = base b r + size_of b - 1.
Proof.
  intros Hr. destruct (masked_spec b r Hr) as [Mw Mv]. pose proof (base_bound b r Hr) as [B0 B1].
  pose proof Hr as [Ha Hb Hm]. destruct (netmask_spec b Hb) as (_ & _ & Hc).
  rewrite <- Hm in Hc. unfold HighestAddr. rewrite Hc.
  set (lo := hval (ToHost (nuint.band (addr r) (netmask_bits r)))). assert (u128_wf lo) as Lw by (by apply ntoh128_wf).
  assert (u128_val lo = base b r) as Lv by exact Mv.
  assert (u128_wf (uint128.of_u64 1)) as Ow by (by repeat split).
  destruct (u128_shl (uint128.of_u64 1) (128 - b) Ow) as [Sw Sv]; [lia|].
  change (u128_val (uint128.of_u64 1)) with 1 in Sv. rewrite Z.mul_1_l in Sv. fold (size_of b) in Sv.
  destruct (u128_add lo _ Lw Sw) as [Aw Av]. destruct (u128_sub _ _ Aw Ow) as [Dw Dv].
  destruct (haddr_ToNet (HUInt (uint128.sub (uint128.add lo (uint128.shl (uint128.of_u64 1) (128 - b))) (uint128.of_u64 1)))) as [Nw Nv];
    [exact Dw|]. split; [exact Nw|]. etransitivity; [exact Nv|]. cbn [hval]. rewrite Dv, Av, Lv, Sv.
  change (u128_val (uint128.of_u64 1)) with 1. pose proof (size_of_pos b) as Hs.
  rewrite Z.add_mod_idemp_r, <- Zminus_mod_idemp_l, Z.mod_mod, Zminus_mod_idemp_l by lia. apply Z.mod_small. lia.
Qed.

Lemma within_addr b r : prefix_range b r -> within b r (addr r).
Proof.
  intros [Ha Hb _]. unfold within, base, size_of. apply interval_iff; [apply Z.pow_pos_nonneg; lia|done].
Qed.
Lemma within_highest b r : prefix_range b r -> within b r (HighestAddr r).
Proof.
  intros Hr. destruct (HighestAddr_spec b r Hr) as [_ E]. pose proof (size_of_pos b) as Hs. destruct Hr as [_ Hb _].
  unfold within. rewrite E. lia.
Qed.

Lemma size_of_split b1 b2 : b1 <= b2 <= 128 -> size_of b1 = size_of b2 * 2 ^ (b2 - b1) /\ 0 < 2 ^ (b2 - b1).
Proof.
  intros. unfold size_of. split; [|apply Z.pow_pos_nonneg; lia]. rewrite <- Z.pow_add_r by lia. f_equal. lia.
Qed.

(** Prefixes nest or are disjoint. *)
Lemma nested b1 r1 b2 r2 ip :
  prefix_range b1 r1 -> prefix_range b2 r2 -> b1 <= b2 -> within b1 r1 ip -> within b2 r2 ip ->
  base b1 r1 <= base b2 r2 /\ base b2 r2 + size_of b2 <= base b1 r1 + size_of b1.
Proof.
  intros H1 H2 Hb W1 W2. destruct (size_of_split b1 b2) as [Hs Hp]; [split; [done|apply H2]|].
  pose proof (size_of_pos b2 ltac:(apply H2)) as Hs2. unfold within, base in *. fold (size_of b1) (size_of b2) in *.
  rewrite Hs in *. set (p := 2 ^ (b2 - b1)) in *. set (q := size_of b2) in *.
  set (m := haddr (addr r1) / _) in *. set (n := haddr (addr r2) / _) in *.
  assert (m * p <= n) by nia. assert (n + 1 <= m * p + p) by nia. nia.
Qed.

Lemma Contains_range_true b r b' other :
  prefix_range b r -> prefix_range b' other ->
  Contains_range r other = true <-> within b r (addr other) /\ within b r (HighestAddr other).
Proof.
  intros Hr Ho. unfold Contains_range. rewrite andb_true_iff.
  rewrite !Contains_spec with (b := b); [done|done|by apply (HighestAddr_spec b')|done|by apply Ho].
Qed.

(** A range contains every range that is a part of it. *)
Lemma Contains_range_sub b r b' other :
  prefix_range b r -> prefix_range b' other ->
  base b r <= base b' other -> base b' other + size_of b' <= base b r + size_of b -> Contains_range r other = true.
Proof.
  intros Hr Ho H1 H2. rewrite (Contains_range_true b r b' other) by done.
  pose proof (within_addr b' other Ho) as A. pose proof (within_highest b' other Ho) as H. unfold within in *. lia.
Qed.
End intervals.

Section spec.
Context {OS : OxencSwap} {OSS : OxencSwapSpec OS}.
Implicit Types r other : IPRange.

(** Every integer of 128 bits is an address. *)
Definition of_haddr (v : Z) : ipv6addr_t := ToNet (HUInt (U128 (v / 2 ^ 64) (v mod 2 ^ 64))).
Lemma of_haddr_spec v : in_width 128 v -> n_wf (of_haddr v) /\ haddr (of_haddr v) = v.
Proof.
  intros Hv. unfold in_width in Hv. change (2 ^ 128) with (2 ^ 64 * 2 ^ 64) in Hv.
  pose proof (Z.div_mod v (2 ^ 64)). pose proof (Z.mod_pos_bound v (2 ^ 64)).
  destruct (haddr_ToNet (HUInt (U128 (v / 2 ^ 64) (v mod 2 ^ 64)))) as [Nw Nv].
  - split; unfold in_width; cbn [hval upper lower]; [|lia].
    split; [apply Z.div_pos; lia|]. apply Z.div_lt_upper_bound; lia.
  - split; [exact Nw|]. unfold of_haddr. rewrite Nv. unfold u128_val. cbn [hval upper lower]. lia.
Qed.

Lemma intersects_spec b r b' other :
  prefix_range b r -> prefix_range b' other ->
  intersects r other = true <-> exists ip, n_wf ip /\ within b r ip /\ within b' other ip.
Proof.
  intros Hr Ho. unfold intersects. rewrite orb_true_iff. split.
  - rewrite (Contains_range_true b r b' other), (Contains_range_true b' other b r) by done. intros [[H _]|[H _]].
    + exists (addr other). split; [apply Ho|]. split; [done|]. by apply within_addr.
    + exists (addr r). split; [apply Hr|]. split; [by apply within_addr|done].
  - intros (ip & _ & W1 & W2). destruct (Z.le_ge_cases b b').
    + left. destruct (nested b r b' other ip) as [? ?]; [done..|]. by eapply Contains_range_sub.
    + right. destruct (nested b' other b r ip) as [? ?]; [done..|]. by eapply Contains_range_sub.
Qed.

Lemma Contains_range_subset b r b' other ip :
  prefix_range b r -> prefix_range b' other -> haddr (addr other) = base b' other ->
  Contains_range r other = true -> within b' other ip -> within b r ip.
Proof.
  intros Hr Ho Hn. rewrite (Contains_range_true b r b' other) by done. unfold within. rewrite Hn.
  destruct (HighestAddr_spec b' other Ho) as [_ ->]. lia.
Qed.

(** ** IPv4 ranges *)
Lemma ipv4_bits_spec a b c d :
  is_byte a -> is_byte b -> is_byte c -> is_byte d ->
  n4_wf (ipaddr_ipv4_bits a b c d) /\ haddr4 (ipaddr_ipv4_bits a b c d) = a * 2 ^ 24 + b * 2 ^ 16 + c * 2 ^ 8 + d.
Proof.
  unfold is_byte. intros Ha Hb Hc Hd. unfold ipaddr_ipv4_bits.
  assert (v32 (hval (detail_ipaddr_ipv4_bits a b c d)) = a * 2 ^ 24 + b * 2 ^ 16 + c * 2 ^ 8 + d) as Hv.
  { unfold detail_ipaddr_ipv4_bits. cbn [hval v32]. rewrite !Z.shiftl_mul_pow2 by lia.
    rewrite !wrap_id by (unfold in_width; lia).
    rewrite (Z.lor_comm d), (lor_disjoint 8) by (unfold in_width; lia).
    rewrite (Z.lor_comm _ (b * _)), (lor_disjoint 16) by (unfold in_width; lia).
    rewrite (Z.lor_comm _ (a * _)), (lor_disjoint 24) by (unfold in_width; lia). lia. }
  rewrite <- Hv. apply haddr4_ToNet. rewrite Hv. unfold in_width. lia.
Qed.

Lemma FromIPv4_spec a b c d mask :
  is_byte a -> is_byte b -> is_byte c -> is_byte d -> 0 <= mask <= 32 ->
  prefix_range (mask + 96) (FromIPv4 a b c d mask) /\
  haddr (addr (FromIPv4 a b c d mask)) = 65535 * 2 ^ 32 + (a * 2 ^ 24 + b * 2 ^ 16 + c * 2 ^ 8 + d).
Proof.
  intros Ha Hb Hc Hd Hm. destruct (ipv4_bits_spec a b c d) as [Aw Av]; [done..|].
  destruct (ExpandV4_spec _ Aw) as [Ew Ev]. cbn [FromIPv4 addr]. split; [|by rewrite Ev, Av].
  split; [done|lia|done].
Qed.

Definition private_blocks : list IPRange := [FromIPv4 10 0 0 0 8; FromIPv4 172 16 0 0 12; FromIPv4 192 168 0 0 16].

Ltac inside_block Hq Hp Hv Hw :=
  eapply Contains_range_sub; [exact Hq|exact Hp|..]; unfold base, size_of; rewrite Hv, Hw; cbn;
  Z.div_mod_to_equations; lia.

Lemma candidate_inv c :
  c ∈ candidates ->
  exists b, prefix_range b c /\ Exists (fun p => Contains_range p c = true) private_blocks.
Proof.
  assert (forall x lo hi, x ∈ octets lo hi -> lo <= x <= hi) as Hoct.
  { intros x lo hi. unfold octets. rewrite elem_of_seqZ. lia. }
  assert (forall a b c d m, is_byte a -> is_byte b -> is_byte c -> is_byte d -> 0 <= m <= 32 ->
    prefix_range (m + 96) (FromIPv4 a b c d m) /\
    haddr (addr (FromIPv4 a b c d m)) = 65535 * 2 ^ 32 + (a * 2 ^ 24 + b * 2 ^ 16 + c * 2 ^ 8 + d)) as HF
    by apply FromIPv4_spec.
  unfold candidates. rewrite !elem_of_app, !list_elem_of_In, !in_map_iff.
  intros [(o & <- & Ho)|[(o & <- & Ho)|(o & <- & Ho)]]; apply list_elem_of_In, Hoct in Ho.
  - destruct (HF 172 o 0 1 16) as [Hp Hv]; [unfold is_byte; lia..|]. eexists. split; [exact Hp|].
    right. left. destruct (HF 172 16 0 0 12) as [Hq Hw]; [unfold is_byte; lia..|].
    inside_block Hq Hp Hv Hw.
  - destruct (HF 10 o 0 1 16) as [Hp Hv]; [unfold is_byte; lia..|]. eexists. split; [exact Hp|].
    left. destruct (HF 10 0 0 0 8) as [Hq Hw]; [unfold is_byte; lia..|].
    inside_block Hq Hp Hv Hw.
  - destruct (HF 192 168 o 1 24) as [Hp Hv]; [unfold is_byte; lia..|]. eexists. split; [exact Hp|].
    right. right. left. destruct (HF 192 168 0 0 16) as [Hq Hw]; [unfold is_byte; lia..|].
    inside_block Hq Hp Hv Hw.
Qed.
End spec.

(** C39. On ranges with prefix masks: [Contains] tests the interval of addresses that share the
    prefix, [HighestAddr] is the last of them, [operator*] tells whether two ranges have an
    address in common, and [Contains] of a range whose address is its first one is inclusion. *)
Theorem range_predicates {OS : OxencSwap} {OSS : OxencSwapSpec OS} (b b' : Z) (r other : IPRange) (ip : ipv6addr_t) :
  prefix_range b r -> prefix_range b' other -> n_wf ip ->
  (Contains r ip = true <-> base b r <= haddr ip < base b r + size_of b) /\
  haddr (HighestAddr r) = base b r + size_of b - 1 /\
  (intersects r other = true <-> exists x, n_wf x /\ Contains r x = true /\ Contains other x = true) /\
  (haddr (addr other) = base b' other ->
   Contains_range r other = true <-> forall x, n_wf x -> Contains other x = true -> Contains r x = true).
Proof.
  intros Hr Ho Hip. split_and!.
  - by apply Contains_spec.
  - by apply HighestAddr_spec.
  - rewrite (intersects_spec b r b' other) by done.
    split; intros (x & Hx & H1 & H2); exists x; (split; [done|]); by rewrite (Contains_spec b r), (Contains_spec b' other) in *.
  - intros Hn. split.
    + intros H x Hx. rewrite (Contains_spec b r), (Contains_spec b' other) by done.
      by apply Contains_range_subset.
    + intros H. rewrite (Contains_range_true b r b' other) by done.
      rewrite <- !(Contains_spec b r) by (done || (apply (HighestAddr_spec b' other); done) || apply Ho).
      split; apply H.
      * apply Ho.
      * rewrite (Contains_spec b' other); [by apply within_addr|done|apply Ho].
      * by apply (HighestAddr_spec b' other).
      * rewrite (Contains_spec b' other); [by apply within_highest|done|by apply (HighestAddr_spec b' other)].
Qed.

Lemma range_predicates_witness :
  let os := oxenc_swap_ref in
  let r := FromIPv4 10 0 0 0 8 in let other := FromIPv4 10 5 0 0 16 in
  (Contains r (addr other) = true <-> base 104 r <= haddr (addr other) < base 104 r + size_of 104) /\
  intersects r other = true.
Proof.
  intros os r other. destruct (FromIPv4_spec 10 0 0 0 8) as [Hr _]; [unfold is_byte; lia..|].
  destruct (FromIPv4_spec 10 5 0 0 16) as [Ho _]; [unfold is_byte; lia..|].
  destruct (range_predicates 104 112 r other (addr other)) as (H1 & _ & H3 & _).
  - exact Hr.
  - exact Ho.
  - apply Ho.
  - split; [exact H1|]. apply H3. exists (addr other). split; [apply Ho|]. split; vm_compute; reflexivity.
Defined.

(** [FindPrivateRange] returns a range inside the private IPv4 blocks that shares no
    address with any excluded range, and gives up only when every candidate shares one. *)
Theorem find_private_range {OS : OxencSwap} {OSS : OxencSwapSpec OS} (excluding : list IPRange) :
  Forall (fun ex => exists b, prefix_range b ex) excluding ->
  match FindPrivateRange excluding with
  | Some r =>
      Exists (fun p => Contains_range p r = true) private_blocks /\
      Forall (fun ex => forall x, n_wf x -> Contains ex x = true -> Contains r x = false) excluding
  | None =>
      Forall (fun c => Exists (fun ex => exists x, n_wf x /\ Contains ex x = true /\ Contains c x = true) excluding) candidates
  end.
Proof.
  intros Hex. unfold FindPrivateRange. rewrite Forall_forall in Hex.
  destruct (List.find _ candidates) as [r|] eqn:E.
  - apply List.find_some in E as [Hin Hg]. apply list_elem_of_In in Hin.
    destruct (candidate_inv r Hin) as (b & Hr & Hp). split; [done|]. apply Forall_forall. intros ex Hx x Hw Hc.
    apply not_true_is_false. intros Hc'. destruct (Hex ex Hx) as [be Hbe].
    unfold good in Hg. rewrite forallb_forall in Hg. apply list_elem_of_In, Hg, negb_true_iff in Hx.
    apply not_true_iff_false in Hx. apply Hx, (intersects_spec be ex b r); [done..|].
    exists x. by rewrite (Contains_spec be ex), (Contains_spec b r) in *.
  - apply Forall_forall. intros c Hc. destruct (candidate_inv c Hc) as (b & Hr & _).
    apply list_elem_of_In in Hc. pose proof (List.find_none _ _ E _ Hc) as Hg. unfold good in Hg.
    apply Exists_exists. apply not_true_iff_false in Hg. rewrite forallb_forall in Hg.
    destruct (decide (Exists (fun ex => intersects ex c = true) excluding)) as [H|H].
    + apply Exists_exists in H as (ex & Hin & Hi). exists ex. split; [done|]. destruct (Hex ex Hin) as [be Hbe].
      destruct (proj1 (intersects_spec be ex b c Hbe Hr) Hi) as (x & Hw & W1 & W2). exists x.
      by rewrite (Contains_spec be ex), (Contains_spec b c).
    + destruct Hg. intros ex Hin. apply negb_true_iff, not_true_iff_false. intros Hi. apply H, Exists_exists.
      exists ex. by rewrite list_elem_of_In.
Qed.

Lemma find_private_range_witness :
  let os := oxenc_swap_ref in
  let ex := [FromIPv4 172 16 0 0 12] in
  FindPrivateRange ex = Some (FromIPv4 10 0 0 1 16) /\
  Exists (fun p => Contains_range p (FromIPv4 10 0 0 1 16) = true) private_blocks.
Proof.
  intros os ex. pose proof (find_private_range ex) as H.
  assert (FindPrivateRange ex = Some (FromIPv4 10 0 0 1 16)) as E by (vm_compute; reflexivity).
  rewrite E in H. split; [exact E|]. apply H. constructor; [|constructor].
  exists 108. apply (FromIPv4_spec 172 16 0 0 12); unfold is_byte; lia.
Defined.

(** [Contains] of a range looks at the other range's address as it was given, not at the
    first address of that range: 10.0.255.0/24 claims to contain the whole of 10.0.255.255/16. *)
Theorem contains_range_unnormalised {OS : OxencSwap} {OSS : OxencSwapSpec OS} :
  let r := FromIPv4 10 0 255 0 24 in let other := FromIPv4 10 0 255 255 16 in
  Contains_range r other = true /\
  exists x, n_wf x /\ Contains other x = true /\ Contains r x = false.
Proof.
  intros r other. destruct (FromIPv4_spec 10 0 255 0 24) as [Hr Hv]; [unfold is_byte; lia..|].
  destruct (FromIPv4_spec 10 0 255 255 16) as [Ho Hw]; [unfold is_byte; lia..|].
  fold r in Hr, Hv. fold other in Ho, Hw.
  destruct (of_haddr_spec (65535 * 2 ^ 32 + 10 * 2 ^ 24)) as [Xw Xv]; [unfold in_width; lia|].
  split.
  - apply (Contains_range_true _ _ _ _ Hr Ho). unfold within.
    destruct (HighestAddr_spec _ _ Ho) as [_ ->]. unfold base, size_of. rewrite Hv, Hw. vm_compute. repeat split; discriminate.
  - exists (of_haddr (65535 * 2 ^ 32 + 10 * 2 ^ 24)). split; [done|]. split.
    + apply (Contains_spec _ _ _ Ho Xw). unfold within, base, size_of. rewrite Hw, Xv. vm_compute. split; [discriminate|reflexivity].
    + apply not_true_is_false. rewrite (Contains_spec _ _ _ Hr Xw). unfold within, base, size_of. rewrite Hv, Xv.
      vm_compute. intros [H _]. by apply H.
Qed.

(** A range string with an IPv4 address and a mask that does not start with a number
    makes [FromString], and with it the decoding of a range a peer sent, throw. *)
Theorem range_from_string_throws {OS : OxencSwap} {IP : InetPton} (a bits : list Z) (c v : Z) :
  chr_colon ∉ a -> chr_slash ∉ a -> chr_colon ∉ (c :: bits) -> inet_pton4 (c_str a) = Some v ->
  is_space c = false -> c <> 43 -> c <> 45 -> is_digit c = false ->
  FromString (a ++ chr_slash :: c :: bits) = Throw.
Proof.
  intros Hc Hs Hcb Hv Hsp Hp Hm Hd. assert (chr_colon ∉ a ++ chr_slash :: c :: bits) as Hn.
  { rewrite elem_of_app, elem_of_cons. by intros [?|[?|?]]. }
  unfold FromString. rewrite (find_char_None chr_colon), (find_char chr_slash) by done.
  rewrite take_app_length, drop_app_add' by done. cbn [drop]. unfold nuint_FromString, huint32_FromString.
  rewrite Hv. cbn [fmap option_fmap option_map length]. change (0 <? S (length bits))%nat with true.
  unfold stoi. cbn [skip_space]. rewrite Hsp, (proj2 (Z.eqb_neq c 45) Hm), (proj2 (Z.eqb_neq c 43) Hp), Hd. done.
Qed.

Definition inet_pton_ref : InetPton := {| inet_pton4 _ := Some 16777226; inet_pton6 _ := None |}.
Lemma range_from_string_throws_witness :
  let os := oxenc_swap_ref in let ip := inet_pton_ref in
  FromString [49; 48; 46; 48; 46; 48; 46; 49; 47; 120] = Throw.
Proof.
  intros os ip. apply (range_from_string_throws [49; 48; 46; 48; 46; 48; 46; 49] [] 120 16777226); try reflexivity; try discriminate.
  - apply (bool_decide_unpack _). vm_compute. exact I.
  - apply (bool_decide_unpack _). vm_compute. exact I.
  - apply (bool_decide_unpack _). vm_compute. exact I.
Defined.

(** ** The range map *)
Lemma set_insert_elem {A} (lt : A -> A -> bool) x l :
  (forall y, y ∈ IPRangeMap.set_insert lt x l -> y = x \/ y ∈ l) /\
  (forall y, y ∈ l -> y ∈ IPRangeMap.set_insert lt x l) /\
  (exists y, y ∈ IPRangeMap.set_insert lt x l /\ (y = x \/ (lt x y = false /\ lt y x = false))).
Proof.
  induction l as [|z l (IH1 & IH2 & w & Hw & E)]; cbn [IPRangeMap.set_insert].
  - split_and!; [set_solver|set_solver|]. exists x. set_solver.
  - destruct (lt x z) eqn:E1; [|destruct (lt z x) eqn:E2].
    + split_and!; [set_solver|set_solver|]. exists x. set_solver.
    + split_and!; [intros y [->|Hy]%elem_of_cons; set_solver|set_solver|]. exists w. set_solver.
    + split_and!; [set_solver|set_solver|]. exists z. set_solver.
Qed.

Section range_map.
Context {OS : OxencSwap} {V : Type} `{EqDecision V} (value_lt : V -> V -> bool).
Implicit Types (m : list (IPRange * V)) (e : IPRange * V).

Lemma find_all_entries_loop a m acc :
  let found := foldl (fun found e => if Contains e.1 a then IPRangeMap.set_insert (IPRangeMap.entry_lt value_lt) e found
                                     else found) acc m in
  (forall e, e ∈ found -> e ∈ acc \/ (e ∈ m /\ Contains e.1 a = true)) /\
  (forall e, e ∈ acc -> e ∈ found) /\
  (forall e, e ∈ m -> Contains e.1 a = true ->
     exists e', e' ∈ found /\ (e' = e \/ (IPRangeMap.entry_lt value_lt e e' = false /\ IPRangeMap.entry_lt value_lt e' e = false))).
Proof.
  revert acc. induction m as [|x m IH]; intros acc; cbn [foldl]; [split_and!; set_solver|].
  destruct (Contains x.1 a) eqn:E.
  - destruct (IH (IPRangeMap.set_insert (IPRangeMap.entry_lt value_lt) x acc)) as (H1 & H2 & H3).
    destruct (set_insert_elem (IPRangeMap.entry_lt value_lt) x acc) as (S1 & S2 & w & Sw & Hw). split_and!.
    + intros e [He|[]]%H1; [|set_solver]. apply S1 in He as [->|?]; set_solver.
    + auto.
    + intros e [->|He]%elem_of_cons Hc; [|by apply H3]. exists w. split; [by apply H2|]. naive_solver.
  - destruct (IH acc) as (H1 & H2 & H3). split_and!; [set_solver|done|].
    intros e [->|He]%elem_of_cons Hc; [congruence|by apply H3].
Qed.

Lemma RemoveIf_elem (visit : IPRange * V -> bool) m e : e ∈ IPRangeMap.RemoveIf visit m -> e ∈ m /\ visit e = false.
Proof.
  induction m as [|x m IH]; cbn [IPRangeMap.RemoveIf]; [set_solver|]. destruct (visit x) eqn:E.
  - set_solver.
  - intros [->|He]%elem_of_cons; set_solver.
Qed.

Lemma range_eqb_refl (r : IPRange) : range_eqb r r = true.
Proof. unfold range_eqb, nuint.eqb. cbn. unfold uint128.eqb. by rewrite !Z.eqb_refl. Qed.

Lemma List_find_app {A} (f : A -> bool) l k :
  List.find f (l ++ k) = match List.find f l with Some x => Some x | None => List.find f k end.
Proof. induction l as [|x l IH]; cbn; [done|]. by destruct (f x). Qed.

(** What a lookup in the range map finds: only entries whose range holds the address, and
    for each such entry the entry or one the order of the set does not tell from it; removing
    entries by a predicate and then looking an address up finds no entry the predicate holds of;
    and an exact lookup finds the last insertion exactly when no earlier entry has that range. *)
Theorem range_map_lookup (a : ipv6addr_t) (m : list (IPRange * V)) (range : IPRange) (val : V) (visit : IPRange * V -> bool) :
  (forall e, e ∈ IPRangeMap.FindAllEntries value_lt a m -> e ∈ m /\ Contains e.1 a = true) /\
  (forall e, e ∈ m -> Contains e.1 a = true ->
     exists e', e' ∈ IPRangeMap.FindAllEntries value_lt a m /\
       (e' = e \/ (IPRangeMap.entry_lt value_lt e e' = false /\ IPRangeMap.entry_lt value_lt e' e = false))) /\
  (forall e, e ∈ IPRangeMap.FindAllEntries value_lt a (IPRangeMap.RemoveIf visit m) -> visit e = false) /\
  IPRangeMap.GetExact range (IPRangeMap.Insert range val m)
  = match IPRangeMap.GetExact range m with Some v => Some v | None => Some val end.
Proof.
  split_and!.
  - intros e [?%not_elem_of_nil|]%(find_all_entries_loop a m []); [done|done].
  - apply (find_all_entries_loop a m []).
  - intros e [?%not_elem_of_nil|[He _]]%(find_all_entries_loop a _ []); [done|]. by apply RemoveIf_elem in He as [_ ?].
  - unfold IPRangeMap.GetExact, IPRangeMap.Insert. rewrite List_find_app. destruct (List.find _ m); [done|].
    cbn [List.find fst]. by rewrite range_eqb_refl.
Qed.
End range_map.
