(* ===== verification/DnsName.v ===== *)
(** * DNS names (llarp/dns/name.cpp) and the text tests on them (llarp/dns/question.cpp)

    Names are texts; on the wire a name is a sequence of labels, each a length byte and
    its characters, closed by a zero byte. *)

From S2P Require Import Prelude Buffer Bencode Str NetInt.

Definition chr_dot : Z := 46.

(** ** DecodeName *)
Fixpoint decode_name_loop (fuel : nat) (name : list Z) (buf : llarp_buffer_t)
  : res (option (list Z) * llarp_buffer_t) :=
  match fuel with
  | O => NoFuel
  | S fuel =>
      let* l := deref buf in
      let buf := advance 1 buf in
      if l =? 0 then Ok (Some name, buf)
      else if Z.of_nat (size_left buf) <? l then Ok (None, buf)
      else
        let n := Z.to_nat l in
        decode_name_loop fuel (name ++ take n (drop (cur buf) (mem buf)) ++ [chr_dot]) (advance n buf)
  end.

(** [std::string::pop_back], undefined on the empty string *)
Definition pop_back (s : list Z) : res (list Z) :=
  match s with [] => Oob | _ => Ok (removelast s) end.

Definition DecodeName (trimTrailingDot : bool) (buf : llarp_buffer_t) : res (option (list Z) * llarp_buffer_t) :=
  if (size_left buf <? 1)%nat then Ok (None, buf)
  else
    let* (result, buf) := decode_name_loop (S (size_left buf)) [] buf in
    match result with
    | None => Ok (None, buf)
    | Some name =>
        if trimTrailingDot then let* name := pop_back name in Ok (Some name, buf)
        else Ok (Some name, buf)
    end.

(** ** EncodeNameTo *)

(** The loop over the parts; [None] is the early [return false]. *)
Fixpoint encode_parts (parts : list (list Z)) (buf : llarp_buffer_t) : res (bool * llarp_buffer_t) :=
  match parts with
  | [] => Ok (true, buf)
  | part :: parts =>
      let l := length part in
      if (63 <? l)%nat then Ok (false, buf)
      else
        let* buf := store [Z.of_nat l] buf in
        let buf := advance 1 buf in
        if (size_left buf <? l)%nat then Ok (false, buf)
        else if (l =? 0)%nat then Ok (true, buf)
        else
          let* buf := store part buf in
          encode_parts parts (advance l buf)
  end.

Definition without_last_dot (name : list Z) : list Z :=
  match last name with
  | Some c => if c =? chr_dot then removelast name else name
  | None => name
  end.

Definition EncodeNameTo (name : list Z) (buf : llarp_buffer_t) : res (bool * llarp_buffer_t) :=
  let* (ok, buf) := encode_parts (split (without_last_dot name) [chr_dot] false) buf in
  if ok : bool then
    let* buf := store [0] buf in
    Ok (true, advance 1 buf)
  else Ok (false, buf).

(** ** Reverse lookup names *)

(** The two hex functions of oxenc the code calls. *)
Class OxencHex := { is_hex_digit : Z -> bool; from_hex : list Z -> list Z }.

Definition str_in_addr_arpa : list Z := [46; 105; 110; 45; 97; 100; 100; 114; 46; 97; 114; 112; 97].
Definition str_ip6_arpa : list Z := [46; 105; 112; 54; 46; 97; 114; 112; 97].

Definition count_char (c : Z) (s : list Z) : nat := length (filter (fun x => x = c) s).

Section ptr.
Context {OS : OxencSwap} {OH : OxencHex}.

(** [q[3]] is read first. *)
Fixpoint ptr_octets (i : nat) (name : list Z) : option (list Z) :=
  match i with
  | O => Some []
  | S i =>
      let (part, rest) := match find [chr_dot] name with
                          | Some pos => (take pos name, drop (pos + 1) name)
                          | None => (name, name)
                          end in
      match parse_int 255 part with
      | None => None
      | Some o => (fun q => q ++ [o]) <$> ptr_octets i rest
      end
  end.

Fixpoint ptr_nybbles (i : nat) (name : list Z) : option (list Z) :=
  match i with
  | O => Some []
  | S i =>
      match name with
      | a :: d1 :: b :: d2 :: name =>
          if is_hex_digit a && (d1 =? chr_dot) && is_hex_digit b && (d2 =? chr_dot)
          then (fun rest => b :: a :: rest) <$> ptr_nybbles i name else None
      | _ => None
      end
  end.

(** The 16 bytes of an object of type [uint128_t]. *)
Definition u128_of_bytes (l : list Z) : uint128_t := U128 (le_decode (drop 8 l)) (le_decode (take 8 l)).

Definition DecodePTR (name : list Z) : option huint128_t :=
  let pos4 := find str_in_addr_arpa name in
  let isV6 := match pos4 with None => true | Some _ => false end in
  let pos := match pos4 with None => find str_ip6_arpa name | Some p => Some p end in
  match pos with
  | None => None
  | Some pos =>
      let name := take (pos + 1) name in
      let numdots := count_char chr_dot name in
      if (numdots =? 4)%nat && negb isV6 then
        match ptr_octets 4 name with
        | Some [q0; q1; q2; q3] => Some (ToHost (ExpandV4 (ipaddr_ipv4_bits q0 q1 q2 q3)))
        | _ => None
        end
      else if (numdots =? 32)%nat && (length name =? 64)%nat && isV6 then
        (fun hex => HUInt (u128_of_bytes (from_hex hex))) <$> ptr_nybbles 16 name
      else None
  end.
End ptr.

(** ** Reserved names *)
Definition str_dot_snode : list Z := [46; 115; 110; 111; 100; 101].
Definition str_dot_loki : list Z := [46; 108; 111; 107; 105].
Definition reserved_names : list (list Z) :=
  [str_dot_snode ++ str_dot_loki; str_dot_loki ++ str_dot_loki;
   str_dot_snode ++ str_dot_loki ++ [chr_dot]; str_dot_loki ++ str_dot_loki ++ [chr_dot]].
Definition NameIsReserved (name : list Z) : bool :=
  existsb (fun reserved => ends_with name reserved || bool_decide (name = drop 1 reserved)) reserved_names.

(** * The wire format *)
Definition label_ok (l : list Z) : Prop := (1 <= length l <= 63)%nat /\ chr_dot ∉ l.
Definition wire_labels (labels : list (list Z)) : list Z :=
  concat (map (fun l => Z.of_nat (length l) :: l) labels).
Definition wire_name (labels : list (list Z)) : list Z := wire_labels labels ++ [0].
(** The fully qualified text: every label followed by a dot. *)
Definition dotted (labels : list (list Z)) : list Z := concat (map (fun l => l ++ [chr_dot]) labels).

Lemma wire_labels_cons l ls : wire_labels (l :: ls) = Z.of_nat (length l) :: l ++ wire_labels ls.
Proof. done. Qed.

Lemma dotted_join labels : labels <> [] -> dotted labels = join [chr_dot] labels ++ [chr_dot].
Proof.
  intros Hne. induction labels as [|l labels IH]; [done|]. destruct labels as [|l' labels]; [by cbn; rewrite app_nil_r|].
  change (dotted (l :: l' :: labels)) with ((l ++ [chr_dot]) ++ dotted (l' :: labels)). rewrite IH by done.
  change (join [chr_dot] (l :: l' :: labels)) with (l ++ [chr_dot] ++ join [chr_dot] (l' :: labels)).
  by rewrite <- !app_assoc.
Qed.

Lemma without_last_dot_snoc s : without_last_dot (s ++ [chr_dot]) = s.
Proof. unfold without_last_dot. rewrite last_snoc. cbn. apply removelast_last. Qed.

Lemma without_last_dot_id s : last s <> Some chr_dot -> without_last_dot s = s.
Proof.
  intros H. unfold without_last_dot. destruct (last s) as [c|]; [|done].
  destruct (Z.eqb_spec c chr_dot); [by subst|done].
Qed.

Lemma last_join labels :
  labels <> [] -> Forall label_ok labels -> last (join [chr_dot] labels) <> Some chr_dot.
Proof.
  intros Hne Hl. induction Hl as [|l labels [Hlen Hdot] Hl IH]; [done|]. destruct labels as [|l' labels].
  - cbn. intros H%last_Some_elem_of. done.
  - change (join [chr_dot] (l :: l' :: labels)) with (l ++ [chr_dot] ++ join [chr_dot] (l' :: labels)).
    rewrite app_assoc, last_app. destruct (last (join [chr_dot] (l' :: labels))) eqn:E; [by apply IH|].
    apply last_None in E. exfalso. apply Forall_inv in Hl as [[H _] _].
    destruct l'; [cbn in H; lia|]. destruct labels; cbn in E; done.
Qed.

Lemma wire_name_cons l labels rest :
  wire_name (l :: labels) ++ rest = Z.of_nat (length l) :: l ++ wire_name labels ++ rest.
Proof. unfold wire_name. rewrite wire_labels_cons. cbn. by rewrite <- !app_assoc. Qed.

(** ** Decoding *)
Lemma decode_name_loop_wire fuel labels name pre rest :
  Forall label_ok labels -> (length labels < fuel)%nat ->
  decode_name_loop fuel name (pre ‖ wire_name labels ++ rest)
  = Ok (Some (name ++ dotted labels), (pre ++ wire_name labels) ‖ rest).
Proof.
  intros Hl. revert fuel name pre. induction Hl as [|l labels [Hlen _] Hl IH]; intros fuel name pre Hf.
  - destruct fuel; [cbn in Hf; lia|]. cbn [decode_name_loop wire_name wire_labels map concat app].
    rewrite deref_cons. cbn [rbind]. rewrite advance_cons. by rewrite app_nil_r.
  - destruct fuel; [cbn in Hf; lia|]. cbn [decode_name_loop]. rewrite wire_name_cons, deref_cons. cbn [rbind].
    rewrite (proj2 (Z.eqb_neq _ _)) by lia.
    rewrite advance_cons, size_left_at, (proj2 (Z.ltb_ge _ _)) by (rewrite !length_app; lia).
    rewrite Nat2Z.id. cbn [mem cur]. rewrite drop_app_length, take_app_length, advance_app.
    rewrite IH by (cbn in Hf; lia). rewrite <- (app_nil_r (wire_name (l :: labels))), wire_name_cons.
    unfold dotted. cbn [map concat]. rewrite app_nil_r, <- !app_assoc. cbn [app]. by rewrite <- !app_assoc.
Qed.

Lemma length_wire_labels labels : Forall label_ok labels -> (length labels <= length (wire_labels labels))%nat.
Proof.
  induction 1 as [|l labels [Hl _] _ IH]; [done|]. rewrite wire_labels_cons. cbn [length]. rewrite length_app. lia.
Qed.

Lemma DecodeName_wire labels pre rest :
  Forall label_ok labels ->
  DecodeName false (pre ‖ wire_name labels ++ rest) = Ok (Some (dotted labels), (pre ++ wire_name labels) ‖ rest).
Proof.
  intros Hl. pose proof (length_wire_labels labels Hl) as Hlen. unfold DecodeName.
  assert (length (wire_name labels ++ rest) = length (wire_labels labels) + 1 + length rest)%nat as Hw
    by (unfold wire_name; rewrite !length_app; done).
  rewrite size_left_at, Hw, (proj2 (Nat.ltb_ge _ _)) by lia. by rewrite decode_name_loop_wire by (done || lia).
Qed.

(** The loop reads past the end when the closing byte is missing. *)
Lemma decode_name_loop_unterminated fuel labels name pre :
  Forall label_ok labels -> (length labels < fuel)%nat ->
  decode_name_loop fuel name (pre ‖ wire_labels labels) = Oob.
Proof.
  intros Hl. revert fuel name pre. induction Hl as [|l labels [Hlen _] Hl IH]; intros fuel name pre Hf.
  - destruct fuel; [cbn in Hf; lia|]. cbn [decode_name_loop]. by rewrite deref_nil.
  - destruct fuel; [cbn in Hf; lia|]. cbn [decode_name_loop]. rewrite wire_labels_cons, deref_cons. cbn [rbind].
    rewrite (proj2 (Z.eqb_neq _ _)) by lia.
    rewrite advance_cons, size_left_at, (proj2 (Z.ltb_ge _ _)) by (rewrite !length_app; lia).
    rewrite Nat2Z.id, advance_app. apply IH. cbn in Hf. lia.
Qed.

(** Every iteration consumes a byte, so the fuel is enough. *)
Lemma decode_name_loop_total fuel name pre rest :
  (length rest < fuel)%nat ->
  decode_name_loop fuel name (pre ‖ rest) = Oob \/
  exists r pre' rest', decode_name_loop fuel name (pre ‖ rest) = Ok (r, pre' ‖ rest') /\ pre' ++ rest' = pre ++ rest.
Proof.
  revert name pre rest. induction fuel as [|fuel IH]; intros name pre rest Hf; [lia|]. cbn [decode_name_loop].
  destruct rest as [|l rest]; [left; by rewrite deref_nil|]. rewrite deref_cons. cbn [rbind].
  rewrite advance_cons, size_left_at. destruct (Z.eqb_spec l 0).
  { right. eexists _, _, _. split; [done|]. by rewrite <- app_assoc. }
  destruct (Z.ltb_spec (Z.of_nat (length rest)) l).
  { right. eexists _, _, _. split; [done|]. by rewrite <- app_assoc. }
  rewrite advance_take by lia. cbn [length] in Hf.
  destruct (IH (name ++ take (Z.to_nat l) (drop (cur ((pre ++ [l]) ‖ rest)) (mem ((pre ++ [l]) ‖ rest))) ++ [chr_dot])
              ((pre ++ [l]) ++ take (Z.to_nat l) rest) (drop (Z.to_nat l) rest)) as [->|(r & p' & r' & -> & E)].
  { rewrite length_drop. lia. }
  - by left.
  - right. eexists _, _, _. split; [done|]. by rewrite E, <- !app_assoc, take_drop.
Qed.

(** ** Encoding *)
Lemma store_byte pre c o rest : store [c] (pre ‖ o :: rest) = Ok (pre ‖ c :: rest).
Proof. by apply (store_at pre [c] [o]). Qed.

Lemma encode_parts_wire labels pre old rest :
  Forall label_ok labels -> length old = length (wire_labels labels) ->
  encode_parts labels (pre ‖ old ++ rest) = Ok (true, (pre ++ wire_labels labels) ‖ rest).
Proof.
  intros Hl. revert pre old. induction Hl as [|l labels [Hlen _] Hl IH]; intros pre old Ho.
  - destruct old; [|done]. by rewrite app_nil_r.
  - rewrite wire_labels_cons in *. cbn [length] in Ho. destruct old as [|o old]; [done|]. injection Ho as Ho.
    rewrite length_app in Ho. cbn [encode_parts app]. rewrite (proj2 (Nat.ltb_ge _ _)) by lia.
    rewrite store_byte. cbn [rbind]. rewrite advance_cons, size_left_at, length_app.
    rewrite (proj2 (Nat.ltb_ge _ _)) by lia. rewrite (proj2 (Nat.eqb_neq _ _)) by lia.
    rewrite <- (take_drop (length l) old), <- (app_assoc (take _ old)). rewrite store_at by (rewrite length_take; lia). cbn [rbind].
    rewrite advance_app, IH by (rewrite length_drop; lia).
    rewrite <- !(app_assoc pre). cbn [app]. done.
Qed.

Lemma split_labels labels :
  labels <> [] -> Forall label_ok labels -> split (join [chr_dot] labels) [chr_dot] false = labels.
Proof.
  intros Hne Hl. apply split_join_char; [done|]. eapply Forall_impl; [exact Hl|]. by intros l [_ H].
Qed.

(** A name is a text with these labels, with or without the final dot. *)
Definition name_of (labels : list (list Z)) (name : list Z) : Prop :=
  labels <> [] /\ Forall label_ok labels /\ (name = join [chr_dot] labels \/ name = dotted labels).

Lemma name_parts labels name : name_of labels name -> split (without_last_dot name) [chr_dot] false = labels.
Proof.
  intros (Hne & Hl & [->| ->]).
  - rewrite without_last_dot_id by (by apply last_join). by apply split_labels.
  - rewrite dotted_join, without_last_dot_snoc by done. by apply split_labels.
Qed.

Lemma EncodeNameTo_wire labels name pre old rest :
  name_of labels name -> length old = length (wire_name labels) ->
  EncodeNameTo name (pre ‖ old ++ rest) = Ok (true, (pre ++ wire_name labels) ‖ rest).
Proof.
  intros Hn Ho. unfold EncodeNameTo. rewrite (name_parts labels name Hn). destruct Hn as (_ & Hl & _).
  unfold wire_name in *. rewrite length_app in Ho. cbn [length] in Ho.
  rewrite <- (take_drop (length (wire_labels labels)) old), <- (app_assoc (take _ old)).
  rewrite encode_parts_wire by (rewrite ?length_take; done || lia). cbn [rbind].
  destruct (drop (length (wire_labels labels)) old) as [|o [|? ?]] eqn:Ed;
    apply (f_equal length) in Ed; rewrite length_drop in Ed; cbn [length] in Ed; try lia.
  cbn [app]. rewrite store_byte. cbn [rbind]. rewrite advance_cons. by rewrite <- (app_assoc pre).
Qed.

(** ** Theorems *)

(** Encoding a name whose labels are one to sixty-three characters long and decoding it
    gives the fully qualified name back, whether or not it had its final dot, with the
    position after the name; what is written is the wire form of the labels. *)
Theorem dns_name_roundtrip (labels : list (list Z)) (name pre old rest : list Z) :
  name_of labels name -> length old = length (wire_name labels) ->
  exists buf,
    EncodeNameTo name (pre ‖ old ++ rest) = Ok (true, buf) /\
    buf = ((pre ++ wire_name labels) ‖ rest) /\
    DecodeName false (Buffer (mem buf) (length pre)) = Ok (Some (dotted labels), buf).
Proof.
  intros Hn Ho. eexists. split; [by apply EncodeNameTo_wire|]. split; [done|]. cbn [mem].
  rewrite <- (app_assoc pre). destruct Hn as (_ & Hl & _). rewrite DecodeName_wire by done.
  by rewrite (app_assoc pre).
Qed.

Lemma dns_name_roundtrip_witness :
  let labels := [[97; 98]; [108; 111; 107; 105]] in
  name_of labels [97; 98; 46; 108; 111; 107; 105] /\
  exists buf, EncodeNameTo [97; 98; 46; 108; 111; 107; 105] (Buffer (replicate 12 7) 1) = Ok (true, buf) /\
    DecodeName false (Buffer (mem buf) 1) = Ok (Some [97; 98; 46; 108; 111; 107; 105; 46], buf).
Proof.
  intros labels. assert (name_of labels [97; 98; 46; 108; 111; 107; 105]) as Hn.
  { split; [discriminate|]. split; [|left; reflexivity].
    repeat constructor; cbn; try lia; apply (bool_decide_unpack _); vm_compute; exact I. }
  split; [exact Hn|].
  destruct (dns_name_roundtrip labels [97; 98; 46; 108; 111; 107; 105] [7] (replicate 9 7) [7; 7]) as (buf & E & _ & D).
  - exact Hn.
  - reflexivity.
  - exists buf. split; [exact E|exact D].
Defined.

(** [EncodeNameTo] checks the room for a label only after storing its length, and never
    for the closing byte: with one byte less than the name needs it writes past the end. *)
Theorem encode_name_out_of_bounds (labels : list (list Z)) (name pre rest : list Z) :
  name_of labels name -> (length rest + 1 = length (wire_name labels))%nat ->
  EncodeNameTo name (pre ‖ rest) = Oob.
Proof.
  intros Hn Hr. unfold EncodeNameTo. rewrite (name_parts labels name Hn). destruct Hn as (_ & Hl & _).
  unfold wire_name in Hr. rewrite length_app in Hr. cbn [length] in Hr.
  rewrite <- (app_nil_r rest), encode_parts_wire by (done || lia). cbn [rbind]. by rewrite store_oob by (cbn; lia).
Qed.

Lemma encode_name_out_of_bounds_witness :
  EncodeNameTo [97; 98] (Buffer (replicate 3 0) 0) = Oob.
Proof.
  apply (encode_name_out_of_bounds [[97; 98]] [97; 98] [] (replicate 3 0)); [|reflexivity].
  split; [discriminate|]. split; [|left; reflexivity].
  repeat constructor; cbn; try lia; apply (bool_decide_unpack _); vm_compute; exact I.
Defined.

(** The loop of [DecodeName] ends on every buffer, but it reads outside the buffer when
    labels run up to its end with no closing byte, and with [trimTrailingDot] it shortens an
    empty string for the root name. *)
Theorem decode_name_behaviour (labels : list (list Z)) (pre rest : list Z) :
  Forall label_ok labels ->
  DecodeName false (pre ‖ rest) <> NoFuel /\
  (labels <> [] -> DecodeName false (pre ‖ wire_labels labels) = Oob) /\
  DecodeName true (pre ‖ 0 :: rest) = Oob.
Proof.
  intros Hl. split_and!.
  - unfold DecodeName. rewrite size_left_at. destruct (_ <? _)%nat; [done|].
    destruct (decode_name_loop_total (S (length rest)) [] pre rest) as [->|(r & p & q & -> & _)]; [lia|done|].
    cbn [rbind]. by destruct r.
  - intros Hne. pose proof (length_wire_labels labels Hl) as Hlen. unfold DecodeName. rewrite size_left_at.
    assert (0 < length labels)%nat by (destruct labels; [done|cbn; lia]).
    rewrite (proj2 (Nat.ltb_ge _ _)) by lia. by rewrite decode_name_loop_unterminated by (done || lia).
  - unfold DecodeName. rewrite size_left_at. cbn [length Nat.ltb Nat.leb decode_name_loop].
    rewrite deref_cons. done.
Qed.

Lemma decode_name_behaviour_witness :
  Forall label_ok [[97]] /\ DecodeName false (Buffer [1; 97] 0) = Oob.
Proof.
  assert (Forall label_ok [[97]]) as H.
  { repeat constructor; cbn; try lia; apply (bool_decide_unpack _); vm_compute; exact I. }
  split; [exact H|]. destruct (decode_name_behaviour [[97]] [] [] H) as (_ & E & _). apply E. discriminate.
Defined.

(** The root name is written as two zero bytes instead of one, so what follows it in
    a message is read one byte too early. *)
Theorem root_name_extra_byte (pre rest : list Z) (o1 o2 : Z) :
  EncodeNameTo [] (pre ‖ o1 :: o2 :: rest) = Ok (true, (pre ++ [0; 0]) ‖ rest) /\
  EncodeNameTo [chr_dot] (pre ‖ o1 :: o2 :: rest) = Ok (true, (pre ++ [0; 0]) ‖ rest) /\
  DecodeName false (pre ‖ 0 :: 0 :: rest) = Ok (Some [], (pre ++ [0]) ‖ 0 :: rest).
Proof.
  assert (EncodeNameTo [] (pre ‖ o1 :: o2 :: rest) = Ok (true, (pre ++ [0; 0]) ‖ rest)) as E.
  { unfold EncodeNameTo. change (split (without_last_dot []) [chr_dot] false) with [[] : list Z].
    cbn [encode_parts length Nat.ltb Nat.leb Z.of_nat]. rewrite store_byte. cbn [rbind].
    rewrite advance_cons. cbn [Nat.eqb rbind]. rewrite store_byte. cbn [rbind]. rewrite advance_cons. by rewrite <- (app_assoc pre). }
  split_and!; [exact E|exact E|]. apply (DecodeName_wire [] pre (0 :: rest)). constructor.
Qed.

(** ** Reverse lookup *)
Lemma find_pattern p0 p1 ps x y :
  p1 ∉ x -> p1 <> p0 -> find (p0 :: p1 :: ps) (x ++ (p0 :: p1 :: ps) ++ y) = Some (length x).
Proof.
  intros Hx Hp. induction x as [|c x IH]; cbn [app find length].
  - assert (starts_with (p0 :: p1 :: ps ++ y) (p0 :: p1 :: ps) = true) as -> by (apply starts_with_spec; by exists y). done.
  - assert (starts_with (c :: x ++ p0 :: p1 :: ps ++ y) (p0 :: p1 :: ps) = false) as ->.
    { apply not_true_is_false. intros [r Hr]%starts_with_spec. injection Hr as -> Hr.
      destruct x as [|c' x]; cbn in Hr; injection Hr; intros; subst; [done|]. set_solver. }
    cbn [app] in IH. by rewrite IH by set_solver.
Qed.

Lemma print_dec_no c n : 0 <= n -> is_digit c = false -> c ∉ print_dec n.
Proof.
  intros Hn Hc Hin. pose proof (print_dec_digits n Hn) as Hd. rewrite Forall_forall in Hd.
  rewrite (Hd c Hin) in Hc. done.
Qed.

Lemma count_char_app c a b : count_char c (a ++ b) = (count_char c a + count_char c b)%nat.
Proof. unfold count_char. by rewrite filter_app, length_app. Qed.
Lemma count_char_cons c a : count_char c (c :: a) = S (count_char c a).
Proof. unfold count_char. cbn. by rewrite decide_True. Qed.
Lemma count_char_none c a : c ∉ a -> count_char c a = 0%nat.
Proof.
  intros H. unfold count_char. induction a as [|x a IH]; [done|]. cbn. rewrite decide_False by set_solver.
  apply IH. set_solver.
Qed.

Lemma ptr_octets_cons i o rest :
  0 <= o <= 255 ->
  ptr_octets (S i) (print_dec o ++ chr_dot :: rest) = (fun q => q ++ [o]) <$> ptr_octets i rest.
Proof.
  intros Ho. cbn [ptr_octets]. rewrite find_char by (apply print_dec_no; [lia|done]).
  rewrite take_app_length, drop_app_add' by done. cbn [drop]. by rewrite parse_int_print.
Qed.

(** The name of the PTR record of an IPv4 address. *)
Definition ptr_name (q0 q1 q2 q3 : Z) : list Z :=
  print_dec q3 ++ chr_dot :: print_dec q2 ++ chr_dot :: print_dec q1 ++ chr_dot :: print_dec q0.

(** [DecodePTR] recovers the address from the reverse lookup name of every IPv4 address,
    with or without a final dot. *)
Theorem decode_ptr_v4 {OS : OxencSwap} {OH : OxencHex} (q0 q1 q2 q3 : Z) (tail : list Z) :
  is_byte q0 -> is_byte q1 -> is_byte q2 -> is_byte q3 ->
  DecodePTR (ptr_name q0 q1 q2 q3 ++ str_in_addr_arpa ++ tail)
  = Some (ToHost (ExpandV4 (ipaddr_ipv4_bits q0 q1 q2 q3))).
Proof.
  unfold is_byte. intros H0 H1 H2 H3. unfold DecodePTR.
  assert (forall o c, 0 <= o < 256 -> is_digit c = false -> c ∉ print_dec o) as Hno
    by (intros; apply print_dec_no; [lia|done]).
  assert (105 ∉ ptr_name q0 q1 q2 q3) as Hi.
  { unfold ptr_name. rewrite !elem_of_app, !elem_of_cons, !elem_of_app, !elem_of_cons, !elem_of_app, !elem_of_cons.
    pose proof (Hno q0 105 H0 eq_refl). pose proof (Hno q1 105 H1 eq_refl).
    pose proof (Hno q2 105 H2 eq_refl). pose proof (Hno q3 105 H3 eq_refl). naive_solver. }
  unfold str_in_addr_arpa. rewrite find_pattern by done. cbn [app].
  assert (take (length (ptr_name q0 q1 q2 q3) + 1)
    (ptr_name q0 q1 q2 q3 ++ 46 :: 105 :: 110 :: 45 :: 97 :: 100 :: 100 :: 114 :: 46 :: 97 :: 114 :: 112 :: 97 :: tail)
    = ptr_name q0 q1 q2 q3 ++ [chr_dot]) as ->.
  { set (l := 105 :: _). change (46 :: l) with ([chr_dot] ++ l). rewrite app_assoc.
    replace (length (ptr_name q0 q1 q2 q3) + 1)%nat with (length (ptr_name q0 q1 q2 q3 ++ [chr_dot])) by (by rewrite length_app).
    apply take_app_length. }
  assert (count_char chr_dot (ptr_name q0 q1 q2 q3 ++ [chr_dot]) = 4%nat) as ->.
  { unfold ptr_name. repeat rewrite ?count_char_app, ?count_char_cons.
    by rewrite !(count_char_none chr_dot (print_dec _)) by (by apply Hno). }
  cbn [Nat.eqb negb andb]. unfold ptr_name. rewrite <- !app_assoc. cbn [app]. rewrite <- !app_assoc. cbn [app].
  rewrite <- !app_assoc. cbn [app]. rewrite !ptr_octets_cons by lia. done.
Qed.

Definition hex_ref : OxencHex := {| is_hex_digit c := is_digit c; from_hex l := l |}.
Lemma decode_ptr_v4_witness :
  let os := oxenc_swap_ref in let oh := hex_ref in
  DecodePTR (ptr_name 10 1 2 3 ++ str_in_addr_arpa ++ [chr_dot]) = Some (HUInt (U128 0 (65535 * 2 ^ 32 + 167838211))).
Proof.
  intros os oh. rewrite (decode_ptr_v4 10 1 2 3 [chr_dot]).
  - vm_compute. reflexivity.
  - split; [discriminate|reflexivity].
  - split; [discriminate|reflexivity].
  - split; [discriminate|reflexivity].
  - split; [discriminate|reflexivity].
Defined.
