(* ===== verification/DnsMessage.v ===== *)
(** * DNS messages (llarp/dns/serialize.cpp, question.cpp, rr.cpp, message.cpp, srv_data.cpp,
    dns.hpp)

    The structures of the source as records; [Encode] writes to a buffer, [Decode] fills the
    object it is called on, so it takes and returns the object. The replies of
    [Message::Add*Reply] change the message; indexing an empty vector is [Oob]. *)

From S2P Require Import Prelude Buffer Bencode Str NetInt IpRange DnsName.

(** ** Constants of dns.hpp *)
Definition qTypeSRV : Z := 33.
Definition qTypeAAAA : Z := 28.
Definition qTypeTXT : Z := 16.
Definition qTypeMX : Z := 15.
Definition qTypePTR : Z := 12.
Definition qTypeCNAME : Z := 5.
Definition qTypeNS : Z := 2.
Definition qTypeA : Z := 1.
Definition qClassIN : Z := 1.
Definition flags_QR : Z := Z.shiftl 1 15.
Definition flags_AA : Z := Z.shiftl 1 10.
Definition flags_TC : Z := Z.shiftl 1 9.
Definition flags_RD : Z := Z.shiftl 1 8.
Definition flags_RA : Z := Z.shiftl 1 7.
Definition flags_RCODENameError : Z := 3.
Definition flags_RCODEServFail : Z := 2.

Section serialize.
Context {OX : Oxenc}.

Definition EncodeRData (v : list Z) (buf : llarp_buffer_t) : res (bool * llarp_buffer_t) :=
  if (65536 <? Z.of_nat (length v)) then Ok (false, buf)
  else
    let len := u16 (Z.of_nat (length v)) in
    let* (ok, buf) := put_uint16 len buf in
    if negb ok then Ok (false, buf)
    else if Z.of_nat (size_left buf) <? len then Ok (false, buf)
    else
      let* buf := store (take (Z.to_nat len) v) buf in
      Ok (true, advance (Z.to_nat len) buf).

(** The vector is resized only on success. *)
Definition DecodeRData (v : list Z) (buf : llarp_buffer_t) : res (bool * list Z * llarp_buffer_t) :=
  let* (len, buf) := read_uint16 buf in
  match len with
  | None => Ok (false, v, buf)
  | Some len =>
      if Z.of_nat (size_left buf) <? len then Ok (false, v, buf)
      else
        let n := Z.to_nat len in
        Ok (true, take n (drop (cur buf) (mem buf)), advance n buf)
  end.
End serialize.

(** ** Question *)
Module Question.
Record t := Mk { qname : list Z; qtype : Z; qclass : Z }.
#[global] Instance eq_dec : EqDecision t. Proof. solve_decision. Defined.

Definition dflt : t := Mk [] 0 0.
(** [Question(std::string name, QType_t type)] *)
Definition new (name : list Z) (type : Z) : res t :=
  match name with [] => Throw | _ => Ok (Mk name type qClassIN) end.

Section ops.
Context {OX : Oxenc}.
Definition Encode (q : t) : llarp_buffer_t -> res (bool * llarp_buffer_t) :=
  EncodeNameTo (qname q) ⩓ put_uint16 (qtype q) ⩓ put_uint16 (qclass q).

Definition Decode (q : t) (buf : llarp_buffer_t) : res (bool * t * llarp_buffer_t) :=
  let* (name, buf) := DecodeName false buf in
  match name with
  | None => Ok (false, q, buf)
  | Some name =>
      let q := Mk name (qtype q) (qclass q) in
      let* (ty, buf) := read_uint16 buf in
      match ty with
      | None => Ok (false, q, buf)
      | Some ty =>
          let q := Mk name ty (qclass q) in
          let* (cl, buf) := read_uint16 buf in
          match cl with
          | None => Ok (false, q, buf)
          | Some cl => Ok (true, Mk name ty cl, buf)
          end
      end
  end.
End ops.

(** [other.find_last_of('.') == other.size() - 1], in [size_t] *)
Definition ends_in_dot (other : list Z) : bool :=
  to_size (rfind [chr_dot] other (length other)) =? u64 (Z.of_nat (length other) - 1).
Definition IsName (other : list Z) (q : t) : bool :=
  if ends_in_dot other then bool_decide (other = qname q)
  else bool_decide (other ++ [chr_dot] = qname q).

Definition str_localhost_loki : list Z :=
  [108; 111; 99; 97; 108; 104; 111; 115; 116] ++ str_dot_loki ++ [chr_dot].
Definition IsLocalhost (q : t) : bool :=
  bool_decide (qname q = str_localhost_loki) || ends_with (qname q) ([chr_dot] ++ str_localhost_loki).

Definition HasSubdomains (q : t) : bool := (3 <=? length (split (qname q) [chr_dot] true))%nat.

Definition Subdomains (q : t) : list Z :=
  if (length (qname q) <? 2)%nat then []
  else
    match rfind [chr_dot] (qname q) (length (qname q) - 2) with
    | None | Some O => []
    | Some (S pos) =>
        match rfind [chr_dot] (qname q) pos with
        | None | Some O => []
        | Some pos => take pos (qname q)
        end
    end.

Definition Name (q : t) : list Z :=
  match rfind [chr_dot] (qname q) (length (qname q)) with
  | Some pos => take pos (qname q)
  | None => qname q
  end.

Definition HasTLD (tld : list Z) (q : t) : bool :=
  match find tld (qname q) with
  | None => false
  | Some _ =>
      to_size (rfind tld (qname q) (length (qname q)))
      =? u64 (u64 (Z.of_nat (length (qname q)) - Z.of_nat (length tld)) - 1)
  end.
End Question.

(** ** ResourceRecord *)
Module ResourceRecord.
Record t := Mk { rr_name : list Z; rr_type : Z; rr_class : Z; ttl : Z; rData : list Z }.
#[global] Instance eq_dec : EqDecision t. Proof. solve_decision. Defined.
Definition dflt : t := Mk [] 0 0 0 [].
Definition new (name : list Z) (type : Z) (data : list Z) : t := Mk name type qClassIN 1 data.

Section ops.
Context {OX : Oxenc}.
Definition Encode (r : t) : llarp_buffer_t -> res (bool * llarp_buffer_t) :=
  EncodeNameTo (rr_name r) ⩓ put_uint16 (rr_type r) ⩓ put_uint16 (rr_class r) ⩓ put_uint32 (ttl r)
    ⩓ EncodeRData (rData r).

(** The name is taken to be a two-byte pointer and dropped. *)
Definition Decode (r : t) (buf : llarp_buffer_t) : res (bool * t * llarp_buffer_t) :=
  let* (discard, buf) := read_uint16 buf in
  match discard with
  | None => Ok (false, r, buf)
  | Some _ =>
  let* (ty, buf) := read_uint16 buf in
  match ty with
  | None => Ok (false, r, buf)
  | Some ty =>
  let r := Mk (rr_name r) ty (rr_class r) (ttl r) (rData r) in
  let* (cl, buf) := read_uint16 buf in
  match cl with
  | None => Ok (false, r, buf)
  | Some cl =>
  let r := Mk (rr_name r) ty cl (ttl r) (rData r) in
  let* (tl, buf) := read_uint32 buf in
  match tl with
  | None => Ok (false, r, buf)
  | Some tl =>
  let* (ok, data, buf) := DecodeRData (rData r) buf in
  Ok (ok, Mk (rr_name r) ty cl tl data, buf)
  end end end end.
End ops.

Definition HasCNameForTLD (tld : list Z) (r : t) : res bool :=
  if negb (rr_type r =? qTypeCNAME) then Ok false
  else
    let* (name, _) := DecodeName false (Buffer (rData r) 0) in
    match name with
    | None => Ok false
    | Some name =>
        Ok (to_size (rfind tld name (length name))
            =? u64 (Z.of_nat (length name) - Z.of_nat (length tld) - 1))
    end.
End ResourceRecord.

(** ** SRVData *)
Module SRVData.
Record t := Mk { service_proto : list Z; priority : Z; weight : Z; port : Z; target : list Z }.
Definition TARGET_MAX_SIZE : nat := 200.
Definition IsValid (s : t) : bool :=
  let target := target s in
  if bool_decide (target = [chr_dot]) || (length target =? 0)%nat then true
  else if (TARGET_MAX_SIZE <? length target)%nat then false
  else match find str_dot_loki target with
       | Some pos => if (Z.of_nat pos =? u64 (Z.of_nat (length target) - 5)) then true
                     else match find str_dot_snode target with
                          | Some pos => Z.of_nat pos =? u64 (Z.of_nat (length target) - 6)
                          | None => false
                          end
       | None => match find str_dot_snode target with
                 | Some pos => Z.of_nat pos =? u64 (Z.of_nat (length target) - 6)
                 | None => false
                 end
       end.

Definition toTuple (s : t) := (service_proto s, priority s, weight s, port s, target s).
Definition fromTuple (tuple : list Z * Z * Z * Z * list Z) : t :=
  let '(a, b, c, d, e) := tuple in Mk a b c d e.

(** The object is changed as far as the parse got. *)
Definition fromString (srvString : list Z) (s : t) : bool * t :=
  match split srvString [32] false with
  | sp :: prio :: wei :: po :: rest =>
      let with_target (s : t) (tg : list Z) :=
        let s := Mk (service_proto s) (priority s) (weight s) (port s) tg in (IsValid s, s) in
      let parse (tg : list Z) :=
        let s := Mk sp (priority s) (weight s) (port s) (target s) in
        match parse_int 65535 prio with
        | None => (false, s)
        | Some prio =>
            let s := Mk sp prio (weight s) (port s) (target s) in
            match parse_int 65535 wei with
            | None => (false, s)
            | Some wei =>
                let s := Mk sp prio wei (port s) (target s) in
                match parse_int 65535 po with
                | None => (false, s)
                | Some po => with_target (Mk sp prio wei po (target s)) tg
                end
            end
        end in
      match rest with
      | [] => parse []
      | [tg] => parse tg
      | _ => (false, s)
      end
  | _ => (false, s)
  end.
End SRVData.

(** ** MessageHeader *)
Module MessageHeader.
Record t := Mk { id : Z; fields : Z; qd_count : Z; an_count : Z; ns_count : Z; ar_count : Z }.
Section ops.
Context {OX : Oxenc}.
Definition Encode (h : t) : llarp_buffer_t -> res (bool * llarp_buffer_t) :=
  put_uint16 (id h) ⩓ put_uint16 (fields h) ⩓ put_uint16 (qd_count h) ⩓ put_uint16 (an_count h)
    ⩓ put_uint16 (ns_count h) ⩓ put_uint16 (ar_count h).

(** The header, or nothing when the buffer is too short. *)
Definition Decode (buf : llarp_buffer_t) : res (option t * llarp_buffer_t) :=
  let* (a, buf) := read_uint16 buf in
  match a with None => Ok (None, buf) | Some a =>
  let* (b, buf) := read_uint16 buf in
  match b with None => Ok (None, buf) | Some b =>
  let* (c, buf) := read_uint16 buf in
  match c with None => Ok (None, buf) | Some c =>
  let* (d, buf) := read_uint16 buf in
  match d with None => Ok (None, buf) | Some d =>
  let* (e, buf) := read_uint16 buf in
  match e with None => Ok (None, buf) | Some e =>
  let* (f, buf) := read_uint16 buf in
  match f with None => Ok (None, buf) | Some f => Ok (Some (Mk a b c d e f), buf)
  end end end end end end.
End ops.
End MessageHeader.

(** ** Message *)
Module Message.
Record t := Mk {
  hdr_id : Z;
  hdr_fields : Z;
  questions : list Question.t;
  answers : list ResourceRecord.t;
  authorities : list ResourceRecord.t;
  additional : list ResourceRecord.t;
}.
#[global] Instance t_eta : Eta t := fun m =>
  Mk (hdr_id m) (hdr_fields m) (questions m) (answers m) (authorities m) (additional m).
#[global] Instance eq_dec : EqDecision t. Proof. solve_decision. Defined.

(** [Message(const MessageHeader&)] and [Message(const Question&)] *)
Definition of_header (h : MessageHeader.t) : t :=
  Mk (MessageHeader.id h) (MessageHeader.fields h)
    (replicate (Z.to_nat (MessageHeader.qd_count h)) Question.dflt)
    (replicate (Z.to_nat (MessageHeader.an_count h)) ResourceRecord.dflt)
    (replicate (Z.to_nat (MessageHeader.ns_count h)) ResourceRecord.dflt)
    (replicate (Z.to_nat (MessageHeader.ar_count h)) ResourceRecord.dflt).
Definition of_question (q : Question.t) : t := Mk 0 0 [q] [] [] [].

Section ops.
Context {OX : Oxenc}.

Fixpoint encode_all {A} (enc : A -> llarp_buffer_t -> res (bool * llarp_buffer_t)) (l : list A)
  : llarp_buffer_t -> res (bool * llarp_buffer_t) :=
  match l with
  | [] => fun buf => Ok (true, buf)
  | x :: l => enc x ⩓ encode_all enc l
  end.

Definition header (m : t) : MessageHeader.t :=
  MessageHeader.Mk (hdr_id m) (hdr_fields m)
    (u16 (Z.of_nat (length (questions m)))) (u16 (Z.of_nat (length (answers m)))) 0 0.
Definition Encode (m : t) : llarp_buffer_t -> res (bool * llarp_buffer_t) :=
  MessageHeader.Encode (header m) ⩓ encode_all Question.Encode (questions m)
    ⩓ encode_all ResourceRecord.Encode (answers m).

(** Decodes the objects of a vector in place until one fails. *)
Fixpoint decode_all {A} (dec : A -> llarp_buffer_t -> res (bool * A * llarp_buffer_t)) (l : list A)
    (buf : llarp_buffer_t) : res (bool * list A * llarp_buffer_t) :=
  match l with
  | [] => Ok (true, [], buf)
  | x :: l =>
      let* (ok, x, buf) := dec x buf in
      if ok : bool then
        let* (ok, l, buf) := decode_all dec l buf in Ok (ok, x :: l, buf)
      else Ok (false, x :: l, buf)
  end.

Definition Decode (m : t) (buf : llarp_buffer_t) : res (bool * t * llarp_buffer_t) :=
  let* (ok, qs, buf) := decode_all Question.Decode (questions m) buf in
  let m := m <| questions := qs |> in
  if negb ok then Ok (false, m, buf)
  else
    let* (ok, ans, buf) := decode_all ResourceRecord.Decode (answers m) buf in
    Ok (ok, m <| answers := ans |>, buf).

Definition MaybeParseDNSMessage (buf : llarp_buffer_t) : res (option t) :=
  let* (hdr, buf) := MessageHeader.Decode buf in
  match hdr with
  | None => Ok None
  | Some hdr =>
      let* (ok, msg, buf) := Decode (of_header hdr) buf in
      Ok (if ok : bool then Some msg else None)
  end.

(** [ToBuffer]: the bytes used of a 1500 byte array, whose initial content is irrelevant. *)
Definition ToBuffer (m : t) : res (list Z) :=
  let* (ok, buf) := Encode m (Buffer (replicate 1500 0) 0) in
  if ok : bool then Ok (copy_used buf) else Throw.

(** ** Replies *)
Definition reply_flags (setbits : Z) : Z := Z.lor (Z.lor (Z.lor setbits flags_QR) flags_AA) flags_RA.

Definition AddServFail (m : t) : t :=
  match questions m with
  | [] => m
  | _ =>
      let f := Z.lor (hdr_fields m) flags_RCODEServFail in
      let f := Z.lor f (Z.lor (Z.lor flags_QR flags_AA) flags_RA) in
      m <| hdr_fields := Z.ldiff f flags_RD |>
  end.

Definition AddNXReply (m : t) : t :=
  match questions m with
  | [] => m
  | _ =>
      let f := Z.lor (Z.ldiff (reply_flags (hdr_fields m)) flags_RD) flags_RCODENameError in
      m <| answers := [] |> <| authorities := [] |> <| additional := [] |> <| hdr_fields := f |>
  end.

Section addresses.
Context {OS : OxencSwap}.
Definition AddINReply (ip : huint128_t) (isV6 : bool) (ttl : Z) (m : t) : t :=
  match questions m with
  | [] => m
  | q :: _ =>
      let rec :=
        if isV6 then ResourceRecord.Mk (Question.qname q) qTypeAAAA qClassIN ttl (ToV6_128 ip)
        else
          let addr := ToHost (TruncateV6 (ToNet ip)) in
          ResourceRecord.Mk (Question.qname q) qTypeA qClassIN ttl (write_host_as_big 4 (v32 (hval addr))) in
      m <| hdr_fields := reply_flags (hdr_fields m) |> <| answers ::= fun l => l ++ [rec] |>
  end.
End addresses.

(** The record with the given type whose data is what [enc] wrote to a zeroed array of 512
    bytes; empty when it failed. *)
Definition encoded_rdata (enc : llarp_buffer_t -> res (bool * llarp_buffer_t)) : res (list Z) :=
  let* (ok, buf) := enc (Buffer (replicate 512 0) 0) in
  Ok (if ok : bool then take (cur buf) (mem buf) else []).

Definition name_reply (rtype : Z) (enc : llarp_buffer_t -> res (bool * llarp_buffer_t)) (ttl : Z) (m : t) : res t :=
  match questions m with
  | [] => Ok m
  | q :: _ =>
      let* data := encoded_rdata enc in
      Ok (m <| hdr_fields := reply_flags (hdr_fields m) |>
            <| answers ::= fun l => l ++ [ResourceRecord.Mk (Question.qname q) rtype qClassIN ttl data] |>)
  end.

Definition AddAReply (name : list Z) (ttl : Z) (m : t) : res t :=
  name_reply (match questions m with q :: _ => Question.qtype q | [] => 0 end) (EncodeNameTo name) ttl m.
Definition AddNSReply (name : list Z) (ttl : Z) (m : t) : res t := name_reply qTypeNS (EncodeNameTo name) ttl m.
Definition AddCNAMEReply (name : list Z) (ttl : Z) (m : t) : res t := name_reply qTypeCNAME (EncodeNameTo name) ttl m.

(** The result of [put_uint16(priority)] is ignored. *)
Definition put_ignore (v : Z) (enc : llarp_buffer_t -> res (bool * llarp_buffer_t)) (buf : llarp_buffer_t)
  : res (bool * llarp_buffer_t) := let* (_, buf) := put_uint16 v buf in enc buf.
Definition AddMXReply (name : list Z) (priority ttl : Z) (m : t) : res t :=
  name_reply qTypeMX (put_ignore priority (EncodeNameTo name)) ttl m.

(** The target of a record without one: [qname] after its second dot, in [size_t] arithmetic. *)
Definition srv_target (qname : list Z) (srv : SRVData.t) : list Z :=
  match SRVData.target srv with
  | [] =>
      let pos := to_size (find [chr_dot] qname) in
      let pos := to_size (find_from [chr_dot] qname (Z.to_nat (u64 (pos + 1)))) in
      drop (Z.to_nat (u64 (pos + 1))) qname
  | tg => tg
  end.

Fixpoint srv_loop (records : list SRVData.t) (q : Question.t) (ttl : Z) (m : t) : res t :=
  match records with
  | [] => Ok m
  | srv :: records =>
      if negb (SRVData.IsValid srv) then Ok (AddNXReply m)
      else
        let* (ok, buf) :=
          put_ignore (SRVData.priority srv) (put_ignore (SRVData.weight srv) (put_ignore (SRVData.port srv)
            (EncodeNameTo (srv_target (Question.qname q) srv)))) (Buffer (replicate 512 0) 0) in
        if negb ok then
          Ok (AddNXReply (m <| answers ::= fun l => l ++ [ResourceRecord.Mk (Question.qname q) qTypeSRV qClassIN ttl []] |>))
        else
          srv_loop records q ttl
            (m <| answers ::= fun l => l ++
                 [ResourceRecord.Mk (Question.qname q) qTypeSRV qClassIN ttl (take (cur buf) (mem buf))] |>)
  end.

Definition AddSRVReply (records : list SRVData.t) (ttl : Z) (m : t) : res t :=
  let m := m <| hdr_fields := reply_flags (hdr_fields m) |> in
  match questions m with
  | [] => Oob
  | q :: _ => srv_loop records q ttl m
  end.

Fixpoint txt_loop (fuel : nat) (str : list Z) (buf : llarp_buffer_t) : res llarp_buffer_t :=
  match fuel with
  | O => NoFuel
  | S fuel =>
      match str with
      | [] => Ok buf
      | _ =>
          let left := Nat.min (length str) 256 in
          let sub := take left str in
          let* buf := store [u8 (Z.of_nat left)] buf in
          let* (ok, buf) := write sub (advance 1 buf) in
          if ok : bool then txt_loop fuel (drop left str) buf else Throw
      end
  end.

Definition AddTXTReply (str : list Z) (ttl : Z) (m : t) : res t :=
  match questions m with
  | [] => Oob
  | q :: _ =>
      let* buf := txt_loop (S (length str)) str (Buffer (replicate 1024 0) 0) in
      Ok (m <| answers ::= fun l => l ++
            [ResourceRecord.Mk (Question.qname q) qTypeTXT qClassIN ttl (take (cur buf) (mem buf))] |>)
  end.
End ops.
End Message.

(** * What is written *)

(** [f] writes exactly the bytes [w] whenever they fit. *)
Definition emits (f : llarp_buffer_t -> res (bool * llarp_buffer_t)) (w : list Z) : Prop :=
  forall pre old rest, length old = length w -> f (pre ‖ old ++ rest) = Ok (true, (pre ++ w) ‖ rest).

Lemma emits_andthen f g w1 w2 : emits f w1 -> emits g w2 -> emits (f ⩓ g) (w1 ++ w2).
Proof.
  intros Hf Hg pre old rest Ho. rewrite length_app in Ho. unfold andthen.
  rewrite <- (take_drop (length w1) old), <- (app_assoc (take _ old)).
  rewrite Hf by (rewrite length_take; lia). cbn [rbind]. rewrite Hg by (rewrite length_drop; lia).
  by rewrite (app_assoc pre).
Qed.

Lemma emits_name labels name : name_of labels name -> emits (EncodeNameTo name) (wire_name labels).
Proof. intros Hn pre old rest Ho. by apply EncodeNameTo_wire. Qed.

Section wire.
Context {OX : Oxenc} {OXS : OxencSpec OX}.

Lemma emits_put n v : 0 <= v < 256 ^ Z.of_nat n -> emits (put n v) (be_encode n v).
Proof. intros Hv pre old rest Ho. rewrite length_be_encode in Ho. by apply put_fits. Qed.

Lemma emits_u16 v : in_width 16 v -> emits (put_uint16 v) (be_encode 2 v).
Proof. intros Hv. apply emits_put. exact Hv. Qed.
Lemma emits_u32 v : in_width 32 v -> emits (put_uint32 v) (be_encode 4 v).
Proof. intros Hv. apply emits_put. exact Hv. Qed.

Definition wire_rdata (v : list Z) : list Z := be_encode 2 (Z.of_nat (length v)) ++ v.
Lemma emits_rdata v : Z.of_nat (length v) < 65536 -> emits (EncodeRData v) (wire_rdata v).
Proof.
  intros Hv pre old rest Ho. unfold wire_rdata in *. rewrite length_app, length_be_encode in Ho. unfold EncodeRData.
  rewrite (proj2 (Z.ltb_ge _ _)) by lia. rewrite wrap_id by (unfold in_width; lia).
  rewrite <- (take_drop 2 old), <- (app_assoc (take _ old)). rewrite emits_u16; [|unfold in_width; lia|rewrite length_take, length_be_encode; lia].
  cbn [rbind negb]. rewrite size_left_at, length_app, length_drop.
  rewrite (proj2 (Z.ltb_ge _ _)) by lia. rewrite Nat2Z.id, firstn_all.
  rewrite store_at by (rewrite length_drop; lia). cbn [rbind]. rewrite advance_app. by rewrite (app_assoc pre).
Qed.

(** Encodable questions and records, with the labels of their names. *)
Record question_ok (labels : list (list Z)) (q : Question.t) : Prop := {
  qo_name : name_of labels (Question.qname q);
  qo_type : in_width 16 (Question.qtype q);
  qo_class : in_width 16 (Question.qclass q);
}.
Definition wire_question (labels : list (list Z)) (q : Question.t) : list Z :=
  wire_name labels ++ be_encode 2 (Question.qtype q) ++ be_encode 2 (Question.qclass q).

Record rr_ok (labels : list (list Z)) (r : ResourceRecord.t) : Prop := {
  ro_name : name_of labels (ResourceRecord.rr_name r);
  ro_type : in_width 16 (ResourceRecord.rr_type r);
  ro_class : in_width 16 (ResourceRecord.rr_class r);
  ro_ttl : in_width 32 (ResourceRecord.ttl r);
  ro_data : Z.of_nat (length (ResourceRecord.rData r)) < 65536;
}.
Definition wire_rr_tail (r : ResourceRecord.t) : list Z :=
  be_encode 2 (ResourceRecord.rr_type r) ++ be_encode 2 (ResourceRecord.rr_class r)
    ++ be_encode 4 (ResourceRecord.ttl r) ++ wire_rdata (ResourceRecord.rData r).
Definition wire_rr (labels : list (list Z)) (r : ResourceRecord.t) : list Z := wire_name labels ++ wire_rr_tail r.

Lemma emits_question labels q : question_ok labels q -> emits (Question.Encode q) (wire_question labels q).
Proof.
  intros [Hn Ht Hc]. unfold Question.Encode, wire_question.
  do 2 (apply emits_andthen; [first [by apply emits_name|by apply emits_u16]|]). by apply emits_u16.
Qed.
Lemma emits_rr labels r : rr_ok labels r -> emits (ResourceRecord.Encode r) (wire_rr labels r).
Proof.
  intros [Hn Ht Hc Hl Hd]. unfold ResourceRecord.Encode, wire_rr, wire_rr_tail.
  do 4 (apply emits_andthen; [first [by apply emits_name|by apply emits_u16|by apply emits_u32]|]).
  by apply emits_rdata.
Qed.

Lemma emits_all {A} (enc : A -> llarp_buffer_t -> res (bool * llarp_buffer_t)) (ok : list (list Z) -> A -> Prop)
    (wire : list (list Z) -> A -> list Z) ls l :
  (forall ls x, ok ls x -> emits (enc x) (wire ls x)) -> Forall2 ok ls l ->
  emits (Message.encode_all enc l) (concat (zip_with wire ls l)).
Proof.
  intros H. induction 1 as [|x y ls l Hxy _ IH]; cbn [Message.encode_all zip_with concat].
  - intros pre old rest Ho. destruct old; [|done]. by rewrite app_nil_r.
  - apply emits_andthen; [by apply H|exact IH].
Qed.

Definition wire_header (h : MessageHeader.t) : list Z :=
  be_encode 2 (MessageHeader.id h) ++ be_encode 2 (MessageHeader.fields h) ++ be_encode 2 (MessageHeader.qd_count h)
    ++ be_encode 2 (MessageHeader.an_count h) ++ be_encode 2 (MessageHeader.ns_count h) ++ be_encode 2 (MessageHeader.ar_count h).

(** An encodable message, with the labels of every name. *)
Record message_ok (qls als : list (list (list Z))) (m : Message.t) : Prop := {
  mo_id : in_width 16 (Message.hdr_id m);
  mo_fields : in_width 16 (Message.hdr_fields m);
  mo_questions : Forall2 question_ok qls (Message.questions m);
  mo_answers : Forall2 rr_ok als (Message.answers m);
}.
Definition wire_message (qls als : list (list (list Z))) (m : Message.t) : list Z :=
  wire_header (Message.header m) ++ concat (zip_with wire_question qls (Message.questions m))
    ++ concat (zip_with wire_rr als (Message.answers m)).

Lemma emits_message qls als m : message_ok qls als m -> emits (Message.Encode m) (wire_message qls als m).
Proof.
  intros [Hi Hf Hq Ha]. unfold Message.Encode, wire_message. apply emits_andthen.
  - unfold MessageHeader.Encode, wire_header, Message.header. cbn [MessageHeader.id MessageHeader.fields
      MessageHeader.qd_count MessageHeader.an_count MessageHeader.ns_count MessageHeader.ar_count].
    repeat (apply emits_andthen; [apply emits_u16; first [done|by apply wrap_bound]|]). by apply emits_u16.
  - apply emits_andthen; [by apply (emits_all _ question_ok _ _ _ emits_question)|].
    by apply (emits_all _ rr_ok _ _ _ emits_rr).
Qed.

Lemma ToBuffer_wire qls als m :
  message_ok qls als m -> (length (wire_message qls als m) <= 1500)%nat ->
  Message.ToBuffer m = Ok (wire_message qls als m).
Proof.
  intros Hm Hl. unfold Message.ToBuffer. pose proof (emits_message qls als m Hm [] (replicate (length (wire_message qls als m)) 0)
    (replicate (1500 - length (wire_message qls als m)) 0)) as E.
  cbn [app] in E. rewrite <- replicate_add in E.
  replace (length (wire_message qls als m) + (1500 - length (wire_message qls als m)))%nat with 1500%nat in E by lia.
  change (length []) with 0%nat in E. rewrite E by apply length_replicate. cbn [rbind]. unfold copy_used. cbn [mem cur].
  by rewrite take_app_length.
Qed.
End wire.

(** * What is read back *)
Section readback.
Context {OX : Oxenc} {OXS : OxencSpec OX}.

Lemma read_encoded n v pre rest :
  0 <= v < 256 ^ Z.of_nat n -> read n (pre ‖ be_encode n v ++ rest) = Ok (Some v, (pre ++ be_encode n v) ‖ rest).
Proof.
  intros Hv. rewrite read_fits; [by rewrite be_decode_encode|apply length_be_encode|apply be_encode_bytes].
Qed.
Lemma read_u16 v pre rest :
  in_width 16 v -> read_uint16 (pre ‖ be_encode 2 v ++ rest) = Ok (Some v, (pre ++ be_encode 2 v) ‖ rest).
Proof. intros Hv. by apply read_encoded. Qed.
Lemma read_u32 v pre rest :
  in_width 32 v -> read_uint32 (pre ‖ be_encode 4 v ++ rest) = Ok (Some v, (pre ++ be_encode 4 v) ‖ rest).
Proof. intros Hv. by apply read_encoded. Qed.

Lemma Question_Decode_wire labels q q0 pre rest :
  question_ok labels q ->
  Question.Decode q0 (pre ‖ wire_question labels q ++ rest)
  = Ok (true, Question.Mk (dotted labels) (Question.qtype q) (Question.qclass q), (pre ++ wire_question labels q) ‖ rest).
Proof.
  intros [(_ & Hl & _) Ht Hc]. unfold Question.Decode, wire_question.
  rewrite <- !(app_assoc (wire_name labels)), <- !(app_assoc (be_encode _ _)).
  rewrite DecodeName_wire by done. cbn [rbind]. rewrite read_u16 by done. cbn [rbind]. rewrite read_u16 by done.
  cbn [rbind]. by rewrite !(app_assoc pre), !(app_assoc (pre ++ _)).
Qed.

Lemma DecodeRData_wire v v0 pre rest :
  Z.of_nat (length v) < 65536 ->
  DecodeRData v0 (pre ‖ wire_rdata v ++ rest) = Ok (true, v, (pre ++ wire_rdata v) ‖ rest).
Proof.
  intros Hv. unfold DecodeRData, wire_rdata. rewrite <- (app_assoc (be_encode _ _)), read_u16 by (unfold in_width; lia).
  cbn [rbind]. rewrite size_left_at, length_app, (proj2 (Z.ltb_ge _ _)) by lia. rewrite Nat2Z.id. cbn [mem cur].
  rewrite drop_app_length, take_app_length, advance_app. by rewrite (app_assoc pre).
Qed.

(** A record is read correctly after a two-byte name. *)
Lemma RR_Decode_pointer p r r0 labels pre rest :
  in_width 16 p -> rr_ok labels r ->
  ResourceRecord.Decode r0 (pre ‖ be_encode 2 p ++ wire_rr_tail r ++ rest)
  = Ok (true, ResourceRecord.Mk (ResourceRecord.rr_name r0) (ResourceRecord.rr_type r) (ResourceRecord.rr_class r)
                (ResourceRecord.ttl r) (ResourceRecord.rData r),
        (pre ++ be_encode 2 p ++ wire_rr_tail r) ‖ rest).
Proof.
  intros Hp [_ Ht Hc Hl Hd]. unfold ResourceRecord.Decode, wire_rr_tail. rewrite <- !(app_assoc (be_encode _ _)).
  rewrite read_u16 by done. cbn [rbind]. rewrite read_u16 by done. cbn [rbind]. rewrite read_u16 by done. cbn [rbind].
  rewrite read_u32 by done. cbn [rbind]. rewrite DecodeRData_wire by done. cbn [rbind].
  by rewrite !(app_assoc pre), !(app_assoc (pre ++ _)), !(app_assoc ((pre ++ _) ++ _)), !(app_assoc (((pre ++ _) ++ _) ++ _)).
Qed.

Lemma decode_questions qls qs pre rest :
  Forall2 question_ok qls qs ->
  Message.decode_all Question.Decode (replicate (length qs) Question.dflt) (pre ‖ concat (zip_with wire_question qls qs) ++ rest)
  = Ok (true, zip_with (fun ls q => Question.Mk (dotted ls) (Question.qtype q) (Question.qclass q)) qls qs,
        (pre ++ concat (zip_with wire_question qls qs)) ‖ rest).
Proof.
  intros H. revert pre. induction H as [|ls q qls qs Hq _ IH]; intros pre.
  - cbn. by rewrite app_nil_r.
  - cbn [length replicate Message.decode_all zip_with concat]. rewrite <- (app_assoc (wire_question ls q)).
    rewrite Question_Decode_wire by done. cbn [rbind]. rewrite IH. cbn [rbind]. by rewrite (app_assoc pre).
Qed.

Lemma Header_Decode_wire h pre rest :
  in_width 16 (MessageHeader.id h) -> in_width 16 (MessageHeader.fields h) -> in_width 16 (MessageHeader.qd_count h) ->
  in_width 16 (MessageHeader.an_count h) -> in_width 16 (MessageHeader.ns_count h) -> in_width 16 (MessageHeader.ar_count h) ->
  MessageHeader.Decode (pre ‖ wire_header h ++ rest) = Ok (Some h, (pre ++ wire_header h) ‖ rest).
Proof.
  intros H1 H2 H3 H4 H5 H6. unfold MessageHeader.Decode, wire_header. rewrite <- !(app_assoc (be_encode _ _)).
  do 6 (rewrite read_u16 by done; cbn [rbind]). destruct h.
  by rewrite <- !app_assoc.
Qed.
End readback.

(** * Theorems *)

(** C26. A query whose names end in a dot and are not the root, with no answers and nothing in the other
    sections, that fits the 1500 byte buffer is encoded, and parsing the encoded bytes gives the same
    message back. *)
Theorem dns_query_roundtrip {OX : Oxenc} {OXS : OxencSpec OX} (qls : list (list (list Z))) (m : Message.t) :
  message_ok qls [] m -> Forall2 (fun ls q => Question.qname q = dotted ls) qls (Message.questions m) ->
  Message.authorities m = [] -> Message.additional m = [] ->
  Z.of_nat (length (Message.questions m)) < 65536 -> (length (wire_message qls [] m) <= 1500)%nat ->
  exists w, Message.ToBuffer m = Ok w /\ Message.MaybeParseDNSMessage (Buffer w 0) = Ok (Some m).
Proof.
  intros Hm Hfq Hau Had Hn Hl. eexists. split; [by apply ToBuffer_wire|].
  pose proof Hm as [Hi Hf Hq Ha%Forall2_nil_inv_l]. unfold Message.MaybeParseDNSMessage, wire_message.
  rewrite Ha. cbn [zip_with concat]. change 0%nat with (@length Z []). rewrite <- (app_nil_l (wire_header _ ++ _)) at 1.
  assert (in_width 16 (u16 (Z.of_nat (length (Message.questions m))))) as Hq16 by (by apply wrap_bound).
  rewrite Header_Decode_wire; [|done|done|exact Hq16|by apply wrap_bound|done|done]. cbn [rbind].
  unfold Message.header, Message.of_header. cbn [MessageHeader.id MessageHeader.fields MessageHeader.qd_count
    MessageHeader.an_count MessageHeader.ns_count MessageHeader.ar_count].
  rewrite Ha, (wrap_id 16 (Z.of_nat (length (Message.questions m)))), Nat2Z.id by (unfold in_width; lia).
  unfold Message.Decode. cbn [Message.questions]. rewrite decode_questions by done. cbn [rbind negb].
  transitivity (Ok (Some (Message.Mk (Message.hdr_id m) (Message.hdr_fields m)
    (zip_with (fun ls q => Question.Mk (dotted ls) (Question.qtype q) (Question.qclass q)) qls (Message.questions m)) [] [] [])));
    [reflexivity|].
  do 2 f_equal. destruct m as [i f qs an au ad]. cbn [Message.hdr_id Message.hdr_fields Message.questions
    Message.answers Message.authorities Message.additional] in *. subst. f_equal. clear - Hfq. induction Hfq as [|ls q qls qs E _ IH]; [done|]. cbn. rewrite IH. f_equal. destruct q. cbn in *. by rewrite E.
Qed.

Definition query_example : Message.t :=
  Message.Mk 4660 256 [Question.Mk [97; 98; 46; 108; 111; 107; 105; 46] qTypeA qClassIN] [] [] [].
Definition labels_example : list (list Z) := [[97; 98]; [108; 111; 107; 105]].

Lemma query_example_ok : message_ok [labels_example] [] query_example.
Proof.
  split; [split; [discriminate|reflexivity]..| |constructor]. constructor; [|constructor].
  split; [|split; [discriminate|reflexivity]..]. split; [discriminate|]. split; [|right; reflexivity].
  repeat constructor; cbn; try lia; apply (bool_decide_unpack _); vm_compute; exact I.
Qed.

Lemma dns_query_roundtrip_witness :
  let ox := oxenc_ref in
  exists w, Message.ToBuffer query_example = Ok w /\
    Message.MaybeParseDNSMessage (Buffer w 0) = Ok (Some query_example).
Proof.
  intros ox. apply (dns_query_roundtrip [labels_example] query_example).
  - exact query_example_ok.
  - repeat constructor.
  - reflexivity.
  - reflexivity.
  - reflexivity.
  - apply Nat.leb_le. vm_compute. reflexivity.
Defined.

Lemma reply_flags_width f : in_width 16 f -> in_width 16 (Message.reply_flags f).
Proof. intros Hf. unfold Message.reply_flags. repeat apply lor_width; done. Qed.

Lemma be_encode_octets a b c d :
  is_byte a -> is_byte b -> is_byte c -> is_byte d ->
  be_encode 4 (a * 2 ^ 24 + b * 2 ^ 16 + c * 2 ^ 8 + d) = [a; b; c; d].
Proof.
  intros Ha Hb Hc Hd. replace (a * 2 ^ 24 + b * 2 ^ 16 + c * 2 ^ 8 + d) with (be_decode [a; b; c; d])
    by (cbn [be_decode length Z.of_nat Pos.of_succ_nat Pos.succ]; lia).
  apply (be_encode_decode [a; b; c; d]). do 4 (apply Forall_cons_2; [done|]). constructor.
Qed.

(** Answering a query with an IPv4 address appends one A record for the queried name that
    holds the four octets, sets the response flags and keeps the others; the reply is
    encodable, and if it fits what is sent is its wire form. *)
Theorem a_reply_correct {OX : Oxenc} {OXS : OxencSpec OX} {OS : OxencSwap} {OSS : OxencSwapSpec OS}
    (qls als : list (list (list Z))) (ls : list (list Z)) (q : Question.t) (qs : list Question.t)
    (a b c d ttl : Z) (m : Message.t) :
  message_ok (ls :: qls) als m -> Message.questions m = q :: qs -> in_width 32 ttl ->
  is_byte a -> is_byte b -> is_byte c -> is_byte d ->
  let m' := Message.AddINReply (ToHost (ExpandV4 (ipaddr_ipv4_bits a b c d))) false ttl m in
  Message.answers m' = Message.answers m ++ [ResourceRecord.Mk (Question.qname q) qTypeA qClassIN ttl [a; b; c; d]] /\
  (forall i, Z.testbit (Message.hdr_fields m') i
             = Z.testbit (Message.hdr_fields m) i || bool_decide (i = 15) || bool_decide (i = 10) || bool_decide (i = 7)) /\
  message_ok (ls :: qls) (als ++ [ls]) m' /\
  ((length (wire_message (ls :: qls) (als ++ [ls]) m') <= 1500)%nat ->
   Message.ToBuffer m' = Ok (wire_message (ls :: qls) (als ++ [ls]) m')).
Proof.
  intros Hm Hq Ht Ha Hb Hc Hd m'.
  destruct (ipv4_bits_spec a b c d) as [Aw Av]; [done..|]. destruct (ExpandV4_spec _ Aw) as [Ew _].
  set (r := ResourceRecord.Mk (Question.qname q) qTypeA qClassIN ttl [a; b; c; d]).
  assert (m' = m <| Message.hdr_fields := Message.reply_flags (Message.hdr_fields m) |>
                 <| Message.answers ::= fun l => l ++ [r] |>) as Hm'.
  { unfold m', Message.AddINReply. rewrite Hq. do 3 f_equal. unfold r. f_equal.
    assert (ToNet (ToHost (ExpandV4 (ipaddr_ipv4_bits a b c d))) = ExpandV4 (ipaddr_ipv4_bits a b c d)) as ->.
    { destruct (ExpandV4 _). unfold ToNet, ToHost. cbn. f_equal. by apply ntoh128_involutive. }
    rewrite Truncate_Expand by done. change (v32 (hval (ToHost ?x))) with (haddr4 x). rewrite Av.
    rewrite write_host_as_big_spec by (unfold is_byte in *; change (256 ^ Z.of_nat 4) with (2 ^ 32); lia).
    by rewrite be_encode_octets. }
  pose proof Hm as [Hi Hf Hqs Has]. assert (message_ok (ls :: qls) (als ++ [ls]) m') as Hok.
  { rewrite Hm'. split; cbn; [done|by apply reply_flags_width|done|]. apply Forall2_app; [done|]. constructor; [|constructor].
    rewrite Hq in Hqs. apply Forall2_cons in Hqs as [[Hn _ _] _]. split; cbn; [done|split; [discriminate|reflexivity]..|done|lia]. }
  split_and!; [by rewrite Hm'| |done|by apply ToBuffer_wire].
  intros i. rewrite Hm'. cbn. unfold Message.reply_flags. rewrite !Z.lor_spec.
  change flags_QR with (2 ^ 15). change flags_AA with (2 ^ 10). change flags_RA with (2 ^ 7).
  assert (forall n, (n =? i) = bool_decide (i = n)) as Hn.
  { intros n. apply eq_iff_eq_true. rewrite Z.eqb_eq, bool_decide_eq_true. done. }
  by rewrite !Z.pow2_bits_eqb, !Hn by lia.
Qed.

Lemma a_reply_correct_witness :
  let ox := oxenc_ref in let os := oxenc_swap_ref in
  let m' := Message.AddINReply (ToHost (ExpandV4 (ipaddr_ipv4_bits 10 1 2 3))) false 1 query_example in
  Message.answers m' = [ResourceRecord.Mk [97; 98; 46; 108; 111; 107; 105; 46] qTypeA qClassIN 1 [10; 1; 2; 3]] /\
  Message.ToBuffer m' = Ok (wire_message [labels_example] [labels_example] m').
Proof.
  intros ox os m'.
  destruct (a_reply_correct [] [] labels_example (Question.Mk [97; 98; 46; 108; 111; 107; 105; 46] qTypeA qClassIN) []
    10 1 2 3 1 query_example) as (H1 & _ & _ & H4).
  - exact query_example_ok.
  - reflexivity.
  - split; [discriminate|reflexivity].
  - split; [discriminate|reflexivity].
  - split; [discriminate|reflexivity].
  - split; [discriminate|reflexivity].
  - split; [discriminate|reflexivity].
  - split; [exact H1|]. apply H4. apply Nat.leb_le. vm_compute. reflexivity.
Defined.

Section totals.
Context {OX : Oxenc}.
Lemma read_total n b : exists o b', read n b = Ok (o, b').
Proof. unfold read. case_match; eauto. Qed.
Lemma DecodeRData_total v b : exists ok v' b', DecodeRData v b = Ok (ok, v', b').
Proof.
  unfold DecodeRData, read_uint16. destruct (read_total 2 b) as (o & b' & ->). cbn [rbind].
  destruct o; [|eauto]. case_match; eauto.
Qed.
End totals.

(** Records are encoded with their full name but decoded as if the name were a two-byte
    pointer: decoding an encoded record takes its type from the third and fourth byte of the
    name. *)
Theorem rr_decode_misreads {OX : Oxenc} {OXS : OxencSpec OX} (c1 c2 c3 : Z) (label : list Z)
    (labels : list (list Z)) (r r0 : ResourceRecord.t) (pre rest : list Z) :
  let ls := (c1 :: c2 :: c3 :: label) :: labels in
  rr_ok ls r -> is_byte c1 -> is_byte c2 -> is_byte c3 ->
  exists ok r' buf, ResourceRecord.Decode r0 (pre ‖ wire_rr ls r ++ rest) = Ok (ok, r', buf) /\
    ResourceRecord.rr_type r' = c2 * 256 + c3.
Proof.
  intros ls Hr H1 H2 H3. destruct Hr as [(_ & Hl & _) _ _ _ _]. apply Forall_cons in Hl as [[Hlen _] _].
  unfold wire_rr. rewrite <- (app_assoc (wire_name ls)). unfold ls. rewrite wire_name_cons. cbn [app].
  set (n := Z.of_nat (length (c1 :: c2 :: c3 :: label))). set (tl := label ++ _).
  assert (is_byte n) as Hn by (unfold is_byte, n in *; lia).
  assert (forall x y, is_byte x -> is_byte y -> forall p t, read_uint16 (p ‖ x :: y :: t)
            = Ok (Some (x * 256 + y), (p ++ [x; y]) ‖ t)) as Hread.
  { intros x y Hx Hy p t. unfold read_uint16. change (x :: y :: t) with ([x; y] ++ t).
    rewrite read_fits; [|done|by repeat (apply Forall_cons_2; [done|]); constructor].
    do 3 f_equal. cbn. lia. }
  unfold ResourceRecord.Decode. rewrite Hread by done. cbn [rbind]. rewrite Hread by done. cbn [rbind].
  unfold read_uint16, read_uint32. destruct (read_total 2 (((pre ++ [n; c1]) ++ [c2; c3]) ‖ tl)) as ([cl|] & b1 & ->);
    cbn [rbind]; [|by eauto 6].
  destruct (read_total 4 b1) as ([tt'|] & b2 & ->); cbn [rbind]; [|by eauto 6].
  destruct (DecodeRData_total (ResourceRecord.rData r0) b2) as (ok & v' & b3 & E). cbn [ResourceRecord.rData].
  rewrite E. cbn [rbind]. by eauto 6.
Qed.

Lemma rr_decode_misreads_witness :
  let ox := oxenc_ref in
  let r := ResourceRecord.Mk [108; 111; 107; 105; 46] qTypeA qClassIN 1 [10; 1; 2; 3] in
  exists ok r' buf, ResourceRecord.Decode ResourceRecord.dflt (Buffer (wire_rr [[108; 111; 107; 105]] r) 0) = Ok (ok, r', buf) /\
    ResourceRecord.rr_type r' = 111 * 256 + 107.
Proof.
  intros ox r. rewrite <- (app_nil_r (wire_rr _ r)).
  apply (rr_decode_misreads 108 111 107 [105] [] r ResourceRecord.dflt [] []).
  - split; [|split; [discriminate|reflexivity]..|reflexivity]. split; [discriminate|]. split; [|right; reflexivity].
    repeat constructor; cbn; try lia; apply (bool_decide_unpack _); vm_compute; exact I.
  - split; [discriminate|reflexivity].
  - split; [discriminate|reflexivity].
  - split; [discriminate|reflexivity].
Defined.

(** Record data of exactly 65536 bytes passes the size check of [EncodeRData] and is
    written as no data at all. *)
Theorem rdata_65536_lost {OX : Oxenc} {OXS : OxencSpec OX} (v pre rest : list Z) (o1 o2 : Z) :
  Z.of_nat (length v) = 65536 ->
  EncodeRData v (pre ‖ o1 :: o2 :: rest) = Ok (true, (pre ++ [0; 0]) ‖ rest).
Proof.
  intros Hv. unfold EncodeRData. rewrite Hv. change (65536 <? 65536) with false. change (u16 65536) with 0.
  unfold put_uint16. rewrite (put_fits 2 0 pre [o1; o2] rest) by done. cbn [rbind negb].
  rewrite (proj2 (Z.ltb_ge _ _)) by lia. change (take (Z.to_nat 0) v) with (@nil Z).
  rewrite (store_at _ [] [] rest) by done. cbn [rbind]. unfold advance. cbn [mem cur Z.to_nat]. by rewrite Nat.add_0_r.
Qed.

Lemma txt_loop_one {OX : Oxenc} (fuel : nat) (str old rest : list Z) (o : Z) :
  str <> [] -> (length str <= 256)%nat -> length old = length str ->
  Message.txt_loop (S (S fuel)) str ([] ‖ o :: old ++ rest) = Ok ((u8 (Z.of_nat (length str)) :: str) ‖ rest).
Proof.
  intros Hne Hl Ho. destruct str as [|c str]; [done|]. cbn [Message.txt_loop]. rewrite Nat.min_l by done.
  rewrite store_byte. cbn [rbind]. rewrite advance_cons, take_ge, drop_ge by done.
  by rewrite write_fits by done.
Qed.

(** A TXT reply with up to 255 characters holds their number and the characters; with 256
    characters the number is written as 0. *)
Theorem txt_reply_length {OX : Oxenc} (str : list Z) (ttl : Z) (q : Question.t) (qs : list Question.t) (m : Message.t) :
  str <> [] -> (length str <= 256)%nat -> Message.questions m = q :: qs ->
  Message.AddTXTReply str ttl m
  = Ok (m <| Message.answers ::= fun l => l ++
          [ResourceRecord.Mk (Question.qname q) qTypeTXT qClassIN ttl
             ((if (length str =? 256)%nat then 0 else Z.of_nat (length str)) :: str)] |>).
Proof.
  intros Hne Hl Hq. unfold Message.AddTXTReply. rewrite Hq.
  assert (exists n, length str = S n) as [n Hn] by (destruct str; [done|eexists; reflexivity]).
  assert (Buffer (replicate 1024 0) 0 = [] ‖ 0 :: replicate (length str) 0 ++ replicate (1023 - length str) 0) as ->.
  { rewrite <- replicate_add, Nat.add_comm, Nat.sub_add by lia. done. }
  rewrite Hn at 1. rewrite txt_loop_one by (done || by rewrite length_replicate). cbn [rbind mem cur].
  rewrite take_app_length.
  assert (u8 (Z.of_nat (length str)) = if (length str =? 256)%nat then 0 else Z.of_nat (length str)) as ->; [|done].
  destruct (Nat.eqb_spec (length str) 256) as [->|]; [done|]. apply Z.mod_small. lia.
Qed.

Lemma txt_reply_length_witness :
  let ox := oxenc_ref in
  Message.AddTXTReply [104; 105] 1 query_example
  = Ok (query_example <| Message.answers :=
      [ResourceRecord.Mk [97; 98; 46; 108; 111; 107; 105; 46] qTypeTXT qClassIN 1 [2; 104; 105]] |>).
Proof.
  intros ox. rewrite (txt_reply_length [104; 105] 1 (Question.Mk [97; 98; 46; 108; 111; 107; 105; 46] qTypeA qClassIN) []).
  - reflexivity.
  - discriminate.
  - apply Nat.leb_le. reflexivity.
  - reflexivity.
Defined.

(** ** CNAME and SRV *)
Lemma starts_with_same_length a b : length a = length b -> starts_with a b = true -> a = b.
Proof.
  intros Hl [r Hr]%starts_with_spec. subst a. rewrite length_app in Hl.
  assert (length r = 0)%nat as ->%nil_length_inv by lia. apply app_nil_r.
Qed.

(** [HasCNameForTLD] compares the position of the domain with [size - tld.size() - 1]; for a
    name as long as the domain that is the value of [npos], so every such name is accepted. *)
Theorem cname_tld_false_positive (labels : list (list Z)) (tld : list Z) (r : ResourceRecord.t) :
  Forall label_ok labels -> length (dotted labels) = length tld -> dotted labels <> tld ->
  ResourceRecord.rr_type r = qTypeCNAME -> ResourceRecord.rData r = wire_name labels ->
  ResourceRecord.HasCNameForTLD tld r = Ok true.
Proof.
  intros Hl Hlen Hne Ht Hd. unfold ResourceRecord.HasCNameForTLD. rewrite Ht, Hd. cbn [qTypeCNAME Z.eqb Pos.eqb negb].
  rewrite <- (app_nil_r (wire_name labels)). change (Buffer ?m 0) with ([] ‖ m). rewrite DecodeName_wire by done.
  cbn [rbind]. unfold rfind. rewrite Hlen, Nat.ltb_irrefl, Nat.sub_diag, Nat.min_0_r. cbn [rfind_le]. rewrite drop_0.
  destruct (starts_with (dotted labels) tld) eqn:E; [by apply starts_with_same_length in E|].
  rewrite Z.sub_diag. done.
Qed.

Lemma cname_tld_false_positive_witness :
  ResourceRecord.HasCNameForTLD [46; 108; 111; 107; 105]
    (ResourceRecord.Mk [] qTypeCNAME qClassIN 1 (wire_name [[97; 98; 99; 100]])) = Ok true.
Proof.
  apply (cname_tld_false_positive [[97; 98; 99; 100]]).
  - repeat constructor; cbn; try lia; apply (bool_decide_unpack _); vm_compute; exact I.
  - reflexivity.
  - discriminate.
  - reflexivity.
  - reflexivity.
Defined.

Lemma print_dec_no_space n : 0 <= n -> 32 ∉ print_dec n.
Proof.
  intros Hn Hin. assert (Forall (fun c => is_digit c = true) (print_dec n)) as H by (apply print_dec_digits; lia).
  rewrite Forall_forall in H. by specialize (H _ Hin).
Qed.

(** A suffix that contains its first character only once is found where it ends the text. *)
Lemma find_suffix c suffix x :
  c ∉ suffix -> find (c :: suffix) x = None -> find (c :: suffix) (x ++ c :: suffix) = Some (length x).
Proof.
  intros Hc Hx. destruct (find (c :: suffix) (x ++ c :: suffix)) as [i|] eqn:E.
  - apply find_Some in E as E'. destruct E' as (r & Hr & Hi). rewrite length_app in Hi.
    assert (length (take i (x ++ c :: suffix)) = i) as Ht by (rewrite length_take, length_app; lia).
    assert (length (x ++ c :: suffix) = i + length (c :: suffix) + length r)%nat as Hlen.
    { rewrite Hr at 1. rewrite !length_app, Ht. lia. }
    rewrite length_app in Hlen. destruct (decide (i = length x)) as [->|Hne]; [done|exfalso].
    destruct (decide (i + length (c :: suffix) <= length x)%nat) as [Hin|Hover].
    + apply (proj1 (find_None _ _) Hx (take i x) (take (length x - i - length (c :: suffix)) r)).
      apply (f_equal (take (length x))) in Hr. rewrite take_app_length, take_app_ge, Ht in Hr by lia.
      rewrite (take_app_ge (c :: suffix)), (take_app_le x) in Hr by lia. done.
    + apply (f_equal (fun l => l !! length x)) in Hr. rewrite (list_lookup_middle x suffix c) in Hr by done.
      rewrite lookup_app_r, Ht, lookup_app_l in Hr by lia.
      rewrite lookup_cons_ne_0 in Hr by lia. by apply Hc, list_elem_of_lookup_2 with (pred (length x - i)).
  - by apply (proj1 (find_None _ _)) with (a := x) (r := []) in E; rewrite app_nil_r in E.
Qed.

Lemma IsValid_suffix s x suffix :
  suffix ∈ [str_dot_loki; str_dot_snode] -> find suffix x = None -> SRVData.target s = x ++ suffix ->
  (length (SRVData.target s) <= 200)%nat -> SRVData.IsValid s = true.
Proof.
  intros Hs Hx Ht Hl. unfold SRVData.IsValid. rewrite (proj2 (Nat.ltb_ge _ _)) by done. rewrite Ht in *.
  rewrite length_app in *. case_match; [done|].
  assert (forall n : nat, (n <= 200)%nat -> u64 (Z.of_nat n) = Z.of_nat n) as Hw by (intros; apply Z.mod_small; lia).
  assert (suffix = str_dot_loki \/ suffix = str_dot_snode) as [-> | ->] by set_solver.
  - assert (find str_dot_loki (x ++ str_dot_loki) = Some (length x)) as ->
      by (apply (find_suffix 46 [108; 111; 107; 105] x); [set_solver|done]).
    change (length str_dot_loki) with 5%nat.
    replace (Z.of_nat (length x + 5) - 5) with (Z.of_nat (length x)) by lia. rewrite Hw, Z.eqb_refl by lia. done.
  - assert (find str_dot_snode (x ++ str_dot_snode) = Some (length x)) as ->
      by (apply (find_suffix 46 [115; 110; 111; 100; 101] x); [set_solver|done]).
    change (length str_dot_snode) with 6%nat.
    replace (Z.of_nat (length x + 6) - 6) with (Z.of_nat (length x)) by lia. rewrite Hw, Z.eqb_refl by lia.
    by repeat case_match.
Qed.

(** A target the documentation allows: none, a full stop, or a name under .loki or .snode whose
    own labels do not hold that suffix. *)
Definition srv_target_ok (target : list Z) : Prop :=
  target = [] \/ target = [chr_dot] \/
  exists x suffix, target = x ++ suffix /\ suffix ∈ [str_dot_loki; str_dot_snode] /\ find suffix x = None /\
    (length target <= 200)%nat.

Lemma srv_target_valid s : srv_target_ok (SRVData.target s) -> SRVData.IsValid s = true.
Proof.
  intros [H|[H|(x & suffix & H & Hs & Hx & Hl)]]; [unfold SRVData.IsValid; by rewrite H..|by eapply IsValid_suffix].
Qed.

(** The line of a configuration file that gives the record. *)
Definition srv_line (s : SRVData.t) : list Z :=
  join [32] ([SRVData.service_proto s; print_dec (SRVData.priority s); print_dec (SRVData.weight s);
              print_dec (SRVData.port s)] ++ match SRVData.target s with [] => [] | tg => [tg] end).

Lemma parse_int_width str n : parse_int 65535 str = Some n -> in_width 16 n.
Proof. intros H%parse_int_bound. unfold in_width. lia. Qed.

Lemma IsValid_length s : SRVData.IsValid s = true -> (length (SRVData.target s) <= 200)%nat.
Proof.
  unfold SRVData.IsValid. destruct (bool_decide_reflect (SRVData.target s = [chr_dot])) as [->|]; [cbn; lia|].
  destruct (Nat.eqb_spec (length (SRVData.target s)) 0); [lia|]. cbn [orb].
  destruct (Nat.ltb_spec SRVData.TARGET_MAX_SIZE (length (SRVData.target s))); [done|]. unfold SRVData.TARGET_MAX_SIZE in *. lia.
Qed.

Lemma srv_accepted s0 line s' :
  SRVData.fromString line s0 = (true, s') ->
  in_width 16 (SRVData.priority s') /\ in_width 16 (SRVData.weight s') /\ in_width 16 (SRVData.port s') /\
  (length (SRVData.target s') <= 200)%nat.
Proof.
  unfold SRVData.fromString. intros E. repeat (case_match; try done).
  all: pose proof (f_equal snd E) as Es; apply (f_equal fst) in E; cbn [fst snd] in E, Es; subst s';
    apply IsValid_length in E; split_and!; eauto using parse_int_width.
Qed.

(** A record written as a line of the configuration file is read back and accepted, for
    every priority, weight and port; and every record [fromString] accepts has numbers of 16 bits
    and a target of at most 200 characters. *)
Theorem srv_from_string (s s0 : SRVData.t) (line : list Z) :
  32 ∉ SRVData.service_proto s -> 32 ∉ SRVData.target s -> srv_target_ok (SRVData.target s) ->
  in_width 16 (SRVData.priority s) -> in_width 16 (SRVData.weight s) -> in_width 16 (SRVData.port s) ->
  SRVData.fromString (srv_line s) s0 = (true, s) /\
  (forall s', SRVData.fromString line s0 = (true, s') ->
     in_width 16 (SRVData.priority s') /\ in_width 16 (SRVData.weight s') /\ in_width 16 (SRVData.port s') /\
     (length (SRVData.target s') <= 200)%nat).
Proof.
  intros Hsp Htg Hok Hp Hw Hpo. split.
  - unfold SRVData.fromString, srv_line. rewrite split_join_char; [|done|].
    + destruct s as [sp p w po tg]; cbn [SRVData.service_proto SRVData.priority SRVData.weight SRVData.port
        SRVData.target] in *. unfold in_width in *. cbn [app].
      assert (SRVData.IsValid (SRVData.Mk sp p w po tg) = true) as Hv by by apply srv_target_valid.
      destruct tg; rewrite !parse_int_print by lia; cbn; by rewrite Hv.
    + unfold in_width in *. apply Forall_app_2.
      * repeat constructor; try done; apply print_dec_no_space; lia.
      * destruct (SRVData.target s); repeat constructor. done.
  - apply srv_accepted.
Qed.

Lemma srv_from_string_witness :
  let s := SRVData.Mk [97; 46; 98] 1 0 80 [120; 46; 108; 111; 107; 105] in
  SRVData.fromString (srv_line s) (SRVData.Mk [] 0 0 0 []) = (true, s).
Proof.
  intros s. apply (srv_from_string s (SRVData.Mk [] 0 0 0 []) []).
  - apply (bool_decide_unpack _). vm_compute. exact I.
  - apply (bool_decide_unpack _). vm_compute. exact I.
  - right. right. exists [120], str_dot_loki. repeat split; [left|]. apply Nat.leb_le. reflexivity.
  - split; [discriminate|reflexivity].
  - split; [discriminate|reflexivity].
  - split; [discriminate|reflexivity].
Defined.
