(* ===== verification/IpPacket.v ===== *)
(** * IP packets (llarp/net/ip_packet.hpp and ip_packet.cpp)

    A packet is the vector of its bytes; the headers are read and written in place, at the
    offsets of the C structures on a little endian host. Reading through [Header()] past the
    vector is the outcome [Oob]. The file shows that rewriting the addresses of a packet
    keeps its checksums valid, and what the builders of packets produce. *)

From S2P Require Import Prelude NetInt IpRange.

(** ** Integers in the memory of a little endian host *)
Definition ld (n off : nat) (buf : list Z) : res Z := let* bs := peek off n buf in Ok (le_decode bs).
Definition st (n off : nat) (v : Z) (buf : list Z) : res (list Z) := poke off (le_bytes n v) buf.

(** [htons] and [ntohs] *)
Definition htons (v : Z) : Z := bswap 2 v.
Definition ntohs (v : Z) : Z := bswap 2 v.
(** [htonl] *)
Definition htonl (v : Z) : Z := bswap 4 v.

(** ** The fields of [ip_header] and [ipv6_header] *)
Module Header.
Definition ihl (buf : list Z) : res Z := let* b := byte_at 0 buf in Ok (Z.land b 15).
Definition version (buf : list Z) : res Z := let* b := byte_at 0 buf in Ok (Z.shiftr b 4).
Definition set_ihl (v : Z) (buf : list Z) : res (list Z) :=
  let* b := byte_at 0 buf in poke 0 [Z.lor (Z.land b 240) (Z.land v 15)] buf.
Definition set_version (v : Z) (buf : list Z) : res (list Z) :=
  let* b := byte_at 0 buf in poke 0 [Z.lor (Z.land b 15) (Z.shiftl (Z.land v 15) 4)] buf.
(** Offsets. *)
Definition tos : nat := 1.
Definition tot_len : nat := 2.
Definition id : nat := 4.
Definition frag_off : nat := 6.
Definition ttl : nat := 8.
Definition protocol : nat := 9.
Definition check : nat := 10.
Definition saddr : nat := 12.
Definition daddr : nat := 16.
End Header.

Module HeaderV6.
Definition flowlabel : nat := 0.
Definition protocol : nat := 6.
Definition srcaddr : nat := 8.
Definition dstaddr : nat := 24.

Definition ipv6_flowlabel_mask : Z := 1048575.
(** [FlowLabel()] and [FlowLabel(label)] *)
Definition FlowLabel (buf : list Z) : res (nuint_t uint32_t) :=
  let* w := ld 4 flowlabel buf in Ok (NUInt (U32 (Z.land w (htonl ipv6_flowlabel_mask)))).
Definition set_FlowLabel (label : nuint_t uint32_t) (buf : list Z) : res (list Z) :=
  let* w := ld 4 flowlabel buf in
  st 4 flowlabel (Z.lor (Z.land (htonl ipv6_flowlabel_mask) (v32 (nval label)))
                        (Z.land w (htonl (u32 (Z.lnot ipv6_flowlabel_mask))))) buf.
End HeaderV6.

(** ** The internet checksum *)
Fixpoint ipchksum_loop (buf : list Z) (sum : Z) : Z :=
  match buf with
  | b0 :: b1 :: buf => ipchksum_loop buf (u32 (sum + (b0 + 256 * b1)))
  | [b0] => u32 (sum + b0)
  | [] => sum
  end.
Definition fold_carries (sum : Z) : Z :=
  let sum := u32 (Z.land sum 65535 + Z.shiftr sum 16) in
  u32 (sum + Z.shiftr sum 16).
Definition ipchksum (buf : list Z) (sum : Z) : Z :=
  Z.land (u32 (Z.lnot (fold_carries (ipchksum_loop buf sum)))) 65535.

Definition ADD32CS (x : Z) : Z := u32 (Z.land x 65535 + Z.shiftr x 16).
Definition SUB32CS (x : Z) : Z := u32 (Z.land (u32 (Z.lnot x)) 65535 + Z.shiftr (u32 (Z.lnot x)) 16).

Definition deltaIPv4Checksum (old_sum : Z) (old_src_ip old_dst_ip new_src_ip new_dst_ip : ipv4addr_t) : Z :=
  let sum := u32 (u32 (u32 (u32 (old_sum + ADD32CS (v32 (nval old_src_ip))) + ADD32CS (v32 (nval old_dst_ip)))
                       + SUB32CS (v32 (nval new_src_ip))) + SUB32CS (v32 (nval new_dst_ip))) in
  Z.land (fold_carries sum) 65535.

(** An address as [uint32_t\[4\]]; the sums over it. *)
Definition CS128 (cs : Z -> Z) (x : list Z) : Z := foldl (fun s w => u32 (s + cs w)) 0 x.
Definition deltaIPv6Checksum (old_sum : Z) (old_src_ip old_dst_ip new_src_ip new_dst_ip : list Z) : Z :=
  let sum := u32 (u32 (u32 (u32 (old_sum + CS128 ADD32CS old_src_ip) + CS128 ADD32CS old_dst_ip)
                       + CS128 SUB32CS new_src_ip) + CS128 SUB32CS new_dst_ip) in
  Z.land (fold_carries sum) 65535.

(** ** Updating the checksum of the transport header

    [pld] is the offset of the payload, [psz] its size, [delta] the change of the addresses. *)
Definition deltaChecksumTCP (delta : Z -> Z) (pld psz fragoff chksumoff : nat) (buf : list Z) : res (list Z) :=
  if (chksumoff <? fragoff)%nat || (psz <? chksumoff - fragoff + 2)%nat then Ok buf
  else
    let check := (pld + chksumoff - fragoff)%nat in
    let* old := ld 2 check buf in
    let* buf := st 2 check (delta old) buf in
    let* n := ld 2 check buf in
    if n =? 65535 then st 2 check 0 buf else Ok buf.

Definition deltaChecksumUDP (delta : Z -> Z) (pld psz fragoff : nat) (buf : list Z) : res (list Z) :=
  if (6 <? fragoff)%nat || (psz <? 6 + 2)%nat then Ok buf
  else
    let check := (pld + 6)%nat in
    let* old := ld 2 check buf in
    if old =? 0 then Ok buf else st 2 check (delta old) buf.

Definition deltaChecksumIPv4TCP (pld psz fragoff chksumoff : nat) (oSrcIP oDstIP nSrcIP nDstIP : ipv4addr_t) :=
  deltaChecksumTCP (fun c => deltaIPv4Checksum c oSrcIP oDstIP nSrcIP nDstIP) pld psz fragoff chksumoff.
Definition deltaChecksumIPv4UDP (pld psz fragoff : nat) (oSrcIP oDstIP nSrcIP nDstIP : ipv4addr_t) :=
  deltaChecksumUDP (fun c => deltaIPv4Checksum c oSrcIP oDstIP nSrcIP nDstIP) pld psz fragoff.
Definition deltaChecksumIPv6TCP (pld psz fragoff chksumoff : nat) (oSrcIP oDstIP nSrcIP nDstIP : list Z) :=
  deltaChecksumTCP (fun c => deltaIPv6Checksum c oSrcIP oDstIP nSrcIP nDstIP) pld psz fragoff chksumoff.
Definition deltaChecksumIPv6UDP (pld psz fragoff : nat) (oSrcIP oDstIP nSrcIP nDstIP : list Z) :=
  deltaChecksumUDP (fun c => deltaIPv6Checksum c oSrcIP oDstIP nSrcIP nDstIP) pld psz fragoff.

(** ** IPPacket *)
Module IPPacket.
Definition MinSize : nat := 20.

(** The constructors from a size, a view and a vector, and [Load]. *)
Definition of_size (sz : nat) : res (list Z) :=
  if negb (sz =? 0)%nat && (sz <? MinSize)%nat then Throw else Ok (replicate sz 0).
Definition of_view (view : list Z) : list Z := if (length view <? MinSize)%nat then [] else view.
Definition of_vector (stolen : list Z) : list Z := if (length stolen <? MinSize)%nat then [] else stolen.
Definition Load (buf : list Z) : bool * list Z :=
  if (MinSize <=? length buf)%nat then (true, buf) else (false, []).

Section ops.
Context {OS : OxencSwap}.
Implicit Types buf : list Z.

Definition bounds_check (start_offset access_size : nat) buf : res unit :=
  if (length buf <? start_offset)%nat || (length buf - start_offset <? access_size)%nat then Throw else Ok tt.

Definition Version buf : res Z := Header.version buf.
Definition IsV4 buf : res bool := let* v := Version buf in Ok (v =? 4).
Definition IsV6 buf : res bool := let* v := Version buf in Ok (v =? 6).

Definition protocol buf : res Z :=
  let* v4 := IsV4 buf in
  if v4 : bool then byte_at Header.protocol buf else byte_at HeaderV6.protocol buf.

Definition payload_offset buf : res nat :=
  let* v4 := IsV4 buf in
  let* offset :=
    if v4 : bool then let* i := Header.ihl buf in Ok (Z.to_nat i * 4)%nat
    else let* v6 := IsV6 buf in Ok (if v6 : bool then 40%nat else 0%nat) in
  let* _ := bounds_check offset 1 buf in Ok offset.

(** [icmp_type], [icmp_code] and [icmp_checksum] as places that are written. *)
Definition set_icmp_type (v : Z) buf : res (list Z) :=
  let* po := payload_offset buf in poke po [v] buf.
Definition set_icmp_code (v : Z) buf : res (list Z) :=
  let* po := payload_offset buf in
  let* _ := bounds_check (po + 1) 1 buf in poke (po + 1) [v] buf.
Definition icmp_checksum buf : res nat :=
  let* po := payload_offset buf in
  let* _ := bounds_check (po + 2) 2 buf in Ok (po + 2)%nat.

Definition srcv4 buf : res ipv4addr_t := let* w := ld 4 Header.saddr buf in Ok (NUInt (U32 w)).
Definition dstv4 buf : res ipv4addr_t := let* w := ld 4 Header.daddr buf in Ok (NUInt (U32 w)).
Definition load_v6 (off : nat) buf : res ipv6addr_t :=
  let* bs := peek off 16 buf in Ok (NUInt (U128 (le_decode (drop 8 bs)) (le_decode (take 8 bs)))).
Definition srcv6 buf : res ipv6addr_t :=
  let* v6 := IsV6 buf in
  if v6 : bool then load_v6 HeaderV6.srcaddr buf else let* a := srcv4 buf in Ok (ExpandV4 a).
Definition dstv6 buf : res ipv6addr_t :=
  let* v6 := IsV6 buf in
  if v6 : bool then load_v6 HeaderV6.dstaddr buf else let* a := dstv4 buf in Ok (ExpandV4 a).
Definition src4to6 buf : res ipv6addr_t := let* a := srcv4 buf in Ok (ExpandV4 a).
Definition dst4to6 buf : res ipv6addr_t := let* a := dstv4 buf in Ok (ExpandV4 a).
Definition src4to6Lan buf : res ipv6addr_t := let* a := srcv4 buf in Ok (ExpandV4Lan a).
Definition dst4to6Lan buf : res ipv6addr_t := let* a := dstv4 buf in Ok (ExpandV4Lan a).

Definition srcaddr buf : res ipaddr_t :=
  let* v4 := IsV4 buf in
  if v4 : bool then let* a := srcv4 buf in Ok (V4 a)
  else let* v6 := IsV6 buf in if v6 : bool then let* a := srcv6 buf in Ok (V6 a) else Throw.
Definition dstaddr buf : res ipaddr_t :=
  let* v4 := IsV4 buf in
  if v4 : bool then let* a := dstv4 buf in Ok (V4 a)
  else let* v6 := IsV6 buf in if v6 : bool then let* a := dstv6 buf in Ok (V6 a) else Throw.

Definition proto_TCP : Z := 6.
Definition proto_UDP : Z := 17.
Definition port_at (skip : nat) buf : res (option (nuint_t uint16_t)) :=
  let* proto := byte_at Header.protocol buf in
  if (proto =? proto_TCP) || (proto =? proto_UDP) then
    let* i := Header.ihl buf in
    let off := (Z.to_nat i * 4 + skip)%nat in
    let* _ := bounds_check off 1 buf in
    let* w := ld 2 off buf in Ok (Some (NUInt (U16 w)))
  else Ok None.
Definition DstPort buf := port_at 2 buf.
Definition SrcPort buf := port_at 0 buf.

Definition L4Data buf : res (option (list Z)) :=
  let* proto := byte_at Header.protocol buf in
  if proto =? 17 then
    let* i := Header.ihl buf in
    let off := (Z.to_nat i * 4 + 8)%nat in
    if (length buf <? off)%nat then Ok None else Ok (Some (drop off buf))
  else Ok None.

(** *** Rewriting the addresses *)

(** The switch over the transport protocol: TCP, UDP and UDP-Lite, DCCP. *)
Definition transport_update (tcp : nat -> list Z -> res (list Z)) (udp : list Z -> res (list Z)) (proto : Z) buf
  : res (list Z) :=
  if proto =? 6 then tcp 16%nat buf
  else if (proto =? 17) || (proto =? 136) then udp buf
  else if proto =? 33 then tcp 6%nat buf
  else Ok buf.

Definition UpdateIPv4Address (nSrcIP nDstIP : ipv4addr_t) buf : res (list Z) :=
  let* oSrcIP := srcv4 buf in
  let* oDstIP := dstv4 buf in
  let sz := length buf in
  let* i := Header.ihl buf in
  let ihs := (Z.to_nat i * 4)%nat in
  let* buf :=
    if (ihs <=? sz)%nat then
      let pld := ihs in
      let psz := (sz - ihs)%nat in
      let* f := ld 2 Header.frag_off buf in
      let fragoff := Z.to_nat (Z.land (ntohs f) 8191 * 8) in
      let* proto := byte_at Header.protocol buf in
      transport_update (fun chksumoff => deltaChecksumIPv4TCP pld psz fragoff chksumoff oSrcIP oDstIP nSrcIP nDstIP)
                       (deltaChecksumIPv4UDP pld psz fragoff oSrcIP oDstIP nSrcIP nDstIP) proto buf
    else Ok buf in
  let* v4chk := ld 2 Header.check buf in
  let* buf := st 2 Header.check (deltaIPv4Checksum v4chk oSrcIP oDstIP nSrcIP nDstIP) buf in
  let* buf := st 4 Header.saddr (v32 (nval nSrcIP)) buf in
  st 4 Header.daddr (v32 (nval nDstIP)) buf.

(** The extension headers: the protocol, the offset and size of what follows them and the
    fragment offset; nothing when the function returns early. *)
Fixpoint skip_extensions (fuel : nat) (nextproto : Z) (pld psz fragoff : nat) buf : res (option (Z * nat * nat * nat)) :=
  match fuel with
  | O => NoFuel
  | S fuel =>
      if (nextproto =? 0) || (nextproto =? 43) || (nextproto =? 60) then
        let* nextproto := byte_at pld buf in
        let* l := byte_at (pld + 1) buf in
        let addlen := ((Z.to_nat l + 1) * 8)%nat in
        if (psz <? addlen)%nat then Ok None
        else skip_extensions fuel nextproto (pld + addlen) (psz - addlen) fragoff buf
      else if nextproto =? 44 then
        let* nextproto := byte_at pld buf in
        let* b2 := byte_at (pld + 2) buf in
        let* b3 := byte_at (pld + 3) buf in
        let fragoff := Z.to_nat (Z.lor (Z.shiftl b2 8) (Z.land b3 252)) in
        if (psz <? 8)%nat then Ok None
        else
          let pld := (pld + 8)%nat in
          let psz := (psz - 8)%nat in
          if negb (fragoff =? 0)%nat then Ok (Some (nextproto, pld, psz, fragoff))
          else skip_extensions fuel nextproto pld psz fragoff buf
      else Ok (Some (nextproto, pld, psz, fragoff))
  end.

(** The bytes of an [ipv6addr_t] in memory, and the words of an [in6_addr]. *)
Definition v6_bytes (a : ipv6addr_t) : list Z := le_bytes 8 (lower (nval a)) ++ le_bytes 8 (upper (nval a)).
Definition in6_words (off : nat) buf : res (list Z) :=
  let* a := ld 4 off buf in let* b := ld 4 (off + 4) buf in
  let* c := ld 4 (off + 8) buf in let* d := ld 4 (off + 12) buf in Ok [a; b; c; d].

Definition UpdateIPv6Address (src dst : ipv6addr_t) (flowlabel : option (nuint_t uint32_t)) buf : res (list Z) :=
  let ihs := 40%nat in
  let sz := length buf in
  if (sz <=? ihs)%nat then Ok buf
  else
    let* buf := match flowlabel with Some label => HeaderV6.set_FlowLabel label buf | None => Ok buf end in
    let* oSrcIP := in6_words HeaderV6.srcaddr buf in
    let* oDstIP := in6_words HeaderV6.dstaddr buf in
    let* buf := poke HeaderV6.srcaddr (v6_bytes src) buf in
    let* buf := poke HeaderV6.dstaddr (v6_bytes dst) buf in
    let* nSrcIP := in6_words HeaderV6.srcaddr buf in
    let* nDstIP := in6_words HeaderV6.dstaddr buf in
    let* nextproto := byte_at HeaderV6.protocol buf in
    let* e := skip_extensions (S sz) nextproto ihs (sz - ihs) 0 buf in
    match e with
    | None => Ok buf
    | Some (nextproto, pld, psz, fragoff) =>
        transport_update (fun chksumoff => deltaChecksumIPv6TCP pld psz fragoff chksumoff oSrcIP oDstIP nSrcIP nDstIP)
                         (deltaChecksumIPv6UDP pld psz fragoff oSrcIP oDstIP nSrcIP nDstIP) nextproto buf
    end.

Definition zero_v4 : ipv4addr_t := NUInt (U32 0).
Definition zero_v6 : ipv6addr_t := NUInt (uint128.of_u64 0).
Definition ZeroAddresses (flowlabel : option (nuint_t uint32_t)) buf : res (list Z) :=
  let* v4 := IsV4 buf in
  if v4 : bool then UpdateIPv4Address zero_v4 zero_v4 buf
  else let* v6 := IsV6 buf in
       if v6 : bool then UpdateIPv6Address zero_v6 zero_v6 flowlabel buf else Ok buf.
Definition ZeroSourceAddress (flowlabel : option (nuint_t uint32_t)) buf : res (list Z) :=
  let* v4 := IsV4 buf in
  if v4 : bool then let* d := dstv4 buf in UpdateIPv4Address zero_v4 d buf
  else let* v6 := IsV6 buf in
       if v6 : bool then let* d := dstv6 buf in UpdateIPv6Address zero_v6 d flowlabel buf else Ok buf.

(** *** Building packets *)
Context {OX : Oxenc}.

(** A sequence of stores into a packet. *)
Fixpoint pokes (l : list (nat * list Z)) buf : res (list Z) :=
  match l with
  | [] => Ok buf
  | (off, bs) :: l => let* buf := poke off bs buf in pokes l buf
  end.

Definition MakeICMPUnreachable buf : res (option (list Z)) :=
  let* v4 := IsV4 buf in
  if v4 : bool then
    let icmp_Header_size := 8%nat in
    let* i := Header.ihl buf in
    let ip_Header_size := (Z.to_nat i * 4)%nat in
    let pkt_size := ((icmp_Header_size + ip_Header_size) * 2)%nat in
    let* pkt := of_size pkt_size in
    let* pkt := Header.set_version 4 pkt in
    let* pkt := Header.set_ihl 5 pkt in
    let* saddr := ld 4 Header.saddr buf in
    let* daddr := ld 4 Header.daddr buf in
    let* ttl := byte_at Header.ttl buf in
    let* pkt := pokes [(Header.tos, [0]); (Header.check, le_bytes 2 0);
                       (Header.tot_len, le_bytes 2 (ntohs (u16 (Z.of_nat pkt_size))));
                       (Header.saddr, le_bytes 4 daddr); (Header.daddr, le_bytes 4 saddr);
                       (Header.protocol, [1]); (Header.ttl, [ttl]);
                       (Header.frag_off, le_bytes 2 (htons 16384))] pkt in
    let icmp_begin := ip_Header_size in
    let checksum := (ip_Header_size + 2)%nat in
    let* pkt := pokes [(icmp_begin, [3]); ((icmp_begin + 1)%nat, [7]); (checksum, write_host_as_big 4 0);
                       ((icmp_begin + 6)%nat, write_host_as_big 2 1500)] pkt in
    let* quoted := peek 0 (ip_Header_size + icmp_Header_size) buf in
    let* pkt := poke (icmp_begin + 8) quoted pkt in
    let* hdr := peek 0 ip_Header_size pkt in
    let* pkt := st 2 Header.check (ipchksum hdr 0) pkt in
    let* icmp := peek icmp_begin (8 + (ip_Header_size + icmp_Header_size)) pkt in
    let* pkt := st 2 checksum (ipchksum icmp 0) pkt in
    Ok (Some pkt)
  else Ok None.

Definition ip_header_min_bytes : nat := 20.
Definition udp_header_bytes : nat := 8.
Definition make_ip4_udp (srcaddr : ipv4addr_t) (srcport : nuint_t uint16_t) (dstaddr : ipv4addr_t)
    (dstport : nuint_t uint16_t) (udp_data : list Z) : res (list Z) :=
  let pkt_overhead := (udp_header_bytes + ip_header_min_bytes)%nat in
  let* pkt := of_size (length udp_data + pkt_overhead) in
  let* pkt := poke 1 [0] pkt in
  let* pkt := Header.set_version 4 pkt in
  let* pkt := Header.set_ihl 5 pkt in
  let ptr := ip_header_min_bytes in
  let* pkt := pokes [(Header.tot_len, le_bytes 2 (htons (u16 (Z.of_nat (pkt_overhead + length udp_data)))));
                     (Header.protocol, [17]); (Header.ttl, [64]);
                     (Header.frag_off, le_bytes 2 (htons 16384));
                     (Header.saddr, le_bytes 4 (v32 (nval srcaddr)));
                     (Header.daddr, le_bytes 4 (v32 (nval dstaddr)));
                     (ptr, le_bytes 2 (v16 (nval srcport))); ((ptr + 2)%nat, le_bytes 2 (v16 (nval dstport)));
                     ((ptr + 4)%nat, write_host_as_big 2 (u16 (Z.of_nat (length udp_data + udp_header_bytes))));
                     ((ptr + 6)%nat, write_host_as_big 2 0);
                     ((ptr + 8)%nat, udp_data);
                     (Header.check, le_bytes 2 0)] pkt in
  let* hdr := peek 0 20 pkt in
  st 2 Header.check (ipchksum hdr 0) pkt.

Definition make_udp (srcaddr : ipaddr_t) (srcport : nuint_t uint16_t) (dstaddr : ipaddr_t)
    (dstport : nuint_t uint16_t) (udp_data : list Z) : res (list Z) :=
  match srcaddr, dstaddr with
  | V4 s, V4 d => make_ip4_udp s srcport d dstport udp_data
  | _, _ => of_size 0
  end.

(** [hdr->id++], [hdr->ttl--] and [hdr->frag_off = 0] *)
Definition next_header reply : res (list Z) :=
  let* id := ld 2 Header.id reply in
  let* reply := st 2 Header.id (u16 (id + 1)) reply in
  let* ttl := byte_at Header.ttl reply in
  let* reply := poke Header.ttl [u8 (ttl - 1)] reply in
  st 2 Header.frag_off 0 reply.
(** The rest of the IPv4 header of the reply: the addresses and the checksum. *)
Definition reply_header buf reply : res (list Z) :=
  let* reply := next_header reply in
  let* d := dstv4 buf in
  let* s := srcv4 buf in
  let* reply := UpdateIPv4Address d s reply in
  let* reply := st 2 Header.check 0 reply in
  let* i := Header.ihl reply in
  let* hdr := peek 0 (Nat.min (Z.to_nat i * 4) (length buf)) reply in
  st 2 Header.check (ipchksum hdr 0) reply.
(** The checksum of the ICMP message of the reply. *)
Definition reply_icmp reply : res (list Z) :=
  let* check := icmp_checksum reply in
  let* reply := st 2 check 0 reply in
  let* po := payload_offset reply in
  let* body := peek po (length reply - po) reply in
  st 2 check (ipchksum body 0) reply.
(** The checksum of the ICMPv6 message of the reply. *)
Definition reply_icmp6 reply : res (list Z) :=
  let* check := icmp_checksum reply in
  let* reply := st 2 check 0 reply in
  let* sa := peek HeaderV6.srcaddr 16 reply in
  let* da := peek HeaderV6.dstaddr 16 reply in
  let* po := payload_offset reply in
  let len := ToNet (HUInt (U32 (u32 (Z.of_nat (length reply - po))))) in
  let* proto := byte_at HeaderV6.protocol reply in
  let psuedo_hdr := sa ++ da ++ le_bytes 4 (v32 (nval len)) ++ [0; 0; 0; proto] in
  let psuedo_check := ipchksum psuedo_hdr 0 in
  let* body := peek po (length reply - po) reply in
  st 2 check (ipchksum body psuedo_check) reply.
Definition make_icmp_reply buf : res (list Z) :=
  let* reply := of_size (length buf) in
  let* reply := poke 0 buf reply in
  let* v4 := IsV4 buf in
  if v4 : bool then
    let* reply := set_icmp_type 0 reply in
    let* reply := set_icmp_code 0 reply in
    let* reply := reply_header buf reply in
    reply_icmp reply
  else
    let* v6 := IsV6 buf in
    if v6 : bool then
      let* reply := set_icmp_type 129 reply in
      let* reply := set_icmp_code 0 reply in
      let* d := dstv6 buf in
      let* s := srcv6 buf in
      let* reply := UpdateIPv6Address d s None reply in
      reply_icmp6 reply
    else Ok reply.
End ops.
End IPPacket.

(** * The checksum as a sum modulo 65535 *)

(** The sum of the 16-bit words of a byte string, the last byte padded with a zero. *)
Fixpoint wsum (l : list Z) : Z :=
  match l with b0 :: b1 :: l => b0 + 256 * b1 + wsum l | [b0] => b0 | [] => 0 end.
(** The representative of a sum that adding with end-around carry gives. *)
Definition ones_norm (s : Z) : Z := if s =? 0 then 0 else 1 + (s - 1) mod 65535.

Lemma list_pair_ind {A} (P : list A -> Prop) :
  P [] -> (forall a, P [a]) -> (forall a b l, P l -> P (a :: b :: l)) -> forall l, P l.
Proof.
  intros H0 H1 H2 l. enough (P l /\ forall a, P (a :: l)) by naive_solver.
  induction l as [|x l [IH IH']]; [naive_solver|]. split; [auto|]. intros a. by apply H2.
Qed.

Lemma wsum_nonneg l : bytes l -> 0 <= wsum l.
Proof.
  induction l as [|a|a b l IH] using list_pair_ind; intros H; cbn [wsum]; [lia| |].
  - apply Forall_cons in H as [Ha _]. unfold is_byte in Ha. lia.
  - apply Forall_cons in H as [Ha H]. apply Forall_cons in H as [Hb H]. unfold is_byte in *. specialize (IH H). lia.
Qed.

Lemma wsum_bound l : bytes l -> wsum l <= 32768 * (Z.of_nat (length l) + 1).
Proof.
  induction l as [|a|a b l IH] using list_pair_ind; intros H; cbn [wsum length]; [lia| |].
  - apply Forall_cons in H as [Ha _]. unfold is_byte in Ha. lia.
  - apply Forall_cons in H as [Ha H]. apply Forall_cons in H as [Hb H]. unfold is_byte in *. specialize (IH H). lia.
Qed.

Lemma wsum_app a b : Nat.Even (length a) -> wsum (a ++ b) = wsum a + wsum b.
Proof.
  induction a as [|x|x y a IH] using list_pair_ind; cbn [wsum app length]; intros H; [lia| |].
  - destruct H as [k Hk]. lia.
  - rewrite IH; [lia|]. destruct H as [k Hk]. exists (k - 1)%nat. lia.
Qed.

Lemma ipchksum_loop_spec l s : bytes l -> 0 <= s -> s + wsum l < 2 ^ 32 -> ipchksum_loop l s = s + wsum l.
Proof.
  revert s. induction l as [|a|a b l IH] using list_pair_ind; intros s H Hs Hb; cbn [ipchksum_loop wsum] in *; [lia| |].
  - apply Forall_cons in H as [Ha _]. unfold is_byte in Ha. apply wrap_id. unfold in_width. lia.
  - apply Forall_cons in H as [Ha H]. apply Forall_cons in H as [Hb' H]. unfold is_byte in *. pose proof (wsum_nonneg l H).
    rewrite wrap_id by (unfold in_width; lia). rewrite IH by (done || lia). lia.
Qed.

Lemma ones_norm_unique s v : 1 <= v <= 65535 -> (exists k, s = v + 65535 * k) -> 0 < s -> ones_norm s = v.
Proof.
  intros Hv [k ->] Hs. unfold ones_norm. rewrite (proj2 (Z.eqb_neq _ _)) by lia.
  replace (v + 65535 * k - 1) with (v - 1 + k * 65535) by lia. rewrite Z.mod_add, Z.mod_small by lia. lia.
Qed.

Lemma fold_carries_spec s : in_width 32 s -> Z.land (fold_carries s) 65535 = ones_norm s.
Proof.
  unfold in_width. intros Hs. unfold fold_carries. change 65535 with (Z.ones 16). rewrite !Z.land_ones, !Z.shiftr_div_pow2 by lia.
  change (2 ^ 16) with 65536. pose proof (Z.mod_pos_bound s 65536). pose proof (Z.div_mod s 65536).
  assert (0 <= s / 65536 < 65536) by (split; [apply Z.div_pos; lia|apply Z.div_lt_upper_bound; lia]).
  set (lo := s mod 65536) in *. set (hi := s / 65536) in *.
  rewrite (wrap_id 32 (lo + hi)) by (unfold in_width; lia).
  destruct (decide (lo + hi < 65536)).
  - rewrite (Z.div_small (lo + hi)), Z.add_0_r by lia. rewrite wrap_id by (unfold in_width; lia).
    rewrite Z.mod_small by lia. destruct (decide (s = 0)) as [->|]; [done|]. symmetry. apply ones_norm_unique; [lia| |lia].
    exists hi. lia.
  - assert ((lo + hi) / 65536 = 1) as -> by (symmetry; apply Z.div_unique with (lo + hi - 65536); lia).
    rewrite wrap_id by (unfold in_width; lia).
    assert ((lo + hi + 1) mod 65536 = lo + hi - 65535) as -> by (symmetry; apply Z.mod_unique with 1; lia).
    symmetry. apply ones_norm_unique; [lia| |lia]. exists (hi + 1). lia.
Qed.

Lemma ones_norm_bound s : 0 <= s -> 0 <= ones_norm s <= 65535.
Proof. intros. unfold ones_norm. case_match; [lia|]. pose proof (Z.mod_pos_bound (s - 1) 65535). lia. Qed.

Lemma ones_norm_mod s : ones_norm s mod 65535 = s mod 65535.
Proof.
  unfold ones_norm. destruct (Z.eqb_spec s 0) as [->|]; [done|].
  rewrite Z.add_mod_idemp_r by lia. f_equal. lia.
Qed.

Lemma ones_norm_pos s : 0 < s -> 0 < ones_norm s.
Proof. intros. unfold ones_norm. rewrite (proj2 (Z.eqb_neq _ _)) by lia. pose proof (Z.mod_pos_bound (s - 1) 65535). lia. Qed.

Lemma lnot_low x : in_width 32 x -> Z.land (u32 (Z.lnot x)) 65535 = 65535 - Z.land x 65535.
Proof.
  intros Hx. rewrite wrap_lnot by (done || lia). change 65535 with (Z.ones 16) at 1 3. rewrite !Z.land_ones by lia.
  change (2 ^ 16) with 65536. change (2 ^ 32) with 4294967296. unfold in_width in Hx. pose proof (Z.mod_pos_bound x 65536).
  pose proof (Z.div_mod x 65536). symmetry. apply Z.mod_unique with (65535 - x / 65536); lia.
Qed.

Lemma fold_carries_width s : in_width 32 (fold_carries s).
Proof. apply wrap_bound. lia. Qed.

(** ** What [ipchksum] computes *)
Lemma ipchksum_spec l s :
  bytes l -> 0 <= s -> s + wsum l < 2 ^ 32 -> ipchksum l s = 65535 - ones_norm (s + wsum l).
Proof.
  intros Hl Hs Hb. unfold ipchksum. rewrite ipchksum_loop_spec by done. rewrite lnot_low by apply fold_carries_width.
  rewrite fold_carries_spec; [done|]. unfold in_width. pose proof (wsum_nonneg l Hl). lia.
Qed.

Lemma ipchksum_zero l s :
  bytes l -> 0 <= s -> 0 < s + wsum l < 2 ^ 32 -> ipchksum l s = 0 <-> (s + wsum l) mod 65535 = 0.
Proof.
  intros Hl Hs Hb. rewrite ipchksum_spec by (done || lia). rewrite <- ones_norm_mod.
  pose proof (ones_norm_pos (s + wsum l)). pose proof (ones_norm_bound (s + wsum l)). split; intros H'.
  - replace (ones_norm (s + wsum l)) with 65535 by lia. done.
  - destruct (decide (ones_norm (s + wsum l) = 65535)); [lia|]. rewrite Z.mod_small in H' by lia. lia.
Qed.

(** ** The change of an address *)
Lemma length_le_bytes n v : length (le_bytes n v) = n.
Proof. unfold le_bytes. by rewrite length_rev, length_be_encode. Qed.
Lemma le_bytes_bytes n v : bytes (le_bytes n v).
Proof. apply bytes_rev, be_encode_bytes. Qed.
Lemma le_decode_bytes n v : 0 <= v < 256 ^ Z.of_nat n -> le_decode (le_bytes n v) = v.
Proof. intros. unfold le_bytes. by rewrite le_decode_rev, be_decode_encode. Qed.
Lemma le_bytes_decode l : bytes l -> le_bytes (length l) (le_decode l) = l.
Proof.
  intros Hl. unfold le_bytes. rewrite <- be_decode_rev. replace (length l) with (length (rev l)) by apply length_rev.
  rewrite be_encode_decode by by apply bytes_rev. apply rev_involutive.
Qed.

Lemma wsum_mod l : bytes l -> Nat.Even (length l) -> le_decode l mod 65535 = wsum l mod 65535.
Proof.
  induction l as [|a|a b l IH] using list_pair_ind; intros Hl He; cbn [wsum le_decode length] in *; [done|destruct He; lia|].
  apply Forall_cons in Hl as [_ Hl]. apply Forall_cons in Hl as [_ Hl].
  replace (a + 256 * (b + 256 * le_decode l)) with (a + 256 * b + le_decode l + le_decode l * 65535) by lia.
  rewrite Z.mod_add by lia. rewrite Z.add_mod, IH, <- Z.add_mod by (done || lia || (destruct He as [k Hk]; exists (k - 1)%nat; lia)).
  done.
Qed.

Lemma ADD32CS_eq x : in_width 32 x -> ADD32CS x = wsum (le_bytes 4 x) /\ 0 <= ADD32CS x <= 131070.
Proof.
  intros Hx. unfold in_width in Hx. set (l := le_bytes 4 x).
  assert (le_decode l = x) as Hd by (by apply le_decode_bytes). pose proof (le_bytes_bytes 4 x) as Hb. fold l in Hb.
  assert (length l = 4%nat) as Hl by apply length_le_bytes. clearbody l. subst x.
  destruct l as [|a [|b [|c [|d [|]]]]]; try done.
  repeat (apply Forall_cons in Hb as [? Hb]). unfold is_byte in *. unfold ADD32CS.
  change 65535 with (Z.ones 16). rewrite Z.land_ones, Z.shiftr_div_pow2 by lia. change (2 ^ 16) with 65536.
  cbn [le_decode wsum] in *.
  assert (a + 256 * (b + 256 * (c + 256 * (d + 256 * 0))) = (c + 256 * d) * 65536 + (a + 256 * b)) as -> by lia.
  rewrite Z.div_add_l, (Z.div_small (a + 256 * b)) by lia.
  rewrite (Z.add_comm ((c + 256 * d) * 65536)), Z.mod_add, Z.mod_small by lia.
  rewrite wrap_id by (unfold in_width; lia). lia.
Qed.

Lemma SUB32CS_eq x : in_width 32 x -> SUB32CS x = 131070 - ADD32CS x.
Proof.
  intros Hx. pose proof Hx as Hx'. unfold in_width in Hx'. unfold SUB32CS, ADD32CS. rewrite lnot_low by done. rewrite wrap_lnot by (done || lia).
  rewrite !Z.shiftr_div_pow2 by lia. replace (Z.land x 65535) with (x mod 65536) by (symmetry; apply (Z.land_ones x 16); lia).
  change (2 ^ 16) with 65536. change (2 ^ 32) with 4294967296. pose proof (Z.mod_pos_bound x 65536). pose proof (Z.div_mod x 65536).
  assert (0 <= x / 65536 < 65536) by (split; [apply Z.div_pos; lia|apply Z.div_lt_upper_bound; lia]).
  assert ((4294967296 - 1 - x) / 65536 = 65535 - x / 65536) as ->
    by (symmetry; apply Z.div_unique with (65535 - x mod 65536); lia).
  rewrite !wrap_id by (unfold in_width; lia). lia.
Qed.

Definition addr4_ok (a : ipv4addr_t) : Prop := in_width 32 (v32 (nval a)).
Definition addr4_bytes (a : ipv4addr_t) : list Z := le_bytes 4 (v32 (nval a)).

Lemma deltaIPv4_spec c os od ns nd :
  in_width 16 c -> addr4_ok os -> addr4_ok od -> addr4_ok ns -> addr4_ok nd ->
  in_width 16 (deltaIPv4Checksum c os od ns nd) /\
  (0 < c -> 0 < deltaIPv4Checksum c os od ns nd) /\
  deltaIPv4Checksum c os od ns nd mod 65535
  = (c + wsum (addr4_bytes os) + wsum (addr4_bytes od) - wsum (addr4_bytes ns) - wsum (addr4_bytes nd)) mod 65535.
Proof.
  unfold addr4_ok, addr4_bytes. intros Hc H1 H2 H3 H4. unfold deltaIPv4Checksum.
  destruct (ADD32CS_eq _ H1) as [<- ?], (ADD32CS_eq _ H2) as [<- ?], (ADD32CS_eq _ H3) as [<- ?], (ADD32CS_eq _ H4) as [<- ?].
  rewrite (SUB32CS_eq _ H3), (SUB32CS_eq _ H4). unfold in_width in Hc.
  rewrite (wrap_id 32 (c + _)), (wrap_id 32 (c + _ + _)), (wrap_id 32 (c + _ + _ + _)), (wrap_id 32 (c + _ + _ + _ + _))
    by (unfold in_width; lia).
  rewrite fold_carries_spec by (unfold in_width; lia).
  match goal with |- in_width 16 (ones_norm ?s) /\ _ => pose proof (ones_norm_bound s) end.
  split_and!; [unfold in_width; lia|intros; apply ones_norm_pos; lia|].
  - rewrite ones_norm_mod. rewrite <- (Z.mod_add _ (-4) 65535) by lia. f_equal. lia.
Qed.

(** * Rewriting addresses in place *)
Lemma ld_app a b c n off : off = length a -> n = length b -> ld n off (a ++ b ++ c) = Ok (le_decode b).
Proof. intros. unfold ld. by rewrite peek_app. Qed.
Lemma st_app a b c v n off : off = length a -> n = length b -> st n off v (a ++ b ++ c) = Ok (a ++ le_bytes n v ++ c).
Proof. intros. unfold st. apply poke_app; [done|]. by rewrite length_le_bytes. Qed.

Lemma split_at {A} (l : list A) i n :
  (i + n <= length l)%nat -> exists a b c, l = a ++ b ++ c /\ length a = i /\ length b = n.
Proof.
  intros H. exists (take i l), (take n (drop i l)), (drop n (drop i l)). rewrite !take_drop. split; [done|].
  rewrite !length_take, length_drop. lia.
Qed.

Lemma bytes_app a b : bytes (a ++ b) <-> bytes a /\ bytes b.
Proof. apply Forall_app. Qed.

(** What a change of a checksum that adds [k] to the sum of the words does. *)
Definition adds (delta : Z -> Z) (k : Z) : Prop :=
  forall c, in_width 16 c ->
    in_width 16 (delta c) /\ (0 < c -> 0 < delta c) /\ delta c mod 65535 = (c + k) mod 65535.

Lemma wsum_word v : in_width 16 v -> wsum (le_bytes 2 v) = v.
Proof.
  intros Hv. unfold in_width in Hv. rewrite <- (le_decode_bytes 2 v) at 2 by done.
  pose proof (length_le_bytes 2 v). destruct (le_bytes 2 v) as [|a [|b [|]]]; try done. cbn. lia.
Qed.

Lemma word_width w : bytes w -> length w = 2%nat -> in_width 16 (le_decode w).
Proof. intros Hw Hl. pose proof (le_decode_bound w Hw). rewrite Hl in *. unfold in_width. change (256 ^ Z.of_nat 2) with (2 ^ 16) in *. lia. Qed.

Lemma word_sum w : bytes w -> length w = 2%nat -> wsum w = le_decode w.
Proof. intros _ Hl. destruct w as [|a [|b [|]]]; try done. cbn. lia. Qed.

(** The transport header with its checksum replaced. *)
Lemma replaced_sum p w q v :
  bytes (p ++ w ++ q) -> length w = 2%nat -> Nat.Even (length p) -> in_width 16 v ->
  wsum (p ++ le_bytes 2 v ++ q) = wsum (p ++ w ++ q) - le_decode w + v.
Proof.
  intros Hb Hw He Hv. apply bytes_app in Hb as [_ Hb]. apply bytes_app in Hb as [Hbw _].
  assert (Nat.Even 2) by by exists 1%nat.
  rewrite !wsum_app by (rewrite ?length_le_bytes, ?Hw; done). rewrite wsum_word, (word_sum w) by done. lia.
Qed.

Lemma replaced_bytes p w q v : bytes (p ++ w ++ q) -> bytes (p ++ le_bytes 2 v ++ q).
Proof. rewrite !bytes_app. intros (? & _ & ?). auto using le_bytes_bytes. Qed.

Record changed (k : Z) (off : nat) (pay pay' : list Z) : Prop := {
  ch_bytes : bytes pay';
  ch_length : length pay' = length pay;
  ch_sum : wsum pay' mod 65535 = (wsum pay + k) mod 65535;
  ch_other : forall j, (j < off \/ off + 2 <= j)%nat -> pay' !! j = pay !! j;
}.

Lemma replaced_changed k p w q v :
  bytes (p ++ w ++ q) -> length w = 2%nat -> Nat.Even (length p) -> in_width 16 v ->
  v mod 65535 = (le_decode w + k) mod 65535 -> changed k (length p) (p ++ w ++ q) (p ++ le_bytes 2 v ++ q).
Proof.
  intros Hb Hw He Hv Hm. split.
  - by apply (replaced_bytes p w).
  - rewrite !length_app, length_le_bytes. lia.
  - rewrite (replaced_sum p w) by done. set (s := wsum _).
    replace (s - le_decode w + v) with (v + (s - le_decode w)) by lia.
    rewrite <- Z.add_mod_idemp_l, Hm, Z.add_mod_idemp_l by lia. f_equal. lia.
  - intros j [Hj|Hj]; [by rewrite !lookup_app_l|].
    rewrite !(lookup_app_r p), !lookup_app_r by (rewrite ?length_le_bytes; lia). by rewrite length_le_bytes, Hw.
Qed.

Lemma delta_tcp_run delta k pre pay frag off :
  adds delta k -> bytes pay -> (frag <= off)%nat -> Nat.Even (off - frag) -> (off - frag + 2 <= length pay)%nat ->
  exists pay', deltaChecksumTCP delta (length pre) (length pay) frag off (pre ++ pay) = Ok (pre ++ pay') /\
    changed k (off - frag) pay pay'.
Proof.
  intros Hd Hb Hf He Hl. destruct (split_at pay (off - frag) 2 Hl) as (p & w & q & -> & Hp & Hw).
  assert (bytes w) as Hbw by (rewrite !bytes_app in Hb; tauto).
  destruct (Hd (le_decode w)) as (W & _ & M); [by apply word_width|].
  unfold deltaChecksumTCP. rewrite (proj2 (Nat.ltb_ge _ _)), (proj2 (Nat.ltb_ge _ _)) by lia. cbn [orb].
  replace (length pre + off - frag)%nat with (length (pre ++ p)) by (rewrite length_app; lia).
  rewrite !(app_assoc pre). rewrite (ld_app _ w) by done. cbn [rbind].
  rewrite (st_app _ w) by done. cbn [rbind].
  rewrite (ld_app _ (le_bytes 2 _)) by (by rewrite ?length_le_bytes). cbn [rbind].
  rewrite le_decode_bytes by (unfold in_width in W; lia). rewrite <- Hp in *.
  destruct (Z.eqb_spec (delta (le_decode w)) 65535) as [E|].
  - rewrite (st_app _ (le_bytes 2 _)) by (by rewrite ?length_le_bytes). rewrite <- !app_assoc.
    eexists. split; [done|]. apply replaced_changed; [done..|split; lia|]. by rewrite <- M, E.
  - rewrite <- !app_assoc. eexists. split; [done|]. by apply replaced_changed.
Qed.

Lemma delta_udp_run delta k pre pay frag :
  adds delta k -> bytes pay -> (frag <= 6)%nat -> (8 <= length pay)%nat -> ld 2 6 pay <> Ok 0 ->
  exists pay', deltaChecksumUDP delta (length pre) (length pay) frag (pre ++ pay) = Ok (pre ++ pay') /\
    changed k 6 pay pay' /\ ld 2 6 pay' <> Ok 0.
Proof.
  intros Hd Hb Hf Hl Hz. destruct (split_at pay 6 2) as (p & w & q & -> & Hp & Hw); [lia|].
  assert (bytes w) as Hbw by (rewrite !bytes_app in Hb; tauto).
  destruct (Hd (le_decode w)) as (W & Pos & M); [by apply word_width|]. pose proof (word_width w Hbw Hw) as Ww.
  rewrite (ld_app p w) in Hz by done. unfold deltaChecksumUDP.
  rewrite (proj2 (Nat.ltb_ge _ _)), (proj2 (Nat.ltb_ge _ _)) by lia. cbn [orb]. rewrite !(app_assoc pre).
  rewrite (ld_app _ w) by (rewrite ?length_app; lia). cbn [rbind].
  rewrite (proj2 (Z.eqb_neq _ _)) by (intros E; by rewrite E in Hz).
  rewrite (st_app _ w) by (rewrite ?length_app; lia). rewrite <- !app_assoc. eexists. split; [done|]. split.
  - rewrite <- Hp. apply replaced_changed; [done|done|rewrite Hp; by exists 3%nat|done|done].
  - rewrite (ld_app p (le_bytes 2 _)) by (rewrite ?length_le_bytes; done).
    unfold in_width in *. rewrite le_decode_bytes by lia. intros [= E].
    assert (le_decode w <> 0) by congruence. lia.
Qed.

Lemma delta_udp_zero delta pre pay frag :
  (frag <= 6)%nat -> (8 <= length pay)%nat -> ld 2 6 pay = Ok 0 ->
  deltaChecksumUDP delta (length pre) (length pay) frag (pre ++ pay) = Ok (pre ++ pay).
Proof.
  intros Hf Hl Hz. destruct (split_at pay 6 2) as (p & w & q & -> & Hp & Hw); [lia|].
  rewrite (ld_app p w) in Hz by done. injection Hz as Hz. unfold deltaChecksumUDP.
  rewrite (proj2 (Nat.ltb_ge _ _)), (proj2 (Nat.ltb_ge _ _)) by lia. cbn [orb]. rewrite !(app_assoc pre).
  rewrite (ld_app _ w) by (rewrite ?length_app; lia). cbn [rbind]. by rewrite Hz.
Qed.

(** Where the transport protocols that sum the addresses keep their checksum. *)
Definition checksum_offset (proto : Z) : option nat :=
  if proto =? 6 then Some 16%nat
  else if (proto =? 17) || (proto =? 136) then Some 6%nat
  else if proto =? 33 then Some 6%nat else None.
(** The first fragment of a segment that has such a checksum. *)
Definition has_checksum (proto : Z) (frag : nat) (pay : list Z) (off : nat) : Prop :=
  checksum_offset proto = Some off /\ frag = 0%nat /\ (off + 2 <= length pay)%nat /\
  (proto = 17 \/ proto = 136 -> ld 2 6 pay <> Ok 0).

(** The switch leaves the payload alone or changes one checksum by [k]; the first fragment of
    a segment with a checksum gets the change. *)
Lemma transport_update_run delta k proto pre pay frag :
  adds delta k -> bytes pay -> Nat.Even frag ->
  exists pay',
    IPPacket.transport_update (fun off => deltaChecksumTCP delta (length pre) (length pay) frag off)
      (deltaChecksumUDP delta (length pre) (length pay) frag) proto (pre ++ pay) = Ok (pre ++ pay') /\
    bytes pay' /\ length pay' = length pay /\
    (forall off, has_checksum proto frag pay off -> changed k off pay pay') /\
    (checksum_offset proto = None -> pay' = pay).
Proof.
  intros Hd Hb Hf.
  assert (forall off, Nat.Even off -> exists pay',
      deltaChecksumTCP delta (length pre) (length pay) frag off (pre ++ pay) = Ok (pre ++ pay') /\
      bytes pay' /\ length pay' = length pay /\
      (frag = 0%nat -> (off + 2 <= length pay)%nat -> changed k off pay pay')) as Htcp.
  { intros off He. destruct (decide (frag <= off /\ off - frag + 2 <= length pay)%nat) as [[H1 H2]|Hn].
    - destruct (delta_tcp_run delta k pre pay frag off) as (pay' & E & Hc); [done..| |done|].
      { destruct He as [x ->], Hf as [y ->]. exists (x - y)%nat. lia. }
      exists pay'. split; [done|]. split_and!; [apply Hc|apply Hc|]. intros ->. by rewrite Nat.sub_0_r in Hc.
    - exists pay. split_and!; [|done|done|intros -> ?; exfalso; apply Hn; lia]. unfold deltaChecksumTCP.
      destruct (Nat.ltb_spec off frag), (Nat.ltb_spec (length pay) (off - frag + 2)); try done. lia. }
  unfold IPPacket.transport_update, has_checksum, checksum_offset.
  destruct (Z.eqb_spec proto 6) as [->|]; [|destruct ((proto =? 17) || (proto =? 136)) eqn:Eu; [|destruct (Z.eqb_spec proto 33)]].
  - destruct (Htcp 16%nat) as (pay' & ? & ? & ? & H); [by exists 8%nat|]. exists pay'. split_and!; [done|done|done| |].
    + intros off ([= <-] & ? & ? & _). auto.
    + done.
  - assert (proto = 17 \/ proto = 136) as Hp by lia.
    destruct (decide (frag <= 6 /\ 8 <= length pay)%nat) as [[H1 H2]|Hn].
    + assert (ld 2 6 pay = Ok 0 \/ ld 2 6 pay <> Ok 0) as [Hz|Hz].
      { destruct (ld 2 6 pay) as [[]| | |]; naive_solver. }
      * exists pay. rewrite delta_udp_zero by done. split_and!; [done|done|done|naive_solver|done].
      * destruct (delta_udp_run delta k pre pay frag) as (pay' & E & Hc & _); [done..|]. exists pay'.
        split_and!; [done|apply Hc|apply Hc| |done]. intros off ([= <-] & _). done.
    + exists pay. split_and!; [|done|done|intros off ([= <-] & -> & ? & _); exfalso; apply Hn; lia|done].
      unfold deltaChecksumUDP. destruct (Nat.ltb_spec 6 frag), (Nat.ltb_spec (length pay) (6 + 2)); try done. lia.
  - destruct (Htcp 6%nat) as (pay' & ? & ? & ? & H); [by exists 3%nat|]. exists pay'. split_and!; [done|done|done| |].
    + intros off ([= <-] & ? & ? & _). auto.
    + done.
  - exists pay. split_and!; [done|done|done|naive_solver|done].
Qed.

Lemma byte_at_take n i l : (i < n)%nat -> byte_at i (take n l) = byte_at i l.
Proof. intros. unfold byte_at. by rewrite lookup_take_lt. Qed.

Lemma byte_at_ok i l : (i < length l)%nat -> exists b, byte_at i l = Ok b /\ l !! i = Some b.
Proof. intros [b Hb]%lookup_lt_is_Some_2. exists b. unfold byte_at. by rewrite Hb. Qed.

Lemma ihl_app h r : (0 < length h)%nat -> Header.ihl (h ++ r) = Header.ihl h.
Proof. intros. unfold Header.ihl, byte_at. by rewrite lookup_app_l. Qed.

Lemma ihl_bound buf i : bytes buf -> Header.ihl buf = Ok i -> 0 <= i <= 15.
Proof.
  intros Hb. unfold Header.ihl, byte_at. destruct (buf !! 0%nat) as [b|] eqn:E; [|done]. cbn. intros [= <-].
  change (Z.land b 15) with (Z.land b (Z.ones 4)). rewrite Z.land_ones by lia. pose proof (Z.mod_pos_bound b (2 ^ 4)). lia.
Qed.

(** The parts of a packet with an IPv4 header of [4 * i] bytes. *)
Lemma v4_parts buf i :
  bytes buf -> Header.ihl buf = Ok i -> 5 <= i -> (Z.to_nat i * 4 <= length buf)%nat ->
  exists h chk s d opts pay,
    buf = h ++ chk ++ s ++ d ++ opts ++ pay /\ bytes h /\ bytes chk /\ bytes s /\ bytes d /\ bytes opts /\ bytes pay /\
    length h = 10%nat /\ length chk = 2%nat /\ length s = 4%nat /\ length d = 4%nat /\ length opts = (Z.to_nat i * 4 - 20)%nat.
Proof.
  intros Hb Hi H5 Hl. destruct (split_at buf 10 2) as (h & chk & r1 & -> & ? & ?); [lia|].
  rewrite !length_app in Hl. destruct (split_at r1 4 4) as (s & d & r2 & -> & ? & ?); [lia|].
  rewrite !length_app in Hl. destruct (split_at r2 (Z.to_nat i * 4 - 20) 0) as (opts & e & pay & -> & ? & He); [lia|].
  apply nil_length_inv in He as ->. rewrite !bytes_app in Hb. exists h, chk, s, d, opts, pay. by split_and!; try apply Hb.
Qed.

Section parts.
Context (h chk s d r : list Z) (Hh : length h = 10%nat) (Hc : length chk = 2%nat) (Hs : length s = 4%nat) (Hd : length d = 4%nat).
Let buf := h ++ chk ++ s ++ d ++ r.

Lemma chk_ld : ld 2 Header.check buf = Ok (le_decode chk).
Proof using Hh Hc Hs Hd. by apply ld_app. Qed.
Lemma chk_st v : st 2 Header.check v buf = Ok (h ++ le_bytes 2 v ++ s ++ d ++ r).
Proof using Hh Hc Hs Hd. by apply st_app. Qed.
Lemma src_ld : ld 4 Header.saddr buf = Ok (le_decode s).
Proof using Hh Hc Hs Hd. unfold buf. rewrite (app_assoc h). apply ld_app; [|done]. rewrite length_app. unfold Header.saddr. lia. Qed.
Lemma src_st v : st 4 Header.saddr v buf = Ok (h ++ chk ++ le_bytes 4 v ++ d ++ r).
Proof using Hh Hc Hs Hd.
  unfold buf. rewrite (app_assoc h), (st_app (h ++ chk) s), <- app_assoc; [done| |done].
  rewrite length_app. unfold Header.saddr. lia.
Qed.
Lemma dst_ld : ld 4 Header.daddr buf = Ok (le_decode d).
Proof using Hh Hc Hs Hd.
  unfold buf. rewrite (app_assoc chk), (app_assoc h). apply ld_app; [|done]. rewrite !length_app. unfold Header.daddr. lia.
Qed.
Lemma dst_st v : st 4 Header.daddr v buf = Ok (h ++ chk ++ s ++ le_bytes 4 v ++ r).
Proof using Hh Hc Hs Hd.
  unfold buf. rewrite (app_assoc chk), (app_assoc h), (st_app (h ++ chk ++ s) d), <- !app_assoc; [done| |done].
  rewrite !length_app. unfold Header.daddr. lia.
Qed.
Lemma header_lookup j : (j < 10)%nat -> buf !! j = h !! j.
Proof using Hh Hc Hs Hd. intros. unfold buf. by rewrite lookup_app_l by lia. Qed.
End parts.

(** How far the sum of the words moves when the addresses change. *)
Definition addr_delta (s d : list Z) (ns nd : ipv4addr_t) : Z :=
  wsum s + wsum d - wsum (addr4_bytes ns) - wsum (addr4_bytes nd).

Lemma deltaIPv4_adds s d ns nd :
  bytes s -> bytes d -> length s = 4%nat -> length d = 4%nat -> addr4_ok ns -> addr4_ok nd ->
  adds (fun c => deltaIPv4Checksum c (NUInt (U32 (le_decode s))) (NUInt (U32 (le_decode d))) ns nd) (addr_delta s d ns nd).
Proof.
  intros Hs Hd Ls Ld Hn Hm c Hc.
  assert (forall l, bytes l -> length l = 4%nat ->
    addr4_ok (NUInt (U32 (le_decode l))) /\ addr4_bytes (NUInt (U32 (le_decode l))) = l) as Ha.
  { intros l Hl Ll. unfold addr4_ok, addr4_bytes. cbn [nval v32]. split.
    - pose proof (le_decode_bound l Hl). rewrite Ll in *. done.
    - rewrite <- Ll at 1. by apply le_bytes_decode. }
  destruct (Ha s Hs Ls) as [W1 B1], (Ha d Hd Ld) as [W2 B2].
  destruct (deltaIPv4_spec c _ _ ns nd Hc W1 W2 Hn Hm) as (? & ? & E). split_and!; [done..|].
  rewrite E, B1, B2. unfold addr_delta. f_equal. lia.
Qed.

Lemma ntohs_mul8_even f : Nat.Even (Z.to_nat (Z.land (ntohs f) 8191 * 8)).
Proof. exists (Z.to_nat (Z.land (ntohs f) 8191 * 4)). lia. Qed.

(** The fragment offset of an IPv4 header. *)
Definition frag_of (buf : list Z) : nat :=
  match ld 2 Header.frag_off buf with Ok f => Z.to_nat (Z.land (ntohs f) 8191 * 8) | _ => 0 end.

Lemma UpdateIPv4_run h chk s d opts pay i ns nd :
  let buf := h ++ chk ++ s ++ d ++ opts ++ pay in
  bytes buf -> length h = 10%nat -> length chk = 2%nat -> length s = 4%nat -> length d = 4%nat ->
  Header.ihl buf = Ok i -> 5 <= i -> length opts = (Z.to_nat i * 4 - 20)%nat -> addr4_ok ns -> addr4_ok nd ->
  exists v pay',
    IPPacket.UpdateIPv4Address ns nd buf = Ok (h ++ le_bytes 2 v ++ addr4_bytes ns ++ addr4_bytes nd ++ opts ++ pay') /\
    in_width 16 v /\ v mod 65535 = (le_decode chk + addr_delta s d ns nd) mod 65535 /\
    bytes pay' /\ length pay' = length pay /\
    (forall proto off, byte_at Header.protocol buf = Ok proto -> has_checksum proto (frag_of buf) pay off ->
       changed (addr_delta s d ns nd) off pay pay') /\
    (forall proto, byte_at Header.protocol buf = Ok proto -> checksum_offset proto = None -> pay' = pay).
Proof.
  intros buf Hb Hh Hc Hs Hd Hi H5 Ho Hn Hm. pose proof Hb as Hb'. unfold buf in Hb'. rewrite !bytes_app in Hb'.
  destruct Hb' as (? & ? & ? & ? & ? & ?).
  assert (adds _ (addr_delta s d ns nd)) as Hadds by by apply deltaIPv4_adds.
  destruct (byte_at_ok Header.protocol buf) as (proto & Hproto & _).
  { unfold buf. rewrite !length_app. unfold Header.protocol. lia. }
  assert (exists f, ld 2 Header.frag_off buf = Ok f) as [f Hf].
  { unfold ld, peek. rewrite (proj2 (Nat.leb_le _ _)); [by eexists|]. unfold buf. rewrite !length_app. unfold Header.frag_off. lia. }
  destruct (transport_update_run _ _ proto (h ++ chk ++ s ++ d ++ opts) pay (frag_of buf) Hadds) as (pay' & E & ? & ? & Hch & Hno); [done| |].
  { unfold frag_of. rewrite Hf. apply ntohs_mul8_even. }
  destruct (Hadds (le_decode chk)) as (? & _ & ?); [by apply word_width|].
  eexists _, pay'. split; [|split_and!; [done|done|done|done|intros proto' off; rewrite Hproto; intros [= <-]; apply Hch
    |intros proto'; rewrite Hproto; intros [= <-]; apply Hno]].
  unfold IPPacket.UpdateIPv4Address, IPPacket.srcv4, IPPacket.dstv4. unfold buf at 1 2. rewrite src_ld, dst_ld by done.
  cbn [rbind]. rewrite Hi. cbn [rbind]. rewrite (proj2 (Nat.leb_le _ _)) by (unfold buf; rewrite !length_app; lia).
  rewrite Hf, Hproto. cbn [rbind].
  replace (Z.to_nat i * 4)%nat with (length (h ++ chk ++ s ++ d ++ opts)) by (rewrite !length_app; lia).
  replace (length buf - _)%nat with (length pay) by (unfold buf; rewrite !length_app; lia).
  unfold frag_of in E. rewrite Hf in E. replace buf with ((h ++ chk ++ s ++ d ++ opts) ++ pay) at 1 by (unfold buf; by rewrite <- !app_assoc).
  unfold deltaChecksumIPv4TCP, deltaChecksumIPv4UDP. rewrite E. cbn [rbind]. rewrite <- !app_assoc.
  rewrite chk_ld by done. cbn [rbind]. rewrite chk_st by done. cbn [rbind].
  rewrite src_st by (done || apply length_le_bytes). cbn [rbind]. rewrite dst_st by (done || apply length_le_bytes). done.
Qed.

(** The part of the pseudo header that holds the addresses. *)
Definition address_sum4 (buf : list Z) : Z := wsum (take 8 (drop 12 buf)).

Section sums.
Context (h chk s d opts pay : list Z) (Hh : length h = 10%nat) (Hc : length chk = 2%nat) (Hs : length s = 4%nat) (Hd : length d = 4%nat).
Let buf := h ++ chk ++ s ++ d ++ opts ++ pay.

Lemma buf_header : buf = (h ++ chk ++ s ++ d ++ opts) ++ pay.
Proof using Type. unfold buf. by rewrite <- !app_assoc. Qed.
Lemma header_take n : n = (20 + length opts)%nat -> take n buf = h ++ chk ++ s ++ d ++ opts.
Proof using Hh Hc Hs Hd. intros ->. rewrite buf_header. apply take_app_length'. rewrite !length_app. lia. Qed.
Lemma header_drop n : n = (20 + length opts)%nat -> drop n buf = pay.
Proof using Hh Hc Hs Hd. intros ->. rewrite buf_header. apply drop_app_length'. rewrite !length_app. lia. Qed.
Lemma address_sum4_eq : address_sum4 buf = wsum s + wsum d.
Proof using Hh Hc Hs Hd.
  unfold address_sum4. replace buf with ((h ++ chk) ++ (s ++ d) ++ opts ++ pay) by (unfold buf; by rewrite <- !app_assoc).
  replace 12%nat with (length (h ++ chk)) by (rewrite length_app; lia). rewrite drop_app_length.
  replace 8%nat with (length (s ++ d)) by (rewrite length_app; lia). rewrite take_app_length.
  apply wsum_app. rewrite Hs. by exists 2%nat.
Qed.
Lemma header_sum : wsum (h ++ chk ++ s ++ d ++ opts) = wsum h + wsum chk + wsum s + wsum d + wsum opts.
Proof using Hh Hc Hs Hd.
  rewrite !wsum_app; [lia|..]; rewrite ?Hh, ?Hc, ?Hs, ?Hd; [by exists 2%nat|by exists 2%nat|by exists 1%nat|by exists 5%nat].
Qed.
End sums.

Lemma mod_shift m a b c : a mod m = b mod m -> (a + c) mod m = (b + c) mod m.
Proof. intros E. by rewrite Zplus_mod, E, <- Zplus_mod. Qed.

Lemma ihl_sum_pos h r i : bytes (h ++ r) -> (2 <= length h)%nat -> Header.ihl (h ++ r) = Ok i -> 0 < i -> 0 < wsum h.
Proof.
  intros Hb Hl Hi Hp. apply bytes_app in Hb as [Hb _]. destruct h as [|a [|b h]]; cbn [length] in Hl; [lia..|].
  apply Forall_cons in Hb as [Ha Hb]. apply Forall_cons in Hb as [Hb0 Hb]. pose proof (wsum_nonneg h Hb).
  unfold is_byte in *. cbn [wsum]. enough (a <> 0) by lia. intros ->. injection Hi as <-. done.
Qed.

(** A header of at most 60 bytes verifies exactly when its sum is a multiple of 65535. *)
Lemma header_verifies l : bytes l -> (length l <= 60)%nat -> 0 < wsum l -> ipchksum l 0 = 0 <-> wsum l mod 65535 = 0.
Proof. intros Hb Hl Hp. pose proof (wsum_bound l Hb). by rewrite ipchksum_zero by (done || lia). Qed.

Lemma header_keeps h chk s d opts v ns nd :
  bytes h -> bytes chk -> bytes s -> bytes d -> bytes opts ->
  length h = 10%nat -> length chk = 2%nat -> length s = 4%nat -> length d = 4%nat -> (length opts <= 40)%nat -> 0 < wsum h ->
  in_width 16 v -> v mod 65535 = (le_decode chk + addr_delta s d ns nd) mod 65535 ->
  ipchksum (h ++ chk ++ s ++ d ++ opts) 0 = 0 ->
  ipchksum (h ++ le_bytes 2 v ++ addr4_bytes ns ++ addr4_bytes nd ++ opts) 0 = 0.
Proof.
  intros Bh Bc Bs Bd Bo Hh Hc Hs Hd Ho Hpos Hv Hm.
  assert (bytes (le_bytes 2 v) /\ bytes (addr4_bytes ns) /\ bytes (addr4_bytes nd)) as (Bv & Bn & Bm)
    by (split_and!; apply le_bytes_bytes).
  assert (length (le_bytes 2 v) = 2 /\ length (addr4_bytes ns) = 4 /\ length (addr4_bytes nd) = 4)%nat as (Lv & Ln & Lm)
    by (split_and!; apply length_le_bytes).
  pose proof (header_sum h chk s d opts Hh Hc Hs Hd) as E1. pose proof (header_sum h _ _ _ opts Hh Lv Ln Lm) as E2.
  pose proof (wsum_nonneg _ Bv). pose proof (wsum_nonneg _ Bn). pose proof (wsum_nonneg _ Bm). pose proof (wsum_nonneg _ Bc).
  pose proof (wsum_nonneg _ Bs). pose proof (wsum_nonneg _ Bd). pose proof (wsum_nonneg _ Bo).
  rewrite (header_verifies (h ++ chk ++ _)), (header_verifies (h ++ le_bytes 2 v ++ _));
    [|rewrite !bytes_app; tauto|rewrite !length_app; lia|lia|rewrite !bytes_app; tauto|rewrite !length_app; lia|lia].
  rewrite E1, E2, wsum_word by done. intros <-. rewrite (word_sum chk) by done. unfold addr_delta in Hm.
  apply (mod_shift _ _ _ (wsum h + wsum (addr4_bytes ns) + wsum (addr4_bytes nd) + wsum opts)) in Hm.
  etransitivity; [etransitivity; [|exact Hm]|]; f_equal; lia.
Qed.

(** C24. [UpdateIPv4Address] on every packet with an IPv4 header that fits: the new addresses are
    the ones asked for, a header whose checksum verified still verifies, and the sum over the
    pseudo header and the segment that TCP, UDP, UDP-Lite and DCCP verify is unchanged modulo
    65535, whatever the rest of the pseudo header is. *)
Theorem update_ipv4_checksums (buf : list Z) (i : Z) (ns nd : ipv4addr_t) :
  bytes buf -> Header.ihl buf = Ok i -> 5 <= i -> (Z.to_nat i * 4 <= length buf)%nat -> addr4_ok ns -> addr4_ok nd ->
  let ihs := (Z.to_nat i * 4)%nat in
  exists buf', IPPacket.UpdateIPv4Address ns nd buf = Ok buf' /\ length buf' = length buf /\
    IPPacket.srcv4 buf' = Ok ns /\ IPPacket.dstv4 buf' = Ok nd /\
    (ipchksum (take ihs buf) 0 = 0 -> ipchksum (take ihs buf') 0 = 0) /\
    (forall proto off pseudo, byte_at Header.protocol buf = Ok proto -> has_checksum proto (frag_of buf) (drop ihs buf) off ->
       (pseudo + address_sum4 buf' + wsum (drop ihs buf')) mod 65535
       = (pseudo + address_sum4 buf + wsum (drop ihs buf)) mod 65535).
Proof.
  intros Hb Hi H5 Hl Hn Hm ihs. destruct (v4_parts buf i) as (h & chk & s & d & opts & pay & -> & ? & ? & ? & ? & ? & ? & Hh & Hc & Hs & Hd & Ho); [done..|].
  destruct (UpdateIPv4_run h chk s d opts pay i ns nd) as (v & pay' & E & Hv & Mv & ? & Hp & Hch & _); [done..|].
  pose proof (ihl_bound _ _ Hb Hi). assert (ihs = 20 + length opts)%nat as Hihs by lia.
  assert (forall a, length (addr4_bytes a) = 4%nat) as La by (intros; apply length_le_bytes).
  assert (forall a, addr4_ok a -> NUInt (U32 (le_decode (addr4_bytes a))) = a) as Ra.
  { intros [[x]] Ha. unfold addr4_bytes. cbn [nval v32]. by rewrite le_decode_bytes. }
  eexists. split; [exact E|]. split_and!.
  - rewrite !length_app, !La, length_le_bytes, Hp. lia.
  - unfold IPPacket.srcv4. rewrite src_ld by (done || apply length_le_bytes). cbn [rbind]. by rewrite Ra.
  - unfold IPPacket.dstv4. rewrite dst_ld by (done || apply length_le_bytes). cbn [rbind]. by rewrite Ra.
  - rewrite !header_take by (done || apply length_le_bytes).
    apply header_keeps; try done; [lia|]. eapply ihl_sum_pos; [exact Hb|lia|exact Hi|lia].
  - intros proto off pseudo Hpr Hck. rewrite !header_drop in * by (done || apply length_le_bytes).
    rewrite !address_sum4_eq by (done || apply length_le_bytes). pose proof (ch_sum _ _ _ _ (Hch _ _ Hpr Hck)) as Hsum.
    apply (mod_shift _ _ _ (pseudo + wsum (addr4_bytes ns) + wsum (addr4_bytes nd))) in Hsum. unfold addr_delta in Hsum.
    etransitivity; [etransitivity; [|exact Hsum]|]; f_equal; lia.
Qed.

(** A UDP datagram with both checksums set. *)
Definition udp_example : list Z :=
  [69; 0; 0; 30; 0; 0; 64; 0; 64; 17; 38; 205; 10; 0; 0; 1; 10; 0; 0; 2;
   0; 53; 0; 54; 0; 10; 131; 3; 104; 105].

Lemma update_ipv4_checksums_witness :
  let ns := NUInt (U32 16820416) in let nd := NUInt (U32 33597632) in
  exists buf', IPPacket.UpdateIPv4Address ns nd udp_example = Ok buf' /\ IPPacket.srcv4 buf' = Ok ns /\
    ipchksum (take 20 buf') 0 = 0 /\ (27904 + address_sum4 buf' + wsum (drop 20 buf')) mod 65535
       = (27904 + address_sum4 udp_example + wsum (drop 20 udp_example)) mod 65535.
Proof.
  intros ns nd. destruct (update_ipv4_checksums udp_example 5 ns nd) as (buf' & E & _ & Hs & _ & Hh & Ht).
  - apply (bool_decide_unpack _). vm_compute. exact I.
  - reflexivity.
  - discriminate.
  - apply Nat.leb_le. reflexivity.
  - split; [discriminate|reflexivity].
  - split; [discriminate|reflexivity].
  - exists buf'. split; [exact E|]. split; [exact Hs|]. split; [apply Hh; vm_compute; reflexivity|].
    apply (Ht 17 6%nat); [reflexivity|]. split; [reflexivity|]. split; [vm_compute; reflexivity|].
    split; [apply Nat.leb_le; vm_compute; reflexivity|]. vm_compute. discriminate.
Defined.

(** * IPv6 *)
Lemma skip_extensions_frame fuel np pld psz frag pre pre' pay :
  length pre = length pre' -> (length pre <= pld)%nat ->
  IPPacket.skip_extensions fuel np pld psz frag (pre ++ pay) = IPPacket.skip_extensions fuel np pld psz frag (pre' ++ pay).
Proof.
  intros Hl. revert np pld psz frag. induction fuel as [|fuel IH]; intros np pld psz frag Hp; [done|].
  assert (forall j, (length pre <= j)%nat -> byte_at j (pre ++ pay) = byte_at j (pre' ++ pay)) as Hj.
  { intros j Hj. unfold byte_at. by rewrite !lookup_app_r, Hl by lia. }
  cbn [IPPacket.skip_extensions]. rewrite !Hj by lia.
  destruct (_ || _); [|destruct (np =? 44); [|done]].
  - destruct (byte_at pld _); cbn [rbind]; [|done..]. destruct (byte_at (pld + 1) _); cbn [rbind]; [|done..].
    case_match; [done|]. apply IH. lia.
  - destruct (byte_at pld _); cbn [rbind]; [|done..]. destruct (byte_at (pld + 2) _); cbn [rbind]; [|done..].
    destruct (byte_at (pld + 3) _); cbn [rbind]; [|done..]. case_match; [done|]. case_match; [done|]. apply IH. lia.
Qed.

Lemma land_252_even b2 b3 : Nat.Even (Z.to_nat (Z.lor (Z.shiftl b2 8) (Z.land b3 252))).
Proof.
  assert (Z.even (Z.lor (Z.shiftl b2 8) (Z.land b3 252)) = true) as He.
  { rewrite <- Z.negb_odd, <- Z.bit0_odd, Z.lor_spec, Z.shiftl_spec_low, Z.land_spec by lia. by rewrite andb_comm. }
  apply Z.even_spec in He as [k ->]. exists (Z.to_nat k). lia.
Qed.

(** Where the walk over the extension headers ends. *)
Lemma skip_extensions_ends fuel np pld psz frag buf np' pld' psz' frag' :
  IPPacket.skip_extensions fuel np pld psz frag buf = Ok (Some (np', pld', psz', frag')) ->
  length buf = (pld + psz)%nat -> Nat.Even pld -> Nat.Even frag ->
  (pld <= pld')%nat /\ length buf = (pld' + psz')%nat /\ Nat.Even pld' /\ Nat.Even frag'.
Proof.
  revert np pld psz frag. induction fuel as [|fuel IH]; intros np pld psz frag; [done|]. cbn [IPPacket.skip_extensions].
  intros E Hl Hp Hf. destruct (_ || _); [|destruct (np =? 44)].
  - destruct (byte_at pld _); cbn [rbind] in E; [|done..]. destruct (byte_at (pld + 1) _) as [l| | |]; cbn [rbind] in E; [|done..].
    case_match eqn:El; [done|]. apply Nat.ltb_ge in El. apply IH in E; [split_and!; [lia|tauto..]|lia| |done].
    destruct Hp as [x ->]. exists (x + (Z.to_nat l + 1) * 4)%nat. lia.
  - destruct (byte_at pld _); cbn [rbind] in E; [|done..]. destruct (byte_at (pld + 2) _) as [b2| | |]; cbn [rbind] in E; [|done..].
    destruct (byte_at (pld + 3) _) as [b3| | |]; cbn [rbind] in E; [|done..]. case_match eqn:El; [done|]. apply Nat.ltb_ge in El.
    assert (Nat.Even (pld + 8)) by (destruct Hp as [x ->]; exists (x + 4)%nat; lia). pose proof (land_252_even b2 b3).
    case_match; [injection E as <- <- <- <-; split_and!; (done || lia)|].
    apply IH in E; [split_and!; [lia|tauto..]|lia|done|done].
  - injection E as <- <- <- <-. split_and!; (done || lia).
Qed.

Lemma skip_extensions_terminates fuel np pld psz frag buf :
  (psz < fuel)%nat -> IPPacket.skip_extensions fuel np pld psz frag buf <> NoFuel.
Proof.
  revert np pld psz frag. induction fuel as [|fuel IH]; intros np pld psz frag Hf; [lia|]. cbn [IPPacket.skip_extensions].
  assert (forall j, byte_at j buf <> NoFuel) as Hb by (intros j; unfold byte_at; by destruct (buf !! j)).
  destruct (_ || _); [|destruct (np =? 44); [|done]].
  - apply rbind_fuel; [done|]. intros n _. apply rbind_fuel; [done|]. intros l _. case_match eqn:El; [done|].
    apply Nat.ltb_ge in El. apply IH. lia.
  - apply rbind_fuel; [done|]. intros n _. apply rbind_fuel; [done|]. intros b2 _. apply rbind_fuel; [done|]. intros b3 _.
    case_match eqn:El; [done|]. apply Nat.ltb_ge in El. case_match; [done|]. apply IH. lia.
Qed.

Definition words4 (s : list Z) : list Z :=
  [le_decode (take 4 s); le_decode (take 4 (drop 4 s)); le_decode (take 4 (drop 8 s)); le_decode (take 4 (drop 12 s))].

Lemma words_parts s :
  bytes s -> length s = 16%nat ->
  exists a b c d, s = a ++ b ++ c ++ d /\ words4 s = [le_decode a; le_decode b; le_decode c; le_decode d] /\
    Forall (fun w => bytes w /\ length w = 4%nat) [a; b; c; d].
Proof.
  intros Hb Hl. exists (take 4 s), (take 4 (drop 4 s)), (take 4 (drop 8 s)), (take 4 (drop 12 s)). split_and!; [|done|].
  - clear Hb. do 16 (destruct s as [|? s]; [done|]). by destruct s.
  - unfold bytes in *. repeat constructor; rewrite ?length_take, ?length_drop; try lia; auto using Forall_take, Forall_drop.
Qed.

Lemma in6_words_app a s c off :
  off = length a -> length s = 16%nat -> IPPacket.in6_words off (a ++ s ++ c) = Ok (words4 s).
Proof.
  intros -> Hl. unfold IPPacket.in6_words.
  assert (forall k, (k + 4 <= 16)%nat -> ld 4 (length a + k) (a ++ s ++ c) = Ok (le_decode (take 4 (drop k s)))) as H.
  { intros k Hk. rewrite <- (take_drop k s) at 1. rewrite <- (take_drop 4 (drop k s)) at 1. rewrite <- !app_assoc, app_assoc.
    apply ld_app; rewrite ?length_app, ?length_take, ?length_drop; lia. }
  rewrite <- (Nat.add_0_r (length a)) at 1. rewrite !H by lia. done.
Qed.

Lemma CS128_sums s :
  bytes s -> length s = 16%nat ->
  CS128 ADD32CS (words4 s) = wsum s /\ CS128 SUB32CS (words4 s) = 4 * 131070 - wsum s /\ 0 <= wsum s <= 4 * 131070.
Proof.
  intros Hb Hl. destruct (words_parts s Hb Hl) as (a & b & c & d & -> & -> & Hw).
  assert (forall w, bytes w /\ length w = 4%nat -> ADD32CS (le_decode w) = wsum w /\
    SUB32CS (le_decode w) = 131070 - wsum w /\ 0 <= wsum w <= 131070) as Hs.
  { intros w [Bw Lw]. pose proof (le_decode_bound w Bw) as Hd. rewrite Lw in Hd. change (256 ^ Z.of_nat 4) with (2 ^ 32) in Hd.
    destruct (ADD32CS_eq (le_decode w) Hd) as [E ?]. pose proof (SUB32CS_eq (le_decode w) Hd).
    replace (le_bytes 4 (le_decode w)) with w in E by (rewrite <- Lw at 1; symmetry; by apply le_bytes_decode). lia. }
  repeat (apply Forall_cons in Hw as [Hx Hw]; let L := fresh in pose proof Hx as [_ L]; apply Hs in Hx as (? & ? & ?)).
  assert (Nat.Even 4) by by exists 2%nat.
  rewrite !wsum_app by congruence. unfold CS128. cbn [foldl].
  repeat match goal with E : ADD32CS _ = _ |- _ => rewrite E; clear E | E : SUB32CS _ = _ |- _ => rewrite E; clear E end.
  assert (forall x y, in_width 32 (x + y) -> u32 (x + y) = x + y) as Hu by (intros; by apply wrap_id).
  split_and!; [rewrite (Hu 0), (Hu (0 + _)), (Hu (0 + _ + _)), (Hu (0 + _ + _ + _)) by (unfold in_width; lia); lia..|lia|lia].
Qed.

Lemma deltaIPv6_adds s d ns nd :
  Forall (fun a => bytes a /\ length a = 16%nat) [s; d; ns; nd] ->
  adds (fun c => deltaIPv6Checksum c (words4 s) (words4 d) (words4 ns) (words4 nd)) (wsum s + wsum d - wsum ns - wsum nd).
Proof.
  intros Hw c Hc. repeat (apply Forall_cons in Hw as [Hx Hw]; destruct Hx as [? Hx]; apply CS128_sums in Hx as (? & ? & ?); [|done]).
  unfold deltaIPv6Checksum. repeat match goal with E : CS128 _ _ = _ |- _ => rewrite E; clear E end. unfold in_width in Hc.
  rewrite (wrap_id 32 (c + _)), (wrap_id 32 (c + _ + _)), (wrap_id 32 (c + _ + _ + _)), (wrap_id 32 (c + _ + _ + _ + _))
    by (unfold in_width; lia).
  rewrite fold_carries_spec by (unfold in_width; lia).
  match goal with |- in_width 16 (ones_norm ?s) /\ _ => pose proof (ones_norm_bound s) end.
  split_and!; [unfold in_width; lia|intros; apply ones_norm_pos; lia|].
  rewrite ones_norm_mod. rewrite <- (Z.mod_add _ (-16) 65535) by lia. f_equal. lia.
Qed.

Lemma set_FlowLabel_run label f r :
  bytes f -> length f = 4%nat ->
  exists f', HeaderV6.set_FlowLabel label (f ++ r) = Ok (f' ++ r) /\ bytes f' /\ length f' = 4%nat /\ f' !! 0%nat = f !! 0%nat.
Proof.
  intros Hb Hl. unfold HeaderV6.set_FlowLabel. change (f ++ r) with ([] ++ f ++ r). rewrite (ld_app [] f) by done.
  cbn [rbind]. rewrite (st_app [] f) by done. eexists. split; [done|]. split_and!; [apply le_bytes_bytes|apply length_le_bytes|].
  destruct f as [|b0 f]; [done|]. apply Forall_cons in Hb as [Hb0 Hb]. set (w := le_decode (b0 :: f)).
  change (htonl HeaderV6.ipv6_flowlabel_mask) with 4294905600.
  change (htonl (u32 (Z.lnot HeaderV6.ipv6_flowlabel_mask))) with 61695. unfold le_bytes. cbn [be_encode rev app lookup list_lookup].
  change (256 ^ Z.of_nat 0) with 1. rewrite Z.div_1_r. f_equal. change 256 with (2 ^ 8). rewrite <- !Z.land_ones by lia.
  rewrite Z.land_lor_distr_l, <- (Z.land_assoc w). change (Z.land 61695 (Z.ones 8)) with (Z.ones 8).
  rewrite (Z.land_comm 4294905600), <- Z.land_assoc. change (Z.land 4294905600 (Z.ones 8)) with 0.
  rewrite Z.land_0_r, Z.lor_0_l, Z.land_ones by lia. unfold w. cbn [le_decode]. unfold is_byte in Hb0.
  rewrite Z.mul_comm, Z.mod_add, Z.mod_small by lia. done.
Qed.

Lemma v6_bytes_ok a : bytes (IPPacket.v6_bytes a) /\ length (IPPacket.v6_bytes a) = 16%nat.
Proof.
  unfold IPPacket.v6_bytes. rewrite bytes_app, length_app, !length_le_bytes. auto using le_bytes_bytes.
Qed.

Lemma load_v6_bytes a h r off : n_wf a -> off = length h -> IPPacket.load_v6 off (h ++ IPPacket.v6_bytes a ++ r) = Ok a.
Proof.
  intros [Hu Hl] Ho. destruct a as [[u l]]. destruct (v6_bytes_ok (NUInt (U128 u l))) as [_ L]. unfold IPPacket.load_v6.
  rewrite peek_app by (by rewrite ?L). cbn [rbind]. unfold IPPacket.v6_bytes. cbn [nval upper lower] in *.
  rewrite drop_app_length', take_app_length' by (by rewrite length_le_bytes). by rewrite !le_decode_bytes.
Qed.

(** The part of the pseudo header that holds the addresses. *)
Definition address_sum6 (buf : list Z) : Z := wsum (take 32 (drop 8 buf)).

Lemma address_sum6_eq h s d r :
  length h = 8%nat -> length s = 16%nat -> length d = 16%nat -> address_sum6 (h ++ s ++ d ++ r) = wsum s + wsum d.
Proof.
  intros Hh Hs Hd. unfold address_sum6. rewrite drop_app_length' by done. rewrite (app_assoc s).
  rewrite take_app_length' by (rewrite length_app; lia). apply wsum_app. rewrite Hs. by exists 8%nat.
Qed.

Lemma v6_parts buf :
  bytes buf -> (40 <= length buf)%nat ->
  exists f h s d pay, buf = (f ++ h) ++ s ++ d ++ pay /\ Forall bytes [f; h; s; d; pay] /\
    length f = 4%nat /\ length h = 4%nat /\ length s = 16%nat /\ length d = 16%nat.
Proof.
  intros Hb Hl. destruct (split_at buf 4 4) as (f & h & r & -> & ? & ?); [lia|]. rewrite !length_app in Hl.
  destruct (split_at r 16 16) as (s & d & pay & -> & ? & ?); [lia|]. rewrite !bytes_app in Hb.
  exists f, h, s, d, pay. rewrite <- app_assoc. split_and!; try done. repeat constructor; tauto.
Qed.

(** Up to the walk over the extension headers. *)
Lemma UpdateIPv6_start src dst label f h s d pay :
  bytes f -> bytes h -> length f = 4%nat -> length h = 4%nat -> length s = 16%nat -> length d = 16%nat -> pay <> [] ->
  exists f', bytes f' /\ length f' = 4%nat /\ f' !! 0%nat = f !! 0%nat /\
    let buf := (f ++ h) ++ s ++ d ++ pay in
    let buf' := (f' ++ h) ++ IPPacket.v6_bytes src ++ IPPacket.v6_bytes dst ++ pay in
    IPPacket.UpdateIPv6Address src dst label buf =
    (let* np := byte_at HeaderV6.protocol buf in
     let* e := IPPacket.skip_extensions (S (length buf)) np 40 (length buf - 40) 0 buf' in
     match e with
     | None => Ok buf'
     | Some (np, pld, psz, frag) =>
         let delta c := deltaIPv6Checksum c (words4 s) (words4 d) (words4 (IPPacket.v6_bytes src)) (words4 (IPPacket.v6_bytes dst)) in
         IPPacket.transport_update (fun off => deltaChecksumTCP delta pld psz frag off) (deltaChecksumUDP delta pld psz frag) np buf'
     end).
Proof.
  intros Bf Bh Lf Lh Ls Ld Hp.
  assert (exists f', match label with Some l => HeaderV6.set_FlowLabel l ((f ++ h) ++ s ++ d ++ pay) | None => Ok ((f ++ h) ++ s ++ d ++ pay) end
    = Ok ((f' ++ h) ++ s ++ d ++ pay) /\ bytes f' /\ length f' = 4%nat /\ f' !! 0%nat = f !! 0%nat) as (f' & E & ? & Lf' & ?).
  { destruct label as [l|]; [|by exists f]. destruct (set_FlowLabel_run l f (h ++ s ++ d ++ pay)) as (f' & E & ? & ? & ?); [done..|].
    exists f'. rewrite <- !app_assoc. by rewrite E. }
  exists f'. split_and!; [done..|]. intros buf buf'. unfold IPPacket.UpdateIPv6Address. fold buf in E.
  destruct (v6_bytes_ok src) as [_ Lsrc], (v6_bytes_ok dst) as [_ Ldst].
  assert (0 < length pay)%nat by (destruct pay; [done|cbn; lia]).
  rewrite (proj2 (Nat.leb_gt _ _)) by (unfold buf; rewrite !length_app; lia). rewrite E. cbn [rbind].
  assert (8%nat = length (f' ++ h)) as L8 by (rewrite length_app; lia).
  rewrite (in6_words_app (f' ++ h) s) by done. cbn [rbind].
  rewrite (app_assoc (f' ++ h) s), (in6_words_app ((f' ++ h) ++ s) d); [|rewrite !length_app; unfold HeaderV6.dstaddr; lia|done].
  cbn [rbind]. rewrite <- (app_assoc (f' ++ h) s), (poke_app (f' ++ h) s) by (done || by rewrite Lsrc, Ls). cbn [rbind].
  rewrite (app_assoc (f' ++ h) (IPPacket.v6_bytes src)), (poke_app ((f' ++ h) ++ _) d);
    [|rewrite !length_app; unfold HeaderV6.dstaddr; lia|by rewrite Ldst, Ld].
  cbn [rbind]. rewrite <- (app_assoc (f' ++ h) (IPPacket.v6_bytes src)), (in6_words_app (f' ++ h) (IPPacket.v6_bytes src)) by done.
  cbn [rbind]. rewrite (app_assoc (f' ++ h) (IPPacket.v6_bytes src)), (in6_words_app ((f' ++ h) ++ _) (IPPacket.v6_bytes dst));
    [|rewrite !length_app; unfold HeaderV6.dstaddr; lia|done].
  cbn [rbind]. rewrite <- (app_assoc (f' ++ h) (IPPacket.v6_bytes src)). fold buf'.
  assert (byte_at HeaderV6.protocol buf' = byte_at HeaderV6.protocol buf) as ->; [|done].
  unfold byte_at, buf, buf', HeaderV6.protocol. rewrite <- !app_assoc, !(lookup_app_r _ (h ++ _)) by lia. rewrite Lf, Lf'. by rewrite !lookup_app_l by lia.
Qed.


(** A UDP datagram behind a header with destination options. *)
Definition udp6_example : list Z :=
  [96; 0; 0; 0; 0; 18; 60; 64; 253; 0; 0; 0; 0; 0; 0; 0; 0; 0; 0; 0; 0; 0; 0; 1;
   253; 0; 0; 0; 0; 0; 0; 0; 0; 0; 0; 0; 0; 0; 0; 2; 17; 0; 1; 4; 0; 0; 0; 0;
   0; 53; 0; 54; 0; 10; 157; 1; 104; 105].


(** * Packets that are built *)

Lemma poke_run off src l :
  (off + length src <= length l)%nat -> poke off src l = Ok (take off l ++ src ++ drop (off + length src) l).
Proof. intros H. unfold poke. by rewrite (proj2 (Nat.leb_le _ _)). Qed.

Lemma le_bytes_2 v : le_bytes 2 v = [v mod 256; (v / 256) mod 256].
Proof. unfold le_bytes. cbn [be_encode rev app]. by rewrite Z.div_1_r. Qed.

(** Filling in the checksum makes the sum verify. *)
Lemma checksum_fill a b :
  bytes a -> bytes b -> Nat.Even (length a) -> Z.of_nat (length a + length b) <= 65535 ->
  ipchksum (a ++ le_bytes 2 (ipchksum (a ++ [0; 0] ++ b) 0) ++ b) 0 = 0.
Proof.
  intros Ha Hb He Hl. assert (bytes [0; 0]) as H0 by (repeat constructor; lia).
  assert (Nat.Even 2) by by exists 1%nat.
  assert (wsum (a ++ [0; 0] ++ b) = wsum a + wsum b) as E0 by (rewrite !wsum_app by done; cbn [wsum]; lia).
  pose proof (wsum_nonneg a Ha). pose proof (wsum_nonneg b Hb). pose proof (wsum_bound a Ha). pose proof (wsum_bound b Hb).
  assert (ipchksum (a ++ [0; 0] ++ b) 0 = 65535 - ones_norm (wsum a + wsum b)) as ->.
  { rewrite ipchksum_spec, E0; [done|by rewrite !bytes_app|lia|rewrite E0; lia]. }
  pose proof (ones_norm_bound (wsum a + wsum b)) as Hn. pose proof (ones_norm_mod (wsum a + wsum b)) as Hm.
  set (n := ones_norm _) in *.
  assert (wsum (a ++ le_bytes 2 (65535 - n) ++ b) = wsum a + wsum b + (65535 - n)) as E.
  { rewrite !wsum_app by (done || by rewrite length_le_bytes). rewrite wsum_word by (unfold in_width; lia). lia. }
  assert (0 < wsum a + wsum b + (65535 - n)).
  { unfold n, ones_norm in *. destruct (Z.eqb_spec (wsum a + wsum b) 0); lia. }
  apply ipchksum_zero; [rewrite !bytes_app; auto using le_bytes_bytes|lia|rewrite E; lia|]. rewrite Z.add_0_l, E.
  replace (wsum a + wsum b + (65535 - n)) with (wsum a + wsum b - n + 1 * 65535) by lia. rewrite Z.mod_add by lia.
  by rewrite Zminus_mod, Hm, Z.sub_diag.
Qed.

Lemma bswap2_be v : 0 <= v < 65536 -> le_bytes 2 (bswap 2 v) = be_encode 2 v.
Proof. intros. unfold le_bytes. rewrite bswap_encode. apply rev_involutive. Qed.

(** Runs the stores into a packet whose first bytes are known one by one. *)
Ltac run_pokes :=
  repeat (first
    [ rewrite ?drop_0; rewrite poke_run by (cbn [length app]; rewrite ?length_app, ?length_replicate, ?length_le_bytes, ?length_be_encode; cbn [length]; lia)
    | progress unfold Header.set_version, Header.set_ihl, byte_at ];
    cbn [take drop app length Nat.add rbind lookup list_lookup le_bytes be_encode rev]).

Section build.
Context {OS : OxencSwap} {OSS : OxencSwapSpec OS} {OX : Oxenc} {OXS : OxencSpec OX}.

(** The packet [make_ip4_udp] writes, before the checksum. *)
Definition udp_head (len : Z) : list Z := [69; 0] ++ be_encode 2 len ++ [0; 0; 64; 0; 64; 17].
Definition udp_tail (s d : ipv4addr_t) (sp dp : nuint_t uint16_t) (data : list Z) : list Z :=
  addr4_bytes s ++ addr4_bytes d ++
  (le_bytes 2 (v16 (nval sp)) ++ le_bytes 2 (v16 (nval dp)) ++ be_encode 2 (Z.of_nat (length data + 8)) ++ [0; 0] ++ data).

Lemma make_ip4_udp_run s sp d dp data :
  Z.of_nat (length data + 28) <= 65535 ->
  let len := Z.of_nat (28 + length data) in
  IPPacket.make_ip4_udp s sp d dp data
  = Ok (udp_head len ++ le_bytes 2 (ipchksum (udp_head len ++ [0; 0] ++ addr4_bytes s ++ addr4_bytes d) 0) ++ udp_tail s d sp dp data).
Proof using OXS.
  intros Hl len. unfold IPPacket.make_ip4_udp. unfold IPPacket.of_size.
  replace (length data + _)%nat with (28 + length data)%nat by (unfold IPPacket.udp_header_bytes, IPPacket.ip_header_min_bytes; lia).
  cbn [Nat.eqb negb Nat.ltb Nat.leb andb IPPacket.MinSize Nat.add]. cbn [rbind replicate].
  unfold Header.tot_len, Header.protocol, Header.ttl, Header.frag_off, Header.saddr, Header.daddr, Header.check,
    IPPacket.ip_header_min_bytes, IPPacket.udp_header_bytes. cbn [Nat.add].
  rewrite !wrap_id by (unfold in_width; lia). rewrite !write_host_as_big_spec by (change (256 ^ Z.of_nat 2) with 65536; lia).
  unfold htons. rewrite !bswap2_be by lia. run_pokes. cbn [IPPacket.pokes].
  run_pokes. rewrite drop_ge, app_nil_r by (by rewrite length_replicate).
  unfold peek, st. rewrite (proj2 (Nat.leb_le _ _)) by (cbn [length]; lia). cbn [rbind drop take].
  run_pokes. reflexivity.
Qed.

Lemma bounds_check_ok off n buf : (off + n <= length buf)%nat -> IPPacket.bounds_check off n buf = Ok tt.
Proof using Type.
  intros. unfold IPPacket.bounds_check. by rewrite (proj2 (Nat.ltb_ge _ _)), (proj2 (Nat.ltb_ge _ _)) by lia.
Qed.

Lemma port_at_run skip pre w post buf i proto :
  buf = pre ++ w ++ post -> byte_at Header.protocol buf = Ok proto -> proto = 6 \/ proto = 17 -> Header.ihl buf = Ok i ->
  length pre = (Z.to_nat i * 4 + skip)%nat -> length w = 2%nat -> IPPacket.port_at skip buf = Ok (Some (NUInt (U16 (le_decode w)))).
Proof using Type.
  intros -> Hp Hproto Hi Hl Hw. unfold IPPacket.port_at. rewrite Hp. cbn [rbind].
  assert ((proto =? IPPacket.proto_TCP) || (proto =? IPPacket.proto_UDP) = true) as -> by (unfold IPPacket.proto_TCP, IPPacket.proto_UDP; lia).
  rewrite Hi. cbn [rbind]. rewrite bounds_check_ok by (rewrite !length_app; lia). cbn [rbind]. by rewrite ld_app.
Qed.

(** A datagram built by [make_udp] has the addresses, ports and data it was built from, when
    read back through the accessors; its length field is its length and its header verifies. *)
Theorem make_udp_roundtrip (s d : ipv4addr_t) (sp dp : nuint_t uint16_t) (data : list Z) :
  addr4_ok s -> addr4_ok d -> in_width 16 (v16 (nval sp)) -> in_width 16 (v16 (nval dp)) ->
  Z.of_nat (length data + 28) <= 65535 ->
  exists pkt, IPPacket.make_udp (V4 s) sp (V4 d) dp data = Ok pkt /\
    IPPacket.srcaddr pkt = Ok (V4 s) /\ IPPacket.dstaddr pkt = Ok (V4 d) /\
    IPPacket.SrcPort pkt = Ok (Some sp) /\ IPPacket.DstPort pkt = Ok (Some dp) /\
    IPPacket.L4Data pkt = Ok (Some data) /\
    be_decode (take 2 (drop Header.tot_len pkt)) = Z.of_nat (length pkt) /\ ipchksum (take 20 pkt) 0 = 0.
Proof using OXS.
  intros Hs Hd Hsp Hdp Hl. set (len := Z.of_nat (28 + length data)).
  set (chk := le_bytes 2 (ipchksum (udp_head len ++ [0; 0] ++ addr4_bytes s ++ addr4_bytes d) 0)).
  set (rest := le_bytes 2 (v16 (nval sp)) ++ le_bytes 2 (v16 (nval dp)) ++ be_encode 2 (Z.of_nat (length data + 8)) ++ [0; 0] ++ data).
  exists (udp_head len ++ chk ++ addr4_bytes s ++ addr4_bytes d ++ rest). split; [by apply make_ip4_udp_run|].
  assert (length (udp_head len) = 10%nat) as Lh by (unfold udp_head; rewrite !length_app, length_be_encode; done).
  assert (length chk = 2%nat) as Lc by apply length_le_bytes.
  assert (forall a, length (addr4_bytes a) = 4%nat) as La by (intros; apply length_le_bytes).
  assert (forall a, addr4_ok a -> NUInt (U32 (le_decode (addr4_bytes a))) = a) as Ra.
  { intros [[x]] Ha. unfold addr4_bytes. cbn [nval v32]. by rewrite le_decode_bytes. }
  assert (forall p : nuint_t uint16_t, in_width 16 (v16 (nval p)) -> NUInt (U16 (le_decode (le_bytes 2 (v16 (nval p))))) = p) as Rp.
  { intros [[x]] Hx. cbn [nval v16] in *. by rewrite le_decode_bytes. }
  set (pkt := udp_head len ++ _). assert (IPPacket.IsV4 pkt = Ok true) as H4 by done.
  assert (byte_at Header.protocol pkt = Ok 17) as H9.
  { unfold pkt, byte_at, udp_head, Header.protocol. rewrite lookup_app_l, !lookup_app_r by (rewrite ?length_app, ?length_be_encode; cbn; lia).
    by rewrite length_be_encode. }
  assert (Header.ihl pkt = Ok 5) as H5 by done.
  assert (length (udp_head len ++ chk ++ addr4_bytes s ++ addr4_bytes d) = 20%nat) as L20 by (rewrite !length_app, !La; lia).
  assert (pkt = (udp_head len ++ chk ++ addr4_bytes s ++ addr4_bytes d) ++ rest) as Epkt by (unfold pkt; by rewrite <- !app_assoc).
  split_and!.
  - unfold IPPacket.srcaddr, IPPacket.srcv4. rewrite H4. cbn [rbind]. unfold pkt. rewrite src_ld by done. cbn [rbind]. by rewrite Ra.
  - unfold IPPacket.dstaddr, IPPacket.dstv4. rewrite H4. cbn [rbind]. unfold pkt. rewrite dst_ld by done. cbn [rbind]. by rewrite Ra.
  - rewrite <- (Rp sp) by done. eapply port_at_run; [exact Epkt|exact H9|by right|exact H5|done|done].
  - rewrite <- (Rp dp) by done. eapply port_at_run; [|exact H9|by right|exact H5| |].
    + rewrite Epkt. unfold rest. by rewrite app_assoc.
    + rewrite length_app, L20. done.
    + done.
  - unfold IPPacket.L4Data. rewrite H9, H5. cbn [rbind Z.eqb Pos.eqb]. rewrite Epkt. unfold rest.
    rewrite (proj2 (Nat.ltb_ge _ _)) by (rewrite length_app, L20, !length_app, !length_le_bytes, length_be_encode; cbn; lia).
    do 2 f_equal.
  - rewrite Epkt at 2. rewrite length_app, L20. unfold rest. rewrite !length_app, !length_le_bytes, length_be_encode.
    unfold pkt, udp_head, Header.tot_len. rewrite <- !app_assoc. cbn [app drop]. rewrite drop_0, take_app_length' by by rewrite length_be_encode.
    rewrite be_decode_encode by (change (256 ^ Z.of_nat 2) with 65536; lia). cbn [length]. lia.
  - rewrite Epkt, take_app_length' by done. unfold chk.
    apply checksum_fill; [|unfold bytes; apply Forall_app; split; apply le_bytes_bytes|rewrite Lh; by exists 5%nat|rewrite length_app, !La, Lh; lia].
    unfold udp_head. rewrite !bytes_app. split_and!; [|apply be_encode_bytes|]; repeat constructor; lia.
Qed.
End build.

Lemma make_udp_roundtrip_witness :
  let os := oxenc_swap_ref in let ox := oxenc_ref in
  let s := NUInt (U32 16777226) in let d := NUInt (U32 33554442) in
  exists pkt, IPPacket.make_udp (V4 s) (NUInt (U16 13568)) (V4 d) (NUInt (U16 13824)) [104; 105] = Ok pkt /\
    IPPacket.srcaddr pkt = Ok (V4 s) /\ IPPacket.L4Data pkt = Ok (Some [104; 105]) /\ ipchksum (take 20 pkt) 0 = 0.
Proof.
  intros os ox s d.
  destruct (make_udp_roundtrip s d (NUInt (U16 13568)) (NUInt (U16 13824)) [104; 105]) as (pkt & E & H1 & _ & _ & _ & H2 & _ & H3).
  - split; [discriminate|reflexivity].
  - split; [discriminate|reflexivity].
  - split; [discriminate|reflexivity].
  - split; [discriminate|reflexivity].
  - discriminate.
  - exists pkt. split; [exact E|]. split; [exact H1|]. split; [exact H2|exact H3].
Defined.

(** ** Replies to echo requests *)
Lemma payload_offset_v4 buf i :
  Header.version buf = Ok 4 -> Header.ihl buf = Ok i -> (Z.to_nat i * 4 < length buf)%nat ->
  IPPacket.payload_offset buf = Ok (Z.to_nat i * 4)%nat.
Proof.
  intros Hv Hi Hl. unfold IPPacket.payload_offset, IPPacket.IsV4, IPPacket.Version. rewrite Hv. cbn [rbind Z.eqb Pos.eqb].
  rewrite Hi. cbn [rbind]. by rewrite bounds_check_ok by lia.
Qed.

Lemma payload_offset_v6 buf :
  Header.version buf = Ok 6 -> (40 < length buf)%nat -> IPPacket.payload_offset buf = Ok 40%nat.
Proof.
  intros Hv Hl. unfold IPPacket.payload_offset, IPPacket.IsV4, IPPacket.IsV6, IPPacket.Version. rewrite Hv.
  cbn [rbind Z.eqb Pos.eqb]. by rewrite bounds_check_ok by lia.
Qed.

(** The stores into the ICMP header of a packet whose payload starts after [pre]. *)
Section icmp.
Context (pre : list Z) (t c c0 c1 : Z) (rest : list Z) (po : nat).
Let buf := pre ++ t :: c :: c0 :: c1 :: rest.
Context (Hpo : IPPacket.payload_offset buf = Ok po) (Hlen : length pre = po).

Lemma set_icmp_type_run v : IPPacket.set_icmp_type v buf = Ok (pre ++ v :: c :: c0 :: c1 :: rest).
Proof using Hpo Hlen.
  unfold IPPacket.set_icmp_type. rewrite Hpo. cbn [rbind]. by apply (poke_app pre [t] (c :: c0 :: c1 :: rest) [v]).
Qed.
Lemma set_icmp_code_run v : IPPacket.set_icmp_code v buf = Ok (pre ++ t :: v :: c0 :: c1 :: rest).
Proof using Hpo Hlen.
  unfold IPPacket.set_icmp_code. rewrite Hpo. cbn [rbind].
  rewrite bounds_check_ok by (unfold buf; rewrite length_app; cbn; lia). cbn [rbind]. unfold buf.
  rewrite <- (snoc_app pre t (c :: _)), <- (snoc_app pre t (v :: _)).
  apply (poke_app (pre ++ [t]) [c] (c0 :: c1 :: rest) [v]); [|done]. rewrite length_app. cbn. lia.
Qed.
Lemma icmp_checksum_run : IPPacket.icmp_checksum buf = Ok (po + 2)%nat.
Proof using Hpo Hlen.
  unfold IPPacket.icmp_checksum. rewrite Hpo. cbn [rbind]. by rewrite bounds_check_ok by (unfold buf; rewrite length_app; cbn; lia).
Qed.
Lemma icmp_checksum_st v : st 2 (po + 2) v buf = Ok (pre ++ [t; c] ++ le_bytes 2 v ++ rest).
Proof using Hlen.
  unfold buf. change (pre ++ t :: c :: c0 :: c1 :: rest) with (pre ++ [t; c] ++ [c0; c1] ++ rest). rewrite !(app_assoc pre).
  apply st_app; [rewrite length_app; cbn; lia|done].
Qed.
End icmp.

(** The header of a reply: the next identification, one hop less and no fragment. *)
Lemma reply_header_run h r :
  length h = 10%nat ->
  exists h', length h' = 10%nat /\ (bytes h -> bytes h') /\ take 1 h' = take 1 h /\ h' !! 9%nat = h !! 9%nat /\
    IPPacket.next_header (h ++ r) = Ok (h' ++ r).
Proof.
  intros Hl. do 10 (destruct h as [|? h]; [done|]). destruct h; [|done]. clear Hl.
  unfold IPPacket.next_header, Header.id, Header.ttl, Header.frag_off, ld, peek, st. cbn [app length Nat.leb Nat.add drop take rbind].
  rewrite poke_run by (rewrite length_le_bytes; cbn [length]; lia). rewrite length_le_bytes, le_bytes_2.
  cbn [rbind take app drop Nat.add]. unfold byte_at. cbn [lookup list_lookup rbind].
  rewrite poke_run by (cbn [length]; lia). cbn [rbind take app drop Nat.add length].
  rewrite poke_run by (rewrite length_le_bytes; cbn [length]; lia). rewrite length_le_bytes, le_bytes_2.
  cbn [rbind take app drop Nat.add length]. eexists (_ :: _ :: _ :: _ :: _ :: _ :: _ :: _ :: _ :: [_]).
  split_and!; [| | | |reflexivity]; [done| |done|done].
  unfold bytes. rewrite !Forall_cons. intros (? & ? & ? & ? & ? & ? & ? & ? & ? & ? & ?).
  split_and!; try done; [apply Z.mod_pos_bound; lia..|apply (wrap_bound 8); lia].
Qed.

Lemma of_size_run n : (20 <= n)%nat -> IPPacket.of_size n = Ok (replicate n 0).
Proof. intros Hl. unfold IPPacket.of_size, IPPacket.MinSize. by rewrite (proj2 (Nat.ltb_ge _ _)), andb_false_r by done. Qed.
Lemma poke_copy buf l : length l = length buf -> poke 0 buf l = Ok buf.
Proof. intros H. rewrite poke_run by lia. rewrite take_0. cbn [app]. by rewrite drop_ge, app_nil_r by lia. Qed.

Lemma version_app h r : (0 < length h)%nat -> Header.version (h ++ r) = Header.version h.
Proof. intros. unfold Header.version, byte_at. by rewrite lookup_app_l. Qed.

Lemma head_same h h' r r' :
  length h = 10%nat -> length h' = 10%nat -> take 1 h' = take 1 h ->
  Header.version (h' ++ r') = Header.version (h ++ r) /\ Header.ihl (h' ++ r') = Header.ihl (h ++ r).
Proof.
  intros H1 H2 E. rewrite !version_app, !ihl_app by lia. unfold Header.version, Header.ihl, byte_at.
  assert (h' !! 0%nat = h !! 0%nat) as ->; [|done].
  apply (f_equal (fun l => l !! 0%nat)) in E. by rewrite !lookup_take_lt in E by lia.
Qed.

Lemma addr4_decode l :
  bytes l -> length l = 4%nat -> addr4_ok (NUInt (U32 (le_decode l))) /\ addr4_bytes (NUInt (U32 (le_decode l))) = l.
Proof.
  intros Hl Ll. unfold addr4_ok, addr4_bytes. cbn [nval v32]. split.
  - pose proof (le_decode_bound l Hl). by rewrite Ll in *.
  - rewrite <- Ll at 1. by apply le_bytes_decode.
Qed.

Lemma reply_header_ok buf h chk s d opts body i :
  let reply := h ++ chk ++ s ++ d ++ opts ++ body in
  bytes reply -> length h = 10%nat -> length chk = 2%nat -> length s = 4%nat -> length d = 4%nat ->
  Header.ihl reply = Ok i -> 5 <= i -> length opts = (Z.to_nat i * 4 - 20)%nat -> byte_at Header.protocol reply = Ok 1 ->
  IPPacket.srcv4 buf = Ok (NUInt (U32 (le_decode s))) -> IPPacket.dstv4 buf = Ok (NUInt (U32 (le_decode d))) ->
  (Z.to_nat i * 4 <= length buf)%nat ->
  exists h' chk', IPPacket.reply_header buf reply = Ok (h' ++ chk' ++ d ++ s ++ opts ++ body) /\
    length h' = 10%nat /\ length chk' = 2%nat /\ take 1 h' = take 1 h /\ ipchksum (h' ++ chk' ++ d ++ s ++ opts) 0 = 0.
Proof.
  intros reply Hb Hh Hc Hs Hd Hi H5 Ho Hp Esrc Edst Hl. pose proof (ihl_bound _ _ Hb Hi).
  unfold reply in Hb. rewrite !bytes_app in Hb. destruct Hb as (Bh & Bc & Bs & Bd & Bo & Bb).
  destruct (addr4_decode s Bs Hs) as [Ws As], (addr4_decode d Bd Hd) as [Wd Ad].
  destruct (reply_header_run h (chk ++ s ++ d ++ opts ++ body)) as (h' & Hh' & Bh' & E1 & E9 & Enext); [done|].
  unfold IPPacket.reply_header, reply. rewrite Enext, Edst, Esrc. cbn [rbind].
  assert (forall q, Header.ihl (h' ++ q) = Ok i) as Hi'.
  { intros q. rewrite <- Hi. by apply head_same. }
  destruct (UpdateIPv4_run h' chk s d opts body i (NUInt (U32 (le_decode d))) (NUInt (U32 (le_decode s)))) as (v & pay' & E & Wv & _ & _ & _ & _ & Hno);
    [rewrite !bytes_app; auto 10|done..|].
  rewrite (Hno 1) in E; [|unfold byte_at, Header.protocol; rewrite lookup_app_l, E9 by lia|done].
  2:{ unfold byte_at, Header.protocol, reply in Hp. by rewrite lookup_app_l in Hp by lia. }
  rewrite E. cbn [rbind]. rewrite As, Ad. rewrite chk_st by (done || apply length_le_bytes). cbn [rbind].
  change (le_bytes 2 0) with [0; 0]. rewrite Hi'. cbn [rbind]. rewrite Nat.min_l by done.
  set (hdr := h' ++ [0; 0] ++ d ++ s ++ opts).
  assert (length hdr = Z.to_nat i * 4)%nat as Lhdr by (unfold hdr; rewrite !length_app; cbn [length]; lia).
  assert (h' ++ [0; 0] ++ d ++ s ++ opts ++ body = hdr ++ body) as Eq1 by (unfold hdr; by rewrite <- !app_assoc).
  rewrite Eq1, <- (app_nil_l (hdr ++ body)), peek_app by done. cbn [rbind app]. rewrite <- Eq1, chk_st by done.
  eexists h', _. split; [done|]. split_and!; [done|apply length_le_bytes|done|].
  apply (checksum_fill h' (d ++ s ++ opts)); [auto|rewrite !bytes_app; auto|rewrite Hh'; by exists 5%nat|rewrite !length_app; lia].
Qed.

(** The checksum of an ICMP message is filled in. *)
Lemma icmp_fill t c rest :
  bytes (t :: c :: rest) -> Z.of_nat (length rest) <= 65531 ->
  ipchksum ([t; c] ++ le_bytes 2 (ipchksum (t :: c :: 0 :: 0 :: rest) 0) ++ rest) 0 = 0.
Proof.
  intros Hb Hl. apply Forall_cons in Hb as [? Hb]. apply Forall_cons in Hb as [? Hb].
  apply (checksum_fill [t; c] rest); [by do 2 (apply Forall_cons; split; [done|])|done|by exists 1%nat|cbn [length]; lia].
Qed.

Lemma peek_rest pre b po : length pre = po -> peek po (length b) (pre ++ b) = Ok b.
Proof. intros. rewrite <- (app_nil_r b) at 2. by apply peek_app. Qed.

Lemma reply_icmp_run pre t c c0 c1 rest po :
  (forall x q, IPPacket.payload_offset (pre ++ x :: q) = Ok po) -> length pre = po ->
  IPPacket.reply_icmp (pre ++ t :: c :: c0 :: c1 :: rest) =
  Ok (pre ++ [t; c] ++ le_bytes 2 (ipchksum (t :: c :: 0 :: 0 :: rest) 0) ++ rest).
Proof.
  intros PO Hl. unfold IPPacket.reply_icmp. rewrite (icmp_checksum_run pre t c c0 c1 rest po) by auto. cbn [rbind].
  rewrite (icmp_checksum_st pre t c c0 c1 rest po) by done. cbn [rbind]. change (le_bytes 2 0) with [0; 0]. cbn [app].
  rewrite PO. cbn [rbind].
  rewrite length_app. replace (length pre + _ - po)%nat with (length (t :: c :: 0 :: 0 :: rest)%Z) by lia.
  rewrite peek_rest by done. cbn [rbind].
  by rewrite (icmp_checksum_st pre t c 0 0 rest po).
Qed.

(** An ICMP packet over IPv4 is answered with the addresses exchanged, an echo reply with the
    data of the request, and both checksums valid. *)
Theorem icmp_reply_v4 {OS : OxencSwap} (buf : list Z) (i : Z) :
  bytes buf -> Header.version buf = Ok 4 -> Header.ihl buf = Ok i -> 5 <= i -> byte_at Header.protocol buf = Ok 1 ->
  (Z.to_nat i * 4 + 4 <= length buf)%nat -> Z.of_nat (length buf) <= 65535 ->
  let ihs := (Z.to_nat i * 4)%nat in
  exists reply, IPPacket.make_icmp_reply buf = Ok reply /\ length reply = length buf /\
    IPPacket.srcv4 reply = IPPacket.dstv4 buf /\ IPPacket.dstv4 reply = IPPacket.srcv4 buf /\
    take 2 (drop ihs reply) = [0; 0] /\ drop (ihs + 4) reply = drop (ihs + 4) buf /\
    ipchksum (take ihs reply) 0 = 0 /\ ipchksum (drop ihs reply) 0 = 0.
Proof.
  intros Hb Hv Hi H5 Hp Hl Hmax ihs. pose proof (ihl_bound _ _ Hb Hi).
  destruct (v4_parts buf i) as (h & chk & s & d & opts & pay & Ebuf & Bh & Bc & Bs & Bd & Bo & Bp & Hh & Hc & Hs & Hd & Ho); [done..|lia|].
  assert (exists t c c0 c1 rest, pay = t :: c :: c0 :: c1 :: rest) as (t & c & c0 & c1 & rest & ->).
  { rewrite Ebuf, !length_app in Hl. do 4 (destruct pay as [|? pay]; [cbn in Hl; lia|]). by eexists _, _, _, _, _. }
  assert (exists pre, pre = h ++ chk ++ s ++ d ++ opts /\ length pre = ihs) as (pre & Epre & Lpre).
  { eexists. split; [done|]. rewrite !length_app. lia. }
  assert (forall q, h ++ chk ++ s ++ d ++ opts ++ q = pre ++ q) as Eq by (intros; subst pre; by rewrite <- !app_assoc).
  assert (IPPacket.srcv4 buf = Ok (NUInt (U32 (le_decode s))) /\ IPPacket.dstv4 buf = Ok (NUInt (U32 (le_decode d)))) as [Esrc Edst].
  { subst buf. unfold IPPacket.srcv4, IPPacket.dstv4. by rewrite src_ld, dst_ld. }
  unfold IPPacket.make_icmp_reply. rewrite of_size_run by lia. cbn [rbind].
  rewrite poke_copy by (by rewrite length_replicate). cbn [rbind].
  unfold IPPacket.IsV4, IPPacket.Version. rewrite Hv. cbn [rbind Z.eqb Pos.eqb].
  assert (0 < length pre)%nat by lia. rewrite Ebuf, Eq in Hv, Hi, Hp |- *.
  rewrite version_app in Hv by done. rewrite ihl_app in Hi by done.
  assert (forall x q, IPPacket.payload_offset (pre ++ x :: q) = Ok ihs) as PO.
  { intros x q. apply payload_offset_v4; rewrite ?version_app, ?ihl_app by done; [done..|]. rewrite length_app. cbn. lia. }
  rewrite (set_icmp_type_run pre) with (po := ihs) by auto. cbn [rbind].
  rewrite (set_icmp_code_run pre) with (po := ihs) by auto. cbn [rbind]. rewrite <- !Eq, <- Ebuf.
  unfold bytes in Bp. rewrite !Forall_cons in Bp. destruct_and! Bp.
  destruct (reply_header_ok buf h chk s d opts (0 :: 0 :: c0 :: c1 :: rest) i) as (h' & chk' & E & Hh' & Hc' & E1 & Hok); try done.
  { rewrite !bytes_app. split_and!; try done. by do 4 (apply Forall_cons; split; [done|]). }
  { by rewrite Eq, ihl_app. }
  { rewrite Eq. unfold byte_at in *. rewrite lookup_app_l in Hp |- * by (unfold Header.protocol; lia). done. }
  { lia. }
  rewrite E. cbn [rbind]. clear E.
  assert (exists pre2, pre2 = h' ++ chk' ++ d ++ s ++ opts /\ length pre2 = ihs) as (pre2 & Epre2 & Lpre2).
  { eexists. split; [done|]. rewrite !length_app. lia. }
  assert (forall q, h' ++ chk' ++ d ++ s ++ opts ++ q = pre2 ++ q) as Eq2 by (intros; subst pre2; by rewrite <- !app_assoc).
  destruct (head_same h h' (chk ++ s ++ d ++ opts) (chk' ++ d ++ s ++ opts)) as [Ev Ei]; [done..|].
  rewrite <- Epre, <- Epre2 in Ev, Ei. rewrite Eq2, reply_icmp_run with (po := ihs); [|intros|done].
  2:{ apply payload_offset_v4; rewrite ?version_app, ?ihl_app by lia; [congruence..|]. rewrite length_app. cbn. lia. }
  eexists. split; [done|]. rewrite <- Eq2 at 2 3. unfold IPPacket.srcv4, IPPacket.dstv4. rewrite src_ld, dst_ld by done.
  fold (IPPacket.srcv4 buf) (IPPacket.dstv4 buf).
  rewrite take_app_length' by done. rewrite !drop_app_length' by done.
  assert (length buf = (ihs + 4 + length rest)%nat) as Lbuf by (rewrite Ebuf, Eq, length_app; cbn [length]; lia).
  split_and!; [|done..| |congruence|].
  - rewrite !length_app, length_le_bytes. cbn [length]. lia.
  - rewrite <- !drop_drop, Ebuf, Eq, (drop_app_length' pre2), (drop_app_length' pre) by done. by rewrite le_bytes_2.
  - apply icmp_fill; [by do 2 (apply Forall_cons; split; [done|])|lia].
Qed.

Definition ping_example : list Z :=
  [69; 0; 0; 28; 0; 7; 0; 0; 64; 1; 0; 0; 10; 0; 0; 1; 10; 0; 0; 2; 8; 0; 18; 52; 1; 2; 3; 4].
Example icmp_reply_v4_witness :
  exists reply, IPPacket.make_icmp_reply (OS := oxenc_swap_ref) ping_example = Ok reply /\ length reply = length ping_example /\
    IPPacket.srcv4 reply = IPPacket.dstv4 ping_example /\ IPPacket.dstv4 reply = IPPacket.srcv4 ping_example /\
    take 2 (drop 20 reply) = [0; 0] /\ drop 24 reply = drop 24 ping_example /\
    ipchksum (take 20 reply) 0 = 0 /\ ipchksum (drop 20 reply) 0 = 0.
Proof. apply (icmp_reply_v4 (OS := oxenc_swap_ref) ping_example 5); first [reflexivity | apply (bool_decide_unpack _); vm_compute; exact I]. Defined.

(** *** The reply to an ICMPv6 packet *)
Lemma load_v6_run h a r off :
  bytes a -> length a = 16%nat -> off = length h ->
  exists v, IPPacket.load_v6 off (h ++ a ++ r) = Ok v /\ IPPacket.v6_bytes v = a.
Proof.
  intros Ba La Ho. unfold IPPacket.load_v6. rewrite peek_app by done. cbn [rbind]. eexists. split; [done|].
  unfold IPPacket.v6_bytes. cbn [nval upper lower].
  assert (length (take 8 a) = 8%nat /\ length (drop 8 a) = 8%nat) as [L1 L2] by (rewrite length_take, length_drop; lia).
  rewrite <- L1 at 1. rewrite <- L2 at 3. rewrite !le_bytes_decode by (by apply Forall_take || by apply Forall_drop).
  apply take_drop.
Qed.

(** The sum over the pseudo header of an ICMPv6 packet, and the verification of its message. *)
Definition pseudo_sum6 (buf : list Z) : Z :=
  address_sum6 buf + wsum (le_bytes 4 (bswap 4 (Z.of_nat (length buf - 40)))) + wsum [0; 0; 0; 58].

Lemma ones_norm_twice p b :
  0 <= p -> 0 <= b -> (p + (b + (65535 - ones_norm (65535 - ones_norm p + b)))) mod 65535 = (2 * p) mod 65535.
Proof.
  intros Hp Hb. pose proof (ones_norm_mod p) as E1. pose proof (ones_norm_mod (65535 - ones_norm p + b)) as E2.
  revert E1 E2. generalize (ones_norm (65535 - ones_norm p + b)). generalize (ones_norm p). intros u v E1 E2.
  Z.div_mod_to_equations. lia.
Qed.

Lemma reply_icmp6_run {OS : OxencSwap} {OSP : OxencSwapSpec OS} h s d t c c0 c1 rest :
  length h = 8%nat -> length s = 16%nat -> length d = 16%nat -> Header.version h = Ok 6 -> byte_at HeaderV6.protocol h = Ok 58 ->
  let pre := h ++ s ++ d in let len := Z.of_nat (4 + length rest) in
  len < 65536 ->
  let pseudo := s ++ d ++ le_bytes 4 (bswap 4 len) ++ [0; 0; 0; 58] in
  IPPacket.reply_icmp6 (pre ++ t :: c :: c0 :: c1 :: rest) =
  Ok (pre ++ [t; c] ++ le_bytes 2 (ipchksum (t :: c :: 0 :: 0 :: rest) (ipchksum pseudo 0)) ++ rest).
Proof.
  intros Lh Ls Ld Hv Hp pre len Hlen pseudo. assert (length pre = 40%nat) as Lpre by (unfold pre; rewrite !length_app; lia).
  assert (forall x q, IPPacket.payload_offset (pre ++ x :: q) = Ok 40%nat) as PO.
  { intros x q. apply payload_offset_v6; [|rewrite length_app; cbn; lia]. unfold pre. by rewrite <- !app_assoc, version_app by lia. }
  unfold IPPacket.reply_icmp6. rewrite (icmp_checksum_run pre t c c0 c1 rest 40) by auto. cbn [rbind].
  rewrite (icmp_checksum_st pre t c c0 c1 rest 40) by done. cbn [rbind]. change (le_bytes 2 0) with [0; 0]. cbn [app].
  unfold pre at 1 2. rewrite <- !app_assoc, peek_app by (unfold HeaderV6.srcaddr; lia). cbn [rbind].
  rewrite (app_assoc h), peek_app by (rewrite ?length_app; unfold HeaderV6.dstaddr; lia). cbn [rbind].
  rewrite PO. cbn [rbind].
  assert (byte_at HeaderV6.protocol (pre ++ t :: c :: 0 :: 0 :: rest) = Ok 58) as ->.
  { unfold byte_at in *. unfold pre. rewrite <- !app_assoc, lookup_app_l; [done|unfold HeaderV6.protocol; lia]. }
  cbn [rbind]. rewrite length_app. replace (length pre + _ - 40)%nat with (length (t :: c :: 0 :: 0 :: rest)%Z) by lia.
  rewrite peek_rest by done. cbn [rbind].
  assert (v32 (nval (ToNet (HUInt (U32 (u32 (Z.of_nat (length (t :: c :: 0 :: 0 :: rest)%Z))))))) = bswap 4 len) as ->.
  { unfold ToNet. cbn. change (S (S (S (S (length rest))))) with (4 + length rest)%nat. fold len.
    rewrite wrap_id by (unfold in_width; lia). apply host_to_big_spec. lia. }
  by rewrite (icmp_checksum_st pre t c 0 0 rest 40).
Qed.

Definition pseudo_header6 (s d : list Z) (n : nat) : list Z := s ++ d ++ le_bytes 4 (bswap 4 (Z.of_nat n)) ++ [0; 0; 0; 58].

Lemma icmp_reply_v6_run {OS : OxencSwap} {OSP : OxencSwapSpec OS} f h s d t c c0 c1 rest :
  let buf := (f ++ h) ++ s ++ d ++ t :: c :: c0 :: c1 :: rest in
  bytes buf -> length f = 4%nat -> length h = 4%nat -> length s = 16%nat -> length d = 16%nat ->
  Header.version buf = Ok 6 -> byte_at HeaderV6.protocol buf = Ok 58 -> Z.of_nat (length buf) <= 65535 ->
  exists f', length f' = 4%nat /\ Header.version f' = Ok 6 /\
    IPPacket.make_icmp_reply buf = Ok (((f' ++ h) ++ d ++ s) ++ [129; 0] ++
      le_bytes 2 (ipchksum (129 :: 0 :: 0 :: 0 :: rest) (ipchksum (pseudo_header6 d s (4 + length rest)) 0)) ++ rest).
Proof.
  intros buf Hb Lf Lh Ls Ld Hv Hp Hmax.
  assert (length buf = 44 + length rest)%nat as Lbuf by (unfold buf; rewrite !length_app; cbn [length]; lia).
  unfold buf in Hb. rewrite !bytes_app in Hb. destruct Hb as ((Bf & Bh) & Bs & Bd & _).
  unfold IPPacket.make_icmp_reply. rewrite of_size_run by lia. cbn [rbind].
  rewrite poke_copy by (by rewrite length_replicate). cbn [rbind].
  assert (exists pre, pre = (f ++ h) ++ s ++ d /\ length pre = 40%nat) as (pre & Epre & Lpre).
  { eexists. split; [done|]. rewrite !length_app. lia. }
  assert (forall q, (f ++ h) ++ s ++ d ++ q = pre ++ q) as Eq by (intros; subst pre; by rewrite <- !app_assoc).
  assert (IPPacket.IsV4 buf = Ok false /\ IPPacket.IsV6 buf = Ok true) as [V4 V6].
  { unfold IPPacket.IsV4, IPPacket.IsV6, IPPacket.Version. by rewrite Hv. }
  destruct (load_v6_run (f ++ h) s (d ++ t :: c :: c0 :: c1 :: rest) HeaderV6.srcaddr) as (vs & Es & Evs); [done..|by rewrite length_app, Lf, Lh|].
  destruct (load_v6_run ((f ++ h) ++ s) d (t :: c :: c0 :: c1 :: rest) HeaderV6.dstaddr) as (vd & Ed & Evd); [done..|by rewrite !length_app, Lf, Lh, Ls|].
  rewrite <- app_assoc in Ed. unfold IPPacket.dstv6, IPPacket.srcv6. rewrite V4, V6. cbn [rbind].
  unfold buf at 2 3. rewrite Es, Ed. cbn [rbind]. clear Es Ed.
  assert (forall x q, IPPacket.payload_offset (pre ++ x :: q) = Ok 40%nat) as PO.
  { intros x q. apply payload_offset_v6; [|rewrite length_app; cbn; lia].
    unfold buf in Hv. rewrite Eq in Hv. by rewrite version_app in Hv |- * by lia. }
  unfold buf. rewrite Eq, (set_icmp_type_run pre) with (po := 40%nat) by auto. cbn [rbind].
  rewrite (set_icmp_code_run pre) with (po := 40%nat) by auto. cbn [rbind].
  destruct (UpdateIPv6_start vd vs None f h s d (129 :: 0 :: c0 :: c1 :: rest)) as (f' & Bf' & Lf' & F0 & E); [done..|].
  assert (forall g q, length g = 4%nat -> byte_at HeaderV6.protocol ((g ++ h) ++ q) = Ok 58) as P58.
  { unfold byte_at, buf, HeaderV6.protocol in *. rewrite <- app_assoc, lookup_app_r, Lf, lookup_app_l in Hp by lia.
    intros g q Lg. by rewrite <- app_assoc, lookup_app_r, Lg, lookup_app_l by lia. }
  assert (Header.version f' = Ok 6) as Hv'.
  { unfold buf in Hv. rewrite <- !app_assoc, version_app in Hv by lia. unfold Header.version, byte_at in *. by rewrite F0. }
  cbn zeta in E. exists f'. split_and!; [done..|]. rewrite <- Eq, E, Evs, Evd, P58 by done.
  cbn [rbind IPPacket.skip_extensions Z.eqb Pos.eqb orb]. unfold IPPacket.transport_update. cbn [rbind Z.eqb Pos.eqb orb].
  rewrite !(app_assoc d), (app_assoc (f' ++ h)). rewrite reply_icmp6_run; [done|rewrite ?length_app; lia..| |by rewrite <- (app_nil_r (f' ++ h)), P58|lia].
  by rewrite version_app by lia.
Qed.

Lemma v6_layout g a b q :
  length g = 8%nat -> length a = 16%nat -> length b = 16%nat ->
  let buf := g ++ a ++ b ++ q in
  take 16 (drop 8 buf) = a /\ take 16 (drop 24 buf) = b /\ drop 40 buf = q /\
  (bytes a -> bytes b -> pseudo_sum6 buf = wsum (pseudo_header6 a b (length q))).
Proof.
  intros Lg La Lb buf. unfold buf. split_and!.
  - rewrite drop_app_length' by done. by apply take_app_length'.
  - rewrite (app_assoc g), drop_app_length' by (rewrite length_app; lia). by apply take_app_length'.
  - rewrite (app_assoc a), (app_assoc g), drop_app_length' by (rewrite !length_app; lia). done.
  - intros. unfold pseudo_sum6, pseudo_header6. rewrite address_sum6_eq by done.
    replace (length (g ++ a ++ b ++ q) - 40)%nat with (length q) by (rewrite !length_app; lia).
    rewrite (wsum_app a), (wsum_app b), (wsum_app (le_bytes 4 _)); [lia| | |]; rewrite ?length_le_bytes, ?La, ?Lb;
      [by exists 2%nat|by exists 8%nat..].
Qed.

(** A message checksummed over the complement of the sum of [p]. *)
Lemma complemented_sum p t c rest :
  bytes p -> bytes (t :: c :: rest) -> Z.of_nat (length p + length rest) <= 65535 ->
  (wsum p + wsum ([t; c] ++ le_bytes 2 (ipchksum (t :: c :: 0 :: 0 :: rest) (ipchksum p 0)) ++ rest)) mod 65535
  = (2 * wsum p) mod 65535.
Proof.
  intros Bp Bm Hl. assert (bytes (t :: c :: 0 :: 0 :: rest)) as Bz.
  { apply Forall_cons in Bm as [? Bm]. apply Forall_cons in Bm as [? Bm]. by do 4 (apply Forall_cons; split; [done|]). }
  pose proof (wsum_nonneg p Bp). pose proof (wsum_bound p Bp). pose proof (wsum_nonneg _ Bz). pose proof (wsum_bound _ Bz) as Hb.
  cbn [length] in Hb. pose proof (ones_norm_bound (wsum p)).
  rewrite (ipchksum_spec p) by (done || lia). rewrite Z.add_0_l.
  rewrite ipchksum_spec by (done || lia). set (b := wsum (t :: c :: 0 :: 0 :: rest)) in *.
  pose proof (ones_norm_bound (65535 - ones_norm (wsum p) + b)).
  rewrite <- (ones_norm_twice (wsum p) b) by done. f_equal. f_equal.
  rewrite !wsum_app by (rewrite ?length_le_bytes; by exists 1%nat). rewrite wsum_word by (unfold in_width; lia).
  unfold b at 2. cbn [wsum]. lia.
Qed.

(** The reply to an ICMPv6 packet without extension headers. The pseudo header enters the sum
    complemented, so a receiver that adds the pseudo header to the message finds twice the sum of
    the pseudo header instead of zero. *)
Theorem icmp_reply_v6_checksum {OS : OxencSwap} {OSP : OxencSwapSpec OS} (buf : list Z) :
  bytes buf -> Header.version buf = Ok 6 -> byte_at HeaderV6.protocol buf = Ok 58 ->
  (44 <= length buf)%nat -> Z.of_nat (length buf) <= 65535 ->
  exists reply, IPPacket.make_icmp_reply buf = Ok reply /\ length reply = length buf /\
    take 16 (drop 8 reply) = take 16 (drop 24 buf) /\ take 16 (drop 24 reply) = take 16 (drop 8 buf) /\
    take 2 (drop 40 reply) = [129; 0] /\
    (pseudo_sum6 reply + wsum (drop 40 reply)) mod 65535 = (2 * pseudo_sum6 reply) mod 65535.
Proof.
  intros Hb Hv Hp Hl Hmax. destruct (v6_parts buf Hb) as (f & h & s & d & pay & -> & HB & Lf & Lh & Ls & Ld); [lia|].
  repeat (apply Forall_cons in HB as [? HB]).
  assert (exists t c c0 c1 rest, pay = t :: c :: c0 :: c1 :: rest) as (t & c & c0 & c1 & rest & ->).
  { rewrite !length_app in Hl. do 4 (destruct pay as [|? pay]; [cbn in Hl; lia|]). by eexists _, _, _, _, _. }
  destruct (icmp_reply_v6_run f h s d t c c0 c1 rest) as (f' & Lf' & Hv' & E); [done..|]. rewrite E.
  destruct (v6_layout (f ++ h) s d (t :: c :: c0 :: c1 :: rest)) as (L1 & L2 & _ & _); [rewrite ?length_app; lia..|].
  rewrite L1, L2. eexists. split; [done|]. rewrite <- !(app_assoc _ (d ++ s)), <- !(app_assoc d).
  match goal with |- context [d ++ s ++ ?q] => destruct (v6_layout (f' ++ h) d s q) as (L1' & L2' & L3' & L4') end; [rewrite ?length_app; lia..|].
  rewrite L1', L2', L3', L4' by done. split_and!; [|done..|].
  - rewrite !length_app, length_le_bytes. cbn [length]. lia.
  - rewrite !length_app, length_le_bytes. cbn [length]. apply complemented_sum; unfold pseudo_header6.
    + rewrite !bytes_app. split_and!; [done..|apply le_bytes_bytes|]. by do 4 (apply Forall_cons; split; [done|]).
    + do 2 (apply Forall_cons; split; [done|]). unfold bytes in *. rewrite !Forall_cons in *. tauto.
    + rewrite !length_app in *. rewrite length_le_bytes. cbn [length] in *. lia.
Qed.

Definition ping6_example : list Z :=
  [96; 0; 0; 0; 0; 8; 58; 64] ++ repeat 0 15 ++ [1] ++ repeat 0 15 ++ [2] ++ [128; 0; 0; 0; 1; 2; 3; 4].
Example icmp_reply_v6_checksum_witness :
  exists reply, IPPacket.make_icmp_reply (OS := oxenc_swap_ref) ping6_example = Ok reply /\ length reply = length ping6_example /\
    take 16 (drop 8 reply) = take 16 (drop 24 ping6_example) /\ take 16 (drop 24 reply) = take 16 (drop 8 ping6_example) /\
    take 2 (drop 40 reply) = [129; 0] /\
    (pseudo_sum6 reply + wsum (drop 40 reply)) mod 65535 = (2 * pseudo_sum6 reply) mod 65535.
Proof.
  apply (icmp_reply_v6_checksum (OS := oxenc_swap_ref) ping6_example);
    first [reflexivity | apply (bool_decide_unpack _); vm_compute; exact I].
Defined.

(** ** Reads past the end of a packet *)

(** The ports are read as two bytes after a check for one. *)
Theorem port_reads_past_end (buf : list Z) (skip : nat) (i proto : Z) :
  byte_at Header.protocol buf = Ok proto -> proto = 6 \/ proto = 17 -> Header.ihl buf = Ok i ->
  length buf = (Z.to_nat i * 4 + skip + 1)%nat -> IPPacket.port_at skip buf = Oob.
Proof.
  intros Hp Hpr Hi Hl. unfold IPPacket.port_at. rewrite Hp. cbn [rbind].
  replace ((proto =? IPPacket.proto_TCP) || (proto =? IPPacket.proto_UDP)) with true by (by destruct Hpr as [-> | ->]).
  rewrite Hi. cbn [rbind]. rewrite bounds_check_ok by lia. cbn [rbind]. unfold ld, peek.
  by rewrite (proj2 (Nat.leb_gt _ _)) by lia.
Qed.

(** The loop over the IPv6 extension headers reads the header before it looks at the remaining
    size: a packet that ends after one byte of an extension header is read past its end. *)
Theorem extension_reads_past_end (buf : list Z) (src dst : ipv6addr_t) (label : option (nuint_t uint32_t)) (np : Z) :
  bytes buf -> length buf = 41%nat -> byte_at HeaderV6.protocol buf = Ok np -> np = 0 \/ np = 43 \/ np = 44 \/ np = 60 ->
  IPPacket.UpdateIPv6Address src dst label buf = Oob.
Proof.
  intros Hb Hl Hnp Hcase. destruct (v6_parts buf Hb) as (f & h & s & d & pay & -> & HB & Lf & Lh & Ls & Ld); [lia|].
  repeat (apply Forall_cons in HB as [? HB]).
  assert (length pay = 1%nat) as Lp by (rewrite !length_app in Hl; lia). destruct pay as [|b [|]]; [done| |done].
  destruct (UpdateIPv6_start src dst label f h s d [b]) as (f' & _ & Lf' & _ & E); [done..|]. rewrite E, Hnp. cbn [rbind].
  destruct (v6_bytes_ok src) as [_ L1], (v6_bytes_ok dst) as [_ L2]. set (buf' := (f' ++ h) ++ _ ++ _ ++ [b]).
  assert (length buf' = 41%nat) as Lb' by (unfold buf'; rewrite !length_app, L1, L2, Lf', Lh; done).
  assert (exists x, byte_at 40 buf' = Ok x) as [x Hx].
  { unfold byte_at. destruct (lookup_lt_is_Some_2 buf' 40) as [x ->]; [lia|by exists x]. }
  assert (forall k, (41 <= k)%nat -> byte_at k buf' = Oob) as Hoob.
  { intros k Hk. unfold byte_at. by rewrite lookup_ge_None_2 by lia. }
  cbn [IPPacket.skip_extensions]. destruct Hcase as [-> | [-> | [-> | ->]]]; cbn [Z.eqb Pos.eqb orb]; rewrite Hx; cbn [rbind];
    by rewrite Hoob by lia.
Qed.
Example extension_reads_past_end_witness :
  IPPacket.UpdateIPv6Address IPPacket.zero_v6 IPPacket.zero_v6 None (96 :: repeat 0 40) = Oob.
Proof.
  apply (extension_reads_past_end (96 :: repeat 0 40) IPPacket.zero_v6 IPPacket.zero_v6 None 0); [|reflexivity..|by left].
  apply (bool_decide_unpack _). vm_compute. exact I.
Defined.
