(* ===== verification/Contact.v ===== *)
(** * Router contacts and introductions

    The records that routers and services publish about themselves, with their bencoded
    forms: llarp/net/address_info.hpp/.cpp, llarp/router_version.hpp/.cpp,
    llarp/router_contact.hpp/.cpp, llarp/service/intro.hpp/.cpp and the encrypted
    introduction set of llarp/service/intro_set.hpp/.cpp. [inet_pton] and [inet_ntop] of the
    system library and the list consumer of oxenc are parameters. *)

From S2P Require Import Prelude Buffer Bencode Codec CryptoApi Str NetInt IpRange DnsName DnsMessage.

(** [inet_ntop(AF_INET6, ..)] of the 16 bytes, seen as a [uint128_t]; it fails only for want
    of room, and [inet_pton] reads back what it prints. *)
Class InetNtop := { inet_ntop6 : uint128_t -> list Z }.
Class InetNtopSpec (P : InetPton) (N : InetNtop) : Prop := {
  inet_ntop6_short v : (0 < length (inet_ntop6 v) < 46)%nat;
  inet_ntop6_text v : 0 ∉ inet_ntop6 v;
  inet_pton6_ntop6 v : u128_wf v -> inet_pton6 (inet_ntop6 v) = Some v;
}.

(** oxenc's serialization of SRV tuples, and its list consumer; [None] is an exception. *)
Class OxencBt := {
  bt_serialize_srv : list Z * Z * Z * Z * list Z -> list Z;
  bt_deserialize_srv : list Z -> option (list Z * Z * Z * Z * list Z);
  bt_list_consumer : list Z -> option (list Z);
  consume_integer : list Z -> option (Z * list Z);
  consume_string_view : list Z -> option (list Z * list Z);
  consume_dict_data : list Z -> option (list Z * list Z);
  is_finished : list Z -> bool;
}.

(** ** AddressInfo *)
Module AddressInfo.
Record t := Mk { rank : Z; dialect : list Z; pubkey : list Z; ip : ipv6addr_t; port : Z; version : Z }.
#[export] Instance eta_t : Eta t := fun r => Mk (rank r) (dialect r) (pubkey r) (ip r) (port r) (version r).
(** [rank] and [port] have no initial value: [rank0] and [port0] are what the memory held. *)
Definition empty (rank0 port0 : Z) : t := Mk rank0 [] (zeros 32) (NUInt (uint128.of_u64 0)) port0 proto_version.
Definition eqb (lhs rhs : t) : bool :=
  bool_decide (pubkey lhs = pubkey rhs) && (port lhs =? port rhs) && bool_decide (dialect lhs = dialect rhs)
  && nuint.eqb (ip lhs) (ip rhs).

Section codec.
Context {IP : InetPton} {IN : InetNtop}.

Definition DecodeKey : decode_key t := fun a key b =>
  if startswith [c_c] key then
    let* (i, b) := bencode_read_integer b in
    match i with
    | None => Ok (false, a, b)
    | Some i => if (65536 <? i) || (i <=? 0) then Ok (false, a, b) else Ok (true, a <| rank := u16 i |>, b)
    end
  else if startswith [c_d] key then
    let* (str, b) := bencode_read_string b in
    match str with
    | None => Ok (false, a, b)
    | Some str => if (128 <=? sz str)%nat then Ok (false, a, b) else Ok (true, a <| dialect := c_str (mem str) |>, b)
    end
  else if startswith [c_e] key then
    let* (k, b) := BDecode (BEncodable := key32) 0 b in
    match k with None => Ok (false, a, b) | Some k => Ok (true, a <| pubkey := k |>, b) end
  else if startswith [c_i] key then
    let* (str, b) := bencode_read_string b in
    match str with
    | None => Ok (false, a, b)
    | Some str =>
        if (128 <=? sz str)%nat then Ok (false, a, b)
        else match inet_pton6 (c_str (mem str)) with
             | Some v => Ok (true, a <| ip := NUInt v |>, b)
             | None => Ok (false, a, b)
             end
    end
  else if startswith [c_p] key then
    let* (i, b) := bencode_read_integer b in
    match i with
    | None => Ok (false, a, b)
    | Some i => if (65536 <? i) || (i <=? 0) then Ok (false, a, b) else Ok (true, a <| port := u16 i |>, b)
    end
  else if startswith [c_v] key then
    let* (i, b) := bencode_read_integer b in
    match i with
    | None => Ok (false, a, b)
    | Some i => Ok (i =? proto_version, a, b)
    end
  else Ok (false, a, b).

Definition BEncode (a : t) : writer :=
  bencode_start_dict
  ⩓ (bencode_write_bytestring [c_c] ⩓ bencode_write_uint64 (rank a))
  ⩓ (bencode_write_bytestring [c_d] ⩓ bencode_write_bytestring (dialect a))
  ⩓ (bencode_write_bytestring [c_e] ⩓ bencode_write_bytestring (pubkey a))
  ⩓ (bencode_write_bytestring [c_i] ⩓ bencode_write_bytestring (inet_ntop6 (nval (ip a))))
  ⩓ (bencode_write_bytestring [c_p] ⩓ bencode_write_uint64 (port a))
  ⩓ bencode_write_uint64_entry [c_v] proto_version
  ⩓ bencode_end.
End codec.
End AddressInfo.

(** ** RouterVersion *)
Module RouterVersion.
Record t := Mk { m_Version : list Z; m_ProtoVersion : Z }.
#[export] Instance eta_t : Eta t := fun r => Mk (m_Version r) (m_ProtoVersion r).
#[export] Instance t_eq_dec : EqDecision t. Proof. solve_decision. Defined.
Definition INVALID_VERSION : Z := -1.
Definition emptyRouterVersion : t := Mk [0; 0; 0] INVALID_VERSION.
Definition default : t := Mk [0; 0; 0] proto_version.
Definition Clear (_ : t) : t := Mk [0; 0; 0] INVALID_VERSION.
Definition IsEmpty (v : t) : bool := bool_decide (v = emptyRouterVersion).
Definition IsCompatableWith (v other : t) : bool := m_ProtoVersion v =? m_ProtoVersion other.
(** [std::tie(m_ProtoVersion, m_Version)], compared lexicographically. *)
Definition lt (v other : t) : bool :=
  (m_ProtoVersion v <? m_ProtoVersion other)
  || ((m_ProtoVersion v =? m_ProtoVersion other) && lex_lt (m_Version v) (m_Version other)).

Definition BEncode (v : t) : writer :=
  bencode_start_list
  ⩓ write_if (negb (IsEmpty v))
      (bencode_write_uint64 (u64 (m_ProtoVersion v)) ⩓ write_items (EA := uint64_bencodable) (m_Version v))
  ⩓ bencode_end.

(** The sink of the list: the object and [idx]. *)
Definition list_sink (st : t * nat) (has : bool) (b : llarp_buffer_t) : res (bool * (t * nat) * llarp_buffer_t) :=
  let '(v, idx) := st in
  if has then
    let* (i, b) := bencode_read_integer b in
    match i with
    | None => Ok (false, (v, idx), b)
    | Some i =>
        if (idx =? 0)%nat then Ok (true, (v <| m_ProtoVersion := to_signed 64 i |>, S idx), b)
        else if (length (m_Version v) <? idx)%nat then Ok (false, (v, idx), b)
        else Ok (true, (v <| m_Version := <[(idx - 1)%nat := u16 i]> (m_Version v) |>, S idx), b)
    end
  else Ok (true, (v, idx), b).
Definition BDecode (fuel : nat) (v : t) (b : llarp_buffer_t) : res (bool * t * llarp_buffer_t) :=
  let* (ok, (v, idx), b) := bencode_read_list fuel list_sink (Clear v, 0%nat) b in
  Ok (ok && ((idx =? 4)%nat || (idx =? 0)%nat), v, b).
Definition bencodable : BEncodable t :=
  {| Bencode.BEncode := BEncode;
     Bencode.BDecode fuel b := let* (ok, v, b) := BDecode fuel default b in Ok (if ok : bool then Some v else None, b) |}.
End RouterVersion.

(** ** NetID *)
Module NetID.
Definition SIZE : nat := 8.
(** The bytes before the first NUL. *)
Definition ToString (n : list Z) : list Z := c_str n.
Definition eqb (a b : list Z) : bool := bool_decide (ToString a = ToString b).
(** The constructor from a C string: at most 8 bytes, padded with zeros. *)
Definition of_bytes (val : list Z) : list Z :=
  let s := take SIZE (c_str val) in s ++ zeros (SIZE - length s).
Definition BEncode (n : list Z) : writer := bencode_write_bytestring (ToString n).
Definition BDecode (_ : nat) (b : llarp_buffer_t) : res (option (list Z) * llarp_buffer_t) :=
  let* (str, b) := bencode_read_string b in
  match str with
  | None => Ok (None, b)
  | Some str => if (SIZE <? sz str)%nat then Ok (None, b) else Ok (Some (mem str ++ zeros (SIZE - sz str)), b)
  end.
Definition bencodable : BEncodable (list Z) := {| Bencode.BEncode := BEncode; Bencode.BDecode := BDecode |}.
End NetID.

(** ** SRVData, through oxenc *)
Section srv.
Context {BT : OxencBt}.
Definition SRVData_BEncode (s : SRVData.t) : writer := write (bt_serialize_srv (SRVData.toTuple s)).
Definition SRVData_BDecode (fuel : nat) (b : llarp_buffer_t) : res (option SRVData.t * llarp_buffer_t) :=
  let begin := cur b in
  let* (ok, _, b) := bencode_discard fuel b in
  if negb ok then Ok (None, b)
  else match bt_deserialize_srv (take (cur b - begin) (drop begin (mem b))) with
       | Some tuple => let s := SRVData.fromTuple tuple in Ok (if SRVData.IsValid s then Some s else None, b)
       | None => Ok (None, b)
       end.
Definition srv_bencodable : BEncodable SRVData.t := {| BEncode := SRVData_BEncode; BDecode := SRVData_BDecode |}.
End srv.

(** ** RouterContact *)
Module RouterContact.
Definition MAX_RC_SIZE : nat := 1024.
Definition NICKLEN : nat := 32.
(** Milliseconds. *)
Definition Lifetime : Z := 24 * 3600 * 1000.
Definition StaleInsertionAge : Z := 4 * 3600 * 1000.
Definition rc_update_window : Z := 5 * 60 * 1000.
Definition UpdateInterval : Z := StaleInsertionAge - rc_update_window.
Definition expiration_lifetime_generations : Z := 10.
Definition rc_expire_age : Z := Lifetime * expiration_lifetime_generations.

Record t := Mk {
  addrs : list AddressInfo.t; netID : list Z; enckey : list Z; pubkey : list Z; signature : list Z;
  nickname : list Z; last_updated : Z; version : Z; routerVersion : option RouterVersion.t;
  signed_bt_dict : list Z; srvRecords : list SRVData.t }.
#[export] Instance eta_t : Eta t := fun r => Mk (addrs r) (netID r) (enckey r) (pubkey r) (signature r) (nickname r)
  (last_updated r) (version r) (routerVersion r) (signed_bt_dict r) (srvRecords r).

(** [Clear]: the network id and the signed dictionary stay. *)
Definition Clear (rc : t) : t :=
  Mk [] (netID rc) (zeros 32) (zeros 32) (zeros 64) (zeros NICKLEN) 0 proto_version None (signed_bt_dict rc) [].
Definition default (ours : list Z) : t := Mk [] ours (zeros 32) (zeros 32) (zeros 64) (zeros NICKLEN) 0 proto_version None [] [].

Definition HasNick (rc : t) : res bool := let* c := byte_at 0 (nickname rc) in Ok (negb (c =? 0)).
Definition Nick (rc : t) : list Z := c_str (nickname rc).
Definition SetNick (nick : list Z) (rc : t) : t :=
  let s := take NICKLEN nick in rc <| nickname := s ++ zeros (NICKLEN - length s) |>.
Definition IsPublicRouter (rc : t) : bool :=
  match routerVersion rc with None => false | Some _ => match addrs rc with [] => false | _ => true end end.
Definition FromOurNetwork (ours : list Z) (rc : t) : bool := NetID.eqb (netID rc) ours.
Definition OtherIsNewer (rc other : t) : bool := last_updated rc <? last_updated other.
Definition Age (now : Z) (rc : t) : Z := if last_updated rc <? now then now - last_updated rc else 0.
Definition IsExpired (now : Z) (rc : t) : bool := rc_expire_age <=? Age now rc.
Definition TimeUntilExpires (now : Z) (rc : t) : Z :=
  let expiresAt := last_updated rc + Lifetime in if now <? expiresAt then expiresAt - now else 0.
Definition ExpiresSoon (now dlt : Z) (rc : t) : bool := TimeUntilExpires now rc <=? dlt.

Section codec.
Context {IP : InetPton} {IN : InetNtop} {BT : OxencBt}.
(** What the memory of an [AddressInfo] held before it was filled. *)
Context (rank0 port0 : Z).
Definition addr_bencodable : BEncodable AddressInfo.t :=
  dict_bencodable AddressInfo.BEncode (fun _ => AddressInfo.DecodeKey) (AddressInfo.empty rank0 port0).
(** A dictionary entry that is read into its own default. *)
Definition srv0 : SRVData.t := SRVData.Mk [] 0 0 0 [].

Definition BEncodeSignedSection (rc : t) : writer :=
  bencode_start_dict
  ⩓ (bencode_write_bytestring [c_a] ⩓ BEncodeWriteList (EA := addr_bencodable) (addrs rc))
  ⩓ (bencode_write_bytestring [c_i] ⩓ NetID.BEncode (netID rc))
  ⩓ (bencode_write_bytestring [c_k] ⩓ bencode_write_bytestring (pubkey rc))
  ⩓ write_if (negb (length (Nick rc) =? 0)%nat) (bencode_write_bytestring [c_n] ⩓ bencode_write_bytestring (Nick rc))
  ⩓ (bencode_write_bytestring [c_p] ⩓ bencode_write_bytestring (enckey rc))
  ⩓ write_opt (routerVersion rc) (BEncodeWriteDictEntry (EA := RouterVersion.bencodable) [c_r])
  ⩓ write_if (0 <? version rc) (BEncodeWriteDictList (EA := srv_bencodable) [c_s] (srvRecords rc))
  ⩓ (bencode_write_bytestring [c_u] ⩓ bencode_write_uint64 (u64 (last_updated rc)))
  ⩓ bencode_write_uint64_entry [c_v] (version rc)
  ⩓ (bencode_write_bytestring [c_x] ⩓ BEncodeWriteList (EA := key32) [])
  ⩓ write_if (version rc =? 0) (bencode_write_bytestring [c_z] ⩓ bencode_write_bytestring (signature rc))
  ⩓ bencode_end.

(** [writef("li1e%zu:", ..)] and the two buffers. *)
Definition BEncode (rc : t) : writer :=
  if version rc =? 0 then BEncodeSignedSection rc
  else if version rc =? 1 then
    writef ([c_l; c_i; 49; c_e] ++ print_dec (Z.of_nat (length (signature rc))) ++ [chr_colon])
    ⩓ write (signature rc) ⩓ write (signed_bt_dict rc) ⩓ writef [c_e]
  else fun b => Ok (false, b).

(** The runs of [BEncodeMaybeRead..] of [DecodeKey], between the keys it reads itself. *)
Definition first_keys (fuel : nat) :=
  maybe_list (EA := addr_bencodable) fuel [c_a] (AddressInfo.empty rank0 port0) addrs (fun x rc => rc <| addrs := x |>)
  ⨾ maybe_entry (EA := NetID.bencodable) fuel [c_i] netID (fun x rc => rc <| netID := x |>)
  ⨾ maybe_entry (EA := key32) fuel [c_k] pubkey (fun x rc => rc <| pubkey := x |>).
Definition middle_keys (fuel : nat) :=
  maybe_list (EA := srv_bencodable) fuel [c_s] srv0 srvRecords (fun x rc => rc <| srvRecords := x |>)
  ⨾ maybe_entry (EA := key32) fuel [c_p] enckey (fun x rc => rc <| enckey := x |>)
  ⨾ maybe_time [c_u] (fun x rc => rc <| last_updated := x |>)
  ⨾ maybe_int 64 [c_v] version (fun x rc => rc <| version := x |>).
Definition last_key (fuel : nat) := maybe_entry (EA := sig64) fuel [c_z] signature (fun x rc => rc <| signature := x |>).
Definition DecodeKey (fuel : nat) : decode_key t := fun rc key b =>
  let* (ok, (rc, rd), b) := first_keys fuel (rc, false) key b in
  if negb ok then Ok (false, rc, b)
  else if startswith [c_r] key then
    let* (ok, v, b) := RouterVersion.BDecode fuel RouterVersion.default b in
    if ok : bool then Ok (true, rc <| routerVersion := Some v |>, b) else Ok (false, rc, b)
  else if startswith [c_n] key then
    let* (str, b) := bencode_read_string b in
    match str with
    | None => Ok (false, rc, b)
    | Some str => if (NICKLEN <? sz str)%nat then Ok (false, rc, b)
                  else Ok (true, rc <| nickname := mem str ++ zeros (NICKLEN - sz str) |>, b)
    end
  else
    let* (ok, (rc, rd), b) := middle_keys fuel (rc, rd) key b in
    if negb ok then Ok (false, rc, b)
    else if startswith [c_x] key then let* (ok, _, b) := bencode_discard fuel b in Ok (ok, rc, b)
    else
      let* (ok, (rc, rd), b) := last_key fuel (rc, rd) key b in
      if negb ok then Ok (false, rc, b)
      else if rd : bool then Ok (true, rc, b)
      else let* (ok, _, b) := bencode_discard fuel b in Ok (ok, rc, b).

Definition DecodeVersion_0 (fuel : nat) (rc : t) (b : llarp_buffer_t) : res (bool * t * llarp_buffer_t) :=
  bencode_decode_dict fuel (DecodeKey fuel) rc b.
(** [None] is an exception of the consumer. *)
Definition DecodeVersion_1 (fuel : nat) (rc : t) (btlist : list Z) : res (option (bool * t)) :=
  match consume_string_view btlist with
  | None => Ok None
  | Some (signature_string, btlist) =>
      match consume_dict_data btlist with
      | None => Ok None
      | Some (dict, btlist) =>
          let rc := rc <| signed_bt_dict := dict |> in
          if negb (is_finished btlist) then Ok (Some (false, rc))
          else if negb (length signature_string =? SIGSIZE)%nat then Ok (Some (false, rc))
          else
            let rc := rc <| signature := signature_string |> in
            let* (ok, rc, _) := bencode_decode_dict fuel (DecodeKey fuel) rc (Buffer dict 0) in Ok (Some (ok, rc))
      end
  end.
Definition BDecode (fuel : nat) (rc : t) (b : llarp_buffer_t) : res (bool * t * llarp_buffer_t) :=
  let rc := Clear rc in
  let* c := deref b in
  if c =? chr_d then DecodeVersion_0 fuel rc b
  else if negb (c =? chr_l) then Ok (false, rc, b)
  else
    match bt_list_consumer (view_remaining b) with
    | None => Ok (false, rc, b)
    | Some btlist =>
        match consume_integer btlist with
        | None => Ok (false, rc, b)
        | Some (outer_version, btlist) =>
            if outer_version =? 1 then
              let* r := DecodeVersion_1 fuel rc btlist in
              match r with
              | None => Ok (false, rc, b)
              | Some (ok, rc) =>
                  if ok : bool then let* (ok, _, b) := bencode_discard fuel b in Ok (ok, rc, b) else Ok (false, rc, b)
              end
            else Ok (false, rc, b)
        end
    end.
(** A new object with the network id of this program. *)
Definition bencodable (ours : list Z) : BEncodable t :=
  {| Bencode.BEncode := BEncode;
     Bencode.BDecode fuel b := let* (ok, rc, b) := BDecode fuel (default ours) b in Ok (if ok : bool then Some rc else None, b) |}.

Context {CR : Crypto} {KP : KeyPairs}.
Definition Sign (secretkey : list Z) (now : Z) (rc : t) : res (bool * t) :=
  let rc := rc <| pubkey := seckey_topublic secretkey |> <| signature := zeros 64 |> <| last_updated := now |> in
  let* data := encode_into MAX_RC_SIZE (BEncodeSignedSection rc) in
  match data with
  | None => Ok (false, rc)
  | Some data =>
      let rc := rc <| signed_bt_dict := data |> in
      if (version rc =? 0) || (version rc =? 1) then
        match crypto_sign secretkey data with
        | Some z => Ok (true, rc <| signature := z |>)
        | None => Ok (false, rc)
        end
      else Ok (false, rc)
  end.
Definition VerifySignature (rc : t) : res bool :=
  if version rc =? 0 then
    let copy := rc <| signature := zeros 64 |> in
    let* data := encode_into MAX_RC_SIZE (BEncode copy) in
    match data with Some data => Ok (verify (pubkey rc) data (signature rc)) | None => Ok false end
  else if version rc =? 1 then Ok (verify (pubkey rc) (signed_bt_dict rc) (signature rc))
  else Ok false.
(** [ours] is the network id in use, [BlockBogons] the switch of the class. *)
Context {OS : OxencSwap}.
Definition Verify (ours : list Z) (BlockBogons : bool) (now : Z) (allowExpired : bool) (rc : t) : res bool :=
  if negb (NetID.eqb (netID rc) ours) then Ok false
  else if IsExpired now rc && negb allowExpired then Ok false
  else if existsb (fun a => IsBogonIP_v6 (AddressInfo.ip a) && BlockBogons) (addrs rc) then Ok false
  else VerifySignature rc.
End codec.
End RouterContact.

(** ** Introductions *)

(** [path::default_lifetime], 20 minutes in milliseconds. *)
Definition default_lifetime : Z := 20 * 60 * 1000.

Module Introduction.
Record t := Mk { router : list Z; pathID : list Z; latency : Z; expiresAt : Z; version : Z }.
#[export] Instance eta_t : Eta t := fun r => Mk (router r) (pathID r) (latency r) (expiresAt r) (version r).
Definition empty : t := Mk (zeros 32) (zeros 16) 0 0 proto_version.
Definition Clear (i : t) : t := Mk (zeros 32) (zeros 16) 0 0 (version i).
Definition IsExpired (now : Z) (i : t) : bool := expiresAt i <=? now.
Definition ExpiresSoon (now dlt : Z) (i : t) : bool := IsExpired (now + dlt) i.
(** [operator==] and the order by expiry. *)
Definition eqb (a b : t) : bool := bool_decide (pathID a = pathID b) && bool_decide (router a = router b).
Definition CompareIntroTimestamp (left right : t) : bool := expiresAt right <? expiresAt left.

Definition DecodeKey (fuel : nat) : decode_key t := return_read
  (maybe_entry (EA := key32) fuel [c_k] router (fun x i => i <| router := x |>)
   ⨾ maybe_time [c_l] (fun x i => i <| latency := x |>)
   ⨾ maybe_entry (EA := key16) fuel [c_p] pathID (fun x i => i <| pathID := x |>)
   ⨾ maybe_int 64 [c_v] version (fun x i => i <| version := x |>)
   ⨾ maybe_time [c_x] (fun x i => i <| expiresAt := x |>)).
Definition BEncode (i : t) : writer :=
  bencode_start_dict
  ⩓ BEncodeWriteDictEntry (EA := key32) [c_k] (router i)
  ⩓ write_if (0 <? latency i) (BEncodeWriteDictTime [c_l] (latency i))
  ⩓ BEncodeWriteDictEntry (EA := key16) [c_p] (pathID i)
  ⩓ BEncodeWriteDictInt [c_v] (version i)
  ⩓ BEncodeWriteDictTime [c_x] (expiresAt i)
  ⩓ bencode_end.
Definition bencodable : BEncodable t := dict_bencodable BEncode DecodeKey empty.
End Introduction.

Module EncryptedIntroSet.
Definition MAX_INTROSET_SIZE : nat := 4096.
Definition MAX_INTROSET_TIME_DELTA : Z := 10 * 1000.
Record t := Mk { derivedSigningKey : list Z; signedAt : Z; introsetPayload : list Z; nounce : list Z;
                 topic : option (list Z); sig : list Z }.
#[export] Instance eta_t : Eta t := fun r =>
  Mk (derivedSigningKey r) (signedAt r) (introsetPayload r) (nounce r) (topic r) (sig r).
Definition empty : t := Mk (zeros 32) 0 [] (zeros 32) None (zeros 64).

Definition BEncode (s : t) : writer :=
  bencode_start_dict
  ⩓ BEncodeWriteDictEntry (EA := key32) [c_d] (derivedSigningKey s)
  ⩓ BEncodeWriteDictEntry (EA := key32) [c_n] (nounce s)
  ⩓ BEncodeWriteDictTime [c_s] (signedAt s)
  ⩓ (bencode_write_bytestring [c_x] ⩓ bencode_write_bytestring (introsetPayload s))
  ⩓ BEncodeWriteDictEntry (EA := sig64) [c_z] (sig s)
  ⩓ bencode_end.

Definition read_payload : decode_key t := fun s _ b =>
  let* (str, b) := bencode_read_string b in
  match str with
  | None => Ok (false, s, b)
  | Some str => if (MAX_INTROSET_SIZE <? sz str)%nat then Ok (false, s, b) else Ok (true, s <| introsetPayload := mem str |>, b)
  end.
Definition DecodeKey (fuel : nat) : decode_key t := on_key [c_x] read_payload (return_read
  (maybe_entry (EA := key32) fuel [c_d] derivedSigningKey (fun x s => s <| derivedSigningKey := x |>)
   ⨾ maybe_entry (EA := key32) fuel [c_n] nounce (fun x s => s <| nounce := x |>)
   ⨾ maybe_time [c_s] (fun x s => s <| signedAt := x |>)
   ⨾ maybe_entry (EA := sig64) fuel [c_z] sig (fun x s => s <| sig := x |>))).
Definition bencodable : BEncodable t := dict_bencodable BEncode DecodeKey empty.

Definition OtherIsNewer (s other : t) : bool := signedAt s <? signedAt other.
Definition IsExpired (now : Z) (s : t) : bool := signedAt s + default_lifetime <=? now.

Section crypto.
Context {CR : Crypto} {KP : KeyPairs}.
(** [k] is the derived private key. *)
Definition Sign (k : list Z) (now : Z) (s : t) : res (bool * t) :=
  let s := s <| signedAt := now |> in
  match privkey_topublic k with
  | None => Ok (false, s)
  | Some pk =>
      let s := s <| derivedSigningKey := pk |> <| sig := zeros 64 |> in
      let* data := encode_into (MAX_INTROSET_SIZE + 128) (BEncode s) in
      match data with
      | None => Ok (false, s)
      | Some data => match privkey_sign k data with Some z => Ok (true, s <| sig := z |>) | None => Ok (false, s) end
      end
  end.
Definition Verify (now : Z) (s : t) : res bool :=
  if IsExpired now s then Ok false
  else
    let* data := encode_into (MAX_INTROSET_SIZE + 128) (BEncode (s <| sig := zeros 64 |>)) in
    match data with Some data => Ok (verify (derivedSigningKey s) data (sig s)) | None => Ok false end.
End crypto.
End EncryptedIntroSet.

(** * Round trips *)

Lemma c_str_text s : 0 ∉ s -> c_str s = s.
Proof.
  induction s as [|c s IH]; intros H; [done|]. cbn [c_str]. apply not_elem_of_cons in H as [Hc Hs].
  rewrite (proj2 (Z.eqb_neq _ _)) by done. by rewrite IH.
Qed.
Lemma c_str_zeros s n : 0 ∉ s -> c_str (s ++ zeros n) = s.
Proof.
  induction s as [|c s IH]; intros H; cbn [c_str app]; [by destruct n|]. apply not_elem_of_cons in H as [Hc Hs].
  rewrite (proj2 (Z.eqb_neq _ _)) by done. by rewrite IH.
Qed.
Lemma c_str_no_zero s : 0 ∉ c_str s.
Proof.
  induction s as [|c s IH]; cbn [c_str]; [apply not_elem_of_nil|]. destruct (Z.eqb_spec c 0); [apply not_elem_of_nil|].
  by apply not_elem_of_cons.
Qed.
Lemma length_c_str s : (length (c_str s) <= length s)%nat.
Proof. induction s as [|c s IH]; cbn [c_str length]; [lia|]. case_match; cbn [length]; lia. Qed.

(** A step of a member that is transcribed as it stands. *)
Tactic Notation "raw_step" reference(dk) := split; [done|]; intros ? ?; unfold dk; rewrite !startswith_letter; cbn [Z.eqb Pos.eqb].

Lemma in_width_u16 w x : 16 <= w -> 0 <= x < 65536 -> in_width w x.
Proof. intros Hw Hx. unfold in_width. pose proof (Z.pow_le_mono_r 2 16 w). lia. Qed.

Module AddressInfoSpec.
Import AddressInfo.
Section spec.
Context {IP : InetPton} {IN : InetNtop} {INS : InetNtopSpec IP IN}.

Definition ok (a : t) : Prop :=
  1 <= rank a < 65536 /\ 1 <= port a < 65536 /\ (0 ∉ dialect a) /\ (length (dialect a) < 128)%nat /\
  length (pubkey a) = 32%nat /\ n_wf (ip a) /\ version a = proto_version.
Definition text (a : t) : list (list Z * list Z) :=
  [([c_c], enc_int (rank a)); ([c_d], enc_str (dialect a)); ([c_e], enc_str (pubkey a));
   ([c_i], enc_str (inet_ntop6 (nval (ip a)))); ([c_p], enc_int (port a)); ([c_v], enc_int proto_version)].

Lemma writes_addr a : writes (BEncode a) (dict (text a)).
Proof.
  unfold BEncode, text. apply writes_dict.
  repeat (apply writes_dict_cons; [first [apply writes_entry_raw | apply writes_entry_u64 | apply writes_andthen; [apply writes_bytestring|apply writes_uint64]]|]).
  apply writes_dict_nil.
Qed.

Lemma decodes_addr rank0 port0 a : ok a -> decodes_all DecodeKey (text a) (empty rank0 port0) a.
Proof using INS.
  intros (Hr & Hp & Hd & Hdl & Hk & Hip & Hv). destruct a as [r d k [i] p v]. cbn in *. subst v.
  pose proof (inet_ntop6_short i) as Hs. unfold text. cbn [rank dialect pubkey ip port nval].
  assert (str_ok d /\ str_ok (inet_ntop6 i)) as [Sd Si] by (unfold str_ok; lia).
  assert (forall x, 1 <= x < 65536 -> (65536 <? x) || (x <=? 0) = false /\ in_width 64 x /\ in_width 16 x) as Hsmall.
  { intros x Hx. rewrite (proj2 (Z.ltb_ge _ _)), (proj2 (Z.leb_gt _ _)) by lia. auto using in_width_u16 with lia. }
  destruct (Hsmall r Hr) as (Hr1 & Hr2 & Hr3), (Hsmall p Hp) as (Hp1 & Hp2 & Hp3).
  cbn [decodes_all]. eexists. split.
  { raw_step DecodeKey. rewrite read_integer_reads by done. cbn [rbind]. by rewrite Hr1. }
  eexists. split.
  { raw_step DecodeKey. rewrite read_string_reads by done. cbn [rbind]. unfold sz. cbn [mem].
    by rewrite (proj2 (Nat.leb_gt _ _)), c_str_text by (done || lia). }
  eexists. split.
  { raw_step DecodeKey. change (BDecode 0) with (array_decode 32). rewrite array_reads; [done|by apply key_ok_intro; [lia|]]. }
  eexists. split.
  { raw_step DecodeKey. rewrite read_string_reads by done. cbn [rbind]. unfold sz. cbn [mem].
    rewrite (proj2 (Nat.leb_gt _ _)), c_str_text, inet_pton6_ntop6 by (done || lia || apply inet_ntop6_text). done. }
  eexists. split.
  { raw_step DecodeKey. rewrite read_integer_reads by done. cbn [rbind]. by rewrite Hp1. }
  eexists. split.
  { raw_step DecodeKey. by rewrite read_integer_reads. }
  cbn. by rewrite !wrap_id.
Qed.
End spec.
End AddressInfoSpec.

Module RouterVersionSpec.
Import RouterVersion.
Definition ok (v : t) : Prop :=
  v = emptyRouterVersion \/
  exists a b c, m_Version v = [a; b; c] /\ 0 <= a < 65536 /\ 0 <= b < 65536 /\ 0 <= c < 65536 /\ time_ok (m_ProtoVersion v).
Definition numbers (v : t) : list Z := if IsEmpty v then [] else m_ProtoVersion v :: m_Version v.
Definition text (v : t) : list Z := enc_list (enc_int <$> numbers v).

Lemma numbers_width v : ok v -> Forall (in_width 64) (numbers v).
Proof.
  unfold numbers. intros [-> | (a & b & c & E & Ha & Hb & Hc & Hp)]; [constructor|]. case_match; [constructor|].
  rewrite E. repeat apply Forall_cons_2; auto using in_width_u16, time_width with lia.
Qed.

Lemma writes_version v : ok v -> writes (BEncode v) (text v).
Proof.
  intros Hv. unfold BEncode, text. apply (writes_andthen _ _ [chr_l]); [apply writes_write|].
  apply writes_andthen; [|apply writes_write]. unfold numbers. destruct (IsEmpty v) eqn:He; cbn [negb write_if]; [apply writes_nop|].
  destruct Hv as [-> | (a & b & c & E & Ha & Hb & Hc & Hp)]; [done|].
  rewrite wrap_id by (by apply time_width). cbn [fmap list_fmap concat]. apply writes_andthen; [apply writes_uint64|].
  apply (writes_items (EA := uint64_bencodable) (ok := in_width 64)). rewrite E.
  repeat apply Forall_cons_2; auto using in_width_u16 with lia.
Qed.

(** One number. *)
Lemma sink_step v idx i pre rest :
  in_width 64 i ->
  list_sink (v, idx) true (pre ‖ enc_int i ++ rest) =
  if (idx =? 0)%nat then Ok (true, (v <| m_ProtoVersion := to_signed 64 i |>, S idx), (pre ++ enc_int i) ‖ rest)
  else if (length (m_Version v) <? idx)%nat then Ok (false, (v, idx), (pre ++ enc_int i) ‖ rest)
  else Ok (true, (v <| m_Version := <[(idx - 1)%nat := u16 i]> (m_Version v) |>, S idx), (pre ++ enc_int i) ‖ rest).
Proof. intros Hi. unfold list_sink. by rewrite read_integer_reads. Qed.

(** The state after the numbers of the list. *)
Definition step (st : t * nat) (i : Z) : t * nat :=
  let '(v, idx) := st in
  if (idx =? 0)%nat then (v <| m_ProtoVersion := to_signed 64 i |>, S idx)
  else (v <| m_Version := <[(idx - 1)%nat := u16 i]> (m_Version v) |>, S idx).

Lemma reads_version fuel v0 v pre rest :
  ok v -> (length (text v) <= fuel)%nat -> BDecode fuel v0 (pre ‖ text v ++ rest) = Ok (true, v, (pre ++ text v) ‖ rest).
Proof.
  intros Hv Hf. unfold BDecode, text in *.
  rewrite (read_list_items (EA := uint64_bencodable) step (fun '(v, idx) _ => (idx <= length (m_Version v))%nat) fuel).
  - cbn [rbind]. unfold numbers. destruct Hv as [-> | (a & b & c & E & Ha & Hb & Hc & Hp)]; [done|].
    destruct (IsEmpty v) eqn:He; [by apply bool_decide_eq_true_1 in He; subst v|]. rewrite E. destruct v as [m p].
    cbn [m_Version m_ProtoVersion] in *. subst m. cbn. rewrite !wrap_id, to_signed_time by auto using in_width_u16 with lia. done.
  - intros [v' idx] i pre' rest' Hi _ Hg. rewrite sink_step by done. unfold step. case_match; [done|].
    by rewrite (proj2 (Nat.ltb_ge _ _)).
  - by intros [] ?.
  - by apply numbers_width.
  - unfold numbers. destruct Hv as [-> | (a & b & c & E & _)]; [done|]. case_match; [done|]. rewrite E. cbn. lia.
  - done.
  - done.
Qed.
End RouterVersionSpec.

Module RouterContactSpec.
Import RouterContact.
(** A C string in an array of [n] bytes. *)
Definition padded (n : nat) (l : list Z) : Prop := l = c_str l ++ zeros (n - length (c_str l)) /\ (length (c_str l) <= n)%nat.

Section spec.
Context {IP : InetPton} {IN : InetNtop} {INS : InetNtopSpec IP IN} {BT : OxencBt} (rank0 port0 : Z).
Abbreviation BEncode := (BEncode rank0 port0).
Abbreviation DecodeKey := (DecodeKey rank0 port0).

Definition ok (rc : t) : Prop :=
  Forall AddressInfoSpec.ok (addrs rc) /\ padded 8 (netID rc) /\ length (enckey rc) = 32%nat /\ length (pubkey rc) = 32%nat /\
  length (signature rc) = 64%nat /\ padded NICKLEN (nickname rc) /\ time_ok (last_updated rc) /\ version rc = 0 /\
  (forall v, routerVersion rc = Some v -> RouterVersionSpec.ok v) /\ srvRecords rc = [].
Definition addr_text (a : AddressInfo.t) : list Z := dict (AddressInfoSpec.text a).
Definition text (rc : t) : list (list Z * list Z) :=
  [([c_a], enc_list (addr_text <$> addrs rc)); ([c_i], enc_str (c_str (netID rc))); ([c_k], enc_str (pubkey rc))]
  ++ (if negb (length (Nick rc) =? 0)%nat then [([c_n], enc_str (Nick rc))] else [])
  ++ [([c_p], enc_str (enckey rc))]
  ++ match routerVersion rc with Some v => [([c_r], RouterVersionSpec.text v)] | None => [] end
  ++ [([c_u], enc_int (last_updated rc)); ([c_v], enc_int (version rc)); ([c_x], enc_list [])]
  ++ [([c_z], enc_str (signature rc))].

#[local] Instance addr_spec : @BEncodableSpec _ (addr_bencodable rank0 port0) addr_text AddressInfoSpec.ok.
Proof using INS.
  apply dict_bencodable_spec; [intros; apply AddressInfoSpec.writes_addr|]. intros. by apply AddressInfoSpec.decodes_addr.
Qed.

Lemma writes_rc rc : ok rc -> writes (BEncodeSignedSection rank0 port0 rc) (dict (text rc)).
Proof using INS.
  intros (Ha & Hn & He & Hk & Hz & Hnick & Ht & Hv & Hrv & Hs). unfold BEncodeSignedSection, text. apply writes_dict. rewrite Hv.
  change (0 <? 0) with false. change (0 =? 0) with true. cbn [write_if app].
  apply writes_dict_cons; [apply writes_andthen; [apply writes_bytestring|]; by apply (writes_list (EA := addr_bencodable rank0 port0))|].
  apply writes_dict_cons; [apply writes_entry_raw|]. apply writes_dict_cons; [apply writes_entry_raw|].
  apply writes_dict_if; [intros _; apply writes_entry_raw|]. apply writes_dict_cons; [apply writes_entry_raw|].
  apply writes_dict_opt; [intros v Ev; apply writes_andthen; [apply writes_bytestring|]; by apply RouterVersionSpec.writes_version, Hrv|].
  apply writes_dict_nop. rewrite wrap_id by (by apply time_width).
  apply writes_dict_cons; [apply writes_andthen; [apply writes_bytestring|apply writes_uint64]|].
  apply writes_dict_cons; [apply writes_entry_u64|].
  apply writes_dict_cons; [apply writes_andthen; [apply writes_bytestring|]; by apply (writes_list (EA := key32))|].
  apply writes_dict_cons; [apply writes_entry_raw|]. apply writes_dict_nil.
Qed.

Lemma padded_read n l : padded n l -> c_str l ++ zeros (n - length (c_str l)) = l.
Proof. by intros [<- _]. Qed.

#[local] Instance netid_spec : @BEncodableSpec (list Z) NetID.bencodable (fun n => enc_str (c_str n)) (padded 8).
Proof.
  split.
  - intros s _. destruct (enc_str_head (c_str s)) as (c & r & -> & Hc). eexists _, _. split; [done|]. by apply digit_not.
  - intros s _. apply writes_bytestring.
  - intros fuel s [Hs Hl] _ pre rest. change (Bencode.BDecode fuel) with (NetID.BDecode fuel). unfold NetID.BDecode.
    rewrite read_string_reads by (unfold str_ok; lia). cbn [rbind]. unfold sz. cbn [mem].
    rewrite (proj2 (Nat.ltb_ge _ _)) by (unfold NetID.SIZE; lia). unfold NetID.SIZE. by rewrite <- Hs.
Qed.

Lemma first_decodes fuel c v m m' :
  takes (first_keys rank0 port0 fuel) c v m m' -> c ∈ [c_a; c_i; c_k] -> decodes (DecodeKey fuel) [c] v m m'.
Proof.
  intros Ht Hc. assert (skips (middle_keys fuel) c /\ skips (last_key fuel) c) as [Hm Hl].
  { rewrite !elem_of_cons, elem_of_nil in Hc. destruct Hc as [-> | [-> | [-> | []]]]; split; solve_skips. }
  split; [done|]. intros pre rest. unfold RouterContact.DecodeKey. rewrite Ht. cbn [rbind negb]. rewrite Hm. cbn [rbind negb].
  rewrite Hl. cbn [rbind negb]. rewrite !startswith_letter.
  rewrite !elem_of_cons, elem_of_nil in Hc. by destruct Hc as [-> | [-> | [-> | []]]].
Qed.

Lemma middle_decodes fuel c v m m' :
  takes (middle_keys fuel) c v m m' -> c ∈ [c_p; c_u; c_v] -> decodes (DecodeKey fuel) [c] v m m'.
Proof.
  intros Ht Hc. assert (skips (first_keys rank0 port0 fuel) c /\ skips (last_key fuel) c) as [Hm Hl].
  { rewrite !elem_of_cons, elem_of_nil in Hc. destruct Hc as [-> | [-> | [-> | []]]]; split; solve_skips. }
  split; [done|]. intros pre rest. unfold RouterContact.DecodeKey. rewrite Hm. cbn [rbind negb]. rewrite Ht. cbn [rbind negb].
  rewrite Hl. cbn [rbind negb]. rewrite !startswith_letter.
  rewrite !elem_of_cons, elem_of_nil in Hc. by destruct Hc as [-> | [-> | [-> | []]]].
Qed.
Lemma last_decodes fuel v m m' : takes (last_key fuel) c_z v m m' -> decodes (DecodeKey fuel) [c_z] v m m'.
Proof.
  intros Ht. assert (skips (first_keys rank0 port0 fuel) c_z /\ skips (middle_keys fuel) c_z) as [Hf Hm] by (split; solve_skips).
  split; [done|]. intros pre rest. unfold RouterContact.DecodeKey. rewrite Hf. cbn [rbind negb]. rewrite Hm. cbn [rbind negb].
  rewrite Ht. cbn [rbind negb]. by rewrite !startswith_letter.
Qed.
Lemma nick_decodes fuel nick m :
  (length nick <= NICKLEN)%nat ->
  decodes (DecodeKey fuel) [c_n] (enc_str nick) m (m <| nickname := nick ++ zeros (NICKLEN - length nick) |>).
Proof.
  intros Hl. assert (skips (first_keys rank0 port0 fuel) c_n) as Hf by solve_skips. split; [done|]. intros pre rest.
  unfold RouterContact.DecodeKey. rewrite Hf. cbn [rbind negb]. rewrite !startswith_letter. cbn [Z.eqb Pos.eqb].
  rewrite read_string_reads by (unfold str_ok, NICKLEN in *; lia). cbn [rbind]. unfold sz. cbn [mem].
  by rewrite (proj2 (Nat.ltb_ge _ _)).
Qed.
Lemma version_decodes fuel v m :
  RouterVersionSpec.ok v -> (length (RouterVersionSpec.text v) <= fuel)%nat ->
  decodes (DecodeKey fuel) [c_r] (RouterVersionSpec.text v) m (m <| routerVersion := Some v |>).
Proof.
  intros Hv Hl. assert (skips (first_keys rank0 port0 fuel) c_r) as Hf by solve_skips. split; [done|]. intros pre rest.
  unfold RouterContact.DecodeKey. rewrite Hf. cbn [rbind negb]. rewrite !startswith_letter. cbn [Z.eqb Pos.eqb].
  by rewrite RouterVersionSpec.reads_version.
Qed.
Lemma exits_decodes fuel m : (2 <= fuel)%nat -> decodes (DecodeKey fuel) [c_x] (enc_list []) m m.
Proof.
  intros Hl. assert (skips (first_keys rank0 port0 fuel) c_x /\ skips (middle_keys fuel) c_x) as [Hf Hm] by (split; solve_skips).
  split; [done|]. intros pre rest. unfold RouterContact.DecodeKey. rewrite Hf. cbn [rbind negb]. rewrite Hm. cbn [rbind negb].
  rewrite !startswith_letter. cbn [Z.eqb Pos.eqb].
  by rewrite (proj1 discard_skips_mut (enc_list [])) by (done || apply (bencoded_list []); constructor).
Qed.

(** A contact is read back as it was, but for the copy of the signed text, which is not sent and stays as it was. *)
Lemma decodes_rc fuel rc0 rc :
  ok rc -> (length (dict (text rc)) <= fuel)%nat ->
  decodes_all (DecodeKey fuel) (text rc) (Clear rc0) (rc <| signed_bt_dict := signed_bt_dict rc0 |>).
Proof using INS.
  intros (Ha & Hn & He & Hk & Hz & Hnick & Ht & Hv & Hrv & Hs) Hf.
  pose proof (fun k v => entry_length k v (text rc) fuel Hf) as Hlen. clear Hf.
  destruct rc as [ad ni ek pk sg nk lu ve rv sd sr]. unfold text, Nick in *.
  cbn [addrs netID enckey pubkey signature nickname last_updated version routerVersion srvRecords] in *. subst ve sr.
  set (m0 := Clear rc0). destruct Hnick as [Hnk Hnl].
  pose (m1 := m0 <| addrs := ad |> <| netID := ni |> <| pubkey := pk |>).
  pose (m2 := m1 <| nickname := nk |> <| enckey := ek |>). pose (m3 := m2 <| routerVersion := rv |>).
  apply decodes_all_app. exists m1. split; [|apply decodes_all_app; exists (m1 <| nickname := nk |>); split;
    [|apply decodes_all_app; exists m2; split; [|apply decodes_all_app; exists m3; split]]].
  - eexists. split; [apply first_decodes; [solve_takes; [done|eapply Hlen; in_entries]|set_solver]|].
    eexists. split; [apply first_decodes; [|set_solver]|].
    { apply both_takes_r; [solve_skips|apply both_takes_l; [|solve_skips]].
      apply (maybe_entry_takes (EA := NetID.bencodable) (benc := fun n => enc_str (c_str n))); [done|eapply Hlen; in_entries]. }
    eexists. split; [apply first_decodes; [solve_takes; [by apply key_ok_intro; [lia|]|eapply Hlen; in_entries]|set_solver]|]. done.
  - destruct (Nat.eqb_spec (length (c_str nk)) 0) as [E0|]; cbn [negb].
    { apply length_zero_iff_nil in E0. rewrite E0 in Hnk. cbn in Hnk. cbn [decodes_all]. rewrite Hnk. done. }
    eexists. split; [apply nick_decodes; lia|]. cbn [decodes_all]. by rewrite padded_read.
  - eexists. split; [apply middle_decodes; [solve_takes; [by apply key_ok_intro; [lia|]|eapply Hlen; in_entries]|set_solver]|]. done.
  - destruct rv as [v|]; [|done]. eexists. split; [apply version_decodes; [by apply Hrv|eapply Hlen; in_entries]|]. done.
  - apply decodes_all_app. exists (m3 <| last_updated := lu |>). split.
    + eexists. split; [apply middle_decodes; [solve_takes; done|set_solver]|].
      eexists. split; [apply middle_decodes; [solve_takes; done|set_solver]|].
      eexists. split; [apply exits_decodes; change 2%nat with (length (enc_list [])); eapply Hlen; in_entries|]. done.
    + eexists. split; [apply last_decodes; solve_takes; [by apply key_ok_intro; [lia|]|eapply Hlen; in_entries]|]. done.
Qed.

Lemma writes_contact rc : ok rc -> writes (BEncode rc) (dict (text rc)).
Proof using INS.
  intros Hok. pose proof Hok as (_ & _ & _ & _ & _ & _ & _ & Hv & _). unfold RouterContact.BEncode. rewrite Hv. by apply writes_rc.
Qed.

Lemma reads_contact fuel rc0 rc pre rest :
  ok rc -> (length (dict (text rc)) <= fuel)%nat ->
  BDecode rank0 port0 fuel rc0 (pre ‖ dict (text rc) ++ rest)
  = Ok (true, rc <| signed_bt_dict := signed_bt_dict rc0 |>, (pre ++ dict (text rc)) ‖ rest).
Proof using INS.
  intros Hok Hf. unfold BDecode. unfold dict at 1. cbn [app]. rewrite deref_cons, rbind_ok, Z.eqb_refl.
  unfold DecodeVersion_0. by apply decode_dict_reads; [apply decodes_rc|].
Qed.

Context {CR : Crypto} {KP : KeyPairs} {KS : KeyPairsSpec CR KP} {OS : OxencSwap}.

(** Signing succeeds when the contact fits its buffer, and the signature is over the text with a zero signature. *)
#[export] Instance contact_spec ours :
  @BEncodableSpec t (bencodable rank0 port0 ours) (fun rc => dict (text rc)) (fun rc => ok rc /\ signed_bt_dict rc = []).
Proof using INS.
  split.
  - intros rc _. unfold dict. eexists _, _. split; [reflexivity|done].
  - intros rc [Hok _]. by apply writes_contact.
  - intros fuel rc [Hok Hs] Hf pre rest. cbn [Bencode.BDecode bencodable]. rewrite reads_contact by done. cbn [rbind]. by destruct rc; cbn in *; subst.
Qed.

Lemma Sign_run seed now rc :
  let sk := identity_keygen seed in
  let rc0 := rc <| pubkey := seckey_topublic sk |> <| signature := zeros 64 |> <| last_updated := now |> in
  length seed = 32%nat -> ok rc0 -> (length (dict (text rc0)) < MAX_RC_SIZE)%nat ->
  exists z, crypto_sign sk (dict (text rc0)) = Some z /\ length z = SIGSIZE /\ verify (seckey_topublic sk) (dict (text rc0)) z = true /\
    Sign rank0 port0 sk now rc = Ok (true, rc0 <| signed_bt_dict := dict (text rc0) |> <| signature := z |>).
Proof using INS KS.
  intros sk rc0 Hseed Hok Hl. destruct (crypto_sign_spec seed (dict (text rc0)) Hseed) as (z & Ez & Lz & Hz). exists z. split_and!; [done..|].
  unfold Sign. fold rc0. rewrite (encode_into_writes _ _ _ (writes_rc rc0 Hok) Hl). cbn [rbind].
  pose proof Hok as (_ & _ & _ & _ & _ & _ & _ & Hv & _). change (version (rc0 <| signed_bt_dict := _ |>)) with (version rc0).
  rewrite Hv. cbn [Z.eqb orb]. fold sk in Ez. by rewrite Ez.
Qed.

(** C18. A contact that its router signs and publishes is read back by every peer of its network as it is, and verifies
    there by the check that lets expired contacts pass. *)
Theorem contact_published seed now rc ours block now' fuel pre rest :
  let sk := identity_keygen seed in
  let rc0 := rc <| pubkey := seckey_topublic sk |> <| signature := zeros 64 |> <| last_updated := now |> in
  length seed = 32%nat -> ok rc0 -> (length (dict (text rc0)) < MAX_RC_SIZE)%nat -> (MAX_RC_SIZE <= fuel)%nat -> NetID.eqb (netID rc) ours = true ->
  Forall (fun a => IsBogonIP_v6 (AddressInfo.ip a) = false) (addrs rc) ->
  exists rc1 rc2, Sign rank0 port0 sk now rc = Ok (true, rc1) /\ pubkey rc1 = seckey_topublic sk /\ last_updated rc1 = now /\
    writes (BEncode rc1) (dict (text rc1)) /\
    BDecode rank0 port0 fuel (default ours) (pre ‖ dict (text rc1) ++ rest) = Ok (true, rc2, (pre ++ dict (text rc1)) ‖ rest) /\
    rc2 = rc1 <| signed_bt_dict := [] |> /\ Verify rank0 port0 ours block now' true rc2 = Ok true.
Proof using INS KS.
  intros sk rc0 Hseed Hok Hl Hfuel Hnet Hbog. destruct (Sign_run seed now rc) as (z & Ez & Lz & Hz & ES); [done..|]. fold sk in Ez, Hz, ES. fold rc0 in Ez, Hz, ES.
  set (rc1 := _ <| signature := z |>) in ES. assert (ok rc1) as Hok1.
  { unfold ok in Hok |- *. cbn in Hok |- *. naive_solver. }
  assert (length (dict (text rc1)) = length (dict (text rc0))) as El.
  { unfold dict, entries, text. cbn [length]. rewrite !length_app. f_equal. f_equal. rewrite !fmap_app, !concat_app, !length_app.
    cbn. rewrite !length_app. unfold enc_str. rewrite !length_app. cbn [length]. by rewrite Lz. }
  exists rc1, (rc1 <| signed_bt_dict := [] |>). split_and!; [done..|by apply writes_contact|apply reads_contact; [done|lia]|done|].
  unfold Verify. change (netID (rc1 <| signed_bt_dict := [] |>)) with (netID rc). rewrite Hnet. cbn [negb]. rewrite andb_false_r.
  change (addrs (rc1 <| signed_bt_dict := [] |>)) with (addrs rc).
  assert (existsb (fun a => IsBogonIP_v6 (AddressInfo.ip a) && block) (addrs rc) = false) as ->.
  { apply not_true_is_false. rewrite existsb_exists. intros (a & Ha & Hb). rewrite Forall_forall in Hbog.
    apply list_elem_of_In in Ha. rewrite (Hbog a Ha) in Hb. done. }
  assert (version rc = 0) as Hv by (pose proof Hok as (_ & _ & _ & _ & _ & _ & _ & Hv & _); done).
  unfold VerifySignature. change (version (rc1 <| signed_bt_dict := [] |>)) with (version rc). rewrite Hv. cbn [Z.eqb].
  change (rc1 <| signed_bt_dict := [] |> <| signature := zeros 64 |>) with (rc0 <| signed_bt_dict := [] |>).
  assert (ok (rc0 <| signed_bt_dict := [] |>)) as Hok0 by (clear -Hok; unfold ok in *; exact Hok).
  assert (text (rc0 <| signed_bt_dict := [] |>) = text rc0) as Et by done.
  erewrite encode_into_writes; [|apply writes_contact, Hok0|rewrite Et; exact Hl]. cbn [rbind]. rewrite Et. change (Ok (verify (seckey_topublic sk) (dict (text rc0)) z) = Ok true). by rewrite Hz.
Qed.
End spec.
End RouterContactSpec.

Module IntroductionSpec.
Import Introduction.
Definition ok (i : t) : Prop :=
  length (router i) = 32%nat /\ length (pathID i) = 16%nat /\ time_ok (latency i) /\ time_ok (expiresAt i) /\ in_width 64 (version i).
Definition text (i : t) : list (list Z * list Z) :=
  [([c_k], enc_str (router i))] ++ (if 0 <? latency i then [([c_l], enc_int (latency i))] else [])
  ++ [([c_p], enc_str (pathID i)); ([c_v], enc_int (version i)); ([c_x], enc_int (expiresAt i))].

Lemma writes_intro i : ok i -> writes (BEncode i) (dict (text i)).
Proof.
  intros (Hr & Hp & Hl & Hx & Hv). unfold BEncode, text. cbn [app].
  apply writes_dict. apply writes_dict_cons; [apply writes_entry, key_ok_intro; [lia|done]|].
  apply writes_dict_if; [intros _; by apply writes_entry_time|].
  repeat (apply writes_dict_cons; [first [apply writes_entry_int | by apply writes_entry_time | apply writes_entry, key_ok_intro; [lia|done]]|]).
  apply writes_dict_nil.
Qed.
Lemma decodes_intro fuel i :
  ok i -> (length (dict (text i)) <= fuel)%nat -> decodes_all (DecodeKey fuel) (text i) empty i.
Proof.
  intros (Hr & Hp & Hl & Hx & Hv) Hf. pose proof (fun k v => entry_length k v (text i) fuel Hf) as Hlen. clear Hf.
  destruct i as [r p l x v]. unfold text in *. cbn [router pathID latency expiresAt version] in *.
  apply decodes_all_app. eexists. split; [decode_entry Hlen; done|].
  apply decodes_all_app. exists (empty <| router := r |> <| latency := l |>). split.
  { destruct (Z.ltb_spec 0 l); [decode_entry Hlen; done|]. cbn. unfold time_ok in Hl. by replace l with 0 by lia. }
  do 3 decode_entry Hlen. done.
Qed.
#[export] Instance introduction_spec : @BEncodableSpec t bencodable (fun i => dict (text i)) ok.
Proof. apply dict_bencodable_spec; [apply writes_intro|apply decodes_intro]. Qed.
End IntroductionSpec.

Module EncryptedIntroSetSpec.
Import EncryptedIntroSet.
Definition ok (s : t) : Prop :=
  length (derivedSigningKey s) = 32%nat /\ length (nounce s) = 32%nat /\ time_ok (signedAt s)
  /\ (length (introsetPayload s) <= MAX_INTROSET_SIZE)%nat /\ length (sig s) = 64%nat /\ topic s = None.
Definition text (s : t) : list (list Z * list Z) :=
  [([c_d], enc_str (derivedSigningKey s)); ([c_n], enc_str (nounce s)); ([c_s], enc_int (signedAt s));
   ([c_x], enc_str (introsetPayload s)); ([c_z], enc_str (sig s))].

Lemma writes_introset s : ok s -> writes (BEncode s) (dict (text s)).
Proof.
  intros (Hd & Hn & Ht & Hx & Hz & Hp). unfold BEncode, text. apply writes_dict.
  repeat (apply writes_dict_cons; [first [apply writes_entry_raw | by apply writes_entry_time | apply writes_entry, key_ok_intro; [lia|done]]|]).
  apply writes_dict_nil.
Qed.
Lemma decodes_introset fuel s :
  ok s -> (length (dict (text s)) <= fuel)%nat -> decodes_all (DecodeKey fuel) (text s) empty s.
Proof.
  intros (Hd & Hn & Ht & Hx & Hz & Hp) Hf. pose proof (fun k v => entry_length k v (text s) fuel Hf) as Hlen. clear Hf.
  destruct s as [d at_ x n t z]. unfold text in *. cbn [derivedSigningKey nounce signedAt introsetPayload sig topic] in *. subst t.
  do 3 decode_entry Hlen. eexists. split.
  { apply on_key_decodes_l; [reflexivity|]. split; [done|]. intros pre rest. unfold read_payload.
    rewrite read_string_reads by (unfold str_ok, MAX_INTROSET_SIZE in *; lia). cbn [rbind]. unfold sz. cbn [mem].
    rewrite (proj2 (Nat.ltb_ge _ _)) by done. reflexivity. }
  decode_entry Hlen. done.
Qed.
#[export] Instance introset_spec : @BEncodableSpec t bencodable (fun i => dict (text i)) ok.
Proof. apply dict_bencodable_spec; [apply writes_introset|apply decodes_introset]. Qed.

(** The length of the text: the payload and at most 180 bytes around it, at least 162 when the payload has 1000 bytes or more. *)
Lemma length_text s :
  ok s -> (length (dict (text s)) <= length (introsetPayload s) + 180)%nat.
Proof.
  intros (Hd & Hn & Ht & Hx & Hz & Hp). unfold dict, entries, text, enc_int, enc_str.
  cbn [fmap list_fmap concat length fst snd app]. rewrite Hd, Hn, Hz. repeat (rewrite length_app || cbn [length app]). rewrite Hd, Hn, Hz.
  pose proof (length_print_dec (signedAt s) 19) as L1. pose proof (length_print_dec (Z.of_nat (length (introsetPayload s))) 4) as L2.
  unfold time_ok, MAX_INTROSET_SIZE in *. change (length (print_dec (Z.of_nat 32))) with 2%nat. change (length (print_dec (Z.of_nat 64))) with 2%nat.
  change (length (print_dec (Z.of_nat 1))) with 1%nat. lia.
Qed.

Section sign.
Context {CR : Crypto} {KP : KeyPairs} {KS : KeyPairsSpec CR KP}.
(** What is signed: the set with the time and the key, and zeros for the signature. *)
Definition to_sign (pk : list Z) (now : Z) (s : t) : t := s <| signedAt := now |> <| derivedSigningKey := pk |> <| sig := zeros 64 |>.
(** A service that signs its set of introductions publishes a text that everyone reads back as it
    is, and that verifies until the set expires: for payloads of at most 4043 bytes. *)
Lemma introset_published k pk now now' s fuel pre rest :
  private_key k -> signable k (dict (text (to_sign pk now s))) -> privkey_topublic k = Some pk -> time_ok now -> length (nounce s) = 32%nat -> topic s = None -> (length (introsetPayload s) <= 4043)%nat ->
  (MAX_INTROSET_SIZE + 128 <= fuel)%nat -> now' < now + default_lifetime ->
  exists s', Sign k now s = Ok (true, s') /\ derivedSigningKey s' = pk /\ introsetPayload s' = introsetPayload s /\ nounce s' = nounce s /\
    writes (BEncode s') (dict (text s')) /\
    Bencode.BDecode (BEncodable := bencodable) fuel (pre ‖ dict (text s') ++ rest) = Ok (Some s', (pre ++ dict (text s')) ‖ rest) /\
    Verify now' s' = Ok true.
Proof using KS.
  intros Hpk Hg Hk Hnow Hn Hp Hl Hfuel Hexp. set (s0 := to_sign pk now s) in *.
  assert (ok s0) as Hok.
  { unfold ok. cbn. rewrite (length_privkey_topublic k pk Hk). unfold MAX_INTROSET_SIZE. split_and!; try done; lia. }
  assert (length (dict (text s0)) < MAX_INTROSET_SIZE + 128)%nat as Hs0.
  { pose proof (length_text s0 Hok) as H. change (introsetPayload s0) with (introsetPayload s) in H. unfold MAX_INTROSET_SIZE. lia. }
  destruct (privkey_sign_spec k pk (dict (text s0)) Hpk Hg Hk) as (z & Ez & Lz & Hz). exists (s0 <| sig := z |>).
  assert (ok (s0 <| sig := z |>)) as Hok1 by (destruct Hok as (? & ? & ? & ? & _ & ?); exact (conj H (conj H0 (conj H1 (conj H2 (conj Lz H3)))))).
  pose proof (length_text _ Hok1) as Hl1. change (introsetPayload (s0 <| sig := z |>)) with (introsetPayload s) in Hl1.
  unfold MAX_INTROSET_SIZE in Hfuel.
  split_and!; [|done..|by apply writes_introset|apply (BDecode_reads (EA := bencodable) (benc := fun s => dict (text s)) fuel); [done|lia]|].
  - unfold Sign. rewrite Hk. fold (to_sign pk now s). fold s0. rewrite (encode_into_writes _ _ _ (writes_introset s0 Hok) Hs0). cbn [rbind]. by rewrite Ez.
  - unfold Verify. assert (IsExpired now' (s0 <| sig := z |>) = false) as ->.
    { unfold IsExpired. apply Z.leb_gt. done. }
    change (s0 <| sig := z |> <| sig := zeros 64 |>) with s0.
    rewrite (encode_into_writes _ _ _ (writes_introset s0 Hok) Hs0). cbn [rbind].
    change (Ok (verify pk (dict (text s0)) z) = Ok true). by rewrite Hz.
Qed.

(** What the text needs at least. *)
Lemma grows_introset s :
  length (derivedSigningKey s) = 32%nat -> length (nounce s) = 32%nat -> length (sig s) = 64%nat ->
  grows (BEncode s) (length (introsetPayload s) + 159).
Proof.
  intros Hd Hn Hz.
  assert (grows (BEncode s) (1 + ((3 + 35) + ((3 + 35) + ((3 + 3) + ((3 + (length (introsetPayload s) + 2)) + ((3 + 67) + 1))))))%nat) as H.
  2:{ intros b b' E. specialize (H b b' E). lia. }
  assert (forall k, grows (bencode_write_bytestring [k]) 3) as Hk by (intros k; apply (grows_bytestring [k])).
  assert (forall (x : list Z) m, m = length (enc_str x) -> grows (bencode_write_bytestring x) m) as Hx
    by (intros x ? ->; apply grows_bytestring).
  unfold BEncode, BEncodeWriteDictEntry, BEncodeWriteDictTime, BEncodeWriteDictInt. cbn [Bencode.BEncode array_bencodable].
  repeat lazymatch goal with |- grows (andthen _ _) _ => apply grows_andthen end;
    lazymatch goal with |- grows bencode_start_dict _ => apply grows_write | |- grows bencode_end _ => apply grows_write
    | |- grows (bencode_write_bytestring (take _ _)) _ => apply Hk | |- grows (bencode_write_bytestring [_]) _ => apply Hk | _ => idtac end.
  1-2,5: apply Hx; unfold enc_str; rewrite length_app, ?Hd, ?Hn, ?Hz; cbn; by rewrite ?Hd, ?Hn, ?Hz.
  - intros b b' E. apply grows_uint64 in E. unfold enc_int in E. cbn [length] in E. rewrite length_app in E. cbn [length] in E.
    pose proof (print_dec_nonempty (wrap 64 (signedAt s)) ltac:(apply wrap_bound; lia)). lia.
  - intros b b' E. apply grows_bytestring in E. unfold enc_str in E. rewrite length_app in E. cbn [length] in E.
    pose proof (print_dec_nonempty (Z.of_nat (length (introsetPayload s))) ltac:(lia)). lia.
Qed.
Lemma safe_introset s : safe_writer (BEncode s).
Proof. unfold BEncode. solve_safe. Qed.
Lemma Verify_total now s : exists ok, Verify now s = Ok ok.
Proof.
  unfold Verify. case_match; [by eexists|]. destruct (encode_into_total (MAX_INTROSET_SIZE + 128) _ (safe_introset (s <| sig := zeros 64 |>))) as [[data|] ->]; by eexists.
Qed.

(** A payload near the limit that the reader accepts does not fit the buffer of the signature: a set
    whose payload has from 4066 to 4096 bytes is read from the wire, but is never signed and never verifies. *)
Theorem introset_large_unverifiable k now s fuel pre rest :
  ok s -> (4066 <= length (introsetPayload s))%nat -> (length (dict (text s)) <= fuel)%nat ->
  Bencode.BDecode (BEncodable := bencodable) fuel (pre ‖ dict (text s) ++ rest) = Ok (Some s, (pre ++ dict (text s)) ‖ rest) /\
  (exists s', Sign k now s = Ok (false, s')) /\ Verify now s = Ok false.
Proof using KS.
  intros Hok Hl Hf. pose proof Hok as (Hd & Hn & Ht & Hx & Hz & Hp).
  assert (forall s', length (derivedSigningKey s') = 32%nat -> nounce s' = nounce s -> length (sig s') = 64%nat ->
    introsetPayload s' = introsetPayload s -> encode_into (MAX_INTROSET_SIZE + 128) (BEncode s') = Ok None) as H.
  { intros s' H1 H2 H3 H4. apply (encode_into_no_room _ _ _ (safe_introset s') (grows_introset s' H1 (eq_trans (f_equal _ H2) Hn) H3)).
    rewrite H4. unfold MAX_INTROSET_SIZE. lia. }
  split; [by apply (BDecode_reads (EA := bencodable) (benc := fun s => dict (text s)) fuel)|]. split.
  - unfold Sign. destruct (privkey_topublic k) as [pk|] eqn:Hk; [|by eexists]. eexists. rewrite H; [done|by apply (length_privkey_topublic k)|done..].
  - unfold Verify. case_match; [done|]. by rewrite H.
Qed.
End sign.
Lemma introset_large_unverifiable_witness :
  exists s', Verify (CR := crypto_xor) 0 s' = Ok false.
Proof.
  exists (Mk (zeros 32) 0 (zeros 4070) (zeros 32) None (zeros 64)).
  apply (introset_large_unverifiable (CR := crypto_xor) (KP := keypairs_xor) (zeros 64) 0 _ 4300 [] []).
  - unfold ok. split_and!; try done. apply Nat.leb_le. vm_compute. reflexivity.
  - apply Nat.leb_le. vm_compute. reflexivity.
  - apply Nat.leb_le. vm_compute. reflexivity.
Defined.
End EncryptedIntroSetSpec.

(** An [inet_ntop] for the witnesses: the address as a decimal number. *)
Definition ntop_dec : InetNtop := {| inet_ntop6 v := print_dec (u128_val v mod 2 ^ 128) |}.
Definition pton_dec : InetPton := {|
  inet_pton4 _ := None;
  inet_pton6 s := let n := parse_digits 0 s in Some (U128 (n / 2 ^ 64) (n mod 2 ^ 64));
|}.
#[export] Instance ntop_dec_spec : InetNtopSpec pton_dec ntop_dec.
Proof.
  split; intros v; cbn [inet_ntop6 inet_pton6 ntop_dec pton_dec];
    pose proof (Z.mod_pos_bound (u128_val v) (2 ^ 128) eq_refl) as Hm.
  - split; [apply print_dec_nonempty; lia|]. pose proof (length_print_dec (u128_val v mod 2 ^ 128) 39). lia.
  - apply print_dec_no; [lia|done].
  - intros Hv. rewrite parse_print_dec by lia. rewrite Z.mod_small by apply (u128_bound v Hv).
    destruct v as [u l], Hv as [Hu Hl]. unfold u128_val, in_width in *. cbn [upper lower] in *.
    f_equal. f_equal; [rewrite Z.div_add_l by lia; rewrite Z.div_small; lia|].
    by rewrite Z.add_comm, Z.mod_add, Z.mod_small by lia.
Qed.

Definition bt_none : OxencBt := {|
  bt_serialize_srv _ := []; bt_deserialize_srv _ := None; bt_list_consumer _ := None;
  consume_integer _ := None; consume_string_view _ := None; consume_dict_data _ := None; is_finished _ := true;
|}.
Definition contact_ref : RouterContact.t :=
  RouterContact.Mk [AddressInfo.Mk 1 [105; 119; 112] (replicate 32 5) (NUInt (U128 0x20010db800000000 1)) 1090 0]
    (NetID.of_bytes [108; 111]) (replicate 32 9) (zeros 32) (zeros 64) (zeros 32) 0 0 (Some (RouterVersion.Mk [0; 9; 11] 0)) [] [].
#[local] Existing Instance RouterContact.eta_t.
Lemma contact_ref_ok k z t : length k = 32%nat -> length z = 64%nat -> time_ok t ->
  RouterContactSpec.ok (contact_ref <| RouterContact.pubkey := k |> <| RouterContact.signature := z |> <| RouterContact.last_updated := t |>).
Proof.
  intros Hk Hz Ht.
  unfold RouterContactSpec.ok. split_and!; try done.
  - apply Forall_cons. split; [|done]. unfold AddressInfoSpec.ok. cbn. split_and!; try done; try lia. set_solver by lia.
  - split; [done|cbn; lia].
  - split; [done|cbn; unfold RouterContact.NICKLEN; lia].
  - intros v [= <-]. right. exists 0, 9, 11. unfold time_ok. cbn. split_and!; try done; lia.
Qed.
Lemma contact_published_witness :
  exists rc1 rc2, RouterContact.Sign (IP := pton_dec) (IN := ntop_dec) (BT := bt_none) (KP := keypairs_xor) 0 0 (replicate 64 3) 1000 contact_ref = Ok (true, rc1)
    /\ RouterContact.Verify (OS := oxenc_swap_ref) (IP := pton_dec) (IN := ntop_dec) (BT := bt_none) (CR := crypto_xor) 0 0 (NetID.of_bytes [108; 111]) true 2000 true rc2 = Ok true.
Proof.
  destruct (RouterContactSpec.contact_published (IP := pton_dec) (IN := ntop_dec) (BT := bt_none) (CR := crypto_xor) (KP := keypairs_xor) (OS := oxenc_swap_ref)
    0 0 (replicate 32 3) 1000 contact_ref (NetID.of_bytes [108; 111]) true 2000 1024 [] []) as (rc1 & rc2 & H).
  - done.
  - by apply contact_ref_ok.
  - apply Nat.ltb_lt. vm_compute. reflexivity.
  - done.
  - done.
  - apply Forall_cons. split; [|done]. vm_compute. reflexivity.
  - exists rc1, rc2. destruct H as (H1 & _ & _ & _ & _ & _ & H2). exact (conj H1 H2).
Defined.

(** * Writing a contact never leaves the buffer, and verification always ends *)
Module ContactSafe.
Import RouterContact.
Section safe.
Context {IP : InetPton} {IN : InetNtop} {BT : OxencBt} {CR : Crypto} {OS : OxencSwap} (rank0 port0 : Z).
Lemma safe_contact rc : safe_writer (RouterContact.BEncode rank0 port0 rc).
Proof.
  unfold RouterContact.BEncode. repeat case_match.
  - unfold RouterContact.BEncodeSignedSection, NetID.BEncode. solve_safe.
    + unfold Bencode.BEncode, RouterContact.addr_bencodable, dict_bencodable, AddressInfo.BEncode. solve_safe.
    + unfold Bencode.BEncode, RouterVersion.bencodable, RouterVersion.BEncode. solve_safe.
    + unfold Bencode.BEncode, srv_bencodable, SRVData_BEncode. solve_safe.
  - apply safe_andthen; [by apply safe_writef|]. solve_safe. by apply safe_writef.
  - apply safe_false.
Qed.
Lemma VerifySignature_total rc : exists ok, RouterContact.VerifySignature rank0 port0 rc = Ok ok.
Proof.
  unfold RouterContact.VerifySignature. repeat case_match; try by eexists.
  destruct (encode_into_total RouterContact.MAX_RC_SIZE _ (safe_contact (rc <| signature := zeros 64 |>))) as [[data|] ->]; by eexists.
Qed.
Lemma Verify_rc_total ours block now allow rc : exists ok, RouterContact.Verify rank0 port0 ours block now allow rc = Ok ok.
Proof. unfold RouterContact.Verify. repeat case_match; try by eexists. apply VerifySignature_total. Qed.
End safe.
End ContactSafe.
