(* ===== verification/Kademlia.v ===== *)
(** * Kademlia containers (llarp/dht/key.hpp, kademlia.hpp, bucket.hpp, node.hpp, llarp/nodedb.cpp)

    Keys, the xor metric, the bucket of nodes ordered by their distance from us, and the
    database of router contacts. The searches for the closest nodes are compared with what
    they promise: no other candidate is nearer. *)

From Stdlib Require Import Sorting.Sorted.
From S2P Require Import Prelude Buffer Bencode Codec CryptoApi Str NetInt IpRange DnsName DnsMessage Contact.

(** ** Keys: arrays of 32 bytes *)
Abbreviation Key_t := (list Z) (only parsing).
Abbreviation RouterID := (list Z) (only parsing).
Definition key_wf (k : Key_t) : Prop := length k = 32%nat /\ bytes k.

(** [operator^] of aligned buffers *)
Definition key_xor (a b : Key_t) : Key_t := zip_with Z.lxor a b.
Definition Fill (ch : Z) : Key_t := replicate 32 ch.
(** [XorMetric(us)(left, right)] *)
Definition XorMetric (us left right : Key_t) : bool := lex_lt (key_xor us left) (key_xor us right).

(** ** [std::map] with a comparison, as the list of its entries in ascending order *)
Section std_map.
Context {K V : Type} (lt : K -> K -> bool).
Implicit Types (k : K) (v : V) (m : list (K * V)).
Fixpoint map_find k m : option V :=
  match m with
  | [] => None
  | (k', v) :: m => if lt k' k then map_find k m else if lt k k' then None else Some v
  end.
(** [m[k] = v] *)
Fixpoint map_assign k v m : list (K * V) :=
  match m with
  | [] => [(k, v)]
  | (k', v') :: r => if lt k' k then (k', v') :: map_assign k v r else if lt k k' then (k, v) :: m else (k', v) :: r
  end.
Fixpoint map_erase k m : list (K * V) :=
  match m with
  | [] => []
  | (k', v') :: r => if lt k' k then (k', v') :: map_erase k r else if lt k k' then m else r
  end.
End std_map.

(** [std::set<Key_t>], its elements in ascending order *)
Fixpoint set_insert (k : Key_t) (s : list Key_t) : list Key_t :=
  match s with
  | [] => [k]
  | k' :: r => if lex_lt k' k then k' :: set_insert k r else if lex_lt k k' then k :: s else s
  end.
Fixpoint set_count (k : Key_t) (s : list Key_t) : bool :=
  match s with
  | [] => false
  | k' :: r => if lex_lt k' k then set_count k r else negb (lex_lt k k')
  end.
(** [std::set<Key_t>{..}] *)
Definition set_of (l : list Key_t) : list Key_t := foldl (fun s k => set_insert k s) [] l.

(** ** Buckets *)

(** A value of a bucket: its key, and whether it is older than another. *)
Class Node (Val : Type) := { ID : Val -> Key_t; older : Val -> Val -> bool }.

Definition RCNode_ID (rc : RouterContact.t) : Key_t := RouterContact.pubkey rc.
Definition RCNode_older (a b : RouterContact.t) : bool := RouterContact.last_updated a <? RouterContact.last_updated b.
#[export] Instance RCNode : Node RouterContact.t := {| ID := RCNode_ID; older := RCNode_older |}.
Definition ISNode_ID (s : EncryptedIntroSet.t) : Key_t := EncryptedIntroSet.derivedSigningKey s.
Definition ISNode_older (a b : EncryptedIntroSet.t) : bool := EncryptedIntroSet.signedAt a <? EncryptedIntroSet.signedAt b.
#[export] Instance ISNode : Node EncryptedIntroSet.t := {| ID := ISNode_ID; older := ISNode_older |}.

Module Bucket.
Section bucket.
Context {Val : Type} {N : Node Val} (us : Key_t).
Abbreviation nodes_t := (list (Key_t * Val)).
Implicit Types (nodes : nodes_t) (target result key : Key_t) (exclude : list Key_t).

Definition PutNode (val : Val) nodes : nodes_t :=
  match map_find (XorMetric us) (ID val) nodes with
  | None => map_assign (XorMetric us) (ID val) val nodes
  | Some v => if older v val then map_assign (XorMetric us) (ID val) val nodes else nodes
  end.
Definition DelNode key nodes : nodes_t :=
  match map_find (XorMetric us) key nodes with
  | Some _ => map_erase (XorMetric us) key nodes
  | None => nodes
  end.
Definition HasNode key nodes : bool :=
  match map_find (XorMetric us) key nodes with Some _ => true | None => false end.
Fixpoint RemoveIf (pred : Key_t -> bool) nodes : nodes_t :=
  match nodes with
  | [] => []
  | (k, v) :: r => if pred k then RemoveIf pred r else (k, v) :: RemoveIf pred r
  end.

(** One step of the loops: [(mindist, result)]. *)
Definition closer_step target (st : Key_t * Key_t) (k : Key_t) : Key_t * Key_t :=
  let curDist := key_xor k target in if lex_lt curDist st.1 then (curDist, k) else st.
Definition FindClosest target result nodes : bool * Key_t :=
  let st := foldl (fun st item => closer_step target st item.1) (Fill 255, result) nodes in
  ((0 <? length nodes)%nat, st.2).
Definition FindCloseExcluding target result exclude nodes : bool * Key_t :=
  let maxdist := Fill 255 in
  let st := foldl (fun st item => if set_count item.1 exclude then st else closer_step target st item.1)
                  (Fill 255, result) nodes in
  (lex_lt st.1 maxdist, st.2).
Fixpoint near_loop target peer (N : nat) (s result : list Key_t) nodes : bool * list Key_t :=
  match N with
  | 0%nat => (true, result)
  | S N =>
      let '(ok, peer) := FindCloseExcluding target peer s nodes in
      if ok then near_loop target peer N (set_insert peer s) (set_insert peer result) nodes else (false, result)
  end.
Definition GetManyNearExcluding target (result : list Key_t) (N : nat) exclude nodes : bool * list Key_t :=
  near_loop target (Fill 0) N exclude result nodes.

(** [random] is the sequence of the numbers drawn; a draw is fuel. *)
Fixpoint random_loop (random : list Z) (N : nat) (result : list Key_t) nodes : res (list Key_t) :=
  match N with
  | 0%nat => Ok result
  | S N' =>
      match random with
      | [] => NoFuel
      | x :: random =>
          match nodes !! Z.to_nat (x mod Z.of_nat (length nodes)) with
          | None => Oob
          | Some (k, _) =>
              if set_count k result then random_loop random N result nodes
              else random_loop random N' (set_insert k result) nodes
          end
      end
  end.
Definition GetManyRandom (random : list Z) (result : list Key_t) (N : nat) nodes : res (bool * list Key_t) :=
  if (length nodes <? N)%nat || (length nodes =? 0)%nat then Ok (false, result)
  else if (length nodes =? N)%nat then Ok (true, foldl (fun s item => set_insert item.1 s) result nodes)
  else
    let* r := random_loop random N result nodes in Ok ((length r =? N)%nat, r).

(** [std::set_difference] over the nodes, in the order of the metric, and the excluded keys,
    in the order of the keys, with the comparison of the keys. *)
Fixpoint set_difference (l1 : list Key_t) : list Key_t -> list Key_t :=
  match l1 with
  | [] => fun _ => []
  | a :: r1 =>
      fix go (l2 : list Key_t) : list Key_t :=
        match l2 with
        | [] => a :: r1
        | b :: r2 => if lex_lt a b then a :: set_difference r1 (b :: r2) else if lex_lt b a then go r2 else set_difference r1 r2
        end
  end.
Definition GetRandomNodeExcluding (x : Z) exclude nodes : option Key_t :=
  let candidates := set_difference (fst <$> nodes) exclude in
  if (length candidates =? 0)%nat then None else candidates !! Z.to_nat (x mod Z.of_nat (length candidates)).
End bucket.
End Bucket.

(** ** The database of contacts *)
Module NodeDB.
Import RouterContact.
Record Entry := MkEntry { rc : RouterContact.t; insertedAt : Z }.
(** [m_Entries], with whether there is a directory ([m_Root]) and the time of the next flush. *)
Record t := Mk { m_Entries : gmap RouterID Entry; on_disk : bool; m_NextFlushAt : Z }.
#[export] Instance eta_t : Eta t := fun d => Mk (m_Entries d) (on_disk d) (m_NextFlushAt d).
Definition FlushInterval : Z := 5 * 60 * 1000.

(** What the disk thread is asked to do. *)
Inductive job := WriteRCs (l : list RouterContact.t) | RemoveFiles (l : list RouterID).

(** The entries in the order of the iteration, which the standard leaves open. *)
Definition entries (d : t) : list (RouterID * Entry) := map_to_list (m_Entries d).

Definition AsyncRemoveManyFromDisk (remove : list RouterID) (d : t) : list job :=
  if negb (on_disk d) then [] else [RemoveFiles remove].
Definition Has (pk : RouterID) (d : t) : bool := match m_Entries d !! pk with Some _ => true | None => false end.
Definition Get (pk : RouterID) (d : t) : option RouterContact.t := rc <$> m_Entries d !! pk.
Definition NumLoaded (d : t) : nat := size (m_Entries d).
Definition Put (now : Z) (r : RouterContact.t) (d : t) : t :=
  let d := d <| m_Entries ::= delete (pubkey r) |> in d <| m_Entries ::= <[pubkey r := MkEntry r now]> |>.
Definition PutIfNewer (now : Z) (r : RouterContact.t) (d : t) : t :=
  match m_Entries d !! pubkey r with
  | None => d <| m_Entries ::= <[pubkey r := MkEntry r now]> |>
  | Some e =>
      if OtherIsNewer (rc e) r then
        let d := d <| m_Entries ::= delete (pubkey r) |> in d <| m_Entries ::= <[pubkey r := MkEntry r now]> |>
      else d
  end.
Definition Remove (pk : RouterID) (d : t) : t * list job :=
  let d := d <| m_Entries ::= delete pk |> in (d, AsyncRemoveManyFromDisk [pk] d).
(** The loop of [RemoveIf] and [RemoveStaleRCs]: the keys of the removed contacts and the entries left. *)
Definition remove_step (p : Entry -> bool) (st : list RouterID * gmap RouterID Entry) (e : RouterID * Entry)
  : list RouterID * gmap RouterID Entry :=
  if p e.2 then (set_insert (pubkey (rc e.2)) st.1, delete e.1 st.2) else st.
Definition remove_entries (p : Entry -> bool) (d : t) : t * list job :=
  let '(removed, m) := foldl (remove_step p) ([], m_Entries d) (entries d) in
  let d := d <| m_Entries := m |> in
  (d, if (length removed =? 0)%nat then [] else AsyncRemoveManyFromDisk removed d).
Definition RemoveIf (visit : RouterContact.t -> bool) : t -> t * list job := remove_entries (fun e => visit (rc e)).
Definition RemoveStaleRCs (keep : list RouterID) (cutoff : Z) : t -> t * list job :=
  remove_entries (fun e => (insertedAt e <? cutoff) && negb (bool_decide (pubkey (rc e) ∈ keep))).
Definition Tick (now : Z) (d : t) : t * list job :=
  if m_NextFlushAt d =? 0 then (d, [])
  else if m_NextFlushAt d <? now then
    (d <| m_NextFlushAt ::= fun x => x + FlushInterval |>, [WriteRCs ((fun e => rc e.2) <$> entries d)])
  else (d, []).
(** A filter applied to the entries in some order [shuffled], which [std::shuffle] draws. *)
Definition GetRandom (shuffled : list (RouterID * Entry)) (visit : RouterContact.t -> bool) : option RouterContact.t :=
  (fun e => rc e.2) <$> List.find (fun e => visit (rc e.2)) shuffled.

(** [ours] is the network of a default contact. *)
Definition closest_step (location : Key_t) (r other : RouterContact.t) : RouterContact.t :=
  if is_zero (pubkey r) then other else if XorMetric location (pubkey other) (pubkey r) then other else r.
Definition FindClosestTo (ours : list Z) (location : Key_t) (d : t) : RouterContact.t :=
  foldl (fun r e => closest_step location r (rc e.2)) (RouterContact.default ours) (entries d).

(** [std::partial_sort] leaves the first elements of the sorted range in front. *)
Fixpoint insert_by (location : Key_t) (r : RouterContact.t) (l : list RouterContact.t) : list RouterContact.t :=
  match l with
  | [] => [r]
  | x :: l' => if XorMetric location (pubkey r) (pubkey x) then r :: l else x :: insert_by location r l'
  end.
Definition sort_by (location : Key_t) (l : list RouterContact.t) : list RouterContact.t := foldr (insert_by location) [] l.
Definition FindManyClosestTo (location : Key_t) (numRouters : nat) (d : t) : list RouterContact.t :=
  let all := (fun e => rc e.2) <$> entries d in
  take (if (numRouters <? length all)%nat then numRouters else length all) (sort_by location all).
End NodeDB.

(** * The metric *)
Lemma length_key_xor a b : length a = length b -> length (key_xor a b) = length a.
Proof. intros H. unfold key_xor. rewrite length_zip_with. lia. Qed.
Lemma key_xor_comm a b : key_xor a b = key_xor b a.
Proof.
  unfold key_xor. revert b. induction a as [|x a IH]; intros [|y b]; cbn; [done..|]. by rewrite Z.lxor_comm, IH.
Qed.
Lemma key_xor_inj t a b : length a = length t -> length b = length t -> key_xor t a = key_xor t b -> a = b.
Proof.
  unfold key_xor. revert a b. induction t as [|x t IH]; intros [|y a] [|z b]; cbn; try done. intros Ha Hb [= Hx Hr].
  f_equal; [|by apply IH; [lia..|]]. apply (f_equal (Z.lxor x)) in Hx.
  by rewrite <- !Z.lxor_assoc, !Z.lxor_nilpotent, !Z.lxor_0_l in Hx.
Qed.
Lemma XorMetric_irrefl us a : XorMetric us a a = false.
Proof. apply lex_lt_irrefl. Qed.
Lemma XorMetric_trans us a b c : XorMetric us a b = true -> XorMetric us b c = true -> XorMetric us a c = true.
Proof. apply lex_lt_trans. Qed.
Lemma XorMetric_total us a b :
  length a = length us -> length b = length us -> XorMetric us a b = false -> XorMetric us b a = false -> a = b.
Proof. intros Ha Hb H1 H2. apply (key_xor_inj us); [done..|]. by apply lex_lt_total. Qed.

(** * Ordered maps refine finite maps *)
Section std_map_spec.
Context {K V : Type} `{Countable K} (lt : K -> K -> bool) (P : K -> Prop).
Context (lt_irrefl : forall k, lt k k = false) (lt_trans : forall a b c, lt a b = true -> lt b c = true -> lt a c = true).
Context (lt_total : forall a b, P a -> P b -> lt a b = false -> lt b a = false -> a = b).
Implicit Types (m : list (K * V)).
Definition map_ok m : Prop := StronglySorted (fun x y => lt x.1 y.1 = true) m /\ Forall (fun x => P x.1) m.
Definition abs m : gmap K V := list_to_map m.

Lemma map_ok_cons k v m : map_ok ((k, v) :: m) <-> Forall (fun y => lt k y.1 = true) m /\ P k /\ map_ok m.
Proof.
  unfold map_ok. split.
  - intros [[? ?]%StronglySorted_inv [? ?]%Forall_cons]. done.
  - intros (? & ? & ? & ?). split; [by constructor|by apply Forall_cons].
Qed.
Lemma not_below k m : Forall (fun y => lt k y.1 = true) m -> abs m !! k = None.
Proof using lt_irrefl.
  intros Hm. apply not_elem_of_list_to_map. intros ([k' v] & -> & Hin)%list_elem_of_fmap.
  rewrite Forall_forall in Hm. specialize (Hm _ Hin). cbn in Hm. by rewrite lt_irrefl in Hm.
Qed.

Lemma map_assign_in k v m x y : (x, y) ∈ map_assign lt k v m -> x = k \/ exists y, (x, y) ∈ m.
Proof.
  induction m as [|[a b] m IH]; cbn [map_assign]; [intros [= -> ->]%list_elem_of_singleton; by left|].
  destruct (lt a k), (lt k a); rewrite !elem_of_cons; intros Hin; naive_solver (eauto using list_elem_of_here, list_elem_of_further).
Qed.
Lemma map_erase_in k m x : x ∈ map_erase lt k m -> x ∈ m.
Proof.
  induction m as [|[a b] m IH]; cbn [map_erase]; [done|]. destruct (lt a k), (lt k a); rewrite ?elem_of_cons; intros Hin; naive_solver.
Qed.

Lemma map_find_abs k m : map_ok m -> P k -> map_find lt k m = abs m !! k.
Proof using lt_irrefl lt_trans lt_total.
  intros Hm Hk. induction m as [|[k' v] m IH]; [done|]. apply map_ok_cons in Hm as (Hl & Hp & Hm). cbn [map_find abs list_to_map foldr].
  specialize (IH Hm). destruct (lt k' k) eqn:E1.
  - unfold abs. cbn. rewrite lookup_insert_ne by (intros ->; by rewrite lt_irrefl in E1). done.
  - destruct (lt k k') eqn:E2.
    + unfold abs. cbn. rewrite lookup_insert_ne by (intros ->; by rewrite lt_irrefl in E2). symmetry. apply not_below.
      eapply Forall_impl; [exact Hl|]. intros y Hy. by eapply lt_trans.
    + rewrite (lt_total _ _ Hp Hk E1 E2). unfold abs. cbn. by rewrite lookup_insert_eq.
Qed.
Lemma map_assign_abs k v m : map_ok m -> P k -> map_ok (map_assign lt k v m) /\ abs (map_assign lt k v m) = <[k := v]> (abs m).
Proof using lt_irrefl lt_trans lt_total.
  intros Hm Hk. induction m as [|[k' v'] m IH]; [by split; [repeat constructor|]|].
  pose proof Hm as (Hl & Hp & Hm')%map_ok_cons. cbn [map_assign]. destruct (IH Hm') as [Ho Ha]. destruct (lt k' k) eqn:E1.
  - split.
    + apply map_ok_cons. split_and!; try done. apply Forall_forall. intros [x y] Hin.
      assert (x = k \/ exists y, (x, y) ∈ m) as [-> | [y' Hin']]; [|done|].
      { by apply (map_assign_in k v m x y). }
      rewrite Forall_forall in Hl. by specialize (Hl _ Hin').
    + unfold abs in *. cbn. rewrite Ha. apply insert_insert_ne. intros ->. by rewrite lt_irrefl in E1.
  - destruct (lt k k') eqn:E2.
    + split; [|done]. apply map_ok_cons. split_and!; [|done..]. apply Forall_cons. split; [done|].
      eapply Forall_impl; [exact Hl|]. intros y Hy. by eapply lt_trans.
    + rewrite (lt_total _ _ Hp Hk E1 E2) in *. split; [by apply map_ok_cons|]. unfold abs. cbn. by rewrite insert_insert_eq.
Qed.
Lemma map_erase_abs k m : map_ok m -> P k -> map_ok (map_erase lt k m) /\ abs (map_erase lt k m) = delete k (abs m).
Proof using lt_irrefl lt_trans lt_total.
  intros Hm Hk. induction m as [|[k' v'] m IH]; [split; [done|by unfold abs; cbn; rewrite delete_empty]|].
  pose proof Hm as (Hl & Hp & Hm')%map_ok_cons. cbn [map_erase]. destruct (IH Hm') as [Ho Ha]. destruct (lt k' k) eqn:E1.
  - split.
    + apply map_ok_cons. split_and!; try done. apply Forall_forall. intros x Hin. rewrite Forall_forall in Hl. apply Hl.
      by apply (map_erase_in k).
    + unfold abs in *. cbn. rewrite Ha. rewrite delete_insert_ne; [done|]. intros ->. by rewrite lt_irrefl in E1.
  - destruct (lt k k') eqn:E2.
    + split; [done|]. rewrite delete_id; [done|]. apply not_below. apply Forall_cons. split; [done|].
      eapply Forall_impl; [exact Hl|]. intros y Hy. by eapply lt_trans.
    + rewrite (lt_total _ _ Hp Hk E1 E2) in *. split; [done|]. unfold abs. cbn. rewrite delete_insert_id; [done|]. by apply not_below.
Qed.
End std_map_spec.

(** * Sets of keys *)
Definition set_ok (s : list Key_t) : Prop := StronglySorted (fun x y => lex_lt x y = true) s.
Lemma set_ok_cons k s : set_ok (k :: s) <-> Forall (fun y => lex_lt k y = true) s /\ set_ok s.
Proof. split; [intros [? ?]%StronglySorted_inv; done|intros [? ?]; by constructor]. Qed.
Lemma set_count_spec k s : set_ok s -> set_count k s = bool_decide (k ∈ s).
Proof.
  induction s as [|x s IH]; intros Hs; cbn [set_count]; [by rewrite bool_decide_eq_false_2 by apply not_elem_of_nil|].
  apply set_ok_cons in Hs as [Hx Hs]. destruct (lex_lt x k) eqn:E1.
  - rewrite IH by done. apply bool_decide_ext. rewrite elem_of_cons. split; [by right|]. intros [-> |]; [|done]. by rewrite lex_lt_irrefl in E1.
  - destruct (lex_lt k x) eqn:E2; cbn [negb]; symmetry.
    + apply bool_decide_eq_false_2. intros [-> |Hin]%elem_of_cons; [by rewrite lex_lt_irrefl in E2|].
      rewrite Forall_forall in Hx. specialize (Hx _ Hin). congruence.
    + apply bool_decide_eq_true_2. rewrite (lex_lt_total _ _ E1 E2). apply list_elem_of_here.
Qed.
Lemma elem_of_set_insert k s x : x ∈ set_insert k s <-> x = k \/ x ∈ s.
Proof.
  induction s as [|y s IH]; cbn [set_insert]; [by rewrite list_elem_of_singleton, elem_of_nil; naive_solver|].
  destruct (lex_lt y k) eqn:E1; [rewrite !elem_of_cons, IH; naive_solver|].
  destruct (lex_lt k y) eqn:E2; [by rewrite elem_of_cons|]. rewrite (lex_lt_total _ _ E1 E2). rewrite !elem_of_cons. naive_solver.
Qed.
Lemma set_insert_ok k s : set_ok s -> set_ok (set_insert k s).
Proof.
  induction s as [|y s IH]; cbn [set_insert]; intros Hs; [repeat constructor|]. pose proof Hs as [Hy Hs']%set_ok_cons.
  destruct (lex_lt y k) eqn:E1; [|destruct (lex_lt k y) eqn:E2; [|done]].
  - apply set_ok_cons. split; [|by apply IH]. apply Forall_forall. intros x [-> |Hx]%elem_of_set_insert; [done|].
    rewrite Forall_forall in Hy. by apply Hy.
  - apply set_ok_cons. split; [|done]. apply Forall_cons. split; [done|]. eapply Forall_impl; [exact Hy|]. intros x Hx. by eapply lex_lt_trans.
Qed.
Lemma set_of_ok l : set_ok (set_of l) /\ forall x, x ∈ set_of l <-> x ∈ l.
Proof.
  unfold set_of. enough (forall s, set_ok s -> set_ok (foldl (fun s k => set_insert k s) s l) /\
    forall x, x ∈ foldl (fun s k => set_insert k s) s l <-> x ∈ s \/ x ∈ l) as H.
  { destruct (H [] (SSorted_nil _)) as [H1 H2]. split; [done|]. intros x. rewrite H2, elem_of_nil. naive_solver. }
  induction l as [|a l IH]; intros s Hs; cbn [foldl]; [split; [done|]; intros x; rewrite elem_of_nil; naive_solver|].
  destruct (IH (set_insert a s)) as [H1 H2]; [by apply set_insert_ok|]. split; [done|]. intros x.
  rewrite H2, elem_of_set_insert, elem_of_cons. naive_solver.
Qed.
Lemma set_ok_nodup s : set_ok s -> NoDup s.
Proof.
  induction s as [|x s IH]; intros Hs; [constructor|]. apply set_ok_cons in Hs as [Hx Hs]. constructor; [|auto].
  intros Hin. rewrite Forall_forall in Hx. specialize (Hx _ Hin). by rewrite lex_lt_irrefl in Hx.
Qed.

Lemma filter_none {A} (P : A -> Prop) `{forall x, Decision (P x)} (l : list A) : Forall (fun x => ~ P x) l -> filter P l = [].
Proof. induction 1 as [|x l Hx _ IH]; [done|]. by rewrite filter_cons_False. Qed.
Lemma filter_all {A} (P : A -> Prop) `{forall x, Decision (P x)} (l : list A) : Forall P l -> filter P l = l.
Proof. induction 1 as [|x l Hx _ IH]; [done|]. by rewrite filter_cons_True, IH. Qed.

(** * Searches *)
Module BucketSpec.
Import Bucket.
Section search.
Context {Val : Type} (target : Key_t).
Implicit Types (nodes : list (Key_t * Val)) (ks : list Key_t).

(** The nearest of a list of keys, if one beats what is there already. *)
Lemma closest_fold ks st :
  let r := foldl (closer_step target) st ks in
  (r = st /\ Forall (fun k => lex_lt (key_xor k target) st.1 = false) ks) \/
  (r.2 ∈ ks /\ r.1 = key_xor r.2 target /\ lex_lt r.1 st.1 = true /\ Forall (fun k => lex_lt (key_xor k target) r.1 = false) ks).
Proof.
  cbn zeta. revert st. induction ks as [|k ks IH]; intros st; cbn [foldl]; [left; by split|].
  assert (closer_step target st k = if lex_lt (key_xor k target) st.1 then (key_xor k target, k) else st) as -> by done. destruct (lex_lt (key_xor k target) st.1) eqn:E.
  - right. destruct (IH (key_xor k target, k)) as [[-> Hk]|(Hin & Hd & Hl & Hk)]; cbn [fst snd] in *.
    + split_and!; [apply list_elem_of_here|done..|]. apply Forall_cons. split; [apply lex_lt_irrefl|done].
    + split_and!; [by apply list_elem_of_further|done|by eapply lex_lt_trans|]. apply Forall_cons. split; [by apply lex_lt_asym|done].
  - destruct (IH st) as [[-> Hk]|(Hin & Hd & Hl & Hk)].
    + left. split; [done|]. by apply Forall_cons.
    + right. split_and!; [by apply list_elem_of_further|done..|]. apply Forall_cons. split; [|done].
      eapply lex_lt_le_trans; [exact E|]. by apply lex_lt_asym.
Qed.
Lemma closest_fold_nodes nodes st :
  foldl (fun st item => closer_step target st item.1) st nodes = foldl (closer_step target) st (fst <$> nodes).
Proof. revert st. induction nodes as [|[k v] l IH]; intros st; cbn; [done|apply IH]. Qed.
Definition candidates (s : list Key_t) ks : list Key_t := filter (fun k => set_count k s = false) ks.
Lemma closest_fold_excluding s nodes st :
  foldl (fun st item => if set_count item.1 s then st else closer_step target st item.1) st nodes
  = foldl (closer_step target) st (candidates s (fst <$> nodes)).
Proof.
  revert st. induction nodes as [|[k v] l IH]; intros st; cbn [foldl fmap list_fmap fst]; [done|]. unfold candidates.
  destruct (set_count k s) eqn:E; [rewrite filter_cons_False by congruence|rewrite filter_cons_True by done; cbn [foldl]]; apply IH.
Qed.

Definition nearest (x : Key_t) ks : Prop := Forall (fun k => lex_lt (key_xor k target) (key_xor x target) = false) ks.
Lemma FindCloseExcluding_spec result s nodes ok r :
  FindCloseExcluding target result s nodes = (ok, r) ->
  let c := candidates s (fst <$> nodes) in
  if ok then r ∈ c /\ lex_lt (key_xor r target) (Fill 255) = true /\ nearest r c
  else Forall (fun k => lex_lt (key_xor k target) (Fill 255) = false) c.
Proof.
  unfold FindCloseExcluding. rewrite closest_fold_excluding. cbn zeta. intros [= <- <-].
  destruct (closest_fold (candidates s (fst <$> nodes)) (Fill 255, result)) as [[-> Hk]|(Hin & Hd & Hl & Hk)]; cbn [fst snd] in *.
  - by rewrite lex_lt_irrefl.
  - rewrite Hl. split_and!; [done|by rewrite <- Hd|]. unfold nearest. by rewrite <- Hd.
Qed.

Context (Ht : length target = 32%nat).
Lemma nearest_closer x y ks : nearest x ks -> y ∈ ks -> y <> x -> length x = 32%nat -> length y = 32%nat -> XorMetric target x y = true.
Proof using Ht.
  intros Hn Hy Hne Hx Hly. unfold nearest in Hn. rewrite Forall_forall in Hn. specialize (Hn y Hy).
  rewrite !(key_xor_comm _ target) in Hn. unfold XorMetric. destruct (lex_lt (key_xor target x) (key_xor target y)) eqn:E; [done|].
  destruct Hne. apply (key_xor_inj target); [congruence..|]. by apply lex_lt_total.
Qed.
Lemma elem_of_candidates s ks x : set_ok s -> x ∈ candidates s ks <-> x ∈ ks /\ x ∉ s.
Proof.
  intros Hs. unfold candidates. rewrite list_elem_of_filter, set_count_spec by done. rewrite bool_decide_eq_false. naive_solver.
Qed.
(** The keys picked in [n] rounds: the [n] nearest of the candidates. *)
Definition picks (n : nat) (c ps : list Key_t) : Prop :=
  length ps = n /\ NoDup ps /\ (forall x, x ∈ ps -> x ∈ c) /\ (forall x y, x ∈ ps -> y ∈ c -> y ∉ ps -> XorMetric target x y = true).
Lemma near_loop_spec n peer s result nodes :
  set_ok s -> NoDup (fst <$> nodes) -> Forall (fun k => length k = 32%nat) (fst <$> nodes) ->
  let c := candidates s (fst <$> nodes) in
  let '(ok, r) := near_loop target peer n s result nodes in
  if ok then exists ps, picks n c ps /\ forall x, x ∈ r <-> x ∈ result \/ x ∈ ps
  else (length (filter (fun k => lex_lt (key_xor k target) (Fill 255) = true) c) < n)%nat.
Proof using Ht.
  cbn zeta. revert peer s result. induction n as [|n IH]; intros peer s result Hs Hd Hk; cbn [near_loop].
  { exists []. split; [split_and!; try done; [constructor|set_solver..]|]. set_solver. }
  destruct (FindCloseExcluding target peer s nodes) as [ok p] eqn:E. apply FindCloseExcluding_spec in E. cbn zeta in E. destruct ok.
  2:{ rewrite filter_none; [cbn; lia|]. eapply Forall_impl; [exact E|]. intros x Hx Hx'. congruence. }
  destruct E as (Hp & Hlt & Hn). specialize (IH p (set_insert p s) (set_insert p result) (set_insert_ok _ _ Hs) Hd Hk).
  destruct (near_loop target p n (set_insert p s) (set_insert p result) nodes) as [ok r]. destruct ok.
  - destruct IH as (ps & (Hl & Hnd & Hsub & Hcl) & Hr). exists (p :: ps).
    assert (forall x, x ∈ candidates (set_insert p s) (fst <$> nodes) <-> x ∈ candidates s (fst <$> nodes) /\ x <> p) as Hc.
    { intros x. rewrite !elem_of_candidates, elem_of_set_insert by (done || by apply set_insert_ok). naive_solver. }
    assert (forall x, x ∈ candidates s (fst <$> nodes) -> length x = 32%nat) as H32.
    { intros x [Hx _]%elem_of_candidates; [|done]. rewrite Forall_forall in Hk. by apply Hk. }
    split; [split_and!|].
    + cbn. by rewrite Hl.
    + constructor; [|done]. intros Hin. apply Hsub, Hc in Hin. naive_solver.
    + intros x [-> |Hx]%elem_of_cons; [done|]. by apply Hsub, Hc in Hx as [? _].
    + intros x y Hx Hy Hny. apply not_elem_of_cons in Hny as [Hyp Hny]. apply elem_of_cons in Hx as [-> |Hx].
      * eapply nearest_closer; [exact Hn|done..| |]; by apply H32.
      * apply Hcl; [done| |done]. by apply Hc.
    + intros x. rewrite Hr, elem_of_set_insert, elem_of_cons. naive_solver.
  - enough (length (filter (fun k => lex_lt (key_xor k target) (Fill 255) = true) (candidates s (fst <$> nodes)))
            <= S (length (filter (fun k => lex_lt (key_xor k target) (Fill 255) = true) (candidates (set_insert p s) (fst <$> nodes)))))%nat by lia.
    change (S (length ?l)) with (length (p :: l)). apply submseteq_length, NoDup_submseteq; [by repeat apply NoDup_filter|].
    intros x [Hx1 Hx]%list_elem_of_filter. rewrite elem_of_cons, list_elem_of_filter, !elem_of_candidates, elem_of_set_insert by (done || by apply set_insert_ok).
    rewrite elem_of_candidates in Hx by done. destruct (decide (x = p)); naive_solver.
Qed.
End search.

(** The order of the candidates does not matter. *)
#[global] Instance picks_proper target n : Proper (Permutation ==> eq ==> iff) (picks target n).
Proof. intros c c' Hc ps _ <-. unfold picks. by setoid_rewrite Hc. Qed.
Lemma near_loop_ok {Val} target peer n s result (nodes : list (Key_t * Val)) :
  set_ok result -> set_ok (near_loop target peer n s result nodes).2.
Proof.
  revert peer s result. induction n as [|n IH]; intros peer s result Hr; cbn [near_loop]; [done|].
  destruct (FindCloseExcluding _ _ _ _) as [[] p]; [|done]. by apply IH, set_insert_ok.
Qed.
Lemma key_xor_wf a b : key_wf a -> key_wf b -> key_wf (key_xor a b).
Proof.
  intros [Ha Hab] [Hb Hbb]. split; [rewrite length_key_xor; congruence|]. clear Ha Hb. unfold key_xor. revert b Hbb.
  induction Hab as [|x a Hx Ha IH]; intros b Hb; destruct Hb as [|y b Hy Hb]; cbn; [constructor..|]. apply Forall_cons.
  split; [|by apply IH]. by apply (lxor_width 8).
Qed.
Lemma below_max d : key_wf d -> d <> Fill 255 -> lex_lt d (Fill 255) = true.
Proof.
  intros [Hl Hb] Hne. destruct (lex_lt d (Fill 255)) eqn:E; [done|]. destruct Hne. apply lex_lt_total; [done|].
  unfold Fill. rewrite <- Hl. clear -Hb. induction Hb as [|x d Hx Hd IH]; cbn; [done|]. unfold is_byte in Hx. rewrite IH. lia.
Qed.
(** The key at the greatest distance. *)
Definition opposite (target : Key_t) : Key_t := key_xor target (Fill 255).
Lemma opposite_spec target k : key_wf target -> key_wf k -> key_xor k target = Fill 255 -> k = opposite target.
Proof.
  intros [Ht Htb] [Hk Hkb] E. unfold opposite. rewrite <- E, (key_xor_comm k). clear E. assert (length target = length k) as Hl by congruence.
  clear -Hl. unfold key_xor. revert k Hl. induction target as [|x t IH]; intros [|y k] Hl; cbn; [done..|].
  rewrite <- Z.lxor_assoc, Z.lxor_nilpotent, Z.lxor_0_l. f_equal. apply IH. cbn in Hl. lia.
Qed.

Section bucket.
Context {Val : Type} {N : Node Val} (us : Key_t).
Implicit Types (nodes : list (Key_t * Val)).
(** In the order of the metric, each value under its own key. *)
Definition bucket_ok nodes : Prop :=
  map_ok (XorMetric us) (fun k => length k = length us) nodes /\ map_Forall (fun k v => ID v = k) (abs nodes).
Lemma map_ok_nodup nodes : map_ok (XorMetric us) (fun k => length k = length us) nodes -> NoDup (fst <$> nodes).
Proof.
  induction nodes as [|[k v] l IH]; intros Hm; [constructor|]. apply map_ok_cons in Hm as (Hl & _ & Hm). cbn. constructor; [|auto].
  intros ([k' v'] & Hk & Hin)%list_elem_of_fmap. rewrite Forall_forall in Hl. specialize (Hl _ Hin). cbn in *. subst k'.
  by rewrite XorMetric_irrefl in Hl.
Qed.

Lemma near_excluding nodes target exclude n :
  length us = 32%nat -> bucket_ok nodes -> Forall (fun x => key_wf x.1) nodes -> key_wf target -> set_ok exclude ->
  opposite target ∉ fst <$> nodes ->
  let c := candidates exclude (fst <$> nodes) in
  let '(ok, r) := GetManyNearExcluding target [] n exclude nodes in
  ok = (n <=? length c)%nat /\ (ok = true -> picks target n c r).
Proof.
  intros Hus [Hm _] Hwf Ht Hs Hopp. cbn zeta. apply map_ok_nodup in Hm as Hnd.
  assert (Forall key_wf (fst <$> nodes)) as Hk by (by apply Forall_fmap). pose proof Ht as [Ht32 _].
  assert (Forall (fun k => length k = 32%nat) (fst <$> nodes)) as Hk32 by (eapply Forall_impl; [exact Hk|]; by intros x []).
  unfold GetManyNearExcluding. pose proof (near_loop_spec target Ht32 n (Fill 0) exclude [] nodes Hs Hnd Hk32) as H.
  pose proof (near_loop_ok target (Fill 0) n exclude [] nodes (SSorted_nil _)) as Hr.
  destruct (near_loop target (Fill 0) n exclude [] nodes) as [ok r]. cbn [snd] in Hr. cbn zeta in H. destruct ok.
  - destruct H as (ps & (Hl & Hps & Hsub & Hcl) & Hx).
    assert (r ≡ₚ ps) as Hperm.
    { apply NoDup_Permutation; [by apply set_ok_nodup|done|]. intros x. rewrite Hx, elem_of_nil. naive_solver. }
    split.
    + symmetry. apply Nat.leb_le. rewrite <- Hl. apply submseteq_length, NoDup_submseteq; [done|]. intros x. apply Hsub.
    + intros _. split_and!; [by rewrite Hperm|by apply set_ok_nodup|intros x; rewrite Hperm; apply Hsub|].
      intros x y Hx1 Hy Hny. rewrite Hperm in Hx1, Hny. by apply Hcl.
  - split; [|done]. symmetry. apply Nat.leb_gt.
    rewrite <- (filter_all (fun k => lex_lt (key_xor k target) (Fill 255) = true) (candidates exclude (fst <$> nodes))); [done|].
    apply Forall_forall. intros x [Hx _]%elem_of_candidates; [|done]. rewrite Forall_forall in Hk. pose proof (Hk _ Hx) as Hxw.
    apply below_max; [by apply key_xor_wf|]. intros E. apply opposite_spec in E; [|done..]. by subst x.
Qed.

(** C20. The nearest nodes: [GetManyNearExcluding] succeeds exactly when there are enough candidates, and
    then gives that many, each nearer to the target than every candidate left out; the key opposite to the
    target is never found, so the statement is about buckets without it. *)
Theorem nearest_nodes nodes target exclude n :
  length us = 32%nat -> bucket_ok nodes -> Forall (fun x => key_wf x.1) nodes -> key_wf target -> set_ok exclude ->
  opposite target ∉ fst <$> nodes ->
  let c := candidates exclude (fst <$> nodes) in
  let '(ok, r) := GetManyNearExcluding target [] n exclude nodes in
  ok = (n <=? length c)%nat /\ (ok = true -> picks target n c r).
Proof. apply near_excluding. Qed.

(** The nearest node: unless the only one is opposite to the target. *)
Lemma FindClosest_nearest nodes target result :
  Forall (fun x => key_wf x.1) nodes -> key_wf target -> nodes <> [] -> opposite target ∉ fst <$> nodes ->
  exists r, FindClosest target result nodes = (true, r) /\ r ∈ fst <$> nodes /\ nearest target r (fst <$> nodes).
Proof.
  intros Hwf Ht Hne Hopp. unfold FindClosest. rewrite closest_fold_nodes.
  destruct (closest_fold target (fst <$> nodes) (Fill 255, result)) as [[_ Hk]|(Hin & Hd & _ & Hk)]; cbn [fst snd] in *.
  - destruct nodes as [|[k v] l]; [done|]. exfalso. cbn in *. apply Forall_cons in Hk as [Hk _], Hwf as [Hw _].
    rewrite below_max in Hk; [done|by apply key_xor_wf|]. intros E. apply opposite_spec in E; [|done..]. subst k.
    apply Hopp, list_elem_of_here.
  - eexists. split; [|split; [exact Hin|]]; [|unfold nearest; by rewrite <- Hd].
    f_equal. apply Nat.ltb_lt. destruct nodes; [done|cbn; lia].
Qed.

(** ** Refinement: a bucket is the finite map of the newest values *)
Inductive op := OPut (v : Val) | ODel (k : Key_t) | ORemoveIf (p : Key_t -> bool) | OClear.
Definition run nodes (o : op) : list (Key_t * Val) :=
  match o with OPut v => PutNode us v nodes | ODel k => DelNode us k nodes | ORemoveIf p => RemoveIf p nodes | OClear => [] end.
Definition newest (v : Val) (o : option Val) : option Val :=
  Some match o with Some w => if older w v then v else w | None => v end.
Definition arun (m : gmap Key_t Val) (o : op) : gmap Key_t Val :=
  match o with
  | OPut v => partial_alter (newest v) (ID v) m
  | ODel k => delete k m
  | ORemoveIf p => filter (fun x => p x.1 = false) m
  | OClear => ∅
  end.
Definition op_ok (o : op) : Prop :=
  match o with OPut v => length (ID v) = length us | ODel k => length k = length us | _ => True end.

Lemma metric_find k nodes : bucket_ok nodes -> length k = length us -> map_find (XorMetric us) k nodes = abs nodes !! k.
Proof. intros [Hm _] Hk. apply (map_find_abs _ _ (XorMetric_irrefl us) (XorMetric_trans us) (XorMetric_total us)); done. Qed.
Lemma metric_assign v nodes : bucket_ok nodes -> length (ID v) = length us ->
  bucket_ok (map_assign (XorMetric us) (ID v) v nodes) /\ abs (map_assign (XorMetric us) (ID v) v nodes) = <[ID v := v]> (abs nodes).
Proof.
  intros [Hm Hid] Hk. destruct (map_assign_abs _ _ (XorMetric_irrefl us) (XorMetric_trans us) (XorMetric_total us) (ID v) v nodes Hm Hk) as [H1 H2].
  split; [|done]. split; [done|]. rewrite H2. by apply map_Forall_insert_2.
Qed.
Lemma RemoveIf_abs p nodes : bucket_ok nodes -> bucket_ok (RemoveIf p nodes) /\ abs (RemoveIf p nodes) = filter (fun x => p x.1 = false) (abs nodes).
Proof.
  intros [Hm Hid]. assert (map_ok (XorMetric us) (fun k => length k = length us) (RemoveIf p nodes) /\
    (forall x, x ∈ RemoveIf p nodes -> x ∈ nodes) /\ abs (RemoveIf p nodes) = filter (fun x => p x.1 = false) (abs nodes)) as (H1 & _ & H2).
  { clear Hid. induction nodes as [|[k v] l IH]; cbn [RemoveIf]; [split_and!; [done|set_solver|unfold abs; cbn; by rewrite map_filter_empty]|].
    pose proof Hm as (Hl & Hk & Hm')%map_ok_cons. destruct (IH Hm') as (H1 & H2 & H3). unfold abs in *. cbn [list_to_map foldr].
    destruct (p k) eqn:E.
    - split_and!; [done|set_solver|]. rewrite map_filter_insert_False by (cbn; congruence). rewrite map_filter_delete, <- H3, delete_id; [done|].
      apply (not_below (XorMetric us) (XorMetric_irrefl us)). apply Forall_forall. intros x Hx. rewrite Forall_forall in Hl. by apply Hl, H2.
    - split_and!; [|set_solver|by rewrite map_filter_insert_True, <- H3]. apply map_ok_cons. split_and!; try done.
      apply Forall_forall. intros x Hx. rewrite Forall_forall in Hl. by apply Hl, H2. }
  split; [|done]. split; [done|]. rewrite H2. intros x v [Hx _]%map_lookup_filter_Some. by apply Hid.
Qed.
Lemma run_step nodes o : bucket_ok nodes -> op_ok o -> bucket_ok (run nodes o) /\ abs (run nodes o) = arun (abs nodes) o.
Proof.
  intros Hb Ho. destruct o as [v|k|p|]; cbn [run arun op_ok] in *.
  - unfold PutNode. rewrite metric_find by done. destruct (metric_assign v nodes Hb Ho) as [H1 H2].
    destruct (abs nodes !! ID v) as [w|] eqn:E; [destruct (older w v) eqn:Eo|]; (split; [done|]); rewrite ?H2; apply map_eq; intros x;
      (destruct (decide (x = ID v)) as [-> |Hx]; [rewrite lookup_partial_alter_eq, E, ?lookup_insert_eq; unfold newest; by rewrite ?Eo|by rewrite lookup_partial_alter_ne, ?lookup_insert_ne by done]).
  - unfold DelNode. rewrite metric_find by done. pose proof Hb as [Hm Hid].
    destruct (map_erase_abs _ _ (XorMetric_irrefl us) (XorMetric_trans us) (XorMetric_total us) k nodes Hm Ho) as [H1 H2].
    destruct (abs nodes !! k) as [w|] eqn:E; [|by rewrite delete_id]. split; [|done]. split; [done|]. rewrite H2. by apply map_Forall_delete.
  - by apply RemoveIf_abs.
  - split; [|done]. split; [by split; constructor|]. apply map_Forall_empty.
Qed.
Lemma run_all ops nodes :
  Forall op_ok ops -> bucket_ok nodes -> bucket_ok (foldl run nodes ops) /\ abs (foldl run nodes ops) = foldl arun (abs nodes) ops.
Proof.
  intros Ho. revert nodes. induction Ho as [|o ops Hop _ IH]; intros nodes Hb; cbn [foldl]; [done|].
  destruct (run_step nodes o Hb Hop) as [H1 H2]. rewrite <- H2. by apply IH.
Qed.
(** C40. Whatever is put into and removed from a bucket, it is the finite map from keys to the newest value put
    under them, kept in the order of the metric. *)
Theorem bucket_refines_map ops k :
  Forall op_ok ops -> length k = length us ->
  let nodes := foldl run [] ops in
  bucket_ok nodes /\ map_find (XorMetric us) k nodes = foldl arun ∅ ops !! k /\ HasNode us k nodes = bool_decide (is_Some (foldl arun ∅ ops !! k)).
Proof.
  intros Ho Hk. cbn zeta. destruct (run_all ops [] Ho) as [H1 H2]; [split; [by split; constructor|apply map_Forall_empty]|].
  unfold HasNode. rewrite metric_find by done. rewrite H2. split_and!; [done..|]. symmetry.
  change (abs (V := Val) []) with (∅ : gmap Key_t Val). destruct (foldl arun ∅ ops !! k) eqn:E.
  - by apply bool_decide_eq_true_2.
  - apply bool_decide_eq_false_2. by intros [].
Qed.

(** ** Random nodes *)
Definition drawn nodes (x : Z) : option Key_t := fst <$> nodes !! Z.to_nat (x mod Z.of_nat (length nodes)).
Definition keys_of (l : list Key_t) : gset Key_t := list_to_set l.
Lemma size_insert_le (X : gset Key_t) k : (size ({[k]} ∪ X) <= S (size X))%nat.
Proof. rewrite size_union_alt, size_singleton. apply le_n_S, subseteq_size. set_solver. Qed.
Lemma drawn_in nodes x : nodes <> [] -> exists k, drawn nodes x = Some k /\ k ∈ fst <$> nodes.
Proof.
  intros Hne. unfold drawn. destruct (lookup_lt_is_Some_2 nodes (Z.to_nat (x mod Z.of_nat (length nodes)))) as [[k v] E].
  - destruct nodes as [|n l]; [done|]. pose proof (Z.mod_pos_bound x (Z.of_nat (length (n :: l)))). cbn [length] in *. lia.
  - rewrite E. exists k. split; [done|]. apply list_elem_of_fmap. exists (k, v). split; [done|]. by eapply list_elem_of_lookup_2.
Qed.
(** Draws that hit [N] different new nodes are enough, and what is added is [N] nodes. *)
Lemma random_loop_spec nodes random N0 result :
  nodes <> [] -> set_ok result -> (N0 <= size (keys_of (omap (drawn nodes) random) ∖ keys_of result))%nat ->
  exists r, random_loop random N0 result nodes = Ok r /\ set_ok r /\ length r = (length result + N0)%nat /\
    forall x, x ∈ r -> x ∈ result \/ x ∈ fst <$> nodes.
Proof.
  intros Hne. revert N0 result. induction random as [|x random IH]; intros N0 result Hok Hs.
  { cbn [omap list_omap keys_of list_to_set] in Hs. assert ((∅ : gset Key_t) ∖ keys_of result = ∅) as E0 by set_solver. rewrite E0, size_empty in Hs.
    assert (N0 = 0%nat) as -> by lia. exists result. split_and!; [done..|lia|]. intros. by left. }
  destruct N0 as [|N0]; [exists result; split_and!; [done..|lia|]; intros; by left|]. cbn [random_loop].
  destruct (drawn_in nodes x Hne) as (k & Ek & Hk). cbn [omap list_omap] in Hs. rewrite Ek in Hs. cbn [keys_of list_to_set] in Hs.
  unfold drawn in Ek. apply fmap_Some in Ek as ([k' v] & -> & ->). cbn [fst] in *. rewrite set_count_spec by done. case_bool_decide as Hin.
  - apply IH; [done|]. etransitivity; [exact Hs|]. apply subseteq_size. unfold keys_of. intros y.
    rewrite !elem_of_difference, elem_of_union, elem_of_singleton, !elem_of_list_to_set. naive_solver.
  - destruct (IH N0 (set_insert k' result)) as (r & E & Hr & Hl & Hx); [by apply set_insert_ok| |].
    { assert (({[k']} ∪ keys_of (omap (drawn nodes) random)) ∖ keys_of result ⊆ {[k']} ∪ keys_of (omap (drawn nodes) random) ∖ keys_of (set_insert k' result)) as Hsub.
      { intros y. unfold keys_of. rewrite !elem_of_difference, !elem_of_union, elem_of_singleton, !elem_of_difference, !elem_of_list_to_set, elem_of_set_insert.
        destruct (decide (y = k')); naive_solver. }
      apply subseteq_size in Hsub. rewrite size_insert_le in Hsub. unfold keys_of in *. lia. }
    exists r. split_and!; [done..| |].
    + rewrite Hl. enough (length (set_insert k' result) = S (length result)) by lia.
      change (S (length result)) with (length (k' :: result)). apply Permutation_length, NoDup_Permutation;
        [by apply set_ok_nodup, set_insert_ok|constructor; [done|by apply set_ok_nodup]|]. intros y. rewrite elem_of_set_insert, elem_of_cons. done.
    + intros y Hy. destruct (Hx y Hy) as [[-> |]%elem_of_set_insert|]; auto.
Qed.
End bucket.
End BucketSpec.

(** * The database of contacts *)
Module NodeDBSpec.
Import RouterContact.
Import NodeDB.
Implicit Types (d : t) (r : RouterContact.t).
(** Every contact is kept under its own key, which is not zero. *)
Definition db_ok d : Prop := map_Forall (fun k e => pubkey (rc e) = k /\ key_wf k /\ is_zero k = false) (m_Entries d).
Definition contact_ok r : Prop := key_wf (pubkey r) /\ is_zero (pubkey r) = false.

Lemma entries_in d k e : (k, e) ∈ entries d <-> m_Entries d !! k = Some e.
Proof. apply elem_of_map_to_list. Qed.
Definition contacts d : list RouterContact.t := (fun e => rc e.2) <$> entries d.
Lemma contacts_in d r : db_ok d -> r ∈ contacts d <-> Get (pubkey r) d = Some r.
Proof.
  intros Hd. unfold contacts, Get. rewrite list_elem_of_fmap. split.
  - intros ([k e] & -> & He%entries_in). destruct (Hd _ _ He) as [Hk _]. cbn in *. by rewrite Hk, He.
  - intros (e & He & ->)%fmap_Some. destruct (Hd _ _ He) as [Hk _]. exists (pubkey (rc e), e). split; [done|]. by apply entries_in.
Qed.
Lemma contacts_keys d : db_ok d -> pubkey <$> contacts d = fst <$> entries d.
Proof.
  intros Hd. unfold contacts. rewrite <- list_fmap_compose. apply list_fmap_ext. intros i [k e] Hi.
  apply list_elem_of_lookup_2, entries_in in Hi. by destruct (Hd _ _ Hi) as [? _].
Qed.
Lemma contacts_nodup d : db_ok d -> NoDup (pubkey <$> contacts d).
Proof. intros Hd. rewrite contacts_keys by done. apply NoDup_fst_map_to_list. Qed.
Lemma contacts_ok d r : db_ok d -> r ∈ contacts d -> contact_ok r.
Proof.
  intros Hd ([k e] & -> & He%entries_in)%list_elem_of_fmap. destruct (Hd _ _ He) as (Hk & Hw & Hz). cbn in *. unfold contact_ok. by rewrite Hk.
Qed.

(** ** The closest contact *)
Lemma closest_contact_fold location l r0 :
  contact_ok r0 -> Forall contact_ok l ->
  let r := foldl (closest_step location) r0 l in
  (r = r0 \/ r ∈ l) /\ contact_ok r /\ Forall (fun x => XorMetric location (pubkey x) (pubkey r) = false) (r0 :: l).
Proof.
  cbn zeta. intros Hr Hl. revert r0 Hr. induction Hl as [|x l Hx Hl IH]; intros r0 Hr; cbn [foldl].
  { split_and!; [by left|done|]. apply Forall_cons. split; [apply XorMetric_irrefl|constructor]. }
  destruct Hr as [Hw Hz].
  assert (closest_step location r0 x = if XorMetric location (pubkey x) (pubkey r0) then x else r0) as -> by (unfold closest_step; by rewrite Hz). destruct (XorMetric location (pubkey x) (pubkey r0)) eqn:E.
  - destruct (IH x Hx) as (H1 & H2 & [H3 H4]%Forall_cons). split_and!; [set_solver|done|]. repeat (apply Forall_cons; split); try done.
    eapply lex_lt_le_trans; [by apply lex_lt_asym|done].
  - destruct (IH r0 (conj Hw Hz)) as (H1 & H2 & [H3 H4]%Forall_cons). split_and!; [set_solver|done|]. repeat (apply Forall_cons; split); try done.
    eapply lex_lt_le_trans; [exact E|done].
Qed.
(** [FindClosestTo] gives the contact of the database that is nearest to the location. *)
Theorem find_closest ours location d :
  db_ok d -> key_wf location -> m_Entries d <> ∅ ->
  let r := FindClosestTo ours location d in
  Get (pubkey r) d = Some r /\ forall pk r', Get pk d = Some r' -> pk <> pubkey r -> XorMetric location (pubkey r) pk = true.
Proof.
  intros Hd [Hloc _] Hne. unfold FindClosestTo.
  assert (foldl (fun r e => closest_step location r (rc e.2)) (RouterContact.default ours) (entries d)
    = foldl (closest_step location) (RouterContact.default ours) (contacts d)) as ->.
  { unfold contacts. generalize (RouterContact.default ours). induction (entries d) as [|[k e] l IH]; intros r; cbn; [done|apply IH]. }
  pose proof (fun r => contacts_ok d r Hd) as Hok. pose proof (fun r => contacts_in d r Hd) as Hin. destruct (contacts d) as [|x l] eqn:E.
  { exfalso. apply Hne. apply map_to_list_empty_iff. unfold contacts, entries in E. by apply fmap_nil_inv in E. }
  cbn [foldl]. change (closest_step location (RouterContact.default ours) x) with x.
  destruct (closest_contact_fold location l x) as (H1 & H2 & H3); [apply Hok, list_elem_of_here|apply Forall_forall; intros y Hy; by apply Hok, list_elem_of_further|].
  set (r := foldl (closest_step location) x l) in *. split; [apply Hin; set_solver|]. intros pk r' Hg Hpk.
  assert (pubkey r' = pk /\ r' ∈ x :: l) as [Epk Hr'].
  { unfold Get in Hg. apply fmap_Some in Hg as (e & He & ->). destruct (Hd _ _ He) as [Hk _]. split; [done|]. apply Hin. unfold Get. by rewrite Hk, He. }
  rewrite Forall_forall in H3. specialize (H3 _ Hr'). subst pk. destruct (XorMetric location (pubkey r) (pubkey r')) eqn:E2; [done|].
  destruct Hpk. apply (XorMetric_total location); [|destruct H2 as [[] _]; congruence|done..].
  apply Hok in Hr' as [[] _]. congruence.
Qed.

(** ** The closest contacts *)
Abbreviation closer location := (fun x y => XorMetric location (pubkey x) (pubkey y) = true).
Lemma insert_by_perm location r l : insert_by location r l ≡ₚ r :: l.
Proof. induction l as [|x l IH]; cbn [insert_by]; [done|]. case_match; [done|]. rewrite IH. apply Permutation_swap. Qed.
Lemma sort_by_perm location l : sort_by location l ≡ₚ l.
Proof. induction l as [|x l IH]; cbn [sort_by foldr]; [done|]. change (foldr (insert_by location) [] l) with (sort_by location l). by rewrite insert_by_perm, IH. Qed.
Lemma insert_by_sorted location r l :
  length (pubkey r) = length location -> Forall (fun x => length (pubkey x) = length location /\ pubkey x <> pubkey r) l ->
  StronglySorted (closer location) l -> StronglySorted (closer location) (insert_by location r l).
Proof.
  intros Hr Hl Hs. induction Hs as [|x l Hs IH Hx]; cbn [insert_by]; [repeat constructor|]. apply Forall_cons in Hl as [[Hlx Hne] Hl].
  destruct (XorMetric location (pubkey r) (pubkey x)) eqn:E.
  - constructor; [by constructor|]. apply Forall_cons. split; [done|]. eapply Forall_impl; [exact Hx|]. intros y Hy. by eapply XorMetric_trans.
  - constructor; [by apply IH|]. rewrite insert_by_perm. apply Forall_cons. split; [|done].
    destruct (XorMetric location (pubkey x) (pubkey r)) eqn:E2; [done|]. destruct Hne. by apply (XorMetric_total location).
Qed.
Lemma sort_by_sorted location l :
  Forall (fun x => length (pubkey x) = length location) l -> NoDup (pubkey <$> l) -> StronglySorted (closer location) (sort_by location l).
Proof.
  intros Hl. induction Hl as [|x l Hx Hl IH]; cbn; [constructor|]. intros [Hin Hnd]%NoDup_cons. apply insert_by_sorted; [done| |by apply IH].
  change (foldr (insert_by location) [] l) with (sort_by location l). rewrite sort_by_perm. rewrite Forall_forall in *. intros y Hy.
  split; [by apply Hl|]. intros E. apply Hin. rewrite <- E. by apply list_elem_of_fmap_2.
Qed.
Lemma sorted_app {A} (R : A -> A -> Prop) (l k : list A) x y : StronglySorted R (l ++ k) -> x ∈ l -> y ∈ k -> R x y.
Proof.
  induction l as [|a l IH]; cbn; [by intros ? ?%elem_of_nil|]. intros [Hs Ha]%StronglySorted_inv [-> |Hx]%elem_of_cons Hy; [|by apply IH].
  rewrite Forall_forall in Ha. apply Ha, elem_of_app. by right.
Qed.
(** [FindManyClosestTo] gives contacts of the database, as many as asked for or as there are, the nearest first, and
    none that is left out is nearer than one of them. *)
Theorem find_many_closest location n d :
  db_ok d -> key_wf location ->
  let l := FindManyClosestTo location n d in
  length l = Nat.min n (NumLoaded d) /\ StronglySorted (closer location) l /\
  BucketSpec.picks location (length l) (fst <$> entries d) (pubkey <$> l) /\ Forall (fun r => Get (pubkey r) d = Some r) l.
Proof.
  intros Hd [Hloc _]. unfold FindManyClosestTo. change ((fun e => rc e.2) <$> entries d) with (contacts d).
  set (m := if (n <? length (contacts d))%nat then n else length (contacts d)). cbn zeta.
  assert (NumLoaded d = length (contacts d)) as HN by (unfold contacts, entries; rewrite length_fmap; symmetry; apply length_map_to_list).
  assert (m = Nat.min n (NumLoaded d)) as Hm by (rewrite HN; unfold m; destruct (Nat.ltb_spec n (length (contacts d))); lia).
  assert (StronglySorted (closer location) (sort_by location (contacts d))) as Hs.
  { apply sort_by_sorted; [|by apply contacts_nodup]. apply Forall_forall. intros r Hr. apply contacts_ok in Hr as [[] _]; [congruence|done]. }
  pose proof (sort_by_perm location (contacts d)) as Hp. set (s := sort_by location (contacts d)) in *.
  assert (NoDup (pubkey <$> s)) as Hnd by (rewrite Hp; by apply contacts_nodup).
  rewrite <- contacts_keys by done. rewrite <- Hp. pose proof (take_drop m s) as Htd. rewrite <- Htd in Hs, Hnd. rewrite fmap_app in Hnd.
  apply NoDup_app in Hnd as (Hn1 & Hn2 & _). split_and!.
  - rewrite length_take, Hp. lia.
  - clear -Hs. induction (take m s) as [|a l IH]; [constructor|]. cbn in Hs. apply StronglySorted_inv in Hs as [Hs Ha].
    constructor; [by apply IH|]. rewrite Forall_app in Ha. by destruct Ha.
  - split_and!; [by rewrite length_fmap|done|intros x Hx; rewrite <- Htd, fmap_app, elem_of_app; by left|].
    intros x y Hx Hy Hny. rewrite <- Htd, fmap_app, elem_of_app in Hy. destruct Hy as [|Hy]; [done|].
    apply list_elem_of_fmap in Hx as (rx & -> & Hx), Hy as (ry & -> & Hy). by apply (sorted_app _ _ _ _ _ Hs).
  - apply Forall_forall. intros r Hr. apply contacts_in; [done|]. rewrite <- Hp. rewrite <- Htd. apply elem_of_app. by left.
Qed.

(** ** Updates *)
Lemma put_if_newer now r d :
  db_ok d -> contact_ok r ->
  db_ok (PutIfNewer now r d) /\
  Get (pubkey r) (PutIfNewer now r d) = Some (match Get (pubkey r) d with Some o => if OtherIsNewer o r then r else o | None => r end) /\
  forall pk, pk <> pubkey r -> Get pk (PutIfNewer now r d) = Get pk d.
Proof.
  intros Hd [Hw Hz]. unfold PutIfNewer, Get, db_ok. destruct (m_Entries d !! pubkey r) as [e|] eqn:E; cbn [fmap option_fmap option_map].
  2:{ cbn. split_and!; [by apply map_Forall_insert_2|by rewrite lookup_insert_eq|]. intros pk Hne. by rewrite lookup_insert_ne. }
  destruct (OtherIsNewer (rc e) r); [|by rewrite E]. cbn. rewrite insert_delete_eq.
  split_and!; [by apply map_Forall_insert_2|by rewrite lookup_insert_eq|]. intros pk Hne. by rewrite lookup_insert_ne.
Qed.
Lemma put_contact now r d :
  db_ok d -> contact_ok r -> db_ok (Put now r d) /\ forall pk, Get pk (Put now r d) = if decide (pk = pubkey r) then Some r else Get pk d.
Proof.
  intros Hd [Hw Hz]. unfold Put, Get, db_ok. cbn. rewrite insert_delete_eq. split; [by apply map_Forall_insert_2|]. intros pk.
  case_decide as Hp; [subst; by rewrite lookup_insert_eq|by rewrite lookup_insert_ne].
Qed.

Definition removes (p : Entry -> bool) (l : list (RouterID * Entry)) (k : RouterID) : Prop := exists e, (k, e) ∈ l /\ p e = true.
Lemma removes_cons p k0 e0 l k : removes p ((k0, e0) :: l) k <-> (k = k0 /\ p e0 = true) \/ removes p l k.
Proof. unfold removes. setoid_rewrite elem_of_cons. naive_solver. Qed.
Lemma remove_fold p l removed m :
  NoDup (fst <$> l) -> (forall k e, (k, e) ∈ l -> pubkey (rc e) = k) ->
  let '(removed', m') := foldl (remove_step p) (removed, m) l in
  (forall k, removes p l k -> m' !! k = None) /\ (forall k, ~ removes p l k -> m' !! k = m !! k) /\
  (forall k, k ∈ removed' <-> k ∈ removed \/ removes p l k).
Proof.
  revert removed m. induction l as [|[k0 e0] l IH]; intros removed m Hnd Hl; cbn [foldl].
  { split_and!; [by intros k (e & ?%elem_of_nil & _)|done|]. intros k. split; [by left|]. intros [|(e & ?%elem_of_nil & _)]; done. }
  cbn in Hnd. apply NoDup_cons in Hnd as [Hk0 Hnd].
  assert (~ removes p l k0) as Hno by (intros (e & He & _); apply Hk0, list_elem_of_fmap; by exists (k0, e)).
  assert (remove_step p (removed, m) (k0, e0) = if p e0 then (set_insert k0 removed, delete k0 m) else (removed, m)) as ->.
  { unfold remove_step. cbn [fst snd]. by rewrite (Hl k0 e0 (list_elem_of_here _ _)). }
  destruct (p e0) eqn:Ep; [specialize (IH (set_insert k0 removed) (delete k0 m) Hnd)|specialize (IH removed m Hnd)];
    destruct (foldl _ _ l) as [removed' m']; (destruct IH as (H1 & H2 & H3); [intros k e He; apply Hl; by apply list_elem_of_further|]);
    setoid_rewrite removes_cons; rewrite Ep; split_and!; intros k.
  - intros [[-> _]|Hk]; [|by apply H1]. by rewrite H2, lookup_delete_eq.
  - intros Hk. rewrite H2, lookup_delete_ne; naive_solver.
  - rewrite H3, elem_of_set_insert. naive_solver.
  - naive_solver.
  - intros Hk. apply H2. naive_solver.
  - rewrite H3. naive_solver.
Qed.
Lemma remove_entries_spec p d :
  db_ok d ->
  let '(d', jobs) := remove_entries p d in
  db_ok d' /\ (forall pk, m_Entries d' !! pk = match m_Entries d !! pk with Some e => if p e then None else Some e | None => None end) /\
  (on_disk d = true -> forall pk, (exists l, RemoveFiles l ∈ jobs /\ pk ∈ l) <-> is_Some (m_Entries d !! pk) /\ m_Entries d' !! pk = None).
Proof.
  intros Hd. unfold remove_entries. pose proof (remove_fold p (entries d) [] (m_Entries d) (NoDup_fst_map_to_list _)) as H.
  destruct (foldl (remove_step p) ([], m_Entries d) (entries d)) as [removed m]. destruct H as (H1 & H2 & H3).
  { intros k e He%entries_in. by destruct (Hd _ _ He). }
  assert (forall pk, m !! pk = match m_Entries d !! pk with Some e => if p e then None else Some e | None => None end) as Hm.
  { intros pk. destruct (m_Entries d !! pk) as [e|] eqn:E.
    - destruct (p e) eqn:Ep; [apply H1; exists e; split; [by apply entries_in|done]|]. rewrite H2; [done|].
      intros (e' & He%entries_in & He'). congruence.
    - rewrite H2; [done|]. intros (e' & He%entries_in & He'). congruence. }
  cbn. split_and!; [|done|].
  - intros k e He. cbn in He. rewrite Hm in He. destruct (m_Entries d !! k) as [e'|] eqn:E; [|done]. destruct (p e'); [done|]. simplify_eq. by apply Hd.
  - intros Hdisk pk.
    assert (is_Some (m_Entries d !! pk) /\ m !! pk = None <-> pk ∈ removed) as ->.
    { rewrite H3, elem_of_nil, Hm. unfold removes. setoid_rewrite entries_in. split.
      - intros [[e E] Hn]. rewrite E in Hn. destruct (p e) eqn:Ep; [|done]. naive_solver.
      - intros [[]|(e & E & Ep)]. rewrite E, Ep. naive_solver. }
    unfold AsyncRemoveManyFromDisk. cbn. rewrite Hdisk. cbn [negb]. destruct removed as [|x r]; cbn [length Nat.eqb].
    + split; [intros (l & []%elem_of_nil & _)|by intros ?%elem_of_nil].
    + split; [intros (l & [= ->]%list_elem_of_singleton & Hl); done|]. intros Hpk. eexists. split; [apply list_elem_of_here|done].
Qed.

Inductive op := OpPut (now : Z) (r : RouterContact.t) | OpPutIfNewer (now : Z) (r : RouterContact.t) | OpRemove (pk : RouterID)
  | OpRemoveIf (visit : RouterContact.t -> bool) | OpRemoveStale (keep : list RouterID) (cutoff : Z) | OpTick (now : Z).
Definition run (d : t) (o : op) : t :=
  match o with
  | OpPut now r => Put now r d
  | OpPutIfNewer now r => PutIfNewer now r d
  | OpRemove pk => (Remove pk d).1
  | OpRemoveIf visit => (RemoveIf visit d).1
  | OpRemoveStale keep cutoff => (RemoveStaleRCs keep cutoff d).1
  | OpTick now => (Tick now d).1
  end.
Definition op_ok (o : op) : Prop := match o with OpPut _ r | OpPutIfNewer _ r => contact_ok r | _ => True end.
(** Only an unconditional [Put] replaces a contact by an older one. *)
Definition no_put (o : op) : Prop := match o with OpPut _ _ => False | _ => True end.
Lemma run_ok d o : db_ok d -> op_ok o -> db_ok (run d o).
Proof.
  intros Hd Ho. destruct o as [now r|now r|pk|visit|keep cutoff|now]; cbn [run].
  - by apply put_contact. - by apply put_if_newer.
  - unfold Remove, db_ok. cbn. by apply map_Forall_delete.
  - unfold RemoveIf. pose proof (remove_entries_spec (fun e => visit (rc e)) d Hd) as H. destruct (remove_entries _ d). by destruct H.
  - unfold RemoveStaleRCs. match goal with |- context [remove_entries ?p d] => pose proof (remove_entries_spec p d Hd) as H end.
    destruct (remove_entries _ d). by destruct H.
  - unfold Tick. by repeat case_match.
Qed.
Lemma run_monotone d o pk r r' :
  db_ok d -> op_ok o -> no_put o -> Get pk d = Some r -> Get pk (run d o) = Some r' -> last_updated r <= last_updated r'.
Proof.
  intros Hd Ho Hn Hr Hr'. destruct o as [now x|now x|pk'|visit|keep cutoff|now]; cbn [run no_put] in *; [done| | | | |].
  - destruct (put_if_newer now x d Hd Ho) as (_ & H1 & H2). destruct (decide (pk = pubkey x)) as [-> |Hne]; [|rewrite H2 in Hr' by done; by simplify_eq].
    rewrite H1, Hr in Hr'. unfold OtherIsNewer in Hr'. destruct (Z.ltb_spec (last_updated r) (last_updated x)); simplify_eq; lia.
  - unfold Get, Remove in *. cbn in Hr'. apply fmap_Some in Hr' as (e & [_ He]%lookup_delete_Some & ->). rewrite He in Hr. by simplify_eq/=.
  - unfold RemoveIf, Get in *. pose proof (remove_entries_spec (fun e => visit (rc e)) d Hd) as H. destruct (remove_entries _ d) as [d' js]. destruct H as (_ & H & _).
    cbn [fst] in *. rewrite H in Hr'. destruct (m_Entries d !! pk) as [e|]; [|done]. case_match; [done|]. by simplify_eq/=.
  - unfold RemoveStaleRCs, Get in *. match type of Hr' with context [remove_entries ?p d] => pose proof (remove_entries_spec p d Hd) as H end.
    destruct (remove_entries _ d) as [d' js]. destruct H as (_ & H & _).
    cbn [fst] in *. rewrite H in Hr'. destruct (m_Entries d !! pk) as [e|]; [|done]. case_match; [done|]. by simplify_eq/=.
  - unfold Tick in Hr'. repeat case_match; unfold Get in *; cbn in *; by simplify_eq.
Qed.
(** Whatever is put and removed, contacts stay under their own keys, and without an unconditional [Put] the contact
    of a router is never replaced by an older one. *)
Theorem nodedb_invariant ops o d pk r r' :
  db_ok d -> Forall op_ok (ops ++ [o]) ->
  db_ok (foldl run d ops) /\
  (no_put o -> Get pk (foldl run d ops) = Some r -> Get pk (run (foldl run d ops) o) = Some r' -> last_updated r <= last_updated r').
Proof.
  intros Hd [Ho [Ho' _]%Forall_cons]%Forall_app. assert (db_ok (foldl run d ops)) as Hok.
  { revert d Hd. induction Ho as [|x ops Hx _ IH]; intros d Hd; cbn [foldl]; [done|]. apply IH, run_ok; done. }
  split; [done|]. intros Hn. by apply run_monotone.
Qed.
End NodeDBSpec.

(** * Where the searches fail *)

(** The key opposite to the target is never nearer than the initial distance: with it as the only node,
    [FindClosest] reports success and leaves the result as it was. *)
Theorem find_closest_misses {Val} (v : Val) (target result : Key_t) :
  key_wf target -> Bucket.FindClosest target result [(BucketSpec.opposite target, v)] = (true, result).
Proof.
  intros [Hl Hb]. unfold Bucket.FindClosest. cbn [foldl length Nat.ltb Nat.leb fst].
  assert (key_xor (BucketSpec.opposite target) target = Fill 255) as E.
  { unfold BucketSpec.opposite, Fill. rewrite key_xor_comm, <- Hl. clear. unfold key_xor. induction target as [|x t IH]; cbn; [done|].
    rewrite <- Z.lxor_assoc, Z.lxor_nilpotent, Z.lxor_0_l. by rewrite IH. }
  unfold Bucket.closer_step. rewrite E. cbn [fst]. by rewrite lex_lt_irrefl.
Qed.
Lemma find_closest_misses_witness :
  key_wf (Fill 1) /\ Bucket.FindClosest (Fill 1) (Fill 0) [(BucketSpec.opposite (Fill 1), tt)] = (true, Fill 0).
Proof.
  assert (key_wf (Fill 1)) as H by (split; [done|]; by apply Forall_replicate).
  split; [exact H|]. exact (find_closest_misses tt (Fill 1) (Fill 0) H).
Defined.

(** The nodes are in the order of the metric and the excluded keys in the order of the keys, but the set difference
    expects one order: [GetRandomNodeExcluding] can give an excluded node. *)
Theorem random_node_excluded_returned :
  exists (us a b : Key_t) (ra rb : RouterContact.t),
    let nodes := foldl (BucketSpec.run us) [] [BucketSpec.OPut ra; BucketSpec.OPut rb] in
    RouterContact.pubkey ra = a /\ RouterContact.pubkey rb = b /\
    Bucket.GetRandomNodeExcluding 0 (set_of [a; b]) nodes = Some a.
Proof.
  set (c k := RouterContact.Mk [] [] [] k [] [] 0 0 None [] []).
  exists (Fill 1), (Fill 0), (Fill 1), (c (Fill 0)), (c (Fill 1)). split_and!; [done..|]. vm_compute. reflexivity.
Qed.

(** * Witnesses *)
Definition rc_ref (k : Key_t) (at_ : Z) : RouterContact.t := RouterContact.Mk [] (zeros 8) (zeros 32) k (zeros 64) (zeros 32) at_ 0 None [] [].
Lemma key_wf_fill c : is_byte c -> key_wf (Fill c).
Proof. intros Hc. split; [apply length_replicate|by apply Forall_replicate]. Qed.

Lemma bucket_refines_map_witness :
  let ops := [BucketSpec.OPut (rc_ref (Fill 5) 1); BucketSpec.OPut (rc_ref (Fill 3) 1); BucketSpec.OPut (rc_ref (Fill 5) 4)] in
  map_find (XorMetric (Fill 1)) (Fill 5) (foldl (BucketSpec.run (Fill 1)) [] ops) = Some (rc_ref (Fill 5) 4).
Proof.
  intros ops. destruct (BucketSpec.bucket_refines_map (Fill 1) ops (Fill 5)) as (_ & H & _); [by repeat constructor|done|].
  rewrite H. vm_compute. reflexivity.
Defined.
Lemma nearest_nodes_witness :
  let nodes := foldl (BucketSpec.run (Fill 1)) [] [BucketSpec.OPut (rc_ref (Fill 5) 1); BucketSpec.OPut (rc_ref (Fill 3) 1); BucketSpec.OPut (rc_ref (Fill 9) 1)] in
  (Bucket.GetManyNearExcluding (Fill 2) [] 1 [Fill 9] nodes).1 = (1 <=? length (BucketSpec.candidates [Fill 9] (fst <$> nodes)))%nat.
Proof.
  intros nodes. pose proof (BucketSpec.nearest_nodes (Fill 1) nodes (Fill 2) [Fill 9] 1) as H. cbn zeta in H.
  destruct (Bucket.GetManyNearExcluding (Fill 2) [] 1 [Fill 9] nodes) as [ok r]. apply H.
  - done.
  - apply BucketSpec.run_all; [by repeat constructor|]. split; [by split; constructor|apply map_Forall_empty].
  - repeat (apply Forall_cons; split; [by apply key_wf_fill|]). constructor.
  - by apply key_wf_fill.
  - repeat constructor.
  - apply (bool_decide_unpack _). vm_compute. exact I.
Defined.
Definition db_ref : NodeDB.t := NodeDB.Put 0 (rc_ref (Fill 5) 1) (NodeDB.Put 0 (rc_ref (Fill 3) 1) (NodeDB.Mk ∅ true 0)).
Lemma db_ref_ok : NodeDBSpec.db_ok db_ref.
Proof. repeat (apply NodeDBSpec.put_contact; [|by split; [apply key_wf_fill|]]). apply map_Forall_empty. Qed.
Lemma find_closest_witness : RouterContact.pubkey (NodeDB.FindClosestTo [] (Fill 2) db_ref) = Fill 3 /\
  XorMetric (Fill 2) (RouterContact.pubkey (NodeDB.FindClosestTo [] (Fill 2) db_ref)) (Fill 5) = true.
Proof.
  destruct (NodeDBSpec.find_closest [] (Fill 2) db_ref db_ref_ok) as [_ H]; [by apply key_wf_fill| |].
  { intros E. apply (f_equal (fun m : gmap RouterID NodeDB.Entry => bool_decide (is_Some (m !! Fill 5)))) in E. vm_compute in E. discriminate. }
  split; [vm_compute; reflexivity|]. apply (H (Fill 5) (rc_ref (Fill 5) 1)); [vm_compute; reflexivity|]. vm_compute. discriminate.
Defined.
Lemma find_many_closest_witness : length (NodeDB.FindManyClosestTo (Fill 2) 4 db_ref) = 2%nat.
Proof. destruct (NodeDBSpec.find_many_closest (Fill 2) 4 db_ref db_ref_ok) as [H _]; [by apply key_wf_fill|]. rewrite H. vm_compute. reflexivity. Defined.
Lemma nodedb_invariant_witness :
  NodeDBSpec.db_ok (foldl NodeDBSpec.run db_ref [NodeDBSpec.OpRemove (Fill 3)]) /\ 1 <= 7.
Proof.
  destruct (NodeDBSpec.nodedb_invariant [NodeDBSpec.OpRemove (Fill 3)] (NodeDBSpec.OpPutIfNewer 0 (rc_ref (Fill 5) 7)) db_ref (Fill 5)
    (rc_ref (Fill 5) 1) (rc_ref (Fill 5) 7) db_ref_ok) as [H1 H2].
  - repeat (apply Forall_cons; split; [done || by split; [apply key_wf_fill|]|]). constructor.
  - split; [exact H1|]. apply H2; [done|vm_compute; reflexivity..].
Defined.
