(* ===== verification/TrafficPolicy.v ===== *)
(** * Traffic policies (llarp/net/traffic_policy.cpp) and the text of ranges (ip_range.cpp)

    What an exit says it carries: a set of protocols and a set of ranges, each in the order of its
    comparison. [inet_ntop], [getprotobyname], [getservbyname] and the strings of oxenc are
    parameters. *)

From Stdlib Require Import Sorting.Sorted.
From S2P Require Import Prelude Buffer Bencode Codec Str NetInt IpRange IpPacket Contact.

(** ** The system library and oxenc *)
Class InetNtop4 := { inet_ntop4 : Z -> list Z }.
Class InetTextSpec (P : InetPton) (N : InetNtop) (N4 : InetNtop4) : Prop := {
  inet_ntop4_text v : (0 ∉ inet_ntop4 v) /\ (chr_colon ∉ inet_ntop4 v) /\ (chr_slash ∉ inet_ntop4 v);
  inet_ntop4_short v : (length (inet_ntop4 v) < 16)%nat;
  inet_pton4_ntop4 v : in_width 32 v -> inet_pton4 (inet_ntop4 v) = Some v;
  inet_ntop6_colon v : (chr_colon ∈ inet_ntop6 v) /\ (chr_slash ∉ inet_ntop6 v);
}.
Class OxencString := { bt_serialize_string : list Z -> list Z; bt_deserialize_string : list Z -> option (list Z) }.
Class OxencStringSpec (O : OxencString) : Prop := {
  bt_serialize_string_spec s : bt_serialize_string s = enc_str s;
  bt_deserialize_string_spec s : str_ok s -> bt_deserialize_string (enc_str s) = Some s;
}.
Class Netdb := {
  getprotobyname : list Z -> option Z;
  getprotobynumber : Z -> option (list Z);
  getservbyname : list Z -> list Z -> option Z;  (** [s_port], in network order *)
}.

(** ** Sets in the order of a comparison *)
(** [emplace(item).second] and the set after it. *)
Definition set_emplace {A} (lt : A -> A -> bool) (x : A) (l : list A) : bool * list A :=
  (negb (existsb (fun y => negb (lt x y) && negb (lt y x)) l), IPRangeMap.set_insert lt x l).
Definition read_ordered {A} {EA : BEncodable A} (lt : A -> A -> bool) (fuel : nat) (set : list A) (b : llarp_buffer_t)
  : res (bool * list A * llarp_buffer_t) :=
  bencode_read_list fuel (fun set more b =>
    if more : bool then
      let* (item, b) := BDecode fuel b in
      match item with
      | None => Ok (false, set, b)
      | Some item => let (added, set) := set_emplace lt item set in Ok (added, set, b)
      end
    else Ok (true, set, b)) set b.
(** The sink that collects integers. *)
Definition read_uint64s (fuel : nat) (vals : list Z) (b : llarp_buffer_t) : res (bool * list Z * llarp_buffer_t) :=
  bencode_read_list fuel (fun vals more b =>
    if more : bool then
      let* (intval, b) := bencode_read_integer b in
      match intval with None => Ok (false, vals, b) | Some v => Ok (true, vals ++ [v], b) end
    else Ok (true, vals, b)) vals b.

Section policy.
Context {OS : OxencSwap} {IP : InetPton} {IN : InetNtop} {IN4 : InetNtop4} {OX : OxencString} {DB : Netdb}.

(** ** IPRange *)
Definition BaseAddressString (r : IPRange) : list Z :=
  if IsV4 r then inet_ntop4 (v32 (nval (TruncateV6 (addr r)))) else inet_ntop6 (nval (addr r)).
Definition NetmaskString (r : IPRange) : list Z :=
  if IsV4 r then inet_ntop4 (v32 (nval (TruncateV6 (netmask_bits r)))) else inet_ntop6 (nval (netmask_bits r)).
Definition IPRange_ToString (r : IPRange) : list Z := BaseAddressString r ++ [chr_slash] ++ print_dec (HostmaskBits r).
Definition IPRange_BEncode (r : IPRange) : writer := write (bt_serialize_string (IPRange_ToString r)).
(** [FromString] may throw, which nothing here catches. *)
Definition IPRange_BDecode (fuel : nat) (b : llarp_buffer_t) : res (option IPRange * llarp_buffer_t) :=
  let start := cur b in
  let* (ok, _, b) := bencode_discard fuel b in
  if negb ok then Ok (None, b)
  else match bt_deserialize_string (take (cur b - start) (drop start (mem b))) with
       | None => Ok (None, b)
       | Some str => let* r := FromString str in Ok (r, b)
       end.
Definition range_bencodable : BEncodable IPRange := {| BEncode := IPRange_BEncode; BDecode := IPRange_BDecode |}.

(** ** ProtocolInfo *)
Definition port_t := nuint_t uint16_t.
Record ProtocolInfo := MkProtocol { protocol : Z; port : option port_t }.
(** [std::stoi(str, nullptr, 16)], without its sign and prefix: the digits up to the first other character. *)
Definition hex_digit (c : Z) : option Z :=
  if is_digit c then Some (c - 48) else if (97 <=? c) && (c <=? 102) then Some (c - 87) else if (65 <=? c) && (c <=? 70) then Some (c - 55) else None.
Fixpoint parse_hex (acc : Z) (s : list Z) : Z :=
  match s with c :: r => match hex_digit c with Some d => parse_hex (16 * acc + d) r | None => acc end | [] => acc end.
Definition stoi16 (str : list Z) : res Z :=
  let s := skip_space str in
  let (neg, ds) := match s with
                   | c :: r => if c =? 45 then (true, r) else if c =? 43 then (false, r) else (false, s)
                   | [] => (false, []) end in
  let ds := match ds with
            | a :: x :: d :: r => if (a =? 48) && ((x =? 120) || (x =? 88)) && bool_decide (is_Some (hex_digit d)) then d :: r else ds
            | _ => ds end in
  match ds with
  | c :: _ => match hex_digit c with
              | Some _ => let v := if neg then - parse_hex 0 ds else parse_hex 0 ds in if (- 2 ^ 31 <=? v) && (v <? 2 ^ 31) then Ok v else Throw
              | None => Throw
              end
  | [] => Throw
  end.
(** Names go to the system library as C strings. *)
Definition ParseIPProtocol (data : list Z) : res Z :=
  match getprotobyname (c_str data) with
  | Some p => Ok (u8 p)
  | None =>
      if starts_with data (chars "0x") then let* v := stoi16 (drop 2 data) in if 0 <? v then Ok (u8 v) else Throw
      else Throw
  end.
Definition IPProtocolName (proto : Z) : res (list Z) := match getprotobynumber proto with Some n => Ok n | None => Throw end.
(** [ProtocolInfo(spec)]; [parts[0]] of no parts is past the end of the vector. *)
Definition ProtocolInfo_parse (data : list Z) : res ProtocolInfo :=
  match split data [chr_slash] false with
  | [] => Oob
  | p0 :: rest =>
      let* proto := ParseIPProtocol p0 in
      match rest with
      | [portStr] =>
          let* protoName := IPProtocolName proto in
          match getservbyname (c_str portStr) protoName with
          | Some p => Ok (MkProtocol proto (Some (NUInt (U16 (u16 p)))))
          | None => let* portInt := stoi portStr in
                    if 0 <? portInt then Ok (MkProtocol proto (Some (ToNet (HUInt (U16 (u16 portInt)))))) else Throw
          end
      | _ => Ok (MkProtocol proto None)
      end
  end.
Definition host_port (p : option port_t) : Z := match p with Some p => v16 (hval (ToHost p)) | None => 0 end.
(** [operator<] *)
Definition ProtocolInfo_lt (a b : ProtocolInfo) : bool :=
  (protocol a <? protocol b) || ((protocol a =? protocol b) && (host_port (port a) <? host_port (port b))).
Definition MatchesPacket (p : ProtocolInfo) (pkt : list Z) : res bool :=
  let* proto := byte_at Header.protocol pkt in
  if negb (proto =? protocol p) then Ok false
  else match port p with
       | None => Ok true
       | Some port => let* maybe := IPPacket.DstPort pkt in
                      Ok (match maybe with Some dst => v16 (nval port) =? v16 (nval dst) | None => true end)
       end.
Definition ProtocolInfo_BEncode (p : ProtocolInfo) : writer :=
  bencode_start_list ⩓ bencode_write_uint64 (protocol p) ⩓ write_opt (port p) (fun port => bencode_write_uint64 (v16 (hval (ToHost port)))) ⩓ bencode_end.
Definition ProtocolInfo_BDecode (fuel : nat) (b : llarp_buffer_t) : res (option ProtocolInfo * llarp_buffer_t) :=
  let* (ok, vals, b) := read_uint64s fuel [] b in
  if negb ok then Ok (None, b)
  else match vals with
       | [] => Ok (None, b)
       | v0 :: rest =>
           if 255 <? v0 then Ok (None, b)
           else match rest with
                | [] => Ok (Some (MkProtocol v0 None), b)
                | v1 :: _ => if 65536 <? v1 then Ok (None, b) else Ok (Some (MkProtocol v0 (Some (ToNet (HUInt (U16 (u16 v1)))))), b)
                end
       end.
Definition protocol_bencodable : BEncodable ProtocolInfo := {| BEncode := ProtocolInfo_BEncode; BDecode := ProtocolInfo_BDecode |}.

(** ** TrafficPolicy *)
Record TrafficPolicy := MkPolicy { ranges : list IPRange; protocols : list ProtocolInfo }.
#[local] Instance eta_TrafficPolicy : Eta TrafficPolicy := fun p => MkPolicy (ranges p) (protocols p).
(** The loops of [AllowsTraffic] return at the first match. *)
Fixpoint matches_any (l : list ProtocolInfo) (pkt : list Z) : res bool :=
  match l with [] => Ok false | p :: l => let* m := MatchesPacket p pkt in if m : bool then Ok true else matches_any l pkt end.
Fixpoint in_any_range (l : list IPRange) (pkt : list Z) : res bool :=
  match l with
  | [] => Ok false
  | range :: l =>
      let* v6 := IPPacket.IsV6 pkt in
      if v6 : bool then let* dst := IPPacket.dstv6 pkt in if Contains range dst then Ok true else in_any_range l pkt
      else let* v4 := IPPacket.IsV4 pkt in
           if v4 : bool then let* dst := IPPacket.dst4to6 pkt in if Contains range dst then Ok true else in_any_range l pkt
           else Ok false
  end.
Definition AllowsTraffic (p : TrafficPolicy) (pkt : list Z) : res bool :=
  match protocols p, ranges p with
  | [], [] => Ok true
  | _, _ => let* m := matches_any (protocols p) pkt in if m : bool then Ok true else in_any_range (ranges p) pkt
  end.
Definition TrafficPolicy_BEncode (p : TrafficPolicy) : writer :=
  bencode_start_dict
  ⩓ BEncodeWriteDictList (EA := protocol_bencodable) [c_p] (protocols p)
  ⩓ BEncodeWriteDictList (EA := range_bencodable) [c_r] (ranges p)
  ⩓ bencode_end.
Definition TrafficPolicy_DecodeKey (fuel : nat) : decode_key TrafficPolicy :=
  on_key [c_p] (fun p _ b => let* (ok, l, b) := read_ordered (EA := protocol_bencodable) ProtocolInfo_lt fuel (protocols p) b in Ok (ok, p <| protocols := l |>, b))
  (on_key [c_r] (fun p _ b => let* (ok, l, b) := read_ordered (EA := range_bencodable) range_lt fuel (ranges p) b in Ok (ok, p <| ranges := l |>, b))
  (fun p _ b => let* (ok, _, b) := bencode_discard fuel b in Ok (ok, p, b))).
Definition policy_bencodable : BEncodable TrafficPolicy := dict_bencodable TrafficPolicy_BEncode TrafficPolicy_DecodeKey (MkPolicy [] []).
End policy.

(** * Properties *)
Lemma numbers_fold (l acc : list Z) : fold_left (fun st a => st ++ [a]) l acc = acc ++ l.
Proof. revert acc. induction l as [|x l IH]; intros acc; cbn; [by rewrite app_nil_r|]. by rewrite IH, <- app_assoc. Qed.
Lemma good_true {A St} (step : St -> A -> St) st (l : list A) : fold_good step (fun _ _ => True) st l.
Proof. revert st. induction l as [|x l IH]; intros st; cbn; [done|]. by split. Qed.
Lemma read_uint64s_reads l acc fuel pre rest : Forall (in_width 64) l -> (length (enc_list (enc_int <$> l)) <= fuel)%nat ->
  read_uint64s fuel acc (pre ‖ enc_list (enc_int <$> l) ++ rest) = Ok (true, acc ++ l, (pre ++ enc_list (enc_int <$> l)) ‖ rest).
Proof.
  intros Hl Hf. unfold read_uint64s.
  rewrite (read_list_items (EA := uint64_bencodable) (benc := enc_int) (ok := in_width 64) (fun st a => st ++ [a]) (fun _ _ => True) fuel);
    [by rewrite numbers_fold| |done|done|apply good_true|done|done].
  intros st a pre' rest' Ha _ _. by rewrite (read_integer_reads a Ha).
Qed.

Section ordered.
Context {A : Type} {EA : BEncodable A} {benc : A -> list Z} {ok : A -> Prop} {ES : BEncodableSpec A benc ok} (lt : A -> A -> bool).
(** In the order a [std::set] is walked. *)
Definition ascending (l : list A) : Prop := StronglySorted (fun a b => lt a b = true /\ lt b a = false) l.

Lemma set_emplace_last x l : Forall (fun a => lt a x = true /\ lt x a = false) l -> set_emplace lt x l = (true, l ++ [x]).
Proof.
  intros H. unfold set_emplace. f_equal.
  - apply negb_true_iff. apply not_true_is_false. rewrite existsb_exists. intros (y & Hy & E).
    apply list_elem_of_In in Hy. rewrite Forall_forall in H. destruct (H y Hy) as [H1 H2]. by rewrite H1, H2 in E.
  - induction H as [|a l [H1 H2] _ IH]; cbn; [done|]. by rewrite H2, H1, IH.
Qed.
Lemma ascending_fold l1 l2 : ascending (l1 ++ l2) ->
  fold_left (fun st a => (set_emplace lt a st).2) l2 l1 = l1 ++ l2 /\ fold_good (fun st a => (set_emplace lt a st).2) (fun st a => set_emplace lt a st = (true, st ++ [a])) l1 l2.
Proof.
  revert l1. induction l2 as [|x l2 IH]; intros l1 H; cbn [fold_left fold_good]; [by rewrite app_nil_r|].
  assert (set_emplace lt x l1 = (true, l1 ++ [x])) as E.
  { apply set_emplace_last. clear IH. unfold ascending in H. induction l1 as [|a l1 IH]; cbn in H; [constructor|].
    apply StronglySorted_inv in H as [H Ha]. constructor; [|by apply IH]. rewrite Forall_app, Forall_cons in Ha. by destruct Ha as (_ & ? & _). }
  rewrite E. cbn [snd]. destruct (IH (l1 ++ [x])) as [IH1 IH2]; [by rewrite <- app_assoc|]. rewrite <- app_assoc in IH1. by split_and!.
Qed.
Lemma read_ordered_reads l fuel pre rest : Forall ok l -> ascending l -> (length (enc_list (benc <$> l)) <= fuel)%nat ->
  read_ordered lt fuel [] (pre ‖ enc_list (benc <$> l) ++ rest) = Ok (true, l, (pre ++ enc_list (benc <$> l)) ‖ rest).
Proof using ES.
  intros Hok Ha Hf. destruct (ascending_fold [] l Ha) as [E1 E2]. rewrite app_nil_l in E1. unfold read_ordered.
  rewrite (read_list_items (fun st a => (set_emplace lt a st).2) (fun st a => set_emplace lt a st = (true, st ++ [a])) fuel); [by rewrite E1| | |done..].
  - intros st a pre' rest' Ha' Hn Hg. rewrite (BDecode_reads fuel a Ha' Hn). cbn [rbind]. by rewrite Hg.
  - done.
Qed.
End ordered.

Section spec.
Context {OS : OxencSwap} {OSS : OxencSwapSpec OS} {IP : InetPton} {IN : InetNtop} {INS : InetNtopSpec IP IN} {IN4 : InetNtop4} {ITS : InetTextSpec IP IN IN4}
  {OX : OxencString} {OXS : OxencStringSpec OX}.

(** ** Ranges *)
Definition range4 (r : IPRange) : Prop := exists a b, n4_wf a /\ 0 <= b <= 32 /\ r = MkRange (ExpandV4 a) (netmask_ipv6_bits (96 + b)).
Definition range6 (r : IPRange) : Prop := exists b, n_wf (addr r) /\ IsV4 r = false /\ 0 <= b <= 128 /\ netmask_bits r = netmask_ipv6_bits b.
Definition range_ok (r : IPRange) : Prop := range4 r \/ range6 r.

Lemma stoi_print n : 0 <= n < 2 ^ 31 -> stoi (print_dec n) = Ok n.
Proof.
  intros Hn. destruct (print_dec_cons n) as (c & r & E & Hd); [lia|].
  assert (parse_digits 0 (print_dec n) = n) as Hp by (apply parse_print_dec; lia).
  unfold stoi. rewrite E in *. assert (is_space c = false /\ (c =? 45) = false /\ (c =? 43) = false) as (H1 & H2 & H3).
  { unfold is_digit, is_space in *. lia. }
  cbn [skip_space]. rewrite H1, H2, H3, Hd, Hp. replace (- 2 ^ 31 <=? n) with true by lia. by replace (n <? 2 ^ 31) with true by lia.
Qed.
Lemma mask_bits4 b : 0 <= b <= 32 -> count_bits_32 (v32 (nval (TruncateV6 (netmask_ipv6_bits (96 + b))))) = b.
Proof using OSS.
  intros Hb. destruct (netmask_spec (96 + b)) as (Mw & Mv & _); [lia|]. destruct (TruncateV6_spec _ Mw) as [Tw Tv]. rewrite Mv in Tv.
  unfold count_bits_32. unfold haddr4, ToHost in Tv. cbn [hval to_host NetOrder_uint32 v32] in Tv. rewrite big_to_host_spec in Tv by exact Tw.
  rewrite <- (popcount_bswap 4) by exact Tw. rewrite Tv. replace (128 - (96 + b)) with (32 - b) by lia.
  assert (forallb (fun b => popcount 32 ((2 ^ 128 - 2 ^ (32 - b)) mod 2 ^ 32) =? b) (seqZ 0 33) = true) as H by (vm_compute; reflexivity).
  rewrite forallb_forall in H. apply Z.eqb_eq, H, list_elem_of_In, elem_of_seqZ. lia.
Qed.
Lemma range4_is_v4 a m : n4_wf a -> IsV4 (MkRange (ExpandV4 a) m) = true.
Proof using OSS.
  intros Ha. destruct (ExpandV4_spec a Ha) as [Ew Ev]. pose proof (haddr4_bound a Ha) as Hb.
  assert (h_wf (HUInt (uint128.of_u64 281470681743360))) as Hw by (vm_compute; done).
  destruct (haddr_ToNet _ Hw) as [Nw Nv].
  assert (prefix_range 96 V4MappedRange) as Hp by (by split).
  unfold IsV4. cbn [addr]. apply (Contains_spec 96 _ _ Hp Ew). unfold within, base, size_of, V4MappedRange. cbn [addr]. rewrite Nv, Ev.
  change (u128_val (hval (HUInt (uint128.of_u64 281470681743360)))) with (65535 * 2 ^ 32). unfold in_width in Hb.
  change (2 ^ (128 - 96)) with (2 ^ 32). rewrite Z.div_mul by lia. lia.
Qed.
Lemma no_colon a b : (chr_colon ∉ a) -> 0 <= b -> chr_colon ∉ a ++ [chr_slash] ++ print_dec b.
Proof. intros Ha Hb. rewrite !elem_of_app, list_elem_of_singleton. intros [H|[H|H]]; [done|done|].
  pose proof (print_dec_no_delim b chr_colon Hb eq_refl) as Hn. rewrite Forall_forall in Hn. by apply (Hn _ H). Qed.
Lemma parts_of_text a b : (chr_slash ∉ a) -> find [chr_slash] (a ++ [chr_slash] ++ print_dec b) = Some (length a)
  /\ drop (length a + 1) (a ++ [chr_slash] ++ print_dec b) = print_dec b /\ take (length a) (a ++ [chr_slash] ++ print_dec b) = a.
Proof. intros Ha. cbn [app]. split_and!; [by apply find_char|by rewrite drop_app_add'|by rewrite take_app_length]. Qed.
Lemma range_from_text r : range_ok r -> FromString (IPRange_ToString r) = Ok (Some r).
Proof using OSS INS ITS.
  unfold IPRange_ToString, FromString, BaseAddressString, HostmaskBits, nuint_FromString, huint32_FromString, huint128_FromString.
  intros [(a & b & Ha & Hb & ->) | (b & Ha & Hv & Hb & Hm)].
  - rewrite range4_is_v4 by done. cbn [addr netmask_bits]. rewrite Truncate_Expand, mask_bits4 by done.
    destruct (inet_ntop4_text (v32 (nval a))) as (H0 & Hc & Hs). set (t := inet_ntop4 (v32 (nval a))) in *.
    destruct (parts_of_text t b Hs) as (-> & -> & ->). rewrite (find_char_None _ _ (no_colon t b Hc ltac:(lia))), c_str_text by done.
    unfold t. rewrite inet_pton4_ntop4 by done. cbn [fmap option_fmap option_map].
    destruct (print_dec_cons b) as (c & r & E & _); [lia|]. rewrite stoi_print, E by lia. cbn [length Nat.ltb Nat.leb rbind].
    replace (b <? 0) with false by lia. replace (32 <? b) with false by lia. cbn [orb]. do 3 f_equal.
    destruct a as [[a]]. unfold ToNet, ntohl. cbn [hval to_net NetOrder_uint32 v32 nval] in *.
    rewrite host_to_big_spec, bswap_involutive by (exact Ha || apply (bswap_bound 4)). done.
  - rewrite Hv, Hm. destruct (netmask_spec b Hb) as (_ & _ & ->). destruct (inet_ntop6_colon (nval (addr r))) as [Hc Hs].
    set (t := inet_ntop6 (nval (addr r))) in *. destruct (parts_of_text t b Hs) as (-> & -> & ->).
    destruct (find [chr_colon] (t ++ [chr_slash] ++ print_dec b)) as [p|] eqn:Ef.
    2:{ exfalso. apply list_elem_of_split in Hc as (l1 & l2 & Hc). rewrite find_None in Ef. apply (Ef l1 (l2 ++ [chr_slash] ++ print_dec b)). rewrite Hc, <- !app_assoc. done. }
    rewrite c_str_text by apply inet_ntop6_text. unfold t. rewrite inet_pton6_ntop6 by exact Ha. cbn [fmap option_fmap option_map].
    destruct (print_dec_cons b) as (c & r' & E & _); [lia|].
    assert (c_str (print_dec b) = print_dec b) as ->.
    { apply c_str_text. pose proof (print_dec_no_delim b 0 ltac:(lia) eq_refl) as Hn. rewrite Forall_forall in Hn. intros H. by apply (Hn _ H). }
    rewrite atoi_print, E by lia. cbn [length Nat.ltb Nat.leb]. replace (b <? 0) with false by lia. replace (128 <? b) with false by lia.
    cbn [orb]. do 2 f_equal. destruct r as [[a] m]. cbn [addr netmask_bits nval] in *. f_equal; [|done].
    unfold ToNet. cbn [hval to_net NetOrder_uint128]. unfold hton128. by rewrite ntoh128_involutive by exact Ha.
Qed.
Definition range_text (r : IPRange) : list Z := enc_str (IPRange_ToString r).
Lemma range_text_ok r : range_ok r -> str_ok (IPRange_ToString r).
Proof using OSS INS ITS.
  intros Hr. unfold str_ok, IPRange_ToString. rewrite !length_app.
  assert (0 <= HostmaskBits r <= 128) as Hb.
  { unfold HostmaskBits. destruct Hr as [(a & b & Ha & Hb & ->) | (b & Ha & Hv & Hb & Hm)].
    - rewrite range4_is_v4 by done. cbn [netmask_bits]. rewrite mask_bits4 by done. lia.
    - rewrite Hv, Hm. destruct (netmask_spec b Hb) as (_ & _ & ->). lia. }
  pose proof (length_print_dec (HostmaskBits r) 3) as Hl. cbn [length].
  assert (length (BaseAddressString r) <= 46)%nat; [|lia]. unfold BaseAddressString. destruct (IsV4 r).
  - pose proof (inet_ntop4_short (v32 (nval (TruncateV6 (addr r))))). lia.
  - pose proof (inet_ntop6_short (nval (addr r))). lia.
Qed.
#[export] Instance range_spec : @BEncodableSpec IPRange range_bencodable range_text range_ok.
Proof using OSS INS ITS OXS.
  split.
  - intros r _. unfold range_text. destruct (enc_str_head (IPRange_ToString r)) as (c & r' & -> & Hd). exists c, r'. split; [done|]. by apply digit_not.
  - intros r _. cbn [BEncode range_bencodable]. unfold IPRange_BEncode. rewrite bt_serialize_string_spec. apply writes_write.
  - intros fuel r Hr Hf pre rest. cbn [BDecode range_bencodable]. unfold IPRange_BDecode. pose proof (range_text_ok r Hr) as Hs.
    rewrite (proj1 discard_skips_mut (range_text r)) by (by apply bencoded_str || done). cbn [rbind negb cur mem].
    replace (take _ _) with (range_text r). 2:{ rewrite <- app_assoc, drop_app_length, length_app. replace (_ + _ - _)%nat with (length (range_text r)) by lia. by rewrite take_app_length. }
    unfold range_text. rewrite bt_deserialize_string_spec by done. rewrite range_from_text by done. done.
Qed.

(** ** Protocols *)
Definition protocol_ok (p : ProtocolInfo) : Prop := 0 <= protocol p <= 255 /\ (forall a, port p = Some a -> in_width 16 (v16 (nval a))).
Definition protocol_numbers (p : ProtocolInfo) : list Z := protocol p :: match port p with Some a => [v16 (hval (ToHost a))] | None => [] end.
Definition protocol_text (p : ProtocolInfo) : list Z := enc_list (enc_int <$> protocol_numbers p).
Lemma host_port_width (a : port_t) : in_width 16 (v16 (nval a)) -> in_width 16 (v16 (hval (ToHost a))) /\ ToNet (HUInt (U16 (v16 (hval (ToHost a))))) = a.
Proof using OSS.
  intros Ha. destruct a as [[a]]. unfold ToHost, ToNet. cbn [nval hval to_host to_net NetOrder_uint16 v16] in *.
  rewrite big_to_host_spec by exact Ha. pose proof (bswap_bound 2 a) as Hb. split; [exact Hb|].
  rewrite host_to_big_spec, bswap_involutive by (exact Ha || exact Hb). done.
Qed.
#[export] Instance protocol_spec : @BEncodableSpec ProtocolInfo protocol_bencodable protocol_text protocol_ok.
Proof using OSS.
  split.
  - intros p _. by eexists _, _.
  - intros p _. cbn [BEncode protocol_bencodable]. unfold ProtocolInfo_BEncode, protocol_text, protocol_numbers, enc_list.
    change (chr_l :: ?x) with ([chr_l] ++ x). apply writes_andthen; [apply writes_write|]. cbn [fmap list_fmap concat]. rewrite <- app_assoc.
    apply writes_andthen; [apply writes_uint64|]. destruct (port p) as [a|]; cbn [write_opt fmap list_fmap concat app].
    + rewrite app_nil_r. apply writes_andthen; [apply writes_uint64|apply writes_write].
    + change [chr_e] with ([] ++ [chr_e]). apply writes_andthen; [apply writes_nop|apply writes_write].
  - intros fuel p [H1 H2] Hf pre rest. cbn [BDecode protocol_bencodable]. unfold ProtocolInfo_BDecode, protocol_text in *.
    rewrite read_uint64s_reads; [| |done].
    + cbn [rbind negb app protocol_numbers]. replace (255 <? protocol p) with false by lia.
      destruct p as [c [a|]]; cbn [port protocol protocol_numbers] in *; [|done]. destruct (host_port_width a) as [Hw E]; [by apply H2|].
      unfold in_width in Hw. replace (65536 <? v16 (hval (ToHost a))) with false by lia. rewrite (wrap_id 16) by (unfold in_width; lia). by rewrite E.
    + unfold protocol_numbers. destruct p as [c [a|]]; cbn [port protocol] in *; repeat constructor; unfold in_width; try lia;
        destruct (host_port_width a) as [Hw _]; [by apply H2|unfold in_width in Hw; lia|by apply H2|unfold in_width in Hw; lia].
Qed.

(** ** Policies *)
#[local] Existing Instance eta_TrafficPolicy.
Definition policy_text (p : TrafficPolicy) : list (list Z * list Z) :=
  [([c_p], enc_list (protocol_text <$> protocols p)); ([c_r], enc_list (range_text <$> ranges p))].
Definition policy_ok (p : TrafficPolicy) : Prop :=
  Forall protocol_ok (protocols p) /\ ascending ProtocolInfo_lt (protocols p) /\ Forall range_ok (ranges p) /\ ascending range_lt (ranges p).
#[export] Instance policy_spec : @BEncodableSpec TrafficPolicy policy_bencodable (fun p => dict (policy_text p)) policy_ok.
Proof using OSS INS ITS OXS.
  apply dict_bencodable_spec.
  - intros p (H1 & _ & H3 & _). unfold TrafficPolicy_BEncode, policy_text. writes_entries; done.
  - intros fuel p (H1 & H2 & H3 & H4) Hf. pose proof (fun k v => entry_length k v _ fuel Hf) as Hlen. unfold policy_text in *.
    exists (MkPolicy [] (protocols p)). split; [|exists p; split; [|done]].
    + apply on_key_decodes_l; [done|]. split; [done|]. intros pre rest. cbn [protocols].
      rewrite read_ordered_reads; [done|done|done|eapply Hlen; in_entries].
    + apply on_key_decodes_r, on_key_decodes_l; [done..|]. split; [done|]. intros pre rest. cbn [ranges].
      rewrite read_ordered_reads; [by destruct p|done|done|eapply Hlen; in_entries].
Qed.
End spec.

(** Which protocols an exit carries is decided for IPv6 by a byte of the source address: a packet is
    carried whatever its protocol and its destination when the second byte of its source is the
    number of an allowed protocol. *)
Theorem policy_reads_source_address {OS : OxencSwap} (p : TrafficPolicy) (pkt : list Z) (info : ProtocolInfo) (source : list Z) :
  info ∈ protocols p -> port info = None -> Forall (fun q => port q = None) (protocols p) ->
  IPPacket.IsV6 pkt = Ok true -> peek HeaderV6.srcaddr 16 pkt = Ok source -> source !! 1%nat = Some (protocol info) ->
  AllowsTraffic p pkt = Ok true.
Proof.
  intros Hin Hp Hall Hv Hs H1.
  assert (byte_at Header.protocol pkt = Ok (protocol info)) as Hb.
  { unfold peek in Hs. case_match; [|done]. injection Hs as <-. rewrite lookup_take in H1. rewrite decide_True in H1 by lia. rewrite lookup_drop in H1.
    unfold byte_at. change Header.protocol with (HeaderV6.srcaddr + 1)%nat. by rewrite H1. }
  assert (matches_any (protocols p) pkt = Ok true) as Hm.
  { clear Hv Hs H1. induction Hall as [|q l Hq _ IH]; [by apply elem_of_nil in Hin|]. cbn [matches_any]. unfold MatchesPacket. rewrite Hb, rbind_ok, Hq.
    apply elem_of_cons in Hin as [<- | Hin]; [by rewrite Z.eqb_refl|]. destruct (negb _); [apply (IH Hin)|done]. }
  unfold AllowsTraffic. rewrite Hm. by destruct (protocols p) as [|q l]; [apply elem_of_nil in Hin|].
Qed.

(** A policy whose protocols and ranges are in the order of their sets is read back as it was written. *)
Theorem traffic_policy_roundtrip {OS : OxencSwap} {OSS : OxencSwapSpec OS} {IP : InetPton} {IN : InetNtop} {INS : InetNtopSpec IP IN} {IN4 : InetNtop4}
  {ITS : InetTextSpec IP IN IN4} {OX : OxencString} {OXS : OxencStringSpec OX} (p : TrafficPolicy) (fuel : nat) (pre rest : list Z) :
  policy_ok p -> (length (dict (policy_text p)) <= fuel)%nat ->
  writes (TrafficPolicy_BEncode p) (dict (policy_text p)) /\
  bencode_decode_dict fuel (TrafficPolicy_DecodeKey fuel) (MkPolicy [] []) (pre ‖ dict (policy_text p) ++ rest) = Ok (true, p, (pre ++ dict (policy_text p)) ‖ rest).
Proof.
  intros Hp Hf. split; [exact (BEncode_writes (BEncodableSpec := policy_spec) p Hp)|]. pose proof (BDecode_reads (BEncodableSpec := policy_spec) fuel p Hp Hf pre rest) as H. cbn [BDecode policy_bencodable dict_bencodable] in H.
  unfold dict_decode in H. destruct (bencode_decode_dict _ _ _ _) as [[[[] q] b]| | |]; cbn [rbind] in H; try done. by injection H as -> ->.
Qed.

(** ** Instances *)
Definition ntop_ref : InetNtop := {| inet_ntop6 v := chr_colon :: print_dec (u128_val v mod 2 ^ 128) |}.
Definition ntop4_ref : InetNtop4 := {| inet_ntop4 v := print_dec (v mod 2 ^ 32) |}.
Definition pton_ref : InetPton := {|
  inet_pton4 s := Some (parse_digits 0 s);
  inet_pton6 s := let n := parse_digits 0 (drop 1 s) in Some (U128 (n / 2 ^ 64) (n mod 2 ^ 64));
|}.
#[export] Instance ntop_ref_spec : InetNtopSpec pton_ref ntop_ref.
Proof.
  destruct ntop_dec_spec as [H1 H2 H3]. split; intros v; specialize (H1 v); specialize (H2 v); specialize (H3 v); cbn in *.
  - pose proof (Z.mod_pos_bound (u128_val v) (2 ^ 128) eq_refl) as Hm. pose proof (length_print_dec (u128_val v mod 2 ^ 128) 39). lia.
  - rewrite elem_of_cons. intros [?|?]; done.
  - done.
Qed.
#[export] Instance text_ref_spec : InetTextSpec pton_ref ntop_ref ntop4_ref.
Proof.
  split; intros v; cbn [inet_ntop4 inet_pton4 inet_ntop6 ntop_ref ntop4_ref pton_ref].
  - pose proof (Z.mod_pos_bound v (2 ^ 32) eq_refl) as Hm.
    split_and!; [pose proof (print_dec_no_delim (v mod 2 ^ 32) 0) as H|pose proof (print_dec_no_delim (v mod 2 ^ 32) chr_colon) as H|pose proof (print_dec_no_delim (v mod 2 ^ 32) chr_slash) as H];
      intros Hin; specialize (H ltac:(lia) eq_refl); rewrite Forall_forall in H; by apply (H _ Hin).
  - pose proof (Z.mod_pos_bound v (2 ^ 32) eq_refl) as Hm. pose proof (length_print_dec (v mod 2 ^ 32) 10). lia.
  - intros Hv. unfold in_width in Hv. rewrite Z.mod_small, parse_print_dec by lia. done.
  - pose proof (Z.mod_pos_bound (u128_val v) (2 ^ 128) eq_refl) as Hm. split; [by apply list_elem_of_here|]. rewrite elem_of_cons. intros [?|Hin]; [done|].
    pose proof (print_dec_no_delim (u128_val v mod 2 ^ 128) chr_slash ltac:(lia) eq_refl) as H. rewrite Forall_forall in H. by apply (H _ Hin).
Qed.
(** The string after its length. *)
Definition oxenc_string_ref : OxencString := {|
  bt_serialize_string := enc_str;
  bt_deserialize_string s := match find [chr_colon] s with Some i => Some (drop (i + 1) s) | None => None end;
|}.
#[export] Instance oxenc_string_ref_spec : OxencStringSpec oxenc_string_ref.
Proof.
  split; [done|]. intros s _. cbn. unfold enc_str. rewrite find_char.
  - by rewrite drop_app_add'.
  - intros Hin. pose proof (print_dec_no_delim (Z.of_nat (length s)) chr_colon ltac:(lia) eq_refl) as H. rewrite Forall_forall in H. by apply (H _ Hin).
Qed.

Lemma policy_reads_source_address_witness :
  AllowsTraffic (OS := oxenc_swap_ref) (MkPolicy [] [MkProtocol 6 None]) (96 :: replicate 7 0 ++ [252; 6] ++ replicate 30 0) = Ok true.
Proof.
  apply (policy_reads_source_address (OS := oxenc_swap_ref) (MkPolicy [] [MkProtocol 6 None]) (96 :: replicate 7 0 ++ [252; 6] ++ replicate 30 0) (MkProtocol 6 None)
    ([252; 6] ++ replicate 14 0)).
  - by apply list_elem_of_here.
  - done.
  - by repeat constructor.
  - done.
  - done.
  - done.
Defined.
Definition policy_ref : TrafficPolicy :=
  MkPolicy [MkRange (ExpandV4 (OS := oxenc_swap_ref) (NUInt (U32 10))) (netmask_ipv6_bits (OS := oxenc_swap_ref) (96 + 8))] [MkProtocol 6 None].
Lemma traffic_policy_roundtrip_witness :
  let os := oxenc_swap_ref in let ip := pton_ref in let n := ntop_ref in let n4 := ntop4_ref in let ox := oxenc_string_ref in
  bencode_decode_dict 200 (TrafficPolicy_DecodeKey 200) (MkPolicy [] []) ([] ‖ dict (policy_text policy_ref) ++ []) = Ok (true, policy_ref, dict (policy_text policy_ref) ‖ []).
Proof.
  intros os ip n n4 ox. apply (traffic_policy_roundtrip (OS := oxenc_swap_ref) (IP := pton_ref) (IN := ntop_ref) (IN4 := ntop4_ref) (OX := oxenc_string_ref) policy_ref 200 [] []).
  - split_and!.
    + apply Forall_singleton. split; [cbn; lia|done].
    + repeat constructor.
    + apply Forall_singleton. left. exists (NUInt (U32 10)), 8. split_and!; [done|lia|lia|done].
    + repeat constructor.
  - apply Nat.leb_le. vm_compute. reflexivity.
Defined.
