(* ===== verification/Service.v ===== *)
(** * Identities and descriptors of hidden services (llarp/service/info.cpp, identity.cpp, intro_set.cpp, address.cpp)

    The public keys of a service, its private identity with the file it is kept in, and the set of
    introductions it publishes: in clear, and encrypted under its address. *)

From S2P Require Import Prelude Buffer Bencode Codec CryptoApi Str NetInt IpRange DnsMessage Contact TrafficPolicy.

(** ** ServiceInfo

    [m_CachedAddr] is set once: whatever is read into an object later keeps the address. *)
Module ServiceInfo.
Record t := Mk { enckey : list Z; signkey : list Z; m_CachedAddr : list Z; vanity : list Z; version : Z }.
#[export] Instance eta_t : Eta t := fun s => Mk (enckey s) (signkey s) (m_CachedAddr s) (vanity s) (version s).
Definition empty : t := Mk (zeros 32) (zeros 32) (zeros 32) (zeros 16) proto_version.
Definition CalculateAddress (s : t) : list Z := signkey s.
Definition UpdateAddr (s : t) : t := if is_zero (m_CachedAddr s) then s <| m_CachedAddr := CalculateAddress s |> else s.
(** [Addr], [Name] and [EncryptionPublicKey] cache the address as well. *)
Definition Addr (s : t) : list Z * t := let s := UpdateAddr s in (m_CachedAddr s, s).
Definition EncryptionPublicKey (s : t) : list Z * t := (enckey s, UpdateAddr s).
Definition Update (sign enc : list Z) (nonce : option (list Z)) (s : t) : t :=
  let s := s <| signkey := sign |> <| enckey := enc |> in
  UpdateAddr (match nonce with Some n => s <| vanity := n |> | None => s end).
Definition Verify {CR : Crypto} (payload sig : list Z) (s : t) : bool := verify (signkey s) payload sig.
Definition eqb (a b : t) : bool :=
  bool_decide (enckey a = enckey b) && bool_decide (signkey a = signkey b) && (version a =? version b) && bool_decide (vanity a = vanity b).
Definition DecodeKey (fuel : nat) : decode_key t := return_read
  (maybe_entry (EA := key32) fuel [c_e] enckey (fun x s => s <| enckey := x |>)
   ⨾ maybe_entry (EA := key32) fuel [c_s] signkey (fun x s => s <| signkey := x |>)
   ⨾ maybe_int 64 [c_v] version (fun x s => s <| version := x |>)
   ⨾ maybe_entry (EA := key16) fuel [c_x] vanity (fun x s => s <| vanity := x |>)).
Definition BEncode (s : t) : writer :=
  bencode_start_dict
  ⩓ BEncodeWriteDictEntry (EA := key32) [c_e] (enckey s)
  ⩓ BEncodeWriteDictEntry (EA := key32) [c_s] (signkey s)
  ⩓ BEncodeWriteDictInt [c_v] proto_version
  ⩓ write_if (negb (is_zero (vanity s))) (BEncodeWriteDictEntry (EA := key16) [c_x] (vanity s))
  ⩓ bencode_end.
(** Into the object at hand. *)
Definition BDecode (fuel : nat) (s : t) (b : llarp_buffer_t) : res (bool * t * llarp_buffer_t) :=
  let* (ok, s, b) := bencode_decode_dict fuel (DecodeKey fuel) s b in
  Ok (if ok : bool then (true, UpdateAddr s, b) else (false, s, b)).
(** [BEncodeMaybeReadDictEntry] of a member of this type. *)
Definition maybe_info {M} (fuel : nat) (k : list Z) (get : M -> t) (set : t -> M -> M) (st : M * bool) (key b : llarp_buffer_t)
  : res (bool * (M * bool) * llarp_buffer_t) :=
  let '(m, rd) := st in
  if startswith k key then
    let* (ok, s, b) := BDecode fuel (get m) b in
    let m := set s m in
    Ok (if ok : bool then (true, (m, true), b) else (false, (m, rd), b))
  else Ok (true, (m, rd), b).
(** Written as an entry. *)
Definition bencodable : BEncodable t := {|
  Bencode.BEncode := BEncode;
  Bencode.BDecode fuel b := let* (ok, s, b) := BDecode fuel empty b in Ok (if ok : bool then Some s else None, b);
|}.
End ServiceInfo.

(** ** Addresses *)
Module Address.
(** [ToKey]: where the descriptor of the service is kept. *)
Definition ToKey {SK : Subkeys} (addr : list Z) : list Z := default (zeros 32) (derive_subkey addr 1).
End Address.

(** oxenc's serialization of a vector of SRV tuples. *)
Class OxencSrvs := {
  bt_serialize_srvs : list (list Z * Z * Z * Z * list Z) -> list Z;
  bt_deserialize_srvs : list Z -> option (list (list Z * Z * Z * Z * list Z));
}.

(** ** IntroSet *)
Record IntroSet := MkIntroSet {
  addressKeys : ServiceInfo.t; intros_ : list Introduction.t; sntrupKey : list Z; topic : list Z;
  SRVs : list (list Z * Z * Z * Z * list Z); timestampSignedAt : Z; supportedProtocols : list Z;
  ownedRanges : list IPRange; exitTrafficPolicy : option TrafficPolicy; is_signature : list Z; is_version : Z }.
#[export] Instance eta_IntroSet : Eta IntroSet := fun i => MkIntroSet (addressKeys i) (intros_ i) (sntrupKey i) (topic i)
  (SRVs i) (timestampSignedAt i) (supportedProtocols i) (ownedRanges i) (exitTrafficPolicy i) (is_signature i) (is_version i).
Definition IntroSet_empty : IntroSet :=
  MkIntroSet ServiceInfo.empty [] (zeros PQ_PUBKEYSIZE) (zeros 16) [] 0 [] [] None (zeros 64) proto_version.
Abbreviation pq_key := (array_bencodable PQ_PUBKEYSIZE).

Section introset.
Context {OS : OxencSwap} {IP : InetPton} {IN : InetNtop} {IN4 : InetNtop4} {OX : OxencString} {OXV : OxencSrvs}.
(** [topic.ToString()] has the 16 characters of the tag, so it is never empty. *)
Definition IntroSet_BEncode (i : IntroSet) : writer :=
  bencode_start_dict
  ⩓ BEncodeWriteDictEntry (EA := ServiceInfo.bencodable) [c_a] (addressKeys i)
  ⩓ write_opt (exitTrafficPolicy i) (BEncodeWriteDictEntry (EA := policy_bencodable) [c_e])
  ⩓ BEncodeWriteDictList (EA := Introduction.bencodable) [c_i] (intros_ i)
  ⩓ BEncodeWriteDictEntry (EA := pq_key) [c_k] (sntrupKey i)
  ⩓ write_if (negb (length (topic i) =? 0)%nat) (BEncodeWriteDictEntry (EA := key16) [c_n] (topic i))
  ⩓ write_if (negb (length (supportedProtocols i) =? 0)%nat)
      (BEncodeWriteDictList (EA := uint64_bencodable) [c_p] (supportedProtocols i))
  ⩓ write_if (negb (length (ownedRanges i) =? 0)%nat) (BEncodeWriteDictList (EA := range_bencodable) [c_r] (ownedRanges i))
  ⩓ write_if (negb (length (SRVs i) =? 0)%nat) (bencode_write_bytestring [c_s] ⩓ write (bt_serialize_srvs (SRVs i)))
  ⩓ BEncodeWriteDictTime [c_t] (timestampSignedAt i)
  ⩓ BEncodeWriteDictInt [c_v] (is_version i)
  ⩓ BEncodeWriteDictEntry (EA := sig64) [c_z] (is_signature i)
  ⩓ bencode_end.

Definition read_policy (fuel : nat) : decode_key IntroSet := fun i _ b =>
  let* (policy, b) := BDecode (BEncodable := policy_bencodable) fuel b in
  Ok (match policy with Some p => (true, i <| exitTrafficPolicy := Some p |>) | None => (false, i) end, b).
Definition read_srvs (fuel : nat) (st : IntroSet * bool) (key b : llarp_buffer_t) : res (bool * (IntroSet * bool) * llarp_buffer_t) :=
  let '(i, rd) := st in
  if startswith [c_s] key then
    let begin := cur b in
    let* (ok, _, b) := bencode_discard fuel b in
    if negb ok then Ok (false, (i, rd), b)
    else match bt_deserialize_srvs (take (cur b - begin) (drop begin (mem b))) with
         | Some l => Ok (true, (i <| SRVs := l |>, true), b)
         | None => Ok (false, (i, rd), b)
         end
  else Ok (true, (i, rd), b).
(** The keys whose branch returns at once come first; a key has one first letter. *)
Definition IntroSet_DecodeKey (fuel : nat) : decode_key IntroSet :=
  on_key [c_e] (read_policy fuel)
  (on_key [c_i] (read_list_into (EA := Introduction.bencodable) fuel Introduction.empty intros_ (fun x i => i <| intros_ := x |>))
  (on_key [c_p] (fun i _ b => let* (ok, l, b) := read_uint64s fuel (supportedProtocols i) b in Ok (ok, i <| supportedProtocols := l |>, b))
  (on_key [c_r] (fun i _ b => let* (ok, l, b) := read_ordered (EA := range_bencodable) range_lt fuel (ownedRanges i) b in Ok (ok, i <| ownedRanges := l |>, b))
  (read_or_discard fuel
    (ServiceInfo.maybe_info fuel [c_a] addressKeys (fun x i => i <| addressKeys := x |>)
     ⨾ maybe_entry (EA := pq_key) fuel [c_k] sntrupKey (fun x i => i <| sntrupKey := x |>)
     ⨾ maybe_entry (EA := key16) fuel [c_n] topic (fun x i => i <| topic := x |>)
     ⨾ read_srvs fuel
     ⨾ maybe_time [c_t] (fun x i => i <| timestampSignedAt := x |>)
     ⨾ maybe_int 64 [c_v] is_version (fun x i => i <| is_version := x |>)
     ⨾ maybe_entry (EA := sig64) fuel [c_z] is_signature (fun x i => i <| is_signature := x |>)))))).
Definition IntroSet_BDecode (fuel : nat) (i : IntroSet) (b : llarp_buffer_t) : res (bool * IntroSet * llarp_buffer_t) :=
  bencode_decode_dict fuel (IntroSet_DecodeKey fuel) i b.

Definition OtherIsNewer (i other : IntroSet) : bool := timestampSignedAt i <? timestampSignedAt other.
Definition HasExpiredIntros (now : Z) (i : IntroSet) : bool := existsb (fun intro => Introduction.expiresAt intro <=? now) (intros_ i).
Definition HasStaleIntros (now delta : Z) (i : IntroSet) : bool := existsb (Introduction.ExpiresSoon now delta) (intros_ i).
Definition GetNewestIntroExpiration (i : IntroSet) : Z := foldl (fun m intro => Z.max (Introduction.expiresAt intro) m) 0 (intros_ i).
Definition IntroSet_IsExpired (now : Z) (i : IntroSet) : bool := GetNewestIntroExpiration i <? now.
Definition GetMatchingSRVRecords (service_proto : list Z) (i : IntroSet) : list SRVData.t :=
  SRVData.fromTuple <$> filter (fun t => bool_decide (t.1.1.1.1 = service_proto)) (SRVs i).
Definition IntroSet_Verify {CR : Crypto} (now : Z) (i : IntroSet) : res bool :=
  let* data := encode_into EncryptedIntroSet.MAX_INTROSET_SIZE (IntroSet_BEncode (i <| is_signature := zeros 64 |>)) in
  match data with
  | None => Ok false
  | Some data =>
      if negb (ServiceInfo.Verify data (is_signature i) (addressKeys i)) then Ok false
      else
        let now := now + EncryptedIntroSet.MAX_INTROSET_TIME_DELTA in
        if existsb (fun intro => (now <? Introduction.expiresAt intro) && (default_lifetime <? Introduction.expiresAt intro - now)) (intros_ i) then Ok false
        else Ok (negb (IntroSet_IsExpired now i))
  end.
(** [EncryptedIntroSet::MaybeDecrypt] *)
Definition MaybeDecrypt {CR : Crypto} (fuel : nat) (root : list Z) (s : EncryptedIntroSet.t) : res (option IntroSet) :=
  let payload := EncryptedIntroSet.introsetPayload s in
  let buf := default payload (xchacha20 payload root (EncryptedIntroSet.nounce s)) in
  let* (ok, i, _) := IntroSet_BDecode fuel IntroSet_empty (Buffer buf 0) in
  Ok (if ok : bool then Some i else None).
End introset.

(** ** Identity *)
Module Identity.
Record t := Mk { enckey : list Z; signkey : list Z; derivedSignKey : list Z; pq : list Z; version : Z; vanity : list Z; pub : ServiceInfo.t }.
#[export] Instance eta_t : Eta t := fun i => Mk (enckey i) (signkey i) (derivedSignKey i) (pq i) (version i) (vanity i) (pub i).
Definition empty : t := Mk (zeros 64) (zeros 64) (zeros 64) (zeros (PQ_SECRETKEYSIZE + PQ_PUBKEYSIZE)) proto_version (zeros 16) ServiceInfo.empty.
Definition BEncode (i : t) : writer :=
  bencode_start_dict ⩓ BEncodeWriteDictEntry (EA := sig64) [c_s] (signkey i) ⩓ BEncodeWriteDictInt [c_v] (version i) ⩓ bencode_end.
Definition DecodeKey (fuel : nat) : decode_key t := read_or_discard fuel
  (maybe_entry (EA := sig64) fuel [c_s] signkey (fun x i => i <| signkey := x |>)
   ⨾ maybe_int 64 [c_v] version (fun x i => i <| version := x |>)).
Definition Clear (i : t) : t :=
  i <| signkey := zeros 64 |> <| enckey := zeros 64 |> <| pq := zeros (PQ_SECRETKEYSIZE + PQ_PUBKEYSIZE) |> <| derivedSignKey := zeros 64 |> <| vanity := zeros 16 |>.

Section crypto.
Context {CR : Crypto} {KP : KeyPairs} {SK : Subkeys} {PQ : Pqe}.
(** The random bytes each key is made of. *)
Record seeds := Seeds { s_sign : list Z; s_enc : list Z; s_pq : list Z }.
Definition set_derived (i : t) : res t :=
  match derive_subkey_private (signkey i) 1 with Some k => Ok (i <| derivedSignKey := k |>) | None => Throw end.
Definition RegenerateKeys (r : seeds) (i : t) : res t :=
  let i := i <| signkey := identity_keygen (s_sign r) |> <| enckey := encryption_keygen (s_enc r) |> in
  let i := i <| pub ::= ServiceInfo.Update (seckey_topublic (signkey i)) (seckey_topublic (enckey i)) None |> in
  set_derived (i <| pq := pqe_keygen (s_pq r) |>).
(** With one side of the exchange, [dh_client] or [dh_server]. *)
Definition KeyExchange (dh : list Z -> list Z -> list Z -> option (list Z)) (other : ServiceInfo.t) (n : list Z) (i : t) : option (list Z) :=
  dh (ServiceInfo.EncryptionPublicKey other).1 (enckey i) n.
Definition Sign (buf : list Z) (i : t) : option (list Z) := crypto_sign (signkey i) buf.

(** The file is given by its contents, and returned when it is written. [rest] is what the buffer
    holds after the contents; with [needBackup] the file is moved away. *)
Definition EnsureKeys (fuel : nat) (file : option (list Z)) (regular needBackup : bool) (rest : list Z) (r : seeds) (i : t) : res (t * option (list Z)) :=
  let i := Clear i in
  match (if needBackup then None else file) with
  | None =>
      let* i := RegenerateKeys r i in
      let* data := encode_into 4096 (BEncode i) in
      match data with Some data => Ok (i, Some data) | None => Throw end
  | Some data =>
      if negb regular then Throw
      else if (4096 <? length data)%nat then Throw
      else
        let* (ok, i, _) := bencode_decode_dict fuel (DecodeKey fuel) i (Buffer (take 4096 (data ++ rest)) 0) in
        if negb ok then Throw
        else
          let i := if is_zero (enckey i) then i <| enckey := encryption_keygen (s_enc r) |> else i in
          let i := if is_zero (pq i) then i <| pq := pqe_keygen (s_pq r) |> else i in
          let van := if is_zero (vanity i) then None else Some (vanity i) in
          let i := i <| pub ::= ServiceInfo.Update (seckey_topublic (signkey i)) (seckey_topublic (enckey i)) van |> in
          let* i := set_derived i in Ok (i, file)
  end.

Context {OS : OxencSwap} {IP : InetPton} {IN : InetNtop} {IN4 : InetNtop4} {OX : OxencString} {OXV : OxencSrvs}.
(** [nounce] is drawn at random; [now'] is the time [Sign] reads. *)
Definition EncryptAndSignIntroSet (nounce : list Z) (other_i : IntroSet) (now now' : Z) (self : t) : res (option EncryptedIntroSet.t) :=
  match intros_ other_i with
  | [] => Ok None
  | _ =>
      let i := other_i <| timestampSignedAt := now |> <| addressKeys := pub self |> <| sntrupKey := pq_keypair_to_public (pq self) |> in
      let* data := encode_into EncryptedIntroSet.MAX_INTROSET_SIZE (IntroSet_BEncode i) in
      match data with
      | None => Ok None
      | Some data =>
          let k := (ServiceInfo.Addr (addressKeys i)).1 in
          let payload := default data (xchacha20 data k nounce) in
          let* (ok, encrypted) := EncryptedIntroSet.Sign (derivedSignKey self) now' (EncryptedIntroSet.Mk (zeros 32) now payload nounce None (zeros 64)) in
          Ok (if ok : bool then Some encrypted else None)
      end
  end.
End crypto.
End Identity.

(** * Properties *)
Module ServiceInfoSpec.
Import ServiceInfo.
Definition ok (s : t) : Prop := length (enckey s) = 32%nat /\ length (signkey s) = 32%nat /\ length (vanity s) = 16%nat.
Definition text (s : t) : list (list Z * list Z) :=
  [([c_e], enc_str (enckey s)); ([c_s], enc_str (signkey s)); ([c_v], enc_int proto_version)]
  ++ (if negb (is_zero (vanity s)) then [([c_x], enc_str (vanity s))] else []).
(** What is left in an object that held [s0]. *)
Definition over (s0 s : t) : t := UpdateAddr (Mk (enckey s) (signkey s) (m_CachedAddr s0) (if is_zero (vanity s) then vanity s0 else vanity s) proto_version).
Lemma Addr_Update sign enc n s : m_CachedAddr s = zeros 32 -> (Addr (Update sign enc n s)).1 = sign.
Proof.
  intros H. unfold Addr, Update. set (s' := match n with Some _ => _ | None => _ end).
  assert (m_CachedAddr s' = zeros 32 /\ signkey s' = sign) as [H1 H2] by (unfold s'; by destruct n).
  unfold UpdateAddr. rewrite H1. change (is_zero (zeros 32)) with true. cbn [m_CachedAddr fst]. unfold CalculateAddress. rewrite H2. by destruct (is_zero _).
Qed.
Lemma writes_info s : ok s -> writes (BEncode s) (dict (text s)).
Proof.
  intros (H1 & H2 & H3). unfold BEncode, text. cbn [app]. rewrite <- (app_nil_r (if negb (is_zero (vanity s)) then _ else _)). writes_entries; (apply key_ok_intro; [lia|done]).
Qed.
Lemma reads_info fuel s0 s pre rest : ok s -> (length (dict (text s)) <= fuel)%nat ->
  BDecode fuel s0 (pre ‖ dict (text s) ++ rest) = Ok (true, over s0 s, (pre ++ dict (text s)) ‖ rest).
Proof.
  intros (H1 & H2 & H3) Hf. unfold BDecode.
  rewrite (decode_dict_reads _ (text s) fuel s0 (Mk (enckey s) (signkey s) (m_CachedAddr s0) (if is_zero (vanity s) then vanity s0 else vanity s) proto_version)); [done| |done].
  pose proof (fun k v => entry_length k v (text s) fuel Hf) as Hlen. unfold text in *. cbn [app] in *.
  do 3 decode_entry Hlen. destruct (is_zero (vanity s)); cbn [negb] in *; [done|]. decode_entry Hlen. done.
Qed.
Lemma maybe_info_skips {M} fuel k (get : M -> t) set c : (c =? k) = false -> skips (maybe_info fuel [k] get set) c.
Proof. intros Hc [m rd] b. unfold maybe_info. by rewrite startswith_letter, Hc. Qed.
Lemma maybe_info_takes {M} fuel k (get : M -> t) set s m : ok s -> (length (dict (text s)) <= fuel)%nat ->
  takes (maybe_info fuel [k] get set) k (dict (text s)) m (set (over (get m) s) m).
Proof. intros Hs Hf rd pre rest. unfold maybe_info. rewrite startswith_letter, Z.eqb_refl, reads_info by done. done. Qed.
End ServiceInfoSpec.

(** ** Descriptors *)
Module IntroSetSpec.
Section spec.
Context {OS : OxencSwap} {OSS : OxencSwapSpec OS} {IP : InetPton} {IN : InetNtop} {INS : InetNtopSpec IP IN} {IN4 : InetNtop4} {ITS : InetTextSpec IP IN IN4}
  {OX : OxencString} {OXS : OxencStringSpec OX} {OXV : OxencSrvs}.
Definition info_ok (s : ServiceInfo.t) : Prop :=
  ServiceInfoSpec.ok s /\ ServiceInfo.m_CachedAddr s = ServiceInfo.signkey s /\ ServiceInfo.version s = proto_version.
Definition ok (i : IntroSet) : Prop :=
  info_ok (addressKeys i) /\ Forall IntroductionSpec.ok (intros_ i) /\ length (sntrupKey i) = PQ_PUBKEYSIZE /\ length (topic i) = 16%nat
  /\ SRVs i = [] /\ time_ok (timestampSignedAt i) /\ Forall (in_width 64) (supportedProtocols i)
  /\ Forall range_ok (ownedRanges i) /\ ascending range_lt (ownedRanges i) /\ (forall p, exitTrafficPolicy i = Some p -> policy_ok p)
  /\ length (is_signature i) = 64%nat /\ in_width 64 (is_version i).
#[local] Existing Instance IntroductionSpec.introduction_spec.
Abbreviation intro_text := (fun i => dict (IntroductionSpec.text i)).
Definition head_text (i : IntroSet) : list (list Z * list Z) :=
  ([c_a], dict (ServiceInfoSpec.text (addressKeys i))) ::
  match exitTrafficPolicy i with Some p => [([c_e], dict (policy_text p))] | None => [] end
  ++ [([c_i], enc_list (intro_text <$> intros_ i)); ([c_k], enc_str (sntrupKey i)); ([c_n], enc_str (topic i))].
Definition text (i : IntroSet) : list (list Z * list Z) :=
  head_text i
  ++ (if negb (length (supportedProtocols i) =? 0)%nat then [([c_p], enc_list (enc_int <$> supportedProtocols i))] else [])
  ++ (if negb (length (ownedRanges i) =? 0)%nat then [([c_r], enc_list (range_text <$> ownedRanges i))] else [])
  ++ [([c_t], enc_int (timestampSignedAt i)); ([c_v], enc_int (is_version i)); ([c_z], enc_str (is_signature i))].
Lemma over_fresh s0 s : ServiceInfo.m_CachedAddr s0 = zeros 32 -> ServiceInfo.vanity s0 = zeros 16 -> info_ok s -> ServiceInfoSpec.over s0 s = s.
Proof.
  intros H0 Hv0 ((_ & _ & Hn) & Hc & Hv). unfold ServiceInfoSpec.over, ServiceInfo.UpdateAddr. cbn [ServiceInfo.m_CachedAddr ServiceInfo.vanity]. rewrite H0, Hv0.
  change (is_zero (zeros 32)) with true. assert ((if is_zero (ServiceInfo.vanity s) then zeros 16 else ServiceInfo.vanity s) = ServiceInfo.vanity s) as ->.
  { destruct (is_zero (ServiceInfo.vanity s)) eqn:E; [|done]. by rewrite (is_zero_zeros _ E), Hn. }
  destruct s. cbn in *. by subst.
Qed.
#[local] Instance info_spec : @BEncodableSpec ServiceInfo.t ServiceInfo.bencodable (fun s => dict (ServiceInfoSpec.text s)) info_ok.
Proof.
  split.
  - intros s _. by eexists _, _.
  - intros s [H _]. by apply ServiceInfoSpec.writes_info.
  - intros fuel s (H & Hc & Hv) Hf pre rest. cbn [Bencode.BDecode ServiceInfo.bencodable]. rewrite ServiceInfoSpec.reads_info by done. cbn [rbind].
    by rewrite over_fresh.
Qed.
Lemma pq_key_ok k : length k = PQ_PUBKEYSIZE -> key_ok PQ_PUBKEYSIZE k.
Proof. intros Hk. split; [done|]. unfold str_ok. rewrite Hk. unfold PQ_PUBKEYSIZE. lia. Qed.
Lemma writes_descriptor i : ok i -> writes (IntroSet_BEncode i) (dict (text i)).
Proof using OSS INS ITS OXS.
  intros (H1 & H2 & H3 & H4 & H5 & H6 & H7 & H8 & H9 & H10 & H11 & H12). unfold IntroSet_BEncode, text, head_text. rewrite H4, H5. cbn [length Nat.eqb negb write_if app].
  apply writes_dict. apply writes_dict_cons; [by apply (writes_entry (benc := fun s => dict (ServiceInfoSpec.text s)))|]. rewrite <- app_assoc. cbn [app].
  apply writes_dict_opt; [intros p Hp; apply (writes_entry (benc := fun p => dict (policy_text p))); by apply H10|].
  apply writes_dict_cons; [by apply (writes_entry_list (benc := intro_text))|].
  apply writes_dict_cons; [by apply writes_entry, pq_key_ok|]. apply writes_dict_cons; [apply writes_entry, key_ok_intro; [lia|done]|].
  do 2 (apply writes_dict_if; [intros _; by apply writes_entry_list|]).
  apply writes_dict_nop. repeat writes_step; [done|]. apply key_ok_intro; [lia|done].
Qed.

Lemma read_srvs_skips fuel c : (c =? c_s) = false -> skips (read_srvs fuel) c.
Proof. intros Hc [i rd] b. unfold read_srvs. by rewrite startswith_letter, Hc. Qed.
Ltac intro_skips :=
  repeat apply both_skips;
  first [ apply ServiceInfoSpec.maybe_info_skips; reflexivity | apply read_srvs_skips; reflexivity | solve_skips ].
Ltac intro_takes :=
  first [ apply both_takes_l; [intro_takes|intro_skips] | apply both_takes_r; [intro_skips|intro_takes]
        | apply ServiceInfoSpec.maybe_info_takes | solve_takes ].
Ltac intro_entry Hlen :=
  eexists; split;
  [ repeat first [ apply on_key_decodes_l; [reflexivity|] | apply on_key_decodes_r; [reflexivity|] ];
    first [ apply read_or_discard_decodes; intro_takes; codec_side Hlen | apply (read_list_into_decodes (benc := intro_text)); [done|eapply Hlen; in_entries] ] |].
Lemma decodes_descriptor fuel i : ok i -> (length (dict (text i)) <= fuel)%nat -> decodes_all (IntroSet_DecodeKey fuel) (text i) IntroSet_empty i.
Proof using OSS INS ITS OXS.
  intros (H1 & H2 & H3 & H4 & H5 & H6 & H7 & H8 & H9 & H10 & H11 & H12) Hf. pose proof (fun k v => entry_length k v (text i) fuel Hf) as Hlen. clear Hf.
  unfold text, head_text in *. cbn [app] in *. rewrite <- !app_assoc in *. cbn [app] in *.
  set (i0 := IntroSet_empty <| addressKeys := addressKeys i |>).
  exists i0. split.
  { assert (decodes (IntroSet_DecodeKey fuel) [c_a] (dict (ServiceInfoSpec.text (addressKeys i))) IntroSet_empty
      (IntroSet_empty <| addressKeys := ServiceInfoSpec.over (addressKeys IntroSet_empty) (addressKeys i) |>)) as H; [|by rewrite over_fresh in H].
    do 4 (apply on_key_decodes_r; [reflexivity|]). apply read_or_discard_decodes. intro_takes; [apply H1|eapply Hlen; in_entries]. }
  apply (decodes_all_opt _ _ _ _ _ _ (i0 <| exitTrafficPolicy := exitTrafficPolicy i |>)).
  { intros p Hp. apply on_key_decodes_l; [done|]. split; [done|]. intros pre rest. unfold read_policy.
    rewrite (BDecode_reads (BEncodableSpec := policy_spec) fuel p (H10 p Hp)); [by rewrite Hp|]. eapply Hlen. rewrite Hp. in_entries. }
  { by intros ->. }
  pose proof (pq_key_ok _ H3) as Hpq. do 3 intro_entry Hlen.
  match goal with |- decodes_all _ _ ?m _ => set (i3 := m) end.
  apply (decodes_all_if _ _ _ _ _ _ (i3 <| supportedProtocols := supportedProtocols i |>)).
  { intros Hc. do 2 (apply on_key_decodes_r; [reflexivity|]). apply on_key_decodes_l; [done|]. split; [done|]. intros pre rest.
    rewrite read_uint64s_reads; [reflexivity|done|]. eapply Hlen. rewrite Hc. in_entries. }
  { destruct (supportedProtocols i) eqn:E; [|done]. intros _. done. }
  apply (decodes_all_if _ _ _ _ _ _ (i3 <| supportedProtocols := supportedProtocols i |> <| ownedRanges := ownedRanges i |>)).
  { intros Hc. do 3 (apply on_key_decodes_r; [reflexivity|]). apply on_key_decodes_l; [done|]. split; [done|]. intros pre rest.
    change (ownedRanges (i3 <| supportedProtocols := supportedProtocols i |>)) with (@nil IPRange).
    rewrite read_ordered_reads; [reflexivity|done..|]. eapply Hlen. rewrite Hc. in_entries. }
  { destruct (ownedRanges i) eqn:E; [|done]. intros _. done. }
  do 3 intro_entry Hlen. unfold i3, i0. destruct i. cbn in *. by subst.
Qed.

Section publish.
Context {CR : Crypto} {CS : CryptoSpec CR} {KP : KeyPairs} {KS : KeyPairsSpec CR KP} {SK : Subkeys} {SKS : SubkeysSpec KP SK} {PQ : Pqe} {PQS : PqeSpec PQ}.
#[local] Existing Instance Identity.eta_t.
(** The keys of a new identity. *)
Lemma RegenerateKeys_run r self : length (Identity.s_sign r) = 32%nat -> length (Identity.s_enc r) = 32%nat ->
  Identity.RegenerateKeys r Identity.empty = Ok self ->
  Identity.signkey self = identity_keygen (Identity.s_sign r) /\ derive_subkey_private (Identity.signkey self) 1 = Some (Identity.derivedSignKey self)
  /\ Identity.pq self = pqe_keygen (Identity.s_pq r) /\ info_ok (Identity.pub self)
  /\ ServiceInfo.signkey (Identity.pub self) = seckey_topublic (Identity.signkey self) /\ Identity.version self = proto_version.
Proof using KS.
  intros H1 H2. pose proof (length_topublic _ (length_identity_keygen _ H1)) as L1. pose proof (length_topublic _ (length_encryption_keygen _ H2)) as L2.
  unfold Identity.RegenerateKeys, Identity.set_derived. cbn [Identity.signkey]. 
  destruct (derive_subkey_private _ 1) as [k|] eqn:Ek; [|done]. intros [= <-]. cbn [Identity.signkey Identity.derivedSignKey Identity.pq Identity.pub Identity.version].
  split_and!; done.
Qed.

(** C15. A service that has its keys publishes its introductions: the descriptor is made, is read back as it was
    written, verifies until it expires, is kept where everyone who knows the address looks for it, and is decrypted
    with the address to the introductions, the keys of the service and the time. The signature needs the nonce
    that the text hashes to not to be 0. *)
Theorem service_published r self i nounce now now' now'' loc fuel pre rest :
  length (Identity.s_sign r) = 32%nat -> length (Identity.s_enc r) = 32%nat -> Identity.RegenerateKeys r Identity.empty = Ok self ->
  let addr := (ServiceInfo.Addr (Identity.pub self)).1 in
  derive_subkey addr 1 = Some loc -> intros_ i <> [] ->
  let i' := i <| timestampSignedAt := now |> <| addressKeys := Identity.pub self |> <| sntrupKey := pq_keypair_to_public (Identity.pq self) |> in
  ok i' -> (length (dict (text i')) <= 4043)%nat -> length nounce = 32%nat -> time_ok now' -> now'' < now' + default_lifetime ->
  (EncryptedIntroSet.MAX_INTROSET_SIZE + 128 <= fuel)%nat ->
  (forall c, xchacha20 (dict (text i')) addr nounce = Some c ->
    signable (Identity.derivedSignKey self) (dict (EncryptedIntroSetSpec.text (EncryptedIntroSet.Mk loc now' c nounce None (zeros 64))))) ->
  exists s, Identity.EncryptAndSignIntroSet nounce i now now' self = Ok (Some s)
    /\ writes (EncryptedIntroSet.BEncode s) (dict (EncryptedIntroSetSpec.text s))
    /\ BDecode (BEncodable := EncryptedIntroSet.bencodable) fuel (pre ‖ dict (EncryptedIntroSetSpec.text s) ++ rest)
       = Ok (Some s, (pre ++ dict (EncryptedIntroSetSpec.text s)) ‖ rest)
    /\ EncryptedIntroSet.Verify now'' s = Ok true
    /\ EncryptedIntroSet.derivedSigningKey s = Address.ToKey addr
    /\ MaybeDecrypt fuel addr s = Ok (Some i').
Proof using OSS INS ITS OXS CS KS SKS PQS.
  intros Hs He Hr addr Hloc Hne i' Hok Hl Hn Ht Hexp Hf Hg. destruct (RegenerateKeys_run r self Hs He Hr) as (E1 & E2 & E3 & (Hi & Hc & Hv) & E5 & _).
  assert (addr = ServiceInfo.signkey (Identity.pub self)) as Ha.
  { unfold addr, ServiceInfo.Addr, ServiceInfo.UpdateAddr. by destruct (is_zero _). }
  assert (privkey_topublic (Identity.derivedSignKey self) = Some loc) as Hloc'.
  { rewrite <- Hloc, Ha, E5, E1, <- (subkeys_agree _ 1 Hs), <- E1, E2. done. }
  assert (private_key (Identity.derivedSignKey self)) as Hpk by (rewrite E1 in E2; exact (derived_private _ _ _ Hs E2)).
  destruct (xchacha20_spec (dict (text i')) addr nounce) as (c & Ec & Lc & Ed). specialize (Hg c Ec).
  assert (length (dict (text i')) < EncryptedIntroSet.MAX_INTROSET_SIZE)%nat as Hl' by (unfold EncryptedIntroSet.MAX_INTROSET_SIZE; lia).
  destruct (EncryptedIntroSetSpec.introset_published (Identity.derivedSignKey self) loc now' now''
    (EncryptedIntroSet.Mk (zeros 32) now c nounce None (zeros 64)) fuel pre rest) as (s & P1 & P2 & P3 & P7 & P4 & P5 & P6); [done..|cbn; lia|done|done|].
  exists s. split_and!; [|done..| |].
  - unfold Identity.EncryptAndSignIntroSet. destruct (intros_ i) eqn:Ei; [done|]. fold i'. rewrite (encode_into_writes _ _ _ (writes_descriptor i' Hok) Hl'). cbn [rbind].
    change (addressKeys i') with (Identity.pub self). fold addr. rewrite Ec. cbn [from_option id]. by rewrite P1.
  - unfold Address.ToKey. by rewrite Hloc.
  - unfold MaybeDecrypt. rewrite P3, P7. cbn [EncryptedIntroSet.introsetPayload EncryptedIntroSet.nounce]. rewrite Ed. cbn [from_option id]. unfold IntroSet_BDecode.
    rewrite <- (app_nil_r (dict (text i'))). change (Buffer (?x ++ []) 0) with ([] ‖ x ++ []).
    rewrite (decode_dict_reads _ (text i') fuel _ i'); [done| |].
    + apply decodes_descriptor; [done|]. unfold EncryptedIntroSet.MAX_INTROSET_SIZE in *. lia.
    + unfold EncryptedIntroSet.MAX_INTROSET_SIZE in *. lia.
Qed.

(** The file of an identity keeps its address: after a restart the service signs with the same key, has the same
    address and the same derived key, with new keys for the exchanges. *)
Theorem identity_kept r1 r2 i1 file fuel junk :
  length (Identity.s_sign r1) = 32%nat -> length (Identity.s_enc r1) = 32%nat -> (4096 <= fuel)%nat ->
  Identity.EnsureKeys fuel None true false [] r1 Identity.empty = Ok (i1, file) ->
  exists i2, Identity.EnsureKeys fuel file true false junk r2 Identity.empty = Ok (i2, file)
    /\ Identity.signkey i2 = Identity.signkey i1 /\ Identity.derivedSignKey i2 = Identity.derivedSignKey i1
    /\ (ServiceInfo.Addr (Identity.pub i2)).1 = (ServiceInfo.Addr (Identity.pub i1)).1
    /\ (ServiceInfo.Addr (Identity.pub i1)).1 = seckey_topublic (identity_keygen (Identity.s_sign r1))
    /\ Identity.enckey i2 = encryption_keygen (Identity.s_enc r2).
Proof using KS.
  intros Hs He Hf. unfold Identity.EnsureKeys at 1. change (Identity.Clear Identity.empty) with Identity.empty.
  destruct (Identity.RegenerateKeys r1 Identity.empty) as [i| | |] eqn:Er; cbn [rbind]; try done.
  destruct (RegenerateKeys_run r1 i Hs He Er) as (E1 & E2 & _ & (_ & Hc & _) & E5 & E6). pose proof (length_identity_keygen _ Hs) as L1. rewrite <- E1 in L1.
  set (l := [([c_s], enc_str (Identity.signkey i)); ([c_v], enc_int proto_version)]).
  assert (writes (Identity.BEncode i) (dict l)) as Hw.
  { unfold Identity.BEncode, l. rewrite E6. writes_entries. apply key_ok_intro; [lia|done]. }
  assert (length (dict l) = 78%nat) as Ll.
  { unfold l, dict, entries, enc_str. cbn [fmap list_fmap concat fst snd app length]. rewrite L1. repeat (rewrite length_app || cbn [length app]). rewrite L1. vm_compute. reflexivity. }
  rewrite (encode_into_writes _ _ _ Hw) by lia. cbn [rbind]. intros [= <- <-]. unfold Identity.EnsureKeys. change (Identity.Clear Identity.empty) with Identity.empty.
  rewrite Ll. change (4096 <? 78)%nat with false. cbn [negb]. rewrite take_app_ge by lia.
  change (Buffer (dict l ++ ?x) 0) with ([] ‖ dict l ++ x).
  rewrite (decode_dict_reads _ l fuel _ (Identity.empty <| Identity.signkey := Identity.signkey i |>)); [| |lia].
  2:{ pose proof (fun k v => entry_length k v l fuel ltac:(lia)) as Hlen. unfold l in *. do 2 decode_entry Hlen. done. }
  cbn [rbind negb]. set (i0 := Identity.empty <| Identity.signkey := Identity.signkey i |>).
  change (is_zero (Identity.enckey i0)) with true. cbv beta iota.
  assert (is_zero (Identity.pq (i0 <| Identity.enckey := encryption_keygen (Identity.s_enc r2) |>)) = true) as -> by (vm_compute; reflexivity).
  change (is_zero (Identity.vanity _)) with true. cbv beta iota. unfold Identity.set_derived.
  match goal with |- context [derive_subkey_private ?k 1] => change k with (Identity.signkey i) end. rewrite E2. cbn [rbind]. eexists. split; [reflexivity|].
  assert ((ServiceInfo.Addr (Identity.pub i)).1 = seckey_topublic (Identity.signkey i)) as Ha.
  { unfold ServiceInfo.Addr, ServiceInfo.UpdateAddr. destruct (is_zero _); [exact E5|]. by rewrite <- E5, <- Hc. }
  rewrite Ha, E1. cbn [Identity.signkey Identity.derivedSignKey Identity.pub Identity.enckey]. split_and!; try done.
  rewrite <- E1. by apply (ServiceInfoSpec.Addr_Update (seckey_topublic (Identity.signkey i)) (seckey_topublic (encryption_keygen (Identity.s_enc r2))) None ServiceInfo.empty).
Qed.
End publish.
End spec.
End IntroSetSpec.

(** ** Instances *)
Definition srvs_none : OxencSrvs := {| bt_serialize_srvs _ := []; bt_deserialize_srvs _ := None |}.
Definition seeds_ref : Identity.seeds := Identity.Seeds (replicate 32 3) (replicate 32 4) [].
Definition self_ref : Identity.t :=
  match Identity.RegenerateKeys (KP := keypairs_xor) (SK := subkeys_xor) (PQ := pqe_ref) seeds_ref Identity.empty with Ok i => i | _ => Identity.empty end.
Definition introset_ref : IntroSet := IntroSet_empty <| intros_ := [Introduction.Mk (replicate 32 9) (replicate 16 8) 0 90000 0] |> <| supportedProtocols := [1] |>.
Lemma service_published_witness :
  exists s, Identity.EncryptAndSignIntroSet (CR := crypto_xor) (KP := keypairs_xor) (OS := oxenc_swap_ref) (IP := pton_ref) (IN := ntop_ref) (IN4 := ntop4_ref) (OX := oxenc_string_ref) (OXV := srvs_none)
      (replicate 32 6) introset_ref 1000 1000 self_ref = Ok (Some s)
    /\ EncryptedIntroSet.Verify (CR := crypto_xor) 2000 s = Ok true /\ EncryptedIntroSet.derivedSigningKey s = replicate 32 3.
Proof.
  destruct (IntroSetSpec.service_published (OS := oxenc_swap_ref) (IP := pton_ref) (IN := ntop_ref) (IN4 := ntop4_ref) (OX := oxenc_string_ref) (OXV := srvs_none)
    (CR := crypto_xor) (KP := keypairs_xor) (SK := subkeys_xor) (PQ := pqe_ref) seeds_ref self_ref introset_ref (replicate 32 6) 1000 1000 2000 (replicate 32 3) 5000 [] [])
    as (s & H1 & _ & _ & H2 & H3 & _).
  - done.
  - done.
  - vm_compute. reflexivity.
  - vm_compute. reflexivity.
  - done.
  - split_and!; try done.
    + apply Forall_singleton. unfold IntroductionSpec.ok, time_ok, in_width. cbn. split_and!; done || lia.
    + apply Forall_singleton. done.
    + constructor.
  - apply Nat.leb_le. vm_compute. reflexivity.
  - done.
  - done.
  - done.
  - apply Nat.leb_le. vm_compute. reflexivity.
  - intros c _. exact I.
  - exists s. split_and!; [exact H1|exact H2|exact H3].
Defined.
Lemma identity_kept_witness :
  exists i1 file i2, Identity.EnsureKeys (KP := keypairs_xor) (SK := subkeys_xor) (PQ := pqe_ref) 4096 file true false [] seeds_ref Identity.empty = Ok (i2, file)
    /\ Identity.signkey i2 = Identity.signkey i1.
Proof.
  destruct (Identity.EnsureKeys (KP := keypairs_xor) (SK := subkeys_xor) (PQ := pqe_ref) 4096 None true false [] seeds_ref Identity.empty) as [[i1 file]| | |] eqn:E.
  2-4: exfalso; revert E; vm_compute; done.
  destruct (IntroSetSpec.identity_kept (CR := crypto_xor) (KP := keypairs_xor) (SK := subkeys_xor) (PQ := pqe_ref) seeds_ref seeds_ref i1 file 4096 []) as (i2 & H1 & H2 & _).
  - done.
  - done.
  - apply Nat.leb_le. vm_compute. reflexivity.
  - exact E.
  - exists i1, file, i2. split; [exact H1|exact H2].
Defined.
