(* ===== verification/Protocol.v ===== *)
(** * Messages and frames between hidden services (llarp/service/protocol.hpp, protocol.cpp, protocol_type.hpp)

    A message has the traffic of a conversation, who sends it and where the replies go. A frame has
    one or more messages, encrypted with the key of the conversation, and the signature of the sender. *)

From S2P Require Import Prelude Buffer Bencode Codec CryptoApi Str NetInt IpRange DnsMessage Contact TrafficPolicy Service Frame.

(** llarp/constants/proto.hpp *)
Definition service_proto_message_max_size : nat := 2048.
Definition service_proto_frame_max_size : nat := service_proto_message_max_size * 2.
(** [PQCipherBlock] has a byte more than the ciphertext. *)
Definition PQCipherBlock : nat := PQ_CIPHERTEXTSIZE + 1.

Module ProtocolType.
Definition Control : Z := 0.
Definition TrafficV4 : Z := 1.
Definition TrafficV6 : Z := 2.
Definition Exit : Z := 3.
Definition Auth : Z := 4.
Definition QUIC : Z := 5.
End ProtocolType.

(** ** Messages *)
Module ProtocolMessage.
Record t := Mk { proto : Z; payload : list Z; introReply : Introduction.t; sender : ServiceInfo.t; tag : list Z; seqno : Z; version : Z }.
#[export] Instance eta_t : Eta t := fun m => Mk (proto m) (payload m) (introReply m) (sender m) (tag m) (seqno m) (version m).
Definition empty : t := Mk ProtocolType.TrafficV4 [] Introduction.empty ServiceInfo.empty (zeros 16) 0 proto_version.
(** [ProtocolMessage(const ConvoTag&)] *)
Definition of_tag (x : list Z) : t := empty <| tag := x |>.
Definition PutBuffer (buf : list Z) (m : t) : t := m <| payload := buf |>.

Definition read_payload : decode_key t := fun m _ b =>
  let* (str, b) := bencode_read_string b in
  Ok (match str with Some s => (true, PutBuffer (mem s) m) | None => (false, m) end, b).
(** The letter of the branch that returns at once is no letter of the entry before it. *)
Definition DecodeKey (fuel : nat) : decode_key t :=
  on_key [c_d] read_payload
  (return_read
    (maybe_int 64 [c_a] proto (fun x m => m <| proto := x |>)
     ⨾ maybe_dict fuel [c_i] (Introduction.DecodeKey fuel) introReply (fun x m => m <| introReply := x |>)
     ⨾ maybe_int 64 [c_n] seqno (fun x m => m <| seqno := x |>)
     ⨾ ServiceInfo.maybe_info fuel [c_s] sender (fun x m => m <| sender := x |>)
     ⨾ maybe_entry (EA := key16) fuel [c_t] tag (fun x m => m <| tag := x |>)
     ⨾ maybe_int 64 [c_v] version (fun x m => m <| version := x |>))).
Definition BEncode (m : t) : writer :=
  bencode_start_dict
  ⩓ BEncodeWriteDictInt [c_a] (proto m)
  ⩓ write_if (negb (length (payload m) =? 0)%nat) (bencode_write_bytestring [c_d] ⩓ bencode_write_bytestring (payload m))
  ⩓ BEncodeWriteDictEntry (EA := Introduction.bencodable) [c_i] (introReply m)
  ⩓ BEncodeWriteDictInt [c_n] (seqno m)
  ⩓ BEncodeWriteDictEntry (EA := ServiceInfo.bencodable) [c_s] (sender m)
  ⩓ write_if (negb (is_zero (tag m))) (BEncodeWriteDictEntry (EA := key16) [c_t] (tag m))
  ⩓ BEncodeWriteDictInt [c_v] (version m)
  ⩓ bencode_end.
Definition bencodable : BEncodable t := dict_bencodable BEncode DecodeKey empty.
(** What a program that decides about the sender is told. *)
Definition EncodeAuthInfo (m : t) : res (list Z) :=
  let* data := encode_into 1024
    (bencode_start_dict
     ⩓ BEncodeWriteDictInt [c_a] (proto m)
     ⩓ BEncodeWriteDictEntry (EA := Introduction.bencodable) [c_i] (introReply m)
     ⩓ BEncodeWriteDictEntry (EA := ServiceInfo.bencodable) [c_s] (sender m)
     ⩓ BEncodeWriteDictEntry (EA := key16) [c_t] (tag m)
     ⩓ BEncodeWriteDictInt [c_v] (version m)
     ⩓ bencode_end) in
  match data with Some data => Ok data | None => Throw end.
End ProtocolMessage.

(** ** Frames *)
Module ProtocolFrame.
Abbreviation Encrypted_t := (Encrypted.bencodable service_proto_message_max_size).
Abbreviation cipher_block := (array_bencodable PQCipherBlock).
Record t := Mk { C : list Z; D : list Z; R : Z; N : list Z; Z_ : list Z; F : list Z; T : list Z; S_ : Z; version : Z }.
#[export] Instance eta_t : Eta t := fun f => Mk (C f) (D f) (R f) (N f) (Z_ f) (F f) (T f) (S_ f) (version f).
Definition empty : t := Mk (zeros PQCipherBlock) [] 0 (zeros 32) (zeros 64) (zeros 16) (zeros 16) 0 proto_version.
(** [Clear] keeps the sequence number. *)
Definition Clear (f : t) : t := empty <| S_ := S_ f |>.
(** [operator==] *)
Definition eqb (a b : t) : bool :=
  bool_decide (C a = C b) && bool_decide (D a = D b) && bool_decide (N a = N b) && bool_decide (Z_ a = Z_ b) && bool_decide (T a = T b)
  && (S_ a =? S_ b) && (version a =? version b).
(** The sequence number is not written. *)
Definition BEncode (f : t) : writer :=
  bencode_start_dict
  ⩓ BEncodeWriteDictMsgType [c_A] [c_H]
  ⩓ write_if (negb (is_zero (C f))) (BEncodeWriteDictEntry (EA := cipher_block) [c_C] (C f))
  ⩓ write_if (negb (length (D f) =? 0)%nat) (BEncodeWriteDictEntry (EA := Encrypted_t) [c_D] (D f))
  ⩓ BEncodeWriteDictEntry (EA := key16) [c_F] (F f)
  ⩓ write_if (negb (is_zero (N f))) (BEncodeWriteDictEntry (EA := key32) [c_N] (N f))
  ⩓ write_if (negb (R f =? 0)) (BEncodeWriteDictInt [c_R] (R f))
  ⩓ write_if (negb (is_zero (T f))) (BEncodeWriteDictEntry (EA := key16) [c_T] (T f))
  ⩓ BEncodeWriteDictInt [c_V] (version f)
  ⩓ BEncodeWriteDictEntry (EA := sig64) [c_Z] (Z_ f)
  ⩓ bencode_end.
Definition read_type : decode_key t := fun f _ b =>
  let* (str, b) := bencode_read_string b in
  Ok (match str with Some s => bool_decide (mem s = [c_H]) | None => false end, f, b).
Definition DecodeKey (fuel : nat) : decode_key t :=
  on_key [c_A] read_type
  (return_read
    (maybe_entry (EA := Encrypted_t) fuel [c_D] D (fun x f => f <| D := x |>)
     ⨾ maybe_entry (EA := key16) fuel [c_F] F (fun x f => f <| F := x |>)
     ⨾ maybe_entry (EA := cipher_block) fuel [c_C] C (fun x f => f <| C := x |>)
     ⨾ maybe_entry (EA := key32) fuel [c_N] N (fun x f => f <| N := x |>)
     ⨾ maybe_int 64 [c_S] S_ (fun x f => f <| S_ := x |>)
     ⨾ maybe_int 64 [c_R] R (fun x f => f <| R := x |>)
     ⨾ maybe_entry (EA := key16) fuel [c_T] T (fun x f => f <| T := x |>)
     ⨾ maybe_version [c_V] proto_version version (fun x f => f <| version := x |>)
     ⨾ maybe_entry (EA := sig64) fuel [c_Z] Z_ (fun x f => f <| Z_ := x |>))).
Definition BDecode (fuel : nat) (f : t) (b : llarp_buffer_t) : res (bool * t * llarp_buffer_t) := bencode_decode_dict fuel (DecodeKey fuel) f b.

Section crypto.
Context {UN : Uninit} {CR : Crypto} {KP : KeyPairs}.
Definition Sign (localIdent : Identity.t) (f : t) : res (bool * t) :=
  let f := f <| Z_ := zeros 64 |> in
  let* data := encode_into service_proto_frame_max_size (BEncode f) in
  match data with
  | None => Ok (false, f)
  | Some data => Ok (match Identity.Sign data localIdent with Some z => (true, f <| Z_ := z |>) | None => (false, f) end)
  end.
Definition Verify (svc : ServiceInfo.t) (f : t) : res bool :=
  let* data := encode_into service_proto_frame_max_size (BEncode (f <| Z_ := zeros 64 |>)) in
  Ok (match data with Some data => ServiceInfo.Verify data (Z_ f) svc | None => false end).
(** [D = buf] of what the cipher leaves in the buffer. *)
Definition put_encrypted (sessionKey buf : list Z) (f : t) : t :=
  f <| D := Encrypted.assign service_proto_message_max_size (D f) (default buf (xchacha20 buf sessionKey (N f))) |>.
Definition EncryptAndSign (msg : ProtocolMessage.t) (sessionKey : list Z) (localIdent : Identity.t) (f : t) : res (bool * t) :=
  let* data := encode_into service_proto_frame_max_size (ProtocolMessage.BEncode msg) in
  match data with
  | None => Ok (false, f)
  | Some data => Sign localIdent (put_encrypted sessionKey data f)
  end.
(** The messages that fit are taken off the queue. *)
Fixpoint encode_front (msgs : list ProtocolMessage.t) (b : llarp_buffer_t) : res (list ProtocolMessage.t * llarp_buffer_t) :=
  match msgs with
  | [] => Ok ([], b)
  | msg :: rest =>
      let* (ok, b') := ProtocolMessage.BEncode msg b in
      if ok : bool then encode_front rest b' else Ok (msgs, Buffer (mem b') (cur b))
  end.
Definition EncryptAndSign_many (msgs : list ProtocolMessage.t) (sessionKey : list Z) (localIdent : Identity.t) (f : t)
  : res (bool * list ProtocolMessage.t * t) :=
  let* (ok, b) := bencode_start_list (Buffer (zeros service_proto_message_max_size) 0) in
  if negb ok then Ok (false, msgs, f)
  else
    let* (msgs, b) := encode_front msgs b in
    let* (ok, b) := bencode_end b in
    if negb ok then Ok (false, msgs, f)
    else
      let* (ok, f) := Sign localIdent (put_encrypted sessionKey (take (cur b) (mem b)) f) in
      Ok (ok, msgs, f).
(** The messages in [buf], after the cipher; the first byte of an empty one is whatever the array holds. *)
Definition read_messages (fuel : nat) (buf : list Z) : res (bool * list ProtocolMessage.t) :=
  let first := match buf with c :: _ => c | [] => uninit 0 end in
  if first =? chr_d then
    let* (ok, msg, _) := bencode_decode_dict fuel (ProtocolMessage.DecodeKey fuel) ProtocolMessage.empty (Buffer buf 0) in Ok (ok, [msg])
  else if first =? chr_l then
    let* (ok, msgs, _) := BEncodeReadList (EA := ProtocolMessage.bencodable) fuel ProtocolMessage.empty [] (Buffer buf 0) in Ok (ok, msgs)
  else Ok (false, []).
Definition decrypted (key : list Z) (f : t) : list Z := default (D f) (xchacha20 (D f) key (N f)).
Definition DecryptPayloadInto (fuel : nat) (sharedkey : list Z) (f : t) : res (bool * list ProtocolMessage.t) :=
  read_messages fuel (decrypted sharedkey f).
End crypto.
End ProtocolFrame.

(** * Properties *)
Module ProtocolMessageSpec.
Import ProtocolMessage.
#[local] Existing Instance IntroductionSpec.introduction_spec.
#[local] Existing Instance IntroSetSpec.info_spec.
Definition ok (m : t) : Prop :=
  in_width 64 (proto m) /\ str_ok (payload m) /\ IntroductionSpec.ok (introReply m) /\ IntroSetSpec.info_ok (sender m) /\ length (tag m) = 16%nat
  /\ in_width 64 (seqno m) /\ in_width 64 (version m).
Definition text (m : t) : list (list Z * list Z) :=
  [([c_a], enc_int (proto m))] ++ (if negb (length (payload m) =? 0)%nat then [([c_d], enc_str (payload m))] else [])
  ++ [([c_i], dict (IntroductionSpec.text (introReply m))); ([c_n], enc_int (seqno m)); ([c_s], dict (ServiceInfoSpec.text (sender m)))]
  ++ (if negb (is_zero (tag m)) then [([c_t], enc_str (tag m))] else []) ++ [([c_v], enc_int (version m))].
Lemma writes_message m : ok m -> writes (BEncode m) (dict (text m)).
Proof.
  intros (H1 & H2 & H3 & H4 & H5 & H6 & H7). unfold BEncode, text. cbn [app]. apply writes_dict.
  do 2 writes_step. apply writes_dict_cons; [by apply (writes_entry (benc := fun i => dict (IntroductionSpec.text i)))|]. writes_step.
  apply writes_dict_cons; [by apply (writes_entry (benc := fun i => dict (ServiceInfoSpec.text i)))|]. repeat writes_step. apply key_ok_intro; [lia|done].
Qed.
Ltac message_skips := repeat apply both_skips; first [ apply ServiceInfoSpec.maybe_info_skips; reflexivity | solve_skips ].
Ltac message_takes :=
  first [ apply both_takes_l; [message_takes|message_skips] | apply both_takes_r; [message_skips|message_takes]
        | apply ServiceInfoSpec.maybe_info_takes | refine (maybe_entry_takes (benc := enc_str) _ _ _ _ _ _ _ _) | solve_takes ].
Ltac message_entry := apply on_key_decodes_r; [reflexivity|]; apply return_read_decodes; message_takes.
Lemma decodes_message fuel m : ok m -> (length (dict (text m)) <= fuel)%nat -> decodes_all (DecodeKey fuel) (text m) empty m.
Proof.
  intros (H1 & H2 & H3 & H4 & H5 & H6 & H7) Hf. pose proof (fun k v => entry_length k v (text m) fuel Hf) as Hlen. clear Hf. unfold text in *. cbn [app] in *.
  eexists. split; [message_entry; done|]. set (m1 := empty <| proto := proto m |>).
  apply (decodes_all_if _ _ _ _ _ _ (m1 <| payload := payload m |>)).
  { intros _. apply on_key_decodes_l; [done|]. split; [done|]. intros pre rest. unfold read_payload. by rewrite read_string_reads. }
  { destruct (payload m); done. }
  eexists. split; [message_entry; [by apply IntroductionSpec.decodes_intro; [|eapply Hlen; in_entries]|eapply Hlen; in_entries]|].
  eexists. split; [message_entry; done|].
  eexists. split; [message_entry; [apply H4|eapply Hlen; in_entries]|]. cbn [sender]. rewrite (IntroSetSpec.over_fresh _ (sender m)) by done.
  match goal with |- decodes_all _ _ ?x _ => set (m2 := x) end.
  apply (decodes_all_if _ _ _ _ _ _ (m2 <| tag := tag m |>)).
  { intros Hc. message_entry; [apply key_ok_intro; [lia|done]|]. eapply Hlen. rewrite Hc. in_entries. }
  { destruct (is_zero (tag m)) eqn:E; [|done]. intros _. apply is_zero_zeros in E. rewrite E, H5. done. }
  eexists. split; [message_entry; done|]. unfold m2, m1. destruct m. done.
Qed.
#[export] Instance message_spec : @BEncodableSpec t bencodable (fun m => dict (text m)) ok.
Proof. apply dict_bencodable_spec; [apply writes_message|apply decodes_message]. Qed.
Lemma tight_message m : tight (BEncode m).
Proof. unfold BEncode. solve_tight. Qed.
End ProtocolMessageSpec.

Module ProtocolFrameSpec.
Import ProtocolFrame.
Definition ok (f : t) : Prop :=
  length (C f) = PQCipherBlock /\ (length (D f) <= service_proto_message_max_size)%nat /\ in_width 64 (R f) /\ length (N f) = 32%nat /\ length (Z_ f) = 64%nat
  /\ length (F f) = 16%nat /\ length (T f) = 16%nat /\ version f = proto_version.
Definition text (f : t) : list (list Z * list Z) :=
  [([c_A], enc_str [c_H])] ++ (if negb (is_zero (C f)) then [([c_C], enc_str (C f))] else [])
  ++ (if negb (length (D f) =? 0)%nat then [([c_D], enc_str (D f))] else []) ++ [([c_F], enc_str (F f))]
  ++ (if negb (is_zero (N f)) then [([c_N], enc_str (N f))] else []) ++ (if negb (R f =? 0) then [([c_R], enc_int (R f))] else [])
  ++ (if negb (is_zero (T f)) then [([c_T], enc_str (T f))] else []) ++ [([c_V], enc_int (version f)); ([c_Z], enc_str (Z_ f))].
Lemma block_ok c : length c = PQCipherBlock -> key_ok PQCipherBlock c.
Proof. intros Hc. split; [done|]. unfold str_ok. rewrite Hc. unfold PQCipherBlock, PQ_CIPHERTEXTSIZE. lia. Qed.
Lemma data_ok d : (length d <= service_proto_message_max_size)%nat -> Encrypted.ok service_proto_message_max_size d.
Proof. intros Hd. split; [done|]. unfold str_ok. unfold service_proto_message_max_size in Hd. lia. Qed.
Lemma writes_frame f : ok f -> writes (BEncode f) (dict (text f)).
Proof.
  intros (H1 & H2 & H3 & H4 & H5 & H6 & H7 & H8). unfold BEncode, text. cbn [app]. apply writes_dict.
  repeat writes_step; first [by apply block_ok | by apply data_ok | apply key_ok_intro; [lia|done]].
Qed.
Lemma length_frame_text f : ok f -> (length (dict (text f)) < service_proto_frame_max_size)%nat.
Proof.
  intros (H1 & H2 & H3 & H4 & H5 & H6 & H7 & H8). rewrite length_dict.
  assert (forall s n, (length s <= n)%nat -> (n <= 2048)%nat -> (length (enc_str s) <= n + 10)%nat) as E.
  { intros s n Hs Hn. rewrite length_enc_str_le; [lia|]. unfold str_ok. lia. }
  assert (length (entries (text f)) <= 3500)%nat as H; [|unfold service_proto_frame_max_size, service_proto_message_max_size; lia].
  unfold text. cbn [app]. unfold service_proto_message_max_size in H2. etransitivity.
  { entries_le; first [by apply length_enc_int_le | apply length_enc_int_le; by rewrite H8 | apply (E _ _ H2); lia
      | eapply E; [eapply Nat.eq_le_incl; eassumption|unfold PQCipherBlock, PQ_CIPHERTEXTSIZE; lia] | apply (E [_] 1%nat); cbn; lia]. }
  unfold PQCipherBlock, PQ_CIPHERTEXTSIZE. lia.
Qed.
Ltac frame_takes :=
  first [ apply both_takes_l; [frame_takes|solve_skips] | apply both_takes_r; [solve_skips|frame_takes]
        | refine (maybe_entry_takes (benc := enc_str) _ _ _ _ _ _ _ _) | refine (maybe_int_takes_id _ _ _ _ _ _ _ _) | solve_takes ].
Ltac frame_entry := apply on_key_decodes_r; [reflexivity|]; apply return_read_decodes; frame_takes.
Lemma zero_kept l n : negb (is_zero l) = false -> length l = n -> zeros n = l.
Proof. intros Hz <-. destruct (is_zero l) eqn:E; [|done]. by rewrite <- (is_zero_zeros l E). Qed.
(** After the entry that names the kind. *)
Lemma decodes_frame_tail fuel f s : ok f -> (length (dict (text f)) <= fuel)%nat -> decodes_all (DecodeKey fuel) (tail (text f)) (empty <| S_ := s |>) (f <| S_ := s |>).
Proof.
  intros (H1 & H2 & H3 & H4 & H5 & H6 & H7 & H8) Hf. pose proof (fun k v => entry_length k v (text f) fuel Hf) as Hlen. clear Hf. unfold text in *. cbn [app tail] in *.
  pose proof (block_ok _ H1) as B1. pose proof (data_ok _ H2) as B2.
  set (m0 := empty <| S_ := s |>).
  apply (decodes_all_if _ _ _ _ _ _ (m0 <| C := C f |>)).
  { intros Hc. frame_entry; [done|]. eapply Hlen. rewrite Hc. in_entries. }
  { intros Hc. by rewrite <- (zero_kept _ _ Hc H1). }
  apply (decodes_all_if _ _ _ _ _ _ (m0 <| C := C f |> <| D := D f |>)).
  { intros Hc. frame_entry; [done|]. eapply Hlen. rewrite Hc. in_entries. }
  { destruct (D f); done. }
  eexists. split; [frame_entry; [apply key_ok_intro; [lia|done]|eapply Hlen; in_entries]|].
  match goal with |- decodes_all _ _ ?m _ => set (m1 := m) end.
  apply (decodes_all_if _ _ _ _ _ _ (m1 <| N := N f |>)).
  { intros Hc. frame_entry; [apply key_ok_intro; [lia|done]|]. eapply Hlen. rewrite Hc. in_entries. }
  { intros Hc. unfold m1. by rewrite <- (zero_kept _ _ Hc H4). }
  apply (decodes_all_if _ _ _ _ _ _ (m1 <| N := N f |> <| R := R f |>)).
  { intros Hc. frame_entry; done. }
  { destruct (Z.eqb_spec (R f) 0) as [E|]; [|done]. intros _. unfold m1. by rewrite E. }
  match goal with |- decodes_all _ _ ?m _ => set (m2 := m) end.
  apply (decodes_all_if _ _ _ _ _ _ (m2 <| T := T f |>)).
  { intros Hc. frame_entry; [apply key_ok_intro; [lia|done]|]. eapply Hlen. rewrite Hc. in_entries. }
  { intros Hc. unfold m2, m1. by rewrite <- (zero_kept _ _ Hc H7). }
  rewrite H8. eexists. split; [frame_entry; done|]. eexists. split; [frame_entry; [apply key_ok_intro; [lia|done]|eapply Hlen; in_entries]|].
  unfold m2, m1, m0. destruct f. cbn in *. by subst.
Qed.
Lemma decodes_frame fuel f s : ok f -> (length (dict (text f)) <= fuel)%nat -> decodes_all (DecodeKey fuel) (text f) (empty <| S_ := s |>) (f <| S_ := s |>).
Proof.
  intros Hf Hl. exists (empty <| S_ := s |>). split; [|by apply decodes_frame_tail].
  apply on_key_decodes_l; [done|]. split; [done|]. intros pre rest. unfold read_type. by rewrite read_string_reads.
Qed.

Section crypto.
Context {UN : Uninit} {CR : Crypto} {CS : CryptoSpec CR} {KP : KeyPairs} {KS : KeyPairsSpec CR KP}.
Abbreviation msg_text := (fun m => dict (ProtocolMessageSpec.text m)).

(** The signature is over all that is sent. *)
Lemma frame_Sign_run seed ident f : length seed = 32%nat -> Identity.signkey ident = identity_keygen seed -> ok f ->
  exists z, Sign ident f = Ok (true, f <| Z_ := z |>) /\ ok (f <| Z_ := z |>)
    /\ forall svc s, ServiceInfo.signkey svc = seckey_topublic (identity_keygen seed) -> Verify svc (f <| Z_ := z |> <| S_ := s |>) = Ok true.
Proof using KS.
  intros Hs Hk (H1 & H2 & H3 & H4 & H5 & H6 & H7 & H8). set (f0 := f <| Z_ := zeros 64 |>).
  assert (ok f0) as Hf0 by (unfold f0, ok; done).
  destruct (crypto_sign_spec seed (dict (text f0)) Hs) as (z & Ez & Lz & Hv). exists z. split_and!.
  - unfold Sign. fold f0. rewrite (encode_into_writes _ _ _ (writes_frame f0 Hf0) (length_frame_text f0 Hf0)). cbn [rbind]. unfold Identity.Sign. rewrite Hk, Ez. done.
  - unfold ok. done.
  - intros svc s Hsvc. unfold Verify.
    change (BEncode (f <| Z_ := z |> <| S_ := s |> <| Z_ := zeros 64 |>)) with (BEncode f0).
    rewrite (encode_into_writes _ _ _ (writes_frame f0 Hf0) (length_frame_text f0 Hf0)). cbn [rbind]. unfold ServiceInfo.Verify. rewrite Hsvc.
    change (Z_ (f <| Z_ := z |> <| S_ := s |>)) with z. by rewrite Hv.
Qed.
Lemma read_one fuel m : ProtocolMessageSpec.ok m -> (length (msg_text m) <= fuel)%nat -> read_messages fuel (msg_text m) = Ok (true, [m]).
Proof.
  intros Hm Hf. unfold read_messages. change (match msg_text m with c :: _ => c | [] => uninit 0 end) with chr_d. rewrite Z.eqb_refl.
  rewrite <- (app_nil_r (dict (ProtocolMessageSpec.text m))). change (Buffer (?x ++ []) 0) with ([] ‖ x ++ []).
  by rewrite (decode_dict_reads _ _ _ _ m _ _ (ProtocolMessageSpec.decodes_message fuel m Hm Hf) Hf).
Qed.
Lemma read_many fuel l : Forall ProtocolMessageSpec.ok l -> (length (enc_list (msg_text <$> l)) <= fuel)%nat ->
  read_messages fuel (enc_list (msg_text <$> l)) = Ok (true, l).
Proof.
  intros Hm Hf. unfold read_messages. change (match enc_list (msg_text <$> l) with c :: _ => c | [] => uninit 0 end) with chr_l.
  change (chr_l =? chr_d) with false. rewrite Z.eqb_refl. rewrite <- (app_nil_r (enc_list (msg_text <$> l))).
  change (Buffer (?x ++ []) 0) with ([] ‖ x ++ []). by rewrite (read_list_roundtrip (ES := ProtocolMessageSpec.message_spec)).
Qed.
(** The other side, with the key, has the text again. *)
Lemma decrypted_put key data f s : (length data <= service_proto_message_max_size)%nat ->
  decrypted key ((put_encrypted key data f) <| S_ := s |>) = data /\ (length (D (put_encrypted key data f)) <= service_proto_message_max_size)%nat.
Proof using CS.
  intros Hd. pose proof (proj2 (Nat.leb_le _ _) Hd) as Hb. destruct (xchacha20_spec data key (N f)) as (c & Ec & Lc & Ed). 
  assert (put_encrypted key data f = f <| D := c |>) as ->.
  { unfold put_encrypted. rewrite Ec. cbn [from_option id]. unfold Encrypted.assign. by rewrite Lc, Hb. }
  change (decrypted key (f <| D := c |> <| S_ := s |>)) with (default c (xchacha20 c key (N f))). rewrite Ed. split; [done|]. change (length c <= service_proto_message_max_size)%nat. lia.
Qed.

(** What arrives of a frame that was signed. *)
Definition arrives (seed : list Z) (fuel : nat) (f' : t) : Prop := forall pre rest,
  BDecode fuel empty (pre ‖ dict (text f') ++ rest) = Ok (true, f' <| S_ := 0 |>, (pre ++ dict (text f')) ‖ rest)
  /\ forall svc, ServiceInfo.signkey svc = seckey_topublic (identity_keygen seed) -> Verify svc (f' <| S_ := 0 |>) = Ok true.
Lemma sign_arrives seed ident f fuel : length seed = 32%nat -> Identity.signkey ident = identity_keygen seed -> ok f -> (service_proto_frame_max_size <= fuel)%nat ->
  exists z, Sign ident f = Ok (true, f <| Z_ := z |>) /\ ok (f <| Z_ := z |>) /\ arrives seed fuel (f <| Z_ := z |>).
Proof using KS.
  intros Hs Hk Hf Hfuel. destruct (frame_Sign_run seed ident f Hs Hk Hf) as (z & E & Hok & Hv). exists z. split_and!; [done..|]. intros pre rest. split; [|auto].
  pose proof (length_frame_text _ Hok). apply (decode_dict_reads _ _ _ empty); [|lia]. apply (decodes_frame fuel _ 0); [done|lia].
Qed.
Lemma put_ok key data f : ok f -> (length data <= service_proto_message_max_size)%nat -> ok (put_encrypted key data f).
Proof using CS. intros (H1 & H2 & H3 & H4 & H5 & H6 & H7 & H8) Hd. destruct (decrypted_put key data f 0 Hd) as [_ Hl]. unfold ok. done. Qed.

Definition same_header (f f' : t) : Prop := C f' = C f /\ R f' = R f /\ N f' = N f /\ F f' = F f /\ T f' = T f.
(** A message that fits is signed and encrypted such that the other side has it again. *)
Lemma frame_protects seed ident key msg f fuel :
  length seed = 32%nat -> Identity.signkey ident = identity_keygen seed -> ok f -> ProtocolMessageSpec.ok msg ->
  (length (msg_text msg) <= service_proto_message_max_size)%nat -> (service_proto_frame_max_size <= fuel)%nat ->
  exists f', EncryptAndSign msg key ident f = Ok (true, f') /\ same_header f f' /\ writes (BEncode f') (dict (text f')) /\ arrives seed fuel f'
    /\ DecryptPayloadInto fuel key (f' <| S_ := 0 |>) = Ok (true, [msg]).
Proof using CS KS.
  intros Hs Hk Hf Hm Hl Hfuel. pose proof (put_ok key _ f Hf Hl) as Hf1. set (f1 := put_encrypted key (msg_text msg) f) in *.
  destruct (sign_arrives seed ident f1 fuel Hs Hk Hf1 Hfuel) as (z & E & Hok & Ha). exists (f1 <| Z_ := z |>). split_and!; [|unfold same_header; done|by apply writes_frame|done|].
  - unfold EncryptAndSign. unfold service_proto_frame_max_size, service_proto_message_max_size in *.
    rewrite (encode_into_writes _ _ _ (ProtocolMessageSpec.writes_message msg Hm)) by lia. done.
  - unfold DecryptPayloadInto. change (decrypted key (f1 <| Z_ := z |> <| S_ := 0 |>)) with (decrypted key (f1 <| S_ := 0 |>)).
    destruct (decrypted_put key (msg_text msg) f 0 Hl) as [E' _]. fold f1 in E'. rewrite E'. apply read_one; [done|]. unfold service_proto_frame_max_size in *. lia.
Qed.

(** The longest prefix of the queue that fits; what is left does not fit behind it. *)
Lemma encode_front_run msgs : Forall ProtocolMessageSpec.ok msgs -> forall pre rest, exists sent left rest',
  msgs = sent ++ left /\ encode_front msgs (pre ‖ rest) = Ok (left, (pre ++ concat (msg_text <$> sent)) ‖ rest')
  /\ (length (concat (msg_text <$> sent)) + length rest' = length rest)%nat
  /\ forall m l, left = m :: l -> (length rest' <= length (msg_text m))%nat.
Proof.
  induction 1 as [|m msgs Hm Hms IH]; intros pre rest; cbn [encode_front].
  { exists [], [], rest. cbn. by rewrite app_nil_r. }
  destruct (tight_writes _ _ (ProtocolMessageSpec.tight_message m) (ProtocolMessageSpec.writes_message m Hm)) as [Ht Hroom].
  destruct (Ht pre rest) as (ok & mid & r & E & Hl & Ho). rewrite E. cbn [rbind]. destruct ok.
  - rewrite Ho in * by done. destruct (IH (pre ++ msg_text m) r) as (sent & left & r' & -> & E' & Hl' & Hn). exists (m :: sent), left, r'.
    rewrite E'. cbn [fmap list_fmap concat]. split_and!; [done|by rewrite app_assoc|rewrite length_app; lia|done].
  - exists [], (m :: msgs), (mid ++ r). cbn [fmap list_fmap concat length]. rewrite app_nil_r. split_and!; [done| |rewrite length_app; lia|].
    + cbn [mem cur]. by rewrite <- app_assoc.
    + intros m' l [= <- <-]. rewrite length_app. destruct (decide (length mid + length r <= length (msg_text m))%nat) as [|Hn]; [done|].
      destruct (Hroom pre rest) as [r2 E2]; [lia|]. congruence.
Qed.
(** Of a queue of messages, the longest prefix that fits is sent; it is lost where the list ends with the buffer. *)
Lemma batch_protected seed ident key msgs f fuel :
  length seed = 32%nat -> Identity.signkey ident = identity_keygen seed -> ok f -> Forall ProtocolMessageSpec.ok msgs -> (service_proto_frame_max_size <= fuel)%nat ->
  exists b sent left f', EncryptAndSign_many msgs key ident f = Ok (b, left, f') /\ msgs = sent ++ left /\ (length (concat (msg_text <$> sent)) < service_proto_message_max_size)%nat
    /\ (forall m l, left = m :: l -> (service_proto_message_max_size <= 1 + length (concat (msg_text <$> sent)) + length (msg_text m))%nat)
    /\ (b = true <-> (length (enc_list (msg_text <$> sent)) <= service_proto_message_max_size)%nat)
    /\ (b = true -> same_header f f' /\ arrives seed fuel f' /\ DecryptPayloadInto fuel key (f' <| S_ := 0 |>) = Ok (true, sent)).
Proof using CS KS.
  intros Hs Hk Hf Hm Hfuel. unfold EncryptAndSign_many.
  set (M := service_proto_message_max_size). assert (zeros M = 0 :: zeros (M - 1)) as -> by (unfold M; reflexivity).
  change (Buffer (0 :: ?l) 0) with ([] ‖ [0] ++ l). unfold bencode_start_list. rewrite (write_fits [] [chr_l] [0]) by done. cbn [rbind negb]. change ([] ++ [chr_l]) with [chr_l].
  destruct (encode_front_run msgs Hm [chr_l] (zeros (M - 1))) as (sent & left & r & -> & E & Hl & Hn). rewrite E. cbn [rbind].
  unfold zeros in Hl. rewrite length_replicate in Hl. pose proof (eq_refl : M = 2048%nat) as HM.
  assert (length (enc_list (msg_text <$> sent)) = S (S (length (concat (msg_text <$> sent))))) as El by (unfold enc_list; cbn [length]; rewrite length_app; cbn; lia).
  assert (forall m l, left = m :: l -> (M <= 1 + length (concat (msg_text <$> sent)) + length (msg_text m))%nat) as Hn' by (intros m l Hml; specialize (Hn m l Hml); lia).
  destruct r as [|c r]; cbn [length] in Hl.
  { unfold bencode_end. rewrite write_full by (cbn; lia). cbn [rbind negb]. exists false, sent, left, f. split_and!; [done..|fold M; lia|done| |done]. rewrite El. split; [done|lia]. }
  unfold bencode_end. change (c :: r) with ([c] ++ r). rewrite write_fits by done. cbn [rbind negb].
  match goal with |- context [take ?n ?x] => assert (take n x = enc_list (msg_text <$> sent)) as -> end.
  { cbn [cur mem]. rewrite take_app_length. unfold enc_list. by rewrite <- (app_assoc [chr_l]). }
  assert (length (enc_list (msg_text <$> sent)) <= M)%nat as Hd by lia.
  pose proof (put_ok key _ f Hf Hd) as Hf1. set (f1 := put_encrypted key (enc_list (msg_text <$> sent)) f) in *.
  destruct (sign_arrives seed ident f1 fuel Hs Hk Hf1 Hfuel) as (z & -> & Hok & Ha). cbn [rbind]. exists true, sent, left, (f1 <| Z_ := z |>).
  split_and!; [done..|fold M; lia|done|done|]. intros _. split_and!; [unfold same_header; done|done|]. unfold DecryptPayloadInto.
  change (decrypted key (f1 <| Z_ := z |> <| S_ := 0 |>)) with (decrypted key (f1 <| S_ := 0 |>)).
  destruct (decrypted_put key _ f 0 Hd) as [E' _]. fold f1 in E'. rewrite E'. apply read_many; [by apply Forall_app in Hm as [? _]|]. unfold service_proto_frame_max_size in *. lia.
Qed.
(** A message whose text fits the buffer and not the frame is not put into the frame, and the frame is signed as it was. *)
Theorem oversized_message_dropped seed ident key msg f :
  length seed = 32%nat -> Identity.signkey ident = identity_keygen seed -> ok f -> ProtocolMessageSpec.ok msg ->
  (service_proto_message_max_size < length (msg_text msg) < service_proto_frame_max_size)%nat ->
  exists f', EncryptAndSign msg key ident f = Ok (true, f') /\ D f' = D f.
Proof using CS KS.
  intros Hs Hk Hf Hm Hl. destruct (frame_Sign_run seed ident f Hs Hk Hf) as (z & E & _). exists (f <| Z_ := z |>). split; [|done].
  unfold EncryptAndSign. rewrite (encode_into_writes _ _ _ (ProtocolMessageSpec.writes_message msg Hm)) by lia. cbn [rbind].
  destruct (xchacha20_spec (msg_text msg) key (N f)) as (c & Ec & Lc & _). replace (put_encrypted key (msg_text msg) f) with f; [done|].
  unfold put_encrypted. rewrite Ec. cbn [from_option id]. unfold Encrypted.assign. rewrite Lc, (proj2 (Nat.leb_gt _ _)) by lia. by destruct f.
Qed.
End crypto.
End ProtocolFrameSpec.

(** ** Witness *)
#[local] Existing Instance Identity.eta_t.
Lemma oversized_message_dropped_witness : exists f', ProtocolFrame.EncryptAndSign (CR := crypto_xor) (KP := keypairs_xor) (ProtocolMessage.PutBuffer (replicate 2500 1) ProtocolMessage.empty)
  (zeros 32) (Identity.empty <| Identity.signkey := identity_keygen (KeyPairs := keypairs_xor) (replicate 32 7) |>) ProtocolFrame.empty = Ok (true, f') /\ ProtocolFrame.D f' = [].
Proof.
  apply (ProtocolFrameSpec.oversized_message_dropped (CR := crypto_xor) (KP := keypairs_xor) (replicate 32 7)); try reflexivity.
  - repeat split; try (apply Nat.leb_le; vm_compute; reflexivity); try (vm_compute; discriminate).
  - repeat split; try (vm_compute; discriminate); try (apply Nat.leb_le; vm_compute; reflexivity).
  - split; (apply Nat.ltb_lt; vm_compute; reflexivity).
Defined.
