(* ===== verification/DhtMessage.v ===== *)
(** * Messages of the DHT (llarp/dht/message.cpp and llarp/dht/messages)

    The seven kinds of messages, their texts and the decoder that picks the kind by its first
    entry. The handlers are in [Dht]. *)

From S2P Require Import Prelude Buffer Bencode Codec CryptoApi Str NetInt IpRange DnsName DnsMessage Contact Kademlia.

Abbreviation PathID_t := (list Z) (only parsing).
Abbreviation EncryptedIntroSet := EncryptedIntroSet.t (only parsing).
Abbreviation RouterContact := RouterContact.t (only parsing).

(** [service::Tag] *)
Definition Tag_Empty (tag : list Z) : bool := match tag with 0 :: _ => true | _ => false end.

(** What the program uses of oxenc: the text of a dictionary of strings and integers. *)
Inductive bt_value := BtString (s : list Z) | BtInt (i : Z).
Class OxencDict := { bt_serialize_dict : list (list Z * bt_value) -> list Z }.
Definition bt_text (v : bt_value) : list Z := match v with BtString s => enc_str s | BtInt i => enc_int i end.
(** It is bencode: the entries, which the program gives in ascending order of the keys. *)
Class OxencDictSpec (B : OxencDict) : Prop := {
  bt_serialize_spec l : bt_serialize_dict l = dict ((fun e => (e.1, bt_text e.2)) <$> l);
}.
Definition oxenc_dict_ref : OxencDict := {| bt_serialize_dict l := dict ((fun e => (e.1, bt_text e.2)) <$> l) |}.
#[export] Instance oxenc_dict_ref_spec : OxencDictSpec oxenc_dict_ref. Proof. by split. Qed.

Module FindIntroMessage.
Record t := Mk { location : Key_t; tagName : list Z; txID : Z; relayed : bool; relayOrder : Z; version : Z }.
#[export] Instance eta_t : Eta t := fun m => Mk (location m) (tagName m) (txID m) (relayed m) (relayOrder m) (version m).
(** The three constructors: to decode into, by tag, by address. *)
Definition inbound (relay : bool) (order : Z) : t := Mk (zeros 32) (zeros 16) 0 relay order proto_version.
Definition by_tag (tag : list Z) (txid : Z) : t := Mk (zeros 32) tag txid false 0 proto_version.
Definition by_addr (txid : Z) (addr : Key_t) (order : Z) : t := Mk addr (zeros 16) txid false order proto_version.
Definition DecodeKey (fuel : nat) : decode_key t := return_read
  (maybe_entry (EA := key16) fuel [c_N] tagName (fun x m => m <| tagName := x |>)
   ⨾ maybe_int 64 [c_O] relayOrder (fun x m => m <| relayOrder := x |>)
   ⨾ maybe_entry (EA := key32) fuel [c_S] location (fun x m => m <| location := x |>)
   ⨾ maybe_int 64 [c_T] txID (fun x m => m <| txID := x |>)
   ⨾ maybe_version [c_V] proto_version version (fun x m => m <| version := x |>)).
Definition BEncode (m : t) : writer :=
  bencode_start_dict
  ⩓ BEncodeWriteDictMsgType [c_A] [c_F]
  ⩓ (if Tag_Empty (tagName m)
     then BEncodeWriteDictInt [c_O] (relayOrder m) ⩓ BEncodeWriteDictEntry (EA := key32) [c_S] (location m)
     else BEncodeWriteDictEntry (EA := key16) [c_N] (tagName m) ⩓ BEncodeWriteDictInt [c_O] (relayOrder m))
  ⩓ BEncodeWriteDictInt [c_T] (txID m)
  ⩓ BEncodeWriteDictInt [c_V] proto_version
  ⩓ bencode_end.
End FindIntroMessage.

Module FindRouterMessage.
(** [version] hides the member of the base class. *)
Record t := Mk { targetKey : RouterID; iterative : bool; exploritory : bool; txid : Z; version : Z }.
#[export] Instance eta_t : Eta t := fun m => Mk (targetKey m) (iterative m) (exploritory m) (txid m) (version m).
Definition inbound : t := Mk (zeros 32) false false 0 0.
Definition by_id (id : Z) (target : RouterID) : t := Mk target false false id 0.
(** [random] is what [Randomize] draws. *)
Definition explore (random : RouterID) (id : Z) : t := Mk random false true id 0.
Definition BEncode (m : t) : writer :=
  bencode_start_dict
  ⩓ (bencode_write_bytestring [c_A] ⩓ bencode_write_bytestring [c_R])
  ⩓ (bencode_write_bytestring [c_E] ⩓ bencode_write_uint64 (if exploritory m then 1 else 0))
  ⩓ (bencode_write_bytestring [c_I] ⩓ bencode_write_uint64 (if iterative m then 1 else 0))
  ⩓ (bencode_write_bytestring [c_K] ⩓ bencode_write_bytestring (targetKey m))
  ⩓ (bencode_write_bytestring [c_T] ⩓ bencode_write_uint64 (txid m))
  ⩓ (bencode_write_bytestring [c_V] ⩓ bencode_write_uint64 (version m))
  ⩓ bencode_end.
Definition DecodeKey (fuel : nat) : decode_key t :=
  on_key [c_E] (read_integer_into (fun x m => m <| exploritory := negb (x =? 0) |>))
  (on_key [c_I] (read_integer_into (fun x m => m <| iterative := negb (x =? 0) |>))
  (on_key [c_K] (read_entry_into (EA := key32) fuel (fun x m => m <| targetKey := x |>))
  (on_key [c_T] (read_integer_into (fun x m => m <| txid := x |>))
  (on_key [c_V] (read_integer_into (fun x m => m <| version := x |>)) return_false)))).
End FindRouterMessage.

Module GotIntroMessage.
Record t := Mk { found : list EncryptedIntroSet; txid : Z; closer : option Key_t; version : Z }.
#[export] Instance eta_t : Eta t := fun m => Mk (found m) (txid m) (closer m) (version m).
Definition inbound : t := Mk [] 0 None proto_version.
Definition reply (results : list EncryptedIntroSet) (tx : Z) : t := Mk results tx None proto_version.
Definition read_closer (fuel : nat) : decode_key t := fun m key b =>
  match closer m with
  | Some _ => Ok (false, m, b)
  | None => read_entry_into (EA := key32) fuel (fun x m => m <| closer := Some x |>) m key b
  end.
Definition DecodeKey (fuel : nat) : decode_key t :=
  on_key [c_I] (read_list_into (EA := EncryptedIntroSet.bencodable) fuel EncryptedIntroSet.empty found (fun x m => m <| found := x |>))
  (on_key [c_K] (read_closer fuel)
  (return_read (maybe_int 64 [c_T] txid (fun x m => m <| txid := x |>)
   ⨾ maybe_int 64 [c_V] version (fun x m => m <| version := x |>)))).
Definition BEncode (m : t) : writer :=
  bencode_start_dict
  ⩓ BEncodeWriteDictMsgType [c_A] [c_G]
  ⩓ BEncodeWriteDictList (EA := EncryptedIntroSet.bencodable) [c_I] (found m)
  ⩓ write_opt (closer m) (BEncodeWriteDictEntry (EA := key32) [c_K])
  ⩓ BEncodeWriteDictInt [c_T] (txid m)
  ⩓ BEncodeWriteDictInt [c_V] (version m)
  ⩓ bencode_end.
End GotIntroMessage.

Module PublishIntroMessage.
Record t := Mk { introset : EncryptedIntroSet; relayed : bool; relayOrder : Z; txID : Z; version : Z }.
#[export] Instance eta_t : Eta t := fun m => Mk (introset m) (relayed m) (relayOrder m) (txID m) (version m).
Definition inbound (relayed : bool) : t := Mk EncryptedIntroSet.empty relayed 0 0 proto_version.
Definition make (i : EncryptedIntroSet) (tx : Z) (relayed : bool) (order : Z) : t := Mk i relayed order tx proto_version.
(** Each reader returns at once when it read: the keys differ, so that the rest would read nothing. *)
Definition DecodeKey (fuel : nat) : decode_key t := return_read
  (maybe_entry (EA := EncryptedIntroSet.bencodable) fuel [c_I] introset (fun x m => m <| introset := x |>)
   ⨾ maybe_int 64 [c_O] relayOrder (fun x m => m <| relayOrder := x |>)
   ⨾ maybe_int 64 [c_R] (fun m => if relayed m then 1 else 0) (fun x m => m <| relayed := negb (x =? 0) |>)
   ⨾ maybe_int 64 [c_T] txID (fun x m => m <| txID := x |>)
   ⨾ maybe_int 64 [c_V] version (fun x m => m <| version := x |>)).
Definition BEncode (m : t) : writer :=
  bencode_start_dict
  ⩓ BEncodeWriteDictMsgType [c_A] [c_I]
  ⩓ BEncodeWriteDictEntry (EA := EncryptedIntroSet.bencodable) [c_I] (introset m)
  ⩓ BEncodeWriteDictInt [c_O] (relayOrder m)
  ⩓ BEncodeWriteDictInt [c_R] (if relayed m then 1 else 0)
  ⩓ BEncodeWriteDictInt [c_T] (txID m)
  ⩓ BEncodeWriteDictInt [c_V] proto_version
  ⩓ bencode_end.
End PublishIntroMessage.

Section contacts.
Context {IP : InetPton} {IN : InetNtop} {BT : OxencBt} {BD : OxencDict}.
(** The network of the program, and what the memory of an address held before it was read. *)
Context (ours : list Z) (rank0 port0 : Z).
Definition rc_bencodable : BEncodable RouterContact := RouterContact.bencodable rank0 port0 ours.

Record GotRouterMessage := MkGotRouter { foundRCs : list RouterContact; nearKeys : list RouterID; closerTarget : option Key_t;
  gr_txid : Z; gr_relayed : bool; gr_version : Z }.
#[local] Instance eta_GotRouter : Eta GotRouterMessage := fun m =>
  MkGotRouter (foundRCs m) (nearKeys m) (closerTarget m) (gr_txid m) (gr_relayed m) (gr_version m).
(** The constructors: to decode into, with results, with a closer router, with routers nearby, for gossip. *)
Definition GotRouter_inbound (tunneled : bool) : GotRouterMessage := MkGotRouter [] [] None 0 tunneled proto_version.
Definition GotRouter_results (id : Z) (results : list RouterContact) (tunneled : bool) : GotRouterMessage :=
  MkGotRouter results [] None id tunneled proto_version.
Definition GotRouter_closer (closer : Key_t) (id : Z) (tunneled : bool) : GotRouterMessage :=
  MkGotRouter [] [] (Some closer) id tunneled proto_version.
Definition GotRouter_near (id : Z) (near : list RouterID) (tunneled : bool) : GotRouterMessage :=
  MkGotRouter [] near None id tunneled proto_version.
Definition GotRouter_gossip (rc : RouterContact) : GotRouterMessage := MkGotRouter [rc] [] None 0 false proto_version.
Definition GotRouter_BEncode (m : GotRouterMessage) : writer :=
  bencode_start_dict
  ⩓ BEncodeWriteDictMsgType [c_A] [c_S]
  ⩓ write_opt (closerTarget m) (BEncodeWriteDictEntry (EA := key32) [c_K])
  ⩓ write_if (negb (length (nearKeys m) =? 0)%nat) (BEncodeWriteDictList (EA := key32) [c_N] (nearKeys m))
  ⩓ BEncodeWriteDictList (EA := rc_bencodable) [c_R] (foundRCs m)
  ⩓ BEncodeWriteDictInt [c_T] (gr_txid m)
  ⩓ BEncodeWriteDictInt [c_V] (gr_version m)
  ⩓ bencode_end.
(** [closerTarget] holds a zero key when its value does not decode. *)
Definition GotRouter_closer_key (fuel : nat) : decode_key GotRouterMessage := fun m key b =>
  match closerTarget m with
  | Some _ => Ok (false, m, b)
  | None => read_entry_into (EA := key32) fuel (fun x m => m <| closerTarget := Some x |>) (m <| closerTarget := Some (zeros 32) |>) key b
  end.
Definition GotRouter_DecodeKey (fuel : nat) : decode_key GotRouterMessage :=
  on_key [c_K] (GotRouter_closer_key fuel)
  (on_key [c_N] (read_list_into (EA := key32) fuel (zeros 32) nearKeys (fun x m => m <| nearKeys := x |>))
  (on_key [c_R] (read_list_into (EA := rc_bencodable) fuel (RouterContact.default ours) foundRCs (fun x m => m <| foundRCs := x |>))
  (on_key [c_T] (read_integer_into (fun x m => m <| gr_txid := x |>))
  (return_read (maybe_version [c_V] proto_version gr_version (fun x m => m <| gr_version := x |>)))))).

Record FindNameMessage := MkFindName { NameHash : Key_t; fn_TxID : Z }.
#[local] Instance eta_FindName : Eta FindNameMessage := fun m => MkFindName (NameHash m) (fn_TxID m).
Definition FindName_BEncode (m : FindNameMessage) : writer :=
  write (bt_serialize_dict [([c_A], BtString [c_N]); ([c_H], BtString (NameHash m)); ([c_T], BtInt (fn_TxID m))]).
Definition discard_value {M} (fuel : nat) : decode_key M := fun m _ b => let* (ok, _, b) := bencode_discard fuel b in Ok (ok, m, b).
Definition FindName_DecodeKey (fuel : nat) : decode_key FindNameMessage :=
  on_key [c_H] (read_entry_into (EA := key32) fuel (fun x m => m <| NameHash := x |>))
  (on_key [c_T] (read_integer_into (fun x m => m <| fn_TxID := x |>)) (discard_value fuel)).

(** The answer to a name: [EncryptedName] and the number of the transaction. *)
Record GotNameMessage := MkGotName { nonce : list Z; ciphertext : list Z; gn_TxID : Z }.
#[local] Instance eta_GotName : Eta GotNameMessage := fun m => MkGotName (nonce m) (ciphertext m) (gn_TxID m).
Definition NONCESIZE : nat := 24.
Definition NameSizeLimit : nat := 128.
Definition GotName_make (txid : Z) (n c : list Z) : res GotNameMessage :=
  if (NameSizeLimit <? length c)%nat then Throw else Ok (MkGotName n c txid).
Definition GotName_BEncode (m : GotNameMessage) : writer :=
  write (bt_serialize_dict [([c_A], BtString [c_M]); ([c_D], BtString (ciphertext m)); ([c_N], BtString (nonce m)); ([c_T], BtInt (gn_TxID m))]).
Definition read_ciphertext : decode_key GotNameMessage := fun m _ b =>
  let* (str, b) := bencode_read_string b in
  match str with
  | None => Ok (false, m, b)
  | Some str => if (NameSizeLimit <? sz str)%nat then Ok (false, m, b) else Ok (true, m <| ciphertext := mem str |>, b)
  end.
Definition GotName_DecodeKey (fuel : nat) : decode_key GotNameMessage :=
  on_key [c_D] read_ciphertext
  (on_key [c_N] (read_entry_into (EA := array_bencodable NONCESIZE) fuel (fun x m => m <| nonce := x |>))
  (on_key [c_T] (read_integer_into (fun x m => m <| gn_TxID := x |>)) (discard_value fuel))).

(** ** Decoding a message of any kind *)
Inductive body :=
  | MFindName (m : FindNameMessage)
  | MGotName (m : GotNameMessage)
  | MFindIntro (m : FindIntroMessage.t)
  | MFindRouter (m : FindRouterMessage.t)
  | MRelayedFindRouter (m : FindRouterMessage.t)
  | MGotRouter (m : GotRouterMessage)
  | MPublishIntro (m : PublishIntroMessage.t)
  | MGotIntro (m : GotIntroMessage.t)
  | MRelayedGotIntro (m : GotIntroMessage.t).
Record IMessage := IMsg { From : Key_t; pathID : PathID_t; msg : body }.

Definition BEncode_body (m : body) : writer :=
  match m with
  | MFindName m => FindName_BEncode m
  | MGotName m => GotName_BEncode m
  | MFindIntro m => FindIntroMessage.BEncode m
  | MFindRouter m | MRelayedFindRouter m => FindRouterMessage.BEncode m
  | MGotRouter m => GotRouter_BEncode m
  | MPublishIntro m => PublishIntroMessage.BEncode m
  | MGotIntro m | MRelayedGotIntro m => GotIntroMessage.BEncode m
  end.
(** The virtual [DecodeKey]. *)
Definition lift_key {M} (dk : decode_key M) (c : M -> body) (m : M) (key b : llarp_buffer_t) : res (bool * body * llarp_buffer_t) :=
  let* (ok, m, b) := dk m key b in Ok (ok, c m, b).
Definition DecodeKey_body (fuel : nat) : decode_key body := fun m =>
  match m with
  | MFindName m => lift_key (FindName_DecodeKey fuel) MFindName m
  | MGotName m => lift_key (GotName_DecodeKey fuel) MGotName m
  | MFindIntro m => lift_key (FindIntroMessage.DecodeKey fuel) MFindIntro m
  | MFindRouter m => lift_key (FindRouterMessage.DecodeKey fuel) MFindRouter m
  | MRelayedFindRouter m => lift_key (FindRouterMessage.DecodeKey fuel) MRelayedFindRouter m
  | MGotRouter m => lift_key (GotRouter_DecodeKey fuel) MGotRouter m
  | MPublishIntro m => lift_key (PublishIntroMessage.DecodeKey fuel) MPublishIntro m
  | MGotIntro m => lift_key (GotIntroMessage.DecodeKey fuel) MGotIntro m
  | MRelayedGotIntro m => lift_key (GotIntroMessage.DecodeKey fuel) MRelayedGotIntro m
  end.
(** The message made for the letter of a kind. *)
Definition make_body (relayed : bool) (c : Z) : option body :=
  if c =? c_N then Some (MFindName (MkFindName (zeros 32) 0))
  else if c =? c_M then Some (MGotName (MkGotName (zeros NONCESIZE) [] 0))
  else if c =? c_F then Some (MFindIntro (FindIntroMessage.inbound relayed 0))
  else if c =? c_R then Some (if relayed then MRelayedFindRouter FindRouterMessage.inbound else MFindRouter FindRouterMessage.inbound)
  else if c =? c_S then Some (MGotRouter (GotRouter_inbound relayed))
  else if c =? c_I then Some (MPublishIntro (PublishIntroMessage.inbound relayed))
  else if c =? c_G then Some (if relayed then MRelayedGotIntro GotIntroMessage.inbound else MGotIntro GotIntroMessage.inbound)
  else None.
(** [MessageDecoder]: [firstKey] and [msg]. *)
Definition decoder_sink (fuel : nat) (relayed : bool) (st : bool * option body) (key : option llarp_buffer_t) (b : llarp_buffer_t)
  : res (bool * (bool * option body) * llarp_buffer_t) :=
  match key with
  | None => Ok (negb st.1, st, b)
  | Some key =>
      if st.1 then
        if negb (startswith [c_A] key) then Ok (false, st, b)
        else
          let* (strbuf, b) := bencode_read_string b in
          match strbuf with
          | None => Ok (false, st, b)
          | Some str =>
              if negb (sz str =? 1)%nat then Ok (false, st, b)
              else
                let* c := byte_at 0 (mem str) in
                match make_body relayed c with
                | None => Ok (false, st, b)
                | Some m => Ok (true, (false, Some m), b)
                end
          end
      else
        match st.2 with
        | None => Oob
        | Some m => let* (ok, m, b) := DecodeKey_body fuel m key b in Ok (ok, (false, Some m), b)
        end
  end.
(** The relayed answer to a lookup of an introduction is made without the sender. *)
Definition sender (from : Key_t) (m : body) : Key_t := match m with MRelayedGotIntro _ => zeros 32 | _ => from end.
Definition DecodeMesssage (fuel : nat) (from : Key_t) (relayed : bool) (b : llarp_buffer_t) : res (option IMessage * llarp_buffer_t) :=
  let* (ok, st, b) := bencode_read_dict fuel (decoder_sink fuel relayed) (true, None) b in
  Ok (if ok : bool then (fun m => IMsg (sender from m) (zeros PATHIDSIZE) m) <$> st.2 else None, b).
Definition DecodeMesssageList (fuel : nat) (from : Key_t) (relayed : bool) (l : list IMessage) (b : llarp_buffer_t)
  : res (bool * list IMessage * llarp_buffer_t) :=
  bencode_read_list fuel (fun l has b =>
    if has : bool then
      let* (m, b) := DecodeMesssage fuel from relayed b in
      match m with Some m => Ok (true, l ++ [m], b) | None => Ok (false, l, b) end
    else Ok (true, l, b)) l b.
End contacts.

(** * Round trips *)
Module DhtMessageSpec.
Import EncryptedIntroSetSpec.
Section spec.
Context {IP : InetPton} {IN : InetNtop} {INS : InetNtopSpec IP IN} {BT : OxencBt} {BD : OxencDict} {BDS : OxencDictSpec BD}.
Context (ours : list Z) (rank0 port0 : Z).
Abbreviation entry := (list Z * list Z)%type.
Abbreviation introset_text := (fun s => dict (EncryptedIntroSetSpec.text s)).
Abbreviation contact_text := (fun rc => dict (RouterContactSpec.text rc)).
Definition contact_ok (rc : RouterContact) : Prop := RouterContactSpec.ok rc /\ RouterContact.signed_bt_dict rc = [].

#[local] Instance rc_spec : @BEncodableSpec _ (rc_bencodable ours rank0 port0) contact_text contact_ok := RouterContactSpec.contact_spec rank0 port0 ours.

(** The entries after the one that names the kind. *)
Definition find_intro_text (m : FindIntroMessage.t) : list entry :=
  (if Tag_Empty (FindIntroMessage.tagName m)
   then [([c_O], enc_int (FindIntroMessage.relayOrder m)); ([c_S], enc_str (FindIntroMessage.location m))]
   else [([c_N], enc_str (FindIntroMessage.tagName m)); ([c_O], enc_int (FindIntroMessage.relayOrder m))])
  ++ [([c_T], enc_int (FindIntroMessage.txID m)); ([c_V], enc_int proto_version)].
Definition find_router_text (m : FindRouterMessage.t) : list entry :=
  [([c_E], enc_int (if FindRouterMessage.exploritory m then 1 else 0)); ([c_I], enc_int (if FindRouterMessage.iterative m then 1 else 0));
   ([c_K], enc_str (FindRouterMessage.targetKey m)); ([c_T], enc_int (FindRouterMessage.txid m)); ([c_V], enc_int (FindRouterMessage.version m))].
Definition got_intro_text (m : GotIntroMessage.t) : list entry :=
  [([c_I], enc_list (introset_text <$> GotIntroMessage.found m))]
  ++ match GotIntroMessage.closer m with Some k => [([c_K], enc_str k)] | None => [] end
  ++ [([c_T], enc_int (GotIntroMessage.txid m)); ([c_V], enc_int (GotIntroMessage.version m))].
Definition publish_text (m : PublishIntroMessage.t) : list entry :=
  [([c_I], introset_text (PublishIntroMessage.introset m)); ([c_O], enc_int (PublishIntroMessage.relayOrder m));
   ([c_R], enc_int (if PublishIntroMessage.relayed m then 1 else 0)); ([c_T], enc_int (PublishIntroMessage.txID m)); ([c_V], enc_int proto_version)].
Definition got_router_text (m : GotRouterMessage) : list entry :=
  match closerTarget m with Some k => [([c_K], enc_str k)] | None => [] end
  ++ (if negb (length (nearKeys m) =? 0)%nat then [([c_N], enc_list (enc_str <$> nearKeys m))] else [])
  ++ [([c_R], enc_list (contact_text <$> foundRCs m)); ([c_T], enc_int (gr_txid m)); ([c_V], enc_int (gr_version m))].
Definition find_name_text (m : FindNameMessage) : list entry := [([c_H], enc_str (NameHash m)); ([c_T], enc_int (fn_TxID m))].
Definition got_name_text (m : GotNameMessage) : list entry :=
  [([c_D], enc_str (ciphertext m)); ([c_N], enc_str (nonce m)); ([c_T], enc_int (gn_TxID m))].
Definition kind (m : body) : Z :=
  match m with
  | MFindName _ => c_N | MGotName _ => c_M | MFindIntro _ => c_F | MFindRouter _ | MRelayedFindRouter _ => c_R
  | MGotRouter _ => c_S | MPublishIntro _ => c_I | MGotIntro _ | MRelayedGotIntro _ => c_G
  end.
Definition body_text (m : body) : list entry :=
  ([c_A], enc_str [kind m]) ::
  match m with
  | MFindName m => find_name_text m | MGotName m => got_name_text m | MFindIntro m => find_intro_text m
  | MFindRouter m | MRelayedFindRouter m => find_router_text m | MGotRouter m => got_router_text m
  | MPublishIntro m => publish_text m | MGotIntro m | MRelayedGotIntro m => got_intro_text m
  end.

Definition find_name_ok (m : FindNameMessage) : Prop := length (NameHash m) = 32%nat /\ in_width 64 (fn_TxID m).
Definition got_name_ok (m : GotNameMessage) : Prop :=
  length (nonce m) = NONCESIZE /\ (length (ciphertext m) <= NameSizeLimit)%nat /\ in_width 64 (gn_TxID m).
Definition find_intro_ok (relay : bool) (m : FindIntroMessage.t) : Prop :=
  (if Tag_Empty (FindIntroMessage.tagName m) then FindIntroMessage.tagName m = zeros 16 /\ length (FindIntroMessage.location m) = 32%nat
   else length (FindIntroMessage.tagName m) = 16%nat /\ FindIntroMessage.location m = zeros 32)
  /\ in_width 64 (FindIntroMessage.txID m) /\ in_width 64 (FindIntroMessage.relayOrder m)
  /\ FindIntroMessage.relayed m = relay /\ FindIntroMessage.version m = proto_version.
Definition find_router_ok (m : FindRouterMessage.t) : Prop :=
  length (FindRouterMessage.targetKey m) = 32%nat /\ in_width 64 (FindRouterMessage.txid m) /\ in_width 64 (FindRouterMessage.version m).
Definition got_router_ok (relay : bool) (m : GotRouterMessage) : Prop :=
  Forall contact_ok (foundRCs m) /\ Forall (key_ok 32) (nearKeys m) /\ (forall k, closerTarget m = Some k -> length k = 32%nat)
  /\ in_width 64 (gr_txid m) /\ gr_relayed m = relay /\ gr_version m = proto_version.
Definition publish_ok (m : PublishIntroMessage.t) : Prop :=
  EncryptedIntroSetSpec.ok (PublishIntroMessage.introset m) /\ in_width 64 (PublishIntroMessage.relayOrder m)
  /\ in_width 64 (PublishIntroMessage.txID m) /\ PublishIntroMessage.version m = proto_version.
Definition got_intro_ok (m : GotIntroMessage.t) : Prop :=
  Forall EncryptedIntroSetSpec.ok (GotIntroMessage.found m) /\ (forall k, GotIntroMessage.closer m = Some k -> length k = 32%nat)
  /\ in_width 64 (GotIntroMessage.txid m) /\ in_width 64 (GotIntroMessage.version m).
Definition body_ok (relay : bool) (m : body) : Prop :=
  match m with
  | MFindName m => find_name_ok m
  | MGotName m => got_name_ok m
  | MFindIntro m => find_intro_ok relay m
  | MFindRouter m => relay = false /\ find_router_ok m
  | MRelayedFindRouter m => relay = true /\ find_router_ok m
  | MGotRouter m => got_router_ok relay m
  | MPublishIntro m => publish_ok m
  | MGotIntro m => relay = false /\ got_intro_ok m
  | MRelayedGotIntro m => relay = true /\ got_intro_ok m
  end.

(** ** Writing *)
Lemma bt_writes l : writes (write (bt_serialize_dict l)) (dict ((fun e => (e.1, bt_text e.2)) <$> l)).
Proof using BDS. rewrite bt_serialize_spec. apply writes_write. Qed.
Lemma writes_body relay m : body_ok relay m -> writes (BEncode_body ours rank0 port0 m) (dict (body_text m)).
Proof using INS BDS.
  destruct m as [m|m|m|m|m|m|m|m|m]; intros Hok; cbn [body_ok BEncode_body] in *; unfold body_text; cbn [kind].
  - apply bt_writes. - apply bt_writes.
  - destruct Hok as (Ht & _). unfold FindIntroMessage.BEncode, find_intro_text.
    destruct (Tag_Empty (FindIntroMessage.tagName m)); destruct Ht; cbn [app]; writes_entries; by apply key_ok_intro; [lia|].
  - writes_entries.
  - writes_entries.
  - destruct Hok as (Hr & Hn & Hk & _). unfold got_router_text. writes_entries; [apply key_ok_intro; [lia|by auto]|done..].
  - destruct Hok as (Hi & _). unfold publish_text. writes_entries.
    apply writes_dict_cons; [by apply (writes_entry (benc := introset_text))|repeat writes_step].
  - destruct Hok as (_ & Hf & Hc & _). unfold got_intro_text. writes_entries; [done|apply key_ok_intro; [lia|by auto]].
  - destruct Hok as (_ & Hf & Hc & _). unfold got_intro_text. writes_entries; [done|apply key_ok_intro; [lia|by auto]].
Qed.

(** ** Reading *)
Lemma lift_decodes {M} (dk : decode_key M) (c : M -> body) fuel l m m' :
  (forall m, DecodeKey_body ours rank0 port0 fuel (c m) = lift_key dk c m) -> decodes_all dk l m m' ->
  decodes_all (DecodeKey_body ours rank0 port0 fuel) l (c m) (c m').
Proof.
  intros Hc. revert m. induction l as [|[k v] l IH]; intros m; cbn [decodes_all]; [by intros ->|]. intros (m1 & [Hk Hd] & Hl).
  exists (c m1). split; [|by apply IH]. split; [done|]. intros pre rest. rewrite Hc. unfold lift_key. by rewrite Hd.
Qed.
Ltac use_lengths Hf := let H := fresh "Hlen" in pose proof (fun k v => entry_length k v _ _ Hf) as H; clear Hf.

Lemma decodes_find_name fuel m : find_name_ok m -> (length (dict (find_name_text m)) <= fuel)%nat ->
  decodes_all (FindName_DecodeKey fuel) (find_name_text m) (MkFindName (zeros 32) 0) m.
Proof. intros [H1 H2] Hf. use_lengths Hf. destruct m as [h t]. unfold find_name_text in *. cbn in H1, H2. do 2 decode_entry Hlen. done. Qed.
Lemma decodes_got_name fuel m : got_name_ok m -> (length (dict (got_name_text m)) <= fuel)%nat ->
  decodes_all (GotName_DecodeKey fuel) (got_name_text m) (MkGotName (zeros NONCESIZE) [] 0) m.
Proof.
  intros (H1 & H2 & H3) Hf. use_lengths Hf. destruct m as [n c t]. unfold got_name_text in *. cbn in H1, H2, H3. eexists. split.
  { apply on_key_decodes_l; [done|]. split; [done|]. intros pre rest. unfold read_ciphertext.
    rewrite read_string_reads by (unfold str_ok, NameSizeLimit in *; cbn; lia). cbn [rbind ciphertext]. unfold sz. cbn [mem].
    rewrite (proj2 (Nat.ltb_ge _ _)) by done. reflexivity. }
  eexists. split; [solve_decodes; [apply key_ok_intro; [unfold NONCESIZE; lia|done]|codec_side Hlen]|]. decode_entry Hlen. done.
Qed.
Lemma decodes_find_intro fuel relay m : find_intro_ok relay m -> (length (dict (find_intro_text m)) <= fuel)%nat ->
  decodes_all (FindIntroMessage.DecodeKey fuel) (find_intro_text m) (FindIntroMessage.inbound relay 0) m.
Proof.
  intros (H1 & H2 & H3 & H4 & H5) Hf. use_lengths Hf. destruct m as [l g t r o v]. unfold find_intro_text in *.
  cbn [FindIntroMessage.tagName FindIntroMessage.location FindIntroMessage.txID FindIntroMessage.relayOrder FindIntroMessage.relayed FindIntroMessage.version] in *.
  subst r v. destruct (Tag_Empty g); destruct H1 as [H1 H1']; cbn [app] in *; do 4 decode_entry Hlen; by subst.
Qed.
Lemma decodes_find_router fuel m : find_router_ok m -> (length (dict (find_router_text m)) <= fuel)%nat ->
  decodes_all (FindRouterMessage.DecodeKey fuel) (find_router_text m) FindRouterMessage.inbound m.
Proof.
  intros (H1 & H2 & H3) Hf. use_lengths Hf. destruct m as [k i e t v]. unfold find_router_text in *.
  cbn [FindRouterMessage.targetKey FindRouterMessage.iterative FindRouterMessage.exploritory FindRouterMessage.txid FindRouterMessage.version] in *.
  do 5 decode_entry Hlen. by destruct i, e.
Qed.
Lemma decodes_publish fuel relay m : publish_ok m -> (length (dict (publish_text m)) <= fuel)%nat ->
  decodes_all (PublishIntroMessage.DecodeKey fuel) (publish_text m) (PublishIntroMessage.inbound relay) m.
Proof.
  intros (H1 & H2 & H3 & H4) Hf. use_lengths Hf. destruct m as [i r o t v]. unfold publish_text in *.
  cbn [PublishIntroMessage.introset PublishIntroMessage.relayed PublishIntroMessage.relayOrder PublishIntroMessage.txID PublishIntroMessage.version] in *.
  subst v. eexists. split; [apply return_read_decodes, both_takes_l; [apply (maybe_entry_takes (benc := introset_text)); codec_side Hlen|solve_skips]|].
  do 4 decode_entry Hlen. by destruct r.
Qed.
Lemma decodes_got_intro fuel m : got_intro_ok m -> (length (dict (got_intro_text m)) <= fuel)%nat ->
  decodes_all (GotIntroMessage.DecodeKey fuel) (got_intro_text m) GotIntroMessage.inbound m.
Proof.
  intros (H1 & H2 & H3 & H4) Hf. use_lengths Hf. destruct m as [f t c v]. unfold got_intro_text in *.
  cbn [GotIntroMessage.found GotIntroMessage.txid GotIntroMessage.closer GotIntroMessage.version app] in *.
  eexists. split; [apply on_key_decodes_l; [done|]; apply (read_list_into_decodes (benc := introset_text)); [done|eapply Hlen; in_entries]|].
  apply decodes_all_app. exists (GotIntroMessage.Mk f 0 c proto_version). split.
  { destruct c as [k|]; [|done]. eexists. split; [apply on_key_decodes_r, on_key_decodes_l; [done..|];
      apply (read_entry_into_decodes (EA := key32)); [apply key_ok_intro; [lia|by auto]|eapply Hlen; in_entries]|done]. }
  do 2 decode_entry Hlen. done.
Qed.
Lemma decodes_got_router fuel relay m : got_router_ok relay m -> (length (dict (got_router_text m)) <= fuel)%nat ->
  decodes_all (GotRouter_DecodeKey ours rank0 port0 fuel) (got_router_text m) (GotRouter_inbound relay) m.
Proof using INS.
  intros (H1 & H2 & H3 & H4 & H5 & H6) Hf. use_lengths Hf. destruct m as [f n c t r v]. unfold got_router_text in *.
  cbn [foundRCs nearKeys closerTarget gr_txid gr_relayed gr_version] in *. subst r v.
  apply decodes_all_app. exists (MkGotRouter [] [] c 0 relay proto_version). split.
  { destruct c as [k|]; [|done]. eexists. split; [apply on_key_decodes_l; [done|];
      apply (read_entry_into_decodes (EA := key32) fuel _ _ _ (MkGotRouter [] [] (Some (zeros 32)) 0 relay proto_version));
      [apply key_ok_intro; [lia|by auto]|eapply Hlen; in_entries]|done]. }
  apply decodes_all_app. exists (MkGotRouter [] n c 0 relay proto_version). split.
  { destruct n as [|k n]; [done|]. cbn [length Nat.eqb negb] in *. eexists. split; [apply on_key_decodes_r, on_key_decodes_l; [done..|];
      apply (read_list_into_decodes (EA := key32) fuel (zeros 32) nearKeys); [done|eapply Hlen; in_entries]|done]. }
  eexists. split; [do 2 (apply on_key_decodes_r; [done|]); apply on_key_decodes_l; [done|]; apply (read_list_into_decodes (benc := contact_text)); [done|eapply Hlen; in_entries]|].
  do 2 decode_entry Hlen. done.
Qed.

Lemma decodes_body fuel relay m : body_ok relay m -> (length (dict (body_text m)) <= fuel)%nat ->
  exists m0, make_body relay (kind m) = Some m0 /\ decodes_all (DecodeKey_body ours rank0 port0 fuel) (tail (body_text m)) m0 m.
Proof using INS.
  intros Hok Hf. assert (length (dict (tail (body_text m))) <= fuel)%nat as Hl.
  { clear Hok. revert Hf. unfold body_text. cbn [tail]. unfold dict, entries. cbn [fmap list_fmap concat length]. rewrite !length_app. lia. }
  clear Hf. destruct m as [m|m|m|m|m|m|m|m|m]; cbn [body_ok kind body_text tail] in *; try destruct Hok as [-> Hok]; (eexists; split; [reflexivity|]);
    (eapply lift_decodes; [reflexivity|]).
  - by apply decodes_find_name.
  - by apply decodes_got_name.
  - by apply decodes_find_intro.
  - by apply decodes_find_router.
  - by apply decodes_find_router.
  - by apply decodes_got_router.
  - by apply decodes_publish.
  - by apply decodes_got_intro.
  - by apply decodes_got_intro.
Qed.
Lemma sink_decodes fuel relay l m m' : decodes_all (DecodeKey_body ours rank0 port0 fuel) l m m' ->
  decodes_all (fun st k b => decoder_sink ours rank0 port0 fuel relay st (Some k) b) l (false, Some m) (false, Some m').
Proof.
  revert m. induction l as [|[k v] l IH]; intros m; cbn [decodes_all]; [by intros ->|]. intros (m1 & [Hk Hd] & Hl).
  exists (false, Some m1). split; [|by apply IH]. split; [done|]. intros pre rest. cbn [decoder_sink fst snd]. by rewrite Hd.
Qed.

Lemma decode_reads relay m from fuel pre rest :
  body_ok relay m -> (length (dict (body_text m)) <= fuel)%nat ->
  DecodeMesssage ours rank0 port0 fuel from relay (pre ‖ dict (body_text m) ++ rest)
  = Ok (Some (IMsg (sender from m) (zeros PATHIDSIZE) m), (pre ++ dict (body_text m)) ‖ rest).
Proof using INS.
  intros Hok Hf. unfold DecodeMesssage. destruct (decodes_body fuel relay m Hok Hf) as (m0 & Em & Hd).
  rewrite (read_dict_reads _ (body_text m) fuel (true, None) (false, Some m)); [done| |done].
  exists (false, Some m0). split; [|by apply sink_decodes]. split; [done|]. intros pre' rest'. unfold decoder_sink. cbn [fst].
  rewrite startswith_letter, Z.eqb_refl. cbn [negb]. rewrite read_string_reads by done. cbn [rbind]. unfold sz. cbn [mem length Nat.eqb negb].
  change (byte_at 0 [kind m]) with (Ok (kind m)). cbn [rbind]. by rewrite Em.
Qed.

(** C27. Every message is read back as it was written, whatever precedes and follows it. *)
Theorem dht_message_roundtrip relay m from fuel pre rest :
  body_ok relay m -> (length (dict (body_text m)) <= fuel)%nat ->
  writes (BEncode_body ours rank0 port0 m) (dict (body_text m)) /\
  DecodeMesssage ours rank0 port0 fuel from relay (pre ‖ dict (body_text m) ++ rest)
  = Ok (Some (IMsg (sender from m) (zeros PATHIDSIZE) m), (pre ++ dict (body_text m)) ‖ rest).
Proof using INS BDS. intros Hok Hf. split; [by eapply writes_body|by apply decode_reads]. Qed.

(** Lists of messages from one router. *)
Definition message_bencodable (from : Key_t) (relay : bool) : BEncodable IMessage :=
  {| Bencode.BEncode m := BEncode_body ours rank0 port0 (msg m); Bencode.BDecode fuel := DecodeMesssage ours rank0 port0 fuel from relay |}.
Definition message_ok (from : Key_t) (relay : bool) (m : IMessage) : Prop :=
  From m = sender from (msg m) /\ pathID m = zeros PATHIDSIZE /\ body_ok relay (msg m).
Abbreviation message_text := (fun m => dict (body_text (msg m))).
#[export] Instance message_spec from relay : @BEncodableSpec IMessage (message_bencodable from relay) message_text (message_ok from relay).
Proof using INS BDS.
  split.
  - intros m _. by eexists _, _.
  - intros m (_ & _ & Hm). by eapply writes_body.
  - intros fuel m (H1 & H2 & Hm) Hf pre rest. cbn [Bencode.BDecode message_bencodable]. rewrite decode_reads by done. destruct m. cbn in *. by subst.
Qed.
Lemma list_reads from relay l l0 fuel pre rest :
  Forall (message_ok from relay) l -> (length (enc_list (message_text <$> l)) <= fuel)%nat ->
  DecodeMesssageList ours rank0 port0 fuel from relay l0 (pre ‖ enc_list (message_text <$> l) ++ rest)
  = Ok (true, l0 ++ l, (pre ++ enc_list (message_text <$> l)) ‖ rest).
Proof using INS BDS.
  intros Hl Hf. unfold DecodeMesssageList.
  rewrite (read_list_items (EA := message_bencodable from relay) (ok := message_ok from relay) (fun st a => st ++ [a]) (fun _ _ => True) fuel).
  - f_equal. f_equal. f_equal. clear. revert l0. induction l as [|a l IH]; intros acc; cbn; [by rewrite app_nil_r|]. by rewrite IH, snoc_app.
  - intros st a pre' rest' Ha Hn _. cbn. pose proof (BDecode_reads (EA := message_bencodable from relay) fuel a Ha Hn pre' rest') as E. cbn in E. by rewrite E.
  - done.
  - done.
  - generalize l0. clear. induction l; intros; cbn; auto.
  - done.
  - done.
Qed.

(** C31. Whatever a message holds, and however much room there is, writing it never leaves the buffer. *)
Theorem dht_message_in_bounds m : safe_writer (BEncode_body ours rank0 port0 m).
Proof.
  destruct m as [m|m|m|m|m|m|m|m|m]; cbn [BEncode_body]; unfold FindName_BEncode, GotName_BEncode, FindIntroMessage.BEncode, FindRouterMessage.BEncode,
    GotRouter_BEncode, PublishIntroMessage.BEncode, GotIntroMessage.BEncode; try case_match; solve_safe; try apply EncryptedIntroSetSpec.safe_introset.
  apply ContactSafe.safe_contact.
Qed.
End spec.
End DhtMessageSpec.

Lemma dht_message_roundtrip_witness :
  let m := MPublishIntro (PublishIntroMessage.make EncryptedIntroSet.empty 5 true 1) in
  DecodeMesssage (IP := pton_dec) (IN := ntop_dec) (BT := bt_none) [] 0 0 500 (Fill 1) true ([] ‖ dict (DhtMessageSpec.body_text (IN := ntop_dec) m) ++ [])
  = Ok (Some (IMsg (Fill 1) (zeros PATHIDSIZE) m), ([] ++ dict (DhtMessageSpec.body_text (IN := ntop_dec) m)) ‖ []).
Proof.
  intros m. apply (DhtMessageSpec.dht_message_roundtrip (IP := pton_dec) (IN := ntop_dec) (BT := bt_none) (BD := oxenc_dict_ref) [] 0 0 true m (Fill 1) 500 [] []).
  - split_and!; try done. unfold EncryptedIntroSetSpec.ok. split_and!; try done. cbn. lia.
  - apply Nat.leb_le. vm_compute. reflexivity.
Defined.
