(* ===== verification/Routing.v ===== *)
(** * Messages on paths (llarp/routing, llarp/exit/exit_messages.cpp, llarp/exit/policy.cpp, llarp/messages/discard.hpp)

    The messages that the two ends of a path exchange, inside the layers of encryption: their
    texts, their signatures, and the parser that picks the kind of a message by its first entry,
    decodes it into an object it keeps for that kind and hands it to the path or to the transit hop. *)

From S2P Require Import Prelude Buffer Bencode Codec CryptoApi Str NetInt IpRange DnsName DnsMessage Contact TrafficPolicy Service Frame Protocol Kademlia DhtMessage.

(** ** Plain messages *)
Module DataDiscardMessage.
Record t := Mk { P : list Z; S_ : Z; version : Z }.
#[export] Instance eta_t : Eta t := fun m => Mk (P m) (S_ m) (version m).
Definition empty : t := Mk (zeros 16) 0 proto_version.
Definition make (dst : list Z) (s : Z) : t := Mk dst s proto_version.
(** The path id and the sequence number stay. *)
Definition Clear (m : t) : t := m <| version := 0 |>.
Definition DecodeKey (fuel : nat) : decode_key t := return_read
  (maybe_entry (EA := key16) fuel [c_P] P (fun x m => m <| P := x |>)
   ⨾ maybe_int 64 [c_S] S_ (fun x m => m <| S_ := x |>)
   ⨾ maybe_int 64 [c_V] version (fun x m => m <| version := x |>)).
Definition BEncode (m : t) : writer :=
  bencode_start_dict
  ⩓ BEncodeWriteDictMsgType [c_A] [c_D]
  ⩓ BEncodeWriteDictEntry (EA := key16) [c_P] (P m)
  ⩓ BEncodeWriteDictInt [c_S] (S_ m)
  ⩓ BEncodeWriteDictInt [c_V] (version m)
  ⩓ bencode_end.
End DataDiscardMessage.

Module PathLatencyMessage.
Record t := Mk { T : Z; L : Z; S_ : Z; version : Z }.
#[export] Instance eta_t : Eta t := fun m => Mk (T m) (L m) (S_ m) (version m).
Definition empty : t := Mk 0 0 0 proto_version.
Definition Clear (m : t) : t := Mk 0 0 (S_ m) 0.
Definition DecodeKey (fuel : nat) : decode_key t := return_read
  (maybe_int 64 [c_L] L (fun x m => m <| L := x |>)
   ⨾ maybe_int 64 [c_S] S_ (fun x m => m <| S_ := x |>)
   ⨾ maybe_int 64 [c_T] T (fun x m => m <| T := x |>)).
(** The version is not written. *)
Definition BEncode (m : t) : writer :=
  bencode_start_dict
  ⩓ BEncodeWriteDictMsgType [c_A] [c_L]
  ⩓ write_if (negb (L m =? 0)) (BEncodeWriteDictInt [c_L] (L m))
  ⩓ write_if (negb (T m =? 0)) (BEncodeWriteDictInt [c_T] (T m))
  ⩓ BEncodeWriteDictInt [c_S] (S_ m)
  ⩓ bencode_end.
End PathLatencyMessage.

Module PathConfirmMessage.
Record t := Mk { pathLifetime : Z; pathCreated : Z; S_ : Z; version : Z }.
#[export] Instance eta_t : Eta t := fun m => Mk (pathLifetime m) (pathCreated m) (S_ m) (version m).
Definition empty : t := Mk 0 0 0 proto_version.
Definition make (lifetime now : Z) : t := Mk lifetime now 0 proto_version.
Definition Clear (m : t) : t := Mk 0 0 (S_ m) 0.
Definition DecodeKey (fuel : nat) : decode_key t := return_read
  (maybe_time [c_L] (fun x m => m <| pathLifetime := x |>)
   ⨾ maybe_int 64 [c_S] S_ (fun x m => m <| S_ := x |>)
   ⨾ maybe_time [c_T] (fun x m => m <| pathCreated := x |>)
   ⨾ maybe_int 64 [c_V] version (fun x m => m <| version := x |>)).
Definition BEncode (m : t) : writer :=
  bencode_start_dict
  ⩓ BEncodeWriteDictMsgType [c_A] [c_P]
  ⩓ BEncodeWriteDictTime [c_L] (pathLifetime m)
  ⩓ BEncodeWriteDictInt [c_S] (S_ m)
  ⩓ BEncodeWriteDictTime [c_T] (pathCreated m)
  ⩓ BEncodeWriteDictInt [c_V] (version m)
  ⩓ bencode_end.
End PathConfirmMessage.

(** A frame of hidden services, handed from one path to another by the router where both end. *)
Module PathTransferMessage.
Record t := Mk { P : list Z; T : ProtocolFrame.t; Y : list Z; S_ : Z; version : Z }.
#[export] Instance eta_t : Eta t := fun m => Mk (P m) (T m) (Y m) (S_ m) (version m).
Definition empty : t := Mk (zeros 16) ProtocolFrame.empty (zeros 32) 0 proto_version.
(** [Y] is drawn. *)
Definition make (f : ProtocolFrame.t) (p y : list Z) : t := Mk p f y 0 proto_version.
Definition Clear (m : t) : t := Mk (zeros 16) (ProtocolFrame.Clear (T m)) (zeros 32) (S_ m) 0.
Definition DecodeKey (fuel : nat) : decode_key t := return_read
  (maybe_entry (EA := key16) fuel [c_P] P (fun x m => m <| P := x |>)
   ⨾ maybe_int 64 [c_S] S_ (fun x m => m <| S_ := x |>)
   ⨾ maybe_dict fuel [c_T] (ProtocolFrame.DecodeKey fuel) T (fun x m => m <| T := x |>)
   ⨾ maybe_int 64 [c_V] version (fun x m => m <| version := x |>)
   ⨾ maybe_entry (EA := key32) fuel [c_Y] Y (fun x m => m <| Y := x |>)).
Definition BEncode (m : t) : writer :=
  bencode_start_dict
  ⩓ BEncodeWriteDictMsgType [c_A] [c_T]
  ⩓ BEncodeWriteDictEntry (EA := key16) [c_P] (P m)
  ⩓ BEncodeWriteDictInt [c_S] (S_ m)
  ⩓ (bencode_write_bytestring [c_T] ⩓ ProtocolFrame.BEncode (T m))
  ⩓ BEncodeWriteDictInt [c_V] proto_version
  ⩓ BEncodeWriteDictEntry (EA := key32) [c_Y] (Y m)
  ⩓ bencode_end.
End PathTransferMessage.

(** Packets to and from an exit, each behind its counter. *)
Module TransferTrafficMessage.
Definition MaxExitMTU : nat := 1500.
Definition ExitOverhead : nat := 8.
Abbreviation packet := (Encrypted.bencodable (MaxExitMTU + ExitOverhead)).
Record t := Mk { X : list (list Z); protocol : Z; _size : Z; S_ : Z; version : Z }.
#[export] Instance eta_t : Eta t := fun m => Mk (X m) (protocol m) (_size m) (S_ m) (version m).
Definition empty (protocol0 : Z) : t := Mk [] protocol0 0 0 proto_version.
Definition Clear (m : t) : t := Mk [] ProtocolType.TrafficV4 0 (S_ m) 0.
Definition PutBuffer {O : Oxenc} (buf : list Z) (counter : Z) (m : t) : bool * t :=
  if (MaxExitMTU <? length buf)%nat then (false, m)
  else (true, m <| X := X m ++ [write_host_as_big 8 counter ++ buf] |> <| _size := u64 (_size m + Z.of_nat (length buf) + 16) |>).
Definition DecodeKey (fuel : nat) : decode_key t := read_or_discard fuel
  (maybe_int 64 [c_S] S_ (fun x m => m <| S_ := x |>)
   ⨾ maybe_int 64 [c_P] protocol (fun x m => m <| protocol := x |>)
   ⨾ maybe_int 64 [c_V] version (fun x m => m <| version := x |>)
   ⨾ maybe_list (EA := packet) fuel [c_X] [] X (fun x m => m <| X := x |>)).
Definition BEncode (m : t) : writer :=
  bencode_start_dict
  ⩓ BEncodeWriteDictMsgType [c_A] [c_I]
  ⩓ BEncodeWriteDictInt [c_P] (protocol m)
  ⩓ BEncodeWriteDictInt [c_S] (S_ m)
  ⩓ BEncodeWriteDictInt [c_V] (version m)
  ⩓ BEncodeWriteDictList (EA := packet) [c_X] (X m)
  ⩓ bencode_end.
End TransferTrafficMessage.

(** ** Exits *)
Module Policy.
Record t := Mk { proto : Z; port : Z; drop : Z; version : Z }.
#[export] Instance eta_t : Eta t := fun m => Mk (proto m) (port m) (drop m) (version m).
Definition empty : t := Mk 0 0 0 proto_version.
Definition DecodeKey (fuel : nat) : decode_key t := return_read
  (maybe_int 64 [c_a] proto (fun x m => m <| proto := x |>)
   ⨾ maybe_int 64 [98] port (fun x m => m <| port := x |>)
   ⨾ maybe_int 64 [c_d] drop (fun x m => m <| drop := x |>)
   ⨾ maybe_int 64 [c_v] version (fun x m => m <| version := x |>)).
Definition BEncode (m : t) : writer :=
  bencode_start_dict
  ⩓ BEncodeWriteDictInt [c_a] (proto m)
  ⩓ BEncodeWriteDictInt [98] (port m)
  ⩓ BEncodeWriteDictInt [c_d] (drop m)
  ⩓ BEncodeWriteDictInt [c_v] (version m)
  ⩓ bencode_end.
Definition bencodable : BEncodable t := dict_bencodable BEncode DecodeKey empty.
End Policy.

Section exit_messages.
Context {CR : Crypto} {KP : KeyPairs}.
(** [sign(Z, sk, buf)] of what [BEncode] writes into a local array of [n] bytes. *)
Definition sign_text (n : nat) (w : writer) (sk : list Z) : res (option (list Z)) :=
  let* data := encode_into n w in Ok (data ≫= crypto_sign sk).
Definition verify_text (n : nat) (w : writer) (pk z : list Z) : res bool :=
  let* data := encode_into n w in Ok (match data with Some data => verify pk data z | None => false end).

Record ObtainExitMessage := MkObtain { ob_B : list Policy.t; ob_E : Z; ob_I : list Z; ob_T : Z; ob_W : list Policy.t; ob_X : Z; ob_Z : list Z; ob_S : Z; ob_version : Z }.
#[export] Instance eta_Obtain : Eta ObtainExitMessage := fun m =>
  MkObtain (ob_B m) (ob_E m) (ob_I m) (ob_T m) (ob_W m) (ob_X m) (ob_Z m) (ob_S m) (ob_version m).
Definition Obtain_empty : ObtainExitMessage := MkObtain [] 0 (zeros 32) 0 [] 0 (zeros 64) 0 proto_version.
Definition Obtain_Clear (m : ObtainExitMessage) : ObtainExitMessage := MkObtain [] 0 (zeros 32) 0 [] 0 (zeros 64) (ob_S m) (ob_version m).
Definition Obtain_BEncode (m : ObtainExitMessage) : writer :=
  bencode_start_dict
  ⩓ BEncodeWriteDictMsgType [c_A] [c_O]
  ⩓ BEncodeWriteDictArray (EA := Policy.bencodable) [c_B] (ob_B m)
  ⩓ BEncodeWriteDictInt [c_E] (ob_E m)
  ⩓ BEncodeWriteDictEntry (EA := key32) [c_I] (ob_I m)
  ⩓ BEncodeWriteDictInt [c_S] (ob_S m)
  ⩓ BEncodeWriteDictInt [c_T] (ob_T m)
  ⩓ BEncodeWriteDictInt [c_V] (ob_version m)
  ⩓ BEncodeWriteDictArray (EA := Policy.bencodable) [c_W] (ob_W m)
  ⩓ BEncodeWriteDictInt [c_X] (ob_X m)
  ⩓ BEncodeWriteDictEntry (EA := sig64) [c_Z] (ob_Z m)
  ⩓ bencode_end.
Definition Obtain_DecodeKey (fuel : nat) : decode_key ObtainExitMessage := return_read
  (maybe_list (EA := Policy.bencodable) fuel [c_B] Policy.empty ob_B (fun x m => m <| ob_B := x |>)
   ⨾ maybe_int 64 [c_E] ob_E (fun x m => m <| ob_E := x |>)
   ⨾ maybe_entry (EA := key32) fuel [c_I] ob_I (fun x m => m <| ob_I := x |>)
   ⨾ maybe_int 64 [c_S] ob_S (fun x m => m <| ob_S := x |>)
   ⨾ maybe_int 64 [c_T] ob_T (fun x m => m <| ob_T := x |>)
   ⨾ maybe_int 64 [c_V] ob_version (fun x m => m <| ob_version := x |>)
   ⨾ maybe_list (EA := Policy.bencodable) fuel [c_W] Policy.empty ob_W (fun x m => m <| ob_W := x |>)
   ⨾ maybe_int 64 [c_X] ob_X (fun x m => m <| ob_X := x |>)
   ⨾ maybe_entry (EA := sig64) fuel [c_Z] ob_Z (fun x m => m <| ob_Z := x |>)).
Definition Obtain_Sign (sk : list Z) (m : ObtainExitMessage) : res (bool * ObtainExitMessage) :=
  let m := m <| ob_I := seckey_topublic sk |> <| ob_Z := zeros 64 |> in
  let* z := sign_text 1024 (Obtain_BEncode m) sk in
  Ok (match z with Some z => (true, m <| ob_Z := z |>) | None => (false, m) end).
Definition Obtain_Verify (m : ObtainExitMessage) : res bool := verify_text 1024 (Obtain_BEncode (m <| ob_Z := zeros 64 |>)) (ob_I m) (ob_Z m).

Record GrantExitMessage := MkGrant { gr_T : Z; gr_Y : list Z; gr_Z : list Z; gr_S : Z; gr_version : Z }.
#[export] Instance eta_Grant : Eta GrantExitMessage := fun m => MkGrant (gr_T m) (gr_Y m) (gr_Z m) (gr_S m) (gr_version m).
Definition Grant_empty : GrantExitMessage := MkGrant 0 (zeros 16) (zeros 64) 0 proto_version.
Definition Grant_Clear (m : GrantExitMessage) : GrantExitMessage := MkGrant 0 (zeros 16) (zeros 64) (gr_S m) (gr_version m).
Definition Grant_BEncode (m : GrantExitMessage) : writer :=
  bencode_start_dict
  ⩓ BEncodeWriteDictMsgType [c_A] [c_G]
  ⩓ BEncodeWriteDictInt [c_S] (gr_S m)
  ⩓ BEncodeWriteDictInt [c_T] (gr_T m)
  ⩓ BEncodeWriteDictInt [c_V] (gr_version m)
  ⩓ BEncodeWriteDictEntry (EA := key16) [c_Y] (gr_Y m)
  ⩓ BEncodeWriteDictEntry (EA := sig64) [c_Z] (gr_Z m)
  ⩓ bencode_end.
Definition Grant_DecodeKey (fuel : nat) : decode_key GrantExitMessage := return_read
  (maybe_int 64 [c_S] gr_S (fun x m => m <| gr_S := x |>)
   ⨾ maybe_int 64 [c_T] gr_T (fun x m => m <| gr_T := x |>)
   ⨾ maybe_int 64 [c_V] gr_version (fun x m => m <| gr_version := x |>)
   ⨾ maybe_entry (EA := key16) fuel [c_Y] gr_Y (fun x m => m <| gr_Y := x |>)
   ⨾ maybe_entry (EA := sig64) fuel [c_Z] gr_Z (fun x m => m <| gr_Z := x |>)).
(** [y] is drawn. *)
Definition Grant_Sign (y sk : list Z) (m : GrantExitMessage) : res (bool * GrantExitMessage) :=
  let m := m <| gr_Z := zeros 64 |> <| gr_Y := y |> in
  let* z := sign_text 512 (Grant_BEncode m) sk in
  Ok (match z with Some z => (true, m <| gr_Z := z |>) | None => (false, m) end).
Definition Grant_Verify (pk : list Z) (m : GrantExitMessage) : res bool := verify_text 512 (Grant_BEncode (m <| gr_Z := zeros 64 |>)) pk (gr_Z m).

Record RejectExitMessage := MkReject { re_B : Z; re_R : list Policy.t; re_T : Z; re_Y : list Z; re_Z : list Z; re_S : Z; re_version : Z }.
#[export] Instance eta_Reject : Eta RejectExitMessage := fun m => MkReject (re_B m) (re_R m) (re_T m) (re_Y m) (re_Z m) (re_S m) (re_version m).
Definition Reject_empty : RejectExitMessage := MkReject 0 [] 0 (zeros 16) (zeros 64) 0 proto_version.
Definition Reject_Clear (m : RejectExitMessage) : RejectExitMessage := MkReject 0 [] 0 (zeros 16) (zeros 64) (re_S m) (re_version m).
Definition Reject_BEncode (m : RejectExitMessage) : writer :=
  bencode_start_dict
  ⩓ BEncodeWriteDictMsgType [c_A] [c_J]
  ⩓ BEncodeWriteDictInt [c_B] (re_B m)
  ⩓ BEncodeWriteDictList (EA := Policy.bencodable) [c_R] (re_R m)
  ⩓ BEncodeWriteDictInt [c_S] (re_S m)
  ⩓ BEncodeWriteDictInt [c_T] (re_T m)
  ⩓ BEncodeWriteDictInt [c_V] (re_version m)
  ⩓ BEncodeWriteDictEntry (EA := key16) [c_Y] (re_Y m)
  ⩓ BEncodeWriteDictEntry (EA := sig64) [c_Z] (re_Z m)
  ⩓ bencode_end.
Definition Reject_DecodeKey (fuel : nat) : decode_key RejectExitMessage := return_read
  (maybe_int 64 [c_B] re_B (fun x m => m <| re_B := x |>)
   ⨾ maybe_list (EA := Policy.bencodable) fuel [c_R] Policy.empty re_R (fun x m => m <| re_R := x |>)
   ⨾ maybe_int 64 [c_S] re_S (fun x m => m <| re_S := x |>)
   ⨾ maybe_int 64 [c_T] re_T (fun x m => m <| re_T := x |>)
   ⨾ maybe_int 64 [c_V] re_version (fun x m => m <| re_version := x |>)
   ⨾ maybe_entry (EA := key16) fuel [c_Y] re_Y (fun x m => m <| re_Y := x |>)
   ⨾ maybe_entry (EA := sig64) fuel [c_Z] re_Z (fun x m => m <| re_Z := x |>)).
Definition Reject_Sign (y sk : list Z) (m : RejectExitMessage) : res (bool * RejectExitMessage) :=
  let m := m <| re_Z := zeros 64 |> <| re_Y := y |> in
  let* z := sign_text 512 (Reject_BEncode m) sk in
  Ok (match z with Some z => (true, m <| re_Z := z |>) | None => (false, m) end).
Definition Reject_Verify (pk : list Z) (m : RejectExitMessage) : res bool := verify_text 512 (Reject_BEncode (m <| re_Z := zeros 64 |>)) pk (re_Z m).

Record UpdateExitMessage := MkUpdate { up_P : list Z; up_T : Z; up_Y : list Z; up_Z : list Z; up_S : Z; up_version : Z }.
#[export] Instance eta_Update : Eta UpdateExitMessage := fun m => MkUpdate (up_P m) (up_T m) (up_Y m) (up_Z m) (up_S m) (up_version m).
Definition Update_empty : UpdateExitMessage := MkUpdate (zeros 16) 0 (zeros 16) (zeros 64) 0 proto_version.
Definition Update_Clear (m : UpdateExitMessage) : UpdateExitMessage := MkUpdate (zeros 16) 0 (zeros 16) (zeros 64) (up_S m) (up_version m).
(** Written with the letter V; the nonce is not written. *)
Definition Update_BEncode (m : UpdateExitMessage) : writer :=
  bencode_start_dict
  ⩓ BEncodeWriteDictMsgType [c_A] [c_V]
  ⩓ BEncodeWriteDictEntry (EA := key16) [c_P] (up_P m)
  ⩓ BEncodeWriteDictInt [c_S] (up_S m)
  ⩓ BEncodeWriteDictInt [c_T] (up_T m)
  ⩓ BEncodeWriteDictInt [c_V] (up_version m)
  ⩓ BEncodeWriteDictEntry (EA := sig64) [c_Z] (up_Z m)
  ⩓ bencode_end.
Definition Update_DecodeKey (fuel : nat) : decode_key UpdateExitMessage := return_read
  (maybe_int 64 [c_S] up_S (fun x m => m <| up_S := x |>)
   ⨾ maybe_int 64 [c_T] up_T (fun x m => m <| up_T := x |>)
   ⨾ maybe_int 64 [c_V] up_version (fun x m => m <| up_version := x |>)
   ⨾ maybe_entry (EA := key16) fuel [c_P] up_P (fun x m => m <| up_P := x |>)
   ⨾ maybe_entry (EA := sig64) fuel [c_Z] up_Z (fun x m => m <| up_Z := x |>)).
(** The signature that is there is signed as well. *)
Definition Update_Sign (y sk : list Z) (m : UpdateExitMessage) : res (bool * UpdateExitMessage) :=
  let m := m <| up_Y := y |> in
  let* z := sign_text 512 (Update_BEncode m) sk in
  Ok (match z with Some z => (true, m <| up_Z := z |>) | None => (false, m) end).
Definition Update_Verify (pk : list Z) (m : UpdateExitMessage) : res bool := verify_text 512 (Update_BEncode (m <| up_Z := zeros 64 |>)) pk (up_Z m).

Record CloseExitMessage := MkClose { cl_Y : list Z; cl_Z : list Z; cl_S : Z; cl_version : Z }.
#[export] Instance eta_Close : Eta CloseExitMessage := fun m => MkClose (cl_Y m) (cl_Z m) (cl_S m) (cl_version m).
Definition Close_empty : CloseExitMessage := MkClose (zeros 16) (zeros 64) 0 proto_version.
Definition Close_Clear (m : CloseExitMessage) : CloseExitMessage := MkClose (zeros 16) (zeros 64) (cl_S m) (cl_version m).
Definition Close_BEncode (m : CloseExitMessage) : writer :=
  bencode_start_dict
  ⩓ BEncodeWriteDictMsgType [c_A] [c_C]
  ⩓ BEncodeWriteDictInt [c_S] (cl_S m)
  ⩓ BEncodeWriteDictInt [c_V] (cl_version m)
  ⩓ BEncodeWriteDictEntry (EA := key16) [c_Y] (cl_Y m)
  ⩓ BEncodeWriteDictEntry (EA := sig64) [c_Z] (cl_Z m)
  ⩓ bencode_end.
Definition Close_DecodeKey (fuel : nat) : decode_key CloseExitMessage := return_read
  (maybe_int 64 [c_S] cl_S (fun x m => m <| cl_S := x |>)
   ⨾ maybe_int 64 [c_V] cl_version (fun x m => m <| cl_version := x |>)
   ⨾ maybe_entry (EA := key16) fuel [c_Y] cl_Y (fun x m => m <| cl_Y := x |>)
   ⨾ maybe_entry (EA := sig64) fuel [c_Z] cl_Z (fun x m => m <| cl_Z := x |>)).
Definition Close_Sign (y sk : list Z) (m : CloseExitMessage) : res (bool * CloseExitMessage) :=
  let m := m <| cl_Z := zeros 64 |> <| cl_Y := y |> in
  let* z := sign_text 512 (Close_BEncode m) sk in
  Ok (match z with Some z => (true, m <| cl_Z := z |>) | None => (false, m) end).
Definition Close_Verify (pk : list Z) (m : CloseExitMessage) : res bool := verify_text 512 (Close_BEncode (m <| cl_Z := zeros 64 |>)) pk (cl_Z m).
End exit_messages.

#[export] Existing Instances DataDiscardMessage.eta_t PathLatencyMessage.eta_t PathConfirmMessage.eta_t PathTransferMessage.eta_t TransferTrafficMessage.eta_t ProtocolFrame.eta_t.
Section contacts.
Context {IP : InetPton} {IN : InetNtop} {BT : OxencBt} {BD : OxencDict}.
Context (ours : list Z) (rank0 port0 : Z).

(** ** DHT messages of a path *)
Record DHTMessage := MkDHT { dm_M : list IMessage; dm_V : Z; dm_S : Z; dm_version : Z }.
#[local] Instance eta_DHT : Eta DHTMessage := fun m => MkDHT (dm_M m) (dm_V m) (dm_S m) (dm_version m).
Definition DHT_empty : DHTMessage := MkDHT [] 0 0 proto_version.
Definition DHT_Clear (m : DHTMessage) : DHTMessage := MkDHT [] 0 (dm_S m) (dm_version m).
Fixpoint write_messages (l : list IMessage) : writer :=
  match l with [] => fun b => Ok (true, b) | m :: l => BEncode_body ours rank0 port0 (msg m) ⩓ write_messages l end.
Definition DHT_BEncode (m : DHTMessage) : writer :=
  bencode_start_dict
  ⩓ BEncodeWriteDictMsgType [c_A] [c_M]
  ⩓ (bencode_write_bytestring [c_M] ⩓ bencode_start_list ⩓ write_messages (dm_M m) ⩓ bencode_end)
  ⩓ BEncodeWriteDictInt [c_S] (dm_S m)
  ⩓ BEncodeWriteDictInt [c_V] proto_version
  ⩓ bencode_end.
Definition DHT_DecodeKey (fuel : nat) : decode_key DHTMessage :=
  on_key [c_M] (fun m _ b => let* (ok, l, b) := DecodeMesssageList ours rank0 port0 fuel (zeros 32) true (dm_M m) b in Ok (ok, m <| dm_M := l |>, b))
  (on_key [c_S] (read_integer_into (fun x m => m <| dm_S := x |>))
  (on_key [c_V] (read_integer_into (fun x m => m <| dm_V := x |>)) return_false)).
(** Each message comes from us, and from the path; the first that is not handled ends it. *)
Fixpoint DHT_HandleMessage {W} (HandleDHTMessage : IMessage -> W -> res (bool * W)) (us from : list Z) (l : list IMessage) (w : W) : res (bool * W) :=
  match l with
  | [] => Ok (true, w)
  | m :: l =>
      let* (ok, w) := HandleDHTMessage (IMsg us from (msg m)) w in
      if ok : bool then DHT_HandleMessage HandleDHTMessage us from l w else Ok (false, w)
  end.

(** ** The parser (message_parser.cpp) *)
Inductive routing_message :=
  | RDiscard (m : DataDiscardMessage.t) | RLatency (m : PathLatencyMessage.t) | RDHT (m : DHTMessage) | RConfirm (m : PathConfirmMessage.t)
  | RTransfer (m : PathTransferMessage.t) | RFrame (m : ProtocolFrame.t) | RTraffic (m : TransferTrafficMessage.t) | RGrant (m : GrantExitMessage)
  | RReject (m : RejectExitMessage) | RObtain (m : ObtainExitMessage) | RUpdate (m : UpdateExitMessage) | RClose (m : CloseExitMessage).
Inductive routing_kind := KD | KL | KM | KP | KT | KH | KI | KG | KJ | KO | KU | KC.
Record MessageHolder := Holder { hd : DataDiscardMessage.t; hl : PathLatencyMessage.t; hm : DHTMessage; hp : PathConfirmMessage.t; ht : PathTransferMessage.t;
  hh : ProtocolFrame.t; hi : TransferTrafficMessage.t; hg : GrantExitMessage; hj : RejectExitMessage; ho : ObtainExitMessage; hu : UpdateExitMessage; hc : CloseExitMessage }.
#[local] Instance eta_holder : Eta MessageHolder := fun h => Holder (hd h) (hl h) (hm h) (hp h) (ht h) (hh h) (hi h) (hg h) (hj h) (ho h) (hu h) (hc h).
(** [make_unique] sets what has no initialiser to zero. *)
Definition holder_init : MessageHolder := Holder DataDiscardMessage.empty PathLatencyMessage.empty DHT_empty PathConfirmMessage.empty PathTransferMessage.empty
  ProtocolFrame.empty (TransferTrafficMessage.empty 0) Grant_empty Reject_empty Obtain_empty Update_empty Close_empty.
Record InboundMessageParser := Parser { version : Z; firstKey : bool; parsing : option routing_kind; m_Holder : MessageHolder }.
#[local] Instance eta_parser : Eta InboundMessageParser := fun p => Parser (version p) (firstKey p) (parsing p) (m_Holder p).
Definition parser_init : InboundMessageParser := Parser 0 false None holder_init.

Definition held_message (k : routing_kind) (h : MessageHolder) : routing_message :=
  match k with
  | KD => RDiscard (hd h) | KL => RLatency (hl h) | KM => RDHT (hm h) | KP => RConfirm (hp h) | KT => RTransfer (ht h) | KH => RFrame (hh h)
  | KI => RTraffic (hi h) | KG => RGrant (hg h) | KJ => RReject (hj h) | KO => RObtain (ho h) | KU => RUpdate (hu h) | KC => RClose (hc h)
  end.
Definition routing_BEncode (m : routing_message) : writer :=
  match m with
  | RDiscard m => DataDiscardMessage.BEncode m | RLatency m => PathLatencyMessage.BEncode m | RDHT m => DHT_BEncode m | RConfirm m => PathConfirmMessage.BEncode m
  | RTransfer m => PathTransferMessage.BEncode m | RFrame m => ProtocolFrame.BEncode m | RTraffic m => TransferTrafficMessage.BEncode m | RGrant m => Grant_BEncode m
  | RReject m => Reject_BEncode m | RObtain m => Obtain_BEncode m | RUpdate m => Update_BEncode m | RClose m => Close_BEncode m
  end.
(** [msg->version = version] and the virtual [Clear] and [DecodeKey]. *)
Definition set_version (k : routing_kind) (v : Z) (h : MessageHolder) : MessageHolder :=
  match k with
  | KD => h <| hd ::= fun m => m <| DataDiscardMessage.version := v |> |> | KL => h <| hl ::= fun m => m <| PathLatencyMessage.version := v |> |>
  | KM => h <| hm ::= fun m => m <| dm_version := v |> |> | KP => h <| hp ::= fun m => m <| PathConfirmMessage.version := v |> |>
  | KT => h <| ht ::= fun m => m <| PathTransferMessage.version := v |> |> | KH => h <| hh ::= fun m => m <| ProtocolFrame.version := v |> |>
  | KI => h <| hi ::= fun m => m <| TransferTrafficMessage.version := v |> |> | KG => h <| hg ::= fun m => m <| gr_version := v |> |>
  | KJ => h <| hj ::= fun m => m <| re_version := v |> |> | KO => h <| ho ::= fun m => m <| ob_version := v |> |>
  | KU => h <| hu ::= fun m => m <| up_version := v |> |> | KC => h <| hc ::= fun m => m <| cl_version := v |> |>
  end.
Definition clear_held (k : routing_kind) (h : MessageHolder) : MessageHolder :=
  match k with
  | KD => h <| hd ::= DataDiscardMessage.Clear |> | KL => h <| hl ::= PathLatencyMessage.Clear |> | KM => h <| hm ::= DHT_Clear |>
  | KP => h <| hp ::= PathConfirmMessage.Clear |> | KT => h <| ht ::= PathTransferMessage.Clear |> | KH => h <| hh ::= ProtocolFrame.Clear |>
  | KI => h <| hi ::= TransferTrafficMessage.Clear |> | KG => h <| hg ::= Grant_Clear |> | KJ => h <| hj ::= Reject_Clear |>
  | KO => h <| ho ::= Obtain_Clear |> | KU => h <| hu ::= Update_Clear |> | KC => h <| hc ::= Close_Clear |>
  end.
Definition into {M} (dk : decode_key M) (get : MessageHolder -> M) (set : M -> MessageHolder -> MessageHolder) : decode_key MessageHolder := fun h key b =>
  let* (ok, m, b) := dk (get h) key b in Ok (ok, set m h, b).
Definition decode_held (fuel : nat) (k : routing_kind) : decode_key MessageHolder :=
  match k with
  | KD => into (DataDiscardMessage.DecodeKey fuel) hd (fun m h => h <| hd := m |>)
  | KL => into (PathLatencyMessage.DecodeKey fuel) hl (fun m h => h <| hl := m |>)
  | KM => into (DHT_DecodeKey fuel) hm (fun m h => h <| hm := m |>)
  | KP => into (PathConfirmMessage.DecodeKey fuel) hp (fun m h => h <| hp := m |>)
  | KT => into (PathTransferMessage.DecodeKey fuel) ht (fun m h => h <| ht := m |>)
  | KH => into (ProtocolFrame.DecodeKey fuel) hh (fun m h => h <| hh := m |>)
  | KI => into (TransferTrafficMessage.DecodeKey fuel) hi (fun m h => h <| hi := m |>)
  | KG => into (Grant_DecodeKey fuel) hg (fun m h => h <| hg := m |>)
  | KJ => into (Reject_DecodeKey fuel) hj (fun m h => h <| hj := m |>)
  | KO => into (Obtain_DecodeKey fuel) ho (fun m h => h <| ho := m |>)
  | KU => into (Update_DecodeKey fuel) hu (fun m h => h <| hu := m |>)
  | KC => into (Close_DecodeKey fuel) hc (fun m h => h <| hc := m |>)
  end.
Definition kind_of_letter (c : Z) : option routing_kind :=
  if c =? c_D then Some KD else if c =? c_L then Some KL else if c =? c_M then Some KM else if c =? c_P then Some KP else if c =? c_T then Some KT
  else if c =? c_H then Some KH else if c =? c_I then Some KI else if c =? c_G then Some KG else if c =? c_J then Some KJ else if c =? c_O then Some KO
  else if c =? c_U then Some KU else if c =? c_C then Some KC else None.

(** [operator()] *)
Definition parser_sink (fuel : nat) (p : InboundMessageParser) (key : option llarp_buffer_t) (b : llarp_buffer_t) : res (bool * InboundMessageParser * llarp_buffer_t) :=
  match key with
  | None => Ok (negb (firstKey p), p, b)
  | Some key =>
      if firstKey p then
        if negb (startswith [c_A] key) then Ok (false, p, b)
        else
          let* (strbuf, b) := bencode_read_string b in
          match strbuf with
          | None => Ok (false, p, b)
          | Some str =>
              if negb (sz str =? 1)%nat then Ok (false, p, b)
              else
                let* c := byte_at 0 (mem str) in
                match kind_of_letter c with
                | None => Ok (false, p <| firstKey := false |>, b)
                | Some k => Ok (true, p <| parsing := Some k |> <| m_Holder ::= set_version k (version p) |> <| firstKey := false |>, b)
                end
          end
      else
        match parsing p with
        | None => Oob
        | Some k => let* (ok, h, b) := decode_held fuel k (m_Holder p) key b in Ok (ok, p <| m_Holder := h |>, b)
        end
  end.

Section parser.
(** The end of the path that has the handlers, and [HandleMessage] of a message that came on a path. *)
Context {W : Type} (handle : list Z -> routing_message -> W -> res (bool * W)).
Definition ParseMessageBuffer (fuel : nat) (buf from : list Z) (p : InboundMessageParser) (w : W) : res (bool * InboundMessageParser * W) :=
  let p := p <| parsing := None |> <| firstKey := true |> in
  let* (ok, v, b) := BEncodeSeekDictVersion fuel 0 c_V (Buffer buf 0) in
  let p := if ok : bool then p <| version := v |> else p in
  let* (ok, p, _) := bencode_read_dict fuel (parser_sink fuel) p b in
  let* (result, w) :=
    (if ok : bool then match parsing p with Some k => handle from (held_message k (m_Holder p)) w | None => Oob end else Ok (false, w)) in
  let p := match parsing p with Some k => p <| m_Holder ::= clear_held k |> | None => p end in
  Ok (result, p <| parsing := None |> <| version := 0 |>, w).
End parser.
End contacts.

(** * What the parser delivers *)
Module RoutingSpec.
Import DhtMessageSpec.
Section spec.
Context {IP : InetPton} {IN : InetNtop} {INS : InetNtopSpec IP IN} {BT : OxencBt} {BD : OxencDict} {BDS : OxencDictSpec BD}.
Context (ours : list Z) (rank0 port0 : Z).
#[local] Existing Instances eta_DHT eta_holder eta_parser.
Abbreviation entry := (list Z * list Z)%type.

Definition policy_entries (m : Policy.t) : list entry :=
  [([c_a], enc_int (Policy.proto m)); ([98], enc_int (Policy.port m)); ([c_d], enc_int (Policy.drop m)); ([c_v], enc_int (Policy.version m))].
Abbreviation policy_dict := (fun m => dict (policy_entries m)).
Definition policy_fits (m : Policy.t) : Prop := in_width 64 (Policy.proto m) /\ in_width 64 (Policy.port m) /\ in_width 64 (Policy.drop m) /\ in_width 64 (Policy.version m).
#[local] Instance exit_policy_spec : @BEncodableSpec Policy.t Policy.bencodable policy_dict policy_fits.
Proof.
  apply dict_bencodable_spec; [intros m Hm; unfold Policy.BEncode, policy_entries; writes_entries|].
  intros fuel m (H1 & H2 & H3 & H4) Hf. unfold policy_entries in *. destruct m. cbn in H1, H2, H3, H4. do 4 (eexists; split; [solve_decodes; done|]). done.
Qed.

(** ** Texts *)
Definition letter (m : routing_message) : Z :=
  match m with
  | RDiscard _ => c_D | RLatency _ => c_L | RDHT _ => c_M | RConfirm _ => c_P | RTransfer _ => c_T | RFrame _ => c_H
  | RTraffic _ => c_I | RGrant _ => c_G | RReject _ => c_J | RObtain _ => c_O | RUpdate _ => c_V | RClose _ => c_C
  end.
Definition fields (m : routing_message) : list entry :=
  match m with
  | RDiscard m => [([c_P], enc_str (DataDiscardMessage.P m)); ([c_S], enc_int (DataDiscardMessage.S_ m)); ([c_V], enc_int (DataDiscardMessage.version m))]
  | RLatency m => (if negb (PathLatencyMessage.L m =? 0) then [([c_L], enc_int (PathLatencyMessage.L m))] else [])
      ++ (if negb (PathLatencyMessage.T m =? 0) then [([c_T], enc_int (PathLatencyMessage.T m))] else []) ++ [([c_S], enc_int (PathLatencyMessage.S_ m))]
  | RDHT m => [([c_M], enc_list ((fun m => dict (body_text (msg m))) <$> dm_M m)); ([c_S], enc_int (dm_S m)); ([c_V], enc_int proto_version)]
  | RConfirm m => [([c_L], enc_int (PathConfirmMessage.pathLifetime m)); ([c_S], enc_int (PathConfirmMessage.S_ m));
      ([c_T], enc_int (PathConfirmMessage.pathCreated m)); ([c_V], enc_int (PathConfirmMessage.version m))]
  | RTransfer m => [([c_P], enc_str (PathTransferMessage.P m)); ([c_S], enc_int (PathTransferMessage.S_ m));
      ([c_T], dict (ProtocolFrameSpec.text (PathTransferMessage.T m))); ([c_V], enc_int proto_version); ([c_Y], enc_str (PathTransferMessage.Y m))]
  | RFrame m => tail (ProtocolFrameSpec.text m)
  | RTraffic m => [([c_P], enc_int (TransferTrafficMessage.protocol m)); ([c_S], enc_int (TransferTrafficMessage.S_ m));
      ([c_V], enc_int (TransferTrafficMessage.version m)); ([c_X], enc_list (enc_str <$> TransferTrafficMessage.X m))]
  | RGrant m => [([c_S], enc_int (gr_S m)); ([c_T], enc_int (gr_T m)); ([c_V], enc_int (gr_version m)); ([c_Y], enc_str (gr_Y m)); ([c_Z], enc_str (gr_Z m))]
  | RReject m => [([c_B], enc_int (re_B m)); ([c_R], enc_list (policy_dict <$> re_R m)); ([c_S], enc_int (re_S m)); ([c_T], enc_int (re_T m));
      ([c_V], enc_int (re_version m)); ([c_Y], enc_str (re_Y m)); ([c_Z], enc_str (re_Z m))]
  | RObtain m => [([c_B], enc_list (policy_dict <$> ob_B m)); ([c_E], enc_int (ob_E m)); ([c_I], enc_str (ob_I m)); ([c_S], enc_int (ob_S m)); ([c_T], enc_int (ob_T m));
      ([c_V], enc_int (ob_version m)); ([c_W], enc_list (policy_dict <$> ob_W m)); ([c_X], enc_int (ob_X m)); ([c_Z], enc_str (ob_Z m))]
  | RUpdate m => [([c_P], enc_str (up_P m)); ([c_S], enc_int (up_S m)); ([c_T], enc_int (up_T m)); ([c_V], enc_int (up_version m)); ([c_Z], enc_str (up_Z m))]
  | RClose m => [([c_S], enc_int (cl_S m)); ([c_V], enc_int (cl_version m)); ([c_Y], enc_str (cl_Y m)); ([c_Z], enc_str (cl_Z m))]
  end.
Definition routing_text (m : routing_message) : list entry := ([c_A], enc_str [letter m]) :: fields m.

(** ** Messages that are sent *)
Definition routing_ok (m : routing_message) : Prop :=
  match m with
  | RDiscard m => length (DataDiscardMessage.P m) = 16%nat /\ in_width 64 (DataDiscardMessage.S_ m) /\ DataDiscardMessage.version m = proto_version
  | RLatency m => in_width 64 (PathLatencyMessage.L m) /\ in_width 64 (PathLatencyMessage.T m) /\ in_width 64 (PathLatencyMessage.S_ m) /\ PathLatencyMessage.version m = proto_version
  | RDHT m => Forall (message_ok (zeros 32) true) (dm_M m) /\ Forall (fun m => bencoded (dict (body_text (msg m)))) (dm_M m) /\ in_width 64 (dm_S m)
      /\ dm_V m = proto_version /\ dm_version m = proto_version
  | RConfirm m => time_ok (PathConfirmMessage.pathLifetime m) /\ time_ok (PathConfirmMessage.pathCreated m) /\ in_width 64 (PathConfirmMessage.S_ m) /\ PathConfirmMessage.version m = proto_version
  | RTransfer m => length (PathTransferMessage.P m) = 16%nat /\ length (PathTransferMessage.Y m) = 32%nat /\ in_width 64 (PathTransferMessage.S_ m)
      /\ PathTransferMessage.version m = proto_version /\ ProtocolFrameSpec.ok (PathTransferMessage.T m)
  | RFrame m => ProtocolFrameSpec.ok m
  | RTraffic m => in_width 64 (TransferTrafficMessage.protocol m) /\ in_width 64 (TransferTrafficMessage.S_ m) /\ TransferTrafficMessage.version m = proto_version
      /\ Forall (fun x => (length x <= TransferTrafficMessage.MaxExitMTU + TransferTrafficMessage.ExitOverhead)%nat) (TransferTrafficMessage.X m)
  | RGrant m => in_width 64 (gr_S m) /\ in_width 64 (gr_T m) /\ gr_version m = proto_version /\ length (gr_Y m) = 16%nat /\ length (gr_Z m) = 64%nat
  | RReject m => in_width 64 (re_B m) /\ Forall policy_fits (re_R m) /\ in_width 64 (re_S m) /\ in_width 64 (re_T m) /\ re_version m = proto_version
      /\ length (re_Y m) = 16%nat /\ length (re_Z m) = 64%nat
  | RObtain m => Forall policy_fits (ob_B m) /\ in_width 64 (ob_E m) /\ length (ob_I m) = 32%nat /\ in_width 64 (ob_S m) /\ in_width 64 (ob_T m) /\ ob_version m = proto_version
      /\ Forall policy_fits (ob_W m) /\ in_width 64 (ob_X m) /\ length (ob_Z m) = 64%nat
  | RUpdate m => length (up_P m) = 16%nat /\ in_width 64 (up_S m) /\ in_width 64 (up_T m) /\ up_version m = proto_version /\ length (up_Z m) = 64%nat
  | RClose m => in_width 64 (cl_S m) /\ cl_version m = proto_version /\ length (cl_Y m) = 16%nat /\ length (cl_Z m) = 64%nat
  end.
(** The sequence number of a frame and the size of the packets are not written. *)
Definition received (m : routing_message) : routing_message :=
  match m with
  | RTransfer m => RTransfer (m <| PathTransferMessage.T ::= fun f => f <| ProtocolFrame.S_ := 0 |> |>)
  | RFrame f => RFrame (f <| ProtocolFrame.S_ := 0 |>)
  | RTraffic m => RTraffic (m <| TransferTrafficMessage._size := 0 |>)
  | m => m
  end.
Lemma packets_ok l : Forall (fun x => (length x <= TransferTrafficMessage.MaxExitMTU + TransferTrafficMessage.ExitOverhead)%nat) l ->
  Forall (Encrypted.ok (TransferTrafficMessage.MaxExitMTU + TransferTrafficMessage.ExitOverhead)) l.
Proof.
  intros Hl. eapply Forall_impl; [exact Hl|]. intros x Hx. split; [done|]. unfold str_ok. unfold TransferTrafficMessage.MaxExitMTU, TransferTrafficMessage.ExitOverhead in Hx. lia.
Qed.
Lemma write_messages_items l : write_messages ours rank0 port0 l = write_items (EA := message_bencodable ours rank0 port0 (zeros 32) true) l.
Proof. induction l as [|m l IH]; cbn; [done|]. by rewrite IH. Qed.
Ltac side := first [done | apply key_ok_intro; [lia|done] | by apply packets_ok | lia].
Lemma writes_routing m : routing_ok m -> writes (routing_BEncode ours rank0 port0 m) (dict (routing_text m)).
Proof using INS BDS.
  destruct m as [m|m|m|m|m|m|m|m|m|m|m|m]; cbn [routing_ok routing_BEncode]; intros Hok; unfold routing_text; cbn [letter fields].
  - destruct Hok as (H1 & H2 & H3). unfold DataDiscardMessage.BEncode. writes_entries; side.
  - unfold PathLatencyMessage.BEncode. writes_entries.
  - destruct Hok as (H1 & _ & H2 & H3). unfold DHT_BEncode. apply writes_dict. writes_step.
    apply writes_dict_cons; [|repeat writes_step]. apply writes_andthen; [apply writes_bytestring|].
    rewrite write_messages_items. by apply (writes_list (EA := message_bencodable ours rank0 port0 (zeros 32) true)).
  - destruct Hok as (H1 & H2 & H3 & H4). unfold PathConfirmMessage.BEncode. by writes_entries.
  - destruct Hok as (H1 & H2 & H3 & H4 & H5). unfold PathTransferMessage.BEncode. apply writes_dict. repeat writes_step; [side|].
    apply writes_dict_cons; [apply writes_andthen; [apply writes_bytestring|by apply ProtocolFrameSpec.writes_frame]|]. repeat writes_step. side.
  - by apply ProtocolFrameSpec.writes_frame.
  - destruct Hok as (H1 & H2 & H3 & H4). unfold TransferTrafficMessage.BEncode. writes_entries. side.
  - destruct Hok as (H1 & H2 & H3 & H4 & H5). unfold Grant_BEncode. writes_entries; side.
  - destruct Hok as (H1 & H2 & H3 & H4 & H5 & H6 & H7). unfold Reject_BEncode. apply writes_dict. do 2 writes_step.
    apply writes_dict_cons; [by apply (writes_entry_list (benc := policy_dict))|]. repeat writes_step; side.
  - destruct Hok as (H1 & H2 & H3 & H4 & H5 & H6 & H7 & H8 & H9). unfold Obtain_BEncode. apply writes_dict. writes_step.
    apply writes_dict_cons; [by apply (writes_entry_array (benc := policy_dict))|].
    writes_step. apply writes_dict_cons; [apply writes_entry; side|]. do 3 writes_step.
    apply writes_dict_cons; [by apply (writes_entry_array (benc := policy_dict))|]. repeat writes_step; side.
  - destruct Hok as (H1 & H2 & H3 & H4 & H5). unfold Update_BEncode. writes_entries; side.
  - destruct Hok as (H1 & H2 & H3 & H4). unfold Close_BEncode. writes_entries; side.
Qed.

(** ** Reading *)
(** The objects between two messages. *)
Definition clean (h : MessageHolder) : Prop :=
  PathLatencyMessage.L (hl h) = 0 /\ PathLatencyMessage.T (hl h) = 0 /\ dm_M (hm h) = [] /\ PathTransferMessage.T (ht h) = ProtocolFrame.empty
  /\ hh h = ProtocolFrame.empty /\ TransferTrafficMessage.X (hi h) = [] /\ TransferTrafficMessage._size (hi h) = 0 /\ re_R (hj h) = [] /\ ob_B (ho h) = [] /\ ob_W (ho h) = [].
Definition kind_of (m : routing_message) : routing_kind :=
  match m with
  | RDiscard _ => KD | RLatency _ => KL | RDHT _ => KM | RConfirm _ => KP | RTransfer _ => KT | RFrame _ => KH
  | RTraffic _ => KI | RGrant _ => KG | RReject _ => KJ | RObtain _ => KO | RUpdate _ => KU | RClose _ => KC
  end.
Abbreviation sink fuel := (fun p key b => parser_sink ours rank0 port0 fuel p (Some key) b).
Lemma into_routing {M} (dk : decode_key M) get set fuel k l m m' h v :
  decode_held ours rank0 port0 fuel k = into dk get set -> (forall m h, get (set m h) = m) -> (forall m m' h, set m (set m' h) = set m h) ->
  decodes_all dk l m m' -> decodes_all (sink fuel) l (Parser v false (Some k) (set m h)) (Parser v false (Some k) (set m' h)).
Proof.
  intros Ek Hg Hs. revert m. induction l as [|[key x] l IH]; intros m; cbn [decodes_all]; [by intros ->|].
  intros (m1 & [Hk Hd] & Hl). exists (Parser v false (Some k) (set m1 h)). split; [|by apply IH]. split; [done|]. intros pre rest.
  unfold parser_sink. cbn [firstKey parsing m_Holder]. rewrite Ek. unfold into. rewrite Hg, Hd. cbn [rbind]. by rewrite Hs.
Qed.
Lemma decodes_dht_message fuel m0 m : dm_M m0 = [] -> dm_version m0 = proto_version -> routing_ok (RDHT m) -> (length (dict (fields (RDHT m))) <= fuel)%nat ->
  decodes_all (DHT_DecodeKey ours rank0 port0 fuel) (fields (RDHT m)) m0 m.
Proof using INS BDS.
  intros H0 H0' (H1 & _ & H2 & H3 & H4) Hf. pose proof (fun k v => entry_length k v _ fuel Hf) as Hlen. clear Hf. cbn [fields] in *. destruct m as [l v s w]. cbn [dm_M dm_S dm_V dm_version] in *. subst.
  eexists. split.
  { apply on_key_decodes_l; [done|]. split; [done|]. intros pre rest. rewrite list_reads; [reflexivity|done|eapply Hlen; in_entries]. }
  decode_entry Hlen. eexists. split; [do 2 (apply on_key_decodes_r; [done|]); apply on_key_decodes_l; [done|]; by apply read_integer_into_decodes|].
  rewrite H0. destruct m0. cbn in *. by subst.
Qed.

Ltac take_fields Hf := let H := fresh "Hlen" in pose proof (fun k v => entry_length k v _ _ Hf) as H; clear Hf; unfold routing_text in *; cbn [fields letter] in *.
Ltac held dk get set k m0 m' := apply (into_routing dk get set _ k _ m0 m'); [done..|].
Ltac policy_takes :=
  first [ apply both_takes_l; [policy_takes|solve_skips] | apply both_takes_r; [solve_skips|policy_takes] | apply (maybe_list_takes (benc := policy_dict)) ].
Lemma decodes_routing fuel m h : clean h -> routing_ok m -> letter m <> c_V -> (length (dict (routing_text m)) <= fuel)%nat ->
  exists h', decodes_all (sink fuel) (fields m) (Parser 0 false (Some (kind_of m)) (set_version (kind_of m) 0 h)) (Parser 0 false (Some (kind_of m)) h')
    /\ held_message (kind_of m) h' = received m /\ clean (clear_held (kind_of m) h').
Proof using INS BDS.
  intros (C1 & C2 & C3 & C4 & C5 & C6 & C7 & C8 & C9 & C10) Hok Hu Hf.
  destruct m as [m|m|m|m|m|m|m|m|m|m|m|m]; cbn [kind_of routing_ok set_version letter received] in *.
  - exists (h <| hd := m |>). split; [|done]. take_fields Hf. destruct Hok as (H1 & H2 & H3). destruct m. cbn in H1, H2, H3. subst.
    held (DataDiscardMessage.DecodeKey fuel) hd (fun m h => h <| hd := m |>) KD ((hd h) <| DataDiscardMessage.version := 0 |>) (DataDiscardMessage.Mk P S_ proto_version).
    do 3 decode_entry Hlen. done.
  - exists (h <| hl := m |>). split; [|done]. take_fields Hf. destruct Hok as (H1 & H2 & H3 & H4). destruct m. cbn in H1, H2, H3, H4. subst.
    held (PathLatencyMessage.DecodeKey fuel) hl (fun m h => h <| hl := m |>) KL ((hl h) <| PathLatencyMessage.version := 0 |>) (PathLatencyMessage.Mk T L S_ proto_version).
    cbn [PathLatencyMessage.L PathLatencyMessage.T PathLatencyMessage.S_]. set (m0 := (hl h) <| PathLatencyMessage.version := 0 |>).
    apply (decodes_all_if _ _ _ _ _ _ (m0 <| PathLatencyMessage.L := L |>)).
    { intros _. apply return_read_decodes. apply both_takes_l; [refine (maybe_int_takes_id _ _ _ _ _ _ _ _); done|solve_skips]. }
    { destruct (Z.eqb_spec L 0) as [->|]; [|done]. intros _. unfold m0. destruct (hl h). cbn in *. by subst. }
    apply (decodes_all_if _ _ _ _ _ _ (m0 <| PathLatencyMessage.L := L |> <| PathLatencyMessage.T := T |>)).
    { intros _. apply return_read_decodes. do 2 (apply both_takes_r; [solve_skips|]). refine (maybe_int_takes_id _ _ _ _ _ _ _ _); done. }
    { destruct (Z.eqb_spec T 0) as [->|]; [|done]. intros _. unfold m0. destruct (hl h). cbn in *. by subst. }
    decode_entry Hlen. done.
  - exists (h <| hm := m |>). split; [|done]. 
    held (DHT_DecodeKey ours rank0 port0 fuel) hm (fun m h => h <| hm := m |>) KM ((hm h) <| dm_version := 0 |>) m. apply decodes_dht_message; [done..|]. revert Hf. unfold routing_text. rewrite !length_dict. unfold entries. cbn [fmap list_fmap concat]. rewrite length_app. lia.
  - exists (h <| hp := m |>). split; [|done]. take_fields Hf. destruct Hok as (H1 & H2 & H3 & H4). destruct m. cbn in H1, H2, H3, H4. subst.
    held (PathConfirmMessage.DecodeKey fuel) hp (fun m h => h <| hp := m |>) KP ((hp h) <| PathConfirmMessage.version := 0 |>) (PathConfirmMessage.Mk pathLifetime pathCreated S_ proto_version).
    do 4 decode_entry Hlen. done.
  - set (m' := m <| PathTransferMessage.T ::= fun f => f <| ProtocolFrame.S_ := 0 |> |>).
    exists (h <| ht := m' |>). split; [|done]. take_fields Hf. destruct Hok as (H1 & H2 & H3 & H4 & H5).
    held (PathTransferMessage.DecodeKey fuel) ht (fun m h => h <| ht := m |>) KT ((ht h) <| PathTransferMessage.version := 0 |>) m'.
    do 2 decode_entry Hlen. eexists. split; [apply return_read_decodes; solve_takes; [|eapply Hlen; in_entries]|].
    { match goal with |- decodes_all _ _ ?x _ => change x with (PathTransferMessage.T (ht h)) end. rewrite C4. apply (ProtocolFrameSpec.decodes_frame fuel _ 0); [done|eapply Hlen; in_entries]. }
    do 2 decode_entry Hlen. unfold m'. destruct m. cbn in *. by subst.
  - exists (h <| hh := m <| ProtocolFrame.S_ := 0 |> |>). split; [|done].
    held (ProtocolFrame.DecodeKey fuel) hh (fun m h => h <| hh := m |>) KH ((hh h) <| ProtocolFrame.version := 0 |>) (m <| ProtocolFrame.S_ := 0 |>).
    rewrite C5. by apply (ProtocolFrameSpec.decodes_frame_tail fuel m 0).
  - set (m' := m <| TransferTrafficMessage._size := 0 |>).
    exists (h <| hi := m' |>). split; [|done]. take_fields Hf. destruct Hok as (H1 & H2 & H3 & H4).
    held (TransferTrafficMessage.DecodeKey fuel) hi (fun m h => h <| hi := m |>) KI ((hi h) <| TransferTrafficMessage.version := 0 |>) m'.
    rewrite H3 in *. do 3 decode_entry Hlen. apply packets_ok in H4. eexists. split; [apply read_or_discard_decodes; solve_takes; [done|eapply Hlen; in_entries]|].
    unfold m'. destruct m, (hi h). cbn in *. by subst.
  - exists (h <| hg := m |>). split; [|done]. take_fields Hf. destruct Hok as (H1 & H2 & H3 & H4 & H5).
    held (Grant_DecodeKey fuel) hg (fun m h => h <| hg := m |>) KG ((hg h) <| gr_version := 0 |>) m.
    rewrite H3 in *. do 5 decode_entry Hlen. destruct m. cbn in *. by subst.
  - exists (h <| hj := m |>). split; [|done]. take_fields Hf. destruct Hok as (H1 & H2 & H3 & H4 & H5 & H6 & H7).
    held (Reject_DecodeKey fuel) hj (fun m h => h <| hj := m |>) KJ ((hj h) <| re_version := 0 |>) m.
    rewrite H5 in *. decode_entry Hlen. eexists. split; [apply return_read_decodes; policy_takes; [done|eapply Hlen; in_entries]|].
    do 5 decode_entry Hlen. destruct m, (hj h). cbn in *. by subst.
  - exists (h <| ho := m |>). split; [|done]. take_fields Hf. destruct Hok as (H1 & H2 & H3 & H4 & H5 & H6 & H7 & H8 & H9).
    held (Obtain_DecodeKey fuel) ho (fun m h => h <| ho := m |>) KO ((ho h) <| ob_version := 0 |>) m.
    rewrite H6 in *. eexists. split; [apply return_read_decodes; policy_takes; [done|eapply Hlen; in_entries]|].
    do 5 decode_entry Hlen. eexists. split; [apply return_read_decodes; policy_takes; [done|eapply Hlen; in_entries]|].
    do 2 decode_entry Hlen. destruct m, (ho h). cbn in *. by subst.
  - done.
  - exists (h <| hc := m |>). split; [|done]. take_fields Hf. destruct Hok as (H1 & H2 & H3 & H4).
    held (Close_DecodeKey fuel) hc (fun m h => h <| hc := m |>) KC ((hc h) <| cl_version := 0 |>) m.
    rewrite H2 in *. do 4 decode_entry Hlen. destruct m. cbn in *. by subst.
Qed.

(** ** The version is found *)
Lemma seekable_cons c v l : bencoded v -> (c = c_V -> v = enc_int 0) -> seekable c_V 0 l -> seekable c_V 0 (([c], v) :: l).
Proof. intros Hb Hv Hl. constructor; [|done]. by exists c. Qed.
Lemma seekable_if (b : bool) c v l : bencoded v -> c <> c_V -> seekable c_V 0 l -> seekable c_V 0 ((if b then [([c], v)] else []) ++ l).
Proof. intros Hb Hv Hl. destruct b; [|done]. cbn [app]. by apply seekable_cons. Qed.
Lemma bencoded_key n s : (n < 4000)%nat -> (length s <= n)%nat -> bencoded (enc_str s).
Proof. intros Hn Hl. apply bencoded_str. unfold str_ok. lia. Qed.
Lemma bencoded_time t : time_ok t -> bencoded (enc_int t).
Proof. intros Ht. by apply bencoded_int, time_width. Qed.
Lemma bencoded_policies l : Forall policy_fits l -> bencoded (enc_list (policy_dict <$> l)).
Proof.
  intros Hl. apply bencoded_items_concat, Forall_fmap. eapply Forall_impl; [exact Hl|]. intros m (H1 & H2 & H3 & H4). apply bencoded_entries.
  repeat (apply Forall_cons; split; [split; [done|by apply bencoded_int]|]). by apply Forall_nil.
Qed.
Ltac value := first [ apply bencoded_int; done | by apply bencoded_time | by apply bencoded_policies
  | eapply bencoded_key; [|apply Nat.eq_le_incl; eassumption]; lia | eapply bencoded_key; [|eassumption]; unfold service_proto_message_max_size; lia ].
Ltac seek := repeat first [ apply seekable_if; [value|done|] | apply seekable_cons; [value|done|] | by apply Forall_nil ].
Lemma seekable_frame f : ProtocolFrameSpec.ok f -> seekable c_V 0 (tail (ProtocolFrameSpec.text f)).
Proof.
  intros (H1 & H2 & H3 & H4 & H5 & H6 & H7 & H8). unfold ProtocolFrameSpec.text. cbn [app tail]. rewrite H8. unfold PQCipherBlock, PQ_CIPHERTEXTSIZE in H1. seek.
Qed.
Lemma bencoded_frame f : ProtocolFrameSpec.ok f -> bencoded (dict (ProtocolFrameSpec.text f)).
Proof.
  intros Hf. apply bencoded_entries. apply Forall_cons. split; [split; [done|]; by apply bencoded_str|]. eapply Forall_impl; [by apply seekable_frame|].
  intros [k v] (c & E & Hb & _). cbn [fst snd] in *. by subst.
Qed.
Lemma seekable_routing m : routing_ok m -> seekable c_V 0 (routing_text m).
Proof using.
  intros Hok. unfold routing_text. apply seekable_cons; [by apply bencoded_str|done|].
  destruct m as [m|m|m|m|m|m|m|m|m|m|m|m]; cbn [fields routing_ok] in *.
  - destruct Hok as (H1 & H2 & ->). seek.
  - destruct Hok as (H1 & H2 & H3 & H4). seek.
  - destruct Hok as (H1 & H2 & H3 & H4 & H5). apply seekable_cons; [by apply bencoded_items_concat, Forall_fmap|done|]. seek.
  - destruct Hok as (H1 & H2 & H3 & ->). seek.
  - destruct Hok as (H1 & H2 & H3 & H4 & H5). do 2 (apply seekable_cons; [value|done|]). apply seekable_cons; [by apply bencoded_frame|done|]. seek.
  - by apply seekable_frame.
  - destruct Hok as (H1 & H2 & -> & H4). do 3 (apply seekable_cons; [value|done|]). apply seekable_cons; [|done|constructor].
    apply bencoded_items_concat, Forall_fmap. eapply Forall_impl; [exact H4|]. intros x Hx. eapply bencoded_key; [|exact Hx].
    unfold TransferTrafficMessage.MaxExitMTU, TransferTrafficMessage.ExitOverhead. lia.
  - destruct Hok as (H1 & H2 & -> & H4 & H5). seek.
  - destruct Hok as (H1 & H2 & H3 & H4 & -> & H6 & H7). seek.
  - destruct Hok as (H1 & H2 & H3 & H4 & H5 & -> & H7 & H8 & H9). seek.
  - destruct Hok as (H1 & H2 & H3 & -> & H5). seek.
  - destruct Hok as (H1 & -> & H3 & H4). seek.
Qed.

Context {W : Type} (handle : list Z -> routing_message -> W -> res (bool * W)).
Lemma message_parses fuel from m rest p :
  clean (m_Holder p) -> version p = 0 -> routing_ok m -> letter m <> c_V -> (length (dict (routing_text m)) <= fuel)%nat ->
  exists p', clean (m_Holder p') /\ version p' = 0 /\ forall w,
    ParseMessageBuffer ours rank0 port0 handle fuel (dict (routing_text m) ++ rest) from p w
    = let* (ok, w) := handle from (received m) w in Ok (ok, p', w).
Proof using INS BDS.
  intros Hc Hv Hok Hl Hf.
  destruct (decodes_routing fuel m (m_Holder p) Hc Hok Hl Hf) as (h' & Hd & Em & Hc'). exists (Parser 0 false None (clear_held (kind_of m) h')). split_and!; [done..|].
  intros w. unfold ParseMessageBuffer. rewrite (seek_reads fuel c_V 0 (routing_text m)) by (done || by apply seekable_routing). cbn [rbind].
  change (Buffer (dict (routing_text m) ++ rest) 0) with ([] ‖ dict (routing_text m) ++ rest).
  rewrite (read_dict_reads _ (routing_text m) fuel _ (Parser 0 false (Some (kind_of m)) h')); [| |done].
  - cbn [parser_sink firstKey negb rbind parsing m_Holder]. rewrite Em. by destruct (handle from (received m) w) as [[]| | |].
  - exists (Parser 0 false (Some (kind_of m)) (set_version (kind_of m) 0 (m_Holder p))). split; [|apply Hd]. split; [done|]. intros pre rest'.
    assert (kind_of_letter (letter m) = Some (kind_of m)) as Hk by (destruct m; done).
    unfold parser_sink. cbn [firstKey update]. rewrite startswith_letter, Z.eqb_refl. cbn [negb]. rewrite read_string_reads by done.
    cbn [rbind]. unfold sz. cbn [mem length Nat.eqb negb]. change (byte_at 0 [letter m]) with (Ok (letter m)). cbn [rbind]. rewrite Hk. done.
Qed.
(** C35. Every message that is sent on a path, but the one that moves an exit to another path, is handed over at
    the other end as it was written, once, with the path it came on, by a parser that holds nothing of
    another message, and the parser holds nothing again. *)
Theorem routing_message_delivered fuel from m rest p :
  clean (m_Holder p) -> version p = 0 -> routing_ok m -> letter m <> c_V -> (length (dict (routing_text m)) <= fuel)%nat ->
  writes (routing_BEncode ours rank0 port0 m) (dict (routing_text m)) /\
  exists p', clean (m_Holder p') /\ version p' = 0 /\ forall w,
    ParseMessageBuffer ours rank0 port0 handle fuel (dict (routing_text m) ++ rest) from p w
    = let* (ok, w) := handle from (received m) w in Ok (ok, p', w).
Proof using INS BDS. intros Hc Hv Hok Hl Hf. split; [by apply writes_routing|by apply message_parses]. Qed.
(** The message that moves an exit to another path is written with a letter the parser does not know: it is never handled. *)
Theorem update_exit_refused fuel from m rest p w :
  clean (m_Holder p) -> version p = 0 -> routing_ok (RUpdate m) -> (length (dict (routing_text (RUpdate m))) <= fuel)%nat ->
  writes (Update_BEncode m) (dict (routing_text (RUpdate m))) /\
  exists p', clean (m_Holder p') /\ ParseMessageBuffer ours rank0 port0 handle fuel (dict (routing_text (RUpdate m)) ++ rest) from p w = Ok (false, p', w).
Proof using INS BDS.
  intros Hc Hv Hok Hf. split; [by apply (writes_routing (RUpdate m))|]. exists (p <| firstKey := false |> <| parsing := None |> <| version := 0 |>). split; [done|].
  unfold ParseMessageBuffer. rewrite (seek_reads fuel c_V 0 (routing_text (RUpdate m))) by (done || by apply seekable_routing). cbn [rbind].
  unfold dict, routing_text. cbn [letter]. set (p0 := p <| parsing := None |> <| firstKey := true |> <| version := 0 |>).
  destruct (read_dict_stops (parser_sink ours rank0 port0 fuel) [] [c_A] fuel p0 p0 (p0 <| firstKey := false |>) []
    (enc_str [c_V] ++ entries (fields (RUpdate m)) ++ [chr_e] ++ rest)) as [b E]; [done|done|rewrite length_dict in Hf; cbn; lia| |].
  { intros pre. eexists. cbn [parser_sink p0 firstKey update]. rewrite startswith_letter, Z.eqb_refl. cbn [negb]. rewrite read_string_reads by done. reflexivity. }
  match goal with |- context [bencode_read_dict _ _ _ ?b0] => match type of E with bencode_read_dict _ _ _ ?b1 = _ => assert (b0 = b1) as -> end end.
  { unfold entries. cbn [fmap list_fmap concat fst snd app]. by rewrite <- !app_assoc. }
  rewrite E. done.
Qed.
End spec.
End RoutingSpec.

Section exit_signatures.
Context {CR : Crypto} {KP : KeyPairs} {KS : KeyPairsSpec CR KP}.
Lemma sign_text_run n w out seed : writes w out -> (length out < n)%nat -> length seed = 32%nat ->
  exists z, sign_text n w (identity_keygen seed) = Ok (Some z) /\ length z = 64%nat /\ verify_text n w (seckey_topublic (identity_keygen seed)) z = Ok true.
Proof using KS.
  intros Hw Hn Hs. destruct (crypto_sign_spec seed out Hs) as (z & Ez & Lz & Hv). exists z. unfold sign_text, verify_text.
  rewrite !(encode_into_writes _ _ _ Hw Hn). cbn [rbind]. change (Some out ≫= crypto_sign (identity_keygen seed)) with (crypto_sign (identity_keygen seed) out). by rewrite Ez, Hv.
Qed.
End exit_signatures.

(** ** A message of each theorem *)
Definition hand_over (from : list Z) (m : routing_message) (w : list (list Z * routing_message)) : res (bool * list (list Z * routing_message)) := Ok (true, (from, m) :: w).
Lemma routing_message_delivered_witness :
  let m := RTransfer (PathTransferMessage.make (ProtocolFrame.empty <| ProtocolFrame.D := [1; 2; 3] |> <| ProtocolFrame.S_ := 9 |>) (replicate 16 5) (replicate 32 6)) in
  exists p', ParseMessageBuffer (IP := pton_dec) (IN := ntop_dec) (BT := bt_none) [] 0 0 hand_over 500
      (dict (RoutingSpec.routing_text (IN := ntop_dec) m) ++ []) (replicate 16 1) parser_init [] = Ok (true, p', [(replicate 16 1, RoutingSpec.received m)]).
Proof.
  intros m. destruct (RoutingSpec.routing_message_delivered (IP := pton_dec) (IN := ntop_dec) (BT := bt_none) (BD := oxenc_dict_ref) [] 0 0 hand_over 500 (replicate 16 1) m [] parser_init)
    as (_ & p' & _ & _ & E).
  - done.
  - done.
  - split_and!; try done. split_and!; try done. apply Nat.leb_le. vm_compute. reflexivity.
  - done.
  - apply Nat.leb_le. vm_compute. reflexivity.
  - exists p'. rewrite E. reflexivity.
Defined.
Lemma update_exit_refused_witness :
  let m := Update_empty in
  exists p', ParseMessageBuffer (IP := pton_dec) (IN := ntop_dec) (BT := bt_none) [] 0 0 hand_over 500
      (dict (RoutingSpec.routing_text (IN := ntop_dec) (RUpdate m)) ++ []) (replicate 16 1) parser_init [] = Ok (false, p', []).
Proof.
  intros m. destruct (RoutingSpec.update_exit_refused (IP := pton_dec) (IN := ntop_dec) (BT := bt_none) (BD := oxenc_dict_ref) [] 0 0 hand_over 500 (replicate 16 1) m [] parser_init [])
    as (_ & p' & _ & E).
  - done.
  - done.
  - by split_and!.
  - apply Nat.leb_le. vm_compute. reflexivity.
  - exists p'. exact E.
Defined.
