(* ===== verification/Typed.v ===== *)
(** * What decoding keeps: the types of decoded messages of the DHT

    The arrays and the integers of a message have sizes that the C++ types fix, and that lists and [Z] do
    not show. The first part shows which predicates of an object its [DecodeKey] keeps; the second
    applies it to introduction sets, contacts and the messages of the DHT. *)

From S2P Require Import Prelude Buffer Bencode Codec CryptoApi Str NetInt IpRange DnsName DnsMessage Contact Frame Kademlia DhtMessage.

(** ** Integers that are read *)
Definition in_signed (w x : Z) : Prop := - 2 ^ (w - 1) <= x < 2 ^ (w - 1).
Lemma to_signed_bound w x : 0 < w -> in_signed w (to_signed w x).
Proof.
  intros Hw. unfold to_signed, in_signed. pose proof (wrap_bound w x) as Hb. unfold in_width in Hb.
  assert (2 ^ w = 2 * 2 ^ (w - 1)) as Hp by (rewrite <- Z.pow_succ_r by lia; f_equal; lia). case_match; lia.
Qed.
Lemma strtoull_width l : in_width 64 (strtoull l).
Proof.
  unfold strtoull. destruct (scan_number l) as [neg n] eqn:E. assert (0 <= n) as Hn.
  { unfold scan_number in E. destruct (skip_space l); [by injection E as <- <-|]. do 2 (case_match; [injection E as <- <-; by apply parse_digits_nonneg|]). injection E as <- <-. by apply (parse_digits_nonneg 0 (z :: l0)). }
  destruct (Z.leb_spec (2 ^ 64) n); [unfold in_width; lia|]. destruct neg; [by apply wrap_bound|]. unfold in_width. lia.
Qed.
Lemma read_integer_width b i b' : bencode_read_integer b = Ok (Some i, b') -> in_width 64 i.
Proof.
  unfold bencode_read_integer. intros (c & _ & E)%rbind_inv. destruct (negb _); [done|]. apply rbind_inv in E as ([[len num] b1] & _ & E).
  destruct (_ =? _)%nat; [done|]. injection E as <- _. apply strtoull_width.
Qed.

(** ** Lists *)
Lemma list_sink_keeps {S} (Q : S -> Prop) (sink : S -> bool -> llarp_buffer_t -> res (bool * S * llarp_buffer_t)) fuel l b ok l' b' :
  (forall l more b ok l' b', Q l -> sink l more b = Ok (ok, l', b') -> Q l') -> Q l -> bencode_read_list fuel sink l b = Ok (ok, l', b') -> Q l'.
Proof.
  intros Hsink. assert (forall n l b ok l' b', Q l -> read_list_loop n sink l b = Ok (ok, l', b') -> Q l') as Hloop.
  { induction n as [|n IH]; intros l1 b1 ok1 l2 b2 Hl; cbn [read_list_loop]; (destruct (_ =? _)%nat; [by intros [= <- <- <-]|]); intros (c & _ & E)%rbind_inv;
      (destruct (c =? chr_e); [by injection E as <- <- <-|]); [done|]. apply rbind_inv in E as ([[ok3 l3] b3] & E3 & E). pose proof (Hsink _ _ _ _ _ _ Hl E3).
    destruct ok3; [by eapply IH|by injection E as <- <- <-]. }
  intros Hl. unfold bencode_read_list. destruct (_ <? _)%nat; [by intros [= <- <- <-]|]. intros (c & _ & E)%rbind_inv. destruct (negb _); [by injection E as <- <- <-|].
  apply rbind_inv in E as ([[ok1 l1] b1] & E1 & E). pose proof (Hloop _ _ _ _ _ _ Hl E1). destruct ok1; cbn [negb] in E; [|by injection E as <- <- <-].
  apply rbind_inv in E as (c' & _ & E). destruct (negb _); [by injection E as <- <- <-|by eapply Hsink].
Qed.

(** ** Predicates that decoding keeps *)
Section keeps.
Context {M : Type} (P : M -> Prop).
Definition keeps (f : M * bool -> llarp_buffer_t -> llarp_buffer_t -> res (bool * (M * bool) * llarp_buffer_t)) : Prop :=
  forall m rd key b ok m' rd' b', P m -> f (m, rd) key b = Ok (ok, (m', rd'), b') -> P m'.
Definition keeps_key (dk : decode_key M) : Prop := forall m key b ok m' b', P m -> dk m key b = Ok (ok, m', b') -> P m'.
Lemma both_keeps f g : keeps f -> keeps g -> keeps (both f g).
Proof.
  intros Hf Hg m rd key b ok m' rd' b' Hm. unfold both. intros ([[ok1 [m1 rd1]] b1] & E1 & E2)%rbind_inv. pose proof (Hf _ _ _ _ _ _ _ _ Hm E1) as Hm1.
  destruct ok1; [exact (Hg _ _ _ _ _ _ _ _ Hm1 E2)|by injection E2 as <- <- <- <-].
Qed.
Lemma return_read_keeps f : keeps f -> keeps_key (return_read f).
Proof. intros Hf m key b ok m' b' Hm. unfold return_read. intros ([[ok1 [m1 rd1]] b1] & E1 & [= <- <- <-])%rbind_inv. exact (Hf _ _ _ _ _ _ _ _ Hm E1). Qed.
Lemma read_or_discard_keeps fuel f : keeps f -> keeps_key (read_or_discard fuel f).
Proof.
  intros Hf m key b ok m' b' Hm. unfold read_or_discard. intros ([[ok1 [m1 rd1]] b1] & E1 & E2)%rbind_inv. pose proof (Hf _ _ _ _ _ _ _ _ Hm E1) as Hm1.
  destruct ok1; cbn [negb] in E2; [|by injection E2 as <- <- <-]. destruct rd1; [by injection E2 as <- <- <-|]. apply rbind_inv in E2 as ([[ok2 u] b2] & _ & [= <- <- <-]). done.
Qed.
Lemma on_key_keeps k f g : keeps_key f -> keeps_key g -> keeps_key (on_key k f g).
Proof. intros Hf Hg m key b ok m' b' Hm. unfold on_key. destruct (startswith k key); [by apply Hf|by apply Hg]. Qed.
(** A member that a reader gives a value with [Q]. *)
Lemma maybe_entry_keeps {A} {EA : BEncodable A} (Q : A -> Prop) fuel k (get : M -> A) (set : A -> M -> M) :
  (forall b x b', BDecode fuel b = Ok (Some x, b') -> Q x) -> (forall m, P m -> P (set (get m) m)) -> (forall m x, P m -> Q x -> P (set x m)) -> keeps (maybe_entry fuel k get set).
Proof.
  intros Hd Hs HQ m rd key b ok m' rd' b' Hm. unfold maybe_entry, BEncodeMaybeReadDictEntry. destruct (startswith k key).
  - intros ([[ok1 [x rd1]] b1] & E1 & [= <- <- <- <-])%rbind_inv. apply rbind_inv in E1 as ([ent b2] & E & E1). destruct ent as [x'|]; injection E1 as <- <- <- <-; [apply HQ; [done|by eapply Hd]|by apply Hs].
  - cbn [rbind]. intros [= <- <- <- <-]. by apply Hs.
Qed.
(** Integers have the width they are read at, times are signed. *)
Lemma maybe_int_keeps w k get set : 0 <= w -> (forall m, P m -> P (set (get m) m)) -> (forall m x, P m -> in_width w x -> P (set x m)) -> keeps (maybe_int w k get set).
Proof.
  intros Hw Hs HQ m rd key b ok m' rd' b' Hm. unfold maybe_int, BEncodeMaybeReadDictInt. destruct (startswith k key).
  - intros ([[ok1 [x rd1]] b1] & E1 & [= <- <- <- <-])%rbind_inv. apply rbind_inv in E1 as ([i b2] & E & E1).
    destruct i as [i|]; injection E1 as <- <- <- <-; [apply HQ; [done|by apply wrap_bound]|by apply Hs].
  - cbn [rbind]. intros [= <- <- <- <-]. by apply Hs.
Qed.
Lemma maybe_version_keeps k v get set : (forall m, P m -> P (set (get m) m)) -> (forall m x, P m -> in_width 64 x -> P (set x m)) -> keeps (maybe_version k v get set).
Proof.
  intros Hs HQ m rd key b ok m' rd' b' Hm. unfold maybe_version, BEncodeMaybeVerifyVersion. destruct (startswith k key).
  - intros ([[ok1 [x rd1]] b1] & E1 & [= <- <- <- <-])%rbind_inv. apply rbind_inv in E1 as ([i b2] & E & E1).
    destruct i as [i|]; injection E1 as <- <- <- <-; [apply HQ; [done|by eapply read_integer_width]|by apply Hs].
  - cbn [rbind]. intros [= <- <- <- <-]. by apply Hs.
Qed.
Lemma maybe_time_keeps k set : (forall m x, P m -> in_signed 64 x -> P (set x m)) -> keeps (maybe_time k set).
Proof.
  intros Hs m rd key b ok m' rd' b' Hm. unfold maybe_time. destruct (startswith k key); [|by intros [= <- <- <- <-]].
  intros ([i b1] & _ & E)%rbind_inv. destruct i; injection E as <- <- <- <-; [apply Hs; [done|by apply to_signed_bound]|done].
Qed.
Lemma read_integer_into_keeps set : (forall m x, P m -> in_width 64 x -> P (set x m)) -> keeps_key (read_integer_into set).
Proof.
  intros Hs m key b ok m' b' Hm. unfold read_integer_into. intros ([i b1] & E & E1)%rbind_inv.
  destruct i as [i|]; injection E1 as <- <- <-; [apply Hs; [done|by eapply read_integer_width]|done].
Qed.
Lemma read_entry_into_keeps {A} {EA : BEncodable A} (Q : A -> Prop) fuel (set : A -> M -> M) :
  (forall b x b', BDecode fuel b = Ok (Some x, b') -> Q x) -> (forall m x, P m -> Q x -> P (set x m)) -> keeps_key (read_entry_into fuel set).
Proof.
  intros Hd Hs m key b ok m' b' Hm. unfold read_entry_into. intros ([x b1] & E & E1)%rbind_inv.
  destruct x as [x|]; injection E1 as <- <- <-; [apply Hs; [done|by eapply Hd]|done].
Qed.
Lemma return_false_keeps : keeps_key return_false.
Proof. intros m key b ok m' b' Hm. by intros [= <- <- <-]. Qed.
Lemma discard_value_keeps fuel : keeps_key (discard_value fuel).
Proof. intros m key b ok m' b' Hm. unfold discard_value. by intros ([[ok1 u] b1] & _ & [= <- <- <-])%rbind_inv. Qed.
(** A list that is read grows by entries with [Q], or by the default. *)
Lemma read_list_keeps {A} {EA : BEncodable A} (Q : A -> Prop) fuel dflt l b ok l' b' : (forall b x b', BDecode fuel b = Ok (Some x, b') -> Q x) -> Q dflt -> Forall Q l ->
  BEncodeReadList fuel dflt l b = Ok (ok, l', b') -> Forall Q l'.
Proof.
  intros Hd H0. unfold BEncodeReadList. apply (list_sink_keeps (Forall Q)). intros l1 more b1 ok1 l2 b2 Hl. destruct more; [|by intros [= <- <- <-]].
  intros ([ent b3] & E & E2)%rbind_inv.
  destruct ent as [x|]; injection E2 as <- <- <-; apply Forall_app; (split; [done|]); constructor; [by eapply Hd|done|done|done].
Qed.
Lemma maybe_list_keeps {A} {EA : BEncodable A} (Q : A -> Prop) fuel k dflt (get : M -> list A) (set : list A -> M -> M) :
  (forall b x b', BDecode fuel b = Ok (Some x, b') -> Q x) -> Q dflt -> (forall m, P m -> Forall Q (get m)) -> (forall m l, P m -> Forall Q l -> P (set l m)) -> keeps (maybe_list fuel k dflt get set).
Proof.
  intros Hd H0 Hg Hs m rd key b ok m' rd' b' Hm. unfold maybe_list, BEncodeMaybeReadDictList. destruct (startswith k key).
  - intros ([[ok1 [l rd1]] b1] & E1 & [= <- <- <- <-])%rbind_inv. apply rbind_inv in E1 as ([[ok2 l2] b2] & E & E1). pose proof (read_list_keeps Q _ _ _ _ _ _ _ Hd H0 (Hg m Hm) E).
    destruct ok2; injection E1 as <- <- <- <-; by apply Hs.
  - cbn [rbind]. intros [= <- <- <- <-]. apply Hs; [done|by apply Hg].
Qed.
Lemma read_list_into_keeps {A} {EA : BEncodable A} (Q : A -> Prop) fuel dflt (get : M -> list A) (set : list A -> M -> M) :
  (forall b x b', BDecode fuel b = Ok (Some x, b') -> Q x) -> Q dflt -> (forall m, P m -> Forall Q (get m)) -> (forall m l, P m -> Forall Q l -> P (set l m)) -> keeps_key (read_list_into fuel dflt get set).
Proof.
  intros Hd H0 Hg Hs m key b ok m' b' Hm. unfold read_list_into. intros ([[ok1 l] b1] & E & [= <- <- <-])%rbind_inv.
  apply Hs; [done|]. exact (read_list_keeps Q _ _ _ _ _ _ _ Hd H0 (Hg m Hm) E).
Qed.
(** Dictionaries into the object at hand. *)
Lemma read_dict_keeps (sink : M -> option llarp_buffer_t -> llarp_buffer_t -> res (bool * M * llarp_buffer_t)) fuel m b ok m' b' :
  (forall m key b ok m' b', P m -> sink m key b = Ok (ok, m', b') -> P m') -> P m -> bencode_read_dict fuel sink m b = Ok (ok, m', b') -> P m'.
Proof.
  intros Hsink Hm. assert (forall n m b ok m' b', P m -> read_dict_loop n sink m b = Ok (ok, m', b') -> P m') as Hloop.
  { induction n as [|n IH]; intros m1 b1 ok1 m2 b2 Hl; cbn [read_dict_loop]; (destruct (_ =? _)%nat; [by intros [= <- <- <-]|]); intros (c & _ & E)%rbind_inv;
      (destruct (c =? chr_e); [by injection E as <- <- <-|]); [done|]. apply rbind_inv in E as ([str b3] & _ & E). destruct str as [key|]; [|by injection E as <- <- <-].
    apply rbind_inv in E as ([[ok3 m3] b4] & E3 & E). pose proof (Hsink _ _ _ _ _ _ Hl E3). destruct ok3; [by eapply IH|by injection E as <- <- <-]. }
  unfold bencode_read_dict. destruct (_ <? _)%nat; [by intros [= <- <- <-]|]. intros (c & _ & E)%rbind_inv. destruct (negb _); [by injection E as <- <- <-|].
  apply rbind_inv in E as ([[ok1 m1] b1] & E1 & E). pose proof (Hloop _ _ _ _ _ _ Hm E1). destruct ok1; cbn [negb] in E; [|by injection E as <- <- <-].
  apply rbind_inv in E as (c' & _ & E). destruct (negb _); [by injection E as <- <- <-|by eapply Hsink].
Qed.
Lemma decode_dict_keeps dk fuel m b ok m' b' : keeps_key dk -> P m -> bencode_decode_dict fuel dk m b = Ok (ok, m', b') -> P m'.
Proof. intros Hk. apply read_dict_keeps. intros m1 [key|] b1 ok1 m2 b2 Hm; [by apply Hk|by intros [= <- <- <-]]. Qed.
End keeps.
Lemma maybe_dict_keeps {M A} (P : M -> Prop) (Q : A -> Prop) fuel k dk (get : M -> A) (set : A -> M -> M) :
  keeps_key Q dk -> (forall m, P m -> Q (get m)) -> (forall m x, P m -> Q x -> P (set x m)) -> keeps P (maybe_dict fuel k dk get set).
Proof.
  intros Hk Hg Hs m rd key b ok m' rd' b' Hm. unfold maybe_dict. destruct (startswith k key); [|by intros [= <- <- <- <-]].
  intros ([[ok1 x] b1] & E1 & [= <- <- <- <-])%rbind_inv. apply Hs; [done|]. exact (decode_dict_keeps Q dk _ _ _ _ _ _ Hk (Hg m Hm) E1).
Qed.
Lemma array_sized n fuel b x b' : BDecode (BEncodable := array_bencodable n) fuel b = Ok (Some x, b') -> length x = n.
Proof.
  cbn. unfold array_decode. intros ([str b1] & _ & E)%rbind_inv. destruct str as [str|]; [|done]. destruct (Nat.eqb_spec (sz str) n) as [Hn|]; [|done]. by injection E as <- _.
Qed.
Lemma encrypted_sized n fuel b x b' : BDecode (BEncodable := Encrypted.bencodable n) fuel b = Ok (Some x, b') -> (length x <= n)%nat.
Proof.
  cbn. unfold Encrypted.BDecode. intros ([str b1] & _ & E)%rbind_inv. destruct str as [str|]; [|done]. destruct (Nat.ltb_spec n (sz str)); [done|]. by injection E as <- _.
Qed.

(** ** Introduction sets, contacts and messages of the DHT *)
Definition introset_sized (s : EncryptedIntroSet) : Prop :=
  length (EncryptedIntroSet.derivedSigningKey s) = 32%nat /\ in_signed 64 (EncryptedIntroSet.signedAt s)
  /\ (length (EncryptedIntroSet.introsetPayload s) <= EncryptedIntroSet.MAX_INTROSET_SIZE)%nat /\ length (EncryptedIntroSet.nounce s) = 32%nat
  /\ length (EncryptedIntroSet.sig s) = 64%nat.
Definition version_sized (v : RouterVersion.t) : Prop :=
  length (RouterVersion.m_Version v) = 3%nat /\ Forall (in_width 16) (RouterVersion.m_Version v) /\ in_signed 64 (RouterVersion.m_ProtoVersion v).
Section contacts.
Context {IP : InetPton} {IN : InetNtop} {BT : OxencBt} {BD : OxencDict} (ours : list Z) (rank0 port0 : Z).
(** A rank and a port that are not in the text are what the memory held. *)
Definition addr_sized (a : AddressInfo.t) : Prop :=
  length (AddressInfo.pubkey a) = 32%nat /\ (length (AddressInfo.dialect a) < 128)%nat
  /\ (in_width 16 (AddressInfo.rank a) \/ AddressInfo.rank a = rank0) /\ (in_width 16 (AddressInfo.port a) \/ AddressInfo.port a = port0).
(** A contact that names no network has the one of the program. *)
Definition contact_sized (rc : RouterContact) : Prop :=
  length (RouterContact.pubkey rc) = 32%nat /\ length (RouterContact.enckey rc) = 32%nat /\ length (RouterContact.signature rc) = 64%nat
  /\ length (RouterContact.nickname rc) = RouterContact.NICKLEN /\ (length (RouterContact.netID rc) = NetID.SIZE \/ RouterContact.netID rc = ours)
  /\ in_signed 64 (RouterContact.last_updated rc) /\ in_width 64 (RouterContact.version rc) /\ Forall addr_sized (RouterContact.addrs rc)
  /\ (forall v, RouterContact.routerVersion rc = Some v -> version_sized v).
Definition key_sized (k : option Key_t) : Prop := forall x, k = Some x -> length x = 32%nat.
Definition find_intro_sized (m : FindIntroMessage.t) : Prop :=
  length (FindIntroMessage.location m) = 32%nat /\ length (FindIntroMessage.tagName m) = 16%nat /\ in_width 64 (FindIntroMessage.txID m)
  /\ in_width 64 (FindIntroMessage.relayOrder m) /\ in_width 64 (FindIntroMessage.version m).
Definition find_router_sized (m : FindRouterMessage.t) : Prop :=
  length (FindRouterMessage.targetKey m) = 32%nat /\ in_width 64 (FindRouterMessage.txid m) /\ in_width 64 (FindRouterMessage.version m).
Definition got_intro_sized (m : GotIntroMessage.t) : Prop :=
  Forall introset_sized (GotIntroMessage.found m) /\ in_width 64 (GotIntroMessage.txid m) /\ key_sized (GotIntroMessage.closer m) /\ in_width 64 (GotIntroMessage.version m).
Definition publish_sized (m : PublishIntroMessage.t) : Prop :=
  introset_sized (PublishIntroMessage.introset m) /\ in_width 64 (PublishIntroMessage.relayOrder m) /\ in_width 64 (PublishIntroMessage.txID m)
  /\ in_width 64 (PublishIntroMessage.version m).
Definition got_router_sized (m : GotRouterMessage) : Prop :=
  Forall contact_sized (foundRCs m) /\ Forall (fun k => length k = 32%nat) (nearKeys m) /\ key_sized (closerTarget m) /\ in_width 64 (gr_txid m) /\ in_width 64 (gr_version m).
Definition find_name_sized (m : FindNameMessage) : Prop := length (NameHash m) = 32%nat /\ in_width 64 (fn_TxID m).
Definition got_name_sized (m : GotNameMessage) : Prop := length (nonce m) = NONCESIZE /\ (length (ciphertext m) <= NameSizeLimit)%nat /\ in_width 64 (gn_TxID m).
Definition body_sized (m : body) : Prop :=
  match m with
  | MFindName m => find_name_sized m | MGotName m => got_name_sized m | MFindIntro m => find_intro_sized m
  | MFindRouter m | MRelayedFindRouter m => find_router_sized m | MGotRouter m => got_router_sized m | MPublishIntro m => publish_sized m
  | MGotIntro m | MRelayedGotIntro m => got_intro_sized m
  end.
Definition dht_sized (m : IMessage) : Prop := length (From m) = 32%nat /\ length (pathID m) = PATHIDSIZE /\ body_sized (msg m).
End contacts.

(** The members that a step does not touch stay; the one it sets has its size. *)
Create HintDb sized.
#[export] Hint Unfold introset_sized version_sized addr_sized contact_sized key_sized find_intro_sized find_router_sized got_intro_sized publish_sized got_router_sized
  find_name_sized got_name_sized : sized.
Ltac sized :=
  intros; autounfold with sized in *; repeat match goal with H : _ /\ _ |- _ => destruct H end; repeat match goal with |- _ /\ _ => split end;
  first [assumption | reflexivity | (intros; simplify_eq; assumption) | done].
Ltac keep_step := first
  [ apply both_keeps; [keep_step|keep_step]
  | apply on_key_keeps; [keep_step|keep_step]
  | apply return_read_keeps; keep_step
  | apply (maybe_entry_keeps _ _ _ _ _ _ (array_sized _ _)); solve [sized]
  | apply (maybe_entry_keeps _ _ _ _ _ _ (encrypted_sized _ _)); solve [sized]
  | apply maybe_int_keeps; [lia|solve [sized]|solve [sized]] | apply maybe_version_keeps; solve [sized] | apply maybe_time_keeps; solve [sized]
  | apply read_integer_into_keeps; solve [sized] | apply (read_entry_into_keeps _ _ _ _ (array_sized _ _)); solve [sized]
  | apply return_false_keeps | apply discard_value_keeps ].
Lemma dict_bencodable_sized {M} (P : M -> Prop) enc (dk : nat -> decode_key M) empty fuel b x b' :
  keeps_key P (dk fuel) -> P empty -> BDecode (BEncodable := dict_bencodable enc dk empty) fuel b = Ok (Some x, b') -> P x.
Proof.
  intros Hk H0. cbn. unfold dict_decode. intros ([[ok m] b1] & E & E1)%rbind_inv. destruct ok; [|done]. injection E1 as <- _. exact (decode_dict_keeps P _ _ _ _ _ _ _ Hk H0 E).
Qed.
Lemma introset_kept fuel : keeps_key introset_sized (EncryptedIntroSet.DecodeKey fuel).
Proof.
  apply on_key_keeps; [|keep_step]. intros m key b ok m' b' Hm. unfold EncryptedIntroSet.read_payload. intros ([str b1] & _ & E)%rbind_inv.
  destruct str as [str|]; [|by injection E as <- <- <-]. destruct (Nat.ltb_spec EncryptedIntroSet.MAX_INTROSET_SIZE (sz str)); injection E as <- <- <-; [done|]. sized.
Qed.
Lemma introset_decoded fuel b x b' : BDecode (BEncodable := EncryptedIntroSet.bencodable) fuel b = Ok (Some x, b') -> introset_sized x.
Proof. apply dict_bencodable_sized; [apply introset_kept|]. unfold introset_sized, in_signed. cbn. lia. Qed.

(** ** Contacts *)
Lemma version_decoded fuel v b ok v' b' : RouterVersion.BDecode fuel v b = Ok (ok, v', b') -> version_sized v'.
Proof.
  unfold RouterVersion.BDecode. intros ([[ok1 [v1 idx]] b1] & E & [= <- <- <-])%rbind_inv.
  refine (list_sink_keeps (fun st => version_sized st.1) _ _ _ _ _ (v1, idx) _ _ _ E); [|by repeat constructor]. clear.
  intros [v idx] more b ok [v' idx'] b' Hv. unfold RouterVersion.list_sink. cbn [fst] in *. destruct more; [|by intros [= <- <- <- <-]].
  intros ([i b1] & _ & E)%rbind_inv. destruct i as [i|]; [|by injection E as <- <- <- <-]. destruct (_ =? _)%nat.
  - injection E as <- <- <- <-. destruct Hv as (H1 & H2 & H3). split; [done|]. split; [done|]. by apply to_signed_bound.
  - destruct (_ <? _)%nat; [by injection E as <- <- <- <-|]. injection E as <- <- <- <-. destruct Hv as (H1 & H2 & H3). split; [|split; [|done]]; cbn.
    + by rewrite length_insert.
    + apply Forall_insert; [done|by apply wrap_bound].
Qed.
Section contact_types.
Context {IP : InetPton} {IN : InetNtop} {BT : OxencBt} {BD : OxencDict} (ours : list Z) (rank0 port0 : Z).
Ltac read_fails := match goal with E : Ok _ = Ok _ |- _ => injection E as <- <- <- end; first [assumption|sized].
Lemma addr_kept : keeps_key (addr_sized rank0 port0) AddressInfo.DecodeKey.
Proof.
  intros a key b ok a' b' Ha. unfold AddressInfo.DecodeKey.
  repeat match goal with |- context [startswith ?k key] => destruct (startswith k key) end; [..|by intros [= <- <- <-]]; intros ([x b1] & E1 & E)%rbind_inv.
  - destruct x as [x|]; [|read_fails]. destruct (_ || _); [read_fails|]. injection E as <- <- <-. pose proof (wrap_bound 16 x ltac:(lia)). destruct Ha as (H1 & H2 & H3 & H4). split_and!; try done. by left.
  - destruct x as [x|]; [|read_fails]. destruct (Nat.leb_spec 128 (sz x)); [read_fails|]. injection E as <- <- <-. destruct Ha as (H1 & H2 & H3 & H4). split_and!; try done. cbn.
    pose proof (length_c_str (mem x)). unfold sz in *. lia.
  - destruct x as [x|]; [|read_fails]. apply array_sized in E1. read_fails.
  - destruct x as [x|]; [|read_fails]. destruct (_ <=? _)%nat; [read_fails|]. destruct (inet_pton6 _); read_fails.
  - destruct x as [x|]; [|read_fails]. destruct (_ || _); [read_fails|]. injection E as <- <- <-. pose proof (wrap_bound 16 x ltac:(lia)). destruct Ha as (H1 & H2 & H3 & H4). split_and!; try done. by left.
  - destruct x as [x|]; read_fails.
Qed.
Lemma addr_decoded fuel b x b' : BDecode (BEncodable := RouterContact.addr_bencodable rank0 port0) fuel b = Ok (Some x, b') -> addr_sized rank0 port0 x.
Proof. apply dict_bencodable_sized; [apply addr_kept|]. split; [done|]. split; [cbn; lia|]. split; by right. Qed.
Lemma netid_decoded fuel b x b' : BDecode (BEncodable := NetID.bencodable) fuel b = Ok (Some x, b') -> length x = NetID.SIZE.
Proof.
  cbn. unfold NetID.BDecode. intros ([str b1] & _ & E)%rbind_inv. destruct str as [str|]; [|done]. destruct (Nat.ltb_spec NetID.SIZE (sz str)); [done|].
  injection E as <- _. unfold zeros. rewrite length_app, length_replicate. unfold sz in *. lia.
Qed.
Abbreviation contact_sized := (contact_sized ours rank0 port0).
Lemma first_keys_kept fuel : keeps contact_sized (RouterContact.first_keys rank0 port0 fuel).
Proof.
  repeat apply both_keeps; [|apply (maybe_entry_keeps _ _ _ _ _ _ (netid_decoded _))|keep_step].
  - apply (maybe_list_keeps _ (addr_sized rank0 port0) _ _ _ _ _ (addr_decoded _)); [|sized|sized]. split; [done|]. split; [cbn; lia|]. split; by right.
  - sized.
  - intros m x (? & ? & ? & ? & ? & ? & ? & ? & ?) Hx. split_and!; try done. by left.
Qed.
Lemma middle_keys_kept fuel : keeps contact_sized (RouterContact.middle_keys fuel).
Proof. repeat apply both_keeps; [|keep_step..]. apply (maybe_list_keeps _ (fun _ => True)); [done|done| |]; [|sized]. intros. by apply Forall_true. Qed.
Lemma last_key_kept fuel : keeps contact_sized (RouterContact.last_key fuel).
Proof. unfold RouterContact.last_key. keep_step. Qed.
Lemma contact_kept fuel : keeps_key contact_sized (RouterContact.DecodeKey rank0 port0 fuel).
Proof.
  intros rc key b ok rc' b' Hrc. unfold RouterContact.DecodeKey. intros ([[ok1 [rc1 rd1]] b1] & E1 & E)%rbind_inv.
  pose proof (first_keys_kept _ _ _ _ _ _ _ _ _ Hrc E1) as H1. destruct ok1; cbn [negb] in E; [|by injection E as <- <- <-]. destruct (startswith [c_r] key).
  { apply rbind_inv in E as ([[ok2 v] b2] & E2 & E). apply version_decoded in E2. destruct ok2; injection E as <- <- <-; [|done]. destruct H1 as (? & ? & ? & ? & ? & ? & ? & ? & ?). repeat (split; [done|]). by intros ? [= <-]. }
  destruct (startswith [c_n] key).
  { apply rbind_inv in E as ([str b2] & _ & E). destruct str as [str|]; [|by injection E as <- <- <-].
    destruct (Nat.ltb_spec RouterContact.NICKLEN (sz str)); injection E as <- <- <-; [done|]. destruct H1 as (? & ? & ? & ? & ? & ? & ? & ? & ?). split_and!; try done.
    change (length (mem str ++ zeros (RouterContact.NICKLEN - sz str)) = RouterContact.NICKLEN). unfold zeros. rewrite length_app, length_replicate. unfold sz in *. lia. }
  apply rbind_inv in E as ([[ok2 [rc2 rd2]] b2] & E2 & E). pose proof (middle_keys_kept _ _ _ _ _ _ _ _ _ H1 E2) as H2.
  destruct ok2; cbn [negb] in E; [|by injection E as <- <- <-]. destruct (startswith [c_x] key).
  { apply rbind_inv in E as ([[ok3 u] b3] & _ & E). by injection E as <- <- <-. }
  apply rbind_inv in E as ([[ok3 [rc3 rd3]] b3] & E3 & E). pose proof (last_key_kept _ _ _ _ _ _ _ _ _ H2 E3) as H3.
  destruct ok3; cbn [negb] in E; [|by injection E as <- <- <-]. destruct rd3; [by injection E as <- <- <-|].
  apply rbind_inv in E as ([[ok4 u] b4] & _ & E). by injection E as <- <- <-.
Qed.
Lemma contact_default : contact_sized (RouterContact.default ours).
Proof. split_and!; try done; by right. Qed.
Lemma decode_version_1 fuel rc l ok rc' : contact_sized rc -> RouterContact.DecodeVersion_1 rank0 port0 fuel rc l = Ok (Some (ok, rc')) -> contact_sized rc'.
Proof.
  intros Hrc. unfold RouterContact.DecodeVersion_1. destruct (consume_string_view l) as [[str l1]|]; [|done]. destruct (consume_dict_data l1) as [[d l2]|]; [|done].
  assert (contact_sized (rc <| RouterContact.signed_bt_dict := d |>)) as Hd by exact Hrc. destruct (negb (is_finished _)); [by intros [= <- <-]|].
  destruct (Nat.eqb_spec (length str) SIGSIZE) as [Hs|]; cbn [negb]; [|by intros [= <- <-]]. intros ([[ok1 rc1] b1] & E & [= <- <-])%rbind_inv.
  refine (decode_dict_keeps contact_sized _ _ _ _ _ _ _ (contact_kept fuel) _ E). destruct Hd as (? & ? & ? & ? & ? & ? & ? & ? & ?). by repeat (split; [done|]).
Qed.
Lemma contact_decoded fuel b x b' : BDecode (BEncodable := rc_bencodable ours rank0 port0) fuel b = Ok (Some x, b') -> contact_sized x.
Proof.
  cbn [rc_bencodable RouterContact.bencodable BDecode]. intros ([[ok rc] b1] & E & E1)%rbind_inv. destruct ok; [|done]. injection E1 as <- _.
  assert (contact_sized (RouterContact.Clear (RouterContact.default ours))) as H0 by apply contact_default. revert E. unfold RouterContact.BDecode.
  generalize (RouterContact.Clear (RouterContact.default ours)), H0. clear H0. intros rc0 H0 (c & _ & E)%rbind_inv.
  destruct (c =? chr_d); [exact (decode_dict_keeps contact_sized _ _ _ _ _ _ _ (contact_kept fuel) H0 E)|]. destruct (negb _); [done|].
  destruct (bt_list_consumer _) as [l|]; [|done]. destruct (consume_integer l) as [[v l1]|]; [|done]. destruct (v =? 1); [|done].
  apply rbind_inv in E as (r & E1 & E). destruct r as [[ok rc1]|]; [|done]. apply (decode_version_1 _ _ _ _ _ H0) in E1.
  destruct ok; [|done]. apply rbind_inv in E as ([[ok u] b2] & _ & E). by injection E as _ <- _.
Qed.

(** ** Messages *)
Lemma find_intro_kept fuel : keeps_key find_intro_sized (FindIntroMessage.DecodeKey fuel).
Proof. unfold FindIntroMessage.DecodeKey. keep_step. Qed.
Lemma find_router_kept fuel : keeps_key find_router_sized (FindRouterMessage.DecodeKey fuel).
Proof. unfold FindRouterMessage.DecodeKey. keep_step. Qed.
Lemma find_name_kept fuel : keeps_key find_name_sized (FindName_DecodeKey fuel).
Proof. unfold FindName_DecodeKey. keep_step. Qed.
Lemma got_name_kept fuel : keeps_key got_name_sized (GotName_DecodeKey fuel).
Proof.
  apply on_key_keeps; [|keep_step]. intros m key b ok m' b' Hm. unfold read_ciphertext. intros ([str b1] & _ & E)%rbind_inv.
  destruct str as [str|]; [|by injection E as <- <- <-]. destruct (Nat.ltb_spec NameSizeLimit (sz str)); injection E as <- <- <-; [done|]. sized.
Qed.
Lemma publish_kept fuel : keeps_key publish_sized (PublishIntroMessage.DecodeKey fuel).
Proof.
  apply return_read_keeps, both_keeps; [|keep_step].
  apply (maybe_entry_keeps _ _ _ _ _ _ (introset_decoded _)); intros m; [done|]. intros x (? & ? & ? & ?) Hx. done.
Qed.
Lemma got_intro_kept fuel : keeps_key got_intro_sized (GotIntroMessage.DecodeKey fuel).
Proof.
  apply on_key_keeps; [|apply on_key_keeps; [|keep_step]].
  - apply (read_list_into_keeps _ _ _ _ _ _ (introset_decoded fuel)); [unfold introset_sized, in_signed; cbn; lia| |]; [by intros m (? & _)|]. by intros m l (? & ? & ? & ?) Hl.
  - intros m key b ok m' b' Hm. unfold GotIntroMessage.read_closer. destruct (GotIntroMessage.closer m); [by intros [= <- <- <-]|].
    refine (read_entry_into_keeps got_intro_sized _ _ _ (array_sized _ _) _ m key b ok m' b' Hm). intros m1 x (? & ? & ? & ?) Hx. split_and!; try done. by intros ? [= <-].
Qed.
Lemma got_router_kept fuel : keeps_key (got_router_sized ours rank0 port0) (GotRouter_DecodeKey ours rank0 port0 fuel).
Proof.
  repeat apply on_key_keeps; [| | |keep_step|keep_step].
  - intros m key b ok m' b' Hm. unfold GotRouter_closer_key. destruct (closerTarget m); [by intros [= <- <- <-]|].
    refine (read_entry_into_keeps (got_router_sized ours rank0 port0) _ _ _ (array_sized _ _) _ _ key b ok m' b' _).
    + intros m1 x (? & ? & ? & ? & ?) Hx. split_and!; try done. by intros ? [= <-].
    + destruct Hm as (? & ? & ? & ? & ?). split_and!; try done. by intros ? [= <-].
  - apply (read_list_into_keeps _ _ _ _ _ _ (array_sized _ fuel)); [done|by intros m (? & ? & _)|]. by intros m l (? & ? & ? & ? & ?) Hl.
  - apply (read_list_into_keeps _ _ _ _ _ _ (contact_decoded fuel)); [apply contact_default|by intros m (? & _)|]. by intros m l (? & ? & ? & ? & ?) Hl.
Qed.
Abbreviation body_sized := (body_sized ours rank0 port0).
Lemma body_kept fuel : keeps_key body_sized (DecodeKey_body ours rank0 port0 fuel).
Proof.
  intros m key b ok m' b' Hm. destruct m; cbn [DecodeKey_body]; unfold lift_key; intros ([[ok1 m1] b1] & E & [= <- <- <-])%rbind_inv; revert E; cbn [Typed.body_sized] in *;
    first [by apply find_name_kept | by apply got_name_kept | by apply find_intro_kept | by apply find_router_kept | by apply got_router_kept | by apply publish_kept | by apply got_intro_kept].
Qed.
Lemma make_body_sized relayed c m : make_body relayed c = Some m -> body_sized m.
Proof.
  unfold make_body. repeat (case_match; [intros [= <-]|]); [..|done]; try destruct relayed; cbn [Typed.body_sized];
    autounfold with sized; unfold introset_sized, in_signed; split_and!; try done; cbn; try lia; by constructor.
Qed.
Lemma decode_message_sized fuel from relayed b m b' : length from = 32%nat -> DecodeMesssage ours rank0 port0 fuel from relayed b = Ok (Some m, b') -> dht_sized ours rank0 port0 m.
Proof.
  intros Hf. unfold DecodeMesssage. intros ([[ok st] b1] & E & E1)%rbind_inv. destruct ok; [|done]. destruct st as [first [body|]]; [|done]. injection E1 as <- _.
  split; [by destruct body|]. split; [done|]. cut (forall m, (first, Some body).2 = Some m -> body_sized m); [intros H; by apply H|].
  refine (read_dict_keeps (fun st : bool * option DhtMessage.body => forall m, st.2 = Some m -> body_sized m) _ _ _ _ _ _ _ _ _ E); [clear|done].
  intros [first st] key b ok [first' st'] b' Hst. unfold decoder_sink. cbn [fst snd] in *. destruct key as [key|]; [|by intros [= <- <- <- <-]]. destruct first.
  - destruct (negb _); [by intros [= <- <- <- <-]|]. intros ([str b1] & _ & E)%rbind_inv. destruct str as [str|]; [|by injection E as <- <- <- <-].
    destruct (negb _); [by injection E as <- <- <- <-|]. apply rbind_inv in E as (c & _ & E). destruct (make_body relayed c) as [m0|] eqn:Em; injection E as <- <- <- <-; [|done].
    intros m [= <-]. by eapply make_body_sized.
  - destruct st as [m0|]; [|done]. intros ([[ok1 m1] b1] & E & [= <- <- <- <-])%rbind_inv. intros m [= <-]. exact (body_kept fuel _ _ _ _ _ _ (Hst _ eq_refl) E).
Qed.
Lemma decode_list_sized fuel from relayed l b ok l' b' : length from = 32%nat -> Forall (dht_sized ours rank0 port0) l ->
  DecodeMesssageList ours rank0 port0 fuel from relayed l b = Ok (ok, l', b') -> Forall (dht_sized ours rank0 port0) l'.
Proof.
  intros Hf. unfold DecodeMesssageList. apply (list_sink_keeps (Forall (dht_sized ours rank0 port0))). intros l1 more b1 ok1 l2 b2 Hl. destruct more; [|by intros [= <- <- <-]].
  intros ([m b3] & E & E2)%rbind_inv. destruct m as [m|]; injection E2 as <- <- <-; [|done]. apply Forall_app. split; [done|]. constructor; [|done]. by eapply decode_message_sized.
Qed.
End contact_types.
