(* ===== verification/RoutingTypes.v ===== *)
(** * The types of decoded routing messages

    Whatever bytes a path carries, a message that is handed over has arrays of the sizes, and integers of
    the widths, that its C++ types fix. *)

From S2P Require Import Prelude Buffer Bencode Codec CryptoApi Str NetInt IpRange DnsName DnsMessage Contact TrafficPolicy Service Frame Protocol Kademlia DhtMessage Routing Typed.

(** ** Messages *)
Definition policy_sized (p : Policy.t) : Prop :=
  in_width 64 (Policy.proto p) /\ in_width 64 (Policy.port p) /\ in_width 64 (Policy.drop p) /\ in_width 64 (Policy.version p).
Definition frame_sized (f : ProtocolFrame.t) : Prop :=
  length (ProtocolFrame.C f) = PQCipherBlock /\ (length (ProtocolFrame.D f) <= service_proto_message_max_size)%nat /\ length (ProtocolFrame.N f) = 32%nat
  /\ length (ProtocolFrame.Z_ f) = 64%nat /\ length (ProtocolFrame.F f) = 16%nat /\ length (ProtocolFrame.T f) = 16%nat
  /\ in_width 64 (ProtocolFrame.R f) /\ in_width 64 (ProtocolFrame.S_ f) /\ in_width 64 (ProtocolFrame.version f).
(** [_size] is not read: only [PutBuffer] changes it. *)
Definition packets_sized (m : TransferTrafficMessage.t) : Prop :=
  Forall (fun x => length x <= TransferTrafficMessage.MaxExitMTU + TransferTrafficMessage.ExitOverhead)%nat (TransferTrafficMessage.X m)
  /\ in_width 64 (TransferTrafficMessage.protocol m) /\ in_width 64 (TransferTrafficMessage._size m) /\ in_width 64 (TransferTrafficMessage.S_ m)
  /\ in_width 64 (TransferTrafficMessage.version m).
Definition transfer_sized (m : PathTransferMessage.t) : Prop :=
  length (PathTransferMessage.P m) = 16%nat /\ length (PathTransferMessage.Y m) = 32%nat /\ frame_sized (PathTransferMessage.T m)
  /\ in_width 64 (PathTransferMessage.S_ m) /\ in_width 64 (PathTransferMessage.version m).
Definition discard_sized (m : DataDiscardMessage.t) : Prop :=
  length (DataDiscardMessage.P m) = 16%nat /\ in_width 64 (DataDiscardMessage.S_ m) /\ in_width 64 (DataDiscardMessage.version m).
Definition latency_sized (m : PathLatencyMessage.t) : Prop :=
  in_width 64 (PathLatencyMessage.T m) /\ in_width 64 (PathLatencyMessage.L m) /\ in_width 64 (PathLatencyMessage.S_ m) /\ in_width 64 (PathLatencyMessage.version m).
Definition confirm_sized (m : PathConfirmMessage.t) : Prop :=
  in_signed 64 (PathConfirmMessage.pathLifetime m) /\ in_signed 64 (PathConfirmMessage.pathCreated m) /\ in_width 64 (PathConfirmMessage.S_ m)
  /\ in_width 64 (PathConfirmMessage.version m).
Definition grant_sized (m : GrantExitMessage) : Prop :=
  length (gr_Y m) = 16%nat /\ length (gr_Z m) = 64%nat /\ in_width 64 (gr_T m) /\ in_width 64 (gr_S m) /\ in_width 64 (gr_version m).
Definition reject_sized (m : RejectExitMessage) : Prop :=
  length (re_Y m) = 16%nat /\ length (re_Z m) = 64%nat /\ Forall policy_sized (re_R m) /\ in_width 64 (re_B m) /\ in_width 64 (re_T m) /\ in_width 64 (re_S m)
  /\ in_width 64 (re_version m).
Definition obtain_sized (m : ObtainExitMessage) : Prop :=
  length (ob_I m) = 32%nat /\ length (ob_Z m) = 64%nat /\ Forall policy_sized (ob_B m) /\ Forall policy_sized (ob_W m) /\ in_width 64 (ob_E m) /\ in_width 64 (ob_T m)
  /\ in_width 64 (ob_X m) /\ in_width 64 (ob_S m) /\ in_width 64 (ob_version m).
Definition update_sized (m : UpdateExitMessage) : Prop :=
  length (up_P m) = 16%nat /\ length (up_Y m) = 16%nat /\ length (up_Z m) = 64%nat /\ in_width 64 (up_T m) /\ in_width 64 (up_S m) /\ in_width 64 (up_version m).
Definition close_sized (m : CloseExitMessage) : Prop :=
  length (cl_Y m) = 16%nat /\ length (cl_Z m) = 64%nat /\ in_width 64 (cl_S m) /\ in_width 64 (cl_version m).
Section sized_messages.
Context {IP : InetPton} {IN : InetNtop} {BT : OxencBt} {BD : OxencDict} (ours : list Z) (rank0 port0 : Z).
Definition dht_message_sized (m : DHTMessage) : Prop :=
  Forall (dht_sized ours rank0 port0) (dm_M m) /\ in_width 64 (dm_V m) /\ in_width 64 (dm_S m) /\ in_width 64 (dm_version m).
Definition message_sized (m : routing_message) : Prop :=
  match m with
  | RDiscard m => discard_sized m | RLatency m => latency_sized m | RDHT m => dht_message_sized m | RConfirm m => confirm_sized m | RTransfer m => transfer_sized m
  | RFrame m => frame_sized m | RTraffic m => packets_sized m | RGrant m => grant_sized m | RReject m => reject_sized m | RObtain m => obtain_sized m
  | RUpdate m => update_sized m | RClose m => close_sized m
  end.
Definition holder_sized (h : MessageHolder) : Prop := forall k, message_sized (held_message k h).
Definition parser_sized (p : InboundMessageParser) : Prop := in_width 64 (version p) /\ holder_sized (m_Holder p).
End sized_messages.
#[export] Hint Unfold policy_sized transfer_sized packets_sized discard_sized latency_sized confirm_sized grant_sized reject_sized obtain_sized update_sized close_sized
  dht_message_sized : sized.
Lemma policy_kept fuel : keeps_key policy_sized (Policy.DecodeKey fuel).
Proof. unfold Policy.DecodeKey. keep_step. Qed.
Lemma policy_decoded fuel b x b' : BDecode (BEncodable := Policy.bencodable) fuel b = Ok (Some x, b') -> policy_sized x.
Proof. by apply dict_bencodable_sized; [apply policy_kept|]. Qed.
Ltac policies := apply (maybe_list_keeps _ _ _ _ _ _ _ (policy_decoded _)); [done|sized|sized].
Lemma frame_kept fuel : keeps_key frame_sized (ProtocolFrame.DecodeKey fuel).
Proof.
  apply on_key_keeps; [|unfold frame_sized; keep_step]. intros m key b ok m' b' Hm. unfold ProtocolFrame.read_type. by intros ([str b1] & _ & [= _ <- _])%rbind_inv.
Qed.
Lemma transfer_kept fuel : keeps_key transfer_sized (PathTransferMessage.DecodeKey fuel).
Proof.
  apply return_read_keeps. repeat apply both_keeps; first [keep_step | apply (maybe_dict_keeps _ frame_sized); [apply frame_kept|sized|sized]].
Qed.
Lemma packets_kept fuel : keeps_key packets_sized (TransferTrafficMessage.DecodeKey fuel).
Proof.
  apply read_or_discard_keeps. repeat apply both_keeps; first [keep_step | apply (maybe_list_keeps _ _ _ _ _ _ _ (encrypted_sized _ fuel)); [cbn; lia|sized|sized]].
Qed.
Lemma discard_kept fuel : keeps_key discard_sized (DataDiscardMessage.DecodeKey fuel).
Proof. unfold DataDiscardMessage.DecodeKey. keep_step. Qed.
Lemma latency_kept fuel : keeps_key latency_sized (PathLatencyMessage.DecodeKey fuel).
Proof. unfold PathLatencyMessage.DecodeKey. keep_step. Qed.
Lemma confirm_kept fuel : keeps_key confirm_sized (PathConfirmMessage.DecodeKey fuel).
Proof. unfold PathConfirmMessage.DecodeKey. keep_step. Qed.
Lemma grant_kept fuel : keeps_key grant_sized (Grant_DecodeKey fuel).
Proof. unfold Grant_DecodeKey. keep_step. Qed.
Lemma reject_kept fuel : keeps_key reject_sized (Reject_DecodeKey fuel).
Proof. apply return_read_keeps. repeat apply both_keeps; first [keep_step|policies]. Qed.
Lemma obtain_kept fuel : keeps_key obtain_sized (Obtain_DecodeKey fuel).
Proof. apply return_read_keeps. repeat apply both_keeps; first [keep_step|policies]. Qed.
Lemma update_kept fuel : keeps_key update_sized (Update_DecodeKey fuel).
Proof. unfold Update_DecodeKey. keep_step. Qed.
Lemma close_kept fuel : keeps_key close_sized (Close_DecodeKey fuel).
Proof. unfold Close_DecodeKey. keep_step. Qed.

(** ** The parser *)
Section parser.
Context {IP : InetPton} {IN : InetNtop} {BT : OxencBt} {BD : OxencDict} (ours : list Z) (rank0 port0 : Z).
Abbreviation dht_message_sized := (dht_message_sized ours rank0 port0).
Abbreviation message_sized := (message_sized ours rank0 port0).
Abbreviation holder_sized := (holder_sized ours rank0 port0).
Abbreviation parser_sized := (parser_sized ours rank0 port0).
Lemma dht_kept fuel : keeps_key dht_message_sized (DHT_DecodeKey ours rank0 port0 fuel).
Proof.
  apply on_key_keeps; [|keep_step]. intros m key b ok m' b' (H1 & H2 & H3 & H4). intros ([[ok1 l] b1] & E & [= <- <- <-])%rbind_inv.
  split_and!; try done. by apply (decode_list_sized ours rank0 port0) in E.
Qed.
Lemma set_version_sized k v h : in_width 64 v -> holder_sized h -> holder_sized (set_version k v h).
Proof.
  intros Hv Hh k'. specialize (Hh k'). destruct k, k'; try exact Hh; cbn [held_message RoutingTypes.message_sized] in *; unfold frame_sized in *; sized.
Qed.
Lemma clear_sized k h : holder_sized h -> holder_sized (clear_held k h).
Proof.
  intros Hh k'. specialize (Hh k'). destruct k, k'; try exact Hh; cbn [held_message RoutingTypes.message_sized] in *; unfold frame_sized in *;
    autounfold with sized in *; unfold frame_sized in *; repeat match goal with H : _ /\ _ |- _ => destruct H end; repeat match goal with |- _ /\ _ => split end;
    first [assumption | solve [constructor] | done | apply Nat.leb_le; reflexivity].
Qed.
Lemma into_kept {M} (Q : M -> Prop) (dk : decode_key M) get set : keeps_key Q dk -> (forall h, holder_sized h -> Q (get h)) -> (forall h m, holder_sized h -> Q m -> holder_sized (set m h)) ->
  keeps_key holder_sized (into dk get set).
Proof. intros Hk Hg Hs h key b ok h' b' Hh. unfold into. intros ([[ok1 m] b1] & E & [= <- <- <-])%rbind_inv. apply Hs; [done|]. exact (Hk _ _ _ _ _ _ (Hg h Hh) E). Qed.
Lemma decode_held_kept fuel k : keeps_key holder_sized (decode_held ours rank0 port0 fuel k).
Proof.
  destruct k; cbn [decode_held];
    [eapply (into_kept _ _ _ _ (discard_kept fuel))|eapply (into_kept _ _ _ _ (latency_kept fuel))|eapply (into_kept _ _ _ _ (dht_kept fuel))|eapply (into_kept _ _ _ _ (confirm_kept fuel))
    |eapply (into_kept _ _ _ _ (transfer_kept fuel))|eapply (into_kept _ _ _ _ (frame_kept fuel))|eapply (into_kept _ _ _ _ (packets_kept fuel))|eapply (into_kept _ _ _ _ (grant_kept fuel))
    |eapply (into_kept _ _ _ _ (reject_kept fuel))|eapply (into_kept _ _ _ _ (obtain_kept fuel))|eapply (into_kept _ _ _ _ (update_kept fuel))|eapply (into_kept _ _ _ _ (close_kept fuel))];
    first [intros h Hh; solve [exact (Hh KD)|exact (Hh KL)|exact (Hh KM)|exact (Hh KP)|exact (Hh KT)|exact (Hh KH)|exact (Hh KI)|exact (Hh KG)|exact (Hh KJ)|exact (Hh KO)|exact (Hh KU)|exact (Hh KC)]
      | intros h m Hh Hm k'; specialize (Hh k'); destruct k'; first [exact Hh|exact Hm]].
Qed.
Lemma sink_kept fuel p key b ok p' b' : parser_sized p -> parser_sink ours rank0 port0 fuel p key b = Ok (ok, p', b') -> parser_sized p'.
Proof.
  intros [Hv Hp]. unfold parser_sink. destruct key as [key|]; [|by intros [= <- <- <-]]. destruct (firstKey p).
  - destruct (negb _); [by intros [= <- <- <-]|]. intros ([str b1] & _ & E)%rbind_inv. destruct str as [str|]; [|by injection E as <- <- <-].
    destruct (negb _); [by injection E as <- <- <-|]. apply rbind_inv in E as (c & _ & E). destruct (kind_of_letter c) as [k|]; injection E as <- <- <-; [|done].
    split; [done|by apply set_version_sized].
  - destruct (parsing p) as [k|]; [|done]. intros ([[ok1 h] b1] & E & [= <- <- <-])%rbind_inv. split; [done|]. exact (decode_held_kept fuel k _ _ _ _ _ _ Hp E).
Qed.
(** The version that is looked for first. *)
Lemma seek_width fuel k b ok v b' : BEncodeSeekDictVersion fuel 0 k b = Ok (ok, v, b') -> in_width 64 v.
Proof.
  unfold BEncodeSeekDictVersion. intros ([[ok1 v1] b1] & E & [= <- <- <-])%rbind_inv. refine (read_dict_keeps (in_width 64) _ _ _ _ _ _ _ _ _ E); [|done]. clear.
  intros v [key|] b ok v' b' Hv; [|by intros [= <- <- <-]]. intros (c & _ & E)%rbind_inv. destruct c.
  - apply rbind_inv in E as ([i b1] & E1 & E). destruct i as [i|]; injection E as <- <- <-; [by eapply read_integer_width|done].
  - apply rbind_inv in E as ([[ok1 u] b1] & _ & E). by injection E as <- <- <-.
Qed.

(** C29. Whatever the bytes are, a message that is handed over has arrays of the sizes and integers of the
    widths of their types, down to the contacts and introduction sets in messages of the DHT, and so have
    those that the parser keeps for the next message. *)
Theorem routing_messages_typed {W : Type} (handle : list Z -> routing_message -> W -> res (bool * W)) fuel buf from p w result p' w' :
  parser_sized p -> ParseMessageBuffer ours rank0 port0 handle fuel buf from p w = Ok (result, p', w') ->
  parser_sized p' /\ (w' = w \/ exists m, message_sized m /\ handle from m w = Ok (result, w')).
Proof.
  intros [Hv Hp]. unfold ParseMessageBuffer. intros ([[ok v] b] & E0 & E)%rbind_inv. apply seek_width in E0.
  match type of E with context [bencode_read_dict fuel _ ?q b] => set (p1 := q) in * end. assert (parser_sized p1) as Hp1 by (unfold p1; by destruct ok).
  apply rbind_inv in E as ([[ok2 p2] b2] & E2 & E). pose proof (read_dict_keeps parser_sized _ _ _ _ _ _ _ (sink_kept fuel) Hp1 E2) as [Hv2 Hp2].
  apply rbind_inv in E as ([r w2] & E3 & [= <- <- <-]). split.
  - split; [by destruct (parsing p2)|]. destruct (parsing p2) as [k|]; [|exact Hp2]. by apply (clear_sized k).
  - destruct ok2; [|injection E3 as <- <-; by left]. destruct (parsing p2) as [k|]; [|done]. right. exists (held_message k (m_Holder p2)). split; [apply Hp2|exact E3].
Qed.
End parser.
Lemma parser_init_sized ours : parser_sized ours 0 0 parser_init.
Proof.
  split; [done|]. intros k. destruct k; unfold message_sized; cbn [held_message]; autounfold with sized; unfold frame_sized; split_and!;
    first [apply Nat.leb_le; reflexivity | by constructor | done].
Qed.
(** A message whose array has a size that is not the one of its type is refused. *)
Definition short_path : list Z := chars "d1:A1:D1:P3:abc1:Si0ee".
Lemma routing_messages_typed_witness : exists p', ParseMessageBuffer (IP := pton_dec) (IN := ntop_dec) (BT := bt_none) (zeros 32) 0 0 hand_over 64 short_path (zeros 16) parser_init [] = Ok (false, p', [])
  /\ parser_sized (zeros 32) 0 0 p'.
Proof.
  destruct (ParseMessageBuffer (IP := pton_dec) (IN := ntop_dec) (BT := bt_none) (zeros 32) 0 0 hand_over 64 short_path (zeros 16) parser_init []) as [[[r p'] w']| | |] eqn:E;
    try (vm_compute in E; discriminate).
  destruct (routing_messages_typed (IP := pton_dec) (IN := ntop_dec) (BT := bt_none) (zeros 32) 0 0 hand_over 64 short_path (zeros 16) parser_init [] r p' w' (parser_init_sized _) E) as [Hs _].
  exists p'. split; [|exact Hs]. vm_compute in E. injection E as <- <- <-. reflexivity.
Defined.
