(* ===== verification/Auth.v ===== *)
(** * Who may open a conversation (llarp/service/auth.cpp, Crypto::check_passwd_hash)

    The answers an authentication has, their names and numbers, and the policy that looks the token of a
    client up in files. Reading past the pieces of a line is [Oob]. *)

From S2P Require Import Prelude Buffer Bencode Codec Str IpRange Contact Service Protocol.

(** ** Answers *)
Inductive AuthResultCode := eAuthAccepted | eAuthRejected | eAuthFailed | eAuthRateLimit | eAuthPaymentRequired.
#[export] Instance code_eq_dec : EqDecision AuthResultCode.
Proof. solve_decision. Defined.
Inductive AuthType := eAuthTypeNone | eAuthTypeWhitelist | eAuthTypeLMQ | eAuthTypeFile.
Inductive AuthFileType := eAuthFilePlain | eAuthFileHashes.
Record AuthResult := MkAuthResult { code : AuthResultCode; reason : list Z }.
Definition find_name {A} (data : list Z) (values : list (list Z * A)) : option A :=
  snd <$> List.find (fun '(k, _) => bool_decide (k = data)) values.
Definition ParseAuthResultCode (data : list Z) : option AuthResultCode :=
  find_name data [(chars "OKAY", eAuthAccepted); (chars "REJECT", eAuthRejected); (chars "PAYME", eAuthPaymentRequired); (chars "LIMITED", eAuthRateLimit)].
Definition ParseAuthType (data : list Z) : res AuthType :=
  match find_name data [(chars "file", eAuthTypeFile); (chars "lmq", eAuthTypeLMQ); (chars "whitelist", eAuthTypeWhitelist); (chars "none", eAuthTypeNone)] with
  | Some t => Ok t
  | None => Throw
  end.
(** With and without the library that hashes passwords. *)
Definition ParseAuthFileType (HAVE_CRYPT : bool) (data : list Z) : res AuthFileType :=
  match find_name data [(chars "plain", eAuthFilePlain); (chars "plaintext", eAuthFilePlain); (chars "hashed", eAuthFileHashes);
                        (chars "hashes", eAuthFileHashes); (chars "hash", eAuthFileHashes)] with
  | None => Throw
  | Some t => if negb HAVE_CRYPT && match t with eAuthFileHashes => true | eAuthFilePlain => false end then Throw else Ok t
  end.
Definition AuthResultCodeAsInt (c : AuthResultCode) : Z :=
  match c with eAuthAccepted => 0 | eAuthRejected => 1 | eAuthFailed => 2 | eAuthRateLimit => 3 | eAuthPaymentRequired => 4 end.
Definition AuthResultCodeFromInt (n : Z) : option AuthResultCode :=
  if n =? 0 then Some eAuthAccepted else if n =? 1 then Some eAuthRejected else if n =? 2 then Some eAuthFailed
  else if n =? 3 then Some eAuthRateLimit else if n =? 4 then Some eAuthPaymentRequired else None.

(** ** Hashed passwords: [crypt_r] of a password and the settings of a hash; without the library nothing matches *)
Class Crypt := crypt_r : option (list Z -> list Z -> option (list Z)).
Definition c_dollar : Z := 36.
Definition check_passwd_hash {CY : Crypt} (pwhash challenge : list Z) : bool :=
  match crypt_r with
  | None => false
  | Some crypt =>
      let settings := match find_last_not (fun c => negb (c =? c_dollar)) pwhash with Some pos => take pos pwhash | None => pwhash end in
      match crypt (c_str challenge) (c_str settings) with Some h => bool_decide (h = pwhash) | None => false end
  end.

(** ** Tokens in files *)
Module FileAuthPolicy.
(** A file that cannot be opened has no lines. *)
Record t := Mk { m_Files : list (option (list Z)); m_Type : AuthFileType; m_Pending : gset (list Z) }.
#[export] Instance eta_t : Eta t := fun p => Mk (m_Files p) (m_Type p) (m_Pending p).
(** What [std::getline] gives, line after line. *)
Definition lines (contents : list Z) : list (list Z) :=
  let l := split contents [10] false in
  match last l with Some [] => removelast l | _ => l end.
Section checks.
Context {CY : Crypt}.
Definition CheckPasswd (p : t) (hash challenge : list Z) : bool :=
  match m_Type p with
  | eAuthFilePlain => bool_decide (hash = challenge)
  | eAuthFileHashes => check_passwd_hash hash challenge
  end.
(** The first piece is read before the pieces are counted. *)
Definition check_line (p : t) (token line : list Z) : res bool :=
  match split_any line [35; 59] true with
  | [] => Oob
  | part :: _ => Ok (match part with [] => false | _ => CheckPasswd p (TrimWhitespace part) token end)
  end.
Fixpoint check_lines (p : t) (token : list Z) (ls : list (list Z)) : res bool :=
  match ls with
  | [] => Ok false
  | line :: ls => let* ok := check_line p token line in if ok : bool then Ok true else check_lines p token ls
  end.
Fixpoint check_files (p : t) (token : list Z) (fs : list (option (list Z))) : res bool :=
  match fs with
  | [] => Ok false
  | f :: fs =>
      let* ok := check_lines p token (match f with Some c => lines c | None => [] end) in
      if ok : bool then Ok true else check_files p token fs
  end.
Definition CheckFiles (token : list Z) (p : t) : res AuthResult :=
  let* ok := check_files p token (m_Files p) in
  Ok (if ok : bool then MkAuthResult eAuthAccepted (chars "accepted by whitelist") else MkAuthResult eAuthRejected (chars "rejected by whitelist")).
Definition AsyncAuthPending (tag : list Z) (p : t) : bool := bool_decide (tag ∈ m_Pending p).
(** The conversation is pending until [reply]. *)
Definition AuthenticateAsync (msg : ProtocolMessage.t) (p : t) : t := p <| m_Pending ::= fun s => {[ProtocolMessage.tag msg]} ∪ s |>.
Definition answer (msg : ProtocolMessage.t) (p : t) : res AuthResult :=
  if ProtocolMessage.proto msg =? ProtocolType.Auth then CheckFiles (ProtocolMessage.payload msg) p
  else Ok (MkAuthResult eAuthRejected (chars "protocol error")).
Definition reply (tag : list Z) (p : t) : t := p <| m_Pending ::= fun s => s ∖ {[tag]} |>.
End checks.
End FileAuthPolicy.
#[export] Existing Instance FileAuthPolicy.eta_t.

(** ** What the files decide *)
Module FileAuthSpec.
Import FileAuthPolicy.
Abbreviation delims := [35; 59].
(** A line up to its comment. *)
Definition uncommented (line : list Z) : list Z :=
  match find_first_not (fun c => negb (one_of delims c)) line with Some n => take n line | None => line end.
Lemma split_any_loop_head fuel : forall str d x acc, exists r s, split_any_loop fuel str d true (x :: acc) = (x :: r, s).
Proof.
  induction fuel as [|fuel IH]; intros str d x acc; cbn [split_any_loop]; [eauto|]. destruct (find_first_not _ str) as [pos|]; [|eauto].
  cbn [length negb orb app Nat.eqb]. apply IH.
Qed.
(** The pieces start with the text before the comment, if the line starts with text. *)
Lemma split_any_head c line : one_of delims c = false -> exists r, split_any (c :: line) delims true = uncommented (c :: line) :: r.
Proof.
  intros Hc. unfold split_any, uncommented. cbn [split_any_loop]. set (o := find_first_not _ (c :: line)).
  destruct o as [pos|] eqn:E; [|by exists []].
  unfold o in E. cbn [find_first_not] in E. rewrite Hc in E. cbn [negb] in E. apply fmap_Some in E as (k & _ & ->). change (0 <? S k)%nat with true. rewrite orb_true_r. cbn [app].
  match goal with |- context [split_any_loop ?f ?s ?d true [?x]] => destruct (split_any_loop_head f s d x []) as (r & s' & ->) end.
  cbn [length take]. destruct (0 <? length s')%nat; [eauto|]. cbn [rev]. rewrite drop_empty_app_ne by done. rewrite rev_app_distr. cbn. eauto.
Qed.
Definition has_text (line : list Z) : Prop := exists c r, line = c :: r /\ one_of delims c = false.
Definition file_lines (f : option (list Z)) : list (list Z) := match f with Some c => lines c | None => [] end.
Section spec.
Context {CY : Crypt}.
Definition passes (p : t) (token line : list Z) : bool := CheckPasswd p (TrimWhitespace (uncommented line)) token.
Lemma check_line_run p token line : has_text line -> check_line p token line = Ok (passes p token line).
Proof.
  intros (c & r & -> & Hc). unfold check_line, passes. destruct (split_any_head c r Hc) as [r' ->]. f_equal.
  assert (uncommented (c :: r) <> []) as Hn by (unfold uncommented; cbn [find_first_not]; rewrite Hc; cbn [negb]; by destruct (find_first_not _ r)).
  by destruct (uncommented (c :: r)).
Qed.
Lemma check_lines_run p token ls : Forall has_text ls -> check_lines p token ls = Ok (existsb (passes p token) ls).
Proof.
  induction 1 as [|l ls Hl _ IH]; [done|]. cbn [check_lines existsb]. rewrite check_line_run by done. cbn [rbind]. by destruct (passes p token l).
Qed.
Lemma check_files_run p token fs : Forall has_text (concat (file_lines <$> fs)) -> check_files p token fs = Ok (existsb (passes p token) (concat (file_lines <$> fs))).
Proof.
  induction fs as [|f fs IH]; [done|]. cbn [check_files fmap list_fmap concat]. intros [H1 H2]%Forall_app. change (match f with Some c => lines c | None => [] end) with (file_lines f).
  rewrite check_lines_run by done. cbn [rbind]. rewrite IH, existsb_app by done. by destruct (existsb (passes p token) (file_lines f)).
Qed.

(** Where each line of the files starts with text, a client is let in exactly if its message is an
    authentication and a line, without its comment and the white space around it, matches the token. *)
Theorem auth_files_decide (p : t) (msg : ProtocolMessage.t) :
  Forall has_text (concat (file_lines <$> m_Files p)) ->
  exists r, answer msg p = Ok r /\ (code r = eAuthAccepted \/ code r = eAuthRejected)
    /\ (code r = eAuthAccepted <-> ProtocolMessage.proto msg = ProtocolType.Auth
          /\ exists f line, f ∈ m_Files p /\ line ∈ file_lines f /\ CheckPasswd p (TrimWhitespace (uncommented line)) (ProtocolMessage.payload msg) = true).
Proof.
  intros H. unfold answer, CheckFiles. destruct (Z.eqb_spec (ProtocolMessage.proto msg) ProtocolType.Auth) as [Ha|Ha].
  2: { eexists. split_and!; [done|by right|]. split; [done|]. intros [? _]. done. }
  rewrite check_files_run by done. cbn [rbind]. destruct (existsb _ _) eqn:E; (eexists; split_and!; [done|cbn; auto|]); split; cbn; try done.
  - intros _. split; [done|]. apply existsb_exists in E as (line & Hin & Hp). apply in_concat in Hin as (ls & Hls & Hl).
    apply list_elem_of_In, list_elem_of_fmap in Hls as (f & -> & Hf). apply list_elem_of_In in Hl. eauto.
  - intros [_ (f & line & Hf & Hl & Hp)]. exfalso. revert E. apply not_false_iff_true. apply existsb_exists. exists line. split; [|done].
    apply in_concat. exists (file_lines f). split; apply list_elem_of_In; [|done]. by apply list_elem_of_fmap_2.
Qed.

(** Text after a comment sign at the start of a line still lets in who sends it, and a line without
    any text is read out of bounds. *)
Theorem auth_files_comments (token : list Z) (msg : ProtocolMessage.t) (fs : list (option (list Z))) (pending : gset (list Z)) :
  ProtocolMessage.proto msg = ProtocolType.Auth -> ProtocolMessage.payload msg = token -> token <> [] -> Forall (fun c => one_of delims c = false) token ->
  TrimWhitespace token = token -> 10 ∉ token ->
  (exists r, answer msg (Mk (Some (35 :: token) :: fs) eAuthFilePlain pending) = Ok r /\ code r = eAuthAccepted)
  /\ answer msg (Mk (Some [10] :: fs) eAuthFilePlain pending) = Oob
  /\ answer msg (Mk (Some [35; 10] :: fs) eAuthFilePlain pending) = Oob.
Proof.
  intros Hp <- Hne Hd Ht Hnl. set (token := ProtocolMessage.payload msg) in *. unfold answer. rewrite Hp, Z.eqb_refl. split_and!; [|done..].
  assert (lines (35 :: token) = [35 :: token]) as El.
  { unfold lines. rewrite split_one; [done|]. intros [?|?]%elem_of_cons; done. }
  assert (find_first_not (fun c => negb (one_of delims c)) token = None) as En.
  { clear -Hd. induction Hd as [|c l Hc _ IH]; [done|]. cbn [find_first_not]. rewrite Hc, IH. done. }
  assert (split_any (35 :: token) delims true = [token]) as Es.
  { destruct token as [|c l]; [done|]. inversion Hd as [|? ? Hc _]; subst. unfold split_any. cbn [split_any_loop length find_first_not]. 
    change (one_of delims 35) with true. cbn [negb drop Nat.add length Nat.eqb orb Nat.ltb Nat.leb find_first_not]. rewrite Hc. cbn [drop]. rewrite En. done. }
  exists (MkAuthResult eAuthAccepted (chars "accepted by whitelist")). split; [|done]. unfold CheckFiles. cbn [m_Files check_files]. rewrite El. cbn [check_lines].
  unfold check_line. rewrite Es. destruct token as [|c l] eqn:E; [done|]. rewrite <- E in *. cbn [rbind]. unfold CheckPasswd. cbn [m_Type]. rewrite Ht, bool_decide_true by done. done.
Qed.
End spec.
End FileAuthSpec.

(** ** Witnesses *)
Definition no_crypt : Crypt := None.
Definition auth_ref (token : list Z) : ProtocolMessage.t :=
  ProtocolMessage.PutBuffer token (ProtocolMessage.Mk ProtocolType.Auth [] Introduction.empty ServiceInfo.empty (zeros 16) 0 0).
Definition whitelist_ref : FileAuthPolicy.t := FileAuthPolicy.Mk [None; Some (chars "hunter2 # of alice" ++ [10] ++ chars "  swordfish;old")] eAuthFilePlain ∅.
Lemma auth_files_decide_witness : exists r, FileAuthPolicy.answer (CY := no_crypt) (auth_ref (chars "swordfish")) whitelist_ref = Ok r /\ code r = eAuthAccepted.
Proof.
  destruct (FileAuthSpec.auth_files_decide (CY := no_crypt) whitelist_ref (auth_ref (chars "swordfish"))) as (r & E & _ & H).
  - vm_compute. repeat constructor; eexists _, _; (split; [reflexivity|reflexivity]).
  - exists r. split; [exact E|]. apply H. split; [reflexivity|]. eexists _, (chars "  swordfish;old").
    split; [right; left|]. split; [vm_compute; right; left|reflexivity].
Defined.
Lemma auth_files_comments_witness : exists r, FileAuthPolicy.answer (CY := no_crypt) (auth_ref (chars "secret")) (FileAuthPolicy.Mk [Some (chars "#secret")] eAuthFilePlain ∅) = Ok r
  /\ code r = eAuthAccepted.
Proof.
  apply (FileAuthSpec.auth_files_comments (CY := no_crypt) (chars "secret") (auth_ref (chars "secret")) [] ∅); try reflexivity; try discriminate.
  - repeat constructor.
  - cbn. rewrite !elem_of_cons. intros H. repeat (destruct H as [H|H]; [discriminate|]). inversion H.
Defined.
