(* ===== verification/Conversation.v ===== *)
(** * Conversations between hidden services (llarp/service/session.cpp, endpoint.cpp, protocol.cpp, async_key_exchange.cpp)

    An endpoint keeps a session for the tag of each conversation: the keys of the other service, the
    session key, and where the replies go. The first frame of a conversation carries the key exchange;
    the later ones are checked and decrypted with what the session has. The jobs that the code hands to
    worker threads and to the loop are functions here, run one after the other. *)

From S2P Require Import Prelude Buffer Bencode Codec CryptoApi Str NetInt IpRange DnsMessage Contact TrafficPolicy Service Frame Protocol Routing Auth.
#[local] Existing Instances ProtocolMessage.eta_t Identity.eta_t Introduction.eta_t ServiceInfo.eta_t.

(** ** Sessions *)
Module Session.
Definition SessionLifetime : Z := default_lifetime * 2.
Record t := Mk { replyIntro : Introduction.t; sharedKey : list Z; remote : ServiceInfo.t; intro : Introduction.t; seqno : Z; messagesSend : Z; messagesRecv : Z;
  inbound : bool; forever : bool; lastSend : Z; lastRecv : Z }.
#[export] Instance eta_t : Eta t := fun s =>
  Mk (replyIntro s) (sharedKey s) (remote s) (intro s) (seqno s) (messagesSend s) (messagesRecv s) (inbound s) (forever s) (lastSend s) (lastRecv s).
Definition empty : t := Mk Introduction.empty (zeros 32) ServiceInfo.empty Introduction.empty 0 0 0 false false 0 0.
Definition Addr (s : t) : list Z := (ServiceInfo.Addr (remote s)).1.
Definition IsExpired (now lifetime : Z) (s : t) : bool :=
  if forever s then false
  else
    let lastUsed := Z.max (lastSend s) (lastRecv s) in
    if lastUsed =? 0 then Introduction.IsExpired now (intro s)
    else (lastUsed <=? now) && (lifetime <? now - lastUsed).
Definition TX (now : Z) (s : t) : t := s <| messagesSend := u64 (messagesSend s + 1) |> <| lastSend := now |>.
Definition RX (now : Z) (s : t) : t := s <| messagesRecv := u64 (messagesRecv s + 1) |> <| lastRecv := now |>.
End Session.
#[export] Existing Instance Session.eta_t.

(** What the code uses of a path: the router where it ends, and how that end is introduced. *)
Record PathRef := MkPath { p_Endpoint : list Z; p_intro : Introduction.t; p_ready : bool }.
Definition SendEvent := (PathTransferMessage.t * PathRef)%type.
Record RecvDataEvent := MkRecv { fromPath : PathRef; pathid : list Z; ev_msg : ProtocolMessage.t }.
(** [tryPushBack] on a queue of [512] places. *)
Definition try_push {A} (x : A) (q : list A) : list A := if (512 <=? length q)%nat then q else q ++ [x].

(** [PendingBuffer] *)
Record PendingBuffer := MkPending { pb_payload : list Z; pb_protocol : Z }.
Record Endpoint := MkEndpoint {
  Sessions : gmap (list Z) Session.t; m_OutboundSessions : gset (list Z); m_ExitEnabled : bool; m_ExitMap : list (IPRange * list Z); m_Identity : Identity.t;
  m_AuthPolicy : option FileAuthPolicy.t; m_RemoteAuthInfos : gmap (list Z) (list Z); m_PendingTraffic : gmap (list Z) (list PendingBuffer);
  m_RecvQueue : list RecvDataEvent; m_SendQueue : list SendEvent; m_InboundTrafficQueue : list ProtocolMessage.t }.
#[export] Instance eta_Endpoint : Eta Endpoint := fun e =>
  MkEndpoint (Sessions e) (m_OutboundSessions e) (m_ExitEnabled e) (m_ExitMap e) (m_Identity e) (m_AuthPolicy e) (m_RemoteAuthInfos e) (m_PendingTraffic e)
    (m_RecvQueue e) (m_SendQueue e) (m_InboundTrafficQueue e).

(** ** The table of sessions *)
Definition HasConvoTag (t : list Z) (e : Endpoint) : bool := bool_decide (is_Some (Sessions e !! t)).
Definition HasInboundConvo (addr : list Z) (e : Endpoint) : bool :=
  existsb (fun '(_, s) => bool_decide (Session.Addr s = addr) && Session.inbound s) (map_to_list (Sessions e)).
Definition HasOutboundConvo (addr : list Z) (e : Endpoint) : bool :=
  existsb (fun '(_, s) => bool_decide (Session.Addr s = addr) && negb (Session.inbound s)) (map_to_list (Sessions e)).
Definition HasFlowToService (addr : list Z) (e : Endpoint) : bool := HasOutboundConvo addr e || HasInboundConvo addr e.
Definition MarkAddressOutbound (addr : list Z) (e : Endpoint) : Endpoint := e <| m_OutboundSessions ::= fun s => {[addr]} ∪ s |>.
Definition WantsOutboundSession (addr : list Z) (e : Endpoint) : bool := bool_decide (addr ∈ m_OutboundSessions e).
Definition PutSenderFor (tag : list Z) (info : ServiceInfo.t) (inbound : bool) (e : Endpoint) : Endpoint :=
  let (addr, info) := ServiceInfo.Addr info in
  if is_zero addr then e
  else match Sessions e !! tag with
       | Some _ => e
       | None =>
           if WantsOutboundSession addr e && inbound then e
           else e <| Sessions ::= <[tag := Session.empty <| Session.inbound := inbound |> <| Session.remote := info |>]> |>
       end.
Definition RemoveAllConvoTagsFor (remote : list Z) (e : Endpoint) : nat * Endpoint :=
  let kept := filter (fun '(_, s) => Session.Addr s <> remote) (Sessions e) in
  ((size (Sessions e) - size kept)%nat, e <| Sessions := kept |>).
Definition GetSenderFor (tag : list Z) (e : Endpoint) : option ServiceInfo.t := ServiceInfo.UpdateAddr <$> (Session.remote <$> Sessions e !! tag).
(** [Sessions()[tag]] makes a session where there is none. *)
Definition PutIntroFor (tag : list Z) (i : Introduction.t) (e : Endpoint) : Endpoint :=
  e <| Sessions ::= fun m => <[tag := (default Session.empty (m !! tag)) <| Session.intro := i |>]> m |>.
Definition GetIntroFor (tag : list Z) (e : Endpoint) : option Introduction.t := Session.intro <$> Sessions e !! tag.
Definition PutReplyIntroFor (tag : list Z) (i : Introduction.t) (e : Endpoint) : Endpoint :=
  e <| Sessions ::= alter (fun s => s <| Session.replyIntro := i |>) tag |>.
Definition GetReplyIntroFor (tag : list Z) (e : Endpoint) : option Introduction.t := Session.replyIntro <$> Sessions e !! tag.
Definition GetConvoTagsForService (addr : list Z) (e : Endpoint) (tags : gset (list Z)) : bool * gset (list Z) :=
  let found : gset (list Z) := dom (filter (fun '(_, s) => Session.Addr s = addr) (Sessions e)) in
  (bool_decide (found ⊈ tags), found ∪ tags).
Definition GetCachedSessionKeyFor (tag : list Z) (e : Endpoint) : option (list Z) := Session.sharedKey <$> Sessions e !! tag.
Definition PutCachedSessionKeyFor (tag k : list Z) (e : Endpoint) : Endpoint :=
  e <| Sessions ::= fun m => <[tag := (default Session.empty (m !! tag)) <| Session.sharedKey := k |>]> m |>.
Definition ConvoTagTX (now : Z) (tag : list Z) (e : Endpoint) : Endpoint := e <| Sessions ::= alter (Session.TX now) tag |>.
Definition ConvoTagRX (now : Z) (tag : list Z) (e : Endpoint) : Endpoint := e <| Sessions ::= alter (Session.RX now) tag |>.
Definition RemoveConvoTag (tag : list Z) (e : Endpoint) : Endpoint := e <| Sessions ::= delete tag |>.
Definition GetSeqNoForConvo (tag : list Z) (e : Endpoint) : option Z * Endpoint :=
  (Session.seqno <$> Sessions e !! tag, e <| Sessions ::= alter (fun s => s <| Session.seqno := u64 (Session.seqno s + 1) |>) tag |>).
(** [EndpointUtil::ExpireConvoSessions] *)
Definition ExpireConvoSessions (now : Z) (e : Endpoint) : Endpoint :=
  e <| Sessions ::= filter (fun '(_, s) => Session.IsExpired now Session.SessionLifetime s = false) |>.
Definition ContainsValue (addr : list Z) (m : list (IPRange * list Z)) : bool := existsb (fun x => bool_decide (x.2 = addr)) m.

Definition SetAuthInfoForEndpoint (addr token : list Z) (e : Endpoint) : Endpoint :=
  e <| m_RemoteAuthInfos ::= fun m => match token with [] => delete addr m | _ => <[addr := token]> m end |>.
Definition MaybeGetAuthInfoForEndpoint (remote : list Z) (e : Endpoint) : option (list Z) := m_RemoteAuthInfos e !! remote.

(** ** Messages of a conversation *)
Definition ProcessDataMessage (msg : ProtocolMessage.t) (e : Endpoint) : bool * Endpoint :=
  let proto := ProtocolMessage.proto msg in
  if ((proto =? ProtocolType.Exit) && (m_ExitEnabled e || ContainsValue (ServiceInfo.Addr (ProtocolMessage.sender msg)).1 (m_ExitMap e)))
     || (proto =? ProtocolType.TrafficV4) || (proto =? ProtocolType.TrafficV6)
  then (true, e <| m_InboundTrafficQueue ::= try_push msg |>)
  else (proto =? ProtocolType.Control, e).
Definition HandleDataMessage (now : Z) (p : PathRef) (from : list Z) (msg : ProtocolMessage.t) (e : Endpoint) : bool * Endpoint :=
  let tag := ProtocolMessage.tag msg in
  let e := PutSenderFor tag (ProtocolMessage.sender msg) true e in
  let msg := msg <| ProtocolMessage.sender ::= ServiceInfo.UpdateAddr |> in
  let intro := ProtocolMessage.introReply msg in
  let intro := if HasInboundConvo (ServiceInfo.Addr (ProtocolMessage.sender msg)).1 e
               then intro <| Introduction.pathID := from |> <| Introduction.router := p_Endpoint p |> else intro in
  let e := ConvoTagRX now tag (PutReplyIntroFor tag intro e) in
  ProcessDataMessage msg e.
Definition QueueRecvData (ev : RecvDataEvent) (e : Endpoint) : Endpoint := e <| m_RecvQueue ::= try_push ev |>.
Definition FlushRecvData (now : Z) (e : Endpoint) : Endpoint :=
  foldl (fun e ev => (HandleDataMessage now (fromPath ev) (pathid ev) (ev_msg ev) e).2) (e <| m_RecvQueue := [] |>) (m_RecvQueue e).

Section frames.
Context {UN : Uninit} {CR : Crypto} {KP : KeyPairs} {PQ : Pqe} {SH : ShortHasher} {CY : Crypt}.

(** *** The answer to an authentication *)
Definition RemovePending (tag : list Z) (e : Endpoint) : Endpoint := e <| m_AuthPolicy ::= fmap (FileAuthPolicy.reply tag) |>.
(** What the hook is called with, when the job has run. *)
Inductive auth_job := no_attempt | accepted_at_once | attempt (msg : ProtocolMessage.t).
Definition AsyncProcessAuthMessage (msg : ProtocolMessage.t) (e : Endpoint) : auth_job * Endpoint :=
  match m_AuthPolicy e with
  | Some p =>
      if FileAuthPolicy.AsyncAuthPending (ProtocolMessage.tag msg) p then (no_attempt, e)
      else (attempt msg, e <| m_AuthPolicy := Some (FileAuthPolicy.AuthenticateAsync msg p) |>)
  | None => (accepted_at_once, e)
  end.
Definition run_auth (j : auth_job) (e : Endpoint) : res (option AuthResult * Endpoint) :=
  match j with
  | no_attempt => Ok (None, e)
  | accepted_at_once => Ok (Some (MkAuthResult eAuthAccepted (chars "OK")), e)
  | attempt msg =>
      match m_AuthPolicy e with
      | Some p => let* r := FileAuthPolicy.answer msg p in Ok (Some r, RemovePending (ProtocolMessage.tag msg) e)
      | None => Ok (None, e)
      end
  end.
(** [nonce] and [y] are drawn. *)
Definition SendAuthResult (nonce y : list Z) (path : PathRef) (replyPath tag : list Z) (result : AuthResult) (e : Endpoint) : res Endpoint :=
  if negb (m_ExitEnabled e) || match m_AuthPolicy e with None => true | Some _ => false end then Ok e
  else
    let f := ProtocolFrame.empty <| ProtocolFrame.R := AuthResultCodeAsInt (code result) |> <| ProtocolFrame.T := tag |>
               <| ProtocolFrame.F := Introduction.pathID (p_intro path) |> <| ProtocolFrame.N := nonce |> in
    let push f := e <| m_SendQueue ::= try_push (PathTransferMessage.make f replyPath y, path) |> in
    if bool_decide (code result = eAuthAccepted) then
      match GetReplyIntroFor tag e, GetCachedSessionKeyFor tag e with
      | Some i, Some sessionKey =>
          let msg := (ProtocolMessage.PutBuffer (reason result) ProtocolMessage.empty) <| ProtocolMessage.proto := ProtocolType.Auth |>
                       <| ProtocolMessage.introReply := i |> <| ProtocolMessage.sender := Identity.pub (m_Identity e) |> in
          let* (ok, f) := ProtocolFrame.EncryptAndSign msg sessionKey (m_Identity e) f in
          Ok (if ok : bool then push f else e)
      | _, _ => Ok e
      end
    else
      let* (ok, f) := ProtocolFrame.Sign (m_Identity e) f in
      Ok (if ok : bool then push f else e).
Definition ResetConvoTag (y tag : list Z) (p : PathRef) (from : list Z) (e : Endpoint) : res Endpoint :=
  let f := ProtocolFrame.empty <| ProtocolFrame.R := 1 |> <| ProtocolFrame.T := tag |> <| ProtocolFrame.F := Introduction.pathID (p_intro p) |> in
  let* (_, f) := ProtocolFrame.Sign (m_Identity e) f in
  Ok ((RemoveConvoTag tag e) <| m_SendQueue ::= try_push (PathTransferMessage.make f from y, p) |>).

(** *** The first frame of a conversation: [AsyncFrameDecrypt::Work], up to the questions to the policy *)
Definition session_key (K sharedSecret : list Z) : list Z := shorthash (K ++ sharedSecret).
Definition Work (fuel : nat) (frame : ProtocolFrame.t) (e : Endpoint) : res (option (list Z * list ProtocolMessage.t)) :=
  let self := m_Identity e in
  match pqe_decrypt (ProtocolFrame.C frame) (pq_keypair_to_secret (Identity.pq self)) with
  | None => Ok None
  | Some K =>
      let* (ok, msgs) := ProtocolFrame.DecryptPayloadInto fuel K frame in
      if negb ok then Ok None
      else match msgs with
           | [] => Oob
           | msg :: _ =>
               let sender := ProtocolMessage.sender msg in
               let* good := ProtocolFrame.Verify sender frame in
               if negb good || HasConvoTag (ProtocolMessage.tag msg) e then Ok None
               else Ok ((fun sharedSecret => (session_key K sharedSecret, msgs)) <$> Identity.KeyExchange dh_server sender (ProtocolFrame.N frame) self)
           end
  end.
(** The hook of a message that is let in, on the loop. *)
Definition auth_accepted (now : Z) (nonce y : list Z) (path : PathRef) (from sharedKey : list Z) (msg : ProtocolMessage.t) (result : AuthResult) (e : Endpoint)
  : res Endpoint :=
  if bool_decide (code result = eAuthAccepted) then
    let tag := ProtocolMessage.tag msg in
    let (addr, sender) := ServiceInfo.Addr (ProtocolMessage.sender msg) in
    let e := PutSenderFor tag sender (negb (WantsOutboundSession addr e)) e in
    let e := PutCachedSessionKeyFor tag sharedKey (PutReplyIntroFor tag (ProtocolMessage.introReply msg) e) in
    let* e := SendAuthResult nonce y path from tag result e in
    Ok (HandleDataMessage now path from (msg <| ProtocolMessage.sender := sender |>) e).2
  else Ok e.
Fixpoint ask_all (msgs : list ProtocolMessage.t) (e : Endpoint) : list auth_job * Endpoint :=
  match msgs with
  | [] => ([], e)
  | msg :: msgs => let (j, e) := AsyncProcessAuthMessage msg e in let (js, e) := ask_all msgs e in (j :: js, e)
  end.
(** The hooks run in the order of the messages; [rnd] is what each draws. *)
Fixpoint answer_all (now : Z) (rnd : nat -> list Z * list Z) (path : PathRef) (from sharedKey : list Z) (l : list (ProtocolMessage.t * auth_job)) (e : Endpoint) : res Endpoint :=
  match l with
  | [] => Ok e
  | (msg, j) :: l =>
      let* (r, e) := run_auth j e in
      let (nonce, y) := rnd (length l) in
      let* e := match r with Some r => auth_accepted now nonce y path from sharedKey msg r e | None => Ok e end in
      answer_all now rnd path from sharedKey l e
  end.
Definition run_work (fuel : nat) (now : Z) (rnd : nat -> list Z * list Z) (path : PathRef) (frame : ProtocolFrame.t) (e : Endpoint) : res Endpoint :=
  let* r := Work fuel frame e in
  match r with
  | None => Ok e
  | Some (sharedKey, msgs) =>
      let (js, e) := ask_all msgs e in
      answer_all now rnd path (ProtocolFrame.F frame) sharedKey (zip msgs js) e
  end.

(** *** The later frames *)
Inductive decrypt_job := JIntro (frame : ProtocolFrame.t) | JFrame (si : ServiceInfo.t) (shared : list Z) (frame : ProtocolFrame.t).
(** [None] is [false]: nothing is queued. *)
Definition AsyncDecryptAndVerify (f : ProtocolFrame.t) (e : Endpoint) : option decrypt_job :=
  if is_zero (ProtocolFrame.T f) then Some (JIntro f)
  else
    shared ← GetCachedSessionKeyFor (ProtocolFrame.T f) e;
    if is_zero shared then None
    else
      si ← GetSenderFor (ProtocolFrame.T f) e;
      if is_zero (ServiceInfo.Addr si).1 then None else Some (JFrame si shared f).
(** The endpoint, and the messages the caller's hook is given. *)
Definition run_decrypt (fuel : nat) (now : Z) (rnd : nat -> list Z * list Z) (recvPath : PathRef) (j : decrypt_job) (e : Endpoint)
  : res (Endpoint * list ProtocolMessage.t) :=
  match j with
  | JIntro f => let* e := run_work fuel now rnd recvPath f e in Ok (e, [])
  | JFrame si shared f =>
      let reset := let* e := ResetConvoTag (rnd 0%nat).2 (ProtocolFrame.T f) recvPath (ProtocolFrame.F f) e in Ok (e, []) in
      let* good := ProtocolFrame.Verify si f in
      if negb good then reset
      else
        let* (ok, msgs) := ProtocolFrame.DecryptPayloadInto fuel shared f in
        if negb ok then reset
        else
          let msgs := (fun m => m <| ProtocolMessage.tag := ProtocolFrame.T f |>) <$> msgs in
          Ok (foldl (fun e m => QueueRecvData (MkRecv recvPath (ProtocolFrame.F f) m) e) e msgs, msgs)
  end.
(** The value, the endpoint, and what is queued for a worker. *)
Definition HandleHiddenServiceFrame (y : list Z) (p : PathRef) (frame : ProtocolFrame.t) (e : Endpoint) : res (bool * Endpoint * option decrypt_job) :=
  if negb (ProtocolFrame.R frame =? 0) then
    match GetSenderFor (ProtocolFrame.T frame) e with
    | None => Ok (false, e, None)
    | Some si =>
        let* good := ProtocolFrame.Verify si frame in
        Ok (if good : bool then (true, RemoveConvoTag (ProtocolFrame.T frame) e, None) else (false, e, None))
    end
  else match AsyncDecryptAndVerify frame e with
       | Some j => Ok (true, e, Some j)
       | None => let* e := ResetConvoTag y (ProtocolFrame.T frame) p (ProtocolFrame.F frame) e in Ok (true, e, None)
       end.
End frames.
