(* ===== verification/Outbound.v ===== *)
(** * The side that opens a conversation (llarp/service/async_key_exchange.cpp, sendcontext.cpp, outbound_context.cpp; Endpoint::FlushPendingTraffic)

    A context per conversation that was opened: which introduction of the other service is used, the key
    exchange, and the frames that are made of the payloads. The endpoint it belongs to is passed along;
    the paths are given by a function from the router where they end. What is put on worker threads is a
    value, run by a function of its own. *)

From S2P Require Import Prelude Buffer Bencode Codec CryptoApi Str NetInt IpRange DnsMessage Contact TrafficPolicy Service Frame Protocol Routing Auth Conversation.
#[local] Existing Instances ProtocolMessage.eta_t Identity.eta_t Introduction.eta_t ServiceInfo.eta_t.

(** ** The key exchange *)
Module AsyncKeyExchange.
Record t := Mk { sharedKey : list Z; m_remote : ServiceInfo.t; m_LocalIdentity : Identity.t; msg : ProtocolMessage.t; introPubKey : list Z; remoteIntro : Introduction.t; tag : list Z }.
#[export] Instance eta_t : Eta t := fun x => Mk (sharedKey x) (m_remote x) (m_LocalIdentity x) (msg x) (introPubKey x) (remoteIntro x) (tag x).
Definition make (r : ServiceInfo.t) (ident : Identity.t) (pk : list Z) (remote : Introduction.t) (tag0 : list Z) (proto : Z) : t :=
  Mk (zeros 32) r ident (ProtocolMessage.empty <| ProtocolMessage.proto := proto |>) pk remote tag0.
Section crypto.
Context {UN : Uninit} {CR : Crypto} {KP : KeyPairs} {PQ : Pqe} {SH : ShortHasher}.
(** [r] and [nonce] are drawn. The result is [false] where nothing is sent. *)
Definition Encrypt (r nonce : list Z) (self : t) (frame : ProtocolFrame.t) : res (bool * t * ProtocolFrame.t) :=
  let (C, K) := match pqe_encrypt r (introPubKey self) with
                | Some (c, k) => (c ++ drop (length c) (ProtocolFrame.C frame), k)
                | None => (ProtocolFrame.C frame, zeros 32)
                end in
  let frame := frame <| ProtocolFrame.C := C |> <| ProtocolFrame.N := nonce |> in
  let sharedSecret := default (zeros 32) (Identity.KeyExchange dh_client (m_remote self) nonce (m_LocalIdentity self)) in
  let self := self <| m_remote ::= ServiceInfo.UpdateAddr |> <| sharedKey := session_key K sharedSecret |> in
  let msg' := (msg self) <| ProtocolMessage.tag := tag self |> <| ProtocolMessage.sender := Identity.pub (m_LocalIdentity self) |>
                <| ProtocolMessage.version := proto_version |> in
  let self := self <| msg := msg' |> in
  let* (ok, frame) := ProtocolFrame.EncryptAndSign msg' K (m_LocalIdentity self) frame in
  Ok (ok, self, frame).
End crypto.
(** Before its hook. *)
Definition Result (self : t) (e : Endpoint) : Endpoint :=
  let tag := ProtocolMessage.tag (msg self) in
  PutReplyIntroFor tag (ProtocolMessage.introReply (msg self))
    (PutIntroFor tag (remoteIntro self) (PutCachedSessionKeyFor tag (sharedKey self) (PutSenderFor tag (m_remote self) false e))).
End AsyncKeyExchange.
#[export] Existing Instance AsyncKeyExchange.eta_t.

(** ** The context *)
Definition build_timeout : Z := 10000.
Definition intro_path_spread : Z := default_lifetime / 4.
Definition PathAlignmentTimeout : Z := 30000.
Definition GetPath := list Z -> option PathRef.
Module OutboundContext.
(** [authResultListener] and [m_ReadyHooks] are the names of the callbacks. *)
Record t := Mk {
  remoteIdent : ServiceInfo.t; remoteIntro : Introduction.t; currentConvoTag : list Z; sequenceNo : Z; lastGoodSend : Z; createdAt : Z; sendTimeout : Z; connectTimeout : Z;
  shiftTimeout : Z; estimatedRTT : Z; markedBad : bool; sendQueue : list SendEvent; authResultListener : option nat; updatingIntroSet : bool; currentIntroSet : IntroSet;
  m_NextIntro : Introduction.t; lastShift : Z; m_LookupFails : Z; m_LastInboundTraffic : Z; m_GotInboundTraffic : bool; generatedIntro : bool; sentIntro : bool;
  m_ReadyHooks : list nat; m_LastIntrosetUpdateAt : Z; m_LastKeepAliveAt : Z; m_WriteQueues : list (Z * list (list Z)) }.
#[export] Instance eta_t : Eta t := fun o =>
  Mk (remoteIdent o) (remoteIntro o) (currentConvoTag o) (sequenceNo o) (lastGoodSend o) (createdAt o) (sendTimeout o) (connectTimeout o)
     (shiftTimeout o) (estimatedRTT o) (markedBad o) (sendQueue o) (authResultListener o) (updatingIntroSet o) (currentIntroSet o)
     (m_NextIntro o) (lastShift o) (m_LookupFails o) (m_LastInboundTraffic o) (m_GotInboundTraffic o) (generatedIntro o) (sentIntro o)
     (m_ReadyHooks o) (m_LastIntrosetUpdateAt o) (m_LastKeepAliveAt o) (m_WriteQueues o).
(** With the index that is drawn among the introductions, and the tag. *)
Definition make (introset : IntroSet) (now : Z) (pick : nat) (tag : list Z) : res t :=
  match intros_ introset !! pick with
  | None => Oob
  | Some i =>
      Ok (Mk (addressKeys introset) Introduction.empty tag 0 0 now (build_timeout + PathAlignmentTimeout) (build_timeout * 2 + PathAlignmentTimeout)
             (build_timeout * 5 / 2) 0 false [] None false introset i now 0 0 false false false [] 0 0 [])
  end.
Definition IntroSent (o : t) : bool := sentIntro o.
Definition IntroGenerated (o : t) : bool := generatedIntro o.
Definition ReadyToSend (paths : GetPath) (o : t) : bool :=
  if markedBad o then false
  else if is_zero (Introduction.router (remoteIntro o)) then false
  else IntroSent o && match paths (Introduction.router (remoteIntro o)) with Some _ => true | None => false end.

(** *** Which introduction is used *)
Definition ShiftIntroRouter (now : Z) (r : list Z) (o : t) : t :=
  let selected := foldl (fun s i => if (Introduction.expiresAt s <? Introduction.expiresAt i) && negb (bool_decide (Introduction.router i = r)) then i else s)
                    Introduction.empty (intros_ (currentIntroSet o)) in
  if is_zero (Introduction.router selected) || Introduction.ExpiresSoon now 30000 selected then o
  else o <| m_NextIntro := selected |> <| lastShift := now |>.
Definition OnIntroSetUpdate (now : Z) (foundIntro : option IntroSet) (relayOrder : Z) (o : t) : t :=
  if markedBad o then o
  else
    let o := o <| updatingIntroSet := false |> in
    match foundIntro with
    | Some i =>
        if timestampSignedAt i =? 0 then o
        else if timestampSignedAt i <? timestampSignedAt (currentIntroSet o) then o
        else if IntroSet_IsExpired now i then o
        else ShiftIntroRouter now (zeros 32) (o <| currentIntroSet := i |>)
    | None => if 0 <? relayOrder then o <| m_LookupFails := u16 (m_LookupFails o + 1) |> else o
    end.
Definition IntrosetUpdateInterval : Z := 10000.
(** [sent]: whether a lookup went out. *)
Definition UpdateIntroSet (now : Z) (sent : bool) (o : t) : t :=
  if updatingIntroSet o || markedBad o || (now <? m_LastIntrosetUpdateAt o + IntrosetUpdateInterval) then o
  else
    let o := o <| m_LastIntrosetUpdateAt := now |> in
    if sent then o <| updatingIntroSet := true |> else o.
(** [intros] is the order that the shuffle gives; the routers that are made known come with the result. *)
Definition ShiftIntroduction (now : Z) (blacklist : gset (list Z)) (intros : list Introduction.t) (o : t) : bool * t * list (list Z) :=
  if Z.abs (now - lastShift o) <? shiftTimeout o then (false, o, [])
  else
    let usable i := negb (Introduction.ExpiresSoon now 30000 i) && negb (bool_decide (Introduction.router i ∈ blacklist)) in
    let same '(success, next) i :=
      if usable i && bool_decide (Introduction.router (remoteIntro o) = Introduction.router i) && (Introduction.expiresAt next <? Introduction.expiresAt i)
      then (true, i) else (success, next) in
    let newer '(success, shifted, next) i :=
      if usable i && negb (Introduction.eqb next i) && (Introduction.expiresAt next <? Introduction.expiresAt i)
      then (true, negb (bool_decide (Introduction.router i = Introduction.router next)), i) else (success, shifted, next) in
    let '(success, next) := foldl same (false, m_NextIntro o) intros in
    let '(success, shifted, next) := if success : bool then (true, false, next) else foldl newer (false, false, next) intros in
    let known := if (foldl same (false, m_NextIntro o) intros).1 : bool then [] else Introduction.router <$> filter (fun i => Introduction.router i ∉ blacklist) intros in
    let o := o <| m_NextIntro := next |> in
    if is_zero (Introduction.router next) then (false, o, known)
    else (success, (if shifted then o <| lastShift := now |> else o), known).
(** [MarkIntroBad] does nothing. *)
Definition HandleDataDrop (now : Z) (sent : bool) (p : PathRef) (dst : list Z) (o : t) : t :=
  if bool_decide (dst = Introduction.pathID (remoteIntro o)) && bool_decide (Introduction.router (remoteIntro o) = p_Endpoint p) then
    UpdateIntroSet now sent (ShiftIntroRouter now (p_Endpoint p) (o <| markedBad := Introduction.IsExpired now (remoteIntro o) |>))
  else o.

(** *** Sending *)
Section send.
Context {UN : Uninit} {CR : Crypto} {KP : KeyPairs} {PQ : Pqe} {SH : ShortHasher}.
Definition Send (y : list Z) (f : ProtocolFrame.t) (path : PathRef) (o : t) : bool * t :=
  if p_ready path && (length (sendQueue o) <? 512)%nat
  then (true, o <| sendQueue ::= try_push (PathTransferMessage.make f (Introduction.pathID (remoteIntro o)) y, path) |>)
  else (false, o).
(** The work that is queued: the exchange, its frame and the path for the hook. *)
Definition intro_job := (AsyncKeyExchange.t * ProtocolFrame.t * PathRef)%type.
Definition AsyncGenIntro (paths : GetPath) (payload : list Z) (ty : Z) (o : t) (e : Endpoint) : t * Endpoint * option intro_job :=
  if generatedIntro o then (o, e, None)
  else if is_zero (Introduction.router (remoteIntro o)) then (o, e, None)
  else match paths (Introduction.router (remoteIntro o)) with
       | None => (o, e, None)
       | Some path =>
           let ex := AsyncKeyExchange.make (remoteIdent o) (m_Identity e) (sntrupKey (currentIntroSet o)) (remoteIntro o) (currentConvoTag o) ty in
           let ex := ex <| AsyncKeyExchange.msg ::= fun m => (ProtocolMessage.PutBuffer payload m) <| ProtocolMessage.introReply := p_intro path |> |> in
           let frame := (ProtocolFrame.Clear ProtocolFrame.empty) <| ProtocolFrame.F := Introduction.pathID (p_intro path) |> <| ProtocolFrame.R := 0 |> in
           (o <| generatedIntro := true |>, PutSenderFor (currentConvoTag o) (addressKeys (currentIntroSet o)) false e, Some (ex, frame, path))
       end.
(** [Encrypt] on a worker, then [Result] and the hook on the loop; the third component is whether
    [sentIntro] is to be set after the latency of the introduction. *)
Definition run_intro (r nonce y : list Z) (j : intro_job) (o : t) (e : Endpoint) : res (t * Endpoint * bool) :=
  let '(ex, frame, path) := j in
  let* (ok, ex, frame) := AsyncKeyExchange.Encrypt r nonce ex frame in
  if negb ok then Ok (o, e, false)
  else
    let e := AsyncKeyExchange.Result ex e in
    let (sent, o) := Send y frame path o in Ok (o, e, sent).
Definition intro_was_sent (o : t) : t := o <| sentIntro := true |>.

(** The messages of a batch of payloads: the first carries where replies go. *)
Definition number (tag : list Z) (m : ProtocolMessage.t) (e : Endpoint) : ProtocolMessage.t * Endpoint :=
  let (n, e) := GetSeqNoForConvo tag e in
  (match n with Some n => m <| ProtocolMessage.seqno := n |> | None => m end, e).
Fixpoint make_messages (ty : Z) (i : Introduction.t) (tag : list Z) (datas : list (list Z)) (first : bool) (e : Endpoint) : list ProtocolMessage.t * Endpoint :=
  match datas with
  | [] => ([], e)
  | data :: datas =>
      let m := (ProtocolMessage.PutBuffer data ProtocolMessage.empty) <| ProtocolMessage.sender := Identity.pub (m_Identity e) |> <| ProtocolMessage.proto := ty |> in
      let (m, e) := number tag m e in
      let m := if first then m <| ProtocolMessage.introReply := i |> else m in
      let (ms, e) := make_messages ty i tag datas false e in (m :: ms, e)
  end.
Record send_job := MkSend { j_F : list Z; j_msgs : list ProtocolMessage.t; j_shared : list Z; j_path : PathRef; j_ident : Identity.t }.
Definition EncryptAndSendTo (paths : GetPath) (datas : list (list Z)) (ty : Z) (o : t) (e : Endpoint) : t * Endpoint * option send_job :=
  match paths (Introduction.router (remoteIntro o)) with
  | None => (o <| markedBad := true |>, e, None)
  | Some path =>
      match GetCachedSessionKeyFor (currentConvoTag o) e with
      | None => (o <| markedBad := true |>, e, None)
      | Some shared =>
          let e := PutReplyIntroFor (currentConvoTag o) (p_intro path) (PutIntroFor (currentConvoTag o) (remoteIntro o) e) in
          let (msgs, e) := make_messages ty (p_intro path) (currentConvoTag o) datas true e in
          let F := match datas with [] => zeros 16 | _ => Introduction.pathID (p_intro path) end in
          (o, e, Some (MkSend F msgs shared path (m_Identity e)))
      end
  end.
(** The loop of the worker; [rnd] is what each round draws. *)
Fixpoint run_send (fuel : nat) (rnd : nat -> list Z * list Z) (j : send_job) (msgs : list ProtocolMessage.t) (o : t) : res t :=
  match msgs with
  | [] => Ok o
  | _ =>
      match fuel with
      | O => NoFuel
      | S fuel =>
          let (nonce, y) := rnd fuel in
          let o := o <| sequenceNo := u64 (sequenceNo o + 1) |> in
          let f := ProtocolFrame.empty <| ProtocolFrame.N := nonce |> <| ProtocolFrame.T := currentConvoTag o |> <| ProtocolFrame.S_ := sequenceNo o |>
                     <| ProtocolFrame.F := j_F j |> in
          let* (ok, msgs, f) := ProtocolFrame.EncryptAndSign_many msgs (j_shared j) (j_ident j) f in
          if negb ok then Ok o else run_send fuel rnd j msgs (Send y f (j_path j) o).2
      end
  end.
(** What is queued: the handshake, or data. *)
Inductive out_job := OIntro (j : intro_job) | OSend (j : send_job).
Definition AsyncEncryptAndSendTo (paths : GetPath) (msgs : list (list Z)) (protocol : Z) (o : t) (e : Endpoint) : res (t * Endpoint * option out_job) :=
  if IntroSent o then
    let '(o, e, j) := EncryptAndSendTo paths msgs protocol o e in Ok (o, e, OSend <$> j)
  else if IntroGenerated o && negb (IntroSent o) then Ok (o, e, None)
  else match MaybeGetAuthInfoForEndpoint (ServiceInfo.Addr (remoteIdent o)).1 e with
       | Some token => let '(o, e, j) := AsyncGenIntro paths token ProtocolType.Auth o e in Ok (o, e, OIntro <$> j)
       | None =>
           match msgs with
           | [] => Oob
           | m :: _ => let '(o, e, j) := AsyncGenIntro paths m protocol o e in Ok (o, e, OIntro <$> j)
           end
       end.
(** The result that is given at once, if there is one. *)
Definition AsyncSendAuth (paths : GetPath) (resultHandler : nat) (o : t) (e : Endpoint) : t * Endpoint * option intro_job * option AuthResult :=
  match MaybeGetAuthInfoForEndpoint (ServiceInfo.Addr (remoteIdent o)).1 e with
  | Some token =>
      let '(o, e, j) := AsyncGenIntro paths token ProtocolType.Auth o e in (o <| authResultListener := Some resultHandler |>, e, j, None)
  | None => (o, e, None, Some (MkAuthResult eAuthAccepted (chars "no auth needed")))
  end.
Fixpoint write_queue (ty : Z) (data : list Z) (q : list (Z * list (list Z))) : list (Z * list (list Z)) :=
  match q with
  | [] => [(ty, [data])]
  | (ty', l) :: q => if ty =? ty' then (ty', l ++ [data]) :: q else (ty', l) :: write_queue ty data q
  end.
Definition SendPacketToRemote (buf : list Z) (ty : Z) (o : t) : t := o <| m_WriteQueues ::= write_queue ty buf |>.
Fixpoint send_packets (paths : GetPath) (q : list (Z * list (list Z))) (o : t) (e : Endpoint) : res (t * Endpoint * list out_job) :=
  match q with
  | [] => Ok (o, e, [])
  | (ty, pkts) :: q =>
      let* (o, e, j) := AsyncEncryptAndSendTo paths pkts ty o e in
      let* (o, e, js) := send_packets paths q o e in
      Ok (o, e, match j with Some j => j :: js | None => js end)
  end.
Definition SendPacketsToRemote (paths : GetPath) (o : t) (e : Endpoint) : res (t * Endpoint * list out_job) :=
  let* (o, e, js) := send_packets paths (m_WriteQueues o) o e in Ok (o <| m_WriteQueues := [] |>, e, js).
(** [tmp] is drawn. *)
Definition KeepAlive (now : Z) (tmp : list Z) (o : t) : t := (SendPacketToRemote tmp ProtocolType.Control o) <| m_LastKeepAliveAt := now |>.
Definition ShouldKeepAlive (now : Z) (o : t) : bool :=
  if negb (m_GotInboundTraffic o) then false
  else if m_LastInboundTraffic o =? 0 then false
  else Z.quot (sendTimeout o) 2 <=? now - m_LastKeepAliveAt o.
Definition SwapIntros (now : Z) (tmp : list Z) (o : t) (e : Endpoint) : t * Endpoint :=
  if Introduction.eqb (remoteIntro o) (m_NextIntro o) then (o, e)
  else
    let o := o <| remoteIntro := m_NextIntro o |> in
    let e := PutIntroFor (currentConvoTag o) (remoteIntro o) (PutSenderFor (currentConvoTag o) (addressKeys (currentIntroSet o)) false e) in
    let o := ShiftIntroRouter now (Introduction.router (m_NextIntro o)) o in
    (if IntroGenerated o then o else KeepAlive now tmp o, e).
(** After [path::Builder::HandlePathBuilt]; the last component is whether the path is to be ignored. *)
Definition HandlePathBuilt (now : Z) (tmp : list Z) (p : PathRef) (o : t) (e : Endpoint) : t * Endpoint * bool :=
  if markedBad o then (o, e, true)
  else if bool_decide (p_Endpoint p = Introduction.router (m_NextIntro o)) then (SwapIntros now tmp o e, false)
  else (o, e, false).

(** *** Receiving *)
(** What is left to do: the listener that is called, or the work that is queued with its hook. *)
Inductive frame_effect := no_effect | call_listener (h : nat) (r : AuthResult) | queue_decrypt (j : decrypt_job) (hook : option nat).
Definition auth_text (m : ProtocolMessage.t) : option (list Z) :=
  if (ProtocolMessage.proto m =? ProtocolType.Auth) && negb (length (ProtocolMessage.payload m) =? 0)%nat then Some (ProtocolMessage.payload m) else None.
Definition hook_result (m : ProtocolMessage.t) : AuthResult := MkAuthResult eAuthAccepted (default (chars "OK") (auth_text m)).
Definition HandleHiddenServiceFrame (fuel : nat) (now : Z) (y : list Z) (p : PathRef) (frame : ProtocolFrame.t) (o : t) (e : Endpoint)
  : res (bool * t * Endpoint * frame_effect) :=
  let o := o <| m_LastInboundTraffic := now |> <| m_GotInboundTraffic := true |> in
  let T := ProtocolFrame.T frame in
  if negb (ProtocolFrame.R frame =? 0) then
    match GetSenderFor T e with
    | None => Ok (false, o, e, no_effect)
    | Some si =>
        let* good := ProtocolFrame.Verify si frame in
        if negb good then Ok (false, o, e, no_effect)
        else
          let* text :=
            match GetCachedSessionKeyFor T e with
            | None => Ok None
            | Some sessionKey =>
                let* (ok, msgs) := ProtocolFrame.DecryptPayloadInto fuel sessionKey frame in
                Ok (if ok : bool then head (omap auth_text msgs) else None)
            end in
          let result := MkAuthResult (default eAuthFailed (AuthResultCodeFromInt (ProtocolFrame.R frame))) (default (chars "unknown reason") text) in
          let e := RemoveConvoTag T e in
          Ok (match authResultListener o with
              | Some h => (true, o <| authResultListener := None |>, e, call_listener h result)
              | None => (true, o, e, no_effect)
              end)
    end
  else
    let hook := authResultListener o in
    let o := o <| authResultListener := None |> in
    match AsyncDecryptAndVerify frame e with
    | Some j => Ok (true, o, e, queue_decrypt j hook)
    | None => let* e := ResetConvoTag y T p (ProtocolFrame.F frame) e in Ok (true, o, e, no_effect)
    end.

(** *** Pumping: [sent], [order] and [tmp] as above, [others] the introductions of the other paths *)
Definition update_stale (now : Z) (sent : bool) (blacklist : gset (list Z)) (order : list Introduction.t) (o : t) : t * list (list Z) :=
  if HasStaleIntros now intro_path_spread (currentIntroSet o) || Introduction.ExpiresSoon now intro_path_spread (remoteIntro o) then
    let '(_, o, known) := ShiftIntroduction now blacklist order (UpdateIntroSet now sent o) in (o, known)
  else (o, []).
(** Dead or not, the context, the routers that are made known and the hooks that are called. *)
Definition Pump (paths : GetPath) (now : Z) (sent : bool) (blacklist : gset (list Z)) (order others : list Introduction.t) (tmp : list Z) (o : t) (e : Endpoint)
  : bool * t * Endpoint * list (list Z) * list nat :=
  if markedBad o then (true, o, e, [], [])
  else
    let (o, e) := if ReadyToSend paths o && is_zero (Introduction.router (remoteIntro o)) then SwapIntros now tmp o e else (o, e) in
    if ReadyToSend paths o && match GetCachedSessionKeyFor (currentConvoTag o) e with None => true | Some _ => false end then (true, o, e, [], [])
    else
      let o := if m_GotInboundTraffic o && (m_LastInboundTraffic o + sendTimeout o <=? now)
               then ShiftIntroRouter now (Introduction.router (remoteIntro o)) (UpdateIntroSet now sent o) else o in
      let (o, known) := update_stale now sent blacklist order o in
      let o := if ReadyToSend paths o && negb (is_zero (Introduction.router (remoteIntro o)))
               then match paths (Introduction.router (remoteIntro o)), others with None, i :: _ => o <| remoteIntro := i |> | _, _ => o end else o in
      let known := if is_zero (Introduction.router (m_NextIntro o)) then known else known ++ [Introduction.router (m_NextIntro o)] in
      let ready := ReadyToSend paths o && negb (length (m_ReadyHooks o) =? 0)%nat in
      if ready && match paths (Introduction.router (remoteIntro o)) with None => true | Some _ => false end then (true, o, e, known, [])
      else
        let hooks := if ready then m_ReadyHooks o else [] in
        let o := if ready then o <| m_ReadyHooks := [] |> else o in
        let timeout := Z.max (lastGoodSend o) (m_LastInboundTraffic o) in
        let o := if (0 <? lastGoodSend o) && (timeout + Z.quot (sendTimeout o) 2 <=? now) then KeepAlive now tmp o else o in
        if (m_LastInboundTraffic o =? 0) && (connectTimeout o <? now - createdAt o) then (true, o, e, known, hooks)
        else
          let removeIt := if 0 <? timeout then (timeout <=? now) && (sendTimeout o <? now - timeout)
                          else (createdAt o <=? now) && (connectTimeout o <? now - createdAt o) in
          (removeIt, o, e, known, hooks).
End send.
(** The hook is called at once, or kept; the timer of the hooks that are not ready in time. *)
Definition AddReadyHook (paths : GetPath) (hook : nat) (o : t) : bool * t :=
  if ReadyToSend paths o then (true, o) else (false, o <| m_ReadyHooks ::= fun l => l ++ [hook] |>).
Definition ready_timeout (o : t) : t := o <| m_ReadyHooks := [] |>.
Definition Stop (o : t) : t := o <| markedBad := true |>.
End OutboundContext.
#[export] Existing Instance OutboundContext.eta_t.

(** ** Which conversation is used: the one with the lowest estimate, [items] in the order of the table;
    [remotes] says of the contexts to an address whether they can send, and their estimates *)
Fixpoint best_loop (paths : GetPath) (contexts : list (bool * Z)) (self remote : list Z) (items : list (list Z * Session.t)) (ret : option (list Z)) (rtt : Z) : option (list Z) :=
  match items with
  | [] => ret
  | (tag, s) :: items =>
      let continue := best_loop paths contexts self remote items in
      if is_zero tag || negb (bool_decide (Session.Addr s = remote)) then continue ret rtt
      else if bool_decide (remote = self) then Some tag
      else if Session.inbound s then
        match paths (Introduction.router (Session.replyIntro s)) with
        | None => continue (Some tag) rtt
        | Some path =>
            let estimate := (Introduction.latency (Session.replyIntro s) + Introduction.latency (p_intro path)) * 2 in
            if p_ready path && (estimate <? rtt) then continue (Some tag) estimate else continue ret rtt
        end
      else
        let step '(ret, rtt) '(ready, est) := if (ready : bool) && (0 <? est) && (est <? rtt) then (Some tag, est) else (ret, rtt) in
        let (ret, rtt) := foldl step (ret, rtt) contexts in continue ret rtt
  end.
Definition GetBestConvoTagFor (paths : GetPath) (remotes : list Z -> list (bool * Z)) (items : list (list Z * Session.t)) (remote : list Z) (e : Endpoint) : option (list Z) :=
  best_loop paths (remotes remote) (ServiceInfo.Addr (Identity.pub (m_Identity e))).1 remote items None 30000.

(** ** Traffic that waits for an inbound conversation: [Endpoint::FlushPendingTraffic] *)
Section pending.
Context {UN : Uninit} {CR : Crypto} {KP : KeyPairs}.
Fixpoint pending_messages (i : Introduction.t) (tag : list Z) (pkts : list PendingBuffer) (e : Endpoint) : option (list ProtocolMessage.t) * Endpoint :=
  match pkts with
  | [] => (Some [], e)
  | pkt :: pkts =>
      let m := (ProtocolMessage.PutBuffer (pb_payload pkt) ProtocolMessage.empty) <| ProtocolMessage.proto := pb_protocol pkt |>
                 <| ProtocolMessage.introReply := i |> <| ProtocolMessage.sender := Identity.pub (m_Identity e) |> in
      match GetSeqNoForConvo tag e with
      | (Some n, e) => let (l, e) := pending_messages i tag pkts e in (cons (m <| ProtocolMessage.seqno := n |>) <$> l, e)
      | (None, e) => (None, e)
      end
  end.
Record pending_job := MkPendingJob { q_msgs : list ProtocolMessage.t; q_path : PathRef; q_K : list Z; q_replyIntro : Introduction.t; q_tag : list Z }.
(** The loop of the worker gives up in a round that takes nothing; a frame that cannot be made is queued as it is. *)
Fixpoint run_pending (fuel : nat) (rnd : nat -> list Z * list Z) (j : pending_job) (initial_sz : option nat) (msgs : list ProtocolMessage.t) (e : Endpoint) : res Endpoint :=
  match msgs with
  | [] => Ok e
  | m :: _ =>
      if bool_decide (initial_sz = Some (length msgs)) then Ok e
      else match fuel with
           | O => NoFuel
           | S fuel =>
               let (nonce, y) := rnd fuel in
               let f := ProtocolFrame.empty <| ProtocolFrame.N := nonce |> <| ProtocolFrame.T := q_tag j |> <| ProtocolFrame.S_ := ProtocolMessage.seqno m |>
                          <| ProtocolFrame.F := Introduction.pathID (p_intro (q_path j)) |> in
               let* (_, rest, f) := ProtocolFrame.EncryptAndSign_many msgs (q_K j) (m_Identity e) f in
               let transfer := PathTransferMessage.Mk (Introduction.pathID (q_replyIntro j)) f y (ProtocolFrame.S_ f) proto_version in
               run_pending fuel rnd j (Some (length msgs)) rest (e <| m_SendQueue ::= try_push (transfer, q_path j) |>)
           end
  end.
(** [SendToOrQueue] to an address that has opened a conversation. *)
Definition queue_pending (remote data : list Z) (ty : Z) (e : Endpoint) : bool * Endpoint :=
  if (length data =? 0)%nat then (false, e)
  else if HasInboundConvo remote e then
    (true, e <| m_PendingTraffic ::= fun m => <[remote := default [] (m !! remote) ++ [MkPending data ty]]> m |>)
  else (false, e).
(** One address of the table: [None] where it stays, otherwise what is queued. [best] is the tag of [GetBestConvoTagFor]. *)
Definition flush_address (paths : GetPath) (best : option (list Z)) (remote : list Z) (pkts : list PendingBuffer) (e : Endpoint)
  : option (option pending_job) * Endpoint :=
  if negb (HasInboundConvo remote e) then (None, e)
  else match best with
       | None => (Some None, e)
       | Some tag =>
           match GetCachedSessionKeyFor tag e, GetReplyIntroFor tag e with
           | Some K, Some replyIntro =>
               match paths (Introduction.router replyIntro) with
               | None => (Some None, e)
               | Some p =>
                   let (l, e) := pending_messages (p_intro p) tag pkts e in
                   (Some ((fun msgs => MkPendingJob msgs p K replyIntro tag) <$> l), e)
               end
           | _, _ => (Some None, e)
           end
       end.
End pending.
