(* ===== verification/ConversationSpec.v ===== *)
(** * What conversations do (Conversation.v and Outbound.v)

    The handshake gives both sides the same key and each the keys of the other; what is sent then
    arrives, in the order in which it was sent. The steps of an endpoint never change who a conversation
    is with; the first frame of another conversation can change its key. *)

From S2P Require Import Prelude Buffer Bencode Codec CryptoApi Str NetInt IpRange DnsMessage Contact TrafficPolicy Service Frame Protocol Routing Auth Conversation Outbound.
#[local] Existing Instances ProtocolMessage.eta_t Identity.eta_t Introduction.eta_t ServiceInfo.eta_t.

(** ** Tables *)
Lemma addr_info s : IntroSetSpec.info_ok s -> ServiceInfo.UpdateAddr s = s /\ ServiceInfo.Addr s = (ServiceInfo.signkey s, s).
Proof.
  intros (_ & Hc & _). assert (ServiceInfo.UpdateAddr s = s) as E.
  { unfold ServiceInfo.UpdateAddr, ServiceInfo.CalculateAddress. rewrite <- Hc. destruct s. by destruct (is_zero _). }
  split; [done|]. unfold ServiceInfo.Addr. by rewrite E, Hc.
Qed.
(** The conversations of [e] are there, with the same partners. *)
Definition extends (e e' : Endpoint) : Prop := forall tag s, Sessions e !! tag = Some s -> exists s', Sessions e' !! tag = Some s' /\ Session.remote s' = Session.remote s.
Definition shrinks (e e' : Endpoint) : Prop := Sessions e' ⊆ Sessions e.
#[export] Instance extends_preorder : PreOrder extends.
Proof.
  split; [intros e tag s; eauto|]. intros e1 e2 e3 H1 H2 tag s Hs. destruct (H1 tag s Hs) as (s' & Hs' & <-). exact (H2 tag s' Hs').
Qed.
Lemma extends_same e e' : Sessions e' = Sessions e -> extends e e'.
Proof. intros E tag s. rewrite E. eauto. Qed.
Lemma extends_alter f tag e : (forall s, Session.remote (f s) = Session.remote s) -> extends e (e <| Sessions ::= alter f tag |>).
Proof.
  intros Hf t s Hs. cbn. destruct (decide (tag = t)) as [->|]; [exists (f s); rewrite lookup_alter_eq, Hs; done|]. rewrite lookup_alter_ne by done. eauto.
Qed.
Lemma extends_upsert (f : Session.t -> Session.t) tag e : (forall s, Session.remote (f s) = Session.remote s) ->
  extends e (e <| Sessions ::= fun m => <[tag := f (default Session.empty (m !! tag))]> m |>).
Proof.
  intros Hf t s Hs. cbn. destruct (decide (tag = t)) as [->|]; [rewrite lookup_insert_eq, Hs; cbn; eauto|]. rewrite lookup_insert_ne by done. eauto.
Qed.
Lemma extends_PutSenderFor tag info b e : extends e (PutSenderFor tag info b e).
Proof.
  unfold PutSenderFor. destruct (ServiceInfo.Addr info) as [addr info']. destruct (is_zero addr); [reflexivity|].
  destruct (Sessions e !! tag) eqn:E; [reflexivity|]. destruct (_ && _); [reflexivity|]. intros t s Hs. cbn.
  rewrite lookup_insert_ne by congruence. eauto.
Qed.
Lemma extends_PutReplyIntroFor tag i e : extends e (PutReplyIntroFor tag i e).
Proof. by apply extends_alter. Qed.
Lemma extends_PutCached tag k e : extends e (PutCachedSessionKeyFor tag k e).
Proof. by apply (extends_upsert (fun s => s <| Session.sharedKey := k |>)). Qed.
Lemma extends_PutIntroFor tag i e : extends e (PutIntroFor tag i e).
Proof. by apply (extends_upsert (fun s => s <| Session.intro := i |>)). Qed.
Lemma extends_ConvoTagRX now tag e : extends e (ConvoTagRX now tag e).
Proof. by apply extends_alter. Qed.
Lemma extends_GetSeqNo tag e : extends e (GetSeqNoForConvo tag e).2.
Proof. by apply extends_alter. Qed.
Create HintDb convo discriminated.
#[export] Hint Resolve extends_PutSenderFor extends_PutReplyIntroFor extends_PutCached extends_PutIntroFor extends_ConvoTagRX extends_GetSeqNo : convo.
#[export] Hint Extern 1 (extends ?e ?e) => reflexivity : convo.
#[export] Hint Extern 5 (extends _ _) => apply extends_same; reflexivity : convo.
Lemma extends_ProcessDataMessage msg e : extends e (ProcessDataMessage msg e).2.
Proof. unfold ProcessDataMessage. match goal with |- extends _ (if ?b then _ else _).2 => destruct b end; auto with convo. Qed.
Lemma extends_HandleDataMessage now p from msg e : extends e (HandleDataMessage now p from msg e).2.
Proof.
  unfold HandleDataMessage. match goal with |- extends _ (ProcessDataMessage ?m (ConvoTagRX ?n ?t (PutReplyIntroFor ?t' ?i ?e1))).2 =>
    transitivity (ConvoTagRX n t (PutReplyIntroFor t' i e1)); [etransitivity; [|apply extends_ConvoTagRX]; etransitivity; [|apply extends_PutReplyIntroFor]; auto with convo|];
    apply extends_ProcessDataMessage end.
Qed.
Lemma extends_handle_all now l : forall e, extends e (foldl (fun e ev => (HandleDataMessage now (fromPath ev) (pathid ev) (ev_msg ev) e).2) e l).
Proof. induction l as [|ev l IH]; intros e; [reflexivity|]. cbn [foldl]. etransitivity; [apply extends_HandleDataMessage|apply IH]. Qed.
Lemma extends_FlushRecvData now e : extends e (FlushRecvData now e).
Proof. unfold FlushRecvData. transitivity (e <| m_RecvQueue := [] |>); [auto with convo|apply extends_handle_all]. Qed.

Section endpoint.
Context {UN : Uninit} {CR : Crypto} {KP : KeyPairs} {PQ : Pqe} {SH : ShortHasher} {CY : Crypt}.

Lemma SendAuthResult_same n y p rp tag r e e' : SendAuthResult n y p rp tag r e = Ok e' -> Sessions e' = Sessions e.
Proof.
  unfold SendAuthResult. destruct (_ || _); [by intros [= <-]|]. case_bool_decide.
  - destruct (GetReplyIntroFor tag e); [|by intros [= <-]]. destruct (GetCachedSessionKeyFor tag e); [|by intros [= <-]].
    intros ([ok f] & _ & [= <-])%rbind_inv. by destruct ok.
  - intros ([ok f] & _ & [= <-])%rbind_inv. by destruct ok.
Qed.
Lemma extends_auth_accepted now n y p from k msg r e e' : auth_accepted now n y p from k msg r e = Ok e' -> extends e e'.
Proof.
  unfold auth_accepted. case_bool_decide; [|by intros [= <-]]. destruct (ServiceInfo.Addr _) as [addr sender].
  intros (e2 & E & [= <-])%rbind_inv. etransitivity; [|apply extends_HandleDataMessage]. apply SendAuthResult_same, extends_same in E. etransitivity; [|exact E].
  etransitivity; [|apply extends_PutCached]. etransitivity; [|apply extends_PutReplyIntroFor]. auto with convo.
Qed.
Lemma extends_ask_all msgs e : extends e (ask_all msgs e).2.
Proof.
  revert e. induction msgs as [|m msgs IH]; intros e; [reflexivity|]. cbn [ask_all]. destruct (AsyncProcessAuthMessage m e) as [j e1] eqn:E.
  specialize (IH e1). destruct (ask_all msgs e1) as [js e2]. etransitivity; [|exact IH]. unfold AsyncProcessAuthMessage in E.
  destruct (m_AuthPolicy e) as [p|]; [destruct (FileAuthPolicy.AsyncAuthPending _ p)|]; injection E as <- <-; auto with convo.
Qed.
Lemma run_auth_same j e r e' : run_auth j e = Ok (r, e') -> Sessions e' = Sessions e.
Proof.
  destruct j as [| |msg]; cbn [run_auth]; [by intros [= <- <-]..|]. destruct (m_AuthPolicy e); [|by intros [= <- <-]]. by intros (x & _ & [= <- <-])%rbind_inv.
Qed.
Lemma extends_answer_all now rnd p from k l : forall e e', answer_all now rnd p from k l e = Ok e' -> extends e e'.
Proof.
  induction l as [|[msg j] l IH]; intros e e'; cbn [answer_all]; [by intros [= <-]|].
  intros ([r e1] & E1 & H)%rbind_inv. destruct (rnd (length l)) as [n y]. apply rbind_inv in H as (e2 & E2 & H). etransitivity; [|exact (IH _ _ H)].
  etransitivity; [apply extends_same; exact (run_auth_same _ _ _ _ E1)|]. destruct r as [r|]; [exact (extends_auth_accepted _ _ _ _ _ _ _ _ _ _ E2)|by injection E2 as ->].
Qed.
Lemma extends_run_work fuel now rnd p f e e' : run_work fuel now rnd p f e = Ok e' -> extends e e'.
Proof.
  unfold run_work. intros (r & _ & H)%rbind_inv. destruct r as [[k msgs]|]; [|by injection H as ->]. pose proof (extends_ask_all msgs e) as He.
  destruct (ask_all msgs e) as [js e1]. etransitivity; [exact He|]. exact (extends_answer_all _ _ _ _ _ _ _ _ H).
Qed.
Lemma shrinks_Reset y tag p from e e' : ResetConvoTag y tag p from e = Ok e' -> shrinks e e'.
Proof. unfold ResetConvoTag. intros ([ok f] & _ & [= <-])%rbind_inv. apply delete_subseteq. Qed.
Lemma queue_recv_same p F msgs : forall e, Sessions (foldl (fun e m => QueueRecvData (MkRecv p F m) e) e msgs) = Sessions e.
Proof. induction msgs as [|m msgs IH]; intros e; [done|]. cbn [foldl]. by rewrite IH. Qed.

Lemma extends_number tag m e : extends e (OutboundContext.number tag m e).2.
Proof. exact (extends_GetSeqNo tag e). Qed.
Lemma extends_make_messages ty i tag datas : forall first e, extends e (OutboundContext.make_messages ty i tag datas first e).2.
Proof.
  induction datas as [|d datas IH]; intros first e; [reflexivity|]. cbn [OutboundContext.make_messages].
  match goal with |- context [OutboundContext.number ?t ?m e] => pose proof (extends_number t m e) as H1; destruct (OutboundContext.number t m e) as [m' e1] end.
  specialize (IH false e1). destruct (OutboundContext.make_messages _ _ _ _ _ e1) as [ms e2]. by etransitivity.
Qed.
Lemma extends_GenIntro paths payload ty o e : extends e (OutboundContext.AsyncGenIntro paths payload ty o e).1.2.
Proof.
  unfold OutboundContext.AsyncGenIntro. destruct (OutboundContext.generatedIntro o); [reflexivity|]. destruct (is_zero _); [reflexivity|].
  destruct (paths _); [apply extends_PutSenderFor|reflexivity].
Qed.
Lemma extends_AsyncEncrypt paths msgs ty o e o' e' j : OutboundContext.AsyncEncryptAndSendTo paths msgs ty o e = Ok (o', e', j) -> extends e e'.
Proof.
  assert (forall payload ty' (g : option OutboundContext.intro_job -> option OutboundContext.out_job),
    (let '(o, e, j) := OutboundContext.AsyncGenIntro paths payload ty' o e in Ok (o, e, g j)) = Ok (o', e', j) -> extends e e') as Hg.
  { intros payload ty' g. pose proof (extends_GenIntro paths payload ty' o e) as H. destruct (OutboundContext.AsyncGenIntro _ _ _ o e) as [[o1 e1] j1]. by intros [= <- <- <-]. }
  unfold OutboundContext.AsyncEncryptAndSendTo. destruct (OutboundContext.IntroSent o).
  - unfold OutboundContext.EncryptAndSendTo. destruct (paths _) as [p|]; [|by intros [= <- <- <-]]. destruct (GetCachedSessionKeyFor _ e); [|by intros [= <- <- <-]].
    match goal with |- context [OutboundContext.make_messages ?a ?b ?c ?d true ?e1] => pose proof (extends_make_messages a b c d true e1) as H; destruct (OutboundContext.make_messages a b c d true e1) as [ms e2] end.
    intros [= <- <- <-]. etransitivity; [|exact H]. etransitivity; [|apply extends_PutReplyIntroFor]. auto with convo.
  - destruct (_ && _); [by intros [= <- <- <-]|]. destruct (MaybeGetAuthInfoForEndpoint _ e); [apply Hg|]. destruct msgs; [done|apply Hg].
Qed.
Lemma extends_Result x e : extends e (AsyncKeyExchange.Result x e).
Proof.
  unfold AsyncKeyExchange.Result. etransitivity; [|apply extends_PutReplyIntroFor]. etransitivity; [|apply extends_PutIntroFor]. etransitivity; [|apply extends_PutCached]. auto with convo.
Qed.
Lemma extends_run_intro r n y j o e o' e' b : OutboundContext.run_intro r n y j o e = Ok (o', e', b) -> extends e e'.
Proof.
  unfold OutboundContext.run_intro. destruct j as [[ex f] p]. intros ([[ok ex'] f'] & _ & H)%rbind_inv. destruct ok; cbn [negb] in H; [|by injection H as <- <- <-].
  destruct (OutboundContext.Send y f' p o) as [sent o1]. injection H as <- <- <-. apply extends_Result.
Qed.
Lemma extends_SwapIntros now tmp o e : extends e (OutboundContext.SwapIntros now tmp o e).2.
Proof. unfold OutboundContext.SwapIntros. destruct (Introduction.eqb _ _); [reflexivity|]. cbn [snd]. etransitivity; [|apply extends_PutIntroFor]. auto with convo. Qed.
Lemma extends_pending i tag pkts : forall e, extends e (pending_messages i tag pkts e).2.
Proof.
  induction pkts as [|k pkts IH]; intros e; [reflexivity|]. cbn [pending_messages]. pose proof (extends_GetSeqNo tag e) as H.
  destruct (GetSeqNoForConvo tag e) as [[n|] e1]; [|exact H]. specialize (IH e1). destruct (pending_messages i tag pkts e1) as [l e2]. by etransitivity.
Qed.
Lemma extends_flush_address paths best remote pkts e : extends e (flush_address paths best remote pkts e).2.
Proof.
  unfold flush_address. destruct (negb _); [reflexivity|]. destruct best as [tag|]; [|reflexivity]. destruct (GetCachedSessionKeyFor tag e); [|reflexivity].
  destruct (GetReplyIntroFor tag e); [|reflexivity]. destruct (paths _) as [p|]; [|reflexivity]. pose proof (extends_pending (p_intro p) tag pkts e) as H.
  by destruct (pending_messages _ _ _ e).
Qed.
Lemma run_pending_same fuel : forall rnd j n msgs e e', run_pending fuel rnd j n msgs e = Ok e' -> Sessions e' = Sessions e.
Proof.
  induction fuel as [|fuel IH]; intros rnd j n msgs e e'; (destruct msgs as [|m msgs]; cbn [run_pending]; [by intros [= <-]|]); (case_bool_decide; [by intros [= <-]|]); [done|].
  destruct (rnd fuel) as [nonce y]. intros ([[b rest] f] & _ & H2)%rbind_inv. by apply IH in H2.
Qed.

(** The steps of an endpoint: what it does with frames, and its own conversations. *)
Inductive step (e : Endpoint) : Endpoint -> Prop :=
| step_frame y p f b e' j : HandleHiddenServiceFrame y p f e = Ok (b, e', j) -> step e e'
| step_job fuel now rnd p j e' msgs : run_decrypt fuel now rnd p j e = Ok (e', msgs) -> step e e'
| step_flush now : step e (FlushRecvData now e)
| step_expire now : step e (ExpireConvoSessions now e)
| step_remove addr : step e (RemoveAllConvoTagsFor addr e).2
| step_wanted addr : step e (MarkAddressOutbound addr e)
| step_outbound fuel now y p f o b o' e' x : OutboundContext.HandleHiddenServiceFrame fuel now y p f o e = Ok (b, o', e', x) -> step e e'
| step_send paths msgs ty o o' e' j : OutboundContext.AsyncEncryptAndSendTo paths msgs ty o e = Ok (o', e', j) -> step e e'
| step_intro r nonce y j o o' e' b : OutboundContext.run_intro r nonce y j o e = Ok (o', e', b) -> step e e'
| step_path now tmp p o : step e (OutboundContext.HandlePathBuilt now tmp p o e).1.2
| step_pending paths best remote pkts : step e (flush_address paths best remote pkts e).2
| step_pending_job fuel rnd j n msgs e' : run_pending fuel rnd j n msgs e = Ok e' -> step e e'.

Definition kept (e e' : Endpoint) : Prop := extends e e' \/ shrinks e e'.
Lemma kept_same e e' : Sessions e' = Sessions e -> kept e e'.
Proof. left. by apply extends_same. Qed.
Lemma kept_frame y p f e b e' j : HandleHiddenServiceFrame y p f e = Ok (b, e', j) -> kept e e'.
Proof.
  unfold HandleHiddenServiceFrame. destruct (negb _).
  - destruct (GetSenderFor _ e); [|intros [= <- <- <-]; by apply kept_same]. intros (good & _ & [= H])%rbind_inv.
    destruct good; injection H as <- <- <-; [right; apply delete_subseteq|by apply kept_same].
  - destruct (AsyncDecryptAndVerify f e); [intros [= <- <- <-]; by apply kept_same|]. intros (e1 & H1 & [= <- <- <-])%rbind_inv. right. exact (shrinks_Reset _ _ _ _ _ _ H1).
Qed.
Lemma kept_job fuel now rnd p j e e' msgs : run_decrypt fuel now rnd p j e = Ok (e', msgs) -> kept e e'.
Proof.
  destruct j as [f|si shared f]; cbn [run_decrypt].
  - intros (e1 & H1 & [= <- <-])%rbind_inv. left. exact (extends_run_work _ _ _ _ _ _ _ H1).
  - assert (forall y (ms : list ProtocolMessage.t), (let* e := ResetConvoTag y (ProtocolFrame.T f) p (ProtocolFrame.F f) e in Ok (e, ms)) = Ok (e', msgs) -> kept e e') as Hr.
    { intros y ms (e1 & H1 & [= <- _])%rbind_inv. right. exact (shrinks_Reset _ _ _ _ _ _ H1). }
    intros (good & _ & H)%rbind_inv. destruct good; cbn [negb] in H; [|by eapply Hr]. apply rbind_inv in H as ([ok ms] & _ & H).
    destruct ok; cbn [negb] in H; [|by eapply Hr]. injection H as <- _. apply kept_same, queue_recv_same.
Qed.
Lemma kept_outbound fuel now y p f o e b o' e' x : OutboundContext.HandleHiddenServiceFrame fuel now y p f o e = Ok (b, o', e', x) -> kept e e'.
Proof.
  unfold OutboundContext.HandleHiddenServiceFrame. destruct (negb _).
  - destruct (GetSenderFor _ e); [|intros [= <- <- <- <-]; by apply kept_same]. intros (good & _ & H)%rbind_inv.
    destruct good; cbn [negb] in H; [|injection H as <- <- <- <-; by apply kept_same]. apply rbind_inv in H as (text & _ & [= H]). right.
    destruct (OutboundContext.authResultListener _); injection H as <- <- <- <-; apply delete_subseteq.
  - destruct (AsyncDecryptAndVerify f e); [intros [= <- <- <- <-]; by apply kept_same|]. intros (e1 & H1 & [= <- <- <- <-])%rbind_inv. right. exact (shrinks_Reset _ _ _ _ _ _ H1).
Qed.
Lemma extends_path_built now tmp p o e : extends e (OutboundContext.HandlePathBuilt now tmp p o e).1.2.
Proof.
  unfold OutboundContext.HandlePathBuilt. destruct (OutboundContext.markedBad o); [reflexivity|]. case_bool_decide; [|reflexivity].
  pose proof (extends_SwapIntros now tmp o e) as Hsw. by destruct (OutboundContext.SwapIntros now tmp o e).
Qed.

(** C23. No step changes the service a conversation is with: a step either keeps every conversation with its
    partner, or only takes conversations away. *)
Theorem conversation_partner_kept (e e' : Endpoint) : step e e' -> extends e e' \/ shrinks e e'.
Proof.
  intros Hs. destruct Hs as [y p f b e' j H|fuel now rnd p j e' msgs H| | | | |fuel now y p f o b o' e' x H|paths msgs ty o o' e' j H|r n y j o o' e' b H|now tmp p o| |fuel rnd j n msgs e' H].
  - exact (kept_frame _ _ _ _ _ _ _ H).
  - exact (kept_job _ _ _ _ _ _ _ _ H).
  - left. apply extends_FlushRecvData.
  - right. apply map_filter_subseteq.
  - right. apply map_filter_subseteq.
  - left. auto with convo.
  - exact (kept_outbound _ _ _ _ _ _ _ _ _ _ _ H).
  - left. exact (extends_AsyncEncrypt _ _ _ _ _ _ _ _ H).
  - left. exact (extends_run_intro _ _ _ _ _ _ _ _ _ H).
  - left. apply extends_path_built.
  - left. apply extends_flush_address.
  - left. apply extends_same. exact (run_pending_same _ _ _ _ _ _ _ H).
Qed.

Lemma try_push_room {A} (x : A) q : (length q < 512)%nat -> try_push x q = q ++ [x].
Proof. intros H. unfold try_push. by rewrite (proj2 (Nat.leb_gt _ _)) by done. Qed.

(** ** Messages that are let in *)
Lemma PutSenderFor_policy tag info b e : m_AuthPolicy (PutSenderFor tag info b e) = m_AuthPolicy e.
Proof. unfold PutSenderFor. destruct (ServiceInfo.Addr info). destruct (is_zero _); [done|]. destruct (Sessions e !! tag); [done|]. by destruct (_ && _). Qed.
Lemma PutSenderFor_there tag info b e s : Sessions e !! tag = Some s -> PutSenderFor tag info b e = e.
Proof. intros H. unfold PutSenderFor. destruct (ServiceInfo.Addr info). rewrite H. by destruct (is_zero _). Qed.
Lemma PutSenderFor_other tag info b e t : t <> tag -> Sessions (PutSenderFor tag info b e) !! t = Sessions e !! t.
Proof.
  intros H. unfold PutSenderFor. destruct (ServiceInfo.Addr info). destruct (is_zero _); [done|]. destruct (Sessions e !! tag); [done|]. destruct (_ && _); [done|]. by apply lookup_insert_ne.
Qed.
Lemma PutCached_lookup tag k e : Sessions (PutCachedSessionKeyFor tag k e) !! tag = Some ((default Session.empty (Sessions e !! tag)) <| Session.sharedKey := k |>).
Proof. apply lookup_insert_eq. Qed.
Lemma PutIntro_lookup tag i e : Sessions (PutIntroFor tag i e) !! tag = Some ((default Session.empty (Sessions e !! tag)) <| Session.intro := i |>).
Proof. apply lookup_insert_eq. Qed.
Lemma PutReplyIntro_lookup tag i e : Sessions (PutReplyIntroFor tag i e) !! tag = (fun s => s <| Session.replyIntro := i |>) <$> Sessions e !! tag.
Proof. apply lookup_alter_eq. Qed.
(** Where the replies to a message go. *)
Definition reply_intro (p : PathRef) (from : list Z) (msg : ProtocolMessage.t) (e : Endpoint) : Introduction.t :=
  if HasInboundConvo (ServiceInfo.Addr (ServiceInfo.UpdateAddr (ProtocolMessage.sender msg))).1 e
  then (ProtocolMessage.introReply msg) <| Introduction.pathID := from |> <| Introduction.router := p_Endpoint p |> else ProtocolMessage.introReply msg.
Lemma ProcessDataMessage_same msg e : Sessions (ProcessDataMessage msg e).2 = Sessions e /\ m_AuthPolicy (ProcessDataMessage msg e).2 = m_AuthPolicy e.
Proof. unfold ProcessDataMessage. match goal with |- context [if ?b then (true, _) else _] => destruct b end; done. Qed.
Lemma HandleData_there now p from msg e s : Sessions e !! ProtocolMessage.tag msg = Some s ->
  Sessions (HandleDataMessage now p from msg e).2 = <[ProtocolMessage.tag msg := Session.RX now (s <| Session.replyIntro := reply_intro p from msg e |>)]> (Sessions e)
  /\ m_AuthPolicy (HandleDataMessage now p from msg e).2 = m_AuthPolicy e.
Proof.
  intros H. unfold HandleDataMessage. rewrite (PutSenderFor_there _ _ _ _ _ H).
  match goal with |- context [ProcessDataMessage ?m ?e1] => destruct (ProcessDataMessage_same m e1) as [-> ->] end. split; [|done].
  change (alter (Session.RX now) (ProtocolMessage.tag msg) (alter (fun s => s <| Session.replyIntro := reply_intro p from msg e |>) (ProtocolMessage.tag msg) (Sessions e)) =
    <[ProtocolMessage.tag msg := Session.RX now (s <| Session.replyIntro := reply_intro p from msg e |>)]> (Sessions e)).
  apply map_eq. intros t. destruct (decide (t = ProtocolMessage.tag msg)) as [->|].
  - by rewrite !lookup_alter_eq, lookup_insert_eq, H.
  - by rewrite !lookup_alter_ne, lookup_insert_ne.
Qed.
Definition enrolled (k : list Z) (msg : ProtocolMessage.t) (e : Endpoint) : Endpoint :=
  let (addr, sender) := ServiceInfo.Addr (ProtocolMessage.sender msg) in
  PutCachedSessionKeyFor (ProtocolMessage.tag msg) k (PutReplyIntroFor (ProtocolMessage.tag msg) (ProtocolMessage.introReply msg)
    (PutSenderFor (ProtocolMessage.tag msg) sender (negb (WantsOutboundSession addr e)) e)).
Definition admitted (now : Z) (p : PathRef) (from k : list Z) (msg : ProtocolMessage.t) (e : Endpoint) : Endpoint :=
  (HandleDataMessage now p from (msg <| ProtocolMessage.sender ::= ServiceInfo.UpdateAddr |>) (enrolled k msg e)).2.
Lemma enrolled_lookup k msg e : exists s', Sessions (enrolled k msg e) !! ProtocolMessage.tag msg = Some s' /\ Session.sharedKey s' = k.
Proof. unfold enrolled. destruct (ServiceInfo.Addr _). eexists. split; [apply PutCached_lookup|done]. Qed.
Lemma extends_enrolled k msg e : extends e (enrolled k msg e).
Proof. unfold enrolled. destruct (ServiceInfo.Addr _). etransitivity; [|apply extends_PutCached]. etransitivity; [|apply extends_PutReplyIntroFor]. auto with convo. Qed.
Lemma enrolled_policy k msg e : m_AuthPolicy (enrolled k msg e) = m_AuthPolicy e.
Proof. unfold enrolled. destruct (ServiceInfo.Addr _). apply PutSenderFor_policy. Qed.
Lemma enrolled_other k msg e t : t <> ProtocolMessage.tag msg -> Sessions (enrolled k msg e) !! t = Sessions e !! t.
Proof.
  intros H. unfold enrolled. destruct (ServiceInfo.Addr _). etransitivity; [apply lookup_insert_ne; done|]. etransitivity; [apply lookup_alter_ne; done|]. by apply PutSenderFor_other.
Qed.
(** Where there is no policy, everybody is let in. *)
Lemma admitted_run now n y p from k msg e : m_AuthPolicy e = None ->
  auth_accepted now n y p from k msg (MkAuthResult eAuthAccepted (chars "OK")) e = Ok (admitted now p from k msg e) /\ m_AuthPolicy (admitted now p from k msg e) = None.
Proof.
  intros He. split.
  - unfold auth_accepted. rewrite bool_decide_true by done. pose proof (enrolled_policy k msg e) as Hp. unfold admitted, enrolled in *. unfold ServiceInfo.Addr in *.
    unfold SendAuthResult. rewrite Hp, He, orb_true_r. done.
  - unfold admitted. destruct (enrolled_lookup k msg e) as (s' & Hs & _). set (msg' := msg <| ProtocolMessage.sender ::= ServiceInfo.UpdateAddr |>).
    destruct (HandleData_there now p from msg' _ s' Hs) as [_ ->]. by rewrite enrolled_policy.
Qed.
Lemma answer_open now rnd p from k msgs : forall e, m_AuthPolicy e = None ->
  answer_all now rnd p from k (zip msgs ((fun _ => accepted_at_once) <$> msgs)) e = Ok (foldl (fun e msg => admitted now p from k msg e) e msgs).
Proof.
  induction msgs as [|msg msgs IH]; intros e He; [done|]. cbn [fmap list_fmap zip zip_with answer_all run_auth rbind foldl].
  match goal with |- context [rnd ?n] => destruct (rnd n) as [nonce y] end. destruct (admitted_run now nonce y p from k msg e He) as [-> Hp]. cbn [rbind]. by apply IH.
Qed.
Lemma ask_open msgs : forall e, m_AuthPolicy e = None -> ask_all msgs e = ((fun _ => accepted_at_once) <$> msgs, e).
Proof. induction msgs as [|msg msgs IH]; intros e He; [done|]. cbn [ask_all]. unfold AsyncProcessAuthMessage. rewrite He, IH by done. done. Qed.
(** The first frame of a conversation, opened. *)
Lemma run_work_open fuel now rnd p f e K ss msg msgs :
  m_AuthPolicy e = None -> pqe_decrypt (ProtocolFrame.C f) (pq_keypair_to_secret (Identity.pq (m_Identity e))) = Some K ->
  ProtocolFrame.DecryptPayloadInto fuel K f = Ok (true, msg :: msgs) -> ProtocolFrame.Verify (ProtocolMessage.sender msg) f = Ok true ->
  Identity.KeyExchange dh_server (ProtocolMessage.sender msg) (ProtocolFrame.N f) (m_Identity e) = Some ss -> Sessions e !! ProtocolMessage.tag msg = None ->
  run_work fuel now rnd p f e = Ok (foldl (fun e m => admitted now p (ProtocolFrame.F f) (session_key K ss) m e) e (msg :: msgs)).
Proof.
  intros Hp HK HD HV Hss Ht. unfold run_work, Work. rewrite HK, HD. cbn [rbind negb]. rewrite HV. cbn [rbind negb orb]. unfold HasConvoTag. rewrite Ht.
  rewrite bool_decide_false by (intros [? [=]]). rewrite Hss. cbn [rbind fmap option_fmap option_map]. rewrite ask_open by done. by apply answer_open.
Qed.
Lemma admitted_lookup now p from k msg e : exists s', Sessions (admitted now p from k msg e) !! ProtocolMessage.tag msg = Some s' /\ Session.sharedKey s' = k
  /\ Session.replyIntro s' = reply_intro p from (msg <| ProtocolMessage.sender ::= ServiceInfo.UpdateAddr |>) (enrolled k msg e).
Proof.
  destruct (enrolled_lookup k msg e) as (s' & Hs & Hk). unfold admitted. set (msg' := msg <| ProtocolMessage.sender ::= ServiceInfo.UpdateAddr |>).
  destruct (HandleData_there now p from msg' _ s' Hs) as [-> _]. change (ProtocolMessage.tag msg) with (ProtocolMessage.tag msg') in *. eexists. by rewrite lookup_insert_eq.
Qed.
Lemma admitted_other now p from k msg e t : t <> ProtocolMessage.tag msg -> Sessions (admitted now p from k msg e) !! t = Sessions e !! t.
Proof.
  intros Ht. destruct (enrolled_lookup k msg e) as (s' & Hs & _). unfold admitted. set (msg' := msg <| ProtocolMessage.sender ::= ServiceInfo.UpdateAddr |>).
  destruct (HandleData_there now p from msg' _ s' Hs) as [-> _]. rewrite lookup_insert_ne by done. by apply enrolled_other.
Qed.
Lemma extends_admitted now p from k msg e : extends e (admitted now p from k msg e).
Proof. unfold admitted. etransitivity; [apply extends_enrolled|apply extends_HandleDataMessage]. Qed.

(** A first frame with two messages, signed by the sender of the first one: if the second names the tag of
    a conversation that the endpoint has with somebody else, that conversation has the key of the frame
    from then on, and its replies go where the frame says. *)
Theorem conversation_hijacked fuel now rnd p f e K ss m1 m2 s :
  m_AuthPolicy e = None -> pqe_decrypt (ProtocolFrame.C f) (pq_keypair_to_secret (Identity.pq (m_Identity e))) = Some K ->
  ProtocolFrame.DecryptPayloadInto fuel K f = Ok (true, [m1; m2]) -> ProtocolFrame.Verify (ProtocolMessage.sender m1) f = Ok true ->
  Identity.KeyExchange dh_server (ProtocolMessage.sender m1) (ProtocolFrame.N f) (m_Identity e) = Some ss ->
  Sessions e !! ProtocolMessage.tag m1 = None -> Sessions e !! ProtocolMessage.tag m2 = Some s ->
  exists e' s', run_work fuel now rnd p f e = Ok e' /\ Sessions e' !! ProtocolMessage.tag m2 = Some s' /\ Session.remote s' = Session.remote s
    /\ Session.sharedKey s' = session_key K ss
    /\ (Session.replyIntro s' = ProtocolMessage.introReply m2
        \/ Introduction.pathID (Session.replyIntro s') = ProtocolFrame.F f /\ Introduction.router (Session.replyIntro s') = p_Endpoint p).
Proof.
  intros Hp HK HD HV Hss H1 H2. eexists. rewrite (run_work_open _ _ _ _ _ _ _ _ _ _ Hp HK HD HV Hss H1). cbn [foldl]. set (k := session_key K ss). set (from := ProtocolFrame.F f).
  set (e1 := admitted now p from k m1 e). assert (Sessions e1 !! ProtocolMessage.tag m2 = Some s) as H3 by (unfold e1; rewrite admitted_other; congruence).
  destruct (admitted_lookup now p from k m2 e1) as (s' & Hs' & Hk & Hr). destruct (extends_admitted now p from k m2 e1 _ _ H3) as (s2 & Hs2 & Hrem).
  exists s'. split_and!; [done|done|congruence|done|]. rewrite Hr. unfold reply_intro. destruct (HasInboundConvo _ _); [by right|by left].
Qed.
(** The text of a first frame may hold a list without messages, of which the first is read. *)
Theorem empty_intro_out_of_bounds fuel now rnd p f e K :
  pqe_decrypt (ProtocolFrame.C f) (pq_keypair_to_secret (Identity.pq (m_Identity e))) = Some K ->
  ProtocolFrame.decrypted K f = enc_list [] -> (2 <= fuel)%nat -> run_work fuel now rnd p f e = Oob.
Proof.
  intros HK HD Hf. unfold run_work, Work. rewrite HK. unfold ProtocolFrame.DecryptPayloadInto. rewrite HD.
  by rewrite (ProtocolFrameSpec.read_many fuel []).
Qed.
End endpoint.

(** ** The handshake *)
Section handshake.
Context {UN : Uninit} {CR : Crypto} {CS : CryptoSpec CR} {KP : KeyPairs} {KS : KeyPairsSpec CR KP} {PQ : Pqe} {PS : PqeSpec PQ} {SH : ShortHasher} {HS : ShortHasherSpec SH} {CY : Crypt}.
Abbreviation msg_text := (fun m => dict (ProtocolMessageSpec.text m)).
(** The keys of a service, from the bytes that were drawn for them. *)
Record identity_of (sd : Identity.seeds) (i : Identity.t) : Prop := {
  seed_sign : length (Identity.s_sign sd) = 32%nat; seed_enc : length (Identity.s_enc sd) = 32%nat;
  id_sign : Identity.signkey i = identity_keygen (Identity.s_sign sd); id_enc : Identity.enckey i = encryption_keygen (Identity.s_enc sd);
  id_pq : Identity.pq i = pqe_keygen (Identity.s_pq sd);
  pub_sign : ServiceInfo.signkey (Identity.pub i) = seckey_topublic (Identity.signkey i); pub_enc : ServiceInfo.enckey (Identity.pub i) = seckey_topublic (Identity.enckey i);
  pub_ok : IntroSetSpec.info_ok (Identity.pub i); pub_addr : is_zero (ServiceInfo.signkey (Identity.pub i)) = false }.
(** A context that has a path to the introduction it uses, of a service whose descriptor it has. *)
Record opens (sd : Identity.seeds) (server : Identity.t) (paths : GetPath) (path : PathRef) (o : OutboundContext.t) (e : Endpoint) : Prop := {
  o_identity : identity_of sd (m_Identity e);
  o_fresh : OutboundContext.generatedIntro o = false;
  o_remote : OutboundContext.remoteIdent o = Identity.pub server; o_keys : addressKeys (OutboundContext.currentIntroSet o) = Identity.pub server;
  o_pq : sntrupKey (OutboundContext.currentIntroSet o) = pq_keypair_to_public (Identity.pq server);
  o_intro : is_zero (Introduction.router (OutboundContext.remoteIntro o)) = false; o_path : paths (Introduction.router (OutboundContext.remoteIntro o)) = Some path;
  o_ready : p_ready path = true; o_room : (length (OutboundContext.sendQueue o) < 512)%nat; o_reply : IntroductionSpec.ok (p_intro path);
  o_tag : length (OutboundContext.currentConvoTag o) = 16%nat;
  o_session : forall s, Sessions e !! OutboundContext.currentConvoTag o = Some s -> Session.remote s = Identity.pub server }.
(** A service that lets everybody in, and does not know the tag or want to open a conversation itself. *)
Record listens (sd : Identity.seeds) (client : ServiceInfo.t) (tag : list Z) (e : Endpoint) : Prop := {
  l_identity : identity_of sd (m_Identity e); l_open : m_AuthPolicy e = None; l_fresh : Sessions e !! tag = None;
  l_passive : WantsOutboundSession (ServiceInfo.signkey client) e = false }.

Definition intro_message (ident : Identity.t) (path : PathRef) (tag payload : list Z) (ty : Z) : ProtocolMessage.t :=
  ProtocolMessage.Mk ty payload (p_intro path) (Identity.pub ident) tag 0 proto_version.
Definition intro_frame (C nonce : list Z) (path : PathRef) : ProtocolFrame.t :=
  ProtocolFrame.empty <| ProtocolFrame.F := Introduction.pathID (p_intro path) |> <| ProtocolFrame.C := C |> <| ProtocolFrame.N := nonce |>.
Lemma intro_frame_ok C nonce path : length C = PQCipherBlock -> length nonce = 32%nat -> IntroductionSpec.ok (p_intro path) -> ProtocolFrameSpec.ok (intro_frame C nonce path).
Proof. intros HC Hn Hi. unfold ProtocolFrameSpec.ok, intro_frame. cbn -[PQCipherBlock zeros]. split_and!; try done; [cbn; lia|]. apply Hi. Qed.
Lemma exchange_agrees sc ss c s nonce : identity_of sc c -> identity_of ss s -> exists k,
  Identity.KeyExchange dh_client (Identity.pub s) nonce c = Some k /\ Identity.KeyExchange dh_server (Identity.pub c) nonce s = Some k /\ length k = SHAREDKEYSIZE.
Proof.
  intros Hc Hs. destruct (dh_agrees (Identity.s_enc sc) (Identity.s_enc ss) nonce (seed_enc _ _ Hc) (seed_enc _ _ Hs)) as (k & E1 & E2 & L). exists k.
  unfold Identity.KeyExchange, ServiceInfo.EncryptionPublicKey. cbn [fst]. rewrite (pub_enc _ _ Hs), (pub_enc _ _ Hc), (id_enc _ _ Hs), (id_enc _ _ Hc). done.
Qed.
Lemma PutSender_known tag info b e : IntroSetSpec.info_ok info -> is_zero (ServiceInfo.signkey info) = false -> WantsOutboundSession (ServiceInfo.signkey info) e && b = false ->
  (forall s, Sessions e !! tag = Some s -> Session.remote s = info) -> exists s, Sessions (PutSenderFor tag info b e) !! tag = Some s /\ Session.remote s = info.
Proof.
  intros Hi Hz Hw He. unfold PutSenderFor. destruct (addr_info _ Hi) as [_ ->]. rewrite Hz. destruct (Sessions e !! tag) as [s|] eqn:E; [eauto|]. rewrite Hw.
  eexists. split; [apply lookup_insert_eq|done].
Qed.
Lemma Result_run x e s : Sessions e !! ProtocolMessage.tag (AsyncKeyExchange.msg x) = Some s ->
  Sessions (AsyncKeyExchange.Result x e) !! ProtocolMessage.tag (AsyncKeyExchange.msg x) =
    Some (s <| Session.sharedKey := AsyncKeyExchange.sharedKey x |> <| Session.intro := AsyncKeyExchange.remoteIntro x |>
            <| Session.replyIntro := ProtocolMessage.introReply (AsyncKeyExchange.msg x) |>).
Proof.
  intros Hs. unfold AsyncKeyExchange.Result. rewrite (PutSenderFor_there _ _ _ _ _ Hs). set (tag := ProtocolMessage.tag (AsyncKeyExchange.msg x)) in *.
  by rewrite PutReplyIntro_lookup, PutIntro_lookup, PutCached_lookup, Hs.
Qed.
(** The frame of the exchange, and the key that it is for. *)
Lemma Encrypt_run sc ss c s r nonce path tag payload ty i fuel : identity_of sc c -> identity_of ss s -> IntroductionSpec.ok (p_intro path) -> length nonce = 32%nat ->
  ProtocolMessageSpec.ok (intro_message c path tag payload ty) -> (length (msg_text (intro_message c path tag payload ty)) <= service_proto_message_max_size)%nat ->
  (service_proto_frame_max_size <= fuel)%nat ->
  let x := AsyncKeyExchange.make (Identity.pub s) c (pq_keypair_to_public (Identity.pq s)) i tag ty in
  let x := x <| AsyncKeyExchange.msg ::= fun m => (ProtocolMessage.PutBuffer payload m) <| ProtocolMessage.introReply := p_intro path |> |> in
  exists C K secret f, let frame := intro_frame C nonce path in let k := session_key K secret in
    AsyncKeyExchange.Encrypt r nonce x ((ProtocolFrame.Clear ProtocolFrame.empty) <| ProtocolFrame.F := Introduction.pathID (p_intro path) |> <| ProtocolFrame.R := 0 |>)
      = Ok (true, AsyncKeyExchange.Mk k (Identity.pub s) c (intro_message c path tag payload ty) (pq_keypair_to_public (Identity.pq s)) i tag, f)
    /\ ProtocolFrameSpec.same_header frame f /\ ProtocolFrameSpec.arrives (Identity.s_sign sc) fuel f
    /\ pqe_decrypt C (pq_keypair_to_secret (Identity.pq s)) = Some K /\ ProtocolFrame.DecryptPayloadInto fuel K (f <| ProtocolFrame.S_ := 0 |>) = Ok (true, [intro_message c path tag payload ty])
    /\ Identity.KeyExchange dh_server (Identity.pub c) nonce s = Some secret.
Proof using CS KS PS.
  intros Hc Hs Hi Hn Hm Hl Hfuel x0 x. destruct (pqe_agrees r (Identity.s_pq ss)) as (C0 & K & EC & LC & LK & ED). destruct (exchange_agrees sc ss c s nonce Hc Hs) as (secret & E1 & E2 & L2).
  set (C := C0 ++ drop (length C0) (zeros PQCipherBlock)).
  assert (length C = PQCipherBlock) as HC by (unfold C, zeros; rewrite length_app, length_drop, length_replicate, LC; done).
  destruct (ProtocolFrameSpec.frame_protects (Identity.s_sign sc) c K _ (intro_frame C nonce path) fuel (seed_sign _ _ Hc) (id_sign _ _ Hc) (intro_frame_ok _ _ _ HC Hn Hi) Hm Hl Hfuel) as (f & E & Hh & _ & Ha & HD).
  exists C, K, secret, f. cbv zeta. split_and!; [|done|done| |done|done].
  - unfold AsyncKeyExchange.Encrypt. change (AsyncKeyExchange.introPubKey x) with (pq_keypair_to_public (Identity.pq s)). rewrite (id_pq _ _ Hs), EC.
    change (AsyncKeyExchange.m_remote x) with (Identity.pub s). change (AsyncKeyExchange.m_LocalIdentity x) with c. rewrite E1.
    match goal with |- context [ProtocolFrame.EncryptAndSign ?m ?k ?i ?g] => change g with (intro_frame C nonce path); change m with (intro_message c path tag payload ty) end.
    match goal with |- context [ProtocolFrame.EncryptAndSign ?m ?k ?i ?g] => change (ProtocolFrame.EncryptAndSign m k i g) with (ProtocolFrame.EncryptAndSign m k c g) end.
    rewrite E. cbn [rbind]. do 2 f_equal. unfold x, x0, AsyncKeyExchange.make. destruct (addr_info _ (pub_ok _ _ Hs)) as [Hu _]. rewrite <- Hu at 2. rewrite <- (id_pq _ _ Hs). done.
  - unfold C. rewrite (id_pq _ _ Hs). apply ED.
Qed.
Lemma enrolled_fresh k msg e addr : let info := ProtocolMessage.sender msg in
  Sessions e !! ProtocolMessage.tag msg = None -> ServiceInfo.Addr info = (addr, info) -> is_zero addr = false -> WantsOutboundSession addr e = false ->
  Sessions (enrolled k msg e) !! ProtocolMessage.tag msg =
    Some (Session.empty <| Session.inbound := true |> <| Session.remote := info |> <| Session.replyIntro := ProtocolMessage.introReply msg |> <| Session.sharedKey := k |>).
Proof.
  intros info Ht Ha Hz Hw. unfold enrolled. fold info. rewrite Ha, Hw. cbn [negb]. rewrite PutCached_lookup, PutReplyIntro_lookup.
  unfold PutSenderFor. rewrite Ha, Hz, Ht, Hw. cbn [andb]. change (Sessions (e <| Sessions ::= ?g |>)) with (g (Sessions e)). cbv beta. by rewrite lookup_insert_eq.
Qed.
Lemma HasInbound_lookup tag s e : Sessions e !! tag = Some s -> Session.inbound s = true -> HasInboundConvo (Session.Addr s) e = true.
Proof.
  intros Hs Hb. unfold HasInboundConvo. apply existsb_exists. exists (tag, s). split; [by apply list_elem_of_In, elem_of_map_to_list|]. by rewrite bool_decide_true, Hb.
Qed.
(** The service, after a first message that is let in. *)
Lemma admitted_fresh now p from k msg e addr : let info := ProtocolMessage.sender msg in
  Sessions e !! ProtocolMessage.tag msg = None -> ServiceInfo.Addr info = (addr, info) -> is_zero addr = false -> WantsOutboundSession addr e = false ->
  exists s, Sessions (admitted now p from k msg e) !! ProtocolMessage.tag msg = Some s /\ Session.sharedKey s = k /\ Session.remote s = info /\ Session.inbound s = true
    /\ Session.replyIntro s = (ProtocolMessage.introReply msg) <| Introduction.pathID := from |> <| Introduction.router := p_Endpoint p |>.
Proof.
  intros info Ht Ha Hz Hw. pose proof (enrolled_fresh k msg e addr Ht Ha Hz Hw) as He. fold info in He. unfold admitted. set (msg' := msg <| ProtocolMessage.sender ::= ServiceInfo.UpdateAddr |>).
  destruct (HandleData_there now p from msg' _ _ He) as [-> _]. change (ProtocolMessage.tag msg') with (ProtocolMessage.tag msg). eexists. split; [apply lookup_insert_eq|].
  split_and!; [done..|]. change (reply_intro p from msg' (enrolled k msg e) = (ProtocolMessage.introReply msg) <| Introduction.pathID := from |> <| Introduction.router := p_Endpoint p |>).
  assert (ServiceInfo.UpdateAddr info = info) as Hu by exact (f_equal snd Ha).
  unfold reply_intro. change (ProtocolMessage.sender msg') with (ServiceInfo.UpdateAddr info). rewrite !Hu, Ha.
  pose proof (HasInbound_lookup _ _ _ He eq_refl) as Hb. unfold Session.Addr in Hb. cbn [Session.remote] in Hb.
  match type of Hb with HasInboundConvo ?a _ = _ => change a with (ServiceInfo.Addr info).1 in Hb end. rewrite Ha in Hb. cbn [fst] in *. by rewrite Hb.
Qed.

Lemma GetSender_lookup tag e s : Sessions e !! tag = Some s -> IntroSetSpec.info_ok (Session.remote s) -> GetSenderFor tag e = Some (Session.remote s).
Proof. intros Hs Hi. unfold GetSenderFor. rewrite Hs. change (Some (ServiceInfo.UpdateAddr (Session.remote s)) = Some (Session.remote s)). by destruct (addr_info _ Hi) as [-> _]. Qed.
Lemma service_answers sc ss c es C K secret nonce path msg f fuel : let s := m_Identity es in
  identity_of sc c -> listens ss (Identity.pub c) (ProtocolMessage.tag msg) es -> ProtocolMessage.sender msg = Identity.pub c ->
  ProtocolFrameSpec.same_header (intro_frame C nonce path) f -> ProtocolFrameSpec.arrives (Identity.s_sign sc) fuel f ->
  pqe_decrypt C (pq_keypair_to_secret (Identity.pq s)) = Some K -> ProtocolFrame.DecryptPayloadInto fuel K (f <| ProtocolFrame.S_ := 0 |>) = Ok (true, [msg]) ->
  Identity.KeyExchange dh_server (Identity.pub c) nonce s = Some secret ->
  forall y' now rnd ps, let f' := f <| ProtocolFrame.S_ := 0 |> in
  HandleHiddenServiceFrame y' ps f' es = Ok (true, es, Some (JIntro f'))
  /\ exists es', run_decrypt fuel now rnd ps (JIntro f') es = Ok (es', []) /\ GetCachedSessionKeyFor (ProtocolMessage.tag msg) es' = Some (session_key K secret)
    /\ GetSenderFor (ProtocolMessage.tag msg) es' = Some (Identity.pub c)
    /\ GetReplyIntroFor (ProtocolMessage.tag msg) es' = Some ((ProtocolMessage.introReply msg) <| Introduction.pathID := Introduction.pathID (p_intro path) |> <| Introduction.router := p_Endpoint ps |>).
Proof.
  intros s Hc Hl Hm (HC & HR & HN & HF & HT) Ha HK HD HX y' now rnd ps f'. destruct (Ha [] []) as [_ HV].
  change (ProtocolFrame.C f = C) in HC. change (ProtocolFrame.R f = 0) in HR. change (ProtocolFrame.N f = nonce) in HN. change (ProtocolFrame.T f = zeros 16) in HT.
  change (ProtocolFrame.F f = Introduction.pathID (p_intro path)) in HF. split.
  { unfold HandleHiddenServiceFrame. change (ProtocolFrame.R f') with (ProtocolFrame.R f). rewrite HR. unfold AsyncDecryptAndVerify. change (ProtocolFrame.T f') with (ProtocolFrame.T f). by rewrite HT. }
  cbn [run_decrypt]. rewrite (run_work_open fuel now rnd ps f' es K secret msg [] (l_open _ _ _ _ Hl)); [|by rewrite <- HK, <- HC|done| | |by apply Hl].
  2: { rewrite Hm. apply HV. by rewrite (pub_sign _ _ Hc), (id_sign _ _ Hc). }
  2: { rewrite Hm. change (ProtocolFrame.N f') with (ProtocolFrame.N f). by rewrite HN. }
  cbn [rbind foldl]. eexists. split; [done|]. change (ProtocolFrame.F f') with (ProtocolFrame.F f). rewrite HF.
  destruct (admitted_fresh now ps (Introduction.pathID (p_intro path)) (session_key K secret) msg es (ServiceInfo.signkey (Identity.pub c))) as (s' & Hs' & Hk & Hrem & _ & Hr); rewrite ?Hm; [apply Hl|apply addr_info, Hc|apply Hc|apply Hl|].
  rewrite Hm in Hrem. split_and!.
  - unfold GetCachedSessionKeyFor. rewrite Hs'. cbn. by rewrite Hk.
  - rewrite (GetSender_lookup _ _ _ Hs'); rewrite Hrem; [done|apply Hc].
  - unfold GetReplyIntroFor. rewrite Hs'. cbn. by rewrite Hr.
Qed.

(** C6. The one that opens a conversation sends a frame from which the service derives the same session key:
    then both have a conversation under the tag, with that key, each with the keys of the other, and the
    service knows where its replies go. *)
Theorem conversation_established sc ss paths path o e es r nonce y payload ty fuel :
  let c := m_Identity e in let s := m_Identity es in let tag := OutboundContext.currentConvoTag o in
  opens sc s paths path o e -> listens ss (Identity.pub c) tag es ->
  in_width 64 ty -> str_ok payload -> length nonce = 32%nat ->
  (length (msg_text (intro_message c path tag payload ty)) <= service_proto_message_max_size)%nat -> (service_proto_frame_max_size <= fuel)%nat ->
  exists o1 e1 j o2 e2 k f, OutboundContext.AsyncGenIntro paths payload ty o e = (o1, e1, Some j) /\ OutboundContext.run_intro r nonce y j o1 e1 = Ok (o2, e2, true)
    /\ OutboundContext.sendQueue o2 = OutboundContext.sendQueue o ++ [(PathTransferMessage.make f (Introduction.pathID (OutboundContext.remoteIntro o)) y, path)]
    /\ ProtocolFrameSpec.arrives (Identity.s_sign sc) fuel f /\ GetCachedSessionKeyFor tag e2 = Some k /\ GetSenderFor tag e2 = Some (Identity.pub s)
    /\ forall y' now rnd ps, let f' := f <| ProtocolFrame.S_ := 0 |> in
      HandleHiddenServiceFrame y' ps f' es = Ok (true, es, Some (JIntro f'))
      /\ exists es', run_decrypt fuel now rnd ps (JIntro f') es = Ok (es', []) /\ GetCachedSessionKeyFor tag es' = Some k /\ GetSenderFor tag es' = Some (Identity.pub c)
        /\ GetReplyIntroFor tag es' = Some ((p_intro path) <| Introduction.router := p_Endpoint ps |>).
Proof using CS KS PS.
  intros c s tag Ho Hl Hty Hpay Hn Hlen Hfuel. pose proof (o_identity _ _ _ _ _ _ Ho) as Hc. pose proof (l_identity _ _ _ _ Hl) as Hs.
  destruct (Encrypt_run sc ss c s r nonce path tag payload ty (OutboundContext.remoteIntro o) fuel Hc Hs (o_reply _ _ _ _ _ _ Ho) Hn) as (C & K & secret & f & E & Hh & Ha & HK & HD & HX); [| done | done|].
  { unfold ProtocolMessageSpec.ok, intro_message. cbn -[zeros]. split_and!; try done; [apply Ho|apply (pub_ok _ _ Hc)|apply Ho]. }
  destruct (PutSender_known tag (Identity.pub s) false e (pub_ok _ _ Hs) (pub_addr _ _ Hs) (andb_false_r _) (o_session _ _ _ _ _ _ Ho)) as (s1 & Hs1 & Hr1).
  set (e1 := PutSenderFor tag (Identity.pub s) false e) in *. cbv zeta in E.
  match type of E with AsyncKeyExchange.Encrypt _ _ ?x ?g = Ok (_, ?x', _) => set (x0 := x) in *; set (g0 := g) in *; set (x1 := x') in * end.
  exists (o <| OutboundContext.generatedIntro := true |>), e1, (x0, g0, path), (o <| OutboundContext.generatedIntro := true |> <| OutboundContext.sendQueue ::= try_push (PathTransferMessage.make f (Introduction.pathID (OutboundContext.remoteIntro o)) y, path) |>),
    (AsyncKeyExchange.Result x1 e1), (session_key K secret), f.
  assert ((length (OutboundContext.sendQueue o) <? 512)%nat = true) as Hroom by (apply Nat.ltb_lt, Ho).
  pose proof (Result_run x1 e1 s1 Hs1) as HR. change (ProtocolMessage.tag (AsyncKeyExchange.msg x1)) with tag in HR. split_and!.
  - unfold OutboundContext.AsyncGenIntro. rewrite (o_fresh _ _ _ _ _ _ Ho), (o_intro _ _ _ _ _ _ Ho), (o_path _ _ _ _ _ _ Ho), (o_remote _ _ _ _ _ _ Ho), (o_keys _ _ _ _ _ _ Ho), (o_pq _ _ _ _ _ _ Ho). done.
  - unfold OutboundContext.run_intro. rewrite E. cbn [rbind negb]. unfold OutboundContext.Send. rewrite (o_ready _ _ _ _ _ _ Ho). cbn [andb].
    change (OutboundContext.sendQueue (o <| OutboundContext.generatedIntro := true |>)) with (OutboundContext.sendQueue o). by rewrite Hroom.
  - change (try_push (PathTransferMessage.make f (Introduction.pathID (OutboundContext.remoteIntro o)) y, path) (OutboundContext.sendQueue o) = OutboundContext.sendQueue o ++ [(PathTransferMessage.make f (Introduction.pathID (OutboundContext.remoteIntro o)) y, path)]).
    apply try_push_room, Ho.
  - done.
  - unfold GetCachedSessionKeyFor. by rewrite HR.
  - rewrite <- Hr1. apply (GetSender_lookup _ _ _ HR). change (IntroSetSpec.info_ok (Session.remote s1)). rewrite Hr1. apply Hs.
  - exact (service_answers sc ss c es C K secret nonce path (intro_message c path tag payload ty) f fuel Hc Hl eq_refl Hh Ha HK HD HX).
Qed.

(** ** Data *)
(** A frame of a conversation, and the messages that the other side finds in it. *)
Definition carries (seed : list Z) (fuel : nat) (k tag F : list Z) (f : ProtocolFrame.t) (batch : list ProtocolMessage.t) : Prop :=
  ProtocolFrame.T f = tag /\ ProtocolFrame.R f = 0 /\ ProtocolFrame.F f = F /\ ProtocolFrameSpec.arrives seed fuel f
  /\ ProtocolFrame.DecryptPayloadInto fuel k (f <| ProtocolFrame.S_ := 0 |>) = Ok (true, batch).
(** The messages [run] fill the buffer to the last byte, so that the end of the list does not fit. *)
Definition fills (run : list ProtocolMessage.t) : Prop := length (concat (msg_text <$> run)) = (service_proto_message_max_size - 1)%nat.
Definition queued (q : list SendEvent) : list ProtocolFrame.t := (fun ev => PathTransferMessage.T ev.1) <$> q.
Record can_send (seed : list Z) (j : OutboundContext.send_job) (rnd : nat -> list Z * list Z) (tag : list Z) : Prop := {
  c_seed : length seed = 32%nat; c_key : Identity.signkey (OutboundContext.j_ident j) = identity_keygen seed; c_ready : p_ready (OutboundContext.j_path j) = true;
  c_F : length (OutboundContext.j_F j) = 16%nat; c_tag : length tag = 16%nat; c_nonce : forall n, length (rnd n).1 = 32%nat }.
Lemma Send_queue y f p o : p_ready p = true -> (length (OutboundContext.sendQueue o) < 512)%nat ->
  OutboundContext.sendQueue (OutboundContext.Send y f p o).2 = OutboundContext.sendQueue o ++ [(PathTransferMessage.make f (Introduction.pathID (OutboundContext.remoteIntro o)) y, p)]
  /\ OutboundContext.currentConvoTag (OutboundContext.Send y f p o).2 = OutboundContext.currentConvoTag o.
Proof.
  intros Hp Hq. unfold OutboundContext.Send. rewrite Hp, (proj2 (Nat.ltb_lt _ _)) by done. split; [|done]. cbn [andb snd].
  etransitivity; [|exact (try_push_room _ _ Hq)]. done.
Qed.
Lemma Send_queued y f p o : p_ready p = true -> (length (OutboundContext.sendQueue o) < 512)%nat ->
  queued (OutboundContext.sendQueue (OutboundContext.Send y f p o).2) = queued (OutboundContext.sendQueue o) ++ [f]
  /\ length (OutboundContext.sendQueue (OutboundContext.Send y f p o).2) = S (length (OutboundContext.sendQueue o))
  /\ OutboundContext.currentConvoTag (OutboundContext.Send y f p o).2 = OutboundContext.currentConvoTag o.
Proof.
  intros Hp Hq. destruct (Send_queue y f p o Hp Hq) as [-> ->]. split_and!; [|rewrite length_app; cbn; lia|done]. unfold queued. by rewrite fmap_app.
Qed.
Lemma run_send_run seed fuel j rnd tag n : can_send seed j rnd tag -> (service_proto_frame_max_size <= fuel)%nat -> forall msgs o,
  OutboundContext.currentConvoTag o = tag -> Forall ProtocolMessageSpec.ok msgs -> Forall (fun m => (length (msg_text m) < service_proto_message_max_size - 1)%nat) msgs ->
  (length msgs <= n)%nat -> (length (OutboundContext.sendQueue o) + length msgs <= 512)%nat ->
  exists o' fs batches lost, OutboundContext.run_send n rnd j msgs o = Ok o' /\ msgs = concat batches ++ lost /\ queued (OutboundContext.sendQueue o') = queued (OutboundContext.sendQueue o) ++ fs
    /\ Forall2 (carries seed fuel (OutboundContext.j_shared j) tag (OutboundContext.j_F j)) fs batches
    /\ (lost = [] \/ exists run rest, lost = run ++ rest /\ fills run).
Proof using CS KS.
  intros Hj Hfuel. induction n as [|n IH]; intros msgs o Ho Hok Hfit Hn Hq; (destruct msgs as [|m msgs]; [exists o, [], [], []; split_and!; [done|done|by rewrite app_nil_r|constructor|by left]|]); [cbn in Hn; lia|].
  cbn [OutboundContext.run_send]. pose proof (c_nonce _ _ _ _ Hj n) as Hnc. destruct (rnd n) as [nonce y]. cbn [fst] in Hnc.
  set (o1 := o <| OutboundContext.sequenceNo := u64 (OutboundContext.sequenceNo o + 1) |>).
  match goal with |- context [ProtocolFrame.EncryptAndSign_many _ _ _ ?g] => set (f0 := g) end.
  assert (ProtocolFrameSpec.ok f0) as Hf0.
  { unfold ProtocolFrameSpec.ok, f0. cbn -[PQCipherBlock zeros]. split_and!; try done; [cbn; lia|apply Hj|]. rewrite Ho. apply Hj. }
  destruct (ProtocolFrameSpec.batch_protected seed (OutboundContext.j_ident j) (OutboundContext.j_shared j) (m :: msgs) f0 fuel (c_seed _ _ _ _ Hj) (c_key _ _ _ _ Hj) Hf0 Hok Hfuel)
    as (b & sent & rest & f' & -> & Hsplit & Hlt & Hmore & Hb & Hgood). cbn [rbind].
  assert (length (enc_list (msg_text <$> sent)) = S (S (length (concat (msg_text <$> sent))))) as El by (unfold enc_list; cbn [length]; rewrite length_app; cbn; lia).
  pose proof (eq_refl : service_proto_message_max_size = 2048%nat) as HM. destruct b; cbn [negb].
  - destruct Hgood as ((_ & HR & _ & HF & HT) & Ha & HD); [done|].
    assert (0 < length sent)%nat as Hs0.
    { destruct sent as [|x sent]; [|cbn; lia]. cbn in Hsplit. specialize (Hmore m msgs (eq_sym Hsplit)). cbn [fmap list_fmap concat length] in Hmore. apply Forall_cons_1 in Hfit as [Hfit _]. lia. }
    assert (length (m :: msgs) = (length sent + length rest)%nat) as Hlen by (rewrite Hsplit; apply length_app). cbn [length] in Hn, Hq, Hlen.
    rewrite Hsplit in Hok, Hfit. apply Forall_app in Hok as [_ Hok]. apply Forall_app in Hfit as [_ Hfit].
    destruct (Send_queued y f' (OutboundContext.j_path j) o1 (c_ready _ _ _ _ Hj)) as (Hsq & Hql & Hst); [change (length (OutboundContext.sendQueue o) < 512)%nat; lia|].
    change (OutboundContext.sendQueue o1) with (OutboundContext.sendQueue o) in Hsq, Hql.
    destruct (IH rest _ (eq_trans Hst Ho) Hok Hfit) as (o' & fs & batches & lost & E & Hrest & Hq' & HF2 & Hlost); [lia|lia|].
    exists o', (f' :: fs), (sent :: batches), lost. split_and!; [exact E|cbn [concat]; rewrite <- app_assoc; by rewrite <- Hrest| | |done].
    + rewrite Hq', Hsq, <- app_assoc. done.
    + constructor; [|done]. unfold carries. split_and!; [by rewrite HT|by rewrite HR|by rewrite HF|done|done].
  - exists o1, [], [], (m :: msgs). rewrite app_nil_r. split_and!; [done..|by constructor|]. right. exists sent, rest. split; [done|]. unfold fills.
    destruct (decide (length (enc_list (msg_text <$> sent)) <= service_proto_message_max_size)%nat) as [Hle|Hle]; [by apply Hb in Hle|lia].
Qed.
(** Frames that arrive one after the other, each with the work it queues. *)
Fixpoint receive (fuel : nat) (now : Z) (rnd : nat -> list Z * list Z) (p : PathRef) (fs : list ProtocolFrame.t) (e : Endpoint) : res Endpoint :=
  match fs with
  | [] => Ok e
  | f :: fs =>
      let* (_, e, j) := HandleHiddenServiceFrame (rnd 0%nat).2 p f e in
      let* e := match j with Some j => let* (e, _) := run_decrypt fuel now rnd p j e in Ok e | None => Ok e end in
      receive fuel now rnd p fs e
  end.
Definition tagged (tag : list Z) (m : ProtocolMessage.t) : ProtocolMessage.t := m <| ProtocolMessage.tag := tag |>.
(** The endpoint has the conversation, with the key and the service that signs. *)
Record talks (seed tag k : list Z) (e : Endpoint) : Prop := {
  t_tag : is_zero tag = false; t_key : GetCachedSessionKeyFor tag e = Some k; t_good : is_zero k = false;
  t_sender : exists info, GetSenderFor tag e = Some info /\ IntroSetSpec.info_ok info /\ ServiceInfo.signkey info = seckey_topublic (identity_keygen seed)
    /\ is_zero (ServiceInfo.signkey info) = false }.
Lemma recv_nil e : e = e <| m_RecvQueue := m_RecvQueue e ++ [] |>.
Proof. rewrite app_nil_r. by destruct e. Qed.
Lemma recv_app e l1 l2 l : l1 ++ l2 = l ->
  (e <| m_RecvQueue := m_RecvQueue e ++ l1 |>) <| m_RecvQueue := m_RecvQueue (e <| m_RecvQueue := m_RecvQueue e ++ l1 |>) ++ l2 |> = e <| m_RecvQueue := m_RecvQueue e ++ l |>.
Proof. intros <-. rewrite app_assoc. reflexivity. Qed.
Lemma queue_recv_run p F ms : forall e, (length (m_RecvQueue e) + length ms <= 512)%nat ->
  foldl (fun e m => QueueRecvData (MkRecv p F m) e) e ms = e <| m_RecvQueue := m_RecvQueue e ++ (MkRecv p F <$> ms) |>.
Proof.
  induction ms as [|m ms IH]; intros e He; cbn [foldl fmap list_fmap]; [apply recv_nil|]. cbn [length] in He.
  assert (QueueRecvData (MkRecv p F m) e = e <| m_RecvQueue := m_RecvQueue e ++ [MkRecv p F m] |>) as ->.
  { rewrite <- try_push_room by lia. reflexivity. }
  rewrite IH; [by apply recv_app|]. change (length (m_RecvQueue e ++ [MkRecv p F m]) + length ms <= 512)%nat. rewrite length_app. cbn. lia.
Qed.
Lemma receive_run seed fuel now rnd p k tag F fs batches : Forall2 (carries seed fuel k tag F) fs batches -> forall e, talks seed tag k e ->
  (length (m_RecvQueue e) + length (concat batches) <= 512)%nat ->
  receive fuel now rnd p ((fun f => f <| ProtocolFrame.S_ := 0 |>) <$> fs) e = Ok (e <| m_RecvQueue := m_RecvQueue e ++ (MkRecv p F <$> (tagged tag <$> concat batches)) |>).
Proof.
  induction 1 as [|f batch fs batches (HT & HR & HF & Ha & HD) _ IH]; intros e He Hq; cbn [fmap list_fmap receive concat].
  { f_equal. apply recv_nil. }
  set (f' := f <| ProtocolFrame.S_ := 0 |>) in *. destruct (t_sender _ _ _ _ He) as (info & Hi & Hok & Hsk & Hz). destruct (addr_info _ Hok) as [_ Haddr].
  cbn [concat length] in Hq. rewrite length_app in Hq. unfold HandleHiddenServiceFrame. change (ProtocolFrame.R f') with (ProtocolFrame.R f). rewrite HR. cbn [Z.eqb negb].
  unfold AsyncDecryptAndVerify. change (ProtocolFrame.T f') with (ProtocolFrame.T f). rewrite HT, (t_tag _ _ _ _ He), (t_key _ _ _ _ He). cbn [mbind option_bind]. rewrite (t_good _ _ _ _ He), Hi. cbn [mbind option_bind].
  rewrite Haddr. cbn [fst]. rewrite Hz. cbn [rbind run_decrypt]. destruct (Ha [] []) as [_ HV]. specialize (HV info Hsk). fold f' in HV. rewrite HV. cbn [rbind negb]. rewrite HD. cbn [rbind negb].
  change (ProtocolFrame.T f') with (ProtocolFrame.T f). change (ProtocolFrame.F f') with (ProtocolFrame.F f). rewrite HT, HF. change (fun m => m <| ProtocolMessage.tag := tag |>) with (tagged tag).
  rewrite queue_recv_run by (rewrite length_fmap; lia). rewrite IH.
  - f_equal. apply recv_app. by rewrite !fmap_app.
  - destruct He as [H1 H2 H3 H4]. by split.
  - match goal with |- (length (m_RecvQueue (e <| m_RecvQueue := ?q |>)) + _ <= _)%nat => change (length q + length (concat batches) <= 512)%nat end. rewrite length_app, !length_fmap. lia.
Qed.
Definition is_traffic (m : ProtocolMessage.t) : Prop := ProtocolMessage.proto m = ProtocolType.TrafficV4 \/ ProtocolMessage.proto m = ProtocolType.TrafficV6.
Lemma ProcessData_traffic m e : is_traffic m -> (length (m_InboundTrafficQueue e) < 512)%nat -> m_InboundTrafficQueue (ProcessDataMessage m e).2 = m_InboundTrafficQueue e ++ [m].
Proof.
  intros Hm Hq. unfold ProcessDataMessage. assert ((ProtocolMessage.proto m =? ProtocolType.TrafficV4) || (ProtocolMessage.proto m =? ProtocolType.TrafficV6) = true) as Ht.
  { apply orb_true_iff. rewrite !Z.eqb_eq. exact Hm. }
  rewrite <- orb_assoc, Ht, orb_true_r. exact (try_push_room m _ Hq).
Qed.
Lemma PutSender_inbound tag info b e : m_InboundTrafficQueue (PutSenderFor tag info b e) = m_InboundTrafficQueue e.
Proof. unfold PutSenderFor. destruct (ServiceInfo.Addr info). destruct (is_zero _); [done|]. destruct (Sessions e !! tag); [done|]. by destruct (_ && _). Qed.
Lemma HandleData_traffic now p from m e : is_traffic m -> IntroSetSpec.info_ok (ProtocolMessage.sender m) -> (length (m_InboundTrafficQueue e) < 512)%nat ->
  m_InboundTrafficQueue (HandleDataMessage now p from m e).2 = m_InboundTrafficQueue e ++ [m].
Proof.
  intros Hm Hi Hq. unfold HandleDataMessage. assert (m <| ProtocolMessage.sender ::= ServiceInfo.UpdateAddr |> = m) as ->.
  { transitivity (m <| ProtocolMessage.sender := ProtocolMessage.sender m |>); [|by destruct m]. destruct (addr_info _ Hi) as [Hu _]. rewrite <- Hu. reflexivity. }
  match goal with |- m_InboundTrafficQueue (ProcessDataMessage m ?e').2 = _ => assert (m_InboundTrafficQueue e' = m_InboundTrafficQueue e) as E end.
  { exact (PutSender_inbound _ _ _ _). }
  rewrite ProcessData_traffic; rewrite ?E; done.
Qed.
Lemma flush_run now evs : forall e, Forall (fun ev => is_traffic (ev_msg ev) /\ IntroSetSpec.info_ok (ProtocolMessage.sender (ev_msg ev))) evs ->
  (length (m_InboundTrafficQueue e) + length evs <= 512)%nat ->
  m_InboundTrafficQueue (foldl (fun e ev => (HandleDataMessage now (fromPath ev) (pathid ev) (ev_msg ev) e).2) e evs) = m_InboundTrafficQueue e ++ (ev_msg <$> evs).
Proof.
  induction evs as [|ev evs IH]; intros e Hall Hq; cbn [foldl fmap list_fmap]; [by rewrite app_nil_r|]. apply Forall_cons in Hall as [[Ht Hi] Hall]. cbn [length] in Hq.
  rewrite IH; rewrite ?HandleData_traffic; [by rewrite <- app_assoc|..]; try done; [lia|rewrite length_app; cbn; lia|lia].
Qed.


Lemma oversized_takes_nothing seed ident key m msgs f : length seed = 32%nat -> Identity.signkey ident = identity_keygen seed -> ProtocolFrameSpec.ok f -> Forall ProtocolMessageSpec.ok (m :: msgs) ->
  (service_proto_message_max_size <= length (msg_text m))%nat -> exists f', ProtocolFrame.EncryptAndSign_many (m :: msgs) key ident f = Ok (true, m :: msgs, f').
Proof using CS KS UN.
  intros Hs Hk Hf Hok Hm. destruct (ProtocolFrameSpec.batch_protected seed ident key (m :: msgs) f _ Hs Hk Hf Hok (le_n _)) as (b & sent & rest & f' & E & Hsplit & Hlt & _ & Hb & _).
  destruct sent as [|x sent].
  - cbn [app] in Hsplit. rewrite <- Hsplit in E. exists f'. rewrite E. by rewrite (proj2 Hb) by (apply Nat.leb_le; reflexivity).
  - injection Hsplit as <- _. cbn [fmap list_fmap concat] in Hlt. rewrite length_app in Hlt. lia.
Qed.
(** A message that does not fit into a frame keeps the loop that sends busy for ever: each round sends a
    frame without messages. *)
Theorem oversized_message_never_ends seed j rnd m msgs o : can_send seed j rnd (OutboundContext.currentConvoTag o) -> Forall ProtocolMessageSpec.ok (m :: msgs) ->
  (service_proto_message_max_size <= length (msg_text m))%nat -> forall fuel, OutboundContext.run_send fuel rnd j (m :: msgs) o = NoFuel.
Proof using CS KS UN.
  intros Hj Hok Hm fuel. revert o Hj. induction fuel as [|fuel IH]; intros o Hj; [done|]. cbn [OutboundContext.run_send]. pose proof (c_nonce _ _ _ _ Hj fuel) as Hnc. destruct (rnd fuel) as [nonce y].
  match goal with |- context [ProtocolFrame.EncryptAndSign_many _ _ _ ?g] => destruct (oversized_takes_nothing seed (OutboundContext.j_ident j) (OutboundContext.j_shared j) m msgs g (c_seed _ _ _ _ Hj) (c_key _ _ _ _ Hj)) as [f' ->] end; [|done|done|].
  { unfold ProtocolFrameSpec.ok. cbn -[PQCipherBlock zeros]. split_and!; try done; [cbn; lia|apply Hj|apply Hj]. }
  cbn [rbind negb]. apply IH. unfold OutboundContext.Send. destruct (_ && _); exact Hj.
Qed.
(** The loop for the traffic that waits always ends: it takes a message in each round, or stops. *)
Theorem pending_traffic_ends seed j rnd msgs e sz n : length seed = 32%nat -> Identity.signkey (m_Identity e) = identity_keygen seed -> Forall ProtocolMessageSpec.ok msgs ->
  length (q_tag j) = 16%nat -> length (Introduction.pathID (p_intro (q_path j))) = 16%nat -> (forall n, length (rnd n).1 = 32%nat) -> (S (length msgs) <= n)%nat ->
  exists e', run_pending n rnd j sz msgs e = Ok e'.
Proof using CS KS UN.
  intros Hs Hk Hok Ht Hp Hrnd Hn. revert msgs e sz Hk Hok Hn. induction n as [|n IH]; intros msgs e sz Hk Hok Hn; [lia|].
  destruct msgs as [|m msgs]; cbn [run_pending]; [eauto|]. case_bool_decide; [eauto|]. pose proof (Hrnd n) as Hnc. destruct (rnd n) as [nonce y].
  match goal with |- context [ProtocolFrame.EncryptAndSign_many _ _ _ ?g] => destruct (ProtocolFrameSpec.batch_protected seed (m_Identity e) (q_K j) (m :: msgs) g service_proto_frame_max_size Hs Hk) as (b & sent & rest & f' & -> & Hsplit & _) end; [|done|done|].
  { unfold ProtocolFrameSpec.ok. cbn -[PQCipherBlock zeros]. split_and!; try done. cbn. lia. }
  cbn [rbind]. destruct sent as [|x sent].
  - cbn [app] in Hsplit. rewrite <- Hsplit. destruct n as [|n']; cbn [run_pending]; rewrite bool_decide_true by done; eauto.
  - rewrite Hsplit in Hok, Hn. apply Forall_app in Hok as [_ Hok]. apply IH; [done|done|]. rewrite length_app in Hn. cbn [length] in Hn. lia.
Qed.

(** ** The address of a sender *)
(** A message that names two senders, one after the other. *)
Definition two_senders (v a : ServiceInfo.t) (tag : list Z) (ty : Z) : list (list Z * list Z) :=
  [([c_a], enc_int ty); ([c_s], dict (ServiceInfoSpec.text v)); ([c_s], dict (ServiceInfoSpec.text a)); ([c_t], enc_str tag)].
Definition mixed (v a : ServiceInfo.t) : ServiceInfo.t := ServiceInfoSpec.over (ServiceInfoSpec.over ServiceInfo.empty v) a.
Definition mixed_message (v a : ServiceInfo.t) (tag : list Z) (ty : Z) : ProtocolMessage.t :=
  ProtocolMessage.empty <| ProtocolMessage.proto := ty |> <| ProtocolMessage.sender := mixed v a |> <| ProtocolMessage.tag := tag |>.
Lemma read_two_senders fuel v a tag ty : ServiceInfoSpec.ok v -> ServiceInfoSpec.ok a -> length tag = 16%nat -> in_width 64 ty -> (length (dict (two_senders v a tag ty)) <= fuel)%nat ->
  ProtocolFrame.read_messages fuel (dict (two_senders v a tag ty)) = Ok (true, [mixed_message v a tag ty]).
Proof.
  intros Hv Ha Ht Hty Hf. unfold ProtocolFrame.read_messages. change (match dict (two_senders v a tag ty) with c :: _ => c | [] => uninit 0 end) with chr_d. rewrite Z.eqb_refl.
  rewrite <- (app_nil_r (dict (two_senders v a tag ty))). change (Buffer (?x ++ []) 0) with ([] ‖ x ++ []).
  rewrite (decode_dict_reads _ _ _ _ (mixed_message v a tag ty)); [done| |done].
  pose proof (fun k v' => entry_length k v' (two_senders v a tag ty) fuel Hf) as Hlen. clear Hf. unfold two_senders in *.
  eexists. split; [ProtocolMessageSpec.message_entry; done|].
  eexists. split; [ProtocolMessageSpec.message_entry; [done|eapply Hlen; in_entries]|].
  eexists. split; [ProtocolMessageSpec.message_entry; [done|eapply Hlen; in_entries]|].
  eexists. split; [ProtocolMessageSpec.message_entry; [apply key_ok_intro; [lia|done]|eapply Hlen; in_entries]|]. done.
Qed.
Lemma mixed_addr v a : is_zero (ServiceInfo.signkey v) = false ->
  ServiceInfo.Addr (mixed v a) = (ServiceInfo.signkey v, mixed v a) /\ ServiceInfo.signkey (mixed v a) = ServiceInfo.signkey a /\ ServiceInfo.enckey (mixed v a) = ServiceInfo.enckey a.
Proof.
  intros Hz. set (s := ServiceInfo.Mk (ServiceInfo.enckey a) (ServiceInfo.signkey a) (ServiceInfo.signkey v) (if is_zero (ServiceInfo.vanity a) then (if is_zero (ServiceInfo.vanity v) then zeros 16 else ServiceInfo.vanity v) else ServiceInfo.vanity a) proto_version).
  assert (mixed v a = ServiceInfo.UpdateAddr s) as -> by reflexivity.
  assert (ServiceInfo.UpdateAddr s = s) as -> by (unfold ServiceInfo.UpdateAddr; change (ServiceInfo.m_CachedAddr s) with (ServiceInfo.signkey v); by rewrite Hz).
  unfold ServiceInfo.Addr, ServiceInfo.UpdateAddr. change (ServiceInfo.m_CachedAddr s) with (ServiceInfo.signkey v). by rewrite Hz.
Qed.
(** C38. The first frame of somebody with the keys [a] may name the service [v] first: then the endpoint has a
    conversation with the address of [v], whose key is the one of the frame. *)
Theorem sender_address_spoofed fuel now rnd p f es K ss v a tag ty :
  ServiceInfoSpec.ok v -> ServiceInfoSpec.ok a -> is_zero (ServiceInfo.signkey v) = false -> length tag = 16%nat -> in_width 64 ty ->
  m_AuthPolicy es = None -> Sessions es !! tag = None -> WantsOutboundSession (ServiceInfo.signkey v) es = false ->
  pqe_decrypt (ProtocolFrame.C f) (pq_keypair_to_secret (Identity.pq (m_Identity es))) = Some K ->
  ProtocolFrame.decrypted K f = dict (two_senders v a tag ty) -> (length (dict (two_senders v a tag ty)) <= fuel)%nat ->
  (forall svc, ServiceInfo.signkey svc = ServiceInfo.signkey a -> ProtocolFrame.Verify svc f = Ok true) -> dh_server (ServiceInfo.enckey a) (Identity.enckey (m_Identity es)) (ProtocolFrame.N f) = Some ss ->
  exists es' s, run_work fuel now rnd p f es = Ok es' /\ Sessions es' !! tag = Some s /\ Session.Addr s = ServiceInfo.signkey v /\ Session.sharedKey s = session_key K ss
    /\ HasInboundConvo (ServiceInfo.signkey v) es' = true.
Proof.
  intros Hv Ha Hz Ht Hty Hp Hs Hw HK HD Hf HV Hdh. destruct (mixed_addr v a Hz) as (Haddr & Hsk & Hek). set (msg := mixed_message v a tag ty).
  destruct (admitted_fresh now p (ProtocolFrame.F f) (session_key K ss) msg es (ServiceInfo.signkey v) Hs Haddr Hz Hw) as (s & Hl & Hk & Hr & Hb & _).
  eexists _, s. assert (Session.Addr s = ServiceInfo.signkey v) as Hsa by (unfold Session.Addr; rewrite Hr; change (ProtocolMessage.sender msg) with (mixed v a); by rewrite Haddr).
  split_and!; [apply (run_work_open fuel now rnd p f es K ss msg [])|exact Hl|done|done|rewrite <- Hsa; exact (HasInbound_lookup _ _ _ Hl Hb)]; try done.
  - unfold ProtocolFrame.DecryptPayloadInto. rewrite HD. by apply read_two_senders.
  - apply HV. exact Hsk.
  - unfold Identity.KeyExchange, ServiceInfo.EncryptionPublicKey. cbn [fst]. change (ProtocolMessage.sender msg) with (mixed v a). by rewrite Hek.
Qed.
End handshake.

(** ** Witnesses *)
Module Reference.
#[export] Existing Instances uninit_ref crypto_xor keypairs_xor pqe_ref no_crypt.
Definition seeds (x : Z) : Identity.seeds := Identity.Seeds (replicate 32 x) (replicate 32 (x + 1)) [].
Definition ident (x : Z) : Identity.t :=
  Identity.Mk (encryption_keygen (replicate 32 (x + 1))) (identity_keygen (replicate 32 x)) (zeros 64) (pqe_keygen []) proto_version (zeros 16)
    (ServiceInfo.Mk (replicate 32 (x + 1)) (replicate 32 x) (replicate 32 x) (zeros 16) proto_version).
Definition endpoint (x : Z) : Endpoint := MkEndpoint ∅ ∅ false [] (ident x) None ∅ ∅ [] [] [].
Definition router : list Z := replicate 32 3.
Definition path : PathRef := MkPath router (Introduction.Mk router (replicate 16 4) 10 100000 0) true.
Definition introset : IntroSet :=
  MkIntroSet (Identity.pub (ident 9)) [p_intro path] (pq_keypair_to_public (pqe_keygen [])) (zeros 16) [] 1 [] [] None (zeros 64) proto_version.
Definition tag : list Z := replicate 16 6.
Definition context : OutboundContext.t :=
  OutboundContext.Mk (Identity.pub (ident 9)) (p_intro path) tag 0 0 5 40000 50000 25000 0 false [] None false introset (p_intro path) 5 0 0 false false false [] 0 0 [].
Definition draws (n : nat) : list Z * list Z := (replicate 32 8, replicate 32 2).
Lemma ident_ref x : 0 < x -> identity_of (seeds x) (ident x).
Proof.
  intros Hx. assert (is_zero (replicate 32 x) = false) as Hz by (destruct x; [lia|reflexivity|lia]).
  split; try reflexivity; [|exact Hz]. split; [|split; reflexivity]. split; [|split]; reflexivity.
Qed.
End Reference.
Import Reference.
Lemma opens_ref : opens (seeds 7) (ident 9) (fun _ => Some path) path context (endpoint 7).
Proof.
  split; try reflexivity; [by apply ident_ref|apply Nat.ltb_lt; reflexivity|unfold IntroductionSpec.ok, time_ok; cbn; split_and!; try done; lia|].
  intros s [=].
Qed.
Lemma listens_ref : listens (seeds 9) (Identity.pub (ident 7)) tag (endpoint 9).
Proof. split; try reflexivity. by apply ident_ref. Qed.
Lemma conversation_established_witness : exists e2 es' k, GetCachedSessionKeyFor tag e2 = Some k /\ GetCachedSessionKeyFor tag es' = Some k
  /\ GetSenderFor tag es' = Some (Identity.pub (ident 7)).
Proof.
  destruct (conversation_established (seeds 7) (seeds 9) (fun _ => Some path) path context (endpoint 7) (endpoint 9) [] (replicate 32 8) (replicate 32 2) [1; 2; 3] ProtocolType.TrafficV4 4096)
    as (o1 & e1 & j & o2 & e2 & k & f & _ & _ & _ & _ & Hk & _ & H).
  - exact opens_ref.
  - exact listens_ref.
  - unfold in_width. vm_compute. split; [discriminate|reflexivity].
  - unfold str_ok. vm_compute. reflexivity.
  - reflexivity.
  - apply Nat.leb_le. vm_compute. reflexivity.
  - apply Nat.leb_le. vm_compute. reflexivity.
  - destruct (H [] 50 draws path) as (_ & es' & _ & Hk' & Hs & _). exists e2, es', k. split; [exact Hk|]. split; [exact Hk'|exact Hs].
Defined.
Definition data (x : Z) (tag payload : list Z) : ProtocolMessage.t :=
  ProtocolMessage.Mk ProtocolType.TrafficV4 payload (p_intro path) (Identity.pub (ident x)) tag 0 proto_version.
Lemma data_ok_ref x t payload : 0 < x -> length t = 16%nat -> str_ok payload -> ProtocolMessageSpec.ok (data x t payload).
Proof.
  intros Hx Ht Hp. unfold ProtocolMessageSpec.ok. split; [vm_compute; split; [discriminate|reflexivity]|]. split; [exact Hp|]. split; [exact (o_reply _ _ _ _ _ _ opens_ref)|].
  split; [exact (pub_ok _ _ (ident_ref x Hx))|]. split; [exact Ht|]. split; (vm_compute; split; [discriminate|reflexivity]).
Qed.
Definition job (k : list Z) : OutboundContext.send_job := OutboundContext.MkSend (replicate 16 4) [] k path (ident 7).
Lemma can_send_ref k : can_send (replicate 32 7) (job k) draws tag.
Proof. split; try reflexivity. Qed.
Definition talking (x : Z) (k : list Z) : Endpoint := (endpoint 9) <| Sessions := {[tag := Session.empty <| Session.remote := Identity.pub (ident x) |> <| Session.sharedKey := k |>]} |>.
Lemma talks_ref : talks (replicate 32 7) tag (replicate 32 5) (talking 7 (replicate 32 5)).
Proof. split; try reflexivity. exists (Identity.pub (ident 7)). split; [reflexivity|]. split; [exact (pub_ok _ _ (ident_ref 7 eq_refl))|]. split; reflexivity. Qed.
Lemma oversized_message_never_ends_witness : OutboundContext.run_send 3 draws (job (replicate 32 5)) [data 7 (zeros 16) (replicate 2000 1)] context = NoFuel.
Proof.
  apply (oversized_message_never_ends (replicate 32 7)).
  - exact (can_send_ref _).
  - repeat constructor; apply data_ok_ref; try reflexivity; (unfold str_ok; vm_compute; reflexivity).
  - apply Nat.leb_le. vm_compute. reflexivity.
Defined.
Definition pending : pending_job := MkPendingJob [] path (replicate 32 5) (p_intro path) tag.
Lemma pending_traffic_ends_witness : exists e', run_pending 2 draws pending None [data 7 (zeros 16) (replicate 2000 1)] (endpoint 7) = Ok e'.
Proof.
  apply (pending_traffic_ends (replicate 32 7)); try reflexivity.
  repeat constructor; apply data_ok_ref; try reflexivity; (unfold str_ok; vm_compute; reflexivity).
Defined.
Lemma conversation_partner_kept_witness : extends (talking 7 [1]) (MarkAddressOutbound router (talking 7 [1])) \/ shrinks (talking 7 [1]) (MarkAddressOutbound router (talking 7 [1])).
Proof. apply conversation_partner_kept. apply step_wanted. Defined.
(** The frames of somebody who knows the tag of a conversation. *)
Definition key_ref : list Z := replicate 32 1218.
Definition first_frame : ProtocolFrame.t := ProtocolFrame.empty <| ProtocolFrame.N := replicate 32 8 |>.
Definition two_messages : ProtocolFrame.t :=
  match ProtocolFrame.EncryptAndSign_many [data 1 (replicate 16 1) [1]; data 1 tag [2]] key_ref (ident 1) first_frame with Ok (_, _, f) => f | _ => ProtocolFrame.empty end.
Lemma conversation_hijacked_witness : exists e' s', Sessions e' !! tag = Some s' /\ Session.remote s' = Identity.pub (ident 7) /\ Session.sharedKey s' <> replicate 32 5.
Proof.
  destruct (conversation_hijacked 4096 50 draws path two_messages (talking 7 (replicate 32 5)) key_ref (default [] (Identity.KeyExchange dh_server (Identity.pub (ident 1)) (replicate 32 8) (ident 9)))
    (data 1 (replicate 16 1) [1]) (data 1 tag [2]) (Session.empty <| Session.remote := Identity.pub (ident 7) |> <| Session.sharedKey := replicate 32 5 |>)) as (e' & s' & _ & Hs & Hr & Hk & _);
    try (vm_compute; reflexivity).
  exists e', s'. split; [exact Hs|]. split; [exact Hr|]. rewrite Hk. vm_compute. discriminate.
Defined.
Definition empty_list : ProtocolFrame.t := ProtocolFrame.put_encrypted key_ref (enc_list []) first_frame.
Lemma empty_intro_out_of_bounds_witness : run_work 16 50 draws path empty_list (endpoint 9) = Oob.
Proof. apply (empty_intro_out_of_bounds 16 50 draws path empty_list (endpoint 9) key_ref); [reflexivity|vm_compute; reflexivity|apply Nat.leb_le; reflexivity]. Defined.
Definition spoofed : ProtocolFrame.t :=
  match ProtocolFrame.Sign (ident 1) (ProtocolFrame.put_encrypted key_ref (dict (two_senders (Identity.pub (ident 7)) (Identity.pub (ident 1)) tag ProtocolType.TrafficV4)) first_frame) with
  | Ok (_, f) => f | _ => ProtocolFrame.empty end.
Lemma sender_address_spoofed_witness : exists es' s, Sessions es' !! tag = Some s /\ Session.Addr s = replicate 32 7.
Proof.
  destruct (sender_address_spoofed 4096 50 draws path spoofed (endpoint 9) key_ref (default [] (dh_server (replicate 32 2) (Identity.enckey (ident 9)) (replicate 32 8)))
    (Identity.pub (ident 7)) (Identity.pub (ident 1)) tag ProtocolType.TrafficV4) as (es' & s & _ & Hs & Ha & _).
  - split; [|split]; reflexivity.
  - split; [|split]; reflexivity.
  - reflexivity.
  - reflexivity.
  - vm_compute. split; [discriminate|reflexivity].
  - reflexivity.
  - reflexivity.
  - reflexivity.
  - reflexivity.
  - vm_compute. reflexivity.
  - apply Nat.leb_le. vm_compute. reflexivity.
  - intros svc H. unfold ProtocolFrame.Verify, ServiceInfo.Verify. rewrite H. vm_compute. reflexivity.
  - vm_compute. reflexivity.
  - exists es', s. split; [exact Hs|exact Ha].
Defined.
