(* ===== verification/LinkMessage.v ===== *)
(** * Messages between routers (llarp/messages)

    The seven kinds of messages of the link layer and their texts, the records that encrypted
    frames hold, and the parser that picks the kind of a message by its first entry, decodes it
    into an object it keeps for that kind and hands it to its handler. The handlers of the
    messages of paths are in [PathContext]; the parser takes the handler as an argument. *)

From S2P Require Import Prelude Buffer Bencode Codec CryptoApi Str NetInt IpRange DnsName DnsMessage Contact Kademlia DhtMessage Frame.
Import EncryptedFrame.

Definition TunnelNonce := list Z.
Abbreviation key32 := (array_bencodable 32) (only parsing).

(** ** Relayed traffic (relay.cpp): [RelayUpstreamMessage] and [RelayDownstreamMessage] *)
Module Relay.
Definition MAX_X : nat := MAX_LINK_MSG_SIZE - 128.
Record t := Mk { pathid : PathID_t; X : list Z; Y : TunnelNonce; version : Z }.
#[export] Instance eta_t : Eta t := fun m => Mk (pathid m) (X m) (Y m) (version m).
Definition empty : t := Mk (zeros PATHIDSIZE) [] (zeros TUNNONCESIZE) proto_version.
Definition Clear (_ : t) : t := Mk (zeros PATHIDSIZE) Encrypted.Clear (zeros TUNNONCESIZE) 0.
Definition BEncode (kind : Z) (m : t) : writer :=
  bencode_start_dict
  ⩓ BEncodeWriteDictMsgType [c_a] [kind]
  ⩓ BEncodeWriteDictEntry (EA := key16) [c_p] (pathid m)
  ⩓ BEncodeWriteDictInt [c_v] proto_version
  ⩓ BEncodeWriteDictEntry (EA := Encrypted.bencodable MAX_X) [c_x] (X m)
  ⩓ BEncodeWriteDictEntry (EA := key32) [c_y] (Y m)
  ⩓ bencode_end.
Definition DecodeKey (fuel : nat) : decode_key t := return_read
  (maybe_entry (EA := key16) fuel [c_p] pathid (fun x m => m <| pathid := x |>)
   ⨾ maybe_version [c_v] proto_version version (fun x m => m <| version := x |>)
   ⨾ maybe_entry (EA := Encrypted.bencodable MAX_X) fuel [c_x] X (fun x m => m <| X := x |>)
   ⨾ maybe_entry (EA := key32) fuel [c_y] Y (fun x m => m <| Y := x |>)).
End Relay.

(** ** Frames of a build and of its status: eight of them *)
Definition max_len : nat := 8.
Definition empty_frames : list (list Z) := replicate max_len EncryptedFrame.empty.
(** [BEncodeReadArray(frames, buf)] *)
Definition read_frames {M} (fuel : nat) (get : M -> list (list Z)) (set : list (list Z) -> M -> M) : decode_key M := fun m _ b =>
  let* (ok, (frames, _), b) := BEncodeReadArray (EA := frame_bencodable) fuel (get m) b in Ok (ok, set frames m, b).

Module LR_CommitMessage.
Record t := Mk { frames : list (list Z); pathid : PathID_t; version : Z }.
#[export] Instance eta_t : Eta t := fun m => Mk (frames m) (pathid m) (version m).
Definition empty : t := Mk empty_frames (zeros PATHIDSIZE) proto_version.
Definition Clear (m : t) : t := Mk ((fun _ => Encrypted.Clear) <$> frames m) (pathid m) 0.
Definition BEncode (m : t) : writer :=
  bencode_start_dict
  ⩓ BEncodeWriteDictMsgType [c_a] [c_c]
  ⩓ BEncodeWriteDictArray (EA := frame_bencodable) [c_c] (frames m)
  ⩓ bencode_write_uint64_entry [c_v] proto_version
  ⩓ bencode_end.
(** The path id is filled with the letter, so that the message is not queued behind a path. *)
Definition DecodeKey (fuel : nat) : decode_key t :=
  on_key [c_c] (fun m => read_frames fuel frames (fun x m => m <| frames := x |>) (m <| pathid := replicate PATHIDSIZE c_c |>))
  (return_read (maybe_version [c_v] proto_version version (fun x m => m <| version := x |>))).
End LR_CommitMessage.

Module LR_StatusMessage.
Record t := Mk { frames : list (list Z); pathid : PathID_t; status : Z; version : Z }.
#[export] Instance eta_t : Eta t := fun m => Mk (frames m) (pathid m) (status m) (version m).
Definition empty : t := Mk empty_frames (zeros PATHIDSIZE) 0 proto_version.
Definition Clear (m : t) : t := Mk ((fun _ => Encrypted.Clear) <$> frames m) (pathid m) 0 0.
Definition BEncode (m : t) : writer :=
  bencode_start_dict
  ⩓ BEncodeWriteDictMsgType [c_a] [c_s]
  ⩓ BEncodeWriteDictArray (EA := frame_bencodable) [c_c] (frames m)
  ⩓ BEncodeWriteDictEntry (EA := key16) [c_p] (pathid m)
  ⩓ BEncodeWriteDictInt [c_s] (status m)
  ⩓ bencode_write_uint64_entry [c_v] proto_version
  ⩓ bencode_end.
Definition DecodeKey (fuel : nat) : decode_key t :=
  on_key [c_c] (read_frames fuel frames (fun x m => m <| frames := x |>))
  (on_key [c_p] (return_read (maybe_entry (EA := key16) fuel [c_p] pathid (fun x m => m <| pathid := x |>)))
  (on_key [c_s] (return_read (maybe_int 64 [c_s] status (fun x m => m <| status := x |>)))
  (on_key [c_v] (return_read (maybe_version [c_v] proto_version version (fun x m => m <| version := x |>)))
  return_false))).
End LR_StatusMessage.

(** ** The record of a status frame *)
Module LR_StatusRecord.
Definition SUCCESS : Z := Z.shiftl 1 0.
Definition FAIL_TIMEOUT : Z := Z.shiftl 1 1.
Definition FAIL_CONGESTION : Z := Z.shiftl 1 2.
Definition FAIL_DEST_UNKNOWN : Z := Z.shiftl 1 3.
Definition FAIL_DECRYPT_ERROR : Z := Z.shiftl 1 4.
Definition FAIL_MALFORMED_RECORD : Z := Z.shiftl 1 5.
Definition FAIL_DEST_INVALID : Z := Z.shiftl 1 6.
Definition FAIL_CANNOT_CONNECT : Z := Z.shiftl 1 7.
Definition FAIL_DUPLICATE_HOP : Z := Z.shiftl 1 8.
Record t := Mk { status : Z; version : Z }.
#[export] Instance eta_t : Eta t := fun m => Mk (status m) (version m).
Definition empty : t := Mk 0 0.
Definition BEncode (m : t) : writer :=
  bencode_start_dict ⩓ BEncodeWriteDictInt [c_s] (status m) ⩓ bencode_write_uint64_entry [c_v] proto_version ⩓ bencode_end.
Definition OnKey (fuel : nat) : decode_key t := return_read
  (maybe_int 64 [c_s] status (fun x m => m <| status := x |>)
   ⨾ maybe_version [c_v] proto_version version (fun x m => m <| version := x |>)).
Definition BDecode (fuel : nat) (m : t) (b : llarp_buffer_t) : res (bool * t * llarp_buffer_t) := bencode_decode_dict fuel (OnKey fuel) m b.

Definition code_strings : list (Z * list Z) :=
  [(SUCCESS, chars "success"); (FAIL_TIMEOUT, chars "timeout"); (FAIL_CONGESTION, chars "congestion");
   (FAIL_DEST_UNKNOWN, chars "destination unknown"); (FAIL_DECRYPT_ERROR, chars "decrypt error");
   (FAIL_MALFORMED_RECORD, chars "malformed record"); (FAIL_DEST_INVALID, chars "destination invalid");
   (FAIL_CANNOT_CONNECT, chars "cannot connect"); (FAIL_DUPLICATE_HOP, chars "duplicate hop")].
Definition LRStatusCodeToString (status : Z) : list Z :=
  foldl (fun s e =>
    if Z.land status e.1 =? e.1
    then (if (1 <? length s)%nat then s ++ chars ", " else s) ++ e.2
    else s) (chars "[") code_strings ++ chars "]".
End LR_StatusRecord.

Section contacts.
Context {IP : InetPton} {IN : InetNtop} {BT : OxencBt} {BD : OxencDict}.
(** The network of the program, and what the memory of an address held before it was read. *)
Context (ours : list Z) (rank0 port0 : Z).

(** ** The record of a commit frame *)
Record LR_CommitRecord := MkCommitRecord { commkey : list Z; nextHop : RouterID; tunnelNonce : TunnelNonce; txid : PathID_t; rxid : PathID_t;
  nextRC : option RouterContact; cr_version : Z; lifetime : Z }.
#[local] Instance eta_CommitRecord : Eta LR_CommitRecord := fun m =>
  MkCommitRecord (commkey m) (nextHop m) (tunnelNonce m) (txid m) (rxid m) (nextRC m) (cr_version m) (lifetime m).
Definition CommitRecord_empty : LR_CommitRecord := MkCommitRecord (zeros 32) (zeros 32) (zeros 32) (zeros 16) (zeros 16) None 0 0.
(** The lifetime is written under the letter of the next hop. *)
Definition CommitRecord_BEncode (m : LR_CommitRecord) : writer :=
  bencode_start_dict
  ⩓ BEncodeWriteDictEntry (EA := key32) [c_c] (commkey m)
  ⩓ BEncodeWriteDictEntry (EA := key32) [c_i] (nextHop m)
  ⩓ write_if ((10000 <? lifetime m) && (lifetime m <? default_lifetime)) (BEncodeWriteDictTime [c_i] (lifetime m))
  ⩓ BEncodeWriteDictEntry (EA := key32) [c_n] (tunnelNonce m)
  ⩓ BEncodeWriteDictEntry (EA := key16) [c_r] (rxid m)
  ⩓ BEncodeWriteDictEntry (EA := key16) [c_t] (txid m)
  ⩓ write_opt (nextRC m) (BEncodeWriteDictEntry (EA := rc_bencodable ours rank0 port0) [c_u])
  ⩓ bencode_write_uint64_entry [c_v] proto_version
  ⩓ bencode_end.
(** [*key->cur]: an empty key lies where the buffer stands. *)
Definition key_char (key b : llarp_buffer_t) : res Z := match mem key with c :: _ => Ok c | [] => deref b end.
Definition CommitRecord_entries (fuel : nat) :=
  maybe_entry (EA := key32) fuel [c_c] commkey (fun x m => m <| commkey := x |>)
  ⨾ maybe_entry (EA := key32) fuel [c_i] nextHop (fun x m => m <| nextHop := x |>)
  ⨾ maybe_time [c_l] (fun x m => m <| lifetime := x |>)
  ⨾ maybe_entry (EA := key32) fuel [c_n] tunnelNonce (fun x m => m <| tunnelNonce := x |>)
  ⨾ maybe_entry (EA := key16) fuel [c_r] rxid (fun x m => m <| rxid := x |>)
  ⨾ maybe_entry (EA := key16) fuel [c_t] txid (fun x m => m <| txid := x |>).
Definition CommitRecord_OnKey (fuel : nat) : decode_key LR_CommitRecord := fun m key b =>
  let* (ok, (m, rd), b) := CommitRecord_entries fuel (m, false) key b in
  if negb ok then Ok (false, m, b)
  else if startswith [c_u] key then
    let* (ok, rc, b) := RouterContact.BDecode rank0 port0 fuel (RouterContact.default ours) b in Ok (ok, m <| nextRC := Some rc |>, b)
  else
    let* (ok, (m, rd), b) := maybe_version [c_v] proto_version cr_version (fun x m => m <| cr_version := x |>) (m, rd) key b in
    if negb ok then Ok (false, m, b)
    else
      let* c := key_char key b in
      if c =? c_w then let* (ok, _, b) := bencode_discard fuel b in Ok (ok, m, b) else Ok (rd, m, b).
Definition CommitRecord_BDecode (fuel : nat) (m : LR_CommitRecord) (b : llarp_buffer_t) : res (bool * LR_CommitRecord * llarp_buffer_t) :=
  bencode_decode_dict fuel (CommitRecord_OnKey fuel) m b.

(** ** The introduction of a session (link_intro.cpp) *)
Record LinkIntroMessage := MkLIM { rc : RouterContact; N : list Z; Z_ : list Z; P : Z; lim_version : Z }.
#[local] Instance eta_LIM : Eta LinkIntroMessage := fun m => MkLIM (rc m) (N m) (Z_ m) (P m) (lim_version m).
(** [P] is not initialised: it holds what the memory held. *)
Definition LIM_empty (p0 : Z) : LinkIntroMessage := MkLIM (RouterContact.default ours) (zeros 32) (zeros 64) p0 proto_version.
Definition LIM_Clear (m : LinkIntroMessage) : LinkIntroMessage := MkLIM (RouterContact.Clear (rc m)) (zeros 32) (zeros 64) 0 0.
Definition LIM_MaxSize : nat := RouterContact.MAX_RC_SIZE + 256.
Definition LIM_BEncode (m : LinkIntroMessage) : writer :=
  bencode_start_dict
  ⩓ (bencode_write_bytestring [c_a] ⩓ bencode_write_bytestring [c_i])
  ⩓ (bencode_write_bytestring [c_n] ⩓ bencode_write_bytestring (N m))
  ⩓ (bencode_write_bytestring [c_p] ⩓ bencode_write_uint64 (P m))
  ⩓ (bencode_write_bytestring [c_r] ⩓ Bencode.BEncode (BEncodable := rc_bencodable ours rank0 port0) (rc m))
  ⩓ bencode_write_uint64_entry [c_v] proto_version
  ⩓ (bencode_write_bytestring [c_z] ⩓ bencode_write_bytestring (Z_ m))
  ⩓ bencode_end.
(** A letter that has to be there. *)
Definition read_letter {M} (c : Z) : decode_key M := fun m _ b =>
  let* (strbuf, b) := bencode_read_string b in
  match strbuf with
  | None => Ok (false, m, b)
  | Some str => if negb (sz str =? 1)%nat then Ok (false, m, b) else let* x := byte_at 0 (mem str) in Ok (x =? c, m, b)
  end.
(** [if (!bencode_read_integer(buf, &version)) return false; return version == proto_version] *)
Definition read_version {M} (set : Z -> M -> M) : decode_key M := fun m _ b =>
  let* (v, b) := bencode_read_integer b in
  match v with None => Ok (false, m, b) | Some v => Ok (v =? proto_version, set v m, b) end.
Definition LIM_DecodeKey (fuel : nat) : decode_key LinkIntroMessage :=
  on_key [c_a] (read_letter c_i)
  (on_key [c_n] (read_entry_into (EA := key32) fuel (fun x m => m <| N := x |>))
  (on_key [c_p] (read_integer_into (fun x m => m <| P := x |>))
  (on_key [c_r] (fun m _ b => let* (ok, c, b) := RouterContact.BDecode rank0 port0 fuel (rc m) b in Ok (ok, m <| rc := c |>, b))
  (on_key [c_v] (read_version (fun x m => m <| lim_version := x |>))
  (on_key [c_z] (read_entry_into (EA := array_bencodable 64) fuel (fun x m => m <| Z_ := x |>))
  (fun m key b => let* _ := key_char key b in Ok (false, m, b))))))).

Section crypto.
Context {CR : Crypto} {OS : OxencSwap}.
(** [signer] signs with the key of the router. *)
Definition LIM_Sign (signer : list Z -> option (list Z)) (m : LinkIntroMessage) : res (bool * LinkIntroMessage) :=
  let m := m <| Z_ := zeros 64 |> in
  let* data := encode_into LIM_MaxSize (LIM_BEncode m) in
  match data with
  | None => Ok (false, m)
  | Some data => match signer data with Some z => Ok (true, m <| Z_ := z |>) | None => Ok (false, m) end
  end.
Definition LIM_Verify (BlockBogons : bool) (now : Z) (m : LinkIntroMessage) : res bool :=
  let* data := encode_into LIM_MaxSize (LIM_BEncode (m <| Z_ := zeros 64 |>)) in
  match data with
  | None => Ok false
  | Some data =>
      if negb (verify (RouterContact.pubkey (rc m)) data (Z_ m)) then Ok false
      else RouterContact.Verify rank0 port0 ours BlockBogons now true (rc m)
  end.
(** [HandleMessage]; [GotLIM] is the handler of the session. *)
Definition LIM_HandleMessage {W} (BlockBogons : bool) (now : Z) (GotLIM : LinkIntroMessage -> W -> res (bool * W)) (m : LinkIntroMessage) (w : W) : res (bool * W) :=
  let* ok := LIM_Verify BlockBogons now m in if ok : bool then GotLIM m w else Ok (false, w).
End crypto.

(** ** DHT messages and discarded ones *)
Record DHTImmediateMessage := MkDHTImmediate { msgs : list IMessage; dht_version : Z }.
#[local] Instance eta_DHTImmediate : Eta DHTImmediateMessage := fun m => MkDHTImmediate (msgs m) (dht_version m).
Definition DHTImmediate_empty : DHTImmediateMessage := MkDHTImmediate [] proto_version.
Definition DHTImmediate_Clear (_ : DHTImmediateMessage) : DHTImmediateMessage := MkDHTImmediate [] 0.
Fixpoint write_bodies (l : list IMessage) : writer :=
  match l with [] => fun b => Ok (true, b) | m :: l => BEncode_body ours rank0 port0 (msg m) ⩓ write_bodies l end.
Definition DHTImmediate_BEncode (m : DHTImmediateMessage) : writer :=
  bencode_start_dict
  ⩓ (bencode_write_bytestring [c_a] ⩓ bencode_write_bytestring [c_m])
  ⩓ (bencode_write_bytestring [c_m] ⩓ bencode_start_list ⩓ write_bodies (msgs m) ⩓ bencode_end)
  ⩓ bencode_write_uint64_entry [c_v] proto_version
  ⩓ bencode_end.
(** [from] is the router of the session. *)
Definition DHTImmediate_DecodeKey (fuel : nat) (from : Key_t) : decode_key DHTImmediateMessage :=
  on_key [c_m] (fun m _ b => let* (ok, l, b) := DecodeMesssageList ours rank0 port0 fuel from false (msgs m) b in Ok (ok, m <| msgs := l |>, b))
  (on_key [c_v] (read_version (fun x m => m <| dht_version := x |>)) return_false).

Definition Discard_BEncode : writer :=
  bencode_start_dict ⩓ (bencode_write_bytestring [c_a] ⩓ bencode_write_bytestring [c_x]) ⩓ bencode_end.
(** A [DiscardMessage] has no more than its version. *)
Definition Discard_DecodeKey : decode_key Z := on_key [c_a] (read_letter c_x) return_false.

(** ** The parser (link_message_parser.cpp)

    [msg_holder_t] has one object of each kind; [msg] points to the one in use. *)
Inductive link_kind := KIntro | KDown | KUp | KDht | KCommit | KStatus | KDiscard.
Record holder := Holder { h_i : LinkIntroMessage; h_d : Relay.t; h_u : Relay.t; h_m : DHTImmediateMessage;
  h_c : LR_CommitMessage.t; h_s : LR_StatusMessage.t; h_x : Z }.
#[local] Instance eta_holder : Eta holder := fun h => Holder (h_i h) (h_d h) (h_u h) (h_m h) (h_c h) (h_s h) (h_x h).
Record LinkMessageParser := Parser { firstkey : bool; parsing : option link_kind; held : holder }.
#[local] Instance eta_parser : Eta LinkMessageParser := fun p => Parser (firstkey p) (parsing p) (held p).
Definition parser_init (p0 : Z) : LinkMessageParser :=
  Parser false None (Holder (LIM_empty p0) Relay.empty Relay.empty DHTImmediate_empty LR_CommitMessage.empty LR_StatusMessage.empty proto_version).

Inductive ILinkMessage :=
  | LIntro (m : LinkIntroMessage) | LDownstream (m : Relay.t) | LUpstream (m : Relay.t) | LDHT (m : DHTImmediateMessage)
  | LCommit (m : LR_CommitMessage.t) | LStatus (m : LR_StatusMessage.t) | LDiscard (version : Z).
Definition held_message (k : link_kind) (h : holder) : ILinkMessage :=
  match k with
  | KIntro => LIntro (h_i h) | KDown => LDownstream (h_d h) | KUp => LUpstream (h_u h) | KDht => LDHT (h_m h)
  | KCommit => LCommit (h_c h) | KStatus => LStatus (h_s h) | KDiscard => LDiscard (h_x h)
  end.
Definition link_BEncode (m : ILinkMessage) : writer :=
  match m with
  | LIntro m => LIM_BEncode m | LDownstream m => Relay.BEncode c_d m | LUpstream m => Relay.BEncode c_u m | LDHT m => DHTImmediate_BEncode m
  | LCommit m => LR_CommitMessage.BEncode m | LStatus m => LR_StatusMessage.BEncode m | LDiscard _ => Discard_BEncode
  end.
(** The virtual [Clear] and [DecodeKey]. *)
Definition clear_held (k : link_kind) (h : holder) : holder :=
  match k with
  | KIntro => h <| h_i ::= LIM_Clear |> | KDown => h <| h_d ::= Relay.Clear |> | KUp => h <| h_u ::= Relay.Clear |>
  | KDht => h <| h_m ::= DHTImmediate_Clear |> | KCommit => h <| h_c ::= LR_CommitMessage.Clear |>
  | KStatus => h <| h_s ::= LR_StatusMessage.Clear |> | KDiscard => h <| h_x := 0 |>
  end.
Definition into {M} (dk : decode_key M) (get : holder -> M) (set : M -> holder -> holder) : decode_key holder := fun h key b =>
  let* (ok, m, b) := dk (get h) key b in Ok (ok, set m h, b).
Definition decode_held (fuel : nat) (from : RouterID) (k : link_kind) : decode_key holder :=
  match k with
  | KIntro => into (LIM_DecodeKey fuel) h_i (fun m h => h <| h_i := m |>)
  | KDown => into (Relay.DecodeKey fuel) h_d (fun m h => h <| h_d := m |>)
  | KUp => into (Relay.DecodeKey fuel) h_u (fun m h => h <| h_u := m |>)
  | KDht => into (DHTImmediate_DecodeKey fuel from) h_m (fun m h => h <| h_m := m |>)
  | KCommit => into (LR_CommitMessage.DecodeKey fuel) h_c (fun m h => h <| h_c := m |>)
  | KStatus => into (LR_StatusMessage.DecodeKey fuel) h_s (fun m h => h <| h_s := m |>)
  | KDiscard => into Discard_DecodeKey h_x (fun m h => h <| h_x := m |>)
  end.
Definition kind_of_letter (c : Z) : option link_kind :=
  if c =? c_i then Some KIntro else if c =? c_d then Some KDown else if c =? c_u then Some KUp else if c =? c_m then Some KDht
  else if c =? c_c then Some KCommit else if c =? c_s then Some KStatus else if c =? c_x then Some KDiscard else None.

Section parser.
(** The rest of the router, and [HandleMessage] of a message from the session of a router. *)
Context {W : Type} (handle : RouterID -> ILinkMessage -> W -> res (bool * W)).

Definition Reset (p : LinkMessageParser) : LinkMessageParser :=
  match parsing p with Some k => p <| held ::= clear_held k |> <| parsing := None |> | None => p end.
Definition MessageDone (from : RouterID) (p : LinkMessageParser) (w : W) : res (bool * LinkMessageParser * W) :=
  let* (result, w) := match parsing p with Some k => handle from (held_message k (held p)) w | None => Ok (false, w) end in
  Ok (result, Reset p, w).
(** [operator()] *)
Definition parser_sink (fuel : nat) (from : RouterID) (st : LinkMessageParser * W) (key : option llarp_buffer_t) (b : llarp_buffer_t)
  : res (bool * (LinkMessageParser * W) * llarp_buffer_t) :=
  let (p, w) := st in
  if firstkey p then
    match key with
    | None => Ok (false, st, b)
    | Some key =>
        if negb (startswith [c_a] key) then Ok (false, st, b)
        else
          let* (strbuf, b) := bencode_read_string b in
          match strbuf with
          | None => Ok (false, st, b)
          | Some str =>
              if negb (sz str =? 1)%nat then Ok (false, st, b)
              else
                let* c := byte_at 0 (mem str) in
                match kind_of_letter c with
                | None => Ok (false, st, b)
                | Some k => Ok (true, (p <| parsing := Some k |> <| firstkey := false |>, w), b)
                end
          end
    end
  else
    match key with
    | None => let* (ok, p, w) := MessageDone from p w in Ok (ok, (p, w), b)
    | Some key =>
        match parsing p with
        | None => Oob
        | Some k => let* (ok, h, b) := decode_held fuel from k (held p) key b in Ok (ok, (p <| held := h |>, w), b)
        end
    end.
(** From the session of the router [from], if there is one. *)
Definition ProcessFrom (fuel : nat) (from : option RouterID) (buf : list Z) (p : LinkMessageParser) (w : W)
  : res (bool * LinkMessageParser * W) :=
  match from with
  | None => Ok (false, p, w)
  | Some from =>
      let* (ok, (p, w), _) := bencode_read_dict fuel (parser_sink fuel from) (p <| firstkey := true |>, w) (Buffer buf 0) in Ok (ok, p, w)
  end.
End parser.
End contacts.

(** * What the parser delivers *)
Module LinkMessageSpec.
Import DhtMessageSpec.
Section spec.
Context {IP : InetPton} {IN : InetNtop} {INS : InetNtopSpec IP IN} {BT : OxencBt} {BD : OxencDict} {BDS : OxencDictSpec BD}.
Context (ours : list Z) (rank0 port0 : Z).
Abbreviation entry := (list Z * list Z)%type.
Abbreviation contact_text := (fun rc => dict (RouterContactSpec.text rc)).
#[local] Instance rc_spec : @BEncodableSpec _ (rc_bencodable ours rank0 port0) contact_text contact_ok := RouterContactSpec.contact_spec rank0 port0 ours.
#[local] Existing Instances eta_LIM eta_DHTImmediate eta_holder eta_parser.

Definition frames_text (l : list (list Z)) : list Z := enc_list (enc_str <$> l).
Definition relay_text (m : Relay.t) : list entry :=
  [([c_p], enc_str (Relay.pathid m)); ([c_v], enc_int proto_version); ([c_x], enc_str (Relay.X m)); ([c_y], enc_str (Relay.Y m))].
Definition commit_text (m : LR_CommitMessage.t) : list entry :=
  [([c_c], frames_text (LR_CommitMessage.frames m)); ([c_v], enc_int proto_version)].
Definition status_text (m : LR_StatusMessage.t) : list entry :=
  [([c_c], frames_text (LR_StatusMessage.frames m)); ([c_p], enc_str (LR_StatusMessage.pathid m));
   ([c_s], enc_int (LR_StatusMessage.status m)); ([c_v], enc_int proto_version)].
Definition lim_text (m : LinkIntroMessage) : list entry :=
  [([c_n], enc_str (N m)); ([c_p], enc_int (P m)); ([c_r], contact_text (rc m)); ([c_v], enc_int proto_version); ([c_z], enc_str (Z_ m))].
Definition dht_text (m : DHTImmediateMessage) : list entry :=
  [([c_m], enc_list ((fun m => dict (body_text (msg m))) <$> msgs m)); ([c_v], enc_int proto_version)].
Definition letter (m : ILinkMessage) : Z :=
  match m with LIntro _ => c_i | LDownstream _ => c_d | LUpstream _ => c_u | LDHT _ => c_m | LCommit _ => c_c | LStatus _ => c_s | LDiscard _ => c_x end.
Definition link_text (m : ILinkMessage) : list entry :=
  ([c_a], enc_str [letter m]) ::
  match m with
  | LIntro m => lim_text m | LDownstream m | LUpstream m => relay_text m | LDHT m => dht_text m
  | LCommit m => commit_text m | LStatus m => status_text m | LDiscard _ => []
  end.

(** The messages that the texts can hold. *)
Definition frames_ok (l : list (list Z)) : Prop := length l = max_len /\ Forall (Encrypted.ok EncryptedFrameSize) l.
Definition relay_ok (m : Relay.t) : Prop :=
  length (Relay.pathid m) = 16%nat /\ (length (Relay.X m) <= Relay.MAX_X)%nat /\ length (Relay.Y m) = 32%nat /\ Relay.version m = proto_version.
Definition commit_ok (m : LR_CommitMessage.t) : Prop :=
  frames_ok (LR_CommitMessage.frames m) /\ LR_CommitMessage.version m = proto_version.
Definition status_ok (m : LR_StatusMessage.t) : Prop :=
  frames_ok (LR_StatusMessage.frames m) /\ length (LR_StatusMessage.pathid m) = 16%nat /\ in_width 64 (LR_StatusMessage.status m)
  /\ LR_StatusMessage.version m = proto_version.
Definition lim_ok (m : LinkIntroMessage) : Prop :=
  contact_ok (rc m) /\ length (N m) = 32%nat /\ length (Z_ m) = 64%nat /\ in_width 64 (P m) /\ lim_version m = proto_version.
Definition dht_ok (from : RouterID) (m : DHTImmediateMessage) : Prop :=
  Forall (message_ok from false) (msgs m) /\ dht_version m = proto_version.
Definition link_ok (from : RouterID) (m : ILinkMessage) : Prop :=
  match m with
  | LIntro m => lim_ok m | LDownstream m | LUpstream m => relay_ok m | LDHT m => dht_ok from m
  | LCommit m => commit_ok m | LStatus m => status_ok m | LDiscard v => v = proto_version
  end.
(** A commit carries no path id: the reader fills it in, with the letter of its frames. *)
Definition filled (m : LR_CommitMessage.t) : LR_CommitMessage.t :=
  LR_CommitMessage.Mk (LR_CommitMessage.frames m) (replicate PATHIDSIZE c_c) (LR_CommitMessage.version m).
Definition received (m : ILinkMessage) : ILinkMessage := match m with LCommit m => LCommit (filled m) | _ => m end.

(** ** Writing *)
Lemma MAX_X_ok x : (length x <= Relay.MAX_X)%nat -> Encrypted.ok Relay.MAX_X x.
Proof. intros H. split; [done|]. unfold str_ok. unfold Relay.MAX_X, MAX_LINK_MSG_SIZE in H. lia. Qed.
Lemma write_bodies_items from relay l : write_bodies ours rank0 port0 l = write_items (EA := message_bencodable ours rank0 port0 from relay) l.
Proof. induction l as [|m l IH]; cbn; [done|]. by rewrite IH. Qed.
Lemma writes_link from m : link_ok from m -> writes (link_BEncode ours rank0 port0 m) (dict (link_text m)).
Proof using INS BDS.
  destruct m as [m|m|m|m|m|m|v]; cbn [link_ok link_BEncode]; intros Hok; unfold link_text; cbn [letter].
  - destruct Hok as (Hrc & HN & HZ & HP & _). unfold LIM_BEncode, lim_text. writes_entries.
    apply writes_dict_cons; [apply writes_andthen; [apply writes_bytestring|by apply (BEncode_writes (benc := contact_text))]|]. repeat writes_step.
  - destruct Hok as (Hp & HX & HY & _). unfold Relay.BEncode, relay_text. writes_entries; [by apply key_ok_intro; [lia|]|by apply MAX_X_ok|by apply key_ok_intro; [lia|]].
  - destruct Hok as (Hp & HX & HY & _). unfold Relay.BEncode, relay_text. writes_entries; [by apply key_ok_intro; [lia|]|by apply MAX_X_ok|by apply key_ok_intro; [lia|]].
  - destruct Hok as (Hm & _). unfold DHTImmediate_BEncode, dht_text. writes_entries.
    apply writes_dict_cons; [|repeat writes_step]. apply writes_andthen; [apply writes_bytestring|].
    rewrite (write_bodies_items from false). by apply (writes_list (EA := message_bencodable ours rank0 port0 from false)).
  - destruct Hok as ((_ & Hf) & _). unfold LR_CommitMessage.BEncode, commit_text, frames_text. by writes_entries.
  - destruct Hok as ((_ & Hf) & Hp & _). unfold LR_StatusMessage.BEncode, status_text, frames_text. writes_entries; [done|by apply key_ok_intro; [lia|]].
  - unfold Discard_BEncode. writes_entries.
Qed.

(** ** Reading *)
Ltac use_lengths Hf := let H := fresh "Hlen" in pose proof (fun k v => entry_length k v _ _ Hf) as H; clear Hf.
Section parser.
Context {W : Type} (handle : RouterID -> ILinkMessage -> W -> res (bool * W)).
Abbreviation sink fuel from := (fun st key b => parser_sink ours rank0 port0 handle fuel from st (Some key) b).
Lemma into_decodes {M} (dk : decode_key M) get set fuel from k l m m' h w :
  decode_held ours rank0 port0 fuel from k = into dk get set -> (forall m h, get (set m h) = m) -> (forall m m' h, set m (set m' h) = set m h) ->
  decodes_all dk l m m' ->
  decodes_all (sink fuel from) l (Parser false (Some k) (set m h), w) (Parser false (Some k) (set m' h), w).
Proof.
  intros Ek Hg Hs. revert m. induction l as [|[key v] l IH]; intros m; cbn [decodes_all]; [by intros ->|].
  intros (m1 & [Hk Hd] & Hl). exists (Parser false (Some k) (set m1 h), w). split; [|by apply IH]. split; [done|]. intros pre rest.
  unfold parser_sink. cbn [firstkey parsing held]. rewrite Ek. unfold into. rewrite Hg, Hd. cbn [rbind]. rewrite Hs. done.
Qed.
Lemma held_decodes {M} (dk : decode_key M) get set fuel from k l m' h w :
  decode_held ours rank0 port0 fuel from k = into dk get set -> (forall m h, get (set m h) = m) -> (forall m m' h, set m (set m' h) = set m h) ->
  set (get h) h = h -> decodes_all dk l (get h) m' ->
  decodes_all (sink fuel from) l (Parser false (Some k) h, w) (Parser false (Some k) (set m' h), w).
Proof. intros Ek Hg Hs Hh Hd. rewrite <- Hh at 1. by apply (into_decodes dk get). Qed.
Lemma read_frames_decodes {M} fuel (gets : M -> list (list Z)) sets c l m :
  frames_ok l -> length (gets m) = max_len -> (length (frames_text l) <= fuel)%nat ->
  decodes (read_frames fuel gets sets) [c] (frames_text l) m (sets l m).
Proof.
  intros [Hn Hl] Hg Hf. split; [done|]. intros pre rest. unfold read_frames, frames_text.
  rewrite (read_array_roundtrip (EA := frame_bencodable) (benc := enc_str)) by (done || lia). cbn [rbind]. by rewrite drop_ge, app_nil_r by lia.
Qed.
Lemma decodes_relay fuel m0 m : relay_ok m -> (length (dict (relay_text m)) <= fuel)%nat -> decodes_all (Relay.DecodeKey fuel) (relay_text m) m0 m.
Proof.
  intros (H1 & H2 & H3 & H4) Hf. use_lengths Hf. destruct m as [p x y v]. unfold relay_text in *. cbn in H1, H2, H3, H4. subst v.
  cbn [Relay.pathid Relay.X Relay.Y] in *. do 2 decode_entry Hlen.
  eexists. split; [apply return_read_decodes; solve_takes; [by apply MAX_X_ok|eapply Hlen; in_entries]|]. decode_entry Hlen. done.
Qed.
Lemma decodes_commit fuel m0 m : length (LR_CommitMessage.frames m0) = max_len -> commit_ok m -> (length (dict (commit_text m)) <= fuel)%nat ->
  decodes_all (LR_CommitMessage.DecodeKey fuel) (commit_text m) m0 (filled m).
Proof.
  intros H0 (H1 & H3) Hf. use_lengths Hf. destruct m as [f p v]. unfold commit_text in *. cbn [LR_CommitMessage.frames LR_CommitMessage.pathid LR_CommitMessage.version] in *. subst.
  eexists. split.
  { apply on_key_decodes_l; [done|]. split; [done|]. intros pre rest. cbn beta.
    apply (read_frames_decodes fuel _ _ c_c f (m0 <| LR_CommitMessage.pathid := _ |>)); [done..|eapply Hlen; in_entries]. }
  decode_entry Hlen. done.
Qed.
Lemma decodes_status fuel m0 m : length (LR_StatusMessage.frames m0) = max_len -> status_ok m -> (length (dict (status_text m)) <= fuel)%nat ->
  decodes_all (LR_StatusMessage.DecodeKey fuel) (status_text m) m0 m.
Proof.
  intros H0 (H1 & H2 & H3 & H4) Hf. use_lengths Hf. destruct m as [f p st v]. unfold status_text in *.
  cbn [LR_StatusMessage.frames LR_StatusMessage.pathid LR_StatusMessage.status LR_StatusMessage.version] in *. subst.
  eexists. split; [apply on_key_decodes_l; [done|]; apply read_frames_decodes; [done..|eapply Hlen; in_entries]|].
  do 3 decode_entry Hlen. done.
Qed.
Lemma read_version_decodes {M} (sets : Z -> M -> M) c m : decodes (read_version sets) [c] (enc_int proto_version) m (sets proto_version m).
Proof. split; [done|]. intros pre rest. unfold read_version. by rewrite (read_integer_reads proto_version). Qed.
Lemma decodes_lim fuel m0 m : RouterContact.signed_bt_dict (rc m0) = [] -> lim_ok m -> (length (dict (lim_text m)) <= fuel)%nat ->
  decodes_all (LIM_DecodeKey rank0 port0 fuel) (lim_text m) m0 m.
Proof using INS.
  intros H0 (H1 & H2 & H3 & H4 & H5) Hf. use_lengths Hf. destruct m as [c n z p v]. unfold lim_text in *. cbn [rc N Z_ P lim_version] in *. subst v.
  do 2 decode_entry Hlen. eexists. split.
  { do 3 (apply on_key_decodes_r; [done|]). apply on_key_decodes_l; [done|]. split; [done|]. intros pre rest. destruct H1 as [H1 H1'].
    rewrite RouterContactSpec.reads_contact; [reflexivity|done|eapply Hlen; in_entries]. }
  eexists. split; [do 4 (apply on_key_decodes_r; [done|]); apply on_key_decodes_l; [done|]; apply read_version_decodes|]. decode_entry Hlen.
  destruct H1 as [_ H1]. cbn. rewrite H0. destruct c. cbn in *. by subst.
Qed.
Lemma read_messages_decodes fuel from m0 l : Forall (message_ok from false) l ->
  (length (enc_list ((fun m => dict (body_text (msg m))) <$> l)) <= fuel)%nat ->
  decodes (DHTImmediate_DecodeKey ours rank0 port0 fuel from) [c_m] (enc_list ((fun m => dict (body_text (msg m))) <$> l)) m0 (m0 <| msgs := msgs m0 ++ l |>).
Proof using INS BDS. intros Hl Hf. apply on_key_decodes_l; [done|]. split; [done|]. intros pre rest. by rewrite list_reads. Qed.
Lemma decodes_dht fuel from m0 m : dht_ok from m -> (length (dict (dht_text m)) <= fuel)%nat ->
  decodes_all (DHTImmediate_DecodeKey ours rank0 port0 fuel from) (dht_text m) m0 (MkDHTImmediate (msgs m0 ++ msgs m) proto_version).
Proof using INS BDS.
  intros (H1 & H2) Hf. use_lengths Hf. destruct m as [l v]. unfold dht_text in *. cbn [msgs dht_version] in *. subst v.
  eexists. split; [apply read_messages_decodes; [done|eapply Hlen; in_entries]|].
  eexists. split; [apply on_key_decodes_r, on_key_decodes_l; [done..|]; apply read_version_decodes|]. done.
Qed.

(** The first entry picks the object. *)
Lemma type_decodes fuel from p w c k : kind_of_letter c = Some k ->
  decodes (sink fuel from) [c_a] (enc_str [c]) (p <| firstkey := true |>, w) (Parser false (Some k) (held p), w).
Proof.
  intros Hk. split; [done|]. intros pre rest. unfold parser_sink. cbn [firstkey update]. rewrite startswith_letter, Z.eqb_refl. cbn [negb].
  rewrite read_string_reads by done. cbn [rbind]. unfold sz. cbn [mem length Nat.eqb negb]. change (byte_at 0 [c]) with (Ok c). cbn [rbind]. by rewrite Hk.
Qed.

(** The objects between two messages. *)
Lemma dht_after from m0 m : msgs m0 = [] -> dht_ok from m -> MkDHTImmediate (msgs m0 ++ msgs m) proto_version = m.
Proof. intros -> [_ <-]. by destruct m. Qed.
Definition clean (h : holder) : Prop :=
  RouterContact.signed_bt_dict (rc (h_i h)) = [] /\ msgs (h_m h) = [] /\ length (LR_CommitMessage.frames (h_c h)) = max_len
  /\ length (LR_StatusMessage.frames (h_s h)) = max_len /\ h_x h = proto_version.
Definition kind_of (m : ILinkMessage) : link_kind :=
  match m with LIntro _ => KIntro | LDownstream _ => KDown | LUpstream _ => KUp | LDHT _ => KDht | LCommit _ => KCommit | LStatus _ => KStatus | LDiscard _ => KDiscard end.
Lemma decodes_link fuel from m h : clean h -> link_ok from m -> (length (dict (link_text m)) <= fuel)%nat ->
  exists h', (forall w, decodes_all (sink fuel from) (tail (link_text m)) (Parser false (Some (kind_of m)) h, w) (Parser false (Some (kind_of m)) h', w))
    /\ held_message (kind_of m) h' = received m /\ clean (clear_held (kind_of m) h').
Proof using INS BDS.
  intros (C1 & C2 & C3 & C4 & C5) Hok Hf.
  assert (length (dict (tail (link_text m))) <= fuel)%nat as Hl.
  { clear Hok. revert Hf. unfold link_text. cbn [tail]. unfold dict, entries. cbn [fmap list_fmap concat length]. rewrite !length_app. lia. }
  clear Hf. destruct m as [m|m|m|m|m|m|v]; cbn [kind_of link_ok link_text tail] in *.
  - exists (h <| h_i := m |>). split; [|split; [done|split_and!; try done; apply Hok]]. intros w.
    by apply (held_decodes (LIM_DecodeKey rank0 port0 fuel) h_i (fun m h => h <| h_i := m |>) _ _ KIntro); [..|by destruct h|apply decodes_lim].
  - exists (h <| h_d := m |>). split; [|done]. intros w.
    by apply (held_decodes (Relay.DecodeKey fuel) h_d (fun m h => h <| h_d := m |>) _ _ KDown); [..|by destruct h|apply decodes_relay].
  - exists (h <| h_u := m |>). split; [|done]. intros w.
    by apply (held_decodes (Relay.DecodeKey fuel) h_u (fun m h => h <| h_u := m |>) _ _ KUp); [..|by destruct h|apply decodes_relay].
  - exists (h <| h_m := m |>). split; [|done]. intros w.
    by apply (held_decodes (DHTImmediate_DecodeKey ours rank0 port0 fuel from) h_m (fun m h => h <| h_m := m |>) _ _ KDht);
      [..|by destruct h|pose proof (decodes_dht fuel from (h_m h) m Hok Hl) as Hd; rewrite (dht_after from) in Hd].
  - exists (h <| h_c := filled m |>). split; [|split; [done|split_and!; try done; cbn; rewrite length_fmap; apply Hok]]. intros w.
    by apply (held_decodes (LR_CommitMessage.DecodeKey fuel) h_c (fun m h => h <| h_c := m |>) _ _ KCommit); [..|by destruct h|apply decodes_commit].
  - exists (h <| h_s := m |>). split; [|split; [done|split_and!; try done; cbn; rewrite length_fmap; apply Hok]]. intros w.
    by apply (held_decodes (LR_StatusMessage.DecodeKey fuel) h_s (fun m h => h <| h_s := m |>) _ _ KStatus); [..|by destruct h|apply decodes_status].
  - exists h. subst v. cbn. by rewrite C5.
Qed.

(** C28. Every message that comes in one piece to a parser that holds nothing of another one is handed
    over as it was written, once, with the router it came from, and the parser holds nothing again; a
    commit is handed over with the path id that the reader fills in. *)
Theorem link_message_delivered fuel from m rest p :
  clean (held p) -> link_ok from m -> (length (dict (link_text m)) <= fuel)%nat ->
  writes (link_BEncode ours rank0 port0 m) (dict (link_text m)) /\
  exists p', clean (held p') /\ forall w,
    ProcessFrom ours rank0 port0 handle fuel (Some from) (dict (link_text m) ++ rest) p w
    = let* (ok, w) := handle from (received m) w in Ok (ok, p', w).
Proof using INS BDS.
  intros Hc Hok Hf. split; [by apply (writes_link from)|].
  destruct (decodes_link fuel from m (held p) Hc Hok Hf) as (h' & Hd & Em & Hc'). exists (Parser false None (clear_held (kind_of m) h')). split; [done|].
  intros w. unfold ProcessFrom. change (Buffer (dict (link_text m) ++ rest) 0) with ([] ‖ dict (link_text m) ++ rest).
  rewrite (read_dict_reads _ (link_text m) fuel _ (Parser false (Some (kind_of m)) h', w)); [| |done].
  - unfold parser_sink, MessageDone, Reset. cbn [firstkey parsing held]. rewrite Em. by destruct (handle from (received m) w) as [[]| | |].
  - exists (Parser false (Some (kind_of m)) (held p), w). split; [|apply Hd]. apply type_decodes. by destruct m.
Qed.
End parser.

(** A DHT message with an entry the decoder does not know is refused, but what was read of it
    stays with the parser: the next message, whoever sends it, is handled together with the
    messages of the refused one, in the name of its sender. *)
Theorem refused_messages_handled {W} (handle : RouterID -> ILinkMessage -> W -> res (bool * W)) fuel from from' l m junk p w :
  clean (held p) -> Forall (message_ok from false) l -> dht_ok from' m ->
  let text := ([c_a], enc_str [c_m]) :: [([c_m], enc_list ((fun m => dict (body_text (msg m))) <$> l))] in
  (length (entries text) < fuel)%nat -> (length (dict (link_text (LDHT m))) <= fuel)%nat ->
  exists p1 p2, ProcessFrom ours rank0 port0 handle fuel (Some from) (chr_d :: entries text ++ enc_str [c_z] ++ junk) p w = Ok (false, p1, w)
    /\ ProcessFrom ours rank0 port0 handle fuel (Some from') (dict (link_text (LDHT m))) p1 w
       = let* (ok, w) := handle from' (LDHT (MkDHTImmediate (l ++ msgs m) proto_version)) w in Ok (ok, p2, w).
Proof using INS BDS.
  intros (C1 & C2 & C3 & C4 & C5) Hl Hm text Hf Hf2. destruct p as [fk pk h]. cbn [held] in *.
  pose (h1 := h <| h_m := (h_m h) <| msgs := l |> |>).
  assert (length (enc_list ((fun m => dict (body_text (msg m))) <$> l)) <= fuel)%nat as Hlen.
  { revert Hf. unfold text, entries. cbn [fmap list_fmap concat fst snd]. rewrite !length_app. lia. }
  destruct (read_dict_stops (parser_sink ours rank0 port0 handle fuel from) text [c_z] fuel (Parser true pk h, w)
    (Parser false (Some KDht) h1, w) (Parser false (Some KDht) h1, w) [] junk) as [b1 E1]; [|done|done| |].
  { eexists. split; [by apply (type_decodes handle fuel from (Parser fk pk h) w c_m KDht)|].
    eapply (held_decodes handle (DHTImmediate_DecodeKey ours rank0 port0 fuel from) h_m (fun m h => h <| h_m := m |>)); [done..|by destruct h|].
    eexists. split; [by apply read_messages_decodes|]. cbn. by rewrite C2. }
  { intros pre. eexists. cbn [parser_sink firstkey parsing held]. unfold decode_held, into. unfold DHTImmediate_DecodeKey, on_key, return_false.
    rewrite !startswith_letter. cbn [Z.eqb Pos.eqb rbind]. reflexivity. }
  eexists (Parser false (Some KDht) h1), (Parser false None (clear_held KDht h1)). split.
  { unfold ProcessFrom. change (Buffer (chr_d :: ?x) 0) with ([] ‖ chr_d :: x). change ((Parser fk pk h) <| firstkey := true |>) with (Parser true pk h). by rewrite E1. }
  unfold ProcessFrom. rewrite <- (app_nil_r (dict (link_text (LDHT m)))). change (Buffer (?x ++ []) 0) with ([] ‖ x ++ []).
  pose (h2 := h1 <| h_m := MkDHTImmediate (l ++ msgs m) proto_version |>).
  rewrite (read_dict_reads _ (link_text (LDHT m)) fuel _ (Parser false (Some KDht) h2, w)); [| |done].
  - unfold parser_sink, MessageDone, Reset. cbn [firstkey parsing held held_message]. unfold h2. cbn. by destruct (handle from' _ w) as [[]| | |].
  - eexists. split; [by apply (type_decodes handle fuel from' (Parser false (Some KDht) h1) w c_m KDht)|].
    eapply (held_decodes handle (DHTImmediate_DecodeKey ours rank0 port0 fuel from') h_m (fun m h => h <| h_m := m |>)); [done..|].
    apply decodes_dht; [done|]. revert Hf2. unfold link_text. cbn [letter]. unfold dict, entries. cbn [fmap list_fmap concat length]. rewrite !length_app. lia.
Qed.

(** ** The introduction of a session *)
Section intro.
Context {CR : Crypto} {KP : KeyPairs} {KS : KeyPairsSpec CR KP} {OS : OxencSwap}.
(** An introduction that a router signs with the key of its contact is accepted by the peer that
    accepts the contact. *)
Theorem introduction_verifies seed m block now :
  let sk := identity_keygen seed in
  length seed = 32%nat -> lim_ok m -> RouterContact.pubkey (rc m) = seckey_topublic sk ->
  (length (dict (link_text (LIntro (m <| Z_ := zeros 64 |>)))) < LIM_MaxSize)%nat ->
  RouterContact.Verify rank0 port0 ours block now true (rc m) = Ok true ->
  exists m', LIM_Sign ours rank0 port0 (crypto_sign sk) m = Ok (true, m') /\ lim_ok m' /\ LIM_Verify ours rank0 port0 block now m' = Ok true.
Proof using INS BDS KS.
  intros sk Hseed (H1 & H2 & H3 & H4 & H5) Hpk Hlen Hv. set (m0 := m <| Z_ := zeros 64 |>) in *.
  assert (link_ok [] (LIntro m0)) as Hok by (split_and!; done).
  destruct (crypto_sign_spec seed (dict (link_text (LIntro m0))) Hseed) as (z & Ez & Lz & Hz). fold sk in Ez, Hz.
  exists (m <| Z_ := z |>). unfold LIM_Sign, LIM_Verify. fold m0. change (m <| Z_ := z |> <| Z_ := zeros 64 |>) with m0.
  change (LIM_BEncode ?o ?r ?p m0) with (link_BEncode o r p (LIntro m0)).
  rewrite (encode_into_writes _ _ _ (writes_link [] (LIntro m0) Hok) Hlen). cbn [rbind]. rewrite Ez. split_and!; [done..|].
  change (RouterContact.pubkey (rc (m <| Z_ := z |>))) with (RouterContact.pubkey (rc m)). change (Z_ (m <| Z_ := z |>)) with z. rewrite Hpk, Hz. done.
Qed.
End intro.

(** ** The record of a commit *)
#[local] Existing Instance eta_CommitRecord.
Definition short_lived (m : LR_CommitRecord) : bool := (10000 <? lifetime m) && (lifetime m <? default_lifetime).
Definition record_head (m : LR_CommitRecord) : list entry := [([c_c], enc_str (commkey m)); ([c_i], enc_str (nextHop m))].
Definition record_tail (m : LR_CommitRecord) : list entry :=
  [([c_n], enc_str (tunnelNonce m)); ([c_r], enc_str (rxid m)); ([c_t], enc_str (txid m))]
  ++ match nextRC m with Some rc => [([c_u], contact_text rc)] | None => [] end ++ [([c_v], enc_int proto_version)].
Definition record_text (m : LR_CommitRecord) : list entry :=
  record_head m ++ (if short_lived m then [([c_i], enc_int (lifetime m))] else []) ++ record_tail m.
Definition record_ok (m : LR_CommitRecord) : Prop :=
  length (commkey m) = 32%nat /\ length (nextHop m) = 32%nat /\ length (tunnelNonce m) = 32%nat /\ length (rxid m) = 16%nat /\ length (txid m) = 16%nat
  /\ (forall rc, nextRC m = Some rc -> contact_ok rc) /\ cr_version m = proto_version /\ time_ok (lifetime m).
Lemma writes_record m : record_ok m -> writes (CommitRecord_BEncode ours rank0 port0 m) (dict (record_text m)).
Proof using INS.
  intros (H1 & H2 & H3 & H4 & H5 & H6 & _ & H8). unfold CommitRecord_BEncode, record_text, record_head, record_tail. cbn [app].
  apply writes_dict. do 2 (apply writes_dict_cons; [apply writes_entry, key_ok_intro; [lia|done]|]).
  apply writes_dict_if; [intros _; by apply writes_entry_time|].
  do 3 (apply writes_dict_cons; [apply writes_entry, key_ok_intro; [lia|done]|]).
  apply writes_dict_opt; [|repeat writes_step]. intros rc Hrc. apply (writes_entry (benc := contact_text)). by apply H6.
Qed.
Lemma record_key_decodes fuel c v m m' : takes (CommitRecord_entries fuel) c v m m' -> c ∈ [c_c; c_i; c_n; c_r; c_t] ->
  decodes (CommitRecord_OnKey ours rank0 port0 fuel) [c] v m m'.
Proof.
  intros Ht Hc. split; [done|]. intros pre rest. unfold CommitRecord_OnKey. rewrite Ht. cbn [rbind negb]. rewrite startswith_letter.
  rewrite !elem_of_cons, elem_of_nil in Hc.
  destruct Hc as [-> | [-> | [-> | [-> | [-> | []]]]]]; cbn [Z.eqb Pos.eqb];
    rewrite (maybe_version_skips c_v proto_version cr_version _ _) by (solve_set_get || done); done.
Qed.
Lemma record_rc_decodes fuel rc m : contact_ok rc -> (length (contact_text rc) <= fuel)%nat ->
  decodes (CommitRecord_OnKey ours rank0 port0 fuel) [c_u] (contact_text rc) m (m <| nextRC := Some rc |>).
Proof using INS BDS.
  intros [Hok Hs] Hf. split; [done|]. intros pre rest. unfold CommitRecord_OnKey.
  assert (skips (CommitRecord_entries fuel) c_u) as -> by (unfold CommitRecord_entries; solve_skips). cbn [rbind negb].
  rewrite startswith_letter. cbn [Z.eqb Pos.eqb]. rewrite RouterContactSpec.reads_contact by done. cbn [rbind]. destruct rc. cbn in *. by subst.
Qed.
Lemma record_version_decodes fuel m : decodes (CommitRecord_OnKey ours rank0 port0 fuel) [c_v] (enc_int proto_version) m (m <| cr_version := proto_version |>).
Proof.
  split; [done|]. intros pre rest. unfold CommitRecord_OnKey.
  assert (skips (CommitRecord_entries fuel) c_v) as -> by (unfold CommitRecord_entries; solve_skips). cbn [rbind negb].
  rewrite startswith_letter. cbn [Z.eqb Pos.eqb]. rewrite (maybe_version_takes c_v proto_version cr_version (fun x m => m <| cr_version := x |>)) by done. done.
Qed.
Ltac record_key Hlen := eexists; split; [apply record_key_decodes; [unfold CommitRecord_entries; solve_takes; codec_side Hlen|set_solver]|].
Lemma decodes_record_head fuel m m0 : record_ok m -> (length (dict (record_text m)) <= fuel)%nat ->
  decodes_all (CommitRecord_OnKey ours rank0 port0 fuel) (record_head m) m0 (m0 <| commkey := commkey m |> <| nextHop := nextHop m |>).
Proof.
  intros (H1 & H2 & H3 & H4 & H5 & H6 & H7 & H8) Hf. use_lengths Hf. unfold record_text, record_head, record_tail in *. do 2 record_key Hlen. done.
Qed.
Lemma decodes_record_tail fuel m m0 : record_ok m -> (length (dict (record_text m)) <= fuel)%nat -> nextRC m0 = None ->
  decodes_all (CommitRecord_OnKey ours rank0 port0 fuel) (record_tail m) m0
    (MkCommitRecord (commkey m0) (nextHop m0) (tunnelNonce m) (txid m) (rxid m) (nextRC m) proto_version (lifetime m0)).
Proof using INS BDS.
  intros (H1 & H2 & H3 & H4 & H5 & H6 & H7 & H8) Hf H0. use_lengths Hf. unfold record_text, record_head, record_tail in *. cbn [app] in *.
  do 3 record_key Hlen. destruct (nextRC m) as [rc|] eqn:Erc; cbn [app].
  - eexists. split; [apply record_rc_decodes; [by apply H6|eapply Hlen; in_entries]|]. eexists. split; [apply record_version_decodes|]. done.
  - eexists. split; [apply record_version_decodes|]. destruct m0. cbn in H0 |- *. by subst.
Qed.
(** The hop reads the record the owner of the path wrote, without the lifetime. *)
Lemma reads_record fuel m pre rest : record_ok m -> short_lived m = false -> (length (dict (record_text m)) <= fuel)%nat ->
  CommitRecord_BDecode ours rank0 port0 fuel CommitRecord_empty (pre ‖ dict (record_text m) ++ rest)
  = Ok (true, m <| lifetime := 0 |>, (pre ++ dict (record_text m)) ‖ rest).
Proof using INS BDS.
  intros Hok Hs Hf. unfold CommitRecord_BDecode. apply decode_dict_reads; [|done]. unfold record_text. rewrite Hs. cbn [app].
  apply decodes_all_app. eexists. split; [by apply decodes_record_head|].
  pose proof Hok as (_ & _ & _ & _ & _ & _ & Hv & _). destruct m. cbn in Hv. subst. by apply (decodes_record_tail fuel).
Qed.
(** A record with a lifetime of its own, which is written under the letter of the next hop, is
    refused by the hop. *)
Theorem short_lifetime_refused fuel m pre rest : record_ok m -> short_lived m = true -> (length (dict (record_text m)) <= fuel)%nat ->
  writes (CommitRecord_BEncode ours rank0 port0 m) (dict (record_text m)) /\
  exists m' b, CommitRecord_BDecode ours rank0 port0 fuel CommitRecord_empty (pre ‖ dict (record_text m) ++ rest) = Ok (false, m', b).
Proof using INS BDS.
  intros Hok Hs Hf. split; [by apply writes_record|].
  assert (dict (record_text m) ++ rest = chr_d :: entries (record_head m) ++ enc_str [c_i] ++ (enc_int (lifetime m) ++ entries (record_tail m) ++ chr_e :: rest)) as ->.
  { unfold dict, record_text. rewrite Hs. unfold entries. rewrite !fmap_app, !concat_app. cbn [app fmap list_fmap concat fst snd]. rewrite app_nil_r, <- !app_assoc. done. }
  eexists. eapply (read_dict_stops _ (record_head m) [c_i] fuel); [by apply decodes_record_head|done| |].
  { revert Hf. unfold dict, record_text, entries. rewrite fmap_app, concat_app. cbn [length]. rewrite !length_app. cbn. lia. }
  intros pre'. unfold CommitRecord_OnKey, CommitRecord_entries, both, maybe_entry, BEncodeMaybeReadDictEntry. rewrite !startswith_letter. cbn [Z.eqb Pos.eqb rbind].
  destruct (array_refuses 32 chr_i pre' (print_dec (lifetime m) ++ chr_e :: entries (record_tail m) ++ chr_e :: rest)) as [b E]; [lia|done..|].
  cbn [Bencode.BDecode array_bencodable]. unfold enc_int. cbn [app]. rewrite <- app_assoc. cbn [app]. rewrite E. cbn [rbind negb]. by eexists.
Qed.
End spec.
End LinkMessageSpec.

(** ** Instances *)
Definition deliver (from : RouterID) (m : ILinkMessage) (w : list (RouterID * ILinkMessage)) : res (bool * list (RouterID * ILinkMessage)) := Ok (true, (from, m) :: w).

Lemma link_message_delivered_witness :
  let m := LUpstream (Relay.Mk (replicate 16 1) [1; 2; 3] (zeros 32) proto_version) in
  exists p', ProcessFrom (IP := pton_dec) (IN := ntop_dec) (BT := bt_none) [] 0 0 deliver 500 (Some (Fill 1)) (dict (LinkMessageSpec.link_text (IN := ntop_dec) m) ++ []) (parser_init [] 0) []
    = Ok (true, p', [(Fill 1, m)]).
Proof.
  intros m. destruct (LinkMessageSpec.link_message_delivered (IP := pton_dec) (IN := ntop_dec) (BT := bt_none) (BD := oxenc_dict_ref) [] 0 0 deliver 500 (Fill 1) m [] (parser_init [] 0))
    as (_ & p' & _ & E).
  - by split_and!.
  - split_and!; try done. cbn. unfold Relay.MAX_X, MAX_LINK_MSG_SIZE. lia.
  - apply Nat.leb_le. vm_compute. reflexivity.
  - exists p'. apply E.
Defined.
Lemma refused_messages_handled_witness :
  let m := MkDHTImmediate [] proto_version in
  exists p1 p2, ProcessFrom (IP := pton_dec) (IN := ntop_dec) (BT := bt_none) [] 0 0 deliver 500 (Some (Fill 2)) (dict (LinkMessageSpec.link_text (IN := ntop_dec) (LDHT m))) p1 []
    = Ok (true, p2, [(Fill 2, LDHT (MkDHTImmediate [IMsg (Fill 1) (zeros PATHIDSIZE) (MPublishIntro (PublishIntroMessage.make EncryptedIntroSet.empty 5 false 1))] proto_version))]).
Proof.
  intros m. destruct (LinkMessageSpec.refused_messages_handled (IP := pton_dec) (IN := ntop_dec) (BT := bt_none) (BD := oxenc_dict_ref) [] 0 0 deliver 500 (Fill 1) (Fill 2)
    [IMsg (Fill 1) (zeros PATHIDSIZE) (MPublishIntro (PublishIntroMessage.make EncryptedIntroSet.empty 5 false 1))] m [] (parser_init [] 0) []) as (p1 & p2 & _ & E).
  - by split_and!.
  - apply Forall_singleton. split_and!; try done. cbn [DhtMessageSpec.body_ok msg]. split_and!; try done. unfold EncryptedIntroSetSpec.ok. split_and!; try done. cbn. lia.
  - by split.
  - apply Nat.ltb_lt. vm_compute. reflexivity.
  - apply Nat.leb_le. vm_compute. reflexivity.
  - exists p1, p2. exact E.
Defined.

#[local] Existing Instance RouterContact.eta_t.
(** The contact with its signature. *)
Definition signed_ref : RouterContact.t :=
  let sig := match RouterContact.Sign (IP := pton_dec) (IN := ntop_dec) (BT := bt_none) (KP := keypairs_xor) 0 0 (replicate 64 3) 1000 contact_ref with
    | Ok (_, rc) => RouterContact.signature rc | _ => [] end in
  contact_ref <| RouterContact.pubkey := replicate 32 3 |> <| RouterContact.signature := sig |> <| RouterContact.last_updated := 1000 |>.
Lemma introduction_verifies_witness :
  exists m', LIM_Sign (IP := pton_dec) (IN := ntop_dec) (BT := bt_none) (NetID.of_bytes [108; 111]) 0 0 (crypto_sign (KeyPairs := keypairs_xor) (replicate 64 3)) (MkLIM signed_ref (zeros 32) (zeros 64) 100 proto_version) = Ok (true, m')
    /\ LIM_Verify (IP := pton_dec) (IN := ntop_dec) (BT := bt_none) (CR := crypto_xor) (OS := oxenc_swap_ref) (NetID.of_bytes [108; 111]) 0 0 true 2000 m' = Ok true.
Proof.
  destruct (LinkMessageSpec.introduction_verifies (IP := pton_dec) (IN := ntop_dec) (BT := bt_none) (BD := oxenc_dict_ref) (CR := crypto_xor) (KP := keypairs_xor) (OS := oxenc_swap_ref)
    (NetID.of_bytes [108; 111]) 0 0 (replicate 32 3) (MkLIM signed_ref (zeros 32) (zeros 64) 100 proto_version) true 2000) as (m' & E1 & _ & E2).
  - done.
  - split_and!; try done. split; [|done]. apply contact_ref_ok; [done..|]. unfold time_ok. lia.
  - vm_compute. reflexivity.
  - apply Nat.ltb_lt. vm_compute. reflexivity.
  - vm_compute. reflexivity.
  - exists m'. by split.
Defined.

Lemma short_lifetime_refused_witness :
  let m := MkCommitRecord (zeros 32) (zeros 32) (zeros 32) (zeros 16) (zeros 16) None 0 60000 in
  exists m' b, CommitRecord_BDecode (IP := pton_dec) (IN := ntop_dec) (BT := bt_none) [] 0 0 500 CommitRecord_empty ([] ‖ dict (LinkMessageSpec.record_text (IN := ntop_dec) m) ++ []) = Ok (false, m', b).
Proof.
  intros m. destruct (LinkMessageSpec.short_lifetime_refused (IP := pton_dec) (IN := ntop_dec) (BT := bt_none) (BD := oxenc_dict_ref) [] 0 0 500 m [] []) as (_ & m' & b & E).
  - by split_and!.
  - done.
  - apply Nat.leb_le. vm_compute. reflexivity.
  - by exists m', b.
Defined.
