(* ===== verification/DhtTx.v ===== *)
(** * Transactions of the DHT (llarp/dht/tx.hpp, txowner.hpp, txholder.hpp)

    A holder keeps the lookups in flight: by the peer asked and the transaction number, by
    the key looked up, and the time at which each key is given up. Several lookups for one key
    are answered together. *)

From S2P Require Import Prelude Kademlia.

Record TXOwner := Owner { node : Key_t; txid : Z }.
#[export] Instance TXOwner_eq_dec : EqDecision TXOwner. Proof. solve_decision. Defined.
#[export] Instance TXOwner_countable : Countable TXOwner.
Proof. apply (inj_countable' (fun o => (node o, txid o)) (fun p => Owner p.1 p.2)). by intros []. Defined.
(** [TXOwner{}] *)
Definition owner0 : TXOwner := Owner (Fill 0) 0.

(** A transaction for a key of type [K] with values of type [V]; [job] has the members of the derived class. *)
Record TX (K V J : Type) := MkTX { target : K; peersAsked : list Key_t; valuesFound : list V; whoasked : TXOwner; job : J }.
Arguments MkTX {K V J}. Arguments target {K V J}. Arguments peersAsked {K V J}. Arguments valuesFound {K V J}.
Arguments whoasked {K V J}. Arguments job {K V J}.
#[export] Instance eta_TX {K V J} : Eta (TX K V J) := fun t => MkTX (target t) (peersAsked t) (valuesFound t) (whoasked t) (job t).

(** [waiting] is a multimap: the order of the entries of one key is the order of the list. *)
Record TXHolder (K V J : Type) `{Countable K} := Holder { waiting : list (K * TXOwner); timeouts : gmap K Z; tx : gmap TXOwner (TX K V J) }.
Arguments Holder {K V J _ _}. Arguments waiting {K V J _ _}. Arguments timeouts {K V J _ _}. Arguments tx {K V J _ _}.
#[export] Instance eta_TXHolder {K V J} `{Countable K} : Eta (TXHolder K V J) := fun h => Holder (waiting h) (timeouts h) (tx h).

Section holder.
Context {K V J W : Type} `{Countable K}.
(** The virtual members of a transaction; [W] is the rest of the context, which they act on. *)
Context (Validate : TX K V J -> V -> res bool) (Start : TX K V J -> TXOwner -> W -> W) (SendReply : TX K V J -> W -> W).
Abbreviation TX_ := (TX K V J).
Abbreviation TXHolder_ := (TXHolder K V J).
Implicit Types (h : TXHolder_) (t : TX_) (o : TXOwner) (k : K) (w : W).

Definition OnFound (askedPeer : Key_t) (value : V) t : res TX_ :=
  let t := t <| peersAsked ::= set_insert askedPeer |> in
  let* ok := Validate t value in Ok (if ok : bool then t <| valuesFound ::= fun l => l ++ [value] |> else t).

Definition GetPendingLookupFrom o h : option TX_ := tx h !! o.
Definition HasLookupFor k h : bool := match timeouts h !! k with Some _ => true | None => false end.
Definition HasPendingLookupFrom o h : bool := match GetPendingLookupFrom o h with Some _ => true | None => false end.

Definition waiting_for k (l : list (K * TXOwner)) : list TXOwner := snd <$> filter (fun e => e.1 = k) l.

(** The number of milliseconds a lookup may take. *)
Definition requestTimeoutMS : Z := 15000.
(** If [askpeer] has a transaction already, [emplace] destroys the new one, and starting it is a use of freed memory. *)
Definition NewTX (now : Z) (askpeer : TXOwner) k t (timeout : Z) h w : res (TXHolder_ * W) :=
  let destroyed := HasPendingLookupFrom askpeer h in
  let h := if destroyed then h else h <| tx ::= <[askpeer := t]> |> in
  let count := length (waiting_for k (waiting h)) in
  let h := h <| waiting ::= fun l => l ++ [(k, askpeer)] |> in
  let h := match timeouts h !! k with None => h <| timeouts ::= <[k := now + timeout]> |> | Some _ => h end in
  if (count =? 0)%nat then (if destroyed then Oob else Ok (h, Start t askpeer w)) else Ok (h, w).

Fixpoint found_all (askedPeer : Key_t) (values : list V) t : res TX_ :=
  match values with
  | [] => Ok t
  | v :: values => let* t := OnFound askedPeer v t in found_all askedPeer values t
  end.
Fixpoint inform_loop (from : TXOwner) (values : list V) (sendreply : bool) (owners : list TXOwner) h w : res (TXHolder_ * W) :=
  match owners with
  | [] => Ok (h, w)
  | o :: owners =>
      match tx h !! o with
      | None => inform_loop from values sendreply owners h w
      | Some t =>
          let* t := found_all (node from) values t in
          let h := h <| tx ::= <[o := t]> |> in
          if sendreply then inform_loop from values sendreply owners (h <| tx ::= delete o |>) (SendReply t w)
          else inform_loop from values sendreply owners h w
      end
  end.
Definition Inform (from : TXOwner) k (values : list V) (sendreply removeTimeouts : bool) h w : res (TXHolder_ * W) :=
  let* (h, w) := inform_loop from values sendreply (waiting_for k (waiting h)) h w in
  let h := if sendreply then h <| waiting ::= filter (fun e => e.1 <> k) |> else h in
  Ok (if removeTimeouts then h <| timeouts ::= delete k |> else h, w).
Definition Found (from : TXOwner) k (values : list V) h w : res (TXHolder_ * W) := Inform from k values true true h w.
Definition NotFound (from : TXOwner) h w : res (TXHolder_ * W) :=
  match tx h !! from with
  | None => Ok (h, w)
  | Some t => Inform from (target t) [] true true h w
  end.
Fixpoint expire_loop (now : Z) (l : list (K * Z)) h w : res (TXHolder_ * W) :=
  match l with
  | [] => Ok (h, w)
  | (k, at_) :: l =>
      if at_ <=? now then
        let* (h, w) := Inform owner0 k [] true false h w in
        expire_loop now l (h <| timeouts ::= delete k |>) w
      else expire_loop now l h w
  end.
Definition Expire (now : Z) h w : res (TXHolder_ * W) := expire_loop now (map_to_list (timeouts h)) h w.
End holder.

(** * Every lookup is answered once *)
Section spec.
Context {K V J W : Type} `{Countable K}.
Context (Validate : TX K V J -> V -> res bool) (SendReply : TX K V J -> W -> W).
(** A value is judged by what is looked for, not by what was found before. *)
Context (valid : K -> J -> V -> bool) (Hvalid : forall t v, Validate t v = Ok (valid (target t) (job t) v)).
Implicit Types (h : TXHolder K V J) (t : TX K V J) (o : TXOwner) (k : K) (w : W) (vs : list V).
Abbreviation inform := (Inform Validate SendReply).
Abbreviation informs := (inform_loop Validate SendReply).

Record holder_ok h : Prop := {
  pending_waits o t : tx h !! o = Some t -> (target t, o) ∈ waiting h;
  waiting_pending k o : (k, o) ∈ waiting h -> exists t, tx h !! o = Some t /\ target t = k;
  waiting_once : NoDup (snd <$> waiting h);
  waiting_timed k : is_Some (timeouts h !! k) <-> exists o, (k, o) ∈ waiting h;
}.

Definition found (asked : Key_t) vs t : TX K V J :=
  MkTX (target t) (foldl (fun s _ => set_insert asked s) (peersAsked t) vs)
    (valuesFound t ++ filter (fun v => valid (target t) (job t) v = true) vs) (whoasked t) (job t).
Lemma found_all_ok asked vs t : found_all Validate asked vs t = Ok (found asked vs t).
Proof using Hvalid.
  revert t. induction vs as [|v vs IH]; intros t; cbn [found_all]; [unfold found; cbn; rewrite app_nil_r; by destruct t|].
  unfold OnFound. rewrite Hvalid. cbn [rbind]. destruct t as [tg pa vf wa jb]. unfold found in *.
  change (target ((MkTX tg pa vf wa jb) <| peersAsked ::= set_insert asked |>)) with tg.
  change (job ((MkTX tg pa vf wa jb) <| peersAsked ::= set_insert asked |>)) with jb.
  destruct (valid tg jb v) eqn:E; rewrite IH; cbn -[list_filter]; [rewrite filter_cons_True by done; by rewrite <- app_assoc|].
  by rewrite filter_cons_False by congruence.
Qed.

Lemma elem_of_waiting_for k o (l : list (K * TXOwner)) : o ∈ waiting_for k l <-> (k, o) ∈ l.
Proof.
  unfold waiting_for. rewrite list_elem_of_fmap. setoid_rewrite list_elem_of_filter. split; [intros ([] & -> & <- & ?); done|].
  intros Hin. by exists (k, o).
Qed.
Lemma waiting_for_nodup k h : holder_ok h -> NoDup (waiting_for k (waiting h)).
Proof.
  intros Hh. pose proof (waiting_once h Hh) as Hnd. unfold waiting_for. clear Hh. induction (waiting h) as [|[k' o] l IH]; [constructor|].
  cbn in Hnd. apply NoDup_cons in Hnd as [Ho Hnd]. destruct (decide (k' = k)) as [-> |Hk].
  - rewrite filter_cons_True by done. cbn. constructor; [|auto]. intros ([k' o'] & -> & [_ Hin]%list_elem_of_filter)%list_elem_of_fmap.
    apply Ho, list_elem_of_fmap. by exists (k', o').
  - rewrite filter_cons_False by done. auto.
Qed.

Definition answered (from : TXOwner) vs h (owners : list TXOwner) : list (TX K V J) :=
  omap (fun o => found (node from) vs <$> tx h !! o) owners.
Lemma inform_loop_run from vs owners h w :
  NoDup owners ->
  exists h', informs from vs true owners h w = Ok (h', foldl (fun w t => SendReply t w) w (answered from vs h owners)) /\
    waiting h' = waiting h /\ timeouts h' = timeouts h /\ forall o, tx h' !! o = if decide (o ∈ owners) then None else tx h !! o.
Proof using Hvalid.
  revert h w. induction owners as [|o owners IH]; intros h w Hnd; cbn [inform_loop].
  { exists h. split_and!; [done..|]. intros o. by rewrite decide_False by apply not_elem_of_nil. }
  apply NoDup_cons in Hnd as [Ho Hnd]. unfold answered. cbn [omap list_omap]. destruct (tx h !! o) as [t|] eqn:E; cbn [fmap option_fmap option_map].
  - rewrite found_all_ok. cbn [rbind foldl]. set (h1 := h <| tx ::= _ |> <| tx ::= delete o |>).
    destruct (IH h1 (SendReply (found (node from) vs t) w) Hnd) as (h' & E' & Hw & Ht & Htx). exists h'. split_and!; [|done..|].
    + rewrite E'. do 2 f_equal. unfold answered. f_equal. clear -Ho. induction owners as [|x l IHl]; [done|]. apply not_elem_of_cons in Ho as [Hx Ho]. cbn [omap list_omap].
      rewrite (IHl Ho). cbn. by rewrite lookup_delete_ne, lookup_insert_ne by done.
    + intros o'. rewrite Htx. cbn. destruct (decide (o' = o)) as [-> |Hne].
      * rewrite lookup_delete_eq. rewrite (decide_True (P := o ∈ o :: owners)) by apply list_elem_of_here. by case_decide.
      * rewrite lookup_delete_ne, lookup_insert_ne by done. apply decide_ext. rewrite elem_of_cons. naive_solver.
  - destruct (IH h w Hnd) as (h' & E' & Hw & Ht & Htx). exists h'. split_and!; [done..|]. intros o'. rewrite Htx.
    destruct (decide (o' = o)) as [-> |Hne]; [|apply decide_ext; rewrite elem_of_cons; naive_solver]. rewrite E. by repeat case_decide.
Qed.

Lemma elem_of_rest k (l : list (K * TXOwner)) e : e ∈ filter (fun e => e.1 <> k) l <-> e ∈ l /\ e.1 <> k.
Proof. rewrite list_elem_of_filter. naive_solver. Qed.

(** Informing the lookups for a key: those and no others are answered, in order, and are gone. *)
Lemma inform_answers from k vs rt h w :
  holder_ok h ->
  exists h', inform from k vs true rt h w = Ok (h', foldl (fun w t => SendReply t w) w (answered from vs h (waiting_for k (waiting h)))) /\
    waiting h' = filter (fun e => e.1 <> k) (waiting h) /\ timeouts h' = (if rt then delete k (timeouts h) else timeouts h) /\
    (forall o, tx h' !! o = match tx h !! o with Some t => if decide (target t = k) then None else Some t | None => None end).
Proof using Hvalid.
  intros Hh. unfold Inform.
  destruct (inform_loop_run from vs (waiting_for k (waiting h)) h w (waiting_for_nodup k h Hh)) as (h' & -> & Hw & Ht & Htx). cbn [rbind].
  eexists. split; [reflexivity|]. split_and!; [destruct rt; cbn; by rewrite Hw|destruct rt; cbn; by rewrite Ht|].
  intros o. assert (tx h' !! o = match tx h !! o with Some t => if decide (target t = k) then None else Some t | None => None end) as E.
  { rewrite Htx. destruct (tx h !! o) as [t|] eqn:E; [|by case_decide]. apply decide_ext. rewrite elem_of_waiting_for. split.
    - intros Hin. apply (waiting_pending h Hh) in Hin as (t' & E' & Hk). congruence.
    - intros <-. by apply (pending_waits h Hh). }
  by destruct rt.
Qed.
Lemma inform_ok from k vs h w h' w' :
  holder_ok h -> inform from k vs true true h w = Ok (h', w') -> holder_ok h'.
Proof using Hvalid.
  intros Hh E. destruct (inform_answers from k vs true h w Hh) as (h1 & E1 & Hw & Ht & Htx). rewrite E in E1. injection E1 as <- ->. split.
  - intros o t. rewrite Htx, Hw, elem_of_rest. destruct (tx h !! o) as [t'|] eqn:Eo; [|done]. case_decide; intros [= <-].
    split; [by apply (pending_waits h Hh)|done].
  - intros k' o. rewrite Hw, elem_of_rest, Htx. intros [Hin Hne]. destruct (waiting_pending h Hh _ _ Hin) as (t & -> & <-). cbn in Hne.
    rewrite decide_False by done. by exists t.
  - rewrite Hw. eapply sublist_NoDup; [apply (waiting_once h Hh)|]. apply fmap_sublist, sublist_filter.
  - intros k'. rewrite Ht, Hw. setoid_rewrite elem_of_rest. destruct (decide (k' = k)) as [-> |Hne].
    + rewrite lookup_delete_eq. split; [by intros []|]. intros (o & _ & []). done.
    + rewrite lookup_delete_ne by done. rewrite (waiting_timed h Hh). naive_solver.
Qed.

(** ** Histories *)
Definition ident t : K * TXOwner * J := (target t, whoasked t, job t).
(** The transactions without an answer, in the order in which they wait. *)
Definition pending h : list (K * TXOwner * J) := omap (fun e => ident <$> tx h !! e.2) (waiting h).

Lemma ident_found asked vs t : ident (found asked vs t) = ident t.
Proof. done. Qed.
Lemma pending_inform from k vs h h' :
  waiting h' = filter (fun e => e.1 <> k) (waiting h) -> holder_ok h ->
  (forall o, tx h' !! o = match tx h !! o with Some t => if decide (target t = k) then None else Some t | None => None end) ->
  pending h ≡ₚ (ident <$> answered from vs h (waiting_for k (waiting h))) ++ pending h'.
Proof.
  intros Hw Hh Htx. unfold pending, answered, waiting_for. rewrite Hw. pose proof (waiting_pending h Hh) as Hp. clear Hw Hh.
  induction (waiting h) as [|[k' o] l IH]; [done|]. cbn [omap list_omap snd].
  destruct (Hp k' o (list_elem_of_here _ _)) as (t & Et & Hk). rewrite Et. cbn [fmap option_fmap option_map].
  assert (forall k o, (k, o) ∈ l -> exists t, tx h !! o = Some t /\ target t = k) as Hp' by (intros; apply Hp; by apply list_elem_of_further).
  destruct (decide (k' = k)) as [-> |Hne].
  - rewrite filter_cons_True, filter_cons_False by naive_solver. cbn [fmap list_fmap omap list_omap snd app]. rewrite Et.
    cbn [fmap option_fmap option_map list_fmap app]. rewrite ident_found. constructor. by apply IH.
  - rewrite filter_cons_False, filter_cons_True by done. cbn [omap list_omap snd]. rewrite (Htx o), Et, decide_False by congruence.
    cbn [fmap option_fmap option_map]. rewrite (IH Hp'). apply Permutation_middle.
Qed.
Lemma pending_complete h o t : holder_ok h -> tx h !! o = Some t -> ident t ∈ pending h.
Proof.
  intros Hh Et. unfold pending. apply list_elem_of_omap. exists (target t, o). split; [by apply (pending_waits h Hh)|]. cbn. by rewrite Et.
Qed.

(** The calls of the context on a holder. *)
Context (Start : TX K V J -> TXOwner -> W -> W).
Inductive call :=
  | CNew (now : Z) (askpeer : TXOwner) (t : TX K V J) (timeout : Z)
  | CFound (from : TXOwner) (k : K) (vs : list V)
  | CNotFound (from : TXOwner)
  | CExpire (now : Z).
Definition run_call (c : call) h w : res (TXHolder K V J * W) :=
  match c with
  | CNew now askpeer t timeout => NewTX Start now askpeer (target t) t timeout h w
  | CFound from k vs => Found Validate SendReply from k vs h w
  | CNotFound from => NotFound Validate SendReply from h w
  | CExpire now => Expire Validate SendReply now h w
  end.
Lemma new_ok now askpeer t timeout h w :
  holder_ok h -> tx h !! askpeer = None ->
  exists h' w', NewTX Start now askpeer (target t) t timeout h w = Ok (h', w') /\ holder_ok h' /\ pending h' = pending h ++ [ident t] /\
    tx h' = <[askpeer := t]> (tx h) /\
    (forall k at_, timeouts h' !! k = Some at_ -> timeouts h !! k = Some at_ \/ at_ = now + timeout) /\
    w' = if bool_decide (waiting_for (target t) (waiting h) = []) then Start t askpeer w else w.
Proof.
  intros Hh Hn. unfold NewTX, HasPendingLookupFrom, GetPendingLookupFrom. rewrite Hn.
  set (h1 := match timeouts _ !! target t with None => _ | Some _ => _ end).
  assert (waiting h1 = waiting h ++ [(target t, askpeer)] /\ tx h1 = <[askpeer := t]> (tx h)) as [Hw Ht] by (unfold h1; by case_match).
  assert (forall k, timeouts h1 !! k = if decide (k = target t) then Some (default (now + timeout) (timeouts h !! k)) else timeouts h !! k) as Hto.
  { intros k. unfold h1. cbn. destruct (timeouts h !! target t) as [a|] eqn:E; cbn.
    - case_decide as Hk; [subst; by rewrite E|done].
    - case_decide as Hk; [subst; by rewrite lookup_insert_eq, E|by rewrite lookup_insert_ne]. }
  exists h1, (if bool_decide (waiting_for (target t) (waiting h) = []) then Start t askpeer w else w). split_and!.
  - change (waiting (h <| tx ::= <[askpeer := t]> |>)) with (waiting h). by destruct (waiting_for (target t) (waiting h)).
  - split.
    + intros o t'. rewrite Ht, Hw, elem_of_app, list_elem_of_singleton. intros [[<- <-]|[Hne Ho]]%lookup_insert_Some; [by right|].
      left. by apply (pending_waits h Hh).
    + intros k o. rewrite Ht, Hw, elem_of_app, list_elem_of_singleton. intros [Hin|[= -> ->]]; [|exists t; by rewrite lookup_insert_eq].
      destruct (waiting_pending h Hh _ _ Hin) as (t' & E & Hk). exists t'. rewrite lookup_insert_ne; [done|]. congruence.
    + rewrite Hw, fmap_app. apply NoDup_app. split_and!; [apply (waiting_once h Hh)| |apply NoDup_singleton].
      intros o ([k o'] & -> & Hin)%list_elem_of_fmap. cbn. rewrite list_elem_of_singleton. intros ->.
      destruct (waiting_pending h Hh _ _ Hin) as (t' & E & _). congruence.
    + intros k. rewrite Hto, Hw. setoid_rewrite elem_of_app. setoid_rewrite list_elem_of_singleton. case_decide as Hk.
      * subst k. split; [|by eauto]. intros _. exists askpeer. by right.
      * rewrite (waiting_timed h Hh). naive_solver.
  - unfold pending. rewrite Hw, omap_app, Ht. f_equal; [|cbn; by rewrite lookup_insert_eq].
    assert (forall k o, (k, o) ∈ waiting h -> o <> askpeer) as Hne.
    { intros k o Hin ->. destruct (waiting_pending h Hh _ _ Hin) as (t' & E & _). congruence. }
    clear -Hne. induction (waiting h) as [|[k o] l IH]; [done|]. cbn [omap list_omap snd].
    rewrite lookup_insert_ne by (intros ->; by apply (Hne k o (list_elem_of_here _ _))). rewrite IH; [done|]. intros k' o' Hin. apply (Hne k'). by apply list_elem_of_further.
  - done.
  - intros k at_. rewrite Hto. case_decide as Hk; [|by left]. destruct (timeouts h !! k); intros [= <-]; auto.
  - done.
Qed.

(** What a call that starts nothing does: some transactions are answered, with the values [vs]. *)
Definition answers vs h w h' w' : Prop :=
  holder_ok h' /\
  (exists log, w' = foldl (fun w t => SendReply t w) w log /\ pending h ≡ₚ (ident <$> log) ++ pending h' /\
     Forall (fun t => exists asked o t0, tx h !! o = Some t0 /\ t = found asked vs t0) log) /\
  (forall o t, tx h' !! o = Some t -> tx h !! o = Some t) /\ (forall k at_, timeouts h' !! k = Some at_ -> timeouts h !! k = Some at_).
Lemma answers_refl vs h w : holder_ok h -> answers vs h w h w.
Proof. intros Hh. split_and!; [done| |done..]. by exists []. Qed.
Lemma answers_trans vs h w h1 w1 h2 w2 : answers vs h w h1 w1 -> answers vs h1 w1 h2 w2 -> answers vs h w h2 w2.
Proof.
  intros (_ & (l1 & -> & P1 & F1) & T1 & O1) (H2 & (l2 & -> & P2 & F2) & T2 & O2). split_and!; [done| |by auto..]. exists (l1 ++ l2).
  rewrite foldl_app, fmap_app, <- app_assoc. split_and!; [done|by rewrite P1, P2|]. apply Forall_app. split; [done|].
  eapply Forall_impl; [exact F2|]. intros t (a & o & t0 & E & ->). eauto 6.
Qed.
Lemma inform_run from k vs h w :
  holder_ok h -> exists h' w', inform from k vs true true h w = Ok (h', w') /\ answers vs h w h' w' /\ timeouts h' = delete k (timeouts h).
Proof using Hvalid.
  intros Hh. destruct (inform_answers from k vs true h w Hh) as (h' & E & Hw & Ht & Htx). eexists _, _. split; [exact E|]. split; [|done].
  split_and!; [by eapply inform_ok| | |].
  - eexists. split_and!; [reflexivity|by apply pending_inform|]. apply Forall_forall. intros t (o & _ & Ht0)%list_elem_of_omap.
    destruct (tx h !! o) as [t0|] eqn:Eo; cbn in Ht0; simplify_eq. eauto 6.
  - intros o t. rewrite Htx. destruct (tx h !! o); [by case_decide|done].
  - intros k' at_. rewrite Ht. by intros [_ ?]%lookup_delete_Some.
Qed.
Lemma expire_step k h w :
  rbind (inform owner0 k [] true false h w) (fun '(h, w) => Ok (h <| timeouts ::= delete k |>, w)) = inform owner0 k [] true true h w.
Proof. unfold Inform. by destruct (inform_loop _ _ _ _ _ _ _ _) as [[h1 w1]| | |]. Qed.
Lemma expire_run now l h w :
  holder_ok h -> exists h' w', expire_loop Validate SendReply now l h w = Ok (h', w') /\ answers [] h w h' w' /\
    forall k at_, (k, at_) ∈ l -> at_ <= now -> timeouts h' !! k = None.
Proof using Hvalid.
  revert h w. induction l as [|[k at_] l IH]; intros h w Hh; cbn [expire_loop].
  { exists h, w. split_and!; [done|by apply answers_refl|]. by intros ? ? ?%elem_of_nil. }
  destruct (Z.leb_spec at_ now).
  - destruct (inform_run owner0 k [] h w Hh) as (h1 & w1 & E & Ha & Ht). rewrite <- expire_step in E.
    destruct (inform owner0 k [] true false h w) as [[h0 w0]| | |]; cbn [rbind] in *; [|done..]. injection E as -> ->.
    destruct (IH h1 w1) as (h2 & w2 & E2 & Ha2 & H2); [by apply Ha|]. exists h2, w2. split_and!; [done|by eapply answers_trans|].
    intros k' at'. rewrite elem_of_cons. intros [[= -> ->]|Hin] Hle; [|by eapply H2]. destruct (timeouts h2 !! k) as [a|] eqn:Ek; [|done].
    apply Ha2 in Ek. rewrite Ht, lookup_delete_eq in Ek. done.
  - destruct (IH h w Hh) as (h2 & w2 & E2 & Ha2 & H2). exists h2, w2. split_and!; [done..|].
    intros k' at'. rewrite elem_of_cons. intros [[= -> ->]|Hin] Hle; [lia|by eapply H2].
Qed.
(** After the last timeout nothing is pending. *)
Lemma expire_all now h w :
  holder_ok h -> (forall k at_, timeouts h !! k = Some at_ -> at_ <= now) ->
  exists h' w', Expire Validate SendReply now h w = Ok (h', w') /\ answers [] h w h' w' /\ pending h' = [] /\ tx h' = ∅.
Proof using Hvalid.
  intros Hh Hto. unfold Expire. destruct (expire_run now (map_to_list (timeouts h)) h w Hh) as (h' & w' & E & Ha & Ht). exists h', w'.
  assert (forall k, timeouts h' !! k = None) as Hnone.
  { intros k. destruct (timeouts h' !! k) as [a|] eqn:Ek; [|done]. rewrite <- Ek. apply Ha in Ek as Ek'. eapply Ht; [by apply elem_of_map_to_list|by eapply Hto]. }
  pose proof Ha as (Hh' & _). assert (waiting h' = []) as Hw.
  { destruct (waiting h') as [|[k o] l] eqn:Ew; [done|]. exfalso. assert (is_Some (timeouts h' !! k)) as [a Hk].
    { apply (waiting_timed h' Hh'). exists o. rewrite Ew. apply list_elem_of_here. } by rewrite Hnone in Hk. }
  split_and!; [done..|by unfold pending; rewrite Hw|]. apply map_empty. intros o. destruct (tx h' !! o) as [t|] eqn:Eo; [|done].
  apply (pending_waits h' Hh') in Eo. rewrite Hw in Eo. by apply elem_of_nil in Eo.
Qed.
Definition call_values (c : call) : list V := match c with CFound _ _ vs => vs | _ => [] end.
Lemma call_run c h w :
  holder_ok h -> match c with CNew _ _ _ _ => False | _ => True end -> exists h' w', run_call c h w = Ok (h', w') /\ answers (call_values c) h w h' w'.
Proof using Hvalid.
  intros Hh Hc. destruct c as [|from k vs|from|now]; [done| | |]; cbn [run_call].
  - destruct (inform_run from k vs h w Hh) as (h' & w' & E & Ha & _). by eauto.
  - unfold NotFound. destruct (tx h !! from) as [t|]; [|exists h, w; split; [done|by apply answers_refl]].
    destruct (inform_run from (target t) [] h w Hh) as (h' & w' & E & Ha & _). by eauto.
  - destruct (expire_run now (map_to_list (timeouts h)) h w Hh) as (h' & w' & E & Ha & _). by eauto.
Qed.
End spec.

(** ** The history of a holder *)
Section history.
Context {K V J : Type} `{Countable K} (Validate : TX K V J -> V -> res bool).
Context (valid : K -> J -> V -> bool) (Hvalid : forall t v, Validate t v = Ok (valid (target t) (job t) v)).
Implicit Types (h : TXHolder K V J) (t : TX K V J).

(** What the context sees: lookups started and lookups answered. *)
Inductive event := Started (askpeer : TXOwner) (t : TX K V J) | Replied (t : TX K V J).
Definition log_start t (o : TXOwner) (w : list event) : list event := w ++ [Started o t].
Definition log_reply t (w : list event) : list event := w ++ [Replied t].
Fixpoint run_calls (cs : list call) h (w : list event) : res (TXHolder K V J * list event) :=
  match cs with
  | [] => Ok (h, w)
  | c :: cs => let* (h, w) := run_call Validate log_reply log_start c h w in run_calls cs h w
  end.
Definition holder0 : TXHolder K V J := Holder [] ∅ ∅.

Definition created (cs : list (call (K := K) (V := V) (J := J))) : list (K * TXOwner * J) :=
  omap (fun c => match c with CNew _ _ t _ => Some (ident t) | _ => None end) cs.
Definition asked (cs : list (call (K := K) (V := V) (J := J))) : list TXOwner := omap (fun c => match c with CNew _ o _ _ => Some o | _ => None end) cs.
Definition deadline (T : Z) (c : call (K := K) (V := V) (J := J)) : Prop :=
  match c with CNew now _ _ timeout => now + timeout <= T | _ => True end.
Definition replied (w : list event) : list (K * TXOwner * J) :=
  omap (fun e => match e with Replied t => Some (ident t) | _ => None end) w.

Lemma replied_log (log : list (TX K V J)) w :
  replied (foldl (fun w t => log_reply t w) w log) = replied w ++ (ident <$> log).
Proof.
  revert w. induction log as [|t log IH]; intros w; cbn [foldl fmap list_fmap]; [by rewrite app_nil_r|].
  rewrite IH. unfold log_reply, replied. rewrite omap_app. cbn. by rewrite <- app_assoc.
Qed.

(** The state of a holder after calls that asked [used], created [ids], with deadlines until [T]. *)
Definition history_ok (used : list TXOwner) (ids : list (K * TXOwner * J)) (T : Z) h w : Prop :=
  holder_ok h /\ (forall o, is_Some (tx h !! o) -> o ∈ used) /\ replied w ++ pending h ≡ₚ ids /\
  (forall k at_, timeouts h !! k = Some at_ -> at_ <= T).
Lemma answers_history used ids T vs h w h' w' :
  history_ok used ids T h w -> answers log_reply valid vs h w h' w' -> history_ok used ids T h' w'.
Proof.
  intros (Hh & Hu & Hp & Ht) (Hh' & (log & -> & Hlog & _) & Htx & Hto). split_and!; [done| | |by eauto].
  { intros o [t Ho]. apply Hu. apply Htx in Ho. by eauto. }
  rewrite replied_log, <- app_assoc, <- Hlog. done.
Qed.
Lemma history_step used ids T c h w :
  history_ok used ids T h w -> (forall o, o ∈ asked [c] -> o ∉ used) -> deadline T c ->
  exists h' w', run_call Validate log_reply log_start c h w = Ok (h', w') /\ history_ok (asked [c] ++ used) (created [c] ++ ids) T h' w'.
Proof using Hvalid.
  intros Hist Hn Hd. destruct c as [now o t timeout|from k vs|from|now].
  2-4: match goal with |- context [run_call _ _ _ ?c ?h0 ?w0] => destruct (call_run Validate log_reply valid Hvalid log_start c h0 w0) as (h' & w' & E & Ha) end;
       [apply Hist|done|exists h', w'; split; [done|by eapply answers_history]].
  destruct Hist as (Hh & Hu & Hp & Ht). cbn [asked created omap list_omap app] in *.
  destruct (new_ok log_reply log_start now o t timeout h w Hh) as (h' & w' & E & Hh' & Hpend & Htx & Hto & Hw).
  { destruct (tx h !! o) eqn:Eo; [|done]. destruct (Hn o); [apply list_elem_of_here|]. apply Hu. by rewrite Eo. }
  exists h', w'. split; [done|]. split_and!; [done| | |].
  - intros o' [x Hx]. rewrite Htx in Hx. apply lookup_insert_Some in Hx as [[-> _]|[_ Hx]]; [apply list_elem_of_here|]. apply list_elem_of_further, Hu. by rewrite Hx.
  - rewrite Hpend. assert (replied w' = replied w) as ->.
    { subst w'. case_bool_decide; [|done]. unfold log_start, replied. rewrite omap_app. cbn. by rewrite app_nil_r. }
    rewrite app_assoc, Hp. symmetry. apply Permutation_cons_append.
  - intros k at_ Hk. apply Hto in Hk as [Hk| ->]; [by eapply Ht|done].
Qed.
Lemma history_run used ids T cs h w :
  history_ok used ids T h w -> NoDup (asked cs) -> (forall o, o ∈ asked cs -> o ∉ used) -> Forall (deadline T) cs ->
  exists h' w', run_calls cs h w = Ok (h', w') /\ history_ok (reverse (asked cs) ++ used) (reverse (created cs) ++ ids) T h' w'.
Proof using Hvalid.
  revert used ids h w. induction cs as [|c cs IH]; intros used ids h w Hist Hnd Hn Hd; cbn [run_calls]; [by eauto|].
  apply Forall_cons in Hd as [Hd Hds]. assert (asked (c :: cs) = asked [c] ++ asked cs) as Ea by (by destruct c).
  assert (created (c :: cs) = created [c] ++ created cs) as Ec by (by destruct c). rewrite Ea in *. rewrite Ec. apply NoDup_app in Hnd as (_ & Hd2 & Hnd).
  destruct (history_step used ids T c h w Hist) as (h1 & w1 & -> & H1); [intros o Ho; apply Hn, elem_of_app; by left|done|]. cbn [rbind].
  destruct (IH (asked [c] ++ used) (created [c] ++ ids) h1 w1 H1 Hnd) as (h2 & w2 & -> & H2); [|done|].
  { intros o Ho [Ho'|Ho']%elem_of_app; [by apply (Hd2 o)|]. by apply (Hn o); [apply elem_of_app; right|]. }
  exists h2, w2. split; [done|]. rewrite !reverse_app, <- !app_assoc.
  replace (reverse (asked [c])) with (asked [c]) by (by destruct c). replace (reverse (created [c])) with (created [c]) by (by destruct c). done.
Qed.

(** C9. No lookup is lost and none is answered twice: whatever calls a holder gets, with a new number for every peer asked, what was
    answered and what is pending are the lookups created, each once. When every deadline has passed, the next [Expire] answers the rest.
    The reply of a lookup does not call the holder. *)
Theorem lookups_answered_once cs T :
  NoDup (asked cs) -> Forall (deadline T) cs ->
  exists h w h' w', run_calls cs holder0 [] = Ok (h, w) /\ holder_ok h /\ replied w ++ pending h ≡ₚ created cs /\
    Expire Validate log_reply T h w = Ok (h', w') /\ tx h' = ∅ /\ replied w' ≡ₚ created cs.
Proof using Hvalid.
  intros Hnd Hd. destruct (history_run [] [] T cs holder0 []) as (h & w & E & Hist); [|done|by intros ? _ ?%elem_of_nil|done|].
  { split_and!; [|by intros ? []|done|done]. split; try done; [by intros ? ? ?%elem_of_nil|constructor|]. intros k. split; [by intros []|by intros [? ?%elem_of_nil]]. }
  rewrite !app_nil_r in Hist. pose proof Hist as (Hh & _ & Hp & Ht). rewrite reverse_Permutation in Hp.
  destruct (expire_all Validate log_reply valid Hvalid T h w Hh Ht) as (h' & w' & E' & Ha & Hp' & Htx).
  exists h, w, h', w'. split_and!; [done..|]. destruct (answers_history _ _ _ _ _ _ _ _ Hist Ha) as (_ & _ & Hr & _).
  rewrite Hp', app_nil_r, reverse_Permutation in Hr. done.
Qed.
End history.

Lemma lookups_answered_once_witness :
  exists h w h' w', run_calls (fun (t : TX Z Z unit) (v : Z) => Ok (v =? target t))
      [CNew 0 (Owner [1] 1) (MkTX 5 [] [] (Owner [9] 7) tt) 10; CNew 1 (Owner [2] 2) (MkTX 5 [] [] (Owner [8] 7) tt) 10; CFound (Owner [1] 1) 6 [6]]
      holder0 [] = Ok (h, w) /\
    Expire (fun (t : TX Z Z unit) (v : Z) => Ok (v =? target t)) log_reply 11 h w = Ok (h', w') /\ length (replied w') = 2%nat.
Proof.
  destruct (lookups_answered_once (fun (t : TX Z Z unit) (v : Z) => Ok (v =? target t)) (fun k _ v => v =? k) (fun _ _ => eq_refl)
    [CNew 0 (Owner [1] 1) (MkTX 5 [] [] (Owner [9] 7) tt) 10; CNew 1 (Owner [2] 2) (MkTX 5 [] [] (Owner [8] 7) tt) 10; CFound (Owner [1] 1) 6 [6]] 11)
    as (h & w & h' & w' & H1 & _ & _ & H2 & _ & H3).
  - apply (bool_decide_unpack _). vm_compute. exact I.
  - repeat (apply Forall_cons; split; [cbn; lia|]). constructor.
  - exists h, w, h', w'. split; [exact H1|]. split; [exact H2|]. apply Permutation_length in H3. exact H3.
Defined.
