(* ===== verification/Profiling.v ===== *)
(** * Decaying tables, profiles of routers and gossip of contacts (llarp/util/decaying_hashset.hpp,
    decaying_hashtable.hpp, llarp/profiling.cpp, llarp/router/rc_gossiper.cpp)

    The counters that decide whether a router is good enough to connect to or to build a path
    over, and the filter that keeps a contact from being gossiped again too soon. *)

From S2P Require Import Prelude Buffer Bencode Codec CryptoApi Str NetInt IpRange DnsName DnsMessage Contact Kademlia.

(** The default [now = 0s] means the clock. *)
Definition or_clock (clock now : Z) : Z := if now =? 0 then clock else now.

Module DecayingHashSet.
Record t (Val : Type) `{Countable Val} := Mk { m_CacheInterval : Z; m_Values : gmap Val Z }.
Arguments Mk {Val _ _}. Arguments m_CacheInterval {Val _ _}. Arguments m_Values {Val _ _}.
#[export] Instance eta_t {Val} `{Countable Val} : Eta (t Val) := fun s => Mk (m_CacheInterval s) (m_Values s).
Section set.
Context {Val : Type} `{Countable Val}.
Implicit Types (s : t Val) (v : Val).
Definition Size s : nat := size (m_Values s).
Definition Contains v s : bool := match m_Values s !! v with Some _ => true | None => false end.
Definition Insert (clock : Z) v (now : Z) s : bool * t Val :=
  match m_Values s !! v with
  | Some _ => (false, s)
  | None => (true, s <| m_Values ::= <[v := or_clock clock now]> |>)
  end.
Definition Upsert (clock : Z) v s : t Val := s <| m_Values ::= <[v := clock]> |>.
Definition Decay (clock now : Z) s : t Val :=
  s <| m_Values ::= filter (fun item => ~ m_CacheInterval s + item.2 <= or_clock clock now) |>.
Definition Empty s : bool := bool_decide (m_Values s = ∅).
Definition Remove v s : t Val := s <| m_Values ::= delete v |>.
End set.
End DecayingHashSet.

Module DecayingHashTable.
Record t (Key Value : Type) `{Countable Key} := Mk { m_CacheInterval : Z; m_Values : gmap Key (Value * Z) }.
Arguments Mk {Key Value _ _}. Arguments m_CacheInterval {Key Value _ _}. Arguments m_Values {Key Value _ _}.
#[export] Instance eta_t {Key Value} `{Countable Key} : Eta (t Key Value) := fun s => Mk (m_CacheInterval s) (m_Values s).
Section table.
Context {Key Value : Type} `{Countable Key}.
Implicit Types (s : t Key Value) (k : Key).
Definition Decay (now : Z) s : t Key Value := s <| m_Values ::= filter (fun item => ~ item.2.2 + m_CacheInterval s <= now) |>.
Definition Has k s : bool := match m_Values s !! k with Some _ => true | None => false end.
Definition Put (clock : Z) k (value : Value) (now : Z) s : bool * t Key Value :=
  match m_Values s !! k with
  | Some _ => (false, s)
  | None => (true, s <| m_Values ::= <[k := (value, or_clock clock now)]> |>)
  end.
Definition Get k s : option Value := fst <$> m_Values s !! k.
Definition Remove k s : t Key Value := s <| m_Values ::= delete k |>.
End table.
End DecayingHashTable.

(** ** Profiles: the counters are 64 bits wide *)
Module RouterProfile.
Record t := Mk { connectTimeoutCount : Z; connectGoodCount : Z; pathSuccessCount : Z; pathFailCount : Z; pathTimeoutCount : Z;
  lastUpdated : Z; lastDecay : Z; version : Z }.
#[export] Instance eta_t : Eta t := fun p => Mk (connectTimeoutCount p) (connectGoodCount p) (pathSuccessCount p) (pathFailCount p)
  (pathTimeoutCount p) (lastUpdated p) (lastDecay p) (version p).
Definition default : t := Mk 0 0 0 0 0 0 0 proto_version.

Definition Decay (now : Z) (p : t) : t :=
  p <| connectGoodCount ::= fun n => n / 2 |> <| connectTimeoutCount ::= fun n => n / 2 |>
    <| pathSuccessCount ::= fun n => n / 2 |> <| pathFailCount ::= fun n => n / 2 |> <| pathTimeoutCount ::= fun n => n / 2 |>
    <| lastDecay := now |>.
Definition updateInterval : Z := 30000.
Definition Tick (now : Z) (p : t) : t :=
  if (lastDecay p <? now) && (updateInterval <? now - lastDecay p) then Decay now p else p.
Definition IsGood (chances : Z) (p : t) : bool :=
  if chances <? connectTimeoutCount p then
    (connectTimeoutCount p <? connectGoodCount p) && (pathFailCount p <? u64 (pathSuccessCount p * chances))
  else pathFailCount p <? u64 (pathSuccessCount p * chances).
Definition checkIsGood (fails success chances : Z) : bool :=
  if (0 <? fails) && (chances <=? u64 (fails + success)) then 1 <? success / fails
  else if success =? 0 then fails <? chances
  else true.
Definition IsGoodForConnect (chances : Z) (p : t) : bool := checkIsGood (connectTimeoutCount p) (connectGoodCount p) chances.
Definition IsGoodForPath (chances : Z) (p : t) : bool :=
  if chances <? pathTimeoutCount p then false else checkIsGood (pathFailCount p) (pathSuccessCount p) chances.
End RouterProfile.

Module Profiling.
Import RouterProfile.
Record t := Mk { m_Profiles : gmap RouterID RouterProfile.t; m_LastSave : Z; m_DisableProfiling : bool }.
#[export] Instance eta_t : Eta t := fun p => Mk (m_Profiles p) (m_LastSave p) (m_DisableProfiling p).
Definition profiling_chances : Z := 4.
Definition Profiling : t := Mk ∅ 0 true.
Definition Disable (p : t) : t := p <| m_DisableProfiling := true |>.
Definition Enable (p : t) : t := p <| m_DisableProfiling := false |>.
Definition IsBadForConnect (r : RouterID) (chances : Z) (p : t) : bool :=
  if m_DisableProfiling p then false
  else match m_Profiles p !! r with None => false | Some q => negb (IsGoodForConnect chances q) end.
Definition IsBadForPath (r : RouterID) (chances : Z) (p : t) : bool :=
  if m_DisableProfiling p then false
  else match m_Profiles p !! r with None => false | Some q => negb (IsGoodForPath chances q) end.
Definition IsBad (r : RouterID) (chances : Z) (p : t) : bool :=
  if m_DisableProfiling p then false
  else match m_Profiles p !! r with None => false | Some q => negb (IsGood chances q) end.
Definition Tick (now : Z) (p : t) : t := p <| m_Profiles ::= fmap (RouterProfile.Tick now) |>.
(** [auto& profile = m_Profiles[r]; ...; profile.lastUpdated = now] *)
Definition mark (now : Z) (r : RouterID) (f : RouterProfile.t -> RouterProfile.t) (p : t) : t :=
  p <| m_Profiles ::= <[r := (f (from_option id default (m_Profiles p !! r))) <| lastUpdated := now |>]> |>.
Definition MarkConnectTimeout (now : Z) (r : RouterID) (p : t) : t :=
  if m_DisableProfiling p then p else mark now r (fun q => q <| connectTimeoutCount ::= fun n => u64 (n + 1) |>) p.
Definition MarkConnectSuccess (now : Z) (r : RouterID) (p : t) : t :=
  mark now r (fun q => q <| connectGoodCount ::= fun n => u64 (n + 1) |>) p.
Definition ClearProfile (r : RouterID) (p : t) : t := p <| m_Profiles ::= delete r |>.
Definition MarkHopFail (now : Z) (r : RouterID) (p : t) : t :=
  if m_DisableProfiling p then p else mark now r (fun q => q <| pathFailCount ::= fun n => u64 (n + 1) |>) p.
(** [hops] are the keys of the hops of the path; the first hop is spared. *)
Definition MarkPathFail (now : Z) (hops : list RouterID) (p : t) : t :=
  if m_DisableProfiling p then p
  else foldl (fun p r => mark now r (fun q => q <| pathFailCount ::= fun n => u64 (n + 1) |>) p) p (tail hops).
Definition MarkPathTimeout (now : Z) (hops : list RouterID) (p : t) : t :=
  if m_DisableProfiling p then p
  else foldl (fun p r => mark now r (fun q => q <| pathTimeoutCount ::= fun n => u64 (n + 1) |>) p) p hops.
Definition path_success (sz : Z) (q : RouterProfile.t) : RouterProfile.t :=
  q <| pathFailCount ::= fun n => n / 2 |> <| pathTimeoutCount := 0 |> <| pathSuccessCount ::= fun n => u64 (n + sz) |>.
Definition MarkPathSuccess (now : Z) (hops : list RouterID) (p : t) : t :=
  foldl (fun p r => mark now r (path_success (Z.of_nat (length hops))) p) p hops.
Definition ShouldSave (now : Z) (p : t) : bool := 60000 <? now - m_LastSave p.
End Profiling.

(** ** Gossip *)
Module RCGossiper.
Import RouterContact.
(** A session of the link manager: what [GossipRC] asks of it. *)
Record peer := Peer { established : bool; remote_rc : RouterContact.t; session_key : RouterID }.
Record t := Mk { m_OurRouterID : RouterID; m_LastGossipedOurRC : Z; has_links : bool; m_Filter : DecayingHashSet.t RouterID }.
#[export] Instance eta_t : Eta t := fun g => Mk (m_OurRouterID g) (m_LastGossipedOurRC g) (has_links g) (m_Filter g).
Definition RCGossipFilterDecayInterval : Z := 30 * 60000.
Definition GossipOurRCInterval : Z := RCGossipFilterDecayInterval * 2 - 5 * 60000.
Definition MaxGossipPeers : nat := 20.
Definition RCGossiper : t := Mk (Fill 0) 0 false (DecayingHashSet.Mk RCGossipFilterDecayInterval ∅).
Definition Init (ourID : RouterID) (g : t) : t := g <| m_OurRouterID := ourID |> <| has_links := true |>.
Definition ShouldGossipOurRC (now : Z) (g : t) : bool := m_LastGossipedOurRC g + GossipOurRCInterval <=? now.
Definition IsOurRC (rc : RouterContact.t) (g : t) : bool := bool_decide (pubkey rc = m_OurRouterID g).
Definition Decay (clock now : Z) (g : t) : t := g <| m_Filter ::= DecayingHashSet.Decay clock now |>.
Definition Forget (pk : RouterID) (g : t) : t :=
  let g := g <| m_Filter ::= DecayingHashSet.Remove pk |> in
  if bool_decide (m_OurRouterID g = pk) then g <| m_LastGossipedOurRC := 0 |> else g.
Definition LastGossipAt (g : t) : option Z := if m_LastGossipedOurRC g =? 0 then None else Some (m_LastGossipedOurRC g).
Definition NextGossipAt (clock : Z) (g : t) : Z :=
  match LastGossipAt g with Some at_ => at_ + GossipOurRCInterval | None => clock end.
(** [sample] is what [std::sample] draws from the candidates, [fits] whether the text of the
    message fits; the result has the sessions the contact is sent over. *)
Definition GossipRC (now : Z) (peers : list peer) (sample : nat -> list RouterID -> list RouterID) (fits : bool) (rc : RouterContact.t) (g : t)
  : bool * list RouterID * t :=
  if negb (IsPublicRouter rc) then (false, [], g)
  else if negb (has_links g) then (false, [], g)
  else if DecayingHashSet.Contains (pubkey rc) (m_Filter g) then (false, [], g)
  else
    let g := g <| m_Filter := (DecayingHashSet.Insert now (pubkey rc) 0 (m_Filter g)).2 |> in
    if IsOurRC rc g && negb (ShouldGossipOurRC now g) then (false, [], g)
    else
      let g := if IsOurRC rc g then g <| m_LastGossipedOurRC := now |> else g in
      let gossipTo := (fun p => pubkey (remote_rc p)) <$> filter (fun p => established p && IsPublicRouter (remote_rc p) = true) peers in
      let keys := sample MaxGossipPeers gossipTo in
      let sends := filter (fun p => established p = true /\ session_key p ∈ keys) peers in
      (true, if fits then session_key <$> sends else [], g).
End RCGossiper.

(** * What the profiles promise *)
Module ProfilingSpec.
Import RouterProfile Profiling.
(** Counters far enough from overflow for one more mark of a path of [sz] hops. *)
Definition room (sz : Z) (q : RouterProfile.t) : Prop :=
  0 <= pathFailCount q /\ 0 <= pathSuccessCount q /\ 0 <= pathTimeoutCount q < 2 ^ 64 - 1 /\ 0 <= sz /\ pathFailCount q + pathSuccessCount q + sz + 1 < 2 ^ 64.

Lemma u64_small x : 0 <= x < 2 ^ 64 -> u64 x = x.
Proof. intros. unfold wrap. by apply Z.mod_small. Qed.
Lemma check_more_fails f s c : 0 <= f -> 0 <= s -> f + s + 1 < 2 ^ 64 -> checkIsGood f s c = false -> checkIsGood (f + 1) s c = false.
Proof.
  intros Hf Hs Hb. unfold checkIsGood. rewrite !u64_small by lia. destruct (Z.ltb_spec 0 f) as [Hf0|Hf0]; cbn [andb].
  - rewrite (proj2 (Z.ltb_lt 0 (f + 1))) by lia. cbn [andb]. destruct (Z.leb_spec c (f + s)).
    + rewrite (proj2 (Z.leb_le c (f + 1 + s))) by lia. rewrite !Z.ltb_ge. intros. etransitivity; [apply (Z.div_le_compat_l s f (f + 1)); lia|done].
    + destruct (Z.eqb_spec s 0); [|done]. subst s. rewrite Z.ltb_ge. lia.
  - assert (f = 0) as -> by lia. destruct (Z.eqb_spec s 0); [|done]. subst s. rewrite Z.ltb_ge. intros. rewrite (proj2 (Z.leb_le c _)) by lia. done.
Qed.
(** A success counts as at least three hops. *)
Lemma check_success f s sz : 0 <= f -> 0 <= s -> 0 < sz -> f + s + sz < 2 ^ 64 -> checkIsGood f s 4 = true -> checkIsGood (f / 2) (s + sz) 4 = true.
Proof.
  intros Hf Hs Hz Hb. unfold checkIsGood. pose proof (Z.div_pos f 2). pose proof (Z.mul_div_le f 2). pose proof (Z.mod_pos_bound f 2). pose proof (Z.div_mod f 2).
  rewrite !u64_small by lia. rewrite (proj2 (Z.eqb_neq (s + sz) 0)) by lia. destruct (Z.ltb_spec 0 (f / 2)) as [Hh|Hh]; cbn [andb]; [|done].
  destruct (Z.leb_spec 4 (f / 2 + (s + sz))) as [H4|H4]; [|done].
  rewrite (proj2 (Z.ltb_lt 0 f)) by lia. cbn [andb]. intros Hg. apply Z.ltb_lt. enough (2 <= (s + sz) / (f / 2)) by lia. apply Z.div_le_lower_bound; [lia|].
  destruct (Z.leb_spec 4 (f + s)).
  - apply Z.ltb_lt in Hg. assert (2 <= s / f) as Hq by lia. pose proof (Z.mul_div_le s f). nia.
  - destruct (Z.eqb_spec s 0); [apply Z.ltb_lt in Hg|]; lia.
Qed.

Lemma mark_lookup now r f p r' :
  m_Profiles (mark now r f p) !! r' =
  if decide (r' = r) then Some ((f (from_option id default (m_Profiles p !! r))) <| lastUpdated := now |>) else m_Profiles p !! r'.
Proof. unfold mark. cbn. case_decide as E; [subst; by rewrite lookup_insert_eq|by rewrite lookup_insert_ne]. Qed.
Lemma mark_disable now r f p : m_DisableProfiling (mark now r f p) = m_DisableProfiling p.
Proof. done. Qed.
Definition profile (r : RouterID) (p : Profiling.t) : RouterProfile.t := from_option id default (m_Profiles p !! r).
Lemma default_good : IsGoodForPath 4 default = true.
Proof. done. Qed.
Lemma not_bad r p : m_DisableProfiling p = false -> IsBadForPath r 4 p = negb (IsGoodForPath 4 (profile r p)).
Proof. unfold IsBadForPath, profile. intros ->. by destruct (m_Profiles p !! r). Qed.
Lemma profile_mark now r f p r' :
  profile r' (mark now r f p) = if decide (r' = r) then (f (profile r p)) <| lastUpdated := now |> else profile r' p.
Proof. unfold profile. rewrite mark_lookup. by case_decide. Qed.

(** The marks of one path, whose hops are different routers. *)
Lemma profile_marks now f hops p r :
  NoDup hops ->
  profile r (foldl (fun p r => mark now r f p) p hops) = (if decide (r ∈ hops) then (f (profile r p)) <| lastUpdated := now |> else profile r p)
  /\ m_DisableProfiling (foldl (fun p r => mark now r f p) p hops) = m_DisableProfiling p.
Proof.
  revert p. induction hops as [|h hops IH]; intros p Hnd; cbn [foldl]; [by rewrite decide_False by apply not_elem_of_nil|].
  apply NoDup_cons in Hnd as [Hh Hnd]. destruct (IH (mark now h f p) Hnd) as [-> ->]. split; [|done]. rewrite !profile_mark.
  destruct (decide (r = h)) as [->|Hne].
  - rewrite decide_False by done. by rewrite decide_True by apply list_elem_of_here.
  - by rewrite (decide_ext (r ∈ h :: hops) (r ∈ hops)) by (rewrite elem_of_cons; naive_solver).
Qed.

Inductive failure := HopFail (r : RouterID) | PathFail (hops : list RouterID) | PathTimeout (hops : list RouterID).
Definition fail (now : Z) (e : failure) (p : Profiling.t) : Profiling.t :=
  match e with HopFail r => MarkHopFail now r p | PathFail hops => MarkPathFail now hops p | PathTimeout hops => MarkPathTimeout now hops p end.
Definition failure_hops (e : failure) : list RouterID := match e with HopFail r => [r] | PathFail hops | PathTimeout hops => hops end.

Lemma fail_profile now e p r :
  NoDup (failure_hops e) -> m_DisableProfiling p = false ->
  m_DisableProfiling (fail now e p) = false /\
  (profile r (fail now e p) = profile r p
   \/ profile r (fail now e p) = (profile r p) <| pathFailCount ::= fun n => u64 (n + 1) |> <| lastUpdated := now |>
   \/ profile r (fail now e p) = (profile r p) <| pathTimeoutCount ::= fun n => u64 (n + 1) |> <| lastUpdated := now |>).
Proof.
  destruct e as [h|hops|hops]; cbn [fail failure_hops]; unfold MarkHopFail, MarkPathFail, MarkPathTimeout; intros Hnd D; rewrite D.
  - split; [done|]. rewrite profile_mark. case_decide; subst; auto.
  - assert (NoDup (tail hops)) as Hnd' by (destruct hops; [done|by apply NoDup_cons in Hnd as [_ ?]]).
    destruct (profile_marks now (fun q => q <| pathFailCount ::= fun n => u64 (n + 1) |>) (tail hops) p r Hnd') as [-> ->]. split; [done|]. case_decide; auto.
  - destruct (profile_marks now (fun q => q <| pathTimeoutCount ::= fun n => u64 (n + 1) |>) hops p r Hnd) as [-> ->]. split; [done|]. case_decide; auto.
Qed.

(** Marks move a router in the right direction: with the default number of chances, a path
    that works never makes a good router bad for paths, and no failure makes a bad one good. *)
Theorem marks_monotone now p r hops e :
  m_DisableProfiling p = false -> NoDup hops -> NoDup (failure_hops e) -> room (Z.of_nat (length hops)) (profile r p) ->
  (IsBadForPath r profiling_chances p = false -> IsBadForPath r profiling_chances (MarkPathSuccess now hops p) = false) /\
  (IsBadForPath r profiling_chances p = true -> IsBadForPath r profiling_chances (fail now e p) = true).
Proof.
  intros D Hnd Hnde (Hf & Hs & Ht & Hz & Hb). unfold profiling_chances. rewrite (not_bad r p D). split.
  - unfold MarkPathSuccess. destruct (profile_marks now (path_success (Z.of_nat (length hops))) hops p r Hnd) as [E D'].
    rewrite not_bad by congruence. rewrite E. case_decide as Hr; [|done]. rewrite !negb_false_iff. unfold IsGoodForPath, path_success. cbn.
    destruct (4 <? pathTimeoutCount (profile r p)); [done|]. rewrite u64_small by lia. apply check_success; try lia. destruct hops; [by apply elem_of_nil in Hr|cbn; lia].
  - destruct (fail_profile now e p r Hnde D) as [D' E]. rewrite not_bad by done. rewrite !negb_true_iff. unfold IsGoodForPath.
    destruct E as [-> |[-> | ->]]; cbn; [done| |].
    + destruct (4 <? _); [done|]. rewrite u64_small by lia. apply check_more_fails; lia.
    + rewrite u64_small by lia. destruct (Z.ltb_spec 4 (pathTimeoutCount (profile r p))); [intros _; by rewrite (proj2 (Z.ltb_lt _ _)) by lia|]. by case_match.
Qed.

(** ** Bad routers are forgiven *)
Definition bounded (k : Z) (q : RouterProfile.t) : Prop :=
  0 <= connectTimeoutCount q < 2 ^ k /\ 0 <= connectGoodCount q < 2 ^ k /\ 0 <= pathSuccessCount q < 2 ^ k /\ 0 <= pathFailCount q < 2 ^ k /\ 0 <= pathTimeoutCount q < 2 ^ k.
Lemma half_bound k x : 0 <= k -> 0 <= x < 2 ^ (k + 1) -> 0 <= x / 2 < 2 ^ k.
Proof. intros Hk. rewrite Z.pow_add_r by lia. intros. split; [apply Z.div_pos; lia|]. apply Z.div_lt_upper_bound; lia. Qed.
Lemma decay_bounded k now q : 0 <= k -> bounded (k + 1) q -> bounded k (Decay now q).
Proof. intros Hk (? & ? & ? & ? & ?). unfold bounded, Decay. cbn. do 4 (split; [by apply half_bound|]). by apply half_bound. Qed.
(** Ticks more than [updateInterval] apart, from [at_] on. *)
Fixpoint spaced (at_ : Z) (ts : list Z) : Prop := match ts with [] => True | t :: ts => at_ + updateInterval < t /\ spaced t ts end.
Lemma ticks_bounded k ts q :
  bounded (k + Z.of_nat (length ts)) q -> 0 <= k -> spaced (lastDecay q) ts -> bounded k (foldl (fun q now => RouterProfile.Tick now q) q ts).
Proof.
  revert q. induction ts as [|t ts IH]; intros q Hq Hk Hs; cbn [foldl]; [by rewrite Z.add_0_r in Hq|]. destruct Hs as [Ht Hs].
  unfold updateInterval in Ht. unfold RouterProfile.Tick at 2. unfold updateInterval. rewrite (proj2 (Z.ltb_lt _ _)), (proj2 (Z.ltb_lt 30000 _)) by lia. cbn [andb].
  apply IH; [|done|done]. apply decay_bounded; [lia|]. cbn [length] in Hq. by replace (k + Z.of_nat (length ts) + 1) with (k + Z.of_nat (S (length ts))) by lia.
Qed.
Lemma bounded_zero q : bounded 0 q -> connectTimeoutCount q = 0 /\ connectGoodCount q = 0 /\ pathSuccessCount q = 0 /\ pathFailCount q = 0 /\ pathTimeoutCount q = 0.
Proof. unfold bounded. change (2 ^ 0) with 1. lia. Qed.
Lemma ticks_lookup ts p r :
  m_Profiles (foldl (fun p now => Profiling.Tick now p) p ts) !! r = (fun q => foldl (fun q now => RouterProfile.Tick now q) q ts) <$> m_Profiles p !! r
  /\ m_DisableProfiling (foldl (fun p now => Profiling.Tick now p) p ts) = m_DisableProfiling p.
Proof.
  revert p. induction ts as [|t ts IH]; intros p; cbn [foldl]; [by destruct (m_Profiles p !! r)|].
  destruct (IH (Profiling.Tick t p)) as [-> ->]. split; [|done]. cbn. rewrite lookup_fmap. by destruct (m_Profiles p !! r).
Qed.

(** Whatever was counted against a router, it is good again, for connections and for paths,
    after 64 ticks each more than half a minute after the one before, if nothing new is counted. *)
Theorem profiles_forgive p r ts chances :
  (forall q, m_Profiles p !! r = Some q -> bounded 64 q /\ spaced (lastDecay q) ts) -> length ts = 64%nat -> 0 < chances ->
  let p' := foldl (fun p now => Profiling.Tick now p) p ts in
  IsBadForConnect r chances p' = false /\ IsBadForPath r chances p' = false.
Proof.
  intros Hq Hl Hc p'. unfold IsBadForConnect, IsBadForPath. destruct (ticks_lookup ts p r) as [E D]. fold p' in E, D. rewrite E, D.
  destruct (m_DisableProfiling p); [done|]. destruct (m_Profiles p !! r) as [q|] eqn:Eq; cbn; [|done]. destruct (Hq q eq_refl) as [Hb Hs].
  assert (bounded 0 (foldl (fun q now => RouterProfile.Tick now q) q ts)) as (E1 & E2 & E3 & E4 & E5)%bounded_zero.
  { apply ticks_bounded; [by rewrite Hl|lia|done]. }
  unfold IsGoodForConnect, IsGoodForPath. rewrite E1, E2, E3, E4, E5. rewrite (proj2 (Z.ltb_ge chances 0)) by lia. unfold checkIsGood. cbn.
  by rewrite (proj2 (Z.ltb_lt 0 chances)).
Qed.
End ProfilingSpec.

(** * Gossip is limited *)
Module GossipSpec.
Import RouterContact RCGossiper.
Inductive event :=
  | EGossip (now : Z) (peers : list peer) (sample : nat -> list RouterID -> list RouterID) (fits : bool) (rc : RouterContact.t)
  | EDecay (clock now : Z)
  | EForget (pk : RouterID).
Definition step (g : t) (e : event) : t :=
  match e with
  | EGossip now peers sample fits rc => (GossipRC now peers sample fits rc g).2
  | EDecay clock now => Decay clock now g
  | EForget pk => Forget pk g
  end.
(** The events between [lo] and [hi] that do not forget [pk]. *)
Definition between (lo hi : Z) (pk : RouterID) (e : event) : Prop :=
  match e with
  | EGossip now _ _ _ _ => lo <= now <= hi
  | EDecay clock now => lo <= or_clock clock now <= hi
  | EForget pk' => pk' <> pk
  end.
(** [pk] was gossiped at [lo] and may be again at [hi]. *)
Record since (lo hi : Z) (pk : RouterID) (g : t) : Prop := {
  since_interval : DecayingHashSet.m_CacheInterval (m_Filter g) = RCGossipFilterDecayInterval;
  since_filter : match DecayingHashSet.m_Values (m_Filter g) !! pk with Some at_ => lo <= at_ | None => lo + RCGossipFilterDecayInterval <= hi end;
  since_ours : pk = m_OurRouterID g -> lo <= m_LastGossipedOurRC g;
}.

Lemma insert_filter (now : Z) (pk : RouterID) (s : DecayingHashSet.t RouterID) :
  DecayingHashSet.Contains pk s = false ->
  (DecayingHashSet.Insert now pk 0 s).2 = DecayingHashSet.Mk (DecayingHashSet.m_CacheInterval s) (<[pk := now]> (DecayingHashSet.m_Values s)).
Proof. unfold DecayingHashSet.Contains, DecayingHashSet.Insert. by destruct (DecayingHashSet.m_Values s !! pk). Qed.

(** What gossiping does to the state. *)
Lemma gossip_cases now peers sample fits rc g ok out g' :
  GossipRC now peers sample fits rc g = (ok, out, g') ->
  m_OurRouterID g' = m_OurRouterID g /\
  (g' = g /\ ok = false \/
   DecayingHashSet.m_Values (m_Filter g) !! pubkey rc = None /\
   m_Filter g' = DecayingHashSet.Mk (DecayingHashSet.m_CacheInterval (m_Filter g)) (<[pubkey rc := now]> (DecayingHashSet.m_Values (m_Filter g))) /\
   (m_LastGossipedOurRC g' = m_LastGossipedOurRC g \/ m_LastGossipedOurRC g' = now) /\
   (ok = true -> pubkey rc = m_OurRouterID g -> m_LastGossipedOurRC g + GossipOurRCInterval <= now /\ m_LastGossipedOurRC g' = now)).
Proof.
  unfold GossipRC. destruct (negb (IsPublicRouter rc)); [intros [= <- <- <-]; auto|]. destruct (negb (has_links g)); [intros [= <- <- <-]; auto|].
  destruct (DecayingHashSet.Contains (pubkey rc) (m_Filter g)) eqn:Ef; [intros [= <- <- <-]; auto|].
  assert (DecayingHashSet.m_Values (m_Filter g) !! pubkey rc = None) as Hn.
  { unfold DecayingHashSet.Contains in Ef. by destruct (DecayingHashSet.m_Values (m_Filter g) !! pubkey rc). }
  rewrite insert_filter by done. set (g1 := g <| m_Filter := _ |>).
  change (IsOurRC rc g1) with (IsOurRC rc g). change (ShouldGossipOurRC now g1) with (ShouldGossipOurRC now g). unfold IsOurRC.
  case_bool_decide as Ho; cbn [andb]; [|intros [= <- <- <-]; split; [done|right]; split_and!; naive_solver].
  unfold ShouldGossipOurRC. destruct (Z.leb_spec (m_LastGossipedOurRC g + GossipOurRCInterval) now); cbn [negb]; intros [= <- <- <-]; (split; [done|right]); split_and!; naive_solver.
Qed.

Lemma since_step lo hi pk g e : since lo hi pk g -> between lo hi pk e -> since lo hi pk (step g e).
Proof.
  intros [Hi Hf Ho]. destruct e as [now peers sample fits rc|clock now|pk']; cbn [step between]; intros Hb.
  - destruct (GossipRC _ _ _ _ _ _) as [[ok out] g'] eqn:E. cbn [snd]. apply gossip_cases in E as [Eo [[-> _]|(Hn & Ef & El & _)]]; [done|].
    split; [by rewrite Ef|rewrite Ef; cbn|rewrite Eo; intros Hp; specialize (Ho Hp); destruct El as [-> | ->]; lia].
    destruct (decide (pk = pubkey rc)) as [->|Hne]; [rewrite lookup_insert_eq; lia|by rewrite lookup_insert_ne].
  - split; [done| |done]. cbn. rewrite map_lookup_filter. destruct (_ !! pk) as [at_|]; cbn; [|done]. rewrite Hi.
    case_guard; cbn; [done|lia].
  - unfold Forget. cbn. case_bool_decide as Hp; split; cbn; try done; rewrite ?lookup_delete_ne by congruence; try done; congruence.
Qed.
Lemma since_run lo hi pk es g : since lo hi pk g -> Forall (between lo hi pk) es -> since lo hi pk (foldl step g es).
Proof. revert g. induction es as [|e es IH]; intros g Hg He; [done|]. apply Forall_cons in He as [He Hes]. apply IH; [by apply since_step|done]. Qed.

(** Between two times a contact is gossiped, unless it was forgotten, lie at least 30 minutes,
    and 55 if it is our own, whatever was gossiped in between. *)
Theorem gossip_limited t1 t2 peers1 peers2 sample1 sample2 fits1 fits2 rc1 rc2 g out1 out2 g1 g2 es :
  DecayingHashSet.m_CacheInterval (m_Filter g) = RCGossipFilterDecayInterval ->
  GossipRC t1 peers1 sample1 fits1 rc1 g = (true, out1, g1) ->
  Forall (between t1 t2 (pubkey rc1)) es -> pubkey rc2 = pubkey rc1 ->
  GossipRC t2 peers2 sample2 fits2 rc2 (foldl step g1 es) = (true, out2, g2) ->
  t1 + 30 * 60000 <= t2 /\ (pubkey rc1 = m_OurRouterID g -> t1 + 55 * 60000 <= t2).
Proof.
  intros Hi E1 Hes Hp E2. apply gossip_cases in E1 as [Eo1 [[_ ?]|(Hn & Ef & _ & Hl)]]; [done|].
  assert (since t1 t2 (pubkey rc1) g1) as Hs.
  { split; [by rewrite Ef|rewrite Ef; cbn; rewrite lookup_insert_eq; lia|]. intros Hq. rewrite Eo1 in Hq. destruct (Hl eq_refl Hq). lia. }
  apply (since_run _ _ _ es) in Hs as [_ Hf Ho]; [|done]. apply gossip_cases in E2 as [_ [[_ ?]|(Hn2 & _ & _ & Hl2)]]; [done|]. rewrite Hp in Hn2, Hl2.
  rewrite Hn2 in Hf. split; [done|]. intros Hq. assert (m_OurRouterID (foldl step g1 es) = m_OurRouterID g) as Eo.
  { rewrite <- Eo1. clear. induction es as [|e es IH] using rev_ind; [done|]. rewrite foldl_app. cbn [foldl]. rewrite <- IH. destruct e; cbn [step]; [|done|].
    - destruct (GossipRC _ _ _ _ _ _) as [[ok out] g'] eqn:E. cbn [snd]. by apply gossip_cases in E as [-> _].
    - unfold Forget. by case_bool_decide. }
  rewrite Eo in Ho, Hl2. destruct (Hl2 eq_refl Hq) as [Hle _]. specialize (Ho Hq). unfold GossipOurRCInterval, RCGossipFilterDecayInterval in Hle. lia.
Qed.
End GossipSpec.

(** * Concrete runs *)
Definition seen : Profiling.t := Profiling.MarkConnectTimeout 1 (Fill 7) (Profiling.Enable Profiling.Profiling).
Lemma marks_monotone_witness :
  Profiling.IsBadForPath (Fill 7) 4 (ProfilingSpec.fail 9 (ProfilingSpec.PathFail [Fill 3; Fill 7]) seen) = false
  /\ Profiling.IsBadForPath (Fill 7) 4 (Profiling.MarkPathSuccess 9 [Fill 3; Fill 7] seen) = false.
Proof.
  split; [by vm_compute|]. apply (ProfilingSpec.marks_monotone 9 seen (Fill 7) [Fill 3; Fill 7] (ProfilingSpec.HopFail (Fill 7))); [done|..|by vm_compute].
  - by apply (bool_decide_unpack _); vm_compute.
  - by apply (bool_decide_unpack _); vm_compute.
  - unfold ProfilingSpec.room. vm_compute. repeat split; congruence.
Defined.
Definition half_minutes (n : nat) : list Z := (fun i => 30001 * Z.of_nat i) <$> seq 1 n.
Lemma profiles_forgive_witness : Profiling.IsBadForPath (Fill 7) 1 (foldl (fun p now => Profiling.Tick now p) seen (half_minutes 64)) = false.
Proof.
  refine (proj2 (ProfilingSpec.profiles_forgive seen (Fill 7) (half_minutes 64) 1 _ eq_refl eq_refl)).
  intros q E. vm_compute in E. injection E as <-. split.
  - unfold ProfilingSpec.bounded. vm_compute. repeat split; congruence.
  - vm_compute. repeat split.
Defined.
Definition gossiper_ref : RCGossiper.t := RCGossiper.Init (Fill 1) RCGossiper.RCGossiper.
Definition rc_public (k : Key_t) : RouterContact.t :=
  RouterContact.Mk [AddressInfo.empty 0 0] (zeros 8) (zeros 32) k (zeros 64) (zeros 32) 1 0 (Some RouterVersion.default) [] [].
Lemma gossip_limited_witness : exists out1 g1 out2 g2,
  RCGossiper.GossipRC 3600000 [] (fun _ l => l) true (rc_public (Fill 1)) gossiper_ref = (true, out1, g1) /\
  RCGossiper.GossipRC 7200000 [] (fun _ l => l) true (rc_public (Fill 1)) (RCGossiper.Decay 7200000 7200000 g1) = (true, out2, g2)
  /\ 3600000 + 55 * 60000 <= 7200000.
Proof.
  eexists _, _, _, _. split; [vm_compute; reflexivity|]. split; [vm_compute; reflexivity|].
  refine (proj2 (GossipSpec.gossip_limited 3600000 7200000 [] [] (fun _ l => l) (fun _ l => l) true true (rc_public (Fill 1)) (rc_public (Fill 1)) gossiper_ref _ _ _ _
    [GossipSpec.EDecay 7200000 7200000] _ _ _ _ _) _); [vm_compute; reflexivity..| | | |vm_compute; reflexivity].
  - apply Forall_singleton. vm_compute. split; congruence.
  - reflexivity.
  - vm_compute. reflexivity.
Defined.
