(* ===== verification/DhtContext.v ===== *)
(** * The context of the DHT (llarp/dht/context.cpp, the jobs of llarp/dht,
    llarp/router/rc_lookup_handler.cpp)

    The routers and introduction sets known, the lookups in flight, and the handler through
    which the rest of the router looks contacts up. The three holders of lookups are apart from
    the rest of the state, which their jobs act on. *)

From S2P Require Import Prelude Buffer Bencode Codec CryptoApi Str NetInt IpRange DnsName DnsMessage Contact Kademlia DhtMessage DhtTx Profiling.

Inductive RCRequestResult := Success | InvalidRouter | RouterNotFound | BadRC.
(** Who gets the result of a lookup of a router: the handler of requests, or exploration. *)
Inductive RouterLookupHandler := LookupResult (remote : RouterID) | LookupForExplore (remote : RouterID).

(** What leaves the context. A callback of a request is a number. *)
Inductive event :=
  | DHTSent (peer : RouterID) (m : body) (persistUntil : Z)
  | PathSent (path : PathID_t) (m : list body)
  | PathSetGot (path : PathID_t) (m : body)
  | Called (callback : Z) (router : RouterID) (rc : option RouterContact) (result : RCRequestResult)
  | IntrosetsFound (callback : Z) (found : list EncryptedIntroSet)
  | Gossiped (rc : RouterContact)
  | CheckLater (rc : RouterContact)
  | LookupAnon (router : RouterID).

(** [RCLookupHandler] *)
Record RCLookupHandler := MkLookup {
  _strictConnectPubkeys : gset RouterID; _bootstrapRCList : list RouterContact; pendingCallbacks : gmap RouterID (list Z);
  useWhitelist : bool; isServiceNode : bool;
  whitelistRouters : gset RouterID; greylistRouters : gset RouterID; greenlistRouters : gset RouterID; _routerLookupTimes : gmap RouterID Z }.
#[export] Instance eta_RCLookupHandler : Eta RCLookupHandler := fun h =>
  MkLookup (_strictConnectPubkeys h) (_bootstrapRCList h) (pendingCallbacks h) (useWhitelist h) (isServiceNode h)
    (whitelistRouters h) (greylistRouters h) (greenlistRouters h) (_routerLookupTimes h).

(** The state but for the lookups in flight; [out] is what was sent, oldest first. The counter
    [ids] is kept without wrapping: its value is [u64 ids]. *)
Record base := MkBase {
  ids : Z; _nodes : list (Key_t * RouterContact); _services : list (Key_t * EncryptedIntroSet);
  nodedb : NodeDB.t; lookups : RCLookupHandler; profiling : Profiling.t; out : list event }.
#[export] Instance eta_base : Eta base := fun b =>
  MkBase (ids b) (_nodes b) (_services b) (nodedb b) (lookups b) (profiling b) (out b).

(** What a call sees of the world: clocks, the router and its paths. *)
Record Env := MkEnv {
  Now : Z; steady_now : Z; our_rc : RouterContact; path_by_upstream : PathID_t -> bool; path_sends : PathID_t -> bool;
  local_pathset : PathID_t -> body -> option bool; randomize : Z -> RouterID; anon_lookup : RouterID -> bool; router_is_snode : bool;
  connected : list RCGossiper.peer }.

(** ** Which routers are allowed *)
Definition RemoteInBootstrap (remote : RouterID) (h : RCLookupHandler) : bool :=
  existsb (fun rc => bool_decide (RouterContact.pubkey rc = remote)) (_bootstrapRCList h).
Definition strict_forbids (remote : RouterID) (h : RCLookupHandler) : bool :=
  negb (bool_decide (_strictConnectPubkeys h = ∅)) && negb (bool_decide (remote ∈ _strictConnectPubkeys h)) && negb (RemoteInBootstrap remote h).
Definition IsGreylisted (remote : RouterID) (h : RCLookupHandler) : bool :=
  if strict_forbids remote h then false else if negb (useWhitelist h) then false else bool_decide (remote ∈ greylistRouters h).
Definition IsGreenlisted (remote : RouterID) (h : RCLookupHandler) : bool := bool_decide (remote ∈ greenlistRouters h).
Definition IsRegistered (remote : RouterID) (h : RCLookupHandler) : bool :=
  bool_decide (remote ∈ whitelistRouters h) || bool_decide (remote ∈ greylistRouters h) || bool_decide (remote ∈ greenlistRouters h).
Definition PathIsAllowed (remote : RouterID) (h : RCLookupHandler) : bool :=
  if strict_forbids remote h then false else if negb (useWhitelist h) then true else bool_decide (remote ∈ whitelistRouters h).
Definition SessionIsAllowed (remote : RouterID) (h : RCLookupHandler) : bool :=
  if strict_forbids remote h then false else if negb (useWhitelist h) then true
  else bool_decide (remote ∈ whitelistRouters h) || bool_decide (remote ∈ greylistRouters h).
Definition AddValidRouter (router : RouterID) (h : RCLookupHandler) : RCLookupHandler := h <| whitelistRouters ::= union {[router]} |>.
Definition RemoveValidRouter (router : RouterID) (h : RCLookupHandler) : RCLookupHandler :=
  h <| whitelistRouters ::= fun s => s ∖ {[router]} |>.
Definition SetRouterWhitelist (whitelist greylist greenlist : list RouterID) (h : RCLookupHandler) : RCLookupHandler :=
  match whitelist with
  | [] => h
  | _ => h <| whitelistRouters := list_to_set whitelist |> <| greylistRouters := list_to_set greylist |>
           <| greenlistRouters := list_to_set greenlist |>
  end.
Definition HaveReceivedWhitelist (h : RCLookupHandler) : bool := negb (bool_decide (whitelistRouters h = ∅)).
Definition HavePendingLookup (remote : RouterID) (h : RCLookupHandler) : bool :=
  match pendingCallbacks h !! remote with Some _ => true | None => false end.
Definition NumberOfStrictConnectRouters (h : RCLookupHandler) : nat := size (_strictConnectPubkeys h).
(** [x] is the number drawn. *)
Definition GetRandomWhitelistRouter (x : Z) (h : RCLookupHandler) : option RouterID :=
  elements (whitelistRouters h) !! (if (1 <? size (whitelistRouters h))%nat then Z.to_nat (x mod Z.of_nat (size (whitelistRouters h))) else 0%nat).

(** ** Jobs *)
Inductive RouterJob := RecursiveRouterLookup (resultHandler : option RouterLookupHandler) | LocalRouterLookup (localPath : PathID_t).
Inductive ServiceJob :=
  | ServiceAddressLookup (location : Key_t) (handleResult : option Z) (relayOrder : Z)
  | LocalServiceAddressLookup (location : Key_t) (relayOrder : Z) (localPath : PathID_t)
  | PublishServiceJob (relayOrder : Z) (introset : EncryptedIntroSet)
  | LocalPublishServiceJob (relayOrder : Z) (introset : EncryptedIntroSet) (localPath : PathID_t) (txid : Z).
Inductive ExploreJob := ExploreNetworkJob.
Abbreviation RouterTX := (TX RouterID RouterContact RouterJob).
Abbreviation ServiceTX := (TX TXOwner EncryptedIntroSet ServiceJob).
Abbreviation ExploreTX := (TX RouterID RouterID ExploreJob).
Abbreviation RouterLookups := (TXHolder RouterID RouterContact RouterJob).
Abbreviation ServiceLookups := (TXHolder TXOwner EncryptedIntroSet ServiceJob).
Abbreviation ExploreLookups := (TXHolder RouterID RouterID ExploreJob).

Record Context := MkContext { rest : base; pendingRouterLookups : RouterLookups; pendingIntrosetLookups : ServiceLookups; pendingExploreLookups : ExploreLookups }.
#[export] Instance eta_Context : Eta Context := fun c =>
  MkContext (rest c) (pendingRouterLookups c) (pendingIntrosetLookups c) (pendingExploreLookups c).

Section context.
Context {OS : OxencSwap} {IP : InetPton} {IN : InetNtop} {BT : OxencBt} {CR : Crypto}.
(** Our key, our network, the memory of addresses before they are read, the switch for bogons. *)
Context (ourKey : Key_t) (ours : list Z) (rank0 port0 : Z) (BlockBogons : bool).
Implicit Types (e : Env) (b : base) (c : Context) (rc : RouterContact).

Definition verify_rc (now : Z) rc : res bool := RouterContact.Verify rank0 port0 ours BlockBogons now true rc.
Definition emit (ev : event) b : base := b <| out ::= fun l => l ++ [ev] |>.
Definition DHTSendTo e (peer : RouterID) (m : body) b : base := emit (DHTSent peer m (Now e + 60000)) b.
Definition PutRCNodeAsync rc b : base := b <| _nodes ::= Bucket.PutNode ourKey rc |>.
Definition DelRCNodeAsync (k : Key_t) b : base := b <| _nodes ::= Bucket.DelNode ourKey k |>.

(** ** Contacts that were looked up *)
Definition CheckRC e rc b : res (bool * base) :=
  if negb (SessionIsAllowed (RouterContact.pubkey rc) (lookups b)) then Ok (false, DelRCNodeAsync (RouterContact.pubkey rc) b)
  else
    let* ok := verify_rc (Now e) rc in
    if negb ok then Ok (false, b)
    else if RouterContact.IsPublicRouter rc then
      Ok (true, PutRCNodeAsync rc (b <| nodedb ::= NodeDB.PutIfNewer (Now e) rc |>))
    else Ok (true, b).
Definition FinalizeRequest (router : RouterID) (rc : option RouterContact) (result : RCRequestResult) b : base :=
  let moved := from_option id [] (pendingCallbacks (lookups b) !! router) in
  let b := b <| lookups ::= fun h => h <| pendingCallbacks ::= delete router |> |> in
  foldl (fun b callback => emit (Called callback router rc result) b) b moved.
Definition HandleDHTLookupResult e (remote : RouterID) (results : list RouterContact) b : res base :=
  match results with
  | [] => Ok (FinalizeRequest remote None RouterNotFound b)
  | rc :: _ =>
      if negb (SessionIsAllowed remote (lookups b)) then Ok (FinalizeRequest remote (Some rc) InvalidRouter b)
      else
        let* (ok, b) := CheckRC e rc b in
        Ok (FinalizeRequest remote (Some rc) (if ok : bool then Success else BadRC) b)
  end.
(** [Router::HandleDHTLookupForExplore] *)
Fixpoint HandleDHTLookupForExplore e (results : list RouterContact) b : res base :=
  match results with
  | [] => Ok b
  | rc :: results => let* (_, b) := CheckRC e rc b in HandleDHTLookupForExplore e results b
  end.
Definition run_handler e (h : RouterLookupHandler) (results : list RouterContact) b : res base :=
  match h with
  | LookupResult remote => HandleDHTLookupResult e remote results b
  | LookupForExplore _ => HandleDHTLookupForExplore e results b
  end.

(** ** Lookups of routers *)
Definition Router_Validate e (_ : RouterTX) rc : res bool := verify_rc (Now e) rc.
Definition Router_Start e (t : RouterTX) (peer : TXOwner) (w : res base) : res base :=
  let* b := w in Ok (DHTSendTo e (node peer) (MFindRouter (FindRouterMessage.by_id (txid peer) (target t))) b).
(** The newest contact that passes [CheckRC], which stores every contact it accepts. *)
Fixpoint newest_checked e (values : list RouterContact) (found : RouterContact) b : res (RouterContact * base) :=
  match values with
  | [] => Ok (found, b)
  | rc :: values =>
      if RouterContact.OtherIsNewer found rc then
        let* (ok, b) := CheckRC e rc b in newest_checked e values (if ok : bool then rc else found) b
      else newest_checked e values found b
  end.
Definition Recursive_SendReply e (t : RouterTX) (handler : option RouterLookupHandler) b : res base :=
  let* (values, b) :=
    match valuesFound t with
    | [] => Ok ([], b)
    | values => let* (found, b) := newest_checked e values (RouterContact.default ours) b in Ok ([found], b)
    end in
  let* b := match handler with Some h => run_handler e h values b | None => Ok b end in
  Ok (if bool_decide (node (whoasked t) = ourKey) then b
      else DHTSendTo e (node (whoasked t)) (MGotRouter (GotRouter_results (txid (whoasked t)) values false)) b).
(** A reply down a path, if the path is there still. *)
Definition send_down e (path : PathID_t) (m : body) b : base := if path_by_upstream e path then emit (PathSent path [m]) b else b.
(** The comparison is [rc.OtherIsNewer(found)]. *)
Definition local_newest (values : list RouterContact) : RouterContact :=
  foldl (fun found rc => if RouterContact.OtherIsNewer rc found then rc else found) (RouterContact.default ours) values.
Definition LocalRouter_SendReply e (t : RouterTX) (path : PathID_t) b : base :=
  let values :=
    match valuesFound t with
    | [] => []
    | values => let found := local_newest values in if is_zero (RouterContact.pubkey found) then [] else [found]
    end in
  send_down e path (MGotRouter (GotRouter_results (txid (whoasked t)) values true)) b.
Definition Router_SendReply e (t : RouterTX) (w : res base) : res base :=
  let* b := w in
  match job t with
  | RecursiveRouterLookup h => Recursive_SendReply e t h b
  | LocalRouterLookup path => Ok (LocalRouter_SendReply e t path b)
  end.

(** ** Lookups and publication of introduction sets *)
Definition Service_Validate e (t : ServiceTX) (value : EncryptedIntroSet) : res bool :=
  match job t with
  | ServiceAddressLookup location _ _ | LocalServiceAddressLookup location _ _ =>
      let* ok := EncryptedIntroSet.Verify (Now e) value in
      Ok (ok && bool_decide (EncryptedIntroSet.derivedSigningKey value = location))
  | PublishServiceJob _ introset | LocalPublishServiceJob _ introset _ _ =>
      if bool_decide (EncryptedIntroSet.derivedSigningKey value = EncryptedIntroSet.derivedSigningKey introset)
      then EncryptedIntroSet.Verify (Now e) value else Ok false
  end.
Definition Service_Start e (t : ServiceTX) (peer : TXOwner) (w : res base) : res base :=
  let* b := w in
  Ok (DHTSendTo e (node peer)
    match job t with
    | ServiceAddressLookup location _ order | LocalServiceAddressLookup location order _ => MFindIntro (FindIntroMessage.by_addr (txid peer) location order)
    | PublishServiceJob order introset | LocalPublishServiceJob order introset _ _ => MPublishIntro (PublishIntroMessage.make introset (txid peer) false order)
    end b).
Definition newest_introset (values : list EncryptedIntroSet) : list EncryptedIntroSet :=
  match values with
  | [] => []
  | _ => [foldl (fun found i => if EncryptedIntroSet.OtherIsNewer found i then i else found) EncryptedIntroSet.empty values]
  end.
Definition Service_SendReply e (t : ServiceTX) (w : res base) : res base :=
  let* b := w in
  Ok match job t with
     | ServiceAddressLookup _ handler _ =>
         let values := newest_introset (valuesFound t) in
         let b := match handler with Some h => emit (IntrosetsFound h values) b | None => b end in
         DHTSendTo e (node (whoasked t)) (MGotIntro (GotIntroMessage.reply values (txid (whoasked t)))) b
     | LocalServiceAddressLookup _ _ path => send_down e path (MGotIntro (GotIntroMessage.reply (newest_introset (valuesFound t)) (txid (whoasked t)))) b
     | PublishServiceJob _ introset => DHTSendTo e (node (whoasked t)) (MGotIntro (GotIntroMessage.reply [introset] (txid (whoasked t)))) b
     | LocalPublishServiceJob _ introset path id => send_down e path (MGotIntro (GotIntroMessage.reply [introset] id)) b
     end.

(** ** Operations of the context *)
(** A holder's call, whose jobs may fail. *)
Definition settle {H A} (r : res (H * res A)) : res (H * A) := let* (h, w) := r in let* a := w in Ok (h, a).
Definition NextID b : Z * base := (u64 (ids b + 1), b <| ids := ids b + 1 |>).

Definition LookupRouterRecursive e (target : RouterID) (asked_by : Key_t) (id : Z) (askpeer : Key_t) (handler : option RouterLookupHandler)
    (h : RouterLookups) b : res (RouterLookups * base) :=
  let asker := Owner asked_by id in
  let '(id, b) := NextID b in
  settle (NewTX (Router_Start e) (Now e) (Owner askpeer id) target (MkTX target [ourKey] [] asker (RecursiveRouterLookup handler)) requestTimeoutMS h (Ok b)).
Definition LookupRouter e (target : RouterID) (handler : RouterLookupHandler) (h : RouterLookups) b : res (bool * RouterLookups * base) :=
  let '(ok, askpeer) := Bucket.FindClosest target (Fill 0) (_nodes b) in
  if negb ok then Ok (false, h, b)
  else let* (h, b) := LookupRouterRecursive e target ourKey 0 askpeer (Some handler) h b in Ok (true, h, b).

Definition Explore_Validate (_ : ExploreTX) (_ : RouterID) : res bool := Ok true.
Definition Explore_Start e (t : ExploreTX) (peer : TXOwner) (w : res (RouterLookups * base)) : res (RouterLookups * base) :=
  let* (h, b) := w in
  Ok (h, DHTSendTo e (node peer) (MFindRouter (FindRouterMessage.explore (randomize e (txid peer)) (txid peer))) b).
Fixpoint lookup_found e (found : list RouterID) (h : RouterLookups) b : res (RouterLookups * base) :=
  match found with
  | [] => Ok (h, b)
  | pk :: found =>
      if NodeDB.Has pk (nodedb b) then lookup_found e found h b
      else let* (_, h, b) := LookupRouter e pk (LookupForExplore pk) h b in lookup_found e found h b
  end.
Definition Explore_SendReply e (t : ExploreTX) (w : res (RouterLookups * base)) : res (RouterLookups * base) :=
  let* (h, b) := w in lookup_found e (valuesFound t) h b.

Definition on_routers c (f : RouterLookups -> base -> res (RouterLookups * base)) : res Context :=
  let* (h, b) := f (pendingRouterLookups c) (rest c) in Ok (c <| pendingRouterLookups := h |> <| rest := b |>).
Definition on_introsets c (f : ServiceLookups -> base -> res (ServiceLookups * base)) : res Context :=
  let* (h, b) := f (pendingIntrosetLookups c) (rest c) in Ok (c <| pendingIntrosetLookups := h |> <| rest := b |>).
Definition on_explores c (f : ExploreLookups -> RouterLookups * base -> res (ExploreLookups * (RouterLookups * base))) : res Context :=
  let* (x, hb) := f (pendingExploreLookups c) (pendingRouterLookups c, rest c) in
  Ok (c <| pendingExploreLookups := x |> <| pendingRouterLookups := hb.1 |> <| rest := hb.2 |>).

Definition ExploreNetworkVia e (askpeer : Key_t) c : res Context :=
  on_explores c (fun x '(h, b) =>
    let '(id, b) := NextID b in
    settle (NewTX (Explore_Start e) (Now e) (Owner askpeer id) askpeer (MkTX askpeer [] [] owner0 ExploreNetworkJob) requestTimeoutMS x (Ok (h, b)))).
Fixpoint explore_via e (peers : list Key_t) c : res Context :=
  match peers with [] => Ok c | peer :: peers => let* c := ExploreNetworkVia e peer c in explore_via e peers c end.
(** [random] is the sequence of the numbers drawn. *)
Definition Explore e (random : list Z) (N : nat) c : res Context :=
  let* (ok, peers) := Bucket.GetManyRandom random [] N (_nodes (rest c)) in
  if ok then explore_via e peers c else Ok c.
Definition LookupRouterForPath e (target : RouterID) (id : Z) (path : PathID_t) (askpeer : Key_t) c : res Context :=
  on_routers c (fun h b =>
    let '(n, b) := NextID b in
    settle (NewTX (Router_Start e) (Now e) (Owner askpeer n) target (MkTX target [ourKey] [] (Owner ourKey id) (LocalRouterLookup path)) requestTimeoutMS h (Ok b))).
(** A transaction on introduction sets whose key is [key], asked for by [asker]. *)
Definition new_service e (askpeer : Key_t) (asked : list Key_t) (key : Key_t -> Z -> TXOwner) (j : ServiceJob) (timeout : Z) c : res Context :=
  on_introsets c (fun h b =>
    let '(n, b) := NextID b in
    let k := key askpeer n in
    settle (NewTX (Service_Start e) (Now e) (Owner askpeer n) k (MkTX k asked [] k j) timeout h (Ok b))).
Definition LookupIntroSetForPath e (addr : Key_t) (id : Z) (path : PathID_t) (askpeer : Key_t) (relayOrder : Z) c : res Context :=
  new_service e askpeer [ourKey] (fun _ _ => Owner ourKey id) (LocalServiceAddressLookup addr (u32 relayOrder) path) requestTimeoutMS c.
Definition PropagateIntroSetTo e (from : Key_t) (id : Z) (introset : EncryptedIntroSet) (tellpeer : Key_t) (relayOrder : Z) c : res Context :=
  new_service e tellpeer [] (fun _ _ => Owner from id) (PublishServiceJob relayOrder introset) requestTimeoutMS c.
Definition PropagateLocalIntroSet e (from : PathID_t) (id : Z) (introset : EncryptedIntroSet) (tellpeer : Key_t) (relayOrder : Z) c : res Context :=
  new_service e tellpeer [] Owner (LocalPublishServiceJob relayOrder introset from id) requestTimeoutMS c.
Definition LookupIntroSetRelayed e (addr asked_by : Key_t) (id : Z) (askpeer : Key_t) (relayOrder : Z) (handler : option Z) c : res Context :=
  new_service e askpeer [ourKey] (fun _ _ => Owner asked_by id) (ServiceAddressLookup addr handler (u32 relayOrder)) requestTimeoutMS c.
Definition LookupIntroSetDirect e (addr asked_by : Key_t) (id : Z) (askpeer : Key_t) (handler : option Z) c : res Context :=
  new_service e askpeer [ourKey] (fun _ _ => Owner asked_by id) (ServiceAddressLookup addr handler 0) 1000 c.

Definition CleanupTX e c : res Context :=
  let* c := on_routers c (fun h b => settle (Expire (Router_Validate e) (Router_SendReply e) (Now e) h (Ok b))) in
  let* c := on_introsets c (fun h b => settle (Expire (Service_Validate e) (Service_SendReply e) (Now e) h (Ok b))) in
  on_explores c (fun x hb => settle (Expire Explore_Validate (Explore_SendReply e) (Now e) x (Ok hb))).
Definition handle_cleaner_timer e c : res Context :=
  let* c := CleanupTX e c in
  Ok (c <| rest ::= fun b =>
        b <| _nodes ::= filter (fun n => RouterContact.IsExpired (Now e) n.2 = false) |>
          <| _services ::= filter (fun n => EncryptedIntroSet.IsExpired (Now e) n.2 = false) |> |>).

Definition GetIntroSetByLocation (key : Key_t) c : option EncryptedIntroSet := map_find (XorMetric ourKey) key (_services (rest c)).
Definition FindClosestRC (k : Key_t) c : RouterContact := NodeDB.FindClosestTo ours k (nodedb (rest c)).
Definition reply_routers (id : Z) (l : list RouterContact) : body := MGotRouter (GotRouter_results id l false).
(** The results are the replies and the context. *)
Definition LookupRouterRelayed e (requester : Key_t) (id : Z) (target : Key_t) (recursive : bool) c : res (list body * Context) :=
  let recurse next := let* c := on_routers c (LookupRouterRecursive e target requester id next None) in Ok ([], c) in
  if bool_decide (target = ourKey) then Ok ([reply_routers id [our_rc e]], c)
  else if negb (SessionIsAllowed target (lookups (rest c))) then Ok ([reply_routers id []], c)
  else
    let rc := FindClosestRC target c in
    let next := RouterContact.pubkey rc in
    if bool_decide (next = target) then
      if RouterContact.ExpiresSoon (Now e) 60000 rc then recurse next else Ok ([reply_routers id [rc]], c)
    else if recursive then
      if lex_lt (key_xor next target) (key_xor ourKey target) then recurse next else Ok ([reply_routers id []], c)
    else Ok ([MGotRouter (GotRouter_closer next id false)], c).
Definition HandleExploritoryRouterLookup (requester : Key_t) (id : Z) (target : RouterID) c : option (list body) :=
  let nodes := _nodes (rest c) in
  let nodeCount := length nodes in
  if (nodeCount =? 0)%nat then None
  else
    let '(ok, found) := Bucket.GetManyNearExcluding target [] (Nat.min nodeCount 4) (set_of [ourKey; requester]) nodes in
    if negb ok then None
    else
      let closer := filter (fun id => Profiling.IsBadForConnect id Profiling.profiling_chances (profiling (rest c)) = false) found in
      Some [MGotRouter (GotRouter_near id closer false)].

(** ** Requests for contacts *)
Definition GetRC e (router : RouterID) (callback : option Z) (forceLookup : bool) c : res Context :=
  let known := if forceLookup then None else NodeDB.Get router (nodedb (rest c)) in
  match known with
  | Some rc =>
      let b := rest c in
      let b := match callback with Some k => emit (Called k router (Some rc) Success) b | None => b end in
      Ok (c <| rest := FinalizeRequest router (Some rc) Success b |>)
  | None =>
      let queued := pendingCallbacks (lookups (rest c)) !! router in
      let queue := from_option id [] queued ++ match callback with Some k => [k] | None => [] end in
      let c := c <| rest ::= fun b => b <| lookups ::= fun h => h <| pendingCallbacks ::= <[router := queue]> |> |> |> in
      match queued with
      | Some _ => Ok c
      | None =>
          let b := rest c in
          if negb (isServiceNode (lookups b)) && anon_lookup e router then Ok (c <| rest ::= emit (LookupAnon router) |>)
          else
            let* (ok, h, b) := LookupRouter e router (LookupResult router) (pendingRouterLookups c) b in
            let b := if ok : bool then b <| lookups ::= fun h => h <| _routerLookupTimes ::= <[router := steady_now e]> |> |>
                     else FinalizeRequest router None RouterNotFound b in
            Ok (c <| pendingRouterLookups := h |> <| rest := b |>)
      end
  end.
Fixpoint get_all e (routers : list RouterID) c : res Context :=
  match routers with [] => Ok c | r :: routers => let* c := GetRC e r None true c in get_all e routers c end.
(** The work is queued. *)
Definition CheckRenegotiateValid newrc oldrc b : bool * base :=
  if negb (bool_decide (RouterContact.pubkey newrc = RouterContact.pubkey oldrc)) then (false, b)
  else if negb (SessionIsAllowed (RouterContact.pubkey newrc) (lookups b)) then (false, b)
  else
    let b := emit (CheckLater newrc) b in
    (true, if Bucket.HasNode ourKey (RouterContact.pubkey newrc) (_nodes b) then b <| _nodes ::= Bucket.PutNode ourKey newrc |> else b).
(** The files to remove are dropped: they concern the disk. *)
Definition PeriodicUpdate e c : res Context :=
  let stale := filter (fun x => NodeDB.insertedAt x.2 < Now e - RouterContact.UpdateInterval) (NodeDB.entries (nodedb (rest c))) in
  let routersToLookUp : gset RouterID := list_to_set (filter (fun r => HavePendingLookup r (lookups (rest c)) = false) ((fun x => RouterContact.pubkey (NodeDB.rc x.2)) <$> stale)) in
  let* c := get_all e (elements routersToLookUp) c in
  let keep := RouterContact.pubkey <$> _bootstrapRCList (lookups (rest c)) in
  Ok (c <| rest ::= fun b => b <| nodedb ::= fun d => (NodeDB.RemoveStaleRCs keep (Now e - RouterContact.StaleInsertionAge) d).1 |> |>).
Definition RerequestInterval : Z := 10 * 60000.
Definition LookupPerTick : nat := 5.
(** [shuffle] is the order drawn. *)
Definition ExploreNetwork e (shuffle : list RouterID -> list RouterID) c : res Context :=
  let h := lookups (rest c) in
  let known := NodeDB.NumLoaded (nodedb (rest c)) in
  let* c := (if bool_decide (_bootstrapRCList h = []) && (known =? 0)%nat then Ok c
             else if (known <=? length (_bootstrapRCList h))%nat then explore_via e (RouterContact.pubkey <$> _bootstrapRCList h) c else Ok c) in
  if useWhitelist h then
    let c := c <| rest ::= fun b => b <| lookups ::= fun h => h <| _routerLookupTimes ::= fun m => m ∪ gset_to_gmap 0 (whitelistRouters h) |> |> |> in
    let wanted := filter (fun r => (from_option id 0 (_routerLookupTimes (lookups (rest c)) !! r) + RerequestInterval <? steady_now e)
                                   && negb (NodeDB.Has r (nodedb (rest c))) = true) (elements (whitelistRouters h)) in
    let lookup := if (LookupPerTick <? length wanted)%nat then take LookupPerTick (shuffle wanted) else wanted in
    get_all e lookup c
  else if router_is_snode e then Ok c
  else
    let via := filter (fun p => RCGossiper.established p && RouterContact.IsPublicRouter (RCGossiper.remote_rc p)
                                && negb (RemoteInBootstrap (RouterContact.pubkey (RCGossiper.remote_rc p)) h) = true) (connected e) in
    explore_via e ((fun p => RouterContact.pubkey (RCGossiper.remote_rc p)) <$> via) c.
End context.
