(* ===== verification/Dht.v ===== *)
(** * Handlers of DHT messages (llarp/dht/messages) and what the DHT promises

    What a router does with every message of the DHT, from peers and from its own paths, and
    the inputs of the composed context. What is sent leaves as an event: a lookup that the sending
    starts, for a router that there is no session with, is an input of its own after the handler. *)

From S2P Require Import Prelude Buffer Bencode Codec CryptoApi Str NetInt IpRange DnsName DnsMessage Contact Kademlia DhtMessage DhtTx Profiling DhtContext.

Definition IntroSetRelayRedundancy : nat := 2.
Definition IntroSetRequestsPerRelay : nat := 2.
Definition IntroSetStorageRedundancy : nat := IntroSetRelayRedundancy * IntroSetRequestsPerRelay.

Section handlers.
Context {OS : OxencSwap} {IP : InetPton} {IN : InetNtop} {BT : OxencBt} {CR : Crypto}.
Context (ourKey : Key_t) (ours : list Z) (rank0 port0 : Z) (BlockBogons : bool).
Implicit Types (e : Env) (c : Context) (from : Key_t) (path : PathID_t).
(** Whether the message was handled, the replies, and the context. *)
Abbreviation outcome := (res (bool * list body * Context)).
Definition reply_introsets (id : Z) (l : list EncryptedIntroSet) : body := MGotIntro (GotIntroMessage.reply l id).
Definition quietly (r : res Context) : outcome := let* c := r in Ok (true, [], c).

Definition FindIntro_HandleMessage e from path (m : FindIntroMessage.t) c : outcome :=
  let id := FindIntroMessage.txID m in
  let location := FindIntroMessage.location m in
  let nothing := Ok (true, [reply_introsets id []], c) in
  if HasPendingLookupFrom (Owner from id) (pendingIntrosetLookups c) then Ok (false, [], c)
  else if negb (Tag_Empty (FindIntroMessage.tagName m)) then Ok (false, [], c)
  else if is_zero location then nothing
  else if FindIntroMessage.relayed m then
    if Z.of_nat IntroSetStorageRedundancy <=? FindIntroMessage.relayOrder m then nothing
    else match NodeDB.FindManyClosestTo location IntroSetStorageRedundancy (nodedb (rest c)) !! Z.to_nat (FindIntroMessage.relayOrder m) with
         | None => nothing
         | Some entry => quietly (LookupIntroSetForPath ourKey e location id path (RouterContact.pubkey entry) 0 c)
         end
  else match GetIntroSetByLocation ourKey location c with
       | Some i => Ok (true, [reply_introsets id [i]], c)
       | None => nothing
       end.

Definition RelayedFindRouter_HandleMessage e path (m : FindRouterMessage.t) c : outcome :=
  let k := FindRouterMessage.targetKey m in
  let id := FindRouterMessage.txid m in
  if bool_decide (k = ourKey) then
    if path_by_upstream e path then Ok (true, [reply_routers id [our_rc e]], c) else Ok (false, [], c)
  else if negb (SessionIsAllowed k (lookups (rest c))) then Ok (true, [reply_routers id []], c)
  else
    let rc := FindClosestRC ours k c in
    if bool_decide (RouterContact.pubkey rc = k) then Ok (true, [reply_routers id [rc]], c)
    else quietly (LookupRouterForPath ourKey e k id path (RouterContact.pubkey rc) c).

Definition FindRouter_HandleMessage e (allowTransit : bool) from (m : FindRouterMessage.t) c : outcome :=
  let id := FindRouterMessage.txid m in
  if negb allowTransit then Ok (false, [], c)
  else if HasPendingLookupFrom (Owner from id) (pendingRouterLookups c) then Ok (false, [], c)
  else if is_zero (FindRouterMessage.targetKey m) then Ok (false, [], c)
  else if FindRouterMessage.exploritory m then
    match HandleExploritoryRouterLookup ourKey from id (FindRouterMessage.targetKey m) c with
    | Some replies => Ok (true, replies, c)
    | None => Ok (false, [], c)
    end
  else
    let* (replies, c) := LookupRouterRelayed ourKey ours e from id (FindRouterMessage.targetKey m) (negb (FindRouterMessage.iterative m)) c in
    Ok (true, replies, c).

Fixpoint all_verified e (l : list EncryptedIntroSet) : res bool :=
  match l with
  | [] => Ok true
  | i :: l => let* ok := EncryptedIntroSet.Verify (Now e) i in if ok : bool then all_verified e l else Ok false
  end.
Definition GotIntro_HandleMessage e from (m : GotIntroMessage.t) c : outcome :=
  let* ok := all_verified e (GotIntroMessage.found m) in
  if negb ok then Ok (false, [], c)
  else
    let owner := Owner from (GotIntroMessage.txid m) in
    match GetPendingLookupFrom owner (pendingIntrosetLookups c) with
    | None => Ok (false, [], c)
    | Some t =>
        quietly (on_introsets c (fun h b => settle
          match GotIntroMessage.found m with
          | [] => NotFound (Service_Validate e) (Service_SendReply e) owner h (Ok b)
          | found => Found (Service_Validate e) (Service_SendReply e) owner (target t) found h (Ok b)
          end))
    end.
(** Messages for a local set of paths. *)
Definition for_pathset e path (m : body) c : outcome :=
  match local_pathset e path m with
  | Some ok => Ok (ok, [], c <| rest ::= emit (PathSetGot path m) |>)
  | None => Ok (false, [], c)
  end.

Abbreviation validate_router := (Router_Validate ours rank0 port0 BlockBogons).
Abbreviation reply_router := (Router_SendReply ourKey ours rank0 port0 BlockBogons).
(** Contacts nobody asked for: stored if they pass, and gossiped if the message is gossip. *)
Fixpoint store_contacts e (gossip : bool) (l : list RouterContact) c : outcome :=
  match l with
  | [] => Ok (true, [], c)
  | rc :: l =>
      let* (ok, b) := CheckRC ourKey ours rank0 port0 BlockBogons e rc (rest c) in
      let c := c <| rest := b |> in
      if negb ok then Ok (false, [], c)
      else store_contacts e gossip l (if gossip then c <| rest ::= emit (Gossiped rc) |> else c)
  end.
Definition GotRouter_HandleMessage e from path (m : GotRouterMessage) c : outcome :=
  let owner := Owner from (gr_txid m) in
  if gr_relayed m then for_pathset e path (MGotRouter m) c
  else if HasPendingLookupFrom owner (pendingExploreLookups c) then
    quietly (on_explores c (fun x hb => settle
      match nearKeys m with
      | [] => NotFound Explore_Validate (Explore_SendReply ourKey e) owner x (Ok hb)
      | near => Found Explore_Validate (Explore_SendReply ourKey e) owner from near x (Ok hb)
      end))
  else if HasPendingLookupFrom owner (pendingRouterLookups c) then
    match foundRCs m with
    | [] => quietly (on_routers c (fun h b => settle (NotFound (validate_router e) (reply_router e) owner h (Ok b))))
    | rc :: _ =>
        if is_zero (RouterContact.pubkey rc) then Ok (false, [], c)
        else quietly (on_routers c (fun h b => settle (Found (validate_router e) (reply_router e) owner (RouterContact.pubkey rc) (foundRCs m) h (Ok b))))
    end
  else store_contacts e (gr_txid m =? 0) (foundRCs m) c.

(** [propagateIfNotUs] *)
Definition propagate_if_not_us e from path (m : PublishIntroMessage.t) (rc : RouterContact) c : outcome :=
  let i := PublishIntroMessage.introset m in
  let id := PublishIntroMessage.txID m in
  let peer := RouterContact.pubkey rc in
  if bool_decide (peer = ourKey) then Ok (true, [reply_introsets id [i]], c <| rest ::= fun b => b <| _services ::= Bucket.PutNode ourKey i |> |>)
  else if PublishIntroMessage.relayed m then quietly (PropagateLocalIntroSet e path id i peer 0 c)
  else quietly (PropagateIntroSetTo e from id i peer 0 c).
Definition PublishIntro_HandleMessage e from path (m : PublishIntroMessage.t) c : outcome :=
  let i := PublishIntroMessage.introset m in
  let id := PublishIntroMessage.txID m in
  let refuse := Ok (true, [reply_introsets id []], c) in
  let* ok := EncryptedIntroSet.Verify (Now e) i in
  if negb ok then refuse
  else if EncryptedIntroSet.IsExpired (Now e + EncryptedIntroSet.MAX_INTROSET_TIME_DELTA) i then refuse
  else
    let closestRCs := NodeDB.FindManyClosestTo (EncryptedIntroSet.derivedSigningKey i) IntroSetStorageRedundancy (nodedb (rest c)) in
    if negb (length closestRCs =? IntroSetStorageRedundancy)%nat then refuse
    else if PublishIntroMessage.relayed m then
      if Z.of_nat IntroSetStorageRedundancy <=? PublishIntroMessage.relayOrder m then refuse
      else match closestRCs !! Z.to_nat (PublishIntroMessage.relayOrder m) with
           | None => Oob
           | Some rc => propagate_if_not_us e from path m rc c
           end
    else if existsb (fun rc => bool_decide (RouterContact.pubkey rc = ourKey)) closestRCs then
      Ok (true, [reply_introsets id [i]], c <| rest ::= fun b => b <| _services ::= Bucket.PutNode ourKey i |> |>)
    else Ok (true, [], c).

Definition FindName_HandleMessage e path (m : FindNameMessage) c : outcome :=
  if is_zero path || negb (router_is_snode e) then Ok (false, [], c)
  else let* r := GotName_make (fn_TxID m) (zeros NONCESIZE) [] in Ok (true, [MGotName r], c).

Definition HandleMessage e (allowTransit : bool) (m : IMessage) c : outcome :=
  let from := From m in
  let path := pathID m in
  match msg m with
  | MFindIntro m => FindIntro_HandleMessage e from path m c
  | MFindRouter m => FindRouter_HandleMessage e allowTransit from m c
  | MRelayedFindRouter m => RelayedFindRouter_HandleMessage e path m c
  | MGotIntro m => GotIntro_HandleMessage e from m c
  | MRelayedGotIntro _ => for_pathset e path (msg m) c
  | MGotRouter m => GotRouter_HandleMessage e from path m c
  | MPublishIntro m => PublishIntro_HandleMessage e from path m c
  | MFindName m => FindName_HandleMessage e path m c
  | MGotName _ => for_pathset e path (msg m) c
  end.
(** A message that came down a path. *)
Definition RelayRequestForPath e (allowTransit : bool) path (m : IMessage) c : res (bool * Context) :=
  let* (ok, replies, c) := HandleMessage e allowTransit m c in
  if negb ok then Ok (false, c)
  else match replies with
       | [] => Ok (true, c)
       | _ => if path_by_upstream e path then Ok (path_sends e path, c <| rest ::= emit (PathSent path replies) |>) else Ok (false, c)
       end.
End handlers.
