(* ===== verification/DhtSpec.v ===== *)
(** * What the DHT promises

    Every handler of [Dht] returns, uses no lookup that it has ended itself, and keeps the lookups in
    flight consistent; what is stored was verified; what was published is served until it expires;
    every request for a contact is answered. *)

From S2P Require Import Prelude Buffer Bencode Codec CryptoApi Str NetInt IpRange DnsName DnsMessage Contact Kademlia DhtMessage DhtTx Profiling DhtContext Dht.

(** ** Numbers of transactions *)
(** The transactions of a holder have numbers from the last [n - n0] that were given out. *)
Definition numbered {K V J} `{Countable K} (n0 n : Z) (h : TXHolder K V J) : Prop :=
  forall o t, tx h !! o = Some t -> exists j, n0 < j <= n /\ txid o = u64 j.
Section numbers.
Context {K V J W : Type} `{Countable K}.
Implicit Types (h : TXHolder K V J) (t : TX K V J).
Lemma numbered_weaken n0 n n' h : numbered n0 n h -> n <= n' -> numbered n0 n' h.
Proof. intros Hn Hle o t Ho. destruct (Hn o t Ho) as (j & ? & ?). exists j. split; [lia|done]. Qed.
Lemma numbered_sub n0 n h h' : numbered n0 n h -> (forall o t, tx h' !! o = Some t -> tx h !! o = Some t) -> numbered n0 n h'.
Proof. intros Hn Hs o t Ho. by eapply Hn, Hs. Qed.
Lemma numbered_fresh n0 n h peer : numbered n0 n h -> n + 1 <= n0 + 2 ^ 64 -> tx h !! Owner peer (u64 (n + 1)) = None.
Proof.
  intros Hn Hb. destruct (tx h !! _) as [t|] eqn:E; [|done]. exfalso. destruct (Hn _ _ E) as (j & Hj & Ej). cbn [txid] in Ej. unfold wrap in Ej.
  pose proof (Z.div_mod (n + 1) (2 ^ 64)). pose proof (Z.div_mod j (2 ^ 64)). nia.
Qed.

(** A new transaction with the next number. *)
Lemma new_numbered (Start : TX K V J -> TXOwner -> W -> W) (SendReply : TX K V J -> W -> W) now peer t timeout n0 n h w :
  holder_ok h -> numbered n0 n h -> n0 <= n -> n + 1 <= n0 + 2 ^ 64 ->
  exists h' w', NewTX Start now (Owner peer (u64 (n + 1))) (target t) t timeout h w = Ok (h', w') /\ holder_ok h' /\ numbered n0 (n + 1) h' /\
    tx h' = <[Owner peer (u64 (n + 1)) := t]> (tx h) /\ (w' = w \/ w' = Start t (Owner peer (u64 (n + 1))) w).
Proof.
  intros Hh Hn Hle Hb. destruct (new_ok SendReply Start now (Owner peer (u64 (n + 1))) t timeout h w Hh (numbered_fresh n0 n h peer Hn Hb)) as (h' & w' & E & Hh' & _ & Htx & _ & Hw).
  exists h', w'. split_and!; [done|done| |done|by subst w'; case_bool_decide; auto].
  intros o t'. rewrite Htx. intros [[<- <-]|[_ Ho]]%lookup_insert_Some; [exists (n + 1); split; [lia|done]|].
  destruct (Hn _ _ Ho) as (j & ? & ?). exists j. split; [lia|done].
Qed.
End numbers.

(** * The context *)
Section spec.
Context {OS : OxencSwap} {IP : InetPton} {IN : InetNtop} {BT : OxencBt} {CR : Crypto}.
Context (ourKey : Key_t) (ours : list Z) (rank0 port0 : Z) (BlockBogons : bool).
Implicit Types (e : Env) (b : base) (c : Context) (rc : RouterContact).

(** What passes verification. *)
Definition valid_router e (_ : RouterID) (_ : RouterJob) rc : bool :=
  match verify_rc ours rank0 port0 BlockBogons (Now e) rc with Ok ok => ok | _ => false end.
Lemma router_validate e (t : RouterTX) rc : Router_Validate ours rank0 port0 BlockBogons e t rc = Ok (valid_router e (target t) (job t) rc).
Proof. unfold Router_Validate, valid_router, verify_rc. by destruct (ContactSafe.Verify_rc_total rank0 port0 ours BlockBogons (Now e) true rc) as [ok ->]. Qed.
Definition valid_introset e (_ : TXOwner) (j : ServiceJob) (i : EncryptedIntroSet) : bool :=
  match Service_Validate e (MkTX owner0 [] [] owner0 j) i with Ok ok => ok | _ => false end.
Lemma service_validate e (t : ServiceTX) i : Service_Validate e t i = Ok (valid_introset e (target t) (job t) i).
Proof.
  unfold valid_introset, Service_Validate. destruct (EncryptedIntroSetSpec.Verify_total (Now e) i) as [ok ->]. cbn. by destruct (job t); try case_bool_decide.
Qed.

(** ** What the jobs do to the rest of the context *)
(** The requests that were answered, and those that were made and not answered. *)
Definition called (l : list event) : list (RouterID * Z) := omap (fun ev => match ev with Called k r _ _ => Some (r, k) | _ => None end) l.
Definition waiting_calls (m : gmap RouterID (list Z)) : list (RouterID * Z) := x ← map_to_list m; (fun k => (x.1, k)) <$> x.2.
Definition requests b : list (RouterID * Z) := called (out b) ++ waiting_calls (pendingCallbacks (lookups b)).
(** Requests are answered, and not forgotten. *)
Record settled b b' : Prop := {
  settled_requests : requests b' ≡ₚ requests b;
  settled_pending r : pendingCallbacks (lookups b') !! r = None \/ pendingCallbacks (lookups b') !! r = pendingCallbacks (lookups b) !! r;
  settled_kind : isServiceNode (lookups b') = isServiceNode (lookups b);
}.
#[local] Instance settled_preorder : PreOrder settled.
Proof.
  split; [intros b; split; auto|]. intros b b1 b2 [R1 P1 K1] [R2 P2 K2]. split; [by rewrite R2|intros r; destruct (P2 r) as [-> | ->]; auto|congruence].
Qed.
(** Sets and numbers stay. *)
Definition quiet b b' : Prop := _services b' = _services b /\ ids b' = ids b /\ settled b b'.
#[local] Instance quiet_preorder : PreOrder quiet.
Proof. split; [intros b; split_and!; done|]. intros ? ? ? (? & ? & ?) (? & ? & ?). split_and!; [congruence|congruence|by etransitivity]. Qed.
Lemma quiet_same b b' : _services b' = _services b -> ids b' = ids b -> out b' = out b -> lookups b' = lookups b -> quiet b b'.
Proof. intros Es Ei Eo El. split_and!; [done|done|]. split; unfold requests; rewrite ?Eo, ?El; auto. Qed.
Lemma quiet_emit ev b : match ev with Called _ _ _ _ => False | _ => True end -> quiet b (emit ev b).
Proof.
  intros He. split_and!; [done|done|]. split; [|by right|done]. unfold requests, called. cbn. rewrite omap_app. by destruct ev; cbn; rewrite ?app_nil_r.
Qed.
Lemma quiet_check e rc b : exists ok b', CheckRC ourKey ours rank0 port0 BlockBogons e rc b = Ok (ok, b') /\ quiet b b'.
Proof.
  unfold CheckRC, verify_rc. case_match; [do 2 eexists; split; [done|by apply quiet_same]|].
  destruct (ContactSafe.Verify_rc_total rank0 port0 ours BlockBogons (Now e) true rc) as [ok ->]. cbn [rbind].
  repeat case_match; (do 2 eexists; split; [done|by apply quiet_same]).
Qed.
Lemma waiting_calls_delete m r l : m !! r = Some l -> waiting_calls m ≡ₚ ((fun k => (r, k)) <$> l) ++ waiting_calls (delete r m).
Proof. intros Hr. unfold waiting_calls. rewrite <- (insert_delete_id m r l Hr) at 1. rewrite map_to_list_insert by apply lookup_delete_eq. done. Qed.
Lemma called_emits router o x (l : list Z) b :
  let b' := foldl (fun b k => emit (Called k router o x) b) b l in
  called (out b') = called (out b) ++ ((fun k => (router, k)) <$> l) /\ _services b' = _services b /\ ids b' = ids b /\ lookups b' = lookups b.
Proof.
  revert b. induction l as [|k l IH]; intros b; cbn [foldl fmap list_fmap]; [by rewrite app_nil_r|].
  destruct (IH (emit (Called k router o x) b)) as (-> & -> & -> & ->). split_and!; [|done..]. unfold called. cbn. rewrite omap_app. cbn. by rewrite <- app_assoc.
Qed.
(** The requests for a router are answered. *)
Lemma finalize_spec r o x b : quiet b (FinalizeRequest r o x b) /\ pendingCallbacks (lookups (FinalizeRequest r o x b)) = delete r (pendingCallbacks (lookups b)).
Proof.
  unfold FinalizeRequest. set (b1 := b <| lookups ::= _ |>).
  destruct (called_emits r o x (from_option id [] (pendingCallbacks (lookups b) !! r)) b1) as (Eo & Es & Ei & El). cbv zeta in *. rewrite El.
  split; [|done]. split_and!; [done|done|]. split; rewrite ?El; [|intros r'; cbn|done].
  - unfold requests. rewrite Eo, El. cbn. destruct (pendingCallbacks (lookups b) !! r) as [l|] eqn:E; cbn.
    + rewrite (waiting_calls_delete _ r l E), <- app_assoc. done.
    + by rewrite app_nil_r, delete_id.
  - destruct (decide (r' = r)) as [->|Hne]; [left; apply lookup_delete_eq|right; by apply lookup_delete_ne].
Qed.
Lemma quiet_finalize r o x b : quiet b (FinalizeRequest r o x b).
Proof. apply finalize_spec. Qed.
Lemma quiet_explore e l b : exists b', HandleDHTLookupForExplore ourKey ours rank0 port0 BlockBogons e l b = Ok b' /\ quiet b b'.
Proof.
  revert b. induction l as [|rc l IH]; intros b; cbn [HandleDHTLookupForExplore]; [by eexists|].
  destruct (quiet_check e rc b) as (ok & b1 & -> & H1). cbn [rbind]. destruct (IH b1) as (b2 & -> & H2). eexists. split; [done|]. by etransitivity.
Qed.
Lemma quiet_handler e h l b : exists b', run_handler ourKey ours rank0 port0 BlockBogons e h l b = Ok b' /\ quiet b b'.
Proof.
  destruct h as [remote|remote]; cbn [run_handler]; [|apply quiet_explore]. unfold HandleDHTLookupResult.
  destruct l as [|rc l]; [eexists; split; [done|apply quiet_finalize]|]. case_match; [eexists; split; [done|apply quiet_finalize]|].
  destruct (quiet_check e rc b) as (ok & b1 & -> & H1). cbn [rbind]. eexists. split; [done|]. etransitivity; [done|]. apply quiet_finalize.
Qed.
Lemma quiet_newest e l f b : exists f' b', newest_checked ourKey ours rank0 port0 BlockBogons e l f b = Ok (f', b') /\ quiet b b'.
Proof.
  revert f b. induction l as [|rc l IH]; intros f b; cbn [newest_checked]; [by do 2 eexists|]. case_match; [|apply IH].
  destruct (quiet_check e rc b) as (ok & b1 & -> & H1). cbn [rbind]. destruct (IH (if ok then rc else f) b1) as (f' & b2 & -> & H2).
  do 2 eexists. split; [done|]. by etransitivity.
Qed.
Abbreviation reply_router e := (Router_SendReply ourKey ours rank0 port0 BlockBogons e).
Lemma quiet_router e t b : exists b', reply_router e t (Ok b) = Ok b' /\ quiet b b'.
Proof.
  unfold Router_SendReply. cbn [rbind]. destruct (job t) as [h|path]; [|eexists; split; [done|unfold LocalRouter_SendReply, send_down; case_match; [by apply quiet_emit|done]]].
  unfold Recursive_SendReply. assert (exists vs b1, match valuesFound t with [] => Ok ([], b)
    | _ => let* (found, b) := newest_checked ourKey ours rank0 port0 BlockBogons e (valuesFound t) (RouterContact.default ours) b in Ok ([found], b) end = Ok (vs, b1) /\ quiet b b1) as (vs & b1 & E & H1).
  { destruct (valuesFound t) as [|v l]; [by do 2 eexists|]. destruct (quiet_newest e (v :: l) (RouterContact.default ours) b) as (f & b1 & -> & H1). by do 2 eexists. }
  destruct (valuesFound t); rewrite E; cbn [rbind].
  all: assert (exists b2, match h with Some h => run_handler ourKey ours rank0 port0 BlockBogons e h vs b1 | None => Ok b1 end = Ok b2 /\ quiet b1 b2) as (b2 & -> & H2)
    by (destruct h as [h|]; [apply quiet_handler|by eexists]).
  all: cbn [rbind]; eexists; (split; [done|]); (etransitivity; [exact H1|]); (etransitivity; [exact H2|]); case_bool_decide; [done|by apply quiet_emit].
Qed.
Lemma quiet_service e t b : exists b', Service_SendReply e t (Ok b) = Ok b' /\ quiet b b'.
Proof.
  unfold Service_SendReply. cbn [rbind]. eexists. split; [done|]. unfold send_down, DHTSendTo. repeat case_match; try done; try by apply quiet_emit.
  etransitivity; [|by apply quiet_emit]. by apply quiet_emit.
Qed.
Lemma quiet_replies {T} (reply : T -> res base -> res base) (log : list T) b :
  (forall t b, exists b', reply t (Ok b) = Ok b' /\ quiet b b') -> exists b', foldl (fun w t => reply t w) (Ok b) log = Ok b' /\ quiet b b'.
Proof.
  intros Hr. revert b. induction log as [|t log IH]; intros b; cbn [foldl]; [by eexists|]. destruct (Hr t b) as (b1 & -> & H1).
  destruct (IH b1) as (b2 & -> & H2). eexists. split; [done|]. by etransitivity.
Qed.

(** A handler of a request leaves it answered. *)
Lemma handler_answers e r l b b' :
  run_handler ourKey ours rank0 port0 BlockBogons e (LookupResult r) l b = Ok b' -> pendingCallbacks (lookups b') !! r = None.
Proof.
  cbn [run_handler]. unfold HandleDHTLookupResult. assert (forall o x b, pendingCallbacks (lookups (FinalizeRequest r o x b)) !! r = None) as Hf.
  { intros o x b1. rewrite (proj2 (finalize_spec r o x b1)). apply lookup_delete_eq. }
  destruct l as [|rc l]; [intros [= <-]; apply Hf|]. case_match; [intros [= <-]; apply Hf|].
  destruct (CheckRC _ _ _ _ _ _ _ _) as [[ok b1]| | |]; cbn [rbind]; try done. intros [= <-]. apply Hf.
Qed.
Lemma reply_answers e r t b b' :
  reply_router e t (Ok b) = Ok b' -> job t = RecursiveRouterLookup (Some (LookupResult r)) -> pendingCallbacks (lookups b') !! r = None.
Proof.
  intros E Hj. unfold Router_SendReply in E. cbn [rbind] in E. rewrite Hj in E. unfold Recursive_SendReply in E.
  destruct (match valuesFound t with [] => _ | _ => _ end) as [[vs b1]| | |]; cbn [rbind] in E; try done.
  destruct (run_handler _ _ _ _ _ _ _ _ _) as [b2| | |] eqn:Eh; cbn [rbind] in E; try done. injection E as <-.
  apply handler_answers in Eh. by case_bool_decide.
Qed.
Lemma replies_answer e r (log : list RouterTX) b b' t :
  foldl (fun w t => reply_router e t w) (Ok b) log = Ok b' -> t ∈ log -> job t = RecursiveRouterLookup (Some (LookupResult r)) ->
  pendingCallbacks (lookups b') !! r = None.
Proof.
  revert b. induction log as [|t0 log IH]; intros b E Hin Hj; [by apply elem_of_nil in Hin|]. cbn [foldl] in E.
  destruct (quiet_router e t0 b) as (b1 & E1 & _). rewrite E1 in E. apply elem_of_cons in Hin as [<-|Hin]; [|by eapply IH].
  apply (reply_answers e r t) in E1; [|done]. destruct (quiet_replies (reply_router e) log b1 (quiet_router e)) as (b2 & E2 & _ & _ & Hs). rewrite E in E2. injection E2 as <-.
  destruct (settled_pending _ _ Hs r); congruence.
Qed.
(** On a service node, every request that waits has a lookup in flight. *)
Definition tracked b (h : RouterLookups) : Prop :=
  isServiceNode (lookups b) = true -> forall r, is_Some (pendingCallbacks (lookups b) !! r) ->
  exists o t, tx h !! o = Some t /\ job t = RecursiveRouterLookup (Some (LookupResult r)).
Lemma tracked_settled b b' h : tracked b h -> settled b b' -> tracked b' h.
Proof. intros Ht [_ Hp Hk] Hs r Hr. apply Ht; [congruence|]. destruct (Hp r) as [E|E]; rewrite E in Hr; [by destruct Hr|done]. Qed.
Lemma tracked_more b h h' : tracked b h -> (forall o t, tx h !! o = Some t -> tx h' !! o = Some t) -> tracked b h'.
Proof. intros Ht Hs Hk r Hr. destruct (Ht Hk r Hr) as (o & t & Ho & Hj). exists o, t. auto. Qed.
Lemma tracked_answers e valid vs h b h' b' :
  tracked b h -> holder_ok h -> answers (reply_router e) valid vs h (Ok b) h' (Ok b') -> tracked b' h'.
Proof.
  intros Ht Hh (_ & (log & E & Hp & _) & _) Hk r Hr. symmetry in E. destruct (quiet_replies (reply_router e) log b (quiet_router e)) as (b1 & E1 & _ & _ & Hs).
  rewrite E in E1. injection E1 as <-. destruct (tracked_settled b b' h Ht Hs Hk r Hr) as (o & t & Ho & Hj).
  pose proof (pending_complete h o t Hh Ho) as Hin. rewrite Hp in Hin. apply elem_of_app in Hin as [Hin|Hin].
  - apply list_elem_of_fmap in Hin as (t' & Ei & Hin). unfold ident in Ei. injection Ei as _ _ Ej.
    pose proof (replies_answer e r log b b' t' E Hin ltac:(congruence)) as Hn. rewrite Hn in Hr. by destruct Hr.
  - unfold pending in Hin. apply list_elem_of_omap in Hin as ([k o'] & _ & Ei). cbn in Ei. destruct (tx h' !! o') as [t'|] eqn:Eo; cbn in Ei; [|done].
    unfold ident in Ei. injection Ei as _ _ Ej. exists o', t'. split; [done|]. congruence.
Qed.

(** ** Steps of the context *)
Abbreviation services_of c := (_services (rest c)).
Record ctx_ok (n0 : Z) c : Prop := {
  routers_ok : holder_ok (pendingRouterLookups c);
  introsets_ok : holder_ok (pendingIntrosetLookups c);
  explores_ok : holder_ok (pendingExploreLookups c);
  routers_numbered : numbered n0 (ids (rest c)) (pendingRouterLookups c);
  introsets_numbered : numbered n0 (ids (rest c)) (pendingIntrosetLookups c);
  explores_numbered : numbered n0 (ids (rest c)) (pendingExploreLookups c);
  explores_unanswered o t : tx (pendingExploreLookups c) !! o = Some t -> valuesFound t = [];
  counter_ok : n0 <= ids (rest c);
  stored_ok : BucketSpec.bucket_ok ourKey (services_of c);
  requests_tracked : tracked (rest c) (pendingRouterLookups c);
  stored_verified : map_Forall (fun _ s => exists now, EncryptedIntroSet.Verify now s = Ok true) (abs (services_of c));
}.
(** At most [k] numbers are used, and the sets stay. *)
Definition steps (n0 k : Z) c c' : Prop :=
  ctx_ok n0 c' /\ services_of c' = services_of c /\ ids (rest c) <= ids (rest c') <= ids (rest c) + k /\ settled (rest c) (rest c').
Definition advance {K V J} `{Countable K} (n0 k : Z) b (h' : TXHolder K V J) b' : Prop :=
  holder_ok h' /\ numbered n0 (ids b') h' /\ _services b' = _services b /\ ids b <= ids b' <= ids b + k /\ settled b b'.

Lemma new_advance {K V J} `{Countable K} (Start : TX K V J -> TXOwner -> res base -> res base) now peer t timeout n0 (h : TXHolder K V J) b :
  (forall t o b, exists b', Start t o (Ok b) = Ok b' /\ quiet b b') ->
  holder_ok h -> numbered n0 (ids b) h -> n0 <= ids b -> ids b + 1 <= n0 + 2 ^ 64 ->
  exists h' b', settle (NewTX Start now (Owner peer (u64 (ids b + 1))) (target t) t timeout h (Ok (b <| ids := ids b + 1 |>))) = Ok (h', b') /\ advance n0 1 b h' b' /\
    tx h' = <[Owner peer (u64 (ids b + 1)) := t]> (tx h) /\ tx h !! Owner peer (u64 (ids b + 1)) = None.
Proof.
  intros Hq Hh Hn Hle Hb. destruct (new_numbered Start (fun _ w => w) now peer t timeout n0 (ids b) h (Ok (b <| ids := ids b + 1 |>)) Hh Hn Hle Hb) as (h' & w' & -> & Hh' & Hn' & Htx & Hw).
  unfold settle. cbn [rbind]. assert (exists b', w' = Ok b' /\ quiet (b <| ids := ids b + 1 |>) b') as (b' & -> & (E1 & E2 & E3)) by (destruct Hw as [-> | ->]; [by eexists|apply Hq]).
  cbn [rbind]. exists h', b'. split; [done|]. split_and!; [|done|by eapply numbered_fresh]. cbn in E1, E2. unfold advance. rewrite E1, E2. split_and!; [done|done|done|lia|lia|].
  etransitivity; [|exact E3]. split; auto.
Qed.
Lemma answer_advance {K V J} `{Countable K} (reply : TX K V J -> res base -> res base) valid vs n0 (call : res (TXHolder K V J * res base)) h b :
  (forall t b, exists b', reply t (Ok b) = Ok b' /\ quiet b b') -> numbered n0 (ids b) h ->
  (exists h' w', call = Ok (h', w') /\ answers reply valid vs h (Ok b) h' w') ->
  exists h' b', settle call = Ok (h', b') /\ advance n0 0 b h' b' /\ answers reply valid vs h (Ok b) h' (Ok b').
Proof.
  intros Hq Hn (h' & w' & -> & Ha). pose proof Ha as (Hh' & (log & -> & _) & Hs & _). unfold settle. cbn [rbind].
  destruct (quiet_replies reply log b Hq) as (b' & E & E1 & E2 & E3). rewrite E in *. cbn [rbind].
  exists h', b'. split; [done|]. split; [|done]. unfold advance. rewrite E1, E2. split_and!; [done|by eapply numbered_sub|done|lia|lia|done].
Qed.
Lemma start_router e t o b : exists b', Router_Start e t o (Ok b) = Ok b' /\ quiet b b'.
Proof. eexists. split; [done|]. by apply quiet_emit. Qed.
Lemma start_service e t o b : exists b', Service_Start e t o (Ok b) = Ok b' /\ quiet b b'.
Proof. eexists. split; [done|]. by apply quiet_emit. Qed.

Lemma on_routers_steps n0 k c f :
  ctx_ok n0 c -> (exists h' b', f (pendingRouterLookups c) (rest c) = Ok (h', b') /\ advance n0 k (rest c) h' b' /\ tracked b' h') ->
  exists c', on_routers c f = Ok c' /\ steps n0 k c c'.
Proof.
  intros Hc (h' & b' & E & (Hh & Hn & Es & Hi & Hst) & Ht). unfold on_routers. rewrite E. cbn [rbind]. eexists. split; [done|]. split_and!; cbn; [|done|lia|lia|done].
  destruct Hc. split; cbn; rewrite ?Es; try done; try (eapply numbered_weaken; [done|lia]). lia.
Qed.
Lemma on_introsets_steps n0 k c f :
  ctx_ok n0 c -> (exists h' b', f (pendingIntrosetLookups c) (rest c) = Ok (h', b') /\ advance n0 k (rest c) h' b') ->
  exists c', on_introsets c f = Ok c' /\ steps n0 k c c'.
Proof.
  intros Hc (h' & b' & E & Hh & Hn & Es & Hi & Hst). unfold on_introsets. rewrite E. cbn [rbind]. eexists. split; [done|]. split_and!; cbn; [|done|lia|lia|done].
  destruct Hc. split; cbn; rewrite ?Es; try done; try (eapply numbered_weaken; [done|lia]); [lia|by eapply tracked_settled].
Qed.
Lemma on_explores_steps n0 k c f :
  ctx_ok n0 c ->
  (exists x' h' b', f (pendingExploreLookups c) (pendingRouterLookups c, rest c) = Ok (x', (h', b')) /\ advance n0 k (rest c) h' b' /\ tracked b' h' /\
     holder_ok x' /\ numbered n0 (ids b') x' /\ forall o t, tx x' !! o = Some t -> valuesFound t = []) ->
  exists c', on_explores c f = Ok c' /\ steps n0 k c c'.
Proof.
  intros Hc (x' & h' & b' & E & (Hh & Hn & Es & Hi & Hst) & Ht & Hx & Hxn & Hxe). unfold on_explores. rewrite E. cbn [rbind]. eexists. split; [done|]. split_and!; cbn; [|done|lia|lia|done].
  destruct Hc. split; cbn; rewrite ?Es; try done; try (eapply numbered_weaken; [done|lia]). lia.
Qed.
Lemma steps_trans n0 k1 k2 c c1 c2 : steps n0 k1 c c1 -> steps n0 k2 c1 c2 -> steps n0 (k1 + k2) c c2.
Proof. intros (_ & E1 & ? & ?) (H2 & E2 & ? & ?). split_and!; [done|congruence|lia|lia|by etransitivity]. Qed.
Lemma steps_weaken n0 k k' c c' : steps n0 k c c' -> k <= k' -> steps n0 k' c c'.
Proof. intros (? & ? & ? & ?) ?. split_and!; [done|done|lia|lia|done]. Qed.
Lemma steps_refl n0 c : ctx_ok n0 c -> steps n0 0 c c.
Proof. intros. split_and!; [done|done|lia|lia|done]. Qed.

(** *** Lookups of routers *)
(** No lookup of routers is lost. *)
Definition radvance (n0 k : Z) (h : RouterLookups) b (h' : RouterLookups) b' : Prop :=
  advance n0 k b h' b' /\ forall o t, tx h !! o = Some t -> tx h' !! o = Some t.
Lemma radvance_refl n0 h b : holder_ok h -> numbered n0 (ids b) h -> radvance n0 0 h b h b.
Proof. intros. split; [|done]. split_and!; [done|done|done|lia|lia|done]. Qed.
Lemma radvance_trans n0 k1 k2 h b h1 b1 h2 b2 : radvance n0 k1 h b h1 b1 -> radvance n0 k2 h1 b1 h2 b2 -> radvance n0 (k1 + k2) h b h2 b2.
Proof. intros [(? & ? & E1 & ? & ?) S1] [(? & ? & E2 & ? & ?) S2]. split; [|by auto]. split_and!; [done|done|congruence|lia|lia|by etransitivity]. Qed.
Lemma radvance_weaken n0 k k' h b h' b' : radvance n0 k h b h' b' -> k <= k' -> radvance n0 k' h b h' b'.
Proof. intros [(? & ? & ? & ? & ?) ?] ?. split; [|done]. split_and!; [done|done|done|lia|lia|done]. Qed.
Lemma radvance_tracked n0 k h b h' b' : tracked b h -> radvance n0 k h b h' b' -> tracked b' h'.
Proof. intros Ht [(_ & _ & _ & _ & Hs) Hk]. eapply tracked_more; [by eapply tracked_settled|done]. Qed.
Lemma new_router_advance e peer (t : RouterTX) timeout n0 h b :
  holder_ok h -> numbered n0 (ids b) h -> n0 <= ids b -> ids b + 1 <= n0 + 2 ^ 64 ->
  exists h' b', settle (NewTX (Router_Start e) (Now e) (Owner peer (u64 (ids b + 1))) (target t) t timeout h (Ok (b <| ids := ids b + 1 |>))) = Ok (h', b') /\
    radvance n0 1 h b h' b' /\ exists o, tx h' !! o = Some t.
Proof.
  intros Hh Hn Hle Hb. destruct (new_advance (Router_Start e) (Now e) peer t timeout n0 h b (start_router e) Hh Hn Hle Hb) as (h' & b' & E & Ha & Htx & Hf).
  exists h', b'. split; [done|]. split; [split; [done|]|eexists; rewrite Htx; apply lookup_insert_eq].
  intros o t' Ho. rewrite Htx, lookup_insert_ne; [done|]. congruence.
Qed.
Lemma recursive_advance e target who id peer handler n0 h b :
  holder_ok h -> numbered n0 (ids b) h -> n0 <= ids b -> ids b + 1 <= n0 + 2 ^ 64 ->
  exists h' b', LookupRouterRecursive ourKey e target who id peer handler h b = Ok (h', b') /\ radvance n0 1 h b h' b' /\
    exists o t, tx h' !! o = Some t /\ job t = RecursiveRouterLookup handler.
Proof.
  intros. destruct (new_router_advance e peer (MkTX target [ourKey] [] (Owner who id) (RecursiveRouterLookup handler)) requestTimeoutMS n0 h b) as (h' & b' & E & Ha & o & Ho); [done..|].
  exists h', b'. split; [exact E|]. split; [done|]. by eexists o, _.
Qed.
Lemma lookup_advance e target handler n0 h b :
  holder_ok h -> numbered n0 (ids b) h -> n0 <= ids b -> ids b + 1 <= n0 + 2 ^ 64 ->
  exists ok h' b', LookupRouter ourKey e target handler h b = Ok (ok, h', b') /\ radvance n0 1 h b h' b' /\
    (ok = true -> exists o t, tx h' !! o = Some t /\ job t = RecursiveRouterLookup (Some handler)).
Proof.
  intros. unfold LookupRouter. destruct (Bucket.FindClosest _ _ _) as [ok peer]. destruct ok; cbn [negb].
  - destruct (recursive_advance e target ourKey 0 peer (Some handler) n0 h b) as (h' & b' & -> & Ha & Ho); [done..|]. by do 3 eexists.
  - do 3 eexists. split; [done|]. split; [|done]. apply (radvance_weaken _ 0); [by apply radvance_refl|lia].
Qed.
Lemma lookup_found_advance e found n0 h b :
  holder_ok h -> numbered n0 (ids b) h -> n0 <= ids b -> ids b + Z.of_nat (length found) <= n0 + 2 ^ 64 ->
  exists h' b', lookup_found ourKey e found h b = Ok (h', b') /\ radvance n0 (Z.of_nat (length found)) h b h' b'.
Proof.
  revert h b. induction found as [|pk found IH]; intros h b Hh Hn Hle Hb; cbn [lookup_found length] in *.
  { exists h, b. split; [done|]. by apply radvance_refl. }
  case_match.
  - destruct (IH h b) as (h' & b' & E & Ha); [done..|lia|]. exists h', b'. split; [done|]. eapply radvance_weaken; [done|lia].
  - destruct (lookup_advance e pk (LookupForExplore pk) n0 h b) as (ok & h1 & b1 & -> & Ha & _); [done|done|done|lia|]. cbn [rbind]. pose proof Ha as [(? & ? & ? & ? & ?) _].
    destruct (IH h1 b1) as (h' & b' & E & Ha'); [done|done|lia|lia|]. exists h', b'. split; [done|].
    replace (Z.of_nat (S (length found))) with (1 + Z.of_nat (length found)) by lia. by eapply radvance_trans.
Qed.
Lemma explore_replies e (log : list ExploreTX) (N : nat) n0 h b :
  Forall (fun t => (length (valuesFound t) <= N)%nat) log ->
  holder_ok h -> numbered n0 (ids b) h -> n0 <= ids b -> ids b + Z.of_nat (length log * N) <= n0 + 2 ^ 64 ->
  exists h' b', foldl (fun w t => Explore_SendReply ourKey e t w) (Ok (h, b)) log = Ok (h', b') /\ radvance n0 (Z.of_nat (length log * N)) h b h' b'.
Proof.
  revert h b. induction log as [|t log IH]; intros h b Hl Hh Hn Hle Hb; cbn [foldl length] in *.
  { exists h, b. split; [done|]. by apply radvance_refl. }
  apply Forall_cons in Hl as [Ht Hl]. cbn [Explore_SendReply rbind].
  destruct (lookup_found_advance e (valuesFound t) n0 h b) as (h1 & b1 & -> & Ha); [done|done|done|lia|]. pose proof Ha as [(? & ? & ? & ? & ?) _].
  destruct (IH h1 b1) as (h' & b' & E & Ha'); [done|done|done|lia|lia|]. exists h', b'. split; [done|].
  eapply radvance_weaken; [by eapply radvance_trans|lia].
Qed.
Lemma length_omap_le {A B} (f : A -> option B) (l : list A) : (length (omap f l) <= length l)%nat.
Proof. induction l as [|a l IH]; cbn; [done|]. destruct (f a); cbn; lia. Qed.
(** The numbers that answering explorations with [n] keys may use. *)
Definition explore_demand c (n : nat) : Z := Z.of_nat (length (waiting (pendingExploreLookups c)) * n).
Lemma explores_answer e vs n0 c call :
  ctx_ok n0 c -> ids (rest c) + explore_demand c (length vs) <= n0 + 2 ^ 64 ->
  (exists x' w', call = Ok (x', w') /\ answers (Explore_SendReply ourKey e) (fun _ _ _ => true) vs (pendingExploreLookups c) (Ok (pendingRouterLookups c, rest c)) x' w') ->
  exists c', on_explores c (fun _ _ => settle call) = Ok c' /\ steps n0 (explore_demand c (length vs)) c c'.
Proof.
  intros Hc Hb (x' & w' & -> & Hx & (log & -> & Hp & Hl) & Hs & _). apply on_explores_steps; [done|]. cbv beta. destruct Hc.
  assert (length log <= length (waiting (pendingExploreLookups c)))%nat as Hlen.
  { apply Permutation_length in Hp. rewrite length_app, length_fmap in Hp. unfold pending in Hp at 1.
    pose proof (length_omap_le (fun x => ident <$> tx (pendingExploreLookups c) !! x.2) (waiting (pendingExploreLookups c))). lia. }
  assert (Z.of_nat (length log * length vs) <= explore_demand c (length vs)) as Hd by (unfold explore_demand; nia).
  destruct (explore_replies e log (length vs) n0 (pendingRouterLookups c) (rest c)) as (h' & b' & E & Ha); [|done|done|done|lia|].
  { eapply Forall_impl; [exact Hl|]. intros t (asked & o & t0 & Ht0 & ->). cbn. erewrite explores_unanswered0 by done. cbn. apply length_filter. }
  unfold settle. cbn [rbind]. rewrite E. cbn [rbind]. pose proof Ha as [(? & ? & ? & ? & ?) _]. exists x', h', b'. split; [done|].
  split; [split_and!; [done|done|done|lia|lia|done]|]. split; [by eapply radvance_tracked|]. split_and!; [done| |].
  - eapply numbered_weaken; [by eapply numbered_sub|lia].
  - intros o t Ho. eapply explores_unanswered0. by apply Hs.
Qed.
Lemma explore_found e from k vs n0 c :
  ctx_ok n0 c -> ids (rest c) + explore_demand c (length vs) <= n0 + 2 ^ 64 ->
  exists c', on_explores c (fun x hb => settle (Found Explore_Validate (Explore_SendReply ourKey e) from k vs x (Ok hb))) = Ok c' /\ steps n0 (explore_demand c (length vs)) c c'.
Proof.
  intros Hc Hb. apply (explores_answer e vs n0 c _ Hc Hb).
  apply (call_run Explore_Validate (Explore_SendReply ourKey e) (fun _ _ _ => true) (fun _ _ => eq_refl) (fun _ _ w => w) (CFound from k vs)); [apply Hc|done].
Qed.
Lemma demand_nil c : explore_demand c 0 = 0.
Proof. unfold explore_demand. by rewrite Nat.mul_0_r. Qed.
Lemma explore_not_found e from n0 c :
  ctx_ok n0 c -> ids (rest c) <= n0 + 2 ^ 64 ->
  exists c', on_explores c (fun x hb => settle (NotFound Explore_Validate (Explore_SendReply ourKey e) from x (Ok hb))) = Ok c' /\ steps n0 0 c c'.
Proof.
  intros Hc Hb. rewrite <- (demand_nil c). apply (explores_answer e [] n0 c _ Hc); [cbn [length]; rewrite demand_nil; lia|].
  apply (call_run Explore_Validate (Explore_SendReply ourKey e) (fun _ _ _ => true) (fun _ _ => eq_refl) (fun _ _ w => w) (CNotFound from)); [apply Hc|done].
Qed.
Lemma explore_expire e n0 c :
  ctx_ok n0 c -> ids (rest c) <= n0 + 2 ^ 64 ->
  exists c', on_explores c (fun x hb => settle (Expire Explore_Validate (Explore_SendReply ourKey e) (Now e) x (Ok hb))) = Ok c' /\ steps n0 0 c c'.
Proof.
  intros Hc Hb. rewrite <- (demand_nil c). apply (explores_answer e [] n0 c _ Hc); [cbn [length]; rewrite demand_nil; lia|].
  apply (call_run Explore_Validate (Explore_SendReply ourKey e) (fun _ _ _ => true) (fun _ _ => eq_refl) (fun _ _ w => w) (CExpire (Now e))); [apply Hc|done].
Qed.
Lemma routers_call e n0 c (k : call) :
  ctx_ok n0 c -> match k with CNew _ _ _ _ => False | _ => True end ->
  exists c', on_routers c (fun h b => settle (run_call (Router_Validate ours rank0 port0 BlockBogons e) (reply_router e) (fun _ _ w => w) k h (Ok b))) = Ok c' /\ steps n0 0 c c'.
Proof.
  intros Hc Hk. apply on_routers_steps; [done|]. destruct (call_run _ (reply_router e) _ (router_validate e) (fun _ _ w => w) k (pendingRouterLookups c) (Ok (rest c)) (routers_ok _ _ Hc) Hk) as (h1 & w1 & Er & Ha1).
  destruct (answer_advance (reply_router e) (valid_router e) (call_values k) n0 _ (pendingRouterLookups c) (rest c) (quiet_router e) (routers_numbered _ _ Hc)
    (ex_intro _ h1 (ex_intro _ w1 (conj Er Ha1)))) as (h' & b' & E & Ha & Han).
  exists h', b'. split; [exact E|]. split; [done|]. eapply tracked_answers; [apply Hc|apply Hc|exact Han].
Qed.
Lemma introsets_call e n0 c (k : call) :
  ctx_ok n0 c -> match k with CNew _ _ _ _ => False | _ => True end ->
  exists c', on_introsets c (fun h b => settle (run_call (Service_Validate e) (Service_SendReply e) (fun _ _ w => w) k h (Ok b))) = Ok c' /\ steps n0 0 c c'.
Proof.
  intros Hc Hk. apply on_introsets_steps; [done|]. destruct (call_run _ (Service_SendReply e) _ (service_validate e) (fun _ _ w => w) k (pendingIntrosetLookups c) (Ok (rest c)) (introsets_ok _ _ Hc) Hk) as (h1 & w1 & Er & Ha1).
  destruct (answer_advance (Service_SendReply e) (valid_introset e) (call_values k) n0 _ (pendingIntrosetLookups c) (rest c) (quiet_service e) (introsets_numbered _ _ Hc)
    (ex_intro _ h1 (ex_intro _ w1 (conj Er Ha1)))) as (h' & b' & E & Ha & _).
  by exists h', b'.
Qed.
Lemma new_service_steps e peer asked key j timeout n0 c :
  ctx_ok n0 c -> ids (rest c) + 1 <= n0 + 2 ^ 64 ->
  exists c', new_service e peer asked key j timeout c = Ok c' /\ steps n0 1 c c'.
Proof.
  intros Hc Hb. apply on_introsets_steps; [done|]. unfold NextID. cbv beta zeta.
  destruct (new_advance (Service_Start e) (Now e) peer (MkTX (key peer (u64 (ids (rest c) + 1))) asked [] (key peer (u64 (ids (rest c) + 1))) j) timeout n0
    (pendingIntrosetLookups c) (rest c)) as (h' & b' & E & Ha & _); [apply start_service|apply Hc|apply Hc|apply Hc|done|]. exists h', b'. by split.
Qed.
Lemma router_for_path_steps e target id path peer n0 c :
  ctx_ok n0 c -> ids (rest c) + 1 <= n0 + 2 ^ 64 ->
  exists c', LookupRouterForPath ourKey e target id path peer c = Ok c' /\ steps n0 1 c c'.
Proof.
  intros Hc Hb. apply on_routers_steps; [done|]. unfold NextID. cbv beta zeta.
  destruct (new_router_advance e peer (MkTX target [ourKey] [] (Owner ourKey id) (LocalRouterLookup path)) requestTimeoutMS n0 (pendingRouterLookups c) (rest c))
    as (h' & b' & E & Ha & _); [apply Hc|apply Hc|apply Hc|done|]. exists h', b'. split; [exact E|]. split; [apply Ha|]. by eapply radvance_tracked; [apply Hc|].
Qed.
Lemma relayed_steps e from id target rec n0 c :
  ctx_ok n0 c -> ids (rest c) + 1 <= n0 + 2 ^ 64 ->
  exists replies c', LookupRouterRelayed ourKey ours e from id target rec c = Ok (replies, c') /\ steps n0 1 c c'.
Proof.
  intros Hc Hb. unfold LookupRouterRelayed. pose proof (steps_weaken _ _ 1 _ _ (steps_refl n0 c Hc) ltac:(lia)) as Hr.
  assert (forall next, exists (replies : list body) c', rbind (on_routers c (LookupRouterRecursive ourKey e target from id next None)) (fun c => Ok ([], c)) = Ok (replies, c') /\ steps n0 1 c c') as Hrec.
  { intros next. destruct (on_routers_steps n0 1 c (LookupRouterRecursive ourKey e target from id next None) Hc) as (c' & -> & Hs);
      [destruct (recursive_advance e target from id next None n0 (pendingRouterLookups c) (rest c)) as (h' & b' & E & Ha & _); [apply Hc|apply Hc|apply Hc|done|]|].
    { exists h', b'. split; [exact E|]. split; [apply Ha|]. by eapply radvance_tracked; [apply Hc|]. }
    by exists [], c'. }
  repeat case_match; try apply Hrec; by do 2 eexists.
Qed.

(** *** The sets that are stored *)
Lemma put_service i now n0 c :
  ctx_ok n0 c -> length (EncryptedIntroSet.derivedSigningKey i) = length ourKey -> EncryptedIntroSet.Verify now i = Ok true ->
  let c' := c <| rest ::= fun b => b <| _services ::= Bucket.PutNode ourKey i |> |> in
  ctx_ok n0 c' /\ ids (rest c') = ids (rest c) /\ services_of c' = Bucket.PutNode ourKey i (services_of c).
Proof.
  intros Hc Hl Hv c'. split; [|done]. pose proof Hc as []. destruct (BucketSpec.run_step ourKey (services_of c) (BucketSpec.OPut i) stored_ok0 Hl) as [Hb Ha].
  cbn [BucketSpec.run BucketSpec.arun] in *. split; try done. change (services_of c') with (Bucket.PutNode ourKey i (services_of c)). rewrite Ha. intros k s. rewrite lookup_partial_alter. case_decide as Hk.
  - unfold BucketSpec.newest. intros [= <-]. destruct (abs (services_of c) !! ISNode_ID i) as [w|] eqn:E; [case_match; [by exists now|by eapply stored_verified0]|by exists now].
  - apply stored_verified0.
Qed.
(** The state of the sets after a message. *)
Definition stores e (m : body) c c' : Prop :=
  services_of c' = services_of c \/
  exists p, m = MPublishIntro p /\ EncryptedIntroSet.Verify (Now e) (PublishIntroMessage.introset p) = Ok true /\
    services_of c' = Bucket.PutNode ourKey (PublishIntroMessage.introset p) (services_of c).
Definition message_ok (m : body) : Prop :=
  match m with MPublishIntro p => length (EncryptedIntroSet.derivedSigningKey (PublishIntroMessage.introset p)) = length ourKey | _ => True end.
(** How many numbers handling a message may use. *)
Definition demand c (m : body) : Z := match m with MGotRouter g => explore_demand c (length (nearKeys g)) | _ => 1 end.

Lemma rest_quiet n0 c b : ctx_ok n0 c -> quiet (rest c) b -> steps n0 0 c (c <| rest := b |>).
Proof.
  intros Hc (Es & Ei & Hs). split_and!; cbn; [|done|lia|lia|done]. destruct Hc. split; cbn; rewrite ?Es, ?Ei; try done. by eapply tracked_settled.
Qed.
Lemma all_verified_total e l : exists ok, all_verified e l = Ok ok.
Proof.
  induction l as [|i l [ok IH]]; cbn [all_verified]; [by eexists|]. destruct (EncryptedIntroSetSpec.Verify_total (Now e) i) as [[] ->]; cbn [rbind]; [rewrite IH|]; by eexists.
Qed.
Definition handled (n0 k : Z) e (m : body) (r : res (bool * list body * Context)) c : Prop :=
  exists ok replies c', r = Ok (ok, replies, c') /\ ctx_ok n0 c' /\ ids (rest c) <= ids (rest c') <= ids (rest c) + k /\ stores e m c c' /\ settled (rest c) (rest c').
Lemma handled_quietly n0 k e m r c : (exists c', r = Ok c' /\ steps n0 k c c') -> handled n0 k e m (quietly r) c.
Proof. intros (c' & -> & Hc & Es & Hi & Hs). exists true, [], c'. split_and!; [done|done|lia|lia|by left|done]. Qed.
Lemma handled_same n0 k e m ok replies c : ctx_ok n0 c -> 0 <= k -> handled n0 k e m (Ok (ok, replies, c)) c.
Proof. intros Hc Hk. exists ok, replies, c. split_and!; [done|done|lia|lia|by left|done]. Qed.
Lemma handled_pathset n0 k e m path c : ctx_ok n0 c -> 0 <= k -> handled n0 k e m (for_pathset e path m c) c.
Proof.
  intros Hc Hk. unfold for_pathset. case_match; [|by apply handled_same]. destruct (rest_quiet n0 c (emit (PathSetGot path m) (rest c)) Hc) as (Hc' & Es & Hi & Hs); [by apply quiet_emit|].
  do 3 eexists. split; [done|]. split_and!; [exact Hc'|cbn; lia|cbn; lia|by left|exact Hs].
Qed.
Lemma store_contacts_handled e gossip l n0 k m c : ctx_ok n0 c -> 0 <= k -> handled n0 k e m (store_contacts ourKey ours rank0 port0 BlockBogons e gossip l c) c.
Proof.
  revert c. induction l as [|rc l IH]; intros c Hc Hk; cbn [store_contacts]; [by apply handled_same|].
  destruct (quiet_check e rc (rest c)) as (ok & b & -> & Hq). cbn [rbind]. destruct (rest_quiet n0 c b Hc Hq) as (Hc1 & Es1 & Hi1 & Hs1).
  destruct ok; cbn [negb]; [|do 3 eexists; split; [done|]; split_and!; [done|cbn in *; lia|cbn in *; lia|by left|done]].
  set (c2 := if gossip then _ else _). assert (steps n0 0 c c2) as (Hc2 & Es2 & Hi2 & Hs2).
  { destruct gossip; [|exact (conj Hc1 (conj Es1 (conj Hi1 Hs1)))]. apply (rest_quiet n0 c (emit (Gossiped rc) b) Hc). etransitivity; [exact Hq|]. by apply quiet_emit. }
  destruct (IH c2 Hc2 Hk) as (ok & r & c' & -> & Hc' & Hi & Hst & Hs). do 3 eexists. split; [done|]. split_and!; [done|lia|lia| |by etransitivity].
  destruct Hst as [Hst|(p & -> & Hv & Hst)]; [left|right; exists p; split_and!; [done|done|]]; by rewrite Hst, Es2.
Qed.

Lemma find_intro_handled e from path m n0 c : ctx_ok n0 c -> ids (rest c) + 1 <= n0 + 2 ^ 64 ->
  handled n0 1 e (MFindIntro m) (FindIntro_HandleMessage ourKey e from path m c) c.
Proof.
  intros Hc Hb. unfold FindIntro_HandleMessage. repeat case_match; try (by apply handled_same; [|lia]).
  apply handled_quietly, new_service_steps; done.
Qed.
Lemma relayed_find_router_handled e path m n0 c : ctx_ok n0 c -> ids (rest c) + 1 <= n0 + 2 ^ 64 ->
  handled n0 1 e (MRelayedFindRouter m) (RelayedFindRouter_HandleMessage ourKey ours e path m c) c.
Proof.
  intros Hc Hb. unfold RelayedFindRouter_HandleMessage. repeat case_match; try (by apply handled_same; [|lia]).
  apply handled_quietly, router_for_path_steps; done.
Qed.
Lemma find_router_handled e transit from m n0 c : ctx_ok n0 c -> ids (rest c) + 1 <= n0 + 2 ^ 64 ->
  handled n0 1 e (MFindRouter m) (FindRouter_HandleMessage ourKey ours e transit from m c) c.
Proof.
  intros Hc Hb. unfold FindRouter_HandleMessage. repeat case_match; try (by apply handled_same; [|lia]).
  destruct (relayed_steps e from (FindRouterMessage.txid m) (FindRouterMessage.targetKey m) (negb (FindRouterMessage.iterative m)) n0 c Hc Hb) as (r & c' & -> & Hc' & Es & Hi & Hs).
  cbn [rbind]. do 3 eexists. split; [done|]. split_and!; [done|lia|lia|by left|done].
Qed.
Lemma got_intro_handled e from m n0 c : ctx_ok n0 c -> handled n0 0 e (MGotIntro m) (GotIntro_HandleMessage e from m c) c.
Proof.
  intros Hc. unfold GotIntro_HandleMessage. destruct (all_verified_total e (GotIntroMessage.found m)) as [ok ->]. cbn [rbind].
  case_match; [by apply handled_same|]. destruct (GetPendingLookupFrom _ _) as [t|]; [|by apply handled_same].
  destruct (GotIntroMessage.found m) as [|i l]; apply handled_quietly.
  - by apply (introsets_call e n0 c (CNotFound (Owner from (GotIntroMessage.txid m)))).
  - by apply (introsets_call e n0 c (CFound (Owner from (GotIntroMessage.txid m)) (target t) (i :: l))).
Qed.
Lemma got_router_handled e from path m n0 c : ctx_ok n0 c -> ids (rest c) + demand c (MGotRouter m) <= n0 + 2 ^ 64 ->
  handled n0 (demand c (MGotRouter m)) e (MGotRouter m) (GotRouter_HandleMessage ourKey ours rank0 port0 BlockBogons e from path m c) c.
Proof.
  intros Hc Hb. cbn [demand] in *. assert (0 <= explore_demand c (length (nearKeys m))) as Hk by (unfold explore_demand; lia).
  unfold GotRouter_HandleMessage. case_match; [by apply handled_pathset|]. case_match; [|case_match].
  - destruct (nearKeys m) as [|x l]; apply handled_quietly; [cbn [length] in *; rewrite demand_nil in *; apply explore_not_found; [done|lia]|by apply explore_found].
  - destruct (foundRCs m) as [|rc l]; [|case_match; [by apply handled_same|]]; apply handled_quietly.
    + destruct (routers_call e n0 c (CNotFound (Owner from (gr_txid m))) Hc I) as (c' & E & Hs). exists c'. split; [exact E|]. by eapply steps_weaken.
    + destruct (routers_call e n0 c (CFound (Owner from (gr_txid m)) (RouterContact.pubkey rc) (rc :: l)) Hc I) as (c' & E & Hs). exists c'. split; [exact E|]. by eapply steps_weaken.
  - by apply store_contacts_handled.
Qed.
Lemma publish_handled e from path m n0 c : ctx_ok n0 c -> message_ok (MPublishIntro m) -> ids (rest c) + 1 <= n0 + 2 ^ 64 ->
  handled n0 1 e (MPublishIntro m) (PublishIntro_HandleMessage ourKey e from path m c) c.
Proof.
  intros Hc Hm Hb. cbn [message_ok] in Hm. unfold PublishIntro_HandleMessage. destruct (EncryptedIntroSetSpec.Verify_total (Now e) (PublishIntroMessage.introset m)) as [ok Ev].
  rewrite Ev. cbn [rbind]. destruct ok; cbn [negb]; [|by apply handled_same; [|lia]]. case_match; [by apply handled_same; [|lia]|].
  destruct (put_service _ (Now e) n0 c Hc Hm Ev) as (Hc' & Hi & Es).
  assert (forall r, handled n0 1 e (MPublishIntro m) (Ok (true, r, c <| rest ::= fun b => b <| _services ::= Bucket.PutNode ourKey (PublishIntroMessage.introset m) |> |>)) c) as Hput.
  { intros r. do 3 eexists. split; [done|]. split_and!; [done|cbn; lia|cbn; lia|right; by exists m|split; auto]. }
  destruct (Nat.eqb_spec (length (NodeDB.FindManyClosestTo (EncryptedIntroSet.derivedSigningKey (PublishIntroMessage.introset m)) IntroSetStorageRedundancy (nodedb (rest c)))) IntroSetStorageRedundancy) as [El|];
    cbn [negb]; [|by apply handled_same; [|lia]].
  destruct (PublishIntroMessage.relayed m) eqn:Er.
  - destruct (Z.leb_spec (Z.of_nat IntroSetStorageRedundancy) (PublishIntroMessage.relayOrder m)); [by apply handled_same; [|lia]|].
    destruct (lookup_lt_is_Some_2 (NodeDB.FindManyClosestTo (EncryptedIntroSet.derivedSigningKey (PublishIntroMessage.introset m)) IntroSetStorageRedundancy (nodedb (rest c)))
      (Z.to_nat (PublishIntroMessage.relayOrder m))) as [rc ->]; [rewrite El; unfold IntroSetStorageRedundancy, IntroSetRelayRedundancy, IntroSetRequestsPerRelay in *; lia|].
    unfold propagate_if_not_us. case_bool_decide; [apply Hput|]. rewrite Er. apply handled_quietly, new_service_steps; done.
  - case_match; [apply Hput|by apply handled_same; [|lia]].
Qed.
Lemma find_name_handled e path m n0 c : ctx_ok n0 c -> handled n0 1 e (MFindName m) (FindName_HandleMessage e path m c) c.
Proof. intros Hc. unfold FindName_HandleMessage. case_match; by apply handled_same; [|lia]. Qed.

Lemma handled_weaken n0 k k' e m r c : handled n0 k e m r c -> k <= k' -> handled n0 k' e m r c.
Proof. intros (ok & rs & c' & E & Hc & Hi & Hs & Ht) Hk. exists ok, rs, c'. split_and!; [done|done|lia|lia|done|done]. Qed.
Lemma message_handled e transit m n0 c :
  ctx_ok n0 c -> message_ok (msg m) -> ids (rest c) + demand c (msg m) <= n0 + 2 ^ 64 ->
  handled n0 (demand c (msg m)) e (msg m) (HandleMessage ourKey ours rank0 port0 BlockBogons e transit m c) c.
Proof.
  intros Hc Hm Hb. unfold HandleMessage. destruct (msg m) as [x|x|x|x|x|x|x|x|x]; cbn [demand] in *.
  - by apply find_name_handled.
  - apply handled_pathset; [done|lia].
  - by apply find_intro_handled.
  - by apply find_router_handled.
  - by apply relayed_find_router_handled.
  - by apply got_router_handled.
  - by apply publish_handled.
  - apply (handled_weaken _ 0); [by apply got_intro_handled|lia].
  - apply handled_pathset; [done|lia].
Qed.

(** ** Runs of the context *)
Inductive input :=
  | Message e (transit : bool) (m : IMessage)
  | PathRequest e (transit : bool) (path : PathID_t) (m : IMessage)
  | Cleaner e
  | Request e (router : RouterID) (callback : option Z) (force : bool)
  | ExploreVia e (peer : Key_t)
  | FindIntroSet e (addr asked_by : Key_t) (id : Z) (peer : Key_t) (order : Z) (handler : option Z).
Definition run_input (i : input) c : res Context :=
  match i with
  | Message e transit m => let* (_, _, c) := HandleMessage ourKey ours rank0 port0 BlockBogons e transit m c in Ok c
  | PathRequest e transit path m => let* (_, c) := RelayRequestForPath ourKey ours rank0 port0 BlockBogons e transit path m c in Ok c
  | Cleaner e => handle_cleaner_timer ourKey ours rank0 port0 BlockBogons e c
  | Request e router callback force => GetRC ourKey e router callback force c
  | ExploreVia e peer => ExploreNetworkVia e peer c
  | FindIntroSet e addr who id peer order handler => LookupIntroSetRelayed ourKey e addr who id peer order handler c
  end.
Definition input_ok (i : input) : Prop := match i with Message _ _ m | PathRequest _ _ _ m => message_ok (msg m) | _ => True end.
Definition input_demand c (i : input) : Z := match i with Message _ _ m | PathRequest _ _ _ m => demand c (msg m) | _ => 1 end.
(** The sets after an input. *)
Definition input_stores c (i : input) c' : Prop :=
  match i with
  | Message e _ m | PathRequest e _ _ m => stores e (msg m) c c'
  | Cleaner e => services_of c' = filter (fun n => EncryptedIntroSet.IsExpired (Now e) n.2 = false) (services_of c)
  | _ => services_of c' = services_of c
  end.

Lemma Forall_sub {A} (Q P : A -> Prop) `{forall x, Decision (P x)} (l : list A) : Forall Q l -> Forall Q (filter P l).
Proof. rewrite !Forall_forall. intros Hl x [_ Hx]%list_elem_of_filter. by apply Hl. Qed.
Lemma filter_abs {Val} {N : Node Val} (P : Key_t * Val -> Prop) `{forall x, Decision (P x)} (nodes : list (Key_t * Val)) :
  BucketSpec.bucket_ok ourKey nodes ->
  BucketSpec.bucket_ok ourKey (filter P nodes) /\ forall k v, abs (filter P nodes) !! k = Some v <-> abs nodes !! k = Some v /\ P (k, v).
Proof.
  intros [Hm Hid]. pose proof (BucketSpec.map_ok_nodup ourKey nodes Hm) as Hnd.
  assert (NoDup (fst <$> filter P nodes)) as Hnd' by (eapply sublist_NoDup; [exact Hnd|apply fmap_sublist, sublist_filter]).
  assert (forall k v, abs (filter P nodes) !! k = Some v <-> abs nodes !! k = Some v /\ P (k, v)) as Ha.
  { intros k v. unfold abs. rewrite <- !elem_of_list_to_map by done. rewrite list_elem_of_filter. naive_solver. }
  split; [|done]. split; [|intros k v [Hk _]%Ha; by apply Hid]. destruct Hm as [Hs Hf]. split; [|by apply Forall_sub].
  clear -Hs. induction Hs as [|x l Hl IH Hx]; [constructor|]. destruct (decide (P x)); [rewrite filter_cons_True by done|by rewrite filter_cons_False].
  constructor; [done|]. by apply Forall_sub.
Qed.
(** When no lookup of a router has time left, no request waits any more. *)
Lemma expired_routers e n0 c c1 r :
  ctx_ok n0 c -> on_routers c (fun h b => settle (Expire (Router_Validate ours rank0 port0 BlockBogons e) (reply_router e) (Now e) h (Ok b))) = Ok c1 ->
  isServiceNode (lookups (rest c)) = true -> (forall k at_, timeouts (pendingRouterLookups c) !! k = Some at_ -> at_ <= Now e) ->
  pendingCallbacks (lookups (rest c1)) !! r = None.
Proof.
  intros Hc E Hk Hto. destruct (routers_call e n0 c (CExpire (Now e)) Hc I) as (c1' & E1 & Hc1 & _ & _ & Hs). cbn [run_call] in E1. rewrite E in E1. injection E1 as <-.
  destruct (expire_all _ (reply_router e) _ (router_validate e) (Now e) (pendingRouterLookups c) (Ok (rest c)) (routers_ok _ _ Hc) Hto) as (h' & w' & Ex & _ & _ & Hempty).
  unfold on_routers in E. rewrite Ex in E. unfold settle in E. cbn [rbind] in E. destruct w' as [b'| | |]; cbn [rbind] in E; try done. injection E as <-. cbn in *.
  destruct (pendingCallbacks (lookups b') !! r) as [l|] eqn:El; [|done]. exfalso.
  destruct (requests_tracked _ _ Hc1 ltac:(cbn; by rewrite (settled_kind _ _ Hs)) r) as (o & t & Ho & _); [cbn; by rewrite El|]. cbn in Ho. by rewrite Hempty, lookup_empty in Ho.
Qed.
Lemma cleaner_steps e n0 c : ctx_ok n0 c -> ids (rest c) <= n0 + 2 ^ 64 ->
  exists c', handle_cleaner_timer ourKey ours rank0 port0 BlockBogons e c = Ok c' /\ ctx_ok n0 c' /\ ids (rest c) <= ids (rest c') <= ids (rest c) /\ input_stores c (Cleaner e) c' /\ requests (rest c') ≡ₚ requests (rest c) /\
    isServiceNode (lookups (rest c')) = isServiceNode (lookups (rest c)) /\
    (isServiceNode (lookups (rest c)) = true -> (forall k at_, timeouts (pendingRouterLookups c) !! k = Some at_ -> at_ <= Now e) ->
     forall r, pendingCallbacks (lookups (rest c')) !! r = None).
Proof.
  intros Hc Hb. unfold handle_cleaner_timer, CleanupTX.
  destruct (routers_call e n0 c (CExpire (Now e)) Hc I) as (c1 & E1 & H1). cbn [run_call] in E1. rewrite E1. cbn [rbind]. pose proof H1 as (Hc1 & _ & ?).
  destruct (introsets_call e n0 c1 (CExpire (Now e)) Hc1 I) as (c2 & E2 & H2). cbn [run_call] in E2. rewrite E2. cbn [rbind]. pose proof H2 as (Hc2 & _ & ?).
  destruct (explore_expire e n0 c2 Hc2) as (c3 & -> & H3); [lia|]. cbn [rbind]. destruct H1 as (_ & S1 & _ & T1), H2 as (_ & S2 & _ & T2), H3 as (Hc3 & S3 & ? & T3).
  eexists. split; [done|]. split_and!; [|cbn; lia|cbn; lia|cbn; by rewrite S3, S2, S1| | |].
  3: { etransitivity; [apply (settled_kind _ _ T3)|]. etransitivity; [apply (settled_kind _ _ T2)|apply (settled_kind _ _ T1)]. }
  3: { intros Hk Hto r. assert (pendingCallbacks (lookups (rest c1)) !! r = None) as Hn1 by exact (expired_routers e n0 c c1 r Hc E1 Hk Hto).
       assert (pendingCallbacks (lookups (rest c2)) !! r = None) as Hn2 by (destruct (settled_pending _ _ T2 r); congruence).
       cbn. destruct (settled_pending _ _ T3 r); congruence. }
  2: { etransitivity; [|apply (settled_requests _ _ T1)]. etransitivity; [|apply (settled_requests _ _ T2)]. exact (settled_requests _ _ T3). }
  pose proof Hc3 as []. destruct (filter_abs (fun n => EncryptedIntroSet.IsExpired (Now e) n.2 = false) (services_of c3) stored_ok0) as [Hok Habs].
  split; try done. intros k s Hk. apply Habs in Hk as [Hk _]. by eapply stored_verified0.
Qed.
Lemma ctx_ok_routers n0 c h b :
  ctx_ok n0 c -> holder_ok h -> numbered n0 (ids b) h -> _services b = services_of c -> ids (rest c) <= ids b -> tracked b h ->
  ctx_ok n0 (c <| pendingRouterLookups := h |> <| rest := b |>).
Proof. intros Hc Hh Hn Es Hi Ht. destruct Hc. split; cbn; rewrite ?Es; try done; try (eapply numbered_weaken; [done|lia]). lia. Qed.
Definition wanted (router : RouterID) (callback : option Z) : list (RouterID * Z) := match callback with Some k => [(router, k)] | None => [] end.
Lemma waiting_calls_insert m r l : waiting_calls (<[r := from_option id [] (m !! r) ++ l]> m) ≡ₚ waiting_calls m ++ ((fun k => (r, k)) <$> l).
Proof.
  rewrite (waiting_calls_delete (<[r := _]> m) r _ (lookup_insert_eq _ _ _)), delete_insert_eq. rewrite fmap_app. destruct (m !! r) as [l0|] eqn:E; cbn.
  - rewrite (waiting_calls_delete m r l0 E), <- !app_assoc. f_equiv. apply Permutation_app_comm.
  - rewrite delete_id by done. apply Permutation_app_comm.
Qed.
(** The queue of a router with a new callback. *)
Definition queued (router : RouterID) (callback : option Z) b : base :=
  b <| lookups ::= fun h => h <| pendingCallbacks ::= <[router := from_option id [] (pendingCallbacks (lookups b) !! router) ++ match callback with Some k => [k] | None => [] end]> |> |>.
Lemma queued_requests router callback b : requests (queued router callback b) ≡ₚ requests b ++ wanted router callback.
Proof. unfold requests, queued. cbn. rewrite waiting_calls_insert, app_assoc. by destruct callback. Qed.
Lemma queued_lookup_ne router callback b r : r <> router -> pendingCallbacks (lookups (queued router callback b)) !! r = pendingCallbacks (lookups b) !! r.
Proof. intros Hne. unfold queued. cbn. by rewrite lookup_insert_ne. Qed.
(** Every request but those for [router] is tracked. *)
Lemma tracked_queued router callback b b' h h' :
  tracked b h -> settled (queued router callback b) b' -> (forall o t, tx h !! o = Some t -> tx h' !! o = Some t) ->
  (is_Some (pendingCallbacks (lookups b') !! router) -> isServiceNode (lookups b') = true -> exists o t, tx h' !! o = Some t /\ job t = RecursiveRouterLookup (Some (LookupResult router))) ->
  tracked b' h'.
Proof.
  intros Ht [_ Hp Hk] Hs Hr Hsn r Hir. destruct (decide (r = router)) as [->|Hne]; [by apply Hr|].
  destruct (Hp r) as [E|E]; rewrite E in Hir; [by destruct Hir|]. rewrite queued_lookup_ne in Hir by done.
  destruct (Ht ltac:(rewrite <- Hsn, Hk; done) r Hir) as (o & t & Ho & Hj). eauto.
Qed.
Lemma request_known e router callback rc n0 c :
  ctx_ok n0 c ->
  let b := match callback with Some k => emit (Called k router (Some rc) Success) (rest c) | None => rest c end in
  let c' := c <| rest := FinalizeRequest router (Some rc) Success b |> in
  ctx_ok n0 c' /\ services_of c' = services_of c /\ ids (rest c) <= ids (rest c') <= ids (rest c) + 1 /\ requests (rest c') ≡ₚ requests (rest c) ++ wanted router callback /\
  isServiceNode (lookups (rest c')) = isServiceNode (lookups (rest c)).
Proof.
  intros Hc b c'. assert (ctx_ok n0 (c <| rest := b |>)) as Hb by (destruct Hc; by destruct callback; split).
  destruct (rest_quiet n0 (c <| rest := b |>) (FinalizeRequest router (Some rc) Success b) Hb (quiet_finalize _ _ _ _)) as (Hc' & Es & Hi & Hs).
  split_and!; [exact Hc'|etransitivity; [exact Es|by destruct callback]|unfold b in *; destruct callback; cbn in *; lia..| |etransitivity; [exact (settled_kind _ _ Hs)|by destruct callback]].
  etransitivity; [exact (settled_requests _ _ Hs)|]. cbn. unfold b, requests, wanted. destruct callback as [k|]; [|by rewrite app_nil_r]. cbn. unfold called. rewrite omap_app. cbn.
  rewrite <- !app_assoc. f_equiv. apply Permutation_app_comm.
Qed.
Lemma request_lookup e router callback n0 c : ctx_ok n0 c -> ids (rest c) + 1 <= n0 + 2 ^ 64 ->
  exists c',
    (let* (ok, h, b) := LookupRouter ourKey e router (LookupResult router) (pendingRouterLookups c) (queued router callback (rest c)) in
     let b := if ok : bool then b <| lookups ::= fun h => h <| _routerLookupTimes ::= <[router := steady_now e]> |> |>
              else FinalizeRequest router None RouterNotFound b in
     Ok (c <| pendingRouterLookups := pendingRouterLookups c |> <| rest := queued router callback (rest c) |> <| pendingRouterLookups := h |> <| rest := b |>)) = Ok c' /\
    ctx_ok n0 c' /\ services_of c' = services_of c /\
    ids (rest c) <= ids (rest c') <= ids (rest c) + 1 /\ requests (rest c') ≡ₚ requests (rest c) ++ wanted router callback /\
    isServiceNode (lookups (rest c')) = isServiceNode (lookups (rest c)).
Proof.
  intros Hc Hb. set (b1 := queued router callback (rest c)). assert (requests b1 ≡ₚ requests (rest c) ++ wanted router callback) as Hreq by apply queued_requests.
  destruct (lookup_advance e router (LookupResult router) n0 (pendingRouterLookups c) b1) as (ok & h & b & -> & [(Hh & Hn & Es & Hi & Hs) Hkeep] & Ho); [apply Hc..|done|].
  cbn [rbind]. set (b' := if ok then _ else _).
  assert (settled b b' /\ _services b' = _services b /\ ids b' = ids b) as (Hs' & Es' & Ei').
  { unfold b'. destruct ok; [split_and!; [split; auto|done|done]|]. destruct (quiet_finalize router None RouterNotFound b) as (? & ? & ?); done. }
  assert (ctx_ok n0 (c <| pendingRouterLookups := h |> <| rest := b' |>)) as Hok.
  { apply ctx_ok_routers; try done; [by rewrite Ei'|by rewrite Es', Es|rewrite Ei'; cbn in Hi; lia|].
    eapply (tracked_queued router callback); [apply Hc|etransitivity; [exact Hs|exact Hs']|done|]. unfold b'. destruct ok; [by intros _ _; apply Ho|].
    rewrite (proj2 (finalize_spec router None RouterNotFound b)), lookup_delete_eq. by intros []. }
  eexists. split; [done|]. cbn in Hi. split_and!; [exact Hok|cbn; by rewrite Es', Es|cbn; rewrite Ei'; lia|cbn; rewrite Ei'; lia| |].
  2: { etransitivity; [apply (settled_kind _ _ Hs')|]. etransitivity; [apply (settled_kind _ _ Hs)|]. done. }
  rewrite <- Hreq. etransitivity; [apply (settled_requests _ _ Hs')|apply (settled_requests _ _ Hs)].
Qed.
Lemma request_steps e router callback force n0 c : ctx_ok n0 c -> ids (rest c) + 1 <= n0 + 2 ^ 64 ->
  exists c', GetRC ourKey e router callback force c = Ok c' /\ ctx_ok n0 c' /\ services_of c' = services_of c /\
    ids (rest c) <= ids (rest c') <= ids (rest c) + 1 /\ requests (rest c') ≡ₚ requests (rest c) ++ wanted router callback /\
    isServiceNode (lookups (rest c')) = isServiceNode (lookups (rest c)).
Proof.
  intros Hc Hb. unfold GetRC. destruct (if force then None else _) as [rc|]; [eexists; split; [done|by apply request_known]|].
  set (c1 := c <| rest ::= _ |>). set (b1 := queued router callback (rest c)). assert (rest c1 = b1) as E1 by done.
  assert (pendingRouterLookups c1 = pendingRouterLookups c) as E2 by done. rewrite E1, E2.
  assert (c1 = c <| pendingRouterLookups := pendingRouterLookups c |> <| rest := b1 |>) as E0 by done. clearbody c1. subst c1. assert (requests b1 ≡ₚ requests (rest c) ++ wanted router callback) as Hreq by apply queued_requests.
  destruct (pendingCallbacks (lookups (rest c)) !! router) as [l|] eqn:El.
  { eexists. split; [done|]. split_and!; [|done|cbn; lia|cbn; lia|done|done]. apply (ctx_ok_routers n0 c (pendingRouterLookups c) b1); try apply Hc; [done|cbn; lia|].
    eapply (tracked_queued router callback); [apply Hc|reflexivity|done|]. intros _ Hk. by apply (requests_tracked _ _ Hc Hk). }
  destruct (isServiceNode (lookups b1)) eqn:Ek; cbn [negb andb].
  2: destruct (anon_lookup e router).
  2: { eexists. split; [done|]. split_and!; [|done|cbn; lia|cbn; lia| |done].
       - apply (ctx_ok_routers n0 c (pendingRouterLookups c) (emit (LookupAnon router) b1)); try apply Hc; [done|cbn; lia|]. intros Hk. cbn in *. congruence.
       - rewrite <- Hreq. apply (settled_requests b1). by apply quiet_emit. }
  all: by apply request_lookup.
Qed.
Lemma explore_via_steps e peer n0 c : ctx_ok n0 c -> ids (rest c) + 1 <= n0 + 2 ^ 64 ->
  exists c', ExploreNetworkVia e peer c = Ok c' /\ steps n0 1 c c'.
Proof.
  intros Hc Hb. unfold ExploreNetworkVia. apply on_explores_steps; [done|]. unfold NextID. cbv beta zeta. pose proof Hc as [].
  destruct (new_numbered (Explore_Start e) (fun _ w => w) (Now e) peer (MkTX peer [] [] owner0 ExploreNetworkJob) requestTimeoutMS n0 (ids (rest c)) (pendingExploreLookups c)
    (Ok (pendingRouterLookups c, (rest c) <| ids := ids (rest c) + 1 |>))) as (x' & w' & E & Hx & Hn & Htx & Hw); [done..|].
  cbn [target] in E. rewrite E. unfold settle. cbn [rbind]. assert (exists b', w' = Ok (pendingRouterLookups c, b') /\ quiet ((rest c) <| ids := ids (rest c) + 1 |>) b') as (b' & -> & Es & Ei & Hs).
  { destruct Hw as [-> | ->]; eexists; (split; [done|]); [done|by apply quiet_emit]. }
  cbn [rbind]. assert (settled (rest c) b') as Hs' by (etransitivity; [|exact Hs]; split; auto).
  cbn in Es, Ei. exists x', (pendingRouterLookups c), b'. split; [done|]. rewrite Ei. split_and!; [|by eapply tracked_settled|done|done|].
  - split_and!; [done| |done|lia|lia|done]. rewrite Ei. eapply numbered_weaken; [done|lia].
  - intros o t. rewrite Htx. intros [[_ <-]|[_ Ho]]%lookup_insert_Some; [done|by eauto].
Qed.
Definition input_requests (i : input) : list (RouterID * Z) := match i with Request _ r k _ => wanted r k | _ => [] end.
Lemma steps_input n0 k c c' : steps n0 k c c' ->
  ctx_ok n0 c' /\ ids (rest c) <= ids (rest c') /\ services_of c' = services_of c /\ requests (rest c') ≡ₚ requests (rest c) ++ [] /\
  isServiceNode (lookups (rest c')) = isServiceNode (lookups (rest c)).
Proof. intros (Hc & Es & Hi & Hs). split_and!; [done|lia|done| |by apply settled_kind]. rewrite app_nil_r. by apply settled_requests. Qed.
Lemma input_steps i n0 c :
  ctx_ok n0 c -> input_ok i -> ids (rest c) + input_demand c i <= n0 + 2 ^ 64 ->
  exists c', run_input i c = Ok c' /\ ctx_ok n0 c' /\ ids (rest c) <= ids (rest c') /\ input_stores c i c' /\
    requests (rest c') ≡ₚ requests (rest c) ++ input_requests i /\ isServiceNode (lookups (rest c')) = isServiceNode (lookups (rest c)).
Proof.
  intros Hc Hi Hb. destruct i as [e tr m|e tr path m|e|e r cb f|e peer|e addr who id peer order h]; cbn [run_input input_ok input_demand input_stores input_requests] in *.
  - destruct (message_handled e tr m n0 c Hc Hi Hb) as (ok & rs & c' & -> & Hc' & ? & Hs & Ht). exists c'. split_and!; [done|done|lia|done|rewrite app_nil_r; by apply settled_requests|by apply settled_kind].
  - destruct (message_handled e tr m n0 c Hc Hi Hb) as (ok & rs & c' & E & Hc' & ? & Hs & Ht). unfold RelayRequestForPath. rewrite E. cbn [rbind]. rewrite app_nil_r.
    destruct (rest_quiet n0 c' (emit (PathSent path rs) (rest c')) Hc' (quiet_emit (PathSent path rs) _ I)) as (He & Es & _ & Hse).
    assert (exists c'' : bool * Context, (if negb ok then Ok (false, c') else match rs with [] => Ok (true, c') | _ => if path_by_upstream e path then Ok (path_sends e path, c' <| rest ::= emit (PathSent path rs) |>) else Ok (false, c') end)
      = Ok c'' /\ (c''.2 = c' \/ c''.2 = c' <| rest := emit (PathSent path rs) (rest c') |>)) as ([ok' c''] & -> & Hcc).
    { destruct ok; cbn [negb]; [destruct rs; [|destruct (path_by_upstream e path)]|]; eexists; (split; [done|]); auto. }
    cbn [rbind snd] in *. exists c''. split; [done|]. destruct Hcc as [-> | ->]; split_and!; try done; [lia|by apply settled_requests|by apply settled_kind|cbn; lia| |].
    + etransitivity; [apply (settled_requests _ _ Hse)|by apply settled_requests].
    + etransitivity; [apply (settled_kind _ _ Hse)|by apply settled_kind].
  - destruct (cleaner_steps e n0 c Hc) as (c' & -> & Hc' & ? & Hs & Ht & Hk & _); [lia|]. exists c'. rewrite app_nil_r. split_and!; [done|done|lia|done|done|done].
  - destruct (request_steps e r cb f n0 c Hc Hb) as (c' & -> & Hc' & Hs & ? & Hr & Hk). exists c'. split_and!; [done|done|lia|done|done|done].
  - destruct (explore_via_steps e peer n0 c Hc Hb) as (c' & -> & Hs%steps_input). exists c'. split; [done|]. naive_solver.
  - destruct (new_service_steps e peer [ourKey] (fun _ _ => Owner who id) (ServiceAddressLookup addr h (u32 order)) requestTimeoutMS n0 c Hc Hb) as (c' & E & Hs%steps_input).
    exists c'. split; [exact E|]. naive_solver.
Qed.

(** The contexts reached from [c0] by inputs that are [allowed], while the numbers of
    transactions do not run out. *)
Inductive reaches (allowed : input -> Prop) (n0 : Z) c0 : Context -> Prop :=
  | reaches_refl : reaches allowed n0 c0 c0
  | reaches_step i c c' : reaches allowed n0 c0 c -> allowed i -> input_ok i -> ids (rest c) + input_demand c i <= n0 + 2 ^ 64 ->
      run_input i c = Ok c' -> reaches allowed n0 c0 c'.
Lemma reaches_ok allowed n0 c0 c : ctx_ok n0 c0 -> reaches allowed n0 c0 c -> ctx_ok n0 c.
Proof.
  intros H0 Hr. induction Hr as [|i c c' _ IH _ Hi Hb E]; [done|]. destruct (input_steps i n0 c IH Hi Hb) as (c1 & E1 & Hc1 & _). congruence.
Qed.
(** The context of a router that starts, with the state of the other components. *)
Definition Context0 (n : Z) (d : NodeDB.t) (h : RCLookupHandler) (p : Profiling.t) : Context :=
  MkContext (MkBase n [] [] d (h <| pendingCallbacks := ∅ |>) p []) holder0 holder0 holder0.
Lemma holder0_ok {K V J} `{Countable K} : holder_ok (holder0 (K := K) (V := V) (J := J)).
Proof. split; try done; [by intros ? ? ?%elem_of_nil|constructor|]. intros k. split; [by intros []|by intros [? ?%elem_of_nil]]. Qed.
Lemma context0_ok n d h p : ctx_ok n (Context0 n d h p).
Proof. split; try done; try apply holder0_ok; try lia; [split; [by split; constructor|apply map_Forall_empty]|]. intros _ r. cbn. by intros []. Qed.

(** C10. Whatever messages, requests and timers the context of a router gets, in whatever order, every
    handler returns and uses no lookup that it has ended itself or that is not there, every lookup in
    flight waits under its key with a timeout, and every introduction set stored was verified and is
    under its own key. What a message that is sent sets off in turn, as the lookup of a router that there
    is no session with, is a request of its own after the handler. *)
Theorem dht_safe n d h p c i :
  reaches (fun _ => True) n (Context0 n d h p) c -> input_ok i -> ids (rest c) + input_demand c i <= n + 2 ^ 64 ->
  exists c', run_input i c = Ok c' /\ ctx_ok n c'.
Proof.
  intros Hr Hi Hb. destruct (input_steps i n c (reaches_ok _ _ _ _ (context0_ok n d h p) Hr) Hi Hb) as (c' & E & Hc & _). by exists c'.
Qed.

(** ** What was published is served *)
(** A set under the key of [i] that is not older. *)
Definition served (i : EncryptedIntroSet) c : Prop :=
  exists s, abs (services_of c) !! EncryptedIntroSet.derivedSigningKey i = Some s /\ EncryptedIntroSet.signedAt i <= EncryptedIntroSet.signedAt s.
(** The timer of the cleaner does not run after [i] has expired. *)
Definition timely (i : EncryptedIntroSet) (x : input) : Prop :=
  match x with Cleaner e => EncryptedIntroSet.IsExpired (Now e) i = false | _ => True end.
Lemma served_put i j n0 c c' :
  ctx_ok n0 c -> length (EncryptedIntroSet.derivedSigningKey j) = length ourKey -> services_of c' = Bucket.PutNode ourKey j (services_of c) ->
  (i = j \/ served i c) -> served i c'.
Proof.
  intros Hc Hl Es Hi. destruct (BucketSpec.run_step ourKey (services_of c) (BucketSpec.OPut j) (stored_ok _ _ Hc) Hl) as [_ Ha].
  cbn [BucketSpec.run BucketSpec.arun] in Ha. unfold served. rewrite Es, Ha. cbn [ID ISNode]. unfold ISNode_ID.
  destruct (decide (EncryptedIntroSet.derivedSigningKey j = EncryptedIntroSet.derivedSigningKey i)) as [Ek|Hne].
  - rewrite <- Ek. rewrite lookup_partial_alter_eq. unfold BucketSpec.newest. eexists. split; [reflexivity|]. cbn [older ISNode]. unfold ISNode_older.
    destruct (abs (services_of c) !! _) as [w|] eqn:Ew.
    + destruct Hi as [-> |(s & Hs & Hle)]; [destruct (Z.ltb_spec (EncryptedIntroSet.signedAt w) (EncryptedIntroSet.signedAt j)); lia|].
      rewrite <- Ek in Hs. rewrite Ew in Hs. injection Hs as ->. destruct (Z.ltb_spec (EncryptedIntroSet.signedAt s) (EncryptedIntroSet.signedAt j)); lia.
    + destruct Hi as [-> |(s & Hs & Hle)]; [done|]. rewrite <- Ek in Hs. congruence.
  - rewrite lookup_partial_alter_ne by done. destruct Hi as [-> |Hs]; [done|]. exact Hs.
Qed.
Lemma served_step i x n0 c c' : ctx_ok n0 c -> input_ok x -> timely i x -> input_stores c x c' -> served i c -> served i c'.
Proof.
  intros Hc Hx Ht Hs Hi. assert (forall e m, message_ok m -> stores e m c c' -> served i c') as Hm.
  { intros e m Hm [Es|(p & -> & _ & Es)]; [unfold served; by rewrite Es|]. eapply served_put; [done|exact Hm|exact Es|by right]. }
  destruct x as [e tr m|e tr path m|e|e r cb f|e peer|e addr who id peer order h]; cbn [input_ok timely input_stores] in *; try (by eapply Hm); try (unfold served; by rewrite Hs).
  destruct Hi as (s & Ek & Hle). exists s. split; [|done]. rewrite Hs. apply filter_abs; [by eapply stored_ok|]. split; [done|]. cbn.
  unfold EncryptedIntroSet.IsExpired in *. apply Z.leb_gt. apply Z.leb_gt in Ht. lia.
Qed.
Lemma served_reaches i n0 c0 c : ctx_ok n0 c0 -> served i c0 -> reaches (timely i) n0 c0 c -> served i c.
Proof.
  intros H0 Hs Hr. induction Hr as [|x c c' Hr IH Ht Hx Hb E]; [done|]. pose proof (reaches_ok _ _ _ _ H0 Hr) as Hc.
  destruct (input_steps x n0 c Hc Hx Hb) as (c1 & E1 & _ & _ & Hst & _). rewrite E in E1. injection E1 as <-. by eapply served_step.
Qed.
(** A router that is among the nearest stores a valid set and says so. *)
Lemma publish_stores e from path p n0 c :
  ctx_ok n0 c -> message_ok (MPublishIntro p) -> PublishIntroMessage.relayed p = false ->
  EncryptedIntroSet.Verify (Now e) (PublishIntroMessage.introset p) = Ok true ->
  EncryptedIntroSet.IsExpired (Now e + EncryptedIntroSet.MAX_INTROSET_TIME_DELTA) (PublishIntroMessage.introset p) = false ->
  let near := NodeDB.FindManyClosestTo (EncryptedIntroSet.derivedSigningKey (PublishIntroMessage.introset p)) IntroSetStorageRedundancy (nodedb (rest c)) in
  length near = IntroSetStorageRedundancy -> ourKey ∈ RouterContact.pubkey <$> near ->
  exists c1, PublishIntro_HandleMessage ourKey e from path p c = Ok (true, [reply_introsets (PublishIntroMessage.txID p) [PublishIntroMessage.introset p]], c1) /\
    ctx_ok n0 c1 /\ ids (rest c1) = ids (rest c) /\ served (PublishIntroMessage.introset p) c1.
Proof.
  intros Hc Hm Hr Hv Hx near Hl Hin. eexists. split.
  - unfold PublishIntro_HandleMessage. rewrite Hv. cbn [rbind negb]. rewrite Hx. fold near. rewrite Hl, Nat.eqb_refl, Hr. cbn [negb].
    destruct (existsb _ near) eqn:E; [reflexivity|]. exfalso. apply list_elem_of_fmap in Hin as (rc & Hk & Hin). apply not_true_iff_false in E. apply E.
    apply existsb_exists. exists rc. split; [by apply list_elem_of_In|]. by apply bool_decide_eq_true_2.
  - destruct (put_service _ (Now e) n0 c Hc Hm Hv) as (Hc1 & Ei & Es). split_and!; [done|done|]. eapply served_put; [exact Hc|exact Hm|exact Es|by left].
Qed.

(** C14. Publication works: when a router that is among the four nearest to a set has stored it, then whatever else
    happens before it expires, a lookup of its key is answered with a verified set of that key that is not older. *)
Theorem published_is_served n0 e from path p c c1 c2 e' from' path' m :
  ctx_ok n0 c -> message_ok (MPublishIntro p) -> PublishIntroMessage.relayed p = false ->
  EncryptedIntroSet.Verify (Now e) (PublishIntroMessage.introset p) = Ok true ->
  EncryptedIntroSet.IsExpired (Now e + EncryptedIntroSet.MAX_INTROSET_TIME_DELTA) (PublishIntroMessage.introset p) = false ->
  let i := PublishIntroMessage.introset p in
  let near := NodeDB.FindManyClosestTo (EncryptedIntroSet.derivedSigningKey i) IntroSetStorageRedundancy (nodedb (rest c)) in
  length near = IntroSetStorageRedundancy -> ourKey ∈ RouterContact.pubkey <$> near ->
  PublishIntro_HandleMessage ourKey e from path p c = Ok (true, [reply_introsets (PublishIntroMessage.txID p) [i]], c1) ->
  reaches (timely i) n0 c1 c2 ->
  FindIntroMessage.relayed m = false -> Tag_Empty (FindIntroMessage.tagName m) = true ->
  FindIntroMessage.location m = EncryptedIntroSet.derivedSigningKey i -> is_zero (FindIntroMessage.location m) = false ->
  HasPendingLookupFrom (Owner from' (FindIntroMessage.txID m)) (pendingIntrosetLookups c2) = false ->
  exists s, FindIntro_HandleMessage ourKey e' from' path' m c2 = Ok (true, [reply_introsets (FindIntroMessage.txID m) [s]], c2) /\
    EncryptedIntroSet.derivedSigningKey s = EncryptedIntroSet.derivedSigningKey i /\
    EncryptedIntroSet.signedAt i <= EncryptedIntroSet.signedAt s /\ exists now, EncryptedIntroSet.Verify now s = Ok true.
Proof.
  intros Hc Hm Hr Hv Hx i near Hl Hin E Hre Hf Htag Hloc Hz Hpend. destruct (publish_stores e from path p n0 c Hc Hm Hr Hv Hx Hl Hin) as (c1' & E1 & Hc1 & _ & Hs).
  fold i in E1, Hs. rewrite E in E1. injection E1 as <-. apply (served_reaches i n0 c1 c2 Hc1) in Hs as (s & Hk & Hle); [|done]. pose proof (reaches_ok _ _ _ _ Hc1 Hre) as Hc2.
  exists s. split_and!; [|by apply (proj2 (stored_ok _ _ Hc2))|done|by eapply (stored_verified _ _ Hc2)].
  unfold FindIntro_HandleMessage. rewrite Hpend, Htag, Hz, Hf. cbn [negb]. unfold GetIntroSetByLocation. rewrite Hloc.
  rewrite (BucketSpec.metric_find ourKey); [|apply (stored_ok _ _ Hc2)|exact Hm]. by rewrite Hk.
Qed.

(** ** Every request is answered *)
(** The contexts reached by a sequence of inputs. *)
Inductive runs (n0 : Z) : list input -> Context -> Context -> Prop :=
  | runs_nil c : runs n0 [] c c
  | runs_cons i xs c c1 c2 : input_ok i -> ids (rest c) + input_demand c i <= n0 + 2 ^ 64 -> run_input i c = Ok c1 -> runs n0 xs c1 c2 -> runs n0 (i :: xs) c c2.
Lemma runs_requests n0 xs c c' : ctx_ok n0 c -> runs n0 xs c c' ->
  ctx_ok n0 c' /\ requests (rest c') ≡ₚ requests (rest c) ++ (xs ≫= input_requests) /\ isServiceNode (lookups (rest c')) = isServiceNode (lookups (rest c)).
Proof.
  intros Hc Hr. induction Hr as [c|i xs c c1 c2 Hi Hb E _ IH]; [split_and!; [done|by rewrite app_nil_r|done]|].
  destruct (input_steps i n0 c Hc Hi Hb) as (c1' & E1 & Hc1 & _ & _ & Hq & Hk). rewrite E in E1. injection E1 as <-. destruct (IH Hc1) as (Hc2 & Hq2 & Hk2).
  split_and!; [done| |congruence]. rewrite Hq2, Hq. cbn. by rewrite app_assoc.
Qed.
Lemma waiting_calls_empty m : (forall r, m !! r = None) -> waiting_calls m = [].
Proof. intros Hm. assert (m = ∅) as -> by (by apply map_eq; intros r; rewrite Hm). done. Qed.

(** C17. Requests for contacts on a service node: whatever happens, the requests answered and those waiting are the
    requests made, each once; and when no lookup in flight has time left, the next run of the cleaner answers the rest. *)
Theorem requests_answered n d h p xs c e :
  isServiceNode h = true -> runs n xs (Context0 n d h p) c -> ids (rest c) <= n + 2 ^ 64 ->
  (forall k at_, timeouts (pendingRouterLookups c) !! k = Some at_ -> at_ <= Now e) ->
  requests (rest c) ≡ₚ (xs ≫= input_requests) /\
  exists c', handle_cleaner_timer ourKey ours rank0 port0 BlockBogons e c = Ok c' /\ called (out (rest c')) ≡ₚ (xs ≫= input_requests).
Proof.
  intros Hs Hr Hb Hto. destruct (runs_requests n xs _ c (context0_ok n d h p) Hr) as (Hc & Hq & Hk).
  assert (requests (rest (Context0 n d h p)) = []) as E0 by done. rewrite E0 in Hq. cbn in Hq, Hk. split; [done|].
  destruct (cleaner_steps e n c Hc Hb) as (c' & E & Hc' & _ & _ & Hq' & _ & Hnone). exists c'. split; [done|]. rewrite <- Hq, <- Hq'. unfold requests.
  rewrite waiting_calls_empty; [by rewrite app_nil_r|]. apply Hnone; [congruence|done].
Qed.

(** ** Where the DHT falls short *)
(** The search for the newest contact of a lookup for a path compares the wrong way round: it ends with the
    empty contact it began with. *)
Lemma local_newest_empty values : Forall (fun rc => 0 <= RouterContact.last_updated rc) values -> local_newest ours values = RouterContact.default ours.
Proof.
  unfold local_newest. induction values as [|rc values IH]; [done|]. intros [Hrc Hl]%Forall_cons. cbn [foldl]. unfold RouterContact.OtherIsNewer at 2. cbn [RouterContact.last_updated RouterContact.default].
  rewrite (proj2 (Z.ltb_ge _ 0)) by done. by apply IH.
Qed.
(** A lookup of a router that was made for a path is answered without a router, whatever was found. *)
Theorem path_lookup_finds_nothing e (t : RouterTX) path b :
  job t = LocalRouterLookup path -> Forall (fun rc => 0 <= RouterContact.last_updated rc) (valuesFound t) ->
  Router_SendReply ourKey ours rank0 port0 BlockBogons e t (Ok b) = Ok (send_down e path (MGotRouter (GotRouter_results (txid (whoasked t)) [] true)) b).
Proof.
  intros Hj Hv. unfold Router_SendReply. cbn [rbind]. rewrite Hj. unfold LocalRouter_SendReply. apply local_newest_empty in Hv.
  destruct (valuesFound t); [done|]. by rewrite Hv.
Qed.
(** With four nodes or fewer, one of them the requester, an exploration is refused. *)
Theorem exploration_refused from id target c :
  length ourKey = 32%nat -> BucketSpec.bucket_ok ourKey (_nodes (rest c)) -> Forall (fun x => key_wf x.1) (_nodes (rest c)) -> key_wf target ->
  BucketSpec.opposite target ∉ fst <$> _nodes (rest c) ->
  (length (_nodes (rest c)) <= 4)%nat -> from ∈ fst <$> _nodes (rest c) ->
  HandleExploritoryRouterLookup ourKey from id target c = None.
Proof.
  intros Hk Hb Hw Ht Ho Hl Hf. unfold HandleExploritoryRouterLookup. case_match; [done|]. destruct (set_of_ok [ourKey; from]) as [Hs Hin].
  pose proof (BucketSpec.near_excluding ourKey (_nodes (rest c)) target (set_of [ourKey; from]) (length (_nodes (rest c))) Hk Hb Hw Ht Hs Ho) as Hn. cbv zeta in Hn.
  rewrite Nat.min_l by done. destruct (Bucket.GetManyNearExcluding _ _ _ _ _) as [ok r]. destruct Hn as [-> _].
  assert (length (BucketSpec.candidates (set_of [ourKey; from]) (fst <$> _nodes (rest c))) < length (_nodes (rest c)))%nat as Hc; [|by rewrite (proj2 (Nat.leb_gt _ _)) by exact Hc].
  rewrite <- (length_fmap fst (_nodes (rest c))). unfold BucketSpec.candidates. apply list_elem_of_split in Hf as (l1 & l2 & ->). rewrite filter_app, filter_cons_False.
  - rewrite !length_app. cbn [length]. pose proof (length_filter (fun k => set_count k (set_of [ourKey; from]) = false) l1). pose proof (length_filter (fun k => set_count k (set_of [ourKey; from]) = false) l2). lia.
  - rewrite set_count_spec by done. rewrite bool_decide_eq_true_2; [done|]. apply Hin. set_solver.
Qed.
(** Clients choose the number of a lookup, and lookups for paths are kept under it: while one is in flight, a
    lookup of another location from another client with the same number is not sent to anyone. *)
Theorem path_lookups_clash n0 e from path m c :
  ctx_ok n0 c -> ids (rest c) + 1 <= n0 + 2 ^ 64 ->
  waiting_for (Owner ourKey (FindIntroMessage.txID m)) (waiting (pendingIntrosetLookups c)) <> [] ->
  FindIntroMessage.relayed m = true -> HasPendingLookupFrom (Owner from (FindIntroMessage.txID m)) (pendingIntrosetLookups c) = false ->
  exists ok replies c', FindIntro_HandleMessage ourKey e from path m c = Ok (ok, replies, c') /\ out (rest c') = out (rest c).
Proof.
  intros Hc Hb Hw Hr Hp. unfold FindIntro_HandleMessage. rewrite Hp, Hr. repeat case_match; try by do 3 eexists.
  unfold LookupIntroSetForPath, new_service, on_introsets, NextID. cbv beta zeta.
  destruct (new_ok (fun _ w => w) (Service_Start e) (Now e) (Owner (RouterContact.pubkey t) (u64 (ids (rest c) + 1)))
    (MkTX (Owner ourKey (FindIntroMessage.txID m)) [ourKey] [] (Owner ourKey (FindIntroMessage.txID m)) (LocalServiceAddressLookup (FindIntroMessage.location m) (u32 0) path))
    requestTimeoutMS (pendingIntrosetLookups c) (Ok ((rest c) <| ids := ids (rest c) + 1 |>))) as (h' & w' & E & _ & _ & _ & _ & ->); [apply Hc|by eapply numbered_fresh; [apply Hc|]|].
  cbn [target] in E. rewrite E. rewrite bool_decide_eq_false_2 by done. cbn. by do 3 eexists.
Qed.
End spec.

(** * Concrete runs *)
Section runs.
#[local] Existing Instances oxenc_swap_ref pton_dec ntop_dec bt_none crypto_xor keypairs_xor.
Definition net_ref : list Z := NetID.of_bytes [108; 111].
Definition signed_rc (c at_ : Z) : RouterContact :=
  match RouterContact.Sign 0 0 (replicate 64 c) at_ contact_ref with Ok (_, rc) => rc | _ => contact_ref end.
Definition signed_introset (c at_ : Z) : EncryptedIntroSet :=
  match EncryptedIntroSet.Sign (replicate 64 c) at_ EncryptedIntroSet.empty with Ok (_, i) => i | _ => EncryptedIntroSet.empty end.
Definition env_ref (now : Z) : Env := MkEnv now now (rc_ref (Fill 1) 1) (fun _ => true) (fun _ => true) (fun _ _ => None) (fun _ => Fill 8) (fun _ => false) true [].
Definition lookup_ref : RCLookupHandler := MkLookup ∅ [] ∅ false true ∅ ∅ ∅ ∅.
Definition four_contacts : NodeDB.t :=
  NodeDB.Put 0 (rc_ref (Fill 1) 1) (NodeDB.Put 0 (rc_ref (Fill 2) 1) (NodeDB.Put 0 (rc_ref (Fill 3) 1) (NodeDB.Put 0 (rc_ref (Fill 4) 1) (NodeDB.Mk ∅ true 0)))).
Definition context_ref : Context := Context0 0 four_contacts lookup_ref Profiling.Profiling.
Definition publish_ref : PublishIntroMessage.t := PublishIntroMessage.make (signed_introset 3 1000) 5 false 0.

Lemma dht_safe_witness : exists c', run_input (Fill 1) net_ref 0 0 true (Message (env_ref 2000) true (IMsg (Fill 2) (zeros 16) (MPublishIntro publish_ref))) context_ref = Ok c'.
Proof.
  destruct (dht_safe (Fill 1) net_ref 0 0 true 0 four_contacts lookup_ref Profiling.Profiling context_ref
    (Message (env_ref 2000) true (IMsg (Fill 2) (zeros 16) (MPublishIntro publish_ref)))) as (c' & E & _).
  - constructor.
  - vm_compute. reflexivity.
  - vm_compute. congruence.
  - exists c'. exact E.
Defined.
Lemma published_is_served_witness : exists c1 s,
  PublishIntro_HandleMessage (Fill 1) (env_ref 2000) (Fill 2) (zeros 16) publish_ref context_ref = Ok (true, [reply_introsets 5 [signed_introset 3 1000]], c1) /\
  FindIntro_HandleMessage (Fill 1) (env_ref 3000) (Fill 7) (zeros 16) (FindIntroMessage.by_addr 9 (Fill 3) 0) c1 = Ok (true, [reply_introsets 9 [s]], c1) /\
  EncryptedIntroSet.signedAt (signed_introset 3 1000) <= EncryptedIntroSet.signedAt s.
Proof.
  set (c1 := match PublishIntro_HandleMessage (Fill 1) (env_ref 2000) (Fill 2) (zeros 16) publish_ref context_ref with Ok (_, _, c) => c | _ => context_ref end).
  assert (PublishIntro_HandleMessage (Fill 1) (env_ref 2000) (Fill 2) (zeros 16) publish_ref context_ref = Ok (true, [reply_introsets 5 [signed_introset 3 1000]], c1)) as E
    by (vm_compute; reflexivity).
  exists c1. destruct (published_is_served (Fill 1) net_ref 0 0 true 0 (env_ref 2000) (Fill 2) (zeros 16) publish_ref context_ref c1 c1 (env_ref 3000) (Fill 7) (zeros 16)
    (FindIntroMessage.by_addr 9 (Fill 3) 0)) as (s & H1 & _ & H2 & _).
  - apply context0_ok.
  - vm_compute. reflexivity.
  - reflexivity.
  - vm_compute. reflexivity.
  - vm_compute. reflexivity.
  - vm_compute. reflexivity.
  - apply (bool_decide_unpack _). vm_compute. exact I.
  - exact E.
  - constructor.
  - reflexivity.
  - reflexivity.
  - vm_compute. reflexivity.
  - reflexivity.
  - vm_compute. reflexivity.
  - exists s. exact (conj E (conj H1 H2)).
Defined.
Definition step_ref (i : input) (c : Context) : Context := match run_input (Fill 1) net_ref 0 0 true i c with Ok c => c | _ => c end.
(** A contact is gossiped, then a contact is requested. *)
Definition inputs_ref (r : Key_t) : list input :=
  [Message (env_ref 2000) true (IMsg (Fill 2) (zeros 16) (MGotRouter (GotRouter_gossip (signed_rc 9 1000)))); Request (env_ref 2000) r (Some 77) false].
Definition requested (r : Key_t) : Context := foldl (fun c i => step_ref i c) context_ref (inputs_ref r).
Lemma step_ref_ok i c : ctx_ok (Fill 1) 0 c -> input_ok (Fill 1) i -> ids (rest c) + input_demand c i <= 0 + 2 ^ 64 ->
  run_input (Fill 1) net_ref 0 0 true i c = Ok (step_ref i c) /\ ctx_ok (Fill 1) 0 (step_ref i c).
Proof. intros Hc Hi Hb. unfold step_ref. destruct (input_steps (Fill 1) net_ref 0 0 true i 0 c Hc Hi Hb) as (c' & -> & Hc' & _). done. Qed.
Lemma requests_answered_witness : exists c', handle_cleaner_timer (Fill 1) net_ref 0 0 true (env_ref 20000) (requested (Fill 6)) = Ok c' /\ called (out (rest c')) ≡ₚ [(Fill 6, 77)].
Proof.
  destruct (requests_answered (Fill 1) net_ref 0 0 true 0 four_contacts lookup_ref Profiling.Profiling (inputs_ref (Fill 6)) (requested (Fill 6)) (env_ref 20000)) as (_ & c' & E & H).
  - reflexivity.
  - unfold requested, inputs_ref. cbn [foldl]. fold context_ref.
    match goal with |- runs _ _ _ _ _ _ (?a :: _) _ _ => destruct (step_ref_ok a context_ref (context0_ok _ _ _ _ _) I) as [E1 H1]; [vm_compute; congruence|] end.
    eapply runs_cons; [exact I|vm_compute; congruence|exact E1|].
    match goal with |- runs _ _ _ _ _ _ (?a :: _) ?c _ => destruct (step_ref_ok a c H1 I) as [E2 H2]; [vm_compute; congruence|] end.
    eapply runs_cons; [exact I|vm_compute; congruence|exact E2|]. constructor.
  - vm_compute. congruence.
  - apply (bool_decide_unpack (map_Forall (fun _ at_ => at_ <= 20000) (timeouts (pendingRouterLookups (requested (Fill 6)))))). vm_compute. exact I.
  - exists c'. exact (conj E H).
Defined.

(** A router that is asked for the contact of another may add a newer contact of its own choice: the request is
    answered, with success, by that contact. *)
Theorem lookup_answers_other_router :
  let answer := MGotRouter (GotRouter_results 1 [signed_rc 11 1000; signed_rc 12 2000] false) in
  exists c, HandleMessage (Fill 1) net_ref 0 0 true (env_ref 3000) true (IMsg (Fill 9) (zeros 16) answer) (requested (Fill 11)) = Ok (true, [], c) /\
    last (out (rest c)) = Some (Called 77 (Fill 11) (Some (signed_rc 12 2000)) Success) /\ RouterContact.pubkey (signed_rc 12 2000) = Fill 12.
Proof.
  intros answer. set (r := HandleMessage (Fill 1) net_ref 0 0 true (env_ref 3000) true (IMsg (Fill 9) (zeros 16) answer) (requested (Fill 11))).
  assert (match r with Ok (ok, l, c) => (ok, l, last (out (rest c))) | _ => (false, [], None) end
          = (true, [], Some (Called 77 (Fill 11) (Some (signed_rc 12 2000)) Success))) as H by (vm_compute; reflexivity).
  destruct r as [[[ok l] c]| | |]; try discriminate H. injection H as -> -> Hl. exists c. split; [reflexivity|]. split; [exact Hl|]. vm_compute. reflexivity.
Qed.
Lemma path_lookup_finds_nothing_witness :
  Router_SendReply (Fill 1) net_ref 0 0 true (env_ref 3000) (MkTX (Fill 3) [] [signed_rc 3 1000] (Owner (Fill 1) 4) (LocalRouterLookup (zeros 16))) (Ok (rest context_ref))
  = Ok (send_down (env_ref 3000) (zeros 16) (MGotRouter (GotRouter_results 4 [] true)) (rest context_ref)).
Proof.
  apply (path_lookup_finds_nothing (Fill 1) net_ref 0 0 true (env_ref 3000) (MkTX (Fill 3) [] [signed_rc 3 1000] (Owner (Fill 1) 4) (LocalRouterLookup (zeros 16)))).
  - reflexivity.
  - apply Forall_cons. split; [vm_compute; congruence|constructor].
Defined.
End runs.
