(* ===== verification/TransitHop.v ===== *)
(** * Transit hops (llarp/path/transit_hop.cpp, ihophandler.hpp, path_context.cpp, llarp/messages/relay_commit.cpp, relay_status.cpp)

    What a router does for the paths of others: it takes a layer off the traffic that goes up a path
    and puts one on what comes down, joins paths when it is asked to, and answers at the end of a
    path. The objects of the hops are shared: the table of the router and the callbacks that wait
    hold them by pointer, the queues of the worker threads hold them weakly. *)

From S2P Require Import Prelude Buffer Bencode Codec CryptoApi Str NetInt IpRange DnsName DnsMessage Contact TrafficPolicy Service Frame Protocol Kademlia DhtMessage Routing LinkMessage Profiling.
Import EncryptedFrame.

(** ** Hops *)
Record TransitHopInfo := MkInfo { txID : PathID_t; rxID : PathID_t; upstream : RouterID; downstream : RouterID }.
#[export] Instance eta_info : Eta TransitHopInfo := fun i => MkInfo (txID i) (rxID i) (upstream i) (downstream i).
#[export] Instance info_eq_dec : EqDecision TransitHopInfo.
Proof. solve_decision. Defined.

Module TransitHop.
Record t := Mk { info : TransitHopInfo; pathKey : list Z; nonceXOR : list Z; started : Z; lifetime : Z; m_LastActivity : Z; destroy : bool; m_SequenceNum : Z }.
#[export] Instance eta_t : Eta t := fun h => Mk (info h) (pathKey h) (nonceXOR h) (started h) (lifetime h) (m_LastActivity h) (destroy h) (m_SequenceNum h).
Definition empty : t := Mk (MkInfo (zeros 16) (zeros 16) (zeros 32) (zeros 32)) (zeros 32) (zeros 32) 0 default_lifetime 0 false 0.
Definition ExpireTime (h : t) : Z := started h + lifetime h.
Definition Expired (now : Z) (h : t) : bool := destroy h || (ExpireTime h <=? now).
Definition ExpiresSoon (now dlt : Z) (h : t) : bool := ExpireTime h - dlt <=? now.
Definition IsEndpoint (us : RouterID) (h : t) : bool := bool_decide (upstream (info h) = us).
Definition NextSeqNo (h : t) : Z * t := (m_SequenceNum h, h <| m_SequenceNum := u64 (m_SequenceNum h + 1) |>).
End TransitHop.
#[export] Existing Instances TransitHop.eta_t Relay.eta_t LR_CommitMessage.eta_t LR_StatusMessage.eta_t.
Import TransitHop.

(** ** Layers *)
(** [IHopHandler::TrafficEvent_t] *)
Definition TrafficEvent_t := (list Z * TunnelNonce)%type.
Definition pad_size : nat := 128.
Section layers.
Context {CR : Crypto}.
(** The result of the cipher is not looked at. *)
Definition stream (x key nonce : list Z) : list Z := default x (xchacha20 x key nonce).
(** The bodies of [RunUpstream] and [RunDownstream]. *)
Definition peel (h : t) (ev : TrafficEvent_t) : Relay.t :=
  Relay.Mk (txID (info h)) (Encrypted.assign Relay.MAX_X [] (stream ev.1 (pathKey h) ev.2)) (key_xor ev.2 (nonceXOR h)) proto_version.
Definition wrap_down (h : t) (ev : TrafficEvent_t) : Relay.t :=
  Relay.Mk (rxID (info h)) (Encrypted.assign Relay.MAX_X [] (stream ev.1 (pathKey h) ev.2)) (key_xor ev.2 (nonceXOR h)) proto_version.
End layers.

(** ** What hops use of the rest of the router *)
Class DhtApi (D : Type) := {
  dht_HandleMessage : IMessage -> D -> res (bool * list body * D);
  dht_RelayRequestForPath : PathID_t -> IMessage -> D -> res (bool * D);
}.
(** Exits by number: [exit::Context] and [exit::Endpoint]. *)
Class ExitApi (X : Type) := {
  ObtainNewExit : list Z -> PathID_t -> bool -> X -> bool * X;
  FindEndpointForPath : PathID_t -> X -> option nat;
  exit_PubKey : nat -> X -> list Z;
  exit_Close : nat -> X -> X;
  exit_UpdateLocalPath : nat -> PathID_t -> X -> bool * X;
  exit_QueueOutboundTraffic : nat -> PathID_t -> list Z -> Z -> Z -> X -> bool * X;
}.
Inductive SendStatus := Success | Timeout | NoLink | InvalidRouter | RouterNotFound | Congestion.
#[export] Instance SendStatus_eq_dec : EqDecision SendStatus.
Proof. solve_decision. Defined.
(** The callbacks of messages: of [LR_StatusMessage::SendMessage] with the hop and the status of the
    message, of [SendLRCM] with the hop, of [PathBuilderKeysGenerated] with the path. *)
Inductive SendStatusHandler := no_handler | status_sent (hop : nat) (status : Z) | commit_forwarded (hop : nat) | build_sent (path : nat).
(** What the router is asked to do, in the order of the calls. *)
Inductive RouterCall :=
  | Queued (remote : RouterID) (m : ILinkMessage) (inform : SendStatusHandler)
  | Informed (inform : SendStatusHandler) (status : SendStatus)
  | PersistSessionUntil (remote : RouterID) (until : Z)
  | RemovePath (id : PathID_t)
  | NodeDbRemove (router : RouterID)
  | LatencyTestLater (path : nat)
  | LookupRC (router : RouterID).
Record Env := MkEnv { Now : Z; session_allowed : RouterID -> bool; PathToRouterAllowed : RouterID -> bool }.

(** ** The router as a relay *)
Record Node (D X : Type) := MkNode {
  pubkey : RouterID; identity : list Z; encryption : list Z; m_AllowTransit : bool; m_PathLimits : DecayingHashSet.t (list Z);
  m_Hops : gmap nat t; m_NextHop : nat; m_Held : list nat; m_TransitPaths : list (PathID_t * nat);
  m_UpstreamSubmit : list (nat * TrafficEvent_t); m_UpstreamGather : list (nat * Relay.t);
  m_DownstreamSubmit : list (nat * TrafficEvent_t); m_DownstreamGather : list (nat * Relay.t);
  m_Parser : InboundMessageParser; calls : list RouterCall; draws : nat; dht : D; exits : X }.
Arguments MkNode {D X}. Arguments pubkey {D X}. Arguments identity {D X}. Arguments encryption {D X}. Arguments m_AllowTransit {D X}. Arguments m_PathLimits {D X}.
Arguments m_Hops {D X}. Arguments m_NextHop {D X}. Arguments m_Held {D X}. Arguments m_TransitPaths {D X}. Arguments m_UpstreamSubmit {D X}. Arguments m_UpstreamGather {D X}.
Arguments m_DownstreamSubmit {D X}. Arguments m_DownstreamGather {D X}. Arguments m_Parser {D X}. Arguments calls {D X}. Arguments draws {D X}. Arguments dht {D X}. Arguments exits {D X}.
#[export] Instance eta_Node {D X} : Eta (Node D X) := fun n =>
  MkNode (pubkey n) (identity n) (encryption n) (m_AllowTransit n) (m_PathLimits n) (m_Hops n) (m_NextHop n) (m_Held n) (m_TransitPaths n)
    (m_UpstreamSubmit n) (m_UpstreamGather n) (m_DownstreamSubmit n) (m_DownstreamGather n) (m_Parser n) (calls n) (draws n) (dht n) (exits n).

(** [thread::Queue<T>::tryPushBack] with room for [cap] elements. *)
Definition tryPushBack {A} (cap : nat) (x : A) (q : list A) : bool * list A := if (cap <=? length q)%nat then (false, q) else (true, q ++ [x]).
Definition queue_length : nat := 128.
(** [map[key].emplace_back(x)], the keys in the order in which they came. *)
Fixpoint add_to {A} (k : nat) (x : A) (g : list (nat * list A)) : list (nat * list A) :=
  match g with
  | [] => [(k, [x])]
  | (k', l) :: g => if (k =? k')%nat then (k', l ++ [x]) :: g else (k', l) :: add_to k x g
  end.
Definition group {A} (l : list (nat * A)) : list (nat * list A) := foldl (fun g e => add_to e.1 e.2 g) [] l.
(** The answer to a message that moves an exit; no parser knows it. *)
Definition UpdateExitVerify_BEncode (T S_ : Z) : writer :=
  bencode_start_dict
  ⩓ BEncodeWriteDictMsgType [c_A] [c_V]
  ⩓ BEncodeWriteDictInt [c_S] S_
  ⩓ BEncodeWriteDictInt [c_T] T
  ⩓ BEncodeWriteDictInt [c_V] proto_version
  ⩓ bencode_end.

Section relay.
Context {IP : InetPton} {IN : InetNtop} {BT : OxencBt} {BD : OxencDict} {O : Oxenc} {CR : Crypto} {KP : KeyPairs} {SH : ShortHasher} {UN : Uninit} {RN : Random}.
Context {D X : Type} {DA : DhtApi D} {XA : ExitApi X}.
Context (ours : list Z) (rank0 port0 : Z).
Abbreviation node := (Node D X).
Implicit Types (n : node) (e : Env) (h : nat).

Definition call (c : RouterCall) n : node := n <| calls ::= fun l => l ++ [c] |>.
(** [Randomize] and [randbytes]: the next draw of [k] bytes. *)
Definition draw (k : nat) n : list Z * node := (randbytes (draws n) k, n <| draws ::= S |>).
Definition hop_at h n : res t := match m_Hops n !! h with Some hop => Ok hop | None => Oob end.
Definition set_hop h (f : t -> t) n : node := n <| m_Hops ::= alter f h |>.
Definition hold (cb : SendStatusHandler) n : node :=
  match cb with status_sent h _ | commit_forwarded h => n <| m_Held ::= cons h |> | _ => n end.
Fixpoint remove_one h (l : list nat) : list nat := match l with [] => [] | x :: l => if (x =? h)%nat then l else x :: remove_one h l end.
(** A hop that neither the table nor a callback holds is gone. *)
Definition release n : node := n <| m_Hops ::= filter (fun '(p, _) => p ∈ (m_TransitPaths n).*2 ++ m_Held n) |>.

(** [Router::SendToOrQueue], [OutboundMessageHandler::QueueMessage]: false when the message cannot be written. *)
Definition SendToOrQueue e (remote : RouterID) (m : ILinkMessage) (inform : SendStatusHandler) n : res (bool * node) :=
  if negb (session_allowed e remote) then Ok (true, hold inform (call (Informed inform InvalidRouter) n))
  else
    let* text := encode_into MAX_LINK_MSG_SIZE (link_BEncode ours rank0 port0 m) in
    Ok (match text with Some _ => (true, hold inform (call (Queued remote m inform) n)) | None => (false, n) end).

(** ** The table (path_context.cpp) *)
(** [MapGet] and [MapHas]: the first hop under the key that passes the check. *)
Fixpoint MapGet (check : t -> bool) (k : PathID_t) (hops : gmap nat t) (l : list (PathID_t * nat)) : option nat :=
  match l with
  | [] => None
  | (k', h) :: l =>
      if bool_decide (k' = k) && match hops !! h with Some hop => check hop | None => false end then Some h else MapGet check k hops l
  end.
Definition transit_get (check : t -> bool) (k : PathID_t) n : option nat := MapGet check k (m_Hops n) (m_TransitPaths n).
Definition HasTransitHop (i : TransitHopInfo) n : bool := bool_decide (is_Some (transit_get (fun hop => bool_decide (i = info hop)) (txID i) n)).
Definition TransitHopByInfo (i : TransitHopInfo) n : option nat := transit_get (fun hop => bool_decide (info hop = i)) (txID i) n.
Definition TransitHopByUpstream (up : RouterID) (id : PathID_t) n : option nat := transit_get (fun hop => bool_decide (upstream (info hop) = up)) id n.
Definition TransitHopPreviousIsRouter (path : PathID_t) (otherRouter : RouterID) n : bool :=
  match transit_get (fun _ => true) path n ≫= (m_Hops n !!.) with Some hop => bool_decide (downstream (info hop) = otherRouter) | None => false end.
Definition GetByDownstream (remote : RouterID) (id : PathID_t) n : option nat := transit_get (fun hop => bool_decide (downstream (info hop) = remote)) id n.
Definition GetPathForTransfer (id : PathID_t) n : option nat := transit_get (fun hop => bool_decide (upstream (info hop) = pubkey n)) id n.
Definition CurrentTransitPaths n : nat := Nat.div2 (length (m_TransitPaths n)).
Definition PutTransitHop h n : res node :=
  let* hop := hop_at h n in Ok (n <| m_TransitPaths ::= fun l => l ++ [(txID (info hop), h); (rxID (info hop), h)] |>).
Definition AllowTransit n : node := n <| m_AllowTransit := true |>.
(** Whether the address had been inserted before. *)
Definition CheckPathLimitHitByAddr (clock : Z) (ip : list Z) n : bool * node :=
  let (inserted, s) := DecayingHashSet.Insert clock ip 0 (m_PathLimits n) in (negb inserted, n <| m_PathLimits := s |>).
Definition HopIsUs (k : RouterID) n : bool := bool_decide (pubkey n = k).
Fixpoint expire_entries (now : Z) (hops : gmap nat t) (l : list (PathID_t * nat)) : res (list (PathID_t * nat) * list RouterCall) :=
  match l with
  | [] => Ok ([], [])
  | (k, h) :: l =>
      match hops !! h with
      | None => Oob
      | Some hop =>
          let* (kept, removed) := expire_entries now hops l in
          Ok (if Expired now hop then (kept, RemovePath k :: removed) else ((k, h) :: kept, removed))
      end
  end.
(** The first half of [ExpirePaths]. *)
Definition expire_transit (now : Z) n : res node :=
  let n := n <| m_PathLimits ::= DecayingHashSet.Decay now now |> in
  let* (kept, removed) := expire_entries now (m_Hops n) (m_TransitPaths n) in
  Ok (release (n <| m_TransitPaths := kept |> <| calls ::= fun l => l ++ removed |>)).

(** ** The worker threads *)
Definition HandleUpstream h (ev : TrafficEvent_t) n : bool * node := (true, n <| m_UpstreamSubmit ::= fun q => (tryPushBack queue_length (h, ev) q).2 |>).
Definition HandleDownstream h (ev : TrafficEvent_t) n : bool * node := (true, n <| m_DownstreamSubmit ::= fun q => (tryPushBack queue_length (h, ev) q).2 |>).
(** One turn of the loop; the hop is not checked to be there still. *)
Definition RunUpstream n : res node :=
  match m_UpstreamSubmit n with
  | [] => Ok n
  | (h, ev) :: q => let* hop := hop_at h n in Ok (n <| m_UpstreamSubmit := q |> <| m_UpstreamGather ::= fun q => (tryPushBack queue_length (h, peel hop ev) q).2 |>)
  end.
Definition RunDownstream n : res node :=
  match m_DownstreamSubmit n with
  | [] => Ok n
  | (h, ev) :: q => let* hop := hop_at h n in Ok (n <| m_DownstreamSubmit := q |> <| m_DownstreamGather ::= fun q => (tryPushBack queue_length (h, wrap_down hop ev) q).2 |>)
  end.

(** ** Messages at the end of a path *)
Definition SendRoutingMessage h (m : writer) n : res (bool * node) :=
  let* hop := hop_at h n in
  if negb (IsEndpoint (pubkey n) hop) then Ok (false, n)
  else
    let* (ok, b) := m (Buffer (zeros (MAX_LINK_MSG_SIZE - 128)) 0) in
    if negb ok then Ok (false, n)
    else
      let (N, n) := draw TUNNONCESIZE n in
      let dlt := (cur b `mod` pad_size)%nat in
      let* (sz, b, n) :=
        (if (dlt =? 0)%nat then Ok (cur b, b, n)
         else
           let (padding, n) := draw (pad_size - dlt) n in
           let* b := store padding b in Ok (cur b + (pad_size - dlt), b, n))%nat in
      Ok (HandleDownstream h (take sz (mem b), N) n).
(** The number of the next message of the hop. *)
Definition next_seqno h n : res (Z * node) := let* hop := hop_at h n in let (s, hop) := NextSeqNo hop in Ok (s, n <| m_Hops ::= <[h := hop]> |>).
Definition SendDiscard h (dst : PathID_t) (s : Z) n : res (bool * node) := SendRoutingMessage h (DataDiscardMessage.BEncode (DataDiscardMessage.make dst s)) n.

Definition HandlePathLatencyMessage h (m : PathLatencyMessage.t) n : res (bool * node) :=
  SendRoutingMessage h (PathLatencyMessage.BEncode (PathLatencyMessage.Mk 0 (PathLatencyMessage.T m) (PathLatencyMessage.S_ m) proto_version)) n.
Definition HandleObtainExitMessage h (m : ObtainExitMessage) n : res (bool * node) :=
  let* hop := hop_at h n in
  let* valid := Obtain_Verify m in
  let (obtained, x) := if valid : bool then ObtainNewExit (ob_I m) (rxID (info hop)) (negb (ob_E m =? 0)) (exits n) else (false, exits n) in
  let* (s, n) := next_seqno h (n <| exits := x |>) in
  let (y, n) := draw 16 n in
  if obtained then
    let* (ok, grant) := Grant_Sign y (identity n) (Grant_empty <| gr_S := s |> <| gr_T := ob_T m |>) in
    if ok : bool then SendRoutingMessage h (Grant_BEncode grant) n else Ok (false, n)
  else
    let* (ok, reject) := Reject_Sign y (identity n) (Reject_empty <| re_S := s |> <| re_T := ob_T m |>) in
    if ok : bool then SendRoutingMessage h (Reject_BEncode reject) n else Ok (false, n).
Definition HandleCloseExitMessage h (m : CloseExitMessage) n : res (bool * node) :=
  let* hop := hop_at h n in
  let discard n := SendDiscard h (rxID (info hop)) (cl_S m) n in
  match FindEndpointForPath (rxID (info hop)) (exits n) with
  | None => discard n
  | Some ep =>
      let* valid := Close_Verify (exit_PubKey ep (exits n)) m in
      if negb valid then discard n
      else
        let* (s, n) := next_seqno h n in
        let (y, n) := draw 16 n in
        let* (ok, reply) := Close_Sign y (identity n) (Close_empty <| cl_Y := cl_Y m |> <| cl_S := s |>) in
        if negb ok then discard n
        else
          let* (ok, n) := SendRoutingMessage h (Close_BEncode reply) n in
          if ok : bool then Ok (true, n <| exits ::= exit_Close ep |>) else discard n
  end.
Definition HandleUpdateExitMessage h (m : UpdateExitMessage) n : res (bool * node) :=
  let* hop := hop_at h n in
  let discard n := SendDiscard h (rxID (info hop)) (up_S m) n in
  match FindEndpointForPath (up_P m) (exits n) with
  | None => discard n
  | Some ep =>
      let* valid := Update_Verify (exit_PubKey ep (exits n)) m in
      if negb valid then Ok (false, n)
      else
        let (moved, x) := exit_UpdateLocalPath ep (rxID (info hop)) (exits n) in
        let n := n <| exits := x |> in
        if negb moved then discard n
        else let* (s, n) := next_seqno h n in SendRoutingMessage h (UpdateExitVerify_BEncode (up_T m) s) n
  end.
(** The packets of the exit at number [ep], each behind its counter; the short ones are skipped. *)
Fixpoint queue_packets (ep : nat) (path : PathID_t) (protocol : Z) (pkts : list (list Z)) (sent : bool) (x : X) : bool * X :=
  match pkts with
  | [] => (sent, x)
  | pkt :: pkts =>
      if (length pkt <=? 8)%nat then queue_packets ep path protocol pkts sent x
      else
        let (ok, x) := exit_QueueOutboundTraffic ep path (drop 8 pkt) (load_big_to_host 8 (take 8 pkt)) protocol x in
        queue_packets ep path protocol pkts (ok && sent) x
  end.
Definition HandleTransferTrafficMessage h (m : TransferTrafficMessage.t) n : res (bool * node) :=
  let* hop := hop_at h n in
  match FindEndpointForPath (rxID (info hop)) (exits n) with
  | Some ep =>
      let (sent, x) := queue_packets ep (rxID (info hop)) (TransferTrafficMessage.protocol m) (TransferTrafficMessage.X m) true (exits n) in
      Ok (sent, n <| exits := x |>)
  | None => SendDiscard h (rxID (info hop)) (TransferTrafficMessage.S_ m) n
  end.
(** The frame goes down the other path that ends here. *)
Definition HandlePathTransferMessage h (m : PathTransferMessage.t) n : res (bool * node) :=
  let* hop := hop_at h n in
  let discarded n := SendDiscard h (PathTransferMessage.P m) (PathTransferMessage.S_ m) n in
  match GetPathForTransfer (PathTransferMessage.P m) n with
  | None => discarded n
  | Some path =>
      if negb (bool_decide (ProtocolFrame.F (PathTransferMessage.T m) = txID (info hop))) then discarded n
      else
        let* (ok, n) := SendRoutingMessage path (ProtocolFrame.BEncode (PathTransferMessage.T m)) n in
        if ok : bool then Ok (true, n) else discarded n
  end.
Definition HandleDHTMessage h (m : IMessage) n : res (bool * node) :=
  let* hop := hop_at h n in
  let* (ok, d) := dht_RelayRequestForPath (rxID (info hop)) m (dht n) in Ok (ok, n <| dht := d |>).
(** [IMessage::HandleMessage] with the hop as the handler. *)
Definition HandleRoutingMessage h (from : list Z) (m : routing_message) n : res (bool * node) :=
  match m with
  | RLatency m => HandlePathLatencyMessage h m n
  | RDHT m => DHT_HandleMessage (HandleDHTMessage h) (pubkey n) from (dm_M m) n
  | RTransfer m => HandlePathTransferMessage h m n
  | RTraffic m => HandleTransferTrafficMessage h m n
  | RObtain m => HandleObtainExitMessage h m n
  | RUpdate m => HandleUpdateExitMessage h m n
  | RClose m => HandleCloseExitMessage h m n
  | RDiscard _ | RConfirm _ | RFrame _ | RGrant _ | RReject _ => Ok (false, n)
  end.
(** [Router::ParseRoutingMessageBuffer] *)
Definition ParseRoutingMessageBuffer h (buf : list Z) (rxid : PathID_t) n : res (bool * node) :=
  let* (ok, p, n) := ParseMessageBuffer ours rank0 port0 (HandleRoutingMessage h) (S (length buf)) buf rxid (m_Parser n) n in
  Ok (ok, n <| m_Parser := p |>).

Fixpoint HandleAllUpstream e h (msgs : list Relay.t) n : res node :=
  match msgs with
  | [] => Ok n
  | msg :: msgs =>
      let* hop := hop_at h n in
      if IsEndpoint (pubkey n) hop then
        let* (_, n) := ParseRoutingMessageBuffer h (Relay.X msg) (rxID (info hop)) n in
        HandleAllUpstream e h msgs (set_hop h (fun hop => hop <| m_LastActivity := Now e |>) n)
      else
        let* (_, n) := SendToOrQueue e (upstream (info hop)) (LUpstream msg) no_handler n in HandleAllUpstream e h msgs n
  end.
Fixpoint HandleAllDownstream e h (msgs : list Relay.t) n : res node :=
  match msgs with
  | [] => Ok n
  | msg :: msgs =>
      let* hop := hop_at h n in
      let* (_, n) := SendToOrQueue e (downstream (info hop)) (LDownstream msg) no_handler n in HandleAllDownstream e h msgs n
  end.
Fixpoint for_hops (f : nat -> list Relay.t -> node -> res node) (l : list (nat * list Relay.t)) n : res node :=
  match l with [] => Ok n | (h, msgs) :: l => let* n := f h msgs n in for_hops f l n end.
(** What is for hops that are gone is dropped. *)
Definition alive (hops : gmap nat t) (l : list (nat * Relay.t)) : list (nat * Relay.t) := filter (fun x => is_Some (hops !! x.1)) l.
Definition gather_upstream e n : res node := for_hops (HandleAllUpstream e) (group (alive (m_Hops n) (m_UpstreamGather n))) (n <| m_UpstreamGather := [] |>).
Definition gather_downstream e n : res node := for_hops (HandleAllDownstream e) (group (alive (m_Hops n) (m_DownstreamGather n))) (n <| m_DownstreamGather := [] |>).
Definition Gather e n : res node := let* n := gather_upstream e n in gather_downstream e n.

(** ** The status of a build (relay_status.cpp) *)
(** [Randomize] of a frame. *)
Definition randomize_frame (f : list Z) n : list Z * node := draw (length f) n.
Fixpoint SetDummyFrames (frames : list (list Z)) n : list (list Z) * node :=
  match frames with
  | [] => ([], n)
  | f :: frames => let (f, n) := randomize_frame f n in let (frames, n) := SetDummyFrames frames n in (f :: frames, n)
  end.
(** The frames move up by one, and the first one is made anew; it is lost when the array has no first one. *)
Definition AddFrame (key : list Z) (newStatus : Z) (m : LR_StatusMessage.t) n : res (bool * LR_StatusMessage.t * node) :=
  match LR_StatusMessage.frames m with
  | [] => Oob
  | f0 :: _ =>
      let shifted f := m <| LR_StatusMessage.frames := f :: take (max_len - 1) (LR_StatusMessage.frames m) |> in
      let (f, n) := randomize_frame f0 n in
      let* (ok, b) := LR_StatusRecord.BEncode (LR_StatusRecord.Mk newStatus proto_version) (Buffer f EncryptedFrameOverheadSize) in
      if negb ok then Ok (false, shifted (mem b), n)
      else
        let (nonce, n) := draw TUNNONCESIZE n in
        let (noise, n) := draw PUBKEYSIZE n in
        let* (ok, f) := DoEncrypt (Some (nonce, noise)) key (mem b) in Ok (ok, shifted f, n)
  end.
Definition SetSelfDestruct h n : node := set_hop h (fun hop => hop <| destroy := true |>) n.
(** The callback of a status message. *)
Definition status_result h (status : Z) (st : SendStatus) n : node :=
  if negb (Z.land status LR_StatusRecord.SUCCESS =? LR_StatusRecord.SUCCESS) || negb (bool_decide (st = Success)) then SetSelfDestruct h n else n.
Definition SendMessage e (nextHop : RouterID) (msg : LR_StatusMessage.t) h n : res node :=
  let* (ok, n) := SendToOrQueue e nextHop (LStatus msg) (status_sent h (LR_StatusMessage.status msg)) n in
  Ok (if ok : bool then n else status_result h (LR_StatusMessage.status msg) Congestion n).
(** What [AddFrame] returns is not looked at. *)
Definition CreateAndSend e h (pathid : PathID_t) (nextHop : RouterID) (key : list Z) (status : Z) n : res node :=
  let (frames, n) := SetDummyFrames empty_frames n in
  let* (_, msg, n) := AddFrame key status (LR_StatusMessage.Mk frames pathid status proto_version) n in
  SendMessage e nextHop msg h n.
Definition HandleLRSM e h (status : Z) (frames : list (list Z)) n : res (bool * node) :=
  let* hop := hop_at h n in
  let* (_, msg, n) := AddFrame (pathKey hop) LR_StatusRecord.SUCCESS (LR_StatusMessage.Mk frames (rxID (info hop)) status proto_version) n in
  let* n := SendMessage e (downstream (info hop)) msg h n in Ok (true, n).

(** ** Builds (relay_commit.cpp) *)
Definition failed_status (st : SendStatus) : option Z :=
  match st with
  | Success => None
  | Timeout => Some LR_StatusRecord.FAIL_TIMEOUT
  | NoLink => Some LR_StatusRecord.FAIL_CANNOT_CONNECT
  | InvalidRouter => Some LR_StatusRecord.FAIL_DEST_INVALID
  | RouterNotFound => Some LR_StatusRecord.FAIL_DEST_UNKNOWN
  | Congestion => Some LR_StatusRecord.FAIL_CONGESTION
  end.
Definition OnForwardLRCMResult e h (st : SendStatus) n : res node :=
  match failed_status st with
  | None => Ok n
  | Some status => let* hop := hop_at h n in CreateAndSend e h (rxID (info hop)) (downstream (info hop)) (pathKey hop) status n
  end.
(** The event loop runs a callback. *)
Definition run_handler e (cb : SendStatusHandler) (st : SendStatus) n : res node :=
  match cb with
  | status_sent h status => Ok (release (status_result h status st n <| m_Held ::= remove_one h |>))
  | commit_forwarded h => let* n := OnForwardLRCMResult e h st n in Ok (release (n <| m_Held ::= remove_one h |>))
  | no_handler | build_sent _ => Ok n
  end.
Definition ForwardLRCM e (nextHop : RouterID) (frames : list (list Z)) (handler : SendStatusHandler) n : res (bool * node) :=
  match handler with
  | no_handler => Ok (false, n)
  | _ => SendToOrQueue e nextHop (LCommit (LR_CommitMessage.empty <| LR_CommitMessage.frames := frames |>)) handler n
  end.
(** [hop] is the new object, which this job holds while it runs. *)
Definition new_hop (hop : t) n : nat * node := (m_NextHop n, n <| m_Hops ::= <[m_NextHop n := hop]> |> <| m_NextHop ::= S |>).
Definition SendLRCM e (fromAddr : option (list Z)) (frames : list (list Z)) (hop : t) n : res node :=
  let duplicate := HasTransitHop (info hop) n in
  let (h, n) := new_hop hop n in
  let up := upstream (info hop) in
  let down := downstream (info hop) in
  if duplicate then let* n := CreateAndSend e h (rxID (info hop)) down (pathKey hop) LR_StatusRecord.FAIL_DUPLICATE_HOP n in Ok (release n)
  else
    let (limited, n) := match fromAddr with Some ip => CheckPathLimitHitByAddr (Now e) ip n | None => (false, n) end in
    if limited then let* n := OnForwardLRCMResult e h Congestion n in Ok (release n)
    else if negb (PathToRouterAllowed e up) then let* n := OnForwardLRCMResult e h InvalidRouter n in Ok (release n)
    else
      let n := call (PersistSessionUntil up (ExpireTime hop + 10000)) (call (PersistSessionUntil down (ExpireTime hop + 10000)) n) in
      let* n := PutTransitHop h n in
      let* (_, n) := ForwardLRCM e up frames (commit_forwarded h) n in Ok n.
Definition SendPathConfirm e (hop : t) n : res node :=
  let duplicate := HasTransitHop (info hop) n in
  let (h, n) := new_hop hop n in
  let down := downstream (info hop) in
  let* n := (if duplicate then Ok n else PutTransitHop h (call (PersistSessionUntil down (ExpireTime hop + 10000)) n)) in
  let* n := CreateAndSend e h (rxID (info hop)) down (pathKey hop) (if duplicate then LR_StatusRecord.FAIL_DUPLICATE_HOP else LR_StatusRecord.SUCCESS) n in
  Ok (release n).
(** The hop of a record, when it is not refused. *)
Definition hop_of_record (now : Z) (down : RouterID) (sk : list Z) (r : LR_CommitRecord) : option t :=
  if is_zero (txid r) || is_zero (rxid r) then None
  else match dh_server (commkey r) sk (tunnelNonce r) with
       | None => None
       | Some key =>
           Some (Mk (MkInfo (txid r) (rxid r) (nextHop r) down) key (shorthash key) now
             (if (LinkMessage.lifetime r <? default_lifetime) && (10000 <? LinkMessage.lifetime r) then LinkMessage.lifetime r else default_lifetime) 0 false 0)
       end.
(** [frames[0]] is the decrypted one; the others move down by one. *)
Definition HandleDecrypted e (down : RouterID) (fromAddr : option (list Z)) (frame : list Z) (frames : list (list Z)) n : res node :=
  let* (ok, r, _) := CommitRecord_BDecode ours rank0 port0 (S (length frame)) CommitRecord_empty (Buffer frame EncryptedFrameOverheadSize) in
  if negb ok then Ok n
  else match hop_of_record (Now e) down (encryption n) r with
       | None => Ok n
       | Some hop =>
           match frames with
           | [] => Oob
           | f0 :: rest =>
               let (f7, n) := randomize_frame (make (if (length f0 <? EncryptedFrameOverheadSize)%nat then EncryptedFrameBodySize else length f0 - EncryptedFrameOverheadSize)%nat) n in
               if HopIsUs (nextHop r) n then SendPathConfirm e hop n else SendLRCM e fromAddr (rest ++ [f7]) hop n
           end
       end.
(** From the session of a router; [fromAddr] is the address of a session with a client. *)
Definition Commit_HandleMessage e (from : RouterID) (fromAddr : option (list Z)) (m : LR_CommitMessage.t) n : res (bool * node) :=
  if negb (length (LR_CommitMessage.frames m) =? max_len)%nat then Ok (false, n)
  else if negb (m_AllowTransit n) then Ok (false, n)
  else match LR_CommitMessage.frames m with
       | [] => Oob
       | f0 :: _ =>
           let* (ok, frame) := DecryptInPlace (encryption n) f0 in
           let* n := (if ok : bool then HandleDecrypted e from fromAddr frame (LR_CommitMessage.frames m) n else Ok n) in Ok (true, n)
       end.
(** ** Relayed traffic (relay.cpp): on a transit hop *)
Definition Upstream_HandleMessage (from : RouterID) (m : Relay.t) n : bool * node :=
  match GetByDownstream from (Relay.pathid m) n with Some h => (true, (HandleUpstream h (Relay.X m, Relay.Y m) n).2) | None => (true, n) end.
End relay.
