(* ===== verification/Path.v ===== *)
(** * Paths (llarp/path/path.cpp, path.hpp, path_context.cpp)

    A path that this router built: its hops with their keys, its state, and the handlers of what
    comes down it. The threads that put all the layers on what goes up and take them off what comes
    down are functions on queues. Who built a path hears of its fate through virtual functions and
    hooks, which are a class here. *)

From S2P Require Import Prelude Buffer Bencode Codec CryptoApi Str NetInt IpRange DnsName DnsMessage Contact TrafficPolicy Service Frame Protocol Kademlia DhtMessage Routing LinkMessage Profiling TransitHop.
Import EncryptedFrame.

Record PathHopConfig := MkHopConfig { hop_txID : PathID_t; hop_rxID : PathID_t; hop_rc : RouterContact.t; hop_commkey : list Z; shared : list Z; hop_nonceXOR : list Z;
  hop_upstream : RouterID; hop_nonce : TunnelNonce; hop_lifetime : Z }.
#[export] Instance eta_hop : Eta PathHopConfig := fun h =>
  MkHopConfig (hop_txID h) (hop_rxID h) (hop_rc h) (hop_commkey h) (shared h) (hop_nonceXOR h) (hop_upstream h) (hop_nonce h) (hop_lifetime h).
Definition hop_key (h : PathHopConfig) : RouterID := RouterContact.pubkey (hop_rc h).

Inductive PathStatus := ePathBuilding | ePathEstablished | ePathTimeout | ePathFailed | ePathIgnore | ePathExpired.
#[export] Instance PathStatus_eq_dec : EqDecision PathStatus.
Proof. solve_decision. Defined.
(** Roles are bits of an [int]. *)
Definition ePathRoleAny : Z := 0.
Definition ePathRoleOutboundHS : Z := Z.shiftl 1 0.
Definition ePathRoleInboundHS : Z := Z.shiftl 1 1.
Definition ePathRoleExit : Z := Z.shiftl 1 2.
Definition ePathRoleSVC : Z := Z.shiftl 1 3.
Definition ePathRoleDHT : Z := Z.shiftl 1 4.
Definition build_timeout : Z := 10000.
Definition latency_interval : Z := 5000.
Definition alive_timeout : Z := 10000.
Definition PathReanimationTimeout : Z := 45000.
Definition MaxLatencySamples : nat := 8.

Module Path.
(** The hooks are there or not; what they do is in [PathOwner]. *)
Record t := Mk {
  hops : list PathHopConfig; m_PathSet : nat; intro : Introduction.t; buildStarted : Z; m_LastRecvMessage : Z; m_LastLatencyTestTime : Z; m_LastLatencyTestID : Z;
  m_UpdateExitTX : Z; m_CloseExitTX : Z; m_ExitObtainTX : Z; _status : PathStatus; _role : Z; m_LastRXRate : Z; m_RXRate : Z; m_LastTXRate : Z; m_TXRate : Z;
  m_LatencySamples : list Z; m_UpstreamReplayFilter : DecayingHashSet.t TunnelNonce; m_DownstreamReplayFilter : DecayingHashSet.t TunnelNonce; m_SequenceNum : Z;
  m_BuiltHook : bool; m_DataHandler : bool; m_DropHandler : bool; m_ExitUpdated : bool; m_ExitClosed : bool; m_ExitTrafficHandler : bool; m_ObtainedExitHooks : nat }.
#[export] Instance eta_t : Eta t := fun p =>
  Mk (hops p) (m_PathSet p) (intro p) (buildStarted p) (m_LastRecvMessage p) (m_LastLatencyTestTime p) (m_LastLatencyTestID p) (m_UpdateExitTX p) (m_CloseExitTX p)
    (m_ExitObtainTX p) (_status p) (_role p) (m_LastRXRate p) (m_RXRate p) (m_LastTXRate p) (m_TXRate p) (m_LatencySamples p) (m_UpstreamReplayFilter p)
    (m_DownstreamReplayFilter p) (m_SequenceNum p) (m_BuiltHook p) (m_DataHandler p) (m_DropHandler p) (m_ExitUpdated p) (m_ExitClosed p) (m_ExitTrafficHandler p)
    (m_ObtainedExitHooks p).
Implicit Types p : t.
(** [hops[0]] and [hops[hops.size() - 1]] *)
Definition first_hop p : res PathHopConfig := match hops p with h :: _ => Ok h | [] => Oob end.
Definition last_hop p : res PathHopConfig := match last (hops p) with Some h => Ok h | None => Oob end.
Definition Endpoint p : res RouterID := let* h := last_hop p in Ok (hop_key h).
Definition TXID p : res PathID_t := let* h := first_hop p in Ok (hop_txID h).
Definition RXID p : res PathID_t := let* h := first_hop p in Ok (hop_rxID h).
Definition Upstream p : res RouterID := let* h := first_hop p in Ok (hop_key h).
Definition IsEndpoint (r : RouterID) (id : PathID_t) p : res bool := let* h := last_hop p in Ok (bool_decide (hop_key h = r) && bool_decide (hop_txID h = id)).
Definition ExpireTime p : res Z := let* h := first_hop p in Ok (buildStarted p + hop_lifetime h).
Definition ExpiresSoon (now dlt : Z) p : res bool := let* at_ := ExpireTime p in Ok (at_ - dlt <=? now).
Definition Expired (now : Z) p : res bool :=
  match _status p with
  | ePathFailed => Ok true
  | ePathBuilding => Ok false
  | ePathTimeout => Ok (m_LastRecvMessage p + PathReanimationTimeout <=? now)
  | ePathEstablished | ePathIgnore => let* at_ := ExpireTime p in Ok (at_ <=? now)
  | ePathExpired => Ok true
  end.
Definition IsReady (clock : Z) p : res bool :=
  let* expired := Expired clock p in
  Ok (if expired : bool then false else (0 <? Introduction.latency (intro p)) && bool_decide (_status p = ePathEstablished)).
Definition MarkActive (now : Z) p : t := p <| m_LastRecvMessage := Z.max now (m_LastRecvMessage p) |>.
Definition SupportsAllRoles (roles : Z) p : bool := Z.land (_role p) roles =? roles.
(** [(_role | roles) != 0] *)
Definition SupportsAnyRoles (roles : Z) p : bool := (roles =? ePathRoleAny) || negb (Z.lor (_role p) roles =? 0).
Definition ClearRoles (roles : Z) p : t := p <| _role ::= fun x => Z.land x (Z.lnot roles) |>.
Definition NextSeqNo p : Z * t := (m_SequenceNum p, p <| m_SequenceNum := u64 (m_SequenceNum p + 1) |>).
Definition DecayFilters (clock now : Z) p : t :=
  p <| m_UpstreamReplayFilter ::= DecayingHashSet.Decay clock now |> <| m_DownstreamReplayFilter ::= DecayingHashSet.Decay clock now |>.
(** [computeLatency]: the mean of the samples, divided as unsigned numbers. *)
Definition computeLatency (samps : list Z) : Z := match samps with [] => 0 | _ => to_signed 64 (u64 (foldl Z.add 0 samps) / Z.of_nat (length samps)) end.
(** [emplace_back], and [pop_front] while there are too many. *)
Definition add_sample (x : Z) (samps : list Z) : list Z := let l := samps ++ [x] in drop (length l - MaxLatencySamples) l.
Definition hop_keys p : list RouterID := hop_key <$> hops p.
(** The constructor, with the ids it drew: one pair for each router. *)
Fixpoint link_ids (hops : list PathHopConfig) : list PathHopConfig :=
  match hops with
  | h :: (h' :: _) as rest => h <| hop_txID := hop_rxID h' |> :: link_ids rest
  | _ => hops
  end.
Definition new_hop_config (rc : RouterContact.t) (ids : PathID_t * PathID_t) : PathHopConfig :=
  MkHopConfig ids.1 ids.2 rc (zeros SECKEYSIZE) (zeros 32) (zeros 32) (zeros 32) (zeros 32) default_lifetime.
Definition make (routers : list RouterContact.t) (ids : list (PathID_t * PathID_t)) (pathset : nat) (startingRoles now : Z) : res t :=
  let hops := link_ids (zip_with new_hop_config routers ids) in
  match last hops with
  | None => Oob
  | Some h =>
      Ok (Mk hops pathset (Introduction.Mk (hop_key h) (hop_txID h) 0 0 proto_version) now 0 0 0 0 0 0 ePathBuilding startingRoles 0 0 0 0 []
        (DecayingHashSet.Mk 1000 ∅) (DecayingHashSet.Mk 1000 ∅) 0 false false false false false false 0)
  end.
End Path.
#[export] Existing Instances Path.eta_t TransitHop.eta_t Introduction.eta_t.
Import Path.

(** ** Layers *)
Section layers.
Context {CR : Crypto}.
(** The loops of [UpstreamWork] and [DownstreamWork]. *)
Fixpoint add_layers (hops : list PathHopConfig) (x n : list Z) : list Z :=
  match hops with [] => x | h :: hops => add_layers hops (stream x (shared h) n) (key_xor n (hop_nonceXOR h)) end.
Fixpoint strip_layers (hops : list PathHopConfig) (x y : list Z) : list Z * list Z :=
  match hops with
  | [] => (x, y)
  | h :: hops => let y := key_xor y (hop_nonceXOR h) in strip_layers hops (stream x (shared h) y) y
  end.
End layers.

(** ** Sets of paths: what a set keeps (pathset.hpp, pathbuilder.hpp) *)
Record BuildStats := MkStats { attempts : Z; success : Z; fails : Z; timeouts : Z }.
#[export] Instance eta_stats : Eta BuildStats := fun s => MkStats (attempts s) (success s) (fails s) (timeouts s).
Module Builder.
Record t := Mk { numDesiredPaths : nat; m_BuildStats : BuildStats; m_Paths : list ((RouterID * PathID_t) * nat); m_PathCache : gmap RouterID nat;
  _run : bool; enckey : list Z; numHops : nat; lastBuild : Z; buildIntervalLimit : Z }.
#[export] Instance eta_t : Eta t := fun b =>
  Mk (numDesiredPaths b) (m_BuildStats b) (m_Paths b) (m_PathCache b) (_run b) (enckey b) (numHops b) (lastBuild b) (buildIntervalLimit b).
End Builder.
#[export] Existing Instance Builder.eta_t.

(** ** The router with its own paths *)
Record Router (D X P : Type) := MkRouter {
  node : Node D X; m_PathObjs : gmap nat Path.t; m_NextPath : nat; m_OurPaths : gmap PathID_t nat; m_PathSets : gmap nat Builder.t; profiling : Profiling.t;
  m_LimitedEdges : DecayingHashSet.t RouterID; up_submit : list (nat * TrafficEvent_t); up_gather : list (nat * Relay.t); down_submit : list (nat * TrafficEvent_t);
  down_gather : list (nat * Relay.t); owner : P }.
Arguments MkRouter {D X P}. Arguments node {D X P}. Arguments m_PathObjs {D X P}. Arguments m_NextPath {D X P}. Arguments m_OurPaths {D X P}. Arguments m_PathSets {D X P}.
Arguments profiling {D X P}. Arguments m_LimitedEdges {D X P}. Arguments up_submit {D X P}. Arguments up_gather {D X P}. Arguments down_submit {D X P}. Arguments down_gather {D X P}.
Arguments owner {D X P}.
#[export] Instance eta_Router {D X P} : Eta (Router D X P) := fun r =>
  MkRouter (node r) (m_PathObjs r) (m_NextPath r) (m_OurPaths r) (m_PathSets r) (profiling r) (m_LimitedEdges r) (up_submit r) (up_gather r) (down_submit r) (down_gather r) (owner r).
(** The virtual functions of the set of a path, and the hooks that were put on a path. *)
Class PathOwner (R : Type) := {
  HandlePathBuildTimeout : nat -> nat -> R -> res R;  (** the set, the path *)
  HandlePathDied : nat -> nat -> R -> res R;
  HandlePathBuildFailedAt : nat -> nat -> RouterID -> R -> res R;
  built_hook : nat -> R -> res R;
  data_handler : nat -> ProtocolFrame.t -> R -> res (bool * R);
  drop_handler : nat -> PathID_t -> Z -> R -> res (bool * R);
  exit_updated : nat -> R -> res (bool * R);
  exit_closed : nat -> R -> res (bool * R);
  exit_traffic : nat -> list Z -> Z -> Z -> R -> res (bool * R);
  obtained_exit : nat -> Z -> R -> res (bool * R);
}.

Section paths.
Context {IP : InetPton} {IN : InetNtop} {BT : OxencBt} {BD : OxencDict} {O : Oxenc} {CR : Crypto} {KP : KeyPairs} {SH : ShortHasher} {UN : Uninit} {RN : Random}.
Context {D X P : Type} {DA : DhtApi D} {XA : ExitApi X} {PO : PathOwner (Router D X P)}.
Context (ours : list Z) (rank0 port0 : Z).
Abbreviation router := (Router D X P).
Implicit Types (r : router) (e : Env) (p : nat).

Definition path_at p r : res t := match m_PathObjs r !! p with Some x => Ok x | None => Oob end.
Definition set_path p (f : t -> t) r : router := r <| m_PathObjs ::= alter f p |>.
Definition on_node {A} (f : Node D X -> A * Node D X) r : A * router := let (a, n) := f (node r) in (a, r <| node := n |>).
Definition call_router (c : RouterCall) r : router := r <| node ::= call c |>.
Definition path_draw (k : nat) r : list Z * router := on_node (draw k) r.
Definition send_to e (remote : RouterID) (m : ILinkMessage) (inform : SendStatusHandler) r : res (bool * router) :=
  let* (ok, n) := SendToOrQueue ours rank0 port0 e remote m inform (node r) in Ok (ok, r <| node := n |>).

(** ** States *)
(** [EnterState]; the set of the path is told of a build that timed out and of a path that died. *)
Definition EnterState p (st : PathStatus) (now : Z) r : res router :=
  let* x := path_at p r in
  let set r := set_path p (fun x => x <| _status := st |>) r in
  let tell (f : nat -> nat -> router -> res router) r := match m_PathSets r !! m_PathSet x with Some _ => f (m_PathSet x) p r | None => Ok r end in
  match st with
  | ePathFailed => Ok (set r)
  | ePathExpired => if bool_decide (_status x = ePathBuilding) then let* r := tell HandlePathBuildTimeout (set r) in Ok (set r) else Ok (set r)
  | ePathBuilding => Ok (set (set_path p (fun x => x <| buildStarted := now |>) r))
  | ePathTimeout => if bool_decide (_status x = ePathEstablished) then let* r := tell HandlePathDied (set r) in Ok (set r) else Ok (set r)
  | ePathEstablished | ePathIgnore => Ok (set r)
  end.

(** ** Traffic *)
Definition path_HandleUpstream e p (ev : TrafficEvent_t) r : res (bool * router) :=
  let* x := path_at p r in
  let (inserted, f) := DecayingHashSet.Insert (Now e) ev.2 0 (m_UpstreamReplayFilter x) in
  if negb inserted then Ok (false, r)
  else Ok (true, set_path p (fun x => x <| m_UpstreamReplayFilter := f |>) r <| up_submit ::= fun q => (tryPushBack queue_length (p, ev) q).2 |>).
Definition path_HandleDownstream e p (ev : TrafficEvent_t) r : res (bool * router) :=
  let* x := path_at p r in
  let (inserted, f) := DecayingHashSet.Insert (Now e) ev.2 0 (m_DownstreamReplayFilter x) in
  if negb inserted then Ok (false, r)
  else Ok (true, set_path p (fun x => x <| m_DownstreamReplayFilter := f |>) r <| down_submit ::= fun q => (tryPushBack queue_length (p, ev) q).2 |>).
(** One turn of each loop; what is for a path that is gone is dropped. *)
Definition UpstreamWork r : res router :=
  match up_submit r with
  | [] => Ok r
  | (p, ev) :: q =>
      let r := r <| up_submit := q |> in
      match m_PathObjs r !! p with
      | None => Ok r
      | Some x =>
          let* id := TXID x in
          let msg := Relay.Mk id (Encrypted.assign Relay.MAX_X [] (add_layers (hops x) ev.1 ev.2)) ev.2 proto_version in
          Ok (r <| up_gather ::= fun q => (tryPushBack queue_length (p, msg) q).2 |>)
      end
  end.
Definition DownstreamWork r : router :=
  match down_submit r with
  | [] => r
  | (p, ev) :: q =>
      let r := r <| down_submit := q |> in
      match m_PathObjs r !! p with
      | None => r
      | Some x =>
          let (b, y) := strip_layers (hops x) ev.1 ev.2 in
          let msg := Relay.Mk (zeros PATHIDSIZE) (Encrypted.assign Relay.MAX_X [] b) y proto_version in
          r <| down_gather ::= fun q => (tryPushBack queue_length (p, msg) q).2 |>
      end
  end.
(** [buf] and the version of a message that is sent up the path. *)
Definition path_SendRoutingMessage e p (version : Z) (m : writer) r : res (bool * router) :=
  if negb (version =? proto_version) then Ok (false, r)
  else
    let* (ok, b) := m (Buffer (zeros (MAX_LINK_MSG_SIZE / 2)) 0) in
    if negb ok then Ok (false, r)
    else
      let (N, r) := path_draw TUNNONCESIZE r in
      let* (sz, b, r) :=
        (if (cur b <? pad_size)%nat then
           let (padding, r) := path_draw (pad_size - cur b) r in
           let* b := store padding b in Ok (pad_size, b, r)
         else Ok (cur b, b, r))%nat in
      path_HandleUpstream e p (take sz (mem b), N) r.
Definition SendLatencyMessage e p r : res (bool * router) :=
  let* x := path_at p r in
  let T := randint (draws (node r)) in
  let (s, x) := NextSeqNo x in
  let r := set_path p (fun _ => x <| m_LastLatencyTestID := T |> <| m_LastLatencyTestTime := Now e |>) (r <| node ::= fun n => n <| draws ::= S |> |>) in
  path_SendRoutingMessage e p proto_version (PathLatencyMessage.BEncode (PathLatencyMessage.Mk T 0 s proto_version)) r.
(** What [Tick] asks the loop to do two seconds later. *)
Definition latency_test_again e p r : res router :=
  let* x := path_at p r in
  if m_LastLatencyTestID x =? 0 then Ok r else let* (_, r) := SendLatencyMessage e p r in Ok r.
Definition Tick e p r : res router :=
  let now := Now e in
  let* x := path_at p r in
  let* expired := Expired now x in
  if expired : bool then Ok r
  else
    let x := x <| m_LastRXRate := m_RXRate x |> <| m_LastTXRate := m_TXRate x |> <| m_RXRate := 0 |> <| m_TXRate := 0 |> in
    let r := set_path p (fun _ => x) r in
    let mark_fail r := r <| profiling ::= Profiling.MarkPathFail now (hop_keys x) |> in
    let late := bool_decide (_status x = ePathBuilding) && negb (buildStarted x =? 0) && (buildStarted x <=? now) && (build_timeout <=? now - buildStarted x) in
    if bool_decide (_status x = ePathBuilding) && (buildStarted x =? 0) then Ok r
    else if late then EnterState p ePathExpired now (mark_fail r)
    else if bool_decide (_status x = ePathEstablished) && (latency_interval <? now - m_LastLatencyTestTime x) && (m_LastLatencyTestID x =? 0) then
      let* (_, r) := SendLatencyMessage e p r in Ok (call_router (LatencyTestLater p) r)
    else
      let* r := (if bool_decide (_status x = ePathEstablished) && (alive_timeout <=? now - m_LastRecvMessage x) then EnterState p ePathTimeout now (mark_fail r) else Ok r) in
      let* x := path_at p r in
      if bool_decide (_status x = ePathIgnore) && (alive_timeout <=? now - m_LastRecvMessage x) then EnterState p ePathExpired now r else Ok r.

(** ** What comes down a path *)
Definition mark_active e p r : router := set_path p (MarkActive (Now e)) r.
(** The build is confirmed; the state changes with the answer to the first test of latency. *)
Definition HandlePathConfirmMessage e p r : res (bool * router) :=
  let* x := path_at p r in
  if bool_decide (_status x = ePathBuilding) then
    let* at_ := ExpireTime x in
    let* up := Upstream x in
    let r := set_path p (fun x => x <| intro ::= fun i => i <| Introduction.expiresAt := at_ |> |>) r in
    let r := r <| profiling ::= Profiling.MarkPathSuccess (Now e) (hop_keys x) |> in
    SendLatencyMessage e p (mark_active e p (call_router (PersistSessionUntil up at_) r))
  else Ok (false, r).
Definition path_HandlePathLatencyMessage e p r : res (bool * router) :=
  let r := mark_active e p r in
  let* x := path_at p r in
  if m_LastLatencyTestID x =? 0 then Ok (true, r)
  else
    let samples := add_sample (Now e - m_LastLatencyTestTime x) (m_LatencySamples x) in
    let r := set_path p (fun x => x <| m_LatencySamples := samples |> <| intro ::= fun i => i <| Introduction.latency := computeLatency samples |> |> <| m_LastLatencyTestID := 0 |>) r in
    let* r := EnterState p ePathEstablished (Now e) r in
    let* r := (if m_BuiltHook x then built_hook p r else Ok r) in
    Ok (true, set_path p (fun x => x <| m_BuiltHook := false |>) r).
Definition HandleHiddenServiceFrame e p (frame : ProtocolFrame.t) r : res (bool * router) :=
  let* x := path_at p r in
  match m_PathSets r !! m_PathSet x with
  | None => Ok (false, r)
  | Some _ => let r := mark_active e p r in if m_DataHandler x then data_handler p frame r else Ok (false, r)
  end.
Definition HandleDataDiscardMessage e p (m : DataDiscardMessage.t) r : res (bool * router) :=
  let* x := path_at p r in
  let r := mark_active e p r in
  if m_DropHandler x then drop_handler p (DataDiscardMessage.P m) (DataDiscardMessage.S_ m) r else Ok (true, r).
Definition path_HandleDHTMessage e p (m : IMessage) r : res (bool * router) :=
  let* _ := path_at p r in
  let r := mark_active e p r in
  let* (ok, replies, d) := dht_HandleMessage m (dht (node r)) in
  let r := r <| node ::= fun n => n <| dht := d |> |> in
  if negb ok then Ok (false, r)
  else match replies with
       | [] => Ok (true, r)
       | _ => path_SendRoutingMessage e p proto_version (DHT_BEncode ours rank0 port0 (MkDHT (IMsg (zeros 32) (zeros 16) <$> replies) 0 0 proto_version)) r
       end.
Definition path_HandleCloseExitMessage p (m : CloseExitMessage) r : res (bool * router) :=
  let* x := path_at p r in
  if SupportsAnyRoles (Z.lor ePathRoleExit ePathRoleSVC) x then
    let* pk := Endpoint x in
    let* valid := Close_Verify pk m in
    if valid : bool then Ok (true, set_path p (ClearRoles ePathRoleExit) r) else Ok (false, r)
  else Ok (false, r).
Fixpoint call_obtained (k : nat) p (backoff : Z) (result : bool) r : res (bool * router) :=
  match k with 0%nat => Ok (result, r) | S k => let* (ok, r) := obtained_exit p backoff r in call_obtained k p backoff (ok && result) r end.
Definition InformExitResult p (backoff : Z) r : res (bool * router) :=
  let* x := path_at p r in
  let* (result, r) := call_obtained (m_ObtainedExitHooks x) p backoff true r in
  Ok (result, set_path p (fun x => x <| m_ObtainedExitHooks := 0%nat |>) r).
Definition HandleRejectExitMessage e p (m : RejectExitMessage) r : res (bool * router) :=
  let* x := path_at p r in
  if negb (m_ExitObtainTX x =? 0) && (re_T m =? m_ExitObtainTX x) then
    let* pk := Endpoint x in
    let* valid := Reject_Verify pk m in
    if valid : bool then InformExitResult p (to_signed 64 (re_B m)) (mark_active e p r) else Ok (false, r)
  else Ok (false, r).
Definition HandleGrantExitMessage e p (m : GrantExitMessage) r : res (bool * router) :=
  let* x := path_at p r in
  if negb (m_ExitObtainTX x =? 0) && (gr_T m =? m_ExitObtainTX x) then
    let* pk := Endpoint x in
    let* valid := Grant_Verify pk m in
    if valid : bool then InformExitResult p 0 (mark_active e p (set_path p (fun x => x <| _role ::= Z.lor ePathRoleExit |>) r)) else Ok (false, r)
  else Ok (false, r).
Definition HandleUpdateExitVerifyMessage p (T : Z) r : res (bool * router) :=
  let* x := path_at p r in
  if negb (m_UpdateExitTX x =? 0) && (T =? m_UpdateExitTX x) && m_ExitUpdated x then exit_updated p r
  else if negb (m_CloseExitTX x =? 0) && (T =? m_CloseExitTX x) && m_ExitClosed x then exit_closed p r
  else Ok (false, r).
Fixpoint take_packets e p (protocol : Z) (pkts : list (list Z)) r : res router :=
  match pkts with
  | [] => Ok r
  | pkt :: pkts =>
      if (length pkt <=? 8)%nat then take_packets e p protocol pkts r
      else
        let* (ok, r) := exit_traffic p (drop 8 pkt) (load_big_to_host 8 (take 8 pkt)) protocol r in
        let* r := (if ok : bool then EnterState p ePathEstablished (Now e) (mark_active e p r) else Ok r) in
        take_packets e p protocol pkts r
  end.
Definition path_HandleTransferTrafficMessage e p (m : TransferTrafficMessage.t) r : res (bool * router) :=
  let* x := path_at p r in
  if negb (SupportsAnyRoles (Z.lor ePathRoleExit ePathRoleSVC) x) then Ok (false, r)
  else if negb (m_ExitTrafficHandler x) then Ok (false, r)
  else
    let* r := take_packets e p (TransferTrafficMessage.protocol m) (TransferTrafficMessage.X m) r in
    Ok ((0 <? length (TransferTrafficMessage.X m))%nat, r).
Definition SendExitRequest e p (m : ObtainExitMessage) r : res (bool * router) :=
  path_SendRoutingMessage e p (ob_version m) (Obtain_BEncode m) (set_path p (fun x => x <| m_ExitObtainTX := ob_T m |>) r).
Definition SendExitClose e p (m : CloseExitMessage) r : res (bool * router) :=
  path_SendRoutingMessage e p (cl_version m) (Close_BEncode m) (set_path p (ClearRoles ePathRoleExit) r).
(** [IMessage::HandleMessage] with the path as the handler. *)
Definition path_HandleRouting e p (from : list Z) (m : routing_message) r : res (bool * router) :=
  match m with
  | RDiscard m => HandleDataDiscardMessage e p m r
  | RLatency _ => path_HandlePathLatencyMessage e p r
  | RDHT m => DHT_HandleMessage (path_HandleDHTMessage e p) (pubkey (node r)) from (dm_M m) r
  | RConfirm _ => HandlePathConfirmMessage e p r
  | RFrame f => HandleHiddenServiceFrame e p f r
  | RTraffic m => path_HandleTransferTrafficMessage e p m r
  | RGrant m => HandleGrantExitMessage e p m r
  | RReject m => HandleRejectExitMessage e p m r
  | RClose m => path_HandleCloseExitMessage p m r
  | RTransfer _ | RObtain _ | RUpdate _ => Ok (false, r)
  end.
Definition path_HandleRoutingMessage e p (buf : list Z) r : res (bool * router) :=
  let* x := path_at p r in
  let* id := RXID x in
  let* (ok, ps, r) := ParseMessageBuffer ours rank0 port0 (path_HandleRouting e p) (S (length buf)) buf id (m_Parser (node r)) r in
  Ok (ok, r <| node ::= fun n => n <| m_Parser := ps |> |>).
Fixpoint path_HandleAllUpstream e p (msgs : list Relay.t) r : res router :=
  match msgs with
  | [] => Ok r
  | msg :: msgs =>
      let* x := path_at p r in
      let* up := Upstream x in
      let* (ok, r) := send_to e up (LUpstream msg) no_handler r in
      path_HandleAllUpstream e p msgs (if ok : bool then set_path p (fun x => x <| m_TXRate ::= fun k => u64 (k + Z.of_nat (length (Relay.X msg))) |>) r else r)
  end.
Fixpoint path_HandleAllDownstream e p (msgs : list Relay.t) r : res router :=
  match msgs with
  | [] => Ok r
  | msg :: msgs =>
      let r := set_path p (fun x => x <| m_RXRate ::= fun k => u64 (k + Z.of_nat (length (Relay.X msg))) |>) r in
      let* (ok, r) := path_HandleRoutingMessage e p (Relay.X msg) r in
      path_HandleAllDownstream e p msgs (if ok : bool then set_path p (fun x => x <| m_LastRecvMessage := Now e |>) r else r)
  end.
Fixpoint for_paths (f : nat -> list Relay.t -> router -> res router) (l : list (nat * list Relay.t)) r : res router :=
  match l with [] => Ok r | (p, msgs) :: l => let* r := f p msgs r in for_paths f l r end.
(** Both queues are emptied before anything is handled. *)
Definition Wakeup e r : res router :=
  let there (l : list (nat * Relay.t)) := filter (fun x => is_Some (m_PathObjs r !! x.1)) l in
  let up := group (there (up_gather r)) in
  let down := group (there (down_gather r)) in
  let* r := for_paths (path_HandleAllUpstream e) up (r <| up_gather := [] |> <| down_gather := [] |>) in
  for_paths (path_HandleAllDownstream e) down r.

(** ** The status of a build *)
Fixpoint read_status (index : nat) (hops : list PathHopConfig) (frames : list (list Z)) (status : Z) : res (Z * option RouterID) :=
  match hops with
  | [] => Ok (status, None)
  | h :: hops =>
      match frames with
      | [] => Oob
      | f :: frames =>
          let* (ok, f) := DoDecrypt (shared h) f in
          if negb ok then Ok (LR_StatusRecord.FAIL_DECRYPT_ERROR, Some (hop_key h))
          else
            let* (ok, record, _) := LR_StatusRecord.BDecode (S (length f)) LR_StatusRecord.empty (Buffer f EncryptedFrameOverheadSize) in
            if negb ok then Ok (LR_StatusRecord.FAIL_MALFORMED_RECORD, Some (hop_key h))
            else
              let status := LR_StatusRecord.status record in
              if Z.land status LR_StatusRecord.SUCCESS =? LR_StatusRecord.SUCCESS then read_status (S index) hops frames status
              else if negb (Z.land status LR_StatusRecord.FAIL_CONGESTION =? 0) && (index =? 0)%nat then Ok (status, Some (hop_key h))
              else Ok (status, hop_key <$> head hops)
      end
  end.
(** Whether the chain of tests comes to the one for a router that is not registered. *)
Definition dest_invalid (status : Z) : bool :=
  (Z.land status LR_StatusRecord.FAIL_TIMEOUT =? 0) && (Z.land status LR_StatusRecord.FAIL_CONGESTION =? 0) && (Z.land status LR_StatusRecord.FAIL_DEST_UNKNOWN =? 0)
  && negb (Z.land status LR_StatusRecord.FAIL_DEST_INVALID =? 0).
Definition path_HandleLRSM e p (status : Z) (frames : list (list Z)) r : res (bool * router) :=
  let* x := path_at p r in
  let* (status, failedAt) := read_status 0 (hops x) frames status in
  if Z.land status LR_StatusRecord.SUCCESS =? LR_StatusRecord.SUCCESS then let* (_, r) := HandlePathConfirmMessage e p r in Ok (true, r)
  else
    let r := r <| profiling ::= match failedAt with Some k => Profiling.MarkHopFail (Now e) k | None => Profiling.MarkPathFail (Now e) (hop_keys x) end |> in
    let r := match failedAt with Some k => if dest_invalid status then call_router (NodeDbRemove k) r else r | None => r end in
    let* r := EnterState p ePathFailed (Now e) r in
    let* r := match m_PathSets r !! m_PathSet x with
              | Some _ => HandlePathBuildFailedAt (m_PathSet x) p (default (zeros 32) failedAt) r
              | None => Ok r
              end in
    Ok (true, r).
End paths.
