(* ===== verification/PathContext.v ===== *)
(** * The paths of a router, their sets and how they are built (llarp/path/path_context.cpp, pathset.cpp, pathbuilder.cpp, llarp/messages/relay.cpp)

    The tables that find the object of a path by its id, the handlers of the messages of paths, the
    queries on a set of paths, and the builder, which picks the hops of a path, makes the keys of
    each and sends the build on its way. *)

From S2P Require Import Prelude Buffer Bencode Codec CryptoApi Str NetInt IpRange DnsName DnsMessage Contact TrafficPolicy Service Frame Protocol Kademlia DhtMessage Routing LinkMessage Profiling TransitHop Path.
Import EncryptedFrame.
Import Path.

(** [HopHandler_ptr] *)
Inductive HopHandler := OwnPath (p : nat) | Transit (h : nat).

(** The order of introductions: by expiry, path, router, version, latency. *)
Definition intro_lt (a b : Introduction.t) : bool :=
  let by_z x y k := (x <? y) || ((x =? y) && k) in
  let by_key x y k := lex_lt x y || (bool_decide (x = y) && k) in
  by_z (Introduction.expiresAt a) (Introduction.expiresAt b)
    (by_key (Introduction.pathID a) (Introduction.pathID b)
      (by_key (Introduction.router a) (Introduction.router b)
        (by_z (Introduction.version a) (Introduction.version b) (Introduction.latency a <? Introduction.latency b)))).
Fixpoint intro_insert (i : Introduction.t) (l : list Introduction.t) : list Introduction.t :=
  match l with
  | [] => [i]
  | j :: rest => if intro_lt i j then i :: l else if intro_lt j i then j :: intro_insert i rest else l
  end.

Section context.
Context {IP : InetPton} {IN : InetNtop} {BT : OxencBt} {BD : OxencDict} {O : Oxenc} {CR : Crypto} {KP : KeyPairs} {SH : ShortHasher} {UN : Uninit} {RN : Random}.
Context {D X P : Type} {DA : DhtApi D} {XA : ExitApi X} {PO : PathOwner (Router D X P)}.
Context (ours : list Z) (rank0 port0 : Z).
Abbreviation router := (Router D X P).
Implicit Types (r : router) (e : Env) (p s : nat).

(** ** Tables *)
Definition set_of s r : res Builder.t := match m_PathSets r !! s with Some b => Ok b | None => Oob end.
Definition set_builder s (f : Builder.t -> Builder.t) r : router := r <| m_PathSets ::= alter f s |>.
(** [emplace] leaves what is under the key already. *)
Definition emplace_path (id : PathID_t) p r : router := r <| m_OurPaths ::= fun m => match m !! id with Some _ => m | None => <[id := p]> m end |>.
(** [PathSet::AddPath] *)
Definition AddPath s p r : res router :=
  let* x := path_at p r in
  let* up := Upstream x in
  let* id := RXID x in
  Ok (set_builder s (fun b => if existsb (fun y => bool_decide (y.1 = (up, id))) (Builder.m_Paths b) then b else b <| Builder.m_Paths ::= fun l => l ++ [((up, id), p)] |>) r).
Definition AddOwnPath s p r : res router :=
  let* r := AddPath s p r in
  let* x := path_at p r in
  let* tx := TXID x in
  let* rx := RXID x in
  Ok (emplace_path rx p (emplace_path tx p r)).
(** A path of our own is taken whoever sent. *)
Definition GetByUpstream (remote : RouterID) (id : PathID_t) r : option HopHandler :=
  match m_OurPaths r !! id with
  | Some p => Some (OwnPath p)
  | None => Transit <$> TransitHopByUpstream remote id (node r)
  end.
Definition GetLocalPathSet (id : PathID_t) r : option nat :=
  m_OurPaths r !! id ≫= fun p => m_PathObjs r !! p ≫= fun x => match m_PathSets r !! m_PathSet x with Some _ => Some (m_PathSet x) | None => None end.
Fixpoint GetPathByID_loop (id : PathID_t) (l : list ((RouterID * PathID_t) * nat)) r : res (option nat) :=
  match l with
  | [] => Ok None
  | (_, p) :: l => let* x := path_at p r in let* rx := RXID x in if bool_decide (rx = id) then Ok (Some p) else GetPathByID_loop id l r
  end.
Definition GetPathByID s (id : PathID_t) r : res (option nat) := let* b := set_of s r in GetPathByID_loop id (Builder.m_Paths b) r.
Definition GetHandler (id : PathID_t) r : res (option HopHandler) :=
  let* own := match GetLocalPathSet id r with Some s => GetPathByID s id r | None => Ok None end in
  Ok (match own with Some p => Some (OwnPath p) | None => Transit <$> GetPathForTransfer id (node r) end).
Definition CurrentOwnedPaths (st : PathStatus) r : nat :=
  Nat.div2 (length (filter (fun x => (_status <$> m_PathObjs r !! x.2) = Some st) (map_to_list (m_OurPaths r)))).
Fixpoint expire_own (now : Z) (l : list (PathID_t * nat)) r : res router :=
  match l with
  | [] => Ok r
  | (k, p) :: l =>
      let* x := path_at p r in
      let* expired := Expired now x in
      expire_own now l (if expired : bool then r <| m_OurPaths ::= delete k |> else set_path p (DecayFilters now now) r)
  end.
Definition ExpirePaths (now : Z) r : res router :=
  let* n := expire_transit now (node r) in
  expire_own now (map_to_list (m_OurPaths r)) (r <| node := n |>).

(** ** Messages of paths from the session of a router *)
Definition LRUM_HandleMessage (from : RouterID) (m : Relay.t) r : bool * router :=
  let (ok, n) := Upstream_HandleMessage from m (node r) in (ok, r <| node := n |>).
Definition LRDM_HandleMessage e (from : RouterID) (m : Relay.t) r : res (bool * router) :=
  match GetByUpstream from (Relay.pathid m) r with
  | Some (OwnPath p) => let* (_, r) := path_HandleDownstream e p (Relay.X m, Relay.Y m) r in Ok (true, r)
  | Some (Transit h) => Ok (true, r <| node := (HandleDownstream h (Relay.X m, Relay.Y m) (node r)).2 |>)
  | None => Ok (true, r)
  end.
Definition LRSM_HandleMessage e (from : RouterID) (m : LR_StatusMessage.t) r : res (bool * router) :=
  if negb (length (LR_StatusMessage.frames m) =? max_len)%nat then Ok (false, r)
  else match GetByUpstream from (LR_StatusMessage.pathid m) r with
       | Some (OwnPath p) => let* (_, r) := path_HandleLRSM e p (LR_StatusMessage.status m) (LR_StatusMessage.frames m) r in Ok (true, r)
       | Some (Transit h) =>
           let* (_, n) := HandleLRSM ours rank0 port0 e h (LR_StatusMessage.status m) (LR_StatusMessage.frames m) (node r) in Ok (true, r <| node := n |>)
       | None => Ok (true, r)
       end.
Definition LRCM_HandleMessage e (from : RouterID) (fromAddr : option (list Z)) (m : LR_CommitMessage.t) r : res (bool * router) :=
  let* (ok, n) := Commit_HandleMessage ours rank0 port0 e from fromAddr m (node r) in Ok (ok, r <| node := n |>).
(** The callback of a message. *)
Definition inform e (cb : SendStatusHandler) (st : SendStatus) r : res router :=
  match cb with
  | build_sent p => if bool_decide (st = TransitHop.Success) then Ok r else EnterState p ePathFailed (Now e) r
  | _ => let* n := run_handler ours rank0 port0 e cb st (node r) in Ok (r <| node := n |>)
  end.

(** ** Queries on a set (pathset.cpp) *)
(** The paths of a set that pass a test, in the order of the set. *)
Fixpoint select_paths (test : t -> res bool) (l : list ((RouterID * PathID_t) * nat)) r : res (list (nat * t)) :=
  match l with
  | [] => Ok []
  | (_, p) :: l =>
      let* x := path_at p r in
      let* ok := test x in
      let* rest := select_paths test l r in
      Ok (if ok : bool then (p, x) :: rest else rest)
  end.
Definition paths_where (test : t -> res bool) s r : res (list (nat * t)) := let* b := set_of s r in select_paths test (Builder.m_Paths b) r.
Definition NumInStatus (st : PathStatus) s r : res nat := let* l := paths_where (fun x => Ok (bool_decide (_status x = st))) s r in Ok (length l).
Definition AvailablePaths (roles : Z) s r : res nat :=
  let* l := paths_where (fun x => Ok (bool_decide (_status x = ePathEstablished) && SupportsAnyRoles roles x)) s r in Ok (length l).
Definition NumPathsExistingAt (clock futureTime : Z) s r : res nat :=
  let* l := paths_where (fun x => let* ready := IsReady clock x in if negb ready then Ok false else let* ex := Expired futureTime x in Ok (negb ex)) s r in Ok (length l).
Definition set_ShouldBuildMore s r : res bool :=
  let* b := set_of s r in
  let* building := NumInStatus ePathBuilding s r in
  if (Builder.numDesiredPaths b <=? building)%nat then Ok false
  else let* established := NumInStatus ePathEstablished s r in Ok (established <? Builder.numDesiredPaths b)%nat.
Definition ready_with (clock roles : Z) x : res bool := let* ready := IsReady clock x in Ok (ready && SupportsAnyRoles roles x).
Definition ready_at (clock : Z) (ep : RouterID) (roles : Z) x : res bool :=
  let* ready := ready_with clock roles x in if negb ready then Ok false else let* k := Endpoint x in Ok (bool_decide (k = ep)).
(** The loops that keep the best so far. *)
Definition pick (better : t -> t -> bool) (l : list (nat * t)) : option (nat * t) :=
  foldl (fun chosen y => match chosen with None => Some y | Some c => if better c.2 y.2 then Some y else Some c end) None l.
Definition lower_latency (c x : t) : bool :=
  negb (Introduction.latency (intro c) =? 0) && (Introduction.latency (intro x) <? Introduction.latency (intro c)).
Definition GetPathByRouter (clock : Z) (id : RouterID) (roles : Z) s r : res (option nat) :=
  let* b := set_of s r in
  match (if roles =? ePathRoleAny then Builder.m_PathCache b !! id else None) with
  | Some p => Ok (match m_PathObjs r !! p with Some _ => Some p | None => None end)
  | None => let* l := paths_where (ready_at clock id roles) s r in Ok (fst <$> pick lower_latency l)
  end.
Definition GetNewestPathByRouter (clock : Z) (id : RouterID) (roles : Z) s r : res (option nat) :=
  let* l := paths_where (ready_at clock id roles) s r in
  Ok (fst <$> pick (fun c x => Introduction.expiresAt (intro c) <? Introduction.expiresAt (intro x)) l).
Definition GetRandomPathByRouter (clock rand : Z) (id : RouterID) (roles : Z) s r : res (option nat) :=
  let* l := paths_where (ready_at clock id roles) s r in
  Ok (fst <$> l !! Z.to_nat (if (2 <=? length l)%nat then rand mod Z.of_nat (length l) else 0)).
Definition GetByEndpointWithID (ep : RouterID) (id : PathID_t) s r : res (option nat) :=
  let* l := paths_where (fun x => IsEndpoint ep id x) s r in Ok (fst <$> head l).
Definition GetByUpstream_set (remote : RouterID) (rxid : PathID_t) s r : res (option nat) :=
  let* b := set_of s r in Ok (snd <$> head (filter (fun y => y.1 = (remote, rxid)) (Builder.m_Paths b))).
Definition PickRandomEstablishedPath (clock rand roles : Z) s r : res (option nat) :=
  let* l := paths_where (ready_with clock roles) s r in
  Ok (match l with [] => None | _ => fst <$> l !! Z.to_nat (rand mod Z.of_nat (length l)) end).
Definition PickEstablishedPath (clock roles : Z) s r : res (option nat) :=
  let* l := paths_where (ready_with clock roles) s r in
  Ok (foldl (fun acc y => let i := Introduction.latency (intro y.2) in if (i <? acc.1) && negb (i =? 0) then (i, Some y.1) else acc) (30000, None) l).2.
(** The distance starts at the largest one. *)
Fixpoint closest_path (to dist : Key_t) (l : list (nat * t)) (chosen : option nat) : res (option nat) :=
  match l with
  | [] => Ok chosen
  | (p, x) :: l =>
      let* k := Endpoint x in
      let d := key_xor k to in
      if lex_lt d dist then closest_path to d l (Some p) else closest_path to dist l chosen
  end.
Definition GetEstablishedPathClosestTo (clock : Z) (id : RouterID) (excluding : list RouterID) (roles : Z) s r : res (option nat) :=
  let* l := paths_where (fun x => let* ok := ready_with clock roles x in if negb ok then Ok false else let* k := Endpoint x in Ok (negb (bool_decide (k ∈ excluding)))) s r in
  closest_path id (Fill 255) l None.
Definition GetNewestIntro (clock : Z) s r : res (option Introduction.t) :=
  let* l := paths_where (IsReady clock) s r in
  Ok (foldl (fun acc y => if Introduction.expiresAt (from_option id Introduction.empty acc) <? Introduction.expiresAt (intro y.2) then Some (intro y.2) else acc) None l).
(** A [std::set] of introductions, as the sorted list; an empty one is [nullopt]. *)
Definition GetCurrentIntroductionsWithFilter (clock : Z) (test : Introduction.t -> bool) s r : res (option (list Introduction.t)) :=
  let* l := paths_where (fun x => let* ready := IsReady clock x in Ok (ready && test (intro x))) s r in
  Ok (match foldl (fun acc y => intro_insert (intro y.2) acc) [] l with [] => None | l => Some l end).
(** No role needs paths of its own. *)
Definition MinRequiredForRoles (roles : Z) : nat := 0.
Definition ShouldBuildMoreForRoles (now roles : Z) s r : res bool :=
  let* l := paths_where (fun x => if SupportsAnyRoles roles x then let* soon := ExpiresSoon now 5000 x in Ok (negb soon) else Ok false) s r in
  Ok (length l <? MinRequiredForRoles roles)%nat.
Fixpoint set_expire (now : Z) (l : list ((RouterID * PathID_t) * nat)) r : res (list ((RouterID * PathID_t) * nat) * router) :=
  match l with
  | [] => Ok ([], r)
  | (k, p) :: l =>
      let* x := path_at p r in
      let* expired := Expired now x in
      if expired : bool then
        let* tx := TXID x in
        let* rx := RXID x in
        set_expire now l (call_router (RemovePath rx) (call_router (RemovePath tx) r))
      else let* (kept, r) := set_expire now l r in Ok ((k, p) :: kept, r)
  end.
Definition set_ExpirePaths (now : Z) s r : res router :=
  let* b := set_of s r in
  let* (kept, r) := set_expire now (Builder.m_Paths b) r in Ok (set_builder s (fun b => b <| Builder.m_Paths := kept |>) r).
Fixpoint tick_all e (l : list ((RouterID * PathID_t) * nat)) r : res router :=
  match l with [] => Ok r | (_, p) :: l => let* r := Tick e p r in tick_all e l r end.
Definition TickPaths e s r : res router := let* b := set_of s r in tick_all e (Builder.m_Paths b) r.
(** [PathSet::Tick]: the cache of the best path to each end. *)
Fixpoint endpoints (l : list ((RouterID * PathID_t) * nat)) r : res (list RouterID) :=
  match l with [] => Ok [] | (_, p) :: l => let* x := path_at p r in let* k := Endpoint x in let* ks := endpoints l r in Ok (k :: ks) end.
Fixpoint fill_cache (clock : Z) (eps : list RouterID) s r : res router :=
  match eps with
  | [] => Ok r
  | ep :: eps =>
      let* found := GetPathByRouter clock ep ePathRoleAny s r in
      fill_cache clock eps s (match found with Some p => set_builder s (fun b => b <| Builder.m_PathCache ::= <[ep := p]> |>) r | None => r end)
  end.
Definition set_Tick (clock : Z) s r : res router :=
  let* b := set_of s r in
  let* eps := endpoints (Builder.m_Paths b) r in
  fill_cache clock eps s (set_builder s (fun b => b <| Builder.m_PathCache := ∅ |>) r).
Definition stat (f : BuildStats -> BuildStats) s r : router := set_builder s (fun b => b <| Builder.m_BuildStats ::= f |>) r.
Definition PathBuildStarted s r : router := stat (fun b => b <| attempts ::= fun k => u64 (k + 1) |>) s r.
Definition FindOwnedPathsWithEndpoint (clock : Z) (ep : RouterID) r : res (list nat) :=
  let fix go (l : list (PathID_t * nat)) := match l with
    | [] => Ok []
    | (_, p) :: l => let* x := path_at p r in let* k := Endpoint x in let* ready := IsReady clock x in let* found := go l in
        Ok (if bool_decide (k = ep) && ready then p :: found else found)
    end in
  let* found := go (map_to_list (m_OurPaths r)) in Ok (remove_dups found).

(** ** Picking hops (pathbuilder.cpp) *)
Definition PATH_BUILD_RATE : Z := 100.
Definition MIN_PATH_BUILD_INTERVAL : Z := 500.
Definition Attempt (clock : Z) (edge : RouterID) r : bool * router :=
  let (ok, l) := DecayingHashSet.Insert clock edge 0 (m_LimitedEdges r) in (ok, r <| m_LimitedEdges := l |>).
Definition Limited (edge : RouterID) r : bool := DecayingHashSet.Contains edge (m_LimitedEdges r).
(** The sessions, in the random order in which they are visited; the contacts, shuffled for each
    look; the bootstrap routers; the hops a configuration accepts together. *)
Record peer := Peer { established : bool; outbound : bool; remote_rc : RouterContact.t }.
Record BuildEnv := MkBuildEnv { peers : list peer; IsBootstrapNode : RouterID -> bool; nodedb : NodeDB.t; shuffled : nat -> list (RouterID * NodeDB.Entry);
  Acceptable : list RouterContact.t -> bool }.
Implicit Types (be : BuildEnv).
Definition first_hop_ok be (exclude : list RouterID) r (q : peer) : bool :=
  let k := RouterContact.pubkey (remote_rc q) in
  established q && outbound q && negb (IsBootstrapNode be k) && negb (bool_decide (k ∈ exclude)) && negb (Limited k r)
  && negb (Profiling.IsBadForPath k Profiling.profiling_chances (profiling r)).
Definition SelectFirstHop be (exclude : list RouterID) r : option RouterContact.t := remote_rc <$> List.find (first_hop_ok be exclude r) (peers be).
(** [std::set<RouterContact>], by key. *)
Definition contact_set (l : list RouterContact.t) : list RouterContact.t :=
  foldl (fun acc c => if existsb (fun d => bool_decide (RouterContact.pubkey d = RouterContact.pubkey c)) acc then acc else acc ++ [c]) [] l.
Definition next_hop_ok be (exclude : list RouterID) (endpointRC : RouterContact.t) (hops : list RouterContact.t) r (rc : RouterContact.t) : bool :=
  let k := RouterContact.pubkey rc in
  negb (bool_decide (k ∈ exclude)) && negb (Profiling.IsBadForPath k 1 (profiling r))
  && forallb (fun hop => negb (bool_decide (RouterContact.pubkey hop = k))) (contact_set (endpointRC :: hops))
  && Acceptable be (contact_set (endpointRC :: hops ++ [rc])) && negb (bool_decide (k = RouterContact.pubkey endpointRC)).
(** [more] hops are left to pick. *)
Fixpoint pick_hops be (exclude : list RouterID) (endpointRC : RouterContact.t) (more : nat) (hops : list RouterContact.t) r : option (list RouterContact.t) :=
  match more with
  | 0%nat => Some hops
  | 1%nat => Some (hops ++ [endpointRC])
  | S more =>
      match NodeDB.GetRandom (shuffled be (length hops)) (next_hop_ok be exclude endpointRC hops r) with
      | Some rc => pick_hops be exclude endpointRC more (hops ++ [rc]) r
      | None => None
      end
  end.
Definition GetHopsAlignedToForBuild be (numHops : nat) (endpoint : RouterID) (exclude : list RouterID) r : option (list RouterContact.t) :=
  match SelectFirstHop be exclude r with
  | None => None
  | Some first =>
      match NodeDB.Get endpoint (nodedb be) with
      | None => None
      | Some endpointRC => pick_hops be exclude endpointRC (numHops - 1) [first] r
      end
  end.
Definition GetHopsForBuild be (numHops : nat) r : option (list RouterContact.t) :=
  match NodeDB.GetRandom (shuffled be 0) (fun rc => negb (Profiling.IsBadForPath (RouterContact.pubkey rc) Profiling.profiling_chances (profiling r))) with
  | Some rc => GetHopsAlignedToForBuild be numHops (RouterContact.pubkey rc) [] r
  | None => None
  end.

(** ** Keys of a build *)
(** [GenerateNextKey] for a hop, the one behind it and its frame: nothing when a step fails. *)
Definition GenerateNextKey (hop : PathHopConfig) (next : option PathHopConfig) (frame : list Z) r : res (option (PathHopConfig * list Z) * router) :=
  let (seed, r) := path_draw 32 r in
  let commkey := encryption_keygen seed in
  let (nonce, r) := path_draw TUNNONCESIZE r in
  let rc := hop_rc hop in
  match dh_client (RouterContact.enckey rc) commkey nonce with
  | None => Ok (None, r)
  | Some key =>
      let up := match next with Some h => hop_key h | None => hop_key hop end in
      let hop := hop <| hop_commkey := commkey |> <| hop_nonce := nonce |> <| shared := key |> <| hop_nonceXOR := shorthash key |> <| hop_upstream := up |> in
      let record := MkCommitRecord (seckey_topublic commkey) up nonce (hop_txID hop) (hop_rxID hop) (hop_rc <$> next) proto_version default_lifetime in
      let* (ok, b) := CommitRecord_BEncode ours rank0 port0 record (Buffer frame EncryptedFrameOverheadSize) in
      if negb ok then Ok (None, r)
      else
        let (framekey, r) := path_draw 32 r in
        let (framenonce, r) := path_draw TUNNONCESIZE r in
        let* (ok, frame) := EncryptInPlace (encryption_keygen framekey) (RouterContact.enckey rc) framenonce (mem b) in
        Ok (if ok : bool then Some (hop, frame) else None, r)
  end.
Fixpoint generate_keys (hops : list PathHopConfig) (frames : list (list Z)) r : res (option (list PathHopConfig * list (list Z)) * router) :=
  match hops with
  | [] => Ok (Some ([], frames), r)
  | hop :: hops =>
      match frames with
      | [] => Oob
      | frame :: frames =>
          let* (made, r) := GenerateNextKey hop (head hops) frame r in
          match made with
          | None => Ok (None, r)
          | Some (hop, frame) =>
              let* (rest, r) := generate_keys hops frames r in
              Ok (match rest with Some (hops, frames) => Some (hop :: hops, frame :: frames) | None => None end, r)
          end
      end
  end.
Fixpoint randomize_frames (frames : list (list Z)) r : list (list Z) * router :=
  match frames with
  | [] => ([], r)
  | f :: frames => let (f, r) := path_draw (length f) r in let (frames, r) := randomize_frames frames r in (f :: frames, r)
  end.
Definition IsStopped s r : res bool := let* b := set_of s r in Ok (negb (Builder._run b)).
Definition PathBuilderKeysGenerated e s p (frames : list (list Z)) r : res router :=
  let* stopped := IsStopped s r in
  if stopped : bool then Ok r
  else
    let* r := AddOwnPath s p r in
    let r := PathBuildStarted s r in
    let* x := path_at p r in
    let* remote := Upstream x in
    let* (ok, r) := send_to ours rank0 port0 e remote (LCommit (LR_CommitMessage.empty <| LR_CommitMessage.frames := frames |>)) (build_sent p) r in
    if ok : bool then let* at_ := ExpireTime x in Ok (call_router (PersistSessionUntil remote at_) r)
    else EnterState p ePathFailed (Now e) r.
Definition AsyncGenerateKeys e s p r : res router :=
  let (frames, r) := randomize_frames empty_frames r in
  let* x := path_at p r in
  let* (made, r) := generate_keys (hops x) frames r in
  match made with
  | None => Ok r
  | Some (hops', frames) => PathBuilderKeysGenerated e s p frames (set_path p (fun x => x <| hops := hops' |>) r)
  end.
(** [do Randomize(id); while (id.IsZero())] *)
Fixpoint draw_id (fuel : nat) r : res (PathID_t * router) :=
  match fuel with
  | 0%nat => NoFuel
  | S fuel => let (id, r) := path_draw PATHIDSIZE r in if is_zero id then draw_id fuel r else Ok (id, r)
  end.
Fixpoint draw_ids (fuel k : nat) r : res (list (PathID_t * PathID_t) * router) :=
  match k with
  | 0%nat => Ok ([], r)
  | S k =>
      let* (tx, r) := draw_id fuel r in
      let* (rx, r) := draw_id fuel r in
      let* (ids, r) := draw_ids fuel k r in Ok ((tx, rx) :: ids, r)
  end.
Definition Build (fuel : nat) e s (routers : list RouterContact.t) (roles : Z) r : res router :=
  let* stopped := IsStopped s r in
  if stopped : bool then Ok r
  else
    let r := set_builder s (fun b => b <| Builder.lastBuild := Now e |>) r in
    match routers with
    | [] => Oob
    | first :: _ =>
        let (ok, r) := Attempt (Now e) (RouterContact.pubkey first) r in
        if negb ok then Ok r
        else
          let* (ids, r) := draw_ids fuel (length routers) r in
          let* x := Path.make routers ids s roles (Now e) in
          let p := m_NextPath r in
          let r := r <| m_PathObjs ::= <[p := x <| m_BuiltHook := true |>]> |> <| m_NextPath ::= S |> in
          AsyncGenerateKeys e s p r
    end.
Definition BuildOne (fuel : nat) e be s (roles : Z) r : res router :=
  let* b := set_of s r in
  match GetHopsForBuild be (Builder.numHops b) r with Some hops => Build fuel e s hops roles r | None => Ok r end.
Definition BuildOneAlignedTo (fuel : nat) e be s (remote : RouterID) r : res (bool * router) :=
  let* b := set_of s r in
  match GetHopsAlignedToForBuild be (Builder.numHops b) remote [] r with
  | Some hops => let* r := Build fuel e s hops ePathRoleAny r in Ok (true, r)
  | None => Ok (false, r)
  end.

(** ** The fate of builds *)
Definition ResetInternalState s r : router := set_builder s (fun b => b <| Builder.buildIntervalLimit := PATH_BUILD_RATE |> <| Builder.lastBuild := 0 |>) r.
Definition MaxBuildInterval : Z := 30000.
Definition DoPathBuildBackoff s r : router := set_builder s (fun b => b <| Builder.buildIntervalLimit ::= fun k => Z.min (PATH_BUILD_RATE + k) MaxBuildInterval |>) r.
Definition Builder_HandlePathBuilt e s p r : res router :=
  let* x := path_at p r in
  let r := set_builder s (fun b => b <| Builder.buildIntervalLimit := PATH_BUILD_RATE |>) r in
  let r := r <| profiling ::= Profiling.MarkPathSuccess (Now e) (hop_keys x) |> in
  Ok (stat (fun b => b <| success ::= fun k => u64 (k + 1) |>) s r).
Definition Builder_HandlePathBuildFailedAt s r : router := DoPathBuildBackoff s (stat (fun b => b <| fails ::= fun k => u64 (k + 1) |>) s r).
Definition Builder_HandlePathBuildTimeout e s p r : res router :=
  let* x := path_at p r in
  let r := r <| profiling ::= Profiling.MarkPathTimeout (Now e) (hop_keys x) |> in
  let r := DoPathBuildBackoff s (stat (fun b => b <| timeouts ::= fun k => u64 (k + 1) |>) s r) in
  Ok (foldl (fun r k => call_router (LookupRC k) r) r (hop_keys x)).
Definition BuildCooldownHit (now : Z) s r : res bool := let* b := set_of s r in Ok (now <? Builder.lastBuild b + Builder.buildIntervalLimit b).
Definition ShouldBuildMore (now : Z) s r : res bool :=
  let* stopped := IsStopped s r in
  if stopped : bool then Ok false
  else let* hit := BuildCooldownHit now s r in if hit : bool then Ok false else set_ShouldBuildMore s r.
Definition UrgentBuild s r : res bool := let* b := set_of s r in Ok (MIN_PATH_BUILD_INTERVAL * 4 <? Builder.buildIntervalLimit b).
Fixpoint ignore_all (now : Z) (l : list ((RouterID * PathID_t) * nat)) r : res router :=
  match l with [] => Ok r | (_, p) :: l => let* r := EnterState p ePathIgnore now r in ignore_all now l r end.
Definition Stop e s r : res router :=
  let* b := set_of s r in ignore_all (Now e) (Builder.m_Paths b) (set_builder s (fun b => b <| Builder._run := false |>) r).
Definition ShouldRemove s r : res bool :=
  let* stopped := IsStopped s r in
  if stopped : bool then let* k := NumInStatus ePathEstablished s r in Ok (k =? 0)%nat else Ok false.
(** [Builder::Tick], without its warning. *)
Definition Builder_Tick (fuel : nat) e be s r : res router :=
  let* r := set_Tick (Now e) s r in
  let r := r <| m_LimitedEdges ::= DecayingHashSet.Decay (Now e) (Now e) |> in
  let* r := set_ExpirePaths (Now e) s r in
  let* more := ShouldBuildMore (Now e) s r in
  let* r := (if more : bool then BuildOne fuel e be s ePathRoleAny r else Ok r) in
  TickPaths e s r.
Fixpoint ManualRebuild (fuel : nat) e be s (num : nat) (roles : Z) r : res router :=
  match num with 0%nat => Ok r | S num => let* r := BuildOne fuel e be s roles r in ManualRebuild fuel e be s num roles r end.
(** [Path::Rebuild] *)
Definition Rebuild (fuel : nat) e p r : res router :=
  let* x := path_at p r in
  match m_PathSets r !! m_PathSet x with Some _ => Build fuel e (m_PathSet x) (hop_rc <$> hops x) ePathRoleAny r | None => Ok r end.
End context.
