(* ===== verification/PathSpec.v ===== *)
(** * What paths do (theorems on TransitHop, Path and PathContext)

    The layers of a path come off one by one on the way up and are put on one by one on the way
    down; so what one end sends is what the other end handles, and the hops between them only pass
    it on. *)

From S2P Require Import Prelude Buffer Bencode Codec CryptoApi Str NetInt IpRange DnsName DnsMessage Contact TrafficPolicy Service Frame Protocol Kademlia DhtMessage Routing LinkMessage Profiling TransitHop Path PathContext.
Import EncryptedFrame.

(** ** Layers *)
Section layers.
Context {CR : Crypto} {CS : StreamCipherSpec CR}.
Implicit Types (x y k n : list Z) (cfgs : list PathHopConfig).
Lemma stream_xor k n : exists ks, forall x, stream x k n = xor_with ks x.
Proof using CS. destruct (keystream k n) as [ks H]. exists ks. intros x. unfold stream. by rewrite H. Qed.
Lemma stream_twice x k n : stream (stream x k n) k n = x.
Proof using CS. destruct (stream_xor k n) as [ks H]. by rewrite !H, xor_with_twice. Qed.
Lemma stream_comm x k n k' n' : stream (stream x k n) k' n' = stream (stream x k' n') k n.
Proof using CS. destruct (stream_xor k n) as [ks H], (stream_xor k' n') as [ks' H']. by rewrite !H, !H', xor_with_comm. Qed.
Lemma length_stream x k n : length (stream x k n) = length x.
Proof using CS. destruct (stream_xor k n) as [ks H]. by rewrite H, length_xor_with. Qed.
Lemma length_add_layers cfgs x n : length (add_layers cfgs x n) = length x.
Proof using CS. revert x n. induction cfgs as [|h cfgs IH]; intros x n; cbn [add_layers]; [done|]. by rewrite IH, length_stream. Qed.
Lemma add_layers_stream cfgs x n k n' : add_layers cfgs (stream x k n') n = stream (add_layers cfgs x n) k n'.
Proof using CS. revert x n. induction cfgs as [|h cfgs IH]; intros x n; cbn [add_layers]; [done|]. by rewrite <- IH, stream_comm. Qed.
(** A hop takes off its own layer. *)
Lemma peel_layer h cfgs x n : stream (add_layers (h :: cfgs) x n) (shared h) n = add_layers cfgs x (key_xor n (hop_nonceXOR h)).
Proof using CS. cbn [add_layers]. by rewrite add_layers_stream, stream_twice. Qed.

Lemma key_xor_twice (a b : list Z) : length a = length b -> key_xor (key_xor a b) b = a.
Proof.
  unfold key_xor. revert b. induction a as [|x a IH]; intros [|y b]; cbn; [done..|]. intros [= H].
  by rewrite Z.lxor_assoc, Z.lxor_nilpotent, Z.lxor_0_r, IH.
Qed.
(** What reaches the owner of the path when the end of it sends [x] with the nonce [y]. *)
Fixpoint wrap_layers cfgs x y : list Z * list Z :=
  match cfgs with
  | [] => (x, y)
  | h :: cfgs => let (x, y) := wrap_layers cfgs x y in (stream x (shared h) y, key_xor y (hop_nonceXOR h))
  end.
Definition keys_sized cfgs : Prop := Forall (fun h => length (hop_nonceXOR h) = 32%nat) cfgs.
Lemma length_wrap_layers cfgs x y : keys_sized cfgs -> length y = 32%nat ->
  length (wrap_layers cfgs x y).1 = length x /\ length (wrap_layers cfgs x y).2 = 32%nat.
Proof using CS.
  intros Hk Hy. induction Hk as [|h cfgs Hh _ [IH1 IH2]]; cbn [wrap_layers]; [done|]. destruct (wrap_layers cfgs x y) as [x1 y1]. cbn [fst snd] in *.
  by rewrite length_stream, length_key_xor by congruence.
Qed.
Lemma strip_wrap cfgs x y : keys_sized cfgs -> length y = 32%nat -> strip_layers cfgs (wrap_layers cfgs x y).1 (wrap_layers cfgs x y).2 = (x, y).
Proof using CS.
  intros Hk Hy. induction Hk as [|h cfgs Hh Hk IH]; cbn [wrap_layers]; [done|]. destruct (length_wrap_layers cfgs x y Hk Hy) as [_ Hl].
  destruct (wrap_layers cfgs x y) as [x1 y1]. cbn [fst snd strip_layers] in *. by rewrite key_xor_twice, stream_twice by congruence.
Qed.
End layers.

(** ** Messages fit *)
Section texts.
Context {IP : InetPton} {IN : InetNtop} {INS : InetNtopSpec IP IN} {BT : OxencBt} {BD : OxencDict} {BDS : OxencDictSpec BD}.
Context (ours : list Z) (rank0 port0 : Z).
Import LinkMessageSpec.
Lemma relay_text_fits m c : relay_ok m -> (length (dict (([c_a], enc_str [c]) :: relay_text m)) < MAX_LINK_MSG_SIZE)%nat.
Proof.
  intros (Hp & HX & HY & _). rewrite length_dict. unfold relay_text, entries. cbn [fmap list_fmap concat fst snd]. rewrite !length_app.
  assert (forall s, (length s <= Relay.MAX_X)%nat -> (length (enc_str s) <= length s + 10)%nat) as L.
  { intros s Hs. apply length_enc_str_le. by apply MAX_X_ok. }
  pose proof (L (Relay.X m) HX) as L1. pose proof (L (Relay.pathid m)) as L2. pose proof (L (Relay.Y m)) as L3. clear L.
  change (length (enc_str [c_a])) with 3%nat. change (length (enc_str [c])) with 3%nat. change (length (enc_str [c_p])) with 3%nat. change (length (enc_str [c_v])) with 3%nat.
  change (length (enc_str [c_x])) with 3%nat. change (length (enc_str [c_y])) with 3%nat. change (length (enc_int proto_version)) with 3%nat. cbn [length].
  unfold Relay.MAX_X, MAX_LINK_MSG_SIZE in *. lia.
Qed.
Lemma relay_encodes (m : ILinkMessage) x : (m = LUpstream x \/ m = LDownstream x) -> relay_ok x ->
  exists text, encode_into MAX_LINK_MSG_SIZE (link_BEncode ours rank0 port0 m) = Ok (Some text).
Proof using INS BDS.
  intros Hm Hx. exists (dict (link_text m)). apply encode_into_writes.
  - apply (writes_link ours rank0 port0 (zeros 32)). by destruct Hm as [-> | ->].
  - destruct Hm as [-> | ->]; by apply relay_text_fits.
Qed.
End texts.

(** ** Texts in the buffers of messages *)
Lemma write_zeros (w : writer) out n : writes w out -> (length out < n)%nat ->
  exists c, w (Buffer (zeros n) 0) = Ok (true, out ‖ c :: zeros (n - length out - 1)).
Proof.
  intros Hw Hn. unfold zeros. replace (replicate n 0) with (replicate (length out) 0 ++ 0 :: replicate (n - length out - 1) 0).
  2:{ change (0 :: replicate ?k 0) with (replicate (S k) 0). rewrite <- replicate_add. f_equal. lia. }
  destruct (Hw [] (replicate (length out) 0) 0 (replicate (n - length out - 1) 0)) as [c E]; [apply length_replicate|]. by exists c.
Qed.
Lemma store_padding (out padding rest : list Z) : (length padding <= length rest)%nat ->
  store padding (out ‖ rest) = Ok (Buffer (out ++ padding ++ drop (length padding) rest) (length out)).
Proof.
  intros Hl. unfold store, sz. cbn [mem cur]. rewrite length_app, (proj2 (Nat.leb_le _ _)) by lia. by rewrite take_app_length, drop_app_add.
Qed.

(** ** Relays *)
Section relays.
Context {IP : InetPton} {IN : InetNtop} {INS : InetNtopSpec IP IN} {BT : OxencBt} {BD : OxencDict} {BDS : OxencDictSpec BD} {O : Oxenc}.
Context {CR : Crypto} {CS : StreamCipherSpec CR} {KP : KeyPairs} {SH : ShortHasher} {UN : Uninit} {RN : Random} {RS : RandomSpec RN}.
Context {D X : Type} {DA : DhtApi D} {XA : ExitApi X}.
Context (ours : list Z) (rank0 port0 : Z).
Abbreviation node := (Node D X).
Implicit Types (n : node) (e : Env) (h : nat) (cfg : PathHopConfig).

(** The worker threads have nothing to do. *)
Definition quiet n : Prop := m_UpstreamSubmit n = [] /\ m_UpstreamGather n = [] /\ m_DownstreamSubmit n = [] /\ m_DownstreamGather n = [].
(** A relayed message is handled by the router, then by its worker, then by the loop. *)
Definition relay_up e (from : RouterID) (m : Relay.t) n : res node :=
  let* n := RunUpstream (Upstream_HandleMessage from m n).2 in Gather ours rank0 port0 e n.
Definition relay_down e h (ev : TrafficEvent_t) n : res node :=
  let* n := RunDownstream (HandleDownstream h ev n).2 in Gather ours rank0 port0 e n.

Lemma quiet_gather_up n : quiet n -> n <| m_UpstreamSubmit := [] |> <| m_UpstreamGather := [] |> = n.
Proof. destruct n. unfold quiet. cbn. intros (-> & -> & _ & _). done. Qed.
Lemma send_to_relay e remote (m : ILinkMessage) x n : (m = LUpstream x \/ m = LDownstream x) -> LinkMessageSpec.relay_ok x -> session_allowed e remote = true ->
  SendToOrQueue ours rank0 port0 e remote m no_handler n = Ok (true, call (Queued remote m no_handler) n).
Proof using INS BDS. intros Hm Hx Ha. unfold SendToOrQueue. rewrite Ha. cbn [negb]. destruct (relay_encodes ours rank0 port0 m x Hm Hx) as [text ->]. done. Qed.
Lemma gather_up_one e h m hop n : quiet n -> m_Hops n !! h = Some hop ->
  gather_upstream ours rank0 port0 e (n <| m_UpstreamSubmit := [] |> <| m_UpstreamGather := [(h, m)] |>) = HandleAllUpstream ours rank0 port0 e h [m] n.
Proof.
  intros Hq Hh. unfold gather_upstream. change (m_Hops (n <| _ := _ |> <| _ := _ |>)) with (m_Hops n). change (m_UpstreamGather (_ <| _ := ?l |>)) with l.
  unfold alive. rewrite filter_cons, decide_True by (by exists hop). cbn [filter list_filter group foldl add_to fst snd for_hops].
  change (n <| m_UpstreamSubmit := [] |> <| m_UpstreamGather := [(h, m)] |> <| m_UpstreamGather := [] |>) with (n <| m_UpstreamSubmit := [] |> <| m_UpstreamGather := [] |>).
  rewrite quiet_gather_up by done. by destruct (HandleAllUpstream _ _ _ _ _ _ _).
Qed.
Lemma gather_down_none e n : m_DownstreamGather n = [] -> gather_downstream ours rank0 port0 e n = Ok n.
Proof. intros H. unfold gather_downstream. rewrite H. cbn. f_equal. destruct n. cbn in *. by subst. Qed.
(** What a relayed message does to a quiet router. *)
Lemma relay_up_run e from m n h hop : quiet n -> GetByDownstream from (Relay.pathid m) n = Some h -> m_Hops n !! h = Some hop ->
  relay_up e from m n = let* n := HandleAllUpstream ours rank0 port0 e h [peel hop (Relay.X m, Relay.Y m)] n in gather_downstream ours rank0 port0 e n.
Proof.
  intros Hq Hg Hh. rewrite <- (gather_up_one e h _ hop n) by done. unfold relay_up, Upstream_HandleMessage. rewrite Hg. destruct Hq as (Q1 & Q2 & _ & _).
  unfold RunUpstream. destruct n. cbn in Q1, Q2, Hh. subst. cbn -[Gather gather_upstream]. unfold hop_at. cbn -[Gather gather_upstream]. rewrite Hh. done.
Qed.
(** The layer of the hop comes off, and the message goes to the next router. *)
Lemma relay_up_forwards e from m n h hop : quiet n -> GetByDownstream from (Relay.pathid m) n = Some h -> m_Hops n !! h = Some hop ->
  upstream (TransitHop.info hop) <> pubkey n -> session_allowed e (upstream (TransitHop.info hop)) = true -> LinkMessageSpec.relay_ok (peel hop (Relay.X m, Relay.Y m)) ->
  relay_up e from m n = Ok (call (Queued (upstream (TransitHop.info hop)) (LUpstream (peel hop (Relay.X m, Relay.Y m))) no_handler) n).
Proof using INS BDS.
  intros Hq Hg Hh Hu Ha Hok. rewrite (relay_up_run e from m n h hop) by done. cbn [HandleAllUpstream]. unfold hop_at. rewrite Hh. cbn [rbind].
  unfold TransitHop.IsEndpoint. rewrite bool_decide_false by done. rewrite (send_to_relay e _ _ (peel hop (Relay.X m, Relay.Y m))) by auto. cbn [rbind].
  apply gather_down_none. apply Hq.
Qed.

(** ** A chain of relays *)
(** The hop at [h] of a router was made for a hop of the path: it has its keys and ids, and the table finds it. *)
Definition serves n h (hop : TransitHop.t) cfg (prev next : RouterID) : Prop :=
  m_Hops n !! h = Some hop /\ TransitHop.pathKey hop = shared cfg /\ TransitHop.nonceXOR hop = hop_nonceXOR cfg
  /\ TransitHop.info hop = MkInfo (hop_txID cfg) (hop_rxID cfg) next prev
  /\ (forall id, id = hop_txID cfg \/ id = hop_rxID cfg -> GetByDownstream prev id n = Some h)
  /\ TransitHopByUpstream next (hop_txID cfg) n = Some h /\ quiet n /\ pubkey n = hop_key cfg.
Definition ids_sized (cfgs : list PathHopConfig) : Prop := Forall (fun c => length (hop_txID c) = 16%nat /\ length (hop_rxID c) = 16%nat) cfgs.
(** Each router serves its hop and has the router of the next hop upstream; the last one is the end. *)
Fixpoint chain (prev : RouterID) (cfgs : list PathHopConfig) (ns : list (node * nat)) : Prop :=
  match cfgs, ns with
  | [cfg], [(n, h)] => exists hop, serves n h hop cfg prev (hop_key cfg)
  | cfg :: (cfg' :: _) as rest, (n, h) :: ns =>
      (exists hop, serves n h hop cfg prev (hop_key cfg')) /\ hop_key cfg' <> hop_key cfg /\ hop_txID cfg = hop_rxID cfg' /\ chain (hop_key cfg) rest ns
  | _, _ => False
  end.
(** A message goes from router to router as long as it is queued for the next one. *)
Definition new_calls n n' : list RouterCall := drop (length (calls n)) (calls n').
Fixpoint carry_up e (from : RouterID) (m : Relay.t) (ns : list node) : res (list node) :=
  match ns with
  | [] => Ok []
  | n :: ns =>
      let* n' := relay_up e from m n in
      match new_calls n n', ns with
      | [Queued next (LUpstream m') _], n1 :: _ =>
          if bool_decide (next = pubkey n1) then let* ns' := carry_up e (pubkey n) m' ns in Ok (n' :: ns') else Ok (n' :: ns)
      | _, _ => Ok (n' :: ns)
      end
  end.
Lemma new_calls_one c n : new_calls n (call c n) = [c].
Proof. unfold new_calls. change (calls (call c n)) with (calls n ++ [c]). by rewrite drop_app_length. Qed.
Lemma peel_serves n h hop cfg prev next x (y : TunnelNonce) cfgs : serves n h hop cfg prev next -> (length x <= Relay.MAX_X)%nat ->
  peel hop (add_layers (cfg :: cfgs) x y, y) = Relay.Mk (hop_txID cfg) (add_layers cfgs x (key_xor y (hop_nonceXOR cfg))) (key_xor y (hop_nonceXOR cfg)) proto_version.
Proof using CS.
  intros (_ & Hk & Hx & Hi & _) Hl. unfold peel. cbn [fst snd]. rewrite Hk, Hx, Hi, peel_layer. cbn [txID]. unfold Encrypted.assign.
  by rewrite length_add_layers, (proj2 (Nat.leb_le _ _)).
Qed.
(** The routers between the ends are left as they were, but for the message each has sent on. *)
Fixpoint passed_on (prev : RouterID) (cfgs : list PathHopConfig) (x y : list Z) (ns : list (node * nat)) : list node :=
  match cfgs, ns with
  | cfg :: (cfg' :: _) as rest, (n, h) :: ns =>
      let y := key_xor y (hop_nonceXOR cfg) in
      call (Queued (hop_key cfg') (LUpstream (Relay.Mk (hop_txID cfg) (add_layers rest x y) y proto_version)) no_handler) n :: passed_on (hop_key cfg) rest x y ns
  | _, _ => []
  end.
Lemma chain_head prev cfg cfgs n h ns : chain prev (cfg :: cfgs) ((n, h) :: ns) -> pubkey n = hop_key cfg.
Proof.
  cbn [chain]. destruct cfgs; [destruct ns; [|done]; intros (? & ? & ? & ? & ? & ? & ? & ? & H); done|].
  intros ((? & ? & ? & ? & ? & ? & ? & ? & H) & _); done.
Qed.
(** A router that has only sent a message on. *)
Definition passed n n' : Prop := exists next m, n' = call (Queued next m no_handler) n.
Lemma passed_on_all prev cfgs x y ns : chain prev cfgs ns -> Forall2 passed (take (length ns - 1) ns.*1) (passed_on prev cfgs x y ns).
Proof.
  revert prev y ns. induction cfgs as [|cfg [|cfg' cfgs] IH]; intros prev y [|[n h] ns] Hc; try done; [destruct ns; [constructor|done]|].
  destruct Hc as (_ & _ & _ & Hc). destruct ns as [|z ns]; [by destruct cfgs|]. specialize (IH (hop_key cfg) (key_xor y (hop_nonceXOR cfg)) (z :: ns) Hc).
  change (length ((n, h) :: z :: ns) - 1)%nat with (S (length ns)). cbn [length] in IH. rewrite Nat.sub_succ, Nat.sub_0_r in IH.
  change (((n, h) :: z :: ns).*1) with (n :: (z :: ns).*1). rewrite firstn_cons.
  by apply Forall2_cons; split; [eexists _, _|exact IH].
Qed.
Lemma carry_up_chain e prev cfgs ns id x y : chain prev cfgs ns -> keys_sized cfgs -> ids_sized cfgs -> length y = 32%nat -> (length x <= Relay.MAX_X)%nat ->
  (forall cfg, cfg ∈ cfgs -> session_allowed e (hop_key cfg) = true) -> (forall cfg, head cfgs = Some cfg -> id = hop_txID cfg \/ id = hop_rxID cfg) ->
  exists n h hop cfg up, last ns = Some (n, h) /\ last cfgs = Some cfg /\ serves n h hop cfg up (hop_key cfg) /\
  carry_up e prev (Relay.Mk id (add_layers cfgs x y) y proto_version) ns.*1
  = let* n := HandleAllUpstream ours rank0 port0 e h [Relay.Mk (hop_txID cfg) x (foldl key_xor y (hop_nonceXOR <$> cfgs)) proto_version] n in
    let* n := gather_downstream ours rank0 port0 e n in Ok (passed_on prev cfgs x y ns ++ [n]).
Proof using INS BDS CS.
  revert prev ns id y. induction cfgs as [|cfg [|cfg' cfgs] IH]; intros prev [|[n h] ns] id y Hc Hk Hi Hy Hx Ha Hid; try done.
  - destruct ns; [|done]. destruct Hc as [hop Hs]. exists n, h, hop, cfg, prev. split_and!; [done..|]. cbn [carry_up fmap list_fmap fst].
    pose proof (peel_serves n h hop cfg prev _ x y [] Hs Hx) as Hp. destruct Hs as (S1 & S2 & S3 & S4 & S5 & S6 & S7 & S8).
    rewrite (relay_up_run e prev _ n h hop); [|done|apply S5; cbn [Relay.pathid]; by apply Hid|done]. cbn [Relay.X Relay.Y]. rewrite Hp. cbn [add_layers foldl fmap list_fmap passed_on app].
    destruct (HandleAllUpstream _ _ _ _ _ _ _) as [n1| | |]; cbn [rbind]; [|done..]. destruct (gather_downstream _ _ _ _ _) as [n2| | |]; cbn [rbind]; [|done..].
    by repeat case_match.
  - destruct Hc as ((hop & Hs) & Hne & Htx & Hc). apply Forall_cons in Hk as [Hk1 Hk]. apply Forall_cons in Hi as [[Hi1 Hi2] Hi].
    pose proof (peel_serves n h hop cfg prev _ x y (cfg' :: cfgs) Hs Hx) as Hp. pose proof Hs as (S1 & S2 & S3 & S4 & S5 & S6 & S7 & S8).
    set (y' := key_xor y (hop_nonceXOR cfg)) in *. assert (length y' = 32%nat) as Hy' by (unfold y'; rewrite length_key_xor; congruence).
    assert (upstream (TransitHop.info hop) = hop_key cfg') as Hup by (by rewrite S4).
    destruct (IH (hop_key cfg) ns (hop_txID cfg) y') as (n1 & h1 & hop1 & cfg1 & up1 & L1 & L2 & L3 & E); [done..|intros c Hcc; apply Ha; by right| |].
    { intros c [= <-]. by right. }
    exists n1, h1, hop1, cfg1, up1. split_and!; [by destruct ns|done|done|]. cbn [carry_up fmap list_fmap fst].
    rewrite (relay_up_forwards e prev _ n h hop); [|done|apply S5; by apply Hid|done|congruence|rewrite Hup; apply Ha; right; left| ].
    2:{ cbn [Relay.X Relay.Y]. rewrite Hp. split_and!; [done|cbn [Relay.X]; by rewrite length_add_layers|done|done]. }
    cbn [rbind Relay.X Relay.Y]. rewrite Hp, Hup, new_calls_one. destruct ns as [|[n' h'] ns]; [done|]. cbn [fmap list_fmap fst].
    rewrite bool_decide_true by (by rewrite (chain_head _ _ _ _ _ _ Hc)). change (n' :: ns.*1) with (((n', h') :: ns).*1). rewrite S8, E. cbn [foldl fmap list_fmap].
    destruct (HandleAllUpstream _ _ _ _ _ _ _) as [n2| | |]; cbn [rbind]; [|done..]. by destruct (gather_downstream _ _ _ _ _).
Qed.

(** ** The end of a path *)
Definition parser_ready n : Prop := RoutingSpec.clean (m_Holder (m_Parser n)) /\ version (m_Parser n) = 0.
(** What is left to do when the message at the end of the path has been handled. *)
Definition end_up e h (ps : InboundMessageParser) n : res node :=
  gather_downstream ours rank0 port0 e (set_hop h (fun hop => hop <| TransitHop.m_LastActivity := Now e |>) (n <| m_Parser := ps |>)).
Lemma handled_at_end e h hop cfg up n m rest y : serves n h hop cfg up (hop_key cfg) -> parser_ready n ->
  RoutingSpec.routing_ok m -> RoutingSpec.letter m <> c_V ->
  exists ps, RoutingSpec.clean (m_Holder ps) /\ version ps = 0 /\
  (let* n := HandleAllUpstream ours rank0 port0 e h [Relay.Mk (hop_txID cfg) (dict (RoutingSpec.routing_text m) ++ rest) y proto_version] n in gather_downstream ours rank0 port0 e n)
  = let* (_, n) := HandleRoutingMessage h (hop_rxID cfg) (RoutingSpec.received m) n in end_up e h ps n.
Proof using INS BDS.
  intros (S1 & _ & _ & S4 & _ & _ & _ & S8) [Hc Hv] Hok Hl. cbn [HandleAllUpstream]. unfold hop_at. rewrite S1. cbn [rbind]. unfold TransitHop.IsEndpoint.
  rewrite S4, bool_decide_true by done. cbn [rxID Relay.X]. unfold ParseRoutingMessageBuffer.
  destruct (RoutingSpec.message_parses ours rank0 port0 (HandleRoutingMessage h) (S (length (dict (RoutingSpec.routing_text m) ++ rest))) (hop_rxID cfg) m rest (m_Parser n))
    as (ps & Hc' & Hv' & E); [done..|rewrite length_app; lia|]. exists ps. split_and!; [done..|]. rewrite E.
  by destruct (HandleRoutingMessage h _ _ n) as [[ok n']| | |].
Qed.

Definition padding_for n (len : nat) : list Z := if (len `mod` pad_size =? 0)%nat then [] else randbytes (S (draws n)) (pad_size - len `mod` pad_size).
Definition drawn n (len : nat) : node := n <| draws ::= fun k => if (len `mod` pad_size =? 0)%nat then S k else S (S k) |>.
(** The text, padded to a multiple of the pad size, fits the buffer, and goes to the worker with a nonce. *)
Lemma send_at_end h hop n w out : m_Hops n !! h = Some hop -> upstream (TransitHop.info hop) = pubkey n -> writes w out -> (length out < MAX_LINK_MSG_SIZE - 128)%nat ->
  SendRoutingMessage h w n = Ok (HandleDownstream h (out ++ padding_for n (length out), randbytes (draws n) TUNNONCESIZE) (drawn n (length out)))
  /\ (length (out ++ padding_for n (length out)) <= Relay.MAX_X)%nat.
Proof using RS.
  intros Hh Hu Hw Hl. unfold SendRoutingMessage. unfold hop_at. rewrite Hh. cbn [rbind]. unfold TransitHop.IsEndpoint. rewrite bool_decide_true by done. cbn [negb].
  destruct (write_zeros w out _ Hw Hl) as [c ->]. cbn [rbind negb cur]. unfold draw. cbn [fst snd].
  assert (Relay.MAX_X = 63 * pad_size)%nat as HX by reflexivity. change (MAX_LINK_MSG_SIZE - 128)%nat with Relay.MAX_X in *. rewrite HX in *.
  pose proof (Nat.div_mod (length out) pad_size) as Hdm. pose proof (Nat.mod_upper_bound (length out) pad_size) as Hb. unfold pad_size in *.
  unfold padding_for, drawn, pad_size. destruct (Nat.eqb_spec (length out `mod` 128) 0) as [E|E].
  - cbn [rbind]. rewrite app_nil_r. cbn [mem]. rewrite take_app_length. split; [done|lia].
  - change (draws (n <| _ ::= S |>)) with (S (draws n)). rewrite store_padding.
    2:{ rewrite length_randbytes. cbn [length]. unfold zeros. rewrite length_replicate. nia. }
    cbn [rbind cur mem]. rewrite length_app, length_randbytes. split; [|nia]. do 3 f_equal.
    rewrite app_assoc, take_app_length' by (rewrite length_app, length_randbytes; lia). done.
Qed.
End relays.

Lemma insert_fresh {A} `{Countable A} clock (v : A) now s : DecayingHashSet.Contains v s = false -> exists s', DecayingHashSet.Insert clock v now s = (true, s').
Proof. unfold DecayingHashSet.Contains, DecayingHashSet.Insert. intros E. destruct (DecayingHashSet.m_Values s !! v); [done|]. by eexists. Qed.

Lemma alter_insert {A} (m : gmap nat A) p (x : A) f : m !! p = Some x -> alter f p m = <[p := f x]> m.
Proof.
  intros H. apply map_eq. intros j. destruct (decide (j = p)) as [->|]; [by rewrite lookup_alter_eq, lookup_insert_eq, H|by rewrite lookup_alter_ne, lookup_insert_ne].
Qed.

(** ** The owner of the path *)
Section owner.
Context {IP : InetPton} {IN : InetNtop} {INS : InetNtopSpec IP IN} {BT : OxencBt} {BD : OxencDict} {BDS : OxencDictSpec BD} {O : Oxenc}.
Context {CR : Crypto} {CS : StreamCipherSpec CR} {KP : KeyPairs} {SH : ShortHasher} {UN : Uninit} {RN : Random} {RS : RandomSpec RN}.
Context {D X P : Type} {DA : DhtApi D} {XA : ExitApi X} {PO : PathOwner (Router D X P)}.
Context (ours : list Z) (rank0 port0 : Z).
Abbreviation router := (Router D X P).
Implicit Types (r : router) (e : Env) (p h : nat) (x : Path.t).

(** A path whose worker threads have nothing to do. *)
Definition idle p x r : Prop :=
  m_PathObjs r !! p = Some x /\ Path.hops x <> [] /\ up_submit r = [] /\ up_gather r = [] /\ down_submit r = [] /\ down_gather r = [].
(** A message is sent up a path: it is written, its layers are put on, and it is queued for the first hop. *)
Definition send_up e p (w : writer) r : res router :=
  let* (_, r) := path_SendRoutingMessage e p proto_version w r in
  let* r := UpstreamWork r in Wakeup ours rank0 port0 e r.
Definition travel_up e p (w : writer) r (ns : list (Node D X)) : res (router * list (Node D X)) :=
  let* r' := send_up e p w r in
  match new_calls (node r) (node r'), ns with
  | [Queued next (LUpstream m) _], n1 :: _ =>
      if bool_decide (next = pubkey n1) then let* ns := carry_up ours rank0 port0 e (pubkey (node r)) m ns in Ok (r', ns) else Ok (r', ns)
  | _, _ => Ok (r', ns)
  end.
Definition up_padding r (len : nat) : list Z := if (len <? pad_size)%nat then randbytes (S (draws (node r))) (pad_size - len) else [].

Lemma padded_fits r (out : list Z) : (length out < MAX_LINK_MSG_SIZE / 2)%nat -> (length (out ++ up_padding r (length out)) <= Relay.MAX_X)%nat.
Proof using RS.
  intros Hl. change (MAX_LINK_MSG_SIZE / 2)%nat with (4 * 1024)%nat in Hl. change Relay.MAX_X with (63 * 128)%nat. rewrite length_app. unfold up_padding.
  destruct (Nat.ltb_spec (length out) pad_size); [rewrite length_randbytes; unfold pad_size in *|cbn]; lia.
Qed.
(** The router once it has queued [m] for the first hop [next] of the path: it has drawn bytes, and
    the path has counted the message and knows its nonce. *)
Definition sent_up p x (next : RouterID) (m : Relay.t) r r' : Prop :=
  exists k f tx, r' = r <| node := call (Queued next (LUpstream m) no_handler) ((node r) <| draws := k |>) |>
                        <| m_PathObjs ::= <[p := x <| Path.m_UpstreamReplayFilter := f |> <| Path.m_TXRate := tx |>]> |>.
Lemma submit_up e p x r w out : idle p x r -> DecayingHashSet.Contains (randbytes (draws (node r)) TUNNONCESIZE) (Path.m_UpstreamReplayFilter x) = false ->
  writes w out -> (length out < MAX_LINK_MSG_SIZE / 2)%nat ->
  exists k f, path_SendRoutingMessage e p proto_version w r
    = Ok (true, r <| node := (node r) <| draws := k |> |> <| m_PathObjs ::= <[p := x <| Path.m_UpstreamReplayFilter := f |>]> |>
                  <| up_submit := [(p, (out ++ up_padding r (length out), randbytes (draws (node r)) TUNNONCESIZE))] |>).
Proof using RS.
  intros (H1 & _ & H2 & _) Hf Hw Hl. unfold path_SendRoutingMessage. cbn [negb Z.eqb proto_version]. destruct (write_zeros w out _ Hw Hl) as [c ->]. cbn [rbind negb cur].
  unfold path_draw, on_node, draw. cbn [fst snd].
  assert (forall r' k, m_PathObjs r' = m_PathObjs r -> up_submit r' = [] ->
    exists f, path_HandleUpstream e p (k, randbytes (draws (node r)) TUNNONCESIZE) r'
    = Ok (true, r' <| m_PathObjs ::= <[p := x <| Path.m_UpstreamReplayFilter := f |>]> |> <| up_submit := [(p, (k, randbytes (draws (node r)) TUNNONCESIZE))] |>)) as Hsub.
  { intros r' k Hp Hs. unfold path_HandleUpstream, path_at. rewrite Hp, H1. cbn [rbind snd]. destruct (insert_fresh (A := TunnelNonce) (Now e) _ 0 _ Hf) as [s' ->]. cbn [negb].
    exists s'. do 2 f_equal. unfold set_path. destruct r'. cbn in *. subst. cbv [update]. cbn. f_equal. by rewrite (alter_insert _ _ _ _ H1). }
  unfold up_padding. destruct (Nat.ltb_spec (length out) pad_size) as [Hlt|Hge].
  - change (draws (node (r <| node := _ |>))) with (S (draws (node r))). rewrite store_padding.
    2:{ rewrite length_randbytes. cbn [length]. unfold zeros. rewrite length_replicate. unfold pad_size in *. change (MAX_LINK_MSG_SIZE / 2)%nat with (4 * 1024)%nat in *. lia. }
    cbn [rbind mem]. rewrite app_assoc, take_app_length' by (rewrite length_app, length_randbytes; lia).
    pose (r1 := r <| node := (node r) <| draws := S (S (draws (node r))) |> |>).
    destruct (Hsub r1 (out ++ randbytes (S (draws (node r))) (pad_size - length out)) eq_refl H2) as (f & E). exists (S (S (draws (node r)))), f. exact E.
  - cbn [rbind mem]. rewrite take_app_length, app_nil_r.
    pose (r1 := r <| node := (node r) <| draws := S (draws (node r)) |> |>). destruct (Hsub r1 out eq_refl H2) as (f & E). exists (S (draws (node r))), f. exact E.
Qed.
Lemma wakeup_up e p x r m : m_PathObjs r !! p = Some x -> up_gather r = [(p, m)] -> down_gather r = [] ->
  Wakeup ours rank0 port0 e r = path_HandleAllUpstream ours rank0 port0 e p [m] (r <| up_gather := [] |> <| down_gather := [] |>).
Proof.
  intros Hp Hu Hd. unfold Wakeup. rewrite Hu, Hd. rewrite filter_cons, decide_True by (by exists x). cbn [filter list_filter group foldl add_to fst snd for_paths].
  by destruct (path_HandleAllUpstream _ _ _ _ _ _ _).
Qed.
Lemma send_up_run e p x r w out c0 cfgs : idle p x r -> Path.hops x = c0 :: cfgs -> ids_sized (c0 :: cfgs) ->
  DecayingHashSet.Contains (randbytes (draws (node r)) TUNNONCESIZE) (Path.m_UpstreamReplayFilter x) = false ->
  writes w out -> (length out < MAX_LINK_MSG_SIZE / 2)%nat -> session_allowed e (hop_key c0) = true ->
  let N := randbytes (draws (node r)) TUNNONCESIZE in
  exists r', send_up e p w r = Ok r'
    /\ sent_up p x (hop_key c0) (Relay.Mk (hop_txID c0) (add_layers (c0 :: cfgs) (out ++ up_padding r (length out)) N) N proto_version) r r'.
Proof using INS BDS CS RS.
  intros Hi Hh Hids Hf Hw Hl Ha N. destruct (submit_up e p x r w out Hi Hf Hw Hl) as (k & f & E). fold N in E. set (text := out ++ up_padding r (length out)) in *.
  unfold send_up. rewrite E. cbn [rbind]. destruct Hi as (_ & _ & I3 & I4 & _ & I6). set (x' := x <| Path.m_UpstreamReplayFilter := f |>).
  set (m := Relay.Mk (hop_txID c0) (add_layers (c0 :: cfgs) text N) N proto_version).
  pose (r1 := r <| node := (node r) <| draws := k |> |> <| m_PathObjs ::= <[p := x']> |>).
  assert (length text <= Relay.MAX_X)%nat as Ht by (by apply padded_fits).
  assert (m_PathObjs r1 !! p = Some x') as Hp by apply lookup_insert_eq. assert (Path.hops x' = c0 :: cfgs) as Hx' by done.
  match goal with |- context [UpstreamWork ?q] => assert (UpstreamWork q = Ok (r1 <| up_gather := [(p, m)] |>)) as -> end.
  { unfold UpstreamWork. cbv [update]. cbn. rewrite lookup_insert_eq. unfold Path.TXID, Path.first_hop. cbn [Path.hops].
    rewrite Hx'. cbn. rewrite I4. unfold Encrypted.assign. rewrite length_add_layers, length_stream, (proj2 (Nat.leb_le _ _)) by done. destruct r. cbn in I3. subst. done. }
  cbn [rbind]. rewrite (wakeup_up e p x' _ m) by done. assert (r1 <| up_gather := [(p, m)] |> <| up_gather := [] |> <| down_gather := [] |> = r1) as -> by (unfold r1; destruct r; cbn in *; by subst).
  cbn [path_HandleAllUpstream]. unfold path_at. rewrite Hp. cbn [rbind]. unfold Path.Upstream, Path.first_hop. rewrite Hx'. cbn [rbind]. unfold send_to.
  rewrite (send_to_relay ours rank0 port0 e (hop_key c0) _ m); [|by left| |done].
  2:{ apply Forall_cons in Hids as [[? ?] _]. split_and!; [done|cbn [Relay.X m]; by rewrite length_add_layers|apply length_randbytes|done]. }
  cbn [rbind]. eexists. split; [reflexivity|]. exists k, f, (u64 (Path.m_TXRate x + Z.of_nat (length (Relay.X m)))). unfold set_path, r1.
  destruct r. cbv [update]. cbn -[Relay.X]. f_equal. erewrite alter_insert by apply lookup_insert_eq. by rewrite insert_insert_eq.
Qed.
Lemma sent_up_calls p x next m r r' : sent_up p x next m r r' -> new_calls (node r) (node r') = [Queued next (LUpstream m) no_handler].
Proof. intros (k & f & tx & ->). unfold new_calls. exact (drop_app_length (calls (node r)) [Queued next (LUpstream m) no_handler]). Qed.

(** A path that is idle and its hops; the next nonce was not used, and the parser of the end waits for a message. *)
Definition up_ready e p x r (ns : list (Node D X * nat)) : Prop :=
  idle p x r /\ chain (pubkey (node r)) (Path.hops x) ns /\ keys_sized (Path.hops x) /\ ids_sized (Path.hops x)
  /\ DecayingHashSet.Contains (randbytes (draws (node r)) TUNNONCESIZE) (Path.m_UpstreamReplayFilter x) = false
  /\ (forall cfg, cfg ∈ Path.hops x -> session_allowed e (hop_key cfg) = true) /\ (forall n h, last ns = Some (n, h) -> parser_ready n).
Lemma carried_up e p x r m ns : up_ready e p x r ns ->
  RoutingSpec.routing_ok m -> RoutingSpec.letter m <> c_V -> (length (dict (RoutingSpec.routing_text m)) < MAX_LINK_MSG_SIZE / 2)%nat ->
  exists r' n h cfg ps between c0 m', head (Path.hops x) = Some c0 /\ send_up e p (routing_BEncode ours rank0 port0 m) r = Ok r' /\ sent_up p x (hop_key c0) m' r r'
  /\ last ns = Some (n, h) /\ last (Path.hops x) = Some cfg /\ RoutingSpec.clean (m_Holder ps) /\ version ps = 0 /\ Forall2 passed (take (length ns - 1) ns.*1) between
  /\ carry_up ours rank0 port0 e (pubkey (node r)) m' ns.*1
     = let* n := (let* (_, n) := HandleRoutingMessage h (hop_rxID cfg) (RoutingSpec.received m) n in end_up ours rank0 port0 e h ps n) in Ok (between ++ [n]).
Proof using INS BDS CS RS.
  intros (Hi & Hc & Hk & Hids & Hf & Ha & Hp) Hok Hl Hlen. pose proof (RoutingSpec.writes_routing ours rank0 port0 m Hok) as Hw.
  destruct (Path.hops x) as [|c0 cfgs] eqn:Hh; [done|].
  destruct (send_up_run e p x r _ _ c0 cfgs Hi Hh Hids Hf Hw Hlen (Ha c0 ltac:(left))) as (r' & E & Hsent).
  set (text := dict (RoutingSpec.routing_text m)) in *. set (pad := up_padding r (length text)) in *. set (N := randbytes (draws (node r)) TUNNONCESIZE) in *.
  destruct (carry_up_chain ours rank0 port0 e (pubkey (node r)) (c0 :: cfgs) ns (hop_txID c0) (text ++ pad) N Hc Hk Hids) as (n & h & hop & cfg & up & L1 & L2 & Hs & Ecar);
    [apply length_randbytes|by apply padded_fits|done|intros c [= <-]; by left|].
  destruct (handled_at_end ours rank0 port0 e h hop cfg up n m pad (foldl key_xor N (hop_nonceXOR <$> c0 :: cfgs)) Hs (Hp n h L1) Hok Hl) as (ps & Hps & Hv & Eh). fold text in Eh.
  exists r', n, h, cfg, ps, (passed_on (pubkey (node r)) (c0 :: cfgs) (text ++ pad) N ns), c0. eexists. split; [done|]. split; [exact E|]. split; [exact Hsent|].
  split_and!; [done..|by apply passed_on_all|]. rewrite Ecar, <- Eh. by destruct (HandleAllUpstream _ _ _ _ _ _ _) as [n2| | |].
Qed.
End owner.
