(* ===== verification/PathReply.v ===== *)
(** * What comes down a path (theorems on TransitHop, Path and PathContext)

    The end of a path sends a message down: each hop puts a layer on it and passes it to the router
    below, and the owner of the path takes all the layers off and handles the message. *)

From S2P Require Import Prelude Buffer Bencode Codec CryptoApi Str NetInt IpRange DnsName DnsMessage Contact TrafficPolicy Service Frame Protocol Kademlia DhtMessage Routing LinkMessage Profiling TransitHop Path PathContext PathSpec.
Import EncryptedFrame.

(** ** Relays *)
Section down.
Context {IP : InetPton} {IN : InetNtop} {INS : InetNtopSpec IP IN} {BT : OxencBt} {BD : OxencDict} {BDS : OxencDictSpec BD} {O : Oxenc}.
Context {CR : Crypto} {CS : StreamCipherSpec CR} {KP : KeyPairs} {SH : ShortHasher} {UN : Uninit} {RN : Random} {RS : RandomSpec RN}.
Context {D X : Type} {DA : DhtApi D} {XA : ExitApi X}.
Context (ours : list Z) (rank0 port0 : Z).
Implicit Types (n : Node D X) (e : Env) (h : nat) (cfg : PathHopConfig).

Lemma gather_up_none e n : m_UpstreamGather n = [] -> gather_upstream ours rank0 port0 e n = Ok n.
Proof. intros H. unfold gather_upstream. rewrite H. cbn. f_equal. destruct n. cbn in *. by subst. Qed.
(** The hop puts its layer on, and the message goes to the router below. *)
Lemma relay_down_run e h hop ev n : quiet n -> m_Hops n !! h = Some hop -> session_allowed e (downstream (TransitHop.info hop)) = true -> LinkMessageSpec.relay_ok (wrap_down hop ev) ->
  relay_down ours rank0 port0 e h ev n = Ok (call (Queued (downstream (TransitHop.info hop)) (LDownstream (wrap_down hop ev)) no_handler) n).
Proof using INS BDS.
  intros (Q1 & Q2 & Q3 & Q4) Hh Ha Hok. unfold relay_down. set (c := Queued _ _ _).
  assert (RunDownstream (HandleDownstream h ev n).2 = Ok (n <| m_DownstreamGather := [(h, wrap_down hop ev)] |>)) as ->.
  { unfold RunDownstream, HandleDownstream, hop_at. destruct n. cbn in *. subst. cbn. by rewrite Hh. }
  cbn [rbind]. unfold Gather. rewrite gather_up_none by done. cbn [rbind]. unfold gather_downstream.
  change (m_Hops (n <| m_DownstreamGather := _ |>)) with (m_Hops n). change (m_DownstreamGather (_ <| _ := ?l |>)) with l.
  unfold alive. rewrite filter_cons, decide_True by (by exists hop). cbn [filter list_filter group foldl add_to fst snd for_hops].
  assert (n <| m_DownstreamGather := [(h, wrap_down hop ev)] |> <| m_DownstreamGather := [] |> = n) as -> by (destruct n; cbn in Q4; by subst).
  cbn [HandleAllDownstream]. unfold hop_at. rewrite Hh. cbn [rbind]. by rewrite (send_to_relay ours rank0 port0 e _ _ (wrap_down hop ev)) by auto.
Qed.
(** The end of a path answers. *)
Definition reply e h (w : writer) n : res (Node D X) :=
  let* (_, n) := SendRoutingMessage h w n in let* n := RunDownstream n in Gather ours rank0 port0 e n.
Lemma wrap_serves n h hop cfg prev next x (y : TunnelNonce) : serves n h hop cfg prev next -> (length x <= Relay.MAX_X)%nat ->
  wrap_down hop (x, y) = Relay.Mk (hop_rxID cfg) (stream x (shared cfg) y) (key_xor y (hop_nonceXOR cfg)) proto_version.
Proof using CS.
  intros (_ & Hk & Hx & Hi & _) Hl. unfold wrap_down. cbn [fst snd]. rewrite Hk, Hx, Hi. cbn [rxID]. unfold Encrypted.assign.
  by rewrite length_stream, (proj2 (Nat.leb_le _ _)).
Qed.
Lemma wrap_ok cfg x (y : TunnelNonce) : length (hop_nonceXOR cfg) = 32%nat -> length (hop_rxID cfg) = 16%nat -> length y = 32%nat -> (length x <= Relay.MAX_X)%nat ->
  LinkMessageSpec.relay_ok (Relay.Mk (hop_rxID cfg) (stream x (shared cfg) y) (key_xor y (hop_nonceXOR cfg)) proto_version).
Proof using CS. intros Hk Hi Hy Hx. split_and!; [done|cbn [Relay.X]; by rewrite length_stream| |done]. cbn [Relay.Y]. rewrite length_key_xor; congruence. Qed.
Lemma reply_run e h hop cfg prev n w out : serves n h hop cfg prev (hop_key cfg) -> length (hop_nonceXOR cfg) = 32%nat -> length (hop_rxID cfg) = 16%nat ->
  session_allowed e prev = true -> writes w out -> (length out < MAX_LINK_MSG_SIZE - 128)%nat ->
  let N := randbytes (draws n) TUNNONCESIZE in let text := out ++ padding_for n (length out) in
  reply e h w n = Ok (call (Queued prev (LDownstream (Relay.Mk (hop_rxID cfg) (stream text (shared cfg) N) (key_xor N (hop_nonceXOR cfg)) proto_version)) no_handler) (drawn n (length out)))
  /\ (length text <= Relay.MAX_X)%nat.
Proof using INS BDS CS RS.
  intros Hs Hk Hi Ha Hw Hl N text. pose proof Hs as (S1 & _ & _ & S4 & _ & _ & Hq & S8). unfold reply.
  destruct (send_at_end h hop n w out S1) as [-> Ht]; [by rewrite S4, S8|done..|]. split; [|done]. cbn [rbind].
  pose (ev := (text, N) : TrafficEvent_t). assert (wrap_down hop ev = _) as Ew by exact (wrap_serves n h hop cfg prev (hop_key cfg) text N Hs Ht).
  transitivity (relay_down ours rank0 port0 e h ev (drawn n (length out))); [done|].
  rewrite (relay_down_run e h hop ev (drawn n (length out))); [by rewrite Ew, S4|exact Hq|exact S1|by rewrite S4|].
  rewrite Ew. apply wrap_ok; [done..|apply length_randbytes|done].
Qed.
End down.

(** The end of the chain. *)
Lemma chain_last {D X} (e : Env) prev cfgs (ns : list (Node D X * nat)) n h : chain prev cfgs ns -> last ns = Some (n, h) ->
  session_allowed e prev = true -> (forall cfg, cfg ∈ cfgs -> session_allowed e (hop_key cfg) = true) ->
  exists hop cfg from, serves n h hop cfg from (hop_key cfg) /\ cfg ∈ cfgs /\ session_allowed e from = true.
Proof.
  revert prev ns. induction cfgs as [|cfg [|cfg' cfgs] IH]; intros prev [|[n1 h1] ns] Hc Hl Hp Ha; try done.
  - destruct ns; [|done]. injection Hl as -> ->. destruct Hc as [hop Hs]. exists hop, cfg, prev. split_and!; [done|by left|done].
  - destruct Hc as (_ & _ & _ & Hc). destruct ns as [|y ns]; [by destruct cfgs|]. destruct (IH (hop_key cfg) (y :: ns) Hc Hl) as (hop & c & from & Hs & Hin & Hf);
      [apply Ha; by left|intros; apply Ha; by right|]. exists hop, c, from. split_and!; [done|by right|done].
Qed.

(** ** The way down *)
Section way_down.
Context {IP : InetPton} {IN : InetNtop} {INS : InetNtopSpec IP IN} {BT : OxencBt} {BD : OxencDict} {BDS : OxencDictSpec BD} {O : Oxenc}.
Context {CR : Crypto} {CS : StreamCipherSpec CR} {KP : KeyPairs} {SH : ShortHasher} {UN : Uninit} {RN : Random} {RS : RandomSpec RN}.
Context {D X P : Type} {DA : DhtApi D} {XA : ExitApi X} {PO : PathOwner (Router D X P)}.
Context (ours : list Z) (rank0 port0 : Z).
Abbreviation router := (Router D X P).
Implicit Types (r : router) (e : Env) (p h : nat) (x : Path.t) (rs : list (router * nat)).

(** A message from above: it is handled by the router, then by the worker of its hops, then by the loop. *)
Definition relay_reply e (from : RouterID) (m : Relay.t) r : res router :=
  let* (_, r) := LRDM_HandleMessage e from m r in
  let* n := RunDownstream (node r) in
  let* n := Gather ours rank0 port0 e n in Ok (r <| node := n |>).
(** The sender and the receiver of what a router has sent down. *)
Definition sent_down (n n' : Node D X) : option (RouterID * RouterID * Relay.t) :=
  match new_calls n n' with [Queued next (LDownstream m) _] => Some (pubkey n, next, m) | _ => None end.
(** The routers of a path from the one next to its owner to its end, which does [act]. *)
Fixpoint carry_down e (act : Node D X -> res (Node D X)) (rs : list router) : res (option (RouterID * RouterID * Relay.t) * list router) :=
  match rs with
  | [] => Ok (None, [])
  | [r] => let* n := act (node r) in Ok (sent_down (node r) n, [r <| node := n |>])
  | r :: above =>
      let* (m, above) := carry_down e act above in
      match m with
      | Some (from, next, m) =>
          if bool_decide (next = pubkey (node r)) then let* r' := relay_reply e from m r in Ok (sent_down (node r) (node r'), r' :: above) else Ok (None, r :: above)
      | None => Ok (None, r :: above)
      end
  end.
Definition travel_down e (act : Node D X -> res (Node D X)) (rs : list router) r : res (router * list router) :=
  let* (m, rs) := carry_down e act rs in
  match m with
  | Some (from, next, m) =>
      if bool_decide (next = pubkey (node r)) then
        let* (_, r) := LRDM_HandleMessage e from m r in
        let* r := Wakeup ours rank0 port0 e (DownstreamWork r) in Ok (r, rs)
      else Ok (r, rs)
  | None => Ok (r, rs)
  end.

(** A router that has only sent a message on. *)
Definition passed_down r r' : Prop := exists next m, r' = r <| node ::= call (Queued next m no_handler) |>.
(** The end of a path sends [text] down with the nonce [N]. *)
Definition sends_down e h (text N : list Z) n n' : Prop :=
  forall hop cfg prev, serves n h hop cfg prev (hop_key cfg) -> length (hop_nonceXOR cfg) = 32%nat -> length (hop_rxID cfg) = 16%nat -> session_allowed e prev = true ->
  sent_down n n' = Some (pubkey n, prev, Relay.Mk (hop_rxID cfg) (stream text (shared cfg) N) (key_xor N (hop_nonceXOR cfg)) proto_version).
Definition nodes rs : list (Node D X * nat) := (fun y => (node y.1, y.2)) <$> rs.
Lemma nodes_last rs r h : last rs = Some (r, h) -> last (nodes rs) = Some (node r, h).
Proof. intros H. unfold nodes. by rewrite fmap_last, H. Qed.
Lemma relay_reply_run e r h hop cfg prev next (x : list Z) (y : TunnelNonce) : serves (node r) h hop cfg prev next -> m_OurPaths r !! hop_txID cfg = None ->
  length (hop_nonceXOR cfg) = 32%nat -> length (hop_rxID cfg) = 16%nat -> length y = 32%nat -> (length x <= Relay.MAX_X)%nat -> session_allowed e prev = true ->
  relay_reply e next (Relay.Mk (hop_txID cfg) x y proto_version) r
  = Ok (r <| node := call (Queued prev (LDownstream (Relay.Mk (hop_rxID cfg) (stream x (shared cfg) y) (key_xor y (hop_nonceXOR cfg)) proto_version)) no_handler) (node r) |>).
Proof using INS BDS CS.
  intros Hs Hown Hk Hi Hy Hx Ha. pose proof Hs as (S1 & _ & _ & S4 & _ & S6 & Hq & _). unfold relay_reply, LRDM_HandleMessage, GetByUpstream. cbn [Relay.pathid Relay.X Relay.Y].
  rewrite Hown, S6. cbn [fmap option_fmap option_map rbind].
  pose (ev := (x, y) : TrafficEvent_t). assert (wrap_down hop ev = _) as Ew by exact (wrap_serves (node r) h hop cfg prev next x y Hs Hx).
  pose proof (relay_down_run ours rank0 port0 e h hop ev (node r) Hq S1) as E. rewrite S4, Ew in E. cbn [downstream] in E. specialize (E Ha (wrap_ok cfg x y Hk Hi Hy Hx)).
  unfold relay_down in E. change (node (r <| node := ?n |>)) with n. change (x, y) with ev. destruct (RunDownstream _) as [n1| | |]; [|done..]. cbn [rbind] in *. rewrite E. done.
Qed.
Lemma sent_down_one (n n1 : Node D X) next m cb : calls n1 = calls n -> sent_down n (call (Queued next (LDownstream m) cb) n1) = Some (pubkey n, next, m).
Proof. intros Hc. unfold sent_down, new_calls. change (calls (call ?c n1)) with (calls n1 ++ [c]). by rewrite Hc, drop_app_length. Qed.

Lemma wrap_layers_cons cfg cfgs (x y : list Z) :
  wrap_layers (cfg :: cfgs) x y = (stream (wrap_layers cfgs x y).1 (shared cfg) (wrap_layers cfgs x y).2, key_xor (wrap_layers cfgs x y).2 (hop_nonceXOR cfg)).
Proof. cbn [wrap_layers]. by destruct (wrap_layers cfgs x y). Qed.
Lemma wrap_nonce cfgs (x x' y : list Z) : (wrap_layers cfgs x y).2 = (wrap_layers cfgs x' y).2.
Proof. induction cfgs as [|cfg cfgs IH]; [done|]. rewrite !wrap_layers_cons. cbn [snd]. by rewrite IH. Qed.
Lemma carry_down_chain e prev cfgs rs act re h n' text N : chain prev cfgs (nodes rs) -> keys_sized cfgs -> ids_sized cfgs -> last rs = Some (re, h) ->
  Forall2 (fun cfg y => m_OurPaths y.1 !! hop_txID cfg = None) cfgs rs -> session_allowed e prev = true ->
  (forall cfg, cfg ∈ cfgs -> session_allowed e (hop_key cfg) = true) -> act (node re) = Ok n' -> sends_down e h text N (node re) n' -> (length text <= Relay.MAX_X)%nat -> length N = 32%nat ->
  exists (between : list router) cfg, head cfgs = Some cfg /\ Forall2 passed_down (take (length rs - 1) rs.*1) between /\
  carry_down e act rs.*1
  = Ok (Some (hop_key cfg, prev, Relay.Mk (hop_rxID cfg) (wrap_layers cfgs text N).1 (wrap_layers cfgs text N).2 proto_version), between ++ [re <| node := n' |>]).
Proof using INS BDS CS.
  intros Hc Hk Hi Hl Hown Hp Ha Hact Hsend Ht HN. revert prev rs Hc Hl Hown Hp. induction cfgs as [|cfg [|cfg' cfgs] IH]; intros prev [|[r hr] rs] Hc Hl Hown Hp; try done.
  - destruct rs; [|done]. injection Hl as -> ->. destruct Hc as [hop Hs]. pose proof Hs as (_ & _ & _ & _ & _ & _ & _ & S8). cbn [fst] in S8.
    apply Forall_cons in Hk as [Hk _]. apply Forall_cons in Hi as [[_ Hi] _]. exists [], cfg. cbn [carry_down fmap list_fmap fst].
    split_and!; [done|constructor|]. rewrite Hact. cbn [rbind]. rewrite (Hsend hop cfg prev Hs Hk Hi Hp), S8. done.
  - destruct Hc as ((hop & Hs) & Hne & Htx & Hc). pose proof Hs as (_ & _ & _ & _ & _ & _ & _ & S8). cbn [fst] in S8. destruct rs as [|[r1 h1] rs]; [by destruct cfgs|].
    apply Forall_cons in Hk as [Hk1 Hk]. apply Forall_cons in Hi as [[_ Hi1] Hi]. apply Forall2_cons in Hown as [Hown1 Hown]. cbn [fst] in Hown1.
    destruct (IH Hk Hi ltac:(intros c Hc'; apply Ha; by right) (hop_key cfg) ((r1, h1) :: rs) Hc) as (between & cfg1 & Hh & HF & E); [done|done|apply Ha; left|].
    injection Hh as <-. destruct (length_wrap_layers (cfg' :: cfgs) text N Hk HN) as [L1 L2].
    pose proof (wrap_layers_cons cfg (cfg' :: cfgs) text N) as Ewl.
    change (carry_down e act (((r, hr) :: (r1, h1) :: rs).*1)) with
      (let* (m, above) := carry_down e act (((r1, h1) :: rs).*1) in
       match m with
       | Some (from, next, m) =>
          if bool_decide (next = pubkey (node r)) then let* r' := relay_reply e from m r in Ok (sent_down (node r) (node r'), r' :: above) else Ok (None, r :: above)
       | None => Ok (None, r :: above)
       end).
    rewrite E. cbn [rbind]. rewrite bool_decide_true by done. rewrite <- Htx. set (wl := wrap_layers (cfg' :: cfgs) text N) in *.
    rewrite (relay_reply_run e r hr hop cfg prev (hop_key cfg') wl.1 wl.2); [|done|done|done..|by rewrite L1|done]. cbn [rbind].
    change (node (r <| node := ?n |>)) with n. rewrite sent_down_one by done. eexists (_ :: between), cfg. split_and!; [done| |rewrite S8, Ewl; reflexivity].
    cbn [length fmap list_fmap fst] in *. rewrite Nat.sub_succ, Nat.sub_0_r in *. cbn [take]. apply Forall2_cons. split; [by eexists _, _|exact HF].
Qed.

(** ** The owner of the path *)
Lemma wakeup_down e p x r m : m_PathObjs r !! p = Some x -> up_gather r = [] -> down_gather r = [(p, m)] ->
  Wakeup ours rank0 port0 e r = path_HandleAllDownstream ours rank0 port0 e p [m] (r <| up_gather := [] |> <| down_gather := [] |>).
Proof.
  intros Hp Hu Hd. unfold Wakeup. rewrite Hu, Hd. rewrite filter_cons, decide_True by (by exists x). cbn [filter list_filter group foldl add_to fst snd for_paths rbind].
  by destruct (path_HandleAllDownstream _ _ _ _ _ _ _).
Qed.
(** The layers come off, and the text goes to the parser. *)
Lemma take_down e p x r from id c0 cfgs text (y : TunnelNonce) : idle p x r -> Path.hops x = c0 :: cfgs -> keys_sized (Path.hops x) -> m_OurPaths r !! id = Some p -> length y = 32%nat ->
  (length text <= Relay.MAX_X)%nat -> DecayingHashSet.Contains (Val := TunnelNonce) (wrap_layers (Path.hops x) text y).2 (Path.m_DownstreamReplayFilter x) = false ->
  exists f k, let x' := x <| Path.m_DownstreamReplayFilter := f |> <| Path.m_RXRate := k |> in
  (let* (_, r) := LRDM_HandleMessage e from (Relay.Mk id (wrap_layers (Path.hops x) text y).1 (wrap_layers (Path.hops x) text y).2 proto_version) r in
   Wakeup ours rank0 port0 e (DownstreamWork r))
  = let* (ok, r) := path_HandleRoutingMessage ours rank0 port0 e p text (r <| m_PathObjs ::= <[p := x']> |>) in
    Ok (if ok : bool then set_path p (fun x => x <| Path.m_LastRecvMessage := Now e |>) r else r).
Proof using CS.
  intros (Hp & _ & I1 & I2 & I3 & I4) Hh Hk Hid Hy Ht Hf. pose proof (strip_wrap (Path.hops x) text y Hk Hy) as Es. set (wl := wrap_layers (Path.hops x) text y) in *.
  unfold LRDM_HandleMessage, GetByUpstream. cbn [Relay.pathid Relay.X Relay.Y]. rewrite Hid. unfold path_HandleDownstream, path_at. rewrite Hp. cbn [rbind snd].
  destruct (insert_fresh (A := TunnelNonce) (Now e) _ 0 _ Hf) as [f ->]. cbn [negb rbind]. exists f, (u64 (Path.m_RXRate x + Z.of_nat (length text))). cbv zeta.
  set (m := Relay.Mk (zeros PATHIDSIZE) text y proto_version). set (x1 := x <| Path.m_DownstreamReplayFilter := f |>).
  match goal with |- context [DownstreamWork ?q] => assert (DownstreamWork q = r <| m_PathObjs ::= <[p := x1]> |> <| down_gather := [(p, m)] |>) as -> end.
  { unfold DownstreamWork, set_path. destruct r. cbn in *. subst. cbv [update]. cbn. rewrite (alter_insert _ _ _ _ Hp), lookup_insert_eq.
    cbn [Path.hops]. rewrite Es. unfold Encrypted.assign. by rewrite (proj2 (Nat.leb_le _ _)). }
  rewrite (wakeup_down e p x1 _ m); [|apply lookup_insert_eq|done|done]. cbn [path_HandleAllDownstream Relay.X m].
  match goal with |- context [set_path p ?g (?q <| up_gather := [] |> <| down_gather := [] |>)] =>
    assert (set_path p g (q <| up_gather := [] |> <| down_gather := [] |>) = r <| m_PathObjs ::= <[p := x1 <| Path.m_RXRate := u64 (Path.m_RXRate x + Z.of_nat (length text)) |>]> |>) as -> end.
  { unfold set_path. destruct r as [r1 r2 r3 r4 r5 r6 r7 r8 r9 r10 r11 r12]. cbn in I1, I2, I3, I4. subst. cbv [update].
    cbn [eta_Router node m_PathObjs m_NextPath m_OurPaths m_PathSets profiling m_LimitedEdges up_submit up_gather down_submit down_gather owner].
    erewrite alter_insert by apply lookup_insert_eq. by rewrite insert_insert_eq. }
  by destruct (path_HandleRoutingMessage _ _ _ _ _ _ _) as [[[] ?]| | |].
Qed.
(** A path that is idle, its hops, and the nonce [N] of what comes down: the owner has not seen it. *)
Definition down_ready p x r rs re h e N : Prop :=
  idle p x r /\ parser_ready (node r) /\ chain (pubkey (node r)) (Path.hops x) (nodes rs) /\ last rs = Some (re, h)
  /\ keys_sized (Path.hops x) /\ ids_sized (Path.hops x) /\ (forall rx, Path.RXID x = Ok rx -> m_OurPaths r !! rx = Some p)
  /\ Forall2 (fun cfg y => m_OurPaths y.1 !! hop_txID cfg = None) (Path.hops x) rs
  /\ session_allowed e (pubkey (node r)) = true /\ (forall cfg, cfg ∈ Path.hops x -> session_allowed e (hop_key cfg) = true)
  /\ length N = 32%nat /\ DecayingHashSet.Contains (Val := TunnelNonce) (wrap_layers (Path.hops x) [] N).2 (Path.m_DownstreamReplayFilter x) = false.
(** What is left to do when the owner has handled a message. *)
Definition took e p (ps : InboundMessageParser) (ok : bool) r : router :=
  let r := r <| node ::= fun n => n <| m_Parser := ps |> |> in if ok then set_path p (fun x => x <| Path.m_LastRecvMessage := Now e |>) r else r.
Lemma carried_down e p x r rs re h m pad N act n' : down_ready p x r rs re h e N -> RoutingSpec.routing_ok m -> RoutingSpec.letter m <> c_V ->
  (length (dict (RoutingSpec.routing_text m) ++ pad) <= Relay.MAX_X)%nat -> act (node re) = Ok n' -> sends_down e h (dict (RoutingSpec.routing_text m) ++ pad) N (node re) n' ->
  exists (between : list router) rx ps f k, let x' := x <| Path.m_DownstreamReplayFilter := f |> <| Path.m_RXRate := k |> in
  Forall2 passed_down (take (length rs - 1) rs.*1) between /\ Path.RXID x = Ok rx /\ RoutingSpec.clean (m_Holder ps) /\
  travel_down e act rs.*1 r
  = let* (ok, r) := path_HandleRouting ours rank0 port0 e p rx (RoutingSpec.received m) (r <| m_PathObjs ::= <[p := x']> |>) in
    Ok (took e p ps ok r, between ++ [re <| node := n' |>]).
Proof using INS BDS CS.
  intros (Hi & [Hpc Hpv] & Hc & Hl & Hk & Hids & Hrx & Hown & Ha0 & Ha & HN & Hf) Hok Hv Ht Hact Hsend.
  destruct (carry_down_chain e _ _ rs act re h n' _ N Hc Hk Hids Hl Hown Ha0 Ha Hact Hsend Ht HN) as (between & c0 & Hh & HF & E).
  set (text := dict (RoutingSpec.routing_text m)) in *.
  destruct (Path.hops x) as [|c cfgs] eqn:Ehops; [done|]. injection Hh as ->. rewrite <- Ehops in *.
  assert (Path.RXID x = Ok (hop_rxID c0)) as Hx by (unfold Path.RXID, Path.first_hop; by rewrite Ehops).
  destruct (take_down e p x r (hop_key c0) (hop_rxID c0) c0 cfgs (text ++ pad) N Hi Ehops Hk (Hrx _ Hx)) as (f & k & Et);
    [done|done|by rewrite wrap_nonce with (x' := [])|].
  destruct (RoutingSpec.message_parses ours rank0 port0 (path_HandleRouting ours rank0 port0 e p) (S (length (text ++ pad))) (hop_rxID c0) m pad (m_Parser (node r)))
    as (ps & Hps & _ & Em); [done..|rewrite length_app; unfold text; lia|]. fold text in Em.
  exists between, (hop_rxID c0), ps, f, k. cbv zeta. split_and!; [done..|].
  unfold travel_down. rewrite E. cbn [rbind]. rewrite bool_decide_true by done. cbv zeta in Et. set (x' := x <| Path.m_DownstreamReplayFilter := f |> <| Path.m_RXRate := k |>) in *.
  match type of Et with ?l = _ => transitivity (let* r := l in Ok (r, between ++ [re <| node := n' |>])) end; [by destruct (LRDM_HandleMessage _ _ _ _) as [[]| | |]|]. rewrite Et.
  unfold path_HandleRoutingMessage, path_at. change (m_PathObjs (r <| m_PathObjs ::= ?g |>)) with (g (m_PathObjs r)). rewrite lookup_insert_eq. cbn [rbind].
  change (Path.RXID x') with (Path.RXID x). rewrite Hx. cbn [rbind]. change (m_Parser (node (r <| _ ::= _ |>))) with (m_Parser (node r)). rewrite Em.
  by destruct (path_HandleRouting _ _ _ _ _ _ _ _) as [[[] ?]| | |].
Qed.
(** C12. What the end of a path sends down, other than the message that moves an exit, and fits a link message is
    handled by the owner of the path as it was sent, once; the routers between only pass it on. *)
Theorem path_carries_down e p x r rs re h m : down_ready p x r rs re h e (randbytes (draws (node re)) TUNNONCESIZE) ->
  RoutingSpec.routing_ok m -> RoutingSpec.letter m <> c_V -> (length (dict (RoutingSpec.routing_text m)) < MAX_LINK_MSG_SIZE - 128)%nat ->
  exists (between : list router) rx ps f k n', let x' := x <| Path.m_DownstreamReplayFilter := f |> <| Path.m_RXRate := k |> in
  Forall2 passed_down (take (length rs - 1) rs.*1) between /\ Path.RXID x = Ok rx /\ RoutingSpec.clean (m_Holder ps) /\
  travel_down e (reply ours rank0 port0 e h (routing_BEncode ours rank0 port0 m)) rs.*1 r
  = let* (ok, r) := path_HandleRouting ours rank0 port0 e p rx (RoutingSpec.received m) (r <| m_PathObjs ::= <[p := x']> |>) in
    Ok (took e p ps ok r, between ++ [re <| node := n' |>]).
Proof using INS BDS CS RS.
  intros Htd Hok Hv Hlen. pose proof (RoutingSpec.writes_routing ours rank0 port0 m Hok) as Hw. pose proof Htd as (_ & _ & Hc & Hl & Hk & Hids & _ & _ & Ha0 & Ha & _).
  destruct (chain_last e _ _ _ _ _ Hc (nodes_last _ _ _ Hl) Ha0 Ha) as (hop & cfg & prev & Hs & Hcfg & Hprev).
  destruct (reply_run ours rank0 port0 e h hop cfg prev (node re) _ _ Hs (proj1 (Forall_forall _ _) Hk cfg Hcfg) (proj2 (proj1 (Forall_forall _ _) Hids cfg Hcfg)) Hprev Hw Hlen) as [E Ht].
  destruct (carried_down e p x r rs re h m _ _ _ _ Htd Hok Hv Ht E) as (between & rx & ps & f & k & H); [|by eexists between, rx, ps, f, k, _].
  intros hop' cfg' prev' Hs' Hk' Hi' Ha'. destruct (reply_run ours rank0 port0 e h hop' cfg' prev' (node re) _ _ Hs' Hk' Hi' Ha' Hw Hlen) as [E' _].
  assert (forall (A : Type) (a b : A), Ok a = Ok b -> a = b) as Oinj by (by intros ? ? ? [=]).
  rewrite (Oinj _ _ _ (eq_trans (eq_sym E) E')). by rewrite sent_down_one.
Qed.
End way_down.
