(* ===== verification/PathBuild.v ===== *)
(** * How a path comes to be (theorems on PathContext, TransitHop and Path)

    The owner of a path makes a key with each of its hops and writes a frame for it, which only that
    hop can open. The commit goes from hop to hop; each takes the first frame off, keeps the key and
    the ids, and passes the others on. The last hop answers with a status, to which each hop on the
    way back adds a frame that only the owner can open. *)

From S2P Require Import Prelude Buffer Bencode Codec CryptoApi Str NetInt IpRange DnsName DnsMessage Contact TrafficPolicy Service Frame Protocol Kademlia DhtMessage Routing LinkMessage Profiling TransitHop Path PathContext PathSpec PathReply.
Import EncryptedFrame.
Import EncryptedFrameSpec.

Lemma write_at (w : writer) out (m : list Z) off : writes w out -> (off + length out < length m)%nat ->
  exists rest, w (Buffer m off) = Ok (true, (take off m ++ out) ‖ rest) /\ length rest = (length m - off - length out)%nat.
Proof.
  intros Hw Hl. assert (m = take off m ++ (take (length out) (drop off m) ++ drop (off + length out) m)) as E by (by rewrite <- drop_drop, !take_drop).
  destruct (drop (off + length out) m) as [|c rest] eqn:Ed; [apply (f_equal length) in Ed; rewrite length_drop in Ed; cbn in Ed; lia|].
  destruct (Hw (take off m) (take (length out) (drop off m)) c rest) as [c' Ew]; [rewrite length_take, length_drop; lia|].
  exists (c' :: rest). split; [|apply (f_equal length) in Ed; rewrite length_drop in Ed; cbn in *; lia].
  rewrite <- Ew. f_equal. f_equal; [exact E|]. rewrite length_take. lia.
Qed.

(** ** Frames of a build *)
Section frames.
Context {IP : InetPton} {IN : InetNtop} {INS : InetNtopSpec IP IN} {BT : OxencBt} {BD : OxencDict} {BDS : OxencDictSpec BD} {O : Oxenc}.
Context {CR : Crypto} {CS : CryptoSpec CR} {KP : KeyPairs} {KS : KeyPairsSpec CR KP} {SH : ShortHasher} {HS : ShortHasherSpec SH} {UN : Uninit} {RN : Random} {RS : RandomSpec RN}.
Context {D X P : Type} {DA : DhtApi D} {XA : ExitApi X} {PO : PathOwner (Router D X P)}.
Context (ours : list Z) (rank0 port0 : Z).
Import DhtMessageSpec.
Abbreviation contact_text := (fun rc => dict (RouterContactSpec.text rc)).
Abbreviation router := (Router D X P).
Implicit Types (r : router) (e : Env) (p s : nat) (cfg : PathHopConfig) (t : list Z).

(** The record for a hop whose keys were made, with the hop behind it. *)
Definition record_of cfg (next : option PathHopConfig) : LR_CommitRecord :=
  MkCommitRecord (seckey_topublic (hop_commkey cfg)) (hop_upstream cfg) (hop_nonce cfg) (hop_txID cfg) (hop_rxID cfg) (hop_rc <$> next) proto_version default_lifetime.
(** A contact that can be written into a frame. *)
Definition small_contact (rc : RouterContact.t) : Prop :=
  contact_ok rc /\ (length (contact_text rc) <= 512)%nat /\ length (RouterContact.pubkey rc) = 32%nat.
(** A frame that the holder of the secret key of the seed [t] opens, and what is in it. *)
Definition frame_for t cfg (next : option PathHopConfig) (f : list Z) : Prop :=
  length f = EncryptedFrameSize
  /\ exists f' rest, DecryptInPlace (encryption_keygen t) f = Ok (true, f') /\ length f' = EncryptedFrameSize
       /\ body f' = dict (LinkMessageSpec.record_text (record_of cfg next)) ++ rest /\ LinkMessageSpec.record_ok (record_of cfg next)
       /\ dh_server (seckey_topublic (hop_commkey cfg)) (encryption_keygen t) (hop_nonce cfg) = Some (shared cfg).
(** The router draws random bytes, and is otherwise as it was. *)
Definition redrawn r r' : Prop := exists k, r' = r <| node := (node r) <| draws := k |> |>.
Lemma redrawn_refl r : redrawn r r.
Proof. exists (draws (node r)). by destruct r as [[] ? ? ? ? ? ? ? ? ? ? ?]. Qed.
Lemma redrawn_trans r r1 r2 : redrawn r r1 -> redrawn r1 r2 -> redrawn r r2.
Proof. intros [k ->] [k' ->]. exists k'. done. Qed.
Lemma draw_redrawn k r : exists b r', path_draw k r = (b, r') /\ length b = k /\ redrawn r r'.
Proof using RS. eexists _, _. split; [done|]. split; [apply length_randbytes|]. by eexists. Qed.

Lemma record_fits cfg next : LinkMessageSpec.record_ok (record_of cfg next) -> (forall h, next = Some h -> small_contact (hop_rc h)) ->
  (length (dict (LinkMessageSpec.record_text (record_of cfg next))) < EncryptedFrameBodySize)%nat.
Proof.
  intros (H1 & H2 & H3 & H4 & H5 & _) Hn. rewrite length_dict. unfold LinkMessageSpec.record_text, LinkMessageSpec.record_head, LinkMessageSpec.record_tail.
  change (LinkMessageSpec.short_lived (record_of cfg next)) with false. cbn [app].
  assert (forall s : list Z, (length s <= 32)%nat -> (length (enc_str s) <= 42)%nat) as L.
  { intros s Hs. pose proof (length_enc_str_le s ltac:(unfold str_ok; lia)). lia. }
  assert (forall (o : option PathHopConfig) l a, (forall h, o = Some h -> (length (contact_text (hop_rc h)) <= 512)%nat) -> (length (entries l) <= a)%nat ->
    (length (entries (match hop_rc <$> o with Some rc => [([c_u], contact_text rc)] | None => [] end ++ l)) <= 3 + 512 + a)%nat) as Lo.
  { intros [h|] l a Ho Hl; cbn [fmap option_fmap option_map app]; [|lia]. apply entries_cons_le; [by apply Ho|done]. }
  change EncryptedFrameBodySize with 768%nat.
  assert (length (entries [([c_v], enc_int proto_version)]) <= 6)%nat as L0 by (apply Nat.leb_le; reflexivity).
  pose proof (Lo next _ _ (fun h Hh => proj1 (proj2 (Hn h Hh))) L0) as L1.
  enough (length (entries (([c_c], enc_str (commkey (record_of cfg next))) :: ([c_i], enc_str (nextHop (record_of cfg next))) :: ([c_n], enc_str (tunnelNonce (record_of cfg next)))
    :: ([c_r], enc_str (rxid (record_of cfg next))) :: ([c_t], enc_str (txid (record_of cfg next))) ::
    match nextRC (record_of cfg next) with Some rc => [([c_u], contact_text rc)] | None => [] end ++ [([c_v], enc_int proto_version)])) <= 3 + 42 + (3 + 42 + (3 + 42 + (3 + 42 + (3 + 42 + (3 + 512 + 6))))))%nat by lia.
  repeat (apply entries_cons_le; [apply L; lia|]). exact L1.
Qed.
(** Ids and contact of a hop are kept while its keys are made. *)
Definition same_hop cfg cfg' : Prop := hop_txID cfg' = hop_txID cfg /\ hop_rxID cfg' = hop_rxID cfg /\ hop_rc cfg' = hop_rc cfg.
(** A hop whose keys can be made: the seed of its router is [t]. *)
Definition hop_ready t cfg : Prop :=
  length t = 32%nat /\ RouterContact.enckey (hop_rc cfg) = seckey_topublic (encryption_keygen t) /\ small_contact (hop_rc cfg)
  /\ length (hop_txID cfg) = 16%nat /\ length (hop_rxID cfg) = 16%nat.
Definition next_key cfg (next : option PathHopConfig) : RouterID := match next with Some h => hop_key h | None => hop_key cfg end.
Lemma GenerateNextKey_run cfg next frame r t : hop_ready t cfg -> (forall h, next = Some h -> small_contact (hop_rc h)) -> length frame = EncryptedFrameSize ->
  exists cfg' f r', GenerateNextKey ours rank0 port0 cfg next frame r = Ok (Some (cfg', f), r') /\ redrawn r r' /\ same_hop cfg cfg'
    /\ hop_upstream cfg' = next_key cfg next /\ hop_nonceXOR cfg' = shorthash (shared cfg') /\ frame_for t cfg' next f.
Proof using INS CS KS RS.
  intros (Ht & Hk & Hc & Htx & Hrx) Hn Hf. unfold GenerateNextKey.
  destruct (draw_redrawn 32 r) as (seed & r1 & -> & Hs & R1). destruct (draw_redrawn TUNNONCESIZE r1) as (nonce & r2 & -> & Hno & R2).
  destruct (dh_agrees seed t nonce Hs Ht) as (key & E1 & E2 & _). rewrite Hk, E1.
  set (cfg' := cfg <| hop_commkey := _ |> <| _ := _ |> <| _ := _ |> <| _ := _ |> <| _ := _ |>).
  change (MkCommitRecord _ _ _ _ _ _ _ _) with (record_of cfg' next).
  assert (LinkMessageSpec.record_ok (record_of cfg' next)) as Hok.
  { split_and!; [|cbn|done..| |done|done].
    - by apply length_topublic, length_encryption_keygen.
    - destruct next as [h|]; [apply (Hn h eq_refl)|apply Hc].
    - intros rc Hrc. apply fmap_Some in Hrc as (h & Hh & ->). apply (Hn h Hh). }
  pose proof (record_fits cfg' next Hok Hn) as Hfit.
  destruct (write_at _ _ frame EncryptedFrameOverheadSize (LinkMessageSpec.writes_record ours rank0 port0 _ Hok)) as (rest & -> & Hr); [rewrite Hf; unfold EncryptedFrameSize; lia|].
  cbn [rbind negb mem]. destruct (draw_redrawn 32 r2) as (fk & r3 & -> & Hfk & R3). destruct (draw_redrawn TUNNONCESIZE r3) as (fn & r4 & -> & Hfn & R4).
  set (out := dict _) in *. set (m := (take EncryptedFrameOverheadSize frame ++ out) ++ rest).
  assert (length m = EncryptedFrameSize) as Hm by (unfold m; rewrite !length_app, length_take, Hr, Hf; unfold EncryptedFrameSize; lia).
  destruct (build_frame_run fk t fn m Hfk Ht Hfn) as (f' & f'' & -> & L1 & E3 & L2 & E4); [unfold frame_ok; rewrite Hm; unfold EncryptedFrameSize; lia|].
  cbn [rbind]. eexists cfg', f', r4. split_and!; [done|eauto using redrawn_trans|done|done|done|]. split; [congruence|]. exists f'', rest. split_and!; [done|congruence| |done|done].
  rewrite E4. unfold m, body. rewrite <- app_assoc, drop_app_length'; [done|]. rewrite length_take, Hf. unfold EncryptedFrameSize. lia.
Qed.
(** The hops of a path with their keys, and the frame of each. *)
Fixpoint keyed (ts : list (list Z)) (cfgs : list PathHopConfig) (fs : list (list Z)) : Prop :=
  match ts, cfgs, fs with
  | [], [], _ => True
  | t :: ts, cfg :: cfgs, f :: fs =>
      hop_ready t cfg /\ frame_for t cfg (head cfgs) f /\ hop_upstream cfg = next_key cfg (head cfgs) /\ hop_nonceXOR cfg = shorthash (shared cfg) /\ keyed ts cfgs fs
  | _, _, _ => False
  end.
Definition full_frames (fs : list (list Z)) : Prop := Forall (fun f => length f = EncryptedFrameSize) fs.
Lemma same_head cfgs cfgs' : Forall2 same_hop cfgs cfgs' -> hop_rc <$> head cfgs = hop_rc <$> head cfgs'.
Proof. intros [|cfg cfg' ? ? (_ & _ & H)]; [done|]. cbn. by rewrite H. Qed.
Lemma next_key_same cfg cfg' next next' : hop_rc cfg = hop_rc cfg' -> hop_rc <$> next = hop_rc <$> next' -> next_key cfg next = next_key cfg' next'.
Proof. unfold next_key, hop_key. intros H1 H2. destruct next, next'; cbn in H2; congruence. Qed.
Lemma frame_for_same t cfg next next' f : hop_rc <$> next = hop_rc <$> next' -> frame_for t cfg next f -> frame_for t cfg next' f.
Proof. intros H. unfold frame_for, record_of. by rewrite H. Qed.
Lemma hop_ready_same t cfg cfg' : same_hop cfg cfg' -> hop_ready t cfg -> hop_ready t cfg'.
Proof. unfold hop_ready. intros (-> & -> & ->). done. Qed.
Lemma generate_keys_run ts cfgs fs r : Forall2 hop_ready ts cfgs -> (length cfgs <= length fs)%nat -> full_frames fs ->
  exists cfgs' fs' r', generate_keys ours rank0 port0 cfgs fs r = Ok (Some (cfgs', fs'), r') /\ redrawn r r' /\ Forall2 same_hop cfgs cfgs'
    /\ keyed ts cfgs' fs' /\ length fs' = length fs /\ full_frames fs'.
Proof using INS CS KS RS.
  intros HF. revert fs r. induction HF as [|t cfg ts cfgs Ht HF IH]; intros fs r Hl Hfs; cbn [generate_keys].
  { exists [], fs, r. split_and!; [done|apply redrawn_refl|constructor|done..]. }
  destruct fs as [|f fs]; [cbn in Hl; lia|]. apply Forall_cons in Hfs as [Hf Hfs].
  destruct (GenerateNextKey_run cfg (head cfgs) f r t Ht) as (cfg' & f' & r1 & -> & R1 & Hsame & Hup & Hx & Hff); [|done|].
  { intros h Hh. destruct HF as [|t' c' ? ? H1 ?]; [done|]. injection Hh as <-. apply H1. }
  cbn [rbind]. destruct (IH fs r1) as (cfgs' & fs' & r2 & -> & R2 & Hall & HK & HL & HF'); [cbn in Hl; lia|done|]. cbn [rbind].
  pose proof (same_head _ _ Hall) as Hh. pose proof Hsame as (_ & _ & Hrc).
  exists (cfg' :: cfgs'), (f' :: fs'), r2. split_and!; [done|by eapply redrawn_trans|by constructor| |cbn; congruence|constructor; [apply Hff|done]].
  cbn [keyed]. split_and!; [by eapply hop_ready_same|by eapply frame_for_same| |done|done]. rewrite Hup. by apply next_key_same.
Qed.
End frames.

(** ** Frames of a status *)
Section status.
Context {IP : InetPton} {IN : InetNtop} {INS : InetNtopSpec IP IN} {BT : OxencBt} {BD : OxencDict} {BDS : OxencDictSpec BD} {O : Oxenc}.
Context {CR : Crypto} {CS : CryptoSpec CR} {KP : KeyPairs} {KS : KeyPairsSpec CR KP} {SH : ShortHasher} {HS : ShortHasherSpec SH} {UN : Uninit} {RN : Random} {RS : RandomSpec RN}.
Context {D X : Type} {DA : DhtApi D} {XA : ExitApi X}.
Context (ours : list Z) (rank0 port0 : Z).
Implicit Types (n : Node D X) (e : Env) (h : nat) (cfg : PathHopConfig) (fs : list (list Z)).

Definition status_record_text (st : Z) : list (list Z * list Z) := [([c_s], enc_int st); ([c_v], enc_int proto_version)].
Lemma status_record_reads st pre rest fuel : in_width 64 st -> (length (dict (status_record_text st)) <= fuel)%nat ->
  writes (LR_StatusRecord.BEncode (LR_StatusRecord.Mk st proto_version)) (dict (status_record_text st))
  /\ LR_StatusRecord.BDecode fuel LR_StatusRecord.empty (pre ‖ dict (status_record_text st) ++ rest)
     = Ok (true, LR_StatusRecord.Mk st proto_version, (pre ++ dict (status_record_text st)) ‖ rest).
Proof.
  intros Hs Hf. split; [unfold LR_StatusRecord.BEncode, status_record_text; by writes_entries|].
  apply decode_dict_reads; [|done]. unfold status_record_text. pose proof (fun k v => entry_length k v _ _ Hf) as Hlen. unfold LR_StatusRecord.OnKey. do 2 decode_entry Hlen. done.
Qed.
(** A frame in which the holder of the key reads the status. *)
Definition reads_status (key : list Z) (st : Z) (f : list Z) : Prop :=
  length f = EncryptedFrameSize /\ exists f' b, DoDecrypt key f = Ok (true, f')
    /\ LR_StatusRecord.BDecode (S (length f')) LR_StatusRecord.empty (Buffer f' EncryptedFrameOverheadSize) = Ok (true, LR_StatusRecord.Mk st proto_version, b).
Lemma AddFrame_run key st m n : in_width 64 st -> length (LR_StatusMessage.frames m) = max_len -> full_frames (LR_StatusMessage.frames m) ->
  exists f k, AddFrame key st m n = Ok (true, m <| LR_StatusMessage.frames := f :: take (max_len - 1) (LR_StatusMessage.frames m) |>, n <| draws := k |>) /\ reads_status key st f.
Proof using CS RS.
  intros Hst Hl Hf. unfold AddFrame. destruct (LR_StatusMessage.frames m) as [|f0 fs] eqn:E; [done|]. apply Forall_cons in Hf as [Hf0 _].
  unfold randomize_frame, draw. cbn [fst snd]. rewrite Hf0. pose proof (length_enc_int_le st Hst) as Li.
  assert (length (dict (status_record_text st)) <= 33)%nat as Ld.
  { rewrite length_dict. unfold status_record_text, entries. cbn [fmap list_fmap concat fst snd]. rewrite !length_app.
    change (length (enc_str [c_s])) with 3%nat. change (length (enc_str [c_v])) with 3%nat. change (length (enc_int proto_version)) with 3%nat. cbn [length]. lia. }
  set (f := randbytes (draws n) EncryptedFrameSize). assert (length f = EncryptedFrameSize) as Lf by apply length_randbytes. change EncryptedFrameSize with 864%nat in *.
  destruct (status_record_reads st [] [] 40 Hst ltac:(lia)) as [Hw _].
  destruct (write_at _ _ f EncryptedFrameOverheadSize Hw) as (rest & -> & Hr); [change EncryptedFrameOverheadSize with 96%nat; lia|]. cbn [rbind negb mem].
  change EncryptedFrameOverheadSize with 96%nat in Hr. set (out := dict _) in *. set (b := (take EncryptedFrameOverheadSize f ++ out) ++ rest).
  assert (length b = 864%nat) as Lb by (unfold b; rewrite !length_app, length_take; change EncryptedFrameOverheadSize with 96%nat; lia).
  change (draws (n <| draws ::= S |>)) with (S (draws n)). change (draws (n <| draws ::= S |> <| draws ::= S |>)) with (S (S (draws n))).
  destruct (encrypt_decrypt (Some (randbytes (S (draws n)) TUNNONCESIZE, randbytes (S (S (draws n))) PUBKEYSIZE)) key b) as (f' & f'' & -> & L1 & _ & E2 & L2 & E3).
  { unfold frame_ok. change EncryptedFrameSize with 864%nat. change EncryptedFrameOverheadSize with 96%nat. lia. }
  { split; apply length_randbytes. }
  cbn [rbind]. exists f', (S (S (S (draws n)))). split; [done|]. split; [change EncryptedFrameSize with 864%nat; lia|].
  destruct (status_record_reads st (take EncryptedFrameOverheadSize f'') rest (S (length f'')) Hst ltac:(fold out; lia)) as [_ Hrd]. fold out in Hrd.
  assert (f'' = take EncryptedFrameOverheadSize f'' ++ out ++ rest) as Ef.
  { rewrite <- (take_drop EncryptedFrameOverheadSize f'') at 1. f_equal. change (drop EncryptedFrameOverheadSize f'') with (body f''). rewrite E3. unfold b, body.
    rewrite <- app_assoc, drop_app_length'; [done|]. rewrite length_take. change EncryptedFrameOverheadSize with 96%nat. lia. }
  eexists f'', _. split; [done|]. rewrite <- Hrd. f_equal. f_equal; [exact Ef|]. rewrite length_take. change EncryptedFrameOverheadSize with 96%nat. lia.
Qed.

(** ** Messages of eight full frames fit *)
Lemma frames_text_le fs : length fs = max_len -> full_frames fs -> (length (LinkMessageSpec.frames_text fs) <= 8 * 900)%nat.
Proof.
  intros Hl Hf. unfold LinkMessageSpec.frames_text, enc_list. cbn [length]. rewrite length_app. cbn [length].
  assert (length (concat (enc_str <$> fs)) <= 874 * length fs)%nat as H; [clear Hl|rewrite Hl in H; unfold max_len in H; lia].
  induction Hf as [|f fs Hf _ IH]; cbn [fmap list_fmap concat length]; [lia|]. rewrite length_app. change EncryptedFrameSize with 864%nat in Hf.
  pose proof (length_enc_str_le f ltac:(unfold str_ok; lia)). lia.
Qed.
Lemma frames_ok_full fs : length fs = max_len -> full_frames fs -> LinkMessageSpec.frames_ok fs.
Proof.
  intros Hl Hf. split; [done|]. eapply Forall_impl; [exact Hf|]. intros f Hlf. cbn in Hlf. change EncryptedFrameSize with 864%nat in *. split; [lia|]. unfold str_ok. lia.
Qed.
Lemma commit_encodes fs : length fs = max_len -> full_frames fs ->
  exists text, encode_into MAX_LINK_MSG_SIZE (link_BEncode ours rank0 port0 (LCommit (LR_CommitMessage.empty <| LR_CommitMessage.frames := fs |>))) = Ok (Some text).
Proof using INS BDS.
  intros Hl Hf. pose (m := LR_CommitMessage.Mk fs (replicate PATHIDSIZE c_c) proto_version). exists (dict (LinkMessageSpec.link_text (LCommit m))).
  change (link_BEncode ours rank0 port0 (LCommit (LR_CommitMessage.empty <| LR_CommitMessage.frames := fs |>))) with (link_BEncode ours rank0 port0 (LCommit m)).
  apply encode_into_writes; [apply (LinkMessageSpec.writes_link ours rank0 port0 (zeros 32)); split_and!; [apply frames_ok_full|..]; done|].
  rewrite length_dict. pose proof (frames_text_le fs Hl Hf). unfold LinkMessageSpec.link_text, LinkMessageSpec.commit_text. cbn [LR_CommitMessage.frames m].
  change MAX_LINK_MSG_SIZE with (4 * 2048)%nat. apply Nat.le_lt_trans with (2 + (3 + 3 + (3 + 8 * 900 + (3 + 3 + 0))))%nat; [|lia]. apply le_n_S, le_n_S.
  apply (entries_cons_le _ _ _ 3); [by apply Nat.leb_le|]. apply entries_cons_le; [done|]. apply (entries_cons_le _ _ _ 3); [by apply Nat.leb_le|]. done.
Qed.
Lemma status_encodes fs id st : length fs = max_len -> full_frames fs -> length id = 16%nat -> in_width 64 st ->
  exists text, encode_into MAX_LINK_MSG_SIZE (link_BEncode ours rank0 port0 (LStatus (LR_StatusMessage.Mk fs id st proto_version))) = Ok (Some text).
Proof using INS BDS.
  intros Hl Hf Hid Hst. set (m := LR_StatusMessage.Mk _ _ _ _). exists (dict (LinkMessageSpec.link_text (LStatus m))).
  apply encode_into_writes; [apply (LinkMessageSpec.writes_link ours rank0 port0 (zeros 32)); split_and!; [apply frames_ok_full|..]; done|].
  rewrite length_dict. pose proof (frames_text_le fs Hl Hf). pose proof (length_enc_int_le st Hst). pose proof (length_enc_str_le id ltac:(unfold str_ok; lia)).
  unfold LinkMessageSpec.link_text, LinkMessageSpec.status_text. cbn [LR_StatusMessage.frames LR_StatusMessage.pathid LR_StatusMessage.status m].
  change MAX_LINK_MSG_SIZE with (4 * 2048)%nat. apply Nat.le_lt_trans with (2 + (3 + 3 + (3 + 8 * 900 + (3 + 26 + (3 + 22 + (3 + 3 + 0))))))%nat; [|lia]. apply le_n_S, le_n_S.
  apply (entries_cons_le _ _ _ 3); [by apply Nat.leb_le|]. apply entries_cons_le; [done|]. apply entries_cons_le; [lia|]. apply entries_cons_le; [done|].
  apply (entries_cons_le _ _ _ 3); [by apply Nat.leb_le|]. done.
Qed.
End status.

(** ** A hop of the path *)
Section hop.
Context {IP : InetPton} {IN : InetNtop} {INS : InetNtopSpec IP IN} {BT : OxencBt} {BD : OxencDict} {BDS : OxencDictSpec BD} {O : Oxenc}.
Context {CR : Crypto} {CS : CryptoSpec CR} {KP : KeyPairs} {KS : KeyPairsSpec CR KP} {SH : ShortHasher} {HS : ShortHasherSpec SH} {UN : Uninit} {RN : Random} {RS : RandomSpec RN}.
Context {D X : Type} {DA : DhtApi D} {XA : ExitApi X}.
Context (ours : list Z) (rank0 port0 : Z).
Implicit Types (n : Node D X) (e : Env) (h : nat) (cfg : PathHopConfig) (fs : list (list Z)) (t : list Z).

(** The object that a router makes for a hop. *)
Definition hop_for e (down : RouterID) cfg : TransitHop.t :=
  TransitHop.Mk (MkInfo (hop_txID cfg) (hop_rxID cfg) (hop_upstream cfg) down) (shared cfg) (hop_nonceXOR cfg) (Now e) default_lifetime 0 false 0.
(** No hop of the router has the ids. *)
Definition vacant n cfg : Prop := Forall (fun y => y.1 <> hop_txID cfg /\ y.1 <> hop_rxID cfg) (m_TransitPaths n).
(** The last message a router has sent. *)
Definition message_of (c : RouterCall) : option (RouterID * ILinkMessage) := match c with Queued next m _ => Some (next, m) | _ => None end.
Definition sent n n' : option (RouterID * ILinkMessage) := last (omap message_of (new_calls n n')).
Lemma sent_before n n' l l' next m cb : calls n' = calls n ++ l ++ [Queued next m cb] ++ l' -> omap message_of l' = [] -> sent n n' = Some (next, m).
Proof. intros H H'. unfold sent, new_calls. rewrite H, drop_app_length, !omap_app, H', app_nil_r. cbn [omap list_omap message_of]. by rewrite last_snoc. Qed.
Lemma sent_last n n' l next m cb : calls n' = calls n ++ l ++ [Queued next m cb] -> sent n n' = Some (next, m).
Proof. intros H. by apply (sent_before n n' l [] next m cb). Qed.

Lemma MapGet_vacant check k hops l l' : Forall (fun y => y.1 <> k) l -> MapGet check k hops (l ++ l') = MapGet check k hops l'.
Proof. induction 1 as [|[k' h] l Hk _ IH]; [done|]. cbn [app MapGet]. cbn in Hk. rewrite bool_decide_false by done. exact IH. Qed.
Lemma vacant_ids n cfg k : vacant n cfg -> k = hop_txID cfg \/ k = hop_rxID cfg -> Forall (fun y => y.1 <> k) (m_TransitPaths n).
Proof. intros Hv Hk. eapply Forall_impl; [exact Hv|]. intros y [H1 H2]. by destruct Hk as [-> | ->]. Qed.
Lemma vacant_has n e down cfg : vacant n cfg -> HasTransitHop (TransitHop.info (hop_for e down cfg)) n = false.
Proof.
  intros Hv. unfold HasTransitHop, transit_get. rewrite <- (app_nil_r (m_TransitPaths n)), MapGet_vacant by (eapply vacant_ids; [done|by left]).
  apply bool_decide_false. by intros [].
Qed.
(** A hop that is put into the table is found there. *)
Lemma serves_placed e down cfg n n' h : vacant n cfg -> m_TransitPaths n' = m_TransitPaths n ++ [(hop_txID cfg, h); (hop_rxID cfg, h)] ->
  m_Hops n' !! h = Some (hop_for e down cfg) -> quiet n' -> pubkey n' = hop_key cfg -> serves n' h (hop_for e down cfg) cfg down (hop_upstream cfg).
Proof.
  intros Hv Ht Hh Hq Hk. unfold serves. split_and!; try done; try apply Hq.
  - intros id Hid. unfold GetByDownstream, transit_get. rewrite Ht, MapGet_vacant by (eapply vacant_ids; [done|tauto]). cbn [MapGet]. rewrite Hh. cbn [TransitHop.info hop_for downstream].
    rewrite (bool_decide_true (down = down)) by done. rewrite !andb_true_r. destruct Hid as [-> | ->]; [by rewrite bool_decide_true|]. rewrite (bool_decide_true (hop_rxID cfg = _)) by done.
    by case_bool_decide.
  - unfold TransitHopByUpstream, transit_get. rewrite Ht, MapGet_vacant by (eapply vacant_ids; [done|by left]). cbn [MapGet]. rewrite Hh. cbn [TransitHop.info hop_for upstream].
    by rewrite (bool_decide_true (hop_txID cfg = _)), (bool_decide_true (hop_upstream cfg = _)) by done.
Qed.

(** ** The commit *)
Lemma commit_opened e from addr t cfg next f fs n : frame_for t cfg next f -> hop_nonceXOR cfg = shorthash (shared cfg) -> encryption n = encryption_keygen t -> m_AllowTransit n = true ->
  length (f :: fs) = max_len -> is_zero (hop_txID cfg) = false -> is_zero (hop_rxID cfg) = false ->
  let n1 := n <| draws ::= S |> in
  Commit_HandleMessage ours rank0 port0 e from addr (LR_CommitMessage.empty <| LR_CommitMessage.frames := f :: fs |>) n
  = let* n := (if bool_decide (pubkey n = hop_upstream cfg) then SendPathConfirm ours rank0 port0 e (hop_for e from cfg) n1
               else SendLRCM ours rank0 port0 e addr (fs ++ [randbytes (draws n) EncryptedFrameSize]) (hop_for e from cfg) n1) in Ok (true, n).
Proof using INS BDS.
  intros (Lf & f' & rest & Ed & Lf' & Eb & Hok & Edh) Hx He Ha Hl Htx Hrx n1. unfold Commit_HandleMessage. cbn [LR_CommitMessage.frames]. cbv [update].
  cbn [LR_CommitMessage.eta_t LR_CommitMessage.frames]. rewrite (proj2 (Nat.eqb_eq _ _)) by done. cbn [negb]. rewrite Ha, He. cbn [negb]. rewrite Ed. cbn [rbind]. unfold HandleDecrypted.
  set (text := dict _) in *.
  assert (f' = take EncryptedFrameOverheadSize f' ++ text ++ rest) as Ef by (rewrite <- Eb; unfold body; by rewrite take_drop).
  assert (length text <= length f')%nat as Lt by (rewrite Ef, !length_app; lia).
  assert (Buffer f' EncryptedFrameOverheadSize = take EncryptedFrameOverheadSize f' ‖ text ++ rest) as ->.
  { f_equal; [exact Ef|]. rewrite length_take, Lf'. unfold EncryptedFrameSize. lia. }
  pose proof (LinkMessageSpec.reads_record ours rank0 port0 (S (length f')) (record_of cfg next) (take EncryptedFrameOverheadSize f') rest Hok eq_refl (Nat.le_le_succ_r _ _ Lt)) as Er. fold text in Er.
  rewrite Er. cbn [rbind negb]. unfold hop_of_record. set (rec := (record_of cfg next) <| lifetime := 0 |>).
  change (txid rec) with (hop_txID cfg). change (rxid rec) with (hop_rxID cfg). change (commkey rec) with (seckey_topublic (hop_commkey cfg)).
  change (tunnelNonce rec) with (hop_nonce cfg). change (nextHop rec) with (hop_upstream cfg). change (lifetime rec) with 0.
  rewrite Htx, Hrx, He, Edh, <- Hx. cbn [orb]. rewrite Lf. done.
Qed.
Lemma forward_run e addr down cfg fs n : vacant n cfg -> (forall ip, addr = Some ip -> DecayingHashSet.Contains ip (m_PathLimits n) = false) ->
  PathToRouterAllowed e (hop_upstream cfg) = true -> session_allowed e (hop_upstream cfg) = true -> length fs = max_len -> full_frames fs -> quiet n -> pubkey n = hop_key cfg ->
  exists n' l, SendLRCM ours rank0 port0 e addr fs (hop_for e down cfg) n = Ok n' /\ serves n' (m_NextHop n) (hop_for e down cfg) cfg down (hop_upstream cfg) /\ m_Parser n' = m_Parser n
    /\ calls n' = calls n ++ l ++ [Queued (hop_upstream cfg) (LCommit (LR_CommitMessage.empty <| LR_CommitMessage.frames := fs |>)) (commit_forwarded (m_NextHop n))].
Proof using INS BDS.
  intros Hv Haddr Hp Ha Hl Hf Hq Hk. unfold SendLRCM. rewrite vacant_has by done. unfold new_hop. cbv beta iota zeta. change (upstream (TransitHop.info (hop_for e down cfg))) with (hop_upstream cfg).
  set (hop := hop_for e down cfg). set (n1 := n <| m_Hops ::= _ |> <| m_NextHop ::= S |>).
  assert (exists s', match addr with Some ip => CheckPathLimitHitByAddr (Now e) ip n1 | None => (false, n1) end = (false, n1 <| m_PathLimits := s' |>)) as [s' ->].
  { destruct addr as [ip|]; [|exists (m_PathLimits n); by destruct n]. unfold CheckPathLimitHitByAddr. change (m_PathLimits n1) with (m_PathLimits n).
    destruct (insert_fresh (Now e) ip 0 _ (Haddr ip eq_refl)) as [s' ->]. by exists s'. }
  rewrite Hp. cbn [negb]. unfold PutTransitHop, hop_at. set (c2 := PersistSessionUntil _ _). set (c1 := PersistSessionUntil _ _).
  change (m_Hops (call c2 (call c1 (n1 <| m_PathLimits := s' |>)))) with (<[m_NextHop n := hop]> (m_Hops n)). rewrite lookup_insert_eq. cbn [rbind ForwardLRCM]. unfold SendToOrQueue. rewrite Ha. cbn [negb].
  destruct (commit_encodes ours rank0 port0 fs Hl Hf) as [text ->]. cbn [rbind].
  eexists _, [c1; c2]. split; [done|]. split; [|split; [done|];
    transitivity (((calls n ++ [c1]) ++ [c2]) ++ [Queued (hop_upstream cfg) (LCommit (LR_CommitMessage.empty <| LR_CommitMessage.frames := fs |>)) (commit_forwarded (m_NextHop n))]); [done|];
    by rewrite <- !app_assoc].
  eapply serves_placed; [done|done|apply lookup_insert_eq|apply Hq|done].
Qed.
Lemma SetDummyFrames_run fs n : full_frames fs -> exists fs' k, SetDummyFrames fs n = (fs', n <| draws := k |>) /\ length fs' = length fs /\ full_frames fs'.
Proof using RS.
  intros Hf. revert n. induction Hf as [|f fs Hf Hfs IH]; intros n; cbn [SetDummyFrames]; [exists [], (draws n); split; [by destruct n|split; [done|constructor]]|].
  unfold randomize_frame, draw. destruct (IH (n <| draws ::= S |>)) as (fs' & k & -> & Hl & Hfs'). rewrite Hf. eexists _, k. split; [done|].
  split; [cbn; congruence|]. constructor; [apply length_randbytes|done].
Qed.
Lemma empty_frames_full : length empty_frames = max_len /\ full_frames empty_frames.
Proof. split; [done|]. unfold full_frames, empty_frames. apply Forall_replicate. vm_compute. reflexivity. Qed.
(** The message goes to the router below, with the frame of the hop first. *)
Definition adds_frame e (down : RouterID) (id : PathID_t) (key : list Z) (st : Z) fs n n' h (f : list Z) : Prop :=
  reads_status key st f /\ exists k, n' = (n <| draws := k |>) <| m_Held ::= cons h |> <| calls ::= fun l => l ++ [Queued down (LStatus (LR_StatusMessage.Mk (f :: take (max_len - 1) fs) id LR_StatusRecord.SUCCESS proto_version)) (status_sent h LR_StatusRecord.SUCCESS)] |>.
Lemma full_shift key st f fs : reads_status key st f -> length fs = max_len -> full_frames fs -> length (f :: take (max_len - 1) fs) = max_len /\ full_frames (f :: take (max_len - 1) fs).
Proof. intros [Hf _] Hl Hfs. split; [cbn [length]; rewrite length_take, Hl; done|]. constructor; [done|by apply Forall_take]. Qed.
Lemma add_and_send e down id key fs n h : length id = 16%nat -> length fs = max_len -> full_frames fs -> session_allowed e down = true ->
  exists n' f, (let* (_, msg, n) := AddFrame key LR_StatusRecord.SUCCESS (LR_StatusMessage.Mk fs id LR_StatusRecord.SUCCESS proto_version) n in SendMessage ours rank0 port0 e down msg h n) = Ok n'
  /\ adds_frame e down id key LR_StatusRecord.SUCCESS fs n n' h f.
Proof using INS BDS CS RS.
  intros Hid Hl Hf Ha. destruct (AddFrame_run key LR_StatusRecord.SUCCESS (LR_StatusMessage.Mk fs id LR_StatusRecord.SUCCESS proto_version) n) as (f & k & -> & Hr); [done..|].
  cbn [rbind]. unfold SendMessage, SendToOrQueue. rewrite Ha. cbn [negb]. cbv [update]. cbn [LR_StatusMessage.eta_t LR_StatusMessage.frames LR_StatusMessage.pathid LR_StatusMessage.status LR_StatusMessage.version].
  destruct (full_shift _ _ _ _ Hr Hl Hf) as [Hl' Hf']. destruct (status_encodes ours rank0 port0 _ id LR_StatusRecord.SUCCESS Hl' Hf' Hid ltac:(done)) as [text ->]. cbn [rbind].
  eexists _, f. split; [done|]. split; [done|]. by exists k.
Qed.
Lemma confirm_run e down cfg n : vacant n cfg -> session_allowed e down = true -> quiet n -> pubkey n = hop_key cfg -> length (hop_rxID cfg) = 16%nat ->
  exists n' l f fs, SendPathConfirm ours rank0 port0 e (hop_for e down cfg) n = Ok n' /\ serves n' (m_NextHop n) (hop_for e down cfg) cfg down (hop_upstream cfg) /\ m_Parser n' = m_Parser n
    /\ reads_status (shared cfg) LR_StatusRecord.SUCCESS f /\ length (f :: fs) = max_len /\ full_frames (f :: fs)
    /\ calls n' = calls n ++ l ++ [Queued down (LStatus (LR_StatusMessage.Mk (f :: fs) (hop_rxID cfg) LR_StatusRecord.SUCCESS proto_version)) (status_sent (m_NextHop n) LR_StatusRecord.SUCCESS)].
Proof using INS BDS CS RS.
  intros Hv Ha Hq Hk Hid. unfold SendPathConfirm. rewrite vacant_has by done. unfold new_hop. cbv beta iota zeta. set (hop := hop_for e down cfg). set (n1 := n <| m_Hops ::= _ |> <| m_NextHop ::= S |>).
  unfold PutTransitHop, hop_at. set (c := PersistSessionUntil _ _). change (m_Hops (call c n1)) with (<[m_NextHop n := hop]> (m_Hops n)). rewrite lookup_insert_eq. cbn [rbind].
  set (n2 := (call c n1) <| m_TransitPaths ::= _ |>). unfold CreateAndSend. destruct empty_frames_full as [L0 F0].
  destruct (SetDummyFrames_run empty_frames n2 F0) as (fs & k & -> & Lfs & Ffs). rewrite L0 in Lfs.
  destruct (add_and_send e down (hop_rxID cfg) (shared cfg) fs (n2 <| draws := k |>) (m_NextHop n) Hid Lfs Ffs Ha) as (n' & f & E & Hr & k' & Hn').
  change (rxID (TransitHop.info hop)) with (hop_rxID cfg). change (downstream (TransitHop.info hop)) with down. change (TransitHop.pathKey hop) with (shared cfg). rewrite E. cbn [rbind].
  destruct (full_shift _ _ _ _ Hr Lfs Ffs) as [Hl' Hf']. eexists (release n'), [c], f, (take (max_len - 1) fs). split_and!; [done| |by rewrite Hn'|done|done|done|].
  2:{ rewrite Hn'. etransitivity; [|symmetry; apply app_assoc]. reflexivity. }
  apply (serves_placed e down cfg n); [done|by rewrite Hn'| |rewrite Hn'; exact Hq|by rewrite Hn'].
  rewrite Hn'. apply map_lookup_filter_Some. split; [apply lookup_insert_eq|]. apply elem_of_app. left. change (m_TransitPaths _) with (m_TransitPaths n ++ [(hop_txID cfg, m_NextHop n); (hop_rxID cfg, m_NextHop n)]).
  rewrite fmap_app. apply elem_of_app. right. by left.
Qed.
(** A status that comes back. *)
Lemma status_run e h hop down up cfg fs n : serves n h hop cfg down up -> length (hop_rxID cfg) = 16%nat -> length fs = max_len -> full_frames fs -> session_allowed e down = true ->
  exists n' f, HandleLRSM ours rank0 port0 e h LR_StatusRecord.SUCCESS fs n = Ok (true, n') /\ serves n' h hop cfg down up /\ m_Parser n' = m_Parser n
    /\ reads_status (shared cfg) LR_StatusRecord.SUCCESS f /\ length (f :: take (max_len - 1) fs) = max_len /\ full_frames (f :: take (max_len - 1) fs)
    /\ calls n' = calls n ++ [Queued down (LStatus (LR_StatusMessage.Mk (f :: take (max_len - 1) fs) (hop_rxID cfg) LR_StatusRecord.SUCCESS proto_version)) (status_sent h LR_StatusRecord.SUCCESS)].
Proof using INS BDS CS RS.
  intros Hs Hid Hl Hf Ha. pose proof Hs as (S1 & S2 & _ & S4 & _). unfold HandleLRSM, hop_at. rewrite S1. cbn [rbind]. rewrite S2, S4. cbn [rxID downstream].
  destruct (add_and_send e down (hop_rxID cfg) (shared cfg) fs n h Hid Hl Hf Ha) as (n' & f & E & Hr & k & Hn'). destruct (full_shift _ _ _ _ Hr Hl Hf) as [Hl' Hf'].
  exists n', f. split_and!; [|by rewrite Hn'|by rewrite Hn'|done|done|done|by rewrite Hn']. destruct (AddFrame _ _ _ _) as [[[? ?] ?]| | |]; [|done..]. cbn [rbind] in *. by rewrite E.
Qed.
End hop.

(** ** The way of a build *)
Section build.
Context {IP : InetPton} {IN : InetNtop} {INS : InetNtopSpec IP IN} {BT : OxencBt} {BD : OxencDict} {BDS : OxencDictSpec BD} {O : Oxenc}.
Context {CR : Crypto} {CS : CryptoSpec CR} {KP : KeyPairs} {KS : KeyPairsSpec CR KP} {SH : ShortHasher} {HS : ShortHasherSpec SH} {UN : Uninit} {RN : Random} {RS : RandomSpec RN}.
Context {D X P : Type} {DA : DhtApi D} {XA : ExitApi X} {PO : PathOwner (Router D X P)}.
Context (ours : list Z) (rank0 port0 : Z).
Abbreviation router := (Router D X P).
Implicit Types (r : router) (e : Env) (p s h : nat) (x : Path.t) (cfg : PathHopConfig) (fs : list (list Z)) (t : list Z).

(** A status that was sent, and who sent it to whom. *)
Definition status_from (from : RouterID) (o : option (RouterID * ILinkMessage)) : option (RouterID * RouterID * LR_StatusMessage.t) :=
  match o with Some (next, LStatus st) => Some (from, next, st) | _ => None end.
(** The status is handled where it was sent to. *)
Definition status_to e (st : option (RouterID * RouterID * LR_StatusMessage.t)) r : res (option (RouterID * RouterID * LR_StatusMessage.t) * router) :=
  match st with
  | Some (from, next, st) =>
      if bool_decide (next = pubkey (node r)) then
        let* (_, r') := LRSM_HandleMessage ours rank0 port0 e from st r in Ok (status_from (pubkey (node r)) (sent (node r) (node r')), r')
      else Ok (None, r)
  | None => Ok (None, r)
  end.
(** The routers of the path from the first one to the end: the commit goes up, the status comes down. *)
Fixpoint build_through e (addr : option (list Z)) (from : RouterID) (m : LR_CommitMessage.t) (rs : list router)
  : res (option (RouterID * RouterID * LR_StatusMessage.t) * list router) :=
  match rs with
  | [] => Ok (None, [])
  | r :: above =>
      let* (_, r1) := LRCM_HandleMessage ours rank0 port0 e from addr m r in
      match sent (node r) (node r1), above with
      | Some (next, LCommit m), r' :: _ =>
          if bool_decide (next = pubkey (node r')) then
            let* (st, above) := build_through e None (pubkey (node r)) m above in
            let* (st, r1) := status_to e st r1 in Ok (st, r1 :: above)
          else Ok (None, r1 :: above)
      | o, _ => Ok (status_from (pubkey (node r)) o, r1 :: above)
      end
  end.

(** The ids of hops next to each other are the same, and their routers are not. *)
Fixpoint linked (cfgs : list PathHopConfig) : Prop :=
  match cfgs with cfg :: (cfg' :: _) as rest => hop_txID cfg = hop_rxID cfg' /\ hop_key cfg' <> hop_key cfg /\ linked rest | _ => True end.
Definition ids_nonzero (cfgs : list PathHopConfig) : Prop := Forall (fun c => is_zero (hop_txID c) = false /\ is_zero (hop_rxID c) = false) cfgs.
(** A router that can become a hop. *)
Definition relay_ready t cfg r : Prop :=
  encryption (node r) = encryption_keygen t /\ m_AllowTransit (node r) = true /\ quiet (node r) /\ pubkey (node r) = hop_key cfg /\ vacant (node r) cfg
  /\ m_OurPaths r !! hop_txID cfg = None.
Fixpoint relays_ready (ts : list (list Z)) (cfgs : list PathHopConfig) (rs : list router) : Prop :=
  match ts, cfgs, rs with
  | [], [], [] => True
  | t :: ts, cfg :: cfgs, r :: rs => relay_ready t cfg r /\ relays_ready ts cfgs rs
  | _, _, _ => False
  end.
(** The frames of a status that the owner of the path reads. *)
Definition all_read (cfgs : list PathHopConfig) fs : Prop := Forall2 (fun c f => reads_status (shared c) LR_StatusRecord.SUCCESS f) cfgs (take (length cfgs) fs).
Lemma keyed_app ts cfgs fs fs' : keyed ts cfgs fs -> keyed ts cfgs (fs ++ fs').
Proof.
  revert cfgs fs. induction ts as [|t ts IH]; intros [|cfg cfgs] [|f fs] H; try done; try (by destruct fs'). destruct H as (H1 & H2 & H3 & H4 & H5). cbn [app keyed]. by eauto 6.
Qed.
Lemma all_read_cons cfg cfgs f fs : reads_status (shared cfg) LR_StatusRecord.SUCCESS f -> (length cfgs < max_len)%nat -> all_read cfgs fs -> all_read (cfg :: cfgs) (f :: take (max_len - 1) fs).
Proof. intros Hf Hl Ha. unfold all_read in *. cbn [length take]. constructor; [done|]. rewrite take_take. by replace (length cfgs `min` (max_len - 1))%nat with (length cfgs) by lia. Qed.
(** What a build does not touch. *)
Definition kept r r' : Prop := m_OurPaths r' = m_OurPaths r /\ m_Parser (node r') = m_Parser (node r).
Lemma kept_trans r r1 r2 : kept r r1 -> kept r1 r2 -> kept r r2.
Proof. intros [H1 H2] [H3 H4]. split; congruence. Qed.
(** A hop that is not the last one handles the commit. *)
Lemma commit_step e addr from t cfg cfg' f fs r : hop_ready t cfg -> frame_for t cfg (Some cfg') f -> hop_upstream cfg = hop_key cfg' -> hop_nonceXOR cfg = shorthash (shared cfg) ->
  relay_ready t cfg r -> hop_key cfg' <> hop_key cfg -> length (f :: fs) = max_len -> full_frames (f :: fs) -> is_zero (hop_txID cfg) = false -> is_zero (hop_rxID cfg) = false ->
  (forall ip, addr = Some ip -> DecayingHashSet.Contains ip (m_PathLimits (node r)) = false) -> PathToRouterAllowed e (hop_key cfg') = true -> session_allowed e (hop_key cfg') = true ->
  exists r1 h, let fs' := fs ++ [randbytes (draws (node r)) EncryptedFrameSize] in
  LRCM_HandleMessage ours rank0 port0 e from addr (LR_CommitMessage.empty <| LR_CommitMessage.frames := f :: fs |>) r = Ok (true, r1)
  /\ serves (node r1) h (hop_for e from cfg) cfg from (hop_key cfg') /\ kept r r1
  /\ sent (node r) (node r1) = Some (hop_key cfg', LCommit (LR_CommitMessage.empty <| LR_CommitMessage.frames := fs' |>)) /\ length fs' = max_len /\ full_frames fs'.
Proof using INS BDS RS.
  intros Hc Hf Hup Hx (R1 & R2 & R3 & R4 & R5 & R6) Hne Hl Hff Htx Hrx Haddr Hp Ha. cbv zeta.
  assert (length (fs ++ [randbytes (draws (node r)) EncryptedFrameSize]) = max_len) as Hl' by (rewrite length_app; cbn [length] in *; lia).
  assert (full_frames (fs ++ [randbytes (draws (node r)) EncryptedFrameSize])) as Hff'.
  { apply Forall_cons in Hff as [_ Hff]. apply Forall_app. split; [done|]. constructor; [apply length_randbytes|constructor]. }
  unfold LRCM_HandleMessage. rewrite (commit_opened ours rank0 port0 e from addr t cfg (Some cfg') f fs (node r)) by done. rewrite bool_decide_false by congruence.
  destruct (forward_run ours rank0 port0 e addr from cfg (fs ++ [randbytes (draws (node r)) EncryptedFrameSize]) ((node r) <| draws ::= S |>)) as (n' & l & -> & Hs & Hps & Hcalls);
    [done|done|by rewrite Hup|by rewrite Hup|done|done|exact R3|done|].
  cbn [rbind]. eexists _, _. split; [done|]. rewrite <- Hup. split; [exact Hs|]. split; [done|]. split; [|done]. eapply sent_last. exact Hcalls.
Qed.
(** The last hop answers. *)
Lemma confirm_step e addr from t cfg f fs r : hop_ready t cfg -> frame_for t cfg None f -> hop_upstream cfg = hop_key cfg -> hop_nonceXOR cfg = shorthash (shared cfg) ->
  relay_ready t cfg r -> length (f :: fs) = max_len -> is_zero (hop_txID cfg) = false -> is_zero (hop_rxID cfg) = false -> session_allowed e from = true ->
  exists r1 h fs', LRCM_HandleMessage ours rank0 port0 e from addr (LR_CommitMessage.empty <| LR_CommitMessage.frames := f :: fs |>) r = Ok (true, r1)
  /\ serves (node r1) h (hop_for e from cfg) cfg from (hop_key cfg) /\ kept r r1
  /\ sent (node r) (node r1) = Some (from, LStatus (LR_StatusMessage.Mk fs' (hop_rxID cfg) LR_StatusRecord.SUCCESS proto_version))
  /\ length fs' = max_len /\ full_frames fs' /\ all_read [cfg] fs'.
Proof using INS BDS CS RS.
  intros Hc Hf Hup Hx (R1 & R2 & R3 & R4 & R5 & R6) Hl Htx Hrx Ha. unfold LRCM_HandleMessage.
  rewrite (commit_opened ours rank0 port0 e from addr t cfg None f fs (node r)) by done. rewrite bool_decide_true by congruence.
  destruct (confirm_run ours rank0 port0 e from cfg ((node r) <| draws ::= S |>)) as (n' & l & f' & fs' & -> & Hs & Hps & Hr & Hl' & Hf' & Hcalls); [done|done|exact R3|done|apply Hc|].
  cbn [rbind]. eexists _, _, (f' :: fs'). split; [done|]. rewrite <- Hup. split; [exact Hs|]. split; [done|].
  split; [eapply sent_last; exact Hcalls|]. split; [done|]. split; [done|]. unfold all_read. cbn [length take]. constructor; [done|]. destruct fs'; constructor.
Qed.
(** A status from above is passed on with one more frame. *)
Lemma status_step e from h hop cfg cfg' cfgs fs r : serves (node r) h hop cfg from (hop_key cfg') -> m_OurPaths r !! hop_txID cfg = None -> hop_txID cfg = hop_rxID cfg' -> length (hop_rxID cfg) = 16%nat ->
  length fs = max_len -> full_frames fs -> all_read cfgs fs -> (length cfgs < max_len)%nat -> session_allowed e from = true ->
  exists r1 fs', status_to e (Some (hop_key cfg', hop_key cfg, LR_StatusMessage.Mk fs (hop_rxID cfg') LR_StatusRecord.SUCCESS proto_version)) r
    = Ok (Some (hop_key cfg, from, LR_StatusMessage.Mk fs' (hop_rxID cfg) LR_StatusRecord.SUCCESS proto_version), r1)
  /\ serves (node r1) h hop cfg from (hop_key cfg') /\ kept r r1 /\ length fs' = max_len /\ full_frames fs' /\ all_read (cfg :: cfgs) fs'.
Proof using INS BDS CS RS.
  intros Hs Hown Htx Hid Hl Hf Hall Hlen Ha. pose proof Hs as (_ & _ & _ & _ & _ & S6 & _ & S8).
  destruct (status_run ours rank0 port0 e h hop from (hop_key cfg') cfg fs (node r) Hs Hid Hl Hf Ha) as (n' & f & E & Hs' & Hps & Hr & Hl' & Hf' & Hcalls).
  unfold status_to. rewrite bool_decide_true by done. unfold LRSM_HandleMessage. cbn [LR_StatusMessage.frames LR_StatusMessage.pathid LR_StatusMessage.status].
  rewrite (proj2 (Nat.eqb_eq _ _)) by done. cbn [negb]. unfold GetByUpstream. rewrite <- Htx, Hown, S6. cbn [fmap option_fmap option_map]. rewrite E. cbn [rbind].
  change (node (r <| node := n' |>)) with n'. rewrite (sent_last (node r) n' [] _ _ _ Hcalls), S8. cbn [status_from].
  eexists _, _. split; [done|]. split; [exact Hs'|]. split; [done|]. split; [done|]. split; [done|]. by apply all_read_cons.
Qed.
Lemma build_through_run e ts cfgs fs rs : forall addr from, keyed ts cfgs fs -> relays_ready ts cfgs rs -> cfgs <> [] -> linked cfgs -> ids_nonzero cfgs -> (length cfgs <= max_len)%nat ->
  length fs = max_len -> full_frames fs -> (forall r ip, head rs = Some r -> addr = Some ip -> DecayingHashSet.Contains ip (m_PathLimits (node r)) = false) ->
  session_allowed e from = true -> (forall cfg, cfg ∈ cfgs -> session_allowed e (hop_key cfg) = true /\ PathToRouterAllowed e (hop_key cfg) = true) ->
  exists (rs' : list (router * nat)) cfg fs', head cfgs = Some cfg
  /\ build_through e addr from (LR_CommitMessage.empty <| LR_CommitMessage.frames := fs |>) rs
     = Ok (Some (hop_key cfg, from, LR_StatusMessage.Mk fs' (hop_rxID cfg) LR_StatusRecord.SUCCESS proto_version), rs'.*1)
  /\ chain from cfgs (nodes rs') /\ Forall2 kept rs rs'.*1 /\ length fs' = max_len /\ full_frames fs' /\ all_read cfgs fs'.
Proof using INS BDS CS RS.
  revert ts fs rs. induction cfgs as [|cfg [|cfg' cfgs] IH]; intros [|t ts] [|f fs] [|r rs] addr from HK HR Hne HL HI Hlen Hl Hff Haddr Hfrom Ha; try done.
  - destruct ts; [|by destruct HK as (_ & _ & _ & _ & [])]. destruct HR as [HR HR']. destruct rs; [|done]. apply Forall_cons in HI as [[Htx Hrx] _]. destruct HK as (K1 & K2 & K3 & K4 & _).
    destruct (confirm_step e addr from t cfg f fs r K1 K2 K3 K4 HR Hl Htx Hrx Hfrom) as (r1 & h & fs' & E & Hs & Hk & Hsent & L1 & L2 & L3).
    exists [(r1, h)], cfg, fs'. cbn [build_through]. rewrite E. cbn [rbind]. rewrite Hsent. cbn [status_from fmap list_fmap fst]. destruct HR as (_ & _ & _ & R4 & _). rewrite R4.
    split_and!; [done|done| |constructor; [done|constructor]|done..]. by eexists.
  - destruct HR as [HR HR']. destruct HK as (K1 & K2 & K3 & K4 & K5). apply Forall_cons in HI as [[Htx Hrx] HI]. destruct HL as (L1 & L2 & L3).
    destruct rs as [|r' rs]; [by destruct ts|]. pose proof (Ha cfg' ltac:(right; left)) as [Ha1 Ha2].
    destruct (commit_step e addr from t cfg cfg' f fs r) as (r1 & h & E & Hs & Hk & Hsent & Lfs & Ffs); [done..|by intros ip; apply Haddr|done|done|]. cbv zeta in *.
    set (fs1 := fs ++ _) in *. destruct (IH ts fs1 (r' :: rs) None (hop_key cfg)) as (rs' & c & fs2 & Hc & E2 & Hch & Hkept & M1 & M2 & M3);
      [by apply keyed_app|done|done|done|done|cbn in *; lia|done|done|done|apply Ha; left|intros; apply Ha; by right|]. injection Hc as <-.
    destruct HR as (_ & _ & _ & R4 & _ & R6). destruct (status_step e from h (hop_for e from cfg) cfg cfg' (cfg' :: cfgs) fs2 r1) as (r2 & fs3 & E3 & Hs3 & Hk3 & N1 & N2 & N3);
      [done|by rewrite (proj1 Hk)|done|apply K1|done|done|done|cbn in *; lia|done|].
    exists ((r2, h) :: rs'), cfg, fs3. split; [done|]. split.
    + change (build_through e addr from ?msg (r :: r' :: rs)) with
        (let* (_, r1) := LRCM_HandleMessage ours rank0 port0 e from addr msg r in
         match sent (node r) (node r1) with
         | Some (next, LCommit m) => if bool_decide (next = pubkey (node r')) then
             let* (st, above) := build_through e None (pubkey (node r)) m (r' :: rs) in let* (st, r1) := status_to e st r1 in Ok (st, r1 :: above) else Ok (None, r1 :: r' :: rs)
         | o => Ok (status_from (pubkey (node r)) o, r1 :: r' :: rs) end).
      rewrite E. cbn [rbind]. rewrite Hsent, R4. rewrite bool_decide_true by (destruct ts; [done|]; by destruct HR' as [(_ & _ & _ & -> & _) _]). rewrite E2. cbn [rbind]. rewrite E3. done.
    + split_and!; [|constructor; [|done]|done..]; [|by eapply kept_trans].
      change (nodes ((r2, h) :: rs')) with ((node r2, h) :: nodes rs'). split; [by eexists|]. done.
Qed.

(** ** The owner of the path *)
Lemma randomize_frames_run fs r : full_frames fs -> exists fs' r', randomize_frames fs r = (fs', r') /\ redrawn r r' /\ length fs' = length fs /\ full_frames fs'.
Proof using RS.
  intros Hf. revert r. induction Hf as [|f fs Hf Hfs IH]; intros r; cbn [randomize_frames]; [exists [], r; split_and!; [done|apply redrawn_refl|done|constructor]|].
  rewrite Hf. destruct (draw_redrawn EncryptedFrameSize r) as (b & r1 & -> & Lb & R1). destruct (IH r1) as (fs' & r2 & -> & R2 & L2 & F2).
  eexists _, r2. split; [done|]. split; [by eapply redrawn_trans|]. split; [cbn; congruence|by constructor].
Qed.
Lemma read_status_success index cfgs fs : all_read cfgs fs -> read_status index cfgs fs LR_StatusRecord.SUCCESS = Ok (LR_StatusRecord.SUCCESS, None).
Proof.
  revert index fs. induction cfgs as [|cfg cfgs IH]; intros index fs Ha; [done|]. unfold all_read in Ha. destruct fs as [|f fs]; [by apply Forall2_cons_nil_inv in Ha|].
  cbn [length take] in Ha. apply Forall2_cons in Ha as [(_ & f' & b & E1 & E2) Ha]. cbn [read_status]. rewrite E1. cbn [rbind negb]. rewrite E2. cbn [rbind negb LR_StatusRecord.status].
  change (Z.land LR_StatusRecord.SUCCESS LR_StatusRecord.SUCCESS =? LR_StatusRecord.SUCCESS) with true. by apply IH.
Qed.
Lemma emplace_found (tx rx : PathID_t) p r : m_OurPaths r !! rx = None -> m_OurPaths (emplace_path rx p (emplace_path tx p r)) !! rx = Some p.
Proof.
  intros H. assert (forall id (q : router), m_OurPaths (emplace_path id p q) = match m_OurPaths q !! id with Some _ => m_OurPaths q | None => <[id := p]> (m_OurPaths q) end) as E by done.
  rewrite !E. destruct (decide (rx = tx)) as [<-|Hne].
  - by rewrite H, lookup_insert_eq, lookup_insert_eq.
  - destruct (m_OurPaths r !! tx) eqn:E1; [by rewrite H, lookup_insert_eq|]. by rewrite lookup_insert_ne, H, lookup_insert_eq.
Qed.
(** The commit is sent to the first hop, and the path is known by its ids. *)
Lemma keys_generated_run e s p x b fs r c0 cfgs : m_PathSets r !! s = Some b -> Builder._run b = true -> m_PathObjs r !! p = Some x -> Path.hops x = c0 :: cfgs -> m_OurPaths r !! hop_rxID c0 = None ->
  length fs = max_len -> full_frames fs -> session_allowed e (hop_key c0) = true ->
  exists r', PathBuilderKeysGenerated ours rank0 port0 e s p fs r = Ok r' /\ m_PathObjs r' = m_PathObjs r /\ m_OurPaths r' !! hop_rxID c0 = Some p
    /\ sent (node r) (node r') = Some (hop_key c0, LCommit (LR_CommitMessage.empty <| LR_CommitMessage.frames := fs |>))
    /\ (exists l, node r' = (node r) <| calls ::= fun k => k ++ l |>) /\ up_submit r' = up_submit r /\ up_gather r' = up_gather r /\ down_submit r' = down_submit r /\ down_gather r' = down_gather r.
Proof using INS BDS.
  intros Hb Hrun Hx Hh Hown Hl Hf Ha. unfold PathBuilderKeysGenerated, IsStopped, set_of. rewrite Hb. cbn [rbind]. rewrite Hrun. cbn [negb].
  unfold AddOwnPath, AddPath, path_at. rewrite Hx. cbn [rbind]. unfold Path.Upstream, Path.RXID, Path.TXID, Path.ExpireTime, Path.first_hop. rewrite Hh. cbn [rbind].
  change (m_PathObjs (set_builder _ _ r)) with (m_PathObjs r). rewrite Hx. cbn [rbind]. rewrite Hh. cbn [rbind].
  match goal with |- context [PathBuildStarted s ?q] => set (r1 := PathBuildStarted s q) end.
  change (m_PathObjs r1) with (m_PathObjs r). rewrite Hx. cbn [rbind]. rewrite Hh. cbn [rbind]. unfold send_to. change (node r1) with (node r). unfold SendToOrQueue. rewrite Ha. cbn [negb].
  destruct (commit_encodes ours rank0 port0 fs Hl Hf) as [text ->]. cbn [rbind]. eexists. split; [done|]. split; [done|]. split; [|split; [|split; [|done]]].
  - change (m_OurPaths (call_router _ _)) with (m_OurPaths r1). unfold r1. by apply emplace_found.
  - eapply (sent_before _ _ [] [_]); [exact (eq_sym (app_assoc (calls (node r)) [_] [_]))|done].
  - exists [Queued (hop_key c0) (LCommit (LR_CommitMessage.empty <| LR_CommitMessage.frames := fs |>)) (build_sent p); PersistSessionUntil (hop_key c0) (Path.buildStarted x + hop_lifetime c0)].
    cbv [call_router hold call update]. cbn. f_equal. exact (eq_sym (app_assoc (calls (node r)) [_] [_])).
Qed.

Lemma linked_same cfgs cfgs' : Forall2 same_hop cfgs cfgs' -> linked cfgs -> linked cfgs'.
Proof.
  induction 1 as [|c c' cfgs cfgs' (H1 & H2 & H3) HF IH]; [done|]. destruct HF as [|d d' ? ? (H4 & H5 & H6) HF]; [done|]. intros (L1 & L2 & L3). specialize (IH L3).
  split; [congruence|]. split; [|exact IH]. unfold hop_key in *. by rewrite H3, H6.
Qed.
Lemma nonzero_same cfgs cfgs' : Forall2 same_hop cfgs cfgs' -> ids_nonzero cfgs -> ids_nonzero cfgs'.
Proof. unfold ids_nonzero. induction 1 as [|c c' ? ? (H1 & H2 & _) _ IH]; [done|]. intros [? ?]%Forall_cons. constructor; [by rewrite H1, H2|auto]. Qed.
Lemma relays_same ts cfgs cfgs' rs : Forall2 same_hop cfgs cfgs' -> relays_ready ts cfgs rs -> relays_ready ts cfgs' rs.
Proof.
  intros HF. revert ts rs. induction HF as [|c c' ? ? (H1 & H2 & H3) _ IH]; intros [|t ts] [|r rs]; try done. intros [H4 H5]. split; [|auto].
  unfold relay_ready, vacant, hop_key in *. by rewrite H1, H2, H3.
Qed.
Lemma allowed_same (Q : RouterID -> Prop) cfgs cfgs' : Forall2 same_hop cfgs cfgs' -> (forall c, c ∈ cfgs -> Q (hop_key c)) -> forall c, c ∈ cfgs' -> Q (hop_key c).
Proof.
  induction 1 as [|d d' ? ? (_ & _ & H3) _ IH]; [done|]. intros HQ c Hc. apply elem_of_cons in Hc as [-> | Hc]; [unfold hop_key; rewrite H3; apply HQ; left|].
  apply IH; [|done]. intros; apply HQ; by right.
Qed.
Lemma keyed_sized ts cfgs fs : keyed ts cfgs fs -> keys_sized cfgs /\ ids_sized cfgs.
Proof using HS.
  unfold keys_sized, ids_sized. revert cfgs fs. induction ts as [|t ts IH]; intros [|cfg cfgs] [|f fs] H; try done.
  destruct H as (H1 & _ & _ & H2 & H3). destruct (IH _ _ H3). split; constructor; try done; [rewrite H2; apply length_shorthash|apply H1].
Qed.
(** What the start of a build leaves to the router as it was. *)
Definition owner_kept r r' : Prop :=
  (exists k l, node r' = (node r) <| draws := k |> <| calls ::= fun c => c ++ l |>)
  /\ up_submit r' = up_submit r /\ up_gather r' = up_gather r /\ down_submit r' = down_submit r /\ down_gather r' = down_gather r.
Lemma built_run e s p x b ts rs addr r : m_PathSets r !! s = Some b -> Builder._run b = true -> m_PathObjs r !! p = Some x ->
  Forall2 hop_ready ts (Path.hops x) -> relays_ready ts (Path.hops x) rs -> Path.hops x <> [] -> linked (Path.hops x) -> ids_nonzero (Path.hops x) -> (length (Path.hops x) <= max_len)%nat ->
  (forall c, head (Path.hops x) = Some c -> m_OurPaths r !! hop_rxID c = None) ->
  (forall r ip, head rs = Some r -> addr = Some ip -> DecayingHashSet.Contains ip (m_PathLimits (node r)) = false) ->
  session_allowed e (pubkey (node r)) = true -> (forall c, c ∈ Path.hops x -> session_allowed e (hop_key c) = true /\ PathToRouterAllowed e (hop_key c) = true) ->
  exists r1 cfgs m c st (rs' : list (router * nat)), AsyncGenerateKeys ours rank0 port0 e s p r = Ok r1
  /\ m_PathObjs r1 !! p = Some (x <| Path.hops := cfgs |>) /\ Forall2 same_hop (Path.hops x) cfgs /\ keys_sized cfgs /\ ids_sized cfgs
  /\ (forall rx, Path.RXID (x <| Path.hops := cfgs |>) = Ok rx -> m_OurPaths r1 !! rx = Some p)
  /\ owner_kept r r1 /\ sent (node r) (node r1) = Some (hop_key c, LCommit m)
  /\ build_through e addr (pubkey (node r)) m rs = Ok (Some (hop_key c, pubkey (node r), st), rs'.*1)
  /\ chain (pubkey (node r)) cfgs (nodes rs') /\ Forall2 kept rs rs'.*1
  /\ LRSM_HandleMessage ours rank0 port0 e (hop_key c) st r1 = let* (_, r) := HandlePathConfirmMessage e p r1 in Ok (true, r).
Proof using INS BDS CS KS HS RS.
  intros Hb Hrun Hx HT HR Hne HL HI Hlen Hown Haddr Ha0 Ha. destruct empty_frames_full as [L0 F0].
  unfold AsyncGenerateKeys. destruct (randomize_frames_run empty_frames r F0) as (fs & r0 & -> & [k ->] & L1 & F1). rewrite L0 in L1. unfold path_at.
  change (m_PathObjs (r <| node := _ |>)) with (m_PathObjs r). rewrite Hx. cbn [rbind].
  destruct (generate_keys_run ours rank0 port0 ts (Path.hops x) fs (r <| node := (node r) <| draws := k |> |>) HT) as (cfgs & fs' & r1 & -> & [k' ->] & HS' & HK & L2 & F2); [lia|done|].
  cbn [rbind]. rewrite L1 in L2. set (x' := x <| Path.hops := cfgs |>). set (r2 := set_path p _ _).
  assert (m_PathObjs r2 !! p = Some x') as Hx'.
  { change (m_PathObjs r2) with (alter (fun x => x <| Path.hops := cfgs |>) p (m_PathObjs r)). by rewrite lookup_alter_eq, Hx. }
  destruct (keyed_sized _ _ _ HK) as [Hks His]. pose proof (allowed_same (fun q => session_allowed e q = true /\ PathToRouterAllowed e q = true) _ _ HS' Ha) as Ha'. cbv beta in Ha'.
  destruct (build_through_run e ts cfgs fs' rs addr (pubkey (node r))) as (rs' & c & sfs & Hc & E & Hch & Hkept & M1 & M2 & M3);
    [done|by eapply relays_same|by destruct HS'|by eapply linked_same|by eapply nonzero_same|by rewrite <- (Forall2_length _ _ _ HS')|done|done|done|done|done|].
  destruct cfgs as [|c0 cfgs]; [done|]. injection Hc as ->.
  assert (m_OurPaths r !! hop_rxID c = None) as Hnone.
  { inversion HS' as [|d ? ds ? (_ & H2 & _) ? Eh]; subst. rewrite H2. apply Hown. by rewrite <- Eh. }
  destruct (keys_generated_run e s p x' b fs' r2 c cfgs) as (r3 & E3 & P1 & P2 & P3 & [l P4] & P5); [done..|apply Ha'; left|].
  exists r3, (c :: cfgs), (LR_CommitMessage.empty <| LR_CommitMessage.frames := fs' |>), c, (LR_StatusMessage.Mk sfs (hop_rxID c) LR_StatusRecord.SUCCESS proto_version), rs'.
  split_and!; [done|by rewrite P1|done|done|done|intros rx [= <-]; exact P2|split; [by exists k', l|exact P5]|exact P3|exact E|done|done|].
  unfold LRSM_HandleMessage, GetByUpstream. cbn [LR_StatusMessage.frames LR_StatusMessage.pathid LR_StatusMessage.status]. rewrite (proj2 (Nat.eqb_eq _ _)) by done. cbn [negb].
  rewrite P2. unfold path_HandleLRSM, path_at. rewrite P1, Hx'. cbn [rbind]. change (Path.hops x') with (c :: cfgs). rewrite read_status_success by done. cbn [rbind].
  change (Z.land LR_StatusRecord.SUCCESS LR_StatusRecord.SUCCESS =? LR_StatusRecord.SUCCESS) with true. cbn iota. by destruct (HandlePathConfirmMessage e p r3) as [[]| | |].
Qed.
(** C19. Routers that are ready to be the hops of a path become them: the keys and ids that the owner of
    the path made are in their tables, so that they form the path; and the owner reads in the
    status that comes back that every hop has agreed. *)
Theorem path_built e s p x b ts rs addr r : m_PathSets r !! s = Some b -> Builder._run b = true -> m_PathObjs r !! p = Some x ->
  Forall2 hop_ready ts (Path.hops x) -> relays_ready ts (Path.hops x) rs -> Path.hops x <> [] -> linked (Path.hops x) -> ids_nonzero (Path.hops x) -> (length (Path.hops x) <= max_len)%nat ->
  (forall c, head (Path.hops x) = Some c -> m_OurPaths r !! hop_rxID c = None) ->
  (forall r ip, head rs = Some r -> addr = Some ip -> DecayingHashSet.Contains ip (m_PathLimits (node r)) = false) ->
  session_allowed e (pubkey (node r)) = true -> (forall c, c ∈ Path.hops x -> session_allowed e (hop_key c) = true /\ PathToRouterAllowed e (hop_key c) = true) ->
  exists r1 cfgs m c st (rs' : list (router * nat)), AsyncGenerateKeys ours rank0 port0 e s p r = Ok r1
  /\ m_PathObjs r1 !! p = Some (x <| Path.hops := cfgs |>) /\ Forall2 same_hop (Path.hops x) cfgs /\ keys_sized cfgs /\ ids_sized cfgs
  /\ (forall rx, Path.RXID (x <| Path.hops := cfgs |>) = Ok rx -> m_OurPaths r1 !! rx = Some p)
  /\ owner_kept r r1 /\ sent (node r) (node r1) = Some (hop_key c, LCommit m)
  /\ build_through e addr (pubkey (node r)) m rs = Ok (Some (hop_key c, pubkey (node r), st), rs'.*1)
  /\ chain (pubkey (node r)) cfgs (nodes rs') /\ Forall2 kept rs rs'.*1
  /\ LRSM_HandleMessage ours rank0 port0 e (hop_key c) st r1 = let* (_, r) := HandlePathConfirmMessage e p r1 in Ok (true, r).
Proof using INS BDS CS KS HS RS. apply built_run. Qed.
End build.
