(* ===== verification/PathLife.v ===== *)
(** * A path from its build to its first answer (theorems on PathContext, TransitHop and Path)

    The build, the status, the first test of latency and its answer, one after the other: on routers
    that are ready a path that is built ends up established. *)

From S2P Require Import Prelude Buffer Bencode Codec CryptoApi Str NetInt IpRange DnsName DnsMessage Contact TrafficPolicy Service Frame Protocol Kademlia DhtMessage Routing LinkMessage Profiling TransitHop Path PathContext PathSpec PathReply PathBuild.
Import EncryptedFrame.

(** ** Hops that stay what they are *)
Section stay.
Context {IP : InetPton} {IN : InetNtop} {INS : InetNtopSpec IP IN} {BT : OxencBt} {BD : OxencDict} {BDS : OxencDictSpec BD} {O : Oxenc}.
Context {CR : Crypto} {CS : StreamCipherSpec CR} {KP : KeyPairs} {SH : ShortHasher} {UN : Uninit} {RN : Random} {RS : RandomSpec RN}.
Context {D X : Type} {DA : DhtApi D} {XA : ExitApi X}.
Context (ours : list Z) (rank0 port0 : Z).
Implicit Types (n : Node D X) (e : Env) (h : nat).

(** Whatever the hop serves, it still serves. *)
Definition still n h n' : Prop := forall hop cfg prev next, serves n h hop cfg prev next -> exists hop', serves n' h hop' cfg prev next.
Lemma passed_still n h n' : passed n n' -> still n h n'.
Proof. intros (next & m & ->) hop cfg prev nx Hs. by exists hop. Qed.
Lemma chain_still prev cfgs (ns ns' : list (Node D X * nat)) : Forall2 (fun y y' => y'.2 = y.2 /\ still y.1 y.2 y'.1) ns ns' -> chain prev cfgs ns -> chain prev cfgs ns'.
Proof.
  intros HF. revert prev cfgs. induction HF as [|[n h] [n' h'] ns ns' [Hh Hst] HF IH]; intros prev [|cfg [|cfg' cfgs]] Hc; try done.
  - cbn [fst snd] in *. subst. destruct ns; [|done]. inversion HF; subst. destruct Hc as [hop Hs]. exact (Hst _ _ _ _ Hs).
  - cbn [fst snd] in *. subst. destruct Hc as ((hop & Hs) & H1 & H2 & Hc). specialize (IH _ _ Hc). split; [exact (Hst _ _ _ _ Hs)|]. done.
Qed.
Lemma MapGet_alter check k (hops : gmap nat TransitHop.t) l h f : (forall hop, check (f hop) = check hop) -> MapGet check k (alter f h hops) l = MapGet check k hops l.
Proof.
  intros Hf. induction l as [|[k' h'] l IH]; [done|]. cbn [MapGet]. rewrite IH. destruct (decide (h' = h)) as [->|]; [rewrite lookup_alter_eq|by rewrite lookup_alter_ne].
  destruct (hops !! h) as [hop|]; cbn; [by rewrite Hf|done].
Qed.
(** The end of the path has handled a message: its hop was active, its parser has read. *)
Definition active_end e h (ps : InboundMessageParser) n : Node D X := set_hop h (fun hop => hop <| TransitHop.m_LastActivity := Now e |>) (n <| m_Parser := ps |>).
Lemma active_still e h ps n : still n h (active_end e h ps n).
Proof.
  intros hop cfg prev next (S1 & S2 & S3 & S4 & S5 & S6 & S7 & S8). exists (hop <| TransitHop.m_LastActivity := Now e |>). unfold serves. split_and!; try done; try apply S7.
  - change (m_Hops (active_end e h ps n)) with (alter (fun hop => hop <| TransitHop.m_LastActivity := Now e |>) h (m_Hops n)). by rewrite lookup_alter_eq, S1.
  - intros id Hid. rewrite <- (S5 id Hid). unfold GetByDownstream, transit_get. by apply MapGet_alter.
  - rewrite <- S6. unfold TransitHopByUpstream, transit_get. by apply MapGet_alter.
Qed.
Lemma latency_text_short m : RoutingSpec.routing_ok (RLatency m) -> (length (dict (RoutingSpec.routing_text (RLatency m))) <= 100)%nat.
Proof.
  intros (HL & HT & HS & _). rewrite length_dict. unfold RoutingSpec.routing_text, RoutingSpec.fields.
  transitivity (2 + (3 + 3 + (3 + 22 + (3 + 22 + (3 + 22 + 0)))))%nat; [|lia]. apply le_n_S, le_n_S.
  apply (entries_cons_le _ _ _ 3); [by apply Nat.leb_le|]. do 2 (apply entries_if_le; [by apply length_enc_int_le|]). apply entries_cons_le; [by apply length_enc_int_le|done].
Qed.
(** The answer to a test of latency is left with the worker. *)
Lemma latency_answered e h hop cfg prev n m rx ps : serves n h hop cfg prev (hop_key cfg) -> in_width 64 (PathLatencyMessage.T m) -> in_width 64 (PathLatencyMessage.S_ m) ->
  let a := RLatency (PathLatencyMessage.Mk 0 (PathLatencyMessage.T m) (PathLatencyMessage.S_ m) proto_version) in
  let out := dict (RoutingSpec.routing_text a) in
  RoutingSpec.routing_ok a /\ (length (out ++ padding_for n (length out)) <= Relay.MAX_X)%nat /\
  (let* (_, n) := HandleRoutingMessage h rx (RLatency m) n in end_up ours rank0 port0 e h ps n)
  = Ok (HandleDownstream h (out ++ padding_for n (length out), randbytes (draws n) TUNNONCESIZE) (active_end e h ps (drawn n (length out)))).2.
Proof using INS BDS RS.
  intros (S1 & _ & _ & S4 & _ & _ & (_ & _ & Q3 & Q4) & S8) HT HS a out. assert (RoutingSpec.routing_ok a) as Hok by (split_and!; done).
  pose proof (RoutingSpec.writes_routing ours rank0 port0 a Hok) as Hw. fold out in Hw.
  assert (length out < MAX_LINK_MSG_SIZE - 128)%nat as Hl.
  { pose proof (latency_text_short _ Hok). fold a out in H. change (MAX_LINK_MSG_SIZE - 128)%nat with (63 * 128)%nat. lia. }
  destruct (send_at_end h hop n (routing_BEncode ours rank0 port0 a) out S1) as [E Ht]; [by rewrite S4, S8|exact Hw|done|]. split; [done|]. split; [done|].
  cbn [HandleRoutingMessage]. unfold HandlePathLatencyMessage. change (SendRoutingMessage h _ n) with (SendRoutingMessage h (routing_BEncode ours rank0 port0 a) n). rewrite E. unfold HandleDownstream at 1. cbn [rbind]. unfold end_up. rewrite gather_down_none by exact Q4. done.
Qed.
End stay.

(** ** The whole way *)
Section life.
Context {IP : InetPton} {IN : InetNtop} {INS : InetNtopSpec IP IN} {BT : OxencBt} {BD : OxencDict} {BDS : OxencDictSpec BD} {O : Oxenc}.
Context {CR : Crypto} {CC : CryptoSpec CR} {CS : StreamCipherSpec CR} {KP : KeyPairs} {KS : KeyPairsSpec CR KP} {SH : ShortHasher} {HS : ShortHasherSpec SH} {UN : Uninit} {RN : Random} {RS : RandomSpec RN}.
Context {D X P : Type} {DA : DhtApi D} {XA : ExitApi X} {PO : PathOwner (Router D X P)}.
Context (ours : list Z) (rank0 port0 : Z).
Abbreviation router := (Router D X P).
Implicit Types (r : router) (e : Env) (p s h : nat) (x : Path.t) (rs : list (router * nat)).

(** The routers with what the messages made of them. *)
Definition set_nodes (l : list router) (ns : list (Node D X)) : list router := zip_with (fun r n => r <| node := n |>) l ns.
(** The worker and the loop of the end of the path. *)
Definition work_down e (n : Node D X) : res (Node D X) := let* n := RunDownstream n in Gather ours rank0 port0 e n.
(** The test of latency that was left with the worker goes up, and the answer comes down. *)
Definition first_test e (l : list router) r : res (router * list router) :=
  let* r' := UpstreamWork r in
  let* r' := Wakeup ours rank0 port0 e r' in
  match new_calls (node r) (node r') with
  | [Queued _ (LUpstream m) _] =>
      let* ns := carry_up ours rank0 port0 e (pubkey (node r')) m (node <$> l) in
      travel_down ours rank0 port0 e (work_down e) (set_nodes l ns) r'
  | _ => Ok (r', l)
  end.
(** The owner makes the keys of path [p]; the commit goes from router to router and the status comes
    back; the first test of latency goes up, and the answer comes down. *)
Definition establish e s p (addr : option (list Z)) (l : list router) r : res (router * list router) :=
  let* r1 := AsyncGenerateKeys ours rank0 port0 e s p r in
  match sent (node r) (node r1) with
  | Some (_, LCommit m) =>
      let* (st, l) := build_through ours rank0 port0 e addr (pubkey (node r)) m l in
      match st with
      | Some (from, _, st) =>
          let* (_, r2) := LRSM_HandleMessage ours rank0 port0 e from st r1 in first_test e l r2
      | None => Ok (r1, l)
      end
  | _ => Ok (r1, l)
  end.

(** A path that was just made: nothing has gone through it, and it is being built. *)
Definition new_path x : Prop :=
  Path._status x = ePathBuilding /\ Path.m_UpstreamReplayFilter x = DecayingHashSet.Mk 1000 ∅ /\ Path.m_DownstreamReplayFilter x = DecayingHashSet.Mk 1000 ∅
  /\ in_width 64 (Path.m_SequenceNum x).
(** The status makes the owner test the path. *)
Lemma confirm_tests e p x r : m_PathObjs r !! p = Some x -> Path._status x = ePathBuilding -> Path.hops x <> [] ->
  exists r' x' m c, HandlePathConfirmMessage e p r = path_SendRoutingMessage e p proto_version (routing_BEncode ours rank0 port0 (RLatency m)) r'
    /\ node r' = (call c (node r)) <| draws ::= S |> /\ m_PathObjs r' !! p = Some x' /\ m_OurPaths r' = m_OurPaths r /\ m_PathSets r' = m_PathSets r
    /\ up_submit r' = up_submit r /\ up_gather r' = up_gather r /\ down_submit r' = down_submit r /\ down_gather r' = down_gather r
    /\ PathLatencyMessage.T m = randint (draws (node r)) /\ PathLatencyMessage.L m = 0 /\ PathLatencyMessage.S_ m = Path.m_SequenceNum x /\ PathLatencyMessage.version m = proto_version
    /\ Path.m_LastLatencyTestID x' = randint (draws (node r)) /\ Path.hops x' = Path.hops x /\ Path.m_BuiltHook x' = Path.m_BuiltHook x
    /\ Path.m_UpstreamReplayFilter x' = Path.m_UpstreamReplayFilter x /\ Path.m_DownstreamReplayFilter x' = Path.m_DownstreamReplayFilter x.
Proof.
  intros Hx Hst Hh. destruct (Path.hops x) as [|c0 cfgs] eqn:Eh; [done|]. unfold HandlePathConfirmMessage, path_at. rewrite Hx. cbn [rbind]. rewrite bool_decide_true by done.
  unfold Path.ExpireTime, Path.Upstream, Path.first_hop. rewrite Eh. cbn [rbind]. unfold SendLatencyMessage, path_at.
  match goal with |- context [set_path p ?g r] => pose (g1 := g) end.
  match goal with |- context [mark_active e p ?q] => set (r1 := mark_active e p q) end.
  assert (m_PathObjs r1 !! p = Some (Path.MarkActive (Now e) (g1 x))) as Hx1.
  { change (m_PathObjs r1) with (alter (Path.MarkActive (Now e)) p (alter g1 p (m_PathObjs r))). by rewrite !lookup_alter_eq, Hx. }
  rewrite Hx1. cbn [rbind]. unfold Path.NextSeqNo. cbv beta iota zeta. change (node r1) with (call (PersistSessionUntil (hop_key c0) (Path.buildStarted x + hop_lifetime c0)) (node r)).
  match goal with |- context [PathLatencyMessage.BEncode ?q] => set (m := q) end. match goal with |- context [set_path p ?g ?q] => set (r2 := set_path p g q); pose (x2 := g x) end.
  exists r2, x2, m, (PersistSessionUntil (hop_key c0) (Path.buildStarted x + hop_lifetime c0)). split; [done|]. split; [done|]. split.
  { change (m_PathObjs r2) with (alter (fun _ => x2) p (m_PathObjs r1)). by rewrite lookup_alter_eq, Hx1. }
  split_and!; done.
Qed.

(** ** The end of the path answers *)
Lemma carry_down_end e act act' (l : list router) ra rb : act (node ra) = act' (node rb) -> calls (node ra) = calls (node rb) -> pubkey (node ra) = pubkey (node rb) ->
  (forall n, ra <| node := n |> = rb <| node := n |>) -> carry_down ours rank0 port0 e act (l ++ [ra]) = carry_down ours rank0 port0 e act' (l ++ [rb]).
Proof.
  intros Ha Hc Hp Hn. induction l as [|r l IH].
  - cbn [app carry_down]. rewrite Ha. destruct (act' (node rb)) as [n| | |]; [|done..]. cbn [rbind]. unfold sent_down, new_calls. by rewrite Hc, Hp, Hn.
  - destruct l as [|r' l]; cbn [app carry_down] in *; by rewrite IH.
Qed.
(** A path in whose last hop an answer waits for the worker. *)
Lemma answered_down e p x r rs h re hop ev nend m pad N : down_ready p x r (rs ++ [(re, h)]) re h e N -> m_Hops (node re) !! h = Some hop ->
  ev = (dict (RoutingSpec.routing_text m) ++ pad, N) -> nend = (HandleDownstream h ev (node re)).2 -> RoutingSpec.routing_ok m -> RoutingSpec.letter m <> c_V ->
  (length (dict (RoutingSpec.routing_text m) ++ pad) <= Relay.MAX_X)%nat ->
  exists (between : list router) rx ps f k next m', let x' := x <| Path.m_DownstreamReplayFilter := f |> <| Path.m_RXRate := k |> in
  Forall2 passed_down rs.*1 between /\ RoutingSpec.clean (m_Holder ps) /\
  travel_down ours rank0 port0 e (work_down e) (rs.*1 ++ [re <| node := nend |>]) r
  = let* (ok, r) := path_HandleRouting ours rank0 port0 e p rx (RoutingSpec.received m) (r <| m_PathObjs ::= <[p := x']> |>) in
    Ok (took e p ps ok r, between ++ [re <| node ::= call (Queued next m' no_handler) |>]).
Proof using INS BDS CS.
  intros Hd Hh Hev -> Hok Hv Ht. pose proof Hd as (_ & _ & Hc & Hl & Hk & Hids & _ & _ & Ha0 & Ha & HN & _). set (text := dict (RoutingSpec.routing_text m) ++ pad) in *.
  destruct (chain_last e _ _ _ _ _ Hc (nodes_last _ _ _ Hl) Ha0 Ha) as (hop' & cfg & prev & Hs & Hcfg & Hprev).
  pose proof Hs as (S1 & _ & _ & S4 & _ & _ & Hq & _). rewrite Hh in S1. injection S1 as <-.
  assert (forall c q, serves (node re) h hop c q (hop_key c) -> wrap_down hop ev = Relay.Mk (hop_rxID c) (stream text (shared c) N) (key_xor N (hop_nonceXOR c)) proto_version) as Ew.
  { intros c q Hs'. rewrite Hev. exact (wrap_serves (node re) h hop c q _ text N Hs' Ht). }
  assert (relay_down ours rank0 port0 e h ev (node re) = Ok (call (Queued prev (LDownstream (wrap_down hop ev)) no_handler) (node re))) as E.
  { replace prev with (downstream (TransitHop.info hop)) by (by rewrite S4). apply relay_down_run; [done|done|by rewrite S4|]. rewrite (Ew cfg prev Hs).
    apply wrap_ok; [exact (proj1 (Forall_forall _ _) Hk cfg Hcfg)|exact (proj2 (proj1 (Forall_forall _ _) Hids cfg Hcfg))|done|done]. }
  destruct (carried_down ours rank0 port0 e p x r (rs ++ [(re, h)]) re h m pad N (relay_down ours rank0 port0 e h ev) _ Hd Hok Hv Ht E) as (between & rx & ps & f & k & HF & _ & Hps & Et).
  { intros hop' cfg' prev' Hs' _ _ _. pose proof Hs' as (S1' & _ & _ & S4' & _). rewrite Hh in S1'. injection S1' as <-. rewrite sent_down_one by done.
    rewrite S4 in S4'. injection S4' as _ _ _ ->. by rewrite (Ew cfg' prev' Hs'). }
  exists between, rx, ps, f, k, prev, (LDownstream (wrap_down hop ev)). cbv zeta in *. rewrite fmap_app in Et, HF. cbn [fmap list_fmap fst] in Et, HF.
  split_and!; [|done|].
  { rewrite length_app in HF. cbn [length] in HF. rewrite Nat.add_sub, take_app_length' in HF; [exact HF|by rewrite length_fmap]. }
  unfold travel_down in *. refine (eq_trans _ Et). f_equal. by apply carry_down_end.
Qed.
Lemma answer_establishes e p x r m rx : m_PathObjs r !! p = Some x -> Path.m_LastLatencyTestID x <> 0 ->
  exists r' x', m_PathObjs r' !! p = Some x' /\ Path._status x' = ePathEstablished /\ Path.hops x' = Path.hops x /\ node r' = node r
  /\ path_HandleRouting ours rank0 port0 e p rx (RLatency m) r
     = let* r := (if Path.m_BuiltHook x then built_hook p r' else Ok r') in Ok (true, set_path p (fun x => x <| Path.m_BuiltHook := false |>) r).
Proof.
  intros Hx HT. cbn [path_HandleRouting]. unfold path_HandlePathLatencyMessage, path_at.
  assert (forall g r', m_PathObjs (set_path p g r') = alter g p (m_PathObjs r')) as Hset by done.
  unfold mark_active. rewrite Hset, lookup_alter_eq, Hx. cbn [fmap option_fmap option_map rbind]. change (Path.m_LastLatencyTestID (Path.MarkActive _ x)) with (Path.m_LastLatencyTestID x).
  rewrite (proj2 (Z.eqb_neq _ _)) by done. match goal with |- context [EnterState p _ _ ?q] => set (r1 := q) end.
  assert (exists x1, m_PathObjs r1 !! p = Some x1 /\ Path.hops x1 = Path.hops x) as (x1 & Hx1 & Hh1).
  { unfold r1. rewrite !Hset, !lookup_alter_eq, Hx. cbn [fmap option_fmap option_map]. by eexists. }
  unfold EnterState, path_at. rewrite Hx1. cbn [rbind]. eexists _, (x1 <| Path._status := ePathEstablished |>). split_and!; [by rewrite Hset, lookup_alter_eq, Hx1|done|done| |reflexivity].
  done.
Qed.
(** Routers that still serve what they served. *)
Definition lives (y y' : router * nat) : Prop := y'.2 = y.2 /\ still (node y.1) y.2 (node y'.1) /\ m_OurPaths y'.1 = m_OurPaths y.1.
Lemma lives_chain prev cfgs rs rs' : Forall2 lives rs rs' -> chain prev cfgs (nodes rs) -> chain prev cfgs (nodes rs').
Proof. intros HF. apply chain_still. unfold nodes. apply Forall2_fmap. eapply Forall2_impl; [exact HF|]. by intros y y' (? & ? & _). Qed.
Lemma lives_own cfgs rs rs' : Forall2 lives rs rs' -> Forall2 (fun cfg y => m_OurPaths y.1 !! hop_txID cfg = None) cfgs rs -> Forall2 (fun cfg y => m_OurPaths y.1 !! hop_txID cfg = None) cfgs rs'.
Proof. intros HF. revert cfgs. induction HF as [|y y' ? ? (_ & _ & H) _ IH]; intros cfgs H2; inversion H2; subst; constructor; [by rewrite H|auto]. Qed.
(** Each router has what the messages made of it. *)
Lemma passed_lives rs between : Forall2 passed (node <$> rs.*1) between ->
  exists rs', Forall2 lives rs rs' /\ rs'.*1 = set_nodes rs.*1 between /\ length rs' = length rs.
Proof.
  revert between. induction rs as [|[r h] rs IH]; intros between HF; cbn [fmap list_fmap fst] in HF; inversion HF as [|? n ? ns Hp HF']; subst; [by exists []|].
  destruct (IH _ HF') as (rs' & HL & E & Hlen). exists ((r <| node := n |>, h) :: rs'). split_and!; [|cbn; by rewrite E|cbn; congruence].
  constructor; [|done]. split_and!; [done| |done]. by apply passed_still.
Qed.
Lemma passed_down_lives rs between : Forall2 passed_down rs.*1 between -> exists rs', Forall2 lives rs rs' /\ rs'.*1 = between.
Proof.
  revert between. induction rs as [|[r h] rs IH]; intros between HF; cbn [fmap list_fmap fst] in HF; inversion HF as [|? r' ? ns (next & m & ->) HF']; subst; [by exists []|].
  destruct (IH _ HF') as (rs' & HL & E). eexists ((_, h) :: rs'). split; [|cbn; by rewrite E].
  constructor; [|done]. split_and!; [done| |done]. apply passed_still. by eexists _, _.
Qed.
Lemma nodes_fst rs : (nodes rs).*1 = node <$> rs.*1.
Proof. unfold nodes. by rewrite <- !list_fmap_compose. Qed.
Lemma nodes_snoc rs n h between : last (nodes rs) = Some (n, h) -> Forall2 passed (take (length (nodes rs) - 1) (nodes rs).*1) between ->
  exists rs0 re, rs = rs0 ++ [(re, h)] /\ node re = n /\ Forall2 passed (node <$> rs0.*1) between.
Proof.
  intros Hl HF. destruct rs as [|[re h'] rs0 _] using rev_ind; [done|]. unfold nodes in Hl. rewrite fmap_app, last_app in Hl. injection Hl as <- <-.
  exists rs0, re. split_and!; [done..|]. rewrite nodes_fst, !fmap_app in HF. unfold nodes in HF. rewrite length_fmap, length_app in HF. cbn [length] in HF.
  rewrite Nat.add_sub, take_app_length' in HF; [exact HF|by rewrite !length_fmap].
Qed.
Lemma kept_own ts cfgs (l : list router) rs : relays_ready ts cfgs l -> Forall2 kept l rs.*1 -> Forall2 (fun cfg y => m_OurPaths y.1 !! hop_txID cfg = None) cfgs rs.
Proof.
  revert ts cfgs l. induction rs as [|[r h] rs IH]; intros [|t ts] [|cfg cfgs] [|q l] HR HF; try done; inversion HF as [|? ? ? ? [Hk _] HF']; subst; try constructor.
  - destruct HR as [(_ & _ & _ & _ & _ & H) _]. cbn in *. by rewrite Hk.
  - destruct HR as [_ HR]. by eapply IH.
Qed.

Lemma kept_parser (l : list router) rs n h : Forall2 kept l rs.*1 -> (forall q, last l = Some q -> parser_ready (node q)) -> last (nodes rs) = Some (n, h) -> parser_ready n.
Proof.
  intros HF Hq Hl. destruct rs as [|[re h'] rs0 _] using rev_ind; [done|]. unfold nodes in Hl. rewrite fmap_app, last_app in Hl. injection Hl as <- <-.
  rewrite fmap_app in HF. apply Forall2_app_inv_r in HF as (l1 & l2 & _ & HF & ->). inversion HF as [|q ? ? ? [_ Hk] HF']; subst. inversion HF'; subst.
  unfold parser_ready. cbn in Hk. rewrite Hk. apply Hq. by rewrite last_app.
Qed.
Lemma empty_fresh (v : TunnelNonce) f : f = DecayingHashSet.Mk 1000 ∅ -> DecayingHashSet.Contains v f = false.
Proof. intros ->. reflexivity. Qed.
(** The owner of a new path, and the routers that are its hops. *)
Definition testable e p x rs r : Prop :=
  m_PathObjs r !! p = Some x /\ new_path x /\ Path.hops x <> [] /\ up_submit r = [] /\ up_gather r = [] /\ down_submit r = [] /\ down_gather r = [] /\ parser_ready (node r)
  /\ chain (pubkey (node r)) (Path.hops x) (nodes rs) /\ keys_sized (Path.hops x) /\ ids_sized (Path.hops x) /\ (forall rx, Path.RXID x = Ok rx -> m_OurPaths r !! rx = Some p)
  /\ Forall2 (fun cfg y => m_OurPaths y.1 !! hop_txID cfg = None) (Path.hops x) rs /\ session_allowed e (pubkey (node r)) = true
  /\ (forall c, c ∈ Path.hops x -> session_allowed e (hop_key c) = true) /\ (forall n h, last (nodes rs) = Some (n, h) -> parser_ready n).
(** The owner of a path waits for what comes down. *)
Definition waits e p x rs r : Prop :=
  idle p x r /\ parser_ready (node r) /\ chain (pubkey (node r)) (Path.hops x) (nodes rs) /\ keys_sized (Path.hops x) /\ ids_sized (Path.hops x)
  /\ (forall rx, Path.RXID x = Ok rx -> m_OurPaths r !! rx = Some p) /\ Forall2 (fun cfg y => m_OurPaths y.1 !! hop_txID cfg = None) (Path.hops x) rs
  /\ session_allowed e (pubkey (node r)) = true /\ (forall c, c ∈ Path.hops x -> session_allowed e (hop_key c) = true) /\ Path.m_DownstreamReplayFilter x = DecayingHashSet.Mk 1000 ∅.
Lemma waits_lives e p x rs rs' r : Forall2 lives rs rs' -> waits e p x rs r -> waits e p x rs' r.
Proof. intros HF (H1 & H2 & H3 & H4 & H5 & H6 & H7 & H8 & H9 & H10). split_and!; try assumption; try apply H1; try apply H2; [by eapply lives_chain|by eapply lives_own]. Qed.
Lemma waits_down e p x rs re h r N : waits e p x (rs ++ [(re, h)]) r -> length N = 32%nat -> down_ready p x r (rs ++ [(re, h)]) re h e N.
Proof.
  intros (H1 & H2 & H3 & H4 & H5 & H6 & H7 & H8 & H9 & H10) HN. split; [exact H1|]. split; [exact H2|]. split; [exact H3|]. split; [apply last_snoc|].
  split; [exact H4|]. split; [exact H5|]. split; [exact H6|]. split; [exact H7|]. split; [exact H8|]. split; [exact H9|]. split; [exact HN|]. by apply empty_fresh.
Qed.
Lemma test_answered e p x rs re h r lm rx ps between : waits e p x (rs ++ [(re, h)]) r -> RoutingSpec.routing_ok (RLatency lm) -> Path.m_LastLatencyTestID x <> 0 ->
  Forall2 passed (node <$> rs.*1) between ->
  exists r' x' ps' rs', m_PathObjs r' !! p = Some x' /\ Path._status x' = ePathEstablished /\ Path.hops x' = Path.hops x /\ chain (pubkey (node r)) (Path.hops x) (nodes rs')
  /\ RoutingSpec.clean (m_Holder ps')
  /\ (let* ns := (let* n := (let* (_, n) := HandleRoutingMessage h rx (RLatency lm) (node re) in end_up ours rank0 port0 e h ps n) in Ok (between ++ [n])) in
       travel_down ours rank0 port0 e (work_down e) (set_nodes (rs ++ [(re, h)]).*1 ns) r)
     = let* r := (if Path.m_BuiltHook x then built_hook p r' else Ok r') in
       Ok (took e p ps' true (set_path p (fun x => x <| Path.m_BuiltHook := false |>) r), rs'.*1).
Proof using INS BDS CS RS.
  intros Hw (_ & HT & HS' & _) Hid HF. pose proof Hw as (_ & _ & Hc & _ & _ & _ & _ & Ha0 & Ha & _).
  destruct (chain_last e _ _ _ _ _ Hc (nodes_last _ _ _ (last_snoc _ _)) Ha0 Ha) as (hop & cfg & prev & Hs & _ & _).
  destruct (latency_answered ours rank0 port0 e h hop cfg prev (node re) lm rx ps Hs HT HS') as (Hok & Ht & ->). cbn [rbind].
  set (a := RLatency _) in *. set (out := dict (RoutingSpec.routing_text a)) in *. set (nq := active_end e h ps (drawn (node re) (length out))). set (nend := (HandleDownstream _ _ nq).2).
  destruct (passed_lives rs between HF) as (rs1 & HL & Ers1 & Hlen). pose (re1 := re <| node := nq |>).
  assert (set_nodes (rs ++ [(re, h)]).*1 (between ++ [nend]) = rs1.*1 ++ [re1 <| node := nend |>]) as ->.
  { unfold set_nodes in *. rewrite fmap_app, zip_with_app, Ers1; [done|]. rewrite <- (Forall2_length _ _ _ HF). by rewrite !length_fmap. }
  assert (still (node re) h nq) as Hstill by exact (active_still e h ps (drawn (node re) (length out))).
  assert (Forall2 lives (rs ++ [(re, h)]) (rs1 ++ [(re1, h)])) as HL1.
  { apply Forall2_app; [done|]. constructor; [|constructor]. split; [done|]. split; [exact Hstill|done]. }
  pose proof (waits_lives _ _ _ _ _ _ HL1 Hw) as Hw1. destruct (Hstill _ _ _ _ Hs) as [hop' Hs'].
  set (N := randbytes (draws (node re)) TUNNONCESIZE) in *.
  destruct (answered_down e p x r rs1 h re1 hop' (out ++ padding_for (node re) (length out), N) nend a (padding_for (node re) (length out)) N) as (bt & rx' & ps' & f & k & next & m' & HFd & Hps' & Et);
    [apply waits_down; [done|apply length_randbytes]|apply Hs'|done|done|done|done|done|]. cbv zeta in Et. rewrite Et.
  destruct (passed_down_lives rs1 bt HFd) as (rs2 & HL2 & <-). set (x1 := x <| Path.m_DownstreamReplayFilter := f |> <| Path.m_RXRate := k |>) in *. set (r1 := r <| m_PathObjs ::= <[p := x1]> |>).
  destruct (answer_establishes e p x1 r1 (PathLatencyMessage.Mk 0 (PathLatencyMessage.T lm) (PathLatencyMessage.S_ lm) proto_version) rx') as (r' & x' & P1 & P2 & P3 & P4 & P5); [apply lookup_insert_eq|done|].
  exists r', x', ps', (rs2 ++ [(re1 <| node ::= call (Queued next m' no_handler) |>, h)]). split; [exact P1|]. split; [exact P2|]. split; [exact P3|]. split; [|split; [exact Hps'|]].
  - destruct Hw1 as (_ & _ & Hc1 & _). eapply lives_chain; [|exact Hc1]. apply Forall2_app; [done|]. constructor; [|constructor]. split; [done|]. split; [|done]. apply passed_still. by eexists _, _.
  - change (RoutingSpec.received a) with a. fold r1. unfold a. rewrite P5. change (Path.m_BuiltHook x1) with (Path.m_BuiltHook x). rewrite fmap_app.
    destruct (if Path.m_BuiltHook x then built_hook p r' else Ok r') as [r4| | |]; done.
Qed.
Lemma first_test_sends e p x r (l : list router) m r' next m' : idle p x r -> send_up ours rank0 port0 e p (routing_BEncode ours rank0 port0 m) r = Ok r' -> sent_up p x next m' r r' ->
  DecayingHashSet.Contains (randbytes (draws (node r)) TUNNONCESIZE) (Path.m_UpstreamReplayFilter x) = false -> RoutingSpec.routing_ok m ->
  (length (dict (RoutingSpec.routing_text m)) < MAX_LINK_MSG_SIZE / 2)%nat ->
  exists r1, path_SendRoutingMessage e p proto_version (routing_BEncode ours rank0 port0 m) r = Ok (true, r1)
  /\ first_test e l r1 = let* ns := carry_up ours rank0 port0 e (pubkey (node r)) m' (node <$> l) in travel_down ours rank0 port0 e (work_down e) (set_nodes l ns) r'.
Proof using INS BDS RS.
  intros Hi Eup Hsent Hf Hok Hl. pose proof (RoutingSpec.writes_routing ours rank0 port0 m Hok) as Hw.
  destruct (submit_up e p x r _ _ Hi Hf Hw Hl) as (k & f & Esub). unfold send_up in Eup. rewrite Esub in Eup. cbn [rbind] in Eup. eexists. split; [exact Esub|].
  unfold first_test. destruct (UpstreamWork _) as [q| | |]; cbn [rbind] in *; [|discriminate..]. rewrite Eup. cbn [rbind].
  match goal with |- context [new_calls ?a (node r')] => change (new_calls a (node r')) with (new_calls (node r) (node r')) end. rewrite (sent_up_calls _ _ _ _ _ _ Hsent).
  by destruct Hsent as (k' & f' & tx & ->).
Qed.
Lemma path_tested e p x rs r : testable e p x rs r -> (forall k, in_width 64 (randint k) /\ randint k <> 0) ->
  exists r' x' ps rs', m_PathObjs r' !! p = Some x' /\ Path._status x' = ePathEstablished /\ Path.hops x' = Path.hops x /\ chain (pubkey (node r)) (Path.hops x) (nodes rs')
  /\ RoutingSpec.clean (m_Holder ps)
  /\ (let* (_, r) := HandlePathConfirmMessage e p r in first_test e rs.*1 r)
     = let* r := (if Path.m_BuiltHook x then built_hook p r' else Ok r') in
       Ok (took e p ps true (set_path p (fun x => x <| Path.m_BuiltHook := false |>) r), rs'.*1).
Proof using INS BDS CS RS.
  intros (Hx & (Hst & Hfu & Hfd & Hseq) & Hne & U1 & U2 & U3 & U4 & Hpr & Hch & Hks & His & Hrx & Hown & Ha0 & Ha & Hpl) Hrand.
  destruct (confirm_tests e p x r Hx Hst Hne) as (r2 & x2 & lm & cc & Econf & Hn2 & Hx2 & O2 & _ & W1 & W2 & W3 & W4 & M1 & M2 & M3 & M4 & X1 & X2 & X3 & X4 & X5).
  assert (RoutingSpec.routing_ok (RLatency lm)) as Hok.
  { split; [rewrite M2; unfold in_width; lia|]. split; [rewrite M1; apply Hrand|]. split; [rewrite M3; exact Hseq|exact M4]. }
  pose proof (latency_text_short _ Hok) as Hshort. assert (idle p x2 r2) as Hidle by (split_and!; congruence).
  assert (pubkey (node r2) = pubkey (node r)) as Hk2 by (by rewrite Hn2).
  destruct (carried_up ours rank0 port0 e p x2 r2 (RLatency lm) (nodes rs)) as (r3 & n & h & cfg & ps & between & c0 & m' & Hc0 & Eup & Hsent & Hln & Hlc & Hps & Hpv & HF & Ecar).
  { unfold up_ready. rewrite X2, Hk2. split; [exact Hidle|]. split; [exact Hch|]. split; [exact Hks|]. split; [exact His|]. split; [apply empty_fresh; by rewrite X4|]. split; [exact Ha|exact Hpl]. }
  { done. } { done. } { change (MAX_LINK_MSG_SIZE / 2)%nat with (4 * 1024)%nat. lia. }
  destruct (first_test_sends e p x2 r2 rs.*1 (RLatency lm) r3 _ _ Hidle Eup Hsent) as (r2' & Esub & Eft); [apply empty_fresh; by rewrite X4|exact Hok|change (MAX_LINK_MSG_SIZE / 2)%nat with (4 * 1024)%nat; lia|].
  rewrite Econf, Esub. cbn [rbind]. rewrite Eft, <- nodes_fst, Ecar. change (RoutingSpec.received (RLatency lm)) with (RLatency lm).
  destruct (nodes_snoc rs n h between Hln HF) as (rs0 & re & -> & <- & HF0). destruct Hsent as (k3 & f3 & tx3 & ->).
  set (x3 := x2 <| Path.m_UpstreamReplayFilter := f3 |> <| Path.m_TXRate := tx3 |>). set (r3 := r2 <| node := _ |> <| m_PathObjs ::= _ |>).
  destruct (test_answered e p x3 rs0 re h r3 lm (hop_rxID cfg) ps between) as (r' & x' & ps' & rs' & P1 & P2 & P3 & P4 & P5 & P6);
    [|exact Hok|change (Path.m_LastLatencyTestID x3) with (Path.m_LastLatencyTestID x2); rewrite X1; apply Hrand|exact HF0|].
  { unfold waits. change (Path.hops x3) with (Path.hops x2). change (Path.RXID x3) with (Path.RXID x2). change (m_OurPaths r3) with (m_OurPaths r2). change (pubkey (node r3)) with (pubkey (node r2)).
    assert (Path.RXID x2 = Path.RXID x) as HRX by (unfold Path.RXID, Path.first_hop; by rewrite X2). rewrite X2, HRX, O2, Hk2.
    split; [|split; [|split; [exact Hch|split; [exact Hks|split; [exact His|split; [exact Hrx|split; [exact Hown|split; [exact Ha0|split; [exact Ha|by rewrite <- Hfd, <- X5]]]]]]]]].
    - split; [apply lookup_insert_eq|]. split; [by rewrite <- X2 in Hne|]. split_and!; [exact (eq_trans W1 U1)|exact (eq_trans W2 U2)|exact (eq_trans W3 U3)|exact (eq_trans W4 U4)].
    - unfold parser_ready. change (m_Parser (node r3)) with (m_Parser (node r2)). rewrite Hn2. exact Hpr. }
  exists r', x', ps', rs'. split; [exact P1|]. split; [exact P2|]. split; [by rewrite P3|]. split; [|split; [exact P5|]].
  - change (pubkey (node r3)) with (pubkey (node r2)) in P4. change (Path.hops x3) with (Path.hops x2) in P4. by rewrite X2, Hk2 in P4.
  - rewrite P6. by rewrite <- X3.
Qed.

(** What a build needs: a running set, a path that was just made, whose routers are ready, may be
    spoken to and have ids of their own, and an owner with nothing else to do. *)
Definition buildable e s p x ts (l : list router) (addr : option (list Z)) r : Prop :=
  (exists b, m_PathSets r !! s = Some b /\ Builder._run b = true) /\ m_PathObjs r !! p = Some x /\ new_path x
  /\ Forall2 hop_ready ts (Path.hops x) /\ relays_ready ts (Path.hops x) l /\ Path.hops x <> [] /\ linked (Path.hops x) /\ ids_nonzero (Path.hops x) /\ (length (Path.hops x) <= max_len)%nat
  /\ (forall c, head (Path.hops x) = Some c -> m_OurPaths r !! hop_rxID c = None)
  /\ (forall q ip, head l = Some q -> addr = Some ip -> DecayingHashSet.Contains ip (m_PathLimits (node q)) = false)
  /\ session_allowed e (pubkey (node r)) = true /\ (forall c, c ∈ Path.hops x -> session_allowed e (hop_key c) = true /\ PathToRouterAllowed e (hop_key c) = true)
  /\ up_submit r = [] /\ up_gather r = [] /\ down_submit r = [] /\ down_gather r = [] /\ parser_ready (node r) /\ (forall q, last l = Some q -> parser_ready (node q)).
(** C3. A path whose routers are ready is built, tested and established: its hops have the keys of its
    owner, and what waits for it is told. The clock stands still meanwhile, and no number drawn is 0. *)
Theorem path_established e s p x ts l addr r : buildable e s p x ts l addr r -> (forall k, in_width 64 (randint k) /\ randint k <> 0) ->
  exists r' x' ps rs, m_PathObjs r' !! p = Some x' /\ Path._status x' = ePathEstablished /\ Forall2 same_hop (Path.hops x) (Path.hops x')
  /\ chain (pubkey (node r)) (Path.hops x') (nodes rs) /\ RoutingSpec.clean (m_Holder ps)
  /\ establish e s p addr l r
     = let* r := (if Path.m_BuiltHook x then built_hook p r' else Ok r') in
       Ok (took e p ps true (set_path p (fun x => x <| Path.m_BuiltHook := false |>) r), rs.*1).
Proof using INS BDS CC CS KS HS RS.
  intros ((b & Hb & Hrun) & Hx & (Hst & Hfu & Hfd & Hseq) & HT & HR & Hne & HL & HI & Hlen & Hown & Haddr & Ha0 & Ha & U1 & U2 & U3 & U4 & Hpr & Hpl) Hrand.
  destruct (built_run ours rank0 port0 e s p x b ts l addr r Hb Hrun Hx HT HR Hne HL HI Hlen Hown Haddr Ha0 Ha)
    as (r1 & cfgs & m & c & st & rs & E1 & Hx1 & Hsame & Hks & His & Hrx & ((kd & lc & Hn1) & V1 & V2 & V3 & V4) & Hsent & Ebt & Hch & Hkept & Elrsm).
  set (x1 := x <| Path.hops := cfgs |>) in *. assert (cfgs <> []) as Hne' by (by destruct Hsame).
  assert (pubkey (node r1) = pubkey (node r)) as Hk1 by (by rewrite Hn1).
  destruct (path_tested e p x1 rs r1) as (r' & x' & ps & rs' & P1 & P2 & P3 & P4 & P5 & P6); [|exact Hrand|].
  { unfold testable. rewrite Hk1. change (Path.hops x1) with cfgs.
    split; [exact Hx1|]. split; [exact (conj Hst (conj Hfu (conj Hfd Hseq)))|]. split; [exact Hne'|].
    split; [exact (eq_trans V1 U1)|]. split; [exact (eq_trans V2 U2)|]. split; [exact (eq_trans V3 U3)|]. split; [exact (eq_trans V4 U4)|].
    split; [unfold parser_ready; rewrite Hn1; exact Hpr|]. split; [exact Hch|]. split; [exact Hks|]. split; [exact His|]. split; [exact Hrx|].
    split; [by eapply kept_own; [eapply relays_same|]|]. split; [exact Ha0|].
    split; [apply (allowed_same (fun q => session_allowed e q = true) (Path.hops x)); [done|]; intros; by apply Ha|].
    intros n h Hln. apply (kept_parser l rs n h); done. }
  exists r', x', ps, rs'. split; [exact P1|]. split; [exact P2|]. split; [by rewrite P3|]. split; [rewrite P3; by rewrite Hk1 in P4|]. split; [exact P5|].
  unfold establish. rewrite E1. cbn [rbind]. rewrite Hsent, Ebt. cbn [rbind]. rewrite Elrsm. change (Path.m_BuiltHook x1) with (Path.m_BuiltHook x) in P6. rewrite <- P6.
  by destruct (HandlePathConfirmMessage e p r1) as [[]| | |].
Qed.
End life.
