(* ===== verification/PathSafety.v ===== *)
(** * Hops that are picked, and hops that are gone (theorems on PathContext and TransitHop) *)

From S2P Require Import Prelude Buffer Bencode Codec CryptoApi Str NetInt IpRange DnsName DnsMessage Contact TrafficPolicy Service Frame Protocol Kademlia DhtMessage Routing LinkMessage Profiling TransitHop Path PathContext.

(** ** The hops of a build *)
Section hops.
Context {D X P : Type}.
Abbreviation router := (Router D X P).
Implicit Types (r : router) (be : BuildEnv) (rc : RouterContact.t).
Abbreviation pk := RouterContact.pubkey.

Lemma contact_set_key l rc : rc ∈ l -> exists d, d ∈ contact_set l /\ pk d = pk rc.
Proof.
  unfold contact_set. intros Hin.
  assert (forall acc, (rc ∈ l \/ exists d, d ∈ acc /\ pk d = pk rc) -> exists d, d ∈ foldl (fun acc c => if existsb (fun d => bool_decide (pk d = pk c)) acc then acc else acc ++ [c]) acc l /\ pk d = pk rc) as H;
    [|apply H; by left]. clear Hin.
  induction l as [|c l IH]; intros acc [Hin|Hacc]; cbn [foldl]; try (by apply IH; right); [by apply elem_of_nil in Hin|by destruct Hacc as (d & ? & ?); exists d| |].
  - apply IH. apply elem_of_cons in Hin as [<-|Hin]; [|by left]. right. destruct (existsb _ acc) eqn:E.
    + apply existsb_exists in E as (d & Hd & Hk). apply bool_decide_eq_true in Hk. exists d. split; [by apply list_elem_of_In|done].
    + exists rc. split; [apply elem_of_app; right; by left|done].
  - apply IH. right. destruct Hacc as (d & Hd & Hk). exists d. split; [|done]. case_match; [done|]. apply elem_of_app. by left.
Qed.
Lemma next_hop_new be exclude erc hops r rc : next_hop_ok be exclude erc hops r rc = true -> (pk rc ∉ exclude) /\ pk rc <> pk erc /\ forall h, h ∈ hops -> pk h <> pk rc.
Proof.
  unfold next_hop_ok. intros H. repeat (apply andb_true_iff in H as [H ?]). apply negb_true_iff, bool_decide_eq_false in H. split; [done|]. split; [by apply negb_true_iff, bool_decide_eq_false in H0|].
  intros h Hh Hk. destruct (contact_set_key (erc :: hops) h) as (d & Hd & Hdk); [by right|].
  rewrite forallb_forall in H2. specialize (H2 d (proj1 (list_elem_of_In _ _) Hd)). apply negb_true_iff, bool_decide_eq_false in H2. congruence.
Qed.
(** The hops that are picked so far: the first one, and others that are new each time. *)
Definition picked (exclude : list RouterID) erc (first : RouterContact.t) (more : list RouterContact.t) : Prop :=
  NoDup (pk <$> first :: more) /\ Forall (fun rc => (pk rc ∉ exclude) /\ pk rc <> pk erc) more.
Lemma pick_hops_picked be exclude erc first r n : forall more hops, picked exclude erc first more -> pick_hops be exclude erc (S n) (first :: more) r = Some hops ->
  exists more', hops = first :: more' ++ [erc] /\ length more' = (length more + n)%nat /\ picked exclude erc first more'.
Proof.
  induction n as [|n IH]; intros more hops [Hn Hf] E; cbn [pick_hops] in E.
  { injection E as <-. exists more. split; [done|]. split; [lia|]. by split. }
  destruct (NodeDB.GetRandom _ _) as [rc|] eqn:G; [|done]. unfold NodeDB.GetRandom in G. apply fmap_Some in G as (en & Hfind & ->). apply find_some in Hfind as [_ Hok].
  destruct (next_hop_new _ _ _ _ _ _ Hok) as (H1 & H2 & H3). destruct (IH (more ++ [NodeDB.rc en.2]) hops) as (more' & -> & Hl & Hp); [|done|exists more'; split; [done|]; split; [rewrite length_app in Hl; cbn in Hl; lia|exact Hp]].
  split; [|apply Forall_app; by repeat constructor]. rewrite app_comm_cons, fmap_app. apply NoDup_app. split; [done|]. split; [|apply NoDup_singleton].
  intros k Hk Hk'. apply list_elem_of_singleton in Hk' as ->. apply list_elem_of_fmap in Hk as (h & Hh & Hin). by apply (H3 h).
Qed.
(** C34. The hops of a path that is built to a router start at a neighbour with a session. When two or more are
    asked for there are as many, and the last one is the router. No router is there twice, but for the
    neighbour, which may be the end as well, and none before the end is excluded. When fewer are asked for
    the neighbour is the only hop, whichever router was asked for. *)
Theorem build_hops_distinct be numHops endpoint exclude r hops : GetHopsAlignedToForBuild be numHops endpoint exclude r = Some hops ->
  exists first erc, NodeDB.Get endpoint (nodedb be) = Some erc /\ (exists q, q ∈ peers be /\ first_hop_ok be exclude r q = true /\ remote_rc q = first) /\ (pk first ∉ exclude)
  /\ ((numHops <= 1)%nat /\ hops = [first]
      \/ exists more, hops = first :: more ++ [erc] /\ length hops = numHops /\ NoDup (pk <$> first :: more) /\ NoDup (pk <$> more ++ [erc]) /\ Forall (fun rc => pk rc ∉ exclude) more).
Proof.
  intros E. unfold GetHopsAlignedToForBuild in E. destruct (SelectFirstHop be exclude r) as [first|] eqn:Ef; [|done]. destruct (NodeDB.Get endpoint (nodedb be)) as [erc|] eqn:Ee; [|done].
  unfold SelectFirstHop in Ef. apply fmap_Some in Ef as (q & Hq & ->). apply find_some in Hq as [Hq Hok].
  exists (remote_rc q), erc. split; [done|]. split; [exists q; split_and!; [by apply list_elem_of_In|done|done]|]. split.
  { unfold first_hop_ok in Hok. repeat (apply andb_true_iff in Hok as [Hok ?]).
    by match goal with H : negb (bool_decide (_ ∈ exclude)) = true |- _ => apply negb_true_iff, bool_decide_eq_false in H end. }
  destruct numHops as [|[|n]]; [left; split; [lia|by injection E as <-]..|]. right.
  replace (S (S n) - 1)%nat with (S n) in E by lia. destruct (pick_hops_picked be exclude erc (remote_rc q) r n [] hops) as (more & -> & Hl & Hnd & Hf); [|done|].
  { split; [apply NoDup_singleton|constructor]. }
  exists more. split; [done|]. split; [cbn [length]; rewrite length_app; cbn [length] in *; lia|]. split; [done|]. split.
  - rewrite fmap_app. apply NoDup_app. split; [by apply NoDup_cons in Hnd as [_ Hnd]|]. split; [|apply NoDup_singleton].
    intros k Hk Hk'. apply list_elem_of_singleton in Hk' as ->. apply list_elem_of_fmap in Hk as (h & Hh & Hin). rewrite Forall_forall in Hf. destruct (Hf h Hin) as [_ Hne]. by symmetry in Hh.
  - eapply Forall_impl; [exact Hf|by intros ? []].
Qed.
End hops.

(** ** Hops that are gone *)
Section gone.
Context {D X : Type}.
Context {CR : Crypto}.
Implicit Types (n : Node D X) (h : nat).
Lemma expire_entries_run now (hops : gmap nat TransitHop.t) l : Forall (fun y => is_Some (hops !! y.2)) l ->
  exists kept removed, expire_entries now hops l = Ok (kept, removed) /\ forall k h, (k, h) ∈ kept -> exists hop, hops !! h = Some hop /\ TransitHop.Expired now hop = false.
Proof.
  induction 1 as [|[k h] l [hop Hh] _ IH]; [exists [], []; split; [done|]; intros k h H; by apply elem_of_nil in H|]. cbn in Hh. destruct IH as (kept & removed & E & Hk).
  cbn [expire_entries]. rewrite Hh, E. cbn [rbind]. destruct (TransitHop.Expired now hop) eqn:Ee; [by exists kept, (RemovePath k :: removed)|].
  exists ((k, h) :: kept), removed. split; [done|]. intros k' h' Hin. apply elem_of_cons in Hin as [[= -> ->]|Hin]; [by exists hop|by apply Hk in Hin].
Qed.
(** C33. A hop expires while a message for it waits for the worker: the worker then reads through a null pointer. *)
Theorem expired_hop_with_traffic now n h hop ev q : Forall (fun y => is_Some (m_Hops n !! y.2)) (m_TransitPaths n) -> m_Hops n !! h = Some hop -> TransitHop.Expired now hop = true -> h ∉ m_Held n ->
  exists n', expire_transit now n = Ok n' /\ (m_UpstreamSubmit n = (h, ev) :: q -> RunUpstream n' = Oob) /\ (m_DownstreamSubmit n = (h, ev) :: q -> RunDownstream n' = Oob).
Proof.
  intros Ht Hh He Hheld. destruct (expire_entries_run now (m_Hops n) (m_TransitPaths n) Ht) as (kept & removed & E & Hk). unfold expire_transit.
  change (m_Hops (n <| m_PathLimits ::= _ |>)) with (m_Hops n). change (m_TransitPaths (n <| m_PathLimits ::= _ |>)) with (m_TransitPaths n). rewrite E. cbn [rbind]. eexists. split; [done|].
  assert (filter (fun '(p, _) => p ∈ kept.*2 ++ m_Held n) (m_Hops n) !! h = None) as Hgone.
  { apply map_lookup_filter_None. right. intros hop' Hh' Hin. apply elem_of_app in Hin as [Hin|Hin]; [|done]. apply list_elem_of_fmap in Hin as ([k h'] & -> & Hin).
    destruct (Hk _ _ Hin) as (hop2 & H1 & H2). cbn in *. congruence. }
  split; intros Hs.
  - unfold RunUpstream, hop_at. match goal with |- context [m_UpstreamSubmit ?m] => change (m_UpstreamSubmit m) with (m_UpstreamSubmit n) end. rewrite Hs.
    match goal with |- context [m_Hops ?m !! h] => change (m_Hops m !! h) with (filter (fun '(p, _) => p ∈ kept.*2 ++ m_Held n) (m_Hops n) !! h) end. by rewrite Hgone.
  - unfold RunDownstream, hop_at. match goal with |- context [m_DownstreamSubmit ?m] => change (m_DownstreamSubmit m) with (m_DownstreamSubmit n) end. rewrite Hs.
    match goal with |- context [m_Hops ?m !! h] => change (m_Hops m !! h) with (filter (fun '(p, _) => p ∈ kept.*2 ++ m_Held n) (m_Hops n) !! h) end. by rewrite Hgone.
Qed.
End gone.
