(* ===== verification/PathRef.v ===== *)
(** * A small network on which the theorems on paths are applied

    An owner and two routers with the reference cryptography: first the routers as hops of a path
    that is there, then the routers as they are before the path is built. *)

From S2P Require Import Prelude Buffer Bencode Codec CryptoApi Str NetInt IpRange DnsName DnsMessage Contact TrafficPolicy Service Frame Protocol Kademlia DhtMessage Routing LinkMessage Profiling TransitHop Path PathContext PathSpec PathReply PathBuild PathLife PathSafety.
#[local] Existing Instances pton_dec ntop_dec bt_none oxenc_dict_ref oxenc_ref crypto_xor keypairs_xor uninit_ref RouterContact.eta_t.

Module PathRef.
Definition random_seven : Random := {| randint := fun _ => 7; randbytes := fun _ n => replicate n 7 |}.
#[export] Instance random_seven_spec : RandomSpec random_seven.
Proof. split; intros; cbn; [lia|apply length_replicate]. Qed.
#[export] Existing Instance random_seven.
#[export] Instance no_dht : DhtApi unit := {| dht_HandleMessage _ d := Ok (true, [], d); dht_RelayRequestForPath _ _ d := Ok (true, d) |}.
#[export] Instance no_exits : ExitApi unit := {|
  ObtainNewExit _ _ _ x := (false, x); FindEndpointForPath _ _ := None; exit_PubKey _ _ := []; exit_Close _ x := x; exit_UpdateLocalPath _ _ x := (false, x);
  exit_QueueOutboundTraffic _ _ _ _ _ x := (false, x) |}.
(** The owner counts the paths that were built. *)
Abbreviation router := (Router unit unit nat).
#[export] Instance counting : PathOwner router := {|
  HandlePathBuildTimeout _ _ r := Ok r; HandlePathDied _ _ r := Ok r; HandlePathBuildFailedAt _ _ _ r := Ok r; built_hook _ r := Ok (r <| owner ::= S |>);
  data_handler _ _ r := Ok (true, r); drop_handler _ _ _ r := Ok (true, r); exit_updated _ r := Ok (true, r); exit_closed _ r := Ok (true, r);
  exit_traffic _ _ _ _ r := Ok (true, r); obtained_exit _ _ r := Ok (true, r) |}.

Definition key (c : Z) : list Z := replicate 32 c.
Definition id (c : Z) : list Z := replicate 16 c.
Definition contact (c : Z) : RouterContact.t := contact_ref <| RouterContact.pubkey := key c |> <| RouterContact.signature := zeros 64 |> <| RouterContact.last_updated := 1000 |>.
Definition env : Env := MkEnv 5000 (fun _ => true) (fun _ => true).
Definition relay (c : Z) (hops : gmap nat TransitHop.t) (table : list (PathID_t * nat)) : Node unit unit :=
  MkNode (key c) (key c ++ key c) (key 9 ++ key 9) true (DecayingHashSet.Mk 1000 ∅) hops (size hops) [] table [] [] [] [] Routing.parser_init [] 0 tt tt.
Definition router_of (n : Node unit unit) (paths : gmap nat Path.t) (ours : gmap PathID_t nat) (sets : gmap nat Builder.t) : router :=
  MkRouter n paths (size paths) ours sets (Profiling.Mk ∅ 0 true) (DecayingHashSet.Mk 1000 ∅) [] [] [] [] 0%nat.

(** The path of two hops as it is made, and with the keys of a build. *)
Definition made : Path.t := match Path.make [contact 11; contact 12] [(id 4, id 1); (id 3, id 2)] 0 0 0 with Ok x => x <| Path.m_BuiltHook := true |> | _ => Path.Mk [] 0 (Introduction.Mk [] [] 0 0 0) 0 0 0 0 0 0 0 ePathBuilding 0 0 0 0 0 [] (DecayingHashSet.Mk 0 ∅) (DecayingHashSet.Mk 0 ∅) 0 false false false false false false 0 end.
Definition keyed_hop (rc : Z) (tx rx : Z) : PathHopConfig := MkHopConfig (id tx) (id rx) (contact rc) (zeros 64) (key (20 + rc)) (key (30 + rc)) (key 12) (key 5) default_lifetime.
Definition built : Path.t := made <| Path.hops := [keyed_hop 11 2 1; keyed_hop 12 3 2] |> <| Path._status := ePathEstablished |>.
Definition hop_object (c : PathHopConfig) (up down : Z) : TransitHop.t :=
  TransitHop.Mk (MkInfo (hop_txID c) (hop_rxID c) (key up) (key down)) (shared c) (hop_nonceXOR c) 0 default_lifetime 0 false 0.
Definition hop_node (rc tx rx up down : Z) : Node unit unit := relay rc {[0%nat := hop_object (keyed_hop rc tx rx) up down]} [(id tx, 0%nat); (id rx, 0%nat)].
Definition owner_of (x : Path.t) (table : gmap PathID_t nat) : router :=
  router_of (relay 10 ∅ []) {[0%nat := x]} table {[0%nat := Builder.Mk 4 (MkStats 0 0 0 0) [] ∅ true (key 9 ++ key 9) 2 0 0]}.
Definition chain_nodes : list (router * nat) :=
  [(router_of (hop_node 11 2 1 12 10) ∅ ∅ ∅, 0%nat); (router_of (hop_node 12 3 2 12 11) ∅ ∅ ∅, 0%nat)].
Definition latency_test : routing_message := RLatency (PathLatencyMessage.Mk 8 0 1 proto_version).

Lemma serves_ref rc tx rx up down : serves (hop_node rc tx rx up down) 0 (hop_object (keyed_hop rc tx rx) up down) (keyed_hop rc tx rx) (key down) (key up).
Proof.
  assert (m_Hops (hop_node rc tx rx up down) !! 0%nat = Some (hop_object (keyed_hop rc tx rx) up down)) as Hh by apply lookup_singleton_eq.
  unfold serves. split_and!; try done.
  - intros i Hi. unfold GetByDownstream, transit_get. cbn [m_TransitPaths hop_node relay MapGet]. rewrite Hh. cbn [TransitHop.info hop_object downstream].
    rewrite (bool_decide_true (key down = key down)) by done. rewrite !andb_true_r. destruct Hi as [-> | ->]; cbn [hop_txID hop_rxID keyed_hop]; [by rewrite bool_decide_true|].
    rewrite (bool_decide_true (id rx = id rx)) by done. by case_bool_decide.
  - unfold TransitHopByUpstream, transit_get. cbn [m_TransitPaths hop_node relay MapGet]. rewrite Hh. cbn [TransitHop.info hop_object upstream hop_txID keyed_hop].
    by rewrite (bool_decide_true (id tx = id tx)), (bool_decide_true (key up = key up)).
Qed.
Lemma chain_ref : chain (key 10) (Path.hops built) (nodes chain_nodes).
Proof.
  split; [exists (hop_object (keyed_hop 11 2 1) 12 10); apply serves_ref|]. split; [by vm_compute|]. split; [done|]. exists (hop_object (keyed_hop 12 3 2) 12 11). apply (serves_ref 12 3 2 12 11).
Qed.
Lemma sized_ref : keys_sized (Path.hops built) /\ ids_sized (Path.hops built).
Proof. split; repeat constructor. Qed.
Lemma up_ready_ref : up_ready env 0 built (owner_of built {[id 1 := 0%nat]}) (nodes chain_nodes).
Proof.
  split; [split_and!; done|]. split; [exact chain_ref|]. split; [apply sized_ref|]. split; [apply sized_ref|]. split; [reflexivity|]. split; [done|].
  intros n h [= <- <-]. split; [repeat split|done].
Qed.
Lemma path_carries_down_witness :
  exists res, travel_down [] 0 0 env (reply [] 0 0 env 0 (routing_BEncode [] 0 0 latency_test)) chain_nodes.*1 (owner_of built {[id 1 := 0%nat]}) = Ok res.
Proof.
  destruct (path_carries_down [] 0 0 env 0 built (owner_of built {[id 1 := 0%nat]}) chain_nodes (router_of (hop_node 12 3 2 12 11) ∅ ∅ ∅) 0 latency_test)
    as (between & rx & ps & f & k & n' & _ & _ & _ & E).
  - split; [split_and!; done|]. split; [split; [repeat split|done]|]. split; [exact chain_ref|]. split; [done|]. split; [apply sized_ref|]. split; [apply sized_ref|].
    split; [intros rx [= <-]; reflexivity|]. split; [by repeat constructor|]. split; [done|]. split; [done|]. split; [done|]. reflexivity.
  - split_and!; unfold in_width; cbn; done || lia.
  - done.
  - apply Nat.ltb_lt. vm_compute. reflexivity.
  - rewrite E. clear E. eexists. cbn [path_HandleRouting RoutingSpec.received latency_test]. unfold path_HandlePathLatencyMessage. reflexivity.
Defined.

(** The routers before the path is built. *)
Definition new_routers : list router := [router_of (relay 11 ∅ []) ∅ ∅ ∅; router_of (relay 12 ∅ []) ∅ ∅ ∅].
Definition new_owner : router := owner_of made ∅.
Lemma hop_ready_ref c tx rx k1 k2 k3 k4 k5 t : c = 11 \/ c = 12 -> hop_ready (key 9) (MkHopConfig (id tx) (id rx) (contact c) k1 k2 k3 k4 k5 t).
Proof.
  intros Hc. split; [done|]. split; [done|]. split; [|done]. split; [split; [|done]; apply contact_ref_ok; [done|done|unfold time_ok; lia]|]. split; [|done].
  apply Nat.leb_le. by destruct Hc as [-> | ->]; vm_compute.
Qed.
Lemma relay_ready_ref c cfg : hop_key cfg = key c -> relay_ready (key 9) cfg (router_of (relay c ∅ []) ∅ ∅ ∅).
Proof. intros Hk. split_and!; try done. constructor. Qed.
Lemma buildable_ref : buildable env 0 0 made [key 9; key 9] new_routers (Some [1; 2; 3; 4]) new_owner.
Proof.
  split; [by eexists|]. split; [done|]. split; [by split_and!|]. split; [constructor; [apply (hop_ready_ref 11 2 1); auto|constructor; [apply (hop_ready_ref 12 3 2); auto|constructor]]|].
  split; [split; [by apply relay_ready_ref|split; [by apply relay_ready_ref|done]]|]. split; [done|]. split; [split; [done|split; [by vm_compute|done]]|].
  split; [by repeat constructor|]. split; [apply Nat.leb_le; reflexivity|]. split; [intros c [= <-]; reflexivity|]. split; [intros q ip [= <-] [= <-]; reflexivity|].
  split; [done|]. split; [done|]. split; [done|]. split; [done|]. split; [done|]. split; [done|]. split; [split; [repeat split|done]|]. intros q [= <-]. split; [repeat split|done].
Qed.
Lemma path_built_witness : exists r1 next m st rs, AsyncGenerateKeys [] 0 0 env 0 0 new_owner = Ok r1 /\ sent (node new_owner) (node r1) = Some (next, LCommit m)
  /\ build_through [] 0 0 env (Some [1; 2; 3; 4]) (key 10) m new_routers = Ok (Some (next, key 10, st), rs).
Proof.
  pose proof buildable_ref as ((b & Hb & Hrun) & Hx & _ & H1 & H2 & H3 & H4 & H5 & H6 & H7 & H8 & H9 & H10 & _).
  destruct (path_built [] 0 0 env 0 0 made b [key 9; key 9] new_routers (Some [1; 2; 3; 4]) new_owner Hb Hrun Hx H1 H2 H3 H4 H5 H6 H7 H8 H9 H10)
    as (r1 & cfgs & m & c & st & rs & E1 & _ & Hsame & _ & _ & _ & _ & E2 & E3 & _).
  exists r1, (hop_key c), m, st, rs.*1. exact (conj E1 (conj E2 E3)).
Defined.
Lemma path_established_witness : exists r rs x, establish [] 0 0 env 0 0 (Some [1; 2; 3; 4]) new_routers new_owner = Ok (r, rs) /\ m_PathObjs r !! 0%nat = Some x /\ Path._status x = ePathEstablished.
Proof.
  destruct (path_established [] 0 0 env 0 0 made [key 9; key 9] new_routers (Some [1; 2; 3; 4]) new_owner buildable_ref) as (r & x & ps & rs & H1 & H2 & _ & _ & _ & E).
  - intros k. cbn. unfold in_width. lia.
  - change (Path.m_BuiltHook made) with true in E. cbn [built_hook counting rbind] in E. eexists _, _, (x <| Path.m_BuiltHook := false |> <| Path.m_LastRecvMessage := Now env |>). split; [exact E|]. split; [|exact H2].
    transitivity (alter (fun x => x <| Path.m_LastRecvMessage := Now env |>) 0%nat (alter (fun x => x <| Path.m_BuiltHook := false |>) 0%nat (m_PathObjs r)) !! 0%nat); [reflexivity|].
    by rewrite !lookup_alter_eq, H1.
Defined.

(** Routers to pick from. *)
Definition picks : BuildEnv :=
  MkBuildEnv [Peer true true (contact 11)] (fun _ => false) (NodeDB.Mk {[key 12 := NodeDB.MkEntry (contact 12) 0]} false 0) (fun _ => [(key 12, NodeDB.MkEntry (contact 12) 0); (key 13, NodeDB.MkEntry (contact 13) 0)]) (fun _ => true).
Lemma build_hops_distinct_witness : NoDup [key 11; key 13] /\ GetHopsAlignedToForBuild picks 3 (key 12) [key 14] new_owner = Some [contact 11; contact 13; contact 12].
Proof.
  assert (GetHopsAlignedToForBuild picks 3 (key 12) [key 14] new_owner = Some [contact 11; contact 13; contact 12]) as E by (vm_compute; reflexivity). split; [|exact E].
  destruct (build_hops_distinct picks 3 (key 12) [key 14] new_owner [contact 11; contact 13; contact 12]) as (f & erc & _ & _ & _ & [[Hle _]|(more & H & _ & Hn & _)]); [exact E|lia|].
  injection H as <- H. destruct more as [|a [|b more]]; [done| |by apply (f_equal length) in H; rewrite length_app in H; cbn in H; lia]. injection H as <- <-. exact Hn.
Defined.
Lemma expired_hop_with_traffic_witness :
  exists n', expire_transit (2 * default_lifetime) ((hop_node 11 2 1 12 10) <| m_UpstreamSubmit := [(0%nat, ([1; 2; 3], key 4))] |>) = Ok n' /\ RunUpstream n' = Oob.
Proof.
  destruct (expired_hop_with_traffic (2 * default_lifetime) ((hop_node 11 2 1 12 10) <| m_UpstreamSubmit := [(0%nat, ([1; 2; 3], key 4))] |>) 0 (hop_object (keyed_hop 11 2 1) 12 10) ([1; 2; 3], key 4) [])
    as (n' & E & Hup & _); [repeat constructor; by eexists|done|reflexivity|set_solver|]. exists n'. split; [exact E|]. by apply Hup.
Defined.
End PathRef.
